(* ===== verification/_CoqProject ===== *)
-Q . S2P
Prelude.v
ListHead.v
MemLayout.v
Buddy.v
BuddyInv.v
BuddySpec.v
PageAlloc.v
Slab.v
SlabSpec.v
Pipe.v
PipeSys.v
CString.v
Printf.v
Vm.v
PageTable.v
VmSpec.v
Mmap.v
UserMem.v
UserMemSpec.v
AddrSpace.v
Fork.v
ForkSpec.v
MmSpec.v
TaskQueue.v
Proc.v
ProcInv.v
Signal.v
SignalSpec.v
Futex.v
SchedSys.v
SchedSpec.v
SchedRun.v
Exec.v
ExecSpec.v
ExecBuild.v
Vfs.v
VfsInv.v
RamfsSpec.v
RamfsRename.v
RamfsData.v
Namei.v
NameiSpec.v
NameiOps.v
NameiCalls.v
NameiLive.v
FsInit.v
NameiClaims.v
VfsFrame.v
File.v
SysFile.v
FileInv.v
FileOps.v
FileIo.v
FileCalls.v
FileDesc.v
FileOpen.v
FileTasks.v
FileClaims.v
FileRead.v
FileDemo.v
RBio.v
RBioSpec.v
RLog.v
RLogSpec.v
RLogSys.v
RLogClaims.v
Console.v
ConsoleSys.v
ConsoleLine.v
Spinlock.v
Block.v
BlockSpec.v
BlockSys.v
BlockSect.v
Ext2.v
Ext2Spec.v
Ext2Ops.v
Ext2Demo.v
