(* ===== verification/Prelude.v ===== *)
(** * A verification of tiny_os

    tiny_os is a small Unix-like kernel in C for 32-bit x86 (src/arch/x86), with
    an older kernel for RISC-V beside it (src/arch/riscv).  The development
    translates the machine-independent parts of the first, and the crash-safe
    disk layer of the second, into Rocq functions and proves what makes them
    correct.  Everything is a shallow embedding: a C function
    is a Rocq function from the state it works on to a result and a new state,
    and its effects other than memory are the [outcome] of this file ([Panic],
    a wild access, or running out of the fuel of a loop).  A theorem that says
    a call works says that its outcome is [Done].

    ** The program and its parts

    - Physical pages come from a buddy allocator (mm/buddy.c), which a slab
      allocator (mm/slab.c) cuts into heap blocks.  Both thread their free lists
      through the nodes of list.h.
    - Page tables, copy on write, demand paging and the copies between kernel
      and user memory are in mm/vm.c.  The metadata of an address space (its
      mappings and heap break) is in mm/mmap.c and proc.h.
    - Processes, the run queue and the scheduler are in proc.c and task_queue.c;
      timer.c drives pre-emption.  execve.c builds the address space of a new
      program.
    - Processes talk through pipes (fs/pipe.c), signals (ipc/signal.c) and
      futexes (ipc/futex.c).
    - The file system has inodes and directory entries (fs/inode.c, fs/dcache.c),
      path lookup and the calls on paths (fs/namei.c), and a file system in memory
      (fs/ramfs/inode.c), which holds the root.  Open files and descriptors are
      in fs/file.c, the system calls on them in fs/sysfile.c.
    - fs/ext2/inode.c reads ext2 disks, sector by sector through the block layer
      (block/blk-core.c, block/bio.c), which queues requests for the disk driver
      (ide.c).  The console (console.c) turns the characters of the keyboard
      (kbd.c) into lines.  lock/spinlock.c excludes the CPUs from each other.
    - The RISC-V kernel keeps disk blocks in a buffer cache (bio.c) and writes
      them through a redo log (log.c), so that a crash loses whole operations
      only.
    - string.c, utils.c and printf.c are the kernel's small C library.

    ** Files

    - [Prelude]: 32-bit arithmetic, outcomes, loops, shared lemmas and tactics.
    - [ListHead]: list.h at the level of pointers.  [hlist] relates the nodes to
      the sequence they hold, and every operation is refined to one on it.
    - [MemLayout]: mm/memlayout.h, page arithmetic and byte memory.
    - [Buddy], [BuddyInv], [BuddySpec]: mm/buddy.c, its invariant (the blocks
      partition the pool; a free list holds exactly the free blocks of its order)
      and its contract [pmm_ok s U] over the map [U] of allocated blocks.
    - [PageAlloc]: the interface [PageAllocator] between the page allocator and
      its clients; the buddy allocator is an instance.
    - [Slab], [SlabSpec]: mm/slab.c over any [PageAllocator].
    - [Pipe], [PipeSys]: fs/pipe.c cut at its sleeps, and any number of readers
      and writers on one pipe as a step relation.
    - [CString], [Printf]: string.c, utils.c and printf.c.
    - [Vm], [PageTable], [VmSpec]: page tables of mm/vm.c as bytes in memory, the
      abstract address space [uspace s U D T M O] over them, and each operation on
      it.
    - [Mmap], [MmSpec]: mm/mmap.c and [sys_brk] of sysproc.c.
    - [UserMem], [UserMemSpec]: demand paging, [copyin]/[copyout], program
      loading.  [served] says how a user's view of memory may change.
    - [AddrSpace], [Fork], [ForkSpec]: creation and destruction of a space, and
      [uvmcopy], with two spaces sharing the pool.
    - [TaskQueue], [Proc], [ProcInv]: task_queue.c and the sections of proc.c
      under [proc_lock], over the interface [KernelMem] to memory management.
    - [Signal], [SignalSpec], [Futex]: ipc/signal.c and ipc/futex.c.
    - [SchedSys], [SchedSpec], [SchedRun]: the sections put together into a
      system of processes on CPUs, its invariant, and its runs from boot.
    - [Exec], [ExecSpec], [ExecBuild]: execve.c, from the bytes of an ELF or flat
      image to the address space and the initial stack.
    - [Vfs], [VfsInv]: inodes, directory entries and ramfs, and the invariant
      [vfs_ok X H s]: the directories form a graph in which every directory has
      one name, and a reference count is the number of entries, working
      directories and holders [H] of the inode.
    - [RamfsSpec], [RamfsRename], [RamfsData]: the operations of ramfs on
      directories, on two directories, and on the contents of files.
    - [Namei], [NameiSpec], [NameiOps], [NameiCalls], [NameiLive]:
      fs/namei.c; the pure resolver [p_namex] that lookup implements, how it
      depends on the tree, the calls on paths, and when lookup ends.
    - [FsInit], [NameiClaims]: start-up, and what the calls promise.
    - [File], [SysFile]: fs/file.c and fs/sysfile.c over the interfaces
      [UserMemory] (the copies to and from user memory) and [Devices] (the
      drivers behind character and block files).
    - [VfsFrame], [FileInv], [FileOps], [FileIo], [FileCalls], [FileDesc],
      [FileOpen], [FileTasks]: the invariant [sys_ok] of tasks, descriptors, open
      files, pipes and inodes, and each call on it.
    - [FileClaims], [FileRead]: runs of any number of processes from
      start-up, what holds in all of them, and what reads and writes transfer.
    - [RBio], [RBioSpec]: arch/riscv/kernel/bio.c and sleeplock.c.
      [cinv s pins cont] relates the cache to the contents [cont] its users see
      and the blocks it may not write back or forget ([pins]).
    - [RLog], [RLogSpec]: arch/riscv/kernel/log.c, and the start of the machine on
      a disk with a log.
    - [RLogSys], [RLogClaims]: any number of processes that make operations on
      the log, as a step relation with one step per block written, and its runs.
    - [Console], [ConsoleSys], [ConsoleLine]: console.c and kbd.c; the two lists
      that specify the console, any number of interrupts and readers on it, and
      what is read of what is typed.  [Terminal] is the interface that both the
      variables of console.c and the specification implement.
    - [Spinlock]: lock/spinlock.c on any number of CPUs, one step per access.
    - [Block], [BlockSpec], [BlockSys], [BlockSect]: the block layer and the
      request queues of ide.c; the invariant of any number of calls in progress,
      their runs, and a call on its own.
    - [Ext2], [Ext2Spec], [Ext2Ops]: fs/ext2/inode.c; the contents of a file as one
      sequence of bytes and of a directory as a sequence of entries; the cache of
      inodes over all runs, and what the operations return.
    - Concrete states on which the theorems are used, and the flaws the model
      shows, are at the end of [MmSpec], [SchedRun], [ExecBuild], [NameiClaims],
      [RLogClaims], [BlockSect], [ConsoleLine] and [Spinlock], and in [FileDemo]
      and [Ext2Demo].

    ** What is proved

    Memory: every entry point of the buddy allocator returns and moves the set
    of allocated blocks as documented; it fails only if no aligned run is free.
    Heap blocks never overlap.  Every page table operation changes exactly the
    entries it should and keeps reference counts equal to the number of uses.
    [copyin] and [copyout] move the bytes the user sees.  After a fork, parent
    and child read the same and neither sees the other's writes.  [exec_load]
    builds exactly the memory the image asks for and leaks nothing when it
    fails.

    Processes: on one CPU, no run of the system from boot panics or goes wrong,
    the run queue is a FIFO queue of exactly the runnable processes, and a
    runnable process gets the CPU within a bounded number of time slices.
    Signals are delivered in order, on a frame from which [sigreturn] restores
    the interrupted program.  [FUTEX_WAIT] sleeps exactly if the word has the
    expected value.  A pipe is a FIFO of bytes for any interleaving, and no
    reader or writer sleeps while it could go on.

    Files: path lookup is the resolver on the tree of names and hands over exactly
    one reference; it ends if no symbolic link is absolute.  Every call on a path
    keeps the invariant; a created name is found, a removed one is not, [rename]
    moves one name, and all other names and files stay.  What is written to a file
    is read back.  The path of the working directory leads to it.  Whatever calls
    any processes make, in any interleaving, each step returns; a descriptor
    always denotes an open file on a live inode, with as many references as
    descriptors; an exclusive [flock] excludes all others; and when the last
    descriptor is closed nothing is left over.  A read in pieces is one copy, and
    block devices are flat sequences of bytes.

    Disk: whenever the RISC-V kernel stops, the next start brings back exactly
    the contents of the last commit, also if recovery itself is cut short.  A
    commit consists of whole operations, and [end_op] returns with the contents
    on the disk.

    The calls of the block layer all return, whatever is scheduled and fails; no
    bio is ended twice, and a refused one changes nothing.  An ext2 read returns
    the part of the file it asks for, a lookup the inode of the first entry with
    the name, and the cached inodes agree with the disk over every run.

    Console and locks: the ring buffer of the console behaves as a queue of ready
    characters and a line under edition; no reader sleeps while a character is
    ready; a typed line is read as edited.  No two CPUs have a spin lock at once,
    and the interrupt flag comes back as it was.

    Library: the formatted output never leaves its buffer, numerals read back as
    the number, size strings are within their bounds.

    ** Modelling decisions

    - A [uint] is a [Z] with its wrap-around written out ([u32]); pointers into
      arrays of structures are indices; user and kernel memory is a map of
      bytes.
    - A function that holds a lock throughout is one atomic step.  A function
      that sleeps is cut at its sleeps, and the systems [PipeSys], [SchedSys],
      [FileClaims], [ConsoleSys], [BlockSys] and [RLogSys] interleave the
      sections.  In [RLogSys] one block written is one step; a transfer of one
      block is atomic.
    - Loops over a known range use [for_each] or recursion on a list.  Loops that
      follow pointers or addresses have fuel: the list length for [list_for_each],
      [MAX_ORDER] for orders, [n / PGSIZE + 3] for copies (two partial pages and
      the last test), and the number of pages for mappings.  The theorems prove
      [Done], so the fuel is enough.  The recursion of path lookup through
      absolute links has no bound in the code; its fuel is a parameter, and
      [resolves] says that it is enough.  The loops of read, write and the block
      devices have one round per piece; those of the buffer cache [S NBUF] rounds
      for a list of [NBUF] buffers.  A sleep lock that is taken gives [NoFuel]:
      who waits for it does not return.  [console_intr] has 520 rounds, two for
      each character the buffer can hold and a few to spare; a block transfer of
      one sector by a call that is alone takes fewer than the 20 sections it has;
      reading [n] bytes of ext2 takes at most [n / block_size + 2] blocks, and a
      directory has at most one entry for 8 bytes.
    - Code outside the modelled parts is an argument: [shm_demand_fault] of
      ipc/shm.c, the availability of heap memory in [Signal], and for ext2 the
      function that reads a sector.
    - Spin locks are proved for sequentially consistent memory.
    - In the file system whether [kmalloc] finds memory is an oracle in the state;
      the blocks themselves are values of the inode that owns them.  That a
      size class of the heap runs out of pages, where [kmalloc] panics, counts as
      a failed allocation there.
    - [printk], TLB flushes and statistics are dropped.

    ** Not modelled

    Hardware access (vga.c, serial.c, lapic.c, ioapic.c, mp.c, gdt.c, idt.c,
    interrupt.c, fpu.c, the assembly files, and the registers and the probe of
    ide.c and kbd.c) only reads and writes device registers, of which the sources
    give no behaviour to prove.  Mount points and procfs (fs/mount.c, fs/proc), the
    tables of disks and devices (block/genhd.c, driver/), shared memory
    (ipc/shm.c) and the user programs (user/) are left for later, and so is the
    rest of the RISC-V kernel, of which the file system above the log is the part
    that would come next. *)
From Stdlib Require Import ZArith Lia.
From stdpp Require Import numbers strings gmap list.
Open Scope Z_scope.

(** * Machine integers *)

(** [uint] / [uint32]: the value of an unsigned 32-bit expression. *)
Definition u32 (x : Z) : Z := x mod 2 ^ 32.

(** [int]: the two's-complement reading of a 32-bit value. *)
Definition s32 (x : Z) : Z := (x + 2 ^ 31) mod 2 ^ 32 - 2 ^ 31.

(** * Outcomes

    A kernel function either returns ([Done]), stops the machine in
    [panic()] ([Panic]), touches memory that is not there ([Wild]), or, for
    loops modelled with fuel, uses its fuel up ([NoFuel]).  Theorems that a
    function returns always state [Done], so none of the other three can hide
    behind a partial-correctness reading. *)
Inductive outcome (A : Type) : Type :=
| Done (a : A)
| Panic (why : string)
| Wild
| NoFuel.
Arguments Done {A} a.
Arguments Panic {A} why.
Arguments Wild {A}.
Arguments NoFuel {A}.

Definition outcome_bind {A B} (k : A → outcome B) (m : outcome A) : outcome B :=
  match m with
  | Done a => k a
  | Panic w => Panic w
  | Wild => Wild
  | NoFuel => NoFuel
  end.

#[export] Instance outcome_mret : MRet outcome := @Done.
#[export] Instance outcome_mbind : MBind outcome := @outcome_bind.

(** Run a bind whose first computation is known to be [Done]. *)
Ltac run := cbn [mbind outcome_mbind outcome_bind mret outcome_mret].

(** The bytes of a 32-bit word, lowest first. *)
Definition le32 (v : Z) : list Z :=
  [v mod 256; v / 2 ^ 8 mod 256; v / 2 ^ 16 mod 256; v / 2 ^ 24 mod 256].

(** Memory reads: a missing cell is a wild access. *)
Definition deref {A} (o : option A) : outcome A :=
  match o with Some a => Done a | None => Wild end.

(** * Loops

    A C loop over known indices whose body may [break] or [return]: the result
    is the value returned from inside, if any. *)
Inductive ctl := Next | Stop | Ret (r : Z).

Fixpoint for_each {St} (l : list Z) (body : Z → St → outcome (ctl * St)) (s : St)
    : outcome (option Z * St) :=
  match l with
  | [] => mret (None, s)
  | x :: l =>
      '(c, s) ← body x s;
      match c with
      | Next => for_each l body s
      | Stop => mret (None, s)
      | Ret r => mret (Some r, s)
      end
  end.

(** The loop rule: [I x] holds before round [x], and [R] of what the loop
    returns when it is left. *)
Lemma for_each_rule {St} (body : Z → St → outcome (ctl * St)) (I : Z → St → Prop)
    (R : option Z → St → Prop) (n : nat) : ∀ a s,
  I a s →
  (∀ x s, a ≤ x < a + Z.of_nat n → I x s → ∃ c s', body x s = Done (c, s') ∧
     match c with Next => I (x + 1) s' | Stop => R None s' | Ret r => R (Some r) s' end) →
  (∀ s, I (a + Z.of_nat n) s → R None s) →
  ∃ r s', for_each (seqZ a (Z.of_nat n)) body s = Done (r, s') ∧ R r s'.
Proof.
  induction n as [|n IH]; intros a s Hs Hbody Hend.
  { exists None, s. split; [done|]. apply Hend. by rewrite Z.add_0_r. }
  rewrite seqZ_cons by lia. cbn [for_each].
  destruct (Hbody a s ltac:(lia) Hs) as (c & s1 & -> & Hc). run.
  destruct c as [| |r]; [|by exists None, s1|by exists (Some r), s1].
  replace (Z.pred (Z.of_nat (S n))) with (Z.of_nat n) by lia. apply IH.
  - by replace (Z.succ a) with (a + 1) by lia.
  - intros x s2 Hx Hs2. apply Hbody; [lia|done].
  - intros s2 Hs2. apply Hend. by replace (a + Z.of_nat (S n)) with (Z.succ a + Z.of_nat n) by lia.
Qed.

(** The rule for a loop that always runs to its end. *)
Lemma for_each_all {St} (body : Z → St → outcome (ctl * St)) (I : Z → St → Prop) a n s :
  0 ≤ n → I a s →
  (∀ x s, a ≤ x < a + n → I x s → ∃ s', body x s = Done (Next, s') ∧ I (x + 1) s') →
  ∃ s', for_each (seqZ a n) body s = Done (None, s') ∧ I (a + n) s'.
Proof.
  intros Hn Hs Hbody.
  destruct (for_each_rule body I (λ r s, r = None ∧ I (a + n) s) (Z.to_nat n) a s)
    as (r & s' & Hrun & -> & Hs'); [done| | |rewrite Z2Nat.id in Hrun by done; by exists s'].
  - intros x s1 Hx Hs1. destruct (Hbody x s1 ltac:(lia) Hs1) as (s2 & -> & Hs2). by exists Next, s2.
  - intros s1. rewrite Z2Nat.id by done. done.
Qed.

(** A loop over table slots, in index order, that never leaves early. *)
Fixpoint each {St} (l : list nat) (body : nat → St → outcome St) (s : St) : outcome St :=
  match l with
  | [] => mret s
  | i :: l => s ← body i s; each l body s
  end.

(** Its rule: [I k] holds before slot [k]. *)
Lemma each_rule {St} (body : nat → St → outcome St) (I : nat → St → Prop) n : ∀ a s,
  I a s →
  (∀ k s, (a ≤ k < a + n)%nat → I k s → ∃ s', body k s = Done s' ∧ I (S k) s') →
  ∃ s', each (seq a n) body s = Done s' ∧ I (a + n)%nat s'.
Proof.
  induction n as [|n IH]; intros a s Hs Hbody; cbn [seq each].
  { exists s. split; [done|]. by rewrite Nat.add_0_r. }
  destruct (Hbody a s ltac:(lia) Hs) as (s1 & -> & Hs1). run.
  destruct (IH (S a) s1 Hs1) as (s' & Hrun & Hs').
  { intros k s2 Hk. apply Hbody. lia. }
  exists s'. split; [done|]. by replace (a + S n)%nat with (S a + n)%nat by lia.
Qed.

(** * Lists *)

(** The first [n] elements mapped, as a loop leaves them before round [n]. *)
Definition map_upto {A} (f : A → A) (n : nat) (l : list A) : list A := (f <$> take n l) ++ drop n l.

Lemma map_upto_lookup {A} (f : A → A) n l x : l !! n = Some x → map_upto f n l !! n = Some x.
Proof.
  intros Hx. pose proof (lookup_lt_Some _ _ _ Hx). unfold map_upto.
  rewrite lookup_app_r; rewrite length_fmap, length_take_le by lia; [|lia].
  by rewrite Nat.sub_diag, lookup_drop, Nat.add_0_r.
Qed.

Lemma map_upto_S {A} (f : A → A) n l x : l !! n = Some x → map_upto f (S n) l = <[n := f x]> (map_upto f n l).
Proof.
  intros Hx. pose proof (lookup_lt_Some _ _ _ Hx). unfold map_upto.
  rewrite insert_app_r_alt by (rewrite length_fmap, length_take_le; lia).
  rewrite length_fmap, length_take_le, Nat.sub_diag by lia.
  rewrite (take_S_r l n x Hx), fmap_app, <- app_assoc. f_equal. by rewrite (drop_S l x n Hx).
Qed.

Lemma map_upto_all {A} (f : A → A) n l : (length l ≤ n)%nat → map_upto f n l = f <$> l.
Proof. intros Hn. unfold map_upto. by rewrite take_ge, drop_ge, app_nil_r by lia. Qed.

Lemma filter_all {A} (P : A → Prop) `{∀ x, Decision (P x)} (l : list A) :
  (∀ x, x ∈ l → P x) → filter P l = l.
Proof.
  induction l as [|x l IH]; intros Hl; [done|]. rewrite filter_cons_True by (apply Hl; by left).
  f_equal. apply IH. intros y Hy. apply Hl. by right.
Qed.

Lemma removelast_elem_of {A} (x : A) (l : list A) : x ∈ removelast l → x ∈ l.
Proof.
  induction l as [|a l IH]; [done|]. destruct l as [|b l]; [set_solver|].
  intros [->|Hx]%elem_of_cons; [by left|right; by apply IH].
Qed.

Lemma filter_length_le {A} (P Q : A → Prop) `{∀ x, Decision (P x)} `{∀ x, Decision (Q x)} (l : list A) :
  (∀ x, x ∈ l → Q x → P x) → (length (filter Q l) ≤ length (filter P l))%nat.
Proof.
  induction l as [|y l IH]; intros HQP; [done|]. rewrite !filter_cons.
  specialize (IH (λ x Hx, HQP x (list_elem_of_further _ _ _ Hx))).
  destruct (decide (Q y)) as [Hq|]; [rewrite decide_True by (apply HQP; [by left|done]); cbn; lia|].
  destruct (decide (P y)); cbn; lia.
Qed.

Lemma filter_length_lt {A} (P Q : A → Prop) `{∀ x, Decision (P x)} `{∀ x, Decision (Q x)} (l : list A) x :
  (∀ x, x ∈ l → Q x → P x) → x ∈ l → P x → ¬ Q x → (length (filter Q l) < length (filter P l))%nat.
Proof.
  intros HQP Hx HP HQ. apply list_elem_of_split in Hx as (l1 & l2 & ->).
  rewrite !filter_app, !length_app, (filter_cons_True P), (filter_cons_False Q) by done. cbn [length].
  pose proof (filter_length_le P Q l1). pose proof (filter_length_le P Q l2).
  set_unfold. assert (∀ y, y ∈ l1 → Q y → P y) by (intros; apply HQP; auto).
  assert (∀ y, y ∈ l2 → Q y → P y) by (intros; apply HQP; auto). intuition lia.
Qed.

Lemma filter_ext_in {A} (P Q : A → Prop) `{∀ x, Decision (P x)} `{∀ x, Decision (Q x)} (l : list A) :
  (∀ x, x ∈ l → P x ↔ Q x) → filter P l = filter Q l.
Proof.
  induction l as [|y l IH]; intros HPQ; [done|]. rewrite !filter_cons.
  rewrite (IH (λ x Hx, HPQ x (list_elem_of_further _ _ _ Hx))). specialize (HPQ y (list_elem_of_here _ _)).
  by destruct (decide (P y)), (decide (Q y)); tauto.
Qed.
