(* ===== verification/ListHead.v ===== *)
(** [ListHead]: the intrusive circular doubly-linked list of kernel/list.h.

    Every kernel queue of the system (buddy free lists, slab free lists, the
    run queue, gendisk and request queues) is threaded through
    [struct list_head] nodes.  The functions below are the C ones, pointer
    store by pointer store, over a heap of nodes; node addresses are an
    arbitrary countable type, so a client names its nodes by what they are
    embedded in (a page, a PCB) instead of by a byte address.

    The abstraction is the map [L] from list heads to the sequence of nodes
    behind them ([repr]); a detached, initialised node is a head with an empty
    sequence, which is exactly what [INIT_LIST_HEAD] and [list_del] leave.
    The lemmas below say what each C function does to [L]; clients use nothing
    else. *)
From Stdlib Require Import Lia.
From stdpp Require Import numbers gmap list.
From S2P Require Import Prelude.

Record list_head (A : Type) := ListNode { next : A; prev : A }.
Arguments ListNode {A} _ _.
Arguments next {A} _.
Arguments prev {A} _.

Section ListHead.
Context {A : Type} `{Countable A}.
Implicit Types (h : gmap A (list_head A)) (L : gmap A (list A)).
Implicit Types (p x n hd new entry : A) (l xs ys : list A).

(** ** The C functions *)

Definition get_next h p : outcome A := nd ← deref (h !! p); mret (next nd).
Definition get_prev h p : outcome A := nd ← deref (h !! p); mret (prev nd).

(** [p->next = v] *)
Definition set_next h p (v : A) : outcome (gmap A (list_head A)) :=
  nd ← deref (h !! p); mret (<[p := ListNode v (prev nd)]> h).
(** [p->prev = v] *)
Definition set_prev h p (v : A) : outcome (gmap A (list_head A)) :=
  nd ← deref (h !! p); mret (<[p := ListNode (next nd) v]> h).

(** [INIT_LIST_HEAD(list)]; the node's memory belongs to the caller, so the
    two stores also work on memory that held no node before. *)
Definition INIT_LIST_HEAD (list : A) h : gmap A (list_head A) :=
  <[list := ListNode list list]> h.

Definition list_empty (head : A) h : outcome bool :=
  nx ← get_next h head; mret (bool_decide (nx = head)).

Definition __list_add new prev next h : outcome (gmap A (list_head A)) :=
  h ← set_prev h next new;
  h ← set_next h new next;
  h ← set_prev h new prev;
  set_next h prev new.

Definition list_add new (head : A) h : outcome (gmap A (list_head A)) :=
  nx ← get_next h head; __list_add new head nx h.

Definition list_add_tail new (head : A) h : outcome (gmap A (list_head A)) :=
  pv ← get_prev h head; __list_add new pv head h.

Definition list_del entry h : outcome (gmap A (list_head A)) :=
  nx ← get_next h entry;
  pv ← get_prev h entry;
  h ← set_prev h nx pv;
  pv ← get_prev h entry;
  nx ← get_next h entry;
  h ← set_next h pv nx;
  h ← set_next h entry entry;
  set_prev h entry entry.

(** [list_first_entry(head, type, member)]: the node, from which the client
    recovers the containing structure. *)
Definition list_first_entry (head : A) h : outcome A := get_next h head.

(** [list_for_each(pos, head)]: the nodes visited, in order.  The body of the
    loop is the client's; [fuel] bounds the number of iterations. *)
Fixpoint list_for_each_from (fuel : nat) (pos head : A) h : outcome (list A) :=
  match fuel with
  | O => NoFuel
  | S fuel =>
      if decide (pos = head) then mret []
      else nx ← get_next h pos;
           rest ← list_for_each_from fuel nx head h;
           mret (pos :: rest)
  end.

Definition list_for_each (fuel : nat) (head : A) h : outcome (list A) :=
  pos ← get_next h head; list_for_each_from fuel pos head h.

(** ** Representation *)

(** Consecutive nodes point at each other. *)
Fixpoint linked h l : Prop :=
  match l with
  | a :: (b :: _) as t =>
      (next <$> h !! a = Some b) ∧ (prev <$> h !! b = Some a) ∧ linked h t
  | _ => True
  end.

(** The closed walk from a head through its list and back. *)
Definition cycle hd xs : list A := hd :: xs ++ [hd].

Record repr h L : Prop := {
  repr_linked hd xs : L !! hd = Some xs → linked h (cycle hd xs);
  repr_nodup hd xs : L !! hd = Some xs → NoDup (hd :: xs);
  repr_disj hd1 hd2 xs1 xs2 x :
    L !! hd1 = Some xs1 → L !! hd2 = Some xs2 →
    x ∈ hd1 :: xs1 → x ∈ hd2 :: xs2 → hd1 = hd2
}.

(** A node that no list of [L] goes through. *)
Definition unlisted L x : Prop :=
  ∀ hd xs, L !! hd = Some xs → x ∉ hd :: xs.

(** ** Lemmas on walks *)

Lemma linked_app h l1 x l2 :
  linked h (l1 ++ x :: l2) ↔ linked h (l1 ++ [x]) ∧ linked h (x :: l2).
Proof.
  induction l1 as [|a l1 IH]; simpl; [tauto|].
  destruct l1 as [|b l1]; simpl in *; [tauto|].
  rewrite IH. tauto.
Qed.

(** Only the [next] fields of all nodes but the last, and the [prev] fields of
    all nodes but the first, matter. *)
Lemma linked_frame h h' l :
  (∀ a, a ∈ removelast l → next <$> h' !! a = next <$> h !! a) →
  (∀ b, b ∈ tail l → prev <$> h' !! b = prev <$> h !! b) →
  linked h l → linked h' l.
Proof.
  induction l as [|a l IH]; [done|].
  destruct l as [|b l]; [done|].
  intros Hn Hp (H1 & H2 & H3). split_and!.
  - rewrite Hn; [done|]. simpl. set_solver.
  - rewrite Hp; [done|]. simpl. set_solver.
  - apply IH; [| |done].
    + intros c Hc. apply Hn. simpl. set_solver.
    + intros c Hc. apply Hp. simpl in *. set_solver.
Qed.

Lemma linked_lookup_l h l1 a b l2 :
  linked h (l1 ++ a :: b :: l2) →
  next <$> h !! a = Some b ∧ prev <$> h !! b = Some a.
Proof. rewrite linked_app. simpl. tauto. Qed.

Lemma removelast_cycle hd xs : removelast (cycle hd xs) = hd :: xs.
Proof. unfold cycle. rewrite app_comm_cons. apply removelast_last. Qed.

Lemma removelast_snoc2 l1 p n l2 :
  removelast (l1 ++ p :: n :: l2) = l1 ++ p :: removelast (n :: l2).
Proof.
  rewrite removelast_app by done. done.
Qed.

Lemma cycle_nodup hd xs l1 p n l2 :
  NoDup (hd :: xs) → cycle hd xs = l1 ++ p :: n :: l2 →
  NoDup (l1 ++ p :: removelast (n :: l2)) ∧ NoDup (tail (l1 ++ [p]) ++ n :: l2).
Proof.
  intros Hnd Heq. split.
  - rewrite <- removelast_snoc2, <- Heq, removelast_cycle. done.
  - replace (tail (l1 ++ [p]) ++ n :: l2) with (tail (l1 ++ p :: n :: l2))
      by (destruct l1; simpl; by rewrite <- ?app_assoc).
    rewrite <- Heq. simpl. rewrite Permutation_app_comm. done.
Qed.

Lemma cycle_members hd xs l1 p n l2 x :
  cycle hd xs = l1 ++ p :: n :: l2 → x ∈ l1 ++ p :: n :: l2 → x ∈ hd :: xs.
Proof. intros <-. unfold cycle. set_solver. Qed.

(** Every walk from [hd] splits at the last node before the head again. *)
Lemma cycle_snoc hd xs : ∃ l1 p, cycle hd xs = l1 ++ [p; hd] ∧ hd :: xs = l1 ++ [p].
Proof.
  destruct (exists_last (l := hd :: xs)) as (l1 & p & Heq); [done|].
  exists l1, p. split; [|done]. unfold cycle. rewrite app_comm_cons, Heq.
  by rewrite <- app_assoc.
Qed.

(** ** What the pointer stores do, field by field *)

Lemma __list_add_fields h x p n :
  is_Some (h !! p) → is_Some (h !! n) → is_Some (h !! x) → x ≠ p → x ≠ n →
  ∃ h', __list_add x p n h = Done h' ∧
    (∀ y, next <$> h' !! y =
       if decide (y = p) then Some x else if decide (y = x) then Some n
       else next <$> h !! y) ∧
    (∀ y, prev <$> h' !! y =
       if decide (y = n) then Some x else if decide (y = x) then Some p
       else prev <$> h !! y).
Proof.
  intros [np Hp] [nn Hn] [nx Hx] Hxp Hxn.
  unfold __list_add, set_prev, set_next, mbind, outcome_mbind.
  rewrite Hn; simpl. rewrite lookup_insert_ne by done. rewrite Hx; simpl.
  rewrite lookup_insert_eq; simpl. rewrite !lookup_insert_ne by done.
  destruct (decide (p = n)) as [->|Hpn].
  - rewrite lookup_insert_eq; simpl. eexists; split; [done|].
    split; intros y; rewrite !lookup_insert; repeat case_decide; simplify_eq/=;
      rewrite ?Hn, ?Hx; done.
  - rewrite lookup_insert_ne by done. rewrite Hp; simpl. eexists; split; [done|].
    split; intros y; rewrite !lookup_insert; repeat case_decide; simplify_eq/=;
      rewrite ?Hp, ?Hn, ?Hx; done.
Qed.

Lemma list_del_fields h x p n :
  next <$> h !! x = Some n → prev <$> h !! x = Some p →
  is_Some (h !! p) → is_Some (h !! n) → x ≠ p → x ≠ n →
  ∃ h', list_del x h = Done h' ∧
    (∀ y, next <$> h' !! y =
       if decide (y = x) then Some x else if decide (y = p) then Some n
       else next <$> h !! y) ∧
    (∀ y, prev <$> h' !! y =
       if decide (y = x) then Some x else if decide (y = n) then Some p
       else prev <$> h !! y).
Proof.
  intros Hnx Hpx [np Hp] [nn Hn] Hxp Hxn.
  destruct (h !! x) as [nd|] eqn:Hx; [|done]. destruct nd as [n' p'].
  simplify_eq/=.
  unfold list_del, get_next, get_prev, set_prev, set_next, mbind, outcome_mbind.
  rewrite Hx; simpl. rewrite Hn; simpl. rewrite lookup_insert_ne by done.
  rewrite Hx; simpl.
  destruct (decide (p = n)) as [->|Hpn].
  - rewrite lookup_insert_eq; simpl. rewrite !lookup_insert_ne by done.
    rewrite Hx; simpl. rewrite lookup_insert_eq; simpl.
    eexists; split; [done|].
    split; intros y; rewrite !lookup_insert; repeat case_decide; simplify_eq/=;
      rewrite ?Hn, ?Hx; done.
  - rewrite lookup_insert_ne by done. rewrite Hp; simpl.
    rewrite !lookup_insert_ne by done. rewrite Hx; simpl.
    rewrite lookup_insert_eq; simpl. eexists; split; [done|].
    split; intros y; rewrite !lookup_insert; repeat case_decide; simplify_eq/=;
      rewrite ?Hp, ?Hn, ?Hx; done.
Qed.

Lemma linked_is_Some h l x : linked h l → x ∈ l → (2 ≤ length l)%nat → is_Some (h !! x).
Proof.
  intros Hl [i Hi]%list_elem_of_lookup Hlen.
  destruct i as [|i].
  - destruct l as [|a [|b l]]; simpl in *; [lia|lia|]. simplify_eq.
    destruct Hl as (Hn & _). destruct (h !! x); [eauto|done].
  - assert (∃ l1 a l2, l = l1 ++ a :: x :: l2) as (l1 & a & l2 & ->).
    { exists (take i l). pose proof (lookup_lt_Some _ _ _ Hi).
      destruct (lookup_lt_is_Some_2 l i) as [a Ha]; [lia|].
      exists a, (drop (S (S i)) l).
      rewrite <- (take_drop_middle _ _ _ Ha) at 1. f_equal. f_equal.
      by apply drop_S. }
    apply linked_lookup_l in Hl as [_ Hp]. destruct (h !! x); [eauto|done].
Qed.

(** Splicing a node into a walk, and cutting it out again. *)
Lemma linked_splice h h' l1 p x n l2 :
  NoDup (l1 ++ p :: removelast (n :: l2)) → NoDup (tail (l1 ++ [p]) ++ n :: l2) →
  x ∉ l1 ++ p :: n :: l2 →
  (∀ y, next <$> h' !! y =
     if decide (y = p) then Some x else if decide (y = x) then Some n
     else next <$> h !! y) →
  (∀ y, prev <$> h' !! y =
     if decide (y = n) then Some x else if decide (y = x) then Some p
     else prev <$> h !! y) →
  linked h (l1 ++ p :: n :: l2) → linked h' (l1 ++ p :: x :: n :: l2).
Proof.
  intros Hnd1 Hnd2 Hx Hn Hp Hl. apply linked_app in Hl as [Hl1 Hl2].
  apply NoDup_app in Hnd1 as (Hnd1 & Hnd1' & Hnd1''). apply NoDup_cons in Hnd1'' as [Hpn Hnd1''].
  apply NoDup_app in Hnd2 as (Hnd2 & Hnd2' & Hnd2''). apply NoDup_cons in Hnd2'' as [Hnn Hnd2''].
  apply linked_app. split.
  - eapply linked_frame; [| |exact Hl1].
    + intros a Ha. rewrite removelast_last in Ha. rewrite Hn.
      rewrite !decide_False; [done| |]; set_solver.
    + intros b Hb. rewrite Hp. rewrite !decide_False; [done| |].
      * intros ->. apply Hx. destruct l1; set_solver.
      * intros ->. eapply Hnd2'; [exact Hb|]. set_solver.
  - destruct Hl2 as (_ & _ & Hl2). split_and!.
    + rewrite Hn. by rewrite decide_True.
    + rewrite Hp. rewrite decide_False by set_solver. by rewrite decide_True.
    + split_and!.
      * rewrite Hn. rewrite decide_False by set_solver. by rewrite decide_True.
      * rewrite Hp. by rewrite decide_True.
      * eapply linked_frame; [| |exact Hl2].
        -- intros a Ha. rewrite Hn. rewrite !decide_False; [done| |].
           ++ intros ->. apply Hx. apply elem_of_app. right. right.
              by apply removelast_elem_of.
           ++ intros ->. done.
        -- intros b Hb. rewrite Hp. rewrite !decide_False; [done| |]; set_solver.
Qed.

(** ** The effect of each function on the abstract lists *)

Lemma repr_lookup_is_Some h L hd xs y :
  repr h L → L !! hd = Some xs → y ∈ hd :: xs → is_Some (h !! y).
Proof.
  intros HR HL Hy. eapply linked_is_Some; [by apply HR| |].
  - unfold cycle. set_solver.
  - unfold cycle. rewrite length_cons, length_app. simpl. lia.
Qed.

(** A list none of whose nodes changed is still represented. *)
Lemma linked_untouched h h' hd xs :
  (∀ y, y ∈ hd :: xs → next <$> h' !! y = next <$> h !! y) →
  (∀ y, y ∈ hd :: xs → prev <$> h' !! y = prev <$> h !! y) →
  linked h (cycle hd xs) → linked h' (cycle hd xs).
Proof.
  intros Hn Hp. apply linked_frame.
  - intros a Ha. rewrite removelast_cycle in Ha. by apply Hn.
  - intros b Hb. apply Hp. simpl in Hb. set_solver.
Qed.

Lemma INIT_LIST_HEAD_repr h L x :
  repr h L → unlisted L x ∨ L !! x = Some [] → repr (INIT_LIST_HEAD x h) (<[x := []]> L).
Proof.
  intros HR Hx. unfold INIT_LIST_HEAD.
  assert (∀ hd xs, hd ≠ x → L !! hd = Some xs → x ∉ hd :: xs) as Hfresh.
  { intros hd xs Hne HL. destruct Hx as [Hx|Hx]; [by eapply Hx|].
    intros Hin. apply Hne. eapply (repr_disj _ _ HR); eauto. set_solver. }
  split.
  - intros hd xs. rewrite lookup_insert. case_decide as Hhd.
    + intros [= <-]. subst hd. simpl. rewrite lookup_insert_eq. done.
    + intros HL. eapply linked_untouched; [| |by apply HR]; intros y Hy;
        rewrite lookup_insert_ne; [done| |done|]; intros ->;
        by eapply (Hfresh hd xs).
  - intros hd xs. rewrite lookup_insert. case_decide.
    + intros [= <-]. apply NoDup_singleton.
    + apply HR.
  - intros hd1 hd2 xs1 xs2 y. rewrite !lookup_insert.
    do 2 case_decide; intros HL1 HL2 Hy1 Hy2; simplify_eq; [done| | |].
    + apply list_elem_of_singleton in Hy1 as ->. by destruct (Hfresh hd2 xs2).
    + apply list_elem_of_singleton in Hy2 as ->. by destruct (Hfresh hd1 xs1).
    + by eapply (repr_disj _ _ HR).
Qed.

Lemma list_empty_spec h L hd xs :
  repr h L → L !! hd = Some xs → list_empty hd h = Done (bool_decide (xs = [])).
Proof.
  intros HR HL. pose proof (repr_linked _ _ HR _ _ HL) as Hl.
  pose proof (repr_nodup _ _ HR _ _ HL) as Hnd.
  unfold list_empty, get_next.
  destruct xs as [|x xs]; simpl in Hl; destruct Hl as (Hn & _);
    destruct (h !! hd) as [nd|]; simplify_eq/=; f_equal; case_bool_decide; try done.
  exfalso. apply NoDup_cons in Hnd as [Hnd _]. set_solver.
Qed.

Lemma list_first_entry_spec h L hd x xs :
  repr h L → L !! hd = Some (x :: xs) → list_first_entry hd h = Done x.
Proof.
  intros HR HL. pose proof (repr_linked _ _ HR _ _ HL) as (Hn & _).
  unfold list_first_entry, get_next. destruct (h !! hd) as [nd|]; by simplify_eq/=.
Qed.

Lemma __list_add_repr h L hd xs xs' x p n l1 l2 :
  repr h L → L !! hd = Some xs → L !! x = Some [] → x ≠ hd →
  cycle hd xs = l1 ++ p :: n :: l2 → cycle hd xs' = l1 ++ p :: x :: n :: l2 →
  xs' ≡ₚ x :: xs →
  ∃ h', __list_add x p n h = Done h' ∧ repr h' (<[hd := xs']> (delete x L)).
Proof.
  intros HR HL Hx Hne Hcy Hcy' Hperm.
  assert (x ∉ hd :: xs) as Hxn.
  { intros Hin. apply Hne. eapply (repr_disj _ _ HR _ _ _ _ x); eauto. set_solver. }
  assert (p ∈ hd :: xs) as Hpin by (eapply cycle_members; [done|set_solver]).
  assert (n ∈ hd :: xs) as Hnin by (eapply cycle_members; [done|set_solver]).
  destruct (cycle_nodup _ _ _ _ _ _ (repr_nodup _ _ HR _ _ HL) Hcy) as [Hnd1 Hnd2].
  destruct (__list_add_fields h x p n) as (h' & Hh' & Hn & Hp);
    [by apply (repr_lookup_is_Some h L hd xs)|by apply (repr_lookup_is_Some h L hd xs)
    |apply (repr_lookup_is_Some h L x []); [done..|set_solver]|congruence|congruence|].
  exists h'. split; [done|]. split.
  - intros hd' ys. rewrite lookup_insert. case_decide as Hhd.
    + intros [= <-]. subst hd'. rewrite Hcy'. eapply linked_splice; [done|done| |done|done|].
      * intros Hin. by apply Hxn, (cycle_members _ _ _ _ _ _ _ Hcy).
      * rewrite <- Hcy. by apply HR.
    + rewrite lookup_delete_Some. intros [Hhx HL'].
      eapply linked_untouched; [| |by apply HR]; intros y Hy.
      * rewrite Hn. rewrite !decide_False; [done| |]; intros ->.
        -- apply Hhx. symmetry. eapply (repr_disj _ _ HR _ _ _ _ x); eauto. set_solver.
        -- apply Hhd. by eapply (repr_disj _ _ HR _ _ _ _ p).
      * rewrite Hp. rewrite !decide_False; [done| |]; intros ->.
        -- apply Hhx. symmetry. eapply (repr_disj _ _ HR _ _ _ _ x); eauto. set_solver.
        -- apply Hhd. by eapply (repr_disj _ _ HR _ _ _ _ n).
  - intros hd' ys. rewrite lookup_insert. case_decide as Hhd.
    + intros [= <-]. subst hd'. rewrite Hperm.
      rewrite (Permutation_swap x hd xs), NoDup_cons. split; [done|by apply HR].
    + rewrite lookup_delete_Some. intros [_ ?]. by apply HR.
  - intros hd1 hd2 ys1 ys2 y. rewrite !lookup_insert.
    assert (∀ hd2 ys2, hd ≠ hd2 → x ≠ hd2 → L !! hd2 = Some ys2 →
              y ∈ hd :: xs' → y ∈ hd2 :: ys2 → False) as Hcross.
    { intros hd' ys Hhd' Hxhd' HL' Hy1 Hy2. rewrite Hperm in Hy1.
      apply elem_of_cons in Hy1 as [->|[->|Hy1]%elem_of_cons].
      - apply Hhd'. eapply (repr_disj _ _ HR _ _ _ _ hd); eauto. set_solver.
      - apply Hxhd'. eapply (repr_disj _ _ HR _ _ _ _ x); eauto. set_solver.
      - apply Hhd'. eapply (repr_disj _ _ HR _ _ _ _ y); eauto. set_solver. }
    do 2 case_decide; rewrite ?lookup_delete_Some; intros; destruct_and?; simplify_eq.
    + done.
    + exfalso. eapply Hcross; [| |eassumption|eassumption|eassumption]; done.
    + exfalso. eapply Hcross; [| |eassumption|eassumption|eassumption]; done.
    + by eapply (repr_disj _ _ HR).
Qed.

Lemma list_add_spec h L hd xs x :
  repr h L → L !! hd = Some xs → L !! x = Some [] → x ≠ hd →
  ∃ h', list_add x hd h = Done h' ∧ repr h' (<[hd := x :: xs]> (delete x L)).
Proof.
  intros HR HL Hx Hne. pose proof (repr_linked _ _ HR _ _ HL) as Hl.
  assert (∃ n l2, cycle hd xs = hd :: n :: l2 ∧ xs ++ [hd] = n :: l2) as (n & l2 & Hc & Hn).
  { unfold cycle. destruct xs; simpl; eauto. }
  unfold list_add, get_next. rewrite Hc in Hl. destruct Hl as (Hnx & _).
  destruct (h !! hd) as [nd|]; simplify_eq/=.
  eapply (__list_add_repr _ _ _ _ _ _ _ _ [] l2); eauto.
  unfold cycle. simpl. by rewrite Hn.
Qed.

Lemma list_add_tail_spec h L hd xs x :
  repr h L → L !! hd = Some xs → L !! x = Some [] → x ≠ hd →
  ∃ h', list_add_tail x hd h = Done h' ∧ repr h' (<[hd := xs ++ [x]]> (delete x L)).
Proof.
  intros HR HL Hx Hne. pose proof (repr_linked _ _ HR _ _ HL) as Hl.
  destruct (cycle_snoc hd xs) as (l1 & p & Hc & Hs).
  unfold list_add_tail, get_prev. rewrite Hc in Hl. apply linked_lookup_l in Hl as [_ Hpv].
  destruct (h !! hd) as [nd|]; simplify_eq/=.
  eapply (__list_add_repr _ _ _ _ _ _ _ _ l1 []); eauto.
  - unfold cycle. rewrite <- app_assoc, app_comm_cons, Hs, <- app_assoc. done.
  - by rewrite Permutation_app_comm.
Qed.

Lemma linked_cut h h' l1 p x n l2 :
  NoDup (l1 ++ p :: x :: removelast (n :: l2)) →
  NoDup (tail (l1 ++ [p]) ++ x :: n :: l2) →
  (∀ y, next <$> h' !! y =
     if decide (y = x) then Some x else if decide (y = p) then Some n
     else next <$> h !! y) →
  (∀ y, prev <$> h' !! y =
     if decide (y = x) then Some x else if decide (y = n) then Some p
     else prev <$> h !! y) →
  linked h (l1 ++ p :: x :: n :: l2) → linked h' (l1 ++ p :: n :: l2).
Proof.
  intros Hnd1 Hnd2 Hn Hp Hl. apply linked_app in Hl as [Hl1 (_ & _ & _ & _ & Hl2)].
  apply NoDup_app in Hnd1 as (_ & Hnd1 & Hnd1').
  rewrite !NoDup_cons in Hnd1'. destruct Hnd1' as (Hpn & Hxr & _).
  apply NoDup_app in Hnd2 as (_ & Hnd2 & Hnd2').
  rewrite !NoDup_cons in Hnd2'. destruct Hnd2' as (Hxn & Hnn & _).
  apply linked_app. split.
  - eapply linked_frame; [| |exact Hl1].
    + intros a Ha. rewrite removelast_last in Ha. rewrite Hn.
      rewrite !decide_False; [done| |]; set_solver.
    + intros b Hb. rewrite Hp. rewrite !decide_False; [done| |];
        intros ->; eapply Hnd2; [exact Hb| |exact Hb|]; set_solver.
  - split_and!.
    + rewrite Hn. rewrite decide_False by set_solver. by rewrite decide_True.
    + rewrite Hp. rewrite decide_False by set_solver. by rewrite decide_True.
    + eapply linked_frame; [| |exact Hl2].
      * intros a Ha. rewrite Hn. rewrite !decide_False; [done| |]; set_solver.
      * intros b Hb. rewrite Hp. rewrite !decide_False; [done| |]; set_solver.
Qed.

Lemma list_del_spec h L hd xs x ys :
  repr h L → L !! hd = Some (xs ++ x :: ys) →
  ∃ h', list_del x h = Done h' ∧ repr h' (<[x := []]> (<[hd := xs ++ ys]> L)).
Proof.
  intros HR HL. pose proof (repr_linked _ _ HR _ _ HL) as Hl.
  pose proof (repr_nodup _ _ HR _ _ HL) as Hnd.
  assert (∃ l1 p n l2, cycle hd (xs ++ x :: ys) = l1 ++ p :: x :: n :: l2 ∧
      cycle hd (xs ++ ys) = l1 ++ p :: n :: l2) as (l1 & p & n & l2 & Hc & Hc').
  { destruct (exists_last (l := hd :: xs)) as (l1 & p & Heq); [done|].
    assert (∃ n l2, ys ++ [hd] = n :: l2) as (n & l2 & Hn) by (destruct ys; simpl; eauto).
    exists l1, p, n, l2. unfold cycle. split.
    - rewrite <- app_assoc. simpl. rewrite Hn, app_comm_cons, Heq, <- app_assoc. done.
    - rewrite <- app_assoc, Hn, app_comm_cons, Heq, <- app_assoc. done. }
  destruct (cycle_nodup _ _ _ _ _ _ Hnd Hc) as [Hnd1 Hnd2].
  rewrite Hc in Hl. pose proof (linked_lookup_l _ _ _ _ _ Hl) as [_ Hpx].
  assert (next <$> h !! x = Some n) as Hnx.
  { clear -Hl. rewrite linked_app in Hl. simpl in Hl. tauto. }
  assert (x ≠ hd) as Hxhd by (apply NoDup_cons in Hnd as [Hnd _]; set_solver).
  assert (∀ y, y ∈ l1 ++ p :: x :: n :: l2 → y ∈ hd :: xs ++ x :: ys) as Hmem
    by (intros y; by apply cycle_members).
  assert (x ≠ p ∧ x ≠ n) as [Hxp Hxn].
  { apply NoDup_app in Hnd1 as (_ & _ & Hnd1). apply NoDup_app in Hnd2 as (_ & _ & Hnd2).
    apply NoDup_cons in Hnd1, Hnd2. set_solver. }
  destruct (list_del_fields h x p n) as (h' & Hh' & Hn & Hp); [done..| | |done|done|].
  { eapply linked_is_Some; [exact Hl|set_solver|rewrite length_app; simpl; lia]. }
  { eapply linked_is_Some; [exact Hl|set_solver|rewrite length_app; simpl; lia]. }
  exists h'. split; [done|].
  assert (NoDup (hd :: xs ++ ys) ∧ x ∉ hd :: xs ++ ys) as [Hnd' Hx'].
  { assert (hd :: xs ++ x :: ys ≡ₚ x :: hd :: xs ++ ys) as Hperm.
    { rewrite <- Permutation_middle. apply Permutation_swap. }
    rewrite Hperm in Hnd. apply NoDup_cons in Hnd. tauto. }
  assert (∀ hd' ys' y, hd' ≠ hd → L !! hd' = Some ys' → y ∈ hd' :: ys' →
            y ∈ hd :: xs ++ x :: ys → False) as Hcross.
  { intros hd' ys' y Hne HL' Hy Hy'. apply Hne. by eapply (repr_disj _ _ HR). }
  split.
  - intros hd' zs. rewrite !lookup_insert. repeat case_decide; intros; simplify_eq.
    + simpl. rewrite Hn, Hp, !decide_True by done. done.
    + rewrite Hc'. eapply linked_cut; [exact Hnd1|exact Hnd2|exact Hn|exact Hp|exact Hl].
    + eapply linked_untouched; [| |by apply HR]; intros y Hy; rewrite ?Hn, ?Hp;
        rewrite !decide_False; [done| | |done| |]; intros ->;
        eapply (Hcross hd' zs); eauto; apply Hmem; set_solver.
  - intros hd' zs. rewrite !lookup_insert. repeat case_decide; intros; simplify_eq.
    + apply NoDup_singleton.
    + done.
    + by apply HR.
  - assert (∀ y, y ∈ hd :: xs ++ ys → y ∈ hd :: xs ++ x :: ys) as Hweak by set_solver.
    assert (x ∈ hd :: xs ++ x :: ys) as Hxin by set_solver.
    intros hd1 hd2 zs1 zs2 y. rewrite !lookup_insert.
    repeat case_decide; intros HL1 HL2 Hy1 Hy2; simplify_eq; try done;
      try (apply list_elem_of_singleton in Hy1 as ->);
      try (apply list_elem_of_singleton in Hy2 as ->);
      try (exfalso; by eapply Hx'); try (by eapply (repr_disj _ _ HR));
      exfalso;
      match goal with
      | HL' : L !! ?hd' = Some ?zs, Hy : _ ∈ ?hd' :: ?zs |- _ =>
          by eapply (Hcross hd' zs); eauto
      end.
Qed.

(** Unlinking a node that is on no list is harmless. *)
Lemma list_del_detached h L x :
  repr h L → L !! x = Some [] → ∃ h', list_del x h = Done h' ∧ repr h' L.
Proof.
  intros HR HL. pose proof (repr_linked _ _ HR _ _ HL) as (Hn & Hp & _).
  destruct (h !! x) as [[n p]|] eqn:Hx; [|done]. simplify_eq/=.
  exists h. split; [|done].
  unfold list_del, get_next, get_prev, set_prev, set_next, mbind, outcome_mbind.
  rewrite Hx; simpl. repeat (rewrite ?Hx, ?lookup_insert_eq; simpl).
  rewrite !insert_insert_eq. f_equal. by apply insert_id.
Qed.

Local Arguments cycle : simpl never.
Local Arguments linked : simpl never.

Lemma list_for_each_from_spec h fuel hd pre pos post :
  linked h (cycle hd (pre ++ post)) → hd ∉ pre ++ post →
  head (post ++ [hd]) = Some pos → (length post < fuel)%nat →
  list_for_each_from fuel pos hd h = Done post.
Proof.
  revert pre pos post. induction fuel as [|fuel IH]; intros pre pos post Hl Hhd Hpos Hf; [lia|].
  simpl. destruct post as [|x post]; simplify_eq/=.
  - by rewrite decide_True.
  - rewrite decide_False by set_solver.
    assert (∃ n, head (post ++ [hd]) = Some n ∧ next <$> h !! pos = Some n) as (n & Hn & Hnx).
    { assert (∃ n l, post ++ [hd] = n :: l) as (n & l & Heq) by (destruct post; simpl; eauto).
      exists n. rewrite Heq. split; [done|]. unfold cycle in Hl.
      rewrite <- app_assoc in Hl. change ((pos :: post) ++ [hd]) with (pos :: post ++ [hd]) in Hl.
      rewrite Heq in Hl. by apply (linked_lookup_l h (hd :: pre)) in Hl as [? _]. }
    unfold get_next. destruct (h !! pos) as [nd|]; simplify_eq/=.
    rewrite (IH (pre ++ [pos]) _ post); [done| | |done|lia].
    + rewrite <- app_assoc. exact Hl.
    + set_solver.
Qed.

Lemma list_for_each_spec h L hd xs fuel :
  repr h L → L !! hd = Some xs → (length xs < fuel)%nat →
  list_for_each fuel hd h = Done xs.
Proof.
  intros HR HL Hf. pose proof (repr_linked _ _ HR _ _ HL) as Hl.
  pose proof (repr_nodup _ _ HR _ _ HL) as [Hnd _]%NoDup_cons.
  assert (∃ n l, xs ++ [hd] = n :: l) as (n & l & Heq) by (destruct xs; simpl; eauto).
  unfold list_for_each, get_next. pose proof Hl as Hl'.
  unfold cycle in Hl'. rewrite Heq in Hl'. destruct Hl' as (Hn & _).
  destruct (h !! hd) as [nd|]; simplify_eq/=.
  apply (list_for_each_from_spec h fuel hd []); [done|done|by rewrite Heq|done].
Qed.

End ListHead.
