(* ===== verification/MemLayout.v ===== *)
(** [MemLayout]: the address-space constants and page arithmetic of
    kernel/mm/memlayout.h, and the byte-addressed kernel memory that
    [memset]/[memcpy] of kernel/mm/buddy.c work on. *)
From Stdlib Require Import ZArith Lia.
From stdpp Require Import numbers gmap list.
From S2P Require Import Prelude.
Open Scope Z_scope.

Definition PGSIZE : Z := 4096.
Definition MAX_ORDER : Z := 11.
Definition KERNEL_LOAD_PA : Z := 0x100000.
Definition KERNBASE : Z := 0xC0000000.
Definition PHYSMEM_TOP_MAX : Z := 0x38000000.
Definition USERLOAD : Z := 0x400000.
Definition USEREND : Z := KERNBASE.
Definition USERSTACK : Z := USEREND.
Definition USER_STACK_PAGES : Z := 16.
Definition USER_STACK_SIZE : Z := USER_STACK_PAGES * PGSIZE.
Definition USER_STACK_GUARD : Z := 16 * PGSIZE.
Definition USERSTACK_BOTTOM : Z := USERSTACK - USER_STACK_SIZE.
Definition USERHEAP_TOP : Z := USERSTACK_BOTTOM - USER_STACK_GUARD.

Definition PGROUNDUP (sz : Z) : Z := Z.land (u32 (sz + PGSIZE - 1)) (u32 (Z.lnot (PGSIZE - 1))).
Definition PGROUNDDOWN (a : Z) : Z := Z.land (u32 a) (u32 (Z.lnot (PGSIZE - 1))).

Definition P2V (pa : Z) : Z := u32 (pa + KERNBASE).
Definition V2P (va : Z) : Z := u32 (va - KERNBASE).

(** ** Kernel memory

    Bytes at kernel virtual addresses.  A byte that was never written reads as
    [0]; writing [0] removes the entry, so equal contents are equal maps. *)
Definition mem : Type := gmap Z Z.

Definition mload (m : gmap Z Z) (a : Z) : Z := default 0 (m !! a).

Definition mstore (m : gmap Z Z) (a v : Z) : gmap Z Z :=
  if v =? 0 then delete a m else <[a := v]> m.

(** [memset(dst, c, n)]: the byte stored is [c] converted to [uchar]. *)
Fixpoint memset (m : gmap Z Z) (dst c : Z) (n : nat) : gmap Z Z :=
  match n with
  | O => m
  | S n => memset (mstore m dst (c mod 256)) (dst + 1) c n
  end.

(** [memcpy(dst, src, n)]: one byte at a time, ascending. *)
Fixpoint memcpy (m : gmap Z Z) (dst src : Z) (n : nat) : gmap Z Z :=
  match n with
  | O => m
  | S n => memcpy (mstore m dst (mload m src)) (dst + 1) (src + 1) n
  end.

(** 32-bit little-endian words. *)
Definition load32 (m : gmap Z Z) (a : Z) : Z :=
  mload m a mod 256 + 256 * (mload m (a + 1) mod 256) +
  65536 * (mload m (a + 2) mod 256) + 16777216 * (mload m (a + 3) mod 256).

Definition store32 (m : gmap Z Z) (a v : Z) : gmap Z Z :=
  mstore (mstore (mstore (mstore m a (v mod 256))
    (a + 1) (v / 256 mod 256)) (a + 2) (v / 65536 mod 256)) (a + 3) (v / 16777216 mod 256).

(** ** Page arithmetic *)

Lemma land_page_mask x : Z.land (u32 x) (u32 (Z.lnot (PGSIZE - 1))) = u32 x - u32 x mod PGSIZE.
Proof.
  change (u32 (Z.lnot (PGSIZE - 1))) with (Z.ldiff (Z.ones 32) (Z.ones 12)).
  change PGSIZE with (2 ^ 12). rewrite <- Z.land_ones by lia.
  rewrite Z.sub_nocarry_ldiff.
  - unfold u32. rewrite <- (Z.land_ones x 32) by lia.
    apply Z.bits_inj'. intros n Hn. rewrite !Z.land_spec, !Z.ldiff_spec, !Z.land_spec.
    destruct (Z.testbit x n), (Z.testbit (Z.ones 32) n), (Z.testbit (Z.ones 12) n); done.
  - apply Z.bits_inj'. intros n Hn. rewrite Z.ldiff_spec, Z.land_spec, Z.bits_0.
    destruct (Z.testbit (u32 x) n), (Z.testbit (Z.ones 12) n); done.
Qed.

Lemma u32_small x : 0 ≤ x < 2 ^ 32 → u32 x = x.
Proof. apply Z.mod_small. Qed.

Lemma u32_plus a b : u32 (u32 a + b) = u32 (a + b).
Proof. unfold u32. apply Zplus_mod_idemp_l. Qed.

Lemma s32_small x : 0 ≤ x < 2 ^ 31 → s32 x = x.
Proof using. intros Hx. unfold s32. rewrite Z.mod_small; lia. Qed.

Lemma u32_range x : 0 ≤ u32 x < 2 ^ 32.
Proof. apply Z.mod_pos_bound. lia. Qed.

Lemma PGROUNDDOWN_spec a : 0 ≤ a < 2 ^ 32 → PGROUNDDOWN a = a / PGSIZE * PGSIZE.
Proof.
  intros Ha. unfold PGROUNDDOWN. rewrite land_page_mask, u32_small by done.
  unfold PGSIZE. pose proof (Z_div_mod_eq_full a 4096). lia.
Qed.

Lemma PGROUNDUP_spec a :
  0 ≤ a ≤ 2 ^ 32 - PGSIZE → PGROUNDUP a = (a + PGSIZE - 1) / PGSIZE * PGSIZE.
Proof.
  intros Ha. unfold PGROUNDUP. rewrite land_page_mask, u32_small by (unfold PGSIZE in *; lia).
  unfold PGSIZE. pose proof (Z_div_mod_eq_full (a + 4096 - 1) 4096). lia.
Qed.

(** Rounding up a size in the last page of the address space wraps to zero. *)
Lemma PGROUNDUP_wraps a : 2 ^ 32 - PGSIZE < a < 2 ^ 32 → PGROUNDUP a = 0.
Proof.
  intros Ha. unfold PGROUNDUP. rewrite land_page_mask. unfold u32, PGSIZE in *.
  replace (a + 4096 - 1) with ((a - 4294963201) + 1 * 2 ^ 32) by lia.
  rewrite Z.mod_add by lia. rewrite (Z.mod_small _ (2 ^ 32)) by lia.
  rewrite Z.mod_small by lia. lia.
Qed.

(** ** Memory lemmas *)

Lemma mload_mstore m a v b : mload (mstore m a v) b = if decide (a = b) then v else mload m b.
Proof.
  unfold mload, mstore. destruct (Z.eqb_spec v 0) as [->|Hv].
  - rewrite lookup_delete. case_decide; done.
  - rewrite lookup_insert. case_decide; done.
Qed.

Lemma mload_memset n m dst c a :
  mload (memset m dst c n) a =
  if decide (dst ≤ a < dst + Z.of_nat n) then c mod 256 else mload m a.
Proof.
  revert m dst. induction n as [|n IH]; intros m dst; simpl.
  - rewrite decide_False by lia. done.
  - rewrite IH, mload_mstore. repeat case_decide; try lia; done.
Qed.

Lemma mload_memcpy n m dst src a :
  (src + Z.of_nat n ≤ dst ∨ dst + Z.of_nat n ≤ src) →
  mload (memcpy m dst src n) a =
  if decide (dst ≤ a < dst + Z.of_nat n) then mload m (src + (a - dst)) else mload m a.
Proof.
  revert m dst src. induction n as [|n IH]; intros m dst src Hd; simpl.
  - rewrite decide_False by lia. done.
  - rewrite IH by lia. repeat case_decide; rewrite ?mload_mstore; repeat case_decide;
      try lia; try done; f_equal; lia.
Qed.

Lemma mload_store32 m a v b :
  b < a ∨ a + 4 ≤ b → mload (store32 m a v) b = mload m b.
Proof.
  intros Hb. unfold store32. rewrite !mload_mstore. repeat case_decide; lia || done.
Qed.

Lemma load32_range m a : 0 ≤ load32 m a < 2 ^ 32.
Proof.
  unfold load32.
  pose proof (Z.mod_pos_bound (mload m a) 256). pose proof (Z.mod_pos_bound (mload m (a + 1)) 256).
  pose proof (Z.mod_pos_bound (mload m (a + 2)) 256). pose proof (Z.mod_pos_bound (mload m (a + 3)) 256).
  lia.
Qed.

Lemma load32_store32 m a v : 0 ≤ v < 2 ^ 32 → load32 (store32 m a v) a = v.
Proof.
  intros Hv. unfold load32, store32. rewrite !mload_mstore.
  repeat case_decide; try lia. rewrite !Z.mod_mod by lia.
  rewrite (Z.mod_small (v / 16777216)) by (split; [apply Z.div_pos; lia|apply Z.div_lt_upper_bound; lia]).
  pose proof (Z_div_mod_eq_full v 256). pose proof (Z_div_mod_eq_full (v / 256) 256).
  pose proof (Z_div_mod_eq_full (v / 65536) 256).
  replace (v / 65536) with (v / 256 / 256) in * by (rewrite Z.div_div by lia; f_equal; lia).
  replace (v / 16777216) with (v / 256 / 256 / 256) by (rewrite !Z.div_div by lia; f_equal; lia).
  lia.
Qed.

Lemma load32_store32_ne m a v b :
  a + 4 ≤ b ∨ b + 4 ≤ a → load32 (store32 m a v) b = load32 m b.
Proof. intros Hb. unfold load32. rewrite !mload_store32 by lia. done. Qed.

Lemma load32_memset m dst n a :
  dst ≤ a → a + 4 ≤ dst + Z.of_nat n → load32 (memset m dst 0 n) a = 0.
Proof.
  intros H1 H2. unfold load32. rewrite !mload_memset.
  repeat case_decide; lia || done.
Qed.

Lemma load32_ext m m' a :
  (∀ b, a ≤ b < a + 4 → mload m' b = mload m b) → load32 m' a = load32 m a.
Proof. intros Hb. unfold load32. rewrite !Hb by lia. done. Qed.
