(* ===== verification/Buddy.v ===== *)
(** [Buddy]: the buddy page allocator of kernel/mm/buddy.c.

    A [struct page *] is the index of its entry in [mem_map]; the list node
    embedded in page [i] is [page_node i] and the sentinel of
    [free_area[o].free_list] is [area_node o].  Every exported function runs
    with [pmm_lock] held, so it is modelled as one atomic state transformer;
    [printf]/[printk] are dropped. *)
From Stdlib Require Import ZArith Lia.
From stdpp Require Import numbers strings gmap list sets.
From S2P Require Import Prelude ListHead MemLayout.
Open Scope Z_scope.

(** [#define PAGE_INUSE ((unsigned int)-1)] *)
Definition PAGE_INUSE : Z := u32 (-1).

(** [struct page] without its embedded list node. *)
Record page := Page { order : Z; _refcount : Z }.

Definition page_node (i : Z) : Z + Z := inl i.
Definition area_node (o : Z) : Z + Z := inr o.

Record pmm := Pmm {
  lists : gmap (Z + Z) (list_head (Z + Z));   (* all list nodes *)
  mem_map : gmap Z page;
  area_nr_free : gmap Z Z;                    (* free_area[o].nr_free *)
  mem_start : Z;
  mem_end : Z;
  nr_pages : Z;
  nr_free : Z;
  ram : gmap Z Z                              (* page contents *)
}.

Definition with_lists (l : gmap (Z + Z) (list_head (Z + Z))) (s : pmm) : pmm :=
  Pmm l (mem_map s) (area_nr_free s) (mem_start s) (mem_end s) (nr_pages s) (nr_free s) (ram s).
Definition with_mem_map (m : gmap Z page) (s : pmm) : pmm :=
  Pmm (lists s) m (area_nr_free s) (mem_start s) (mem_end s) (nr_pages s) (nr_free s) (ram s).
Definition with_counts (a : gmap Z Z) (n : Z) (s : pmm) : pmm :=
  Pmm (lists s) (mem_map s) a (mem_start s) (mem_end s) (nr_pages s) n (ram s).
Definition with_ram (r : gmap Z Z) (s : pmm) : pmm :=
  Pmm (lists s) (mem_map s) (area_nr_free s) (mem_start s) (mem_end s) (nr_pages s) (nr_free s) r.

(** Either a physical address or a direct-map address; [None] is the null
    [struct page *]. *)
Definition addr_to_page (s : pmm) (addr : Z) : option Z :=
  let a := u32 addr in
  let a := if KERNBASE <=? a then V2P a else a in
  if (a <? mem_start s) || (mem_end s <=? a) || negb (Z.land a (PGSIZE - 1) =? 0)
  then None
  else Some ((a - mem_start s) / PGSIZE).

Definition page_to_addr (s : pmm) (i : Z) : Z := P2V (mem_start s + i * PGSIZE).

Definition page_buddy (s : pmm) (i o : Z) : option Z :=
  let buddy := Z.lxor i (Z.shiftl 1 o) in
  if nr_pages s <=? buddy then None else Some buddy.

Definition free_area_add (i o : Z) (s : pmm) : outcome pmm :=
  pg ← deref (mem_map s !! i);
  let s := with_mem_map (<[i := Page o (_refcount pg)]> (mem_map s)) s in
  ls ← list_add_tail (page_node i) (area_node o) (lists s);
  let s := with_lists ls s in
  n ← deref (area_nr_free s !! o);
  mret (with_counts (<[o := u32 (n + 1)]> (area_nr_free s))
                    (u32 (nr_free s + Z.shiftl 1 o)) s).

Definition free_area_del (i o : Z) (s : pmm) : outcome pmm :=
  ls ← list_del (page_node i) (lists s);
  let s := with_lists ls s in
  n ← deref (area_nr_free s !! o);
  mret (with_counts (<[o := u32 (n - 1)]> (area_nr_free s))
                    (u32 (nr_free s - Z.shiftl 1 o)) s).

(** The merge loop of [__free_one_page]; [fuel] bounds its iterations. *)
Fixpoint free_merge (fuel : nat) (idx o : Z) (s : pmm) : outcome pmm :=
  match fuel with
  | O => NoFuel
  | S fuel =>
      if o <? MAX_ORDER - 1 then
        match page_buddy s idx o with
        | None => free_area_add idx o s
        | Some b =>
            pb ← deref (mem_map s !! b);
            if order pb =? o then
              s ← free_area_del b o s;
              free_merge fuel (Z.land idx (Z.lnot (Z.shiftl 1 o))) (o + 1) s
            else free_area_add idx o s
        end
      else free_area_add idx o s
  end.

Definition __free_one_page (i o : Z) (s : pmm) : outcome pmm :=
  free_merge (Z.to_nat MAX_ORDER) i o s.

(** [while (o > order) { o--; free_area_add(page + (1UL << o), o); }] *)
Fixpoint alloc_split (fuel : nat) (i o ord : Z) (s : pmm) : outcome pmm :=
  match fuel with
  | O => NoFuel
  | S fuel =>
      if ord <? o then
        let o := o - 1 in
        s ← free_area_add (i + Z.shiftl 1 o) o s;
        alloc_split fuel i o ord s
      else mret s
  end.

(** [for (o = order; o < MAX_ORDER; o++)] *)
Fixpoint alloc_scan (fuel : nat) (o ord : Z) (s : pmm) : outcome (option Z * pmm) :=
  match fuel with
  | O => NoFuel
  | S fuel =>
      if o <? MAX_ORDER then
        e ← list_empty (area_node o) (lists s);
        if e : bool then alloc_scan fuel (o + 1) ord s
        else
          nd ← list_first_entry (area_node o) (lists s);
          match nd with
          | inr _ => Wild
          | inl i =>
              s ← free_area_del i o s;
              s ← alloc_split (Z.to_nat MAX_ORDER) i o ord s;
              _ ← deref (mem_map s !! i);
              mret (Some i, with_mem_map (<[i := Page PAGE_INUSE 1]> (mem_map s)) s)
          end
      else mret (None, s)
  end.

Definition __alloc_pages (ord : Z) (s : pmm) : outcome (option Z * pmm) :=
  if MAX_ORDER <=? ord then mret (None, s)
  else alloc_scan (S (Z.to_nat MAX_ORDER)) ord ord s.

(** A null result is [None]. *)
Definition alloc_pages (ord : Z) (s : pmm) : outcome (option Z * pmm) :=
  '(pg, s) ← __alloc_pages ord s;
  match pg with
  | None => mret (None, s)
  | Some i =>
      let addr := page_to_addr s i in
      mret (Some addr,
            with_ram (memset (ram s) addr 0 (Z.to_nat (Z.shiftl PGSIZE ord))) s)
  end.

Definition put_page (addr : Z) (s : pmm) : outcome pmm :=
  match addr_to_page s addr with
  | None => Panic "put_page"
  | Some i =>
      pg ← deref (mem_map s !! i);
      if negb (order pg =? PAGE_INUSE) then Panic "put_page"
      else if _refcount pg =? 0 then Panic "put_page: refcount 0"
      else
        let rc := _refcount pg - 1 in
        let s := with_mem_map (<[i := Page (order pg) rc]> (mem_map s)) s in
        if rc =? 0 then __free_one_page i 0 s else mret s
  end.

Definition free_pages (addr ord : Z) (s : pmm) : outcome pmm :=
  if MAX_ORDER <=? ord then Panic "free_pages: bad order"
  else if ord =? 0 then put_page addr s
  else match addr_to_page s addr with
       | None => Panic "free_pages: bad addr"
       | Some i => __free_one_page i ord s
       end.

Definition alloc_page (s : pmm) : outcome (option Z * pmm) := alloc_pages 0 s.
Definition free_page (addr : Z) (s : pmm) : outcome pmm := put_page addr s.

Definition get_page (addr : Z) (s : pmm) : outcome pmm :=
  match addr_to_page s addr with
  | None => Panic "get_page"
  | Some i =>
      pg ← deref (mem_map s !! i);
      if negb (order pg =? PAGE_INUSE) then Panic "get_page"
      else mret (with_mem_map (<[i := Page (order pg) (u32 (_refcount pg + 1))]> (mem_map s)) s)
  end.

Definition page_refcount (addr : Z) (s : pmm) : outcome Z :=
  match addr_to_page s addr with
  | None => mret 0
  | Some i => pg ← deref (mem_map s !! i); mret (_refcount pg)
  end.

Definition pmm_nr_free_pages (s : pmm) : Z := nr_free s.
Definition pmm_nr_pages (s : pmm) : Z := nr_pages s.

(** [sizeof(struct page)] on i386: two pointers and two words. *)
Definition sizeof_page : Z := 16.

(** The loops of [pmm_init] that initialise the sentinels and the pages. *)
Definition init_areas (s : pmm) : pmm :=
  foldl (λ s o, with_lists (INIT_LIST_HEAD (area_node o) (lists s))
                  (with_counts (<[o := 0]> (area_nr_free s)) (nr_free s) s))
        s (seqZ 0 MAX_ORDER).

Definition init_page (s : pmm) (i : Z) : pmm :=
  with_lists (INIT_LIST_HEAD (page_node i) (lists s))
    (with_mem_map (<[i := Page PAGE_INUSE 0]> (mem_map s)) s).

Definition init_pages (s : pmm) : pmm := foldl init_page s (seqZ 0 (nr_pages s)).

(** [while (order + 1 < MAX_ORDER && idx aligned && fits) order++] *)
Fixpoint init_order (fuel : nat) (idx left o : Z) : Z :=
  match fuel with
  | O => o
  | S fuel =>
      if (o + 1 <? MAX_ORDER) && (Z.land idx (Z.shiftl 1 (o + 1) - 1) =? 0)
         && (Z.shiftl 1 (o + 1) <=? left)
      then init_order fuel idx left (o + 1)
      else o
  end.

(** [while (addr < mem_end) { ... }] *)
Fixpoint init_free (fuel : nat) (addr : Z) (s : pmm) : outcome pmm :=
  match fuel with
  | O => NoFuel
  | S fuel =>
      if addr <? mem_end s then
        let idx := (addr - mem_start s) / PGSIZE in
        let left := (mem_end s - addr) / PGSIZE in
        let o := init_order (Z.to_nat MAX_ORDER) idx left 0 in
        match addr_to_page s addr with
        | None => Wild
        | Some i =>
            s ← __free_one_page i o s;
            init_free fuel (u32 (addr + Z.shiftl PGSIZE o)) s
        end
      else mret s
  end.

(** [pmm_init()], from the end of the kernel image [end_] and the probed
    [physmem_top]. *)
Definition pmm_init (end_ physmem_top : Z) (ram0 : gmap Z Z) : outcome pmm :=
  let base := PGROUNDUP (V2P end_) in
  if physmem_top <=? base then Panic "pmm: no memory after kernel"
  else
    let map_bytes := PGROUNDUP (u32 ((physmem_top - base) / PGSIZE * sizeof_page)) in
    if physmem_top <=? u32 (base + map_bytes) then Panic "pmm: mem_map does not fit"
    else
      let ms := u32 (base + map_bytes) in
      let n := (physmem_top - ms) / PGSIZE in
      if n =? 0 then Panic "pmm: zero pages"
      else
        let ram1 := memset ram0 (P2V base) 0 (Z.to_nat map_bytes) in
        let s := Pmm ∅ ∅ ∅ ms physmem_top n 0 ram1 in
        let s := init_pages (init_areas s) in
        init_free (S (Z.to_nat n)) ms s.
