(* ===== verification/BuddyInv.v ===== *)
(** [BuddyInv]: what kernel/mm/buddy.c maintains.

    The ghost state is a map [B] of blocks: [B !! i = Some (o, st)] says that
    the [2^o] pages from page [i] form a block that is on the free lists
    ([BFree]) or owned by a client ([BUsed]).  [binv s B H] relates it to the
    allocator state; [H] is the set of pages that are in transit (taken off the
    free lists and not yet put back), empty between operations. *)
From Stdlib Require Import ZArith Lia.
From stdpp Require Import numbers strings gmap list sets.
From S2P Require Import Prelude ListHead MemLayout Buddy.
Open Scope Z_scope.

Inductive bstate := BFree | BUsed.

Definition in_blk (i o j : Z) : Prop := i ≤ j < i + 2 ^ o.

Definition wf_blk (n i o : Z) : Prop :=
  0 ≤ o < MAX_ORDER ∧ 0 ≤ i ∧ i + 2 ^ o ≤ n ∧ (2 ^ o | i).

Definition free_page_of (B : gmap Z (Z * bstate)) (j : Z) : Prop :=
  ∃ i o, B !! i = Some (o, BFree) ∧ in_blk i o j.

(** The blocks are aligned, inside memory, pairwise disjoint, and none of their
    pages is in transit. *)
Record blocks_ok (n : Z) (B : gmap Z (Z * bstate)) (H : Z → Prop) : Prop := {
  bo_wf i o st : B !! i = Some (o, st) → wf_blk n i o;
  bo_disj i1 o1 st1 i2 o2 st2 j :
    B !! i1 = Some (o1, st1) → B !! i2 = Some (o2, st2) →
    in_blk i1 o1 j → in_blk i2 o2 j → i1 = i2;
  bo_hole i o st j : B !! i = Some (o, st) → in_blk i o j → ¬ H j
}.

(** The free lists hold exactly the heads of the free blocks, order by order,
    with the right length in [nr_free]; every other page node is detached. *)
Record areas_ok (n : Z) (ls : gmap (Z + Z) (list_head (Z + Z))) (ar : gmap Z Z)
    (L : gmap (Z + Z) (list (Z + Z))) (B : gmap Z (Z * bstate)) : Prop := {
  ao_lists : repr ls L;
  ao_area o : 0 ≤ o < MAX_ORDER → ∃ l : list Z,
    L !! area_node o = Some (page_node <$> l) ∧
    ar !! o = Some (Z.of_nat (length l)) ∧
    (∀ i, i ∈ l ↔ B !! i = Some (o, BFree));
  ao_detached i : 0 ≤ i < n → (∀ o, B !! i ≠ Some (o, BFree)) → L !! page_node i = Some []
}.

(** The [order] marks in [mem_map]: the order at the head of a free block,
    [PAGE_INUSE] at the head of a used block and at pages of no block.  The
    marks of the other pages of a block are stale and say nothing. *)
Record marks_ok (n : Z) (mm : gmap Z page) (B : gmap Z (Z * bstate)) (H : Z → Prop) : Prop := {
  mo_map i : 0 ≤ i < n → is_Some (mm !! i);
  mo_free i o : B !! i = Some (o, BFree) → order <$> mm !! i = Some o;
  mo_used i o : B !! i = Some (o, BUsed) → order <$> mm !! i = Some PAGE_INUSE;
  mo_rest j : 0 ≤ j < n →
    (∃ i o st, B !! i = Some (o, st) ∧ in_blk i o j) ∨ H j ∨
    order <$> mm !! j = Some PAGE_INUSE
}.

(** [nr_free] is the number of pages in free blocks. *)
Definition count_ok (nf : Z) (B : gmap Z (Z * bstate)) : Prop :=
  ∃ F : gset Z, (∀ j, j ∈ F ↔ free_page_of B j) ∧ nf = Z.of_nat (size F).

Record binv (s : pmm) (B : gmap Z (Z * bstate)) (H : Z → Prop) : Prop := {
  bi_blocks : blocks_ok (nr_pages s) B H;
  bi_areas : ∃ L, areas_ok (nr_pages s) (lists s) (area_nr_free s) L B;
  bi_marks : marks_ok (nr_pages s) (mem_map s) B H;
  bi_count : count_ok (nr_free s) B;
  bi_geom : 0 ≤ nr_pages s < 2 ^ 20
}.

(** No two free buddies of the same order: everything that can be merged is. *)
Definition coalesced (B : gmap Z (Z * bstate)) : Prop :=
  ∀ i o, o < MAX_ORDER - 1 → B !! i = Some (o, BFree) →
    B !! Z.lxor i (2 ^ o) ≠ Some (o, BFree).

(** ** Buddy arithmetic *)

Lemma pow2_pos o : 0 ≤ o → 0 < 2 ^ o.
Proof. intros. apply Z.pow_pos_nonneg; lia. Qed.

Lemma shiftl_1_pow2 o : 0 ≤ o → Z.shiftl 1 o = 2 ^ o.
Proof. intros. rewrite Z.shiftl_mul_pow2 by done. lia. Qed.

Lemma divide_pow2_le a b x : 0 ≤ a ≤ b → (2 ^ b | x) → (2 ^ a | x).
Proof.
  intros Hab. apply Z.divide_trans. exists (2 ^ (b - a)).
  rewrite <- Z.pow_add_r by lia. f_equal. lia.
Qed.

(** An aligned page that lies in a block of at most its own order is the head
    of that block. *)
Lemma aligned_head b o i o' :
  0 ≤ o' ≤ o → (2 ^ o | b) → (2 ^ o' | i) → in_blk i o' b → b = i.
Proof.
  intros Ho Hb Hi [H1 H2]. apply (divide_pow2_le o' o) in Hb; [|lia].
  pose proof (pow2_pos o' ltac:(lia)).
  destruct Hb as [p ->], Hi as [q ->].
  assert (p = q) by nia. by subst.
Qed.

(** [buddy_base i o] is the first page of the pair that [i] and its buddy
    form. *)
Definition buddy_base (i o : Z) : Z := Z.land i (Z.lnot (2 ^ o)).

Lemma pow2_testbit o n : 0 ≤ o → 0 ≤ n → Z.testbit (2 ^ o) n = bool_decide (o = n).
Proof.
  intros Ho Hn. case_bool_decide; subst.
  - by apply Z.pow2_bits_true.
  - by apply Z.pow2_bits_false.
Qed.

Lemma buddy_cases i o :
  0 ≤ o → (2 ^ o | i) →
  (2 ^ (o + 1) | buddy_base i o) ∧
  ((i = buddy_base i o ∧ Z.lxor i (2 ^ o) = buddy_base i o + 2 ^ o) ∨
   (i = buddy_base i o + 2 ^ o ∧ Z.lxor i (2 ^ o) = buddy_base i o)).
Proof.
  intros Ho [q ->]. unfold buddy_base. rewrite <- Z.ldiff_land.
  assert (Z.testbit (q * 2 ^ o) o = Z.odd q) as Hbit.
  { rewrite Z.mul_pow2_bits by done. by rewrite Z.sub_diag, Z.bit0_odd. }
  rewrite Z.pow_add_r by lia. change (2 ^ 1) with 2.
  destruct (Z.odd q) eqn:Hodd.
  - assert (Z.ldiff (q * 2 ^ o) (2 ^ o) = q * 2 ^ o - 2 ^ o) as Hld.
    { symmetry. apply Z.sub_nocarry_ldiff. apply Z.bits_inj'. intros n Hn.
      rewrite Z.ldiff_spec, Z.bits_0, pow2_testbit by done.
      case_bool_decide; subst; simpl; [|done]. by rewrite Hbit. }
    assert (Z.lxor (q * 2 ^ o) (2 ^ o) = Z.ldiff (q * 2 ^ o) (2 ^ o)) as Hlx.
    { apply Z.bits_inj'. intros n Hn.
      rewrite Z.ldiff_spec, Z.lxor_spec, pow2_testbit by done.
      case_bool_decide; subst; simpl; [by rewrite Hbit|].
      rewrite xorb_false_r, andb_true_r. done. }
    rewrite Hlx, Hld. apply Z.odd_spec in Hodd as [p ->]. split; [|lia].
    exists p. lia.
  - assert (Z.ldiff (q * 2 ^ o) (2 ^ o) = q * 2 ^ o) as Hld.
    { apply Z.bits_inj'. intros n Hn.
      rewrite Z.ldiff_spec, pow2_testbit by done.
      case_bool_decide; subst; simpl; [by rewrite Hbit|by rewrite andb_true_r]. }
    assert (Z.lxor (q * 2 ^ o) (2 ^ o) = q * 2 ^ o + 2 ^ o) as Hlx.
    { symmetry. apply Z.add_nocarry_lxor. apply Z.bits_inj'. intros n Hn.
      rewrite Z.land_spec, Z.bits_0, pow2_testbit by done.
      case_bool_decide; subst; simpl; [by rewrite Hbit|by rewrite andb_false_r]. }
    rewrite Hlx, Hld. rewrite <- Z.negb_even in Hodd. apply negb_false_iff in Hodd.
    apply Z.even_spec in Hodd as [p ->]. split; [|lia]. exists p. lia.
Qed.

Lemma buddy_aligned i o : 0 ≤ o → (2 ^ o | i) → (2 ^ o | Z.lxor i (2 ^ o)).
Proof.
  intros Ho Hi. destruct (buddy_cases i o Ho Hi) as [Hb [[_ ->]|[_ ->]]];
    apply (divide_pow2_le o) in Hb; try lia; [|done].
  apply Z.divide_add_r; [done|apply Z.divide_refl].
Qed.

Lemma buddy_invol i o : 0 ≤ o → Z.lxor (Z.lxor i (2 ^ o)) (2 ^ o) = i.
Proof. intros. rewrite Z.lxor_assoc, Z.lxor_nilpotent. apply Z.lxor_0_r. Qed.

(** A block of larger order that contains the buddy contains the page too. *)
Lemma bigger_block_contains i o i' o' :
  0 ≤ o → (2 ^ o | i) → o < o' → (2 ^ o' | i') →
  in_blk i' o' (Z.lxor i (2 ^ o)) → in_blk i' o' i.
Proof.
  intros Ho Hi Hoo Hi' Hin. destruct (buddy_cases i o Ho Hi) as [Hb Hc].
  set (m := buddy_base i o) in *.
  assert (in_blk i' o' m ∧ in_blk i' o' (m + 2 ^ o)) as [? ?].
  { unfold in_blk in *. pose proof (pow2_pos o Ho).
    assert (2 ^ (o + 1) = 2 * 2 ^ o) as Hp by (rewrite Z.pow_add_r by lia; lia).
    assert ((2 ^ (o + 1) | i')) as [q Hq] by (apply (divide_pow2_le (o + 1) o'); [lia|done]).
    assert ((2 ^ (o + 1) | 2 ^ o')) as [r Hr].
    { exists (2 ^ (o' - (o + 1))). rewrite <- Z.pow_add_r by lia. f_equal. lia. }
    destruct Hb as [p Hpm]. rewrite Hp in *. rewrite Hr, Hq, Hpm in *.
    assert (q ≤ p < q + r) by (destruct Hc as [[_ Hc]|[_ Hc]]; rewrite Hc in Hin; nia).
    nia. }
  destruct Hc as [[Heq _]|[Heq _]]; by rewrite Heq.
Qed.

(** ** Counting pages *)

Definition blk_set (i o : Z) : gset Z := list_to_set (seqZ i (2 ^ o)).

Lemma elem_of_blk_set i o j : 0 ≤ o → j ∈ blk_set i o ↔ in_blk i o j.
Proof.
  intros Ho. unfold blk_set, in_blk. rewrite elem_of_list_to_set, elem_of_seqZ.
  pose proof (pow2_pos o Ho). lia.
Qed.

Lemma size_blk_set i o : 0 ≤ o → Z.of_nat (size (blk_set i o)) = 2 ^ o.
Proof.
  intros Ho. unfold blk_set. rewrite size_list_to_set by apply NoDup_seqZ.
  rewrite length_seqZ. pose proof (pow2_pos o Ho). lia.
Qed.

Lemma set_size_bound (F : gset Z) n :
  0 ≤ n → (∀ j, j ∈ F → 0 ≤ j < n) → Z.of_nat (size F) ≤ n.
Proof.
  intros Hn HF. assert (F ⊆ list_to_set (seqZ 0 n)) as Hsub.
  { intros j Hj. rewrite elem_of_list_to_set, elem_of_seqZ. apply HF in Hj. lia. }
  apply subseteq_size in Hsub. rewrite size_list_to_set in Hsub by apply NoDup_seqZ.
  rewrite length_seqZ in Hsub. lia.
Qed.

Lemma list_length_bound (l : list Z) n :
  0 ≤ n → NoDup l → (∀ j, j ∈ l → 0 ≤ j < n) → Z.of_nat (length l) ≤ n.
Proof.
  intros Hn Hnd Hl. rewrite <- (size_list_to_set (C := gset Z) l) by done.
  apply set_size_bound; [done|]. intros j. rewrite elem_of_list_to_set. apply Hl.
Qed.

(** ** Frame: what the list shuffling never touches *)
Record same_frame (s s' : pmm) : Prop := {
  sf_start : mem_start s' = mem_start s;
  sf_end : mem_end s' = mem_end s;
  sf_pages : nr_pages s' = nr_pages s;
  sf_ram : ram s' = ram s;
  sf_refs i : _refcount <$> mem_map s' !! i = _refcount <$> mem_map s !! i
}.

#[export] Instance same_frame_refl : Reflexive same_frame.
Proof. by split. Qed.
#[export] Instance same_frame_trans : Transitive same_frame.
Proof. intros s1 s2 s3 [] []. split; try congruence. Qed.

Lemma wf_blk_head n i o : wf_blk n i o → in_blk i o i ∧ 0 ≤ i < n.
Proof.
  intros (? & ? & ? & ?). pose proof (pow2_pos o ltac:(lia)). unfold in_blk. lia.
Qed.

Lemma wf_blk_in n i o j : wf_blk n i o → in_blk i o j → 0 ≤ j < n.
Proof. intros (? & ? & ? & ?). unfold in_blk. lia. Qed.

(** ** Adding and removing a block, part by part *)
Section Parts.
Context {n : Z} {B : gmap Z (Z * bstate)} {H : Z → Prop}.
Hypothesis (HB : blocks_ok n B H).

(** A block made of pages in transit overlaps no block of [B]. *)
Lemma transit_fresh i o i' o' st j :
  (∀ j, in_blk i o j → H j) → B !! i' = Some (o', st) →
  in_blk i o j → in_blk i' o' j → False.
Proof. intros HH Hb Hj Hj'. eapply (bo_hole _ _ _ HB); eauto. Qed.

Lemma transit_None i o :
  wf_blk n i o → (∀ j, in_blk i o j → H j) → B !! i = None.
Proof.
  intros Hwf HH. destruct (B !! i) as [[o' st]|] eqn:HBi; [|done]. exfalso.
  eapply (transit_fresh i o i o' st i); eauto; [by eapply wf_blk_head|].
  by eapply wf_blk_head, (bo_wf _ _ _ HB).
Qed.

Lemma blocks_insert i o st :
  wf_blk n i o → (∀ j, in_blk i o j → H j) →
  blocks_ok n (<[i := (o, st)]> B) (λ j, H j ∧ ¬ in_blk i o j).
Proof.
  intros Hwf HH. split.
  - intros k o' st' [[-> [= -> ->]]|[_ Hb]]%lookup_insert_Some; [done|].
    by eapply (bo_wf _ _ _ HB).
  - intros i1 o1 st1 i2 o2 st2 j [[-> [= -> ->]]|[_ Hb1]]%lookup_insert_Some
      [[-> [= -> ->]]|[_ Hb2]]%lookup_insert_Some Hj1 Hj2; [done|..].
    + exfalso. by eapply (transit_fresh i1 o1 i2 o2).
    + exfalso. by eapply (transit_fresh i2 o2 i1 o1).
    + by eapply (bo_disj _ _ _ HB).
  - intros k o' st' j [[-> [= -> ->]]|[_ Hb]]%lookup_insert_Some Hj [HHj Hnj]; [done|].
    by eapply (bo_hole _ _ _ HB).
Qed.

Lemma blocks_delete i o st :
  B !! i = Some (o, st) → blocks_ok n (delete i B) (λ j, H j ∨ in_blk i o j).
Proof.
  intros HBi. split.
  - intros k o' st' [_ Hb]%lookup_delete_Some. by eapply (bo_wf _ _ _ HB).
  - intros i1 o1 st1 i2 o2 st2 j [_ Hb1]%lookup_delete_Some [_ Hb2]%lookup_delete_Some.
    by eapply (bo_disj _ _ _ HB).
  - intros k o' st' j [Hne Hb]%lookup_delete_Some Hj [HHj|Hij].
    + by eapply (bo_hole _ _ _ HB).
    + apply Hne. by eapply (bo_disj _ _ _ HB).
Qed.

Lemma free_page_bound (F : gset Z) : 0 ≤ n → (∀ j, j ∈ F ↔ free_page_of B j) → Z.of_nat (size F) ≤ n.
Proof.
  intros Hn HF. apply set_size_bound; [done|].
  intros j Hj. apply HF in Hj as (i & o & Hb & Hin).
  eapply wf_blk_in; [by eapply (bo_wf _ _ _ HB)|done].
Qed.

Lemma count_insert nf i o :
  0 ≤ n < 2 ^ 20 → wf_blk n i o → (∀ j, in_blk i o j → H j) → count_ok nf B →
  count_ok (u32 (nf + Z.shiftl 1 o)) (<[i := (o, BFree)]> B).
Proof.
  intros Hn Hwf HH (F & HF & ->). assert (0 ≤ o) as Ho by apply Hwf.
  exists (blk_set i o ∪ F).
  assert (∀ j, j ∈ blk_set i o ∪ F ↔ free_page_of (<[i := (o, BFree)]> B) j) as HF'.
  { intros j. rewrite elem_of_union, elem_of_blk_set, HF by lia. unfold free_page_of. split.
    - intros [Hj|(i' & o' & Hb & Hj)]; [exists i, o; by rewrite lookup_insert_eq|].
      exists i', o'. rewrite lookup_insert_ne; [done|]. intros ->.
      by rewrite (transit_None i' o) in Hb.
    - intros (i' & o' & Hb & Hj). apply lookup_insert_Some in Hb as [[-> [= ->]]|[_ Hb]];
        [by left|right; eauto]. }
  split; [done|].
  assert (blk_set i o ## F) as Hdisj.
  { intros j Hj1 Hj2. apply elem_of_blk_set in Hj1; [|lia].
    apply HF in Hj2 as (i' & o' & Hb & Hj2). by eapply (transit_fresh i o i' o'). }
  assert (Z.of_nat (size (blk_set i o ∪ F)) ≤ n) as Hle.
  { apply set_size_bound; [lia|]. intros j Hj. apply HF' in Hj as (i' & o' & Hb & Hj).
    eapply wf_blk_in; [|done]. by eapply (bo_wf _ _ _ (blocks_insert i o BFree Hwf HH)). }
  rewrite size_union in * by done. pose proof (size_blk_set i o Ho).
  rewrite shiftl_1_pow2 by done. rewrite u32_small; lia.
Qed.

Lemma count_delete nf i o :
  0 ≤ n < 2 ^ 20 → B !! i = Some (o, BFree) → count_ok nf B →
  count_ok (u32 (nf - Z.shiftl 1 o)) (delete i B).
Proof.
  intros Hn HBi (F & HF & ->).
  assert (0 ≤ o) as Ho by apply (bo_wf _ _ _ HB _ _ _ HBi).
  exists (F ∖ blk_set i o).
  assert (blk_set i o ⊆ F) as Hsub.
  { intros j Hj. apply elem_of_blk_set in Hj; [|done]. apply HF. by exists i, o. }
  split.
  - intros j. rewrite elem_of_difference, HF, elem_of_blk_set by done. unfold free_page_of. split.
    + intros [(i' & o' & Hb & Hj) Hnj]. exists i', o'. rewrite lookup_delete_ne; [done|].
      intros ->. by simplify_eq.
    + intros (i' & o' & [Hne Hb]%lookup_delete_Some & Hj). split; [eauto|]. intros Hj'.
      apply Hne. by eapply (bo_disj _ _ _ HB).
  - pose proof (free_page_bound F ltac:(lia) HF). pose proof (size_blk_set i o Ho).
    pose proof (subseteq_size _ _ Hsub). rewrite size_difference by done.
    rewrite shiftl_1_pow2 by done. rewrite u32_small; lia.
Qed.

Lemma marks_insert mm i o st pg pg' :
  marks_ok n mm B H → wf_blk n i o → mm !! i = Some pg →
  order pg' = match st with BFree => o | BUsed => PAGE_INUSE end →
  (∀ j, in_blk i o j → H j) →
  marks_ok n (<[i := pg']> mm) (<[i := (o, st)]> B) (λ j, H j ∧ ¬ in_blk i o j).
Proof.
  intros HM Hwf Hpg Hord HH. destruct (wf_blk_head _ _ _ Hwf) as [Hii Hin]. split.
  - intros k Hk. rewrite lookup_insert. case_decide; [eauto|by apply (mo_map _ _ _ _ HM)].
  - intros k o' [[-> [= -> ->]]|[Hne Hb]]%lookup_insert_Some.
    + rewrite lookup_insert_eq. simpl. by rewrite Hord.
    + rewrite lookup_insert_ne by done. by apply (mo_free _ _ _ _ HM).
  - intros k o' [[-> [= -> ->]]|[Hne Hb]]%lookup_insert_Some.
    + rewrite lookup_insert_eq. simpl. by rewrite Hord.
    + rewrite lookup_insert_ne by done. by eapply (mo_used _ _ _ _ HM).
  - intros j Hj. destruct (decide (i ≤ j < i + 2 ^ o)) as [Hjb|Hjb].
    { left. exists i, o, st. by rewrite lookup_insert_eq. }
    assert (i ≠ j) as Hji by (intros ->; by apply Hjb, Hii).
    rewrite lookup_insert_ne by done.
    destruct (mo_rest _ _ _ _ HM j Hj) as [(i' & o' & st' & Hb & Hj')|[HHj|Hord']]; [|right; left; by split|by right; right].
    left. exists i', o', st'. split; [|done]. rewrite lookup_insert_ne; [done|].
    intros ->. by rewrite (transit_None i' o) in Hb.
Qed.

Lemma marks_delete mm i o st :
  marks_ok n mm B H → B !! i = Some (o, st) →
  marks_ok n mm (delete i B) (λ j, H j ∨ in_blk i o j).
Proof.
  intros HM HBi. split.
  - apply HM.
  - intros k o' [_ Hb]%lookup_delete_Some. by apply (mo_free _ _ _ _ HM).
  - intros k o' [_ Hb]%lookup_delete_Some. by eapply (mo_used _ _ _ _ HM).
  - intros j Hj. destruct (mo_rest _ _ _ _ HM j Hj) as [(i' & o' & st' & Hb & Hj')|[?|?]]; [|tauto..].
    destruct (decide (i = i')) as [->|Hne]; [simplify_eq; tauto|].
    left. exists i', o', st'. by rewrite lookup_delete_ne.
Qed.

End Parts.

(** ** The free lists *)
#[export] Instance page_node_inj : Inj (=) (=) page_node.
Proof. by intros ?? [=]. Qed.

Section Areas.
Context {n : Z} {ls : gmap (Z + Z) (list_head (Z + Z))} {ar : gmap Z Z}.
Context {L : gmap (Z + Z) (list (Z + Z))} {B : gmap Z (Z * bstate)} {H : Z → Prop}.
Hypothesis (HB : blocks_ok n B H) (HA : areas_ok n ls ar L B) (Hn : 0 ≤ n < 2 ^ 20).

Lemma area_list o :
  0 ≤ o < MAX_ORDER → ∃ l : list Z,
    L !! area_node o = Some (page_node <$> l) ∧ ar !! o = Some (Z.of_nat (length l)) ∧
    (∀ i, i ∈ l ↔ B !! i = Some (o, BFree)) ∧ NoDup l ∧ Z.of_nat (length l) ≤ n.
Proof.
  intros Ho. destruct (ao_area _ _ _ _ _ HA o Ho) as (l & HL & Har & Hl).
  assert (NoDup l) as Hnd.
  { apply (repr_nodup _ _ (ao_lists _ _ _ _ _ HA)) in HL.
    apply NoDup_cons in HL as [_ HL]. by apply (NoDup_fmap_1 page_node). }
  exists l. split_and!; try done. apply list_length_bound; [lia|done|].
  intros j Hj. apply Hl, (bo_wf _ _ _ HB) in Hj. by apply (wf_blk_head _ j o).
Qed.

Lemma areas_insert i o :
  wf_blk n i o → B !! i = None →
  ∃ ls' k L', list_add_tail (page_node i) (area_node o) ls = Done ls' ∧ ar !! o = Some k ∧
    areas_ok n ls' (<[o := u32 (k + 1)]> ar) L' (<[i := (o, BFree)]> B).
Proof.
  intros Hwf HBi. destruct (wf_blk_head _ _ _ Hwf) as [_ Hi].
  destruct (area_list o ltac:(apply Hwf)) as (l & HL & Har & Hl & Hnd & Hlen).
  assert (L !! page_node i = Some []) as Hdet.
  { apply (ao_detached _ _ _ _ _ HA); [done|]. intros o'. by rewrite HBi. }
  destruct (list_add_tail_spec ls L (area_node o) _ (page_node i)
    (ao_lists _ _ _ _ _ HA) HL Hdet) as (ls' & -> & HR); [done|].
  do 3 eexists. split_and!; [done..|]. split; [exact HR| |].
  - intros o' Ho'. destruct (decide (o = o')) as [<-|Hne].
    + exists (l ++ [i]). rewrite !lookup_insert_eq, fmap_app, length_app. simpl.
      rewrite u32_small by lia. split_and!; [done|f_equal; lia|].
      intros k. rewrite elem_of_app, list_elem_of_singleton, Hl, lookup_insert.
      case_decide; subst; naive_solver congruence.
    + destruct (area_list o' Ho') as (l' & HL' & Har' & Hl' & _).
      exists l'. rewrite !lookup_insert_ne, lookup_delete_ne by first [done | intros [=]; congruence].
      split_and!; [done..|]. intros k. rewrite Hl', lookup_insert.
      case_decide; subst; naive_solver congruence.
  - intros k Hk HBk. rewrite lookup_insert_ne by done.
    destruct (decide (k = i)) as [->|Hne]; [by specialize (HBk o); rewrite lookup_insert_eq in HBk|].
    rewrite lookup_delete_ne by (intros [=]; congruence). apply (ao_detached _ _ _ _ _ HA); [done|].
    intros o'. specialize (HBk o'). by rewrite lookup_insert_ne in HBk.
Qed.

Lemma areas_delete i o :
  B !! i = Some (o, BFree) →
  ∃ ls' k L', list_del (page_node i) ls = Done ls' ∧ ar !! o = Some k ∧
    areas_ok n ls' (<[o := u32 (k - 1)]> ar) L' (delete i B).
Proof.
  intros HBi. pose proof (bo_wf _ _ _ HB _ _ _ HBi) as Hwf.
  destruct (area_list o ltac:(apply Hwf)) as (l & HL & Har & Hl & Hnd & Hlen).
  apply Hl in HBi as Hil. apply list_elem_of_split in Hil as (l1 & l2 & ->).
  rewrite fmap_app, fmap_cons in HL.
  destruct (list_del_spec ls L (area_node o) _ (page_node i) _
    (ao_lists _ _ _ _ _ HA) HL) as (ls' & -> & HR).
  apply NoDup_app in Hnd as (_ & Hnd1 & [Hnd2 _]%NoDup_cons).
  do 3 eexists. split_and!; [done..|]. split; [exact HR| |].
  - intros o' Ho'. rewrite lookup_insert_ne by done.
    destruct (decide (o = o')) as [<-|Hne].
    + exists (l1 ++ l2). rewrite !lookup_insert_eq, fmap_app. split_and!; [done|..].
      * rewrite !length_app, !length_cons in *. rewrite u32_small by lia. f_equal. lia.
      * intros k. destruct (decide (k = i)) as [->|Hk].
        -- rewrite lookup_delete_eq. set_solver.
        -- rewrite lookup_delete_ne by done. rewrite <- Hl. set_solver.
    + destruct (area_list o' Ho') as (l' & HL' & Har' & Hl' & _).
      exists l'. rewrite !lookup_insert_ne by first [done | intros [=]; congruence]. split_and!; [done..|].
      intros k. rewrite Hl', lookup_delete. case_decide; subst; naive_solver congruence.
  - intros k Hk HBk. rewrite lookup_insert. case_decide as Hki; [done|].
    rewrite lookup_insert_ne by done. apply (ao_detached _ _ _ _ _ HA); [done|].
    intros o'. specialize (HBk o'). rewrite lookup_delete_ne in HBk; [done|congruence].
Qed.

End Areas.

(** ** The allocator's own steps *)

Lemma blocks_ext n B H H' :
  (∀ j, 0 ≤ j < n → H j ↔ H' j) → blocks_ok n B H → blocks_ok n B H'.
Proof.
  intros HH [Hwf Hd Hh]. split; [done..|]. intros i o st j Hb Hj HHj.
  eapply (Hh i o st j); [done..|]. apply HH; [|done].
  eapply wf_blk_in; [by eapply Hwf|done].
Qed.

Lemma binv_ext s B H H' :
  (∀ j, 0 ≤ j < nr_pages s → H j ↔ H' j) → binv s B H → binv s B H'.
Proof.
  intros HH [Hbl Har [Hm Hf Hu Hr] Hc Hg]. split; [|done| |done..].
  - by eapply blocks_ext.
  - split; [done..|]. intros j Hj. rewrite <- (HH j Hj). by apply Hr.
Qed.

Lemma free_area_add_ok s B H i o :
  binv s B H → wf_blk (nr_pages s) i o → (∀ j, in_blk i o j → H j) →
  ∃ s', free_area_add i o s = Done s' ∧
    binv s' (<[i := (o, BFree)]> B) (λ j, H j ∧ ¬ in_blk i o j) ∧ same_frame s s'.
Proof.
  intros [Hbl [L Har] Hm Hc Hg] Hwf HH.
  pose proof (transit_None Hbl i o Hwf HH) as HBi.
  destruct (mo_map _ _ _ _ Hm i) as [pg Hpg]; [by eapply wf_blk_head|].
  destruct (areas_insert Hbl Har Hg i o Hwf HBi) as (ls' & k & L' & Hadd & Hk & Har').
  unfold free_area_add. rewrite Hpg. simpl. rewrite Hadd. simpl. rewrite Hk. simpl.
  eexists. split; [done|]. split; [split; simpl|].
  - by apply blocks_insert.
  - by exists L'.
  - by apply (marks_insert Hbl _ i o BFree pg).
  - by eapply count_insert.
  - done.
  - split; try done. intros j. simpl. rewrite lookup_insert. by case_decide; subst; rewrite ?Hpg.
Qed.

Lemma free_area_del_ok s B H i o :
  binv s B H → B !! i = Some (o, BFree) →
  ∃ s', free_area_del i o s = Done s' ∧
    binv s' (delete i B) (λ j, H j ∨ in_blk i o j) ∧ same_frame s s' ∧ mem_map s' = mem_map s.
Proof.
  intros [Hbl [L Har] Hm Hc Hg] HBi.
  destruct (areas_delete Hbl Har Hg i o HBi) as (ls' & k & L' & Hdel & Hk & Har').
  unfold free_area_del. rewrite Hdel. simpl. rewrite Hk. simpl.
  eexists. split; [done|]. split; [split; simpl|].
  - by eapply blocks_delete.
  - by exists L'.
  - by eapply marks_delete.
  - by eapply count_delete.
  - done.
  - by split.
Qed.

(** The free lists and [nr_free] depend on the free blocks only. *)
Definition same_free (B B' : gmap Z (Z * bstate)) : Prop :=
  ∀ k o, B' !! k = Some (o, BFree) ↔ B !! k = Some (o, BFree).

Lemma areas_same_free n ls ar L B B' :
  same_free B B' → areas_ok n ls ar L B → areas_ok n ls ar L B'.
Proof.
  intros Hfr [HR Ha Hd]. split; [done|..].
  - intros o' Ho'. destruct (Ha o' Ho') as (l & ? & ? & Hl). exists l. split_and!; [done..|].
    intros k. by rewrite Hl, (Hfr k o').
  - intros k Hk Hnf. apply Hd; [done|]. intros o'. by rewrite <- (Hfr k o').
Qed.

Lemma free_page_same_free B B' j : same_free B B' → free_page_of B' j ↔ free_page_of B j.
Proof. unfold same_free, free_page_of. intros Hfr. by setoid_rewrite Hfr. Qed.

Lemma count_same_free nf B B' : same_free B B' → count_ok nf B → count_ok nf B'.
Proof.
  intros Hfr (F & HF & Hc). exists F. split; [|done]. intros j.
  by rewrite HF, (free_page_same_free B B').
Qed.

Lemma same_free_use B i o : B !! i = None → same_free B (<[i := (o, BUsed)]> B).
Proof. intros HBi k o'. rewrite lookup_insert. case_decide; subst; naive_solver congruence. Qed.

Lemma same_free_unuse B i o : B !! i = Some (o, BUsed) → same_free B (delete i B).
Proof. intros HBi k o'. rewrite lookup_delete. case_decide; subst; naive_solver congruence. Qed.

(** The block whose pages are in transit becomes a client's. *)
Lemma mark_used_ok s B H i o pg :
  binv s B H → wf_blk (nr_pages s) i o → (∀ j, in_blk i o j → H j) → mem_map s !! i = Some pg →
  binv (with_mem_map (<[i := Page PAGE_INUSE 1]> (mem_map s)) s)
       (<[i := (o, BUsed)]> B) (λ j, H j ∧ ¬ in_blk i o j).
Proof.
  intros [Hbl [L Har] Hm Hc Hg] Hwf HH Hpg.
  pose proof (same_free_use B i o (transit_None Hbl i o Hwf HH)) as Hfr.
  split; simpl; [by apply blocks_insert| |by apply (marks_insert Hbl _ i o BUsed pg)| |done].
  - exists L. by eapply areas_same_free.
  - by eapply count_same_free.
Qed.

(** A client gives its block up. *)
Lemma unuse_ok s B i o :
  binv s B (λ _, False) → B !! i = Some (o, BUsed) → binv s (delete i B) (in_blk i o).
Proof.
  intros [Hbl [L Har] Hm Hc Hg] HBi. pose proof (same_free_unuse B i o HBi) as Hfr.
  apply (binv_ext _ _ (λ j, False ∨ in_blk i o j)); [tauto|]. split; simpl; [| | | |done].
  - by eapply blocks_delete.
  - exists L. by eapply areas_same_free.
  - by eapply marks_delete.
  - by eapply count_same_free.
Qed.

(** ** Coalescing *)

Lemma coalesced_insert B i o :
  0 ≤ o → coalesced B → (o < MAX_ORDER - 1 → B !! Z.lxor i (2 ^ o) ≠ Some (o, BFree)) →
  coalesced (<[i := (o, BFree)]> B).
Proof.
  intros Ho HC Hb k o' Ho' [[-> [= ->]]|[Hne Hk]]%lookup_insert_Some.
  - intros [[Heq _]|[_ ?]]%lookup_insert_Some; [|by apply Hb].
    assert (Z.testbit k o' = negb (Z.testbit k o')) as Hbit; [|revert Hbit; by destruct (Z.testbit k o')].
    rewrite Heq at 1. rewrite Z.lxor_spec, pow2_testbit by done.
    rewrite bool_decide_true by done. apply xorb_true_r.
  - intros [[Heq [= ->]]|[_ ?]]%lookup_insert_Some; [|by eapply (HC k o')].
    apply Hb; [done|]. rewrite Heq, buddy_invol; done.
Qed.

Lemma coalesced_delete B i : coalesced B → coalesced (delete i B).
Proof.
  intros HC k o Ho [_ Hk]%lookup_delete_Some [_ Hk']%lookup_delete_Some. by eapply (HC k o).
Qed.

Lemma coalesced_same_free B B' : same_free B B' → coalesced B → coalesced B'.
Proof. intros Hfr HC i o Ho Hi Hb. apply Hfr in Hi, Hb. by eapply (HC i o). Qed.

(** ** Freeing: the merge loop *)

Lemma buddy_base_merge i o j :
  0 ≤ o → (2 ^ o | i) →
  in_blk (buddy_base i o) (o + 1) j ↔ in_blk i o j ∨ in_blk (Z.lxor i (2 ^ o)) o j.
Proof.
  intros Ho Hi. unfold in_blk. rewrite Z.pow_add_r by lia. change (2 ^ 1) with 2.
  pose proof (pow2_pos o Ho).
  destruct (buddy_cases i o Ho Hi) as [_ [[H1 H2]|[H1 H2]]]; lia.
Qed.

Lemma buddy_outside i o : 0 ≤ o → (2 ^ o | i) → ¬ in_blk i o (Z.lxor i (2 ^ o)).
Proof.
  intros Ho Hi. unfold in_blk. pose proof (pow2_pos o Ho).
  destruct (buddy_cases i o Ho Hi) as [_ [[H1 H2]|[H1 H2]]]; lia.
Qed.

Lemma buddy_wf_merge n i o :
  o < MAX_ORDER - 1 → wf_blk n i o → wf_blk n (Z.lxor i (2 ^ o)) o →
  wf_blk n (buddy_base i o) (o + 1).
Proof.
  intros Ho (H1 & H2 & H3 & H4) (_ & H2' & H3' & _).
  destruct (buddy_cases i o ltac:(lia) H4) as [Hd Hc].
  pose proof (pow2_pos o ltac:(lia)). unfold wf_blk.
  rewrite Z.pow_add_r in * by lia. change (2 ^ 1) with 2 in *.
  split_and!; [lia|lia|..|done]; destruct Hc as [[He1 He2]|[He1 He2]]; lia.
Qed.

(** The mark that the merge loop reads is right: a buddy marked with the
    order of the freed block is the head of a free block of that order.
    Stale marks inside larger blocks never mislead it. *)
Lemma buddy_mark_sound s B i o :
  binv s B (in_blk i o) → wf_blk (nr_pages s) i o →
  0 ≤ Z.lxor i (2 ^ o) < nr_pages s →
  order <$> mem_map s !! Z.lxor i (2 ^ o) = Some o →
  B !! Z.lxor i (2 ^ o) = Some (o, BFree).
Proof.
  intros [Hbl _ Hm _ _] Hwf Hb Hord. destruct (Hwf) as (Ho & _ & _ & Hdiv).
  assert (o ≠ PAGE_INUSE) as Hin. { unfold MAX_ORDER in Ho. cbv. lia. }
  destruct (mo_rest _ _ _ _ Hm _ Hb) as [(i' & o' & st & HB & Hj)|[Hj|Hj]].
  - pose proof (bo_wf _ _ _ Hbl _ _ _ HB) as (Ho' & _ & _ & Hdiv').
    destruct (decide (o' ≤ o)) as [Hle|Hgt].
    + assert (Z.lxor i (2 ^ o) = i') as Heq.
      { eapply (aligned_head _ o _ o'); [lia|apply buddy_aligned; [lia|done]|done..]. }
      rewrite Heq in *. destruct st.
      * apply (mo_free _ _ _ _ Hm) in HB as Hord'. congruence.
      * apply (mo_used _ _ _ _ Hm) in HB as Hord'. congruence.
    + exfalso. eapply (bo_hole _ _ _ Hbl i' o' st i); [done| |by eapply wf_blk_head].
      eapply bigger_block_contains; [| | |done..]; [lia|done|lia].
  - exfalso. eapply buddy_outside; [| |done]; [lia|done].
  - congruence.
Qed.

(** [released s B P s' B']: the pages [P] went back to the free lists. *)
Record released (s : pmm) (B : gmap Z (Z * bstate)) (P : Z → Prop)
    (s' : pmm) (B' : gmap Z (Z * bstate)) : Prop := {
  rl_inv : binv s' B' (λ _, False);
  rl_coal : coalesced B';
  rl_used k o : B' !! k = Some (o, BUsed) ↔ B !! k = Some (o, BUsed);
  rl_free j : free_page_of B' j ↔ free_page_of B j ∨ P j;
  rl_frame : same_frame s s'
}.

Lemma free_page_insert B i o j :
  B !! i = None → free_page_of (<[i := (o, BFree)]> B) j ↔ free_page_of B j ∨ in_blk i o j.
Proof.
  intros HBi. unfold free_page_of. split.
  - intros (k & o' & [[-> [= ->]]|[_ Hk]]%lookup_insert_Some & Hj); [by right|left; eauto].
  - intros [(k & o' & Hk & Hj)|Hj]; [|exists i, o; by rewrite lookup_insert_eq].
    exists k, o'. rewrite lookup_insert_ne by congruence. done.
Qed.

Lemma free_page_delete B i o j :
  B !! i = Some (o, BFree) → free_page_of B j ↔ free_page_of (delete i B) j ∨ in_blk i o j.
Proof.
  intros HBi. rewrite <- free_page_insert by apply lookup_delete_eq.
  by rewrite insert_delete_id.
Qed.

Lemma used_insert (B : gmap Z (Z * bstate)) i o k o' :
  B !! i = None → <[i := (o, BFree)]> B !! k = Some (o', BUsed) ↔ B !! k = Some (o', BUsed).
Proof. intros HBi. rewrite lookup_insert. case_decide; subst; naive_solver congruence. Qed.

Lemma used_delete (B : gmap Z (Z * bstate)) i o k o' :
  B !! i = Some (o, BFree) → delete i B !! k = Some (o', BUsed) ↔ B !! k = Some (o', BUsed).
Proof. intros HBi. rewrite lookup_delete. case_decide; subst; naive_solver congruence. Qed.

(** The loop ends by putting the block on its list. *)
Lemma merge_stop s B i o :
  binv s B (in_blk i o) → wf_blk (nr_pages s) i o → coalesced B →
  (o < MAX_ORDER - 1 → B !! Z.lxor i (2 ^ o) ≠ Some (o, BFree)) →
  ∃ s' B', free_area_add i o s = Done s' ∧ released s B (in_blk i o) s' B'.
Proof.
  intros Hs Hwf HC Hb.
  destruct (free_area_add_ok s B _ i o Hs Hwf) as (s' & Hadd & Hs' & Hfr); [done|].
  pose proof (transit_None (bi_blocks _ _ _ Hs) i o Hwf ltac:(done)) as HBi.
  eexists s', _. split; [done|]. split; [..|done].
  - by eapply binv_ext, Hs'; simpl; tauto.
  - apply coalesced_insert; [apply Hwf|done..].
  - intros k o'. by apply used_insert.
  - intros j. by apply free_page_insert.
Qed.

Lemma land_lnot_shiftl i o : 0 ≤ o → Z.land i (Z.lnot (Z.shiftl 1 o)) = buddy_base i o.
Proof. intros Ho. by rewrite shiftl_1_pow2. Qed.

(** One round of merging, when the buddy is free. *)
Lemma merge_step s B i o :
  binv s B (in_blk i o) → wf_blk (nr_pages s) i o → o < MAX_ORDER - 1 →
  B !! Z.lxor i (2 ^ o) = Some (o, BFree) →
  ∃ s1, free_area_del (Z.lxor i (2 ^ o)) o s = Done s1 ∧
    binv s1 (delete (Z.lxor i (2 ^ o)) B) (in_blk (buddy_base i o) (o + 1)) ∧
    wf_blk (nr_pages s1) (buddy_base i o) (o + 1) ∧ same_frame s s1.
Proof.
  intros Hs Hwf Ho Hb.
  destruct (free_area_del_ok s B _ _ o Hs Hb) as (s1 & Hdel & Hs1 & Hfr & _).
  exists s1. split_and!; [done| |rewrite (sf_pages _ _ Hfr)|done].
  - eapply binv_ext, Hs1. intros j _. simpl.
    symmetry. apply buddy_base_merge; apply Hwf.
  - eapply buddy_wf_merge; [done..|]. by eapply (bo_wf _ _ _ (bi_blocks _ _ _ Hs)).
Qed.

Lemma free_merge_ok fuel : ∀ i o s B,
  binv s B (in_blk i o) → wf_blk (nr_pages s) i o → coalesced B →
  MAX_ORDER - o ≤ Z.of_nat fuel →
  ∃ s' B', free_merge fuel i o s = Done s' ∧ released s B (in_blk i o) s' B'.
Proof.
  induction fuel as [|fuel IH]; intros i o s B Hs Hwf HC Hfuel.
  { destruct Hwf as (? & _). lia. }
  destruct (Hwf) as (Ho & Hi & Hend & Hdiv). simpl.
  destruct (Z.ltb_spec o (MAX_ORDER - 1)); [|apply merge_stop; [done..|lia]].
  unfold page_buddy. rewrite shiftl_1_pow2 by lia.
  assert (0 ≤ Z.lxor i (2 ^ o)) as Hb0.
  { apply Z.lxor_nonneg. pose proof (pow2_pos o ltac:(lia)). lia. }
  destruct (Z.leb_spec (nr_pages s) (Z.lxor i (2 ^ o))) as [Hout|Hin].
  { apply merge_stop; [done..|]. intros _ HB.
    apply (bo_wf _ _ _ (bi_blocks _ _ _ Hs)), wf_blk_head in HB. lia. }
  destruct (mo_map _ _ _ _ (bi_marks _ _ _ Hs) (Z.lxor i (2 ^ o))) as [pb Hpb]; [lia|].
  rewrite Hpb. simpl. destruct (Z.eqb_spec (order pb) o) as [Hord|Hord].
  - pose proof (buddy_mark_sound s B i o Hs Hwf ltac:(lia)
      ltac:(rewrite Hpb; simpl; congruence)) as HB.
    destruct (merge_step s B i o) as (s1 & -> & Hs1 & Hwf1 & Hfr1); [done..|].
    simpl. destruct (IH _ _ s1 _ Hs1 Hwf1) as (s' & B' & Hrun & [Hs' HC' Hu' Hf' Hfr']);
      [by apply coalesced_delete|lia|].
    exists s', B'. split; [done|]. split; [done|done| | |by etrans].
    + intros k o'. rewrite Hu'. by eapply used_delete.
    + intros j. rewrite Hf', buddy_base_merge by (lia || done).
      rewrite (free_page_delete B _ o j HB). tauto.
  - apply merge_stop; [done..|]. intros _ HB.
    apply (mo_free _ _ _ _ (bi_marks _ _ _ Hs)) in HB. rewrite Hpb in HB. naive_solver.
Qed.

Lemma __free_one_page_ok i o s B :
  binv s B (in_blk i o) → wf_blk (nr_pages s) i o → coalesced B →
  ∃ s' B', __free_one_page i o s = Done s' ∧ released s B (in_blk i o) s' B'.
Proof.
  intros Hs Hwf HC. apply free_merge_ok; [done..|].
  destruct Hwf as (? & _). unfold MAX_ORDER in *. lia.
Qed.

(** ** Allocating: split and scan *)

Lemma wf_blk_half n i o :
  1 ≤ o → wf_blk n i o → wf_blk n i (o - 1) ∧ wf_blk n (i + 2 ^ (o - 1)) (o - 1) ∧
    Z.lxor (i + 2 ^ (o - 1)) (2 ^ (o - 1)) = i.
Proof.
  intros Ho (H1 & H2 & H3 & H4).
  assert (2 ^ o = 2 * 2 ^ (o - 1)) as Hp.
  { rewrite <- Z.pow_succ_r by lia. f_equal. lia. }
  pose proof (pow2_pos (o - 1) ltac:(lia)).
  assert ((2 ^ (o - 1) | i)) as Hd by (apply (divide_pow2_le _ o); [lia|done]).
  unfold wf_blk. split_and!; try lia; [done|by apply Z.divide_add_r, Z.divide_refl|].
  destruct (buddy_cases i (o - 1) ltac:(lia) Hd) as [[q Hq] [[Heq Hx]|[Heq Hx]]].
  - rewrite <- Heq in Hx. rewrite <- Hx. apply buddy_invol. lia.
  - exfalso. destruct H4 as [p Hi]. replace (o - 1 + 1) with o in Hq by lia.
    assert (2 * (p - q) = 1); [|lia]. apply (Z.mul_reg_r _ _ (2 ^ (o - 1))); [lia|].
    rewrite Hp in *. lia.
Qed.

(** The split loop gives back all but the first [2^ord] pages. *)
Lemma alloc_split_ok fuel : ∀ i o ord s B,
  binv s B (in_blk i o) → wf_blk (nr_pages s) i o → coalesced B →
  0 ≤ ord ≤ o → o - ord < Z.of_nat fuel →
  ∃ s' B', alloc_split fuel i o ord s = Done s' ∧ binv s' B' (in_blk i ord) ∧
    wf_blk (nr_pages s) i ord ∧ coalesced B' ∧ same_frame s s' ∧
    (∀ k o', B' !! k = Some (o', BUsed) ↔ B !! k = Some (o', BUsed)) ∧
    (∀ j, free_page_of B' j ↔ free_page_of B j ∨ (in_blk i o j ∧ ¬ in_blk i ord j)).
Proof.
  induction fuel as [|fuel IH]; intros i o ord s B Hs Hwf HC Hord Hfuel; [lia|].
  simpl. destruct (Z.ltb_spec ord o) as [Hlt|Hge].
  2:{ assert (o = ord) as -> by lia. exists s, B. split_and!; try done. tauto. }
  destruct (wf_blk_half _ i o ltac:(lia) Hwf) as (Hlo & Hhi & Hxor).
  assert (2 ^ o = 2 * 2 ^ (o - 1)) as Hp.
  { rewrite <- Z.pow_succ_r by lia. f_equal. lia. }
  pose proof (pow2_pos (o - 1) ltac:(lia)).
  rewrite shiftl_1_pow2 by lia.
  destruct (free_area_add_ok s B _ _ _ Hs Hhi) as (s1 & -> & Hs1 & Hfr1).
  { intros j. unfold in_blk. lia. }
  pose proof (transit_None (bi_blocks _ _ _ Hs) _ _ Hhi ltac:(unfold in_blk; lia)) as HBn.
  pose proof (transit_None (bi_blocks _ _ _ Hs) _ _ Hlo ltac:(unfold in_blk; lia)) as HBi.
  simpl. destruct (IH i (o - 1) ord s1 (<[i + 2 ^ (o - 1) := (o - 1, BFree)]> B))
    as (s' & B' & Hrun & Hs' & Hwf' & HC' & Hfr' & Hu & Hf).
  - eapply binv_ext, Hs1. unfold in_blk. simpl. lia.
  - by rewrite (sf_pages _ _ Hfr1).
  - apply coalesced_insert; [lia|done|]. by rewrite Hxor, HBi.
  - lia.
  - lia.
  - exists s', B'. rewrite (sf_pages _ _ Hfr1) in Hwf'. split_and!; [done..| | |].
    + by etrans.
    + intros k o'. rewrite Hu. by apply used_insert.
    + intros j. rewrite Hf, free_page_insert by done.
      assert (2 ^ ord ≤ 2 ^ (o - 1)) by (apply Z.pow_le_mono_r; lia).
      unfold in_blk. destruct (decide (j < i + 2 ^ (o - 1))); intuition lia.
Qed.

Local Arguments alloc_split : simpl never.

(** [taken s B i ord s' B']: the free pages [i .. i + 2^ord) became a used
    block with one reference. *)
Record taken (s : pmm) (B : gmap Z (Z * bstate)) (i ord : Z)
    (s' : pmm) (B' : gmap Z (Z * bstate)) : Prop := {
  tk_inv : binv s' B' (λ _, False);
  tk_coal : coalesced B';
  tk_wf : wf_blk (nr_pages s) i ord;
  tk_was j : in_blk i ord j → free_page_of B j;
  tk_used k o : B' !! k = Some (o, BUsed) ↔ (k = i ∧ o = ord) ∨ B !! k = Some (o, BUsed);
  tk_free j : free_page_of B' j ↔ free_page_of B j ∧ ¬ in_blk i ord j;
  tk_start : mem_start s' = mem_start s;
  tk_end : mem_end s' = mem_end s;
  tk_pages : nr_pages s' = nr_pages s;
  tk_ram : ram s' = ram s;
  tk_refs k : _refcount <$> mem_map s' !! k =
    if decide (k = i) then Some 1 else _refcount <$> mem_map s !! k
}.

Lemma free_page_hole s B H j : binv s B H → free_page_of B j → H j → False.
Proof. intros Hs (i & o & HB & Hj). by eapply (bo_hole _ _ _ (bi_blocks _ _ _ Hs)). Qed.

Lemma alloc_hit s B i o ord :
  binv s B (λ _, False) → coalesced B → B !! i = Some (o, BFree) → 0 ≤ ord ≤ o →
  ∃ s' B', (s ← free_area_del i o s;
            s ← alloc_split (Z.to_nat MAX_ORDER) i o ord s;
            _ ← deref (mem_map s !! i);
            mret (Some i, with_mem_map (<[i := Page PAGE_INUSE 1]> (mem_map s)) s))
           = Done (Some i, s') ∧ taken s B i ord s' B'.
Proof.
  intros Hs HC HB Hord. pose proof (bo_wf _ _ _ (bi_blocks _ _ _ Hs) _ _ _ HB) as Hwf.
  destruct (free_area_del_ok s B _ i o Hs HB) as (s1 & -> & Hs1 & Hfr1 & _). simpl.
  apply (binv_ext _ _ _ (in_blk i o)) in Hs1; [|tauto].
  destruct (alloc_split_ok (Z.to_nat MAX_ORDER) i o ord s1 (delete i B))
    as (s2 & B2 & -> & Hs2 & Hwf2 & HC2 & Hfr2 & Hu2 & Hf2);
    [done|by rewrite (sf_pages _ _ Hfr1)|by apply coalesced_delete|done| |].
  { destruct Hwf as (? & _). unfold MAX_ORDER in *. lia. }
  pose proof (same_frame_trans _ _ _ Hfr1 Hfr2) as [F1 F2 F3 F4 F5].
  rewrite (sf_pages _ _ Hfr1), <- F3 in Hwf2. simpl.
  destruct (mo_map _ _ _ _ (bi_marks _ _ _ Hs2) i) as [pg Hpg]; [by eapply wf_blk_head|].
  rewrite Hpg. simpl. eexists _, (<[i := (ord, BUsed)]> B2). split; [done|].
  pose proof (transit_None (bi_blocks _ _ _ Hs2) i ord Hwf2 ltac:(done)) as HBi.
  assert (∀ j, in_blk i ord j → in_blk i o j) as Hsub.
  { intros j. unfold in_blk. pose proof (Z.pow_le_mono_r 2 ord o ltac:(lia) ltac:(lia)). lia. }
  split; simpl; try done.
  - eapply binv_ext, mark_used_ok, Hpg; [|done..]. simpl. tauto.
  - eapply coalesced_same_free, HC2. by apply same_free_use.
  - by rewrite <- F3.
  - intros j Hj. exists i, o. auto.
  - intros k o'. rewrite lookup_insert. case_decide; subst; [naive_solver congruence|].
    rewrite Hu2, used_delete by done. naive_solver.
  - intros j. rewrite (free_page_same_free B2) by (by apply same_free_use).
    rewrite Hf2, (free_page_delete B i o j HB). split; [|tauto].
    intros [Hj|Hj]; [|naive_solver]. split; [by left|]. intros Hj'.
    by eapply (free_page_hole s1 (delete i B)), Hsub.
  - intros k. rewrite lookup_insert. repeat case_decide; subst; done.
Qed.

Lemma alloc_scan_ok fuel : ∀ o ord s B,
  binv s B (λ _, False) → coalesced B → 0 ≤ ord ≤ o ≤ MAX_ORDER → MAX_ORDER - o < Z.of_nat fuel →
  (∀ k o', ord ≤ o' < o → B !! k ≠ Some (o', BFree)) →
  ∃ r s', alloc_scan fuel o ord s = Done (r, s') ∧
    match r with
    | None => s' = s ∧ ∀ k o', ord ≤ o' → B !! k ≠ Some (o', BFree)
    | Some i => ∃ B', taken s B i ord s' B'
    end.
Proof.
  induction fuel as [|fuel IH]; intros o ord s B Hs HC Hord Hfuel Hnone.
  { lia. }
  simpl. destruct (Z.ltb_spec o MAX_ORDER) as [Ho|Ho].
  2:{ exists None, s. split_and!; [done..|]. intros k o' Ho' HB.
      pose proof (bo_wf _ _ _ (bi_blocks _ _ _ Hs) _ _ _ HB) as (? & _).
      by apply (Hnone k o'); [lia|]. }
  destruct (bi_areas _ _ _ Hs) as [L HA].
  destruct (ao_area _ _ _ _ _ HA o ltac:(lia)) as (l & HL & _ & Hl).
  rewrite (list_empty_spec _ _ _ _ (ao_lists _ _ _ _ _ HA) HL). simpl.
  destruct l as [|i l]; simpl.
  - apply IH; [done..|lia|lia|].
    intros k o' Ho' HB. destruct (decide (o' = o)) as [->|]; [|by apply (Hnone k o'); [lia|]].
    apply Hl in HB. set_solver.
  - rewrite (list_first_entry_spec _ _ _ _ _ (ao_lists _ _ _ _ _ HA) HL). simpl.
    assert (B !! i = Some (o, BFree)) as HB by (apply Hl; set_solver).
    destruct (alloc_hit s B i o ord) as (s' & B' & Hrun & Htk); [done..|lia|].
    exists (Some i), s'. split; [exact Hrun|]. by exists B'.
Qed.
