(* ===== verification/BuddySpec.v ===== *)
(** [BuddySpec]: the contract of kernel/mm/buddy.c as its clients see it.

    [pmm_ok s U] says that the allocator state is consistent and that [U] is
    the set of allocated blocks: [U !! i = Some o] when the [2^o] pages from
    page [i] belong to a client.  Every entry point is shown to return (no
    panic, no wild access, no exhausted fuel) and to move [U] as documented;
    [alloc_pages] is also complete: it fails only when no aligned run of free
    pages is left. *)
From Stdlib Require Import ZArith Lia.
From stdpp Require Import numbers strings gmap list sets.
From S2P Require Import Prelude ListHead MemLayout Buddy BuddyInv.
Open Scope Z_scope.

Record geometry (s : pmm) : Prop := {
  ge_align : (PGSIZE | mem_start s);
  ge_start : 0 ≤ mem_start s;
  ge_end : mem_end s = mem_start s + nr_pages s * PGSIZE;
  ge_top : mem_end s ≤ PHYSMEM_TOP_MAX
}.

Definition owned (U : gmap Z Z) (j : Z) : Prop := ∃ i o, U !! i = Some o ∧ in_blk i o j.

(** The ghost block map that witnesses a consistent state. *)
Record pmm_view (s : pmm) (U : gmap Z Z) (B : gmap Z (Z * bstate)) : Prop := {
  pv_inv : binv s B (λ _, False);
  pv_coal : coalesced B;
  pv_used k o : U !! k = Some o ↔ B !! k = Some (o, BUsed);
  pv_cover j : 0 ≤ j < nr_pages s → free_page_of B j ∨ owned U j;
  pv_geom : geometry s
}.

Definition pmm_ok (s : pmm) (U : gmap Z Z) : Prop := ∃ B, pmm_view s U B.

(** ** Addresses *)

Lemma addr_to_page_phys s i :
  geometry s → 0 ≤ i < nr_pages s → addr_to_page s (mem_start s + i * PGSIZE) = Some i.
Proof.
  intros [[q Hq] H1 H2 H3] Hi. unfold addr_to_page.
  unfold PHYSMEM_TOP_MAX, PGSIZE, KERNBASE in *.
  rewrite !u32_small by lia. rewrite (proj2 (Z.leb_gt _ _)) by lia.
  change (4096 - 1) with (Z.ones 12). rewrite Z.land_ones by lia.
  replace ((mem_start s + i * 4096) mod 2 ^ 12) with 0
    by (rewrite Hq, <- Z.mul_add_distr_r; symmetry; apply Z.mod_mul; lia).
  rewrite (proj2 (Z.ltb_ge _ _)), (proj2 (Z.leb_gt _ _)) by lia. simpl.
  f_equal. replace (mem_start s + i * 4096 - mem_start s) with (i * 4096) by lia.
  apply Z.div_mul. lia.
Qed.

(** A direct-map address names the same page as its physical address. *)
Lemma addr_to_page_P2V s a :
  0 ≤ a < PHYSMEM_TOP_MAX → addr_to_page s (P2V a) = addr_to_page s a.
Proof.
  unfold addr_to_page, P2V, V2P, PHYSMEM_TOP_MAX, KERNBASE. intros Ha.
  rewrite !(u32_small (a + 3221225472)), (u32_small a) by lia.
  rewrite (proj2 (Z.leb_le 3221225472 (a + 3221225472))), (proj2 (Z.leb_gt 3221225472 a)) by lia.
  replace (a + 3221225472 - 3221225472) with a by lia. by rewrite u32_small by lia.
Qed.

Lemma addr_page_roundtrip s i :
  geometry s → 0 ≤ i < nr_pages s → addr_to_page s (page_to_addr s i) = Some i.
Proof.
  intros Hg Hi. unfold page_to_addr. rewrite addr_to_page_P2V; [by apply addr_to_page_phys|].
  destruct Hg as [_ H1 H2 H3]. unfold PGSIZE in *. lia.
Qed.

(** ** Completeness of coalescing *)

(** An aligned run of free pages lies in one free block of at least its
    order. *)
Lemma coalesced_run s B o :
  binv s B (λ _, False) → coalesced B → 0 ≤ o →
  ∀ i, wf_blk (nr_pages s) i o → (∀ j, in_blk i o j → free_page_of B j) →
  ∃ k o', o ≤ o' ∧ B !! k = Some (o', BFree) ∧ in_blk k o' i.
Proof.
  intros Hs HC. revert o. apply (natlike_ind (λ o, ∀ i, _ → _ → _)).
  { intros i Hwf Hall. destruct (Hall i) as (k & o' & HB & Hin); [by eapply wf_blk_head|].
    exists k, o'. pose proof (bo_wf _ _ _ (bi_blocks _ _ _ Hs) _ _ _ HB) as (? & _).
    split_and!; [lia|done..]. }
  intros o Ho IH i Hwf Hall. destruct (wf_blk_half _ i (Z.succ o) ltac:(lia) Hwf) as (Hlo & Hhi & Hx).
  replace (Z.succ o - 1) with o in * by lia. unfold in_blk in Hall.
  rewrite Z.pow_succ_r in Hall by done. pose proof (pow2_pos o Ho).
  destruct (IH i Hlo) as (k1 & o1 & Ho1 & HB1 & Hin1); [intros j; unfold in_blk; intros; apply Hall; lia|].
  destruct (decide (o1 = o)) as [->|]; [|exists k1, o1; split_and!; [lia|done..]].
  destruct (IH (i + 2 ^ o) Hhi) as (k2 & o2 & Ho2 & HB2 & Hin2);
    [intros j; unfold in_blk; intros; apply Hall; lia|].
  pose proof (bo_wf _ _ _ (bi_blocks _ _ _ Hs) _ _ _ HB1) as (Hk1 & _ & _ & Hd1).
  pose proof (bo_wf _ _ _ (bi_blocks _ _ _ Hs) _ _ _ HB2) as (Hk2 & _ & _ & Hd2).
  destruct (decide (o2 = o)) as [->|Hne].
  - exfalso. assert (i = k1) as <- by (eapply (aligned_head _ o _ o); [lia|apply Hlo|done..]).
    assert (i + 2 ^ o = k2) as <- by (eapply (aligned_head _ o _ o); [lia|apply Hhi|done..]).
    eapply (HC _ o); [|exact HB2|by rewrite Hx]. destruct Hwf as (? & _). lia.
  - exists k2, o2. split_and!; [lia|done|].
    eapply (bigger_block_contains i o k2 o2); [done|apply Hlo|lia|done|].
    rewrite <- Hx, buddy_invol by done. done.
Qed.

(** ** From block maps to client views *)

Lemma count_grow s B s' B' i o :
  0 ≤ o → count_ok (nr_free s) B → count_ok (nr_free s') B' →
  (∀ j, in_blk i o j → ¬ free_page_of B j) →
  (∀ j, free_page_of B' j ↔ free_page_of B j ∨ in_blk i o j) →
  nr_free s' = nr_free s + 2 ^ o.
Proof.
  intros Ho (F & HF & ->) (F' & HF' & ->) Hd Heq.
  assert (F' = F ∪ blk_set i o) as ->.
  { apply set_eq. intros j. rewrite elem_of_union, HF', HF, elem_of_blk_set by done. apply Heq. }
  rewrite size_union; [pose proof (size_blk_set i o Ho); lia|].
  intros j Hj Hj'. apply elem_of_blk_set in Hj'; [|done]. apply HF in Hj. by eapply Hd.
Qed.

Lemma view_free_not_owned s U B j :
  pmm_view s U B → free_page_of B j → owned U j → False.
Proof.
  intros [Hs _ Hu _ _] (i & o & HB & Hj) (i' & o' & HU & Hj'). apply Hu in HU.
  assert (i = i') by (eapply (bo_disj _ _ _ (bi_blocks _ _ _ Hs)); [exact HB|exact HU|done..]).
  congruence.
Qed.

Lemma view_wf s U B i o : pmm_view s U B → U !! i = Some o → wf_blk (nr_pages s) i o.
Proof.
  intros [Hs _ Hu _ _] HU%Hu. by eapply (bo_wf _ _ _ (bi_blocks _ _ _ Hs)).
Qed.

Lemma view_owned_head s U B i o : pmm_view s U B → U !! i = Some o → owned U i.
Proof. intros Hv HU. exists i, o. split; [done|]. by eapply wf_blk_head, view_wf. Qed.

Lemma view_taken s U B i ord s' B' :
  pmm_view s U B → taken s B i ord s' B' →
  pmm_view s' (<[i := ord]> U) B' ∧ nr_free s' = nr_free s - 2 ^ ord ∧
  (∀ j, in_blk i ord j → ¬ owned U j).
Proof.
  intros Hv [Hs' HC' Hwf Hwas Hu Hf Hst He Hp _ _].
  assert (∀ j, in_blk i ord j → ¬ owned U j) as Hno.
  { intros j Hj HU. by eapply view_free_not_owned, HU; [|apply Hwas]. }
  pose proof Hv as [Hs HC Hus Hcov [G1 G2 G3 G4]]. split_and!; [|..|done].
  - split; [done..| | |].
    + intros k o. rewrite Hu, <- Hus, lookup_insert. case_decide as Hk; subst; [|naive_solver].
      split; [naive_solver|]. intros [[_ ->]|HU]; [done|].
      exfalso. apply (Hno k); [by eapply wf_blk_head|]. by eapply view_owned_head.
    + intros j Hj. rewrite Hp in Hj. rewrite Hf.
      destruct (decide (i ≤ j < i + 2 ^ ord)) as [Hin|Hout].
      { right. exists i, ord. by rewrite lookup_insert_eq. }
      destruct (Hcov j Hj) as [?|(k & o & HU & Hk)]; [by left|].
      right. exists k, o. rewrite lookup_insert_ne; [done|]. intros ->.
      apply (Hno k); [by eapply wf_blk_head|]. by eapply view_owned_head.
    + split; by rewrite ?Hst, ?He, ?Hp.
  - enough (nr_free s = nr_free s' + 2 ^ ord) by lia.
    apply (count_grow s' B' s B i ord); [apply Hwf|apply Hs'|apply Hs|..].
    + intros j Hj [_ ?]%Hf. done.
    + intros j. rewrite Hf. destruct (decide (i ≤ j < i + 2 ^ ord)) as [Hin|Hout].
      * split; [by right|]. intros _. by apply Hwas.
      * unfold in_blk. tauto.
Qed.

Lemma view_released s U B i o s' B' :
  pmm_view s U B → U !! i = Some o → released s (delete i B) (in_blk i o) s' B' →
  pmm_view s' (delete i U) B' ∧ nr_free s' = nr_free s + 2 ^ o.
Proof.
  intros Hv HUi [Hs' HC' Hu Hf [F1 F2 F3 _ _]]. pose proof (view_wf _ _ _ _ _ Hv HUi) as Hwf.
  pose proof Hv as [Hs HC Hus Hcov [G1 G2 G3 G4]].
  assert (∀ j, free_page_of B' j ↔ free_page_of B j ∨ in_blk i o j) as Hf'.
  { intros j. rewrite Hf, (free_page_same_free B); [done|]. by eapply same_free_unuse, Hus. }
  split.
  - split; [done..| | |].
    + intros k o'. rewrite Hu, lookup_delete, lookup_delete. case_decide; [done|]. apply Hus.
    + intros j Hj. rewrite F3 in Hj. rewrite Hf'.
      destruct (Hcov j Hj) as [?|(k & o' & HU & Hk)]; [tauto|].
      destruct (decide (k = i)) as [->|Hne]; [left; right; congruence|].
      right. exists k, o'. by rewrite lookup_delete_ne.
    + split; by rewrite ?F1, ?F2, ?F3.
  - eapply (count_grow s B s' B' i o); [apply Hwf|apply Hs|apply Hs'| |done].
    intros j Hj Hfree. eapply view_free_not_owned; [done..|]. by exists i, o.
Qed.

(** Changing a reference count is invisible to the allocator. *)
Lemma view_refs s U B i pg rc :
  pmm_view s U B → mem_map s !! i = Some pg →
  pmm_view (with_mem_map (<[i := Page (order pg) rc]> (mem_map s)) s) U B.
Proof.
  intros [Hs HC Hus Hcov Hg] Hpg.
  assert (∀ k, order <$> <[i := Page (order pg) rc]> (mem_map s) !! k = order <$> mem_map s !! k) as Ho.
  { intros k. rewrite lookup_insert. case_decide; subst; by rewrite ?Hpg. }
  split; [|done..|by destruct Hg].
  destruct Hs as [Hb Ha [Hm Hfr Hu Hr] Hc Hge]. split; simpl; [done..| |done|done].
  split; [|setoid_rewrite Ho; done..].
  intros k Hk. rewrite lookup_insert. case_decide; eauto.
Qed.

Lemma view_used_page s U B i o :
  pmm_view s U B → U !! i = Some o →
  ∃ pg, mem_map s !! i = Some pg ∧ order pg = PAGE_INUSE ∧
        addr_to_page s (page_to_addr s i) = Some i.
Proof.
  intros Hv HU. pose proof (view_wf _ _ _ _ _ Hv HU) as Hwf. destruct Hv as [Hs _ Hus _ Hg].
  apply Hus, (mo_used _ _ _ _ (bi_marks _ _ _ Hs)) in HU.
  destruct (mem_map s !! i) as [pg|]; [|done]. exists pg. split_and!; [done|naive_solver|].
  apply addr_page_roundtrip; [done|by eapply wf_blk_head].
Qed.

Lemma view_free_block s U B i o :
  pmm_view s U B → U !! i = Some o →
  ∃ s', __free_one_page i o s = Done s' ∧ pmm_ok s' (delete i U) ∧
    nr_free s' = nr_free s + 2 ^ o ∧ same_frame s s'.
Proof.
  intros Hv HU. destruct (__free_one_page_ok i o s (delete i B)) as (s' & B' & Hrun & Hrel).
  - apply unuse_ok; [apply Hv|]. by apply (pv_used _ _ _ Hv).
  - by eapply view_wf.
  - eapply coalesced_delete, Hv.
  - destruct (view_released s U B i o s' B' Hv HU Hrel) as [Hv' Hn].
    exists s'. split_and!; [done|by exists B'|done|apply Hrel].
Qed.

(** With [2^ord] free pages in an aligned run, some free block is big enough. *)
Lemma view_full s U B ord :
  pmm_view s U B → 0 ≤ ord → (∀ k o', ord ≤ o' → B !! k ≠ Some (o', BFree)) →
  ∀ i, wf_blk (nr_pages s) i ord → ∃ j, in_blk i ord j ∧ owned U j.
Proof.
  intros Hv Hord Hnone i Hwf. destruct (bi_count _ _ _ (pv_inv _ _ _ Hv)) as (F & HF & _).
  assert (∀ j, j ∈ seqZ i (2 ^ ord) ↔ in_blk i ord j) as Hseq.
  { intros j. rewrite elem_of_seqZ. unfold in_blk. lia. }
  destruct (decide (Forall (λ j, j ∈ F) (seqZ i (2 ^ ord)))) as [Hall|Hnot].
  - destruct (coalesced_run s B ord (pv_inv _ _ _ Hv) (pv_coal _ _ _ Hv) Hord i Hwf)
      as (k & o' & Ho' & HB & _); [|by destruct (Hnone k o')].
    intros j Hj. apply HF. rewrite Forall_forall in Hall. by apply Hall, Hseq.
  - apply not_Forall_Exists in Hnot; [|intros x; apply _].
    apply Exists_exists in Hnot as (j & Hj & HjF). apply Hseq in Hj.
    exists j. split; [done|].
    destruct (pv_cover _ _ _ Hv j) as [Hfree|?]; [by eapply wf_blk_in| |done].
    by apply HF in Hfree.
Qed.

(** ** Initialisation *)

Definition all_empty (L : gmap (Z + Z) (list (Z + Z))) : Prop :=
  ∀ x xs, L !! x = Some xs → xs = [].

Lemma init_node h L x :
  repr h L → all_empty L → repr (INIT_LIST_HEAD x h) (<[x := []]> L) ∧ all_empty (<[x := []]> L).
Proof.
  intros HR HE. split.
  - apply INIT_LIST_HEAD_repr; [done|]. destruct (L !! x) as [xs|] eqn:Hx.
    + right. by rewrite (HE x xs Hx).
    + left. intros hd xs Hhd Hin. pose proof (HE _ _ Hhd) as ->.
      apply list_elem_of_singleton in Hin as ->. congruence.
  - intros y ys. rewrite lookup_insert. case_decide; [congruence|apply HE].
Qed.

Lemma init_areas_ok l : ∀ s L,
  repr (lists s) L → all_empty L →
  let s' := foldl (λ s o, with_lists (INIT_LIST_HEAD (area_node o) (lists s))
                  (with_counts (<[o := 0]> (area_nr_free s)) (nr_free s) s)) s l in
  ∃ L', repr (lists s') L' ∧ all_empty L' ∧
    (∀ o, o ∈ l ∨ (L !! area_node o = Some [] ∧ area_nr_free s !! o = Some 0) →
          L' !! area_node o = Some [] ∧ area_nr_free s' !! o = Some 0) ∧
    mem_map s' = mem_map s ∧ nr_free s' = nr_free s ∧ nr_pages s' = nr_pages s ∧
    mem_start s' = mem_start s ∧ mem_end s' = mem_end s.
Proof.
  induction l as [|a l IH]; intros s L HR HE; simpl.
  { exists L. split_and!; try done. set_solver. }
  destruct (init_node _ _ (area_node a) HR HE) as [HR' HE'].
  edestruct (IH (with_lists (INIT_LIST_HEAD (area_node a) (lists s))
    (with_counts (<[a := 0]> (area_nr_free s)) (nr_free s) s)) _ HR' HE')
    as (L' & ? & ? & Ha & ? & ? & ? & ? & ?).
  exists L'. split_and!; try done. intros o Ho. apply Ha. simpl.
  rewrite elem_of_cons in Ho. destruct (decide (o = a)) as [->|Hne].
  - right. by rewrite !lookup_insert_eq.
  - rewrite !lookup_insert_ne by first [done | intros [=]; congruence]. tauto.
Qed.

Lemma init_pages_ok l : ∀ s L,
  repr (lists s) L → all_empty L →
  let s' := foldl init_page s l in
  ∃ L', repr (lists s') L' ∧ all_empty L' ∧
    (∀ i, i ∈ l ∨ (L !! page_node i = Some [] ∧ mem_map s !! i = Some (Page PAGE_INUSE 0)) →
          L' !! page_node i = Some [] ∧ mem_map s' !! i = Some (Page PAGE_INUSE 0)) ∧
    (∀ o, L' !! area_node o = L !! area_node o) ∧
    area_nr_free s' = area_nr_free s ∧ nr_free s' = nr_free s ∧ nr_pages s' = nr_pages s ∧
    mem_start s' = mem_start s ∧ mem_end s' = mem_end s.
Proof.
  induction l as [|a l IH]; intros s L HR HE; simpl.
  { exists L. split_and!; try done. set_solver. }
  destruct (init_node _ _ (page_node a) HR HE) as [HR' HE'].
  edestruct (IH (init_page s a) _ HR' HE') as (L' & ? & ? & Ha & Hb & ? & ? & ? & ? & ?).
  exists L'. split_and!; try done.
  - intros o Ho. apply Ha. simpl.
    rewrite elem_of_cons in Ho. destruct (decide (o = a)) as [->|Hne].
    + right. by rewrite !lookup_insert_eq.
    + rewrite !lookup_insert_ne by first [done | intros [=]; congruence]. tauto.
  - intros o. by rewrite Hb, lookup_insert_ne.
Qed.

(** After the two loops nothing is free and every page is marked in use. *)
Lemma init_state_ok s :
  lists s = ∅ → nr_free s = 0 → 0 ≤ nr_pages s < 2 ^ 20 →
  let s' := init_pages (init_areas s) in
  binv s' ∅ (λ _, False) ∧ mem_start s' = mem_start s ∧ mem_end s' = mem_end s ∧
  nr_pages s' = nr_pages s.
Proof.
  intros Hl Hf Hn s'. subst s'. unfold init_pages, init_areas.
  destruct (init_areas_ok (seqZ 0 MAX_ORDER) s ∅) as (L1 & HR1 & HE1 & Ha1 & Hm1 & Hf1 & Hn1 & Hs1 & He1).
  { rewrite Hl. by split. } { done. }
  set (s1 := foldl _ s (seqZ 0 MAX_ORDER)) in *.
  destruct (init_pages_ok (seqZ 0 (nr_pages s1)) s1 L1 HR1 HE1)
    as (L2 & HR2 & HE2 & Ha2 & Hb2 & Hr2 & Hf2 & Hn2 & Hs2 & He2).
  set (s2 := foldl init_page s1 (seqZ 0 (nr_pages s1))) in *.
  assert (∀ i, 0 ≤ i < nr_pages s2 →
    L2 !! page_node i = Some [] ∧ mem_map s2 !! i = Some (Page PAGE_INUSE 0)) as Hpg.
  { intros i Hi. apply Ha2. left. rewrite elem_of_seqZ. lia. }
  split_and!; [|congruence..]. split; [..|lia].
  - by split.
  - exists L2. split; [done|..].
    + intros o Ho. exists []. rewrite Hb2, Hr2.
      destruct (Ha1 o) as [-> ->]; [left; rewrite elem_of_seqZ; lia|].
      split_and!; [done..|]. intros i. by rewrite elem_of_nil.
    + intros i Hi _. by apply Hpg.
  - split; [|done..|]; intros i Hi; destruct (Hpg i Hi) as [_ ->]; [done|by right; right].
  - exists ∅. split; [|by rewrite Hf2, Hf1, Hf]. intros j. rewrite elem_of_empty.
    split; [done|]. by intros (i & o & ? & _).
Qed.

Lemma init_order_ok fuel idx left : ∀ o,
  0 ≤ o < MAX_ORDER → (2 ^ o | idx) → 2 ^ o ≤ left →
  let r := init_order fuel idx left o in 0 ≤ r < MAX_ORDER ∧ (2 ^ r | idx) ∧ 2 ^ r ≤ left.
Proof.
  induction fuel as [|fuel IH]; intros o Ho Hd Hl; simpl; [done|].
  rewrite shiftl_1_pow2 by lia.
  destruct (_ && _) eqn:Hc; [|done].
  rewrite !andb_true_iff, Z.ltb_lt, Z.eqb_eq, Z.leb_le in Hc. destruct Hc as [[Hm Ha] Hle].
  apply IH; [lia| |done]. apply Z.mod_divide; [pose proof (pow2_pos (o + 1)); lia|].
  rewrite <- Z.land_ones by lia. by rewrite Z.ones_equiv, <- Z.sub_1_r.
Qed.

Lemma binv_open s B i o :
  binv s B (λ _, False) → (∀ k o' st j, B !! k = Some (o', st) → in_blk k o' j → ¬ in_blk i o j) →
  binv s B (in_blk i o).
Proof.
  intros [[Hw Hd _] Ha [Hm Hf Hu Hr] Hc Hg] Hdis. split; [split; [done..|]|done| |done..].
  - intros k o' st j HB Hj Hj'. by eapply Hdis.
  - split; [done..|]. intros j Hj. destruct (Hr j Hj) as [?|[[]|?]]; tauto.
Qed.

Lemma geometry_frame s s' : same_frame s s' → geometry s → geometry s'.
Proof. intros [F1 F2 F3 _ _] [G1 G2 G3 G4]. split; by rewrite ?F1, ?F2, ?F3. Qed.

Lemma init_count s B :
  binv s B (λ _, False) → (∀ j, free_page_of B j ↔ 0 ≤ j < nr_pages s) → nr_free s = nr_pages s.
Proof.
  intros [_ _ _ (F & HF & ->) Hg] Hf.
  assert (F = list_to_set (seqZ 0 (nr_pages s))) as ->.
  { apply set_eq. intros j. rewrite HF, Hf, elem_of_list_to_set, elem_of_seqZ. lia. }
  rewrite size_list_to_set by apply NoDup_seqZ. rewrite length_seqZ. lia.
Qed.

Local Arguments init_order : simpl never.
Local Arguments __free_one_page : simpl never.

(** The release loop of [pmm_init], from page [k] on. *)
Lemma init_free_ok fuel : ∀ k s B,
  binv s B (λ _, False) → coalesced B → geometry s → 0 ≤ k ≤ nr_pages s →
  (∀ i o, B !! i ≠ Some (o, BUsed)) → (∀ j, free_page_of B j ↔ 0 ≤ j < k) →
  nr_pages s - k < Z.of_nat fuel →
  ∃ s', init_free fuel (mem_start s + k * PGSIZE) s = Done s' ∧ pmm_ok s' ∅ ∧
    nr_free s' = nr_pages s' ∧ same_frame s s'.
Proof.
  induction fuel as [|fuel IH]; intros k s B Hs HC Hg Hk Hnu Hf Hfuel; [lia|].
  simpl. pose proof Hg as [_ G2 G3 G4]. unfold PHYSMEM_TOP_MAX in *.
  destruct (Z.ltb_spec (mem_start s + k * PGSIZE) (mem_end s)) as [Hlt|Hge].
  2:{ assert (k = nr_pages s) as -> by (unfold PGSIZE in *; lia).
      exists s. split; [done|]. split_and!; [|by apply (init_count s B)|done].
      exists B. split; try done; [intros; by split; [|intros ?%Hnu]|].
      intros j Hj. left. by apply Hf. }
  assert (k < nr_pages s) as Hkn by (unfold PGSIZE in *; lia).
  rewrite (addr_to_page_phys s k) by (done || lia).
  replace ((mem_start s + k * PGSIZE - mem_start s) / PGSIZE) with k
    by (rewrite Z.add_simpl_l; symmetry; by apply Z.div_mul).
  replace ((mem_end s - (mem_start s + k * PGSIZE)) / PGSIZE) with (nr_pages s - k)
    by (rewrite G3; apply Z.div_unique_exact; unfold PGSIZE; lia).
  pose proof (init_order_ok (Z.to_nat MAX_ORDER) k (nr_pages s - k) 0) as Ho.
  destruct Ho as (Ho1 & Ho2 & Ho3); [done|apply Z.divide_1_l|lia|].
  set (o := init_order _ k (nr_pages s - k) 0) in *. clearbody o.
  pose proof (pow2_pos o ltac:(lia)).
  destruct (__free_one_page_ok k o s B) as (s1 & B1 & -> & [Hs1 HC1 Hu1 Hf1 Hfr1]).
  { apply binv_open; [done|]. intros i o' st j HB Hj [Hj' _].
    destruct st; [|by apply Hnu in HB].
    assert (free_page_of B j) as ?%Hf by (by exists i, o'). lia. }
  { unfold wf_blk. split_and!; [lia..|done]. } { done. }
  simpl. rewrite Z.shiftl_mul_pow2 by lia.
  rewrite u32_small by (unfold PGSIZE in *; nia).
  replace (mem_start s + k * PGSIZE + PGSIZE * 2 ^ o) with (mem_start s1 + (k + 2 ^ o) * PGSIZE)
    by (rewrite (sf_start _ _ Hfr1); lia).
  destruct (IH (k + 2 ^ o) s1 B1) as (s' & Hrun & Hok & Hn & Hfr);
    rewrite ?(sf_pages _ _ Hfr1); try done; try lia.
  - by eapply geometry_frame.
  - intros i o'. rewrite Hu1. apply Hnu.
  - intros j. rewrite Hf1, Hf. unfold in_blk. lia.
  - exists s'. split_and!; [done..|]. by etrans.
Qed.

Lemma PGROUNDUP_aligned a : 0 ≤ a ≤ 2 ^ 32 - PGSIZE →
  (PGSIZE | PGROUNDUP a) ∧ a ≤ PGROUNDUP a < a + PGSIZE.
Proof.
  intros Ha. rewrite PGROUNDUP_spec by done. split; [by exists ((a + PGSIZE - 1) / PGSIZE)|].
  unfold PGSIZE in *. pose proof (Z_div_mod_eq_full (a + 4096 - 1) 4096).
  pose proof (Z.mod_pos_bound (a + 4096 - 1) 4096). lia.
Qed.

(** The bytes [pmm_init] reserves for [mem_map]. *)
Definition map_bytes_of (base top : Z) : Z :=
  PGROUNDUP (u32 ((top - base) / PGSIZE * sizeof_page)).

Lemma map_bytes_ok base top :
  0 ≤ base < top → top ≤ PHYSMEM_TOP_MAX →
  (PGSIZE | map_bytes_of base top) ∧
  (top - base) / PGSIZE * sizeof_page ≤ map_bytes_of base top < (top - base) + PGSIZE.
Proof.
  intros Hb Hmax. unfold map_bytes_of.
  pose proof (Z.div_pos (top - base) PGSIZE ltac:(lia) ltac:(done)) as Hq.
  pose proof (Z.mul_div_le (top - base) PGSIZE ltac:(done)) as Hq'.
  rewrite u32_small by (unfold sizeof_page, PGSIZE, PHYSMEM_TOP_MAX in *; lia).
  destruct (PGROUNDUP_aligned ((top - base) / PGSIZE * sizeof_page)) as [Hma Hml];
    [unfold sizeof_page, PGSIZE, PHYSMEM_TOP_MAX in *; lia|].
  split; [done|]. unfold sizeof_page, PGSIZE in *. lia.
Qed.

Lemma image_end_ok end_ :
  KERNBASE ≤ end_ < KERNBASE + PHYSMEM_TOP_MAX →
  (PGSIZE | PGROUNDUP (V2P end_)) ∧ 0 ≤ PGROUNDUP (V2P end_).
Proof.
  intros Hend. assert (V2P end_ = end_ - KERNBASE) as HV.
  { unfold V2P, KERNBASE, PHYSMEM_TOP_MAX in *. apply u32_small. lia. }
  destruct (PGROUNDUP_aligned (V2P end_)) as [Hba Hbl];
    [rewrite HV; unfold KERNBASE, PHYSMEM_TOP_MAX, PGSIZE in *; lia|].
  split; [done|lia].
Qed.

(** The layout arithmetic of [pmm_init] does not wrap, and the reserved
    [mem_map] has an entry for every page of the pool. *)
Lemma pmm_init_layout end_ top :
  let base := PGROUNDUP (V2P end_) in
  KERNBASE ≤ end_ < KERNBASE + PHYSMEM_TOP_MAX → (PGSIZE | top) → 0 ≤ top ≤ PHYSMEM_TOP_MAX →
  base < top → base + map_bytes_of base top < top →
  let ms := base + map_bytes_of base top in
  let n := (top - ms) / PGSIZE in
  (PGSIZE | ms) ∧ 0 ≤ base ≤ ms ∧ top = ms + n * PGSIZE ∧ 0 < n < 2 ^ 20 ∧
  n * sizeof_page ≤ map_bytes_of base top.
Proof.
  intros base Hend Htop Hmax Hb. destruct (image_end_ok end_ Hend) as [Hba Hb0].
  fold base in Hba, Hb0. clearbody base.
  destruct (map_bytes_ok base top ltac:(lia) ltac:(lia)) as [Hma Hml].
  pose proof (Z.div_pos (top - base) PGSIZE ltac:(lia) ltac:(done)) as Hq.
  generalize dependent (map_bytes_of base top).
  intros mb Hma Hml Hfit ms n.
  assert ((PGSIZE | ms)) as Hms by (by apply Z.divide_add_r).
  destruct (Z.divide_sub_r _ _ _ Htop Hms) as [q Hn].
  assert (n = q) as -> by (unfold n; rewrite Hn; by apply Z.div_mul).
  assert (q ≤ (top - base) / PGSIZE).
  { replace q with ((top - ms) / PGSIZE) by (rewrite Hn; by apply Z.div_mul).
    unfold ms, sizeof_page in *. apply Z.div_le_mono; [done|lia]. }
  unfold ms, PGSIZE, PHYSMEM_TOP_MAX, sizeof_page in *. split_and!; try done; lia.
Qed.

Lemma pmm_init_view end_ top ram0 :
  let base := PGROUNDUP (V2P end_) in
  KERNBASE ≤ end_ < KERNBASE + PHYSMEM_TOP_MAX → (PGSIZE | top) → 0 ≤ top ≤ PHYSMEM_TOP_MAX →
  base < top → base + map_bytes_of base top < top →
  ∃ s, pmm_init end_ top ram0 = Done s ∧ pmm_ok s ∅ ∧ nr_free s = nr_pages s ∧
    0 < nr_pages s ∧ nr_pages s * sizeof_page ≤ map_bytes_of base top ∧
    mem_start s = base + map_bytes_of base top ∧ mem_end s = top.
Proof.
  intros base Hend Htop Hmax Hb Hfit.
  destruct (pmm_init_layout end_ top Hend Htop Hmax Hb Hfit) as (Hms & Hbms & Heq & Hn & Hmap).
  fold base in Hms, Hbms, Heq, Hn, Hmap. unfold pmm_init. fold base.
  fold (map_bytes_of base top). clearbody base. set (mb := map_bytes_of base top) in *. clearbody mb.
  rewrite (u32_small (base + mb)) by (unfold PHYSMEM_TOP_MAX in *; lia).
  set (n := (top - (base + mb)) / PGSIZE) in *. clearbody n.
  rewrite (proj2 (Z.leb_gt top base)), (proj2 (Z.leb_gt top (base + mb))),
    (proj2 (Z.eqb_neq n 0)) by lia.
  set (s0 := Pmm _ _ _ _ _ _ _ _).
  destruct (init_state_ok s0 eq_refl eq_refl ltac:(simpl; lia)) as (Hs & H1 & H2 & H3).
  set (s1 := init_pages (init_areas s0)) in *. clearbody s1. simpl in H1, H2, H3.
  destruct (init_free_ok (S (Z.to_nat n)) 0 s1 ∅) as (s & Hrun & Hok & Hnf & [F1 F2 F3 _ _]).
  - done.
  - intros i o _. by rewrite lookup_empty.
  - split; rewrite ?H1, ?H2, ?H3; [done|lia..].
  - lia.
  - intros i o. by rewrite lookup_empty.
  - intros j. split; [by intros (i & o & ? & _)|lia].
  - lia.
  - exists s. rewrite H1 in Hrun. replace (base + mb + 0 * PGSIZE) with (base + mb) in Hrun by lia.
    split_and!; [done..| | | |]; congruence || (rewrite F3, H3; lia).
Qed.

(** ** The entry points *)

Lemma alloc_pages_view s U B ord :
  pmm_view s U B → 0 ≤ ord →
  ∃ r s', alloc_pages ord s = Done (r, s') ∧
  match r with
  | None => s' = s ∧ ∀ i, wf_blk (nr_pages s) i ord → ∃ j, in_blk i ord j ∧ owned U j
  | Some a => ∃ i, a = page_to_addr s i ∧ wf_blk (nr_pages s) i ord ∧
      (∀ j, in_blk i ord j → ¬ owned U j) ∧ pmm_ok s' (<[i := ord]> U) ∧
      nr_free s' = nr_free s - 2 ^ ord ∧
      mem_start s' = mem_start s ∧ nr_pages s' = nr_pages s ∧
      (∀ k, _refcount <$> mem_map s' !! k =
            if decide (k = i) then Some 1 else _refcount <$> mem_map s !! k) ∧
      (∀ b, mload (ram s') b =
            if decide (a ≤ b < a + 2 ^ ord * PGSIZE) then 0 else mload (ram s) b)
  end.
Proof.
  intros Hv Hord. unfold alloc_pages, __alloc_pages.
  destruct (Z.leb_spec MAX_ORDER ord) as [Hbig|Hsm].
  { exists None, s. split_and!; [done..|]. intros i (? & _). lia. }
  destruct (alloc_scan_ok (S (Z.to_nat MAX_ORDER)) ord ord s B) as (r & s1 & -> & Hr);
    [apply Hv|apply Hv|lia|unfold MAX_ORDER in *; lia|lia|].
  destruct r as [i|]; simpl.
  - destruct Hr as [B' Htk]. destruct (view_taken _ _ _ _ _ _ _ Hv Htk) as (Hv' & Hn & Hno).
    pose proof (tk_wf _ _ _ _ _ _ Htk) as Hwf. pose proof (pow2_pos ord Hord).
    eexists (Some _), _. split; [done|]. exists i. simpl. split_and!; [|done..| | |apply Htk|apply Htk|apply Htk|].
    + unfold page_to_addr. by rewrite (tk_start _ _ _ _ _ _ Htk).
    + exists B'. destruct Hv' as [[] ? ? ? []]. by repeat (split; [done..|]).
    + done.
    + intros b. rewrite mload_memset, (tk_ram _ _ _ _ _ _ Htk).
      rewrite Z.shiftl_mul_pow2 by done. rewrite Z2Nat.id by (unfold PGSIZE; lia).
      rewrite (Z.mul_comm PGSIZE). done.
  - destruct Hr as [-> Hnone]. exists None, s. split_and!; [done..|].
    by eapply view_full.
Qed.

(** C6: [alloc_pages(order)] always returns.  When it hands out memory, the block
    is [2^order] aligned pages that no client owned, its count is one, its bytes
    are zero, no other byte and no other count changed, [nr_free] drops by
    [2^order] and the allocator is consistent with the block owned.  When it
    returns null nothing changed and every aligned run of [2^order] pages has
    an owned page: the allocator never fails while a run is free. *)
Theorem alloc_pages_spec s U ord :
  pmm_ok s U → 0 ≤ ord →
  ∃ r s', alloc_pages ord s = Done (r, s') ∧
  match r with
  | None => s' = s ∧ ∀ i, wf_blk (nr_pages s) i ord → ∃ j, in_blk i ord j ∧ owned U j
  | Some a => ∃ i, a = page_to_addr s i ∧ wf_blk (nr_pages s) i ord ∧
      (∀ j, in_blk i ord j → ¬ owned U j) ∧ pmm_ok s' (<[i := ord]> U) ∧
      nr_free s' = nr_free s - 2 ^ ord ∧
      mem_start s' = mem_start s ∧ nr_pages s' = nr_pages s ∧
      (∀ k, _refcount <$> mem_map s' !! k =
            if decide (k = i) then Some 1 else _refcount <$> mem_map s !! k) ∧
      (∀ b, mload (ram s') b =
            if decide (a ≤ b < a + 2 ^ ord * PGSIZE) then 0 else mload (ram s) b)
  end.
Proof. intros [B Hv]. by apply (alloc_pages_view s U B). Qed.

Lemma put_page_view s U B i pg :
  pmm_view s U B → U !! i = Some 0 → mem_map s !! i = Some pg → 1 ≤ _refcount pg →
  ∃ s', put_page (page_to_addr s i) s = Done s' ∧ ram s' = ram s ∧ mem_start s' = mem_start s ∧
    (∀ k, _refcount <$> mem_map s' !! k =
          if decide (k = i) then Some (_refcount pg - 1) else _refcount <$> mem_map s !! k) ∧
    if _refcount pg =? 1
    then pmm_ok s' (delete i U) ∧ nr_free s' = nr_free s + 1
    else pmm_ok s' U ∧ nr_free s' = nr_free s.
Proof.
  intros Hv HU Hpg Hrc. destruct (view_used_page _ _ _ _ _ Hv HU) as (pg' & Hpg' & Hord & Hadr).
  simplify_eq. unfold put_page. rewrite Hadr. simpl. rewrite Hpg. simpl. rewrite Hord, Z.eqb_refl.
  simpl. rewrite (proj2 (Z.eqb_neq (_refcount pg) 0)) by lia.
  pose proof (view_refs s U B i pg (_refcount pg - 1) Hv Hpg) as Hv1. rewrite Hord in Hv1.
  set (s1 := with_mem_map _ s) in *.
  assert (∀ k, _refcount <$> mem_map s1 !! k =
    if decide (k = i) then Some (_refcount pg - 1) else _refcount <$> mem_map s !! k) as Hrefs.
  { intros k. unfold s1. simpl. rewrite lookup_insert. repeat case_decide; subst; done. }
  destruct (Z.eqb_spec (_refcount pg) 1) as [Heq|Hne].
  - rewrite Heq. simpl. destruct (view_free_block s1 U B i 0 Hv1 HU) as (s' & -> & Hok & Hn & Hfr).
    exists s'. split_and!; [done|by rewrite (sf_ram _ _ Hfr)|by rewrite (sf_start _ _ Hfr)| |done|done].
    intros k. rewrite (sf_refs _ _ Hfr), Hrefs, Heq. done.
  - rewrite (proj2 (Z.eqb_neq (_refcount pg - 1) 0)) by lia.
    exists s1. split_and!; try done. by exists B.
Qed.

(** [put_page] on an allocated page drops one reference without panicking;
    the last reference returns the page to the allocator, an earlier one leaves
    the page with its owner.  No page contents and no other count change. *)
Theorem put_page_spec s U i pg :
  pmm_ok s U → U !! i = Some 0 → mem_map s !! i = Some pg → 1 ≤ _refcount pg →
  ∃ s', put_page (page_to_addr s i) s = Done s' ∧ ram s' = ram s ∧ mem_start s' = mem_start s ∧
    (∀ k, _refcount <$> mem_map s' !! k =
          if decide (k = i) then Some (_refcount pg - 1) else _refcount <$> mem_map s !! k) ∧
    if _refcount pg =? 1
    then pmm_ok s' (delete i U) ∧ nr_free s' = nr_free s + 1
    else pmm_ok s' U ∧ nr_free s' = nr_free s.
Proof. intros [B Hv]. by apply (put_page_view s U B). Qed.

Lemma free_pages_view s U B i o :
  pmm_view s U B → U !! i = Some o → 0 < o →
  ∃ s', free_pages (page_to_addr s i) o s = Done s' ∧ pmm_ok s' (delete i U) ∧
    nr_free s' = nr_free s + 2 ^ o ∧ same_frame s s'.
Proof.
  intros Hv HU Ho. destruct (view_used_page _ _ _ _ _ Hv HU) as (pg' & Hpg' & Hord & Hadr).
  pose proof (view_wf _ _ _ _ _ Hv HU) as (Hmo & _).
  unfold free_pages. rewrite (proj2 (Z.leb_gt _ _)), (proj2 (Z.eqb_neq o 0)) by lia.
  rewrite Hadr. destruct (view_free_block s U B i o Hv HU) as (s' & -> & Hok & Hn & Hfr).
  by exists s'.
Qed.

(** freeing what was just allocated, at any order, restores the allocator:
    the same blocks are owned and as many pages are free. *)
Theorem alloc_free_roundtrip s U ord a s1 :
  pmm_ok s U → 0 ≤ ord → alloc_pages ord s = Done (Some a, s1) →
  ∃ s2, free_pages a ord s1 = Done s2 ∧ pmm_ok s2 U ∧ nr_free s2 = nr_free s.
Proof.
  intros [B Hv] Hord Halloc.
  destruct (alloc_pages_view s U B ord Hv Hord) as (r & s' & Heq & Hr).
  rewrite Halloc in Heq. injection Heq as <- <-.
  destruct Hr as (i & -> & Hwf & Hno & [B1 Hv1] & Hn & Hst & Hp & Hrc & _).
  assert (U !! i = None) as HUi.
  { apply eq_None_not_Some. intros [o HU]. apply (Hno i); [by eapply wf_blk_head|].
    by eapply view_owned_head. }
  assert (page_to_addr s i = page_to_addr s1 i) as -> by (unfold page_to_addr; by rewrite Hst).
  assert (<[i := ord]> U !! i = Some ord) as HU1 by apply lookup_insert_eq.
  destruct (decide (ord = 0)) as [->|Hne].
  - destruct (view_used_page _ _ _ _ _ Hv1 HU1) as (pg & Hpg & _ & _).
    specialize (Hrc i). rewrite Hpg, decide_True in Hrc by done. injection Hrc as Hrc.
    destruct (put_page_view s1 (<[i := 0]> U) B1 i pg) as (s2 & Hrun & _ & _ & _ & Hok); [done..|lia|].
    rewrite Hrc in Hok. simpl in Hok. rewrite delete_insert_id in Hok by done.
    exists s2. split_and!; [done|apply Hok|lia].
  - destruct (free_pages_view s1 (<[i := ord]> U) B1 i ord Hv1 HU1) as (s2 & Hrun & Hok & Hn2 & _); [lia|].
    exists s2. rewrite delete_insert_id in Hok by done. split_and!; [done..|lia].
Qed.

(** [free_pages] of an allocated block of order at least one returns its
    pages to the allocator without panicking; no page contents and no reference
    count change. *)
Theorem free_pages_spec s U i o :
  pmm_ok s U → U !! i = Some o → 0 < o →
  ∃ s', free_pages (page_to_addr s i) o s = Done s' ∧ pmm_ok s' (delete i U) ∧
    nr_free s' = nr_free s + 2 ^ o ∧ same_frame s s'.
Proof. intros [B Hv]. by apply (free_pages_view s U B). Qed.

(** [get_page] on an allocated page adds one reference (modulo [2^32]),
    which [page_refcount] then reports, and changes nothing else. *)
Theorem get_page_spec s U i o pg :
  pmm_ok s U → U !! i = Some o → mem_map s !! i = Some pg →
  ∃ s', get_page (page_to_addr s i) s = Done s' ∧ pmm_ok s' U ∧
    page_refcount (page_to_addr s i) s' = Done (u32 (_refcount pg + 1)) ∧
    (∀ k, k ≠ i → mem_map s' !! k = mem_map s !! k) ∧ nr_free s' = nr_free s ∧ ram s' = ram s.
Proof.
  intros [B Hv] HU Hpg. destruct (view_used_page _ _ _ _ _ Hv HU) as (pg' & Hpg' & Hord & Hadr).
  simplify_eq. unfold get_page. rewrite Hadr. simpl. rewrite Hpg. simpl.
  rewrite Hord, Z.eqb_refl. simpl. eexists. split; [done|]. split_and!; try done.
  - exists B. rewrite <- Hord. by apply view_refs.
  - unfold page_refcount.
    change (addr_to_page (with_mem_map _ s)) with (addr_to_page s). rewrite Hadr.
    simpl. by rewrite lookup_insert_eq.
  - intros k Hk. simpl. by rewrite lookup_insert_ne.
Qed.

(** [pmm_init], for a kernel image in the direct map and a page-aligned
    top of memory, panics when the memory behind the image cannot hold
    [mem_map] and a page, and otherwise returns a consistent allocator whose
    pages are all free, with a [mem_map] entry reserved for every page. *)
Theorem pmm_init_spec end_ top ram0 :
  let base := PGROUNDUP (V2P end_) in
  KERNBASE ≤ end_ < KERNBASE + PHYSMEM_TOP_MAX → (PGSIZE | top) → 0 ≤ top ≤ PHYSMEM_TOP_MAX →
  if (base <? top) && (base + map_bytes_of base top <? top)
  then ∃ s, pmm_init end_ top ram0 = Done s ∧ pmm_ok s ∅ ∧ nr_free s = nr_pages s ∧
    0 < nr_pages s ∧ nr_pages s * sizeof_page ≤ map_bytes_of base top ∧
    mem_start s = base + map_bytes_of base top ∧ mem_end s = top
  else ∃ msg, pmm_init end_ top ram0 = Panic msg.
Proof.
  intros base Hend Htop Hmax.
  destruct (Z.ltb_spec base top) as [Hb|Hb]; simpl.
  2:{ eexists. unfold pmm_init. fold base. by rewrite (proj2 (Z.leb_le top base)). }
  destruct (Z.ltb_spec (base + map_bytes_of base top) top) as [Hf|Hf].
  { by apply pmm_init_view. }
  eexists. unfold pmm_init. fold base. rewrite (proj2 (Z.leb_gt top base)) by lia.
  fold (map_bytes_of base top). rewrite (proj2 (Z.leb_le top (u32 (base + _)))); [done|].
  destruct (image_end_ok end_ Hend) as [_ Hb0]. fold base in Hb0.
  destruct (map_bytes_ok base top ltac:(lia) ltac:(lia)) as [_ Hml].
  rewrite u32_small; [lia|]. unfold PHYSMEM_TOP_MAX, PGSIZE in *.
  pose proof (Z.div_pos (top - base) 4096). unfold sizeof_page in *. lia.
Qed.

(** an address that names no page of the pool (outside it, or not page
    aligned) is refused with a panic by every function that takes one. *)
Theorem bad_address_panics s addr ord :
  addr_to_page s addr = None →
  put_page addr s = Panic "put_page" ∧ get_page addr s = Panic "get_page" ∧
  (0 < ord < MAX_ORDER → free_pages addr ord s = Panic "free_pages: bad addr") ∧
  page_refcount addr s = Done 0.
Proof.
  intros Ha. unfold put_page, get_page, free_pages, page_refcount. rewrite Ha.
  split_and!; try done. intros Ho.
  by rewrite (proj2 (Z.leb_gt _ _)), (proj2 (Z.eqb_neq ord 0)) by lia.
Qed.

(** ** A concrete pool

    Seven pages behind an image that ends at 1 MiB, one of them allocated at
    order 0 and two at order 1. *)
Definition demo_pmm (r : outcome pmm) : pmm :=
  match r with Done s => s | _ => Pmm ∅ ∅ ∅ 0 0 0 0 ∅ end.
Definition demo_alloc (ord : Z) (s : pmm) : pmm :=
  demo_pmm ('(_, s) ← alloc_pages ord s; mret s).

Definition pool0 : pmm := demo_pmm (pmm_init 0xC0100000 0x108000 ∅).
Definition pool1 : pmm := demo_alloc 0 pool0.
Definition pool2 : pmm := demo_alloc 1 pool1.

Lemma pool0_ok : pmm_ok pool0 ∅.
Proof.
  destruct (pmm_init_view 0xC0100000 0x108000 ∅) as (s & Hs & Hok & _);
    [by vm_compute|by exists 0x108|by vm_compute..|].
  unfold pool0. by rewrite Hs.
Qed.

Lemma demo_alloc_ok s U ord i :
  pmm_ok s U → 0 ≤ ord →
  (match alloc_pages ord s with Done (Some a, _) => addr_to_page s a | _ => None end) = Some i →
  pmm_ok (demo_alloc ord s) (<[i := ord]> U).
Proof.
  intros [B Hv] Hord Hi. destruct (alloc_pages_view s U B ord Hv Hord) as (r & s' & Heq & Hr).
  unfold demo_alloc. rewrite Heq in *. destruct r as [a|]; [|done].
  destruct Hr as (k & -> & Hwf & _ & Hok & _).
  rewrite addr_page_roundtrip in Hi; [|apply Hv|by eapply wf_blk_head].
  by injection Hi as ->.
Qed.

Lemma pool1_ok : pmm_ok pool1 {[6 := 0]}.
Proof. apply (demo_alloc_ok pool0 ∅); [apply pool0_ok|done|by vm_compute]. Qed.

Lemma pool2_ok : pmm_ok pool2 (<[4 := 1]> {[6 := 0]}).
Proof. apply (demo_alloc_ok pool1 {[6 := 0]}); [apply pool1_ok|done|by vm_compute]. Qed.

Lemma alloc_pages_spec_witness :
  ∃ r s', alloc_pages 1 pool1 = Done (r, s') ∧ (r = None → s' = pool1).
Proof.
  destruct (alloc_pages_spec pool1 {[6 := 0]} 1 pool1_ok ltac:(lia)) as (r & s' & Heq & Hr).
  exists r, s'. split; [exact Heq|]. intros ->. apply Hr.
Defined.

Lemma put_page_spec_witness :
  ∃ s', put_page (page_to_addr pool1 6) pool1 = Done s' ∧ nr_free s' = 7.
Proof.
  destruct (put_page_spec pool1 {[6 := 0]} 6 (Page PAGE_INUSE 1) pool1_ok) as (s' & Hrun & _ & _ & _ & Hr);
    [by vm_compute|by vm_compute|simpl; lia|].
  exists s'. split; [exact Hrun|]. destruct Hr as [_ ->]. by vm_compute.
Defined.

Lemma alloc_free_roundtrip_witness :
  ∃ a s2, free_pages a 1 (demo_alloc 1 pool1) = Done s2 ∧ nr_free s2 = nr_free pool1.
Proof.
  destruct (alloc_free_roundtrip pool1 {[6 := 0]} 1 0xC0105000 (demo_alloc 1 pool1) pool1_ok)
    as (s2 & Hrun & _ & Hn); [lia|by vm_compute|].
  exists 0xC0105000, s2. split; [exact Hrun|exact Hn].
Defined.

Lemma free_pages_spec_witness :
  ∃ s', free_pages (page_to_addr pool2 4) 1 pool2 = Done s' ∧ nr_free s' = 6.
Proof.
  destruct (free_pages_spec pool2 (<[4 := 1]> {[6 := 0]}) 4 1 pool2_ok) as (s' & Hrun & _ & Hn & _);
    [by vm_compute|lia|].
  exists s'. split; [exact Hrun|]. rewrite Hn. by vm_compute.
Defined.

Lemma get_page_spec_witness :
  ∃ s', get_page (page_to_addr pool1 6) pool1 = Done s' ∧
        page_refcount (page_to_addr pool1 6) s' = Done 2.
Proof.
  destruct (get_page_spec pool1 {[6 := 0]} 6 0 (Page PAGE_INUSE 1) pool1_ok)
    as (s' & Hrun & _ & Hrc & _); [by vm_compute|by vm_compute|].
  exists s'. split; [exact Hrun|exact Hrc].
Defined.

Lemma pmm_init_spec_witness :
  ∃ s, pmm_init 0xC0100000 0x108000 ∅ = Done s ∧ nr_free s = nr_pages s.
Proof.
  destruct (pmm_init_spec 0xC0100000 0x108000 ∅) as (s & Hs & _ & Hn & _);
    [by vm_compute|by exists 0x108|by vm_compute|].
  exists s. split; [exact Hs|exact Hn].
Defined.

Lemma bad_address_panics_witness : put_page 0xC0101234 pool0 = Panic "put_page".
Proof. apply (bad_address_panics pool0 0xC0101234 1). by vm_compute. Defined.
