(* ===== verification/PageAlloc.v ===== *)
(** [PageAlloc]: what the page allocator promises to the code above it.

    The slab allocator (kernel/mm/slab.c) is modelled and proved against this
    interface; kernel/mm/buddy.c implements it. *)
From Stdlib Require Import ZArith Lia.
From stdpp Require Import numbers strings gmap list sets.
From S2P Require Import Prelude MemLayout Buddy BuddyInv BuddySpec.
Open Scope Z_scope.

(** The operations a client calls, and the kernel memory they share. *)
Class PageAllocator (St : Type) := {
  pa_alloc : Z → St → outcome (option Z * St);
  pa_free : Z → Z → St → outcome St;
  pa_ram : St → gmap Z Z;
  pa_with_ram : gmap Z Z → St → St
}.

(** The extent of the block of order [o] at address [a]. *)
Definition pa_end (a o : Z) : Z := a + 2 ^ o * PGSIZE.

(** [pa_ok s U]: the client owns exactly the blocks of [U] (address to order)
    and holds the only reference to each. *)
Class PageAllocatorLaws (St : Type) `{PageAllocator St} := {
  pa_ok : St → gmap Z Z → Prop;
  pa_block s U a o : pa_ok s U → U !! a = Some o →
    0 ≤ o < MAX_ORDER ∧ (PGSIZE | a) ∧ 0 < a ∧ pa_end a o ≤ 2 ^ 32;
  pa_disjoint s U a1 o1 a2 o2 : pa_ok s U → U !! a1 = Some o1 → U !! a2 = Some o2 → a1 ≠ a2 →
    pa_end a1 o1 ≤ a2 ∨ pa_end a2 o2 ≤ a1;
  pa_alloc_ok s U o : pa_ok s U → 0 ≤ o →
    ∃ r s', pa_alloc o s = Done (r, s') ∧
      match r with
      | None => s' = s
      | Some a => U !! a = None ∧ pa_ok s' (<[a := o]> U)
      end;
  pa_free_ok s U a o : pa_ok s U → U !! a = Some o →
    ∃ s', pa_free a o s = Done s' ∧ pa_ok s' (delete a U);
  pa_ram_ok s U m : pa_ok s U → pa_ok (pa_with_ram m s) U;
  pa_ram_set s m : pa_ram (pa_with_ram m s) = m
}.

(** ** The buddy allocator implements it *)

#[export] Instance buddy_allocator : PageAllocator pmm := {|
  pa_alloc := alloc_pages; pa_free := free_pages; pa_ram := ram; pa_with_ram := with_ram
|}.

(** A client's share of the allocated blocks. *)
Definition buddy_ok (s : pmm) (U : gmap Z Z) : Prop :=
  ∃ V B, pmm_view s V B ∧
    ∀ a o, U !! a = Some o → ∃ i, a = page_to_addr s i ∧ V !! i = Some o ∧
      _refcount <$> mem_map s !! i = Some 1.

Lemma page_to_addr_val s i :
  geometry s → 0 ≤ i < nr_pages s →
  page_to_addr s i = KERNBASE + mem_start s + i * PGSIZE ∧
  page_to_addr s i + (nr_pages s - i) * PGSIZE ≤ 2 ^ 32.
Proof.
  intros [_ H1 H2 H3] Hi. unfold page_to_addr, P2V.
  unfold KERNBASE, PHYSMEM_TOP_MAX, PGSIZE in *. rewrite u32_small; lia.
Qed.

Lemma page_to_addr_inj s i j :
  geometry s → 0 ≤ i < nr_pages s → 0 ≤ j < nr_pages s →
  page_to_addr s i = page_to_addr s j → i = j.
Proof.
  intros Hg Hi Hj Heq. destruct (page_to_addr_val s i Hg Hi) as [H1 _].
  destruct (page_to_addr_val s j Hg Hj) as [H2 _]. unfold PGSIZE in *. lia.
Qed.

Lemma view_pages_disjoint s V B i1 o1 i2 o2 :
  pmm_view s V B → V !! i1 = Some o1 → V !! i2 = Some o2 → i1 ≠ i2 →
  i1 + 2 ^ o1 ≤ i2 ∨ i2 + 2 ^ o2 ≤ i1.
Proof.
  intros Hv H1 H2 Hne. pose proof (view_wf _ _ _ _ _ Hv H1) as Hw1.
  pose proof (view_wf _ _ _ _ _ Hv H2) as Hw2.
  apply (pv_used _ _ _ Hv) in H1, H2.
  pose proof (bo_disj _ _ _ (bi_blocks _ _ _ (pv_inv _ _ _ Hv)) i1 o1 BUsed i2 o2 BUsed) as Hd.
  destruct (decide (i1 + 2 ^ o1 ≤ i2)) as [?|Hn1]; [by left|].
  destruct (decide (i2 + 2 ^ o2 ≤ i1)) as [?|Hn2]; [by right|].
  exfalso. apply Hne. pose proof (wf_blk_head _ _ _ Hw1) as [? _].
  pose proof (wf_blk_head _ _ _ Hw2) as [? _].
  destruct (decide (i1 ≤ i2)); [apply (Hd i2 H1 H2)|apply (Hd i1 H1 H2)];
    unfold in_blk in *; lia.
Qed.

Lemma buddy_alloc_ok s U o :
  buddy_ok s U → 0 ≤ o →
  ∃ r s', alloc_pages o s = Done (r, s') ∧
    match r with
    | None => s' = s
    | Some a => U !! a = None ∧ buddy_ok s' (<[a := o]> U)
    end.
Proof.
  intros (V & B & Hv & HU) Ho.
  destruct (alloc_pages_view s V B o Hv Ho) as (r & s' & Heq & Hr).
  exists r, s'. split; [done|]. destruct r as [a|]; [|apply Hr].
  destruct Hr as (i & -> & Hwf & Hno & [B' Hv'] & _ & Hst & Hnp & Hrc & _).
  assert (∀ k, page_to_addr s' k = page_to_addr s k) as Hpa
    by (intros k; unfold page_to_addr; by rewrite Hst).
  assert (∀ k o', V !! k = Some o' → k ≠ i) as Hne.
  { intros k o' HV ->. apply (Hno i); [by eapply wf_blk_head|by eapply view_owned_head]. }
  split.
  - apply eq_None_not_Some. intros [o' HUa]. destruct (HU _ _ HUa) as (k & Hk & HV & _).
    apply (Hne k o' HV). symmetry. eapply page_to_addr_inj; [apply Hv|by eapply wf_blk_head| |done].
    by eapply wf_blk_head, view_wf.
  - exists (<[i := o]> V), B'. split; [done|]. intros a o'.
    rewrite lookup_insert_Some. intros [[<- <-]|[_ HUa]].
    + exists i. rewrite Hpa, lookup_insert_eq, Hrc, decide_True by done. done.
    + destruct (HU _ _ HUa) as (k & -> & HV & Hk). exists k.
      rewrite Hpa, lookup_insert_ne by (intros ->; by eapply Hne).
      rewrite Hrc, decide_False by (by eapply Hne). done.
Qed.

Lemma buddy_share s U V B s' V' B' i :
  pmm_view s V B → pmm_view s' V' B' → mem_start s' = mem_start s → V' = delete i V →
  (∀ a o, U !! a = Some o → ∃ i, a = page_to_addr s i ∧ V !! i = Some o ∧
     _refcount <$> mem_map s !! i = Some 1) →
  (∀ k, k ≠ i → _refcount <$> mem_map s' !! k = _refcount <$> mem_map s !! k) →
  buddy_ok s' (delete (page_to_addr s i) U).
Proof.
  intros Hv Hv' Hst -> HU Hrc. exists (delete i V), B'. split; [done|].
  intros a o [Hne HUa]%lookup_delete_Some. destruct (HU _ _ HUa) as (k & -> & HV & Hk).
  assert (i ≠ k) as Hik by congruence. exists k. split_and!.
  - unfold page_to_addr. by rewrite Hst.
  - by rewrite lookup_delete_ne.
  - by rewrite Hrc.
Qed.

Lemma buddy_free_ok s U a o :
  buddy_ok s U → U !! a = Some o →
  ∃ s', free_pages a o s = Done s' ∧ buddy_ok s' (delete a U).
Proof.
  intros (V & B & Hv & HU) HUa. destruct (HU _ _ HUa) as (i & -> & HV & Hrc).
  destruct (decide (o = 0)) as [->|Hne].
  - destruct (mem_map s !! i) as [pg|] eqn:Hpg; [|done]. injection Hrc as Hrc.
    destruct (put_page_view s V B i pg Hv HV Hpg ltac:(lia)) as (s' & Hrun & _ & Hst & Hrefs & Hok).
    rewrite Hrc in Hok. destruct Hok as [[B' Hv'] _].
    exists s'. split; [exact Hrun|]. eapply (buddy_share s U V B); [done..|].
    intros k Hk. by rewrite Hrefs, decide_False.
  - pose proof (view_wf _ _ _ _ _ Hv HV) as (Ho & _).
    destruct (free_pages_view s V B i o Hv HV ltac:(lia)) as (s' & Hrun & [B' Hv'] & _ & Hfr).
    exists s'. split; [exact Hrun|]. eapply (buddy_share s U V B); [done..|apply Hfr|done|done|].
    intros k Hk. apply Hfr.
Qed.

#[export] Instance buddy_laws : PageAllocatorLaws pmm.
Proof.
  refine {| pa_ok := buddy_ok |}.
  - intros s U a o (V & B & Hv & HU) HUa. destruct (HU _ _ HUa) as (i & -> & HV & _).
    pose proof (view_wf _ _ _ _ _ Hv HV) as Hwf. pose proof (pv_geom _ _ _ Hv) as Hg.
    destruct (page_to_addr_val s i Hg) as [Hval Hend]; [by eapply wf_blk_head|].
    destruct Hwf as (Ho & Hi & Hn & _), Hg as [G1 G2 G3 G4].
    split_and!; [lia..| | |].
    + rewrite Hval. repeat apply Z.divide_add_r; [by exists 0xC0000|done|by exists i].
    + rewrite Hval. unfold KERNBASE, PGSIZE. lia.
    + unfold pa_end, PGSIZE in *. lia.
  - intros s U a1 o1 a2 o2 (V & B & Hv & HU) HU1 HU2 Hne.
    destruct (HU _ _ HU1) as (i1 & -> & HV1 & _), (HU _ _ HU2) as (i2 & -> & HV2 & _).
    destruct (page_to_addr_val s i1 (pv_geom _ _ _ Hv)) as [-> _];
      [by eapply wf_blk_head, view_wf|].
    destruct (page_to_addr_val s i2 (pv_geom _ _ _ Hv)) as [-> _];
      [by eapply wf_blk_head, view_wf|].
    destruct (view_pages_disjoint s V B i1 o1 i2 o2 Hv HV1 HV2) as [?|?]; [congruence|..];
      unfold pa_end, PGSIZE; lia.
  - apply buddy_alloc_ok.
  - apply buddy_free_ok.
  - intros s U m (V & B & [[] ? ? ? []] & HU). exists V, B. by repeat (split; [done..|]).
  - done.
Defined.
