(* ===== verification/Slab.v ===== *)
(** [Slab]: the kernel heap of kernel/mm/slab.c, over any page allocator.

    The in-band header of the block at address [h] is split as the code uses
    it: its list node is [blk_node h] in [nodes], its [size] and [magic] words
    are [hdrs !! h].  [hdrs !! h = None] stands for bytes that were never
    written as a header; reading them is [Wild].  Every function runs under
    [kmem_lock], so it is one atomic state transformer. *)
From Stdlib Require Import ZArith Lia.
From stdpp Require Import numbers strings gmap list sets.
From S2P Require Import Prelude ListHead MemLayout PageAlloc.
Open Scope Z_scope.

Definition KMAGIC : Z := 0x4b4d454d.
Definition KFLAG_PAGE : Z := 0x80000000.

(** [sizeof(struct khdr)]: two pointers and two words. *)
Definition sizeof_khdr : Z := 16.

Record khdr := Khdr { size : Z; magic : Z }.

(** [cache[i].bsize] *)
Definition cache_bsize : list Z := [32; 64; 128; 256; 512; 1024; 2048].
Definition NCACHE : Z := 7.

Definition bsize_of (idx : Z) : outcome Z := deref (cache_bsize !! Z.to_nat idx).

Definition blk_node (h : Z) : Z + Z := inl h.
Definition cache_node (idx : Z) : Z + Z := inr idx.

Record kmem (St : Type) := Kmem {
  pages : St;
  nodes : gmap (Z + Z) (list_head (Z + Z));
  hdrs : gmap Z khdr;
  nr_kfree : Z
}.
Arguments Kmem {St}.
Arguments pages {St}.
Arguments nodes {St}.
Arguments hdrs {St}.
Arguments nr_kfree {St}.

(** The first class that is big enough; [None] is [-1]. *)
Fixpoint cache_index_from (l : list Z) (i need : Z) : option Z :=
  match l with
  | [] => None
  | b :: l => if need <=? b then Some i else cache_index_from l (i + 1) need
  end.

Definition cache_index (need : Z) : option Z := cache_index_from cache_bsize 0 need.

(** [alloc_pages] zeroes what it returns: no header survives there. *)
Definition zap (a n : Z) (m : gmap Z khdr) : gmap Z khdr :=
  filter (λ p, ¬ (a ≤ p.1 < a + n)) m.

(** [while ((PGSIZE << order) < bytes) ...] *)
Fixpoint order_loop (fuel : nat) (bytes o : Z) : outcome Z :=
  match fuel with
  | O => NoFuel
  | S fuel =>
      if Z.shiftl PGSIZE o <? bytes then
        let o := o + 1 in
        if MAX_ORDER <=? o then Panic "kmalloc: size too large" else order_loop fuel bytes o
      else mret o
  end.

Section Ops.
Context {St : Type} `{PageAllocator St}.

Definition alloc_zeroed (o : Z) (k : kmem St) : outcome (option Z * kmem St) :=
  '(r, st) ← pa_alloc o (pages k);
  mret (r, Kmem st (nodes k)
             (match r with None => hdrs k | Some a => zap a (Z.shiftl PGSIZE o) (hdrs k) end)
             (nr_kfree k)).

(** The loop of [cache_refill]: blocks [i], [i + 1], ... of the page. *)
Fixpoint refill_loop (n : nat) (page bsize idx i : Z) (k : kmem St) : outcome (kmem St) :=
  match n with
  | O => mret k
  | S n =>
      let h := page + i * bsize in
      ls ← list_add (blk_node h) (cache_node idx) (INIT_LIST_HEAD (blk_node h) (nodes k));
      refill_loop n page bsize idx (i + 1)
        (Kmem (pages k) ls (<[h := Khdr 0 0]> (hdrs k)) (u32 (nr_kfree k + 1)))
  end.

Definition cache_refill (idx : Z) (k : kmem St) : outcome (kmem St) :=
  bsize ← bsize_of idx;
  '(r, k) ← alloc_zeroed 0 k;
  match r with
  | None => Panic "kmem: out of memory"
  | Some page => refill_loop (Z.to_nat (PGSIZE / bsize)) page bsize idx 0 k
  end.

Definition kmem_init (st : St) : kmem St :=
  Kmem st (foldl (λ ls i, INIT_LIST_HEAD (cache_node i) ls) ∅ (seqZ 0 NCACHE)) ∅ 0.

Definition kmalloc (sz : Z) (k : kmem St) : outcome (option Z * kmem St) :=
  if sz =? 0 then mret (None, k)
  else
    let need := u32 (sz + sizeof_khdr) in
    if 2048 <? need then
      let bytes := PGROUNDUP need in
      o ← order_loop (Z.to_nat MAX_ORDER) bytes 0;
      '(r, k) ← alloc_zeroed o k;
      match r with
      | None => mret (None, k)
      | Some h =>
          mret (Some (h + sizeof_khdr),
                Kmem (pages k) (nodes k) (<[h := Khdr (Z.lor KFLAG_PAGE o) KMAGIC]> (hdrs k))
                     (nr_kfree k))
      end
    else
      match cache_index need with
      | None => Panic "kmalloc: bad size"
      | Some idx =>
          e ← list_empty (cache_node idx) (nodes k);
          k ← (if e : bool then cache_refill idx k else mret k);
          nd ← list_first_entry (cache_node idx) (nodes k);
          match nd with
          | inr _ => Wild
          | inl h =>
              ls ← list_del (blk_node h) (nodes k);
              bsize ← bsize_of idx;
              mret (Some (h + sizeof_khdr),
                    Kmem (pages k) ls (<[h := Khdr bsize KMAGIC]> (hdrs k)) (u32 (nr_kfree k - 1)))
          end
      end.

(** [(uint)-1 / n] guards the product. *)
Definition kcalloc (n sz : Z) (k : kmem St) : outcome (option Z * kmem St) :=
  if negb (n =? 0) && (u32 (-1) / n <? sz) then mret (None, k)
  else
    let total := u32 (n * sz) in
    '(p, k) ← kmalloc total k;
    match p with
    | None => mret (None, k)
    | Some p =>
        mret (Some p, Kmem (pa_with_ram (memset (pa_ram (pages k)) p 0 (Z.to_nat total)) (pages k))
                           (nodes k) (hdrs k) (nr_kfree k))
    end.

(** The null pointer is [None]. *)
Definition kfree (ptr : option Z) (k : kmem St) : outcome (kmem St) :=
  match ptr with
  | None => mret k
  | Some p =>
      let h := p - sizeof_khdr in
      hd ← deref (hdrs k !! h);
      if negb (magic hd =? KMAGIC) then Panic "kfree: bad magic"
      else
        let k := Kmem (pages k) (nodes k) (<[h := Khdr (size hd) 0]> (hdrs k)) (nr_kfree k) in
        if negb (Z.land (size hd) KFLAG_PAGE =? 0) then
          st ← pa_free h (Z.land (size hd) (u32 (Z.lnot KFLAG_PAGE))) (pages k);
          mret (Kmem st (nodes k) (hdrs k) (nr_kfree k))
        else
          match cache_index (size hd) with
          | None => Panic "kfree: bad size"
          | Some idx =>
              ls ← list_add (blk_node h) (cache_node idx) (nodes k);
              mret (Kmem (pages k) ls (hdrs k) (u32 (nr_kfree k + 1)))
          end
  end.

Definition kmem_nr_free (k : kmem St) : Z := nr_kfree k.

End Ops.
