(* ===== verification/SlabSpec.v ===== *)
(** [SlabSpec]: correctness of kernel/mm/slab.c over the page-allocator
    interface of [PageAlloc].

    The ghost state names the pages cut into blocks ([slab]: page to class and
    number of blocks carved), the blocks in use ([live]: block to class) and the
    page-sized allocations in use ([big]: address to order). *)
From Stdlib Require Import ZArith Lia.
From stdpp Require Import numbers strings gmap list sets.
From S2P Require Import Prelude ListHead MemLayout Buddy BuddySpec PageAlloc Slab.
Open Scope Z_scope.

Definition bsz (idx : Z) : Z := default 0 (cache_bsize !! Z.to_nat idx).

Record kghost := KGhost {
  slab : gmap Z (Z * Z);
  live : gmap Z Z;
  big : gmap Z Z
}.

Definition is_block (G : kghost) (idx h : Z) : Prop :=
  ∃ a m i, slab G !! a = Some (idx, m) ∧ 0 ≤ i < m ∧ h = a + i * bsz idx.

Definition is_free (G : kghost) (idx h : Z) : Prop :=
  is_block G idx h ∧ live G !! h = None.

Definition owned_pages (G : kghost) (U : gmap Z Z) : Prop :=
  ∀ a o, U !! a = Some o ↔ (o = 0 ∧ is_Some (slab G !! a)) ∨ big G !! a = Some o.

Record lists_ok (ls : gmap (Z + Z) (list_head (Z + Z))) (G : kghost)
    (L : gmap (Z + Z) (list (Z + Z))) : Prop := {
  lo_repr : repr ls L;
  lo_cache idx : 0 ≤ idx < NCACHE → ∃ l : list Z,
    L !! cache_node idx = Some (blk_node <$> l) ∧ ∀ h, h ∈ l ↔ is_free G idx h;
  lo_live h idx : live G !! h = Some idx → L !! blk_node h = Some [];
  lo_dom x xs : L !! x = Some xs →
    match x with inl h => is_Some (live G !! h) | inr idx => 0 ≤ idx < NCACHE end
}.

Record slab_ok (G : kghost) : Prop := {
  so_class a idx m : slab G !! a = Some (idx, m) →
    0 ≤ idx < NCACHE ∧ 0 ≤ m ≤ PGSIZE / bsz idx ∧ big G !! a = None;
  so_live h idx : live G !! h = Some idx → is_block G idx h;
  so_big a o : big G !! a = Some o → 0 ≤ o < MAX_ORDER
}.

Record heads_ok (hd : gmap Z khdr) (G : kghost) : Prop := {
  ho_live h idx : live G !! h = Some idx → hd !! h = Some (Khdr (bsz idx) KMAGIC);
  ho_big a o : big G !! a = Some o → hd !! a = Some (Khdr (Z.lor KFLAG_PAGE o) KMAGIC);
  ho_free h idx : is_free G idx h → magic <$> hd !! h = Some 0
}.

Definition nfree_ok (n : Z) (G : kghost) : Prop :=
  ∃ F : gset Z, (∀ h, h ∈ F ↔ ∃ idx, is_free G idx h) ∧ n = u32 (Z.of_nat (base.size F)).

(** ** Size classes *)

Lemma bsz_facts idx :
  0 ≤ idx < NCACHE →
  bsize_of idx = Done (bsz idx) ∧ 32 ≤ bsz idx ≤ 2048 ∧ PGSIZE / bsz idx * bsz idx = PGSIZE ∧
  cache_index (bsz idx) = Some idx ∧ Z.land (bsz idx) KFLAG_PAGE = 0.
Proof.
  unfold NCACHE. intros Hi.
  assert (idx = 0 ∨ idx = 1 ∨ idx = 2 ∨ idx = 3 ∨ idx = 4 ∨ idx = 5 ∨ idx = 6) as Hc by lia.
  destruct Hc as [->|[->|[->|[->|[->|[-> | ->]]]]]]; by vm_compute.
Qed.

(** [cache_index] finds the smallest class that fits, and fails only above
    the largest. *)
Lemma cache_index_spec need :
  match cache_index need with
  | Some idx => 0 ≤ idx < NCACHE ∧ need ≤ bsz idx ∧ (∀ j, 0 ≤ j < idx → bsz j < need)
  | None => 2048 < need
  end.
Proof.
  unfold cache_index, NCACHE. simpl.
  assert (∀ j, 0 ≤ j < 6 → j = 0 ∨ j = 1 ∨ j = 2 ∨ j = 3 ∨ j = 4 ∨ j = 5) as Hc by lia.
  repeat match goal with |- context [need <=? ?b] =>
    destruct (Z.leb_spec need b) as [Hle|?];
    [split_and!; [lia|lia|exact Hle|]; intros j Hj;
     destruct (Hc j ltac:(lia)) as [->|[->|[->|[->|[-> | ->]]]]]; vm_compute bsz; lia|]
  end.
  done.
Qed.

Lemma bsz_pos idx : 0 ≤ idx < NCACHE → 0 < bsz idx.
Proof. intros Hi. destruct (bsz_facts idx Hi) as (_ & ? & _). lia. Qed.

(** ** Where blocks lie *)

(** The pages of [G] with their orders. *)
Definition ext (G : kghost) (a o : Z) : Prop :=
  (o = 0 ∧ is_Some (slab G !! a)) ∨ big G !! a = Some o.

Definition pages_sep (G : kghost) : Prop :=
  ∀ a1 o1 a2 o2 x, ext G a1 o1 → ext G a2 o2 →
    a1 ≤ x < pa_end a1 o1 → a2 ≤ x < pa_end a2 o2 → a1 = a2.

Lemma pa_end_0 a : pa_end a 0 = a + PGSIZE.
Proof. unfold pa_end. lia. Qed.

Section Blocks.
Context {G : kghost}.
Hypothesis (HS : slab_ok G) (HP : pages_sep G).

Lemma block_in_page a idx m i :
  slab G !! a = Some (idx, m) → 0 ≤ i < m →
  a ≤ a + i * bsz idx ∧ a + i * bsz idx + bsz idx ≤ a + PGSIZE.
Proof.
  intros Ha Hi. destruct (so_class _ HS _ _ _ Ha) as (Hidx & Hm & _).
  destruct (bsz_facts idx Hidx) as (_ & Hb & Hd & _). nia.
Qed.

Lemma block_ext a idx m i x :
  slab G !! a = Some (idx, m) → 0 ≤ i < m →
  a + i * bsz idx ≤ x < a + i * bsz idx + bsz idx → ext G a 0 ∧ a ≤ x < pa_end a 0.
Proof.
  intros Ha Hi Hx. pose proof (block_in_page a idx m i Ha Hi). rewrite pa_end_0.
  split; [|lia]. left. split; [done|]. rewrite Ha. eauto.
Qed.

(** Two blocks that share a byte are the same block of the same class. *)
Lemma block_disjoint idx1 h1 idx2 h2 x :
  is_block G idx1 h1 → is_block G idx2 h2 →
  h1 ≤ x < h1 + bsz idx1 → h2 ≤ x < h2 + bsz idx2 → idx1 = idx2 ∧ h1 = h2.
Proof.
  intros (a1 & m1 & i1 & Ha1 & Hi1 & ->) (a2 & m2 & i2 & Ha2 & Hi2 & ->) Hx1 Hx2.
  destruct (block_ext _ _ _ _ x Ha1 Hi1 Hx1) as [He1 Hin1].
  destruct (block_ext _ _ _ _ x Ha2 Hi2 Hx2) as [He2 Hin2].
  pose proof (HP _ _ _ _ x He1 He2 Hin1 Hin2) as <-. simplify_eq.
  split; [done|]. f_equal. assert (i1 = i2); [nia|congruence].
Qed.

Lemma block_head idx h : is_block G idx h → h ≤ h < h + bsz idx ∧ 0 ≤ idx < NCACHE.
Proof.
  intros (a & m & i & Ha & Hi & ->). destruct (so_class _ HS _ _ _ Ha) as (Hidx & _).
  pose proof (bsz_pos idx Hidx). lia.
Qed.

Lemma block_class idx1 idx2 h : is_block G idx1 h → is_block G idx2 h → idx1 = idx2.
Proof.
  intros H1 H2. eapply (block_disjoint idx1 h idx2 h h); eauto; by apply block_head.
Qed.

Lemma block_not_big idx h a o x :
  is_block G idx h → big G !! a = Some o → h ≤ x < h + bsz idx → a ≤ x < pa_end a o → False.
Proof.
  intros (a1 & m & i & Ha & Hi & ->) Hb Hx Hx'.
  destruct (block_ext _ _ _ _ x Ha Hi Hx) as [He Hin].
  pose proof (HP _ _ _ _ x He (or_intror Hb) Hin Hx') as <-.
  destruct (so_class _ HS _ _ _ Ha) as (_ & _ & Hnb). congruence.
Qed.

End Blocks.

(** ** Ghost steps *)

Definition g_page (a idx m : Z) (G : kghost) : kghost :=
  KGhost (<[a := (idx, m)]> (slab G)) (live G) (big G).
Definition g_take (h idx : Z) (G : kghost) : kghost :=
  KGhost (slab G) (<[h := idx]> (live G)) (big G).
Definition g_give (h : Z) (G : kghost) : kghost :=
  KGhost (slab G) (delete h (live G)) (big G).
Definition g_big (a o : Z) (G : kghost) : kghost :=
  KGhost (slab G) (live G) (<[a := o]> (big G)).
Definition g_unbig (a : Z) (G : kghost) : kghost :=
  KGhost (slab G) (live G) (delete a (big G)).

(** Carving block number [m] of page [a] adds exactly that block. *)
Lemma is_block_carve G a idx m idx' h :
  slab G !! a = Some (idx, m) → 0 ≤ m →
  is_block (g_page a idx (m + 1) G) idx' h ↔
  is_block G idx' h ∨ (idx' = idx ∧ h = a + m * bsz idx).
Proof.
  intros Ha Hm. unfold is_block. simpl. split.
  - intros (a' & m' & i & [[<- [= <- <-]]|[Hne Hs]]%lookup_insert_Some & Hi & ->).
    + destruct (decide (i = m)) as [->|]; [by right|]. left. exists a, m, i. split_and!; [done|lia..].
    + left. by exists a', m', i.
  - intros [(a' & m' & i & Hs & Hi & ->)|[-> ->]].
    + destruct (decide (a = a')) as [<-|Hne].
      * simplify_eq. exists a, (m + 1), i. rewrite lookup_insert_eq. split_and!; [done|lia..].
      * exists a', m', i. by rewrite lookup_insert_ne.
    + exists a, (m + 1), m. rewrite lookup_insert_eq. split_and!; [done|lia..].
Qed.

(** A page without blocks adds none. *)
Lemma is_block_page0 G a idx idx' h :
  slab G !! a = None → is_block (g_page a idx 0 G) idx' h ↔ is_block G idx' h.
Proof.
  intros Ha. unfold is_block. simpl. split.
  - intros (a' & m' & i & [[<- [= <- <-]]|[Hne Hs]]%lookup_insert_Some & Hi & ->); [lia|].
    by exists a', m', i.
  - intros (a' & m' & i & Hs & Hi & ->). exists a', m', i.
    rewrite lookup_insert_ne by congruence. done.
Qed.

(** ** The free lists *)

#[export] Instance blk_node_inj : Inj (=) (=) blk_node.
Proof. by intros ?? [=]. Qed.

Section Lists.
Context {ls : gmap (Z + Z) (list_head (Z + Z))} {G : kghost} {L : gmap (Z + Z) (list (Z + Z))}.
Hypothesis (HS : slab_ok G) (HP : pages_sep G) (HL : lists_ok ls G L).

(** An address that is no block is on no list. *)
Lemma unlisted_fresh h : (∀ idx, ¬ is_block G idx h) → unlisted L (blk_node h).
Proof.
  intros Hnb hd xs Hhd Hin. pose proof (lo_dom _ _ _ HL _ _ Hhd) as Hdom.
  destruct hd as [h'|idx].
  - destruct Hdom as [idx Hlive]. pose proof (lo_live _ _ _ HL _ _ Hlive) as Hemp.
    change (inl h') with (blk_node h') in Hhd. rewrite Hhd in Hemp. injection Hemp as ->.
    apply list_elem_of_singleton in Hin as [= ->]. by eapply Hnb, (so_live _ HS).
  - destruct (lo_cache _ _ _ HL idx Hdom) as (l & HLi & Hl).
    change (inr idx) with (cache_node idx) in Hhd. rewrite HLi in Hhd. injection Hhd as <-.
    apply elem_of_cons in Hin as [[=]|Hin].
    apply list_elem_of_fmap in Hin as (h' & [= <-] & Hin). apply Hl in Hin as [Hb _]. by eapply Hnb.
Qed.

(** [list_add] of a detached, non-free block. *)
Lemma lists_push ls' L' G' h idx :
  repr ls' L' → L' !! blk_node h = Some [] →
  (∀ x, x ≠ blk_node h → L' !! x = L !! x) →
  0 ≤ idx < NCACHE →
  (∀ idx' h', is_free G' idx' h' ↔ is_free G idx' h' ∨ (idx' = idx ∧ h' = h)) →
  live G' = delete h (live G) →
  ∃ ls'' L'', list_add (blk_node h) (cache_node idx) ls' = Done ls'' ∧ lists_ok ls'' G' L''.
Proof.
  intros HR Hdet Hsame Hidx Hfree Hlive.
  destruct (lo_cache _ _ _ HL idx Hidx) as (l & HLi & Hl).
  destruct (list_add_spec ls' L' (cache_node idx) (blk_node <$> l) (blk_node h) HR)
    as (ls'' & Hadd & HR''); [by rewrite Hsame|done|done|].
  exists ls'', (<[cache_node idx := blk_node h :: (blk_node <$> l)]> (delete (blk_node h) L')).
  split; [done|]. split; [done|..].
  - intros idx' Hidx'. destruct (decide (idx = idx')) as [<-|Hne].
    + exists (h :: l). rewrite lookup_insert_eq. split; [done|]. intros h'.
      rewrite elem_of_cons, Hl, Hfree. naive_solver.
    + destruct (lo_cache _ _ _ HL idx' Hidx') as (l' & HLi' & Hl'). exists l'.
      rewrite lookup_insert_ne, lookup_delete_ne, Hsame by first [done | intros [=]; congruence].
      split; [done|]. intros h'. rewrite Hl', Hfree. naive_solver.
  - intros h' idx'. rewrite Hlive. intros [Hne Hlv]%lookup_delete_Some.
    rewrite lookup_insert_ne, lookup_delete_ne, Hsame by first [done | intros [=]; congruence].
    by eapply (lo_live _ _ _ HL).
  - intros x xs. rewrite lookup_insert. case_decide as Hx; [by subst x|].
    intros [Hne Hx']%lookup_delete_Some. rewrite Hsame in Hx' by congruence.
    apply (lo_dom _ _ _ HL) in Hx'. destruct x as [h'|]; [|done].
    rewrite Hlive, lookup_delete_ne; [done|]. intros ->. by apply Hne.
Qed.

(** [list_del] of a free block. *)
Lemma lists_pop h idx :
  is_free G idx h →
  ∃ ls' L', list_del (blk_node h) ls = Done ls' ∧ lists_ok ls' (g_take h idx G) L'.
Proof.
  intros Hf. destruct (block_head HS idx h (proj1 Hf)) as [_ Hidx].
  destruct (lo_cache _ _ _ HL idx Hidx) as (l & HLi & Hl).
  apply Hl in Hf as Hin. apply list_elem_of_split in Hin as (l1 & l2 & ->).
  pose proof (repr_nodup _ _ (lo_repr _ _ _ HL) _ _ HLi) as Hnd.
  apply NoDup_cons in Hnd as [_ Hnd%(NoDup_fmap_1 blk_node)].
  apply NoDup_app in Hnd as (_ & Hnd1 & [Hnd2 _]%NoDup_cons).
  rewrite fmap_app, fmap_cons in HLi.
  destruct (list_del_spec ls L _ _ _ _ (lo_repr _ _ _ HL) HLi) as (ls' & Hdel & HR').
  assert (∀ idx' h', is_free (g_take h idx G) idx' h' ↔ is_free G idx' h' ∧ h' ≠ h) as Hfr.
  { intros idx' h'. unfold is_free, is_block, g_take. simpl. rewrite lookup_insert_None. naive_solver. }
  eexists ls', _. split; [done|]. split; [exact HR'|..].
  - intros idx' Hidx'. rewrite lookup_insert_ne by done.
    destruct (decide (idx = idx')) as [<-|Hne].
    + exists (l1 ++ l2). rewrite lookup_insert_eq, fmap_app. split; [done|]. intros h'.
      rewrite Hfr, <- Hl, !elem_of_app, elem_of_cons. set_solver.
    + destruct (lo_cache _ _ _ HL idx' Hidx') as (l' & HLi' & Hl'). exists l'.
      rewrite lookup_insert_ne by (intros [=]; congruence). split; [done|].
      intros h'. rewrite Hfr, Hl'. split; [|naive_solver]. intros Hf'. split; [done|].
      intros ->. apply Hne. eapply (block_class HS HP); [apply Hf|apply Hf'].
  - intros h' idx'. simpl. rewrite lookup_insert_Some. intros [[<- <-]|[Hne Hlv]].
    + by rewrite lookup_insert_eq.
    + rewrite !lookup_insert_ne by first [done | intros [=]; congruence].
      by eapply (lo_live _ _ _ HL).
  - intros x xs. rewrite !lookup_insert. repeat case_decide; subst; simpl.
    + intros _. rewrite lookup_insert_eq. eauto.
    + done.
    + intros Hx. apply (lo_dom _ _ _ HL) in Hx. destruct x as [h'|]; [|done].
      rewrite lookup_insert. case_decide; eauto.
Qed.

End Lists.

Lemma lists_same ls G G' L :
  (∀ idx h, is_free G' idx h ↔ is_free G idx h) → live G' = live G →
  lists_ok ls G L → lists_ok ls G' L.
Proof.
  intros Hf Hlv [H1 H2 H3 H4]. split; rewrite ?Hlv; try done.
  intros idx Hidx. destruct (H2 idx Hidx) as (l & ? & Hl). exists l. split; [done|].
  intros h. by rewrite Hl, Hf.
Qed.

Lemma nfree_same n G G' :
  (∀ idx h, is_free G' idx h ↔ is_free G idx h) → nfree_ok n G → nfree_ok n G'.
Proof.
  intros Hf (F & HF & Hn). exists F. split; [|done]. intros h. rewrite HF. by setoid_rewrite Hf.
Qed.

Lemma nfree_add n G G' h :
  nfree_ok n G → (∀ idx, ¬ is_free G idx h) →
  (∀ h', (∃ idx, is_free G' idx h') ↔ (∃ idx, is_free G idx h') ∨ h' = h) →
  nfree_ok (u32 (n + 1)) G'.
Proof.
  intros (F & HF & ->) Hnew Hf. exists (F ∪ {[h]}). split.
  - intros h'. rewrite elem_of_union, elem_of_singleton, HF, Hf. done.
  - rewrite size_union, size_singleton.
    + unfold u32. rewrite Zplus_mod_idemp_l. f_equal. lia.
    + intros x Hx ->%elem_of_singleton. apply HF in Hx as [idx Hx]. by eapply Hnew.
Qed.

Lemma nfree_del n G G' h idx :
  nfree_ok n G → is_free G idx h →
  (∀ h', (∃ idx, is_free G' idx h') ↔ (∃ idx, is_free G idx h') ∧ h' ≠ h) →
  nfree_ok (u32 (n - 1)) G'.
Proof.
  intros (F & HF & ->) Hin Hf. exists (F ∖ {[h]}). split.
  - intros h'. rewrite elem_of_difference, elem_of_singleton, HF, Hf. done.
  - assert ({[h]} ⊆ F) as Hsub by (intros x ->%elem_of_singleton; apply HF; eauto).
    rewrite size_difference, size_singleton by done.
    apply subseteq_size in Hsub. rewrite size_singleton in Hsub.
    unfold u32. rewrite Zminus_mod_idemp_l. f_equal. lia.
Qed.

Lemma zap_lookup a n m h : ¬ (a ≤ h < a + n) → zap a n m !! h = m !! h.
Proof.
  intros Hh. unfold zap. destruct (m !! h) as [x|] eqn:Hx.
  - by apply map_lookup_filter_Some.
  - apply map_lookup_filter_None. by left.
Qed.

(** Zeroing a page that overlaps no page of [G] keeps every header. *)
Lemma heads_fresh hd G a o :
  0 ≤ o → slab_ok G → heads_ok hd G →
  (∀ a' o' x, ext G a' o' → 0 ≤ o' → a ≤ x < pa_end a o → a' ≤ x < pa_end a' o' → False) →
  (∀ a' o', big G !! a' = Some o' → 0 ≤ o') →
  heads_ok (zap a (Z.shiftl PGSIZE o) hd) G.
Proof.
  intros Ho HS [H1 H2 H3] Hd Hbo. rewrite Z.shiftl_mul_pow2 by done.
  assert (∀ idx h, is_block G idx h → ¬ (a ≤ h < a + PGSIZE * 2 ^ o)) as Hblk.
  { intros idx h Hb Hin. destruct (block_head HS idx h Hb) as [Hh _].
    destruct Hb as (a' & m & i & Ha & Hi & ->).
    destruct (block_ext HS a' idx m i _ Ha Hi Hh) as [He Hx].
    eapply (Hd a' 0); [exact He|lia| |exact Hx]. unfold pa_end. lia. }
  split.
  - intros h idx Hl. rewrite zap_lookup; [by apply H1|]. by eapply Hblk, (so_live _ HS).
  - intros a' o' Hb. rewrite zap_lookup; [by apply H2|]. intros Hin.
    pose proof (Hbo _ _ Hb). pose proof (Z.pow_pos_nonneg 2 o' ltac:(lia) ltac:(lia)).
    eapply (Hd a' o' a'); [by right|done|..]; unfold pa_end, PGSIZE in *; lia.
  - intros h idx Hf. rewrite zap_lookup; [by eapply H3|]. eapply Hblk, Hf.
Qed.

Section Steps.
Context {St : Type} `{Laws : PageAllocatorLaws St}.

Record kmem_ok (k : kmem St) (G : kghost) : Prop := {
  ko_slab : slab_ok G;
  ko_pages : ∃ U, pa_ok (pages k) U ∧ owned_pages G U;
  ko_lists : ∃ L, lists_ok (nodes k) G L;
  ko_heads : heads_ok (hdrs k) G;
  ko_nfree : nfree_ok (nr_kfree k) G
}.

Lemma owned_sep st G U : pa_ok st U → owned_pages G U → pages_sep G.
Proof.
  intros Hok HU a1 o1 a2 o2 x H1%HU H2%HU Hx1 Hx2.
  destruct (decide (a1 = a2)) as [|Hne]; [done|].
  destruct (pa_disjoint _ _ _ _ _ _ Hok H1 H2 Hne); lia.
Qed.

Lemma ko_sep k G : kmem_ok k G → pages_sep G.
Proof. intros Hk. destruct (ko_pages _ _ Hk) as (U & Hok & HU). by eapply owned_sep. Qed.

(** What a fresh block of pages brings. *)
Lemma alloc_zeroed_ok k G o :
  kmem_ok k G → 0 ≤ o →
  ∃ r k', alloc_zeroed o k = Done (r, k') ∧
    match r with
    | None => k' = k
    | Some a => nodes k' = nodes k ∧ nr_kfree k' = nr_kfree k ∧ heads_ok (hdrs k') G ∧
        slab G !! a = None ∧ big G !! a = None ∧
        (∀ idx h, is_block G idx h → h ≠ a) ∧
        ∃ U, owned_pages G U ∧ pa_ok (pages k') (<[a := o]> U)
    end.
Proof.
  intros Hk Ho. destruct (ko_pages _ _ Hk) as (U & Hok & HU).
  destruct (pa_alloc_ok _ _ o Hok Ho) as (r & st' & Heq & Hr).
  unfold alloc_zeroed. rewrite Heq. simpl. eexists r, _. split; [done|].
  destruct r as [a|]; [|subst; by destruct k]. destruct Hr as [Hnew Hok'].
  assert (∀ a' o', ext G a' o' → a' ≠ a ∧ 0 ≤ o' ∧ (pa_end a' o' ≤ a ∨ pa_end a o ≤ a')) as Hsep.
  { intros a' o' He%HU. assert (a' ≠ a) as Hne by congruence.
    split; [done|]. split; [by apply (pa_block _ _ _ _ Hok He)|].
    eapply (pa_disjoint _ _ a' o' a o Hok'); [by rewrite lookup_insert_ne|by rewrite lookup_insert_eq|done]. }
  assert (pa_end a o > a) as Hpos.
  { unfold pa_end, PGSIZE. pose proof (Z.pow_pos_nonneg 2 o ltac:(lia) Ho). lia. }
  simpl. split_and!; try done.
  - apply heads_fresh; [done|apply Hk|apply Hk|..].
    + intros a' o' x He _ Hx Hx'. destruct (Hsep a' o' He) as (_ & _ & ?). lia.
    + intros a' o' Hb. by apply (Hsep a' o'); right.
  - destruct (slab G !! a) as [p|] eqn:Ha; [|done].
    destruct (Hsep a 0) as [? _]; [left; split; [done|by rewrite Ha]|done].
  - destruct (big G !! a) as [o'|] eqn:Ha; [|done]. destruct (Hsep a o') as [? _]; [by right|done].
  - intros idx h Hb ->. pose proof (ko_slab _ _ Hk) as HS. destruct (block_head HS idx a Hb) as [Hh _].
    destruct Hb as (a' & m & i & Ha & Hi & Heqa). rewrite Heqa in Hh.
    destruct (block_ext HS a' idx m i _ Ha Hi Hh) as [He Hx]. rewrite <- Heqa in Hx.
    destruct (Hsep a' 0 He) as (_ & _ & ?). lia.
  - by exists U.
Qed.

Lemma large_page_ok k G a idx k' U :
  kmem_ok k G → nodes k' = nodes k → nr_kfree k' = nr_kfree k → heads_ok (hdrs k') G →
  slab G !! a = None → big G !! a = None → 0 ≤ idx < NCACHE →
  owned_pages G U → pa_ok (pages k') (<[a := 0]> U) →
  kmem_ok k' (g_page a idx 0 G).
Proof.
  intros Hk Hnd Hnr Hhd Ha Hba Hidx HU Hok.
  assert (∀ idx' h, is_free (g_page a idx 0 G) idx' h ↔ is_free G idx' h) as Hf.
  { intros idx' h. unfold is_free. by rewrite is_block_page0. }
  destruct (bsz_facts idx Hidx) as (_ & Hb & _).
  pose proof (ko_slab _ _ Hk) as [S1 S2 S3]. split.
  - split; simpl; [..|done].
    + intros a' idx' m' [[<- [= <- <-]]|[_ Hs]]%lookup_insert_Some; [|by eapply S1].
      split_and!; try done; try lia. by apply Z.div_pos; [|lia].
    + intros h idx' Hl. apply is_block_page0; [done|]. by apply S2.
  - exists (<[a := 0]> U). split; [done|]. intros a' o'. simpl. rewrite !lookup_insert.
    case_decide as Haa; subst.
    + rewrite Hba. naive_solver.
    + apply HU.
  - destruct (ko_lists _ _ Hk) as [L HL]. exists L. rewrite Hnd. by eapply lists_same.
  - destruct Hhd as [H1 H2 H3]. split; simpl; try done. intros h idx' Hfr%Hf. by eapply H3.
  - rewrite Hnr. eapply nfree_same, Hk. done.
Qed.

(** The next block of a page is not a block yet. *)
Lemma carve_new G a idx m idx' :
  slab_ok G → pages_sep G → slab G !! a = Some (idx, m) → m < PGSIZE / bsz idx →
  ¬ is_block G idx' (a + m * bsz idx) ∧ big G !! (a + m * bsz idx) = None.
Proof.
  intros HS HP Ha Hm. destruct (so_class _ HS _ _ _ Ha) as (Hidx & Hm0 & Hba).
  destruct (bsz_facts idx Hidx) as (_ & Hb & Hd & _).
  assert (ext G a 0 ∧ a ≤ a + m * bsz idx < pa_end a 0) as [He Hin].
  { split; [left; split; [done|by rewrite Ha]|]. rewrite pa_end_0. nia. }
  split.
  - intros Hbl. destruct (block_head HS _ _ Hbl) as [Hh _].
    destruct Hbl as (a' & m' & i & Ha' & Hi & Heq). rewrite Heq in Hh.
    destruct (block_ext HS a' idx' m' i _ Ha' Hi Hh) as [He' Hx]. rewrite <- Heq in Hx.
    pose proof (HP _ _ _ _ _ He He' Hin Hx) as <-. simplify_eq. nia.
  - destruct (big G !! (a + m * bsz idx)) as [o|] eqn:Hbig; [|done]. exfalso.
    destruct (so_big _ HS _ _ Hbig) as [Ho _].
    assert (a = a + m * bsz idx) as Heq.
    { apply (HP a 0 (a + m * bsz idx) o (a + m * bsz idx)); [done|by right|done|].
      unfold pa_end, PGSIZE. pose proof (Z.pow_pos_nonneg 2 o ltac:(lia) Ho). lia. }
    rewrite <- Heq in Hbig. congruence.
Qed.

Lemma carve_ok k G a idx m :
  kmem_ok k G → slab G !! a = Some (idx, m) → m < PGSIZE / bsz idx →
  let h := a + m * bsz idx in
  ∃ ls, list_add (blk_node h) (cache_node idx) (INIT_LIST_HEAD (blk_node h) (nodes k)) = Done ls ∧
    kmem_ok (Kmem (pages k) ls (<[h := Khdr 0 0]> (hdrs k)) (u32 (nr_kfree k + 1)))
            (g_page a idx (m + 1) G).
Proof.
  intros Hk Ha Hm h. pose proof (ko_slab _ _ Hk) as HS. pose proof (ko_sep _ _ Hk) as HP.
  destruct (so_class _ HS _ _ _ Ha) as (Hidx & Hm0 & Hba).
  pose proof (λ idx', carve_new G a idx m idx' HS HP Ha Hm) as Hnew. fold h in Hnew.
  destruct (ko_lists _ _ Hk) as [L HL].
  assert (live G !! h = None) as Hlv.
  { destruct (live G !! h) as [idx'|] eqn:Hl; [|done]. apply (so_live _ HS) in Hl.
    by destruct (Hnew idx'). }
  assert (∀ idx' h', is_free (g_page a idx (m + 1) G) idx' h' ↔
    is_free G idx' h' ∨ (idx' = idx ∧ h' = h)) as Hf.
  { intros idx' h'. unfold is_free. rewrite is_block_carve by (done || lia). fold h. simpl.
    naive_solver. }
  destruct (lists_push HL (INIT_LIST_HEAD (blk_node h) (nodes k)) (<[blk_node h := []]> L)
    (g_page a idx (m + 1) G) h idx) as (ls' & L' & Hadd & HL'); try done.
  { apply INIT_LIST_HEAD_repr; [apply HL|]. left. eapply unlisted_fresh; [done..|].
    intros idx' Hb. by destruct (Hnew idx'). }
  { by rewrite lookup_insert_eq. } { intros x Hx. by rewrite lookup_insert_ne. }
  { simpl. by rewrite delete_id. }
  exists ls'. split; [done|]. split; simpl.
  - destruct HS as [S1 S2 S3]. split; simpl; [| |done].
    + intros a' idx' m' [[<- [= <- <-]]|[_ Hs]]%lookup_insert_Some; [|by eapply S1].
      split_and!; try done; lia.
    + intros h' idx' Hl. apply is_block_carve; [done|lia|]. left. by apply S2.
  - destruct (ko_pages _ _ Hk) as (U & Hok & HU). exists U. split; [done|].
    intros a' o'. rewrite (HU a' o'). simpl. rewrite lookup_insert. case_decide; subst; [|done].
    rewrite Ha. naive_solver.
  - by exists L'.
  - destruct (ko_heads _ _ Hk) as [H1 H2 H3]. split; simpl.
    + intros h' idx' Hl. rewrite lookup_insert_ne by congruence. by apply H1.
    + intros a' o' Hb. rewrite lookup_insert_ne; [by apply H2|]. intros <-.
      destruct (Hnew 0) as [_ ?]. congruence.
    + intros h' idx' [Hfr|[_ ->]]%Hf; [|by rewrite lookup_insert_eq].
      rewrite lookup_insert. case_decide; [done|]. by eapply H3.
  - eapply nfree_add; [apply Hk|intros idx' [Hb _]; by destruct (Hnew idx')|].
    intros h'. setoid_rewrite Hf. naive_solver.
Qed.

Lemma refill_loop_ok n : ∀ k G a idx m,
  kmem_ok k G → slab G !! a = Some (idx, m) → m + Z.of_nat n ≤ PGSIZE / bsz idx →
  ∃ k', refill_loop n a (bsz idx) idx m k = Done k' ∧
    kmem_ok k' (g_page a idx (m + Z.of_nat n) G).
Proof.
  induction n as [|n IH]; intros k G a idx m Hk Ha Hm; simpl.
  - exists k. split; [done|]. rewrite Z.add_0_r. unfold g_page. rewrite insert_id by done.
    by destruct G.
  - destruct (carve_ok k G a idx m Hk Ha ltac:(lia)) as (ls & -> & Hk1). simpl.
    destruct (IH _ _ a idx (m + 1) Hk1) as (k' & -> & Hk');
      [simpl; by rewrite lookup_insert_eq|lia|].
    exists k'. split; [done|]. replace (m + Z.of_nat (S n)) with (m + 1 + Z.of_nat n) by lia.
    unfold g_page in *. simpl in *. by rewrite insert_insert_eq in Hk'.
Qed.

(** [cache_refill] returns with the blocks of a new page on the list, or
    panics when there is no page. *)
Lemma cache_refill_ok k G idx :
  kmem_ok k G → 0 ≤ idx < NCACHE →
  cache_refill idx k = Panic "kmem: out of memory" ∨
  ∃ k' G' a, cache_refill idx k = Done k' ∧ kmem_ok k' G' ∧ is_free G' idx a ∧
    live G' = live G ∧ big G' = big G.
Proof.
  intros Hk Hidx. destruct (bsz_facts idx Hidx) as (Hbs & Hb & Hd & _).
  unfold cache_refill. rewrite Hbs. simpl.
  destruct (alloc_zeroed_ok k G 0 Hk ltac:(lia)) as (r & k1 & -> & Hr). simpl.
  destruct r as [a|]; [right|by left].
  destruct Hr as (Hnd & Hnr & Hhd & Ha & Hba & Hnb & U & HU & Hok).
  pose proof (large_page_ok k G a idx k1 U Hk Hnd Hnr Hhd Ha Hba Hidx HU Hok) as Hk1.
  assert (0 < PGSIZE / bsz idx) as Hn by (apply Z.div_str_pos; unfold PGSIZE; lia).
  destruct (refill_loop_ok (Z.to_nat (PGSIZE / bsz idx)) k1 _ a idx 0 Hk1) as (k' & Hrun & Hk');
    [simpl; by rewrite lookup_insert_eq|lia|].
  eexists k', _, a. split; [done|]. split; [exact Hk'|]. split; [|done]. split.
  - exists a, (0 + Z.of_nat (Z.to_nat (PGSIZE / bsz idx))), 0. simpl.
    rewrite lookup_insert_eq. split_and!; [done|lia..].
  - simpl. destruct (live G !! a) as [idx'|] eqn:Hl; [|done].
    apply (so_live _ (ko_slab _ _ Hk)) in Hl. by apply Hnb in Hl.
Qed.

(** A free block is handed out. *)
Lemma take_ok k G h idx :
  kmem_ok k G → is_free G idx h →
  ∃ ls, list_del (blk_node h) (nodes k) = Done ls ∧
    kmem_ok (Kmem (pages k) ls (<[h := Khdr (bsz idx) KMAGIC]> (hdrs k)) (u32 (nr_kfree k - 1)))
            (g_take h idx G).
Proof.
  intros Hk Hf. pose proof (ko_slab _ _ Hk) as HS. pose proof (ko_sep _ _ Hk) as HP.
  destruct (ko_lists _ _ Hk) as [L HL].
  destruct (lists_pop HS HP HL h idx Hf) as (ls & L' & Hdel & HL').
  assert (∀ idx' h', is_free (g_take h idx G) idx' h' ↔ is_free G idx' h' ∧ h' ≠ h) as Hfr.
  { intros idx' h'. unfold is_free, is_block, g_take. simpl. rewrite lookup_insert_None. naive_solver. }
  exists ls. split; [done|]. split; simpl.
  - destruct HS as [S1 S2 S3]. split; simpl; try done.
    intros h' idx' [[<- <-]|[_ Hl]]%lookup_insert_Some; [apply Hf|by apply S2].
  - apply Hk.
  - by exists L'.
  - destruct (ko_heads _ _ Hk) as [H1 H2 H3]. split; simpl.
    + intros h' idx' [[<- <-]|[Hne Hl]]%lookup_insert_Some; [by rewrite lookup_insert_eq|].
      rewrite lookup_insert_ne by done. by apply H1.
    + intros a o Hb. rewrite lookup_insert_ne; [by apply H2|]. intros <-.
      apply H2 in Hb. destruct Hf as [Hbl Hlv]. specialize (H3 h idx (conj Hbl Hlv)).
      by rewrite Hb in H3.
    + intros h' idx' [Hf' Hne]%Hfr. rewrite lookup_insert_ne by done. by eapply H3.
  - eapply nfree_del; [apply Hk|exact Hf|]. intros h'. setoid_rewrite Hfr. naive_solver.
Qed.

(** A block comes back; its header is already cleared. *)
Lemma give_ok k G h idx sz :
  kmem_ok k G → live G !! h = Some idx →
  ∃ ls, list_add (blk_node h) (cache_node idx) (nodes k) = Done ls ∧
    kmem_ok (Kmem (pages k) ls (<[h := Khdr sz 0]> (hdrs k)) (u32 (nr_kfree k + 1))) (g_give h G).
Proof.
  intros Hk Hl. pose proof (ko_slab _ _ Hk) as HS. pose proof (ko_sep _ _ Hk) as HP.
  destruct (ko_lists _ _ Hk) as [L HL]. pose proof (so_live _ HS _ _ Hl) as Hb.
  destruct (block_head HS idx h Hb) as [_ Hidx].
  assert (∀ idx' h', is_free (g_give h G) idx' h' ↔
    is_free G idx' h' ∨ (idx' = idx ∧ h' = h)) as Hfr.
  { intros idx' h'. unfold is_free, g_give. simpl. change (is_block (KGhost _ _ _)) with (is_block G).
    rewrite lookup_delete. case_decide as Hh; subst; [|naive_solver].
    rewrite Hl. split; [intros [Hb' _]; right; split; [|done]; by eapply block_class|naive_solver]. }
  destruct (lists_push HL (nodes k) L (g_give h G) h idx) as (ls & L' & Hadd & HL'); try done.
  { apply HL. } { by eapply (lo_live _ _ _ HL). }
  exists ls. split; [done|]. split; simpl.
  - destruct HS as [S1 S2 S3]. split; simpl; try done.
    intros h' idx' [_ Hl']%lookup_delete_Some. by apply S2.
  - apply Hk.
  - by exists L'.
  - destruct (ko_heads _ _ Hk) as [H1 H2 H3]. split; simpl.
    + intros h' idx' [Hne Hl']%lookup_delete_Some. rewrite lookup_insert_ne by done. by apply H1.
    + intros a o Hbg. rewrite lookup_insert_ne; [by apply H2|]. intros <-.
      destruct (so_big _ HS _ _ Hbg). destruct (block_head HS idx h Hb) as [Hh _].
      eapply (block_not_big HS HP idx h h o h); [done..|]. unfold pa_end, PGSIZE.
      pose proof (Z.pow_pos_nonneg 2 o ltac:(lia) ltac:(lia)). lia.
    + intros h' idx' [Hf'|[_ ->]]%Hfr; [|by rewrite lookup_insert_eq].
      rewrite lookup_insert. case_decide; [done|]. by eapply H3.
  - eapply (nfree_add _ G _ h); [apply Hk|intros idx' [_ ?]; congruence|].
    intros h'. setoid_rewrite Hfr. naive_solver.
Qed.

(** A page-sized allocation. *)
Lemma big_ok k G a o k' U :
  kmem_ok k G → nodes k' = nodes k → nr_kfree k' = nr_kfree k → heads_ok (hdrs k') G →
  slab G !! a = None → big G !! a = None → (∀ idx h, is_block G idx h → h ≠ a) → 0 ≤ o < MAX_ORDER →
  owned_pages G U → pa_ok (pages k') (<[a := o]> U) →
  kmem_ok (Kmem (pages k') (nodes k') (<[a := Khdr (Z.lor KFLAG_PAGE o) KMAGIC]> (hdrs k')) (nr_kfree k'))
          (g_big a o G).
Proof.
  intros Hk Hnd Hnr [H1 H2 H3] Ha Hba Hnb Ho HU Hok. pose proof (ko_slab _ _ Hk) as [S1 S2 S3].
  split; simpl.
  - split; simpl.
    + intros a' idx m Hs. destruct (S1 _ _ _ Hs) as (? & ? & ?). split_and!; try done; try lia.
      rewrite lookup_insert_ne; [done|]. congruence.
    + apply S2.
    + intros a' o' [[_ <-]|[_ Hb]]%lookup_insert_Some; [done|by eapply S3].
  - exists (<[a := o]> U). split; [done|]. intros a' o'. simpl. rewrite !lookup_insert.
    case_decide as Haa; subst; [|apply HU]. rewrite Ha. split; [by right|].
    intros [[_ [? ?]]|?]; done.
  - rewrite Hnd. destruct (ko_lists _ _ Hk) as [L HL]. exists L. by eapply lists_same, HL.
  - split; simpl.
    + intros h idx Hl. rewrite lookup_insert_ne; [by apply H1|]. intros ->. by apply (Hnb idx h (S2 _ _ Hl)).
    + intros a' o' [[<- <-]|[Hne Hb]]%lookup_insert_Some; [by rewrite lookup_insert_eq|].
      rewrite lookup_insert_ne by done. by apply H2.
    + intros h idx [Hb Hl]. rewrite lookup_insert_ne; [by eapply H3|].
      intros ->. by apply (Hnb idx h Hb).
  - rewrite Hnr. exact (ko_nfree _ _ Hk).
Qed.

Lemma unbig_ok k G a o sz :
  kmem_ok k G → big G !! a = Some o →
  ∃ st, pa_free a o (pages k) = Done st ∧
    kmem_ok (Kmem st (nodes k) (<[a := Khdr sz 0]> (hdrs k)) (nr_kfree k)) (g_unbig a G).
Proof.
  intros Hk Hb. destruct (ko_pages _ _ Hk) as (U & Hok & HU).
  pose proof (ko_slab _ _ Hk) as HS. pose proof (ko_sep _ _ Hk) as HP.
  destruct (pa_free_ok _ _ a o Hok) as (st & Hfree & Hok'); [apply HU; by right|].
  exists st. split; [done|]. split; simpl.
  - destruct HS as [S1 S2 S3]. split; simpl; [|done|].
    + intros a' idx m Hs. destruct (S1 _ _ _ Hs) as (? & ? & ?). split_and!; try done; try lia.
      rewrite lookup_delete. by case_decide.
    + intros a' o' [_ Hb']%lookup_delete_Some. by eapply S3.
  - exists (delete a U). split; [done|]. intros a' o'. simpl.
    destruct (decide (a = a')) as [<-|Hne].
    + rewrite !lookup_delete_eq. split; [done|]. intros [[_ [[idx m] Hs]]|?]; [|done].
      destruct (so_class _ HS _ _ _ Hs) as (_ & _ & ?). congruence.
    + rewrite !lookup_delete_ne by done. apply HU.
  - destruct (ko_lists _ _ Hk) as [L HL]. exists L. by eapply lists_same, HL.
  - assert (∀ idx h, is_block G idx h → a ≠ h) as Hne.
    { intros idx h Hbl <-. destruct (so_big _ HS _ _ Hb). destruct (block_head HS _ _ Hbl) as [Hh _].
      eapply (block_not_big HS HP idx a a o a); [done..|]. unfold pa_end, PGSIZE.
      pose proof (Z.pow_pos_nonneg 2 o ltac:(lia) ltac:(lia)). lia. }
    destruct (ko_heads _ _ Hk) as [H1 H2 H3]. split; simpl.
    + intros h idx Hl. rewrite lookup_insert_ne; [by apply H1|]. apply (Hne idx). by apply (so_live _ HS).
    + intros a' o' [Hn Hb']%lookup_delete_Some. rewrite lookup_insert_ne by done. by apply H2.
    + intros h idx [Hbl Hl]. rewrite lookup_insert_ne; [by eapply H3|]. by apply (Hne idx).
  - exact (ko_nfree _ _ Hk).
Qed.

(** ** What clients see *)

(** [h] heads an allocation of [n] bytes, header included. *)
Definition allocated (G : kghost) (h n : Z) : Prop :=
  (∃ idx, live G !! h = Some idx ∧ n = bsz idx) ∨
  (∃ o, big G !! h = Some o ∧ n = 2 ^ o * PGSIZE).

(** [handed G G' h n]: exactly the allocation at [h] is new in [G']. *)
Definition handed (G G' : kghost) (h n : Z) : Prop :=
  (∀ n', ¬ allocated G h n') ∧
  (∀ h' n', allocated G' h' n' ↔ allocated G h' n' ∨ (h' = h ∧ n' = n)).

Lemma order_loop_ok fuel : ∀ bytes o,
  0 ≤ o < MAX_ORDER → MAX_ORDER - o ≤ Z.of_nat fuel →
  if bytes <=? PGSIZE * 2 ^ (MAX_ORDER - 1)
  then ∃ r, order_loop fuel bytes o = Done r ∧ o ≤ r < MAX_ORDER ∧ bytes ≤ 2 ^ r * PGSIZE
  else order_loop fuel bytes o = Panic "kmalloc: size too large".
Proof.
  induction fuel as [|fuel IH]; intros bytes o Ho Hf; [lia|]. simpl.
  rewrite Z.shiftl_mul_pow2 by lia.
  destruct (Z.ltb_spec (PGSIZE * 2 ^ o) bytes) as [Hlt|Hge].
  - destruct (Z.leb_spec MAX_ORDER (o + 1)) as [Hmo|Hmo].
    + assert (o = MAX_ORDER - 1) as -> by lia. by rewrite (proj2 (Z.leb_gt _ _)).
    + specialize (IH bytes (o + 1) ltac:(lia) ltac:(lia)). destruct (bytes <=? _); [|done].
      destruct IH as (r & -> & ? & ?). exists r. split_and!; [done|lia..].
  - assert (2 ^ o ≤ 2 ^ (MAX_ORDER - 1)) by (apply Z.pow_le_mono_r; lia).
    rewrite (proj2 (Z.leb_le _ _)) by (unfold PGSIZE in *; lia).
    exists o. split_and!; [done|lia..].
Qed.

Lemma handed_take k G h idx :
  kmem_ok k G → is_free G idx h → handed G (g_take h idx G) h (bsz idx).
Proof.
  intros Hk [Hb Hl]. pose proof (ko_slab _ _ Hk) as HS. split.
  - intros n' [(idx' & ? & _)|(o & Hbig & _)]; [congruence|].
    apply (ho_big _ _ (ko_heads _ _ Hk)) in Hbig.
    pose proof (ho_free _ _ (ko_heads _ _ Hk) _ _ (conj Hb Hl)) as Hm. by rewrite Hbig in Hm.
  - intros h' n'. unfold allocated, g_take. simpl. setoid_rewrite lookup_insert_Some. naive_solver.
Qed.

Lemma handed_big G a o :
  slab G !! a = None → big G !! a = None → live G !! a = None →
  handed G (g_big a o G) a (2 ^ o * PGSIZE).
Proof.
  intros Ha Hb Hl. split.
  - intros n' [(idx' & ? & _)|(o' & ? & _)]; congruence.
  - intros h' n'. unfold allocated, g_big. simpl. setoid_rewrite lookup_insert_Some. naive_solver.
Qed.

Lemma handed_same G G1 G' h n :
  live G1 = live G → big G1 = big G → handed G1 G' h n → handed G G' h n.
Proof. intros Hl Hb. unfold handed, allocated. by rewrite Hl, Hb. Qed.

(** Taking the head of a non-empty free list. *)
Lemma kmalloc_pop k G idx h0 :
  kmem_ok k G → 0 ≤ idx < NCACHE → is_free G idx h0 →
  ∃ h k' G', (nd ← list_first_entry (cache_node idx) (nodes k);
    match nd with
    | inr _ => Wild
    | inl h =>
        ls ← list_del (blk_node h) (nodes k);
        bsize ← bsize_of idx;
        mret (Some (h + sizeof_khdr),
              Kmem (pages k) ls (<[h := Khdr bsize KMAGIC]> (hdrs k)) (u32 (nr_kfree k - 1)))
    end) = Done (Some (h + sizeof_khdr), k') ∧ kmem_ok k' G' ∧ handed G G' h (bsz idx).
Proof.
  intros Hk Hidx Hf0. destruct (ko_lists _ _ Hk) as [L HL].
  destruct (lo_cache _ _ _ HL idx Hidx) as (l & HLi & Hl).
  destruct l as [|h l]; [apply Hl in Hf0; set_solver|].
  assert (is_free G idx h) as Hf by (apply Hl; set_solver).
  rewrite (list_first_entry_spec _ _ _ _ _ (lo_repr _ _ _ HL) HLi). simpl.
  destruct (take_ok k G h idx Hk Hf) as (ls & -> & Hk'). simpl.
  destruct (bsz_facts idx Hidx) as (-> & _). simpl.
  eexists h, _, _. split; [done|]. split; [exact Hk'|]. by eapply handed_take.
Qed.

Lemma kmalloc_small k G idx :
  kmem_ok k G → 0 ≤ idx < NCACHE →
  let run := (e ← list_empty (cache_node idx) (nodes k);
    k ← (if e : bool then cache_refill idx k else mret k);
    nd ← list_first_entry (cache_node idx) (nodes k);
    match nd with
    | inr _ => Wild
    | inl h =>
        ls ← list_del (blk_node h) (nodes k);
        bsize ← bsize_of idx;
        mret (Some (h + sizeof_khdr),
              Kmem (pages k) ls (<[h := Khdr bsize KMAGIC]> (hdrs k)) (u32 (nr_kfree k - 1)))
    end) in
  run = Panic "kmem: out of memory" ∨
  ∃ h k' G', run = Done (Some (h + sizeof_khdr), k') ∧ kmem_ok k' G' ∧ handed G G' h (bsz idx).
Proof.
  intros Hk Hidx. destruct (ko_lists _ _ Hk) as [L HL].
  destruct (lo_cache _ _ _ HL idx Hidx) as (l & HLi & Hl).
  rewrite (list_empty_spec _ _ _ _ (lo_repr _ _ _ HL) HLi). simpl.
  destruct l as [|h l].
  - destruct (cache_refill_ok k G idx Hk Hidx) as [->|(k1 & G1 & a & -> & Hk1 & Hf & Hlv & Hbg)];
      [by left|right]. simpl.
    destruct (kmalloc_pop k1 G1 idx a Hk1 Hidx Hf) as (h & k' & G' & Hrun & Hk' & Hh).
    exists h, k', G'. split; [exact Hrun|]. split; [done|]. by eapply handed_same.
  - right. eapply (kmalloc_pop k G idx h); [done..|]. apply Hl. set_solver.
Qed.

Lemma kmalloc_step k G sz :
  kmem_ok k G → 0 < sz → sz + sizeof_khdr ≤ 2 ^ 32 - PGSIZE →
  (∃ h n k' G', kmalloc sz k = Done (Some (h + sizeof_khdr), k') ∧ kmem_ok k' G' ∧
     handed G G' h n ∧ sizeof_khdr + sz ≤ n) ∨
  (2048 < sz + sizeof_khdr ∧ kmalloc sz k = Done (None, k)) ∨
  (sz + sizeof_khdr ≤ 2048 ∧ kmalloc sz k = Panic "kmem: out of memory") ∨
  (PGSIZE * 2 ^ (MAX_ORDER - 1) < sz + sizeof_khdr ∧ kmalloc sz k = Panic "kmalloc: size too large").
Proof.
  intros Hk Hsz Hmax. unfold kmalloc. rewrite (proj2 (Z.eqb_neq sz 0)) by lia.
  rewrite u32_small by (unfold sizeof_khdr, PGSIZE in *; lia).
  destruct (Z.ltb_spec 2048 (sz + sizeof_khdr)) as [Hbig|Hsmall].
  - pose proof (order_loop_ok (Z.to_nat MAX_ORDER) (PGROUNDUP (sz + sizeof_khdr)) 0
      ltac:(done) ltac:(done)) as Ho.
    destruct (PGROUNDUP_aligned (sz + sizeof_khdr)) as [[q Hq] Hr]; [unfold sizeof_khdr in *; lia|].
    destruct (Z.leb_spec (PGROUNDUP (sz + sizeof_khdr)) (PGSIZE * 2 ^ (MAX_ORDER - 1))) as [Hle|Hgt].
    2:{ right; right; right. rewrite Ho. split; [|done]. rewrite Hq in *.
        unfold PGSIZE, MAX_ORDER in *. change (4096 * 2 ^ (11 - 1)) with (1024 * 4096) in *. lia. }
    destruct Ho as (o & -> & Ho & Hfit). cbn [mbind outcome_mbind outcome_bind].
    destruct (alloc_zeroed_ok k G o Hk ltac:(lia)) as (r & k1 & -> & Hr1).
    cbn [mbind outcome_mbind outcome_bind]. destruct r as [a|].
    2:{ right; left. by rewrite Hr1. }
    left. destruct Hr1 as (Hnd & Hnr & Hhd & Ha & Hba & Hnb & U & HU & Hok).
    exists a, (2 ^ o * PGSIZE). eexists _, (g_big a o G). split; [done|]. split_and!; [|apply handed_big; try done|lia].
    + by apply (big_ok k G a o k1 U).
    + destruct (live G !! a) as [idx|] eqn:Hl; [|done].
      apply (so_live _ (ko_slab _ _ Hk)) in Hl. by apply Hnb in Hl.
  - pose proof (cache_index_spec (sz + sizeof_khdr)) as Hci.
    destruct (cache_index _) as [idx|]; [|lia]. destruct Hci as (Hidx & Hfit & _).
    destruct (kmalloc_small k G idx Hk Hidx) as [->|(h & k' & G' & Hrun & Hk' & Hh)]; [by right; right; left|].
    left. exists h, (bsz idx), k', G'. split_and!; [exact Hrun|done|done|lia].
Qed.

Lemma allocated_pos k G h n : kmem_ok k G → allocated G h n → 0 < n.
Proof.
  intros Hk [(idx & Hl & ->)|(o & Hb & ->)].
  - apply (so_live _ (ko_slab _ _ Hk)) in Hl. by destruct (block_head (ko_slab _ _ Hk) idx h Hl) as [_ ?%bsz_pos].
  - apply (so_big _ (ko_slab _ _ Hk)) in Hb. pose proof (Z.pow_pos_nonneg 2 o). unfold PGSIZE. lia.
Qed.

(** No byte belongs to two allocations. *)
Lemma allocated_unique k G h1 n1 h2 n2 x :
  kmem_ok k G → allocated G h1 n1 → allocated G h2 n2 →
  h1 ≤ x < h1 + n1 → h2 ≤ x < h2 + n2 → h1 = h2.
Proof.
  intros Hk. pose proof (ko_slab _ _ Hk) as HS. pose proof (ko_sep _ _ Hk) as HP.
  intros [(i1 & Hl1 & ->)|(o1 & Hb1 & ->)] [(i2 & Hl2 & ->)|(o2 & Hb2 & ->)] Hx1 Hx2.
  - apply (so_live _ HS) in Hl1, Hl2. by eapply (block_disjoint HS HP i1 h1 i2 h2 x).
  - apply (so_live _ HS) in Hl1. exfalso. by eapply (block_not_big HS HP i1 h1 h2 o2 x).
  - apply (so_live _ HS) in Hl2. exfalso. by eapply (block_not_big HS HP i2 h2 h1 o1 x).
  - by eapply (HP h1 o1 h2 o2 x); [right|right|..].
Qed.

Lemma big_flag o : 0 ≤ o < MAX_ORDER →
  Z.land (Z.lor KFLAG_PAGE o) KFLAG_PAGE ≠ 0 ∧
  Z.land (Z.lor KFLAG_PAGE o) (u32 (Z.lnot KFLAG_PAGE)) = o.
Proof.
  intros Ho.
  assert (forallb (λ o, negb (Z.land (Z.lor KFLAG_PAGE o) KFLAG_PAGE =? 0) &&
    (Z.land (Z.lor KFLAG_PAGE o) (u32 (Z.lnot KFLAG_PAGE)) =? o)) (seqZ 0 MAX_ORDER) = true)
    as Hall by reflexivity.
  rewrite forallb_forall in Hall. specialize (Hall o).
  rewrite andb_true_iff, negb_true_iff, Z.eqb_neq, Z.eqb_eq in Hall. apply Hall.
  apply list_elem_of_In, elem_of_seqZ. lia.
Qed.

Lemma kfree_step k G h n :
  kmem_ok k G → allocated G h n →
  ∃ k' G', kfree (Some (h + sizeof_khdr)) k = Done k' ∧ kmem_ok k' G' ∧
    (∀ h' n', allocated G' h' n' ↔ allocated G h' n' ∧ h' ≠ h) ∧
    magic <$> hdrs k' !! h = Some 0.
Proof.
  intros Hk Ha. pose proof (ko_slab _ _ Hk) as HS. pose proof (ko_sep _ _ Hk) as HP.
  unfold kfree. replace (h + sizeof_khdr - sizeof_khdr) with h by lia.
  assert (∀ n' n'', (∃ idx, live G !! h = Some idx ∧ n' = bsz idx) →
    (∃ o, big G !! h = Some o ∧ n'' = 2 ^ o * PGSIZE) → False) as Hex.
  { intros n' n'' (idx & Hl & _) (o & Hb & _). apply (so_live _ HS) in Hl.
    destruct (block_head HS _ _ Hl) as [Hh _]. destruct (so_big _ HS _ _ Hb).
    eapply (block_not_big HS HP idx h h o h); [done..|]. unfold pa_end, PGSIZE.
    pose proof (Z.pow_pos_nonneg 2 o ltac:(lia) ltac:(lia)). lia. }
  destruct Ha as [(idx & Hl & ->)|(o & Hb & ->)].
  - rewrite (ho_live _ _ (ko_heads _ _ Hk) _ _ Hl). simpl.
    apply (so_live _ HS) in Hl as Hbl. destruct (block_head HS _ _ Hbl) as [_ Hidx].
    destruct (bsz_facts idx Hidx) as (_ & _ & _ & Hci & Hfl). rewrite Hfl. simpl. rewrite Hci.
    destruct (give_ok k G h idx (bsz idx) Hk Hl) as (ls & -> & Hk'). simpl.
    eexists _, _. split; [done|]. split; [exact Hk'|]. split; [|simpl; by rewrite lookup_insert_eq].
    intros h' n'. unfold allocated, g_give. simpl. setoid_rewrite lookup_delete_Some.
    split; [|naive_solver]. intros [?|(o & Hb & ->)]; [naive_solver|]. split; [naive_solver|].
    intros ->. eapply Hex; eauto.
  - rewrite (ho_big _ _ (ko_heads _ _ Hk) _ _ Hb). cbn [mbind outcome_mbind outcome_bind deref magic size].
    rewrite Z.eqb_refl. cbn [negb].
    destruct (big_flag o (so_big _ HS _ _ Hb)) as [Hf1 Hf2].
    rewrite (proj2 (Z.eqb_neq _ _) Hf1), Hf2. simpl.
    destruct (unbig_ok k G h o (Z.lor KFLAG_PAGE o) Hk Hb) as (st & -> & Hk').
    eexists _, _. split; [done|]. split; [exact Hk'|]. split; [|simpl; by rewrite lookup_insert_eq].
    intros h' n'. unfold allocated, g_unbig. simpl. setoid_rewrite lookup_delete_Some.
    split; [|naive_solver]. intros [(i & Hl & ->)|?]; [|naive_solver]. split; [naive_solver|].
    intros ->. eapply Hex; eauto.
Qed.

Lemma init_caches_ok l : ∀ ls L,
  repr ls L → all_empty L → Forall (λ i, 0 ≤ i < NCACHE) l →
  (∀ x xs, L !! x = Some xs → ∃ i, x = cache_node i ∧ 0 ≤ i < NCACHE) →
  ∃ L', repr (foldl (λ ls i, INIT_LIST_HEAD (cache_node i) ls) ls l) L' ∧ all_empty L' ∧
    (∀ i, i ∈ l ∨ is_Some (L !! cache_node i) → is_Some (L' !! cache_node i)) ∧
    (∀ x xs, L' !! x = Some xs → ∃ i, x = cache_node i ∧ 0 ≤ i < NCACHE).
Proof.
  induction l as [|i l IH]; intros ls L HR HE Hl HD; simpl.
  { exists L. split_and!; [done..| |done]. intros i [?|?]; [set_solver|done]. }
  apply Forall_cons in Hl as [Hi Hl].
  destruct (init_node ls L (cache_node i) HR HE) as [HR' HE'].
  destruct (IH _ _ HR' HE' Hl) as (L' & ? & ? & Hd & ?).
  { intros x xs. rewrite lookup_insert. case_decide; [subst; eauto|apply HD]. }
  exists L'. split_and!; [done..| |done]. intros i' Hi'. apply Hd.
  rewrite elem_of_cons in Hi'. rewrite lookup_insert. case_decide; naive_solver.
Qed.

Lemma kmem_init_step st : pa_ok st ∅ → kmem_ok (kmem_init st) (KGhost ∅ ∅ ∅).
Proof.
  intros Hok.
  assert (∀ idx h, ¬ is_free (KGhost ∅ ∅ ∅) idx h) as Hnf.
  { intros idx h [(a & m & i & Ha & _) _]. simpl in Ha. by rewrite lookup_empty in Ha. }
  split; simpl.
  - split; simpl; [intros a idx m Ha|intros h idx Ha|intros a o Ha]; by rewrite lookup_empty in Ha.
  - exists ∅. split; [done|]. intros a o. simpl. rewrite !lookup_empty.
    split; [done|]. intros [[_ [? ?]]|?]; done.
  - destruct (init_caches_ok (seqZ 0 NCACHE) ∅ ∅) as (L & HR & HE & Hd & HD);
      [by split|done|apply Forall_forall; intros i ?%elem_of_seqZ; lia|done|].
    exists L. split; [done|..|done|].
    + intros idx Hidx. exists []. destruct (Hd idx) as [xs Hxs]; [left; apply elem_of_seqZ; lia|].
      rewrite Hxs, (HE _ _ Hxs). split; [done|]. intros h. rewrite elem_of_nil. by split; [|intros ?%Hnf].
    + intros x xs Hx. by destruct (HD x xs Hx) as (i & -> & ?).
  - split; simpl; [done..|]. by intros h idx ?%Hnf.
  - exists ∅. split; [|done]. intros h. rewrite elem_of_empty. split; [done|]. by intros [idx ?%Hnf].
Qed.

(** [kmalloc] of a size that does not wrap hands out a block of at least the
    requested size behind its header, disjoint from every allocation in use,
    and the heap stays consistent; otherwise it returns null or panics, only
    for want of pages or above 4 MiB, without changing the heap. *)
Theorem kmalloc_spec k G sz :
  kmem_ok k G → 0 < sz → sz + sizeof_khdr ≤ 2 ^ 32 - PGSIZE →
  (∃ h n k' G', kmalloc sz k = Done (Some (h + sizeof_khdr), k') ∧ kmem_ok k' G' ∧
     handed G G' h n ∧ sizeof_khdr + sz ≤ n ∧
     (∀ h' n', allocated G h' n' → h + n ≤ h' ∨ h' + n' ≤ h)) ∨
  (2048 < sz + sizeof_khdr ∧ kmalloc sz k = Done (None, k)) ∨
  (sz + sizeof_khdr ≤ 2048 ∧ kmalloc sz k = Panic "kmem: out of memory") ∨
  (PGSIZE * 2 ^ (MAX_ORDER - 1) < sz + sizeof_khdr ∧ kmalloc sz k = Panic "kmalloc: size too large").
Proof.
  intros Hk Hsz Hmax.
  destruct (kmalloc_step k G sz Hk Hsz Hmax) as [(h & n & k' & G' & Hrun & Hk' & Hh & Hn)|?]; [left|tauto].
  exists h, n, k', G'. split_and!; try done. intros h' n' Ha.
  destruct (decide (h + n ≤ h')) as [?|Hn1]; [by left|].
  destruct (decide (h' + n' ≤ h)) as [?|Hn2]; [by right|]. exfalso.
  destruct Hh as [Hfresh Hh]. pose proof (allocated_pos _ _ _ _ Hk Ha).
  assert (h' = h) as ->; [|by eapply Hfresh].
  eapply (allocated_unique k' G' h' n' h n (Z.max h h')); [done|apply Hh; by left|apply Hh; by right|..];
    unfold sizeof_khdr in *; lia.
Qed.


(** [kfree] of a live allocation succeeds and removes exactly that
    allocation, and freeing the same pointer again panics on the cleared
    magic. *)
Theorem kfree_spec k G h n :
  kmem_ok k G → allocated G h n →
  ∃ k' G', kfree (Some (h + sizeof_khdr)) k = Done k' ∧ kmem_ok k' G' ∧
    (∀ h' n', allocated G' h' n' ↔ allocated G h' n' ∧ h' ≠ h) ∧
    kfree (Some (h + sizeof_khdr)) k' = Panic "kfree: bad magic".
Proof.
  intros Hk Ha. destruct (kfree_step k G h n Hk Ha) as (k' & G' & Hrun & Hk' & Hal & Hm).
  exists k', G'. split_and!; try done. unfold kfree.
  replace (h + sizeof_khdr - sizeof_khdr) with h by lia.
  destruct (hdrs k' !! h) as [hd|]; [|done]. injection Hm as Hm. simpl. by rewrite Hm.
Qed.

(** [kcalloc] refuses a product that does not fit 32 bits, and otherwise
    returns what [kmalloc] of the product returns with every byte of the array
    zero and no other byte changed. *)
Theorem kcalloc_spec k G n sz :
  kmem_ok k G → 0 ≤ n < 2 ^ 32 → 0 ≤ sz < 2 ^ 32 →
  if 2 ^ 32 <=? n * sz then kcalloc n sz k = Done (None, k)
  else match kmalloc (n * sz) k with
       | Done (Some p, k1) => ∀ G', kmem_ok k1 G' →
           ∃ k', kcalloc n sz k = Done (Some p, k') ∧ kmem_ok k' G' ∧
             ∀ b, mload (pa_ram (pages k')) b =
               if decide (p ≤ b < p + n * sz) then 0 else mload (pa_ram (pages k1)) b
       | r => kcalloc n sz k = r
       end.
Proof.
  intros Hk Hn Hsz. unfold kcalloc.
  assert (negb (n =? 0) && (u32 (-1) / n <? sz) = (2 ^ 32 <=? n * sz)) as Hguard.
  { change (u32 (-1)) with (2 ^ 32 - 1). apply eq_iff_eq_true.
    rewrite andb_true_iff, negb_true_iff, Z.eqb_neq, Z.ltb_lt, Z.leb_le. split.
    - intros [Hn0 Hlt]. pose proof (Z.mul_succ_div_gt (2 ^ 32 - 1) n ltac:(lia)). nia.
    - intros Hle. split; [intros ->; lia|]. apply Z.div_lt_upper_bound; nia. }
  rewrite Hguard. destruct (Z.leb_spec (2 ^ 32) (n * sz)); [done|].
  rewrite u32_small by nia. destruct (kmalloc (n * sz) k) as [[[p|] k1]| | |] eqn:Hm; simpl; try done.
  intros G' [S1 (U & Hok & HU) S3 S4 S5]. eexists. split; [done|]. split.
  - split; simpl; try done. exists U. split; [by apply pa_ram_ok|done].
  - intros b. simpl. rewrite pa_ram_set, mload_memset, Z2Nat.id by nia. done.
Qed.

End Steps.

(** ** Witnesses, over the buddy allocator *)

Definition heap0 : kmem pmm := kmem_init pool0.

Lemma heap0_ok : kmem_ok heap0 (KGhost ∅ ∅ ∅).
Proof.
  apply kmem_init_step. destruct pool0_ok as [B Hv]. exists ∅, B. split; [done|].
  intros a o. by rewrite lookup_empty.
Qed.

Lemma kmalloc_spec_witness : ∃ h n, kmem_ok (St := pmm) heap0 (KGhost ∅ ∅ ∅) ∧
  16 + 100 ≤ n ∧ (match kmalloc 100 heap0 with Done (Some p, _) => p | _ => 0 end) = h + 16.
Proof.
  destruct (kmalloc_spec heap0 (KGhost ∅ ∅ ∅) 100 heap0_ok) as
    [(h & n & k' & G' & Hrun & _ & _ & Hn & _)|[[Hc _]|[[_ Hc]|[Hc _]]]]; [lia|by vm_compute|..].
  - exists h, n. rewrite Hrun. split_and!; [apply heap0_ok|exact Hn|reflexivity].
  - exfalso. by vm_compute in Hc.
  - exfalso. assert (match kmalloc 100 heap0 with Panic _ => false | _ => true end = true) as Hd
      by (by vm_compute). by rewrite Hc in Hd.
  - exfalso. by vm_compute in Hc.
Defined.

(** A heap with two live blocks. *)
Definition demo_kmalloc (sz : Z) (k : kmem pmm) : Z * kmem pmm :=
  match kmalloc sz k with Done (Some p, k) => (p - 16, k) | _ => (0, k) end.
Definition heap1 : kmem pmm := snd (demo_kmalloc 100 heap0).
Definition blk1 : Z := Eval vm_compute in fst (demo_kmalloc 100 heap0).

Lemma demo_kmalloc_ok k G sz h :
  kmem_ok k G → 0 < sz → sz + sizeof_khdr ≤ 2048 → fst (demo_kmalloc sz k) = h → h ≠ 0 →
  ∃ G' n, kmem_ok (snd (demo_kmalloc sz k)) G' ∧ allocated G' h n ∧
    (∀ h' n', allocated G h' n' → allocated G' h' n').
Proof.
  unfold demo_kmalloc. intros Hk Hsz Hmax <-.
  destruct (kmalloc_step k G sz Hk Hsz) as
    [(h & n & k' & G' & -> & Hk' & [_ Hh] & _)|[[? ?]|[[_ ->]|[? ?]]]]; try done.
  - unfold PGSIZE. lia.
  - simpl. intros _. replace (h + sizeof_khdr - 16) with h by (unfold sizeof_khdr; lia).
    exists G', n. split_and!; [done|apply Hh; by right|]. intros h' n' Ha. apply Hh. by left.
  - lia.
  - unfold MAX_ORDER, PGSIZE in *. lia.
Qed.

Lemma heap1_ok : ∃ G n, kmem_ok heap1 G ∧ allocated G blk1 n.
Proof.
  destruct (demo_kmalloc_ok heap0 (KGhost ∅ ∅ ∅) 100 blk1 heap0_ok) as (G & n & ? & ? & _);
    [lia|by vm_compute|by vm_compute|by vm_compute|]. by exists G, n.
Qed.

Definition heap2 : kmem pmm := snd (demo_kmalloc 200 heap1).
Definition blk2 : Z := Eval vm_compute in fst (demo_kmalloc 200 heap1).

Lemma heap2_ok : ∃ G n1 n2, kmem_ok heap2 G ∧ allocated G blk1 n1 ∧ allocated G blk2 n2.
Proof.
  destruct heap1_ok as (G & n & Hk & Ha).
  destruct (demo_kmalloc_ok heap1 G 200 blk2 Hk) as (G' & n' & ? & ? & Hm);
    [lia|by vm_compute|by vm_compute|by vm_compute|]. exists G', n, n'. split_and!; auto.
Qed.


Lemma kfree_spec_witness : ∃ k', kfree (Some (blk1 + 16)) heap1 = Done k' ∧
  kfree (Some (blk1 + 16)) k' = Panic "kfree: bad magic".
Proof.
  destruct heap1_ok as (G & n & Hk & Ha).
  destruct (kfree_spec heap1 G blk1 n Hk Ha) as (k' & G' & Hrun & _ & _ & Hdbl).
  exists k'. split; [exact Hrun|exact Hdbl].
Defined.

Lemma kcalloc_spec_witness : kcalloc 0x10000 0x10000 heap0 = Done (None, heap0).
Proof. apply (kcalloc_spec heap0 (KGhost ∅ ∅ ∅) 0x10000 0x10000 heap0_ok); lia. Defined.

(** The sum [size + sizeof(struct khdr)] is not checked: a request for
    [2^32 - 1] bytes gets a 32-byte block. *)
Lemma kmalloc_size_wraps :
  (match kmalloc 0xFFFFFFFF heap0 with
   | Done (Some p, k) => size <$> hdrs k !! (p - 16)
   | _ => None
   end) = Some 32.
Proof. by vm_compute. Qed.
