(* ===== verification/Pipe.v ===== *)
(** [Pipe]: the ring buffer of kernel/fs/pipe.c and its blocking protocol.

    [pipe_write] and [pipe_read] hold [pi->lock] except inside [sleep_chan], so
    each is cut at its sleeps: a section runs from taking the lock to returning
    or to going to sleep.  Readers sleep on [&pi->nread] and writers on
    [&pi->nwrite]; the wakeups a section issues are part of its result. *)
From Stdlib Require Import ZArith Lia.
From stdpp Require Import numbers gmap list sets.
From S2P Require Import Prelude MemLayout.
Open Scope Z_scope.

Definition PIPESIZE : Z := 512.

(** [struct pipe] without its lock.  The counters are [uint]. *)
Record pipe := Pipe {
  data : gmap Z Z;
  nread : Z;
  nwrite : Z;
  readers : Z;
  writers : Z
}.

(** A section of [pipe_write] returns a value, perhaps after raising [SIGPIPE],
    or sleeps on [&nwrite] with [i] bytes copied. *)
Inductive wres := WRet (r : Z) (sigpipe : bool) | WSleep (i : nat).

(** A section of [pipe_read] returns a value and the bytes stored at [dst], or
    sleeps on [&nread]. *)
Inductive rres := RRet (r : Z) (dst : list Z) | RSleep.

(** [pi->data[pi->nwrite++ % PIPESIZE] = b] *)
Definition pipe_put (b : Z) (pi : pipe) : pipe :=
  Pipe (<[nwrite pi mod PIPESIZE := b]> (data pi)) (nread pi) (u32 (nwrite pi + 1))
       (readers pi) (writers pi).

(** [pi->data[pi->nread++ % PIPESIZE]] *)
Definition pipe_get (pi : pipe) : outcome (Z * pipe) :=
  b ← deref (data pi !! (nread pi mod PIPESIZE));
  mret (b, Pipe (data pi) (u32 (nread pi + 1)) (nwrite pi) (readers pi) (writers pi)).

(** The byte-by-byte loop of a long write, from byte [i]; the last component
    says whether readers are woken. *)
Fixpoint pipe_write_long (rest : list Z) (i : nat) (killed : bool) (pi : pipe) : pipe * wres * bool :=
  match rest with
  | [] => (pi, WRet (Z.of_nat i) false, true)
  | b :: rest =>
      if nwrite pi =? u32 (nread pi + PIPESIZE) then
        if (readers pi =? 0) || killed
        then (pi, WRet (if (0 <? i)%nat then Z.of_nat i else -1) (readers pi =? 0), false)
        else (pi, WSleep i, true)
      else pipe_write_long rest (S i) killed (pipe_put b pi)
  end.

(** A section of [pipe_write] from the loop head, with [i] bytes copied. *)
Definition pipe_write_section (src : list Z) (i : nat) (killed : bool) (pi : pipe)
    : pipe * wres * bool :=
  let n := Z.of_nat (length src) in
  if (0 <? n) && (n <=? PIPESIZE) then
    if u32 (nread pi + PIPESIZE) <? u32 (nwrite pi + n) then
      if (readers pi =? 0) || killed
      then (pi, WRet (-1) (readers pi =? 0), false)
      else (pi, WSleep i, true)
    else (foldl (λ pi b, pipe_put b pi) pi src, WRet n false, true)
  else pipe_write_long (drop i src) i killed pi.

(** [pipe_write(ip, src, off, n)]: null arguments are [None]. *)
Definition pipe_write (ip : option pipe) (src : option (list Z)) (killed : bool)
    : option pipe * wres * bool :=
  match ip, src with
  | Some pi, Some s =>
      if 2 ^ 31 <=? Z.of_nat (length s) then (ip, WRet (-1) false, false)
      else if readers pi =? 0 then (ip, WRet (-1) true, false)
      else let '(pi, r, w) := pipe_write_section s 0 killed pi in (Some pi, r, w)
  | _, _ => (ip, WRet (-1) false, false)
  end.

(** [for (i = 0; i < (int)n; i++) { if (nread == nwrite) break; ... }] *)
Fixpoint pipe_read_loop (n : nat) (acc : list Z) (pi : pipe) : outcome (list Z * pipe) :=
  match n with
  | O => mret (acc, pi)
  | S n =>
      if nread pi =? nwrite pi then mret (acc, pi)
      else '(b, pi) ← pipe_get pi; pipe_read_loop n (acc ++ [b]) pi
  end.

(** A section of [pipe_read]; the last component says whether writers are
    woken. *)
Definition pipe_read_section (n : Z) (killed : bool) (pi : pipe) : outcome (pipe * rres * bool) :=
  if (nread pi =? nwrite pi) && negb (writers pi =? 0) then
    if killed then mret (pi, RRet (-1) [], false) else mret (pi, RSleep, false)
  else
    '(d, pi) ← pipe_read_loop (Z.to_nat n) [] pi;
    mret (pi, RRet (Z.of_nat (length d)) d, true).

Definition pipe_read (ip : option pipe) (dst_ok : bool) (n : Z) (killed : bool)
    : outcome (option pipe * rres * bool) :=
  match ip with
  | Some pi =>
      if negb dst_ok || (2 ^ 31 <=? n) then mret (ip, RRet (-1) [], false)
      else '(pi, r, w) ← pipe_read_section n killed pi; mret (Some pi, r, w)
  | None => mret (ip, RRet (-1) [], false)
  end.

(** [pipe_release]: new state, whether writers and whether readers are woken. *)
Definition pipe_release (readable writable : bool) (pi : pipe) : pipe * bool * bool :=
  let rd := if readable && (0 <? readers pi) then readers pi - 1 else readers pi in
  let wr := if writable && (0 <? writers pi) then writers pi - 1 else writers pi in
  (Pipe (data pi) (nread pi) (nwrite pi) rd wr,
   readable && (rd =? 0), writable && (wr =? 0)).

(** [fifo_on_open]; nobody sleeps on the channels it wakes. *)
Definition fifo_on_open (readable writable : bool) (pi : pipe) : pipe :=
  Pipe (data pi) (nread pi) (nwrite pi)
       (if readable then u32 (readers pi + 1) else readers pi)
       (if writable then u32 (writers pi + 1) else writers pi).

(** The buffer that [pipealloc] sets up ([kmalloc] leaves [data] arbitrary)
    and the one of [fifo_init_inode]. *)
Definition pipealloc_init (junk : gmap Z Z) : pipe := Pipe junk 0 0 1 1.
Definition fifo_init (junk : gmap Z Z) : pipe := Pipe junk 0 0 0 0.

(** ** The pipe as a queue of bytes *)

(** [pipe_abs pi q]: the pipe holds the bytes [q], oldest first.  The counters
    may have wrapped. *)
Record pipe_abs (pi : pipe) (q : list Z) : Prop := {
  pb_len : Z.of_nat (length q) ≤ PIPESIZE;
  pb_read : 0 ≤ nread pi < 2 ^ 32;
  pb_write : nwrite pi = u32 (nread pi + Z.of_nat (length q));
  pb_data i b : q !! i = Some b → data pi !! ((nread pi + Z.of_nat i) mod PIPESIZE) = Some b
}.

Lemma u32_mod_PIPESIZE x : u32 x mod PIPESIZE = x mod PIPESIZE.
Proof.
  unfold u32. apply Z.mod_mod_divide. by exists (2 ^ 23).
Qed.

Lemma u32_add_inj x a b :
  0 ≤ a < 2 ^ 32 → 0 ≤ b < 2 ^ 32 → u32 (x + a) = u32 (x + b) → a = b.
Proof.
  unfold u32. intros Ha Hb Heq.
  assert ((a - b) mod 2 ^ 32 = 0) as Hd.
  { replace (a - b) with ((x + a) - (x + b)) by lia. rewrite Zminus_mod, Heq, Z.sub_diag. done. }
  apply Z.mod_divide in Hd as [q Hq]; lia.
Qed.

Lemma pipe_empty_iff pi q : pipe_abs pi q → (nread pi = nwrite pi ↔ q = []).
Proof.
  intros [H1 H2 H3 _]. unfold PIPESIZE in *. split.
  - intros Heq. rewrite H3 in Heq. rewrite <- (u32_small (nread pi)) in Heq at 1 by done.
    rewrite <- (Z.add_0_r (nread pi)) in Heq at 1. apply u32_add_inj in Heq; [|lia..].
    by destruct q.
  - intros ->. simpl in H3. rewrite Z.add_0_r, u32_small in H3 by done. done.
Qed.

Lemma pipe_full_iff pi q :
  pipe_abs pi q → (nwrite pi = u32 (nread pi + PIPESIZE) ↔ Z.of_nat (length q) = PIPESIZE).
Proof.
  intros [H1 H2 H3 _]. rewrite H3. unfold PIPESIZE in *. split; [|congruence].
  intros Heq. by apply u32_add_inj in Heq; [|lia..].
Qed.

(** ** The basic moves *)

Lemma pipe_put_abs pi q b :
  pipe_abs pi q → Z.of_nat (length q) < PIPESIZE → pipe_abs (pipe_put b pi) (q ++ [b]).
Proof.
  intros [H1 H2 H3 H4] Hroom. split; simpl.
  - rewrite length_app. simpl. lia.
  - done.
  - rewrite H3, length_app. simpl. unfold u32. rewrite Zplus_mod_idemp_l. f_equal. lia.
  - intros i c Hi. rewrite H3, u32_mod_PIPESIZE.
    apply lookup_app_Some in Hi as [Hi|[Hlen Hi]].
    + pose proof (lookup_lt_Some _ _ _ Hi). rewrite lookup_insert_ne; [by apply H4|].
      intros Heq. assert ((Z.of_nat (length q) - Z.of_nat i) mod PIPESIZE = 0) as Hd.
      { replace (Z.of_nat (length q) - Z.of_nat i) with
          ((nread pi + Z.of_nat (length q)) - (nread pi + Z.of_nat i)) by lia.
        rewrite Zminus_mod, Heq, Z.sub_diag. done. }
      rewrite Z.mod_small in Hd by (unfold PIPESIZE in *; lia). lia.
    + apply list_lookup_singleton_Some in Hi as [Hi ->].
      replace (Z.of_nat i) with (Z.of_nat (length q)) by lia. by rewrite lookup_insert_eq.
Qed.

Lemma pipe_get_abs pi b q :
  pipe_abs pi (b :: q) → ∃ pi', pipe_get pi = Done (b, pi') ∧ pipe_abs pi' q ∧
    nread pi' = u32 (nread pi + 1) ∧ readers pi' = readers pi ∧ writers pi' = writers pi.
Proof.
  intros [H1 H2 H3 H4]. pose proof (H4 0%nat b eq_refl) as Hb. rewrite Z.add_0_r in Hb.
  unfold pipe_get. rewrite Hb. simpl. eexists. split; [done|]. split; [|done]. split; simpl.
  - simpl in H1. lia.
  - apply u32_range.
  - rewrite H3. unfold u32. rewrite Zplus_mod_idemp_l. f_equal. simpl. lia.
  - intros i c Hi. specialize (H4 (S i) c Hi).
    rewrite <- (Zplus_mod_idemp_l (u32 _)), u32_mod_PIPESIZE, Zplus_mod_idemp_l.
    by replace (nread pi + 1 + Z.of_nat i) with (nread pi + Z.of_nat (S i)) by lia.
Qed.

Definition same_ends (pi pi' : pipe) : Prop := readers pi' = readers pi ∧ writers pi' = writers pi.

(** What a writer leaves alone. *)
Definition kept (pi pi' : pipe) : Prop := nread pi' = nread pi ∧ same_ends pi pi'.

Lemma same_ends_refl pi : same_ends pi pi.
Proof. by split. Qed.
Lemma kept_refl pi : kept pi pi.
Proof. by split. Qed.
#[local] Hint Resolve same_ends_refl kept_refl : core.

Lemma pipe_read_loop_abs n : ∀ pi q acc,
  pipe_abs pi q → ∃ pi', pipe_read_loop n acc pi = Done (acc ++ take n q, pi') ∧
    pipe_abs pi' (drop n q) ∧ same_ends pi pi' ∧
    nread pi' = u32 (nread pi + Z.of_nat (length (take n q))).
Proof.
  induction n as [|n IH]; intros pi q acc Hq; simpl.
  { exists pi. rewrite app_nil_r, Z.add_0_r, u32_small by apply Hq. done. }
  destruct (Z.eqb_spec (nread pi) (nwrite pi)) as [Heq|Hne].
  - apply (pipe_empty_iff pi q Hq) in Heq as ->. exists pi.
    simpl. rewrite app_nil_r, Z.add_0_r, u32_small by apply Hq. done.
  - destruct q as [|b q]; [by exfalso; apply Hne, (pipe_empty_iff pi [] Hq)|].
    destruct (pipe_get_abs pi b q Hq) as (pi1 & -> & Hq1 & Hn1 & He1). simpl.
    destruct (IH pi1 q (acc ++ [b]) Hq1) as (pi' & -> & Hq' & He' & Hn').
    exists pi'. rewrite <- app_assoc. split_and!; [done..| |].
    + unfold same_ends in *. intuition congruence.
    + rewrite Hn', Hn1. unfold u32. rewrite Zplus_mod_idemp_l. f_equal. lia.
Qed.

(** A section of [pipe_read] dequeues up to [n] bytes, or sleeps on an empty
    pipe that still has writers. *)
Lemma pipe_read_section_abs pi q n killed :
  pipe_abs pi q → 0 ≤ n →
  if bool_decide (q = []) && negb (writers pi =? 0)
  then pipe_read_section n killed pi = Done (pi, if killed then RRet (-1) [] else RSleep, false)
  else ∃ pi', let d := take (Z.to_nat n) q in
    pipe_read_section n killed pi = Done (pi', RRet (Z.of_nat (length d)) d, true) ∧
    pipe_abs pi' (drop (Z.to_nat n) q) ∧ same_ends pi pi' ∧
    nread pi' = u32 (nread pi + Z.of_nat (length d)).
Proof.
  intros Hq Hn. unfold pipe_read_section. pose proof (pipe_empty_iff pi q Hq) as Hemp.
  replace (bool_decide (q = [])) with (nread pi =? nwrite pi).
  2:{ apply eq_true_iff_eq. rewrite Z.eqb_eq, bool_decide_eq_true. done. }
  destruct ((nread pi =? nwrite pi) && negb (writers pi =? 0)); [by destruct killed|].
  destruct (pipe_read_loop_abs (Z.to_nat n) pi q [] Hq) as (pi' & -> & Hq' & He).
  by exists pi'.
Qed.

(** How far a section of [pipe_write] got, and why it stopped. *)
Definition wstop (pi : pipe) (killed : bool) (len i k : nat) (room : Prop) (r : wres) (w : bool) : Prop :=
  match r with
  | WRet v sp =>
      (k = len ∧ v = Z.of_nat len ∧ sp = false ∧ w = true) ∨
      ((k < len)%nat ∧ room ∧ (readers pi = 0 ∨ killed = true) ∧
       v = (if (0 <? k)%nat then Z.of_nat k else -1) ∧ sp = (readers pi =? 0) ∧ w = false)
  | WSleep j => j = k ∧ (k < len)%nat ∧ room ∧ readers pi ≠ 0 ∧ killed = false ∧ w = true
  end.

Lemma pipe_write_long_abs killed : ∀ rest i pi q,
  pipe_abs pi q →
  ∃ pi' r w k, pipe_write_long rest i killed pi = (pi', r, w) ∧ (k ≤ length rest)%nat ∧
    pipe_abs pi' (q ++ take k rest) ∧ kept pi pi' ∧
    wstop pi killed (i + length rest) i (i + k)
      (Z.of_nat (length q + k) = PIPESIZE) r w.
Proof.
  induction rest as [|b rest IH]; intros i pi q Hq; simpl.
  { exists pi, (WRet (Z.of_nat i) false), true, 0%nat. rewrite app_nil_r, !Nat.add_0_r.
    split_and!; [done..|]. by left. }
  pose proof (pipe_full_iff pi q Hq) as Hfull.
  destruct (Z.eqb_spec (nwrite pi) (u32 (nread pi + PIPESIZE))) as [Heq|Hne].
  - apply Hfull in Heq. rewrite <- (app_nil_r q) in Hq.
    destruct (Z.eqb_spec (readers pi) 0) as [Hr|Hr]; [|destruct killed];
      eexists pi, _, _, 0%nat; rewrite !Nat.add_0_r; (split_and!; [done|lia|done..|]).
    + right. split_and!; try done; [lia|by left|by rewrite Hr].
    + right. split_and!; try done; [lia|by right|by rewrite (proj2 (Z.eqb_neq _ _) Hr)].
    + simpl. split_and!; try done. lia.
  - assert (Z.of_nat (length q) < PIPESIZE) as Hroom.
    { pose proof (pb_len _ _ Hq). destruct (decide (Z.of_nat (length q) = PIPESIZE)) as [?%Hfull|]; [done|lia]. }
    destruct (IH (S i) (pipe_put b pi) _ (pipe_put_abs pi q b Hq Hroom))
      as (pi' & r & w & k & Hrun & Hk & Hq' & He & Hs).
    exists pi', r, w, (S k). rewrite <- app_assoc in Hq'. split_and!; [done|lia|done|done|].
    rewrite length_app in Hs. simpl in Hs. unfold wstop in *. simpl in Hs.
    replace (i + S (length rest))%nat with (S (i + length rest)) by lia.
    replace (i + S k)%nat with (S (i + k)) by lia.
    replace (length q + S k)%nat with (length q + 1 + k)%nat by lia. done.
Qed.

Lemma pipe_puts_abs l : ∀ pi q,
  pipe_abs pi q → Z.of_nat (length q + length l) ≤ PIPESIZE →
  pipe_abs (foldl (λ pi b, pipe_put b pi) pi l) (q ++ l) ∧
  kept pi (foldl (λ pi b, pipe_put b pi) pi l).
Proof.
  induction l as [|b l IH]; intros pi q Hq Hl; simpl in *.
  { by rewrite app_nil_r. }
  destruct (IH (pipe_put b pi) (q ++ [b])) as [Hq' He]; [apply pipe_put_abs; [done|lia]|..].
  { rewrite length_app. simpl. lia. }
  rewrite <- app_assoc in Hq'. done.
Qed.

(** [small n]: the write is promised to be atomic. *)
Definition small (n : nat) : bool := (0 <? Z.of_nat n) && (Z.of_nat n <=? PIPESIZE).

(** A section of [pipe_write] with [i] bytes already queued appends the next
    bytes of [src]: all of them, or none of a small write, and stops early only
    when there is no room for what it must place.  The counters must not be
    about to wrap. *)
Lemma pipe_write_section_abs pi q src i killed :
  pipe_abs pi q → nread pi + 2 * PIPESIZE < 2 ^ 32 → (i ≤ length src)%nat →
  (small (length src) = true → i = 0%nat) →
  ∃ pi' r w k, pipe_write_section src i killed pi = (pi', r, w) ∧ (i ≤ k ≤ length src)%nat ∧
    pipe_abs pi' (q ++ take (k - i) (drop i src)) ∧ kept pi pi' ∧
    (small (length src) = true → k = 0%nat ∨ k = length src) ∧
    wstop pi killed (length src) i k
      (if small (length src) then PIPESIZE < Z.of_nat (length q + length src)
       else Z.of_nat (length q + (k - i)) = PIPESIZE) r w.
Proof.
  intros Hq Hnw Hi Hsm. unfold pipe_write_section. fold (small (length src)).
  destruct (small (length src)) eqn:Hs.
  - rewrite (Hsm eq_refl) in *. apply andb_true_iff in Hs as [Hs1%Z.ltb_lt Hs2%Z.leb_le].
    pose proof Hq as [Hlen Hrd Hwr _]. unfold PIPESIZE in *.
    rewrite (u32_small (nread pi + 512)) by lia.
    rewrite (u32_small (nread pi + Z.of_nat (length q))) in Hwr by lia.
    rewrite Hwr, (u32_small (_ + _ + _)) by lia.
    destruct (Z.ltb_spec (nread pi + 512) (nread pi + Z.of_nat (length q) + Z.of_nat (length src)))
      as [Hfull|Hroom].
    + rewrite <- (app_nil_r q) in Hq.
      destruct (Z.eqb_spec (readers pi) 0) as [Hr|Hr]; simpl; [|destruct killed];
        eexists pi, _, _, 0%nat; (split_and!; [done|lia|lia|done|done|by left|]).
      * right. split_and!; try done; [lia|lia|by left|by rewrite Hr].
      * right. split_and!; try done; [lia|lia|by right|by rewrite (proj2 (Z.eqb_neq _ _) Hr)].
      * simpl. split_and!; try done; lia.
    + destruct (pipe_puts_abs src pi q Hq) as [Hq' He]; [unfold PIPESIZE; lia|].
      eexists _, _, _, (length src). split; [done|]. rewrite Nat.sub_0_r, drop_0, take_ge by lia.
      split_and!; [lia|lia|done|done|by right|]. by left.
  - destruct (pipe_write_long_abs killed (drop i src) i pi q Hq)
      as (pi' & r & w & k & Hrun & Hk & Hq' & He & Hst).
    rewrite length_drop in *. exists pi', r, w, (i + k)%nat.
    replace (i + k - i)%nat with k by lia.
    replace (i + (length src - i))%nat with (length src) in Hst by lia.
    split_and!; [done|lia|lia|done|done|done|done].
Qed.
