(* ===== verification/PipeSys.v ===== *)
(** [PipeSys]: processes sharing one pipe of kernel/fs/pipe.c.

    A step is one lock-holding section of [pipe_read] or [pipe_write], a close
    or open of an end, or a signal, which wakes a sleeper whatever it waits for.
    The sections test [p->killed], which no code of the kernel sets, so it is
    [false] here.  A process inside [pipe_read] has a read end open, so the last
    read end is closed only when no reader is.  [sent] and [received] record the
    bytes queued and delivered so far. *)
From Stdlib Require Import ZArith Lia.
From stdpp Require Import numbers gmap list sets.
From S2P Require Import Prelude MemLayout Pipe.
Open Scope Z_scope.

(** A process inside [pipe_read] or [pipe_write]; the flag is set while it
    sleeps in [sleep_chan]. *)
Inductive pop := PRead (n : Z) (asleep : bool) | PWrite (src : list Z) (i : nat) (asleep : bool).

Record psys := PSys {
  ring : pipe;
  ops : gmap Z pop;
  sent : list Z;
  received : list Z
}.

(** [wakeup(&pi->nread)] and [wakeup(&pi->nwrite)] *)
Definition wake_reader (o : pop) : pop := match o with PRead n _ => PRead n false | _ => o end.
Definition wake_writer (o : pop) : pop := match o with PWrite s i _ => PWrite s i false | _ => o end.
Definition wake_any (o : pop) : pop := wake_reader (wake_writer o).
Definition wake_if (w : bool) (f : pop → pop) (m : gmap Z pop) : gmap Z pop :=
  if w then f <$> m else m.

(** The number of bytes of [src] in the pipe after a section. *)
Definition wpos (r : wres) : nat := match r with WRet v _ => Z.to_nat v | WSleep i => i end.

(** Process [p] ran a section of its write of [src], with [i] bytes placed
    before. *)
Definition wrote (p : Z) (src : list Z) (i : nat) (res : pipe * wres * bool) (s : psys) : psys :=
  let '(pi, r, w) := res in
  PSys pi
    (wake_if w wake_reader
       (match r with WRet _ _ => delete p (ops s) | WSleep j => <[p := PWrite src j true]> (ops s) end))
    (sent s ++ take (wpos r - i) (drop i src)) (received s).

(** Process [p] ran a section of its read of [n] bytes. *)
Definition didread (p n : Z) (res : pipe * rres * bool) (s : psys) : psys :=
  let '(pi, r, w) := res in
  PSys pi
    (wake_if w wake_writer
       (match r with RRet _ _ => delete p (ops s) | RSleep => <[p := PRead n true]> (ops s) end))
    (sent s) (received s ++ match r with RRet _ d => d | RSleep => [] end).

Inductive pstep (s : psys) : psys → Prop :=
  | step_write p src pi r w :
      ops s !! p = None →
      pipe_write (Some (ring s)) (Some src) false = (Some pi, r, w) →
      pstep s (wrote p src 0 (pi, r, w) s)
  | step_write_resume p src i :
      ops s !! p = Some (PWrite src i false) →
      pstep s (wrote p src i (pipe_write_section src i false (ring s)) s)
  | step_read p n pi r w :
      ops s !! p = None → 0 ≤ n → readers (ring s) ≠ 0 →
      pipe_read (Some (ring s)) true n false = Done (Some pi, r, w) →
      pstep s (didread p n (pi, r, w) s)
  | step_read_resume p n res :
      ops s !! p = Some (PRead n false) → 0 ≤ n →
      pipe_read_section n false (ring s) = Done res →
      pstep s (didread p n res s)
  | step_release rd wr pi ww wr' :
      (rd = true → readers (ring s) = 1 → ∀ p n a, ops s !! p ≠ Some (PRead n a)) →
      pipe_release rd wr (ring s) = (pi, ww, wr') →
      pstep s (PSys pi (wake_if wr' wake_reader (wake_if ww wake_writer (ops s)))
                    (sent s) (received s))
  | step_open rd wr :
      readers (ring s) + 1 < 2 ^ 32 → writers (ring s) + 1 < 2 ^ 32 →
      pstep s (PSys (fifo_on_open rd wr (ring s)) (ops s) (sent s) (received s))
  | step_signal p :
      pstep s (PSys (ring s) (alter wake_any p (ops s)) (sent s) (received s)).

(** States reachable from a fresh pipe. *)
Inductive reachable (junk : gmap Z Z) : psys → Prop :=
  | reach_init : reachable junk (PSys (pipealloc_init junk) ∅ [] [])
  | reach_step s s' : reachable junk s → pstep s s' → reachable junk s'.

(** ** The invariant *)

(** Why a process may be asleep when the pipe holds [q]. *)
Definition may_sleep (pi : pipe) (q : list Z) (o : pop) : Prop :=
  match o with
  | PRead _ true => readers pi ≠ 0 ∧ q = [] ∧ writers pi ≠ 0
  | PRead _ false => readers pi ≠ 0
  | PWrite src i true =>
      readers pi ≠ 0 ∧
      (if small (length src) then PIPESIZE < Z.of_nat (length q + length src)
       else Z.of_nat (length q) = PIPESIZE)
  | _ => True
  end.

(** A pending write has room to go on, and a small one has placed nothing. *)
Definition op_wf (o : pop) : Prop :=
  match o with
  | PRead n _ => 0 ≤ n
  | PWrite src i _ => (i ≤ length src)%nat ∧ (small (length src) = true → i = 0%nat)
  end.

Record psys_ok (s : psys) (q : list Z) : Prop := {
  ps_abs : pipe_abs (ring s) q;
  ps_fifo : sent s = received s ++ q;
  ps_nread : nread (ring s) = Z.of_nat (length (received s));
  ps_ends : 0 ≤ readers (ring s) ∧ 0 ≤ writers (ring s);
  ps_ops p o : ops s !! p = Some o → may_sleep (ring s) q o ∧ op_wf o
}.

(** The byte counters stay below the point where they wrap. *)
Definition no_wrap (s : psys) : Prop := Z.of_nat (length (sent s)) + 2 * PIPESIZE < 2 ^ 32.

Lemma no_wrap_nread s q : psys_ok s q → no_wrap s → nread (ring s) + 2 * PIPESIZE < 2 ^ 32.
Proof.
  intros Hs Hw. unfold no_wrap in Hw. rewrite (ps_fifo _ _ Hs), length_app in Hw.
  rewrite (ps_nread _ _ Hs). lia.
Qed.

Lemma wake_if_lookup w f m (p : Z) o' :
  wake_if w f m !! p = Some o' → ∃ o, m !! p = Some o ∧ o' = if w then f o else o.
Proof.
  destruct w; simpl; [|eauto]. rewrite lookup_fmap.
  destruct (m !! p) as [o|]; [|done]. intros [= <-]. eauto.
Qed.

(** Waking never breaks [may_sleep]. *)
Lemma may_sleep_wake pi q o f :
  f = wake_reader ∨ f = wake_writer → may_sleep pi q o → may_sleep pi q (f o).
Proof. intros [-> | ->]; destruct o as [? []|? ? []]; simpl; tauto. Qed.

Lemma op_wf_wake o f : f = wake_reader ∨ f = wake_writer → op_wf o → op_wf (f o).
Proof. intros [-> | ->]; by destruct o. Qed.

Lemma wpos_stop pi kl len i k room r w :
  wstop pi kl len i k room r w → wpos r = k.
Proof.
  destruct r as [v sp|j]; simpl; [|tauto]. intros [(-> & -> & _)|(_ & _ & _ & -> & _)]; [lia|].
  destruct (Nat.ltb_spec 0 k); lia.
Qed.

(** Another sleeper's reason survives a write that extends the queue. *)
Lemma may_sleep_grow pi pi' q l o :
  kept pi pi' → Z.of_nat (length (q ++ l)) ≤ PIPESIZE →
  (∀ n, o = PRead n true → l = []) →
  may_sleep pi q o → may_sleep pi' (q ++ l) o.
Proof.
  intros [_ [Hr Hw]] Hlen Hrd. rewrite length_app in Hlen.
  destruct o as [n []|src i []]; simpl; rewrite ?Hr, ?Hw, ?length_app; try done.
  - rewrite (Hrd n eq_refl), app_nil_r. done.
  - intros [? Hs]. split; [done|]. destruct (small (length src)); lia.
Qed.

(** A section of a write preserves the invariant. *)
Lemma wrote_ok s q p src i :
  psys_ok s q → no_wrap s → op_wf (PWrite src i false) →
  ∃ q', psys_ok (wrote p src i (pipe_write_section src i false (ring s)) s) q'.
Proof.
  intros Hs Hw [Hi Hsm]. pose proof (no_wrap_nread s q Hs Hw) as Hnw.
  destruct (pipe_write_section_abs (ring s) q src i false (ps_abs _ _ Hs) Hnw Hi Hsm)
    as (pi' & r & w & k & -> & Hk & Hq' & He & Hall & Hst).
  pose proof (wpos_stop _ _ _ _ _ _ _ _ Hst) as Hpos.
  set (l := take (k - i) (drop i src)) in *.
  assert (length l = (k - i)%nat) as Hl by (unfold l; rewrite length_take, length_drop; lia).
  exists (q ++ l). unfold wrote. rewrite Hpos. fold l. split; simpl.
  - done.
  - rewrite (ps_fifo _ _ Hs). by rewrite app_assoc.
  - rewrite (proj1 He). apply Hs.
  - destruct He as (_ & -> & ->). apply Hs.
  - intros p' o' Hp'. apply wake_if_lookup in Hp' as (o & Ho & ->).
    assert (may_sleep pi' (q ++ l) (if w then wake_reader o else o) ∧ op_wf o) as [Hms Hwf];
      [|split; [done|]; destruct w; [by apply op_wf_wake; [left|]|done]].
    assert (ops s !! p' = Some o ∨ (∃ j, r = WSleep j ∧ o = PWrite src j true)) as [Ho'|(j & -> & ->)].
    { destruct r; [apply lookup_delete_Some in Ho as [_ Ho]; by left|].
      apply lookup_insert_Some in Ho as [[_ <-]|[_ Ho]]; eauto. }
    + destruct (ps_ops _ _ Hs _ _ Ho') as [Hms Hwf]. split; [|done].
      destruct w.
      * destruct o as [n a|src' i' a]; [simpl; destruct He as (_ & -> & _); by destruct a; apply Hms|].
        eapply may_sleep_grow; [done|apply Hq'|done|done].
      * apply (may_sleep_grow (ring s)); [done|apply Hq'| |done]. intros n ->.
        destruct r as [v sp|j]; [|destruct Hst as (_ & _ & _ & _ & _ & [=])].
        destruct Hst as [(_ & _ & _ & [=])|(_ & _ & [Hr|[=]] & _)]. by destruct Hms.
    + destruct Hst as (-> & Hlt & Hroom & Hrd & _ & ->). simpl. destruct He as (_ & -> & _).
      rewrite length_app, Hl. destruct (small (length src)) eqn:Hsml.
      * destruct (Hall eq_refl) as [-> | ->]; [|lia]. rewrite Nat.sub_0_l, Nat.add_0_r. split_and!; [done..|lia|done].
      * split_and!; [done..|lia|done].
Qed.

Lemma wrote_refused s q p src sp :
  psys_ok s q → psys_ok (wrote p src 0 (ring s, WRet (-1) sp, false) s) q.
Proof.
  intros [H1 H2 H3 H4 H5]. split; simpl; try done.
  - by rewrite app_nil_r.
  - intros p' o [_ Ho]%lookup_delete_Some. by eapply H5.
Qed.

(** A section of a read preserves the invariant, and never reads an unwritten
    cell. *)
Lemma didread_ok s q p n :
  psys_ok s q → no_wrap s → 0 ≤ n → readers (ring s) ≠ 0 →
  ∃ res q', pipe_read_section n false (ring s) = Done res ∧
    psys_ok (didread p n res s) q'.
Proof.
  intros Hs Hw Hn Hrd. pose proof (no_wrap_nread s q Hs Hw) as Hnw.
  pose proof (pipe_read_section_abs (ring s) q n false (ps_abs _ _ Hs) Hn) as Hsec.
  destruct Hs as [H1 H2 H3 H4 H5].
  destruct (bool_decide (q = []) && negb (writers (ring s) =? 0)) eqn:Hc.
  - apply andb_true_iff in Hc as [->%bool_decide_eq_true Hwr%negb_true_iff%Z.eqb_neq].
    rewrite app_nil_r in H2. eexists _, []. split; [exact Hsec|].
    split; simpl; rewrite ?app_nil_r; try done.
    intros p' o [[_ <-]|[_ Ho]]%lookup_insert_Some; [|by eapply H5]. simpl. tauto.
  - destruct Hsec as (pi' & Hrun & Hq' & [Hr' Hw'] & Hnr).
    eexists _, (drop (Z.to_nat n) q). split; [exact Hrun|]. split; simpl.
    + done.
    + rewrite H2, <- app_assoc. by rewrite take_drop.
    + rewrite Hnr, H3, length_app, u32_small; [lia|].
      pose proof (pb_len _ _ H1). rewrite H3 in Hnw. rewrite length_take. unfold PIPESIZE in *. lia.
    + rewrite Hr', Hw'. done.
    + intros p' o'. rewrite lookup_fmap. destruct (delete p (ops s) !! p') as [o|] eqn:Ho; [|done].
      intros [= <-]. apply lookup_delete_Some in Ho as [_ Ho]. destruct (H5 _ _ Ho) as [Hms Hwf].
      split; [|by apply op_wf_wake; [right|]].
      destruct o as [m []|src i []]; simpl in *; rewrite ?Hr', ?Hw'; try done.
      destruct Hms as (? & -> & ?). rewrite drop_nil. tauto.
Qed.

Lemma release_ok s q rd wr pi ww wr' :
  psys_ok s q → (rd = true → readers (ring s) = 1 → ∀ p n a, ops s !! p ≠ Some (PRead n a)) →
  pipe_release rd wr (ring s) = (pi, ww, wr') →
  psys_ok (PSys pi (wake_if wr' wake_reader (wake_if ww wake_writer (ops s)))
                (sent s) (received s)) q.
Proof.
  intros [H1 H2 H3 [Hr Hw] H5] Hlast [= <- <- <-].
  set (rd' := if rd && _ then _ else _). set (wd' := if wr && _ then _ else _).
  assert (0 ≤ rd' ∧ 0 ≤ wd') as [Hrd Hwd].
  { unfold rd', wd'. destruct (Z.ltb_spec 0 (readers (ring s))), (Z.ltb_spec 0 (writers (ring s)));
      destruct rd, wr; simpl; lia. }
  split; simpl; [by destruct H1|done|done|done|].
  intros p' o'' Ho''. apply wake_if_lookup in Ho'' as (o' & Ho' & ->).
  apply wake_if_lookup in Ho' as (o & Ho & ->). destruct (H5 _ _ Ho) as [Hms Hwf].
  assert (∀ n a, o = PRead n a → rd' ≠ 0) as Hkeep.
  { intros n a ->. assert (readers (ring s) ≠ 0) as Hne by (by destruct a; apply Hms).
    unfold rd'. destruct rd; simpl; [|done]. destruct (Z.ltb_spec 0 (readers (ring s))); [|lia].
    intros Heq. eapply Hlast; [done|lia|exact Ho]. }
  split.
  - destruct o as [n a|src i a].
    + pose proof (Hkeep n a eq_refl) as Hne.
      destruct (rd && (rd' =? 0)); simpl; (destruct wr; simpl; [destruct (Z.eqb_spec wd' 0) as [Hz|Hz]|]);
        destruct a; simpl in *; try tauto.
      all: unfold wd'; simpl; tauto.
    + assert (∀ b, may_sleep (Pipe (data (ring s)) (nread (ring s)) (nwrite (ring s)) rd' wd') q (PWrite src i b) →
        may_sleep (Pipe (data (ring s)) (nread (ring s)) (nwrite (ring s)) rd' wd')
        q (if wr && (wd' =? 0) then wake_reader (PWrite src i b) else PWrite src i b)) as Hsame
        by (intros b; by destruct (wr && (wd' =? 0))).
      destruct (rd && (rd' =? 0)) eqn:Hz; apply Hsame; [done|].
      destruct a; simpl in *; [|done]. split; [|tauto]. unfold rd' in *. destruct rd; simpl in *; [|tauto].
      by apply Z.eqb_neq.
  - destruct (wr && (wd' =? 0)), (rd && (rd' =? 0)); by destruct o.
Qed.

Lemma open_ok s q rd wr :
  psys_ok s q → readers (ring s) + 1 < 2 ^ 32 → writers (ring s) + 1 < 2 ^ 32 →
  psys_ok (PSys (fifo_on_open rd wr (ring s)) (ops s) (sent s) (received s)) q.
Proof.
  intros [H1 H2 H3 [Hr Hw] H5] Hr1 Hw1. unfold fifo_on_open.
  rewrite !u32_small by lia. split; simpl; [by destruct H1|done|done|by destruct rd, wr; lia|].
  intros p o Ho. destruct (H5 _ _ Ho) as [Hms Hwf]. split; [|done].
  destruct o as [n []|src i []], rd, wr; simpl in *; intuition lia.
Qed.

Lemma signal_ok s q p :
  psys_ok s q → psys_ok (PSys (ring s) (alter wake_any p (ops s)) (sent s) (received s)) q.
Proof.
  intros [H1 H2 H3 H4 H5]. split; simpl; try done. intros p' o'.
  rewrite lookup_alter. case_decide as Hp; subst.
  - destruct (ops s !! p') as [o|] eqn:Ho; [|done]. intros [= <-]. destruct (H5 _ _ Ho) as [Hms Hwf].
    split; unfold wake_any; destruct o as [n []|src i []]; simpl in *; tauto.
  - intros Ho. destruct (H5 _ _ Ho). auto.
Qed.

Lemma pstep_ok s s' q : psys_ok s q → no_wrap s → pstep s s' → ∃ q', psys_ok s' q'.
Proof.
  intros Hs Hw Hstep. destruct Hstep as [p src pi r w Hp Hrun|p src i Hp|p n pi r w Hp Hn Hrd Hrun
    |p n res Hp Hn Hrun|rd wr pi ww wr' Hlast Hrel|rd wr Hr Hwr|p].
  - unfold pipe_write in Hrun. destruct (2 ^ 31 <=? _).
    { injection Hrun as <- <- <-. exists q. by apply wrote_refused. }
    destruct (readers (ring s) =? 0).
    { injection Hrun as <- <- <-. exists q. by apply wrote_refused. }
    destruct (pipe_write_section src 0 false (ring s)) as [[pi0 r0] w0] eqn:Hsec.
    injection Hrun as <- <- <-. rewrite <- Hsec. eapply wrote_ok; [done..|]. simpl. split; [lia|done].
  - destruct (ps_ops _ _ Hs _ _ Hp) as [_ Hwf]. by eapply wrote_ok.
  - unfold pipe_read in Hrun. simpl in Hrun. destruct (2 ^ 31 <=? n).
    { injection Hrun as <- <- <-. exists q. destruct Hs as [H1 H2 H3 H4 H5].
      split; simpl; try done; [by rewrite app_nil_r..|].
      intros p' o [_ Ho]%lookup_delete_Some. by eapply H5. }
    destruct (didread_ok s q p n Hs Hw Hn Hrd) as ([[pi0 r0] w0] & q' & Hsec & Hok).
    rewrite Hsec in Hrun. injection Hrun as <- <- <-. by exists q'.
  - destruct (ps_ops _ _ Hs _ _ Hp) as [Hrd _].
    destruct (didread_ok s q p n Hs Hw Hn Hrd) as (res' & q' & Hsec & Hok).
    rewrite Hsec in Hrun. injection Hrun as <-. by exists q'.
  - exists q. by eapply release_ok.
  - exists q. by apply open_ok.
  - exists q. by apply signal_ok.
Qed.

Lemma pstep_sent s s' : pstep s s' → (length (sent s) ≤ length (sent s'))%nat.
Proof.
  destruct 1 as [| |? ? ? ? ? ? ? ? ?|? ? [[? ?] ?]|? ? ? ? ? ? ?|? ? ? ?|?];
    unfold wrote; try destruct (pipe_write_section _ _ _ _) as [[? ?] ?]; simpl;
    rewrite ?length_app; lia.
Qed.

Lemma reachable_ok junk s : reachable junk s → no_wrap s → ∃ q, psys_ok s q.
Proof.
  induction 1 as [|s s' Hreach IH Hstep]; intros Hw.
  - exists []. by split.
  - pose proof (pstep_sent _ _ Hstep). destruct IH as [q Hq]; [unfold no_wrap in *; lia|].
    by eapply pstep_ok; [| |exact Hstep]; [|unfold no_wrap in *; lia].
Qed.



(** a write of at most [PIPESIZE] bytes is atomic: it is queued whole and
    contiguously, or the pipe is unchanged and the writer sleeps, or fails
    because no reader is left or it was killed. *)
Theorem pipe_write_atomic pi q src killed :
  pipe_abs pi q → nread pi + 2 * PIPESIZE < 2 ^ 32 → small (length src) = true →
  let n := Z.of_nat (length src) in
  (∃ pi', pipe_write_section src 0 killed pi = (pi', WRet n false, true) ∧ pipe_abs pi' (q ++ src) ∧
     Z.of_nat (length q) + n ≤ PIPESIZE) ∨
  (PIPESIZE < Z.of_nat (length q) + n ∧
   pipe_write_section src 0 killed pi =
     if (readers pi =? 0) || killed then (pi, WRet (-1) (readers pi =? 0), false) else (pi, WSleep 0, true)).
Proof.
  intros Hq Hnw Hsm n. unfold pipe_write_section. fold (small (length src)). rewrite Hsm.
  apply andb_true_iff in Hsm as [Hs1%Z.ltb_lt Hs2%Z.leb_le]. fold n in Hs1, Hs2. fold n.
  pose proof Hq as [Hlen Hrd Hwr _]. unfold PIPESIZE in *.
  rewrite (u32_small (nread pi + 512)) by lia. rewrite u32_small in Hwr by lia.
  rewrite Hwr, (u32_small (_ + _ + _)) by lia.
  destruct (Z.ltb_spec (nread pi + 512) (nread pi + Z.of_nat (length q) + n)); [right|left].
  - split; [lia|done].
  - eexists. split; [done|]. split; [|lia]. apply pipe_puts_abs; [done|]. unfold PIPESIZE. lia.
Qed.

(** [pipe_read] delivers the oldest [min(n, available)] bytes and removes
    exactly those; on an empty pipe it sleeps while a writer is left and returns
    0 (end of file) otherwise.  The byte counters may wrap. *)
Theorem pipe_read_spec pi q n killed :
  pipe_abs pi q → 0 ≤ n < 2 ^ 31 →
  if bool_decide (q = []) && negb (writers pi =? 0)
  then pipe_read (Some pi) true n killed =
         Done (Some pi, if killed then RRet (-1) [] else RSleep, false)
  else ∃ pi', let d := take (Z.to_nat n) q in
    pipe_read (Some pi) true n killed = Done (Some pi', RRet (Z.of_nat (length d)) d, true) ∧
    pipe_abs pi' (drop (Z.to_nat n) q).
Proof.
  intros Hq Hn. unfold pipe_read. rewrite (proj2 (Z.leb_gt _ _)) by lia. simpl.
  pose proof (pipe_read_section_abs pi q n killed Hq ltac:(lia)) as Hsec.
  destruct (_ && _); [by rewrite Hsec|]. destruct Hsec as (pi' & -> & Hq' & _). by exists pi'.
Qed.

(** ** Witnesses and counterexamples *)

Definition demo_sys : psys :=
  wrote 7 [10; 20; 30] 0 (pipe_write_section [10; 20; 30] 0 false (pipealloc_init ∅))
        (PSys (pipealloc_init ∅) ∅ [] []).

Lemma demo_sys_reach : reachable ∅ demo_sys.
Proof.
  eapply reach_step; [apply reach_init|].
  by apply (step_write (PSys (pipealloc_init ∅) ∅ [] []) 7 [10; 20; 30]).
Qed.


(** A reader asleep on a fresh pipe. *)
Definition strand0 : psys := PSys (pipealloc_init ∅) ∅ [] [].
Definition strand1 : psys := didread 1 10 (pipealloc_init ∅, RSleep, false) strand0.

Lemma strand1_reach : reachable ∅ strand1.
Proof. eapply reach_step; [apply reach_init|]. by apply (step_read strand0 1 10). Qed.


Lemma empty_pipe_abs : pipe_abs (pipealloc_init ∅) [].
Proof. by split. Qed.

Lemma pipe_write_atomic_witness :
  ∃ pi', pipe_write_section [1; 2; 3] 0 false (pipealloc_init ∅) = (pi', WRet 3 false, true) ∧
    pipe_abs pi' [1; 2; 3].
Proof.
  destruct (pipe_write_atomic (pipealloc_init ∅) [] [1; 2; 3] false empty_pipe_abs)
    as [(pi' & Hrun & Hq & _)|[Hc _]]; [by vm_compute|by vm_compute|..].
  - exists pi'. split; [exact Hrun|exact Hq].
  - exfalso. by vm_compute in Hc.
Defined.

Lemma pipe_read_spec_witness :
  pipe_read (Some (pipealloc_init ∅)) true 10 false = Done (Some (pipealloc_init ∅), RSleep, false).
Proof. apply (pipe_read_spec (pipealloc_init ∅) [] 10 false empty_pipe_abs). lia. Defined.

(** Near the wrap of the counters the room test of a small write is wrong: the
    pipe below is empty and has both ends open, and both a reader and a writer
    of 100 bytes go to sleep. *)
Lemma pipe_wrap_deadlock :
  let pi := Pipe ∅ (2 ^ 32 - 512) (2 ^ 32 - 512) 1 1 in
  pipe_abs pi [] ∧
  pipe_read_section 10 false pi = Done (pi, RSleep, false) ∧
  pipe_write_section (replicate 100 0) 0 false pi = (pi, WSleep 0, true).
Proof. split_and!; [by split|by vm_compute|by vm_compute]. Qed.

(** And a full pipe accepts a small write, which overwrites unread bytes. *)
Lemma pipe_wrap_overwrite :
  let pi := Pipe (list_to_map ((λ i, (i, 1)) <$> seqZ 0 512)) (2 ^ 32 - 600) (2 ^ 32 - 88) 1 1 in
  pipe_abs pi (replicate 512 1) ∧
  (let '(pi', r, _) := pipe_write_section (replicate 100 2) 0 false pi in
   (r, (match pipe_get pi' with Done (b, _) => b | _ => 0 end))) = (WRet 100 false, 2).
Proof.
  split; [|by vm_compute]. split; [done|by vm_compute|by vm_compute|].
  intros i b [-> Hi]%lookup_replicate. cbn [data nread].
  apply elem_of_list_to_map_1.
  - rewrite <- list_fmap_compose. unfold compose. cbn [fst]. rewrite list_fmap_id. apply NoDup_seqZ.
  - apply list_elem_of_fmap. eexists. split; [done|]. apply elem_of_seqZ.
    split; [apply Z.mod_pos_bound; done|]. rewrite Z.add_0_l. apply Z.mod_pos_bound. done.
Qed.

(** [p->killed] is tested by the sleeping loops but set nowhere: a signal, even
    [SIGKILL], wakes a blocked reader, which finds the pipe empty and goes back
    to sleep, so it never reaches the return to user mode where it would die. *)
Definition strand2 : psys := PSys (ring strand1) (alter wake_any 1 (ops strand1)) (sent strand1) (received strand1).

Lemma signalled_reader_sleeps_again :
  ops strand2 !! 1 = Some (PRead 10 false) ∧ pstep strand1 strand2 ∧ pstep strand2 strand1.
Proof.
  split; [done|]. split; [apply step_signal|].
  assert (strand1 = didread 1 10 (pipealloc_init ∅, RSleep, false) strand2) as Heq by (vm_compute; done).
  rewrite Heq. by apply step_read_resume.
Qed.
