(* ===== verification/CString.v ===== *)
(** [CString]: kernel/string.c and kernel/utils.c.

    A C string is the list of its bytes (values 1 to 255) before the
    terminating NUL; reading at its length gives the NUL.  [uint64] is
    [unsigned long], which has 32 bits with the kernel's [-m32]. *)
From Stdlib Require Import ZArith Lia.
From stdpp Require Import numbers strings gmap list sets.
From S2P Require Import Prelude MemLayout.
Open Scope Z_scope.

Definition cstr (s : list Z) : Prop := Forall (λ c, 0 < c < 256) s.

(** ** kernel/string.c *)

Fixpoint strcmp (a b : list Z) : Z :=
  match a, b with
  | x :: a', y :: b' => if x =? y then strcmp a' b' else x - y
  | x :: _, [] => x
  | [], y :: _ => - y
  | [], [] => 0
  end.

Fixpoint strncmp (a b : list Z) (n : nat) : Z :=
  match n with
  | O => 0
  | S n =>
      match a, b with
      | x :: a', y :: b' => if x =? y then strncmp a' b' n else x - y
      | x :: _, [] => x
      | [], y :: _ => - y
      | [], [] => 0
      end
  end.

(** The bytes that [strcpy] stores at [dst]. *)
Fixpoint strcpy (src : list Z) : list Z :=
  match src with [] => [0] | c :: src => c :: strcpy src end.

(** The [n] bytes that [strncpy] stores at [dst]: the copy loop, then the
    zero-fill loop. *)
Fixpoint strncpy (src : list Z) (n : nat) : list Z :=
  match n with
  | O => []
  | S n => match src with [] => 0 :: strncpy [] n | c :: src => c :: strncpy src n end
  end.

(** [strlen(NULL)] is [0]. *)
Fixpoint strlen_from (s : list Z) (n : Z) : Z :=
  match s with [] => n | _ :: s => strlen_from s (u32 (n + 1)) end.
Definition strlen (s : option (list Z)) : Z :=
  match s with None => 0 | Some s => strlen_from s 0 end.

(** ** Digits

    [do { buf[i++] = x % base; } while ((x /= base) > 0)], least significant
    digit first. *)
Fixpoint digit_loop (fuel : nat) (base x : Z) : list Z :=
  match fuel with
  | O => []
  | S fuel => x mod base :: (if x / base =? 0 then [] else digit_loop fuel base (x / base))
  end.

(** Enough for 32-bit values in any base from 2. *)
Definition DIGITS_FUEL : nat := 32.

(** The value of a least-significant-first digit list. *)
Fixpoint digit_value (base : Z) (l : list Z) : Z :=
  match l with [] => 0 | d :: l => d + base * digit_value base l end.

(** ** kernel/utils.c *)

Definition HUMAN_SIZE_MAX : Z := 24.

(** Appending under the guard [if (i + 1 >= buflen) return -1]. *)
Fixpoint put_all (l : list Z) (buflen : Z) (buf : list Z) : option (list Z) :=
  match l with
  | [] => Some buf
  | c :: l => if buflen <=? Z.of_nat (length buf) + 1 then None else put_all l buflen (buf ++ [c])
  end.

(** The unit that [bytes_to_human] picks: divisor and suffix. *)
Definition human_unit (bytes : Z) : Z * list Z :=
  if Z.shiftl 1 30 <=? bytes then (Z.shiftl 1 30, [71; 105; 66])       (* GiB *)
  else if Z.shiftl 1 20 <=? bytes then (Z.shiftl 1 20, [77; 105; 66])  (* MiB *)
  else if Z.shiftl 1 10 <=? bytes then (Z.shiftl 1 10, [75; 105; 66])  (* KiB *)
  else (1, [66]).                                                      (* B *)

(** The string stored in [buf] ([None] is the result [-1]). *)
Definition bytes_to_human (bytes buflen : Z) : option (list Z) :=
  if buflen <? 6 then None
  else
    let '(div, unit) := human_unit bytes in
    let tmp := (λ d, 48 + d) <$> digit_loop DIGITS_FUEL 10 (bytes / div) in
    buf ← put_all (reverse tmp) buflen [];
    buf ← put_all [32] buflen buf;
    put_all unit buflen buf.

(** The digits loop of [human_to_bytes], in 32-bit arithmetic. *)
Fixpoint parse_digits (s : list Z) (n : Z) : Z * list Z :=
  match s with
  | c :: s' => if (48 <=? c) && (c <=? 57) then parse_digits s' (u32 (n * 10 + (c - 48))) else (n, s)
  | [] => (n, [])
  end.

Definition skip_char (lo up : Z) (s : list Z) : list Z :=
  match s with c :: s' => if (c =? lo) || (c =? up) then s' else s | [] => [] end.

Definition human_to_bytes (s : option (list Z)) : option Z :=
  match s with
  | None => None
  | Some s =>
      let '(n, s) := parse_digits s 0 in
      match s with
      | [] => Some n
      | c :: s =>
          let c := if (65 <=? c) && (c <=? 90) then c + 32 else c in
          let sh := if c =? 103 then Some 30 else if c =? 109 then Some 20
                    else if c =? 107 then Some 10 else None in
          match sh with
          | None => None
          | Some sh =>
              let s := skip_char 98 66 (skip_char 105 73 s) in
              match s with [] => Some (u32 (Z.shiftl n sh)) | _ => None end
          end
      end
  end.

(** ** Comparison is lexicographic order *)

Lemma strcmp_eq a b : cstr a → cstr b → (strcmp a b = 0 ↔ a = b).
Proof.
  unfold cstr. revert b. induction a as [|x a IH]; intros [|y b] Ha Hb; simpl;
    try apply Forall_cons in Ha as [Hx Ha]; try apply Forall_cons in Hb as [Hy Hb].
  - done.
  - split; [lia|done].
  - split; [lia|done].
  - destruct (Z.eqb_spec x y) as [->|Hne]; [rewrite (IH b Ha Hb)|]; split; try congruence; lia.
Qed.

Lemma strcmp_antisym a b : strcmp b a = - strcmp a b.
Proof.
  revert b. induction a as [|x a IH]; intros [|y b]; simpl; try lia.
  rewrite (Z.eqb_sym y x). destruct (x =? y); [apply IH|lia].
Qed.

Lemma strncmp_take a b n : strncmp a b n = strcmp (take n a) (take n b).
Proof.
  revert a b. induction n as [|n IH]; intros [|x a] [|y b]; simpl; try done. by rewrite IH.
Qed.

Lemma strcmp_trans a b c :
  cstr a → cstr b → cstr c → strcmp a b < 0 → strcmp b c < 0 → strcmp a c < 0.
Proof.
  unfold cstr. revert b c. induction a as [|x a IH]; intros [|y b] [|z c] Ha Hb Hc; simpl; try lia;
    repeat match goal with H : Forall _ (_ :: _) |- _ => apply Forall_cons in H as [? ?] end; try lia.
  destruct (Z.eqb_spec x y), (Z.eqb_spec y z), (Z.eqb_spec x z); subst; try lia. eauto.
Qed.

Lemma strncpy_spec src n : strncpy src n = take n src ++ replicate (n - length src) 0.
Proof.
  revert src. induction n as [|n IH]; intros [|c src]; simpl; try done.
  - rewrite IH, take_nil. simpl. by rewrite Nat.sub_0_r.
  - by rewrite IH.
Qed.

Lemma strlen_spec s : Z.of_nat (length s) < 2 ^ 32 → strlen (Some s) = Z.of_nat (length s).
Proof.
  intros Hl. simpl. assert (∀ s n, 0 ≤ n → n + Z.of_nat (length s) < 2 ^ 32 →
    strlen_from s n = n + Z.of_nat (length s)) as Hgen; [|apply Hgen; lia].
  clear s Hl. induction s as [|c s IH]; intros n Hn Hl; simpl in *; [lia|].
  rewrite u32_small by lia. rewrite IH by lia. lia.
Qed.

(** ** Digits *)

Lemma digit_loop_value fuel base x :
  2 ≤ base → 0 ≤ x < base ^ Z.of_nat fuel → (1 ≤ fuel)%nat →
  digit_value base (digit_loop fuel base x) = x ∧
  Forall (λ d, 0 ≤ d < base) (digit_loop fuel base x).
Proof.
  intros Hb. revert x. induction fuel as [|fuel IH]; intros x Hx Hf; [lia|]. cbn [digit_loop].
  pose proof (Z_div_mod_eq_full x base). pose proof (Z.mod_pos_bound x base ltac:(lia)).
  destruct (Z.eqb_spec (x / base) 0) as [Hz|Hz].
  - simpl. split; [lia|by constructor].
  - assert (0 ≤ x / base < base ^ Z.of_nat fuel) as Hq.
    { split; [apply Z.div_pos; lia|]. apply Z.div_lt_upper_bound; [lia|].
      rewrite <- Z.pow_succ_r, <- Nat2Z.inj_succ by lia. lia. }
    destruct fuel as [|fuel]; [simpl in Hq; lia|].
    destruct (IH (x / base) Hq ltac:(lia)) as [Hv Hall]. split; [|by constructor].
    cbn [digit_value]. lia.
Qed.

Lemma digit_loop_length fuel base x k :
  2 ≤ base → 0 ≤ x < base ^ Z.of_nat k → (1 ≤ k)%nat →
  (length (digit_loop fuel base x) ≤ k)%nat.
Proof.
  intros Hb. revert x k. induction fuel as [|fuel IH]; intros x k Hx Hk; simpl; [lia|].
  destruct (Z.eqb_spec (x / base) 0) as [Hz|Hz]; simpl; [lia|].
  destruct k as [|k]; [lia|]. assert (0 ≤ x / base < base ^ Z.of_nat k) as Hq.
  { split; [apply Z.div_pos; lia|]. apply Z.div_lt_upper_bound; [lia|].
    rewrite <- Z.pow_succ_r, <- Nat2Z.inj_succ by lia. lia. }
  destruct k as [|k]; [simpl in Hq; lia|]. specialize (IH (x / base) (S k) Hq ltac:(lia)). lia.
Qed.

Lemma digit_loop_nonempty fuel base x :
  (1 ≤ fuel)%nat → (1 ≤ length (digit_loop fuel base x))%nat.
Proof. destruct fuel; simpl; lia. Qed.

Lemma digit_loop_32 base x :
  2 ≤ base → 0 ≤ x < 2 ^ 32 →
  digit_value base (digit_loop DIGITS_FUEL base x) = x ∧
  Forall (λ d, 0 ≤ d < base) (digit_loop DIGITS_FUEL base x).
Proof.
  intros Hb Hx. apply digit_loop_value; [done| |unfold DIGITS_FUEL; lia].
  split; [lia|]. eapply Z.lt_le_trans; [apply Hx|]. apply Z.pow_le_mono_l. lia.
Qed.

(** ** Sizes *)

Lemma put_all_ok l buflen : ∀ buf,
  Z.of_nat (length buf + length l) < buflen → put_all l buflen buf = Some (buf ++ l).
Proof.
  induction l as [|c l IH]; intros buf Hl; simpl in *; [by rewrite app_nil_r|].
  rewrite (proj2 (Z.leb_gt _ _)) by lia. rewrite IH by (rewrite length_app; simpl; lia).
  by rewrite <- app_assoc.
Qed.

Lemma put_all_bound l buflen : ∀ buf buf',
  Z.of_nat (length buf) < buflen → put_all l buflen buf = Some buf' → Z.of_nat (length buf') < buflen.
Proof.
  induction l as [|c l IH]; intros buf buf' Hb; simpl; [by intros [= <-]|].
  destruct (Z.leb_spec buflen (Z.of_nat (length buf) + 1)); [done|].
  intros Hp. eapply IH, Hp. rewrite length_app. simpl. lia.
Qed.

Lemma human_unit_cases bytes :
  0 ≤ bytes < 2 ^ 32 →
  let '(div, unit) := human_unit bytes in
  0 < div ∧ 0 ≤ bytes / div < 1024 ∧ (1 ≤ length unit ≤ 3)%nat.
Proof.
  intros Hb. unfold human_unit. change (Z.shiftl 1 30) with (1073741824).
  change (Z.shiftl 1 20) with 1048576. change (Z.shiftl 1 10) with 1024.
  repeat match goal with |- context [?a <=? bytes] => destruct (Z.leb_spec a bytes) end;
    (split_and!; [lia|apply Z.div_pos; lia|apply Z.div_lt_upper_bound; lia|simpl; lia..]).
Qed.

(** [bytes_to_human] never writes past its buffer, and with nine bytes or
    more it always succeeds: the number of whole units in decimal, a blank and
    the unit. *)
Theorem bytes_to_human_spec bytes buflen :
  0 ≤ bytes < 2 ^ 32 →
  (∀ buf, bytes_to_human bytes buflen = Some buf → Z.of_nat (length buf) < buflen) ∧
  (9 ≤ buflen → ∃ ds, let '(div, unit) := human_unit bytes in
     bytes_to_human bytes buflen = Some (((λ d, 48 + d) <$> reverse ds) ++ [32] ++ unit) ∧
     digit_value 10 ds = bytes / div ∧ Forall (λ d, 0 ≤ d < 10) ds).
Proof.
  intros Hb. pose proof (human_unit_cases bytes Hb) as Hu. unfold bytes_to_human.
  destruct (human_unit bytes) as [div unit]. destruct Hu as (Hdiv & Hq & Hun).
  destruct (digit_loop_32 10 (bytes / div)) as [Hv Hall]; [lia|lia|].
  pose proof (digit_loop_length DIGITS_FUEL 10 (bytes / div) 4 ltac:(lia) ltac:(lia) ltac:(lia)) as Hlen.
  set (ds := digit_loop DIGITS_FUEL 10 (bytes / div)) in *. clearbody ds. split.
  - destruct (Z.ltb_spec buflen 6); [done|]. intros buf.
    destruct (put_all (reverse _) buflen []) as [b1|] eqn:H1; [|done]. simpl.
    destruct (buflen <=? _) eqn:H2; [done|]. simpl. intros H3.
    eapply put_all_bound, H3. apply Z.leb_gt in H2. rewrite length_app. simpl. lia.
  - intros Hbl. exists ds. rewrite (proj2 (Z.ltb_ge _ _)) by lia.
    rewrite put_all_ok by (rewrite length_reverse, length_fmap; simpl; lia).
    cbn [mbind option_bind]. rewrite put_all_ok.
    2:{ rewrite app_nil_l, length_reverse, length_fmap. simpl. lia. }
    cbn [mbind option_bind]. rewrite put_all_ok.
    2:{ rewrite app_nil_l, length_app, length_reverse, length_fmap. simpl. lia. }
    split_and!; [|done..]. rewrite app_nil_l, <- app_assoc, fmap_reverse. done.
Qed.

Lemma bytes_to_human_spec_witness :
  ∃ ds, bytes_to_human 0x8100000 24 = Some (((λ d, 48 + d) <$> reverse ds) ++ [32; 77; 105; 66]) ∧
    digit_value 10 ds = 129.
Proof.
  destruct (bytes_to_human_spec 0x8100000 24) as [_ Hs]; [lia|].
  destruct (Hs ltac:(lia)) as (ds & Heq & Hv & _). exists ds. split; [exact Heq|exact Hv].
Defined.

(** [uint64] has 32 bits: the [4G] of the header comment parses to 0. *)
Lemma human_to_bytes_4G : human_to_bytes (Some [52; 71]) = Some 0.
Proof. reflexivity. Qed.

(** [strcmp] is a total order on C strings: zero exactly on equal strings,
    antisymmetric and transitive; [strncmp] is [strcmp] of the prefixes. *)
Theorem strcmp_order a b c n :
  cstr a → cstr b → cstr c →
  (strcmp a b = 0 ↔ a = b) ∧ strcmp b a = - strcmp a b ∧
  (strcmp a b < 0 → strcmp b c < 0 → strcmp a c < 0) ∧
  strncmp a b n = strcmp (take n a) (take n b).
Proof.
  intros Ha Hb Hc. split_and!; [by apply strcmp_eq|apply strcmp_antisym|by apply strcmp_trans|
    apply strncmp_take].
Qed.

Lemma strcmp_order_witness : strcmp [97] [98] = 0 ↔ [97] = [98].
Proof.
  apply (strcmp_order [97] [98] [99] 1); (constructor; [lia|constructor]).
Defined.
