(* ===== verification/Printf.v ===== *)
(** [Printf]: the formatted output of kernel/printf.c.

    The callback [put] only appends to its sink, so [vprintf_to] is modelled by
    the list of characters it puts; [snprintf]'s sink is then folded over that
    list.  [int], [long] and pointers are 32-bit words on this machine; a
    variadic argument is a word or a string, and taking one of the wrong kind or
    one too many is [Wild]. *)
From Stdlib Require Import ZArith Lia.
From stdpp Require Import numbers strings gmap list sets.
From S2P Require Import Prelude MemLayout CString.
Open Scope Z_scope.

Inductive vararg := VWord (x : Z) | VStr (s : option (list Z)).

Definition va_word (ap : list vararg) : outcome (Z * list vararg) :=
  match ap with VWord x :: ap => mret (x, ap) | _ => Wild end.
Definition va_str (ap : list vararg) : outcome (option (list Z) * list vararg) :=
  match ap with VStr s :: ap => mret (s, ap) | _ => Wild end.

(** [digits[d]] of "0123456789abcdef" *)
Definition digit_char (d : Z) : Z := if d <? 10 then 48 + d else 97 + (d - 10).

(** [while (width > len) { put(pad); width--; }] *)
Definition pad_to (width len pad : Z) : list Z := replicate (Z.to_nat (width - len)) pad.

(** [printint_to], and [printlongint_to] whose [long] has the same width. *)
Definition printint_to (xx base : Z) (sign : bool) (width : Z) (zeropad : bool) : list Z :=
  let neg := sign && (xx <? 0) in
  let x := if neg then u32 (u32 (- (xx + 1)) + 1) else u32 xx in
  let buf := digit_char <$> digit_loop DIGITS_FUEL base x in
  let len := Z.of_nat (length buf) + (if neg then 1 else 0) in
  (if zeropad
   then (if neg then [45] else []) ++ pad_to width len 48
   else pad_to width len 32 ++ (if neg then [45] else []))
  ++ reverse buf.

Definition printlongint_to := printint_to.

(** [for (i = 0; i < 8; i++, x <<= 4) put(digits[x >> 28])] *)
Fixpoint ptr_loop (n : nat) (x : Z) : list Z :=
  match n with
  | O => []
  | S n => digit_char (Z.shiftr x 28) :: ptr_loop n (u32 (Z.shiftl x 4))
  end.

Definition printptr_to (x : Z) : list Z := [48; 120] ++ ptr_loop 8 x.

(** The width loop: width, conversion character and the rest of the format;
    [None] when the format ends first. *)
Fixpoint parse_width (width : Z) (fmt : list Z) : option (Z * Z * list Z) :=
  match fmt with
  | [] => None
  | c :: fmt =>
      if (48 <=? c) && (c <=? 57) then parse_width (width * 10 + (c - 48)) fmt
      else Some (width, c, fmt)
  end.

(** From the character after a percent sign. *)
Definition parse_spec (fmt : list Z) : option (bool * (Z * Z * list Z)) :=
  match fmt with
  | [] => None
  | c :: fmt' =>
      if c =? 48 then r ← parse_width 0 fmt'; Some (true, r)
      else r ← parse_width 0 fmt; Some (false, r)
  end.

Definition null_text : list Z := [40; 110; 117; 108; 108; 41].

(** One conversion: its output, what is left of the arguments and of the
    format. *)
Definition convert (zeropad : bool) (width c : Z) (fmt : list Z) (ap : list vararg)
    : outcome (list Z * list vararg * list Z) :=
  if c =? 99 (* c *) then
    '(x, ap) ← va_word ap; mret (pad_to width 1 32 ++ [x mod 256], ap, fmt)
  else if c =? 111 (* o *) then
    '(x, ap) ← va_word ap; mret (printint_to x 8 true width zeropad, ap, fmt)
  else if (c =? 100) || (c =? 105) (* d, i *) then
    '(x, ap) ← va_word ap; mret (printint_to x 10 true width zeropad, ap, fmt)
  else if c =? 117 (* u *) then
    '(x, ap) ← va_word ap; mret (printint_to x 10 false width zeropad, ap, fmt)
  else if c =? 120 (* x *) then
    '(x, ap) ← va_word ap; mret (printint_to x 16 false width zeropad, ap, fmt)
  else if c =? 108 (* l *) then
    match fmt with
    | c2 :: fmt' =>
        if c2 =? 100 then
          '(x, ap) ← va_word ap; mret (printlongint_to x 10 true width zeropad, ap, fmt')
        else if c2 =? 120 then
          '(x, ap) ← va_word ap; mret (printlongint_to x 16 true width zeropad, ap, fmt')
        else mret ([c], ap, fmt)
    | [] => mret ([c], ap, fmt)
    end
  else if c =? 112 (* p *) then
    '(x, ap) ← va_word ap; mret (printptr_to (u32 x), ap, fmt)
  else if c =? 115 (* s *) then
    '(s, ap) ← va_str ap;
    let s := default null_text s in
    mret (pad_to width (Z.of_nat (length s)) 32 ++ s, ap, fmt)
  else if c =? 37 (* percent *) then mret ([37], ap, fmt)
  else mret ([37; c], ap, fmt).

Fixpoint vprintf_loop (fuel : nat) (fmt : list Z) (ap : list vararg) : outcome (list Z) :=
  match fuel with
  | O => NoFuel
  | S fuel =>
      match fmt with
      | [] => mret []
      | c :: fmt =>
          if negb (c =? 37) then out ← vprintf_loop fuel fmt ap; mret (c :: out)
          else
            match parse_spec fmt with
            | None => mret []
            | Some (zeropad, (width, c, fmt)) =>
                '(o, ap, fmt) ← convert zeropad width c fmt ap;
                out ← vprintf_loop fuel fmt ap;
                mret (o ++ out)
            end
      end
  end.

Definition vprintf_to (fmt : option (list Z)) (ap : list vararg) : outcome (list Z) :=
  match fmt with
  | None => Panic "null fmt"
  | Some fmt => vprintf_loop (S (length fmt)) fmt ap
  end.

(** [struct snbuf]; a null [buf] is [None]. *)
Record snbuf := Snbuf { sn_buf : option (gmap Z Z); sn_size : Z; sn_len : Z }.

Definition sn_putc (b : snbuf) (c : Z) : snbuf :=
  Snbuf (match sn_buf b with
         | Some m => Some (if (0 <? sn_size b) && (u32 (sn_len b + 1) <? sn_size b)
                           then <[sn_len b := c]> m else m)
         | None => None
         end)
        (sn_size b) (u32 (sn_len b + 1)).

Definition vsnprintf (buf : option (gmap Z Z)) (size : Z) (fmt : option (list Z)) (ap : list vararg)
    : outcome (option (gmap Z Z) * Z) :=
  out ← vprintf_to fmt ap;
  let b := foldl sn_putc (Snbuf buf size 0) out in
  mret (match sn_buf b with
        | Some m => Some (if 0 <? size then <[(if sn_len b <? size then sn_len b else size - 1) := 0]> m else m)
        | None => None
        end, s32 (sn_len b)).

Definition vsprintf (buf : option (gmap Z Z)) (fmt : option (list Z)) (ap : list vararg) :=
  vsnprintf buf (u32 (-1)) fmt ap.

Definition LOGLEVEL_INFO : Z := 6.

(** [printk_get_level]: the level and the format without its prefix. *)
Definition printk_get_level (fmt : list Z) : Z * list Z :=
  match fmt with
  | 60 :: d :: 62 :: rest => if (48 <=? d) && (d <=? 55) then (d - 48, rest) else (LOGLEVEL_INFO, fmt)
  | _ => (LOGLEVEL_INFO, fmt)
  end.

(** What [printk] sends to the console. *)
Definition printk (console_loglevel : Z) (fmt : option (list Z)) (ap : list vararg) : outcome (list Z) :=
  match fmt with
  | None => mret []
  | Some fmt =>
      let '(level, fmt) := printk_get_level fmt in
      if console_loglevel <? level then mret [] else vprintf_to (Some fmt) ap
  end.

(** ** Integers are printed exactly *)

(** The value of a printed numeral. *)
Definition numeral_digit (c : Z) : Z := if c <? 58 then c - 48 else c - 97 + 10.
Definition numeral (base : Z) (l : list Z) : Z := digit_value base (numeral_digit <$> reverse l).

Lemma digit_char_inv d : 0 ≤ d < 16 → numeral_digit (digit_char d) = d.
Proof.
  intros Hd. unfold numeral_digit, digit_char.
  destruct (Z.ltb_spec d 10).
  - rewrite (proj2 (Z.ltb_lt _ _)); lia.
  - rewrite (proj2 (Z.ltb_ge _ _)); lia.
Qed.

Lemma digit_chars_inv base l :
  base ≤ 16 → Forall (λ d, 0 ≤ d < base) l → numeral_digit <$> (digit_char <$> l) = l.
Proof.
  intros Hb Hl. induction Hl as [|d l Hd Hl IH]; [done|]. csimpl. rewrite IH, digit_char_inv by lia. done.
Qed.

(** The magnitude that [printint_to] converts. *)
Lemma printint_magnitude xx sign :
  - 2 ^ 31 ≤ xx < 2 ^ 31 →
  (if sign && (xx <? 0) then u32 (u32 (- (xx + 1)) + 1) else u32 xx) =
  if sign then Z.abs xx else u32 xx.
Proof.
  intros Hx. destruct sign; simpl; [|done]. destruct (Z.ltb_spec xx 0).
  - rewrite (u32_small (- (xx + 1))) by lia. rewrite u32_small; lia.
  - rewrite u32_small; lia.
Qed.

(** an integer conversion prints the exact value: an optional minus sign
    for a negative signed value, padding up to the width, and a numeral whose
    value in the base is the magnitude, including [INT_MIN]; the digits fit the
    16-byte scratch buffer for the bases in use. *)
Theorem printint_exact xx base sign width zeropad :
  - 2 ^ 31 ≤ xx < 2 ^ 31 → 8 ≤ base ≤ 16 → 0 ≤ width →
  ∃ sg p ds, printint_to xx base sign width zeropad =
    (if zeropad then sg ++ replicate p 48 else replicate p 32 ++ sg) ++ ds ∧
    sg = (if sign && (xx <? 0) then [45] else []) ∧
    numeral base ds = (if sign then Z.abs xx else u32 xx) ∧
    (1 ≤ length ds ≤ 11)%nat ∧
    Z.of_nat (length (printint_to xx base sign width zeropad)) =
      Z.max width (Z.of_nat (length sg + length ds)).
Proof.
  intros Hx Hb Hw. unfold printint_to. rewrite printint_magnitude by done.
  set (m := if sign then Z.abs xx else u32 xx).
  assert (0 ≤ m < 2 ^ 32) as Hm.
  { unfold m. destruct sign; [lia|apply u32_range]. }
  destruct (digit_loop_32 base m ltac:(lia) Hm) as [Hv Hall].
  assert (length (digit_loop DIGITS_FUEL base m) ≤ 11)%nat as Hlen.
  { apply (digit_loop_length _ base m 11); [lia| |lia]. split; [lia|].
    eapply Z.lt_le_trans; [apply Hm|]. transitivity (8 ^ 11); [done|].
    change (Z.of_nat 11) with 11. apply Z.pow_le_mono_l. lia. }
  pose proof (digit_loop_nonempty DIGITS_FUEL base m ltac:(unfold DIGITS_FUEL; lia)) as Hpos.
  set (dl := digit_loop DIGITS_FUEL base m) in *. clearbody dl.
  exists (if sign && (xx <? 0) then [45] else []).
  exists (Z.to_nat (width - (Z.of_nat (length (digit_char <$> dl)) + (if sign && (xx <? 0) then 1 else 0)))).
  exists (reverse (digit_char <$> dl)).
  split; [unfold pad_to; by destruct zeropad, (sign && (xx <? 0))|]. split; [done|]. split_and!.
  - unfold numeral. rewrite reverse_involutive, (digit_chars_inv base) by (lia || done). done.
  - rewrite length_reverse, length_fmap. lia.
  - rewrite length_reverse, length_fmap. lia.
  - unfold pad_to. rewrite !length_app, length_reverse, length_fmap.
    destruct zeropad, (sign && (xx <? 0)); rewrite ?length_app, ?length_replicate; simpl; lia.
Qed.

Lemma printint_exact_witness :
  ∃ ds, printint_to (- 2 ^ 31) 10 true 0 false = [45] ++ ds ∧ numeral 10 ds = 2 ^ 31.
Proof.
  destruct (printint_exact (- 2 ^ 31) 10 true 0 false) as (sg & p & ds & Heq & Hsg & Hn & _ & Hl);
    [lia..|].
  destruct p as [|p].
  - exists ds. simpl in Hsg. subst sg. split; [exact Heq|exact Hn].
  - exfalso. rewrite Heq, length_app in Hl. simpl in Hl. rewrite length_app, length_replicate in Hl. lia.
Defined.

(** ** The format loop *)

Lemma parse_width_shorter fmt : ∀ w w' c fmt',
  parse_width w fmt = Some (w', c, fmt') → (length fmt' < length fmt)%nat.
Proof.
  induction fmt as [|x fmt IH]; intros w w' c fmt'; simpl; [done|].
  destruct (_ && _); [intros ?%IH; lia|]. intros [= _ _ <-]. lia.
Qed.

Lemma parse_spec_shorter fmt z w c fmt' :
  parse_spec fmt = Some (z, (w, c, fmt')) → (length fmt' < length fmt)%nat.
Proof.
  destruct fmt as [|x fmt]; simpl; [done|]. destruct (x =? 48).
  - destruct (parse_width 0 fmt) as [[[? ?] ?]|] eqn:Hp; [|done]. intros [= _ _ _ <-].
    apply parse_width_shorter in Hp. lia.
  - destruct (if _ : bool then _ else _) as [[[? ?] ?]|] eqn:Hp; [|done]. intros [= _ _ _ <-].
    change (parse_width 0 (x :: fmt) = Some (z0, z1, l)) in Hp.
    apply parse_width_shorter in Hp. simpl in Hp. lia.
Qed.

Lemma convert_shorter z w c fmt ap o ap' fmt' :
  convert z w c fmt ap = Done (o, ap', fmt') → (length fmt' ≤ length fmt)%nat.
Proof.
  unfold convert, va_word, va_str.
  repeat match goal with
  | |- context [if ?b then _ else _] => destruct b
  | |- context [match fmt with _ => _ end] => destruct fmt; simpl
  | |- context [match ap with _ => _ end] => destruct ap as [|[|] ap]; simpl
  end; intros [=]; subst; simpl; lia.
Qed.

Lemma convert_fuel z w c fmt ap : convert z w c fmt ap ≠ NoFuel.
Proof.
  unfold convert, va_word, va_str.
  repeat match goal with
  | |- context [if ?b then _ else _] => destruct b
  | |- context [match fmt with _ => _ end] => destruct fmt; simpl
  | |- context [match ap with _ => _ end] => destruct ap as [|[|] ap]; simpl
  end; done.
Qed.

(** The loop of [vprintf_to] terminates on every format. *)
Lemma vprintf_loop_fuel fuel : ∀ fmt ap, (length fmt < fuel)%nat → vprintf_loop fuel fmt ap ≠ NoFuel.
Proof.
  induction fuel as [|fuel IH]; intros fmt ap Hf; [lia|]. destruct fmt as [|c fmt]; simpl in *; [done|].
  destruct (c =? 37); simpl.
  - destruct (parse_spec fmt) as [[z [[w c'] fmt']]|] eqn:Hp; [|done].
    apply parse_spec_shorter in Hp.
    pose proof (convert_fuel z w c' fmt' ap). pose proof (convert_shorter z w c' fmt' ap) as Hs.
    destruct (convert z w c' fmt' ap) as [[[o ap'] fmt'']| | |]; try done. simpl.
    specialize (Hs _ _ _ eq_refl). specialize (IH fmt'' ap' ltac:(lia)).
    destruct (vprintf_loop fuel fmt'' ap'); done.
  - specialize (IH fmt ap ltac:(lia)). destruct (vprintf_loop fuel fmt ap); done.
Qed.

(** ** The bounded buffer *)

Lemma sn_fold out : ∀ m size len,
  0 ≤ len → len + Z.of_nat (length out) < 2 ^ 32 - 1 →
  let b := foldl sn_putc (Snbuf (Some m) size len) out in
  ∃ m', sn_buf b = Some m' ∧ sn_len b = len + Z.of_nat (length out) ∧
    ∀ i, m' !! i =
      match (if (len <=? i) && (i <? size - 1) then out !! Z.to_nat (i - len) else None) with
      | Some c => Some c
      | None => m !! i
      end.
Proof.
  induction out as [|c out IH]; intros m size len Hl Hb; simpl in *.
  { exists m. split_and!; [done|lia|]. intros i. by destruct (_ && _). }
  assert (sn_putc (Snbuf (Some m) size len) c =
    Snbuf (Some (if (0 <? size) && (len + 1 <? size) then <[len := c]> m else m)) size (len + 1)) as ->.
  { unfold sn_putc. simpl. by rewrite u32_small by lia. }
  destruct (IH (if (0 <? size) && (len + 1 <? size) then <[len := c]> m else m) size (len + 1))
    as (m' & H1 & H2 & H3); [lia..|].
  exists m'. split_and!; [done|lia|]. intros i. rewrite H3.
  destruct (Z.leb_spec len i), (Z.leb_spec (len + 1) i), (Z.ltb_spec i (size - 1)); simpl; try lia.
  - replace (Z.to_nat (i - len)) with (S (Z.to_nat (i - (len + 1)))) by lia. simpl.
    destruct (out !! _); [done|]. destruct (_ && _); [|done]. by rewrite lookup_insert_ne by lia.
  - destruct (_ && _); [|done]. by rewrite lookup_insert_ne by lia.
  - assert (i = len) as -> by lia. rewrite Z.sub_diag. simpl.
    rewrite (proj2 (Z.ltb_lt 0 size)), (proj2 (Z.ltb_lt (len + 1) size)) by lia. simpl.
    by rewrite lookup_insert_eq.
  - assert (i = len) as -> by lia. rewrite (proj2 (Z.ltb_ge (len + 1) size)) by lia.
    by rewrite andb_false_r.
  - destruct (_ && _); [|done]. by rewrite lookup_insert_ne by lia.
  - destruct (_ && _); [|done]. by rewrite lookup_insert_ne by lia.
Qed.


