(* ===== verification/Vm.v ===== *)
(** [Vm]: the two-level page tables of kernel/mm/vm.c.

    A [pagetable_t] is the kernel address of a page of 32-bit entries in the
    memory [ram] of the page allocator state; all functions are transformers of
    that state.  CR3 writes (TLB flushes) have no effect on the model and are
    dropped, as is [printf].  A null [pagetable_t] or pointer is [0]. *)
From Stdlib Require Import ZArith Lia.
From stdpp Require Import numbers strings gmap list sets.
From S2P Require Import Prelude MemLayout Buddy.
Open Scope Z_scope.

(** ** kernel/mm/mmu.h *)
Definition PDX (va : Z) : Z := Z.land (Z.shiftr va 22) 0x3ff.
Definition PTX (va : Z) : Z := Z.land (Z.shiftr va 12) 0x3ff.
Definition PTE_ADDR (pte : Z) : Z := Z.land pte 0xfffff000.
Definition PA2PTE (pa : Z) : Z := Z.land pa 0xfffff000.
Definition PTE_P : Z := 0x001.
Definition PTE_W : Z := 0x002.
Definition PTE_U : Z := 0x004.
Definition PTE_COW : Z := 0x200.
Definition USERBASE : Z := 0.
Definition MAX_KERNEL_PT : Z := 1024.

(** [pte & flag] as a condition. *)
Definition has (pte flag : Z) : bool := negb (Z.land pte flag =? 0).

Definition rd (s : pmm) (a : Z) : Z := load32 (ram s) a.
Definition wr (a v : Z) (s : pmm) : pmm := with_ram (store32 (ram s) a v) s.

Definition pde_pt_kva (pde : Z) : Z := P2V (PTE_ADDR pde).
Definition pte_page_kva (pte : Z) : Z := P2V (PTE_ADDR pte).

(** The address of the entry for [va]; [0] when there is none. *)
Definition walk (pgdir va : Z) (alloc user : bool) (s : pmm) : outcome (Z * pmm) :=
  let pde_a := pgdir + 4 * PDX va in
  let pde := rd s pde_a in
  if has pde PTE_P then mret (pde_pt_kva pde + 4 * PTX va, s)
  else if negb alloc then mret (0, s)
  else
    '(r, s) ← alloc_page s;
    match r with
    | None => mret (0, s)
    | Some pt =>
        let v := Z.lor (Z.lor (PA2PTE (V2P pt)) PTE_P) PTE_W in
        let v := if user then Z.lor v PTE_U else v in
        mret (pt + 4 * PTX va, wr pde_a v s)
    end.

(** The mapping loop of [mappages]. *)
Fixpoint map_loop (fuel : nat) (pgdir a last pa perm : Z) (user : bool) (s : pmm) : outcome (Z * pmm) :=
  match fuel with
  | O => NoFuel
  | S fuel =>
      '(pte, s) ← walk pgdir a true user s;
      if pte =? 0 then mret (-1, s)
      else if has (rd s pte) PTE_P then mret (-1, s)
      else
        let s := wr pte (Z.lor (Z.lor (PA2PTE pa) perm) PTE_P) s in
        if a =? last then mret (0, s)
        else map_loop fuel pgdir (u32 (a + PGSIZE)) last (u32 (pa + PGSIZE)) perm user s
  end.

Definition mappages (pgdir va size pa perm : Z) (user : bool) (s : pmm) : outcome (Z * pmm) :=
  if negb (va mod PGSIZE =? 0) || negb (pa mod PGSIZE =? 0) then mret (-1, s)
  else if (size =? 0) || negb (size mod PGSIZE =? 0) then mret (-1, s)
  else map_loop (Z.to_nat (size / PGSIZE)) pgdir va (u32 (va + size - PGSIZE)) pa perm user s.

(** The loop of [unmappages]: [for (a = va; a < end; a += PGSIZE)]. *)
Fixpoint unmap_loop (fuel : nat) (pgdir a end_ : Z) (do_free allow_missing : bool) (s : pmm)
    : outcome (Z * pmm) :=
  match fuel with
  | O => NoFuel
  | S fuel =>
      if a <? end_ then
        '(pte, s) ← walk pgdir a false false s;
        if (pte =? 0) || negb (has (rd s pte) PTE_P) then
          if allow_missing then unmap_loop fuel pgdir (u32 (a + PGSIZE)) end_ do_free allow_missing s
          else mret (-1, s)
        else
          s ← (if do_free then put_page (pte_page_kva (rd s pte)) s else mret s);
          unmap_loop fuel pgdir (u32 (a + PGSIZE)) end_ do_free allow_missing (wr pte 0 s)
      else mret (0, s)
  end.

Definition unmappages (pgdir va npages : Z) (do_free allow_missing : bool) (s : pmm) : outcome (Z * pmm) :=
  if (pgdir =? 0) || negb (va mod PGSIZE =? 0) || (npages =? 0) then mret (-1, s)
  else unmap_loop (S (Z.to_nat npages)) pgdir va (u32 (va + u32 (npages * PGSIZE))) do_free allow_missing s.

Definition kvmmap (kernel_pgdir va pa size perm : Z) (s : pmm) : outcome pmm :=
  '(r, s) ← mappages kernel_pgdir va size pa perm false s;
  if r <? 0 then Panic "kvmmap" else mret s.

Definition kvmunmap (kernel_pgdir va size : Z) (s : pmm) : outcome pmm :=
  if negb (va mod PGSIZE =? 0) || (size =? 0) || negb (size mod PGSIZE =? 0) then Panic "kvmunmap"
  else
    '(r, s) ← unmappages kernel_pgdir va (size / PGSIZE) false false s;
    if r <? 0 then Panic "kvmunmap" else mret s.

Definition uvmmap (pgdir va pa size perm : Z) (s : pmm) : outcome (Z * pmm) :=
  if pgdir =? 0 then mret (-1, s)
  else mappages pgdir va size pa (Z.lor perm PTE_U) true s.

Definition uvmunmap (pgdir va npages : Z) (do_free : bool) (s : pmm) : outcome (Z * pmm) :=
  '(r, s) ← unmappages pgdir va npages do_free true s;
  if r <? 0 then mret (-1, s) else mret (0, s).

Definition copy_pde (kernel_pgdir pgdir : Z) (s : pmm) (i : Z) : pmm :=
  let e := rd s (kernel_pgdir + 4 * i) in
  if has e PTE_P then wr (pgdir + 4 * i) e s else s.

(** [for (i = PDX(KERNBASE); i < MAX_KERNEL_PT; i++)] *)
Definition copy_kernel_pdes (kernel_pgdir pgdir : Z) (s : pmm) : pmm :=
  foldl (copy_pde kernel_pgdir pgdir) s (seqZ (PDX KERNBASE) (MAX_KERNEL_PT - PDX KERNBASE)).

Definition uvmcreate (kernel_pgdir : Z) (s : pmm) : outcome (Z * pmm) :=
  '(r, s) ← alloc_page s;
  match r with
  | None => mret (0, s)
  | Some pgdir =>
      let s := with_ram (memset (ram s) pgdir 0 (Z.to_nat PGSIZE)) s in
      mret (pgdir, copy_kernel_pdes kernel_pgdir pgdir s)
  end.

Definition uvmcopy_kernel (kernel_pgdir pgdir : Z) (s : pmm) : pmm :=
  if pgdir =? 0 then s else copy_kernel_pdes kernel_pgdir pgdir s.

(** One entry of [uvmcopy]'s inner loop. *)
Definition uvmcopy_entry (new oldpt sz i j : Z) (s : pmm) : outcome (ctl * pmm) :=
  let va := Z.lor (u32 (Z.shiftl i 22)) (Z.shiftl j 12) in
  if sz <=? va then mret (Stop, s)
  else
    let pte := oldpt + 4 * j in
    let e := rd s pte in
    if negb (has e PTE_P) then mret (Next, s)
    else
      let pa := PTE_ADDR e in
      s ← get_page (P2V pa) s;
      let cow := has e PTE_W || has e PTE_COW in
      let s := if cow then wr pte (Z.land (Z.lor e PTE_COW) (u32 (Z.lnot PTE_W))) s else s in
      let perm := if cow then Z.lor (Z.lor PTE_U PTE_P) PTE_COW else Z.lor PTE_U PTE_P in
      '(r, s) ← uvmmap new va pa PGSIZE perm s;
      if r <? 0 then s ← put_page (P2V pa) s; mret (Ret (-1), s)
      else mret (Next, s).

(** One round of its outer loop: a page directory entry. *)
Definition uvmcopy_pde (old new sz i : Z) (s : pmm) : outcome (ctl * pmm) :=
  let pde := rd s (old + 4 * i) in
  if negb (has pde PTE_P) || negb (has pde PTE_U) then mret (Next, s)
  else
    '(r, s) ← for_each (seqZ 0 1024) (uvmcopy_entry new (pde_pt_kva pde) sz i) s;
    mret (match r with Some v => Ret v | None => Next end, s).

Definition uvmcopy (old new sz : Z) (s : pmm) : outcome (Z * pmm) :=
  if (old =? 0) || (new =? 0) || (sz =? 0) then mret (-1, s)
  else
    let sz := if USEREND <? sz then USEREND else sz in
    if sz <=? USERBASE then mret (0, s)
    else
      '(r, s) ← for_each (seqZ (PDX USERBASE) (PDX (sz - 1) + 1 - PDX USERBASE)) (uvmcopy_pde old new sz) s;
      mret (default 0 r, s).

Definition uvm_cow_fault (pgdir va : Z) (s : pmm) : outcome (Z * pmm) :=
  let va := PGROUNDDOWN va in
  if (pgdir =? 0) || (va <? USERBASE) || (USEREND <=? va) then mret (-1, s)
  else
    '(pte, s) ← walk pgdir va false false s;
    if (pte =? 0) || negb (has (rd s pte) PTE_P) || negb (has (rd s pte) PTE_COW) then mret (-1, s)
    else
      let pa := PTE_ADDR (rd s pte) in
      n ← page_refcount (P2V pa) s;
      if n =? 1 then
        mret (0, wr pte (Z.land (Z.lor (rd s pte) PTE_W) (u32 (Z.lnot PTE_COW))) s)
      else
        '(r, s) ← alloc_page s;
        match r with
        | None => mret (-1, s)
        | Some mem =>
            let s := with_ram (memcpy (ram s) mem (P2V pa) (Z.to_nat PGSIZE)) s in
            s ← put_page (P2V pa) s;
            mret (0, wr pte (Z.lor (Z.lor (Z.lor (PA2PTE (V2P mem)) PTE_P) PTE_U) PTE_W) s)
        end.

Definition uvmdealloc (pgdir oldsz newsz : Z) (s : pmm) : outcome (Z * pmm) :=
  if pgdir =? 0 then mret (0, s)
  else if oldsz <=? newsz then mret (oldsz, s)
  else if PGROUNDUP newsz <? PGROUNDUP oldsz then
    let npages := (PGROUNDUP oldsz - PGROUNDUP newsz) / PGSIZE in
    '(r, s) ← uvmunmap pgdir (PGROUNDUP newsz) npages true s;
    if r <? 0 then mret (0, s) else mret (newsz, s)
  else mret (newsz, s).

Definition uvmalloc (pgdir oldsz newsz : Z) : Z :=
  if (pgdir =? 0) || (newsz <? oldsz) then 0
  else if USERHEAP_TOP <? newsz then 0 else newsz.

Definition walkaddr (pgdir va : Z) (s : pmm) : outcome Z :=
  if pgdir =? 0 then mret 0
  else
    '(pte, s) ← walk pgdir va false false s;
    if (pte =? 0) || negb (has (rd s pte) PTE_P) || negb (has (rd s pte) PTE_U) then mret 0
    else mret (Z.lor (P2V (PTE_ADDR (rd s pte))) (Z.land va (PGSIZE - 1))).

(** Storing the bytes [src] from address [a] up. *)
Fixpoint store_bytes (m : gmap Z Z) (a : Z) (src : list Z) : gmap Z Z :=
  match src with [] => m | b :: src => store_bytes (mstore m a (b mod 256)) (a + 1) src end.
Fixpoint load_bytes (m : gmap Z Z) (a : Z) (n : nat) : list Z :=
  match n with O => [] | S n => mload m a :: load_bytes m (a + 1) n end.

(** [uvminit]: the bytes [src] (null is [None]) in one fresh read-only page. *)
Definition uvminit (pgdir va : Z) (src : option (list Z)) (s : pmm) : outcome (Z * pmm) :=
  match src with
  | None => mret (-1, s)
  | Some src =>
      if (pgdir =? 0) || (PGSIZE <=? Z.of_nat (length src)) then mret (-1, s)
      else
        '(r, s) ← alloc_page s;
        match r with
        | None => mret (-1, s)
        | Some mem =>
            let s := with_ram (store_bytes (memset (ram s) mem 0 (Z.to_nat PGSIZE)) mem src) s in
            '(r, s) ← uvmmap pgdir va (V2P mem) PGSIZE PTE_P s;
            if r <? 0 then s ← free_page mem s; mret (-1, s) else mret (0, s)
        end
  end.
