(* ===== verification/PageTable.v ===== *)
(** [PageTable]: the abstract view of a user address space and the lemmas that
    connect it with the page-table walks of kernel/mm/vm.c.

    [uspace s U D T M O] says that page [D] of the pool is a page directory
    whose page tables are the pages [T] (directory index to page) and whose
    present user entries are exactly [M] (virtual page number to entry).  [U]
    are the allocated blocks of the pool and [O] counts, per page, the
    references that others hold on it: mappings of other address spaces,
    shared-memory segments, or the caller itself. *)
From Stdlib Require Import ZArith Lia.
From stdpp Require Import numbers strings gmap list sets.
From S2P Require Import Prelude ListHead MemLayout Buddy BuddyInv BuddySpec PageAlloc Vm.
Open Scope Z_scope.

(** [lia] with the layout constants in the open. *)
Ltac page_lia := unfold PGSIZE, KERNBASE, PHYSMEM_TOP_MAX, USEREND, KERNBASE in *; lia.

(** ** Entries as bit fields *)

Lemma u32_lor a b : u32 (Z.lor a b) = Z.lor (u32 a) (u32 b).
Proof. unfold u32. rewrite <- !Z.land_ones by lia. apply Z.land_lor_distr_l. Qed.

Lemma lor_range a b : 0 ≤ a < 2 ^ 32 → 0 ≤ b < 2 ^ 32 → 0 ≤ Z.lor a b < 2 ^ 32.
Proof.
  intros Ha Hb. rewrite <- (u32_small a), <- (u32_small b), <- u32_lor by done. apply u32_range.
Qed.

Lemma land_range a b : 0 ≤ a < 2 ^ 32 → 0 ≤ Z.land a b < 2 ^ 32.
Proof.
  intros Ha. assert (Z.land a b = u32 (Z.land a b)) as ->; [|apply u32_range].
  unfold u32. rewrite <- Z.land_ones by lia. rewrite <- Z.land_assoc, (Z.land_comm b), Z.land_assoc.
  rewrite (Z.land_ones a) by lia. by rewrite Z.mod_small.
Qed.

Lemma has_lor a b fl : has (Z.lor a b) fl = has a fl || has b fl.
Proof.
  unfold has. rewrite Z.land_lor_distr_l.
  destruct (Z.eqb_spec (Z.land a fl) 0) as [->|Ha]; simpl; [done|].
  destruct (Z.eqb_spec (Z.lor (Z.land a fl) (Z.land b fl)) 0) as [[? _]%Z.lor_eq_0_iff|]; [|done].
  done.
Qed.

Lemma has_land a m fl : has (Z.land a m) fl = has a (Z.land m fl).
Proof. unfold has. by rewrite Z.land_assoc. Qed.

Lemma has_aligned a fl : (PGSIZE | a) → 0 ≤ fl < PGSIZE → has a fl = false.
Proof.
  intros [q ->] Hfl. unfold has. apply negb_false_iff, Z.eqb_eq.
  apply Z.bits_inj'. intros n Hn. rewrite Z.land_spec, Z.bits_0.
  change PGSIZE with (2 ^ 12) in *. destruct (decide (n < 12)).
  - rewrite Z.mul_pow2_bits_low by lia. done.
  - rewrite (Z.bits_above_log2 fl), andb_false_r; [done|lia|].
    destruct (decide (fl = 0)) as [->|]; [simpl; lia|]. apply Z.log2_lt_pow2; [lia|].
    apply Z.lt_le_trans with (2 ^ 12); [lia|]. apply Z.pow_le_mono_r; lia.
Qed.

Lemma PTE_ADDR_val x : 0 ≤ x < 2 ^ 32 → PTE_ADDR x = x - x mod PGSIZE.
Proof.
  intros Hx. unfold PTE_ADDR. change 0xfffff000 with (u32 (Z.lnot (PGSIZE - 1))).
  rewrite <- (u32_small x) at 1 by done. rewrite land_page_mask. by rewrite u32_small.
Qed.

Lemma PTE_ADDR_aligned x : 0 ≤ x < 2 ^ 32 → (PGSIZE | x) → PTE_ADDR x = x.
Proof. intros Hx [q Hq]. rewrite PTE_ADDR_val, Hq, Z.mod_mul by done. lia. Qed.

Lemma PTE_ADDR_flags x : 0 ≤ x < PGSIZE → PTE_ADDR x = 0.
Proof. intros Hx. rewrite PTE_ADDR_val by page_lia. rewrite Z.mod_small by done. lia. Qed.

Lemma PTE_ADDR_lor a b : PTE_ADDR (Z.lor a b) = Z.lor (PTE_ADDR a) (PTE_ADDR b).
Proof. apply Z.land_lor_distr_l. Qed.

Lemma PTE_ADDR_divide x : 0 ≤ x < 2 ^ 32 → (PGSIZE | PTE_ADDR x).
Proof.
  intros Hx. rewrite PTE_ADDR_val by done. exists (x / PGSIZE).
  pose proof (Z_div_mod_eq_full x PGSIZE). lia.
Qed.

(** An entry for the page at [pa] with flags [f]. *)
Lemma PTE_ADDR_make pa f :
  0 ≤ pa < 2 ^ 32 → (PGSIZE | pa) → 0 ≤ f < PGSIZE → PTE_ADDR (Z.lor (PA2PTE pa) f) = pa.
Proof.
  intros Hpa Hal Hf. change (PA2PTE pa) with (PTE_ADDR pa).
  rewrite PTE_ADDR_lor, (PTE_ADDR_aligned pa), (PTE_ADDR_flags f), (PTE_ADDR_aligned pa) by done.
  apply Z.lor_0_r.
Qed.

Lemma has_make pa f fl :
  0 ≤ pa < 2 ^ 32 → (PGSIZE | pa) → 0 ≤ fl < PGSIZE → has (Z.lor (PA2PTE pa) f) fl = has f fl.
Proof.
  intros Hpa Hal Hfl. rewrite has_lor. change (PA2PTE pa) with (PTE_ADDR pa).
  rewrite PTE_ADDR_aligned, has_aligned by done. done.
Qed.

(** ** Indices *)

Definition vpn (va : Z) : Z := va / PGSIZE.

Lemma PDX_range va : 0 ≤ PDX va < 1024.
Proof. unfold PDX. change 0x3ff with (Z.ones 10). rewrite Z.land_ones by lia. apply Z.mod_pos_bound. lia. Qed.

Lemma PTX_range va : 0 ≤ PTX va < 1024.
Proof. unfold PTX. change 0x3ff with (Z.ones 10). rewrite Z.land_ones by lia. apply Z.mod_pos_bound. lia. Qed.

Lemma vpn_split va : 0 ≤ va < 2 ^ 32 → vpn va = PDX va * 1024 + PTX va.
Proof.
  intros Hva. unfold vpn, PDX, PTX. change 0x3ff with (Z.ones 10).
  rewrite !Z.land_ones, !Z.shiftr_div_pow2 by lia.
  rewrite (Z.mod_small (va / 2 ^ 22)) by (split; [apply Z.div_pos; lia|apply Z.div_lt_upper_bound; lia]).
  change (2 ^ 22) with (PGSIZE * 2 ^ 10). rewrite <- Z.div_div by (unfold PGSIZE; lia).
  change (2 ^ 12) with PGSIZE. pose proof (Z_div_mod_eq_full (va / PGSIZE) (2 ^ 10)). lia.
Qed.

Lemma PDX_user va : 0 ≤ va < USEREND → PDX va < 768.
Proof.
  intros Hva. pose proof (vpn_split va ltac:(page_lia)). pose proof (PTX_range va).
  assert (vpn va < 768 * 1024); [|lia]. apply Z.div_lt_upper_bound; [done|]. page_lia.
Qed.

Lemma vpn_range va : 0 ≤ va < USEREND → 0 ≤ vpn va < 768 * 1024.
Proof.
  intros Hva. split; [apply Z.div_pos; [lia|done]|]. apply Z.div_lt_upper_bound; [done|]. page_lia.
Qed.

(** ** The view of an address space *)

Definition table (D : Z) (T : gmap Z Z) (i : Z) : Prop := i = D ∨ ∃ k, T !! k = Some i.

Lemma table_img D T i : table D T i ↔ i = D ∨ i ∈ (map_img T : gset Z).
Proof. unfold table. by rewrite elem_of_map_img. Qed.

#[export] Instance table_dec D T i : Decision (table D T i).
Proof.
  destruct (decide (i = D ∨ i ∈ (map_img T : gset Z))) as [Ht|Ht]; [left|right]; by rewrite table_img.
Defined.

(** How many entries of [M] map the page at kernel address [a]. *)
Definition mapped (M : gmap Z Z) (a : Z) : Z :=
  Z.of_nat (size (filter (λ p, pte_page_kva p.2 = a) M)).

(** The reference count of page [i]. *)
Definition refs (s : pmm) (i : Z) : Z := from_option _refcount 0 (mem_map s !! i).

(** The reference counts are exact: one per mapping or table use, plus [O]. *)
Record counted (s : pmm) (U : gmap Z Z) (D : Z) (T M : gmap Z Z) (O : Z → Z) : Prop := {
  ct_refs i : U !! i = Some 0 → ¬ table D T i → mapped M (page_to_addr s i) + O i = refs s i;
  ct_trefs i : table D T i → 1 + O i = refs s i;
  ct_pos i : 0 ≤ O i;
  ct_none i : U !! i ≠ Some 0 → O i = 0;
  ct_live i : U !! i = Some 0 → 1 ≤ refs s i
}.

Record uspace (s : pmm) (U : gmap Z Z) (D : Z) (T M : gmap Z Z) (O : Z → Z) : Prop := {
  us_pool : pmm_ok s U;
  us_dir : U !! D = Some 0;
  us_tab k t : T !! k = Some t → 0 ≤ k < 768 ∧ U !! t = Some 0 ∧ t ≠ D;
  us_inj k1 k2 t : T !! k1 = Some t → T !! k2 = Some t → k1 = k2;
  us_pde k : 0 ≤ k < 768 →
    let e := rd s (page_to_addr s D + 4 * k) in
    match T !! k with
    | Some t => has e PTE_P = true ∧ has e PTE_U = true ∧ pde_pt_kva e = page_to_addr s t
    | None => has e PTE_P = false
    end;
  us_pte v : M !! v =
    (t ← T !! (v / 1024);
     let e := rd s (page_to_addr s t + 4 * (v mod 1024)) in
     if has e PTE_P then Some e else None);
  us_page v e : M !! v = Some e →
    has e PTE_U = true ∧ ∃ i, U !! i = Some 0 ∧ pte_page_kva e = page_to_addr s i ∧ ¬ table D T i;
  us_count : counted s U D T M O
}.

(** ** Counting mappings *)

Lemma mapped_nonneg M a : 0 ≤ mapped M a.
Proof. unfold mapped. lia. Qed.

Lemma mapped_insert M v e a : M !! v = None →
  mapped (<[v := e]> M) a = mapped M a + (if decide (pte_page_kva e = a) then 1 else 0).
Proof.
  intros Hv. unfold mapped. case_decide as He.
  - rewrite map_filter_insert_True by done. rewrite map_size_insert_None; [lia|].
    apply map_lookup_filter_None. by left.
  - rewrite map_filter_insert_False, delete_id by done. lia.
Qed.

Lemma mapped_delete M v e a : M !! v = Some e →
  mapped (delete v M) a = mapped M a - (if decide (pte_page_kva e = a) then 1 else 0).
Proof.
  intros Hv. rewrite <- (insert_delete_id M v e Hv) at 2.
  rewrite mapped_insert by apply lookup_delete_eq. lia.
Qed.

Lemma mapped_update M v e e' a : M !! v = Some e →
  mapped (<[v := e']> M) a = mapped M a - (if decide (pte_page_kva e = a) then 1 else 0)
                                        + (if decide (pte_page_kva e' = a) then 1 else 0).
Proof.
  intros Hv. rewrite <- (insert_delete_eq M), mapped_insert by apply lookup_delete_eq.
  by rewrite (mapped_delete M v e).
Qed.

Lemma mapped_pos M v e a : M !! v = Some e → pte_page_kva e = a → 1 ≤ mapped M a.
Proof.
  intros Hv He. pose proof (mapped_delete M v e a Hv) as Hd. rewrite decide_True in Hd by done.
  pose proof (mapped_nonneg (delete v M) a). lia.
Qed.

Lemma mapped_zero M a : (∀ v e, M !! v = Some e → pte_page_kva e ≠ a) → mapped M a = 0.
Proof.
  intros Hn. unfold mapped. rewrite (map_empty_filter_2); [done|].
  intros v e Hv. by apply Hn in Hv.
Qed.

(** ** Addresses of pool pages *)

Lemma page_to_addr_same s s' i : mem_start s' = mem_start s → page_to_addr s' i = page_to_addr s i.
Proof. intros Hm. unfold page_to_addr. by rewrite Hm. Qed.

Section Pages.
Context (s : pmm) (U : gmap Z Z) (HU : pmm_ok s U).

Lemma page_ok i : U !! i = Some 0 →
  page_to_addr s i = KERNBASE + mem_start s + i * PGSIZE ∧ (PGSIZE | page_to_addr s i) ∧
  KERNBASE ≤ page_to_addr s i ∧ page_to_addr s i + PGSIZE ≤ 2 ^ 32.
Proof.
  intros Hi. destruct HU as [B Hv]. pose proof (pv_geom _ _ _ Hv) as Hg.
  pose proof (view_wf _ _ _ _ _ Hv Hi) as Hwf. apply wf_blk_head in Hwf as [_ Hr].
  destruct (page_to_addr_val s i Hg Hr) as [Hval Hend]. destruct Hg as [[q Hq] ? ? ?]. split_and!.
  - done.
  - rewrite Hval, Hq. exists (0xC0000 + q + i). page_lia.
  - page_lia.
  - page_lia.
Qed.

Lemma pages_apart i j : U !! i = Some 0 → U !! j = Some 0 → i ≠ j →
  page_to_addr s i + PGSIZE ≤ page_to_addr s j ∨ page_to_addr s j + PGSIZE ≤ page_to_addr s i.
Proof.
  intros Hi Hj Hne. destruct (page_ok i Hi) as [-> _], (page_ok j Hj) as [-> _]. page_lia.
Qed.

Lemma page_addr_inj i j : U !! i = Some 0 → U !! j = Some 0 →
  page_to_addr s i = page_to_addr s j → i = j.
Proof.
  intros Hi Hj. destruct (page_ok i Hi) as [-> _], (page_ok j Hj) as [-> _]. page_lia.
Qed.

Lemma page_pa i : U !! i = Some 0 →
  V2P (page_to_addr s i) = page_to_addr s i - KERNBASE ∧ 0 ≤ page_to_addr s i - KERNBASE < 2 ^ 32 ∧
  (PGSIZE | page_to_addr s i - KERNBASE) ∧ P2V (page_to_addr s i - KERNBASE) = page_to_addr s i.
Proof.
  intros Hi. destruct (page_ok i Hi) as (_ & Hal & Hlo & Hhi). unfold V2P, P2V.
  rewrite !u32_small by page_lia. split_and!; try page_lia.
  apply Z.divide_sub_r; [done|]. by exists 0xC0000.
Qed.

(** The entry the code builds for a page, read back. *)
Lemma entry_kva i f : U !! i = Some 0 → 0 ≤ f < PGSIZE →
  pte_page_kva (Z.lor (PA2PTE (V2P (page_to_addr s i))) f) = page_to_addr s i.
Proof.
  intros Hi Hf. destruct (page_pa i Hi) as (-> & Hr & Hal & Hback).
  unfold pte_page_kva. by rewrite PTE_ADDR_make.
Qed.

Lemma entry_has i f fl : U !! i = Some 0 → 0 ≤ fl < PGSIZE →
  has (Z.lor (PA2PTE (V2P (page_to_addr s i))) f) fl = has f fl.
Proof.
  intros Hi Hf. destruct (page_pa i Hi) as (-> & Hr & Hal & Hback). by rewrite has_make.
Qed.

Lemma entry_range i f : U !! i = Some 0 → 0 ≤ f < PGSIZE →
  0 ≤ Z.lor (PA2PTE (V2P (page_to_addr s i))) f < 2 ^ 32.
Proof.
  intros Hi Hf. destruct (page_pa i Hi) as (-> & Hr & _). apply lor_range; [|page_lia].
  by apply land_range.
Qed.

End Pages.

(** ** Memory accesses *)

Lemma rd_wr s a v : 0 ≤ v < 2 ^ 32 → rd (wr a v s) a = v.
Proof. apply load32_store32. Qed.

Lemma rd_wr_ne s a v b : a + 4 ≤ b ∨ b + 4 ≤ a → rd (wr a v s) b = rd s b.
Proof. apply load32_store32_ne. Qed.

Lemma pmm_ok_ram s U m : pmm_ok s U → pmm_ok (with_ram m s) U.
Proof. intros (B & [[] ? ? ? []]). exists B. by repeat (split; [done..|]). Qed.

Lemma refs_eq s (i : Z) n : _refcount <$> mem_map s !! i = n → refs s i = default 0 n.
Proof. intros <-. unfold refs. by destruct (mem_map s !! i). Qed.

Lemma rd_ext s s' a b :
  (∀ x, b ≤ x < b + PGSIZE → mload (ram s') x = mload (ram s) x) → b ≤ a → a + 4 ≤ b + PGSIZE →
  rd s' a = rd s a.
Proof. intros Hx H1 H2. apply load32_ext. intros x Hr. apply Hx. lia. Qed.

(** Writing [e] into the entry of virtual page [v]. *)
Definition set_entry (v e : Z) (M : gmap Z Z) : gmap Z Z :=
  if has e PTE_P then <[v := e]> M else delete v M.

Lemma lookup_set_entry v e M w :
  set_entry v e M !! w = if decide (w = v) then (if has e PTE_P then Some e else None) else M !! w.
Proof.
  unfold set_entry. destruct (has e PTE_P); case_decide; subst;
    rewrite ?lookup_insert_eq, ?lookup_delete_eq, ?lookup_insert_ne, ?lookup_delete_ne by done; done.
Qed.

Lemma counted_ram s U D T M O m : counted s U D T M O → counted (with_ram m s) U D T M O.
Proof. intros [C1 C2 C3 C4 C5]. split; [exact C1|exact C2|exact C3|exact C4|exact C5]. Qed.

Section Space.
Context (s : pmm) (U : gmap Z Z) (D : Z) (T M : gmap Z Z) (O : Z → Z).
Context (Hus : uspace s U D T M O).

Let HU : pmm_ok s U := us_pool _ _ _ _ _ _ Hus.

Lemma table_owned i : table D T i → U !! i = Some 0.
Proof. intros [-> | [k Hk]]; [apply Hus|]. by eapply us_tab in Hk as (_ & ? & _). Qed.

Lemma dir_addr_pos : 0 < page_to_addr s D.
Proof. destruct (page_ok s U HU D (us_dir _ _ _ _ _ _ Hus)) as (_ & _ & ? & _). page_lia. Qed.

Lemma space_frame s' U' O' :
  mem_start s' = mem_start s → pmm_ok s' U' →
  (∀ i, table D T i → U' !! i = Some 0 ∧
     ∀ b, page_to_addr s i ≤ b < page_to_addr s i + PGSIZE → mload (ram s') b = mload (ram s) b) →
  (∀ i, U !! i = Some 0 → 1 ≤ mapped M (page_to_addr s i) → U' !! i = Some 0) →
  counted s' U' D T M O' → uspace s' U' D T M O'.
Proof.
  intros Hst Hok Htab Hkeep Hcount.
  assert (∀ i, page_to_addr s' i = page_to_addr s i) as Hpa by (intros; by apply page_to_addr_same).
  pose proof Hus as [_ H2 H3 H4 H5 H6 H7 _].
  split; try setoid_rewrite Hpa; try done.
  - by apply Htab; left.
  - intros k t Ht. destruct (H3 k t Ht) as (? & ? & ?). split_and!; try done; try lia.
    apply Htab. right. by exists k.
  - intros k Hk. specialize (H5 k Hk). rewrite ?Hpa.
    rewrite (rd_ext s s' _ (page_to_addr s D)); [|apply Htab; by left|page_lia..].
    destruct (T !! k); by rewrite ?Hpa.
  - intros v. rewrite H6. destruct (T !! (v / 1024)) as [t|] eqn:Ht; simpl; [|done]. rewrite ?Hpa.
    pose proof (Z.mod_pos_bound v 1024). rewrite (rd_ext s s' _ (page_to_addr s t)); [done| |page_lia..].
    apply Htab. right. by eexists.
  - intros v e Hv. destruct (H7 v e Hv) as (? & i & HUi & Hi & Hni). split; [done|].
    exists i. split_and!; try done. apply Hkeep; [done|]. by eapply mapped_pos.
Qed.

Lemma space_set s1 U1 O1 k t j e :
  T !! k = Some t → 0 ≤ j < 1024 → 0 ≤ e < 2 ^ 32 →
  mem_start s1 = mem_start s → pmm_ok s1 U1 →
  (∀ i, table D T i → U1 !! i = Some 0 ∧
     ∀ b, page_to_addr s i ≤ b < page_to_addr s i + PGSIZE → mload (ram s1) b = mload (ram s) b) →
  let M1 := set_entry (k * 1024 + j) e M in
  (∀ v e, M1 !! v = Some e → has e PTE_U = true ∧
     ∃ i, U1 !! i = Some 0 ∧ pte_page_kva e = page_to_addr s i ∧ ¬ table D T i) →
  counted s1 U1 D T M1 O1 →
  uspace (wr (page_to_addr s t + 4 * j) e s1) U1 D T M1 O1.
Proof.
  intros Ht Hj He Hst Hok Htab M1 Hpage Hcount.
  set (s' := wr _ _ s1).
  assert (∀ i, page_to_addr s' i = page_to_addr s i) as Hpa by (intros; by apply page_to_addr_same).
  destruct (us_tab _ _ _ _ _ _ Hus k t Ht) as (Hk & HUt & HtD).
  assert (∀ i a, table D T i → i ≠ t → page_to_addr s i ≤ a → a + 4 ≤ page_to_addr s i + PGSIZE →
            rd s' a = rd s a) as Hother.
  { intros i a Hi Hne H1 H2. pose proof (pages_apart s U HU i t (table_owned i Hi) HUt Hne).
    unfold s'. rewrite rd_wr_ne by page_lia. eapply rd_ext; [by apply Htab|done..]. }
  pose proof Hus as [_ H2 H3 H4 H5 H6 _ _].
  split; try setoid_rewrite Hpa; try done.
  - by apply pmm_ok_ram.
  - by apply Htab; left.
  - intros k' t' Ht'. destruct (H3 k' t' Ht') as (? & ? & ?). split_and!; try done; try lia.
    apply Htab. right. by exists k'.
  - intros k' Hk'. specialize (H5 k' Hk'). rewrite ?Hpa. rewrite (Hother D); [|by left|done|page_lia..].
    destruct (T !! k'); by rewrite ?Hpa.
  - intros v. unfold M1. rewrite lookup_set_entry. pose proof (Z.mod_pos_bound v 1024 ltac:(lia)) as Hm.
    pose proof (Z_div_mod_eq_full v 1024) as Hdm. case_decide as Hv.
    + replace (v / 1024) with k by lia. replace (v mod 1024) with j by lia. rewrite Ht. simpl.
      rewrite ?Hpa. unfold s'. by rewrite rd_wr.
    + rewrite H6. destruct (T !! (v / 1024)) as [t'|] eqn:Ht'; simpl; [|done]. rewrite ?Hpa.
      destruct (decide (t' = t)) as [->|Hne].
      * assert (v / 1024 = k) as Hvk by (by eapply H4). assert (v mod 1024 ≠ j) as Hvj by lia.
        unfold s'. rewrite rd_wr_ne by lia. rewrite (rd_ext s s1 _ (page_to_addr s t)); [done| |page_lia..].
        apply Htab. right. by exists k.
      * rewrite (Hother t'); [done|right; by eexists|done|page_lia..].
  - by apply counted_ram.
Qed.

End Space.

Definition upd (O : Z → Z) (i n : Z) : Z → Z := λ j, if decide (j = i) then n else O j.

Lemma upd_eq O i n : upd O i n i = n.
Proof. unfold upd. by rewrite decide_True. Qed.
Lemma upd_ne O i n j : j ≠ i → upd O i n j = O j.
Proof. intros Hj. unfold upd. by rewrite decide_False. Qed.

Section Walks.
Context (s : pmm) (U : gmap Z Z) (D : Z) (T M : gmap Z Z) (O : Z → Z).
Context (Hus : uspace s U D T M O).

Let HU : pmm_ok s U := us_pool _ _ _ _ _ _ Hus.

(** A lookup walk finds the entry of [va], or no table for it. *)
Lemma walk_lookup va user : 0 ≤ va < USEREND →
  ∃ p, walk (page_to_addr s D) va false user s = Done (p, s) ∧
  match T !! PDX va with
  | None => p = 0 ∧ M !! vpn va = None
  | Some t => p = page_to_addr s t + 4 * PTX va ∧ p ≠ 0 ∧
      M !! vpn va = if has (rd s p) PTE_P then Some (rd s p) else None
  end.
Proof.
  intros Hva. pose proof (PDX_range va). pose proof (PDX_user va Hva). pose proof (PTX_range va).
  pose proof (vpn_split va ltac:(page_lia)) as Hv.
  pose proof (us_pde _ _ _ _ _ _ Hus (PDX va) ltac:(lia)) as Hpde.
  pose proof (us_pte _ _ _ _ _ _ Hus (vpn va)) as Hpte.
  replace (vpn va / 1024) with (PDX va) in Hpte
    by (rewrite Hv; apply (Z.div_unique_pos _ _ _ (PTX va)); lia).
  replace (vpn va mod 1024) with (PTX va) in Hpte
    by (rewrite Hv; apply (Z.mod_unique_pos _ _ (PDX va)); lia).
  unfold walk. destruct (T !! PDX va) as [t|] eqn:Ht; simpl in Hpde, Hpte.
  - destruct Hpde as (-> & _ & Hkva). eexists. split; [done|]. rewrite Hkva. split_and!; [done| |done].
    destruct (us_tab _ _ _ _ _ _ Hus _ _ Ht) as (_ & HUt & _).
    destruct (page_ok s U HU t HUt) as (_ & _ & ? & _). page_lia.
  - rewrite Hpde. eexists. by split.
Qed.

Lemma walkaddr_view va : 0 ≤ va < USEREND →
  walkaddr (page_to_addr s D) va s =
  Done (match M !! vpn va with Some e => pte_page_kva e + va mod PGSIZE | None => 0 end).
Proof.
  intros Hva. unfold walkaddr.
  pose proof (dir_addr_pos _ _ _ _ _ _ Hus). rewrite (proj2 (Z.eqb_neq _ _)) by lia.
  destruct (walk_lookup va false Hva) as (p & -> & Hp). simpl.
  destruct (T !! PDX va) as [t|]; [|by destruct Hp as [-> ->]].
  destruct Hp as (_ & Hp0 & HM). rewrite (proj2 (Z.eqb_neq p 0)) by done.
  destruct (has (rd s p) PTE_P) eqn:HP; rewrite HM; simpl; [|done].
  destruct (us_page _ _ _ _ _ _ Hus _ _ HM) as (-> & i & HUi & Hi & _). simpl.
  change (P2V (PTE_ADDR (rd s p))) with (pte_page_kva (rd s p)). rewrite Hi.
  f_equal. destruct (page_ok s U HU i HUi) as (_ & Hal & _).
  change (PGSIZE - 1) with (Z.ones 12). rewrite Z.land_ones by lia. change (2 ^ 12) with PGSIZE.
  pose proof (Z.mod_pos_bound va PGSIZE ltac:(done)) as Hm.
  symmetry. apply Z.add_nocarry_lor.
  pose proof (has_aligned _ (va mod PGSIZE) Hal Hm) as Hz. by apply negb_false_iff, Z.eqb_eq in Hz.
Qed.

(** A fresh page: owned by the caller alone, zeroed, nobody's table. *)
Lemma space_alloc :
  ∃ r s', alloc_page s = Done (r, s') ∧
  match r with
  | None => s' = s
  | Some a => ∃ i, a = page_to_addr s i ∧ U !! i = None ∧ mem_start s' = mem_start s ∧
      uspace s' (<[i := 0]> U) D T M (upd O i 1) ∧ mapped M a = 0 ∧
      (∀ k, refs s' k = if decide (k = i) then 1 else refs s k) ∧
      (∀ b, mload (ram s') b = if decide (a ≤ b < a + PGSIZE) then 0 else mload (ram s) b)
  end.
Proof.
  destruct HU as [B Hv]. destruct (alloc_pages_view s U B 0 Hv ltac:(lia)) as (r & s' & Heq & Hr).
  exists r, s'. split; [exact Heq|]. destruct r as [a|]; [|apply Hr].
  destruct Hr as (i & -> & Hwf & Hno & Hok & _ & Hst & Hnp & Hrc & Hram).
  replace (2 ^ 0 * PGSIZE) with PGSIZE in Hram by page_lia.
  assert (∀ k, page_to_addr s' k = page_to_addr s k) as Hpa by (intros; by apply page_to_addr_same).
  assert (U !! i = None) as HUi.
  { apply eq_None_not_Some. intros [o Ho]. apply (Hno i); [by eapply wf_blk_head|].
    by eapply view_owned_head. }
  assert (∀ k, U !! k = Some 0 → <[i := 0]> U !! k = Some 0 ∧ k ≠ i) as Hkeep.
  { intros k Hk. assert (k ≠ i) by congruence. by rewrite lookup_insert_ne. }
  assert (∀ k, U !! k = Some 0 → page_to_addr s k ≠ page_to_addr s i) as Hne.
  { intros k Hk. rewrite <- !Hpa. destruct (Hkeep k Hk) as [Hk' Hki]. intros He. apply Hki.
    eapply (page_addr_inj s' _ Hok); [done|apply lookup_insert_eq|done]. }
  assert (mapped M (page_to_addr s i) = 0) as Hm0.
  { apply mapped_zero. intros v e Hve.
    destruct (us_page _ _ _ _ _ _ Hus _ _ Hve) as (_ & k & Hk & -> & _). by apply Hne. }
  assert (∀ k, refs s' k = if decide (k = i) then 1 else refs s k) as Hrefs.
  { intros k. specialize (Hrc k). apply refs_eq in Hrc. rewrite Hrc.
    case_decide; [done|]. unfold refs. by destruct (mem_map s !! k). }
  exists i. split_and!; try done.
  apply (space_frame s U D T M O Hus); try done.
  - intros k Hk. pose proof (table_owned _ _ _ _ _ _ Hus k Hk) as HUk. split; [by apply Hkeep|].
    intros b Hb. rewrite Hram, decide_False; [done|].
    destruct (Hkeep k HUk) as [Hk' Hki].
    destruct (pages_apart s' _ Hok k i Hk' (lookup_insert_eq _ _ _) Hki); rewrite !Hpa in *; lia.
  - intros k Hk _. by apply Hkeep.
  - destruct (us_count _ _ _ _ _ _ Hus) as [C1 C2 C3 C4 C5]. split; unfold upd.
    + intros k Hk Hnt. rewrite Hrefs, Hpa. rewrite lookup_insert in Hk. repeat case_decide; subst; [lia|done..|].
      by apply C1.
    + intros k Hk. rewrite Hrefs. pose proof (table_owned _ _ _ _ _ _ Hus k Hk) as HUk.
      rewrite !decide_False by (by apply Hkeep). by apply C2.
    + intros k. case_decide; [lia|apply C3].
    + intros k Hk. rewrite lookup_insert in Hk. repeat case_decide; subst; [done..|by apply C4].
    + intros k Hk. rewrite Hrefs. rewrite lookup_insert in Hk. repeat case_decide; subst; [lia|done..|by apply C5].
Qed.

(** Hooking a zeroed page of the caller's into the directory. *)
Lemma space_grow k i f :
  0 ≤ k < 768 → T !! k = None → U !! i = Some 0 → ¬ table D T i → 1 ≤ O i →
  mapped M (page_to_addr s i) = 0 →
  (∀ b, page_to_addr s i ≤ b < page_to_addr s i + PGSIZE → mload (ram s) b = 0) →
  0 ≤ f < PGSIZE → has f PTE_P = true → has f PTE_U = true →
  uspace (wr (page_to_addr s D + 4 * k) (Z.lor (PA2PTE (V2P (page_to_addr s i))) f) s)
    U D (<[k := i]> T) M (upd O i (O i - 1)).
Proof.
  intros Hk Hkn HUi Hnt HOi Hm0 Hzero Hf HfP HfU. set (e := Z.lor _ f). set (s' := wr _ e s).
  assert (∀ j, page_to_addr s' j = page_to_addr s j) as Hpa by (intros; by apply page_to_addr_same).
  pose proof (us_dir _ _ _ _ _ _ Hus) as HUD.
  assert (i ≠ D) as HiD by (intros ->; apply Hnt; by left).
  assert (∀ j a, U !! j = Some 0 → j ≠ D → page_to_addr s j ≤ a → a + 4 ≤ page_to_addr s j + PGSIZE →
            rd s' a = rd s a) as Hother.
  { intros j a Hj Hne H1 H2. pose proof (pages_apart s U HU j D Hj HUD Hne).
    unfold s'. rewrite rd_wr_ne by page_lia. done. }
  pose proof Hus as [_ H2 H3 H4 H5 H6 H7 [C1 C2 C3 C4 C5]].
  split; try setoid_rewrite Hpa; try done.
  - by apply pmm_ok_ram.
  - intros k' t [[<- <-]|[_ Ht]]%lookup_insert_Some; [done|by apply H3].
  - intros k1 k2 t [[<- <-]|[? Ht1]]%lookup_insert_Some [[<- E]|[? Ht2]]%lookup_insert_Some; try done.
    + exfalso. apply Hnt. right. by exists k2.
    + subst. exfalso. apply Hnt. right. by exists k1.
    + by eapply H4.
  - intros k' Hk'. specialize (H5 k' Hk'). rewrite ?Hpa. destruct (decide (k' = k)) as [->|Hne].
    + rewrite lookup_insert_eq. unfold s'. rewrite rd_wr by (by eapply entry_range).
      unfold e. rewrite !(entry_has s U HU) by first [done | by vm_compute]. rewrite ?Hpa. split_and!; [done..|].
      by apply (entry_kva s U HU).
    + rewrite lookup_insert_ne by done. unfold s'. rewrite rd_wr_ne by lia.
      destruct (T !! k'); by rewrite ?Hpa.
  - intros v. rewrite H6. rewrite lookup_insert. pose proof (Z.mod_pos_bound v 1024 ltac:(lia)).
    case_decide as Hv.
    + rewrite <- Hv, Hkn. cbn [mbind option_bind]. rewrite Hpa.
      rewrite (Hother i) by (done || page_lia). unfold rd, load32. rewrite !Hzero by page_lia. done.
    + destruct (T !! (v / 1024)) as [t|] eqn:Ht; cbn [mbind option_bind]; [|done]. rewrite Hpa.
      destruct (H3 _ _ Ht) as (_ & HUt & HtD). rewrite (Hother t); [done|done|done|page_lia..].
  - intros v e' Hv. destruct (H7 v e' Hv) as (? & j & HUj & Hj & Hnj). split; [done|].
    exists j. split_and!; try done. intros [-> | [k' Hk']]; [by apply Hnj; left|].
    apply lookup_insert_Some in Hk' as [[_ <-]|[_ Hk']]; [|apply Hnj; right; by exists k'].
    pose proof (mapped_pos M v e' _ Hv Hj). lia.
  - assert (∀ j, table D (<[k := i]> T) j → j = i ∨ table D T j) as Htab.
    { intros j [-> | [k' Hk']]; [by right; left|].
      apply lookup_insert_Some in Hk' as [[_ <-]|[_ Hk']]; [by left|right; right; by exists k']. }
    split; unfold upd.
    + intros j Hj Hnj. rewrite Hpa. rewrite decide_False.
      * apply C1; [done|]. intros [-> | [k' Hk']]; apply Hnj; [by left|]. right. exists k'.
        rewrite lookup_insert_ne; [done|congruence].
      * intros ->. apply Hnj. right. exists k. apply lookup_insert_eq.
    + intros j Hj. change (refs s' j) with (refs s j). case_decide; subst; [|apply C2; by destruct (Htab j Hj)].
      pose proof (C1 i HUi Hnt). lia.
    + intros j. case_decide; subst; [lia|apply C3].
    + intros j Hj. case_decide; subst; [done|by apply C4].
    + intros j Hj. by apply C5.
Qed.

End Walks.
