(* ===== verification/VmSpec.v ===== *)
(** [VmSpec]: what the operations of kernel/mm/vm.c on a user address space do
    to its abstract view ([uspace] of [PageTable]). *)
From Stdlib Require Import ZArith Lia.
From stdpp Require Import numbers strings gmap list sets.
From S2P Require Import Prelude ListHead MemLayout Buddy BuddyInv BuddySpec PageAlloc Vm PageTable.
Open Scope Z_scope.

(** What is allocated in between are single pages. *)
Definition fresh_pages (U U' : gmap Z Z) : Prop := ∀ i o, U' !! i = Some o → U !! i = Some o ∨ o = 0.

Lemma fresh_pages_refl U : fresh_pages U U.
Proof. by left. Qed.

Lemma fresh_pages_trans U U1 U2 : fresh_pages U U1 → fresh_pages U1 U2 → fresh_pages U U2.
Proof. intros H1 H2 i o [Ho|Ho]%H2; [by apply H1|by right]. Qed.

Lemma fresh_pages_insert U i : fresh_pages U (<[i := 0]> U).
Proof. intros j o [[_ <-]|[_ Hj]]%lookup_insert_Some; [by right|by left]. Qed.

Create HintDb space.
#[export] Hint Resolve fresh_pages_refl fresh_pages_trans fresh_pages_insert : space.

(** A step that only adds: pages stay allocated, tables stay hooked, new tables
    are fresh pages, and the bytes of the other pages stay the same. *)
Record grows (s : pmm) (U : gmap Z Z) (D : Z) (T : gmap Z Z) (s' : pmm) (U' T' : gmap Z Z) : Prop := {
  gr_start : mem_start s' = mem_start s;
  gr_U : U ⊆ U';
  gr_T : T ⊆ T';
  gr_new k t : T' !! k = Some t → T !! k = Some t ∨ U !! t = None;
  gr_ram i b : U !! i = Some 0 → ¬ table D T i →
    page_to_addr s i ≤ b < page_to_addr s i + PGSIZE → mload (ram s') b = mload (ram s) b;
  gr_fresh : fresh_pages U U'
}.

(** No byte outside the tables changes. *)
Definition same_data (s : pmm) (D : Z) (T : gmap Z Z) (s' : pmm) : Prop :=
  mem_start s' = mem_start s ∧
  ∀ b, (∀ t, table D T t → ¬ page_to_addr s t ≤ b < page_to_addr s t + PGSIZE) →
    mload (ram s') b = mload (ram s) b.

Lemma same_data_refl s D T : same_data s D T s.
Proof. by split. Qed.

Lemma same_data_trans s D T s1 s2 : same_data s D T s1 → same_data s1 D T s2 → same_data s D T s2.
Proof.
  intros [H1 H2] [H3 H4]. split; [congruence|]. intros b Hb. rewrite H4; [by apply H2|].
  intros t Ht. rewrite (page_to_addr_same s s1) by done. by apply Hb.
Qed.

Lemma grows_refl s U D T : grows s U D T s U T.
Proof. split; auto with space. Qed.

Lemma grows_table s U D T s' U' T' i :
  grows s U D T s' U' T' → U !! i = Some 0 → ¬ table D T i → ¬ table D T' i.
Proof.
  intros [_ _ _ Hn _ _] HU Ht [-> | [k Hk]]; [by apply Ht; left|].
  destruct (Hn k i Hk) as [?|?]; [apply Ht; right; by exists k|congruence].
Qed.

Lemma grows_trans s U D T s1 U1 T1 s2 U2 T2 :
  grows s U D T s1 U1 T1 → grows s1 U1 D T1 s2 U2 T2 → grows s U D T s2 U2 T2.
Proof.
  intros H1 H2. pose proof H1 as [A1 A2 A3 A4 A5 A6]. destruct H2 as [B1 B2 B3 B4 B5 B6]. split; [| | | | |by eauto with space].
  - congruence.
  - by etrans.
  - by etrans.
  - intros k t [Hk|Hk]%B4; [by apply A4|]. right. apply eq_None_not_Some. intros [o Ho].
    eapply lookup_weaken in Ho; [|exact A2]. congruence.
  - intros i b Hi Ht Hb. rewrite (B5 i); [by eapply A5|by eapply lookup_weaken|by eapply grows_table|].
    by rewrite (page_to_addr_same s s1).
Qed.

Lemma ram_wr a v s : ram (wr a v s) = store32 (ram s) a v.
Proof. done. Qed.

(** Writing an entry of a table leaves the pages that are no tables alone. *)
Lemma grows_wr s U D T M O t j e :
  uspace s U D T M O → table D T t → 0 ≤ j < 1024 →
  grows s U D T (wr (page_to_addr s t + 4 * j) e s) U T.
Proof.
  intros Hus Ht Hj. split; auto with space. intros i b Hi Hni Hb. rewrite ram_wr. apply mload_store32.
  pose proof (table_owned _ _ _ _ _ _ Hus t Ht) as HUt.
  destruct (pages_apart s U (us_pool _ _ _ _ _ _ Hus) i t Hi HUt) as [?|?]; [by intros ->|page_lia..].
Qed.

Lemma uspace_ext s U D T M O O' :
  uspace s U D T M O → (∀ i, O' i = O i) → uspace s U D T M O'.
Proof.
  intros [H1 H2 H3 H4 H5 H6 H7 [C1 C2 C3 C4 C5]] HO. split; try done.
  split; intros; rewrite ?HO; auto.
Qed.

(** What unmapping leaves: pages others refer to stay allocated, and no data
    changes. *)
Record shrinks (s : pmm) (U : gmap Z Z) (D : Z) (T : gmap Z Z) (O : Z → Z) (s' : pmm) (U' : gmap Z Z) : Prop := {
  sh_data : same_data s D T s';
  sh_U : U' ⊆ U;
  sh_keep i : U !! i = Some 0 → 1 ≤ O i → U' !! i = Some 0;
  sh_big i o : U !! i = Some o → o ≠ 0 → U' !! i = Some o
}.

Lemma shrinks_refl s U D T O : shrinks s U D T O s U.
Proof. split; auto. apply same_data_refl. Qed.

Lemma shrinks_trans s U D T O s1 U1 s2 U2 :
  shrinks s U D T O s1 U1 → shrinks s1 U1 D T O s2 U2 → shrinks s U D T O s2 U2.
Proof.
  intros [H1 H2 H3 H4] [H5 H6 H7 H8]. split; [by eapply same_data_trans|by etrans|auto|auto].
Qed.

Section Ops.
Context (s : pmm) (U : gmap Z Z) (D : Z) (T M : gmap Z Z) (O : Z → Z).
Context (Hus : uspace s U D T M O).

Let HU : pmm_ok s U := us_pool _ _ _ _ _ _ Hus.

(** A creating walk finds the entry, adding a table when there is none; it
    fails only when the pool has no page left. *)
Lemma walk_create va : 0 ≤ va < USEREND →
  ∃ p s', walk (page_to_addr s D) va true true s = Done (p, s') ∧
  ((p = 0 ∧ s' = s ∧ M !! vpn va = None ∧ T !! PDX va = None ∧ alloc_page s = Done (None, s)) ∨
   (∃ t U' T', p = page_to_addr s' t + 4 * PTX va ∧ p ≠ 0 ∧ T' !! PDX va = Some t ∧
      uspace s' U' D T' M O ∧ grows s U D T s' U' T' ∧ (is_Some (T !! PDX va) → s' = s) ∧
      M !! vpn va = if has (rd s' p) PTE_P then Some (rd s' p) else None)).
Proof.
  intros Hva. pose proof (PDX_range va). pose proof (PDX_user va Hva).
  destruct (walk_lookup s U D T M O Hus va false Hva) as (p & Hw & Hp).
  destruct (T !! PDX va) as [t|] eqn:Ht.
  - destruct Hp as (-> & Hp0 & HM). exists (page_to_addr s t + 4 * PTX va), s. split.
    + pose proof (us_pde _ _ _ _ _ _ Hus (PDX va) ltac:(lia)) as Hpde. rewrite Ht in Hpde.
      destruct Hpde as (HP & _). unfold walk in *. by rewrite HP in *.
    + right. exists t, U, T. split_and!; try done. apply grows_refl.
  - destruct Hp as [-> HM]. unfold walk in *.
    pose proof (us_pde _ _ _ _ _ _ Hus (PDX va) ltac:(lia)) as Hpde. rewrite Ht in Hpde. simpl in Hpde.
    rewrite Hpde in *. cbn [negb].
    destruct (space_alloc s U D T M O Hus) as (r & s1 & Hal & Hr). rewrite Hal. run.
    destruct r as [a|]; [|subst s1; eexists _, _; split; [done|]; left; by split_and!].
    destruct Hr as (i & -> & HUi & Hst & Hus1 & Hm0 & Hrefs & Hram).
    assert (∀ k, page_to_addr s1 k = page_to_addr s k) as Hpa by (intros; by apply page_to_addr_same).
    eexists _, _. split; [done|]. right. rewrite <- !Z.lor_assoc.
    set (f := Z.lor PTE_P (Z.lor PTE_W PTE_U)).
    assert (¬ table D T i) as Hnt.
    { intros Hi. pose proof (table_owned _ _ _ _ _ _ Hus i Hi). congruence. }
    rewrite <- !Hpa in *.
    assert (uspace (wr (page_to_addr s1 D + 4 * PDX va) (Z.lor (PA2PTE (V2P (page_to_addr s1 i))) f) s1)
              (<[i := 0]> U) D (<[PDX va := i]> T) M O) as Hus2.
    { eapply uspace_ext; [eapply (space_grow s1 (<[i := 0]> U) D T M (upd O i 1) Hus1);
        [lia|done|apply lookup_insert_eq|done|rewrite upd_eq; lia|done| |done..]|].
      - intros b Hb. rewrite Hram, decide_True by done. done.
      - intros k. rewrite upd_eq. unfold upd. case_decide; [subst|done].
        by rewrite (ct_none _ _ _ _ _ _ (us_count _ _ _ _ _ _ Hus)) by congruence. }
    exists i, (<[i := 0]> U), (<[PDX va := i]> T). split_and!; try done.
    + destruct (page_ok s1 _ (us_pool _ _ _ _ _ _ Hus1) i (lookup_insert_eq _ _ _)) as (_ & _ & ? & _).
      pose proof (PTX_range va). page_lia.
    + apply lookup_insert_eq.
    + split; [| | | | |by auto with space].
      * exact Hst.
      * by apply insert_subseteq.
      * by apply insert_subseteq.
      * intros k t [[<- <-]|[_ Hk]]%lookup_insert_Some; auto.
      * intros k b Hk Hnk Hb. pose proof (us_pool _ _ _ _ _ _ Hus1) as Hok1.
        assert (k ≠ i) as Hki by congruence. rewrite <- Hpa in Hb.
        assert (<[i := 0]> U !! k = Some 0) as Hk1 by (by rewrite lookup_insert_ne).
        destruct (pages_apart s1 _ Hok1 k D Hk1) as [?|?]; [|intros ->; by apply Hnk; left|..];
          [by eapply us_dir| |].
        all: destruct (pages_apart s1 _ Hok1 k i Hk1 (lookup_insert_eq _ _ _) Hki).
        all: rewrite ram_wr, mload_store32 by page_lia; rewrite Hram, decide_False by page_lia; done.
    + destruct (walk_lookup _ _ _ _ _ _ Hus2 va false Hva) as (p & Hw2 & Hp2).
      rewrite lookup_insert_eq in Hp2. destruct Hp2 as (-> & _ & HM2). exact HM2.
Qed.

Lemma owned_distinct i j : U !! i = Some 0 → U !! j = Some 0 → i ≠ j →
  page_to_addr s i ≠ page_to_addr s j.
Proof. intros Hi Hj Hne He. by eapply Hne, (page_addr_inj s U HU). Qed.

(** The caller's reference on page [i] becomes the reference of a mapping. *)
Lemma counted_map v e i :
  M !! v = None → U !! i = Some 0 → ¬ table D T i → 1 ≤ O i → pte_page_kva e = page_to_addr s i →
  counted s U D T (<[v := e]> M) (upd O i (O i - 1)).
Proof.
  intros Hv Hi Hnt HO He. destruct (us_count _ _ _ _ _ _ Hus) as [C1 C2 C3 C4 C5].
  split; unfold upd; try done.
  - intros j Hj Hnj. rewrite mapped_insert, He by done. specialize (C1 j Hj Hnj).
    destruct (decide (j = i)) as [->|Hji]; [rewrite decide_True by done; lia|].
    rewrite decide_False by (apply owned_distinct; done). lia.
  - intros j Hj. case_decide; subst; [done|by apply C2].
  - intros j. case_decide; subst; [lia|apply C3].
  - intros j Hj. case_decide; subst; [done|by apply C4].
Qed.

(** Dropping a mapping together with its reference. *)
Lemma counted_unmap v e i s1 U1 :
  M !! v = Some e → U !! i = Some 0 → ¬ table D T i → pte_page_kva e = page_to_addr s i →
  mem_start s1 = mem_start s →
  (∀ k, refs s1 k = if decide (k = i) then refs s i - 1 else refs s k) →
  U1 = (if refs s i =? 1 then delete i U else U) →
  counted s1 U1 D T (delete v M) O.
Proof.
  intros Hv Hi Hnt He Hst Hrefs ->. destruct (us_count _ _ _ _ _ _ Hus) as [C1 C2 C3 C4 C5].
  pose proof (C1 i Hi Hnt) as Hci. pose proof (mapped_pos M v e _ Hv He) as Hpos. pose proof (C3 i).
  assert (∀ k, (if refs s i =? 1 then delete i U else U) !! k = Some 0 → U !! k = Some 0 ∧
            (k = i → 2 ≤ refs s i)) as Hsub.
  { intros k. destruct (Z.eqb_spec (refs s i) 1) as [|Hne].
    - intros [? ?]%lookup_delete_Some. split; [done|congruence].
    - intros Hk. split; [done|]. intros ->. pose proof (C5 i Hi). lia. }
  split; try done.
  - intros j Hj Hnj. destruct (Hsub j Hj) as [HUj _].
    rewrite (page_to_addr_same s s1), (mapped_delete M v e), He, Hrefs by done. specialize (C1 j HUj Hnj).
    destruct (decide (j = i)) as [->|Hji]; [rewrite decide_True by done; lia|].
    rewrite decide_False by (apply owned_distinct; done). lia.
  - intros j Hj. rewrite Hrefs, decide_False by (by intros ->). by apply C2.
  - intros j Hj. destruct (decide (U !! j = Some 0)) as [HUj|]; [|by apply C4].
    destruct (Z.eqb_spec (refs s i) 1) as [H1|]; [|done].
    rewrite lookup_delete in Hj. case_decide; [subst; lia|done].
  - intros j Hj. destruct (Hsub j Hj) as [HUj Hj2]. rewrite Hrefs. case_decide; [|by apply C5].
    specialize (Hj2 ltac:(done)). lia.
Qed.

(** [put_page] of a page with a reference to drop. *)
Lemma put_page_refs i : U !! i = Some 0 →
  ∃ s1, put_page (page_to_addr s i) s = Done s1 ∧ ram s1 = ram s ∧ mem_start s1 = mem_start s ∧
    (∀ k, refs s1 k = if decide (k = i) then refs s i - 1 else refs s k) ∧
    pmm_ok s1 (if refs s i =? 1 then delete i U else U).
Proof.
  intros Hi. destruct HU as [B Hv]. destruct (view_used_page _ _ _ _ _ Hv Hi) as (pg & Hpg & _ & _).
  assert (refs s i = _refcount pg) as Hr by (unfold refs; by rewrite Hpg).
  pose proof (ct_live _ _ _ _ _ _ (us_count _ _ _ _ _ _ Hus) i Hi).
  destruct (put_page_view s U B i pg Hv Hi Hpg ltac:(lia)) as (s1 & Hrun & Hram & Hst & Hrc & Hok).
  exists s1. split_and!; try done.
  - intros k. specialize (Hrc k). apply refs_eq in Hrc. rewrite Hrc, Hr. case_decide; [done|].
    unfold refs. by destruct (mem_map s !! k).
  - rewrite Hr. destruct (_refcount pg =? 1); apply Hok.
Qed.

Lemma unmapped_pages v e i : M !! v = Some e → pte_page_kva e = page_to_addr s i → U !! i = Some 0 →
  ∀ w e', delete v M !! w = Some e' →
  has e' PTE_U = true ∧ ∃ j, (if refs s i =? 1 then delete i U else U) !! j = Some 0 ∧
    pte_page_kva e' = page_to_addr s j ∧ ¬ table D T j.
Proof.
  intros Hv He Hi w e' [Hne Hw]%lookup_delete_Some.
  destruct (us_page _ _ _ _ _ _ Hus _ _ Hw) as (Hu & j & Hj & He' & Hnj). split; [done|].
  exists j. split_and!; try done. destruct (Z.eqb_spec (refs s i) 1) as [H1|]; [|done].
  rewrite lookup_delete_ne; [done|]. intros ->.
  pose proof (ct_refs _ _ _ _ _ _ (us_count _ _ _ _ _ _ Hus) j Hj Hnj).
  pose proof (ct_pos _ _ _ _ _ _ (us_count _ _ _ _ _ _ Hus) j).
  pose proof (mapped_delete M v e (page_to_addr s j) Hv) as Hd. rewrite decide_True in Hd by done.
  assert (delete v M !! w = Some e') as Hw' by (by rewrite lookup_delete_ne).
  pose proof (mapped_pos _ _ _ _ Hw' He'). lia.
Qed.

Lemma tables_stay i : ¬ table D T i → U !! i = Some 0 →
  ∀ k, table D T k → (if refs s i =? 1 then delete i U else U) !! k = Some 0.
Proof.
  intros Hnt Hi k Hk. pose proof (table_owned _ _ _ _ _ _ Hus k Hk).
  destruct (_ =? _); [|done]. rewrite lookup_delete_ne; [done|]. by intros ->.
Qed.

(** Clearing a present entry and putting its page. *)
Lemma unmap_entry k t j e :
  let p := page_to_addr s t + 4 * j in
  T !! k = Some t → 0 ≤ j < 1024 → M !! (k * 1024 + j) = Some e → rd s p = e →
  ∃ s1, put_page (pte_page_kva e) s = Done s1 ∧
    ∃ U1, uspace (wr p 0 s1) U1 D T (delete (k * 1024 + j) M) O ∧ shrinks s U D T O (wr p 0 s1) U1.
Proof.
  intros p Ht Hj Hv He. destruct (us_page _ _ _ _ _ _ Hus _ _ Hv) as (_ & i & Hi & Hei & Hnt).
  rewrite Hei. destruct (put_page_refs i Hi) as (s1 & Hrun & Hram & Hst & Hrefs & Hok).
  exists s1. split; [done|]. eexists. split; [|split].
  - change (delete (k * 1024 + j) M) with (set_entry (k * 1024 + j) 0 M).
    eapply (space_set s U D T M O Hus s1); try done.
    + intros n Hn. split; [by apply tables_stay|]. intros b _. by rewrite Hram.
    + eapply unmapped_pages; done.
    + by eapply counted_unmap.
  - split; [done|]. intros b Hb. rewrite ram_wr, Hram. apply mload_store32.
    assert (table D T t) as Htt%Hb by (right; by eexists). unfold p. page_lia.
  - destruct (_ =? _); [apply delete_subseteq|done].
  - intros n Hn HO. destruct (Z.eqb_spec (refs s i) 1) as [H1|]; [|done].
    destruct (decide (n = i)) as [->|]; [|by rewrite lookup_delete_ne].
    pose proof (ct_refs _ _ _ _ _ _ (us_count _ _ _ _ _ _ Hus) i Hi Hnt).
    pose proof (mapped_pos _ _ _ _ Hv Hei). lia.
  - intros n o Hn Ho. destruct (_ =? _); [|done]. rewrite lookup_delete_ne; [done|congruence].
Qed.

(** One round of [unmappages] with [do_free]: a present entry is cleared and
    its page put. *)
Lemma unmap_one va p e :
  0 ≤ va < USEREND → M !! vpn va = Some e → walk (page_to_addr s D) va false false s = Done (p, s) →
  ∃ s1, put_page (pte_page_kva (rd s p)) s = Done s1 ∧ rd s p = e ∧ p ≠ 0 ∧
    ∃ U1, uspace (wr p 0 s1) U1 D T (delete (vpn va) M) O ∧ shrinks s U D T O (wr p 0 s1) U1.
Proof.
  intros Hva Hv Hw. pose proof (PTX_range va). rewrite (vpn_split va ltac:(page_lia)) in *.
  destruct (walk_lookup s U D T M O Hus va false Hva) as (p' & Hw' & Hp).
  rewrite (vpn_split va ltac:(page_lia)) in Hp.
  rewrite Hw in Hw'. injection Hw' as <-. destruct (T !! PDX va) as [t|] eqn:Ht; [|destruct Hp; congruence].
  destruct Hp as (-> & Hp0 & HM). rewrite Hv in HM. destruct (has (rd s _) PTE_P) eqn:HP; [|done].
  injection HM as He. destruct (unmap_entry (PDX va) t (PTX va) e Ht ltac:(lia) Hv (eq_sym He))
    as (s1 & Hput & HU1). exists s1. rewrite <- He. by split_and!.
Qed.

(** The bytes of an owned page that is no table are not table bytes. *)
Lemma data_byte i b : U !! i = Some 0 → ¬ table D T i →
  page_to_addr s i ≤ b < page_to_addr s i + PGSIZE →
  ∀ t, table D T t → ¬ page_to_addr s t ≤ b < page_to_addr s t + PGSIZE.
Proof.
  intros Hi Hnt Hb t Ht Hbt. pose proof (table_owned _ _ _ _ _ _ Hus t Ht) as HUt.
  destruct (pages_apart s U HU i t Hi HUt) as [?|?]; [by intros ->|lia..].
Qed.

End Ops.

(** The entries of [M] outside the pages [a .. b - 1]. *)
Definition del_range (a b : Z) (M : gmap Z Z) : gmap Z Z := filter (λ p, p.1 < a ∨ b ≤ p.1) M.

Lemma lookup_del_range a b M v :
  del_range a b M !! v = if decide (a ≤ v < b) then None else M !! v.
Proof.
  unfold del_range. case_decide as Hv.
  - apply map_lookup_filter_None. right. intros e _. simpl. lia.
  - destruct (M !! v) as [e|] eqn:HM.
    + apply map_lookup_filter_Some. split; [done|]. simpl. lia.
    + apply map_lookup_filter_None. by left.
Qed.

Lemma del_range_empty a b M : b ≤ a → del_range a b M = M.
Proof. intros Hab. apply map_eq. intros v. rewrite lookup_del_range. case_decide; [lia|done]. Qed.

Lemma del_range_step a b M : a < b → del_range (a + 1) b (delete a M) = del_range a b M.
Proof.
  intros Hab. apply map_eq. intros v. rewrite !lookup_del_range, lookup_delete.
  repeat case_decide; lia || done.
Qed.

Lemma del_range_skip a b M : a < b → M !! a = None → del_range (a + 1) b M = del_range a b M.
Proof. intros Hab Ha. rewrite <- (del_range_step a) by done. by rewrite delete_id. Qed.

Lemma vpn_next va : vpn (va + PGSIZE) = vpn va + 1.
Proof. unfold vpn. replace (va + PGSIZE) with (va + 1 * PGSIZE) by lia. by rewrite Z.div_add. Qed.

Section Unmap.
Context (D : Z) (T : gmap Z Z) (O : Z → Z).

Lemma unmap_loop_ok fuel : ∀ s U M va en,
  uspace s U D T M O → 0 ≤ va ≤ en → en ≤ USEREND → (PGSIZE | va) → (PGSIZE | en) →
  en - va ≤ (Z.of_nat fuel - 1) * PGSIZE → (1 ≤ fuel)%nat →
  ∃ s' U', unmap_loop fuel (page_to_addr s D) va en true true s = Done (0, s') ∧
    uspace s' U' D T (del_range (vpn va) (vpn en) M) O ∧ shrinks s U D T O s' U'.
Proof.
  induction fuel as [|fuel IH]; intros s U M va en Hus Hva Hen Hal Hae Hf Hf1; [lia|].
  cbn [unmap_loop]. destruct (Z.ltb_spec va en) as [Hlt|Hge].
  2:{ exists s, U. split; [done|]. rewrite del_range_empty by (assert (va = en) as -> by lia; done).
      split; [done|apply shrinks_refl]. }
  assert (va + PGSIZE ≤ en) as Hnext by (destruct Hal as [x ->], Hae as [y ->]; page_lia).
  assert (vpn va < vpn en) as Hvlt.
  { destruct Hal as [x ->], Hae as [y ->]. unfold vpn. rewrite !Z.div_mul by done. page_lia. }
  assert ((PGSIZE | va + PGSIZE)) as Hal' by (apply Z.divide_add_r; [done|apply Z.divide_refl]).
  destruct (walk_lookup s U D T M O Hus va false ltac:(lia)) as (p & Hw & Hp). rewrite Hw.
  run. rewrite (u32_small (va + PGSIZE)) by page_lia.
  destruct (M !! vpn va) as [e|] eqn:HM.
  - destruct (unmap_one s U D T M O Hus va p e ltac:(lia) HM Hw)
      as (s1 & Hput & Hrd & Hp0 & U1 & Hus1 & Hsh1).
    assert (has (rd s p) PTE_P = true) as HP.
    { destruct (T !! PDX va); [|destruct Hp; congruence]. destruct Hp as (_ & _ & Hp).
      destruct (has (rd s p) PTE_P); [done|congruence]. }
    rewrite (proj2 (Z.eqb_neq p 0)), HP by done. cbn [orb negb]. rewrite Hput. run.
    assert (page_to_addr s D = page_to_addr (wr p 0 s1) D) as -> by (symmetry; apply page_to_addr_same, Hsh1).
    destruct (IH (wr p 0 s1) U1 (delete (vpn va) M) (va + PGSIZE) en) as (s2 & U2 & Hrun & Hus2 & Hsh);
      [done|page_lia|done|done|done|page_lia|page_lia|].
    rewrite vpn_next, del_range_step in Hus2 by done. exists s2, U2. split_and!; [done..|].
    by eapply shrinks_trans.
  - assert (((p =? 0) || negb (has (rd s p) PTE_P)) = true) as ->.
    { destruct (T !! PDX va); [|by destruct Hp as [-> _]]. destruct Hp as (_ & _ & Hp).
      destruct (has (rd s p) PTE_P); [congruence|apply orb_true_r]. }
    destruct (IH s U M (va + PGSIZE) en) as (s2 & U2 & Hrun & Hus2 & Hsh);
      [done|page_lia|done|done|done|page_lia|page_lia|].
    rewrite vpn_next, del_range_skip in Hus2 by done. by exists s2, U2.
Qed.

Lemma uvmunmap_ok s U M va n :
  uspace s U D T M O → 0 ≤ va → (PGSIZE | va) → 0 < n → va + n * PGSIZE ≤ USEREND →
  ∃ s' U', uvmunmap (page_to_addr s D) va n true s = Done (0, s') ∧
    uspace s' U' D T (del_range (vpn va) (vpn va + n) M) O ∧ shrinks s U D T O s' U'.
Proof.
  intros Hus Hva Hal Hn Hend. unfold uvmunmap, unmappages.
  pose proof (dir_addr_pos _ _ _ _ _ _ Hus).
  rewrite (proj2 (Z.eqb_neq (page_to_addr s D) 0)), (proj2 (Z.eqb_neq n 0)) by lia.
  rewrite (proj2 (Z.eqb_eq (va mod PGSIZE) 0)) by (by apply Z.mod_divide). cbn [orb negb].
  rewrite (u32_small (n * PGSIZE)), (u32_small (va + _)) by page_lia.
  destruct (unmap_loop_ok (S (Z.to_nat n)) s U M va (va + n * PGSIZE)) as (s' & U' & -> & Hus' & Hsh);
    [done|page_lia|done|done| |page_lia|lia|].
  { apply Z.divide_add_r; [done|by exists n]. }
  exists s', U'. split; [done|]. split; [|done].
  replace (vpn (va + n * PGSIZE)) with (vpn va + n) in Hus'; [done|].
  unfold vpn. by rewrite Z.div_add.
Qed.

End Unmap.

Section Map.
Context (s : pmm) (U : gmap Z Z) (D : Z) (T M : gmap Z Z) (O : Z → Z).
Context (Hus : uspace s U D T M O).

Let HU : pmm_ok s U := us_pool _ _ _ _ _ _ Hus.

(** Writing the entry of an unmapped page, once its table is there. *)
Lemma space_map k t j i f :
  let v := k * 1024 + j in
  let e := Z.lor (PA2PTE (V2P (page_to_addr s i))) f in
  T !! k = Some t → 0 ≤ j < 1024 → M !! v = None → U !! i = Some 0 → ¬ table D T i → 1 ≤ O i →
  0 ≤ f < PGSIZE → has f PTE_P = true → has f PTE_U = true →
  uspace (wr (page_to_addr s t + 4 * j) e s) U D T (<[v := e]> M) (upd O i (O i - 1)).
Proof.
  intros v e Ht Hj Hv Hi Hnt HO Hf HfP HfU.
  assert (has e PTE_P = true) as HeP by (unfold e; by rewrite (entry_has s U HU)).
  assert (has e PTE_U = true) as HeU by (unfold e; by rewrite (entry_has s U HU)).
  assert (pte_page_kva e = page_to_addr s i) as Hkva by (by apply (entry_kva s U HU)).
  replace (<[v := e]> M) with (set_entry v e M) by (unfold set_entry; by rewrite HeP).
  eapply (space_set s U D T M O Hus s); try done.
  - by apply (entry_range s U HU).
  - intros t' Ht'. split; [by eapply table_owned|done].
  - intros w e'. rewrite lookup_set_entry. rewrite HeP. case_decide as Hw.
    + intros [= <-]. split; [done|]. by exists i.
    + intros Hw'. by apply (us_page _ _ _ _ _ _ Hus) in Hw'.
  - unfold set_entry. rewrite HeP. by apply counted_map.
Qed.

End Map.

(** The entry [uvmmap] writes. *)
Definition user_pte (pa perm : Z) : Z := Z.lor (Z.lor (PA2PTE pa) (Z.lor perm PTE_U)) PTE_P.

Lemma flags_lor f g : 0 ≤ f < PGSIZE → 0 ≤ g < PGSIZE → 0 ≤ Z.lor f g < PGSIZE.
Proof.
  assert (∀ x, 0 ≤ x < PGSIZE ↔ Z.land x (Z.ones 12) = x) as Hx.
  { intros x. rewrite Z.land_ones by lia. change (2 ^ 12) with PGSIZE. split.
    - apply Z.mod_small.
    - intros <-. by apply Z.mod_pos_bound. }
  intros Hf%Hx Hg%Hx. apply Hx. by rewrite Z.land_lor_distr_l, Hf, Hg.
Qed.

Section Uvm.
Context (s : pmm) (U : gmap Z Z) (D : Z) (T M : gmap Z Z) (O : Z → Z).
Context (Hus : uspace s U D T M O).

Let HU : pmm_ok s U := us_pool _ _ _ _ _ _ Hus.

Lemma uvmmap_ok va i perm :
  0 ≤ va < USEREND → (PGSIZE | va) → U !! i = Some 0 → ¬ table D T i → 1 ≤ O i → 0 ≤ perm < PGSIZE →
  ∃ r s', uvmmap (page_to_addr s D) va (V2P (page_to_addr s i)) PGSIZE perm s = Done (r, s') ∧
  ((r = -1 ∧ s' = s ∧ (is_Some (M !! vpn va) ∨ T !! PDX va = None ∧ alloc_page s = Done (None, s))) ∨
   (r = 0 ∧ M !! vpn va = None ∧ ∃ U' T', grows s U D T s' U' T' ∧
      uspace s' U' D T' (<[vpn va := user_pte (V2P (page_to_addr s i)) perm]> M) (upd O i (O i - 1)))).
Proof.
  intros Hva Hal Hi Hnt HO Hperm. unfold uvmmap, mappages.
  pose proof (dir_addr_pos _ _ _ _ _ _ Hus). rewrite (proj2 (Z.eqb_neq (page_to_addr s D) 0)) by lia.
  destruct (page_pa s U HU i Hi) as (Hpa & _ & Hpal & _).
  rewrite (proj2 (Z.eqb_eq (va mod PGSIZE) 0)) by (by apply Z.mod_divide).
  rewrite (proj2 (Z.eqb_eq (V2P (page_to_addr s i) mod PGSIZE) 0)) by (rewrite Hpa; by apply Z.mod_divide).
  change (PGSIZE =? 0) with false. change (PGSIZE mod PGSIZE =? 0) with true. cbn [orb negb].
  change (Z.to_nat (PGSIZE / PGSIZE)) with 1%nat. cbn [map_loop].
  replace (u32 (va + PGSIZE - PGSIZE)) with va by (rewrite u32_small; page_lia). rewrite Z.eqb_refl.
  destruct (walk_create s U D T M O Hus va Hva) as (p & s1 & -> & Hp). run.
  destruct Hp as [(-> & -> & HM & HT & Hoom)|(t & U1 & T1 & Hpt & Hp0 & HT1 & Hus1 & Hgr & Hsame & HM)].
  { exists (-1), s. split; [done|]. left. by split_and!; auto. }
  rewrite (proj2 (Z.eqb_neq p 0)) by done. destruct (has (rd s1 p) PTE_P) eqn:HP.
  { exists (-1), s1. split; [done|]. left. split_and!; [done| |left; by rewrite HM].
    apply Hsame. pose proof (us_pte _ _ _ _ _ _ Hus (vpn va)) as Hpte. rewrite HM in Hpte.
    pose proof (vpn_split va ltac:(page_lia)) as Hv. pose proof (PTX_range va).
    replace (vpn va / 1024) with (PDX va) in Hpte
      by (rewrite Hv; apply (Z.div_unique_pos _ _ _ (PTX va)); lia).
    destruct (T !! PDX va); [by eexists|done]. }
  eexists 0, _. split; [done|]. right. split_and!; [done..|]. exists U1, T1.
  pose proof (PTX_range va). pose proof Hgr as [Hst HUs _ _ _].
  assert (page_to_addr s i = page_to_addr s1 i) as Hpi by (symmetry; by apply page_to_addr_same).
  rewrite Hpt. split.
  - eapply grows_trans; [done|]. eapply grows_wr; [done|right; by eexists|done].
  - unfold user_pte. rewrite (vpn_split va), <- Z.lor_assoc, Hpi by page_lia.
    rewrite (vpn_split va) in HM by page_lia.
    eapply (space_map s1 U1 D T1 M O); try done.
    + by eapply lookup_weaken.
    + by eapply grows_table.
    + by repeat apply flags_lor.
    + rewrite !has_lor. apply orb_true_r.
    + rewrite !has_lor. change (has PTE_U PTE_U) with true. by rewrite orb_true_r.
Qed.

(** Replacing the page of a mapping: the new page's reference becomes the
    mapping's, and the mapping's reference on the old one is dropped. *)
Lemma counted_move v e e' i i' s1 :
  M !! v = Some e → U !! i = Some 0 → U !! i' = Some 0 → i ≠ i' →
  ¬ table D T i → ¬ table D T i' → pte_page_kva e = page_to_addr s i →
  pte_page_kva e' = page_to_addr s i' → 1 ≤ O i' → 2 ≤ refs s i → mem_start s1 = mem_start s →
  (∀ k, refs s1 k = if decide (k = i) then refs s i - 1 else refs s k) →
  counted s1 U D T (<[v := e']> M) (upd O i' (O i' - 1)).
Proof.
  intros Hv Hi Hi' Hne Hnt Hnt' He He' HO Hr Hst Hrefs.
  destruct (us_count _ _ _ _ _ _ Hus) as [C1 C2 C3 C4 C5]. split; unfold upd.
  - intros j Hj Hnj. rewrite (page_to_addr_same s s1), (mapped_update M v e), He, He', Hrefs by done.
    specialize (C1 j Hj Hnj).
    pose proof (owned_distinct s U D T M O Hus i j Hi Hj).
    pose proof (owned_distinct s U D T M O Hus i' j Hi' Hj).
    repeat case_decide; subst; lia || naive_solver.
  - intros j Hj. rewrite Hrefs, !decide_False by (by intros ->). by apply C2.
  - intros j. case_decide; subst; [lia|apply C3].
  - intros j Hj. case_decide; subst; [done|by apply C4].
  - intros j Hj. rewrite Hrefs. case_decide; subst; [lia|by apply C5].
Qed.

(** Rewriting the flags of a mapping keeps all counts. *)
Lemma counted_reflag v e e' : M !! v = Some e → pte_page_kva e' = pte_page_kva e →
  counted s U D T (<[v := e']> M) O.
Proof.
  intros Hv He. destruct (us_count _ _ _ _ _ _ Hus) as [C1 C2 C3 C4 C5]. split; try done.
  intros j Hj Hnj. rewrite (mapped_update M v e), He by done. specialize (C1 j Hj Hnj). lia.
Qed.

Lemma space_reflag k t j e e' :
  T !! k = Some t → 0 ≤ j < 1024 → M !! (k * 1024 + j) = Some e → 0 ≤ e' < 2 ^ 32 →
  pte_page_kva e' = pte_page_kva e → has e' PTE_P = true → has e' PTE_U = true →
  uspace (wr (page_to_addr s t + 4 * j) e' s) U D T (<[k * 1024 + j := e']> M) O.
Proof.
  intros Ht Hj Hv Hr Hkva HP HUs.
  replace (<[k * 1024 + j := e']> M) with (set_entry (k * 1024 + j) e' M)
    by (unfold set_entry; by rewrite HP).
  eapply (space_set s U D T M O Hus s); try done.
  - intros t' Ht'. split; [by eapply table_owned|done].
  - intros w e1. rewrite lookup_set_entry, HP. case_decide as Hw.
    + intros [= <-]. split; [done|]. rewrite Hkva.
      by destruct (us_page _ _ _ _ _ _ Hus _ _ Hv) as (_ & i & ?); exists i.
    + intros Hw'. by apply (us_page _ _ _ _ _ _ Hus) in Hw'.
  - unfold set_entry. rewrite HP. by eapply counted_reflag.
Qed.

(** The entry after the sole owner of a copy-on-write page takes it over. *)
Lemma cow_entry e : 0 ≤ e < 2 ^ 32 → has e PTE_P = true → has e PTE_U = true →
  let e' := Z.land (Z.lor e PTE_W) (u32 (Z.lnot PTE_COW)) in
  0 ≤ e' < 2 ^ 32 ∧ pte_page_kva e' = pte_page_kva e ∧ has e' PTE_P = true ∧ has e' PTE_U = true ∧
  has e' PTE_W = true ∧ has e' PTE_COW = false.
Proof.
  intros He HP HUs e'. unfold e'. rewrite !has_land.
  change (Z.land (u32 (Z.lnot PTE_COW)) PTE_P) with PTE_P.
  change (Z.land (u32 (Z.lnot PTE_COW)) PTE_U) with PTE_U.
  change (Z.land (u32 (Z.lnot PTE_COW)) PTE_W) with PTE_W.
  change (Z.land (u32 (Z.lnot PTE_COW)) PTE_COW) with 0. rewrite !has_lor, HP, HUs.
  split_and!; try done.
  - apply land_range, lor_range; [done|by vm_compute].
  - apply land_range, lor_range; [done|by vm_compute].
  - unfold pte_page_kva, PTE_ADDR. f_equal. rewrite <- Z.land_assoc.
    change (Z.land (u32 (Z.lnot PTE_COW)) 4294963200) with 4294963200.
    rewrite Z.land_lor_distr_l. change (Z.land PTE_W 4294963200) with 0. apply Z.lor_0_r.
  - by rewrite orb_true_r.
  - unfold has. by rewrite !Z.land_0_r.
Qed.

End Uvm.

(** Every byte of an owned page that is no table is kept. *)
Definition keeps_data (s : pmm) (U : gmap Z Z) (D : Z) (T : gmap Z Z) (s' : pmm) : Prop :=
  mem_start s' = mem_start s ∧ ∀ i b, U !! i = Some 0 → ¬ table D T i →
    page_to_addr s i ≤ b < page_to_addr s i + PGSIZE → mload (ram s') b = mload (ram s) b.

(** [e'] is a writable mapping of its own of what [e] showed. *)
Record own_copy (s : pmm) (e : Z) (s' : pmm) (U' M' : gmap Z Z) (O : Z → Z) (e' : Z) : Prop := {
  oc_flags : has e' PTE_W = true ∧ has e' PTE_COW = false ∧ has e' PTE_P = true;
  oc_bytes off : 0 ≤ off < PGSIZE →
    mload (ram s') (pte_page_kva e' + off) = mload (ram s) (pte_page_kva e + off);
  oc_sole : ∃ i, U' !! i = Some 0 ∧ pte_page_kva e' = page_to_addr s' i ∧ refs s' i = 1 ∧ O i = 0 ∧
    mapped M' (pte_page_kva e') = 1
}.

Section Cow.
Context (s : pmm) (U : gmap Z Z) (D : Z) (T M : gmap Z Z) (O : Z → Z).
Context (Hus : uspace s U D T M O).

Let HU : pmm_ok s U := us_pool _ _ _ _ _ _ Hus.

Lemma page_refcount_refs i : U !! i = Some 0 → page_refcount (page_to_addr s i) s = Done (refs s i).
Proof.
  intros Hi. destruct HU as [B Hv]. destruct (view_used_page _ _ _ _ _ Hv Hi) as (pg & Hpg & _ & Ha).
  unfold page_refcount, refs. rewrite Ha, Hpg. done.
Qed.

(** The copying branch, from the state in which the fresh page [i'] holds the
    copy. *)
Lemma cow_copy k t j e i i' :
  let v := k * 1024 + j in
  let e' := Z.lor (Z.lor (Z.lor (PA2PTE (V2P (page_to_addr s i'))) PTE_P) PTE_U) PTE_W in
  T !! k = Some t → 0 ≤ j < 1024 → M !! v = Some e → pte_page_kva e = page_to_addr s i →
  U !! i = Some 0 → U !! i' = Some 0 → i ≠ i' → ¬ table D T i → ¬ table D T i' →
  1 ≤ O i' → 2 ≤ refs s i →
  ∃ s', put_page (page_to_addr s i) s = Done s' ∧ ram s' = ram s ∧ mem_start s' = mem_start s ∧
    (∀ j, j ≠ i → refs s' j = refs s j) ∧
    pte_page_kva e' = page_to_addr s i' ∧
    has e' PTE_W = true ∧ has e' PTE_COW = false ∧ has e' PTE_P = true ∧
    uspace (wr (page_to_addr s t + 4 * j) e' s') U D T (<[v := e']> M) (upd O i' (O i' - 1)).
Proof.
  intros v e'. unfold e'. rewrite <- !Z.lor_assoc. clear e'. set (f := Z.lor PTE_P _).
  set (e' := Z.lor _ f). intros Ht Hj Hv He Hi Hi' Hne Hnt Hnt' HO Hr.
  destruct (put_page_refs s U D T M O Hus i Hi) as (s' & Hrun & Hram & Hst & Hrefs & Hok).
  rewrite (proj2 (Z.eqb_neq (refs s i) 1)) in Hok by lia.
  assert (pte_page_kva e' = page_to_addr s i') as He' by (by apply (entry_kva s U HU)).
  assert (∀ fl, 0 ≤ fl < PGSIZE → has e' fl = has f fl) as Hhas
    by (intros; by apply (entry_has s U HU)).
  exists s'. rewrite !Hhas by (by vm_compute). split_and!; try done.
  { intros j' Hj'. by rewrite Hrefs, decide_False. }
  replace (<[v := e']> M) with (set_entry v e' M) by (unfold set_entry; by rewrite Hhas by (by vm_compute)).
  eapply (space_set s U D T M O Hus s'); try done.
  - by apply (entry_range s U HU).
  - intros t' Ht'. split; [by eapply table_owned|]. intros b _. by rewrite Hram.
  - intros w e1. rewrite lookup_set_entry, Hhas by (by vm_compute). case_decide as Hw.
    + intros [= <-]. rewrite Hhas by (by vm_compute). split; [done|]. by exists i'.
    + intros Hw'. by apply (us_page _ _ _ _ _ _ Hus) in Hw'.
  - unfold set_entry. rewrite Hhas by (by vm_compute). change (has f PTE_P) with true. by eapply (counted_move s U D T M O Hus v e e' i i').
Qed.

End Cow.

(** Bytes outside the tables are free to change. *)
Lemma space_ram s U D T M O m :
  uspace s U D T M O →
  (∀ t b, table D T t → page_to_addr s t ≤ b < page_to_addr s t + PGSIZE → mload m b = mload (ram s) b) →
  uspace (with_ram m s) U D T M O.
Proof.
  intros Hus Hm. apply (space_frame s U D T M O Hus); try done.
  - apply pmm_ok_ram, Hus.
  - intros t Ht. split; [by eapply table_owned|]. intros b Hb. by eapply Hm.
  - apply counted_ram, Hus.
Qed.

Section CowFault.
Context (s : pmm) (U : gmap Z Z) (D : Z) (T M : gmap Z Z) (O : Z → Z).
Context (Hus : uspace s U D T M O).
Context (k t j e i : Z).
Context (Htk : T !! k = Some t) (Hj : 0 ≤ j < 1024) (HM : M !! (k * 1024 + j) = Some e).
Context (Hi : U !! i = Some 0) (He : pte_page_kva e = page_to_addr s i) (Hnt : ¬ table D T i).

Let HU : pmm_ok s U := us_pool _ _ _ _ _ _ Hus.

Lemma cow_sole : 1 ≤ mapped M (page_to_addr s i) ∧ mapped M (page_to_addr s i) + O i = refs s i ∧ 0 ≤ O i.
Proof.
  split_and!; [by eapply mapped_pos| |]; [eapply ct_refs|eapply ct_pos]; try apply Hus; done.
Qed.

(** The sole owner of the page makes it writable in place. *)
Lemma cow_take :
  0 ≤ e < 2 ^ 32 → has e PTE_P = true → has e PTE_U = true → refs s i = 1 →
  let e' := Z.land (Z.lor e PTE_W) (u32 (Z.lnot PTE_COW)) in
  let s' := wr (page_to_addr s t + 4 * j) e' s in
  let M' := <[k * 1024 + j := e']> M in
  uspace s' U D T M' O ∧ keeps_data s U D T s' ∧ own_copy s e s' U M' O e'.
Proof.
  intros Hre HP Hu Hr1 e' s' M'. destruct (cow_entry e Hre HP Hu) as (Hr & Hkva & HP' & HU' & HW' & HC').
  fold e' in Hr, Hkva, HP', HU', HW', HC'.
  assert (table D T t) as Htt by (right; by eexists). pose proof cow_sole as (Hmp & Hci & HO).
  assert (keeps_data s U D T s') as Hkeep.
  { split; [done|]. intros n b Hk Hnk Hb. unfold s'. rewrite ram_wr. apply mload_store32.
    pose proof (data_byte s U D T M O Hus n b Hk Hnk Hb t Htt). page_lia. }
  split_and!; [|done|split; [done| |]].
  - by eapply space_reflag.
  - intros off Hoff. rewrite Hkva, He. by apply (proj2 Hkeep i); [..|lia].
  - exists i. rewrite Hkva. split_and!; [done|done|done|lia|]. unfold M'.
    rewrite (mapped_update M _ e), Hkva, He, !decide_True by done. lia.
Qed.

Lemma memcpy_page m a b x : a + PGSIZE ≤ b ∨ b + PGSIZE ≤ a →
  mload (memcpy m a b (Z.to_nat PGSIZE)) x =
  if decide (a ≤ x < a + PGSIZE) then mload m (b + (x - a)) else mload m x.
Proof. intros Hab. rewrite mload_memcpy, Z2Nat.id by page_lia. done. Qed.

(** Otherwise the page is copied and the copy mapped instead. *)
Lemma cow_dup a s1 m :
  refs s i ≠ 1 → alloc_page s = Done (Some a, s1) →
  (∀ x, a + PGSIZE ≤ page_to_addr s i ∨ page_to_addr s i + PGSIZE ≤ a →
     mload m x = if decide (a ≤ x < a + PGSIZE) then mload (ram s1) (page_to_addr s i + (x - a))
                 else mload (ram s1) x) →
  let e' := Z.lor (Z.lor (Z.lor (PA2PTE (V2P a)) PTE_P) PTE_U) PTE_W in
  let M' := <[k * 1024 + j := e']> M in
  ∃ s3 U', put_page (page_to_addr s i) (with_ram m s1) = Done s3 ∧
    let s' := wr (page_to_addr s t + 4 * j) e' s3 in
    uspace s' U' D T M' O ∧ (U ⊆ U' ∧ fresh_pages U U') ∧ keeps_data s U D T s' ∧ own_copy s e s' U' M' O e'.
Proof.
  intros Hn1 Hal Hm' e' M'. pose proof cow_sole as (Hmp & Hci & HO).
  destruct (space_alloc s U D T M O Hus) as (r & s1' & Hal' & Hr). rewrite Hal in Hal'.
  injection Hal' as <- <-. destruct Hr as (i' & -> & HUi' & Hst & Hus1 & Hm0 & Hrefs & Hram).
  assert (i ≠ i') as Hii by congruence.
  assert (∀ n, page_to_addr s1 n = page_to_addr s n) as Hpa by (intros; by apply page_to_addr_same).
  assert (¬ table D T i') as Hnt'.
  { intros Hx. pose proof (table_owned _ _ _ _ _ _ Hus i' Hx). congruence. }
  set (U1 := <[i' := 0]> U) in *.
  assert (U1 !! i' = Some 0) as Hi1' by apply lookup_insert_eq.
  assert (∀ n, U !! n = Some 0 → U1 !! n = Some 0 ∧ n ≠ i') as Hweak.
  { intros n Hn. assert (n ≠ i') by congruence. unfold U1. by rewrite lookup_insert_ne. }
  assert (∀ n, U !! n = Some 0 → page_to_addr s n + PGSIZE ≤ page_to_addr s i' ∨
            page_to_addr s i' + PGSIZE ≤ page_to_addr s n) as Hap.
  { intros n Hn. rewrite <- !Hpa. destruct (Hweak n Hn).
    by apply (pages_apart s1 U1 (us_pool _ _ _ _ _ _ Hus1)). }
  assert (∀ x, mload m x = if decide (page_to_addr s i' ≤ x < page_to_addr s i' + PGSIZE)
            then mload (ram s1) (page_to_addr s i + (x - page_to_addr s i')) else mload (ram s1) x) as Hm.
  { intros x. apply Hm'. destruct (Hap i Hi); lia. }
  set (s2 := with_ram m s1).
  assert (∀ n b, U !! n = Some 0 → page_to_addr s n ≤ b < page_to_addr s n + PGSIZE →
            mload (ram s2) b = mload (ram s) b) as Hold.
  { intros n b Hn Hb. change (ram s2) with m.
    rewrite Hm, decide_False, Hram, decide_False by (destruct (Hap n Hn); lia). done. }
  assert (uspace s2 U1 D T M (upd O i' 1)) as Hus2.
  { apply space_ram; [done|]. intros t' b Ht' Hb. rewrite Hpa in Hb.
    pose proof (table_owned _ _ _ _ _ _ Hus t' Ht') as HUt'. change m with (ram s2).
    rewrite (Hold t' b HUt' Hb). rewrite Hram, decide_False; [done|]. destruct (Hap t' HUt'); lia. }
  destruct (cow_copy s2 U1 D T M (upd O i' 1) Hus2 k t j e i i') as
    (s3 & Hput & Hram3 & Hst3 & Hrefs3 & Hkva & HW & HC & HP & Hus3); try done.
  { rewrite He, <- Hpa. done. } { by apply Hweak. } { rewrite upd_eq. lia. }
  { change (refs s2 i) with (refs s1 i). rewrite Hrefs, decide_False by done. lia. }
  change (page_to_addr s2) with (page_to_addr s1) in *. rewrite !Hpa in *. fold e' in Hkva, HW, HC, HP, Hus3.
  exists s3, U1. split; [exact Hput|]. intros s'.
  assert (keeps_data s U D T s') as Hkeep.
  { split; [exact (eq_trans Hst3 Hst)|]. intros n b Hn Hnn Hb. unfold s'. rewrite ram_wr, mload_store32.
    - rewrite Hram3. by eapply Hold.
    - assert (table D T t) as Htt by (right; by eexists).
      pose proof (data_byte s U D T M O Hus n b Hn Hnn Hb t Htt). page_lia. }
  assert (∀ n, n ≠ i' → upd (upd O i' 1) i' (upd O i' 1 i' - 1) n = O n) as HO'.
  { intros n Hn. by rewrite !upd_ne. }
  split_and!; [|by apply insert_subseteq|apply fresh_pages_insert|done|].
  - eapply uspace_ext; [exact Hus3|]. intros n. destruct (decide (n = i')) as [->|]; [|by rewrite HO'].
    rewrite !upd_eq. by rewrite (ct_none _ _ _ _ _ _ (us_count _ _ _ _ _ _ Hus)) by congruence.
  - split; [done| |].
    + intros off Hoff. unfold s'. rewrite Hkva, He, ram_wr, mload_store32, Hram3.
      * change (ram s2) with m. rewrite Hm, decide_True by lia.
        replace (page_to_addr s i + (page_to_addr s i' + off - page_to_addr s i'))
          with (page_to_addr s i + off) by lia.
        rewrite Hram, decide_False by (destruct (Hap i Hi); lia). done.
      * assert (table D T t) as Htt by (right; by eexists). pose proof (table_owned _ _ _ _ _ _ Hus t Htt) as HUt.
        destruct (Hap t HUt); page_lia.
    + exists i'. rewrite Hkva. split_and!.
      * done.
      * symmetry. apply page_to_addr_same. exact (eq_trans Hst3 Hst).
      * change (refs s' i') with (refs s3 i'). rewrite Hrefs3 by done.
        change (refs s2 i') with (refs s1 i'). by rewrite Hrefs, decide_True.
      * by rewrite (ct_none _ _ _ _ _ _ (us_count _ _ _ _ _ _ Hus)) by congruence.
      * unfold M'. rewrite (mapped_update M _ e), Hkva, He, Hm0, decide_False, decide_True by
          (done || (destruct (Hap i Hi); page_lia)). lia.
Qed.

End CowFault.

(** What a copy-on-write fault at [va] leads to. *)
Definition cow_result (s : pmm) (U : gmap Z Z) (D : Z) (T M : gmap Z Z) (O : Z → Z) (va r : Z) (s' : pmm) : Prop :=
  (r = -1 ∧ s' = s ∧ ∀ e, M !! vpn va = Some e → has e PTE_COW = true → alloc_page s = Done (None, s)) ∨
  (r = 0 ∧ ∃ e e' U', M !! vpn va = Some e ∧ has e PTE_COW = true ∧
     uspace s' U' D T (<[vpn va := e']> M) O ∧ (U ⊆ U' ∧ fresh_pages U U') ∧ keeps_data s U D T s' ∧
     own_copy s e s' U' (<[vpn va := e']> M) O e').

Lemma round_down_user va : 0 ≤ va < USEREND →
  0 ≤ PGROUNDDOWN va < USEREND ∧ vpn (PGROUNDDOWN va) = vpn va ∧ (PGSIZE | PGROUNDDOWN va) ∧
  va = PGROUNDDOWN va + va mod PGSIZE.
Proof.
  intros Hva. rewrite PGROUNDDOWN_spec by page_lia. pose proof (Z_div_mod_eq_full va PGSIZE).
  pose proof (Z.mod_pos_bound va PGSIZE ltac:(done)). pose proof (Z.div_pos va PGSIZE ltac:(lia) ltac:(done)).
  unfold vpn. rewrite Z.div_mul by done. split_and!; try page_lia. by exists (va / PGSIZE).
Qed.

Lemma cow_fault_ok s U D T M O va :
  uspace s U D T M O → 0 ≤ va < USEREND →
  ∃ r s', uvm_cow_fault (page_to_addr s D) va s = Done (r, s') ∧ cow_result s U D T M O va r s'.
Proof.
  intros Hus Hva0. unfold uvm_cow_fault. destruct (round_down_user va Hva0) as (Hva & Hvd & _).
  unfold cow_result. rewrite <- Hvd. set (a := PGROUNDDOWN va) in *. clearbody a.
  pose proof (dir_addr_pos _ _ _ _ _ _ Hus). rewrite (proj2 (Z.eqb_neq (page_to_addr s D) 0)) by lia.
  rewrite (proj2 (Z.ltb_ge a USERBASE)), (proj2 (Z.leb_gt USEREND a)) by (unfold USERBASE; lia). cbn [orb].
  destruct (walk_lookup s U D T M O Hus a false Hva) as (p & -> & Hp). run.
  destruct (T !! PDX a) as [t|] eqn:Ht.
  2:{ destruct Hp as [-> HM]. exists (-1), s. split; [done|]. left. rewrite HM. by split_and!. }
  destruct Hp as (-> & Hp0 & HM). rewrite (proj2 (Z.eqb_neq _ 0)) by done.
  set (e := rd s _) in *. destruct (has e PTE_P) eqn:HP; cbn [orb negb].
  2:{ exists (-1), s. split; [done|]. left. rewrite HM. by split_and!. }
  destruct (has e PTE_COW) eqn:HC; cbn [orb negb].
  2:{ exists (-1), s. split; [done|]. left. rewrite HM. split_and!; try done. intros e1 [= <-]. congruence. }
  destruct (us_page _ _ _ _ _ _ Hus _ _ HM) as (Hu & i & Hi & He & Hnt).
  change (P2V (PTE_ADDR e)) with (pte_page_kva e). rewrite He.
  rewrite (page_refcount_refs s U D T M O Hus i Hi). run.
  pose proof (PTX_range a). rewrite (vpn_split a ltac:(page_lia)) in *.
  destruct (Z.eqb_spec (refs s i) 1) as [Hr1|Hn1].
  - destruct (cow_take s U D T M O Hus (PDX a) t (PTX a) e i) as (Hus' & Hkeep & Hown); try done.
    { apply load32_range. }
    eexists 0, _. split; [done|]. right. split; [done|].
    exists e, (Z.land (Z.lor e PTE_W) (u32 (Z.lnot PTE_COW))), U. split_and!; try done. apply fresh_pages_refl.
  - destruct (space_alloc s U D T M O Hus) as (r & s1 & Hal & _). rewrite Hal. run.
    destruct r as [m|].
    + destruct (cow_dup s U D T M O Hus (PDX a) t (PTX a) e i Ht ltac:(lia) HM Hi He Hnt m s1
        (memcpy (ram s1) m (page_to_addr s i) (Z.to_nat PGSIZE)) Hn1 Hal) as (s3 & U' & -> & Hus' & HUs & Hkeep & Hown).
      { intros x Hx. by apply memcpy_page. }
      eexists 0, _. split; [done|]. right. split; [done|]. by eexists e, _, U'.
    + exists (-1), s1. split; [done|]. left. destruct (space_alloc s U D T M O Hus) as (r & s1' & Hal' & Hr).
      rewrite Hal in Hal'. injection Hal' as <- <-. by subst s1.
Qed.

Section Refs.
Context (s : pmm) (U : gmap Z Z) (D : Z) (T M : gmap Z Z) (O : Z → Z).
Context (Hus : uspace s U D T M O).

(** Dropping a reference that is the caller's own. *)
Lemma space_put i : U !! i = Some 0 → 1 ≤ O i →
  ∃ s1, put_page (page_to_addr s i) s = Done s1 ∧ ram s1 = ram s ∧ mem_start s1 = mem_start s ∧
    uspace s1 (if refs s i =? 1 then delete i U else U) D T M (upd O i (O i - 1)).
Proof.
  intros Hi HO. destruct (us_count _ _ _ _ _ _ Hus) as [C1 C2 C3 C4 C5].
  destruct (put_page_refs s U D T M O Hus i Hi) as (s1 & Hrun & Hram & Hst & Hrefs & Hok).
  set (U1 := if _ =? _ then _ else _) in *.
  assert (∀ k, U1 !! k = Some 0 → U !! k = Some 0 ∧ (k = i → 2 ≤ refs s i)) as Hsub.
  { intros k. unfold U1. destruct (Z.eqb_spec (refs s i) 1) as [|Hne].
    - intros [? ?]%lookup_delete_Some. split; [done|congruence].
    - intros Hk. split; [done|]. intros ->. pose proof (C5 i Hi). lia. }
  assert (∀ k, U !! k = Some 0 → k ≠ i ∨ refs s i ≠ 1 → U1 !! k = Some 0) as Hkeep.
  { intros k Hk Hki. unfold U1. destruct (Z.eqb_spec (refs s i) 1); [|done].
    rewrite lookup_delete_ne by naive_solver. done. }
  exists s1. split_and!; [done..|]. apply (space_frame s U D T M O Hus); try done.
  - intros k Hk. split; [|intros b _; by rewrite Hram]. apply Hkeep; [by eapply table_owned|].
    destruct (decide (k = i)) as [->|]; [right|by left]. specialize (C2 i Hk). lia.
  - intros k Hk Hmk. apply Hkeep; [done|]. destruct (decide (k = i)) as [->|]; [right|by left].
    destruct (decide (refs s i = 1)) as [Hr1|]; [|done].
    assert (¬ table D T i) as Hni by (intros Hti; specialize (C2 i Hti); lia).
    specialize (C1 i Hi Hni). lia.
  - split; unfold upd.
    + intros k Hk Hnk. destruct (Hsub k Hk) as [HUk _]. specialize (C1 k HUk Hnk).
      rewrite (page_to_addr_same s s1), Hrefs by done. case_decide; subst; lia.
    + intros k Hk. specialize (C2 k Hk). rewrite Hrefs. case_decide; subst; lia.
    + intros k. case_decide; subst; [lia|apply C3].
    + intros k Hk. case_decide; subst.
      * destruct (decide (refs s i = 1)) as [Hr1|Hr1]; [|exfalso; apply Hk, Hkeep; auto].
        pose proof (mapped_nonneg M (page_to_addr s i)).
        assert (¬ table D T i) as Hni by (intros Hti; specialize (C2 i Hti); lia).
        specialize (C1 i Hi Hni). lia.
      * apply C4. intros HUk. apply Hk, Hkeep; auto.
    + intros k Hk. destruct (Hsub k Hk) as [HUk H2]. rewrite Hrefs. case_decide; [|by apply C5].
      specialize (H2 ltac:(done)). lia.
Qed.

(** Taking one more reference on a page. *)
Lemma space_get i : U !! i = Some 0 → refs s i + 1 < 2 ^ 32 →
  ∃ s1, get_page (page_to_addr s i) s = Done s1 ∧ ram s1 = ram s ∧ mem_start s1 = mem_start s ∧
    (∀ k, refs s1 k = if decide (k = i) then refs s i + 1 else refs s k) ∧
    uspace s1 U D T M (upd O i (O i + 1)).
Proof.
  intros Hi Hmax. destruct (us_count _ _ _ _ _ _ Hus) as [C1 C2 C3 C4 C5].
  destruct (us_pool _ _ _ _ _ _ Hus) as [B Hv].
  destruct (view_used_page _ _ _ _ _ Hv Hi) as (pg & Hpg & Hord & Ha).
  assert (refs s i = _refcount pg) as Hr by (unfold refs; by rewrite Hpg).
  unfold get_page. rewrite Ha, Hpg. simpl. rewrite Hord, Z.eqb_refl. simpl.
  rewrite u32_small by (pose proof (C5 i Hi); lia). eexists. split; [done|].
  set (s1 := with_mem_map _ s).
  assert (∀ k, refs s1 k = if decide (k = i) then refs s i + 1 else refs s k) as Hrefs.
  { intros k. unfold refs, s1. cbn [mem_map with_mem_map]. rewrite lookup_insert.
    repeat case_decide; subst; try done. by rewrite Hpg. }
  split_and!; [done..|]. apply (space_frame s U D T M O Hus); try done.
  - exists B. unfold s1. rewrite <- Hord. by apply view_refs.
  - intros k Hk. split; [by eapply table_owned|done].
  - split; unfold upd.
    + intros k Hk Hnk. rewrite Hrefs. specialize (C1 k Hk Hnk).
      change (page_to_addr s1 k) with (page_to_addr s k). case_decide; subst; lia.
    + intros k Hk. rewrite Hrefs. specialize (C2 k Hk). case_decide; subst; lia.
    + intros k. specialize (C3 k). case_decide; subst; lia.
    + intros k Hk. case_decide; subst; [done|by apply C4].
    + intros k Hk. rewrite Hrefs. specialize (C5 k Hk). case_decide; subst; lia.
Qed.

End Refs.

(** ** The contracts *)

(** mapping one page the caller holds a reference on always returns.  It
    succeeds exactly when the address is free and a page table can be had; then
    the address space has this one mapping more, with the page, the caller's
    permissions and user access, and the caller's reference has become the
    mapping's.  On failure nothing changes at all. *)
Theorem uvmmap_spec s U D T M O va i perm :
  uspace s U D T M O → 0 ≤ va < USEREND → (PGSIZE | va) →
  U !! i = Some 0 → ¬ table D T i → 1 ≤ O i → 0 ≤ perm < PGSIZE →
  ∃ r s', uvmmap (page_to_addr s D) va (V2P (page_to_addr s i)) PGSIZE perm s = Done (r, s') ∧
  ((r = -1 ∧ s' = s ∧ (is_Some (M !! vpn va) ∨ T !! PDX va = None ∧ alloc_page s = Done (None, s))) ∨
   (r = 0 ∧ M !! vpn va = None ∧ ∃ U' T', grows s U D T s' U' T' ∧
      uspace s' U' D T' (<[vpn va := user_pte (V2P (page_to_addr s i)) perm]> M) (upd O i (O i - 1)))).
Proof. intros Hus. by apply uvmmap_ok. Qed.

(** unmapping a range with its pages always succeeds: exactly the mappings
    of the range are gone, each page lost one reference and returned to the
    pool when that was the last, pages others refer to are still there, and
    no data changed. *)
Theorem uvmunmap_spec s U D T M O va n :
  uspace s U D T M O → 0 ≤ va → (PGSIZE | va) → 0 < n → va + n * PGSIZE ≤ USEREND →
  ∃ s' U', uvmunmap (page_to_addr s D) va n true s = Done (0, s') ∧
    uspace s' U' D T (del_range (vpn va) (vpn va + n) M) O ∧ shrinks s U D T O s' U'.
Proof. intros Hus. by apply uvmunmap_ok. Qed.

(** a copy-on-write fault always returns.  It fails, changing nothing, when
    the page is not copy-on-write or no page is left for the copy.  Otherwise
    the page is now mapped writable, reads as before, and is the space's own:
    one reference, no other user.  All other mappings, and the bytes of all
    pages that existed before, are unchanged. *)
Theorem uvm_cow_fault_spec s U D T M O va :
  uspace s U D T M O → 0 ≤ va < USEREND →
  ∃ r s', uvm_cow_fault (page_to_addr s D) va s = Done (r, s') ∧ cow_result s U D T M O va r s'.
Proof. intros Hus. by apply cow_fault_ok. Qed.
