(* ===== verification/Mmap.v ===== *)
(** [Mmap]: the address-space metadata of kernel/mm/mmap.c, with [struct vma]
    and [struct mm_struct] of kernel/proc.h and [sys_brk] of kernel/sysproc.c.

    A [struct proc *] is seen through its [mm]: [None] stands for a null process
    or a null [p->mm], which every function treats alike. *)
From Stdlib Require Import ZArith Lia.
From stdpp Require Import numbers strings gmap list sets.
From S2P Require Import Prelude MemLayout Buddy BuddySpec Vm.
Open Scope Z_scope.

Definition NVMA : nat := 64.
Definition PROT_READ : Z := 1.
Definition PROT_WRITE : Z := 2.
Definition PROT_EXEC : Z := 4.
Definition MAP_SHARED : Z := 0x01.
Definition MAP_PRIVATE : Z := 0x02.
Definition MAP_FIXED : Z := 0x10.
Definition MAP_ANONYMOUS : Z := 0x20.

Record vma := Vma { used : bool; start : Z; end_ : Z; prot : Z; flags : Z }.

Record mm_struct := Mm {
  pgdir : Z;
  user_base : Z;
  task_size : Z;
  mmap_base : Z;
  stack_top : Z;
  brk : Z;
  brk_start : Z;
  vmas : list vma
}.

Definition with_vmas (l : list vma) (m : mm_struct) : mm_struct :=
  Mm (pgdir m) (user_base m) (task_size m) (mmap_base m) (stack_top m) (brk m) (brk_start m) l.
Definition with_brk (b : Z) (m : mm_struct) : mm_struct :=
  Mm (pgdir m) (user_base m) (task_size m) (mmap_base m) (stack_top m) b (brk_start m) (vmas m).

Definition no_vma : vma := Vma false 0 0 0 0.

(** The fields [mm_create] sets, around a fresh page directory. *)
Definition mm_init (pgdir : Z) : mm_struct :=
  Mm pgdir USERLOAD USEREND USERHEAP_TOP USERSTACK USERLOAD USERLOAD (replicate NVMA no_vma).

Definition proc_pagetable (p : option mm_struct) : Z := from_option pgdir 0 p.
Definition proc_task_size (p : option mm_struct) : Z := from_option task_size 0 p.
Definition proc_user_base (p : option mm_struct) : Z := from_option user_base USERLOAD p.
Definition proc_brk (p : option mm_struct) : Z := from_option brk USERLOAD p.
Definition proc_brk_start (p : option mm_struct) : Z := from_option brk_start USERLOAD p.
Definition proc_vmas (p : option mm_struct) : list vma := from_option vmas [] p.

(** [-1] for a VMA that is no shared-memory attachment. *)
Definition vma_shmid (v : vma) : Z :=
  if negb (used v) then -1
  else
    let id := Z.land (Z.shiftr (u32 (flags v)) 16) 0xffff in
    if id =? 0 then -1 else id - 1.

Definition vma_flags_with_shmid (fl shmid : Z) : Z :=
  let fl := Z.land fl 0xffff in
  if 0 <=? shmid then Z.lor fl (Z.shiftl (Z.land (shmid + 1) 0xffff) 16) else fl.

Definition vma_overlap_range (p : option mm_struct) (st en : Z) : bool :=
  existsb (λ v, used v && (st <? end_ v) && (start v <? en)) (proc_vmas p).

(** [for (va = start; va < end; va += PGSIZE) if (walkaddr(pgdir, va)) return 0] *)
Fixpoint unmapped_from (fuel : nat) (pgd va en : Z) (s : pmm) : outcome bool :=
  match fuel with
  | O => NoFuel
  | S fuel =>
      if va <? en then
        a ← walkaddr pgd va s;
        if negb (a =? 0) then mret false else unmapped_from fuel pgd (u32 (va + PGSIZE)) en s
      else mret true
  end.

Definition region_available (p : option mm_struct) (st en : Z) (s : pmm) : outcome bool :=
  if (st <? proc_user_base p) || (USERHEAP_TOP <? en) || (en <=? st) then mret false
  else if st <? PGROUNDUP (proc_brk p) then mret false
  else if vma_overlap_range p st en then mret false
  else unmapped_from (S (Z.to_nat ((en - st + PGSIZE - 1) / PGSIZE))) (proc_pagetable p) st en s.

(** The downward search of [find_mmap_addr]. *)
Fixpoint find_down (fuel : nat) (p : option mm_struct) (low len st : Z) (s : pmm) : outcome Z :=
  match fuel with
  | O => NoFuel
  | S fuel =>
      if st <? low then mret 0
      else
        ok ← region_available p st (u32 (st + len)) s;
        if ok : bool then mret st
        else if st <? u32 (low + PGSIZE) then mret 0
        else find_down fuel p low len (st - PGSIZE) s
  end.

Definition find_mmap_addr (p : option mm_struct) (len : Z) (s : pmm) : outcome Z :=
  let low := PGROUNDUP (proc_brk p) in
  let high := from_option mmap_base USERHEAP_TOP p in
  if (len =? 0) || (high <=? low) || (high - low <? len) then mret 0
  else
    let st := PGROUNDDOWN (high - len) in
    find_down (S (Z.to_nat ((high - low) / PGSIZE))) p low len st s.

Definition prot_ok (pr : Z) : bool := negb (Z.land pr (Z.lor (Z.lor PROT_READ PROT_WRITE) PROT_EXEC) =? 0).

Fixpoint find_index (f : vma → bool) (l : list vma) (i : nat) : option nat :=
  match l with
  | [] => None
  | v :: l => if f v then Some i else find_index f l (S i)
  end.

Definition vma_alloc_slot (p : option mm_struct) : option nat :=
  find_index (λ v, negb (used v)) (proc_vmas p) 0.
Definition vma_find (p : option mm_struct) (st en : Z) : option nat :=
  find_index (λ v, used v && (start v =? st) && (end_ v =? en)) (proc_vmas p) 0.
Definition vma_lookup (p : option mm_struct) (va : Z) : option nat :=
  find_index (λ v, used v && (start v <=? va) && (va <? end_ v)) (proc_vmas p) 0.

Definition clear_slot (v : vma) : vma := Vma false (start v) (end_ v) (prot v) (flags v).
Definition vma_clear (m : mm_struct) : mm_struct := with_vmas (clear_slot <$> vmas m) m.
Definition vma_copy (dst src : mm_struct) : mm_struct := with_vmas (vmas src) dst.

Definition set_slot (i : nat) (v : vma) (m : mm_struct) : mm_struct := with_vmas (<[i := v]> (vmas m)) m.

(** The index of the new VMA. *)
Definition vma_create (m : mm_struct) (st en pr fl shmid : Z) (s : pmm)
    : outcome (option nat * mm_struct) :=
  if en <=? st then mret (None, m)
  else
    ok ← region_available (Some m) st en s;
    if negb ok then mret (None, m)
    else
      match vma_alloc_slot (Some m) with
      | None => mret (None, m)
      | Some i => mret (Some i, set_slot i (Vma true st en pr (vma_flags_with_shmid fl shmid)) m)
      end.

Definition vma_overlaps_brk (p : option mm_struct) (old_brk new_brk : Z) : bool :=
  if new_brk <=? old_brk then false else vma_overlap_range p old_brk new_brk.

(** [(uint)-1] *)
Definition MAP_FAILED : Z := u32 (-1).

(** Where the mapping goes: [addr] itself under [MAP_FIXED], else a hole. *)
Definition mmap_place (m : mm_struct) (addr len fl : Z) (s : pmm) : outcome (option Z) :=
  if has fl MAP_FIXED then
    if negb (Z.land addr (PGSIZE - 1) =? 0) then mret None
    else
      ok ← region_available (Some m) addr (u32 (addr + len)) s;
      mret (if ok : bool then Some addr else None)
  else
    a ← find_mmap_addr (Some m) len s;
    mret (if a =? 0 then None else Some a).

Definition do_mmap (m : mm_struct) (addr len pr fl fd : Z) (s : pmm) : outcome (Z * mm_struct) :=
  if (pgdir m =? 0) || (len =? 0) then mret (MAP_FAILED, m)
  else
    let len := PGROUNDUP len in
    if (len =? 0) || (USERHEAP_TOP - user_base m <? len) then mret (MAP_FAILED, m)
    else
      let fl := Z.land fl 0xffff in
      if negb (has fl MAP_ANONYMOUS) || negb (has fl MAP_PRIVATE) then mret (MAP_FAILED, m)
      else if has fl MAP_SHARED then mret (MAP_FAILED, m)
      else if negb (fd =? -1) then mret (MAP_FAILED, m)
      else if negb (prot_ok pr) then mret (MAP_FAILED, m)
      else
        st ← mmap_place m addr len fl s;
        match st with
        | None => mret (MAP_FAILED, m)
        | Some st =>
            match vma_alloc_slot (Some m) with
            | None => mret (MAP_FAILED, m)
            | Some i => mret (st, set_slot i (Vma true st (u32 (st + len)) pr fl) m)
            end
        end.

(** [mmap_unmap_pages]: one [uvmunmap] per page, results ignored. *)
Fixpoint mmap_unmap_pages (fuel : nat) (pgd va en : Z) (s : pmm) : outcome pmm :=
  match fuel with
  | O => NoFuel
  | S fuel =>
      if va <? en then
        '(_, s) ← uvmunmap pgd va 1 true s;
        mmap_unmap_pages fuel pgd (u32 (va + PGSIZE)) en s
      else mret s
  end.

(** [do_munmap]; a shared-memory VMA goes to [shm_munmap_vma] (kernel/ipc/shm.c). *)
Definition do_munmap (shm_munmap_vma : mm_struct → nat → pmm → outcome (Z * mm_struct * pmm))
    (m : mm_struct) (addr len : Z) (s : pmm) : outcome (Z * mm_struct * pmm) :=
  if (pgdir m =? 0) || (len =? 0) then mret (-1, m, s)
  else if negb (Z.land addr (PGSIZE - 1) =? 0) then mret (-1, m, s)
  else
    let len := PGROUNDUP len in
    let en := u32 (addr + len) in
    if en <? addr then mret (-1, m, s)
    else
      match vma_find (Some m) addr en with
      | None => mret (-1, m, s)
      | Some i =>
          v ← deref (vmas m !! i);
          if 0 <=? vma_shmid v then shm_munmap_vma m i s
          else
            s ← (if pgdir m =? 0 then mret s
                 else mmap_unmap_pages (S (Z.to_nat ((end_ v - start v) / PGSIZE))) (pgdir m) (start v) (end_ v) s);
            mret (0, set_slot i (clear_slot v) m, s)
      end.

(** [sys_brk] after fetching its argument. *)
Definition sys_brk (m : mm_struct) (addr : Z) (s : pmm) : outcome (Z * mm_struct * pmm) :=
  if pgdir m =? 0 then mret (-1, m, s)
  else
    let old := brk m in
    if (addr <? brk_start m) || (USERHEAP_TOP <? addr) then mret (old, m, s)
    else if old <? addr then
      if vma_overlaps_brk (Some m) old addr then mret (old, m, s)
      else if uvmalloc (pgdir m) old addr =? 0 then mret (old, m, s)
      else mret (addr, with_brk addr m, s)
    else if addr <? old then
      '(r, s) ← uvmdealloc (pgdir m) old addr s;
      if r =? 0 then mret (old, m, s) else mret (addr, with_brk addr m, s)
    else mret (addr, with_brk addr m, s).

(** ** What the metadata promises *)

Definition disjoint_vma (v w : vma) : Prop := end_ v ≤ start w ∨ end_ w ≤ start v.

(** A VMA in use is page aligned, above the heap and below the stack guard. *)
Record vma_ok (m : mm_struct) (v : vma) : Prop := {
  vo_align : (PGSIZE | start v) ∧ (PGSIZE | end_ v);
  vo_range : user_base m ≤ start v ∧ start v < end_ v ∧ end_ v ≤ USERHEAP_TOP;
  vo_heap : PGROUNDUP (brk m) ≤ start v
}.

Record mm_ok (m : mm_struct) : Prop := {
  mk_len : length (vmas m) = NVMA;
  mk_base : 0 < user_base m ≤ brk_start m;
  mk_brk : brk_start m ≤ brk m ≤ USERHEAP_TOP;
  mk_top : mmap_base m ≤ USERHEAP_TOP;
  mk_vma i v : vmas m !! i = Some v → used v = true → vma_ok m v;
  mk_disj i j v w : vmas m !! i = Some v → vmas m !! j = Some w → i ≠ j →
    used v = true → used w = true → disjoint_vma v w
}.

(** [r] is a hole of [m]: in range, above the heap, apart from every VMA. *)
Record hole (m : mm_struct) (st en : Z) : Prop := {
  hl_range : user_base m ≤ st ∧ st < en ∧ en ≤ USERHEAP_TOP;
  hl_heap : PGROUNDUP (brk m) ≤ st;
  hl_disj i v : vmas m !! i = Some v → used v = true → end_ v ≤ st ∨ en ≤ start v
}.

Lemma vma_overlap_range_false m st en :
  vma_overlap_range (Some m) st en = false →
  ∀ i v, vmas m !! i = Some v → used v = true → end_ v ≤ st ∨ en ≤ start v.
Proof.
  unfold vma_overlap_range. simpl. intros Hex i v Hi Hu.
  destruct (decide (end_ v ≤ st)) as [|H1]; [by left|].
  destruct (decide (en ≤ start v)) as [|H2]; [by right|]. exfalso.
  apply not_true_iff_false in Hex. apply Hex. apply existsb_exists. exists v. split.
  - apply list_elem_of_In. by eapply list_elem_of_lookup_2.
  - rewrite Hu, !andb_true_iff, !Z.ltb_lt. split_and!; [done|lia..].
Qed.

Lemma walk_ro pgd va user s : ∃ a, walk pgd va false user s = Done (a, s).
Proof. unfold walk. destruct (has _ _); simpl; eauto. Qed.

Lemma walkaddr_total pgd va s : ∃ a, walkaddr pgd va s = Done a.
Proof.
  unfold walkaddr. destruct (pgd =? 0); [by eexists|].
  destruct (walk_ro pgd va false s) as [a ->]. simpl. destruct (_ || _ || _); by eexists.
Qed.

Lemma USERHEAP_TOP_val : USERHEAP_TOP = 0xBFFE0000.
Proof. reflexivity. Qed.

Lemma unmapped_from_total fuel : ∀ pgd va en s,
  0 ≤ va → en ≤ USERHEAP_TOP → (1 ≤ fuel)%nat → en - va ≤ (Z.of_nat fuel - 1) * PGSIZE →
  ∃ b, unmapped_from fuel pgd va en s = Done b.
Proof.
  induction fuel as [|fuel IH]; intros pgd va en s Hva Hen Hf Hle; [lia|]. simpl.
  destruct (Z.ltb_spec va en) as [Hlt|Hge]; [|by eexists].
  destruct (walkaddr_total pgd va s) as [a ->]. simpl. destruct (a =? 0); simpl; [|by eexists].
  rewrite USERHEAP_TOP_val in *. unfold PGSIZE in *.
  rewrite u32_small by lia. apply IH; rewrite ?USERHEAP_TOP_val; lia.
Qed.

Lemma region_available_spec m st en s :
  0 ≤ st → ∃ b, region_available (Some m) st en s = Done b ∧ (b = true → hole m st en).
Proof.
  intros Hst. unfold region_available, proc_user_base, proc_brk, proc_pagetable, from_option.
  destruct (Z.ltb_spec st (user_base m)); cbn [orb]; [by exists false|].
  destruct (Z.ltb_spec USERHEAP_TOP en); cbn [orb]; [by exists false|].
  destruct (Z.leb_spec en st); cbn [orb]; [by exists false|].
  destruct (Z.ltb_spec st (PGROUNDUP (brk m))); [by exists false|].
  destruct (vma_overlap_range (Some m) st en) eqn:Hov; [by exists false|].
  destruct (unmapped_from_total (S (Z.to_nat ((en - st + PGSIZE - 1) / PGSIZE))) (pgdir m) st en s)
    as [b ->]; [lia..| |].
  { pose proof (Z_div_mod_eq_full (en - st + PGSIZE - 1) PGSIZE).
    pose proof (Z.mod_pos_bound (en - st + PGSIZE - 1) PGSIZE).
    pose proof (Z.div_pos (en - st + PGSIZE - 1) PGSIZE). unfold PGSIZE in *. lia. }
  exists b. split; [done|]. intros _. split; [lia|lia|by apply vma_overlap_range_false].
Qed.

Lemma find_index_spec f l : ∀ k i,
  find_index f l k = Some i → ∃ v, l !! (i - k)%nat = Some v ∧ f v = true ∧ (k ≤ i)%nat.
Proof.
  induction l as [|v l IH]; intros k i; simpl; [done|].
  destruct (f v) eqn:Hf; [intros [= <-]; exists v; by rewrite Nat.sub_diag|].
  intros (w & Hw & Hfw & Hk)%IH. exists w. split_and!; [|done|lia].
  replace (i - k)%nat with (S (i - S k)) by lia. done.
Qed.

Lemma vma_alloc_slot_spec m i :
  vma_alloc_slot (Some m) = Some i → ∃ v, vmas m !! i = Some v ∧ used v = false.
Proof.
  intros (v & Hv & Hu & _)%find_index_spec. rewrite Nat.sub_0_r in Hv.
  exists v. split; [done|]. by apply negb_true_iff.
Qed.

(** Registering a hole as a VMA keeps the metadata consistent. *)
Lemma set_slot_ok m i v0 st en pr fl :
  mm_ok m → vmas m !! i = Some v0 → used v0 = false → hole m st en →
  (PGSIZE | st) → (PGSIZE | en) → mm_ok (set_slot i (Vma true st en pr fl) m).
Proof.
  intros [M1 M2 M3 M4 M5 M6] Hi Hu [H1 H2 H3] Hst Hen.
  pose proof (lookup_lt_Some _ _ _ Hi) as Hlt. split; simpl; try done.
  - by rewrite length_insert.
  - intros k v. rewrite list_lookup_insert. case_decide as Hk.
    + intros [= <-] _. split; simpl; [done|lia|lia].
    + intros Hv Hvu. destruct (M5 _ _ Hv Hvu). by split.
  - intros k l v w. rewrite !list_lookup_insert.
    case_decide as Hk; case_decide as Hl; try (destruct Hk, Hl; congruence).
    + intros [= <-] Hw _ _ Hwu. unfold disjoint_vma. simpl. destruct (H3 _ _ Hw Hwu); auto.
    + intros Hv [= <-] _ Hvu _. unfold disjoint_vma. simpl. destruct (H3 _ _ Hv Hvu); auto.
    + eauto.
Qed.

Lemma aligned_round_down a : 0 ≤ a < 2 ^ 32 → (PGSIZE | PGROUNDDOWN a) ∧ a - PGSIZE < PGROUNDDOWN a ≤ a.
Proof.
  intros Ha. rewrite PGROUNDDOWN_spec by done. split; [by exists (a / PGSIZE)|].
  pose proof (Z_div_mod_eq_full a PGSIZE). pose proof (Z.mod_pos_bound a PGSIZE). unfold PGSIZE in *. lia.
Qed.

Lemma find_down_spec fuel : ∀ m low len st s,
  0 ≤ low → low + 2 * PGSIZE < 2 ^ 32 → 0 < len → st + len ≤ USERHEAP_TOP → (PGSIZE | st) →
  st - low < Z.of_nat fuel * PGSIZE → (1 ≤ fuel)%nat →
  ∃ a, find_down fuel (Some m) low len st s = Done a ∧
    (a ≠ 0 → hole m a (a + len) ∧ (PGSIZE | a) ∧ a + len ≤ USERHEAP_TOP).
Proof.
  induction fuel as [|fuel IH]; intros m low len st s Hlow Hl2 Hlen Hst Hal Hf Hf1; [lia|].
  assert (USERHEAP_TOP < 2 ^ 32) as Htop by done. simpl.
  destruct (Z.ltb_spec st low) as [|Hge]; [by exists 0|].
  rewrite (u32_small (st + len)) by lia. rewrite (u32_small (low + PGSIZE)) by (unfold PGSIZE in *; lia).
  destruct (region_available_spec m st (st + len) s ltac:(lia)) as (b & -> & Hb). simpl.
  destruct b; [exists st; split; [done|]; intros _; split_and!; [by apply Hb|done|done]|].
  destruct (Z.ltb_spec st (low + PGSIZE)); [by exists 0|].
  apply IH; try (unfold PGSIZE in *; lia).
  apply Z.divide_sub_r; [done|apply Z.divide_refl].
Qed.

Lemma find_mmap_addr_spec m len s :
  mm_ok m → 0 < len →
  ∃ a, find_mmap_addr (Some m) len s = Done a ∧
    (a ≠ 0 → hole m a (a + len) ∧ (PGSIZE | a) ∧ a + len ≤ USERHEAP_TOP).
Proof.
  intros [M1 M2 M3 M4 M5 M6] Hlen. unfold find_mmap_addr, proc_brk, from_option.
  assert (0 ≤ brk m ≤ 2 ^ 32 - 3 * PGSIZE) as Hbrk.
  { rewrite USERHEAP_TOP_val in *. unfold PGSIZE. lia. }
  destruct (PGROUNDUP_aligned (brk m)) as [_ Hup]; [unfold PGSIZE in *; lia|].
  destruct (Z.eqb_spec len 0); cbn [orb]; [by exists 0|].
  destruct (Z.leb_spec (mmap_base m) (PGROUNDUP (brk m))); cbn [orb]; [by exists 0|].
  destruct (Z.ltb_spec (mmap_base m - PGROUNDUP (brk m)) len); cbn [orb]; [by exists 0|].
  assert (USERHEAP_TOP < 2 ^ 32) as Htop by done.
  destruct (aligned_round_down (mmap_base m - len)) as [Hal Hdn]; [lia|].
  pose proof (Z_div_mod_eq_full (mmap_base m - PGROUNDUP (brk m)) PGSIZE).
  pose proof (Z.mod_pos_bound (mmap_base m - PGROUNDUP (brk m)) PGSIZE).
  pose proof (Z.div_pos (mmap_base m - PGROUNDUP (brk m)) PGSIZE).
  apply find_down_spec; try done; unfold PGSIZE in *; lia.
Qed.

Lemma mmap_place_spec m addr len fl s :
  mm_ok m → 0 ≤ addr < 2 ^ 32 → 0 < len → (PGSIZE | len) → len ≤ USERHEAP_TOP →
  ∃ o, mmap_place m addr len fl s = Done o ∧
    ∀ r, o = Some r → hole m r (r + len) ∧ (PGSIZE | r).
Proof.
  intros Hm Haddr Hlen Hal Hmax. unfold mmap_place. rewrite USERHEAP_TOP_val in *. destruct (has fl MAP_FIXED).
  - destruct (Z.eqb_spec (Z.land addr (PGSIZE - 1)) 0) as [Hz|]; cbn [negb]; [|by exists None].
    destruct (region_available_spec m addr (u32 (addr + len)) s ltac:(lia)) as (b & -> & Hb).
    eexists. split; [done|]. intros r. destruct b; [|done]. intros [= <-]. specialize (Hb eq_refl).
    assert (u32 (addr + len) = addr + len) as Hw.
    { destruct (decide (addr + len < 2 ^ 32)); [apply u32_small; lia|].
      destruct Hb as [(_ & Hlt & _) _ _]. unfold u32 in Hlt.
      replace (addr + len) with (addr + len - 2 ^ 32 + 1 * 2 ^ 32) in Hlt by lia.
      rewrite Z.mod_add, Z.mod_small in Hlt by lia. lia. }
    rewrite Hw in Hb. split; [done|]. change (PGSIZE - 1) with (Z.ones 12) in Hz.
    rewrite Z.land_ones in Hz by lia. by apply Z.mod_divide in Hz.
  - destruct (find_mmap_addr_spec m len s Hm Hlen) as (a & -> & Ha). eexists. split; [done|].
    intros r. destruct (Z.eqb_spec a 0) as [|Hne]; [done|]. intros [= <-].
    destruct (Ha Hne) as (? & ? & _). done.
Qed.

(** [do_mmap] always returns; on success the region is page aligned, at
    least as long as asked for, apart from every mapping, above the heap and
    below the stack guard, and the only change is its new VMA; on failure
    nothing changes.  The VMA table stays consistent either way. *)
Theorem do_mmap_spec m addr len pr fl fd s :
  mm_ok m → 0 ≤ addr < 2 ^ 32 → 0 ≤ len < 2 ^ 32 →
  ∃ r m', do_mmap m addr len pr fl fd s = Done (r, m') ∧ mm_ok m' ∧
    ((r = MAP_FAILED ∧ m' = m) ∨
     (∃ i v0, (PGSIZE | r) ∧ hole m r (r + PGROUNDUP len) ∧ len ≤ PGROUNDUP len ∧
        vmas m !! i = Some v0 ∧ used v0 = false ∧
        m' = set_slot i (Vma true r (r + PGROUNDUP len) pr (Z.land fl 0xffff)) m)).
Proof.
  intros Hm Haddr Hlen. unfold do_mmap.
  assert (∀ A, (∃ r m', Done (MAP_FAILED, m) = Done (r, m') ∧ mm_ok m' ∧
    ((r = MAP_FAILED ∧ m' = m) ∨ A r m'))) as Hfail' by (intros A; exists MAP_FAILED, m; auto).
  destruct (_ || _) eqn:H0; [apply Hfail'|]. apply orb_false_iff in H0 as [_ Hl0%Z.eqb_neq].
  destruct (_ || _) eqn:H1; [apply Hfail'|]. apply orb_false_iff in H1 as [Hl1%Z.eqb_neq Hl2%Z.ltb_ge].
  destruct (negb _ || _); [apply Hfail'|]. destruct (has _ MAP_SHARED); [apply Hfail'|].
  destruct (negb (fd =? -1)); [apply Hfail'|]. destruct (negb (prot_ok pr)); [apply Hfail'|].
  assert (len ≤ 2 ^ 32 - PGSIZE) as Hle.
  { destruct (decide (len ≤ 2 ^ 32 - PGSIZE)); [done|]. rewrite PGROUNDUP_wraps in Hl1 by lia. done. }
  destruct (PGROUNDUP_aligned len ltac:(lia)) as [Hal Hup]. pose proof (mk_base _ Hm).
  destruct (mmap_place_spec m addr (PGROUNDUP len) (Z.land fl 0xffff) s Hm Haddr)
    as (o & -> & Ho); [lia|done|lia|].
  simpl. destruct o as [r|]; [|apply Hfail'].
  destruct (vma_alloc_slot (Some m)) as [i|] eqn:Hslot; [|apply Hfail'].
  destruct (Ho r eq_refl) as [Hh Har]. destruct (vma_alloc_slot_spec m i Hslot) as (v0 & Hv0 & Hu0).
  assert (u32 (r + PGROUNDUP len) = r + PGROUNDUP len) as ->.
  { apply u32_small. destruct Hh as [(? & ? & ?) _ _]. destruct Hm as [_ ? _ _ _ _].
    rewrite USERHEAP_TOP_val in *. lia. }
  eexists _, _. split; [done|]. split; [|right; exists i, v0; split_and!; try done; lia].
  eapply set_slot_ok; try done. by apply Z.divide_add_r.
Qed.
