(* ===== verification/UserMem.v ===== *)
(** [UserMem]: the parts of kernel/mm/vm.c that need the process's metadata:
    demand paging, copying between kernel and user memory, loading program
    images and tearing an address space down.

    [shm_demand_fault] (kernel/ipc/shm.c) and the current process ([cur],
    [myproc()->mm]) are arguments. *)
From Stdlib Require Import ZArith Lia.
From stdpp Require Import numbers strings gmap list sets.
From S2P Require Import Prelude MemLayout Buddy Vm Mmap.
Open Scope Z_scope.

(** [memset(mem, 0, PGSIZE)] *)
Definition zero_page (mem : Z) (s : pmm) : pmm :=
  with_ram (memset (ram s) mem 0 (Z.to_nat PGSIZE)) s.

(** The tail of [uvm_demand_fault]: a zeroed page mapped at [page]. *)
Definition fill_page (pgd page perm : Z) (s : pmm) : outcome (Z * pmm) :=
  '(r, s) ← alloc_page s;
  match r with
  | None => mret (-1, s)
  | Some mem =>
      '(r, s) ← uvmmap pgd page (V2P mem) PGSIZE perm (zero_page mem s);
      if r <? 0 then s ← free_page mem s; mret (-1, s) else mret (0, s)
  end.

Section Faults.
(** [shm_demand_fault(p, v, page, write)] *)
Context (shm_demand_fault : mm_struct → vma → Z → bool → pmm → outcome (Z * pmm)).

(** The permission of a fresh page for [page], or the reason there is none. *)
Definition demand_perm (m : mm_struct) (page : Z) (write : bool) : Z + option vma :=
  if (page <? brk m) && (brk_start m <? page + PGSIZE) then inl (Z.lor PTE_P PTE_W)
  else
    match vma_lookup (Some m) page ≫= λ i, vmas m !! i with
    | None => inr None
    | Some v =>
        if 0 <=? vma_shmid v then inr (Some v)
        else if negb (prot_ok (prot v)) then inr None
        else if write && negb (has (prot v) PROT_WRITE) then inr None
        else inl (if has (prot v) PROT_WRITE then Z.lor PTE_P PTE_W else PTE_P)
    end.

Definition uvm_demand_fault (p : option mm_struct) (va : Z) (write : bool) (s : pmm) : outcome (Z * pmm) :=
  match p with
  | None => mret (-1, s)
  | Some m =>
      if pgdir m =? 0 then mret (-1, s)
      else
        let page := PGROUNDDOWN va in
        if (page <? user_base m) || (USEREND <=? page) then mret (-1, s)
        else
          a ← walkaddr (pgdir m) page s;
          if negb (a =? 0) then mret (0, s)
          else
            match demand_perm m page write with
            | inr None => mret (-1, s)
            | inr (Some v) => shm_demand_fault m v page write s
            | inl perm => fill_page (pgdir m) page perm s
            end
  end.

Definition ensure_user_page (cur : option mm_struct) (pgd va : Z) (write : bool) (s : pmm)
    : outcome (Z * pmm) :=
  let va := PGROUNDDOWN va in
  '(pte, s) ← walk pgd va false false s;
  if negb (pte =? 0) && has (rd s pte) PTE_P then
    if write && has (rd s pte) PTE_COW then
      '(r, s) ← uvm_cow_fault pgd va s;
      if r <? 0 then mret (-1, s) else mret (0, s)
    else mret (0, s)
  else
    match cur with
    | None => mret (-1, s)
    | Some m => if negb (pgdir m =? pgd) then mret (-1, s) else uvm_demand_fault cur va write s
    end.

(** The bytes copied in, or [None] for the result [-1].  [fuel] bounds the
    number of pages. *)
Fixpoint copyin_loop (fuel : nat) (cur : option mm_struct) (pgd srcva n : Z) (acc : list Z) (s : pmm)
    : outcome (option (list Z) * pmm) :=
  match fuel with
  | O => NoFuel
  | S fuel =>
      if n =? 0 then mret (Some acc, s)
      else
        let va := PGROUNDDOWN srcva in
        '(r, s) ← ensure_user_page cur pgd va false s;
        if r <? 0 then mret (None, s)
        else
          pa ← walkaddr pgd va s;
          if pa =? 0 then mret (None, s)
          else
            let chunk := Z.min (PGSIZE - (srcva - va)) n in
            let pa := u32 (pa + (srcva - va)) in
            copyin_loop fuel cur pgd (u32 (srcva + chunk)) (n - chunk)
              (acc ++ load_bytes (ram s) pa (Z.to_nat chunk)) s
  end.

(** A chunk ends at a page boundary, so [n / PGSIZE + 2] rounds are enough. *)
Definition copy_fuel (n : Z) : nat := S (S (S (Z.to_nat (n / PGSIZE)))).

Definition copyin (cur : option mm_struct) (pgd srcva n : Z) (s : pmm) : outcome (option (list Z) * pmm) :=
  if pgd =? 0 then mret (None, s) else copyin_loop (copy_fuel n) cur pgd srcva n [] s.

Fixpoint copyout_loop (fuel : nat) (cur : option mm_struct) (pgd dstva : Z) (src : list Z) (s : pmm)
    : outcome (Z * pmm) :=
  match fuel with
  | O => NoFuel
  | S fuel =>
      match src with
      | [] => mret (0, s)
      | _ =>
          let va := PGROUNDDOWN dstva in
          '(r, s) ← ensure_user_page cur pgd va true s;
          if r <? 0 then mret (-1, s)
          else
            pa ← walkaddr pgd va s;
            if pa =? 0 then mret (-1, s)
            else
              let chunk := Z.to_nat (Z.min (PGSIZE - (dstva - va)) (Z.of_nat (length src))) in
              let pa := u32 (pa + (dstva - va)) in
              copyout_loop fuel cur pgd (u32 (dstva + Z.of_nat chunk)) (drop chunk src)
                (with_ram (store_bytes (ram s) pa (take chunk src)) s)
      end
  end.

Definition copyout (cur : option mm_struct) (pgd dstva : Z) (src : list Z) (s : pmm) : outcome (Z * pmm) :=
  if pgd =? 0 then mret (-1, s) else copyout_loop (copy_fuel (Z.of_nat (length src))) cur pgd dstva src s.

(** [for (i = 0; i + 1 < max; i++)]: the string without its NUL. *)
Fixpoint copyinstr_loop (n : nat) (cur : option mm_struct) (pgd srcva : Z) (acc : list Z) (s : pmm)
    : outcome (option (list Z) * pmm) :=
  match n with
  | O => mret (None, s)
  | S n =>
      '(r, s) ← copyin cur pgd srcva 1 s;
      match r with
      | Some [c] =>
          if c =? 0 then mret (Some acc, s)
          else copyinstr_loop n cur pgd (u32 (srcva + 1)) (acc ++ [c]) s
      | _ => mret (None, s)
      end
  end.

Definition copyinstr (cur : option mm_struct) (pgd srcva max : Z) (s : pmm) : outcome (option (list Z) * pmm) :=
  if (pgd =? 0) || (max =? 0) then mret (None, s)
  else copyinstr_loop (Z.to_nat (max - 1)) cur pgd srcva [] s.

End Faults.

(** One round of [loaduvm]: a page that starts with [bs]. *)
Definition load_page (pgd va : Z) (bs : list Z) (s : pmm) : outcome (Z * pmm) :=
  '(r, s) ← alloc_page s;
  match r with
  | None => mret (-1, s)
  | Some mem =>
      let s := zero_page mem s in
      let s := with_ram (store_bytes (ram s) mem bs) s in
      '(r, s) ← uvmmap pgd va (V2P mem) PGSIZE (Z.lor PTE_P PTE_W) s;
      if r <? 0 then s ← free_page mem s; mret (-1, s) else mret (0, s)
  end.

(** [loaduvm]: [for (off = 0; off < sz; off += PGSIZE)]; images are smaller
    than [2^32 - PGSIZE], so [off] does not wrap. *)
Fixpoint load_pages (fuel : nat) (pgd va : Z) (src : list Z) (s : pmm) : outcome (Z * pmm) :=
  match fuel with
  | O => NoFuel
  | S fuel =>
      match src with
      | [] => mret (0, s)
      | _ =>
          let n := Z.to_nat PGSIZE in
          '(r, s) ← load_page pgd va (take n src) s;
          if r <? 0 then mret (-1, s) else load_pages fuel pgd (u32 (va + PGSIZE)) (drop n src) s
      end
  end.

Definition loaduvm (pgd va : Z) (src : list Z) (s : pmm) : outcome (Z * pmm) :=
  let sz := Z.of_nat (length src) in
  if (pgd =? 0) || (sz =? 0) || negb (va mod PGSIZE =? 0) then mret (-1, s)
  else if (va <? USERLOAD) || (USEREND <? u32 (va + sz)) then mret (-1, s)
  else load_pages (S (S (Z.to_nat (sz / PGSIZE)))) pgd va src s.

(** The page a round of [loaduvm_seg] writes to: the one that is mapped at [i],
    or a fresh one; 0 if there is none. *)
Definition seg_page (pgd i perm pa : Z) (s : pmm) : outcome (Z * pmm) :=
  if pa =? 0 then
    '(r, s) ← alloc_page s;
    match r with
    | None => mret (0, s)
    | Some mem =>
        '(r, s) ← uvmmap pgd i (V2P mem) PGSIZE perm (zero_page mem s);
        if r <? 0 then s ← free_page mem s; mret (0, s) else mret (mem, s)
    end
  else mret (PGROUNDDOWN pa, s).

(** [loaduvm_seg]: [for (i = PGROUNDDOWN(va); i < end; i += PGSIZE)]. *)
Fixpoint load_seg_loop (fuel : nat) (pgd va i en file_end : Z) (src : list Z) (perm : Z) (s : pmm)
    : outcome (Z * pmm) :=
  match fuel with
  | O => NoFuel
  | S fuel =>
      if i <? en then
        pa ← walkaddr pgd i s;
        '(mem, s) ← seg_page pgd i perm pa s;
        if mem =? 0 then mret (-1, s)
        else
          let c_lo := Z.max va i in
          let c_hi := Z.min file_end (i + PGSIZE) in
          let s := if c_lo <? c_hi
                   then with_ram (store_bytes (ram s) (mem + (c_lo - i))
                          (take (Z.to_nat (c_hi - c_lo)) (drop (Z.to_nat (c_lo - va)) src))) s
                   else s in
          load_seg_loop fuel pgd va (u32 (i + PGSIZE)) en file_end src perm s
      else mret (0, s)
  end.

(** [src] holds the [filesz] bytes of the image. *)
Definition loaduvm_seg (pgd va : Z) (src : list Z) (memsz perm : Z) (s : pmm) : outcome (Z * pmm) :=
  let filesz := Z.of_nat (length src) in
  if (pgd =? 0) || (memsz <? filesz) then mret (-1, s)
  else if memsz =? 0 then mret (0, s)
  else if (va <? USERLOAD) || (USEREND <? u32 (va + memsz)) then mret (-1, s)
  else load_seg_loop (copy_fuel memsz) pgd va (PGROUNDDOWN va)
         (u32 (va + memsz)) (u32 (va + filesz)) src perm s.

(** Dropping the pages of one page table. *)
Definition uvmfree_table (pt : Z) (s : pmm) : outcome pmm :=
  '(_, s) ← for_each (seqZ 0 1024)
    (λ j s,
      let pte := pt + 4 * j in
      if negb (has (rd s pte) PTE_P) then mret (Next, s)
      else s ← put_page (pte_page_kva (rd s pte)) s; mret (Next, wr pte 0 s)) s;
  mret s.

(** One round of [uvmfree]: a user page directory entry. *)
Definition uvmfree_pde (pgd i : Z) (s : pmm) : outcome (ctl * pmm) :=
  let pde := rd s (pgd + 4 * i) in
  if has pde PTE_P && has pde PTE_U then
    s ← uvmfree_table (pde_pt_kva pde) s;
    s ← free_page (pde_pt_kva pde) s;
    mret (Next, wr (pgd + 4 * i) 0 s)
  else mret (Next, s).

Definition uvmfree (pgd : Z) (s : pmm) : outcome pmm :=
  if pgd =? 0 then mret s
  else
    '(_, s) ← for_each (seqZ (PDX USERBASE) (PDX (USEREND - 1) + 1 - PDX USERBASE)) (uvmfree_pde pgd) s;
    free_page pgd s.

(** [mm_create] after [kcalloc] succeeded. *)
Definition mm_create (kernel_pgdir : Z) (s : pmm) : outcome (option mm_struct * pmm) :=
  '(d, s) ← uvmcreate kernel_pgdir s;
  if d =? 0 then mret (None, s) else mret (Some (mm_init d), s).

Lemma zero_page_ram mem s b : mload (ram (zero_page mem s)) b =
  if decide (mem ≤ b < mem + PGSIZE) then 0 else mload (ram s) b.
Proof.
  unfold zero_page. cbn [ram with_ram]. rewrite mload_memset, Z2Nat.id by (unfold PGSIZE; lia).
  by rewrite Z.mod_0_l.
Qed.

Lemma zero_page_frame mem s : ∃ m, zero_page mem s = with_ram m s.
Proof. by eexists. Qed.
