(* ===== verification/UserMemSpec.v ===== *)
(** [UserMemSpec]: demand paging and the kernel's access to user memory
    ([UserMem]) in terms of what a user program sees. *)
From Stdlib Require Import ZArith Lia.
From stdpp Require Import numbers strings gmap list sets.
From S2P Require Import Prelude ListHead MemLayout Buddy BuddyInv BuddySpec PageAlloc Vm PageTable VmSpec Mmap.
From S2P Require Import UserMem.
Open Scope Z_scope.

(** The byte a user program reads at [va]. *)
Definition ubyte (s : pmm) (M : gmap Z Z) (va : Z) : option Z :=
  e ← M !! vpn va; Some (mload (ram s) (pte_page_kva e + va mod PGSIZE)).

(** No page is mapped twice. *)
Definition no_alias (M : gmap Z Z) : Prop :=
  ∀ v1 v2 e1 e2, M !! v1 = Some e1 → M !! v2 = Some e2 → pte_page_kva e1 = pte_page_kva e2 → v1 = v2.

(** The user's view after a fault was served, outside the addresses [W]: what
    was mapped reads the same, what is new reads zero. *)
Record same_view (W : Z → Prop) (s : pmm) (M : gmap Z Z) (s' : pmm) (M' : gmap Z Z) : Prop := {
  sv_keep va : 0 ≤ va < USEREND → ¬ W va → is_Some (M !! vpn va) → ubyte s' M' va = ubyte s M va;
  sv_new va : 0 ≤ va < USEREND → ¬ W va → M !! vpn va = None → ubyte s' M' va = None ∨ ubyte s' M' va = Some 0
}.

(** A page somebody else refers to stays allocated and keeps its bytes. *)
Definition others_keep (s : pmm) (U : gmap Z Z) (D : Z) (T : gmap Z Z) (O : Z → Z) (s' : pmm) (U' : gmap Z Z) : Prop :=
  ∀ i, U !! i = Some 0 → ¬ table D T i → 1 ≤ O i →
    U' !! i = Some 0 ∧
    ∀ b, page_to_addr s i ≤ b < page_to_addr s i + PGSIZE → mload (ram s') b = mload (ram s) b.

(** The combined effect of serving a fault in the space [D], or of writing to
    its addresses [W]. *)
Record served (W : Z → Prop) (s : pmm) (U : gmap Z Z) (D : Z) (T M : gmap Z Z) (O : Z → Z)
    (s' : pmm) (U' T' M' : gmap Z Z) : Prop := {
  se_space : uspace s' U' D T' M' O;
  se_start : mem_start s' = mem_start s;
  se_U : U ⊆ U';
  se_table i : U !! i = Some 0 → ¬ table D T i → ¬ table D T' i;
  se_view : same_view W s M s' M';
  se_others : others_keep s U D T O s' U';
  se_alias : no_alias M → no_alias M';
  se_own v e : M' !! v = Some e → M !! v = Some e ∨
    ∃ i, U' !! i = Some 0 ∧ pte_page_kva e = page_to_addr s i ∧ O i = 0;
  se_fresh : fresh_pages U U'
}.

Section Written.
Context (W : Z → Prop).

Lemma same_view_refl s M : same_view W s M s M.
Proof. split; [done|]. intros va _ _ Hv. left. unfold ubyte. by rewrite Hv. Qed.

Lemma served_refl s U D T M O : uspace s U D T M O → served W s U D T M O s U T M.
Proof. intros Hus. split; try done; [apply same_view_refl|by left|by auto with space]. Qed.

(** A user byte lies in an owned data page. *)
Lemma user_page s U D T M O va e : uspace s U D T M O → M !! vpn va = Some e →
  ∃ i, U !! i = Some 0 ∧ ¬ table D T i ∧ pte_page_kva e = page_to_addr s i ∧
    page_to_addr s i ≤ pte_page_kva e + va mod PGSIZE < page_to_addr s i + PGSIZE.
Proof.
  intros Hus He. destruct (us_page _ _ _ _ _ _ Hus _ _ He) as (_ & i & Hi & Hkva & Hnt).
  exists i. pose proof (Z.mod_pos_bound va PGSIZE ltac:(done)). split_and!; try done; lia.
Qed.

(** ** Copy on write *)

Lemma cow_view s U D T M O v e e' s' U' :
  uspace s U D T M O → keeps_data s U D T s' → M !! v = Some e → own_copy s e s' U' (<[v := e']> M) O e' →
  same_view W s M s' (<[v := e']> M).
Proof.
  intros Hus [_ Hkeep] Hv [_ Hb _]. split.
  - intros va Hva _ [e1 He1]. unfold ubyte. rewrite He1. simpl. rewrite lookup_insert. case_decide as Hd.
    + simpl. rewrite <- Hd, Hv in He1. injection He1 as <-. f_equal. apply Hb. by apply Z.mod_pos_bound.
    + rewrite He1. simpl. f_equal. destruct (user_page _ _ _ _ _ _ _ _ Hus He1) as (i & Hi & Hnt & _ & Hr).
      by eapply Hkeep.
  - intros va Hva _ Hn. left. unfold ubyte. rewrite lookup_insert_ne, Hn by congruence. done.
Qed.

Lemma sole_no_alias (M : gmap Z Z) v e' :
  no_alias M → mapped (<[v := e']> M) (pte_page_kva e') = 1 → no_alias (<[v := e']> M).
Proof.
  intros Hna Hone.
  assert (∀ w e, w ≠ v → M !! w = Some e → pte_page_kva e ≠ pte_page_kva e') as Hsole.
  { intros w e Hw He Heq. assert (<[v := e']> M !! v = Some e') as Hv by apply lookup_insert_eq.
    pose proof (mapped_delete _ _ _ (pte_page_kva e') Hv) as Hd. rewrite decide_True in Hd by done.
    assert (delete v (<[v := e']> M) !! w = Some e) as Hw'.
    { rewrite lookup_delete_ne, lookup_insert_ne by done. done. }
    pose proof (mapped_pos _ _ _ _ Hw' Heq). lia. }
  intros v1 v2 e1 e2 [[<- <-]|[Hn1 H1]]%lookup_insert_Some [[<- <-]|[Hn2 H2]]%lookup_insert_Some Heq; try done.
  - exfalso. by eapply (Hsole v2 e2).
  - exfalso. by eapply (Hsole v1 e1).
  - by eapply Hna.
Qed.

Lemma cow_served s U D T M O va r s' :
  uspace s U D T M O → cow_result s U D T M O va r s' →
  ∃ U' M', served W s U D T M O s' U' T M' ∧ (r = -1 ∨ r = 0) ∧
    (∀ v, v ≠ vpn va → M' !! v = M !! v) ∧
    (r = 0 → ∃ e', M' !! vpn va = Some e' ∧ has e' PTE_W = true ∧ has e' PTE_COW = false ∧
       ∃ i, U' !! i = Some 0 ∧ pte_page_kva e' = page_to_addr s' i ∧ O i = 0).
Proof.
  intros Hus [(-> & -> & _)|(-> & e & e' & U' & He & HC & Hus' & [HUs Hfr] & Hkeep & Hown)].
  { exists U, M. split_and!; [by apply served_refl|by left|done|done]. }
  exists U', (<[vpn va := e']> M).
  split_and!; [split|by right|intros v Hv; by rewrite lookup_insert_ne|]; try done.
  - by destruct Hkeep.
  - by eapply cow_view.
  - intros i Hi Hnt _. split; [by eapply lookup_weaken|]. intros b Hb. by eapply (proj2 Hkeep).
  - intros Hna. apply sole_no_alias; [done|]. by destruct (oc_sole _ _ _ _ _ _ _ Hown) as (i & _ & _ & _ & _ & ?).
  - intros v e1 [[<- <-]|[_ ?]]%lookup_insert_Some; [right|by left].
    destruct (oc_sole _ _ _ _ _ _ _ Hown) as (i & Hi & Hkva & _ & HO & _). exists i. split_and!; [done| |done].
    rewrite Hkva. apply page_to_addr_same. by destruct Hkeep.
  - intros _. exists e'. destruct Hown as [(? & ? & ?) _ (i & HUi & Hi & _ & HO & _)].
    split_and!; [apply lookup_insert_eq|done|done|by exists i].
Qed.

(** ** Demand paging *)

#[local] Opaque zero_page.

Lemma served_grows s U D T M O s' U' T' :
  uspace s U D T M O → uspace s' U' D T' M O → grows s U D T s' U' T' →
  served W s U D T M O s' U' T' M.
Proof.
  intros Hus Hus' Hgr. pose proof Hgr as [G1 G2 G3 G4 G5 G6]. split; try done.
  - intros i. by eapply grows_table.
  - split.
    + intros va Hva _ [e He]. unfold ubyte. rewrite He. simpl. f_equal.
      destruct (user_page _ _ _ _ _ _ _ _ Hus He) as (i & Hi & Hnt & _ & Hr). by eapply G5.
    + intros va _ _ Hv. left. unfold ubyte. by rewrite Hv.
  - intros i Hi Hnt _. split; [by eapply lookup_weaken|]. intros b Hb. by eapply G5.
  - by left.
Qed.

(** Mapping a fresh page of the caller's, zero outside [W]. *)
Lemma served_fill s U D T M O s' U' T' v e i :
  uspace s U D T M O → uspace s' U' D T' (<[v := e]> M) O → grows s U D T s' U' T' →
  M !! v = None → U !! i = None → pte_page_kva e = page_to_addr s i →
  mapped M (page_to_addr s i) = 0 → U' !! i = Some 0 →
  (∀ va, vpn va = v → ¬ W va → mload (ram s') (page_to_addr s i + va mod PGSIZE) = 0) →
  served W s U D T M O s' U' T' (<[v := e]> M).
Proof.
  intros Hus Hus' Hgr Hv Hi He Hm0 HUi Hz. pose proof Hgr as [G1 G2 G3 G4 G5 G6]. split; try done.
  - intros j. by eapply grows_table.
  - split.
    + intros va Hva _ [e1 He1]. unfold ubyte. rewrite lookup_insert_ne, He1 by congruence. simpl. f_equal.
      destruct (user_page _ _ _ _ _ _ _ _ Hus He1) as (j & Hj & Hnt & _ & Hr). by eapply G5.
    + intros va _ HW Hn. unfold ubyte. rewrite lookup_insert. case_decide; [|left; by rewrite Hn].
      right. simpl. by rewrite He, Hz.
  - intros j Hj Hnt _. split; [by eapply lookup_weaken|]. intros b Hb. by eapply G5.
  - intros Hna. apply sole_no_alias; [done|]. rewrite mapped_insert, He, Hm0, decide_True by done. lia.
  - intros w e1 [[<- <-]|[_ ?]]%lookup_insert_Some; [right|by left]. exists i. split_and!; [done..|].
    apply (ct_none _ _ _ _ _ _ (us_count _ _ _ _ _ _ Hus)). by rewrite Hi.
Qed.

(** An address space before and after its caller got a zeroed page. *)
Lemma zeroed_page s U D T M O a s1 :
  uspace s U D T M O → alloc_page s = Done (Some a, s1) →
  ∃ i, a = page_to_addr s i ∧ U !! i = None ∧ ¬ table D T i ∧ mapped M a = 0 ∧ O i = 0 ∧
    uspace (zero_page a s1) (<[i := 0]> U) D T M (upd O i 1) ∧
    refs (zero_page a s1) i = 1 ∧
    grows s U D T (zero_page a s1) (<[i := 0]> U) T ∧
    (∀ b, a ≤ b < a + PGSIZE → mload (ram (zero_page a s1)) b = 0).
Proof.
  intros Hus Hal. destruct (space_alloc s U D T M O Hus) as (r & s1' & Hal' & Hr).
  rewrite Hal in Hal'. injection Hal' as <- <-. destruct Hr as (i & -> & HUi & Hst & Hus1 & Hm0 & Hrefs & Hram).
  assert (∀ n, page_to_addr s1 n = page_to_addr s n) as Hpa by (intros; by apply page_to_addr_same).
  assert (∀ j, U !! j = Some 0 → <[i := 0]> U !! j = Some 0 ∧ j ≠ i ∧
     (page_to_addr s j + PGSIZE ≤ page_to_addr s i ∨ page_to_addr s i + PGSIZE ≤ page_to_addr s j)) as Hold.
  { intros j Hj. assert (j ≠ i) by congruence.
    assert (<[i := 0]> U !! j = Some 0) as Hj' by (by rewrite lookup_insert_ne).
    split_and!; [done..|]. rewrite <- !Hpa.
    by apply (pages_apart s1 _ (us_pool _ _ _ _ _ _ Hus1) j i Hj' (lookup_insert_eq _ _ _)). }
  destruct (zero_page_frame (page_to_addr s i) s1) as [m Hm].
  pose proof (zero_page_ram (page_to_addr s i) s1) as Hz. rewrite Hm in Hz.
  assert (∀ b, mload m b = if decide (page_to_addr s i ≤ b < page_to_addr s i + PGSIZE) then 0
            else mload (ram s1) b) as Hz' by exact Hz. clear Hz.
  exists i. rewrite Hm. split_and!; [reflexivity|exact HUi| |exact Hm0|..].
  - intros Ht. pose proof (table_owned _ _ _ _ _ _ Hus i Ht). congruence.
  - apply (ct_none _ _ _ _ _ _ (us_count _ _ _ _ _ _ Hus)). congruence.
  - apply space_ram; [done|]. intros t b Ht Hb. rewrite Hpa in Hb.
    rewrite Hz', decide_False; [done|].
    destruct (Hold t (table_owned _ _ _ _ _ _ Hus t Ht)) as (_ & _ & ?). lia.
  - change (refs (with_ram m s1) i) with (refs s1 i). by rewrite Hrefs, decide_True.
  - split; [| | | | |by auto with space].
    + exact Hst.
    + by apply insert_subseteq.
    + reflexivity.
    + intros k t Hk. by left.
    + intros j b Hj _ Hb. destruct (Hold j Hj) as (_ & _ & ?). cbn [ram with_ram].
      rewrite Hz', Hram, !decide_False by lia. done.
  - intros b Hb. cbn [ram with_ram]. by rewrite Hz', decide_True.
Qed.

(** Mapping such a page at [page], and giving it back when that fails. *)
Lemma map_fresh s U D T M O s2 i page perm :
  uspace s U D T M O → 0 ≤ page < USEREND → (PGSIZE | page) → 0 ≤ perm < PGSIZE → M !! vpn page = None →
  U !! i = None → ¬ table D T i → mapped M (page_to_addr s i) = 0 → O i = 0 →
  let U1 := <[i := 0]> U in
  uspace s2 U1 D T M (upd O i 1) → refs s2 i = 1 → grows s U D T s2 U1 T →
  (∀ va, vpn va = vpn page → ¬ W va → mload (ram s2) (page_to_addr s i + va mod PGSIZE) = 0) →
  let e := user_pte (V2P (page_to_addr s i)) perm in
  ∃ r s3, uvmmap (page_to_addr s D) page (V2P (page_to_addr s i)) PGSIZE perm s2 = Done (r, s3) ∧
    ((r = -1 ∧ ∃ s4, free_page (page_to_addr s i) s3 = Done s4 ∧ served W s U D T M O s4 U T M) ∨
     (r = 0 ∧ ∃ U' T', served W s U D T M O s3 U' T' (<[vpn page := e]> M) ∧ U' !! i = Some 0 ∧
        pte_page_kva e = page_to_addr s i ∧
        (∀ fl, 0 ≤ fl < PGSIZE → has e fl = has (Z.lor (Z.lor perm PTE_U) PTE_P) fl) ∧
        ∀ b, page_to_addr s i ≤ b < page_to_addr s i + PGSIZE → mload (ram s3) b = mload (ram s2) b)).
Proof.
  intros Hus Hp Hal Hperm HM HUi Hnt Hm0 HO U1 Hus1 Href Hgr Hz e.
  assert (∀ n, page_to_addr s n = page_to_addr s2 n) as Hpa by (intros; symmetry; apply page_to_addr_same, Hgr).
  assert (U1 !! i = Some 0) as HU1 by apply lookup_insert_eq. unfold e. rewrite !Hpa in *. clear e.
  destruct (uvmmap_ok s2 U1 D T M (upd O i 1) Hus1 page i perm) as (r & s3 & -> & Hres); try done.
  { rewrite upd_eq. lia. }
  exists r, s3. split; [done|]. destruct Hres as [(-> & -> & _)|(-> & _ & U2 & T2 & Hgr2 & Hus3)]; [left|right]; (split; [done|]).
  - unfold free_page.
    destruct (space_put s2 U1 D T M (upd O i 1) Hus1 i HU1) as (s4 & -> & Hram4 & Hst4 & Hus4);
      [rewrite upd_eq; lia|].
    rewrite Href in Hus4. change (1 =? 1) with true in Hus4. cbn iota in Hus4.
    unfold U1 in Hus4. rewrite delete_insert_id in Hus4 by done.
    exists s4. split; [reflexivity|]. apply served_grows; [exact Hus| |].
    + eapply uspace_ext; [exact Hus4|]. intros n. rewrite upd_eq. unfold upd. case_decide; [subst|done].
      by rewrite HO.
    + destruct Hgr as [G1 G2 G3 G4 G5 G6]. split; [exact (eq_trans Hst4 G1)|reflexivity|reflexivity|by left| |by auto with space].
      intros j b Hj Hnj Hb. rewrite Hram4. by eapply G5.
  - set (e := user_pte _ perm) in *.
    assert (pte_page_kva e = page_to_addr s2 i) as He.
    { unfold e, user_pte. rewrite <- Z.lor_assoc. eapply entry_kva; [apply Hus1|done|].
      by repeat apply flags_lor. }
    assert (∀ fl, 0 ≤ fl < PGSIZE → has e fl = has (Z.lor (Z.lor perm PTE_U) PTE_P) fl) as Hfl.
    { intros fl Hfl. unfold e, user_pte. rewrite <- Z.lor_assoc. eapply entry_has; [apply Hus1|done..]. }
    assert (∀ b, page_to_addr s2 i ≤ b < page_to_addr s2 i + PGSIZE → mload (ram s3) b = mload (ram s2) b) as Hkeep
      by (intros b Hb; by apply (gr_ram _ _ _ _ _ _ _ Hgr2 i b)).
    assert (U2 !! i = Some 0) as HU2 by (by eapply lookup_weaken; [|apply Hgr2]).
    exists U2, T2. split; [|by split_and!].
    eapply (served_fill s U D T M O s3 U2 T2 _ e i); try done.
    + eapply uspace_ext; [exact Hus3|]. intros n. rewrite upd_eq. unfold upd.
      repeat case_decide; subst; done || by rewrite HO.
    + by eapply grows_trans.
    + by rewrite Hpa.
    + by rewrite Hpa.
    + intros va Hva HW. rewrite Hpa. pose proof (Z.mod_pos_bound va PGSIZE ltac:(done)).
      rewrite Hkeep by lia. by apply Hz.
Qed.

Lemma fill_page_ok s U D T M O page perm :
  uspace s U D T M O → 0 ≤ page < USEREND → (PGSIZE | page) → 0 ≤ perm < PGSIZE → M !! vpn page = None →
  ∃ r s' U' T' M', fill_page (page_to_addr s D) page perm s = Done (r, s') ∧
    served W s U D T M O s' U' T' M' ∧
    ((r = -1 ∧ M' = M) ∨
     (r = 0 ∧ ∃ i, U' !! i = Some 0 ∧ O i = 0 ∧ M' = <[vpn page := user_pte (V2P (page_to_addr s i)) perm]> M ∧
        pte_page_kva (user_pte (V2P (page_to_addr s i)) perm) = page_to_addr s i ∧
        ∀ fl, 0 ≤ fl < PGSIZE →
          has (user_pte (V2P (page_to_addr s i)) perm) fl = has (Z.lor (Z.lor perm PTE_U) PTE_P) fl)).
Proof.
  intros Hus Hp Hal Hperm HM. unfold fill_page.
  destruct (space_alloc s U D T M O Hus) as (r & s1 & Halloc & Hr). rewrite Halloc. run.
  destruct r as [a|]; [|subst; eexists _, s, U, T, M; split; [done|]; split; [by apply served_refl|by left]].
  clear Hr. destruct (zeroed_page s U D T M O a s1 Hus Halloc)
    as (i & -> & HUi & Hnt & Hm0 & HO & Hus1 & Href & Hgr & Hz).
  destruct (map_fresh s U D T M O _ i page perm Hus Hp Hal Hperm HM HUi Hnt Hm0 HO Hus1 Href Hgr) as (r & s3 & -> & Hres).
  { intros va _ _. apply Hz. pose proof (Z.mod_pos_bound va PGSIZE ltac:(done)). lia. }
  run. destruct Hres as [(-> & s4 & Hfree & Hsv)|(-> & U' & T' & Hsv & HUi' & He & Hfl & _)].
  - change (-1 <? 0) with true. cbn iota. rewrite Hfree. run. exists (-1), s4, U, T, M. split; [done|]. split; [done|by left].
  - change (0 <? 0) with false. cbn iota. eexists 0, s3, U', T', _. split; [done|]. split; [exact Hsv|]. right.
    split; [done|]. by exists i.
Qed.

Definition private_vmas (m : mm_struct) : Prop :=
  ∀ i v, vmas m !! i = Some v → vma_shmid v < 0.

(** Whether the metadata lets the program touch [page] ([write]: store to it). *)
Definition may_access (m : mm_struct) (page : Z) (write : bool) : Prop :=
  (page < brk m ∧ brk_start m < page + PGSIZE) ∨
  ∃ i v, vmas m !! i = Some v ∧ used v = true ∧ start v ≤ page < end_ v ∧ prot_ok (prot v) = true ∧
    (write = true → has (prot v) PROT_WRITE = true).

Lemma demand_perm_ok m page write : private_vmas m →
  match demand_perm m page write with
  | inl perm => (perm = Z.lor PTE_P PTE_W ∨ (perm = PTE_P ∧ write = false)) ∧ may_access m page write
  | inr (Some _) => False
  | inr None => True
  end.
Proof.
  intros Hpr. unfold demand_perm. destruct ((page <? brk m) && _) eqn:Hh.
  { apply andb_true_iff in Hh as [?%Z.ltb_lt ?%Z.ltb_lt]. split; [by left|]. by left. }
  destruct (vma_lookup (Some m) page) as [i|] eqn:Hl; simpl; [|done].
  unfold vma_lookup in Hl. apply find_index_spec in Hl as (v & Hv & Hc & _).
  rewrite Nat.sub_0_r in Hv. cbn [proc_vmas from_option] in Hv. rewrite Hv.
  rewrite !andb_true_iff, Z.leb_le, Z.ltb_lt in Hc. destruct Hc as [[Hu Hlo] Hhi].
  rewrite (proj2 (Z.leb_gt 0 (vma_shmid v))) by (by eapply Hpr).
  destruct (prot_ok (prot v)) eqn:Hok; simpl; [|done].
  destruct (has (prot v) PROT_WRITE) eqn:Hw.
  - rewrite andb_false_r. split; [by left|]. right. by exists i, v.
  - destruct write; simpl; [done|]. split; [by right|]. right. exists i, v. by split_and!.
Qed.

Section Access.
Context (shm_demand_fault : mm_struct → vma → Z → bool → pmm → outcome (Z * pmm)).

Lemma demand_fault_ok s U D T M O m va write :
  uspace s U D T M O → pgdir m = page_to_addr s D → 0 ≤ user_base m → 0 ≤ va < 2 ^ 32 → private_vmas m →
  ∃ r s' U' T' M', uvm_demand_fault shm_demand_fault (Some m) va write s = Done (r, s') ∧
    served W s U D T M O s' U' T' M' ∧ (r = -1 ∨ r = 0) ∧ (∀ v, v ≠ vpn va → M' !! v = M !! v) ∧
    (r = 0 → va < USEREND ∧ ∃ e, M' !! vpn va = Some e ∧
       (M !! vpn va = None → may_access m (PGROUNDDOWN va) write ∧ has e PTE_COW = false ∧
          (write = true → has e PTE_W = true) ∧ ∃ i, U' !! i = Some 0 ∧ pte_page_kva e = page_to_addr s i ∧ O i = 0) ∧
       (is_Some (M !! vpn va) → M' = M)).
Proof.
  intros Hus Hpgd Hub Hva Hpr. unfold uvm_demand_fault.
  pose proof (dir_addr_pos _ _ _ _ _ _ Hus). rewrite Hpgd, (proj2 (Z.eqb_neq (page_to_addr s D) 0)) by lia.
  assert (∀ Q, (∃ r s' U' T' M', mret (-1, s) = Done (r, s') ∧ served W s U D T M O s' U' T' M' ∧
    (r = -1 ∨ r = 0) ∧ (∀ v, v ≠ vpn va → M' !! v = M !! v) ∧ (r = 0 → Q U' M'))) as Hrefuse.
  { intros Q. exists (-1), s, U, T, M. split_and!; [done|by apply served_refl|by left|done|done]. }
  destruct (_ || _) eqn:Hrange; [apply Hrefuse|].
  apply orb_false_iff in Hrange as [Hlo%Z.ltb_ge Hhi%Z.leb_gt].
  assert (va < USEREND) as Hvu.
  { rewrite PGROUNDDOWN_spec in Hhi by done. pose proof (Z_div_mod_eq_full va PGSIZE).
    pose proof (Z.mod_pos_bound va PGSIZE ltac:(done)).
    destruct (decide (va < USEREND)); [done|].
    assert (USEREND / PGSIZE ≤ va / PGSIZE) by (apply Z.div_le_mono; [done|lia]).
    change (USEREND / PGSIZE) with 786432 in *. page_lia. }
  destruct (round_down_user va ltac:(lia)) as (Hp & Hvp & Hal & _). set (page := PGROUNDDOWN va) in *.
  rewrite (walkaddr_view s U D T M O Hus page Hp), Hvp. run.
  destruct (M !! vpn va) as [e|] eqn:HM.
  - destruct (us_page _ _ _ _ _ _ Hus _ _ HM) as (_ & i & Hi & Hkva & _).
    destruct (page_ok s U (us_pool _ _ _ _ _ _ Hus) i Hi) as (_ & _ & ? & _).
    pose proof (Z.mod_pos_bound page PGSIZE ltac:(done)).
    rewrite (proj2 (Z.eqb_neq _ 0)) by page_lia. cbn [negb].
    exists 0, s, U, T, M. split; [done|]. split; [by apply served_refl|]. split; [by right|].
    split; [done|]. intros _. split; [done|]. exists e. by split_and!.
  - change (0 =? 0) with true. cbn [negb].
    pose proof (demand_perm_ok m page write Hpr) as Hdp.
    destruct (demand_perm m page write) as [perm|[v|]]; [|done|apply Hrefuse].
    destruct Hdp as [Hperm Hacc].
    assert (0 ≤ perm < PGSIZE) as Hpr' by (destruct Hperm as [->|[-> _]]; by vm_compute).
    destruct (fill_page_ok s U D T M O page perm) as (r & s' & U' & T' & M' & -> & Hserv & Hr);
      [done..|by rewrite Hvp|].
    exists r, s', U', T', M'. split; [done|]. split; [done|].
    destruct Hr as [[-> ->]|(-> & i & HUi & HO & -> & Hkva & Hfl)]; [by split; [left|]|].
    split; [by right|]. split; [intros v Hv; rewrite Hvp, lookup_insert_ne by done; done|].
    intros _. split; [done|]. rewrite Hvp, lookup_insert_eq. eexists. split; [done|].
    split; [|by intros []]. intros _. rewrite !Hfl, !has_lor by (by vm_compute). split_and!; [done| | |by exists i].
    + destruct Hperm as [->|[-> _]]; by vm_compute.
    + destruct Hperm as [->|[-> ->]]; by vm_compute.
Qed.

Lemma ensure_ok s U D T M O cur va write :
  uspace s U D T M O → 0 ≤ va < USEREND →
  (∀ m, cur = Some m → 0 ≤ user_base m ∧ private_vmas m) →
  ∃ r s' U' T' M', ensure_user_page shm_demand_fault cur (page_to_addr s D) va write s = Done (r, s') ∧
    served W s U D T M O s' U' T' M' ∧ (r = -1 ∨ r = 0) ∧
    (write = false → is_Some (M !! vpn va) → r = 0) ∧ (∀ v, v ≠ vpn va → M' !! v = M !! v) ∧
    (r = 0 → ∃ e, M' !! vpn va = Some e ∧
       (write = true → M !! vpn va = Some e ∧ has e PTE_COW = false ∨
          has e PTE_W = true ∧ ∃ i, U' !! i = Some 0 ∧ pte_page_kva e = page_to_addr s i ∧ O i = 0)).
Proof.
  intros Hus Hva Hcur. unfold ensure_user_page. destruct (round_down_user va Hva) as (Hp & Hvp & Hal & _).
  set (page := PGROUNDDOWN va) in *.
  destruct (walk_lookup s U D T M O Hus page false Hp) as (p & -> & Hw). run. rewrite Hvp in Hw.
  destruct (negb (p =? 0) && has (rd s p) PTE_P) eqn:Hc.
  - apply andb_true_iff in Hc as [Hp0%negb_true_iff%Z.eqb_neq HP].
    assert (M !! vpn va = Some (rd s p)) as HM.
    { destruct (T !! PDX page); [|by destruct Hw]. destruct Hw as (_ & _ & ->). by rewrite HP. }
    destruct (write && has (rd s p) PTE_COW) eqn:Hwc.
    + destruct (cow_fault_ok s U D T M O page Hus Hp) as (r & s' & -> & Hres). run.
      destruct (cow_served s U D T M O page r s' Hus Hres) as (U' & M' & Hserv & Hr & Hent & Hr0). rewrite Hvp in *.
      pose proof (se_start _ _ _ _ _ _ _ _ _ _ _ Hserv) as Hst.
      exists (if r <? 0 then -1 else 0), s', U', T, M'. split; [by destruct (r <? 0)|]. split; [done|].
      apply andb_true_iff in Hwc as [Hwt _].
      destruct Hr as [-> | ->]; [split; [by left|]; split; [by rewrite Hwt|done]|].
      split; [by right|]. split; [done|]. split; [done|]. intros _. destruct (Hr0 eq_refl) as (e & He & HW & _ & i & HUi & Hi & HO).
      exists e. split; [done|]. intros _. right. split; [done|]. exists i.
      by rewrite Hi, (page_to_addr_same s s').
    + exists 0, s, U, T, M. split; [done|]. split; [by apply served_refl|]. split; [by right|]. split; [done|]. split; [done|].
      intros _. exists (rd s p). split; [done|]. intros ->. by left.
  - assert (M !! vpn va = None) as HM.
    { destruct (T !! PDX page) as [t|]; [|apply Hw]. destruct Hw as (_ & Hp0 & ->).
      rewrite (proj2 (Z.eqb_neq p 0)) in Hc by done. cbn [negb andb] in Hc. by rewrite Hc. }
    assert (∀ r, write = false → is_Some (M !! vpn va) → r = 0) as Hno by (intros r _; rewrite HM; by intros []).
    destruct cur as [m|]; [|exists (-1), s, U, T, M; split_and!; [done|by apply served_refl|by left|apply Hno|done|done]].
    destruct (Z.eqb_spec (pgdir m) (page_to_addr s D)) as [Hpgd|]; cbn [negb];
      [|exists (-1), s, U, T, M; split_and!; [done|by apply served_refl|by left|apply Hno|done|done]].
    destruct (Hcur m eq_refl) as [Hub Hpr].
    destruct (demand_fault_ok s U D T M O m page write Hus Hpgd Hub ltac:(page_lia) Hpr)
      as (r & s' & U' & T' & M' & Hrun & Hserv & Hr & Hent & Hr0). rewrite Hvp in *.
    exists r, s', U', T', M'. split; [done|]. split_and!; [done|done|apply Hno|done|]. intros Hz.
    destruct (Hr0 Hz) as (_ & e & He & Hnew & _). exists e. split; [done|]. intros Hwr.
    destruct (Hnew HM) as (_ & _ & HW & i & HUi & Hi & HO). right. split; [by apply HW|]. by exists i.
Qed.

End Access.

(** ** Chains of faults *)

Lemma ubyte_some s M va : is_Some (ubyte s M va) ↔ is_Some (M !! vpn va).
Proof. unfold ubyte. by destruct (M !! vpn va). Qed.

Lemma served_trans s U D T M O s1 U1 T1 M1 s2 U2 T2 M2 :
  served W s U D T M O s1 U1 T1 M1 → served W s1 U1 D T1 M1 O s2 U2 T2 M2 →
  served W s U D T M O s2 U2 T2 M2.
Proof.
  intros [A1 A2 A3 A4 [A5 A6] A7 A8 A9 A10] [B1 B2 B3 B4 [B5 B6] B7 B8 B9 B10]. split; try done.
  - congruence.
  - by etrans.
  - intros i Hi Ht. apply B4; [by eapply lookup_weaken|]. by apply A4.
  - split.
    + intros va Hva HW Hm. rewrite B5; [by apply A5|done|done|]. apply (ubyte_some s1). rewrite A5 by done.
      by apply ubyte_some.
    + intros va Hva HW Hm. destruct (M1 !! vpn va) as [e|] eqn:He; [|by apply B6].
      assert (is_Some (M1 !! vpn va)) as Hm1 by (by rewrite He).
      rewrite B5 by done. by apply A6.
  - intros i Hi Ht HO. destruct (A7 i Hi Ht HO) as [H1 H2].
    destruct (B7 i H1 (A4 i Hi Ht) HO) as [H3 H4]. split; [done|]. intros b Hb. rewrite H4; [by apply H2|].
    by rewrite (page_to_addr_same s s1).
  - auto.
  - intros v e Hv. destruct (B9 v e Hv) as [H1|(i & ? & Hk & ?)].
    + destruct (A9 v e H1) as [?|(i & ? & ? & ?)]; [by left|right]. exists i. split; [by eapply lookup_weaken|done].
    + right. exists i. split_and!; [done| |done]. by rewrite <- (page_to_addr_same s s1).
  - by eauto with space.
Qed.

End Written.

Lemma served_weaken (W W' : Z → Prop) s U D T M O s' U' T' M' :
  (∀ a, W a → W' a) → served W s U D T M O s' U' T' M' → served W' s U D T M O s' U' T' M'.
Proof.
  intros HW [A1 A2 A3 A4 [A5 A6] A7 A8 A9 A10]. split; try done. split; intros va Hva Hn; [apply A5|apply A6]; auto.
Qed.

(** Nothing is written. *)
Definition nowhere (a : Z) : Prop := False.

(** The bytes of the user range [va .. va + n - 1]. *)
Definition ubytes (s : pmm) (M : gmap Z Z) (va n : Z) : list (option Z) :=
  (λ j, ubyte s M (va + j)) <$> seqZ 0 n.

Lemma ubytes_app s M va n1 n2 : 0 ≤ n1 → 0 ≤ n2 →
  ubytes s M va (n1 + n2) = ubytes s M va n1 ++ ubytes s M (va + n1) n2.
Proof.
  intros H1 H2. unfold ubytes. rewrite seqZ_app, fmap_app by done. f_equal.
  replace (0 + n1) with (n1 + 0) by lia. rewrite <- fmap_add_seqZ, <- !list_fmap_compose. apply list_fmap_ext. intros i x _. simpl. f_equal. lia.
Qed.

Lemma load_bytes_seq m n : ∀ a, load_bytes m a n = (λ j, mload m (a + j)) <$> seqZ 0 (Z.of_nat n).
Proof.
  induction n as [|n IH]; intros a; [done|]. cbn [load_bytes]. rewrite IH.
  rewrite (seqZ_cons 0 (Z.of_nat (S n))) by lia. rewrite fmap_cons, Z.add_0_r. f_equal.
  replace (Z.succ 0) with (1 + 0) by lia. rewrite <- fmap_add_seqZ, <- list_fmap_compose.
  replace (Z.pred (Z.of_nat (S n))) with (Z.of_nat n) by lia.
  apply list_fmap_ext. intros i x _. simpl. f_equal. lia.
Qed.

(** Within one page the user range is a kernel range. *)
Lemma ubytes_page s M va e n : M !! vpn va = Some e → 0 ≤ n → va mod PGSIZE + n ≤ PGSIZE → 
  ubytes s M va n = Some <$> load_bytes (ram s) (pte_page_kva e + va mod PGSIZE) (Z.to_nat n).
Proof.
  intros He Hn Hp. unfold ubytes. rewrite load_bytes_seq, Z2Nat.id, <- list_fmap_compose by done.
  apply list_fmap_ext. intros i x Hx. apply list_elem_of_lookup_2, elem_of_seqZ in Hx. unfold ubyte.
  pose proof (Z_div_mod_eq_full va PGSIZE) as Hdm. pose proof (Z.mod_pos_bound va PGSIZE ltac:(done)).
  assert (vpn (va + x) = vpn va) as ->.
  { unfold vpn. symmetry. apply (Z.div_unique_pos _ _ _ (va mod PGSIZE + x)); lia. }
  rewrite He. simpl. do 2 f_equal.
  assert ((va + x) mod PGSIZE = va mod PGSIZE + x); [|lia].
  symmetry. apply (Z.mod_unique_pos _ _ (va / PGSIZE)); lia.
Qed.

Lemma ubytes_keep W s M s' M' va n :
  same_view W s M s' M' → 0 ≤ va → va + n ≤ USEREND →
  (∀ j, 0 ≤ j < n → ¬ W (va + j)) → (∀ j, 0 ≤ j < n → is_Some (M !! vpn (va + j))) → ubytes s' M' va n = ubytes s M va n.
Proof.
  intros [Hk _] Hva Hend HW Hm. apply list_fmap_ext. intros i x Hx.
  apply list_elem_of_lookup_2, elem_of_seqZ in Hx. apply Hk; [lia|apply HW; lia|apply Hm; lia].
Qed.

Lemma vpn_in_page va j : 0 ≤ va → 0 ≤ j → va mod PGSIZE + j < PGSIZE → vpn (va + j) = vpn va.
Proof.
  intros Hva Hj Hp. unfold vpn. symmetry. pose proof (Z_div_mod_eq_full va PGSIZE).
  pose proof (Z.mod_pos_bound va PGSIZE ltac:(done)).
  apply (Z.div_unique_pos _ _ _ (va mod PGSIZE + j)); lia.
Qed.

(** The first piece of a copy of [n] bytes at [va], as the code cuts it. *)
Definition chunk (va n : Z) : Z := Z.min (PGSIZE - va mod PGSIZE) n.

Lemma chunk_ok va n : 0 ≤ va < USEREND → 0 < n → va + n ≤ USEREND →
  va - PGROUNDDOWN va = va mod PGSIZE ∧ 0 < chunk va n ≤ n ∧ va mod PGSIZE + chunk va n ≤ PGSIZE ∧
  u32 (va + chunk va n) = va + chunk va n ∧
  ∀ fuel, va mod PGSIZE + n ≤ (fuel - 1) * PGSIZE → 
    n - chunk va n = 0 ∨ (va + chunk va n) mod PGSIZE + (n - chunk va n) ≤ (fuel - 1 - 1) * PGSIZE.
Proof.
  intros Hva Hn Hend. destruct (round_down_user va Hva) as (_ & _ & _ & Hr).
  pose proof (Z.mod_pos_bound va PGSIZE ltac:(done)). unfold chunk. split_and!; try lia.
  - apply u32_small. page_lia.
  - intros fuel Hf. destruct (decide (n ≤ PGSIZE - va mod PGSIZE)); [left; lia|right].
    rewrite Z.min_l by lia. pose proof (Z_div_mod_eq_full va PGSIZE).
    assert ((va + (PGSIZE - va mod PGSIZE)) mod PGSIZE = 0) as ->; [|lia].
    symmetry. apply (Z.mod_unique_pos _ _ (va / PGSIZE + 1)); lia.
Qed.

Section Copy.
Context (shm_demand_fault : mm_struct → vma → Z → bool → pmm → outcome (Z * pmm)).
Context (cur : option mm_struct).
Context (Hcur : ∀ m, cur = Some m → 0 ≤ user_base m ∧ private_vmas m).
Context (D : Z) (O : Z → Z).

(** Having the page of [va] at hand, as both copies need it. *)
Lemma page_at_hand W s U T M va write :
  uspace s U D T M O → 0 ≤ va < USEREND →
  ∃ r s' U' T' M', ensure_user_page shm_demand_fault cur (page_to_addr s D) (PGROUNDDOWN va) write s = Done (r, s') ∧
    served W s U D T M O s' U' T' M' ∧ (r = -1 ∨ r = 0) ∧
    (write = false → is_Some (M !! vpn va) → r = 0) ∧ (∀ v, v ≠ vpn va → M' !! v = M !! v) ∧
    (r = 0 → ∃ e, M' !! vpn va = Some e ∧
       walkaddr (page_to_addr s D) (PGROUNDDOWN va) s' = Done (pte_page_kva e) ∧
       pte_page_kva e ≠ 0 ∧ u32 (pte_page_kva e + va mod PGSIZE) = pte_page_kva e + va mod PGSIZE ∧
       (write = true → M !! vpn va = Some e ∧ has e PTE_COW = false ∨
          has e PTE_W = true ∧ ∃ i, U' !! i = Some 0 ∧ pte_page_kva e = page_to_addr s i ∧ O i = 0)).
Proof.
  intros Hus Hva. destruct (round_down_user va Hva) as (Hp & Hvp & Hal & _).
  destruct (ensure_ok W shm_demand_fault s U D T M O cur (PGROUNDDOWN va) write Hus Hp Hcur)
    as (r & s' & U' & T' & M' & Hrun & Hserv & Hr & Hr1 & Hent & Hr0). rewrite Hvp in *.
  exists r, s', U', T', M'. split_and!; [done..|]. intros Hz. destruct (Hr0 Hz) as (e & He & Hw).
  exists e. split; [done|]. pose proof (se_space _ _ _ _ _ _ _ _ _ _ _ Hserv) as Hus'.
  rewrite <- (page_to_addr_same s s' D) by apply Hserv.
  rewrite (walkaddr_view s' U' D T' M' O Hus' _ Hp), Hvp, He.
  rewrite (proj2 (Z.mod_divide (PGROUNDDOWN va) PGSIZE ltac:(done))), Z.add_0_r by done.
  destruct (user_page _ _ _ _ _ _ va e Hus' He) as (i & Hi & _ & Hkva & Hb).
  destruct (page_ok s' U' (us_pool _ _ _ _ _ _ Hus') i Hi) as (_ & _ & Hlo & Hhi).
  split_and!; [done| | |done]; [page_lia|]. apply u32_small. page_lia.
Qed.

Lemma copyin_loop_ok fuel : ∀ s U T M va n acc,
  uspace s U D T M O → 0 ≤ va → 0 ≤ n → va + n ≤ USEREND → (1 ≤ fuel)%nat →
  (n = 0 ∨ va mod PGSIZE + n ≤ (Z.of_nat fuel - 1) * PGSIZE) →
  ∃ r s' U' T' M', copyin_loop shm_demand_fault fuel cur (page_to_addr s D) va n acc s = Done (r, s') ∧
    served nowhere s U D T M O s' U' T' M' ∧
    (∀ l, r = Some l → ∃ bs, l = acc ++ bs ∧ ubytes s' M' va n = Some <$> bs) ∧
    ((∀ a, va ≤ a < va + n → is_Some (M !! vpn a)) → is_Some r).
Proof.
  induction fuel as [|fuel IH]; intros s U T M va n acc Hus Hva Hn Hend Hf1 Hf; [lia|].
  cbn [copyin_loop]. destruct (Z.eqb_spec n 0) as [->|Hn0].
  { exists (Some acc), s, U, T, M. split_and!; [done|by apply served_refl| |done].
    intros l [= <-]. exists []. by rewrite app_nil_r. }
  destruct Hf as [?|Hf]; [done|].
  destruct (chunk_ok va n ltac:(lia) ltac:(lia) Hend) as (Hoff & Hc & Hcp & Hu & Hnf).
  destruct (page_at_hand nowhere s U T M va false Hus ltac:(lia))
    as (r & s1 & U1 & T1 & M1 & -> & Hserv & Hr & Hr1 & _ & Hr0). run.
  destruct Hr as [-> | ->].
  { exists None, s1, U1, T1, M1. split_and!; [done|done|done|]. intros Hall.
    specialize (Hr1 eq_refl (Hall va ltac:(lia))). lia. }
  destruct (Hr0 eq_refl) as (e & He & -> & Hk0 & Hk32 & _). change (0 <? 0) with false. cbn iota. run.
  rewrite (proj2 (Z.eqb_neq _ 0)), Hoff, Hk32 by done. fold (chunk va n). rewrite Hu.
  pose proof (se_space _ _ _ _ _ _ _ _ _ _ _ Hserv) as Hus1.
  rewrite <- (page_to_addr_same s s1 D) by apply Hserv. 
  destruct (IH s1 U1 T1 M1 (va + chunk va n) (n - chunk va n)
    (acc ++ load_bytes (ram s1) (pte_page_kva e + va mod PGSIZE) (Z.to_nat (chunk va n))) Hus1)
    as (r & s' & U' & T' & M' & -> & Hserv' & Hl & Hall); [lia..| | |].
  { pose proof (Z.mod_pos_bound va PGSIZE ltac:(done)). page_lia. }
  { replace (Z.of_nat fuel - 1) with (Z.of_nat (S fuel) - 1 - 1) by lia. by apply Hnf. }
  exists r, s', U', T', M'. split; [done|]. split; [by eapply served_trans|]. split.
  - intros l ->. destruct (Hl l eq_refl) as (bs & -> & Hbs).
    eexists (_ ++ bs). split; [by rewrite app_assoc|].
    replace n with (chunk va n + (n - chunk va n)) at 1 by lia.
    rewrite ubytes_app, Hbs, fmap_app by lia. f_equal.
    rewrite (ubytes_keep nowhere s1 M1) by first [apply Hserv' | lia | by intros ? ? []
      | intros j Hj; rewrite vpn_in_page by lia; by rewrite He].
    by apply ubytes_page; [|lia..].
  - intros Hm. apply Hall. intros a Ha.
    apply (ubyte_some s1). rewrite (sv_keep _ _ _ _ _ (se_view _ _ _ _ _ _ _ _ _ _ _ Hserv)); [|lia|by intros []|apply Hm; lia].
    apply ubyte_some, Hm. lia.
Qed.

(** The addresses of a copy of [n] bytes to [va]. *)
Definition within (va n : Z) (a : Z) : Prop := va ≤ a < va + n.

(** Every page of the range is copy-on-write or mapped here alone. *)
Definition unshared (s : pmm) (M : gmap Z Z) (va n : Z) : Prop :=
  ∀ a e i, within va n a → M !! vpn a = Some e → has e PTE_COW = false →
    pte_page_kva e = page_to_addr s i → O i = 0.

Lemma unshared_served W s U T M s' U' T' M' va n :
  served W s U D T M O s' U' T' M' → unshared s M va n → unshared s' M' va n.
Proof.
  intros Hserv Hun a e i Ha He HC Hi. pose proof (se_space _ _ _ _ _ _ _ _ _ _ _ Hserv) as Hus'.
  destruct (decide (U' !! i = Some 0)) as [HUi|HUi]; [|by apply (ct_none _ _ _ _ _ _ (us_count _ _ _ _ _ _ Hus'))].
  assert (mem_start s' = mem_start s) as Hst by apply Hserv.
  destruct (se_own _ _ _ _ _ _ _ _ _ _ _ Hserv _ _ He) as [Hold|(j & HUj & Hj & HO)].
  - eapply (Hun a e i); [done..|]. by rewrite <- (page_to_addr_same s s').
  - rewrite Hi, <- (page_to_addr_same s s' j Hst) in Hj.
    by rewrite (page_addr_inj s' U' (us_pool _ _ _ _ _ _ Hus') i j HUi HUj Hj).
Qed.

Lemma mload_store_bytes src : ∀ m a b,
  mload (store_bytes m a src) b =
  if decide (a ≤ b < a + Z.of_nat (length src)) then default 0 (src !! Z.to_nat (b - a)) mod 256
  else mload m b.
Proof.
  induction src as [|c src IH]; intros m a b; cbn [store_bytes length].
  { by rewrite decide_False by lia. }
  rewrite IH, mload_mstore. destruct (decide (a = b)) as [->|Hne].
  - rewrite decide_False, decide_True by lia. by rewrite Z.sub_diag.
  - repeat case_decide; try lia; try done.
    replace (Z.to_nat (b - a)) with (S (Z.to_nat (b - (a + 1)))) by lia. done.
Qed.

(** Writing a piece that lies in one page. *)
Lemma store_served s U T M va e bs :
  uspace s U D T M O → no_alias M → 0 ≤ va → M !! vpn va = Some e →
  va mod PGSIZE + Z.of_nat (length bs) ≤ PGSIZE →
  (∀ i, U !! i = Some 0 → pte_page_kva e = page_to_addr s i → O i = 0) →
  let s' := with_ram (store_bytes (ram s) (pte_page_kva e + va mod PGSIZE) bs) s in
  served (within va (Z.of_nat (length bs))) s U D T M O s' U T M ∧
  ubytes s' M va (Z.of_nat (length bs)) = Some <$> ((λ b, b mod 256) <$> bs).
Proof.
  intros Hus Hna Hva He Hlen HO s'. pose proof (us_pool _ _ _ _ _ _ Hus) as HU.
  destruct (us_page _ _ _ _ _ _ Hus _ _ He) as (_ & i & Hi & Hkva & Hnt).
  pose proof (Z.mod_pos_bound va PGSIZE ltac:(done)) as Hmod.
  assert (∀ b, ¬ (pte_page_kva e + va mod PGSIZE ≤ b < pte_page_kva e + va mod PGSIZE + Z.of_nat (length bs)) →
            mload (ram s') b = mload (ram s) b) as Hout.
  { intros b Hb. unfold s'. cbn [ram with_ram]. by rewrite mload_store_bytes, decide_False. }
  assert (∀ j b, U !! j = Some 0 → j ≠ i → page_to_addr s j ≤ b < page_to_addr s j + PGSIZE →
            mload (ram s') b = mload (ram s) b) as Hpage.
  { intros j b Hj Hne Hb. apply Hout. destruct (pages_apart s U HU j i Hj Hi Hne); lia. }
  split; [split; try done|].
  - unfold s'. apply space_ram; [done|]. intros t b Ht Hb. apply (Hpage t); [by eapply table_owned|by intros ->|done].
  - split; [|by intros a _ _ Hn; left; unfold ubyte; rewrite Hn].
    intros a Ha HW [e' He']. unfold ubyte. rewrite He'. simpl. f_equal. apply Hout. intros Hb. apply HW.
    destruct (user_page _ _ _ _ _ _ _ _ Hus He') as (j & Hj & _ & Hkj & Hbj).
    destruct (decide (j = i)) as [->|Hne]; [|destruct (pages_apart s U HU j i Hj Hi Hne); lia].
    assert (vpn a = vpn va) as Hv by (eapply Hna; [done..|congruence]).
    rewrite Hv, He in He'. injection He' as <-.
    pose proof (Z_div_mod_eq_full a PGSIZE). pose proof (Z_div_mod_eq_full va PGSIZE).
    unfold vpn in Hv. unfold within. rewrite Hv in *. lia.
  - intros j Hj Hnj HOj. split; [done|]. intros b Hb. apply (Hpage j); [done| |done].
    intros ->. specialize (HO i Hi Hkva). lia.
  - by left.
  - apply fresh_pages_refl.
  - rewrite (ubytes_page s' M va e) by (done || lia). f_equal. rewrite Nat2Z.id, load_bytes_seq.
    unfold s'. cbn [ram with_ram]. apply list_eq. intros n.
    rewrite !list_lookup_fmap. destruct (decide (n < length bs)%nat) as [Hn|Hn].
    + rewrite lookup_seqZ_lt by lia. cbn. rewrite mload_store_bytes, decide_True by lia.
      replace (Z.to_nat _) with n by lia. destruct (bs !! n) eqn:Hb; [done|].
      apply lookup_ge_None in Hb. lia.
    + rewrite lookup_seqZ_ge by lia. rewrite (lookup_ge_None_2 bs n) by lia. done.
Qed.

Lemma next_page va n a : 0 ≤ va → 0 < n - chunk va n →
  within (va + chunk va n) (n - chunk va n) a → vpn a ≠ vpn va.
Proof.
  intros Hva Hn Ha Hv. unfold within, chunk, vpn in *. pose proof (Z.mod_pos_bound va PGSIZE ltac:(done)).
  pose proof (Z_div_mod_eq_full a PGSIZE). pose proof (Z_div_mod_eq_full va PGSIZE).
  pose proof (Z.mod_pos_bound a PGSIZE ltac:(done)). rewrite Hv in *. lia.
Qed.

Lemma copyout_loop_ok fuel : ∀ s U T M va src,
  let n := Z.of_nat (length src) in
  uspace s U D T M O → no_alias M → unshared s M va n → 0 ≤ va → va + n ≤ USEREND → (1 ≤ fuel)%nat →
  (n = 0 ∨ va mod PGSIZE + n ≤ (Z.of_nat fuel - 1) * PGSIZE) →
  ∃ r s' U' T' M', copyout_loop shm_demand_fault fuel cur (page_to_addr s D) va src s = Done (r, s') ∧
    served (within va n) s U D T M O s' U' T' M' ∧ (r = -1 ∨ r = 0) ∧
    (r = 0 → ubytes s' M' va n = Some <$> ((λ b, b mod 256) <$> src)).
Proof.
  induction fuel as [|fuel IH]; intros s U T M va src n Hus Hna Huns Hva Hend Hf1 Hf; [lia|].
  cbn [copyout_loop]. destruct src as [|b src'].
  { exists 0, s, U, T, M. split_and!; [done|by apply served_refl|by right|done]. }
  set (src := b :: src') in *. assert (0 < n) as Hn by (unfold n, src; cbn [length]; lia). clearbody src.
  destruct Hf as [?|Hf]; [lia|].
  destruct (chunk_ok va n ltac:(lia) ltac:(lia) Hend) as (Hoff & Hc & Hcp & Hu & Hnf).
  destruct (page_at_hand (within va n) s U T M va true Hus ltac:(lia))
    as (r & s1 & U1 & T1 & M1 & -> & Hserv & Hr & _ & Hent & Hr0). run.
  destruct Hr as [-> | ->]; [exists (-1), s1, U1, T1, M1; by split_and!; [..|left|]|].
  destruct (Hr0 eq_refl) as (e & He & -> & Hk0 & Hk32 & Hw). change (0 <? 0) with false. cbn iota. run.
  rewrite (proj2 (Z.eqb_neq _ 0)), Hoff, Hk32 by done. fold n. fold (chunk va n).
  rewrite Z2Nat.id, Hu by lia. set (c := Z.to_nat (chunk va n)).
  pose proof (se_space _ _ _ _ _ _ _ _ _ _ _ Hserv) as Hus1.
  pose proof (se_start _ _ _ _ _ _ _ _ _ _ _ Hserv) as Hst1.
  assert (Z.of_nat (length (take c src)) = chunk va n) as Htl by (rewrite length_take; lia).
  assert (Z.of_nat (length (drop c src)) = n - chunk va n) as Hdl by (rewrite length_drop; lia).
  assert (∀ i, page_to_addr s1 i = page_to_addr s i) as Hpa by (intros; by apply page_to_addr_same).
  destruct (store_served s1 U1 T1 M1 va e (take c src)) as [Hserv2 Hbytes]; rewrite ?Htl; try done.
  { by eapply se_alias. }
  { intros i HUi Hi. rewrite Hpa in Hi. destruct (Hw eq_refl) as [[HM HC]|(_ & j & HUj & Hj & HOj)].
    - eapply (Huns va); [unfold within; lia|done..].
    - rewrite Hi, <- !Hpa in Hj.
      by rewrite (page_addr_inj s1 U1 (us_pool _ _ _ _ _ _ Hus1) i j HUi HUj Hj). }
  set (s2 := with_ram _ s1) in *. rewrite Htl in Hserv2, Hbytes.
  rewrite <- Hpa. change (page_to_addr s1 D) with (page_to_addr s2 D).
  pose proof (Z.mod_pos_bound va PGSIZE ltac:(done)).
  destruct (IH s2 U1 T1 M1 (va + chunk va n) (drop c src)) as (r & s' & U' & T' & M' & -> & Hserv3 & Hr & Hb3);
    rewrite ?Hdl; try done; try lia.
  { apply Hserv2. } { by eapply (se_alias _ _ _ _ _ _ _ _ _ _ _ Hserv). }
  { intros a e' i Ha He' HC Hi. eapply (Huns a e'); [unfold within in *; lia| |done|by rewrite <- Hpa].
    rewrite <- Hent; [done|]. eapply next_page; [lia| |exact Ha]. unfold within in Ha. lia. }
  { page_lia. }
  { replace (Z.of_nat fuel - 1) with (Z.of_nat (S fuel) - 1 - 1) by lia. by apply Hnf. }
  rewrite Hdl in Hserv3, Hb3.
  exists r, s', U', T', M'. split_and!; [done| |done|].
  - eapply served_trans; [done|]. eapply served_trans; (eapply served_weaken; [|done]);
      intros a; unfold within; lia.
  - intros Hz. specialize (Hb3 Hz).
    replace n with (chunk va n + (n - chunk va n)) at 1 by lia.
    rewrite ubytes_app, Hb3 by lia. rewrite <- (take_drop c src) at 2. rewrite !fmap_app. f_equal.
    rewrite <- Hbytes. eapply ubytes_keep; [apply Hserv3|lia|lia| |].
    + intros j Hj. unfold within. lia.
    + intros j Hj. rewrite vpn_in_page by lia. by rewrite He.
Qed.

End Copy.

Lemma copy_fuel_ok va n : 0 ≤ va → 0 ≤ n →
  (1 ≤ copy_fuel n)%nat ∧ (n = 0 ∨ va mod PGSIZE + n ≤ (Z.of_nat (copy_fuel n) - 1) * PGSIZE).
Proof.
  intros Hva Hn. unfold copy_fuel. split; [lia|right]. pose proof (Z.mod_pos_bound va PGSIZE ltac:(done)).
  pose proof (Z_div_mod_eq_full n PGSIZE). pose proof (Z.mod_pos_bound n PGSIZE ltac:(done)).
  pose proof (Z.div_pos n PGSIZE Hn ltac:(done)). page_lia.
Qed.

(** A current process whose faults the copy may serve: its VMAs are private. *)
Definition plain_process (cur : option mm_struct) : Prop :=
  ∀ m, cur = Some m → 0 ≤ user_base m ∧ private_vmas m.

Lemma copyout_ok f cur s U D T M O va src :
  let n := Z.of_nat (length src) in
  uspace s U D T M O → plain_process cur → no_alias M → unshared O s M va n → 0 ≤ va → va + n ≤ USEREND →
  ∃ r s' U' T' M', copyout f cur (page_to_addr s D) va src s = Done (r, s') ∧
    served (within va n) s U D T M O s' U' T' M' ∧ (r = -1 ∨ r = 0) ∧
    (r = 0 → ubytes s' M' va n = Some <$> ((λ b, b mod 256) <$> src)).
Proof.
  intros n Hus Hcur Hna Huns Hva Hend. unfold copyout. pose proof (dir_addr_pos _ _ _ _ _ _ Hus).
  rewrite (proj2 (Z.eqb_neq (page_to_addr s D) 0)) by lia.
  destruct (copy_fuel_ok va n Hva ltac:(lia)) as [Hf1 Hf]. by apply copyout_loop_ok.
Qed.

Lemma copyin_ok f cur s U D T M O va n :
  uspace s U D T M O → plain_process cur → 0 ≤ va → 0 ≤ n → va + n ≤ USEREND →
  ∃ r s' U' T' M', copyin f cur (page_to_addr s D) va n s = Done (r, s') ∧
    served nowhere s U D T M O s' U' T' M' ∧
    (∀ l, r = Some l → ubytes s' M' va n = Some <$> l) ∧
    ((∀ a, va ≤ a < va + n → is_Some (M !! vpn a)) → is_Some r).
Proof.
  intros Hus Hcur Hva Hn Hend. unfold copyin. pose proof (dir_addr_pos _ _ _ _ _ _ Hus).
  rewrite (proj2 (Z.eqb_neq (page_to_addr s D) 0)) by lia.
  destruct (copy_fuel_ok va n Hva Hn) as [Hf1 Hf].
  destruct (copyin_loop_ok f cur Hcur D O (copy_fuel n) s U T M va n [] Hus Hva Hn Hend Hf1 Hf)
    as (r & s' & U' & T' & M' & Hrun & Hserv & Hl & Hall).
  exists r, s', U', T', M'. split_and!; [done|done| |done].
  intros l Hr. by destruct (Hl l Hr) as (bs & -> & Hbs).
Qed.

(** [copyin] of a user range always returns; what it returns are the bytes
    the program itself would read, with pages not yet touched read as zero,
    and it succeeds whenever the range is mapped.  The program's view and
    everything held by others stay as they are. *)
Theorem copyin_spec f cur s U D T M O va n :
  uspace s U D T M O → plain_process cur → 0 ≤ va → 0 ≤ n → va + n ≤ USEREND →
  ∃ r s' U' T' M', copyin f cur (page_to_addr s D) va n s = Done (r, s') ∧
    uspace s' U' D T' M' O ∧ same_view nowhere s M s' M' ∧ others_keep s U D T O s' U' ∧
    (∀ l, r = Some l → ubytes s' M' va n = Some <$> l) ∧
    ((∀ a, va ≤ a < va + n → is_Some (M !! vpn a)) → is_Some r).
Proof.
  intros Hus Hcur Hva Hn Hend.
  destruct (copyin_ok f cur s U D T M O va n Hus Hcur Hva Hn Hend) as (r & s' & U' & T' & M' & Hrun & Hserv & Hr).
  exists r, s', U', T', M'. split_and!; try apply Hserv; try apply Hr. done.
Qed.

(** [copyout] to a range whose pages are copy-on-write, unmapped or mapped
    here alone always returns; on success the program reads exactly the new
    bytes there.  Every other byte of its view and every page that others
    refer to is unchanged, also when the copy fails half way. *)
Theorem copyout_spec f cur s U D T M O va src :
  let n := Z.of_nat (length src) in
  uspace s U D T M O → plain_process cur → no_alias M → unshared O s M va n → 0 ≤ va → va + n ≤ USEREND →
  ∃ r s' U' T' M', copyout f cur (page_to_addr s D) va src s = Done (r, s') ∧ (r = -1 ∨ r = 0) ∧
    uspace s' U' D T' M' O ∧ same_view (within va n) s M s' M' ∧ others_keep s U D T O s' U' ∧
    (r = 0 → ubytes s' M' va n = Some <$> ((λ b, b mod 256) <$> src)).
Proof.
  intros n Hus Hcur Hna Huns Hva Hend.
  destruct (copyout_ok f cur s U D T M O va src Hus Hcur Hna Huns Hva Hend)
    as (r & s' & U' & T' & M' & Hrun & Hserv & Hr & Hb).
  exists r, s', U', T', M'. split_and!; try apply Hserv; done.
Qed.

(** C38: what [copyout] stored, [copyin] reads back. *)
Theorem copy_roundtrip f cur s U D T M O va src s1 :
  let n := Z.of_nat (length src) in
  uspace s U D T M O → plain_process cur → no_alias M → unshared O s M va n → 0 ≤ va → va + n ≤ USEREND →
  (∀ b, b ∈ src → 0 ≤ b < 256) →
  copyout f cur (page_to_addr s D) va src s = Done (0, s1) →
  ∃ s2, copyin f cur (page_to_addr s D) va n s1 = Done (Some src, s2).
Proof.
  intros n Hus Hcur Hna Huns Hva Hend Hbytes Hout.
  destruct (copyout_ok f cur s U D T M O va src Hus Hcur Hna Huns Hva Hend)
    as (r & s' & U1 & T1 & M1 & Hrun & Hserv & _ & Hb). rewrite Hout in Hrun. injection Hrun as <- <-.
  specialize (Hb eq_refl). fold n in Hb, Hserv.
  rewrite <- (page_to_addr_same s s1 D) by apply Hserv.
  destruct (copyin_ok f cur s1 U1 D T1 M1 O va n) as (r & s2 & U2 & T2 & M2 & Hrun & Hserv2 & Hl & Hall);
    [apply Hserv|done|done|lia|done|].
  assert (∀ a, va ≤ a < va + n → is_Some (M1 !! vpn a)) as Hmap.
  { intros a Ha. apply (ubyte_some s1).
    assert (ubytes s1 M1 va n !! Z.to_nat (a - va) = Some (ubyte s1 M1 a)) as Hl1.
    { unfold ubytes. rewrite list_lookup_fmap, lookup_seqZ_lt by lia. simpl. do 2 f_equal. lia. }
    rewrite Hb, !list_lookup_fmap in Hl1. destruct (src !! _); [|done]. simpl in Hl1. injection Hl1 as <-. by eexists. }
  destruct (Hall Hmap) as [l ->]. exists s2. rewrite Hrun. do 3 f_equal.
  specialize (Hl l eq_refl). rewrite (ubytes_keep nowhere s1 M1) in Hl; [|apply Hserv2|done|done|by intros ? ? []|].
  2:{ intros j Hj. apply Hmap. lia. }
  rewrite Hb in Hl. apply (inj (fmap Some)) in Hl. rewrite <- Hl.
  rewrite <- (list_fmap_id src) at 2. apply list_fmap_ext. intros i x Hx. simpl.
  apply Z.mod_small, Hbytes. by eapply list_elem_of_lookup_2.
Qed.

(** a demand fault always returns.  An unmapped page is filled only where
    the metadata allows the access (in the heap, or in a VMA with a protection
    that permits it); it then reads zero, is writable if stores are allowed
    and has no other user.  What was mapped before reads the same, and nothing
    others hold changes. *)
Theorem uvm_demand_fault_spec f s U D T M O m va write :
  uspace s U D T M O → pgdir m = page_to_addr s D → 0 ≤ user_base m → 0 ≤ va < 2 ^ 32 → private_vmas m →
  ∃ r s' U' T' M', uvm_demand_fault f (Some m) va write s = Done (r, s') ∧
    uspace s' U' D T' M' O ∧ same_view nowhere s M s' M' ∧ others_keep s U D T O s' U' ∧
    (r = -1 ∨ r = 0) ∧ (∀ v, v ≠ vpn va → M' !! v = M !! v) ∧
    (r = 0 → va < USEREND ∧ ∃ e, M' !! vpn va = Some e ∧
       (M !! vpn va = None → may_access m (PGROUNDDOWN va) write ∧ has e PTE_COW = false ∧
          (write = true → has e PTE_W = true) ∧
          ∃ i, U' !! i = Some 0 ∧ pte_page_kva e = page_to_addr s i ∧ O i = 0) ∧
       (is_Some (M !! vpn va) → M' = M)).
Proof.
  intros Hus Hpgd Hub Hva Hpr.
  destruct (demand_fault_ok nowhere f s U D T M O m va write Hus Hpgd Hub Hva Hpr)
    as (r & s' & U' & T' & M' & Hrun & Hserv & Hr & Hent & H0).
  exists r, s', U', T', M'. split_and!; try apply Hserv; done.
Qed.
