(* ===== verification/AddrSpace.v ===== *)
(** [AddrSpace]: the life of a whole user address space, [uvmcreate] and
    [uvmfree] of kernel/mm/vm.c. *)
From Stdlib Require Import ZArith Lia.
From stdpp Require Import numbers strings gmap list sets.
From S2P Require Import Prelude ListHead MemLayout Buddy BuddyInv BuddySpec PageAlloc Vm PageTable VmSpec Mmap.
From S2P Require Import UserMem.
Open Scope Z_scope.

Lemma del_range_snoc a b M : a ≤ b → del_range a (b + 1) M = delete b (del_range a b M).
Proof.
  intros Hab. apply map_eq. intros v. rewrite lookup_delete, !lookup_del_range.
  repeat case_decide; lia || done.
Qed.

Lemma same_data_mono s D (T T' : gmap Z Z) s' : T' ⊆ T → same_data s D T' s' → same_data s D T s'.
Proof.
  intros HT [H1 H2]. split; [done|]. intros b Hb. apply H2. intros t Ht. apply Hb.
  destruct Ht as [-> | [k Hk]]; [by left|right]. exists k. by eapply lookup_weaken.
Qed.

(** The entries of one page table. *)
Lemma space_entry s U D T M O k t j :
  uspace s U D T M O → T !! k = Some t → 0 ≤ j < 1024 →
  let e := rd s (page_to_addr s t + 4 * j) in
  M !! (k * 1024 + j) = if has e PTE_P then Some e else None.
Proof.
  intros Hus Ht Hj. rewrite (us_pte _ _ _ _ _ _ Hus).
  replace ((k * 1024 + j) / 1024) with k by (apply (Z.div_unique_pos _ _ _ j); lia).
  replace ((k * 1024 + j) mod 1024) with j by (apply (Z.mod_unique_pos _ _ k); lia). by rewrite Ht.
Qed.

Lemma uvmfree_table_ok s U D T M O k t :
  uspace s U D T M O → T !! k = Some t →
  ∃ s' U', uvmfree_table (page_to_addr s t) s = Done s' ∧
    uspace s' U' D T (del_range (k * 1024) (k * 1024 + 1024) M) O ∧ shrinks s U D T O s' U'.
Proof.
  intros Hus Ht. unfold uvmfree_table.
  set (I := λ j s', ∃ U', uspace s' U' D T (del_range (k * 1024) (k * 1024 + j) M) O ∧ shrinks s U D T O s' U').
  match goal with |- context [for_each _ ?b s] =>
    destruct (for_each_all b I 0 1024 s) as (s' & -> & U' & Hus' & Hsh); [lia| | |run; by exists s', U'] end.
  { exists U. rewrite del_range_empty by lia. split; [done|apply shrinks_refl]. }
  intros j s1 Hj (U1 & Hus1 & Hsh1). assert (0 ≤ j < 1024) as Hj' by lia.
  pose proof (space_entry _ _ _ _ _ _ k t j Hus1 Ht Hj') as He. cbn zeta in He.
  assert (page_to_addr s t = page_to_addr s1 t) as -> by (symmetry; apply page_to_addr_same, Hsh1).
  cbn zeta. set (e := rd s1 _) in *. destruct (has e PTE_P) eqn:HP; cbn [negb].
  - destruct (unmap_entry s1 U1 D T _ O Hus1 k t j e Ht Hj' He eq_refl) as (s2 & -> & U2 & Hus2 & Hsh2). run.
    eexists. split; [done|]. exists U2. unfold I. rewrite Z.add_assoc, del_range_snoc by lia.
    split; [done|]. by eapply shrinks_trans.
  - eexists. split; [done|]. exists U1. rewrite Z.add_assoc, del_range_snoc, delete_id by (done || lia).
    by split.
Qed.

(** Unhooking a table without entries. *)
Lemma space_drop s U D T M O k t :
  uspace s U D T M O → T !! k = Some t → (∀ j, 0 ≤ j < 1024 → M !! (k * 1024 + j) = None) →
  ∃ s1 U1, put_page (page_to_addr s t) s = Done s1 ∧
    let s' := wr (page_to_addr s D + 4 * k) 0 s1 in
    uspace s' U1 D (delete k T) M O ∧ shrinks s U D T O s' U1.
Proof.
  intros Hus Ht Hno. pose proof (us_pool _ _ _ _ _ _ Hus) as HU.
  destruct (us_tab _ _ _ _ _ _ Hus k t Ht) as (Hk & HUt & HtD).
  pose proof Hus as [_ H2 H3 H4 H5 H6 H7 [C1 C2 C3 C4 C5]].
  assert (table D T t) as Htt by (right; by exists k). pose proof (C2 t Htt) as Hrt. pose proof (C3 t) as HOt.
  destruct (put_page_refs s U D T M O Hus t HUt) as (s1 & Hrun & Hram & Hst & Hrefs & Hok).
  set (U1 := if refs s t =? 1 then delete t U else U) in *. exists s1, U1. split; [done|]. intros s'.
  assert (∀ i, page_to_addr s' i = page_to_addr s i) as Hpa by (intros; by apply page_to_addr_same).
  assert (∀ i, table D (delete k T) i → table D T i ∧ i ≠ t) as Htab.
  { intros i [-> | [k' Hk']]; [split; [by left|done]|].
    apply lookup_delete_Some in Hk' as [Hne Hk']. split; [right; by exists k'|]. intros ->. by eapply Hne, H4. }
  assert (∀ i o, U !! i = Some o → i ≠ t ∨ 1 ≤ O t → U1 !! i = Some o) as Hkeep.
  { intros i o Hi Hc. unfold U1. destruct (Z.eqb_spec (refs s t) 1); [|done].
    rewrite lookup_delete_ne; [done|]. intros ->. destruct Hc; [done|lia]. }
  assert (∀ i, U1 !! i = Some 0 → U !! i = Some 0 ∧ (i = t → 1 ≤ O t)) as Hsub.
  { intros i. unfold U1. destruct (Z.eqb_spec (refs s t) 1).
    - intros [? ?]%lookup_delete_Some. split; [done|congruence].
    - intros Hi. split; [done|lia]. }
  assert (∀ i a, U !! i = Some 0 → i ≠ D → page_to_addr s i ≤ a → a + 4 ≤ page_to_addr s i + PGSIZE →
            rd s' a = rd s a) as Hother.
  { intros i a Hi Hne Ha1 Ha2. pose proof (pages_apart s U HU i D Hi H2 Hne).
    unfold s'. rewrite rd_wr_ne by page_lia. unfold rd. by rewrite Hram. }
  split; [split; try setoid_rewrite Hpa|split].
  - by apply pmm_ok_ram.
  - apply Hkeep; auto.
  - intros k' t' Hk'. assert (table D (delete k T) t') as [_ Hne]%Htab by (right; by exists k').
    apply lookup_delete_Some in Hk' as [_ Hk']. destruct (H3 k' t' Hk') as (? & ? & ?).
    split_and!; [lia|lia|apply Hkeep; auto|done].
  - intros k1 k2 t' [_ Hk1]%lookup_delete_Some [_ Hk2]%lookup_delete_Some. by eapply H4.
  - intros k' Hk'. specialize (H5 k' Hk'). rewrite ?Hpa. destruct (decide (k' = k)) as [->|Hne].
    + rewrite lookup_delete_eq. unfold s'. rewrite rd_wr by lia. done.
    + rewrite lookup_delete_ne by done. unfold s'. rewrite rd_wr_ne by lia. unfold rd. rewrite Hram. fold (rd s (page_to_addr s D + 4 * k')).
      destruct (T !! k'); by rewrite ?Hpa.
  - intros v. rewrite H6, lookup_delete. pose proof (Z.mod_pos_bound v 1024 ltac:(lia)).
    pose proof (Z_div_mod_eq_full v 1024). case_decide as Hv.
    + cbn [mbind option_bind]. rewrite <- H6. replace v with (k * 1024 + v mod 1024) by lia. by apply Hno.
    + destruct (T !! (v / 1024)) as [t'|] eqn:Ht'; cbn [mbind option_bind]; [|done]. rewrite Hpa.
      destruct (H3 _ _ Ht') as (_ & HUt' & HtD'). rewrite (Hother t'); [done|done|done|page_lia..].
  - intros v e Hv. destruct (H7 v e Hv) as (? & i & Hi & Hkva & Hnt). split; [done|]. exists i. split_and!; [|done|].
    + apply Hkeep; [done|]. left. intros ->. by apply Hnt.
    + intros Hi'. apply Hnt. by apply Htab.
  - split; try done.
    + intros i Hi Hni. rewrite Hpa. change (refs s' i) with (refs s1 i). rewrite Hrefs.
      destruct (Hsub i Hi) as [HUi Hit]. case_decide; subst.
      * rewrite mapped_zero; [lia|]. intros v e Hv Heq.
        destruct (H7 v e Hv) as (_ & n & Hn & Hkva & Hnt). rewrite Hkva in Heq.
        apply (page_addr_inj s U HU n t Hn HUt) in Heq as ->. done.
      * apply C1; [done|]. intros Hx. apply Hni. destruct Hx as [-> | [k' Hk']]; [by left|]. right. exists k'.
        rewrite lookup_delete_ne; [done|]. intros ->. congruence.
    + intros i Hi. change (refs s' i) with (refs s1 i). destruct (Htab i Hi). rewrite Hrefs, decide_False by done.
      by apply C2.
    + intros i Hi. destruct (decide (U !! i = Some 0)) as [HUi|]; [|by apply C4].
      destruct (decide (i = t)) as [->|Hne]; [|by destruct Hi; apply Hkeep; auto].
      destruct (decide (1 ≤ O t)); [by destruct Hi; apply Hkeep; auto|lia].
    + intros i Hi. change (refs s' i) with (refs s1 i). destruct (Hsub i Hi) as [HUi Hit].
      rewrite Hrefs. case_decide; [specialize (Hit ltac:(done)); lia|by apply C5].
  - split; [done|]. intros b Hb. unfold s'. rewrite ram_wr, Hram. apply mload_store32.
    assert (table D T D) as HD%Hb by (by left). page_lia.
  - unfold U1. destruct (_ =? _); [apply delete_subseteq|done].
  - intros i Hi HO. apply Hkeep; [done|]. destruct (decide (i = t)) as [->|]; auto.
  - intros i o Hi Ho. apply Hkeep; [done|]. left. congruence.
Qed.

Lemma shrinks_mono s U D (T T' : gmap Z Z) O s' U' : T' ⊆ T → shrinks s U D T' O s' U' → shrinks s U D T O s' U'.
Proof. intros HT [H1 H2 H3 H4]. split; [by eapply same_data_mono|done..]. Qed.

Lemma del_range_join a b c M : a ≤ b ≤ c → del_range b c (del_range a b M) = del_range a c M.
Proof.
  intros Hab. apply map_eq. intros v. rewrite !lookup_del_range. repeat case_decide; lia || done.
Qed.

(** The tables from directory index [k] on. *)
Definition tables_from (k : Z) (T : gmap Z Z) : gmap Z Z := filter (λ p, k ≤ p.1) T.

Lemma lookup_tables_from k T j : tables_from k T !! j = if decide (k ≤ j) then T !! j else None.
Proof.
  unfold tables_from. case_decide as Hk.
  - destruct (T !! j) as [t|] eqn:Ht.
    + by apply map_lookup_filter_Some.
    + apply map_lookup_filter_None. by left.
  - apply map_lookup_filter_None. by right.
Qed.

Lemma tables_from_next k T : tables_from (k + 1) T = delete k (tables_from k T).
Proof.
  apply map_eq. intros j. rewrite lookup_delete, !lookup_tables_from. repeat case_decide; lia || done.
Qed.

Lemma uvmfree_pde_ok s U D T M O k :
  uspace s U D (tables_from k T) (del_range 0 (k * 1024) M) O → 0 ≤ k < 768 →
  ∃ s' U', uvmfree_pde (page_to_addr s D) k s = Done (Next, s') ∧
    uspace s' U' D (tables_from (k + 1) T) (del_range 0 ((k + 1) * 1024) M) O ∧ shrinks s U D T O s' U'.
Proof.
  intros Hus Hk. unfold uvmfree_pde. pose proof (us_pde _ _ _ _ _ _ Hus k Hk) as Hpde. cbn zeta in *.
  assert (tables_from k T ⊆ T) as Hsub by apply map_filter_subseteq.
  destruct (tables_from k T !! k) as [t|] eqn:Ht.
  - destruct Hpde as (-> & -> & ->). cbn [andb].
    destruct (uvmfree_table_ok s U D _ _ O k t Hus Ht) as (s1 & U1 & -> & Hus1 & Hsh1). run.
    rewrite del_range_join in Hus1 by lia. replace (k * 1024 + 1024) with ((k + 1) * 1024) in Hus1 by lia.
    assert (∀ i, page_to_addr s i = page_to_addr s1 i) as Hpa by (intros; symmetry; apply page_to_addr_same, Hsh1).
    rewrite !Hpa. destruct (space_drop s1 U1 D _ _ O k t Hus1 Ht) as (s2 & U2 & Hput & Hus2 & Hsh2).
    { intros j Hj. rewrite lookup_del_range, decide_True by lia. done. }
    unfold free_page. rewrite Hput. run. eexists _, U2. split; [done|]. rewrite tables_from_next. split; [done|].
    eapply shrinks_trans; eapply shrinks_mono; done.
  - rewrite Hpde. cbn [andb]. exists s, U. split; [done|]. split; [|apply shrinks_refl].
    rewrite tables_from_next, delete_id by done.
    replace (del_range 0 ((k + 1) * 1024) M) with (del_range 0 (k * 1024) M); [done|].
    apply map_eq. intros v. rewrite !lookup_del_range. repeat case_decide; try lia; try done.
    pose proof (us_pte _ _ _ _ _ _ Hus v) as Hv. rewrite lookup_del_range, decide_False in Hv by lia.
    replace (v / 1024) with k in Hv by (apply (Z.div_unique_pos _ _ _ (v - k * 1024)); lia).
    by rewrite Ht in Hv.
Qed.

Lemma uvmfree_ok s U D T M O :
  uspace s U D T M O →
  ∃ s' U', uvmfree (page_to_addr s D) s = Done s' ∧ pmm_ok s' U' ∧
    (∀ i o, U' !! i = Some o ↔ U !! i = Some o ∧ (o ≠ 0 ∨ 1 ≤ O i)) ∧
    (∀ i, U' !! i = Some 0 → refs s' i = O i) ∧ same_data s D T s'.
Proof.
  intros Hus. unfold uvmfree. pose proof (dir_addr_pos _ _ _ _ _ _ Hus).
  rewrite (proj2 (Z.eqb_neq (page_to_addr s D) 0)) by lia.
  change (PDX USERBASE) with 0. change (PDX (USEREND - 1) + 1 - 0) with 768.
  set (I := λ k s', ∃ U', uspace s' U' D (tables_from k T) (del_range 0 (k * 1024) M) O ∧ shrinks s U D T O s' U').
  destruct (for_each_all (uvmfree_pde (page_to_addr s D)) I 0 768 s) as (s1 & -> & U1 & Hus1 & Hsh1).
  { lia. }
  { exists U. rewrite del_range_empty by lia. split; [|apply shrinks_refl].
    replace (tables_from 0 T) with T; [done|]. apply map_eq. intros j. rewrite lookup_tables_from.
    case_decide; [done|]. destruct (T !! j) as [t|] eqn:Ht; [|done].
    destruct (us_tab _ _ _ _ _ _ Hus j t Ht). lia. }
  { intros k s1 Hk (U1 & Hus1 & Hsh1).
    assert (page_to_addr s D = page_to_addr s1 D) as -> by (symmetry; apply page_to_addr_same, Hsh1).
    destruct (uvmfree_pde_ok s1 U1 D T M O k Hus1 ltac:(lia)) as (s2 & U2 & -> & Hus2 & Hsh2).
    eexists. split; [done|]. exists U2. split; [done|]. by eapply shrinks_trans. }
  run. unfold free_page. destruct Hsh1 as [Hdata Hsub Hkeep Hbig].
  assert (page_to_addr s D = page_to_addr s1 D) as -> by (symmetry; apply page_to_addr_same, Hdata).
  pose proof (us_dir _ _ _ _ _ _ Hus1) as HD. pose proof (us_count _ _ _ _ _ _ Hus1) as [C1 C2 C3 C4 C5].
  destruct (put_page_refs s1 U1 D _ _ O Hus1 D HD) as (s2 & Hrun & Hram & Hst & Hrefs & Hok).
  assert (table D (tables_from (0 + 768) T) D) as HtD by (by left).
  pose proof (C2 D HtD) as HrD. pose proof (C3 D) as HOD.
  assert (∀ i, U1 !! i = Some 0 → i ≠ D → O i = refs s1 i) as HO.
  { intros i Hi Hne. rewrite <- (C1 i Hi).
    - rewrite mapped_zero; [lia|]. intros v e Hv. exfalso. rewrite lookup_del_range in Hv.
      case_decide; [done|]. pose proof (us_pte _ _ _ _ _ _ Hus v) as Hpte. rewrite Hv in Hpte.
      destruct (T !! (v / 1024)) as [t|] eqn:Ht; [|done]. destruct (us_tab _ _ _ _ _ _ Hus _ _ Ht) as [Hv1 _].
      pose proof (Z_div_mod_eq_full v 1024). pose proof (Z.mod_pos_bound v 1024). lia.
    - intros [?|[k Hk]]; [done|]. rewrite lookup_tables_from in Hk. case_decide; [|done].
      destruct (us_tab _ _ _ _ _ _ Hus _ _ Hk). lia. }
  set (U2 := if refs s1 D =? 1 then delete D U1 else U1) in *.
  assert (∀ i o, U2 !! i = Some o ↔ U1 !! i = Some o ∧ (i = D → 1 ≤ O D)) as HU2.
  { intros i o. unfold U2. destruct (Z.eqb_spec (refs s1 D) 1); [|naive_solver lia].
    rewrite lookup_delete_Some. naive_solver lia. }
  exists s2, U2. split_and!; [done|done| | |].
  - intros i o. rewrite HU2. split.
    + intros [Hi HiD]. split; [by eapply lookup_weaken|]. destruct (decide (o = 0)) as [->|]; [right|by left].
      destruct (decide (i = D)) as [->|Hne]; [by apply HiD|]. rewrite HO by done. by apply C5.
    + intros [Hi Ho]. destruct (decide (o = 0)) as [->|Hne].
      * destruct Ho as [?|Ho]; [done|]. split; [by apply Hkeep|by intros <-].
      * split; [by apply Hbig|]. intros ->. rewrite (Hbig D o Hi Hne) in HD. congruence.
  - intros i [Hi _]%HU2. rewrite Hrefs. case_decide as HiD; [subst; lia|]. symmetry. by apply HO.
  - eapply same_data_trans; [done|]. split; [done|]. intros b _. by rewrite Hram.
Qed.

(** ** Creating an address space *)

(** The references others hold on the pages of [U]. *)
Definition held (s : pmm) (U : gmap Z Z) (i : Z) : Z := if decide (U !! i = Some 0) then refs s i else 0.

Lemma copy_pdes_frame l : ∀ kp p s, (∀ i, i ∈ l → 768 ≤ i < 1024) →
  ∃ m, foldl (copy_pde kp p) s l = with_ram m s ∧
    ∀ b, b < p + 4 * 768 ∨ p + PGSIZE ≤ b → mload m b = mload (ram s) b.
Proof.
  induction l as [|i l IH]; intros kp p s Hl; cbn [foldl].
  { exists (ram s). by destruct s. }
  pose proof (Hl i ltac:(by left)) as Hi. unfold copy_pde at 2. cbn zeta. destruct (has _ _).
  - destruct (IH kp p (wr (p + 4 * i) (rd s (kp + 4 * i)) s)) as (m & -> & Hm); [intros; apply Hl; by right|].
    exists m. split; [by destruct s|]. intros b Hb. rewrite Hm by done. rewrite ram_wr.
    apply mload_store32. page_lia.
  - apply IH. intros; apply Hl; by right.
Qed.

Lemma copy_kernel_pdes_frame kp p s :
  ∃ m, copy_kernel_pdes kp p s = with_ram m s ∧
    ∀ b, b < p + 4 * 768 ∨ p + PGSIZE ≤ b → mload m b = mload (ram s) b.
Proof.
  apply copy_pdes_frame. intros i Hi%elem_of_seqZ. change (PDX KERNBASE) with 768 in Hi.
  unfold MAX_KERNEL_PT in Hi. lia.
Qed.

(** A zeroed page is an empty address space. *)
Lemma empty_space s U D m :
  pmm_ok s U → U !! D = Some 0 → refs s D = 1 → (∀ i, U !! i = Some 0 → 1 ≤ refs s i) →
  (∀ b, page_to_addr s D ≤ b < page_to_addr s D + 4 * 768 → mload m b = 0) →
  uspace (with_ram m s) U D ∅ ∅ (upd (held s U) D 0).
Proof.
  intros Hok HD Href Hlive Hz. split.
  - by apply pmm_ok_ram.
  - done.
  - intros k t. by rewrite lookup_empty.
  - intros k1 k2 t. by rewrite lookup_empty.
  - intros k Hk. rewrite lookup_empty. change (page_to_addr (with_ram m s) D) with (page_to_addr s D).
    unfold rd, load32. cbn [ram with_ram]. rewrite !Hz by lia. done.
  - intros v. by rewrite !lookup_empty.
  - intros v e. by rewrite lookup_empty.
  - assert (∀ i, table D ∅ i → i = D) as Ht by (intros i [?|[k Hk]]; [done|by rewrite lookup_empty in Hk]).
    split; unfold upd, held; change (refs (with_ram m s)) with (refs s).
    + intros i Hi Hni. rewrite decide_False by (intros ->; apply Hni; by left). rewrite decide_True by done.
      unfold mapped. by rewrite map_filter_empty.
    + intros i ->%Ht. rewrite decide_True by done. lia.
    + intros i. repeat case_decide; try lia. specialize (Hlive i ltac:(done)). lia.
    + intros i Hi. repeat case_decide; done.
    + done.
Qed.

Lemma uvmcreate_ok s U kp :
  pmm_ok s U → (∀ i, U !! i = Some 0 → 1 ≤ refs s i) →
  ∃ r s', uvmcreate kp s = Done (r, s') ∧
  ((r = 0 ∧ s' = s) ∨
   (∃ D, U !! D = None ∧ r = page_to_addr s' D ∧ mem_start s' = mem_start s ∧
      uspace s' (<[D := 0]> U) D ∅ ∅ (held s U) ∧
      ∀ b, ¬ (page_to_addr s D ≤ b < page_to_addr s D + PGSIZE) → mload (ram s') b = mload (ram s) b)).
Proof.
  intros [B Hv] Hlive. unfold uvmcreate, alloc_page.
  destruct (alloc_pages_view s U B 0 Hv ltac:(lia)) as (r & s1 & -> & Hr). run.
  destruct r as [a|]; [|destruct Hr as [-> _]; exists 0, s; split; [done|]; by left].
  destruct Hr as (D & -> & Hwf & Hno & Hok & _ & Hst & Hnp & Hrc & Hram).
  replace (2 ^ 0 * PGSIZE) with PGSIZE in Hram by page_lia.
  fold (zero_page (page_to_addr s D) s1).
  destruct (copy_kernel_pdes_frame kp (page_to_addr s D) (zero_page (page_to_addr s D) s1)) as (m & -> & Hm).
  assert (with_ram m (zero_page (page_to_addr s D) s1) = with_ram m s1) as -> by done.
  eexists _, _. split; [done|]. right.
  assert (U !! D = None) as HUD.
  { apply eq_None_not_Some. intros [o Ho]. apply (Hno D); [by eapply wf_blk_head|]. by eapply view_owned_head. }
  assert (∀ k, refs s1 k = if decide (k = D) then 1 else refs s k) as Hrefs.
  { intros k. specialize (Hrc k). apply refs_eq in Hrc. rewrite Hrc.
    case_decide; [done|]. unfold refs. by destruct (mem_map s !! k). }
  assert (∀ k, page_to_addr s1 k = page_to_addr s k) as Hpa by (intros; by apply page_to_addr_same).
  exists D. split_and!; [done| |done| |].
  - by rewrite <- Hpa.
  - eapply uspace_ext; [eapply (empty_space s1 (<[D := 0]> U) D m)|].
    + done.
    + apply lookup_insert_eq.
    + by rewrite Hrefs, decide_True.
    + intros i Hi. rewrite Hrefs. case_decide; [lia|]. rewrite lookup_insert_ne in Hi by done. by apply Hlive.
    + intros b Hb. rewrite Hpa in Hb. rewrite Hm by lia.
      rewrite zero_page_ram, decide_True by page_lia. done.
    + intros i. unfold upd, held. rewrite lookup_insert, Hrefs. repeat case_decide; subst; congruence || done.
  - intros b Hb. cbn [ram with_ram]. rewrite Hm by page_lia.
    by rewrite zero_page_ram, Hram, !decide_False.
Qed.

(** tearing an address space down always returns and leaks nothing: exactly
    the pages that others still refer to stay allocated, with exactly their
    references left; larger blocks and all data bytes are untouched. *)
Theorem uvmfree_spec s U D T M O :
  uspace s U D T M O →
  ∃ s' U', uvmfree (page_to_addr s D) s = Done s' ∧ pmm_ok s' U' ∧
    (∀ i o, U' !! i = Some o ↔ U !! i = Some o ∧ (o ≠ 0 ∨ 1 ≤ O i)) ∧
    (∀ i, U' !! i = Some 0 → refs s' i = O i) ∧ same_data s D T s'.
Proof. apply uvmfree_ok. Qed.
