(* ===== verification/Fork.v ===== *)
(** [Fork]: the copy of an address space by [uvmcopy] (kernel/mm/vm.c).

    Two address spaces share the pool: the parent [D1] and the child [D2].
    From each one's view the other's uses of a page are references of others. *)
From Stdlib Require Import ZArith Lia.
From stdpp Require Import numbers strings gmap list sets.
From S2P Require Import Prelude ListHead MemLayout Buddy BuddyInv BuddySpec PageAlloc Vm PageTable VmSpec Mmap.
From S2P Require Import UserMem UserMemSpec AddrSpace.
Open Scope Z_scope.

(** The parent's entry after the copy: writable entries become copy-on-write. *)
Definition is_cow (e : Z) : bool := has e PTE_W || has e PTE_COW.
Definition cowed (e : Z) : Z :=
  if is_cow e then Z.land (Z.lor e PTE_COW) (u32 (Z.lnot PTE_W)) else e.
(** The child's entry for the same page. *)
Definition child (e : Z) : Z :=
  user_pte (PTE_ADDR e) (if is_cow e then Z.lor (Z.lor PTE_U PTE_P) PTE_COW else Z.lor PTE_U PTE_P).

(** The two maps once the pages below [v] are done. *)
Definition parent_upto (v : Z) (M : gmap Z Z) : gmap Z Z :=
  map_imap (λ w e, Some (if decide (w < v) then cowed e else e)) M.
Definition child_upto (v : Z) (M : gmap Z Z) : gmap Z Z :=
  map_imap (λ w e, if decide (w < v) then Some (child e) else None) M.

Lemma lookup_parent_upto v M w :
  parent_upto v M !! w = (λ e, if decide (w < v) then cowed e else e) <$> M !! w.
Proof. unfold parent_upto. rewrite map_lookup_imap. by destruct (M !! w). Qed.

Lemma lookup_parent_ge v M w : v ≤ w → parent_upto v M !! w = M !! w.
Proof.
  intros Hw. rewrite lookup_parent_upto. destruct (M !! w); simpl; [|done]. by rewrite decide_False by lia.
Qed.

Lemma lookup_child_upto v M w :
  child_upto v M !! w = if decide (w < v) then child <$> M !! w else None.
Proof. unfold child_upto. rewrite map_lookup_imap. destruct (M !! w); simpl; by case_decide. Qed.

Lemma parent_upto_next v M e : M !! v = Some e →
  <[v := cowed e]> (parent_upto v M) = parent_upto (v + 1) M.
Proof.
  intros He. apply map_eq. intros w. rewrite lookup_insert, !lookup_parent_upto.
  case_decide as Hw; [subst; rewrite He; simpl; by rewrite decide_True by lia|].
  destruct (M !! w); simpl; [|done]. by repeat case_decide; try lia.
Qed.

Lemma child_upto_next v M e : M !! v = Some e →
  <[v := child e]> (child_upto v M) = child_upto (v + 1) M.
Proof.
  intros He. apply map_eq. intros w. rewrite lookup_insert, !lookup_child_upto.
  case_decide as Hw; [subst; rewrite He, decide_True by lia; done|].
  by repeat case_decide; try lia.
Qed.

Lemma parent_upto_skip v v' M : v ≤ v' → (∀ w, v ≤ w < v' → M !! w = None) →
  parent_upto v' M = parent_upto v M.
Proof.
  intros Hv Hn. apply map_eq. intros w. rewrite !lookup_parent_upto.
  destruct (M !! w) as [e|] eqn:He; simpl; [|done]. f_equal.
  repeat case_decide; try lia; try done. by rewrite Hn in He by lia.
Qed.

Lemma child_upto_skip v v' M : v ≤ v' → (∀ w, v ≤ w < v' → M !! w = None) →
  child_upto v' M = child_upto v M.
Proof.
  intros Hv Hn. apply map_eq. intros w. rewrite !lookup_child_upto.
  repeat case_decide; try lia; try done. by rewrite Hn by lia.
Qed.

Lemma parent_upto_0 M : (∀ w, w < 0 → M !! w = None) → parent_upto 0 M = M.
Proof.
  intros Hn. apply map_eq. intros w. rewrite lookup_parent_upto.
  destruct (M !! w) eqn:He; simpl; [|done]. rewrite decide_False; [done|].
  intros Hw. by rewrite Hn in He.
Qed.

Lemma child_upto_0 M : (∀ w, w < 0 → M !! w = None) → child_upto 0 M = ∅.
Proof.
  intros Hn. apply map_eq. intros w. rewrite lookup_child_upto, lookup_empty.
  case_decide; [|done]. by rewrite Hn.
Qed.

(** ** The entries *)

Lemma cowed_ok e : 0 ≤ e < 2 ^ 32 → has e PTE_P = true → has e PTE_U = true →
  0 ≤ cowed e < 2 ^ 32 ∧ pte_page_kva (cowed e) = pte_page_kva e ∧ has (cowed e) PTE_P = true ∧
  has (cowed e) PTE_U = true ∧ has (cowed e) PTE_W = false.
Proof.
  intros He HP HUs. unfold cowed, is_cow. destruct (has e PTE_W) eqn:HW; simpl;
    [|destruct (has e PTE_COW); simpl; [|destruct He; by split_and!]].
  all: rewrite !has_land.
  all: change (Z.land (u32 (Z.lnot PTE_W)) PTE_P) with PTE_P; change (Z.land (u32 (Z.lnot PTE_W)) PTE_U) with PTE_U;
    change (Z.land (u32 (Z.lnot PTE_W)) PTE_W) with 0; rewrite !has_lor, HP, HUs.
  all: split_and!; try done; try (apply land_range, lor_range; [done|by vm_compute]);
    [|unfold has; by rewrite !Z.land_0_r].
  all: unfold pte_page_kva, PTE_ADDR; f_equal; rewrite <- Z.land_assoc;
    change (Z.land (u32 (Z.lnot PTE_W)) 4294963200) with 4294963200;
    rewrite Z.land_lor_distr_l; change (Z.land PTE_COW 4294963200) with 0; apply Z.lor_0_r.
Qed.

Lemma cowed_cow e : has (cowed e) PTE_COW = is_cow e.
Proof.
  unfold cowed, is_cow. destruct (has e PTE_W) eqn:HW; simpl.
  - rewrite has_land. change (Z.land (u32 (Z.lnot PTE_W)) PTE_COW) with PTE_COW. rewrite has_lor.
    by rewrite orb_true_r.
  - destruct (has e PTE_COW) eqn:HC; simpl; [|done].
    rewrite has_land. change (Z.land (u32 (Z.lnot PTE_W)) PTE_COW) with PTE_COW. rewrite has_lor.
    by rewrite orb_true_r.
Qed.

Lemma child_ok e : 0 ≤ e < 2 ^ 32 →
  pte_page_kva (child e) = pte_page_kva e ∧ has (child e) PTE_W = false ∧ has (child e) PTE_COW = is_cow e.
Proof.
  intros He. unfold child, user_pte. rewrite <- !Z.lor_assoc.
  assert (0 ≤ PTE_ADDR e < 2 ^ 32) as Hr by (by apply land_range).
  pose proof (PTE_ADDR_divide e He) as Hal.
  split_and!.
  - unfold pte_page_kva. rewrite PTE_ADDR_make; [done|done|done|]. destruct (is_cow e); by vm_compute.
  - rewrite has_make by (done || by vm_compute). destruct (is_cow e); by vm_compute.
  - rewrite has_make by (done || by vm_compute). destruct (is_cow e); by vm_compute.
Qed.

(** ** Two spaces in one pool *)

(** The parent's tables and pages are no tables of the child. *)
Record apart (s : pmm) (D1 : Z) (T1 M1 : gmap Z Z) (D2 : Z) (T2 : gmap Z Z) : Prop := {
  ap_table i : table D1 T1 i → ¬ table D2 T2 i;
  ap_page i v e : table D2 T2 i → M1 !! v = Some e → pte_page_kva e ≠ page_to_addr s i
}.

(** References a bystander sees after the pool has grown. *)
Definition grown (U : gmap Z Z) (O : Z → Z) (s' : pmm) (U' : gmap Z Z) (i : Z) : Z :=
  if decide (U !! i = Some 0) then O i else held s' U' i.

(** A space that a step on another space leaves alone. *)
Lemma space_bystander s U D T M O s' U' :
  uspace s U D T M O → mem_start s' = mem_start s → pmm_ok s' U' → U ⊆ U' →
  (∀ i, U !! i = Some 0 → refs s' i = refs s i) → (∀ i, U' !! i = Some 0 → 1 ≤ refs s' i) →
  (∀ t b, table D T t → page_to_addr s t ≤ b < page_to_addr s t + PGSIZE → mload (ram s') b = mload (ram s) b) →
  uspace s' U' D T M (grown U O s' U').
Proof.
  intros Hus Hst Hok HUs Hrefs Hlive Hb.
  assert (∀ i, page_to_addr s' i = page_to_addr s i) as Hpa by (intros; by apply page_to_addr_same).
  assert (∀ i, U !! i = Some 0 → U' !! i = Some 0) as Hw by (intros i Hi; by eapply lookup_weaken).
  apply (space_frame s U D T M O Hus); try done.
  - intros i Hi. split; [by apply Hw, (table_owned _ _ _ _ _ _ Hus)|]. intros b. by apply Hb.
  - intros i Hi _. by apply Hw.
  - destruct (us_count _ _ _ _ _ _ Hus) as [C1 C2 C3 C4 C5]. split; unfold grown, held.
    + intros i Hi Hni. rewrite Hpa. case_decide as HUi; [rewrite Hrefs by done; by apply C1|].
      rewrite decide_True by done. rewrite mapped_zero; [done|]. intros v e Hv Heq.
      destruct (us_page _ _ _ _ _ _ Hus _ _ Hv) as (_ & j & Hj & Hkva & _). apply HUi.
      rewrite Hkva, <- !Hpa in Heq. apply (page_addr_inj s' U' Hok) in Heq as <-; auto.
    + intros i Hi. pose proof (table_owned _ _ _ _ _ _ Hus i Hi) as HUi.
      rewrite decide_True, Hrefs by done. by apply C2.
    + intros i. repeat case_decide; [apply C3|specialize (Hlive i ltac:(done)); lia|lia].
    + intros i Hi. repeat case_decide; [by destruct Hi; apply Hw|done|done].
    + done.
Qed.

(** Counting tells what a mapping step did to the old reference counts. *)
Lemma map_refs s U D T M O s' U' T' v e i j :
  uspace s U D T M O → uspace s' U' D T' (<[v := e]> M) (upd O i (O i - 1)) →
  grows s U D T s' U' T' → M !! v = None → U !! i = Some 0 → ¬ table D T i →
  pte_page_kva e = page_to_addr s i → U !! j = Some 0 → refs s' j = refs s j.
Proof.
  intros Hus Hus' Hgr Hv Hi Hnt He Hj.
  assert (U' !! j = Some 0) as Hj' by (eapply lookup_weaken; [done|apply Hgr]).
  destruct (us_count _ _ _ _ _ _ Hus) as [C1 C2 _ _ _], (us_count _ _ _ _ _ _ Hus') as [C1' C2' _ _ _].
  destruct (decide (table D T j)) as [Htj|Hnj].
  - assert (table D T' j) as Htj'.
    { destruct Htj as [?|[k Hk]]; [by left|right]. exists k. eapply lookup_weaken; [done|apply Hgr]. }
    rewrite <- (C2 j Htj), <- (C2' j Htj'). rewrite upd_ne; [done|]. by intros ->.
  - pose proof (grows_table _ _ _ _ _ _ _ j Hgr Hj Hnj) as Hnj'.
    rewrite <- (C1 j Hj Hnj), <- (C1' j Hj' Hnj').
    rewrite (page_to_addr_same s s') by apply Hgr. rewrite mapped_insert, He by done.
    unfold upd. destruct (decide (j = i)) as [->|Hne]; [rewrite decide_True by done; lia|].
    rewrite decide_False by (by apply (owned_distinct s U D T M O Hus)). lia.
Qed.

(** The pages such a step adds are tables, with one reference. *)
Lemma map_new_refs s U D T M O s' U' T' v e i j :
  uspace s U D T M O → uspace s' U' D T' (<[v := e]> M) (upd O i (O i - 1)) →
  grows s U D T s' U' T' → U !! i = Some 0 → pte_page_kva e = page_to_addr s i →
  U !! j ≠ Some 0 → U' !! j = Some 0 → refs s' j = 1.
Proof.
  intros Hus Hus' Hgr Hi He Hj Hj'.
  destruct (us_count _ _ _ _ _ _ Hus') as [C1' C2' _ _ C5'].
  assert (upd O i (O i - 1) j = 0) as HO.
  { rewrite upd_ne by congruence. by apply (us_count _ _ _ _ _ _ Hus). }
  destruct (decide (table D T' j)) as [Ht|Ht]; [rewrite <- (C2' j Ht); lia|].
  exfalso. specialize (C5' j Hj'). rewrite <- (C1' j Hj' Ht), HO in C5'.
  rewrite mapped_zero in C5'; [lia|]. intros w e' Hw Heq.
    assert (∃ n, U !! n = Some 0 ∧ pte_page_kva e' = page_to_addr s n) as (n & Hn & Hkva).
    { apply lookup_insert_Some in Hw as [[_ <-]|[_ Hw]]; [by exists i|].
      destruct (us_page _ _ _ _ _ _ Hus _ _ Hw) as (_ & n & Hn & Hkva & _). by exists n. }
    rewrite Hkva, <- (page_to_addr_same s s') in Heq by apply Hgr.
    apply (page_addr_inj s' U' (us_pool _ _ _ _ _ _ Hus')) in Heq as ->; [done| |done].
    eapply lookup_weaken; [done|apply Hgr].
Qed.

(** Bytes of pages that are tables of neither space. *)
Definition both_keep (s : pmm) (U : gmap Z Z) (D1 : Z) (T1 : gmap Z Z) (D2 : Z) (T2 : gmap Z Z) (s' : pmm) : Prop :=
  mem_start s' = mem_start s ∧ ∀ i b, U !! i = Some 0 → ¬ table D1 T1 i → ¬ table D2 T2 i →
    page_to_addr s i ≤ b < page_to_addr s i + PGSIZE → mload (ram s') b = mload (ram s) b.

Lemma V2P_P2V a : 0 ≤ a < 2 ^ 32 → V2P (P2V a) = a.
Proof.
  intros Ha. unfold V2P, P2V, u32. rewrite Zminus_mod_idemp_l. replace (a + KERNBASE - KERNBASE) with a by lia.
  by apply Z.mod_small.
Qed.

Lemma entry_pa e i s : 0 ≤ e < 2 ^ 32 → pte_page_kva e = page_to_addr s i → PTE_ADDR e = V2P (page_to_addr s i).
Proof. intros He <-. unfold pte_page_kva. symmetry. apply V2P_P2V. by apply land_range. Qed.

(** A stage of the copy: the parent maps [M1'], the child [M2'], no data byte
    changed since [s], and [B] bounds the reference counts. *)
Record stage (s : pmm) (U : gmap Z Z) (D1 : Z) (T1 : gmap Z Z) (D2 : Z) (T2 : gmap Z Z) (O2 : Z → Z)
    (s' : pmm) (U' M1' T2' M2' : gmap Z Z) (B : Z) : Prop := {
  sg_1 : ∃ O1, uspace s' U' D1 T1 M1' O1;
  sg_2 : uspace s' U' D2 T2' M2' O2;
  sg_apart : apart s' D1 T1 M1' D2 T2';
  sg_U : U ⊆ U';
  sg_keep : both_keep s U D1 T1 D2 T2 s';
  sg_table i : U !! i = Some 0 → ¬ table D2 T2 i → ¬ table D2 T2' i;
  sg_bound i : U' !! i = Some 0 → refs s' i ≤ B
}.

Lemma stage_trans s U D1 T1 D2 T2 O2 s1 U1 M1 T3 M3 B1 s2 U2 M4 T4 M5 B2 :
  stage s U D1 T1 D2 T2 O2 s1 U1 M1 T3 M3 B1 → stage s1 U1 D1 T1 D2 T3 O2 s2 U2 M4 T4 M5 B2 →
  stage s U D1 T1 D2 T2 O2 s2 U2 M4 T4 M5 B2.
Proof.
  intros [A1 A2 A3 A4 [A5 A5'] A6 A7] [B1' B2' B3 B4 [B5 B5'] B6 B7]. split; try done.
  - by etrans.
  - split; [congruence|]. intros i b Hi Hn1 Hn2 Hb.
    rewrite (B5' i); [by apply (A5' i)|by eapply lookup_weaken|done|by apply A6|].
    by rewrite (page_to_addr_same s s1).
  - intros i Hi Hn. apply B6; [by eapply lookup_weaken|]. by apply A6.
Qed.

Lemma mapped_reflag M v e e' a : M !! v = Some e → pte_page_kva e' = pte_page_kva e →
  mapped (<[v := e']> M) a = mapped M a.
Proof. intros Hv He. rewrite (mapped_update M v e), He by done. lia. Qed.

Section Entry.
Context (D1 D2 : Z) (T1 : gmap Z Z).
Context (k t j : Z) (Hk : T1 !! k = Some t) (Hj : 0 ≤ j < 1024).
Let v := k * 1024 + j.

(** Marking the parent's entry, seen from both spaces. *)
Lemma copy_flag s U M1 O1 T2 M2 O2 e :
  uspace s U D1 T1 M1 O1 → uspace s U D2 T2 M2 O2 → apart s D1 T1 M1 D2 T2 → M1 !! v = Some e →
  let p := page_to_addr s t + 4 * j in
  rd s p = e →
  let s' := if is_cow e then wr p (cowed e) s else s in
  uspace s' U D1 T1 (<[v := cowed e]> M1) O1 ∧ uspace s' U D2 T2 M2 O2 ∧
  both_keep s U D1 T1 D2 T2 s' ∧ (∀ i, refs s' i = refs s i).
Proof.
  intros Hus1 Hus2 [Ht Hp] He p Hrd s'.
  assert (0 ≤ e < 2 ^ 32) as Hr by (rewrite <- Hrd; apply load32_range).
  pose proof (space_entry _ _ _ _ _ _ k t j Hus1 Hk Hj) as Hent. cbn zeta in Hent. fold v p in Hent.
  rewrite He, Hrd in Hent. destruct (has e PTE_P) eqn:HP; [|done]. clear Hent.
  destruct (us_page _ _ _ _ _ _ Hus1 _ _ He) as (HUs & _).
  destruct (cowed_ok e Hr HP HUs) as (Hcr & Hkva & HcP & HcU & _).
  unfold s'. destruct (is_cow e) eqn:Hc.
  - assert (∀ i b, U !! i = Some 0 → i ≠ t → page_to_addr s i ≤ b < page_to_addr s i + PGSIZE →
              mload (ram (wr p (cowed e) s)) b = mload (ram s) b) as Hb.
    { intros i b Hi Hne Hb. rewrite ram_wr. apply mload_store32.
      assert (table D1 T1 t) as Htt by (right; by exists k).
      pose proof (table_owned _ _ _ _ _ _ Hus1 t Htt) as HUt.
      destruct (pages_apart s U (us_pool _ _ _ _ _ _ Hus1) i t Hi HUt Hne); unfold p; page_lia. }
    assert (table D1 T1 t) as Htt by (right; by exists k).
    split_and!; [by eapply space_reflag| | |done].
    + apply space_ram; [done|]. intros t' b Ht' Hbt.
      apply (Hb t'); [by apply (table_owned _ _ _ _ _ _ Hus2)|intros ->; by eapply Ht|done].
    + split; [done|]. intros i b Hi Hn1 _ Hbi. apply (Hb i); [done| |done]. by intros ->.
  - unfold cowed. rewrite Hc. by rewrite insert_id.
Qed.

(** Handing the page to the child, or giving the reference back. *)
Definition copy_tail (new va pa perm : Z) (s : pmm) : outcome (ctl * pmm) :=
  '(r, s) ← uvmmap new va pa PGSIZE perm s;
  if r <? 0 then s ← put_page (P2V pa) s; mret (Ret (-1), s)
  else mret (Next, s).

(** One present page of the copy, after the walk over the parent's table. *)
Definition copy_page (new va e p : Z) (s : pmm) : outcome (ctl * pmm) :=
  s ← get_page (P2V (PTE_ADDR e)) s;
  let s := if is_cow e then wr p (cowed e) s else s in
  let perm := if is_cow e then Z.lor (Z.lor PTE_U PTE_P) PTE_COW else Z.lor PTE_U PTE_P in
  copy_tail new va (PTE_ADDR e) perm s.

Lemma copy_tail_ok s U M1 O1 T2 M2 O2 i perm B :
  let pa := V2P (page_to_addr s i) in
  uspace s U D1 T1 M1 O1 → uspace s U D2 T2 M2 (upd O2 i (O2 i + 1)) → apart s D1 T1 M1 D2 T2 →
  0 ≤ v < 768 * 1024 → M2 !! v = None → U !! i = Some 0 → ¬ table D1 T1 i → ¬ table D2 T2 i →
  0 ≤ O2 i → 1 ≤ O1 i → 2 ≤ refs s i → 0 ≤ perm < PGSIZE → 1 ≤ B → (∀ n, U !! n = Some 0 → refs s n ≤ B) →
  ∃ c s' U' T2' M2', copy_tail (page_to_addr s D2) (v * PGSIZE) pa perm s = Done (c, s') ∧
    stage s U D1 T1 D2 T2 O2 s' U' M1 T2' M2' B ∧
    ((c = Next ∧ M2' = <[v := user_pte pa perm]> M2) ∨ (c = Ret (-1) ∧ M2' = M2)).
Proof.
  intros pa Hus1 Hus2 Hap Hv HM2 Hi Hnt1 Hnt2 HO2 HO1 Hr2 Hperm HB Hmax. unfold copy_tail, pa.
  assert (0 ≤ v * PGSIZE < USEREND) as Hva by page_lia.
  assert (vpn (v * PGSIZE) = v) as Hvpn by (unfold vpn; by apply Z.div_mul).
  assert (∀ n, upd (upd O2 i (O2 i + 1)) i (upd O2 i (O2 i + 1) i - 1) n = O2 n) as HO2'.
  { intros n. rewrite upd_eq. unfold upd. case_decide; subst; lia. }
  destruct (uvmmap_ok s U D2 T2 M2 _ Hus2 (v * PGSIZE) i perm Hva) as (r & s3 & -> & Hres);
    [by exists v|done|done|rewrite upd_eq; lia|done|]. run. rewrite Hvpn in Hres. fold pa in Hres. fold pa.
  pose proof (page_pa s U (us_pool _ _ _ _ _ _ Hus1) i Hi) as (Hpa & _ & _ & Hback). fold pa in Hpa.
  destruct Hres as [(-> & -> & _)|(-> & _ & U' & T2' & Hgr & Hus3)].
  - change (-1 <? 0) with true. cbn iota. rewrite Hpa, Hback.
    destruct (space_put s U D1 T1 M1 O1 Hus1 i Hi HO1) as (s4 & Hput & Hram & Hst & Hus1').
    destruct (space_put s U D2 T2 M2 _ Hus2 i Hi) as (s4' & Hput' & _ & _ & Hus2'); [rewrite upd_eq; lia|].
    rewrite Hput in Hput'. injection Hput' as <-. rewrite Hput. run.
    rewrite (proj2 (Z.eqb_neq (refs s i) 1)) in Hus1', Hus2' by lia.
    destruct (put_page_refs s U D1 T1 M1 O1 Hus1 i Hi) as (s4' & Hput' & _ & _ & Hrefs & _).
    rewrite Hput in Hput'. injection Hput' as <-.
    exists (Ret (-1)), s4, U, T2, M2. split; [done|]. split; [|by right]. split; try done.
    + by eexists.
    + by eapply uspace_ext.
    + destruct Hap as [Ha Hb]. split; [done|]. intros n w e. rewrite (page_to_addr_same s s4) by done. apply Hb.
    + split; [done|]. intros n b _ _ _ _. by rewrite Hram.
    + intros n Hn. specialize (Hmax n Hn). rewrite Hrefs. case_decide; subst; lia.
  - change (0 <? 0) with false. cbn iota. set (e' := user_pte pa perm) in *.
    assert (pte_page_kva e' = page_to_addr s i) as He'.
    { unfold e', user_pte. rewrite <- Z.lor_assoc. apply (entry_kva s U (us_pool _ _ _ _ _ _ Hus1)); [done|].
      by repeat apply flags_lor. }
    pose proof Hgr as [G1 G2 G3 G4 G5].
    assert (∀ n, U !! n = Some 0 → refs s3 n = refs s n) as Hold by (intros n Hn; by apply (map_refs s U D2 T2 M2 _ s3 U' T2' v e' i n Hus2 Hus3)).
    assert (∀ n, U' !! n = Some 0 → U !! n ≠ Some 0 → refs s3 n = 1) as Hnew
      by (intros n Hn Hn'; by apply (map_new_refs s U D2 T2 M2 _ s3 U' T2' v e' i n Hus2 Hus3)).
    exists Next, s3, U', T2', (<[v := e']> M2). split; [done|]. split; [|by left]. split; try done.
    + eexists. eapply space_bystander; try done.
      * apply Hus3.
      * intros n Hn. by apply Hus3.
      * intros t' b Ht' Hb. apply (G5 t'); [by apply (table_owned _ _ _ _ _ _ Hus1)|by apply Hap|done].
    + by eapply uspace_ext.
    + split.
      * intros n Hn. eapply grows_table; [done|by apply (table_owned _ _ _ _ _ _ Hus1)|by apply Hap].
      * intros n w e Ht Hw Heq. destruct (us_page _ _ _ _ _ _ Hus1 _ _ Hw) as (_ & m & Hm & Hkva & _).
        assert (m = n) as <-.
        { rewrite Hkva, <- (page_to_addr_same s s3) in Heq by done.
          eapply (page_addr_inj s3 U' (us_pool _ _ _ _ _ _ Hus3)); [by eapply lookup_weaken| |done].
          by apply (table_owned _ _ _ _ _ _ Hus3). }
        revert Ht. eapply grows_table; [done|done|]. intros Ht. by eapply (ap_page _ _ _ _ _ _ Hap m w e).
    + split; [done|]. intros n b Hn _ Hn2 Hb. by apply (G5 n).
    + intros n Hn Hn2. by eapply grows_table.
    + intros n Hn. destruct (decide (U !! n = Some 0)) as [HUn|HUn]; [rewrite Hold by done; auto|].
      rewrite Hnew by done. lia.
Qed.

Lemma copy_page_ok s U M1 O1 T2 M2 O2 e B :
  uspace s U D1 T1 M1 O1 → uspace s U D2 T2 M2 O2 → apart s D1 T1 M1 D2 T2 → 0 ≤ k < 768 →
  M1 !! v = Some e → M2 !! v = None → 1 ≤ B → B + 1 < 2 ^ 32 → (∀ i, U !! i = Some 0 → refs s i ≤ B) →
  let p := page_to_addr s t + 4 * j in
  rd s p = e →
  ∃ c s' U' T2' M2', copy_page (page_to_addr s D2) (v * PGSIZE) e p s = Done (c, s') ∧
    stage s U D1 T1 D2 T2 O2 s' U' (<[v := cowed e]> M1) T2' M2' (B + 1) ∧
    ((c = Next ∧ M2' = <[v := child e]> M2) ∨ (c = Ret (-1) ∧ M2' = M2)).
Proof.
  intros Hus1 Hus2 Hap Hk768 He HM2 HB1 HB Hmax p Hrd. unfold copy_page.
  assert (0 ≤ e < 2 ^ 32) as Hr by (rewrite <- Hrd; apply load32_range).
  destruct (us_page _ _ _ _ _ _ Hus1 _ _ He) as (HeU & i & Hi & Hkva & Hnt1).
  pose proof (mapped_pos _ _ _ _ He Hkva) as Hmp. 
  assert (¬ table D2 T2 i) as Hnt2 by (intros Ht; by apply (ap_page _ _ _ _ _ _ Hap i v e)).
  change (P2V (PTE_ADDR e)) with (pte_page_kva e). rewrite Hkva.
  destruct (space_get s U D1 T1 M1 O1 Hus1 i Hi ltac:(specialize (Hmax i Hi); lia))
    as (s1 & Hget & Hram1 & Hst1 & Hrefs1 & Hus1').
  destruct (space_get s U D2 T2 M2 O2 Hus2 i Hi ltac:(specialize (Hmax i Hi); lia))
    as (s1' & Hget' & _ & _ & _ & Hus2'). rewrite Hget in Hget'. injection Hget' as <-.
  rewrite Hget. run. assert (∀ n, page_to_addr s n = page_to_addr s1 n) as Hpa1
    by (intros; symmetry; by apply page_to_addr_same).
  assert (apart s1 D1 T1 M1 D2 T2) as Hap1.
  { destruct Hap as [Ha Hb]. split; [done|]. intros n w e1. rewrite <- Hpa1. apply Hb. }
  destruct (copy_flag s1 U M1 _ T2 M2 _ e Hus1' Hus2' Hap1 He) as (Hus1'' & Hus2'' & Hkeep2 & Hrefs2).
  { unfold rd. rewrite Hram1, <- Hpa1. exact Hrd. }
  rewrite <- Hpa1 in Hus1'', Hus2'', Hkeep2, Hrefs2. fold p in Hus1'', Hus2'', Hkeep2, Hrefs2.
  set (s2 := if is_cow e then _ else s1) in *. set (perm := if is_cow e then _ else _).
  assert (mem_start s2 = mem_start s) as Hst2 by (rewrite <- Hst1; apply Hkeep2).
  assert (∀ n, page_to_addr s2 n = page_to_addr s n) as Hpa2 by (intros; by apply page_to_addr_same).
  assert (∀ n, refs s2 n = if decide (n = i) then refs s i + 1 else refs s n) as Hrefs2'
    by (intros n; by rewrite Hrefs2, Hrefs1).
  pose proof (ct_pos _ _ _ _ _ _ (us_count _ _ _ _ _ _ Hus1) i) as HO1.
  pose proof (ct_pos _ _ _ _ _ _ (us_count _ _ _ _ _ _ Hus2) i) as HO2.
  pose proof (ct_live _ _ _ _ _ _ (us_count _ _ _ _ _ _ Hus2) i Hi) as Hlive.
  assert (apart s2 D1 T1 (<[v := cowed e]> M1) D2 T2) as Hap2.
  { destruct Hap as [Ha Hb]. split; [done|]. intros n w e1 Ht Hw. rewrite Hpa2.
    apply lookup_insert_Some in Hw as [[<- <-]|[_ Hw]]; [|by eapply Hb].
    pose proof (space_entry _ _ _ _ _ _ k t j Hus1 Hk Hj) as Hent. cbn zeta in Hent. fold v p in Hent.
    rewrite He, Hrd in Hent. destruct (has e PTE_P) eqn:HP; [|done].
    destruct (cowed_ok e Hr HP HeU) as (_ & -> & _). by eapply Hb. }
  assert (0 ≤ v < 768 * 1024) as Hv768 by (unfold v; lia).
  assert (2 ≤ refs s2 i) as Hr2 by (rewrite Hrefs2', decide_True by done; lia).
  assert (0 ≤ perm < PGSIZE) as Hperm by (unfold perm; destruct (is_cow e); by vm_compute).
  destruct (copy_tail_ok s2 U _ _ T2 M2 O2 i perm (B + 1) Hus1'' Hus2'' Hap2)
    as (c & s' & U' & T2' & M2' & Hrun & Hst & Hc); try done; [rewrite upd_eq; lia|lia| |].
  { intros n Hn. specialize (Hmax n Hn). rewrite Hrefs2'. case_decide; subst; lia. }
  assert (V2P (page_to_addr s2 i) = PTE_ADDR e) as Hpae by (rewrite Hpa2; symmetry; by apply entry_pa).
  cbn zeta in Hrun, Hc. rewrite Hpae in Hrun, Hc. rewrite Hpa2 in Hrun.
  exists c, s', U', T2', M2'. split; [exact Hrun|]. split; [|done].
  destruct Hst as [S1 S2 S3 S4 [S5 S5'] S6 S7]. split; try done.
  split; [congruence|]. intros n b Hn Hn1 Hn2 Hb.
  rewrite (S5' n); [|done|done|done|by rewrite Hpa2].
  rewrite (proj2 Hkeep2 n); [by rewrite Hram1|done|done|done|by rewrite <- Hpa1].
Qed.

End Entry.

Lemma entry_va k j : 0 ≤ k < 768 → 0 ≤ j < 1024 →
  Z.lor (u32 (Z.shiftl k 22)) (Z.shiftl j 12) = (k * 1024 + j) * PGSIZE.
Proof.
  intros Hk Hj. rewrite !Z.shiftl_mul_pow2 by lia. rewrite u32_small by lia.
  rewrite <- Z.add_nocarry_lor; [page_lia|].
  apply Z.bits_inj'. intros n Hn. rewrite Z.land_spec, Z.bits_0. destruct (decide (n < 22)).
  - by rewrite Z.mul_pow2_bits_low by lia.
  - rewrite (Z.bits_above_log2 (j * 2 ^ 12)), andb_false_r; [done|lia|].
    destruct (decide (j = 0)) as [->|]; [simpl; lia|]. apply Z.log2_lt_pow2; [lia|].
    apply Z.lt_le_trans with (2 ^ 22); [lia|]. apply Z.pow_le_mono_r; lia.
Qed.

Lemma uvmcopy_entry_eq new pt sz k j s : 0 ≤ k < 768 → 0 ≤ j < 1024 →
  let e := rd s (pt + 4 * j) in
  let va := (k * 1024 + j) * PGSIZE in
  uvmcopy_entry new pt sz k j s =
  if sz <=? va then mret (Stop, s)
  else if negb (has e PTE_P) then mret (Next, s) else copy_page new va e (pt + 4 * j) s.
Proof.
  intros Hk Hj e va. unfold uvmcopy_entry. rewrite (entry_va k j Hk Hj). fold va e. cbn zeta.
  destruct (sz <=? va); [done|]. destruct (has e PTE_P); cbn [negb]; [|done].
  unfold copy_page, copy_tail, cowed. fold (is_cow e). by destruct (is_cow e).
Qed.

Section Copy.
Context (s0 : pmm) (U0 : gmap Z Z) (D1 D2 : Z) (T1 T20 M : gmap Z Z) (O2 : Z → Z) (n B : Z).

(** The state once the pages below [v] are copied. *)
Definition upto (v : Z) (s : pmm) : Prop :=
  ∃ U T2, stage s0 U0 D1 T1 D2 T20 O2 s U (parent_upto v M) T2 (child_upto v M) (B + v).

(** The state when the page [v] could not be copied. *)
Definition failed_at (v : Z) (s : pmm) : Prop :=
  ∃ U T2, stage s0 U0 D1 T1 D2 T20 O2 s U (parent_upto (v + 1) M) T2 (child_upto v M) (B + v + 1).

Lemma upto_entry k t j s :
  T1 !! k = Some t → 0 ≤ k < 768 → 0 ≤ j < 1024 → 1 ≤ B → B + 768 * 1024 < 2 ^ 32 →
  let v := k * 1024 + j in
  upto v s →
  let pt := page_to_addr s0 t in
  let e := rd s (pt + 4 * j) in
  (has e PTE_P = false ∧ upto (v + 1) s) ∨
  (has e PTE_P = true ∧ ∃ c s', copy_page (page_to_addr s0 D2) (v * PGSIZE) e (pt + 4 * j) s = Done (c, s') ∧
     match c with Next => upto (v + 1) s' | Stop => False | Ret r => r = -1 ∧ failed_at v s' end).
Proof.
  intros Ht Hk Hj HB1 HB v (U & T2 & Hst) pt e. pose proof Hst as [[O1 Hus1] Hus2 Hap HU [Hms Hkeep] Htab Hbd].
  assert (∀ i, page_to_addr s0 i = page_to_addr s i) as Hpa by (intros; symmetry; by apply page_to_addr_same).
  pose proof (space_entry _ _ _ _ _ _ k t j Hus1 Ht Hj) as Hent. cbn zeta in Hent. rewrite <- Hpa in Hent.
  fold v pt e in Hent. rewrite lookup_parent_ge in Hent by lia.
  destruct (has e PTE_P) eqn:HP; [right|left]; (split; [done|]).
  - assert (M !! v = Some e) as HM by done.
    destruct (copy_page_ok D1 D2 T1 k t j Ht Hj s U _ O1 T2 _ O2 e (B + v) Hus1 Hus2 Hap Hk)
      as (c & s' & U' & T2' & M2' & Hrun & Hst' & Hc).
    { fold v. by rewrite lookup_parent_ge by lia. }
    { rewrite lookup_child_upto, decide_False by (fold v; lia). done. }
    { unfold v. lia. } { unfold v. lia. } { done. } { by rewrite <- Hpa. }
    fold v in Hrun, Hst', Hc. rewrite <- !Hpa in Hrun. fold pt in Hrun.
    rewrite parent_upto_next in Hst' by done. pose proof (stage_trans _ _ _ _ _ _ _ _ _ _ _ _ _ _ _ _ _ _ _ Hst Hst') as Hst2.
    exists c, s'. split; [exact Hrun|]. destruct Hc as [[-> ->]|[-> ->]].
    + exists U', T2'. rewrite child_upto_next in Hst2 by done. by rewrite Z.add_assoc.
    + split; [done|]. by exists U', T2'.
  - assert (M !! v = None) as HM by done.
    exists U, T2. rewrite (parent_upto_skip v), (child_upto_skip v);
      [|lia|intros w Hw; by replace w with v by lia|lia|intros w Hw; by replace w with v by lia].
    destruct Hst as [S1 S2 S3 S4 S5 S6 S7]. split; try done. intros i Hi. specialize (S7 i Hi). lia.
Qed.

(** What [uvmcopy] leaves when it returns from inside the loops. *)
Definition copy_left (v : Z) (r : option Z) (s : pmm) : Prop :=
  match r with
  | None => upto (Z.min v n) s
  | Some r => r = -1 ∧ ∃ w, w < n ∧ failed_at w s
  end.

Context (HB1 : 1 ≤ B) (HB : B + 768 * 1024 < 2 ^ 32) (Hn : 0 ≤ n ≤ 768 * 1024).

Lemma copy_table_ok sz k t s :
  (∀ v, v * PGSIZE < sz ↔ v < n) → T1 !! k = Some t → 0 ≤ k < 768 → upto (Z.min (k * 1024) n) s →
  ∃ r s', for_each (seqZ 0 1024) (uvmcopy_entry (page_to_addr s0 D2) (page_to_addr s0 t) sz k) s = Done (r, s') ∧
    copy_left ((k + 1) * 1024) r s'.
Proof.
  intros Hsz Ht Hk Hs.
  apply (for_each_rule _ (λ j s, upto (Z.min (k * 1024 + j) n) s) _ 1024 0 s).
  - by rewrite Z.add_0_r.
  - intros j s1 Hj Hs1. rewrite uvmcopy_entry_eq by lia. cbn zeta.
    destruct (Z.leb_spec sz ((k * 1024 + j) * PGSIZE)) as [Hge|Hlt].
    + exists Stop, s1. split; [done|]. unfold copy_left.
      assert (n ≤ k * 1024 + j) as Hle by (destruct (decide (k * 1024 + j < n)) as [?%Hsz|]; lia).
      rewrite Z.min_r in Hs1 by lia. by rewrite Z.min_r by lia.
    + apply Hsz in Hlt. rewrite Z.min_l in Hs1 by lia.
      destruct (upto_entry k t j s1 Ht Hk ltac:(lia) HB1 HB Hs1) as [[-> Hs2]|[-> (c & s2 & -> & Hc)]]; cbn [negb].
      * exists Next, s1. split; [done|]. rewrite Z.min_l by lia. by rewrite Z.add_assoc.
      * exists c, s2. split; [done|]. destruct c as [| |r]; [|done|].
        -- rewrite Z.min_l by lia. by rewrite Z.add_assoc.
        -- destruct Hc as [-> Hc]. split; [done|]. by eexists.
  - intros s1 Hs1. unfold copy_left. by replace ((k + 1) * 1024) with (k * 1024 + (0 + Z.of_nat 1024)) by lia.
Qed.

Lemma copy_dir_ok sz m s :
  (∀ v, v * PGSIZE < sz ↔ v < n) → (m ≤ 768)%nat → n ≤ Z.of_nat m * 1024 → upto 0 s →
  ∃ r s', for_each (seqZ 0 (Z.of_nat m)) (uvmcopy_pde (page_to_addr s0 D1) (page_to_addr s0 D2) sz) s = Done (r, s') ∧
    copy_left n r s'.
Proof.
  intros Hsz Hm Hnm Hs.
  apply (for_each_rule _ (λ k s, upto (Z.min (k * 1024) n) s) _ m 0 s).
  - by rewrite Z.min_l by lia.
  - intros k s1 Hk Hs1. pose proof Hs1 as (U & T2 & Hst).
    pose proof Hst as [[O1 Hus1] Hus2 Hap HU [Hms Hkeep] Htab Hbd].
    assert (∀ i, page_to_addr s0 i = page_to_addr s1 i) as Hpa by (intros; symmetry; by apply page_to_addr_same).
    pose proof (us_pde _ _ _ _ _ _ Hus1 k ltac:(lia)) as Hpde. rewrite <- Hpa in Hpde. unfold uvmcopy_pde. cbn zeta in *.
    destruct (T1 !! k) as [t|] eqn:Ht.
    + destruct Hpde as (-> & -> & ->). cbn [negb orb]. rewrite <- Hpa.
      destruct (copy_table_ok sz k t s1 Hsz Ht ltac:(lia) Hs1) as (r & s2 & -> & Hr). run.
      eexists _, s2. split; [done|]. destruct r; [|done]. destruct Hr as [-> ?]. by split.
    + rewrite Hpde. cbn [negb orb]. exists Next, s1. split; [done|]. exists U, T2.
      assert (∀ w, Z.min (k * 1024) n ≤ w < Z.min ((k + 1) * 1024) n → M !! w = None) as Hnone.
      { intros w Hw. pose proof (us_pte _ _ _ _ _ _ Hus1 w) as Hpte. rewrite lookup_parent_upto in Hpte.
        replace (w / 1024) with k in Hpte by (apply (Z.div_unique_pos _ _ _ (w - k * 1024)); lia).
        rewrite Ht in Hpte. by destruct (M !! w). }
      rewrite (parent_upto_skip (Z.min (k * 1024) n)), (child_upto_skip (Z.min (k * 1024) n)) by (done || lia).
      destruct Hst as [S1 S2 S3 S4 S5 S6 S7]. split; try done. intros i Hi. specialize (S7 i Hi). lia.
  - intros s1 Hs1. unfold copy_left. rewrite Z.min_r in Hs1 by lia. by rewrite Z.min_r by lia.
Qed.

End Copy.

(** The pages below [sz]. *)
Definition npages (sz : Z) : Z := (sz + PGSIZE - 1) / PGSIZE.

Lemma npages_spec sz v : v * PGSIZE < sz ↔ v < npages sz.
Proof.
  unfold npages. pose proof (Z_div_mod_eq_full (sz + PGSIZE - 1) PGSIZE).
  pose proof (Z.mod_pos_bound (sz + PGSIZE - 1) PGSIZE ltac:(done)). page_lia.
Qed.

Lemma uvmcopy_ok s U D1 T1 M1 O1 D2 T2 O2 B sz :
  uspace s U D1 T1 M1 O1 → uspace s U D2 T2 ∅ O2 → apart s D1 T1 M1 D2 T2 → 0 < sz < 2 ^ 32 →
  1 ≤ B → B + 768 * 1024 < 2 ^ 32 → (∀ i, U !! i = Some 0 → refs s i ≤ B) →
  let n := npages (Z.min sz USEREND) in
  ∃ r s', uvmcopy (page_to_addr s D1) (page_to_addr s D2) sz s = Done (r, s') ∧
    ((r = 0 ∧ upto s U D1 D2 T1 T2 M1 O2 B n s') ∨
     (r = -1 ∧ ∃ w, w < n ∧ failed_at s U D1 D2 T1 T2 M1 O2 B w s')).
Proof.
  intros Hus1 Hus2 Hap Hsz HB1 HB Hbd n. unfold uvmcopy.
  pose proof (dir_addr_pos _ _ _ _ _ _ Hus1). pose proof (dir_addr_pos _ _ _ _ _ _ Hus2).
  rewrite (proj2 (Z.eqb_neq (page_to_addr s D1) 0)), (proj2 (Z.eqb_neq (page_to_addr s D2) 0)),
    (proj2 (Z.eqb_neq sz 0)) by lia. cbn [orb]. cbn zeta.
  replace (if USEREND <? sz then USEREND else sz) with (Z.min sz USEREND)
    by (destruct (Z.ltb_spec USEREND sz); lia).
  set (z := Z.min sz USEREND) in *. assert (0 < z ≤ USEREND) as Hz by page_lia.
  rewrite (proj2 (Z.leb_gt z USERBASE)) by (unfold USERBASE; lia).
  change (PDX USERBASE) with 0. rewrite Z.sub_0_r.
  pose proof (PDX_range (z - 1)). pose proof (PDX_user (z - 1) ltac:(lia)).
  replace (PDX (z - 1) + 1) with (Z.of_nat (Z.to_nat (PDX (z - 1) + 1))) by lia.
  assert (0 ≤ n ≤ 768 * 1024) as Hn.
  { unfold n, npages. split; [apply Z.div_pos; page_lia|]. apply Z.lt_succ_r, Z.div_lt_upper_bound; page_lia. }
  destruct (copy_dir_ok s U D1 D2 T1 T2 M1 O2 n B HB1 HB Hn z (Z.to_nat (PDX (z - 1) + 1)) s)
    as (r & s' & -> & Hr).
  - apply npages_spec.
  - lia.
  - rewrite Z2Nat.id by lia. pose proof (vpn_split (z - 1) ltac:(page_lia)) as Hv. pose proof (PTX_range (z - 1)).
    assert (n ≤ vpn (z - 1) + 1); [|lia]. unfold n, npages, vpn.
    replace (z + PGSIZE - 1) with (z - 1 + 1 * PGSIZE) by lia. rewrite Z.div_add by done. lia.
  - assert (∀ w, w < 0 → M1 !! w = None) as Hneg.
    { intros w Hw. rewrite (us_pte _ _ _ _ _ _ Hus1). destruct (T1 !! (w / 1024)) as [t|] eqn:Ht; [|done].
      destruct (us_tab _ _ _ _ _ _ Hus1 _ _ Ht) as [Hw' _].
      assert (w / 1024 < 0) by (apply Z.div_lt_upper_bound; lia). lia. }
    exists U, T2. rewrite parent_upto_0, child_upto_0, Z.add_0_r by done. split; try done. by eexists.
  - run. exists (default 0 r), s'. split; [done|]. destruct r as [r|]; cbn [default].
    + right. apply Hr.
    + left. split; [done|]. unfold copy_left in Hr. by rewrite Z.min_id in Hr.
Qed.
