(* ===== verification/ForkSpec.v ===== *)
(** [ForkSpec]: what fork promises about memory.  The child sees what the
    parent saw, neither can store to a shared page without a fault, and what
    the kernel then writes into the child is invisible to the parent. *)
From Stdlib Require Import ZArith Lia.
From stdpp Require Import numbers strings gmap list sets.
From S2P Require Import Prelude ListHead MemLayout Buddy BuddyInv BuddySpec PageAlloc Vm PageTable VmSpec Mmap.
From S2P Require Import UserMem UserMemSpec AddrSpace Fork.
Open Scope Z_scope.

Lemma entry_facts s U D T M O v e : uspace s U D T M O → M !! v = Some e →
  0 ≤ e < 2 ^ 32 ∧ has e PTE_P = true ∧ has e PTE_U = true.
Proof.
  intros Hus Hv. destruct (us_page _ _ _ _ _ _ Hus _ _ Hv) as (HU & _).
  rewrite (us_pte _ _ _ _ _ _ Hus) in Hv. destruct (T !! (v / 1024)) as [t|]; [|done]. simpl in Hv.
  destruct (has _ PTE_P) eqn:HP; [|done]. injection Hv as <-. split_and!; [apply load32_range..|done|done].
Qed.

Lemma parent_entry s U D T M O v w e : uspace s U D T M O → parent_upto v M !! w = Some e →
  ∃ e0, M !! w = Some e0 ∧ pte_page_kva e = pte_page_kva e0 ∧ (w < v → has e PTE_W = false) ∧
    (w < v → has e PTE_COW = is_cow e0).
Proof.
  intros Hus. rewrite lookup_parent_upto. destruct (M !! w) as [e0|] eqn:He; simpl; [|done].
  intros [= <-]. exists e0. destruct (entry_facts _ _ _ _ _ _ _ _ Hus He) as (Hr & HP & HU).
  destruct (cowed_ok e0 Hr HP HU) as (_ & Hk & _ & _ & HW). case_decide; split_and!; try done; try lia.
  intros _. apply cowed_cow.
Qed.

(** The page behind an entry of one space keeps its bytes over a stage. *)
Lemma stage_byte s U D1 T1 M1 O1 D2 T2 O2 s' U' M1' T2' M2' B va e :
  uspace s U D1 T1 M1 O1 → apart s D1 T1 M1 D2 T2 →
  stage s U D1 T1 D2 T2 O2 s' U' M1' T2' M2' B → M1 !! vpn va = Some e →
  mload (ram s') (pte_page_kva e + va mod PGSIZE) = mload (ram s) (pte_page_kva e + va mod PGSIZE).
Proof.
  intros Hus Hap Hst He. destruct (user_page _ _ _ _ _ _ _ _ Hus He) as (i & Hi & Hnt & Hkva & Hb).
  eapply (proj2 (sg_keep _ _ _ _ _ _ _ _ _ _ _ _ _ Hst) i); try done.
  intros Ht. by apply (ap_page _ _ _ _ _ _ Hap i _ _ Ht He).
Qed.

Lemma parent_view s U D1 T1 M1 O1 D2 T2 O2 s' U' v T2' M2' B va :
  uspace s U D1 T1 M1 O1 → apart s D1 T1 M1 D2 T2 →
  stage s U D1 T1 D2 T2 O2 s' U' (parent_upto v M1) T2' M2' B →
  ubyte s' (parent_upto v M1) va = ubyte s M1 va.
Proof.
  intros Hus Hap Hst. unfold ubyte. destruct (M1 !! vpn va) as [e|] eqn:He.
  - assert (∃ e', parent_upto v M1 !! vpn va = Some e' ∧ pte_page_kva e' = pte_page_kva e) as (e' & -> & Hk).
    { rewrite lookup_parent_upto, He. simpl. eexists. split; [done|].
      destruct (entry_facts _ _ _ _ _ _ _ _ Hus He) as (Hr & HP & HU).
      destruct (cowed_ok e Hr HP HU) as (_ & Hk & _). by case_decide. }
    simpl. rewrite Hk. f_equal. by eapply stage_byte.
  - by rewrite lookup_parent_upto, He.
Qed.

Lemma child_view s U D1 T1 M1 O1 D2 T2 O2 s' U' M1' T2' v B va :
  uspace s U D1 T1 M1 O1 → apart s D1 T1 M1 D2 T2 →
  stage s U D1 T1 D2 T2 O2 s' U' M1' T2' (child_upto v M1) B → vpn va < v →
  ubyte s' (child_upto v M1) va = ubyte s M1 va.
Proof.
  intros Hus Hap Hst Hv. unfold ubyte. rewrite lookup_child_upto, decide_True by done.
  destruct (M1 !! vpn va) as [e|] eqn:He; simpl; [|done].
  destruct (entry_facts _ _ _ _ _ _ _ _ Hus He) as (Hr & HP & HU).
  destruct (child_ok e Hr) as (-> & _). f_equal. by eapply stage_byte.
Qed.

(** copying an address space for fork always returns.  Whatever the result,
    the parent reads the same bytes as before.  On success the child reads
    the parent's bytes below [sz], both map exactly the same pages there, and
    no entry of either is writable: the first store of either side faults.
    The counts stay exact, so every shared page is counted once per side. *)
Theorem uvmcopy_spec s U D1 T1 M1 O1 D2 T2 O2 B sz :
  uspace s U D1 T1 M1 O1 → uspace s U D2 T2 ∅ O2 → apart s D1 T1 M1 D2 T2 → 0 < sz < 2 ^ 32 →
  1 ≤ B → B + 768 * 1024 < 2 ^ 32 → (∀ i, U !! i = Some 0 → refs s i ≤ B) →
  let n := npages (Z.min sz USEREND) in
  ∃ r s' U' T2' M1' M2' O1', uvmcopy (page_to_addr s D1) (page_to_addr s D2) sz s = Done (r, s') ∧
    (r = 0 ∨ r = -1) ∧ uspace s' U' D1 T1 M1' O1' ∧ uspace s' U' D2 T2' M2' O2 ∧
    (∀ va, ubyte s' M1' va = ubyte s M1 va) ∧
    (r = 0 → (∀ va, vpn va < n → ubyte s' M2' va = ubyte s M1 va) ∧
       (∀ v, v < n → pte_page_kva <$> M2' !! v = pte_page_kva <$> M1' !! v) ∧
       (∀ v e, v < n → M1' !! v = Some e ∨ M2' !! v = Some e → has e PTE_W = false)).
Proof.
  intros Hus1 Hus2 Hap Hsz HB1 HB Hbd n.
  destruct (uvmcopy_ok s U D1 T1 M1 O1 D2 T2 O2 B sz Hus1 Hus2 Hap Hsz HB1 HB Hbd)
    as (r & s' & Hrun & [[-> (U' & T2' & Hst)]|(-> & w & Hw & U' & T2' & Hst)]); fold n in Hst;
    destruct (sg_1 _ _ _ _ _ _ _ _ _ _ _ _ _ Hst) as [O1' Hus1'];
    pose proof (sg_2 _ _ _ _ _ _ _ _ _ _ _ _ _ Hst) as Hus2'.
  - exists 0, s', U', T2', (parent_upto n M1), (child_upto n M1), O1'.
    split_and!; [done|by left|done|done|intros va; by eapply parent_view|]. intros _. split_and!.
    + intros va Hva. by eapply child_view.
    + intros v Hv. rewrite lookup_parent_upto, lookup_child_upto, decide_True by done.
      destruct (M1 !! v) as [e|] eqn:He; simpl; [|done].
      destruct (entry_facts _ _ _ _ _ _ _ _ Hus1 He) as (Hr & HP & HU).
      destruct (child_ok e Hr) as (-> & _). destruct (cowed_ok e Hr HP HU) as (_ & Hk & _).
      by case_decide; rewrite ?Hk.
    + intros v e Hv [He|He].
      * by destruct (parent_entry _ _ _ _ _ _ _ _ _ Hus1 He) as (_ & _ & _ & HW & _); apply HW.
      * rewrite lookup_child_upto, decide_True in He by done. destruct (M1 !! v) as [e0|] eqn:He0; [|done].
        injection He as <-. destruct (entry_facts _ _ _ _ _ _ _ _ Hus1 He0) as (Hr & _).
        by destruct (child_ok e0 Hr) as (_ & ? & _).
  - exists (-1), s', U', T2', (parent_upto (w + 1) M1), (child_upto w M1), O1'.
    split_and!; [done|by right|done|done|intros va; by eapply parent_view|done].
Qed.

(** A space whose tables and pages another space's step respects. *)
Lemma space_survives s U D T M O s' U' :
  uspace s U D T M O → mem_start s' = mem_start s → pmm_ok s' U' →
  (∀ i, table D T i ∨ 1 ≤ mapped M (page_to_addr s i) → U !! i = Some 0 → U' !! i = Some 0) →
  (∀ t b, table D T t → page_to_addr s t ≤ b < page_to_addr s t + PGSIZE → mload (ram s') b = mload (ram s) b) →
  (∀ i, table D T i → 1 ≤ refs s' i) →
  (∀ i, U' !! i = Some 0 → 1 ≤ refs s' i ∧ mapped M (page_to_addr s i) ≤ refs s' i) →
  ∃ O', uspace s' U' D T M O'.
Proof.
  intros Hus Hst Hok Hown Hb Htr Href.
  assert (∀ i, page_to_addr s' i = page_to_addr s i) as Hpa by (intros; by apply page_to_addr_same).
  assert (∀ i, table D T i → U' !! i = Some 0) as HUt.
  { intros i Hi. apply Hown; [by left|]. by apply (table_owned _ _ _ _ _ _ Hus). }
  exists (λ i, if decide (U' !! i = Some 0) then
            if decide (table D T i) then refs s' i - 1
            else refs s' i - mapped M (page_to_addr s i)
          else 0).
  apply (space_frame s U D T M O Hus); try done.
  - intros i Hi. split; [by apply HUt|]. intros b. by apply Hb.
  - intros i Hi Hm. apply Hown; [by right|done].
  - split; intros i.
    + intros Hi Hni. rewrite decide_True by done. rewrite decide_False, Hpa by done. lia.
    + intros Hi. rewrite !decide_True by auto. lia.
    + case_decide as Hi; [|lia]. destruct (Href i Hi). case_decide as Ht; [|lia].
      apply Htr in Ht. lia.
    + intros Hi. by rewrite decide_False.
    + intros Hi. by apply Href.
Qed.

(** The parent seen from a child: the child's view counts the parent's uses. *)
Record covered (s : pmm) (U : gmap Z Z) (D1 : Z) (T1 M1 : gmap Z Z) (O2 : Z → Z) : Prop := {
  cv_table i : table D1 T1 i → 1 ≤ O2 i;
  cv_page i : U !! i = Some 0 → mapped M1 (page_to_addr s i) ≤ O2 i
}.

(** What is served in one space leaves another one intact. *)
Lemma served_other W s U D1 T1 M1 O1 D2 T2 M2 O2 s' U' T2' M2' :
  uspace s U D1 T1 M1 O1 → apart s D1 T1 M1 D2 T2 → covered s U D1 T1 M1 O2 →
  served W s U D2 T2 M2 O2 s' U' T2' M2' →
  (∃ O1', uspace s' U' D1 T1 M1 O1') ∧ ∀ va, ubyte s' M1 va = ubyte s M1 va.
Proof.
  intros Hus Hap [Hct Hcp] [Hus' Hst HUs Htab _ Hoth _ _ _].
  assert (∀ i v e, M1 !! v = Some e → U !! i = Some 0 → pte_page_kva e = page_to_addr s i →
            ¬ table D2 T2 i ∧ 1 ≤ O2 i) as Hpage.
  { intros i v e Hv Hi Hkva. split; [intros Ht; by apply (ap_page _ _ _ _ _ _ Hap i v e)|].
    pose proof (mapped_pos _ _ _ _ Hv Hkva). specialize (Hcp i Hi). lia. }
  assert (∀ i, page_to_addr s' i = page_to_addr s i) as Hpa by (intros; by apply page_to_addr_same).
  destruct (us_count _ _ _ _ _ _ Hus') as [C1 C2 C3 C4 C5].
  assert (∀ i, U' !! i = Some 0 → O2 i ≤ refs s' i) as Hle.
  { intros i Hi. destruct (decide (table D2 T2' i)) as [Ht|Ht].
    - rewrite <- (C2 i Ht). lia.
    - rewrite <- (C1 i Hi Ht). pose proof (mapped_nonneg M2' (page_to_addr s' i)). lia. }
  split.
  - apply (space_survives s U D1 T1 M1 O1 s' U' Hus Hst); [apply Hus'| | | |].
    + intros i _ Hi. by eapply lookup_weaken.
    + intros t b Ht Hb. apply (Hoth t); [by apply (table_owned _ _ _ _ _ _ Hus)|by apply Hap|by apply Hct|done].
    + intros i Hi. etrans; [by apply Hct|]. apply Hle. eapply lookup_weaken; [|done].
      by apply (table_owned _ _ _ _ _ _ Hus).
    + intros i Hi. split; [by apply C5|]. destruct (decide (U !! i = Some 0)) as [HUi|HUi].
      * etrans; [by apply Hcp|]. by apply Hle.
      * rewrite mapped_zero; [specialize (C5 i Hi); lia|]. intros v e Hv Heq.
        destruct (us_page _ _ _ _ _ _ Hus _ _ Hv) as (_ & j & Hj & Hkva & _). apply HUi.
        rewrite Hkva, <- !Hpa in Heq.
        apply (page_addr_inj s' U' (us_pool _ _ _ _ _ _ Hus')) in Heq as <-; [done|by eapply lookup_weaken|done].
  - intros va. unfold ubyte. destruct (M1 !! vpn va) as [e|] eqn:He; simpl; [|done]. f_equal.
    destruct (user_page _ _ _ _ _ _ _ _ Hus He) as (i & Hi & Hnt & Hkva & Hb).
    destruct (Hpage i _ e He Hi Hkva) as [Hn2 HO]. by apply (Hoth i).
Qed.

Lemma mapped_parent s U D T M O v a : uspace s U D T M O → mapped (parent_upto v M) a = mapped M a.
Proof.
  intros Hus. unfold mapped. f_equal. rewrite <- !(size_dom (D := gset Z)). f_equal.
  apply set_eq. intros w. rewrite !elem_of_dom. unfold is_Some.
  setoid_rewrite map_lookup_filter_Some. simpl. split.
  - intros (e & He & Hk). destruct (parent_entry _ _ _ _ _ _ _ _ _ Hus He) as (e0 & He0 & Hk0 & _).
    exists e0. split; [done|]. congruence.
  - intros (e & He & Hk). rewrite lookup_parent_upto, He. eexists. split; [done|].
    destruct (entry_facts _ _ _ _ _ _ _ _ Hus He) as (Hr & HP & HU).
    destruct (cowed_ok e Hr HP HU) as (_ & Hk' & _). case_decide; congruence.
Qed.

Lemma child_no_alias s U D T M O v : uspace s U D T M O → no_alias M → no_alias (child_upto v M).
Proof.
  intros Hus Hna v1 v2 e1 e2. rewrite !lookup_child_upto. do 2 case_decide; try done.
  destruct (M !! v1) as [e1'|] eqn:H1, (M !! v2) as [e2'|] eqn:H2; try done. simpl. intros [= <-] [= <-].
  destruct (entry_facts _ _ _ _ _ _ _ _ Hus H1) as (Hr1 & _), (entry_facts _ _ _ _ _ _ _ _ Hus H2) as (Hr2 & _).
  destruct (child_ok _ Hr1) as (-> & _), (child_ok _ Hr2) as (-> & _). by apply Hna.
Qed.

(** A fresh address space beside an existing one, as fork creates it. *)
Lemma create_beside s U D1 T1 M1 O1 kp :
  uspace s U D1 T1 M1 O1 →
  ∃ r s', uvmcreate kp s = Done (r, s') ∧
  ((r = 0 ∧ s' = s) ∨
   (∃ D2 O1', r = page_to_addr s' D2 ∧ uspace s' (<[D2 := 0]> U) D1 T1 M1 O1' ∧
      uspace s' (<[D2 := 0]> U) D2 ∅ ∅ (held s U) ∧ apart s' D1 T1 M1 D2 ∅ ∧
      covered s' (<[D2 := 0]> U) D1 T1 M1 (held s U) ∧
      ∀ i, <[D2 := 0]> U !! i = Some 0 → refs s' i ≤ Z.max 1 (refs s i))).
Proof.
  intros Hus. pose proof (us_count _ _ _ _ _ _ Hus) as [C1 C2 C3 C4 C5].
  destruct (uvmcreate_ok s U kp (us_pool _ _ _ _ _ _ Hus) C5) as (r & s' & Hrun & [?|Hok]).
  { exists r, s'. split; [done|]. by left. }
  exists r, s'. split; [done|]. right. destruct Hok as (D2 & HD2 & -> & Hst & Hus2 & Hram).
  assert (∀ i, page_to_addr s' i = page_to_addr s i) as Hpa by (intros; by apply page_to_addr_same).
  pose proof (us_pool _ _ _ _ _ _ Hus2) as Hok2. set (U2 := <[D2 := 0]> U) in *.
  assert (U2 !! D2 = Some 0) as HU2 by apply lookup_insert_eq.
  assert (∀ i, U !! i = Some 0 → U2 !! i = Some 0 ∧ i ≠ D2) as Hw.
  { intros i Hi. assert (i ≠ D2) by congruence. split; [|done]. unfold U2. by rewrite lookup_insert_ne. }
  assert (∀ i, table D2 ∅ i → i = D2) as Ht2 by (intros i [?|[k Hk]]; [done|by rewrite lookup_empty in Hk]).
  pose proof (us_count _ _ _ _ _ _ Hus2) as [E1 E2 E3 E4 E5].
  assert (∀ i, U !! i = Some 0 → refs s' i = refs s i) as Hrefs.
  { intros i Hi. destruct (Hw i Hi) as [Hi2 Hne]. rewrite <- (E1 i Hi2); [|by intros ?%Ht2].
    unfold held. rewrite decide_True by done. unfold mapped. rewrite map_filter_empty, map_size_empty. lia. }
  assert (∀ i b, U !! i = Some 0 → page_to_addr s i ≤ b < page_to_addr s i + PGSIZE →
            mload (ram s') b = mload (ram s) b) as Hbytes.
  { intros i b Hi Hb. apply Hram. destruct (Hw i Hi) as [Hi2 Hne].
    destruct (pages_apart s' U2 Hok2 i D2 Hi2 HU2 Hne); rewrite !Hpa in *; lia. }
  exists D2. eexists. split_and!; [done| |done| | |].
  - eapply space_bystander; try done; [by apply insert_subseteq|].
    intros t b Ht. apply Hbytes. by apply (table_owned _ _ _ _ _ _ Hus).
  - split.
    + intros i Hi ->%Ht2. pose proof (table_owned _ _ _ _ _ _ Hus D2 Hi). congruence.
    + intros i v e ->%Ht2 Hv Heq. destruct (us_page _ _ _ _ _ _ Hus _ _ Hv) as (_ & j & Hj & Hkva & _).
      destruct (Hw j Hj) as [Hj2 Hne]. rewrite Hkva, <- Hpa in Heq. by apply Hne, (page_addr_inj s' U2 Hok2).
  - split.
    + intros i Hi. pose proof (table_owned _ _ _ _ _ _ Hus i Hi) as HUi. unfold held.
      rewrite decide_True by done. by apply C5.
    + intros i Hi. rewrite Hpa. unfold held. case_decide as HUi.
      * destruct (decide (table D1 T1 i)) as [Ht|Ht]; [|rewrite <- (C1 i HUi Ht); pose proof (C3 i); lia].
        rewrite mapped_zero; [specialize (C5 i HUi); lia|]. intros v e Hv Heq.
        destruct (us_page _ _ _ _ _ _ Hus _ _ Hv) as (_ & j & Hj & Hkva & Hnt). rewrite Hkva in Heq.
        by apply (page_addr_inj s U (us_pool _ _ _ _ _ _ Hus)) in Heq as ->.
      * rewrite mapped_zero; [done|]. intros v e Hv Heq.
        destruct (us_page _ _ _ _ _ _ Hus _ _ Hv) as (_ & j & Hj & Hkva & _). rewrite Hkva, <- !Hpa in Heq.
        apply (page_addr_inj s' U2 Hok2) in Heq as ->; [done|by apply Hw|done].
  - intros i Hi. destruct (decide (U !! i = Some 0)) as [HUi|HUi]; [rewrite Hrefs by done; lia|].
    assert (i = D2) as ->. { unfold U2 in Hi. apply lookup_insert_Some in Hi. naive_solver. }
    rewrite <- (E2 D2) by (by left). unfold held. rewrite decide_False by done. lia.
Qed.

