(* ===== verification/MmSpec.v ===== *)
(** [MmSpec]: [munmap] and [brk], where the metadata of [Mmap] and the page
    tables of [VmSpec] have to change together. *)
From Stdlib Require Import ZArith Lia.
From stdpp Require Import numbers strings gmap list sets.
From S2P Require Import Prelude ListHead MemLayout Buddy BuddyInv BuddySpec PageAlloc Vm PageTable VmSpec Mmap UserMem UserMemSpec AddrSpace Fork ForkSpec.
Open Scope Z_scope.

Lemma aligned_land a : 0 ≤ a → Z.land a (PGSIZE - 1) = 0 ↔ (PGSIZE | a).
Proof.
  intros Ha. change (PGSIZE - 1) with (Z.ones 12). rewrite Z.land_ones by lia. change (2 ^ 12) with PGSIZE.
  by rewrite Z.mod_divide.
Qed.

Lemma vpn_lt a b : (PGSIZE | a) → (PGSIZE | b) → a < b → vpn a < vpn b ∧ a + PGSIZE ≤ b.
Proof. intros [x ->] [y ->] Hab. unfold vpn. rewrite !Z.div_mul by done. page_lia. Qed.

Lemma unmap_pages_ok fuel D T O : ∀ s U M va en,
  uspace s U D T M O → 0 ≤ va ≤ en → en ≤ USEREND → (PGSIZE | va) → (PGSIZE | en) →
  en - va ≤ (Z.of_nat fuel - 1) * PGSIZE → (1 ≤ fuel)%nat →
  ∃ s' U', mmap_unmap_pages fuel (page_to_addr s D) va en s = Done s' ∧
    uspace s' U' D T (del_range (vpn va) (vpn en) M) O ∧ shrinks s U D T O s' U'.
Proof.
  induction fuel as [|fuel IH]; intros s U M va en Hus Hva Hen Hal Hae Hf Hf1; [lia|].
  cbn [mmap_unmap_pages]. destruct (Z.ltb_spec va en) as [Hlt|Hge].
  2:{ exists s, U. assert (va = en) as -> by lia. rewrite del_range_empty by done.
      split_and!; [done..|apply shrinks_refl]. }
  destruct (vpn_lt va en Hal Hae Hlt) as [Hvlt Hnext].
  destruct (uvmunmap_ok D T O s U M va 1 Hus) as (s1 & U1 & -> & Hus1 & Hsh1); [lia|done|lia|page_lia|]. run.
  rewrite u32_small by page_lia.
  assert (page_to_addr s D = page_to_addr s1 D) as -> by (symmetry; apply page_to_addr_same, Hsh1).
  destruct (IH s1 U1 _ (va + PGSIZE) en Hus1) as (s2 & U2 & -> & Hus2 & Hsh2); try done; try page_lia.
  { apply Z.divide_add_r; [done|apply Z.divide_refl]. }
  exists s2, U2. split; [done|]. split; [|by eapply shrinks_trans].
  rewrite vpn_next in Hus2. replace (del_range (vpn va) (vpn en) M)
    with (del_range (vpn va + 1) (vpn en) (del_range (vpn va) (vpn va + 1) M)); [done|].
  apply map_eq. intros v. rewrite !lookup_del_range. repeat case_decide; lia || done.
Qed.

(** Giving a VMA up keeps the metadata consistent. *)
Lemma clear_slot_ok m i v : mm_ok m → vmas m !! i = Some v → mm_ok (set_slot i (clear_slot v) m).
Proof.
  intros [M1 M2 M3 M4 M5 M6] Hi. pose proof (lookup_lt_Some _ _ _ Hi) as Hlt. split; simpl; try done.
  - by rewrite length_insert.
  - intros k w. rewrite list_lookup_insert. case_decide; [by intros [= <-]|]. intros Hw Hu.
    destruct (M5 _ _ Hw Hu). by split.
  - intros k l w x. rewrite !list_lookup_insert. do 2 case_decide; try (by intros [= <-]); try (by intros _ [= <-]).
    eauto.
Qed.

(** What [munmap] of the VMA [v] in slot [i] leaves. *)
Definition unmapped (m : mm_struct) (i : nat) (v : vma) (M : gmap Z Z) (m' : mm_struct) (M' : gmap Z Z) : Prop :=
  m' = set_slot i (clear_slot v) m ∧ M' = del_range (vpn (start v)) (vpn (end_ v)) M.

(** [munmap] always returns.  It removes exactly the VMA with the given
    bounds together with the pages mapped in it, and nothing else: on any
    other bounds neither metadata nor page tables change.  The metadata and
    the reference counts stay consistent. *)
Theorem do_munmap_spec f s U D T M O m addr len :
  mm_ok m → uspace s U D T M O → pgdir m = page_to_addr s D → private_vmas m →
  0 ≤ addr < 2 ^ 32 → 0 ≤ len < 2 ^ 32 →
  ∃ r m' s' U' M', do_munmap f m addr len s = Done (r, m', s') ∧ mm_ok m' ∧
    uspace s' U' D T M' O ∧ shrinks s U D T O s' U' ∧
    ((r = -1 ∧ m' = m ∧ s' = s ∧ M' = M) ∨
     (r = 0 ∧ ∃ i v, vmas m !! i = Some v ∧ used v = true ∧ start v = addr ∧
        end_ v = u32 (addr + PGROUNDUP len) ∧ unmapped m i v M m' M')).
Proof.
  intros Hm Hus Hpgd Hpr Haddr Hlen. unfold do_munmap. pose proof (dir_addr_pos _ _ _ _ _ _ Hus).
  assert (∀ Q, (∃ r m' s' U' M', mret (-1, m, s) = Done (r, m', s') ∧ mm_ok m' ∧ uspace s' U' D T M' O ∧
    shrinks s U D T O s' U' ∧ ((r = -1 ∧ m' = m ∧ s' = s ∧ M' = M) ∨ Q r m' M'))) as Hrefuse.
  { intros Q. exists (-1), m, s, U, M. split_and!; [done|done|done|apply shrinks_refl|by left]. }
  rewrite Hpgd, (proj2 (Z.eqb_neq (page_to_addr s D) 0)) by lia. cbn [orb].
  destruct (len =? 0); [apply Hrefuse|]. destruct (negb _); [apply Hrefuse|]. cbn zeta.
  set (en := u32 (addr + PGROUNDUP len)). destruct (en <? addr); [apply Hrefuse|].
  destruct (vma_find (Some m) addr en) as [i|] eqn:Hfind; [|apply Hrefuse].
  apply find_index_spec in Hfind as (v & Hv & Hc & _). rewrite Nat.sub_0_r in Hv. cbn [proc_vmas from_option] in Hv.
  rewrite !andb_true_iff, !Z.eqb_eq in Hc. destruct Hc as [[Hu Hst] Hend].
  rewrite Hv. cbn [deref]. run. rewrite (proj2 (Z.leb_gt 0 (vma_shmid v))) by (by eapply Hpr).
  destruct (mk_vma _ Hm i v Hv Hu) as [[Hal Hae] (_ & Hse & Htop) _].
  assert (0 ≤ start v) as Hpos by lia. rewrite USERHEAP_TOP_val in Htop.
  destruct (unmap_pages_ok (S (Z.to_nat ((end_ v - start v) / PGSIZE))) D T O s U M (start v) (end_ v) Hus)
    as (s1 & U1 & -> & Hus1 & Hsh1); try done; try page_lia.
  { pose proof (Z_div_mod_eq_full (end_ v - start v) PGSIZE).
    assert ((end_ v - start v) mod PGSIZE = 0) by (apply Z.mod_divide; [done|by apply Z.divide_sub_r]).
    pose proof (Z.div_pos (end_ v - start v) PGSIZE ltac:(lia) ltac:(done)). page_lia. }
  run. exists 0, (set_slot i (clear_slot v) m), s1, U1, (del_range (vpn (start v)) (vpn (end_ v)) M).
  split_and!; [done|by apply clear_slot_ok|done|done|]. right. split; [done|]. by exists i, v.
Qed.

Lemma roundup_mono a b : 0 ≤ a ≤ b → b ≤ 2 ^ 32 - PGSIZE → PGROUNDUP a ≤ PGROUNDUP b.
Proof.
  intros Ha Hb. rewrite !PGROUNDUP_spec by lia. apply Z.mul_le_mono_nonneg_r; [done|].
  apply Z.div_le_mono; [done|lia].
Qed.

Lemma roundup_least a x : 0 ≤ a ≤ 2 ^ 32 - PGSIZE → (PGSIZE | x) → a ≤ x → PGROUNDUP a ≤ x.
Proof. intros Ha [q ->] Hx. destruct (PGROUNDUP_aligned a Ha) as [[p ->] Hr]. page_lia. Qed.

(** Moving the break down, or up to where no VMA begins. *)
Lemma with_brk_ok m b :
  mm_ok m → brk_start m ≤ b ≤ USERHEAP_TOP → vma_overlaps_brk (Some m) (brk m) b = false →
  mm_ok (with_brk b m).
Proof.
  intros [M1 M2 M3 M4 M5 M6] Hb Hov. assert (USERHEAP_TOP ≤ 2 ^ 32 - PGSIZE) as Htop by done.
  split; simpl; try done. intros i v Hv Hu. destruct (M5 i v Hv Hu) as [Hal Hr Hh]. split; try done. simpl.
  destruct (PGROUNDUP_aligned (brk m) ltac:(lia)) as [_ Hup].
  unfold vma_overlaps_brk in Hov. destruct (Z.leb_spec b (brk m)) as [Hle|Hgt].
  - etrans; [apply roundup_mono|exact Hh]; lia.
  - apply roundup_least; [lia|apply Hal|].
    destruct (vma_overlap_range_false m _ _ Hov i v Hv Hu); lia.
Qed.

(** What [brk(addr)] may do. *)
Inductive brk_result (m : mm_struct) (M : gmap Z Z) (addr : Z) : Z → mm_struct → gmap Z Z → Prop :=
| brk_refused : addr < brk_start m ∨ USERHEAP_TOP < addr ∨ vma_overlaps_brk (Some m) (brk m) addr = true →
    brk_result m M addr (brk m) m M
| brk_grown : brk m ≤ addr → vma_overlaps_brk (Some m) (brk m) addr = false →
    brk_result m M addr addr (with_brk addr m) M
| brk_shrunk : addr < brk m →
    brk_result m M addr addr (with_brk addr m) (del_range (vpn (PGROUNDUP addr)) (vpn (PGROUNDUP (brk m))) M).

(** [brk] always returns the break that is in force afterwards.  It refuses
    a break below the start of the heap, above its limit or inside a mapping,
    and then changes nothing; growing maps no page; shrinking unmaps exactly
    the pages above the new break.  The metadata stays consistent. *)
Theorem sys_brk_spec s U D T M O m addr :
  mm_ok m → uspace s U D T M O → pgdir m = page_to_addr s D → 0 ≤ addr < 2 ^ 32 →
  ∃ r m' s' U' M', sys_brk m addr s = Done (r, m', s') ∧ r = brk m' ∧ mm_ok m' ∧
    uspace s' U' D T M' O ∧ shrinks s U D T O s' U' ∧ brk_result m M addr r m' M'.
Proof.
  intros Hm Hus Hpgd Haddr. pose proof Hm as [M1 M2 M3 M4 M5 M6]. unfold sys_brk.
  pose proof (dir_addr_pos _ _ _ _ _ _ Hus) as HD. assert (USERHEAP_TOP < 2 ^ 32 - PGSIZE) as Htop by done.
  assert (∀ M', brk_result m M addr (brk m) m M' → M' = M → ∃ r m' s' U' M',
    mret (brk m, m, s) = Done (r, m', s') ∧ r = brk m' ∧ mm_ok m' ∧
    uspace s' U' D T M' O ∧ shrinks s U D T O s' U' ∧ brk_result m M addr r m' M') as Hsame.
  { intros M' Hr ->. exists (brk m), m, s, U, M. by split_and!. }
  rewrite Hpgd, (proj2 (Z.eqb_neq (page_to_addr s D) 0)) by lia. cbn zeta.
  destruct (Z.ltb_spec addr (brk_start m)); cbn [orb]; [apply (Hsame M); [apply brk_refused; auto|done]|].
  destruct (Z.ltb_spec USERHEAP_TOP addr); cbn [orb]; [apply (Hsame M); [apply brk_refused; auto|done]|].
  destruct (Z.ltb_spec (brk m) addr) as [Hgt|Hle].
  - destruct (vma_overlaps_brk (Some m) (brk m) addr) eqn:Hov; [apply (Hsame M); [apply brk_refused; auto|done]|].
    unfold uvmalloc. rewrite (proj2 (Z.eqb_neq (page_to_addr s D) 0)), (proj2 (Z.ltb_ge addr (brk m))),
      (proj2 (Z.ltb_ge USERHEAP_TOP addr)) by lia. cbn [orb]. rewrite (proj2 (Z.eqb_neq addr 0)) by lia.
    exists addr, (with_brk addr m), s, U, M. split_and!; [done|done|by apply with_brk_ok|done|apply shrinks_refl|].
    by apply brk_grown; [lia|].
  - assert (vma_overlaps_brk (Some m) (brk m) addr = false) as Hov
      by (unfold vma_overlaps_brk; by rewrite (proj2 (Z.leb_le addr (brk m)))).
    destruct (Z.ltb_spec addr (brk m)) as [Hlt|Hge].
    2:{ exists addr, (with_brk addr m), s, U, M. split_and!; [done|done|by apply with_brk_ok|done|apply shrinks_refl|].
        by apply brk_grown; [lia|]. }
    destruct (PGROUNDUP_aligned addr ltac:(lia)) as [Hal Hup], (PGROUNDUP_aligned (brk m) ltac:(lia)) as [Hal' Hup'].
    unfold uvmdealloc. rewrite (proj2 (Z.eqb_neq (page_to_addr s D) 0)), (proj2 (Z.leb_gt (brk m) addr)) by lia.
    destruct (Z.ltb_spec (PGROUNDUP addr) (PGROUNDUP (brk m))) as [Hr|Hr].
    + set (n := (PGROUNDUP (brk m) - PGROUNDUP addr) / PGSIZE).
      assert (n * PGSIZE = PGROUNDUP (brk m) - PGROUNDUP addr) as Hn.
      { unfold n. destruct Hal as [x ->], Hal' as [y ->]. rewrite <- Z.mul_sub_distr_r, Z.div_mul by done. done. }
      destruct (uvmunmap_ok D T O s U M (PGROUNDUP addr) n Hus) as (s1 & U1 & -> & Hus1 & Hsh1);
        [lia|done|page_lia|rewrite Hn, USERHEAP_TOP_val in *; page_lia|].
      run. change (0 <? 0) with false. cbn iota. run. rewrite (proj2 (Z.eqb_neq addr 0)) by lia.
      exists addr, (with_brk addr m), s1, U1, (del_range (vpn (PGROUNDUP addr)) (vpn (PGROUNDUP (brk m))) M).
      split_and!; [done|done|by apply with_brk_ok| |done|by apply brk_shrunk].
      replace (vpn (PGROUNDUP (brk m))) with (vpn (PGROUNDUP addr) + n); [done|].
      unfold vpn, n. destruct Hal as [x ->], Hal' as [y ->]. rewrite <- Z.mul_sub_distr_r, !Z.div_mul by done. lia.
    + run. rewrite (proj2 (Z.eqb_neq addr 0)) by lia.
      exists addr, (with_brk addr m), s, U, M. split_and!; [done|done|by apply with_brk_ok|done|apply shrinks_refl|].
      replace M with (del_range (vpn (PGROUNDUP addr)) (vpn (PGROUNDUP (brk m))) M) at 2; [by apply brk_shrunk|].
      apply del_range_empty. unfold vpn. apply Z.div_le_mono; [done|lia].
Qed.

(** * Concrete address spaces on a pool of 31 pages, on which the
    theorems about virtual memory are exercised.

    [as1] is a fresh address space, [as2] the same with one writable page at
    [USERLOAD], and [as3] is [as2] with a second, empty space beside it, the
    state in which fork calls [uvmcopy]. *)

(** [kernel_pgdir] of the demonstration: a page below the pool. *)
Definition demo_kpgdir : Z := 0xC0000000.

Definition state_after {A} (r : outcome (A * pmm)) : pmm :=
  match r with Done (_, s) => s | _ => Pmm ∅ ∅ ∅ 0 0 0 0 ∅ end.

Definition dpool : pmm := demo_pmm (pmm_init 0xC0100000 0x120000 ∅).
Definition as1 : pmm := state_after (uvmcreate demo_kpgdir dpool).
Definition as2 : pmm := state_after (fill_page (page_to_addr as1 30) USERLOAD (Z.lor PTE_P PTE_W) as1).
Definition as3 : pmm := state_after (uvmcreate demo_kpgdir as2).

(** Only the virtual machine evaluates these. *)
#[local] Opaque uvmcreate fill_page uvmcopy copyout alloc_page pmm_init.

Lemma state_of_run {A} (r : outcome (A * pmm)) a s : r = Done (a, s) → state_after r = s.
Proof. by intros ->. Qed.

Definition result_of (r : outcome (Z * pmm)) : Z := match r with Done (a, _) => a | _ => 0 end.
Lemma result_of_run r a s : r = Done (a, s) → result_of r = a.
Proof. by intros ->. Qed.

Lemma dpool_ok : pmm_ok dpool ∅.
Proof.
  destruct (pmm_init_view 0xC0100000 0x120000 ∅) as (s & Hs & Hok & _);
    [by vm_compute|by exists 0x120|by vm_compute..|].
  unfold dpool. rewrite Hs. exact Hok.
Qed.

(** No reference but the space's own. *)
Definition none (i : Z) : Z := 0.

(** The index of a page from its address. *)
Lemma page_index s U D i : pmm_ok s U → U !! D = Some 0 →
  page_to_addr s D =? KERNBASE + mem_start s + i * PGSIZE = true → D = i.
Proof. intros Hok HD Heq%Z.eqb_eq. destruct (page_ok s U Hok D HD) as [H _]. page_lia. Qed.

Lemma as1_ok : uspace as1 {[30 := 0]} 30 ∅ ∅ none.
Proof.
  destruct (uvmcreate_ok dpool ∅ demo_kpgdir dpool_ok) as (r & s & Hrun & Hok);
    [intros i Hi; rewrite lookup_empty in Hi; discriminate Hi|].
  assert (as1 = s) as Has by exact (state_of_run _ _ _ Hrun).
  pose proof (result_of_run _ _ _ Hrun) as Hr.
  assert (result_of (uvmcreate demo_kpgdir dpool) = 3222401024) as Hc by (vm_compute; reflexivity).
  rewrite Hc in Hr. clear Hc Hrun. rewrite Has.
  destruct Hok as [[? _]|(D & _ & HrD & _ & Hus & _)]; [lia|].
  assert (D = 30) as ->.
  { eapply page_index; [apply Hus|apply lookup_insert_eq|]. rewrite <- HrD, <- Hr, <- Has. vm_compute. reflexivity. }
  eapply uspace_ext; [exact Hus|]. intros i. unfold held. rewrite lookup_empty. reflexivity.
Qed.

(** [fill_page] on [as1]: one more page, at [va]. *)
Lemma filled_at va perm : 0 ≤ va < USEREND → (PGSIZE | va) → 0 ≤ perm < PGSIZE →
  result_of (fill_page (page_to_addr as1 30) va perm as1) = 0 →
  let s := state_after (fill_page (page_to_addr as1 30) va perm as1) in
  ∃ U T e, uspace s U 30 T {[vpn va := e]} none ∧ page_to_addr s 30 = page_to_addr as1 30 ∧
    ∀ fl, 0 ≤ fl < PGSIZE → has e fl = has (Z.lor (Z.lor perm PTE_U) PTE_P) fl.
Proof.
  intros Hva Hal Hp H0 s.
  destruct (fill_page_ok nowhere as1 {[30 := 0]} 30 ∅ ∅ none va perm as1_ok)
    as (r & s' & U' & T' & M' & Hrun & Hserv & Hr); [exact Hva|exact Hal|exact Hp|apply lookup_empty|].
  assert (s = s') as -> by exact (state_of_run _ _ _ Hrun).
  pose proof (result_of_run _ _ _ Hrun) as Hres. rewrite H0 in Hres. subst r. clear Hrun H0.
  destruct Hr as [[? _]|(_ & i & _ & _ & -> & _ & Hfl)]; [discriminate|].
  exists U', T', (user_pte (V2P (page_to_addr as1 i)) perm).
  split; [exact (se_space _ _ _ _ _ _ _ _ _ _ _ Hserv)|].
  split; [|exact Hfl]. exact (page_to_addr_same _ _ _ (se_start _ _ _ _ _ _ _ _ _ _ _ Hserv)).
Qed.

Lemma filled_ok perm : 0 ≤ perm < PGSIZE →
  result_of (fill_page (page_to_addr as1 30) USERLOAD perm as1) = 0 →
  let s := state_after (fill_page (page_to_addr as1 30) USERLOAD perm as1) in
  ∃ U T e, uspace s U 30 T {[1024 := e]} none ∧ page_to_addr s 30 = page_to_addr as1 30 ∧
    ∀ fl, 0 ≤ fl < PGSIZE → has e fl = has (Z.lor (Z.lor perm PTE_U) PTE_P) fl.
Proof. apply (filled_at USERLOAD); [split; reflexivity || discriminate|exists 1024; reflexivity]. Qed.

Lemma as2_ok : ∃ U T e, uspace as2 U 30 T {[1024 := e]} none ∧ page_to_addr as2 30 = page_to_addr as1 30 ∧
  is_cow e = true.
Proof.
  destruct (filled_ok (Z.lor PTE_P PTE_W)) as (U & T & e & H & Hp & Hfl); [done|vm_compute; reflexivity|].
  exists U, T, e. split_and!; [exact H|exact Hp|].
  clear H Hp. unfold is_cow.
  assert (has e PTE_W = true) as ->; [|reflexivity].
  transitivity (has (Z.lor (Z.lor (Z.lor PTE_P PTE_W) PTE_U) PTE_P) PTE_W); [|reflexivity].
  apply Hfl. split; [discriminate|reflexivity].
Qed.

(** With one user page and no outside reference every page is held once. *)
Lemma sole_refs s U D T e : uspace s U D T {[1024 := e]} none → ∀ i, U !! i = Some 0 → refs s i ≤ 1.
Proof.
  intros Hus i Hi. destruct (us_count _ _ _ _ _ _ Hus) as [C1 C2 _ _ _].
  destruct (decide (table D T i)) as [Ht|Ht]; [rewrite <- (C2 i Ht); reflexivity|].
  rewrite <- (C1 i Hi Ht). unfold none, mapped. rewrite Z.add_0_r.
  rewrite map_filter_singleton. case_decide; [rewrite map_size_singleton|rewrite map_size_empty]; lia.
Qed.

Lemma sole_alias e : no_alias {[1024 := e]}.
Proof. intros v1 v2 e1 e2 [<- _]%lookup_singleton_Some [<- _]%lookup_singleton_Some _. reflexivity. Qed.

(** ** Fork: a second space beside [as2]. *)
Lemma as3_ok : ∃ U T e D2 O1 O2,
  uspace as3 U 30 T {[1024 := e]} O1 ∧ uspace as3 U D2 ∅ ∅ O2 ∧ apart as3 30 T {[1024 := e]} D2 ∅ ∧
  covered as3 U 30 T {[1024 := e]} O2 ∧ (∀ i, U !! i = Some 0 → refs as3 i ≤ 1) ∧ is_cow e = true ∧
  D2 = 24.
Proof.
  destruct as2_ok as (U & T & e & Hus & _ & Hcow).
  destruct (create_beside as2 U 30 T {[1024 := e]} none demo_kpgdir Hus) as (r & s' & Hrun & Hr).
  assert (as3 = s') as <- by exact (state_of_run _ _ _ Hrun).
  pose proof (result_of_run _ _ _ Hrun) as Hres.
  assert (result_of (uvmcreate demo_kpgdir as2) = 3222401024 - 6 * PGSIZE) as Hc by (vm_compute; reflexivity).
  rewrite Hc in Hres. clear Hc Hrun.
  destruct Hr as [[-> _]|(D2 & O1 & -> & H1 & H2 & Hap & Hcov & Hrefs)]; [discriminate|].
  assert (D2 = 24) as Hd.
  { eapply page_index; [apply H1|apply lookup_insert_eq|]. rewrite <- Hres. vm_compute. reflexivity. }
  exists (<[D2 := 0]> U), T, e, D2, O1, (held as2 U).
  split_and!; [exact H1|exact H2|exact Hap|exact Hcov| |exact Hcow|exact Hd].
  intros i Hi. etrans; [exact (Hrefs i Hi)|]. apply Z.max_lub; [reflexivity|].
  destruct (decide (i = D2)) as [->|Hne].
  - rewrite Hd. vm_compute. discriminate.
  - rewrite lookup_insert_ne in Hi by congruence. exact (sole_refs _ _ _ _ _ Hus i Hi).
Qed.

(** ** The theorems at these states *)

(** A process with no mapping of its own, and [shm] callbacks never reached. *)
Definition dmm (s : pmm) : mm_struct := mm_init (page_to_addr s 30).
Definition no_shm_fault : mm_struct → vma → Z → bool → pmm → outcome (Z * pmm) := λ _ _ _ _ s, mret (-1, s).
Definition no_shm_unmap : mm_struct → nat → pmm → outcome (Z * mm_struct * pmm) := λ m _ s, mret (-1, m, s).
(** The same with a break one page up, and with one mapping. *)
Definition dmm_brk (s : pmm) : mm_struct := with_brk (USERLOAD + PGSIZE) (dmm s).
Definition dmm_map (s : pmm) : mm_struct :=
  with_vmas (Vma true USERLOAD (USERLOAD + PGSIZE) 3 MAP_PRIVATE :: replicate 63 no_vma) (dmm s).

Lemma no_vma_lookup n i v : replicate n no_vma !! i = Some v → v = no_vma.
Proof. intros [? _]%lookup_replicate. assumption. Qed.

Lemma dmm_private s : private_vmas (dmm s).
Proof. intros i v ->%no_vma_lookup. reflexivity. Qed.
Lemma dmm_map_private s : private_vmas (dmm_map s).
Proof. intros [|i] v; [by intros [= <-]|]. intros ->%no_vma_lookup. reflexivity. Qed.
Lemma dmm_plain s : plain_process (Some (dmm s)).
Proof. intros m [= <-]. split; [discriminate|apply dmm_private]. Qed.

Lemma dmm_brk_ok s : mm_ok (dmm_brk s).
Proof.
  split; [reflexivity|split; [reflexivity|discriminate]|split; discriminate|discriminate| |].
  - intros i v ->%no_vma_lookup. discriminate.
  - intros i j v w ->%no_vma_lookup _ _. discriminate.
Qed.
Lemma dmm_ok s : mm_ok (dmm s).
Proof.
  split; [reflexivity|split; [reflexivity|discriminate]|split; discriminate|discriminate| |].
  - intros i v ->%no_vma_lookup. discriminate.
  - intros i j v w ->%no_vma_lookup _ _. discriminate.
Qed.
Lemma dmm_map_ok s : mm_ok (dmm_map s).
Proof.
  split; [reflexivity|split; [reflexivity|discriminate]|split; discriminate|discriminate| |].
  - intros [|i] v; [intros [= <-] _|by intros ->%no_vma_lookup].
    split; simpl; [split; [by exists 1024|by exists 1025]|split_and!; done|done].
  - intros [|i] [|j] v w Hv Hw Hne Hu Hu'; [done|apply no_vma_lookup in Hw; by subst|
      apply no_vma_lookup in Hv; by subst..].
Qed.

(** [as1] holding one more page, and [as2] with a copy-on-write page. *)
Definition as1a : pmm := state_after (alloc_page as1).
Definition as2c : pmm := state_after (fill_page (page_to_addr as1 30) USERLOAD (Z.lor PTE_P PTE_COW) as1).
Definition got_page (r : outcome (option Z * pmm)) : bool :=
  match r with Done (Some _, _) => true | _ => false end.
Lemma got_page_run r o s : r = Done (o, s) → got_page r = if o then true else false.
Proof. by intros ->. Qed.

Lemma as1a_ok : ∃ i, uspace as1a (<[i := 0]> {[30 := 0]}) 30 ∅ ∅ (upd none i 1) ∧ i ≠ 30.
Proof.
  destruct (space_alloc as1 {[30 := 0]} 30 ∅ ∅ none as1_ok) as (r & s' & Hrun & Hr).
  assert (as1a = s') as <- by exact (state_of_run _ _ _ Hrun).
  pose proof (got_page_run _ _ _ Hrun) as Hg.
  assert (got_page (alloc_page as1) = true) as Hc by (vm_compute; reflexivity).
  rewrite Hc in Hg. clear Hc Hrun. destruct r as [a|]; [|discriminate Hg].
  destruct Hr as (i & _ & Hi & _ & Hus & _). exists i. split; [exact Hus|].
  intros ->. rewrite lookup_singleton_eq in Hi. discriminate Hi.
Qed.

Lemma uvmmap_spec_witness : ∃ i r s',
  uvmmap (page_to_addr as1a 30) USERLOAD (V2P (page_to_addr as1a i)) PGSIZE PTE_W as1a = Done (r, s').
Proof.
  destruct as1a_ok as (i & Hus & Hne). exists i.
  destruct (uvmmap_spec as1a _ 30 ∅ ∅ _ USERLOAD i PTE_W Hus) as (r & s' & Hrun & _).
  - split; [discriminate|reflexivity].
  - exists 1024. reflexivity.
  - apply lookup_insert_eq.
  - intros [Hi|[k Hk]]; [exact (Hne Hi)|]. rewrite lookup_empty in Hk. discriminate Hk.
  - rewrite upd_eq. discriminate.
  - split; [discriminate|reflexivity].
  - exists r, s'. exact Hrun.
Defined.

Lemma uvmunmap_spec_witness : ∃ s' U' T M', uvmunmap (page_to_addr as2 30) USERLOAD 1 true as2 = Done (0, s') ∧
  uspace s' U' 30 T M' none ∧ M' !! 1024 = None.
Proof.
  destruct as2_ok as (U & T & e & Hus & _).
  destruct (uvmunmap_spec as2 U 30 T _ none USERLOAD 1 Hus) as (s' & U' & Hrun & Hus' & _);
    [discriminate|exists 1024; reflexivity|reflexivity|discriminate|].
  exists s', U', T, (del_range (vpn USERLOAD) (vpn USERLOAD + 1) {[1024 := e]}).
  split; [exact Hrun|]. split; [exact Hus'|].
  apply map_lookup_filter_None. right. intros x _ [H|H]; [discriminate H|]. by apply H.
Defined.

Lemma uvm_cow_fault_spec_witness : ∃ s', uvm_cow_fault (page_to_addr as2c 30) USERLOAD as2c = Done (0, s').
Proof.
  destruct (filled_ok (Z.lor PTE_P PTE_COW)) as (U & T & e & Hus & _ & _);
    [split; [discriminate|reflexivity]|vm_compute; reflexivity|].
  destruct (uvm_cow_fault_spec as2c U 30 T _ none USERLOAD Hus) as (r & s' & Hrun & _);
    [split; [discriminate|reflexivity]|].
  exists s'. assert (r = 0) as <-; [|exact Hrun].
  rewrite <- (result_of_run _ _ _ Hrun). vm_compute. reflexivity.
Defined.

Lemma uvmfree_spec_witness : ∃ s' U', uvmfree (page_to_addr as2 30) as2 = Done s' ∧ pmm_ok s' U' ∧
  ∀ i, U' !! i ≠ Some 0.
Proof.
  destruct as2_ok as (U & T & e & Hus & _).
  destruct (uvmfree_spec as2 U 30 T _ none Hus) as (s' & U' & Hrun & Hok & HU & _).
  exists s', U'. split; [exact Hrun|]. split; [exact Hok|].
  intros i Hi. apply HU in Hi as [_ [H|H]]; [exact (H eq_refl)|exact (H eq_refl)].
Defined.

Lemma do_mmap_spec_witness : ∃ r m', do_mmap (dmm as1) 0 PGSIZE 3 (MAP_PRIVATE + MAP_ANONYMOUS) (-1) as1 = Done (r, m') ∧
  mm_ok m' ∧ r ≠ MAP_FAILED.
Proof.
  destruct (do_mmap_spec (dmm as1) 0 PGSIZE 3 (MAP_PRIVATE + MAP_ANONYMOUS) (-1) as1 (dmm_ok as1))
    as (r & m' & Hrun & Hok & _); [split; [discriminate|reflexivity]..|].
  exists r, m'. split; [exact Hrun|]. split; [exact Hok|].
  assert (match do_mmap (dmm as1) 0 PGSIZE 3 (MAP_PRIVATE + MAP_ANONYMOUS) (-1) as1 with
          | Done (r, _) => negb (r =? MAP_FAILED) | _ => false end = true) as Hc by (vm_compute; reflexivity).
  rewrite Hrun in Hc. intros ->. discriminate Hc.
Defined.

Lemma uvm_demand_fault_spec_witness : ∃ s' (M' : gmap Z Z),
  uvm_demand_fault no_shm_fault (Some (dmm_map as1)) USERLOAD true as1 = Done (0, s') ∧ is_Some (M' !! 1024).
Proof.
  destruct (uvm_demand_fault_spec no_shm_fault as1 _ 30 ∅ ∅ none (dmm_map as1) USERLOAD true as1_ok)
    as (r & s' & U' & T' & M' & Hrun & _ & _ & _ & _ & _ & Hr).
  - reflexivity.
  - discriminate.
  - split; [discriminate|reflexivity].
  - apply dmm_map_private.
  - assert (r = 0) as ->.
    { rewrite <- (result_of_run _ _ _ Hrun). vm_compute. reflexivity. }
    destruct (Hr eq_refl) as (_ & e & He & _).
    exists s', M'. split; [exact Hrun|]. exists e. exact He.
Defined.

Lemma copyin_spec_witness : ∃ l s', copyin no_shm_fault (Some (dmm as2)) (page_to_addr as2 30) (USERLOAD + 10) 3 as2 =
  Done (Some l, s').
Proof.
  destruct as2_ok as (U & T & e & Hus & _).
  destruct (copyin_spec no_shm_fault (Some (dmm as2)) as2 U 30 T _ none (USERLOAD + 10) 3 Hus (dmm_plain as2))
    as (r & s' & U' & T' & M' & Hrun & _ & _ & _ & _ & Hr); [discriminate..|].
  destruct Hr as [l ->]; [|exists l, s'; exact Hrun].
  intros a Ha. assert (vpn a = 1024) as ->; [|rewrite lookup_singleton_eq; by eexists].
  unfold vpn. symmetry. apply (Z.div_unique _ _ _ (a - USERLOAD)); unfold USERLOAD, PGSIZE in *; lia.
Defined.

Lemma copyout_spec_witness : ∃ s' M',
  copyout no_shm_fault (Some (dmm as2)) (page_to_addr as2 30) (USERLOAD + 10) [104; 105] as2 = Done (0, s') ∧
  ubytes s' M' (USERLOAD + 10) 2 = [Some 104; Some 105].
Proof.
  destruct as2_ok as (U & T & e & Hus & _).
  destruct (copyout_spec no_shm_fault (Some (dmm as2)) as2 U 30 T _ none (USERLOAD + 10) [104; 105] Hus
              (dmm_plain as2) (sole_alias e)) as (r & s' & U' & T' & M' & Hrun & _ & _ & _ & _ & Hr);
    [intros ? ? i _ _ _ _; reflexivity|discriminate..|].
  assert (r = 0) as ->.
  { rewrite <- (result_of_run _ _ _ Hrun). vm_compute. reflexivity. }
  exists s', M'. split; [exact Hrun|]. exact (Hr eq_refl).
Defined.

Lemma copy_roundtrip_witness : ∃ s1 s2,
  copyout no_shm_fault (Some (dmm as2)) (page_to_addr as2 30) (USERLOAD + 10) [104; 105] as2 = Done (0, s1) ∧
  copyin no_shm_fault (Some (dmm as2)) (page_to_addr as2 30) (USERLOAD + 10) 2 s1 = Done (Some [104; 105], s2).
Proof.
  destruct as2_ok as (U & T & e & Hus & _).
  assert (unshared none as2 {[1024 := e]} (USERLOAD + 10) 2) as Hun by (intros ? ? i _ _ _ _; reflexivity).
  destruct (copyout_ok no_shm_fault (Some (dmm as2)) as2 U 30 T _ none (USERLOAD + 10) [104; 105] Hus
              (dmm_plain as2) (sole_alias e) Hun) as (r & s1 & U' & T' & M' & Hrun & _); [discriminate..|].
  assert (r = 0) as ->.
  { rewrite <- (result_of_run _ _ _ Hrun). vm_compute. reflexivity. }
  destruct (copy_roundtrip no_shm_fault (Some (dmm as2)) as2 U 30 T _ none (USERLOAD + 10) [104; 105] s1 Hus
              (dmm_plain as2) (sole_alias e) Hun) as (s2 & Hrun2); [discriminate..| |exact Hrun|].
  - intros b Hb. apply elem_of_cons in Hb as [-> | Hb]; [split; [discriminate|reflexivity]|].
    apply list_elem_of_singleton in Hb as ->. split; [discriminate|reflexivity].
  - exists s1, s2. split; [exact Hrun|exact Hrun2].
Defined.

Lemma do_munmap_spec_witness : ∃ m' s' U' T M',
  do_munmap no_shm_unmap (dmm_map as2) USERLOAD PGSIZE as2 = Done (0, m', s') ∧
  existsb used (vmas m') = false ∧ uspace s' U' 30 T M' none.
Proof.
  destruct as2_ok as (U & T & e & Hus & _).
  destruct (do_munmap_spec no_shm_unmap as2 U 30 T _ none (dmm_map as2) USERLOAD PGSIZE (dmm_map_ok as2) Hus)
    as (r & m' & s' & U' & M' & Hrun & _ & Hus' & _).
  - reflexivity.
  - apply dmm_map_private.
  - split; [discriminate|reflexivity].
  - split; [discriminate|reflexivity].
  - assert (match do_munmap no_shm_unmap (dmm_map as2) USERLOAD PGSIZE as2 with
            | Done (r, m, _) => (r, existsb used (vmas m)) | _ => (1, true) end = (0, false)) as Hc
      by (vm_compute; reflexivity).
    rewrite Hrun in Hc. injection Hc as -> Hu.
    exists m', s', U', T, M'. split; [exact Hrun|]. split; [exact Hu|exact Hus'].
Defined.

Lemma sys_brk_spec_witness : ∃ m' s' U' T M', sys_brk (dmm_brk as2) USERLOAD as2 = Done (USERLOAD, m', s') ∧
  uspace s' U' 30 T M' none.
Proof.
  destruct as2_ok as (U & T & e & Hus & _).
  destruct (sys_brk_spec as2 U 30 T _ none (dmm_brk as2) USERLOAD (dmm_brk_ok as2) Hus)
    as (r & m' & s' & U' & M' & Hrun & _ & _ & Hus' & _).
  - reflexivity.
  - split; [discriminate|reflexivity].
  - exists m', s', U', T, M'. split; [|exact Hus']. rewrite Hrun.
    assert (match sys_brk (dmm_brk as2) USERLOAD as2 with Done (r, _, _) => r | _ => 0 end = USERLOAD) as Hc
      by (vm_compute; reflexivity).
    rewrite Hrun in Hc. rewrite Hc. reflexivity.
Defined.

Lemma uvmcopy_spec_witness : ∃ s' U' T2 M2 O2, uvmcopy (page_to_addr as3 30) (page_to_addr as3 24) USEREND as3 = Done (0, s') ∧
  uspace s' U' 24 T2 M2 O2 ∧ ∃ M1, ubyte s' M2 USERLOAD = ubyte as3 M1 USERLOAD.
Proof.
  destruct as3_ok as (U & T & e & D2 & O1 & O2 & H1 & H2 & Hap & _ & Hrefs & _ & ->).
  destruct (uvmcopy_spec as3 U 30 T _ O1 24 ∅ O2 1 USEREND H1 H2 Hap)
    as (r & s' & U' & T2' & M1' & M2' & O1' & Hrun & _ & _ & Hus2 & _ & Hr).
  - split; reflexivity.
  - discriminate.
  - reflexivity.
  - exact Hrefs.
  - assert (r = 0) as ->.
    { rewrite <- (result_of_run _ _ _ Hrun). vm_compute. reflexivity. }
    exists s', U', T2', M2', O2. split; [exact Hrun|]. split; [exact Hus2|].
    exists {[1024 := e]}. apply (Hr eq_refl). reflexivity.
Defined.


(** ** A read-only page is no protection against the kernel

    [copyout] (so [read] into a user buffer) asks [ensure_user_page] only for a
    present entry: it stores through an entry without [PTE_W].  After a fork a
    read-only page is shared without copy-on-write, so the child's store shows
    in the parent. *)
Definition as2r : pmm := state_after (fill_page (page_to_addr as1 30) USERLOAD PTE_P as1).
Definition as3r : pmm := state_after (uvmcreate demo_kpgdir as2r).
Definition as4r : pmm := state_after (uvmcopy (page_to_addr as3r 30) (page_to_addr as3r 24) USEREND as3r).
Definition as5r : pmm := state_after (copyout no_shm_fault (Some (dmm as4r)) (page_to_addr as4r 24) USERLOAD [7] as4r).

(** Whether the entry of [va] is writable, and the byte at [va], in directory page [d]. *)
Definition peek (s : pmm) (d va : Z) : option (bool * Z) :=
  match walk (page_to_addr s d) va false false s with
  | Done (p, _) => Some (has (rd s p) PTE_W, mload (ram s) (pte_page_kva (rd s p)))
  | _ => None
  end.

Lemma copyout_through_readonly :
  result_of (copyout no_shm_fault (Some (dmm as4r)) (page_to_addr as4r 24) USERLOAD [7] as4r) = 0 ∧
  peek as4r 24 USERLOAD = Some (false, 0) ∧ peek as4r 30 USERLOAD = Some (false, 0) ∧
  peek as5r 24 USERLOAD = Some (false, 7) ∧ peek as5r 30 USERLOAD = Some (false, 7).
Proof. vm_compute. done. Qed.
