(* ===== verification/TaskQueue.v ===== *)
(** [TaskQueue]: the run queue of kernel/task_queue.c.

    The queue is threaded through the [list] nodes of the process control
    blocks: node [Some i] is [proc_table[i].list], node [None] the queue's head.
    The functions are the C ones over [ListHead]; [tq n h q] says that the nodes
    [h] of [n] process slots hold the FIFO sequence [q], every other slot being
    detached, and the lemmas are the refinement of each function to it. *)
From Stdlib Require Import ZArith Lia.
From stdpp Require Import numbers strings gmap list.
From S2P Require Import Prelude ListHead.

(** [enum procstate] *)
Inductive procstate := UNUSED | USED | SLEEPING | RUNNABLE | RUNNING | ZOMBIE.
#[export] Instance procstate_eq_dec : EqDecision procstate.
Proof. solve_decision. Defined.

Notation tnode := (option nat) (only parsing).
Notation runqueue := (@None nat) (only parsing).
Notation tnodes := (gmap (option nat) (list_head (option nat))) (only parsing).

Definition on_list (p : nat) (h : tnodes) : outcome bool :=
  nx ← get_next h (Some p); mret (negb (bool_decide (nx = Some p))).

Definition task_queue_init (h : tnodes) : tnodes := INIT_LIST_HEAD runqueue h.

Definition task_queue_unlink_locked (p : nat) (h : tnodes) : outcome tnodes :=
  b ← on_list p h;
  if b : bool then h ← list_del (Some p) h; mret (INIT_LIST_HEAD (Some p) h)
  else mret h.

(** [st] is [p->state]. *)
Definition task_queue_enqueue_locked (st : procstate) (p : nat) (h : tnodes) : outcome tnodes :=
  if negb (bool_decide (st = RUNNABLE)) then Panic "enqueue: not runnable"
  else
    b ← on_list p h;
    if b : bool then Panic "enqueue: already queued" else list_add_tail (Some p) runqueue h.

Definition task_queue_dequeue_locked (h : tnodes) : outcome (option nat * tnodes) :=
  e ← list_empty runqueue h;
  if e : bool then mret (None, h)
  else
    node ← get_next h runqueue;
    p ← deref node;
    h ← list_del (Some p) h;
    mret (Some p, INIT_LIST_HEAD (Some p) h).

Definition task_queue_empty_locked (h : tnodes) : outcome bool := list_empty runqueue h.

(** The processes [task_queue_dump_locked] prints, in order. *)
Definition task_queue_dump_locked (fuel : nat) (h : tnodes) : outcome (list nat) :=
  l ← list_for_each fuel runqueue h;
  mret (omap (M := list) (λ x : tnode, x) l).

(** ** Refinement to a sequence *)

Record tq (n : nat) (h : tnodes) (q : list nat) : Prop := {
  tq_repr : ∃ L, repr h L ∧ L !! runqueue = Some (Some <$> q) ∧
    ∀ i, (i < n)%nat → i ∉ q → L !! Some i = Some [];
  tq_nodup : NoDup q;
  tq_bound i : i ∈ q → (i < n)%nat
}.

(** ** The empty queue, as [procinit] builds it *)

Fixpoint init_nodes (n : nat) (h : tnodes) : tnodes :=
  match n with O => h | S n => INIT_LIST_HEAD (Some n) (init_nodes n h) end.

Lemma init_nodes_repr n : ∃ L, repr (init_nodes n (task_queue_init ∅)) L ∧ L !! runqueue = Some [] ∧
  (∀ i, (i < n)%nat → L !! Some i = Some []) ∧ (∀ x xs, L !! x = Some xs → xs = []) ∧
  (∀ i, (n ≤ i)%nat → L !! Some i = None).
Proof.
  induction n as [|n (L & HR & Hh & Hi & Hall & Hout)].
  - exists {[runqueue := []]}. split_and!.
    + unfold task_queue_init, singletonM, map_singleton. apply INIT_LIST_HEAD_repr.
      * split; intros *; rewrite lookup_empty; discriminate.
      * left. intros hd xs. rewrite lookup_empty. discriminate.
    + apply lookup_singleton_eq.
    + lia.
    + intros x xs [_ <-]%lookup_singleton_Some. done.
    + intros i _. by rewrite lookup_singleton_ne.
  - exists (<[Some n := []]> L). cbn [init_nodes]. split_and!.
    + apply INIT_LIST_HEAD_repr; [done|]. left. intros hd xs HL.
      rewrite (Hall _ _ HL). intros <-%list_elem_of_singleton. rewrite (Hout n) in HL by lia. done.
    + by rewrite lookup_insert_ne.
    + intros i Hlt. destruct (decide (i = n)) as [->|]; [apply lookup_insert_eq|].
      rewrite lookup_insert_ne by congruence. apply Hi. lia.
    + intros x xs [[_ <-]|[_ HL]]%lookup_insert_Some; [done|]. by eapply Hall.
    + intros i Hle. rewrite lookup_insert_ne by (intros [= ->]; lia). apply Hout. lia.
Qed.

Lemma tq_init n : tq n (init_nodes n (task_queue_init ∅)) [].
Proof.
  destruct (init_nodes_repr n) as (L & HR & Hh & Hi & _). split; [|constructor|by intros i ?%elem_of_nil].
  exists L. split_and!; [done|done|]. intros i Hlt _. by apply Hi.
Qed.

Section Queue.
Context {n : nat} {h : tnodes} {q : list nat} (Hq : tq n h q).

Lemma on_list_ok i : (i < n)%nat → on_list i h = Done (bool_decide (i ∈ q)).
Proof.
  intros Hi. destruct (tq_repr _ _ _ Hq) as (L & HR & Hh & Hdet). unfold on_list, get_next.
  destruct (decide (i ∈ q)) as [Hin|Hin].
  - rewrite (bool_decide_true (i ∈ q)) by done.
    apply list_elem_of_split in Hin as (l1 & l2 & ->). pose proof (tq_nodup _ _ _ Hq) as Hnd.
    pose proof (repr_linked _ _ HR _ _ Hh) as Hl.
    assert (∃ nx l, cycle runqueue (Some <$> l1 ++ i :: l2) = (runqueue :: (Some <$> l1)) ++ Some i :: nx :: l ∧ nx ≠ Some i)
      as (nx & l & Hc & Hne).
    { unfold cycle. rewrite fmap_app. cbn [fmap list_fmap]. rewrite <- app_assoc. cbn [app].
      destruct l2 as [|j l2]; cbn [fmap list_fmap app].
      - exists runqueue, []. done.
      - exists (Some j), ((Some <$> l2) ++ [runqueue]). split; [done|]. intros [= ->].
        apply NoDup_app in Hnd as (_ & _ & [Hnin _]%NoDup_cons). set_solver. }
    rewrite Hc in Hl. apply linked_app in Hl as [_ [Hnx _]].
    destruct (h !! Some i) as [nd|]; [|done]. simplify_eq/=. run. rewrite bool_decide_false by done. done.
  - rewrite (bool_decide_false (i ∈ q)) by done.
    pose proof (repr_linked _ _ HR _ _ (Hdet i Hi Hin)) as (Hnx & _).
    destruct (h !! Some i) as [nd|]; [|done]. simplify_eq/=. run. rewrite bool_decide_true by done. done.
Qed.

Lemma enqueue_ok i : (i < n)%nat → i ∉ q →
  ∃ h', task_queue_enqueue_locked RUNNABLE i h = Done h' ∧ tq n h' (q ++ [i]).
Proof.
  intros Hi Hin. unfold task_queue_enqueue_locked. rewrite bool_decide_true by done. cbn [negb].
  rewrite on_list_ok by done. run. rewrite bool_decide_false by done.
  destruct (tq_repr _ _ _ Hq) as (L & HR & Hh & Hdet).
  destruct (list_add_tail_spec h L runqueue (Some <$> q) (Some i) HR Hh (Hdet i Hi Hin)) as (h' & -> & HR'); [done|].
  exists h'. split; [done|]. split.
  - eexists. split; [exact HR'|]. split.
    + rewrite lookup_insert_eq, fmap_app. done.
    + intros j Hj Hjn. rewrite not_elem_of_app, list_elem_of_singleton in Hjn. destruct Hjn as [Hjq Hne].
      rewrite lookup_insert_ne, lookup_delete_ne by congruence. by apply Hdet.
  - apply NoDup_app. split_and!; [apply Hq|set_solver|apply NoDup_singleton].
  - intros j [Hj| ->%list_elem_of_singleton]%elem_of_app; [by apply Hq|done].
Qed.

(** Removing a queued process. *)
Lemma list_del_queued l1 i l2 : q = l1 ++ i :: l2 →
  ∃ h', list_del (Some i) h = Done h' ∧ tq n (INIT_LIST_HEAD (Some i) h') (l1 ++ l2).
Proof.
  intros Hs. destruct (tq_repr _ _ _ Hq) as (L & HR & Hh & Hdet).
  pose proof (tq_nodup _ _ _ Hq) as Hnd. rewrite Hs in Hh, Hnd. rewrite fmap_app in Hh.
  destruct (list_del_spec h L runqueue _ (Some i) _ HR Hh) as (h' & -> & HR').
  exists h'. split; [done|]. split.
  - eexists. split; [apply INIT_LIST_HEAD_repr; [exact HR'|right; apply lookup_insert_eq]|]. split.
    + rewrite insert_insert_eq, lookup_insert_ne, lookup_insert_eq, fmap_app by done. done.
    + intros j Hj Hjn. destruct (decide (j = i)) as [->|Hne]; [apply lookup_insert_eq|].
      rewrite !lookup_insert_ne by congruence. apply Hdet; [done|]. rewrite Hs. set_solver.
  - apply NoDup_app in Hnd as (Hn1 & Hn2 & [Hn3 Hn4]%NoDup_cons).
    apply NoDup_app. split_and!; [done|set_solver|done].
  - intros j Hj. apply (tq_bound _ _ _ Hq). rewrite Hs. set_solver.
Qed.

Lemma unlink_ok i : (i < n)%nat →
  ∃ h', task_queue_unlink_locked i h = Done h' ∧ tq n h' (filter (λ j, j ≠ i) q).
Proof.
  intros Hi. unfold task_queue_unlink_locked. rewrite on_list_ok by done. run.
  case_bool_decide as Hin.
  - apply list_elem_of_split in Hin as (l1 & l2 & Hs). destruct (list_del_queued l1 i l2 Hs) as (h' & -> & Hq').
    run. exists (INIT_LIST_HEAD (Some i) h'). split; [done|].
    assert (filter (λ j, j ≠ i) q = l1 ++ l2) as ->; [|done].
    pose proof (tq_nodup _ _ _ Hq) as Hnd. rewrite Hs in Hnd |- *.
    apply NoDup_app in Hnd as (_ & Hn2 & [Hn3 _]%NoDup_cons).
    rewrite filter_app, filter_cons_False by tauto.
    rewrite !filter_all; [done|set_solver..].
  - exists h. split; [done|]. rewrite filter_all; [done|]. intros j Hj ->. done.
Qed.

Lemma queue_empty_ok : task_queue_empty_locked h = Done (bool_decide (q = [])).
Proof.
  destruct (tq_repr _ _ _ Hq) as (L & HR & Hh & _). unfold task_queue_empty_locked.
  rewrite (list_empty_spec h L runqueue _ HR Hh). f_equal. apply bool_decide_ext. by destruct q.
Qed.

Lemma queue_dump_ok fuel : (length q < fuel)%nat → task_queue_dump_locked fuel h = Done q.
Proof.
  intros Hf. destruct (tq_repr _ _ _ Hq) as (L & HR & Hh & _). unfold task_queue_dump_locked.
  rewrite (list_for_each_spec h L runqueue _ fuel HR Hh) by (by rewrite length_fmap). run. f_equal.
  clear Hf HR Hh Hq. induction q as [|i q' IH]; [done|]. cbn [fmap list_fmap omap list_omap]. cbn. by rewrite IH.
Qed.
End Queue.

Lemma dequeue_ok n h q : tq n h q →
  ∃ h', task_queue_dequeue_locked h = Done (head q, h') ∧ tq n h' (tail q).
Proof.
  intros Hq. destruct (tq_repr _ _ _ Hq) as (L & HR & Hh & Hdet). unfold task_queue_dequeue_locked.
  rewrite (list_empty_spec h L runqueue _ HR Hh). run.
  destruct q as [|i q']; cbn [fmap list_fmap].
  - rewrite bool_decide_true by done. by exists h.
  - rewrite bool_decide_false by done.
    pose proof (list_first_entry_spec h L runqueue _ _ HR Hh) as Hf. unfold list_first_entry in Hf.
    rewrite Hf. run. cbn [deref]. run.
    destruct (list_del_queued Hq [] i q') as (h' & -> & Hq'); [done|]. run. by eexists.
Qed.
