(* ===== verification/Proc.v ===== *)
(** [Proc]: processes of kernel/proc.c, with [struct proc] of kernel/proc.h.

    [ksys] is what [proc_lock] protects: the process table, the run queue's
    nodes and the pid counter, with the clock, the console's foreground pid and
    the memory the process code frees.  Every function below that takes the lock
    is one section: what it does between [acquire] and [release].  A function
    that sleeps is cut there; [SchedSys] puts the sections together again.

    Memory is reached through the interface [KernelMem]: the page of a kernel
    stack goes back with [km_free_page], an address space with [km_drop_mm].
    A [struct proc *] is its index in the table.  Not in the model: the saved
    register contexts and the FPU state, which only assembly reads. *)
From Stdlib Require Import ZArith Lia.
From stdpp Require Import numbers strings gmap list.
From S2P Require Import Prelude ListHead MemLayout Buddy Vm Mmap UserMem TaskQueue.
Open Scope Z_scope.

Definition NPROC : nat := 64.
Definition NSIG : nat := 32.

(** [struct trapframe] of kernel/trap.h *)
Record trapframe := TrapFrame {
  edi : Z; esi : Z; ebp : Z; oesp : Z; ebx : Z; edx : Z; ecx : Z; eax : Z;
  ds : Z; err : Z; eip : Z; cs : Z; eflags : Z; esp : Z; ss : Z
}.

(** A sleep channel: the address of a PCB, or any other kernel address. *)
Inductive channel := ChProc (i : nat) | ChAddr (a : Z).
#[export] Instance channel_eq_dec : EqDecision channel.
Proof. solve_decision. Defined.

Record proc := Proc {
  state : procstate;
  pid : Z;
  parent : option nat;
  chan : option channel;
  wakeup_tick : Z;
  xstate : Z;
  mm : option mm_struct;
  kstack : Z;
  entry : bool;
  name : list Z;
  sigpending : Z;
  sigmasked : Z;
  sighand : list Z;
  sigold : option trapframe;
  sighandling : bool
}.

(** [memset(p, 0, sizeof( *p))] *)
Definition zero_proc : proc :=
  Proc UNUSED 0 None None 0 0 None 0 false [] 0 0 (replicate NSIG 0) None false.

Definition with_sched (st : procstate) (ch : option channel) (tick : Z) (p : proc) : proc :=
  Proc st (pid p) (parent p) ch tick (xstate p) (mm p) (kstack p) (entry p) (name p)
       (sigpending p) (sigmasked p) (sighand p) (sigold p) (sighandling p).
Definition with_state (st : procstate) (p : proc) : proc := with_sched st (chan p) (wakeup_tick p) p.
Definition with_parent (q : option nat) (p : proc) : proc :=
  Proc (state p) (pid p) q (chan p) (wakeup_tick p) (xstate p) (mm p) (kstack p) (entry p) (name p)
       (sigpending p) (sigmasked p) (sighand p) (sigold p) (sighandling p).
Definition with_ident (d : Z) (q : option nat) (x : Z) (n : list Z) (p : proc) : proc :=
  Proc (state p) d q (chan p) (wakeup_tick p) x (mm p) (kstack p) (entry p) n
       (sigpending p) (sigmasked p) (sighand p) (sigold p) (sighandling p).
Definition with_image (m : option mm_struct) (ks : Z) (e : bool) (p : proc) : proc :=
  Proc (state p) (pid p) (parent p) (chan p) (wakeup_tick p) (xstate p) m ks e (name p)
       (sigpending p) (sigmasked p) (sighand p) (sigold p) (sighandling p).
Definition with_sig (pend mask : Z) (hand : list Z) (old : option trapframe) (ing : bool) (p : proc) : proc :=
  Proc (state p) (pid p) (parent p) (chan p) (wakeup_tick p) (xstate p) (mm p) (kstack p) (entry p) (name p)
       pend mask hand old ing.

(** What process code needs of memory management: [alloc_page] (0 for none),
    [free_page], the address space [fork_copy] builds ([mm_create] and
    [uvmcopy] of the given size; the flag tells whether the copy succeeded),
    [shm_fork_fix] of the child and the parent, the address space [exec_load]
    builds from an image, and [proc_drop_mm]'s release. *)
Class KernelMem (Mem : Type) := {
  km_alloc_page : Mem → outcome (Z * Mem);
  km_free_page : Z → Mem → outcome Mem;
  km_fork_mm : mm_struct → Mem → outcome (option (mm_struct * bool) * Mem);
  km_shm_fork_fix : mm_struct → mm_struct → Mem → outcome (mm_struct * Mem);
  km_exec_mm : list Z → Mem → outcome (option mm_struct * Mem);
  km_drop_mm : mm_struct → Mem → outcome Mem
}.

Record ksys (Mem : Type) := Ksys {
  nodes : gmap (option nat) (list_head (option nat));
  procs : list proc;
  nextpid : Z;
  initproc : option nat;
  kthreadd_task : option nat;
  ticks : Z;
  fg_pid : Z;
  mem : Mem
}.
Arguments Ksys {Mem} _ _ _ _ _ _ _ _.
Arguments nodes {Mem} _.
Arguments procs {Mem} _.
Arguments nextpid {Mem} _.
Arguments initproc {Mem} _.
Arguments kthreadd_task {Mem} _.
Arguments ticks {Mem} _.
Arguments fg_pid {Mem} _.
Arguments mem {Mem} _.

Section Proc.
Context {Mem : Type} `{KernelMem Mem}.
Implicit Types (k : ksys Mem) (i me : nat).

Definition with_nodes h k : ksys Mem :=
  Ksys h (procs k) (nextpid k) (initproc k) (kthreadd_task k) (ticks k) (fg_pid k) (mem k).
Definition with_procs (l : list proc) k : ksys Mem :=
  Ksys (nodes k) l (nextpid k) (initproc k) (kthreadd_task k) (ticks k) (fg_pid k) (mem k).
Definition with_nextpid (n : Z) k : ksys Mem :=
  Ksys (nodes k) (procs k) n (initproc k) (kthreadd_task k) (ticks k) (fg_pid k) (mem k).
Definition with_ticks (t : Z) k : ksys Mem :=
  Ksys (nodes k) (procs k) (nextpid k) (initproc k) (kthreadd_task k) t (fg_pid k) (mem k).
Definition with_mem (m : Mem) k : ksys Mem :=
  Ksys (nodes k) (procs k) (nextpid k) (initproc k) (kthreadd_task k) (ticks k) (fg_pid k) m.

(** [console_set_fg(pid)] of kernel/console.c *)
Definition console_set_fg (d : Z) k : ksys Mem :=
  Ksys (nodes k) (procs k) (nextpid k) (initproc k) (kthreadd_task k) (ticks k) d (mem k).

Definition get_proc i k : outcome proc := deref (procs k !! i).
Definition set_proc i (p : proc) k : ksys Mem := with_procs (<[i := p]> (procs k)) k.

Definition unlink i k : outcome (ksys Mem) :=
  h ← task_queue_unlink_locked i (nodes k); mret (with_nodes h k).
Definition enqueue i k : outcome (ksys Mem) :=
  p ← get_proc i k;
  h ← task_queue_enqueue_locked (state p) i (nodes k); mret (with_nodes h k).

(** [free_page(p->kstack); p->kstack = 0], when there is a stack. *)
Definition free_kstack i k : outcome (ksys Mem) :=
  p ← get_proc i k;
  if kstack p =? 0 then mret k
  else m ← km_free_page (kstack p) (mem k); mret (set_proc i (with_image (mm p) 0 (entry p) p) (with_mem m k)).

(** ** Sleeping and waking *)

(** [p->state = RUNNABLE; p->chan = 0; p->wakeup_tick = 0;
    task_queue_enqueue_locked(p);] *)
Definition make_runnable i k : outcome (ksys Mem) :=
  p ← get_proc i k; enqueue i (set_proc i (with_sched RUNNABLE None 0 p) k).

(** The section of [sleep], and of the other functions that sleep on a channel. *)
Definition sleep_locked me (ch : channel) k : outcome (ksys Mem) :=
  p ← get_proc me k; mret (set_proc me (with_sched SLEEPING (Some ch) 0 p) k).

Definition sleep me (ch : option channel) k : outcome (ksys Mem) :=
  match ch with None => Panic "sleep: null chan" | Some ch => sleep_locked me ch k end.

Definition sleeps_on (ch : channel) (p : proc) : bool :=
  bool_decide (state p = SLEEPING) && bool_decide (chan p = Some ch).

Definition wakeup (ch : option channel) k : outcome (ksys Mem) :=
  match ch with
  | None => mret k
  | Some ch =>
      each (seq 0 NPROC) (λ i k, p ← get_proc i k; if sleeps_on ch p then make_runnable i k else mret k) k
  end.

(** [None]: the deadline has passed, the caller does not sleep. *)
Definition sleep_deadline me (deadline : Z) k : outcome (option (ksys Mem)) :=
  if deadline <=? ticks k then mret None
  else p ← get_proc me k; mret (Some (set_proc me (with_sched SLEEPING None deadline p) k)).

Definition sleep_ticks me (nticks : Z) k : outcome (option (ksys Mem)) :=
  if nticks =? 0 then mret None else sleep_deadline me (u32 (ticks k + nticks)) k.

Definition yield_locked me k : outcome (ksys Mem) :=
  p ← get_proc me k; enqueue me (set_proc me (with_state RUNNABLE p) k).

Definition due (now : Z) (p : proc) : bool :=
  bool_decide (state p = SLEEPING) && negb (wakeup_tick p =? 0) && (wakeup_tick p <=? now).

(** The first half of [sched_tick]. *)
Definition wake_due k : outcome (ksys Mem) :=
  each (seq 0 NPROC) (λ i k', p ← get_proc i k'; if due (ticks k) p then make_runnable i k' else mret k') k.

(** The second half: whether [need_resched] is raised for the process [cur] of
    this CPU. *)
Definition tick_resched (cur : option nat) k : outcome bool :=
  match cur with
  | None => mret false
  | Some c =>
      p ← get_proc c k;
      if bool_decide (state p = RUNNING) then e ← task_queue_empty_locked (nodes k); mret (negb e) else mret false
  end.

(** [timer_handler] of kernel/timer.c; the result is the new [need_resched]. *)
Definition timer_handler (cur : option nat) (need : bool) k : outcome (bool * ksys Mem) :=
  k ← wake_due (with_ticks (u32 (ticks k + 1)) k);
  b ← tick_resched cur k;
  mret (need || b, k).

(** [should_preempt], for the process [cur] of a CPU that holds no lock: the
    answer and the new [need_resched]. *)
Definition should_preempt (cur : option nat) (need : bool) k : outcome (bool * bool) :=
  if negb need then mret (false, need)
  else
    match cur with
    | None => mret (false, need)
    | Some c =>
        p ← get_proc c k;
        if negb (bool_decide (state p = RUNNING)) then mret (false, need)
        else e ← task_queue_empty_locked (nodes k); if e : bool then mret (false, false) else mret (true, need)
    end.

(** ** Creating and freeing *)

(** [nextpid++] *)
Definition alloc_pid k : Z * ksys Mem := (nextpid k, with_nextpid (s32 (nextpid k + 1)) k).

Fixpoint proc_alloc_from (l : list nat) k : outcome (option nat * ksys Mem) :=
  match l with
  | [] => mret (None, k)
  | i :: l =>
      p ← get_proc i k;
      if negb (bool_decide (state p = UNUSED)) then proc_alloc_from l k
      else
        b ← on_list i (nodes k);
        if b : bool then Panic "proc_alloc: proc on list"
        else
          let '(d, k) := alloc_pid (with_nodes (INIT_LIST_HEAD (Some i) (nodes k)) k) in
          mret (Some i, set_proc i (with_state USED (with_ident d None 0 [] zero_proc)) k)
  end.

Definition proc_alloc k : outcome (option nat * ksys Mem) := proc_alloc_from (seq 1 (NPROC - 1)) k.

Definition proc_drop_mm i k : outcome (ksys Mem) :=
  p ← get_proc i k;
  match mm p with
  | None => mret k
  | Some m => mem' ← km_drop_mm m (mem k); mret (set_proc i (with_image None (kstack p) (entry p) p) (with_mem mem' k))
  end.

Definition proc_free i k : outcome (ksys Mem) :=
  p ← get_proc i k;
  if bool_decide (state p = UNUSED) then mret k
  else
    k ← proc_drop_mm i k;
    k ← free_kstack i k;
    k ← unlink i k;
    p ← get_proc i k;
    mret (set_proc i (with_state UNUSED (with_ident 0 None 0 [] (with_image (mm p) (kstack p) false p))) k).

(** [proc_name_set] keeps at most [NNAME - 1] characters. *)
Definition proc_name_set (src : list Z) : list Z := take 255 src.

(** [p->state = RUNNABLE; task_queue_enqueue_locked(p)] of a process just built. *)
Definition start_proc i k : outcome (ksys Mem) :=
  p ← get_proc i k; enqueue i (set_proc i (with_state RUNNABLE p) k).

(** [p->kstack = alloc_page()], and whether there was a page. *)
Definition alloc_kstack i k : outcome (bool * ksys Mem) :=
  '(ks, m) ← km_alloc_page (mem k);
  p ← get_proc i k;
  mret (negb (ks =? 0), set_proc i (with_image (mm p) ks (entry p) p) (with_mem m k)).

(** What [kthread_create_sync] does to the slot [i] it was given, before the
    last section. *)
Definition kthread_build i (nm : option (list Z)) (par : option nat) k : outcome (bool * ksys Mem) :=
  '(b, k) ← alloc_kstack i k;
  if negb b then k ← proc_free i k; mret (false, k)
  else
    p ← get_proc i k;
    let p := with_image (mm p) (kstack p) true p in
    mret (true, set_proc i (with_ident (pid p) (if par then par else parent p) (xstate p)
                                       (from_option proc_name_set (name p) nm) p) k).

Definition kthread_create_sync (nm : option (list Z)) (par : option nat) k : outcome (option nat * ksys Mem) :=
  '(r, k) ← proc_alloc k;
  match r with
  | None => mret (None, k)
  | Some i =>
      '(b, k) ← kthread_build i nm par k;
      if negb b then mret (None, k) else k ← start_proc i k; mret (Some i, k)
  end.

Fixpoint proc_find_from (l : list nat) (d : Z) k : outcome (option nat) :=
  match l with
  | [] => mret None
  | i :: l =>
      p ← get_proc i k;
      if (pid p =? d) && negb (bool_decide (state p = UNUSED)) then mret (Some i) else proc_find_from l d k
  end.

Definition proc_find (d : Z) k : outcome (option nat) := proc_find_from (seq 0 NPROC) d k.

(** ** Leaving *)

Definition zombie_reap_locked i k : outcome (ksys Mem) :=
  p ← get_proc i k;
  if negb (bool_decide (state p = ZOMBIE)) then mret k
  else
    k ← unlink i k;
    k ← free_kstack i k;
    p ← get_proc i k;
    mret (set_proc i (with_state UNUSED (with_ident 0 None 0 [] (with_image None (kstack p) (entry p) p))) k).

(** [reparent(p)]: the children of [me] become [init]'s. *)
Definition reparent me k : outcome (ksys Mem) :=
  each (seq 0 NPROC) (λ i k,
    p ← get_proc i k;
    mret (if bool_decide (parent p = Some me) && negb (bool_decide (state p = UNUSED))
          then set_proc i (with_parent (initproc k) p) k else k)) k.

(** The status words of [exit] and [exit_signal]. *)
Definition exit_status (status : Z) : Z := Z.shiftl (Z.land status 0xff) 8.
Definition exit_signal_status (sig : Z) : Z := Z.land (if sig <? 1 then 1 else sig) 0x7f.

(** The section of [exit_with_xstate]; the result is the parent to wake. *)
Definition exit_locked me (x : Z) k : outcome (option nat * ksys Mem) :=
  p ← get_proc me k;
  let par := parent p in
  k ← reparent me k;
  p ← get_proc me k;
  k ← unlink me (set_proc me (with_ident (pid p) (parent p) x (name p) p) k);
  p ← get_proc me k;
  mret (par, set_proc me (with_state ZOMBIE p) k).

(** The section of [kthread_exit]. *)
Definition kthread_exit_locked me k : outcome (ksys Mem) :=
  if bool_decide (initproc k = Some me) then Panic "init exiting"
  else if bool_decide (kthreadd_task k = Some me) then Panic "kthreadd exiting"
  else
    p ← get_proc me k;
    mret (set_proc me (with_state UNUSED (with_ident 0 (parent p) (xstate p) [] (with_image (mm p) (kstack p) false p))) k).

(** ** Waiting *)

Inductive wait_result := Reaped (d x : Z) | NoChild | MustSleep.

(** The scan of [wait_child] by process [me], with its [havekids] and
    [fg_child] so far. *)
Fixpoint wait_scan_from (l : list nat) me (d : Z) (havekids : bool) (fg : Z) k : outcome (wait_result * ksys Mem) :=
  match l with
  | [] =>
      pm ← get_proc me k;
      if negb havekids then mret (NoChild, console_set_fg (pid pm) k)
      else mret (MustSleep, if fg =? 0 then k else console_set_fg fg k)
  | i :: l =>
      p ← get_proc i k;
      if negb (bool_decide (parent p = Some me)) || bool_decide (state p = UNUSED) then wait_scan_from l me d havekids fg k
      else if negb (bool_decide (state p = ZOMBIE)) then
        wait_scan_from l me d true (if (fg =? 0) && ((d =? -1) || (pid p =? d)) then pid p else fg) k
      else if negb (d =? -1) && negb (pid p =? d) then wait_scan_from l me d true fg k
      else
        k ← zombie_reap_locked i k;
        pm ← get_proc me k;
        mret (Reaped (pid p) (xstate p), console_set_fg (pid pm) k)
  end.

Definition wait_scan me (d : Z) k : outcome (wait_result * ksys Mem) :=
  wait_scan_from (seq 0 NPROC) me d false 0 k.

(** ** The scheduler *)

(** The section of [scheduler]'s loop, with [prepare_context]'s demand for a
    kernel stack. *)
Definition scheduler_pick k : outcome (option nat * ksys Mem) :=
  '(r, h) ← task_queue_dequeue_locked (nodes k);
  let k := with_nodes h k in
  match r with
  | None => mret (None, k)
  | Some i =>
      p ← get_proc i k;
      if negb (bool_decide (state p = RUNNABLE)) then Panic "scheduler: dequeued non-runnable proc"
      else if kstack p =? 0 then Panic "prepare_context: no kstack"
      else mret (Some i, set_proc i (with_state RUNNING p) k)
  end.

(** Back in [scheduler], after [prev] switched away: [kthread_reap]. *)
Definition scheduler_back (prev : nat) k : outcome (ksys Mem) :=
  p ← get_proc prev k;
  if bool_decide (state p = UNUSED) then free_kstack prev k else mret k.

(** "swapper|idle" *)
Definition swapper_name : list Z := [115; 119; 97; 112; 112; 101; 114; 124; 105; 100; 108; 101].

(** [procinit], on a table of zeroed PCBs: slot 0 is the swapper. *)
Definition procinit (m : Mem) : ksys Mem :=
  Ksys (init_nodes NPROC (task_queue_init ∅))
       (<[0%nat := with_state USED (with_ident 0 (Some 0%nat) 0 swapper_name zero_proc)]> (replicate NPROC zero_proc))
       1 None None 0 0 m.

(** ** [rest_init] of kernel/init.c *)

(** "init" and "kthreadd" *)
Definition init_name : list Z := [105; 110; 105; 116].
Definition kthreadd_name : list Z := [107; 116; 104; 114; 101; 97; 100; 100].

Definition with_tasks (ini kt : option nat) k : ksys Mem :=
  Ksys (nodes k) (procs k) (nextpid k) ini kt (ticks k) (fg_pid k) (mem k).

(** [p->parent = swapper] *)
Definition under_swapper i k : outcome (ksys Mem) :=
  p ← get_proc i k; mret (set_proc i (with_parent (Some 0%nat) p) k).

Definition rest_init k : outcome (ksys Mem) :=
  '(r, k) ← kthread_create_sync (Some init_name) None k;
  match r with
  | None => Panic "rest_init: create init failed"
  | Some i =>
      k ← under_swapper i (with_tasks (Some i) None k);
      '(r, k) ← kthread_create_sync (Some kthreadd_name) (Some i) k;
      match r with
      | None => Panic "rest_init: create kthreadd failed"
      | Some j => under_swapper j (with_tasks (Some i) (Some j) k)
      end
  end.

End Proc.
