(* ===== verification/ProcInv.v ===== *)
(** [ProcInv]: the invariant of the process table and its run queue, and what
    each section of [Proc] does to it.

    [sched_ok k q]: the run queue is the sequence [q], and it holds exactly the
    runnable processes, each once.  The lemmas give the result of a section as
    an equation on the table, so that they serve as its functional
    specification as well. *)
From Stdlib Require Import ZArith Lia.
From stdpp Require Import numbers strings gmap list.
From S2P Require Import Prelude ListHead MemLayout Buddy Vm Mmap UserMem TaskQueue Proc.
Open Scope Z_scope.

Record sched_ok {Mem} (k : ksys Mem) (q : list nat) : Prop := {
  so_len : length (procs k) = NPROC;
  so_tq : tq NPROC (nodes k) q;
  so_q i p : procs k !! i = Some p → (i ∈ q ↔ state p = RUNNABLE);
  so_stack i p : procs k !! i = Some p →
    state p = RUNNABLE ∨ state p = RUNNING ∨ state p = SLEEPING → kstack p ≠ 0
}.

(** Project the fields of an updated state. *)
Ltac ks := cbn [set_proc with_procs with_nodes with_mem with_nextpid with_ticks console_set_fg
                procs nodes nextpid initproc kthreadd_task ticks fg_pid mem] in *.

(** What waking does to a process. *)
Definition woken (p : proc) : proc := with_sched RUNNABLE None 0 p.

(** The slots of [l] whose process satisfies [sel], in table order. *)
Definition chosen (sel : proc → bool) (l : list proc) : list nat :=
  filter (λ i, from_option sel false (l !! i) = true) (seq 0 (length l)).

Section ProcInv.
Context {Mem : Type} `{KernelMem Mem}.
Implicit Types (k : ksys Mem) (q : list nat) (i : nat).

Lemma get_proc_ok k i p : procs k !! i = Some p → get_proc i k = Done p.
Proof. unfold get_proc. by intros ->. Qed.

Lemma sched_lt k q i p : sched_ok k q → procs k !! i = Some p → (i < NPROC)%nat.
Proof. intros Hk Hi. rewrite <- (so_len _ _ Hk). by eapply lookup_lt_Some. Qed.

Lemma sched_slot k q i : sched_ok k q → (i < NPROC)%nat → is_Some (procs k !! i).
Proof. intros Hk Hi. apply lookup_lt_is_Some. by rewrite (so_len _ _ Hk). Qed.

Lemma lookup_set_eq k i p p' : procs k !! i = Some p → <[i := p']> (procs k) !! i = Some p'.
Proof. intros Hi. apply list_lookup_insert_eq. by eapply lookup_lt_Some. Qed.

(** A change of one slot that does not make it enter or leave the queue. *)
Lemma sched_set k q i p p' : sched_ok k q → procs k !! i = Some p →
  (state p' = RUNNABLE ↔ state p = RUNNABLE) →
  (state p' = RUNNABLE ∨ state p' = RUNNING ∨ state p' = SLEEPING → kstack p' ≠ 0) →
  sched_ok (set_proc i p' k) q.
Proof.
  intros [H1 H2 H3 H4] Hi Hst Hks. split; ks; [by rewrite length_insert|done| |].
  - intros j r [(-> & <- & _)|[_ Hj]]%list_lookup_insert_Some; [|by eauto]. by rewrite Hst, (H3 _ _ Hi).
  - intros j r [(-> & <- & _)|[_ Hj]]%list_lookup_insert_Some; [done|]. by eauto.
Qed.

(** A process that becomes runnable joins the queue's tail. *)
Lemma enqueue_runnable k q i p p' : sched_ok k q → procs k !! i = Some p → state p ≠ RUNNABLE →
  state p' = RUNNABLE → kstack p' ≠ 0 →
  ∃ h, enqueue i (set_proc i p' k) = Done (set_proc i p' (with_nodes h k)) ∧
    sched_ok (set_proc i p' (with_nodes h k)) (q ++ [i]).
Proof.
  intros Hk Hi Hne Hst Hks. pose proof (sched_lt k q i p Hk Hi) as Hlt. destruct Hk as [H1 H2 H3 H4].
  unfold enqueue. erewrite get_proc_ok by (eapply lookup_set_eq, Hi). run. rewrite Hst.
  destruct (enqueue_ok H2 i Hlt) as (h & Hrun & Hq); [by rewrite (H3 _ _ Hi)|].
  cbn [set_proc with_procs nodes]. rewrite Hrun. run. exists h. split; [done|]. split; ks; [by rewrite length_insert|done| |].
  - intros j r [(<- & <- & _)|[Hji Hj]]%list_lookup_insert_Some; rewrite elem_of_app, list_elem_of_singleton.
    + rewrite Hst. split; [done|by right].
    + rewrite (H3 _ _ Hj). naive_solver.
  - intros j r [(-> & <- & _)|[_ Hj]]%list_lookup_insert_Some; [done|]. by eauto.
Qed.

Lemma make_runnable_ok k q i p : sched_ok k q → procs k !! i = Some p → state p = SLEEPING →
  ∃ h, make_runnable i k = Done (set_proc i (woken p) (with_nodes h k)) ∧
    sched_ok (set_proc i (woken p) (with_nodes h k)) (q ++ [i]).
Proof.
  intros Hk Hi Hs. unfold make_runnable. rewrite (get_proc_ok k i p) by done. run.
  eapply enqueue_runnable; try done; [by rewrite Hs|]. apply (so_stack _ _ Hk i p); auto.
Qed.

(** ** Waking every process that satisfies [sel] *)

Definition wake_where (sel : proc → bool) k : outcome (ksys Mem) :=
  each (seq 0 NPROC) (λ i k, p ← get_proc i k; if sel p then make_runnable i k else mret k) k.

Definition wake_proc (sel : proc → bool) (p : proc) : proc := if sel p then woken p else p.

Lemma filter_seq_S (P : nat → Prop) `{∀ x, Decision (P x)} n :
  filter P (seq 0 (S n)) = filter P (seq 0 n) ++ (if decide (P n) then [n] else []).
Proof. rewrite seq_S, filter_app. cbn [Nat.add]. f_equal. Qed.

Lemma wake_where_ok sel k q : (∀ p, sel p = true → state p = SLEEPING) → sched_ok k q →
  ∃ h, wake_where sel k = Done (with_procs (wake_proc sel <$> procs k) (with_nodes h k)) ∧
    sched_ok (with_procs (wake_proc sel <$> procs k) (with_nodes h k)) (q ++ chosen sel (procs k)).
Proof.
  intros Hsel Hk. set (l := procs k).
  assert (length l = NPROC) as Hlen by apply Hk.
  pose (upto n := map_upto (wake_proc sel) n l).
  destruct (each_rule (λ i k, p ← get_proc i k; if sel p then make_runnable i k else mret k)
    (λ n k', ∃ h, k' = with_procs (upto n) (with_nodes h k) ∧
       sched_ok k' (q ++ filter (λ i, from_option sel false (l !! i) = true) (seq 0 n))) NPROC 0 k)
    as (k' & Hrun & h & -> & Hok).
  - exists (nodes k). unfold upto. cbn [seq filter list_filter]. rewrite app_nil_r. by destruct k.
  - intros n k' [_ Hn] (h & -> & Hok). cbn [Nat.add] in Hn.
    destruct (lookup_lt_is_Some_2 l n) as [p Hp]; [lia|].
    assert (upto n !! n = Some p) as Hup by (by apply map_upto_lookup).
    assert (upto (S n) = <[n := wake_proc sel p]> (upto n)) as HS by (by apply map_upto_S).
    rewrite (get_proc_ok _ n p) by exact Hup. run. rewrite filter_seq_S, app_assoc.
    destruct (sel p) eqn:Hs.
    + destruct (make_runnable_ok _ _ n p Hok Hup (Hsel p Hs)) as (h' & -> & Hok').
      eexists. split; [done|]. exists h'. rewrite decide_True by (by rewrite Hp). split; [|exact Hok'].
      rewrite HS. unfold wake_proc. rewrite Hs. done.
    + eexists. split; [done|]. exists h. rewrite decide_False by (rewrite Hp; cbn; congruence).
      rewrite app_nil_r. split; [|exact Hok]. rewrite HS. unfold wake_proc. rewrite Hs, list_insert_id by done. done.
  - cbn [Nat.add] in *. exists h.
    assert (upto NPROC = wake_proc sel <$> l) as <- by (apply map_upto_all; lia).
    unfold chosen. rewrite Hlen. split; [exact Hrun|exact Hok].
Qed.

Lemma wakeup_ok ch k q : sched_ok k q →
  ∃ h, wakeup (Some ch) k = Done (with_procs (wake_proc (sleeps_on ch) <$> procs k) (with_nodes h k)) ∧
    sched_ok (with_procs (wake_proc (sleeps_on ch) <$> procs k) (with_nodes h k)) (q ++ chosen (sleeps_on ch) (procs k)).
Proof.
  apply wake_where_ok. intros p [Hs _]%andb_true_iff. by apply bool_decide_eq_true in Hs.
Qed.

Lemma wake_due_ok k q : sched_ok k q →
  ∃ h, wake_due k = Done (with_procs (wake_proc (due (ticks k)) <$> procs k) (with_nodes h k)) ∧
    sched_ok (with_procs (wake_proc (due (ticks k)) <$> procs k) (with_nodes h k)) (q ++ chosen (due (ticks k)) (procs k)).
Proof.
  apply wake_where_ok. intros p [[Hs _]%andb_true_iff _]%andb_true_iff. by apply bool_decide_eq_true in Hs.
Qed.

(** ** One process *)

Lemma with_nodes_id k : with_nodes (nodes k) k = k.
Proof. by destruct k. Qed.

Lemma set_set k i p p' : set_proc i p (set_proc i p' k) = set_proc i p k.
Proof. destruct k. unfold set_proc, with_procs. cbn. by rewrite list_insert_insert_eq. Qed.

Lemma unlink_id k q i p : sched_ok k q → procs k !! i = Some p → state p ≠ RUNNABLE → unlink i k = Done k.
Proof.
  intros Hk Hi Hne. unfold unlink, task_queue_unlink_locked.
  rewrite (on_list_ok (so_tq _ _ Hk)) by (by eapply sched_lt). run.
  rewrite bool_decide_false by (by rewrite (so_q _ _ Hk _ _ Hi)). run. by rewrite with_nodes_id.
Qed.

Lemma sleep_ok k q me p ch : sched_ok k q → procs k !! me = Some p → state p = RUNNING →
  sleep_locked me ch k = Done (set_proc me (with_sched SLEEPING (Some ch) 0 p) k) ∧
  sched_ok (set_proc me (with_sched SLEEPING (Some ch) 0 p) k) q.
Proof.
  intros Hk Hp Hst. unfold sleep_locked. rewrite (get_proc_ok _ _ _ Hp). run. split; [done|].
  eapply sched_set; [done..| |].
  - cbn. rewrite Hst. done.
  - intros _. apply (so_stack _ _ Hk me p); auto.
Qed.

Lemma sleep_deadline_ok k q me p d : sched_ok k q → procs k !! me = Some p → state p = RUNNING →
  ticks k < d →
  sleep_deadline me d k = Done (Some (set_proc me (with_sched SLEEPING None d p) k)) ∧
  sched_ok (set_proc me (with_sched SLEEPING None d p) k) q.
Proof.
  intros Hk Hp Hst Hd. unfold sleep_deadline. rewrite (proj2 (Z.leb_gt _ _) Hd).
  rewrite (get_proc_ok _ _ _ Hp). run. split; [done|]. eapply sched_set; [done..| |].
  - cbn. rewrite Hst. done.
  - intros _. apply (so_stack _ _ Hk me p); auto.
Qed.

Lemma yield_ok k q me p : sched_ok k q → procs k !! me = Some p → state p = RUNNING →
  ∃ h, yield_locked me k = Done (set_proc me (with_state RUNNABLE p) (with_nodes h k)) ∧
    sched_ok (set_proc me (with_state RUNNABLE p) (with_nodes h k)) (q ++ [me]).
Proof.
  intros Hk Hp Hst. unfold yield_locked. rewrite (get_proc_ok _ _ _ Hp). run.
  eapply enqueue_runnable; try done; [by rewrite Hst|]. apply (so_stack _ _ Hk me p); auto.
Qed.

Lemma start_ok k q i p : sched_ok k q → procs k !! i = Some p → state p = USED → kstack p ≠ 0 →
  ∃ h, start_proc i k = Done (set_proc i (with_state RUNNABLE p) (with_nodes h k)) ∧
    sched_ok (set_proc i (with_state RUNNABLE p) (with_nodes h k)) (q ++ [i]).
Proof.
  intros Hk Hp Hst Hks. unfold start_proc. rewrite (get_proc_ok _ _ _ Hp). run.
  eapply enqueue_runnable; try done. by rewrite Hst.
Qed.

(** The head of the queue is runnable, has a stack, and is taken. *)
Lemma pick_ok k q : sched_ok k q →
  match q with
  | [] => ∃ h, scheduler_pick k = Done (None, with_nodes h k) ∧ sched_ok (with_nodes h k) []
  | i :: q => ∃ h p, procs k !! i = Some p ∧ state p = RUNNABLE ∧
      scheduler_pick k = Done (Some i, set_proc i (with_state RUNNING p) (with_nodes h k)) ∧
      sched_ok (set_proc i (with_state RUNNING p) (with_nodes h k)) q
  end.
Proof.
  intros Hk. destruct (dequeue_ok _ _ _ (so_tq _ _ Hk)) as (h & Hrun & Hq). unfold scheduler_pick.
  rewrite Hrun. run. destruct Hk as [H1 H2 H3 H4]. destruct q as [|i q]; cbn [head tail] in *.
  { exists h. split; [done|]. by split. }
  destruct (lookup_lt_is_Some_2 (procs k) i) as [p Hp].
  { rewrite H1. apply (tq_bound _ _ _ H2). by left. }
  assert (state p = RUNNABLE) as Hst by (apply (H3 i p Hp); by left).
  exists h, p. rewrite (get_proc_ok (with_nodes h k) i p Hp). run. rewrite Hst.
  rewrite (proj2 (Z.eqb_neq (kstack p) 0)) by (apply (H4 i p Hp); auto).
  rewrite bool_decide_true by done. cbn [negb]. split_and!; [done..|].
  pose proof (tq_nodup _ _ _ H2) as [Hni _]%NoDup_cons.
  split; ks; [by rewrite length_insert|done| |].
  - intros j r [(<- & <- & _)|[Hji Hj]]%list_lookup_insert_Some; [done|].
    rewrite <- (H3 _ _ Hj), elem_of_cons. naive_solver.
  - intros j r [(<- & <- & _)|[Hji Hj]]%list_lookup_insert_Some; [|by eauto].
    intros _. apply (H4 i p Hp); auto.
Qed.

(** ** Slots *)

(** A fresh PCB, as [proc_alloc] hands it out. *)
Definition fresh_proc (d : Z) : proc := with_state USED (with_ident d None 0 [] zero_proc).

Lemma sched_detached k q i p : sched_ok k q → procs k !! i = Some p → state p ≠ RUNNABLE →
  tq NPROC (INIT_LIST_HEAD (Some i) (nodes k)) q.
Proof.
  intros Hk Hi Hne. pose proof (sched_lt _ _ _ _ Hk Hi) as Hlt. destruct (so_tq _ _ Hk) as [(L & HR & Hh & Hd) Hnd Hb].
  assert (i ∉ q) as Hnin by (by rewrite (so_q _ _ Hk _ _ Hi)).
  split; [|done..]. exists (<[Some i := []]> L). split_and!.
  - apply INIT_LIST_HEAD_repr; [done|]. right. by apply Hd.
  - by rewrite lookup_insert_ne.
  - intros j Hj Hjn. destruct (decide (j = i)) as [->|]; [apply lookup_insert_eq|].
    rewrite lookup_insert_ne by congruence. by apply Hd.
Qed.

Lemma proc_alloc_from_ok k q l : sched_ok k q → Forall (λ i, (i < NPROC)%nat) l →
  (proc_alloc_from l k = Done (None, k) ∧ (∀ i p, i ∈ l → procs k !! i = Some p → state p ≠ UNUSED)) ∨
  (∃ i p h, i ∈ l ∧ procs k !! i = Some p ∧ state p = UNUSED ∧
     proc_alloc_from l k = Done (Some i, set_proc i (fresh_proc (nextpid k)) (with_nextpid (s32 (nextpid k + 1)) (with_nodes h k))) ∧
     sched_ok (set_proc i (fresh_proc (nextpid k)) (with_nextpid (s32 (nextpid k + 1)) (with_nodes h k))) q).
Proof.
  intros Hk. induction l as [|i l IH]; intros Hl.
  { left. split; [done|]. by intros i p ?%elem_of_nil. }
  apply Forall_cons in Hl as [Hi Hl]. cbn [proc_alloc_from].
  destruct (sched_slot k q i Hk Hi) as [p Hp]. rewrite (get_proc_ok k i p Hp). run.
  destruct (decide (state p = UNUSED)) as [Hst|Hst].
  - right. rewrite bool_decide_true by done. cbn [negb].
    rewrite (on_list_ok (so_tq _ _ Hk)) by done. run.
    assert (i ∉ q) as Hnin by (rewrite (so_q _ _ Hk _ _ Hp), Hst; done).
    rewrite bool_decide_false by done. exists i, p, (INIT_LIST_HEAD (Some i) (nodes k)).
    split_and!; [by left|done..|]. pose proof Hk as [H1 H2 H3 H4].
    eapply (sched_set (with_nextpid (s32 (nextpid k + 1)) (with_nodes (INIT_LIST_HEAD (Some i) (nodes k)) k)));
      [split; ks|exact Hp|by rewrite Hst|cbn; naive_solver].
    + done.
    + eapply sched_detached; [by split|exact Hp|by rewrite Hst].
    + done.
    + done.
  - rewrite bool_decide_false by done. cbn [negb].
    destruct (IH Hl) as [[Hrun Hall]|(j & r & h & Hj & Hrest)].
    + left. split; [done|]. intros j r [-> | Hj]%elem_of_cons Hr; [by simplify_eq|by eauto].
    + right. exists j, r, h. split; [by right|done].
Qed.

Lemma proc_alloc_ok k q : sched_ok k q →
  (proc_alloc k = Done (None, k) ∧ (∀ i p, (1 ≤ i)%nat → procs k !! i = Some p → state p ≠ UNUSED)) ∨
  (∃ i p h, (1 ≤ i < NPROC)%nat ∧ procs k !! i = Some p ∧ state p = UNUSED ∧
     proc_alloc k = Done (Some i, set_proc i (fresh_proc (nextpid k)) (with_nextpid (s32 (nextpid k + 1)) (with_nodes h k))) ∧
     sched_ok (set_proc i (fresh_proc (nextpid k)) (with_nextpid (s32 (nextpid k + 1)) (with_nodes h k))) q).
Proof.
  intros Hk. destruct (proc_alloc_from_ok k q (seq 1 (NPROC - 1)) Hk) as [[Hrun Hall]|(i & p & h & Hi & Hrest)].
  - apply Forall_forall. intros i Hi%elem_of_seq. unfold NPROC in *. lia.
  - left. split; [done|]. intros i p Hi Hp. apply (Hall i p); [|done]. apply elem_of_seq.
    pose proof (sched_lt _ _ _ _ Hk Hp). lia.
  - right. exists i, p, h. split; [|done]. apply elem_of_seq in Hi. unfold NPROC in *. lia.
Qed.

End ProcInv.

(** ** The memory processes own *)

(** What memory management promises: [km_inv m S A] says that [m] is
    consistent, that the pages [S] are held as kernel stacks and that [A] are
    the directories of the live address spaces. *)
Class KernelMemLaws (Mem : Type) `{KernelMem Mem} := {
  km_inv : Mem → list Z → list Z → Prop;
  km_inv_perm m S S' A A' : S ≡ₚ S' → A ≡ₚ A' → km_inv m S A → km_inv m S' A';
  km_alloc_law m S A : km_inv m S A →
    ∃ a m', km_alloc_page m = Done (a, m') ∧ km_inv m' (if a =? 0 then S else a :: S) A;
  km_free_law m a S A : km_inv m (a :: S) A → ∃ m', km_free_page a m = Done m' ∧ km_inv m' S A;
  km_fork_law m x S A : km_inv m S (pgdir x :: A) → (length A < NPROC)%nat →
    ∃ r m', km_fork_mm x m = Done (r, m') ∧
      km_inv m' S (from_option (λ y, [pgdir y.1]) [] r ++ pgdir x :: A);
  km_shm_law m y x S A : km_inv m S (pgdir y :: pgdir x :: A) →
    ∃ y' m', km_shm_fork_fix y x m = Done (y', m') ∧ pgdir y' = pgdir y ∧ km_inv m' S (pgdir y :: pgdir x :: A);
  km_exec_law m img S A : km_inv m S A →
    ∃ r m', km_exec_mm img m = Done (r, m') ∧ km_inv m' S (from_option (λ y, [pgdir y]) [] r ++ A);
  km_drop_law m x S A : km_inv m S (pgdir x :: A) → ∃ m', km_drop_mm x m = Done m' ∧ km_inv m' S A
}.

Definition own_stack (p : proc) : list Z := if kstack p =? 0 then [] else [kstack p].
Definition own_space (p : proc) : list Z := from_option (λ m, [pgdir m]) [] (mm p).

Definition kmem_ok {Mem} `{KernelMemLaws Mem} (k : ksys Mem) : Prop :=
  km_inv (mem k) (procs k ≫= own_stack) (procs k ≫= own_space).

Lemma bind_slot {A B} (f : A → list B) i p (l : list A) : l !! i = Some p →
  ∃ R, l ≫= f ≡ₚ f p ++ R ∧ ∀ p', <[i := p']> l ≫= f ≡ₚ f p' ++ R.
Proof.
  intros Hi. exists ((take i l ≫= f) ++ (drop (S i) l ≫= f)). split.
  - rewrite <- (take_drop_middle l i p Hi) at 1. rewrite !bind_app, !bind_cons. solve_Permutation.
  - intros p'. rewrite insert_take_drop by (by eapply lookup_lt_Some). rewrite !bind_app, !bind_cons. solve_Permutation.
Qed.

(** What the other slots own beside slot [i]. *)
Lemma kmem_slot {Mem} `{KernelMemLaws Mem} (k : ksys Mem) i p : procs k !! i = Some p →
  ∃ S A, procs k ≫= own_stack ≡ₚ own_stack p ++ S ∧ procs k ≫= own_space ≡ₚ own_space p ++ A ∧
    (km_inv (mem k) (own_stack p ++ S) (own_space p ++ A) ↔ kmem_ok k) ∧
    ∀ p' m, km_inv m (own_stack p' ++ S) (own_space p' ++ A) ↔ kmem_ok (set_proc i p' (with_mem m k)).
Proof.
  intros Hi. destruct (bind_slot own_stack i p _ Hi) as (S & HS & HS'), (bind_slot own_space i p _ Hi) as (A & HA & HA').
  exists S, A. unfold kmem_ok, set_proc. cbn. split_and!; [done|done| |]; intros; split; apply km_inv_perm; auto; by symmetry.
Qed.

(** A slot after [proc_free] and after [zombie_reap_locked]. *)
Definition freed_proc (p : proc) : proc :=
  with_state UNUSED (with_ident 0 None 0 [] (with_image None 0 false p)).
Definition reaped_proc (p : proc) : proc :=
  with_state UNUSED (with_ident 0 None 0 [] (with_image None 0 (entry p) p)).

(** A process neither on a CPU, nor asleep, nor queued. *)
Definition idle_state (st : procstate) : Prop := st = UNUSED ∨ st = USED ∨ st = ZOMBIE.

Lemma idle_cases st : idle_state st ↔ st ≠ RUNNABLE ∧ st ≠ RUNNING ∧ st ≠ SLEEPING.
Proof. unfold idle_state. destruct st; naive_solver. Qed.

Section Release.
Context {Mem : Type} `{KernelMemLaws Mem}.
Implicit Types (k : ksys Mem) (q : list nat) (i : nat).

Lemma with_mem_id k : with_mem (mem k) k = k.
Proof. by destruct k. Qed.

Lemma set_same k i p : procs k !! i = Some p → set_proc i p k = k.
Proof. intros Hi. destruct k. unfold set_proc, with_procs. ks. by rewrite list_insert_id. Qed.

Lemma lookup_set_proc k i p p' : procs k !! i = Some p → procs (set_proc i p' k) !! i = Some p'.
Proof. intros Hi. ks. by eapply lookup_set_eq. Qed.

Lemma sched_mem k q m : sched_ok k q → sched_ok (with_mem m k) q.
Proof. intros [H1 H2 H3 H4]. by split. Qed.

Lemma kmem_same k i p p' : procs k !! i = Some p → kmem_ok k → kstack p' = kstack p → mm p' = mm p →
  kmem_ok (set_proc i p' k).
Proof.
  intros Hi Hk Hs Hm. destruct (kmem_slot k i p Hi) as (S & A & _ & _ & Hb & Ha).
  rewrite <- (with_mem_id k). apply Ha. unfold own_stack, own_space. rewrite Hs, Hm. by apply Hb.
Qed.

(** A slot that stays idle may change in any way. *)
Lemma sched_idle k q i p p' : sched_ok k q → procs k !! i = Some p → state p ≠ RUNNABLE → idle_state (state p') →
  sched_ok (set_proc i p' k) q.
Proof.
  intros Hk Hi Hne [? [? ?]]%idle_cases. eapply sched_set; [done..|naive_solver].
Qed.

Lemma free_kstack_ok k i p : kmem_ok k → procs k !! i = Some p →
  let p' := with_image (mm p) 0 (entry p) p in
  ∃ m, free_kstack i k = Done (set_proc i p' (with_mem m k)) ∧ kmem_ok (set_proc i p' (with_mem m k)).
Proof.
  intros Hk Hi p'. unfold free_kstack. rewrite (get_proc_ok _ _ _ Hi). run. destruct (Z.eqb_spec (kstack p) 0) as [Hz|Hz].
  - exists (mem k). rewrite with_mem_id. assert (p' = p) as -> by (unfold p'; rewrite <- Hz; by destruct p).
    by rewrite set_same.
  - destruct (kmem_slot k i p Hi) as (S & A & _ & _ & Hb & Ha). apply Hb in Hk.
    unfold own_stack in Hk. rewrite (proj2 (Z.eqb_neq _ _) Hz) in Hk.
    destruct (km_free_law _ _ _ _ Hk) as (m & -> & Hm). run. exists m. split; [done|]. by apply Ha.
Qed.

Lemma proc_drop_mm_ok k i p : kmem_ok k → procs k !! i = Some p →
  let p' := with_image None (kstack p) (entry p) p in
  ∃ m, proc_drop_mm i k = Done (set_proc i p' (with_mem m k)) ∧ kmem_ok (set_proc i p' (with_mem m k)).
Proof.
  intros Hk Hi p'. unfold proc_drop_mm. rewrite (get_proc_ok _ _ _ Hi). run. destruct (mm p) as [x|] eqn:Hx.
  - destruct (kmem_slot k i p Hi) as (S & A & _ & _ & Hb & Ha). apply Hb in Hk.
    unfold own_space in Hk. rewrite Hx in Hk.
    destruct (km_drop_law _ _ _ _ Hk) as (m & -> & Hm). run. exists m. split; [done|]. by apply Ha.
  - exists (mem k). rewrite with_mem_id. assert (p' = p) as -> by (unfold p'; rewrite <- Hx; by destruct p).
    by rewrite set_same.
Qed.

Lemma proc_free_ok k q i p : sched_ok k q → kmem_ok k → procs k !! i = Some p → state p ≠ UNUSED → idle_state (state p) →
  ∃ m, let k' := set_proc i (freed_proc p) (with_mem m k) in proc_free i k = Done k' ∧ sched_ok k' q ∧ kmem_ok k'.
Proof.
  intros Hk Hm Hi Hne Hid. unfold proc_free. rewrite (get_proc_ok _ _ _ Hi). run. rewrite bool_decide_false by done.
  destruct (proc_drop_mm_ok k i p Hm Hi) as (m1 & -> & Hm1). run.
  set (p1 := with_image None (kstack p) (entry p) p) in *.
  assert (procs (set_proc i p1 (with_mem m1 k)) !! i = Some p1) as H1 by (by eapply (lookup_set_proc (with_mem m1 k))).
  destruct (free_kstack_ok _ i p1 Hm1 H1) as (m2 & -> & Hm2). run. cbn [p1 with_image mm entry] in Hm2 |- *.
  change (with_mem m2 (set_proc i p1 (with_mem m1 k))) with (set_proc i p1 (with_mem m2 k)) in *. rewrite set_set in *.
  set (p2 := with_image _ 0 _ p1) in *.
  assert (procs (set_proc i p2 (with_mem m2 k)) !! i = Some p2) as H2 by (by eapply (lookup_set_proc (with_mem m2 k))).
  assert (state p ≠ RUNNABLE) as Hnr by (apply idle_cases in Hid; tauto).
  rewrite (unlink_id _ q i p2); [|eapply (sched_idle (with_mem m2 k)); [by apply sched_mem|exact Hi|done..]|done|done].
  run. rewrite (get_proc_ok _ _ _ H2). run. exists m2. cbn zeta. split; [by rewrite set_set|]. split.
  - eapply (sched_idle (with_mem m2 k)); [by apply sched_mem|exact Hi|done|by left].
  - rewrite <- (set_set _ i _ p2). by eapply kmem_same.
Qed.

Lemma zombie_reap_ok k q i p : sched_ok k q → kmem_ok k → procs k !! i = Some p → state p = ZOMBIE → mm p = None →
  ∃ m, let k' := set_proc i (reaped_proc p) (with_mem m k) in zombie_reap_locked i k = Done k' ∧ sched_ok k' q ∧ kmem_ok k'.
Proof.
  intros Hk Hm Hi Hst Hmm. unfold zombie_reap_locked. rewrite (get_proc_ok _ _ _ Hi). run.
  rewrite bool_decide_true by done. cbn [negb]. assert (state p ≠ RUNNABLE) as Hnr by (by rewrite Hst).
  rewrite (unlink_id k q i p Hk Hi Hnr). run.
  destruct (free_kstack_ok k i p Hm Hi) as (m & -> & Hm'). run.
  set (p1 := with_image _ 0 _ p) in *.
  assert (procs (set_proc i p1 (with_mem m k)) !! i = Some p1) as H1 by (by eapply (lookup_set_proc (with_mem m k))).
  rewrite (get_proc_ok _ _ _ H1). run. exists m. cbn zeta. split; [by rewrite set_set|]. split.
  - eapply (sched_idle (with_mem m k)); [by apply sched_mem|exact Hi|by rewrite Hst|by left].
  - rewrite <- (set_set _ i _ p1). by eapply kmem_same.
Qed.

Lemma back_ok k q i p : sched_ok k q → kmem_ok k → procs k !! i = Some p →
  ∃ k', scheduler_back i k = Done k' ∧ sched_ok k' q ∧ kmem_ok k' ∧
    (state p ≠ UNUSED ∧ k' = k ∨ state p = UNUSED ∧ ∃ m, k' = set_proc i (with_image (mm p) 0 (entry p) p) (with_mem m k)).
Proof.
  intros Hk Hm Hi. unfold scheduler_back. rewrite (get_proc_ok _ _ _ Hi). run. case_bool_decide as Hst; [|exists k; split_and!; try done; by left].
  destruct (free_kstack_ok k i p Hm Hi) as (m & -> & Hm'). eexists. split; [done|]. split; [|eauto].
  eapply (sched_idle (with_mem m k)); [by apply sched_mem|exact Hi|by rewrite Hst|by left].
Qed.

Lemma alloc_kstack_ok k i p : kmem_ok k → procs k !! i = Some p → kstack p = 0 →
  ∃ ks m, let k' := set_proc i (with_image (mm p) ks (entry p) p) (with_mem m k) in
    alloc_kstack i k = Done (negb (ks =? 0), k') ∧ kmem_ok k'.
Proof.
  intros Hk Hi Hz. unfold alloc_kstack. destruct (kmem_slot k i p Hi) as (S & A & _ & _ & Hb & Ha). apply Hb in Hk.
  destruct (km_alloc_law _ _ _ Hk) as (ks & m & -> & Hm). run. rewrite (get_proc_ok k _ _ Hi). run.
  exists ks, m. split; [done|]. apply Ha. unfold own_stack in *. rewrite Hz in Hm. cbn [with_image kstack].
  by destruct (ks =? 0).
Qed.

(** ** Exit *)

(** A child of [me] given to [init]. *)
Definition adopt me (ini : option nat) (p : proc) : proc :=
  if bool_decide (parent p = Some me) && negb (bool_decide (state p = UNUSED)) then with_parent ini p else p.

Lemma sched_map k q f : sched_ok k q →
  (∀ p, state (f p) = state p ∧ kstack (f p) = kstack p) →
  sched_ok (with_procs (f <$> procs k) k) q.
Proof.
  intros [H1 H2 H3 H4] Hf. split; ks; [by rewrite length_fmap|done| |]; intros i p';
    rewrite list_lookup_fmap; intros (p & Hp & ->)%fmap_Some; destruct (Hf p) as [Hs Hk]; rewrite ?Hs, ?Hk; by eauto.
Qed.

Lemma adopt_same me ini p : state (adopt me ini p) = state p ∧ kstack (adopt me ini p) = kstack p.
Proof. unfold adopt. by destruct (_ && _). Qed.

Lemma reparent_ok k q me : sched_ok k q →
  reparent me k = Done (with_procs (adopt me (initproc k) <$> procs k) k).
Proof.
  intros Hk. set (l := procs k). assert (length l = NPROC) as Hlen by apply Hk.
  pose (upto n := map_upto (adopt me (initproc k)) n l). unfold reparent.
  match goal with |- each _ ?body _ = _ =>
    destruct (each_rule body (λ n k', k' = with_procs (upto n) k) NPROC 0 k) as (k' & -> & ->)
  end.
  - unfold upto. cbn [take drop fmap list_fmap app]. by destruct k.
  - intros n k' [_ Hn] ->. cbn [Nat.add] in Hn. destruct (lookup_lt_is_Some_2 l n) as [p Hp]; [lia|].
    assert (upto n !! n = Some p) as Hup by (by apply map_upto_lookup).
    assert (upto (S n) = <[n := adopt me (initproc k) p]> (upto n)) as HS by (by apply map_upto_S).
    rewrite (get_proc_ok _ n p) by exact Hup. run. eexists. split; [done|]. rewrite HS. unfold adopt. ks.
    destruct (_ && _); [done|]. by rewrite list_insert_id.
  - cbn [Nat.add]. f_equal. f_equal. apply map_upto_all. lia.
Qed.

(** The PCB [exit_locked] leaves. *)
Definition zombie_proc (x : Z) (p : proc) : proc :=
  with_state ZOMBIE (with_ident (pid p) (parent p) x (name p) p).

Lemma exit_ok k q me p x : sched_ok k q → procs k !! me = Some p → state p = RUNNING →
  let k1 := with_procs (adopt me (initproc k) <$> procs k) k in
  let k' := set_proc me (zombie_proc x (adopt me (initproc k) p)) k1 in
  exit_locked me x k = Done (parent p, k') ∧ sched_ok k' q.
Proof.
  intros Hk Hp Hst k1 k'. unfold exit_locked. rewrite (get_proc_ok _ _ _ Hp). run.
  rewrite (reparent_ok k q me Hk). run. fold k1.
  assert (sched_ok k1 q) as Hk1 by (apply sched_map; [done|apply adopt_same]).
  set (p1 := adopt me (initproc k) p) in *. destruct (adopt_same me (initproc k) p) as [Hs1 Hks1]. fold p1 in Hs1, Hks1.
  assert (procs k1 !! me = Some p1) as Hp1 by (unfold k1; ks; by rewrite list_lookup_fmap, Hp).
  rewrite (get_proc_ok _ _ _ Hp1). run.
  set (p2 := with_ident _ _ _ _ p1).
  assert (sched_ok (set_proc me p2 k1) q) as Hk2.
  { eapply sched_set; [done..|]. intros _. cbn. rewrite Hks1. apply (so_stack _ _ Hk me p); auto. }
  rewrite (unlink_id _ q me p2 Hk2); [|by eapply lookup_set_proc|cbn; by rewrite Hs1, Hst]. run.
  erewrite get_proc_ok by (by eapply lookup_set_proc). run. rewrite set_set. split; [done|].
  eapply sched_idle; [done..| |by right; right]. by rewrite Hs1, Hst.
Qed.

(** The PCB [kthread_exit_locked] leaves: the stack is still there, the
    scheduler frees it. *)
Definition exited_kthread (p : proc) : proc :=
  with_state UNUSED (with_ident 0 (parent p) (xstate p) [] (with_image (mm p) (kstack p) false p)).

Lemma kthread_exit_ok k q me p : sched_ok k q → procs k !! me = Some p → state p = RUNNING →
  initproc k ≠ Some me → kthreadd_task k ≠ Some me →
  kthread_exit_locked me k = Done (set_proc me (exited_kthread p) k) ∧ sched_ok (set_proc me (exited_kthread p) k) q.
Proof.
  intros Hk Hp Hst Hi Hd. unfold kthread_exit_locked. rewrite !bool_decide_false by done.
  rewrite (get_proc_ok _ _ _ Hp). run. split; [done|].
  eapply sched_idle; [done..|by rewrite Hst|by left].
Qed.

(** ** Wait *)

Definition child me (p : proc) : Prop := parent p = Some me ∧ state p ≠ UNUSED.
Definition zombie_child me (d : Z) (p : proc) : Prop :=
  parent p = Some me ∧ state p = ZOMBIE ∧ (d = -1 ∨ pid p = d).

(** What the scan by [me] for child [d] finds. *)
Definition wait_found me (d : Z) k (r : wait_result) (k' : ksys Mem) : Prop :=
  match r with
  | Reaped d' x => ∃ i p m f, procs k !! i = Some p ∧ zombie_child me d p ∧ d' = pid p ∧ x = xstate p ∧
      (∀ j p', (j < i)%nat → procs k !! j = Some p' → ¬ zombie_child me d p') ∧
      k' = console_set_fg f (set_proc i (reaped_proc p) (with_mem m k))
  | NoChild => (∀ i p, procs k !! i = Some p → ¬ child me p) ∧ ∃ f, k' = console_set_fg f k
  | MustSleep => (∃ i p, procs k !! i = Some p ∧ child me p) ∧
      (∀ i p, procs k !! i = Some p → ¬ zombie_child me d p) ∧ ∃ f, k' = console_set_fg f k
  end.

Lemma set_fg_id k : console_set_fg (fg_pid k) k = k.
Proof. by destruct k. Qed.

Lemma sched_fg k q f : sched_ok k q → sched_ok (console_set_fg f k) q.
Proof. intros [H1 H2 H3 H4]. by split. Qed.

Lemma kmem_fg k f : kmem_ok k → kmem_ok (console_set_fg f k).
Proof. done. Qed.

Definition zombies_bare k : Prop := ∀ i p, procs k !! i = Some p → state p = ZOMBIE → mm p = None.

Lemma wait_scan_from_ok k q me pm d n : sched_ok k q → kmem_ok k → zombies_bare k →
  procs k !! me = Some pm → state pm = RUNNING →
  ∀ a hk fg, (a + n = NPROC)%nat →
  (hk = true → ∃ j p, procs k !! j = Some p ∧ child me p) →
  (hk = false → ∀ j p, (j < a)%nat → procs k !! j = Some p → ¬ child me p) →
  (∀ j p, (j < a)%nat → procs k !! j = Some p → ¬ zombie_child me d p) →
  ∃ r k', wait_scan_from (seq a n) me d hk fg k = Done (r, k') ∧ sched_ok k' q ∧ kmem_ok k' ∧ wait_found me d k r k'.
Proof.
  intros Hk Hm Hbare Hpm Hrun. induction n as [|n IH]; intros a hk fg Ha Hyes Hno Hz; cbn [seq wait_scan_from].
  - rewrite (get_proc_ok _ _ _ Hpm). run. rewrite Nat.add_0_r in Ha. subst a.
    destruct hk; cbn [negb]; eexists _, _; (split; [done|]).
    + split; [by destruct (fg =? 0); [|apply sched_fg]|]. split; [by destruct (fg =? 0)|].
      split; [by apply Hyes|]. split.
      * intros i p Hp. apply (Hz i p); [by eapply sched_lt|done].
      * destruct (fg =? 0); [exists (fg_pid k); by rewrite set_fg_id|by exists fg].
    + split; [by apply sched_fg|]. split; [done|]. split; [|by eexists].
      intros i p Hp. apply (Hno eq_refl i p); [by eapply sched_lt|done].
  - destruct (sched_slot k q a Hk) as [p Hp]; [lia|]. rewrite (get_proc_ok _ _ _ Hp). run.
    assert (∀ (Q : proc → Prop), ¬ Q p → (∀ j r, (j < a)%nat → procs k !! j = Some r → ¬ Q r) →
      ∀ j r, (j < S a)%nat → procs k !! j = Some r → ¬ Q r) as Hext.
    { intros Q HQ Hj j r Hlt Hr. destruct (decide (j = a)) as [->|]; [by simplify_eq|]. apply (Hj j r); [lia|done]. }
    destruct (decide (child me p)) as [[Hpar Hne]|Hnc].
    + rewrite bool_decide_true by done. rewrite (bool_decide_false (state p = UNUSED)) by done. cbn [negb orb].
      assert (∀ fg', ¬ zombie_child me d p → ∃ r k', wait_scan_from (seq (S a) n) me d true fg' k = Done (r, k') ∧
        sched_ok k' q ∧ kmem_ok k' ∧ wait_found me d k r k') as Hnext.
      { intros fg' Hnz. apply IH; [lia| |done|by apply (Hext (zombie_child me d))]. intros _. by exists a, p. }
      case_bool_decide as Hzb; cbn [negb].
      * destruct (negb (d =? -1) && negb (pid p =? d)) eqn:Hd.
        { apply andb_true_iff in Hd as [Hd1%negb_true_iff%Z.eqb_neq Hd2%negb_true_iff%Z.eqb_neq].
          apply Hnext. intros (_ & _ & [?|?]); done. }
        destruct (zombie_reap_ok k q a p Hk Hm Hp Hzb (Hbare _ _ Hp Hzb)) as (m & -> & Hk' & Hm'). run.
        assert (a ≠ me) as Hame by (intros ->; simplify_eq; congruence).
        erewrite get_proc_ok by (ks; rewrite list_lookup_insert_ne by done; exact Hpm). run.
        eexists _, _. split; [done|]. split; [by apply sched_fg|]. split; [done|]. exists a, p, m, (pid pm). split_and!; try done.
        apply andb_false_iff in Hd as [Hd%negb_false_iff%Z.eqb_eq|Hd%negb_false_iff%Z.eqb_eq];
          split_and!; auto.
      * apply Hnext. intros (_ & ? & _). done.
    + replace (negb (bool_decide (parent p = Some me)) || bool_decide (state p = UNUSED)) with true.
      2:{ destruct (decide (parent p = Some me)); [|by rewrite (bool_decide_false (parent p = Some me))].
          rewrite (bool_decide_true (parent p = Some me)), bool_decide_true by (done || apply dec_stable; intros ?; by apply Hnc).
          done. }
      apply IH; [lia|done|intros Hf; apply (Hext (child me)); [done|by apply Hno]|].
      apply (Hext (zombie_child me d)); [|done]. intros (? & Hzz & _). apply Hnc. split; [done|]. by rewrite Hzz.
Qed.

Lemma wait_scan_ok k q me pm d : sched_ok k q → kmem_ok k → zombies_bare k →
  procs k !! me = Some pm → state pm = RUNNING →
  ∃ r k', wait_scan me d k = Done (r, k') ∧ sched_ok k' q ∧ kmem_ok k' ∧ wait_found me d k r k'.
Proof.
  intros Hk Hm Hb Hpm Hst. eapply wait_scan_from_ok; try done; intros; lia.
Qed.
End Release.
