(* ===== verification/Signal.v ===== *)
(** [Signal]: kernel/ipc/signal.c.

    Sending works on the process table under [proc_lock]; delivery works on the
    current process, its trap frame and its user memory (the page pool of [Vm]).
    [heap_ok] says whether [kmalloc] found room for the saved frame, and
    [shm_demand_fault] is the argument of [UserMem].  The saved frame [sigold]
    is kept as a value, its heap block is not tracked. *)
From Stdlib Require Import ZArith Lia.
From stdpp Require Import numbers strings gmap list.
From S2P Require Import Prelude ListHead MemLayout Buddy Vm Mmap UserMem TaskQueue Proc.
Open Scope Z_scope.

Definition SIGKILL : Z := 9.
Definition SIGPIPE : Z := 13.
Definition SIGCHLD : Z := 17.
Definition SIGCONT : Z := 18.
Definition SIGSTOP : Z := 19.
Definition SIG_DFL : Z := 0.
Definition SIG_IGN : Z := 1.
Definition SYS_sigreturn : Z := 119.
Definition DPL_USER : Z := 3.

Definition SIGBIT (sig : Z) : Z := Z.shiftl 1 (sig - 1).
Definition valid_sig (sig : Z) : bool := (1 <=? sig) && (sig <? Z.of_nat NSIG).
Definition sig_fatal_default (sig : Z) : bool := negb ((sig =? SIGCHLD) || (sig =? SIGCONT)).

Definition pending (p : proc) (sig : Z) : bool := negb (Z.land (sigpending p) (SIGBIT sig) =? 0).
Definition with_pending (v : Z) (p : proc) : proc :=
  with_sig v (sigmasked p) (sighand p) (sigold p) (sighandling p) p.

(** [p->sighand[sig]] *)
Definition handler_of (p : proc) (sig : Z) : outcome Z := deref (sighand p !! Z.to_nat sig).

Section Send.
Context {Mem : Type} `{KernelMem Mem}.
Implicit Types (k : ksys Mem) (i : nat).

Definition signal_wake_locked i k : outcome (ksys Mem) :=
  p ← get_proc i k;
  if bool_decide (state p = SLEEPING) then make_runnable i k else mret k.

(** The search of [signal_send]. *)
Fixpoint signal_target (l : list nat) (d : Z) k : outcome (option nat) :=
  match l with
  | [] => mret None
  | i :: l =>
      p ← get_proc i k;
      if (pid p =? d) && negb (bool_decide (state p = UNUSED)) && negb (bool_decide (state p = ZOMBIE))
      then mret (Some i) else signal_target l d k
  end.

(** The PCB after [signal_send] marked [sig] pending. *)
Definition mark_pending (sig : Z) (p : proc) : proc :=
  let p := if sig =? SIGKILL
           then with_sig (sigpending p) (Z.land (sigmasked p) (u32 (Z.lnot (SIGBIT sig))))
                         (<[Z.to_nat sig := SIG_DFL]> (sighand p)) (sigold p) (sighandling p) p
           else p in
  with_pending (Z.lor (sigpending p) (SIGBIT sig)) p.

Definition signal_send (d sig : Z) k : outcome (Z * ksys Mem) :=
  if negb (valid_sig sig) then mret (-1, k)
  else
    r ← signal_target (seq 0 NPROC) d k;
    match r with
    | None => mret (-1, k)
    | Some i =>
        p ← get_proc i k;
        if proc_pagetable (mm p) =? 0 then mret (-1, k)
        else
          k ← signal_wake_locked i (set_proc i (mark_pending sig p) k);
          mret (0, k)
    end.

Definition signal_parent_child_exit i k : outcome (ksys Mem) :=
  c ← get_proc i k;
  match parent c with
  | None => mret k
  | Some j =>
      if bool_decide (j = i) then mret k
      else
        p ← get_proc j k;
        if proc_pagetable (mm p) =? 0 then mret k
        else mret (set_proc j (with_pending (Z.lor (sigpending p) (SIGBIT SIGCHLD)) p) k)
  end.

(** [sys_kill] of process arguments already fetched. *)
Definition sys_kill (d sig : Z) k : outcome (Z * ksys Mem) := signal_send d sig k.

End Send.

(** ** Dispositions *)

(** Signals are tried from 1 up. *)
Fixpoint first_sig (l : list Z) (f : Z → bool) : Z :=
  match l with [] => 0 | s :: l => if f s then s else first_sig l f end.

Definition all_sigs : list Z := seqZ 1 31.

(** [p->sigpending & ~p->sigmasked] *)
Definition deliverable (p : proc) : Z := Z.land (sigpending p) (u32 (Z.lnot (sigmasked p))).

Definition signal_can_interrupt (p : proc) : bool :=
  let bits := deliverable p in
  if bits =? 0 then false
  else existsb (λ sig, negb (Z.land bits (SIGBIT sig) =? 0) &&
                       negb (bool_decide (sighand p !! Z.to_nat sig = Some SIG_IGN))) all_sigs.

Definition signal_fork (np p : proc) : proc := with_sig 0 0 (sighand p) None false np.

Definition signal_exec_reset (p : proc) : proc :=
  with_sig 0 0 ((λ h, if h =? SIG_IGN then h else SIG_DFL) <$> sighand p) None false p.

Definition signal_exit_cleanup (p : proc) : proc :=
  with_sig (sigpending p) (sigmasked p) (sighand p) None false p.

Definition signal_dequeue (p : proc) : Z * proc :=
  let bits := deliverable p in
  if bits =? 0 then (0, p)
  else
    let sig := first_sig all_sigs (λ sig, negb (Z.land bits (SIGBIT sig) =? 0)) in
    if sig =? 0 then (0, p)
    else (sig, with_pending (Z.land (sigpending p) (u32 (Z.lnot (SIGBIT sig)))) p).

Definition sys_signal (sig handler : Z) (p : proc) : outcome (Z * proc) :=
  if negb (valid_sig sig) || (sig =? SIGKILL) || (sig =? SIGSTOP) then mret (-1, p)
  else if negb (handler =? SIG_DFL) && negb (handler =? SIG_IGN) &&
          ((handler <? USERLOAD) || (USEREND <=? handler)) then mret (-1, p)
  else
    old ← handler_of p sig;
    mret (s32 old, with_sig (sigpending p) (sigmasked p) (<[Z.to_nat sig := handler]> (sighand p))
                            (sigold p) (sighandling p) p).

(** The result and the restored frame: [None] leaves the frame alone. *)
Definition sys_sigreturn (p : proc) : Z * option trapframe * proc :=
  match sigold p with
  | Some old =>
      if sighandling p then (s32 (eax old), Some old, with_sig (sigpending p) (sigmasked p) (sighand p) None false p)
      else (-1, None, p)
  | None => (-1, None, p)
  end.

(** ** Delivery *)

(** [movl $SYS_sigreturn, %eax; int $0x80; nop] *)
Definition tramp : list Z := [0xb8] ++ le32 SYS_sigreturn ++ [0xcd; 0x80; 0x90].

Definition with_pc (sp pc : Z) (tf : trapframe) : trapframe :=
  TrapFrame (edi tf) (esi tf) (ebp tf) (oesp tf) (ebx tf) (edx tf) (ecx tf) (eax tf) (ds tf) (err tf)
            pc (cs tf) (eflags tf) sp (ss tf).

Section Deliver.
Context (shm_demand_fault : mm_struct → vma → Z → bool → pmm → outcome (Z * pmm)).

(** [None] stands for the result -1. *)
Definition signal_setup_frame (heap_ok : bool) (p : proc) (tf : trapframe) (sig handler : Z) (s : pmm)
    : outcome (option (proc * trapframe) * pmm) :=
  let pgd := proc_pagetable (mm p) in
  if (pgd =? 0) || (Z.land (cs tf) DPL_USER =? 0) then mret (None, s)
  else if (esp tf <? USERSTACK_BOTTOM + 64) || (USERSTACK <=? esp tf) then mret (None, s)
  else if (handler <? USERLOAD) || (USEREND <=? handler) then mret (None, s)
  else if negb heap_ok then mret (None, s)
  else
    let retaddr := Z.land (u32 (esp tf - 8)) (u32 (Z.lnot 3)) in
    '(r, s) ← copyout shm_demand_fault (mm p) pgd retaddr tramp s;
    if r <? 0 then mret (None, s)
    else
      '(r, s) ← copyout shm_demand_fault (mm p) pgd (u32 (retaddr - 4)) (le32 sig) s;
      if r <? 0 then mret (None, s)
      else
        let sp := u32 (u32 (retaddr - 4) - 4) in
        '(r, s) ← copyout shm_demand_fault (mm p) pgd sp (le32 retaddr) s;
        if r <? 0 then mret (None, s)
        else mret (Some (with_sig (sigpending p) (sigmasked p) (sighand p) (Some tf) true p, with_pc sp handler tf), s).

(** How [signal_notify] ends: it returns, or calls [exit_signal]. *)
Inductive notified := Resume (p : proc) (tf : trapframe) | Killed (sig : Z) (p : proc).

Fixpoint notify_loop (fuel : nat) (heap_ok : bool) (p : proc) (tf : trapframe) (s : pmm) : outcome (notified * pmm) :=
  match fuel with
  | O => NoFuel
  | S fuel =>
      let '(sig, p) := signal_dequeue p in
      if sig =? 0 then mret (Resume p tf, s)
      else if sig =? SIGKILL then mret (Killed SIGKILL p, s)
      else
        handler ← handler_of p sig;
        if handler =? SIG_IGN then notify_loop fuel heap_ok p tf s
        else if (handler =? SIG_DFL) && negb (sig_fatal_default sig) then notify_loop fuel heap_ok p tf s
        else if handler =? SIG_DFL then mret (Killed sig p, s)
        else
          '(r, s) ← signal_setup_frame heap_ok p tf sig handler s;
          match r with
          | None => mret (Killed sig p, s)
          | Some (p, tf) => mret (Resume p tf, s)
          end
  end.

(** One pending bit goes in every round. *)
Definition NOTIFY_FUEL : nat := 32.

Definition signal_notify (heap_ok : bool) (p : proc) (tf : trapframe) (s : pmm) : outcome (notified * pmm) :=
  if proc_pagetable (mm p) =? 0 then mret (Resume p tf, s)
  else if negb (Z.land (cs tf) 3 =? DPL_USER) then mret (Resume p tf, s)
  else if sighandling p then
    if pending p SIGKILL
    then mret (Killed SIGKILL (with_pending (Z.land (sigpending p) (u32 (Z.lnot (SIGBIT SIGKILL)))) p), s)
    else mret (Resume p tf, s)
  else notify_loop NOTIFY_FUEL heap_ok p tf s.
End Deliver.
