(* ===== verification/SignalSpec.v ===== *)
(** [SignalSpec]: what [Signal] guarantees: which signal is delivered next, that
    delivery always ends, the frame a handler runs on, and that [sigreturn]
    restores the interrupted frame. *)
From Stdlib Require Import ZArith Lia.
From stdpp Require Import numbers strings gmap list.
From S2P Require Import Prelude ListHead MemLayout Buddy BuddyInv BuddySpec Vm PageTable VmSpec Mmap UserMem UserMemSpec.
From S2P Require Import TaskQueue Proc ProcInv Signal.
Open Scope Z_scope.

(** The signal fields of a PCB at their widths. *)
Record sig_ok (p : proc) : Prop := {
  sg_pending : 0 ≤ sigpending p < 2 ^ 32;
  sg_masked : 0 ≤ sigmasked p < 2 ^ 32;
  sg_hand : length (sighand p) = NSIG
}.

(** Signal [sig] is pending and not blocked. *)
Definition ready (p : proc) (sig : Z) : bool := Z.testbit (deliverable p) (sig - 1).

(** A pending [sig] that [signal_notify] drops without a trace. *)
Definition discards (p : proc) (sig : Z) : bool :=
  negb (sig =? SIGKILL) &&
  match sighand p !! Z.to_nat sig with
  | Some h => (h =? SIG_IGN) || ((h =? SIG_DFL) && negb (sig_fatal_default sig))
  | None => false
  end.

(** The first signal that is acted upon, 0 if there is none. *)
Definition next_sig (p : proc) : Z := first_sig all_sigs (λ sig, ready p sig && negb (discards p sig)).

(** [p] without its deliverable signals up to [n]. *)
Definition drop_upto (p : proc) (n : Z) : proc :=
  with_pending (Z.ldiff (sigpending p) (Z.land (deliverable p) (Z.ones n))) p.

Lemma elem_all_sigs sig : sig ∈ all_sigs ↔ 1 ≤ sig < 32.
Proof. unfold all_sigs. rewrite elem_of_seqZ. lia. Qed.

Lemma land_sigbit v sig : 1 ≤ sig → negb (Z.land v (SIGBIT sig) =? 0) = Z.testbit v (sig - 1).
Proof.
  intros Hs. unfold SIGBIT. rewrite Z.shiftl_1_l.
  destruct (Z.testbit v (sig - 1)) eqn:Hb.
  - apply negb_true_iff, Z.eqb_neq. intros Hz.
    assert (Z.testbit (Z.land v (2 ^ (sig - 1))) (sig - 1) = true) as Ht
      by (rewrite Z.land_spec, Hb, Z.pow2_bits_true by lia; done).
    by rewrite Hz, Z.bits_0 in Ht.
  - apply negb_false_iff, Z.eqb_eq. apply Z.bits_inj'. intros n Hn. rewrite Z.land_spec, Z.bits_0.
    destruct (decide (n = sig - 1)) as [->|]; [by rewrite Hb|]. rewrite Z.pow2_bits_false by lia. apply andb_false_r.
Qed.

(** Masking with [~m] clears the bits of [m]. *)
Lemma land_lnot32 v m : 0 ≤ v < 2 ^ 32 → Z.land v (u32 (Z.lnot m)) = Z.ldiff v m.
Proof.
  intros Hv. apply Z.bits_inj'. intros n Hn. unfold u32. rewrite Z.land_spec, Z.ldiff_spec.
  destruct (Z.ltb_spec n 32).
  - by rewrite Z.mod_pow2_bits_low, Z.lnot_spec by lia.
  - rewrite Z.mod_pow2_bits_high by lia. rewrite (Z.bits_above_log2 v n), andb_false_r; [done|lia|].
    destruct (decide (v = 0)) as [->|]; [cbn; lia|]. apply Z.log2_lt_pow2; [lia|].
    eapply Z.lt_le_trans; [apply Hv|]. apply Z.pow_le_mono_r; lia.
Qed.

(** [first_sig] finds the least element that satisfies [f]. *)
Lemma first_sig_spec f a n : 0 < a → 0 ≤ n →
  let sig := first_sig (seqZ a n) f in
  (sig = 0 ∧ ∀ s, a ≤ s < a + n → f s = false) ∨
  (a ≤ sig < a + n ∧ f sig = true ∧ ∀ s, a ≤ s < sig → f s = false).
Proof.
  intros Ha Hn. revert a Ha. pattern n. apply natlike_ind; [| |done].
  - intros a Ha. left. split; [done|]. lia.
  - clear n Hn. intros n Hn IH a Ha. rewrite seqZ_cons by lia. rewrite Z.pred_succ. cbn [first_sig].
    destruct (f a) eqn:Hf.
    + right. split_and!; [lia|lia|done|lia].
    + destruct (IH (Z.succ a) ltac:(lia)) as [[H0 Hall]|(H1 & H2 & H3)].
      * left. split; [done|]. intros s Hs. destruct (decide (s = a)) as [->|]; [done|]. apply Hall. lia.
      * right. split_and!; [lia|lia|done|]. intros s Hs. destruct (decide (s = a)) as [->|]; [done|]. apply H3. lia.
Qed.

Lemma first_sig_ext f g l : (∀ s, s ∈ l → f s = g s) → first_sig l f = first_sig l g.
Proof.
  induction l as [|a l IH]; intros Hfg; [done|]. cbn. rewrite (Hfg a) by (by left).
  destruct (g a); [done|]. apply IH. intros s Hs. apply Hfg. by right.
Qed.

Lemma deliverable_ldiff p : sig_ok p → deliverable p = Z.ldiff (sigpending p) (sigmasked p).
Proof. intros Hp. apply land_lnot32, Hp. Qed.

(** The least ready signal is taken out. *)
Lemma signal_dequeue_ok p : sig_ok p →
  let '(sig, p') := signal_dequeue p in
  (sig = 0 ∧ p' = p ∧ ∀ s, 1 ≤ s < 32 → ready p s = false) ∨
  (1 ≤ sig < 32 ∧ ready p sig = true ∧ (∀ s, 1 ≤ s < sig → ready p s = false) ∧
   p' = with_pending (Z.ldiff (sigpending p) (2 ^ (sig - 1))) p).
Proof.
  intros Hp. unfold signal_dequeue. destruct (Z.eqb_spec (deliverable p) 0) as [Hz|Hz].
  { left. split_and!; [done..|]. intros s Hs. unfold ready. by rewrite Hz, Z.bits_0. }
  rewrite (first_sig_ext _ (ready p)).
  2:{ intros s Hs%elem_all_sigs. rewrite land_sigbit by lia. done. }
  destruct (first_sig_spec (ready p) 1 31) as [[H0 Hall]|(H1 & H2 & H3)]; [lia..| |]; fold all_sigs in *.
  - rewrite H0. left. split_and!; [done..|]. intros s Hs. apply Hall. lia.
  - rewrite (proj2 (Z.eqb_neq _ 0)) by lia. right. split_and!; [lia|lia|done|intros s Hs; apply H3; lia|].
    unfold SIGBIT. rewrite land_lnot32, Z.shiftl_1_l by apply Hp. done.
Qed.

(** ** Delivery *)

Lemma ldiff_range a b : 0 ≤ a < 2 ^ 32 → 0 ≤ Z.ldiff a b < 2 ^ 32.
Proof. rewrite Z.ldiff_land. apply land_range. Qed.

(** [p] without the pending signal [m]. *)
Definition drop_sig (m : Z) (p : proc) : proc := with_pending (Z.ldiff (sigpending p) (2 ^ (m - 1))) p.

Lemma drop_sig_ok m p : sig_ok p → sig_ok (drop_sig m p).
Proof. intros [H1 H2 H3]. split; cbn; [|done..]. by apply ldiff_range. Qed.

Lemma ready_spec p s : sig_ok p → ready p s = Z.testbit (sigpending p) (s - 1) && negb (Z.testbit (sigmasked p) (s - 1)).
Proof. intros Hp. unfold ready. by rewrite deliverable_ldiff, Z.ldiff_spec by done. Qed.

Lemma ready_drop m p s : sig_ok p → 1 ≤ m → 1 ≤ s → ready (drop_sig m p) s = ready p s && negb (s =? m).
Proof.
  intros Hp Hm Hs. rewrite !ready_spec by (done || by apply drop_sig_ok). cbn [drop_sig with_pending with_sig sigpending sigmasked].
  rewrite Z.ldiff_spec, Z.pow2_bits_eqb by lia.
  replace (m - 1 =? s - 1) with (s =? m) by (apply eq_true_iff_eq; rewrite !Z.eqb_eq; lia).
  by destruct (Z.testbit (sigpending p) _), (Z.testbit (sigmasked p) _), (s =? m).
Qed.

Lemma with_pending_id p : with_pending (sigpending p) p = p.
Proof. by destruct p. Qed.

(** Bit [j] of what [drop_upto] keeps. *)
Lemma drop_upto_bit p n j : sig_ok p → 0 ≤ n → 0 ≤ j →
  Z.testbit (sigpending (drop_upto p n)) j = Z.testbit (sigpending p) j && negb (ready p (j + 1) && (j <? n)).
Proof.
  intros Hp Hn Hj. unfold ready. cbn [drop_upto with_pending with_sig sigpending].
  rewrite Z.ldiff_spec, Z.land_spec, Z.testbit_ones by lia.
  replace (j + 1 - 1) with j by lia. by rewrite (proj2 (Z.leb_le 0 j) Hj).
Qed.

Lemma drop_upto_none p n : sig_ok p → 0 ≤ n → (∀ s, 1 ≤ s ≤ n → ready p s = false) → drop_upto p n = p.
Proof.
  intros Hp Hn Hno. rewrite <- (with_pending_id p) at 2. unfold drop_upto. f_equal.
  change (sigpending (drop_upto p n) = sigpending p). apply Z.bits_inj'. intros j Hj. rewrite drop_upto_bit by done.
  destruct (Z.ltb_spec j n); [rewrite Hno by lia|]; rewrite ?andb_false_r, andb_true_r; done.
Qed.

Lemma drop_upto_first p m : sig_ok p → 1 ≤ m → ready p m = true → (∀ s, 1 ≤ s < m → ready p s = false) →
  drop_upto p m = drop_sig m p.
Proof.
  intros Hp Hm Hr Hno. unfold drop_upto, drop_sig. f_equal.
  change (sigpending (drop_upto p m) = Z.ldiff (sigpending p) (2 ^ (m - 1))).
  apply Z.bits_inj'. intros j Hj. rewrite drop_upto_bit by (done || lia).
  rewrite Z.ldiff_spec, Z.pow2_bits_eqb by lia. f_equal. f_equal. destruct (Z.eqb_spec (m - 1) j) as [<-|Hne].
  - replace (m - 1 + 1) with m by lia. rewrite Hr. apply Z.ltb_lt. lia.
  - destruct (Z.ltb_spec j m); [|by rewrite andb_false_r]. rewrite Hno by lia. done.
Qed.

Lemma drop_upto_sig p m n : sig_ok p → 1 ≤ m ≤ n → ready p m = true →
  drop_upto (drop_sig m p) n = drop_upto p n.
Proof.
  intros Hp Hm Hr. pose proof (drop_sig_ok m p Hp) as Hp'.
  assert (sigpending (drop_upto (drop_sig m p) n) = sigpending (drop_upto p n)) as Heq.
  { apply Z.bits_inj'. intros j Hj. rewrite !drop_upto_bit by (done || lia).
    rewrite ready_drop by (done || lia). cbn [drop_sig with_pending with_sig sigpending].
    rewrite Z.ldiff_spec, Z.pow2_bits_eqb by lia. destruct (Z.eqb_spec (m - 1) j) as [<-|Hne].
    - replace (m - 1 + 1) with m by lia. rewrite Hr, (proj2 (Z.ltb_lt (m - 1) n)) by lia. by rewrite !andb_false_r.
    - rewrite (proj2 (Z.eqb_neq (j + 1) m)) by lia. by rewrite !andb_true_r. }
  transitivity (with_pending (sigpending (drop_upto (drop_sig m p) n)) p); [done|]. by rewrite Heq.
Qed.

Definition ready_count (p : proc) : nat := length (filter (λ s, ready p s = true) all_sigs).

Lemma ready_count_drop p m : sig_ok p → 1 ≤ m < 32 → ready p m = true →
  (ready_count (drop_sig m p) < ready_count p)%nat.
Proof.
  intros Hp Hm Hr. unfold ready_count.
  apply (filter_length_lt _ _ _ m); [|by apply elem_all_sigs|done|].
  - intros s Hs%elem_all_sigs. rewrite ready_drop by (done || lia). by intros [? _]%andb_true_iff.
  - rewrite ready_drop, Z.eqb_refl, andb_false_r by (done || lia). done.
Qed.

Section Notify.
Context (f : mm_struct → vma → Z → bool → pmm → outcome (Z * pmm)).

(** [signal_notify]'s loop, declaratively: discarded signals vanish, then the
    first other one kills the process or starts its handler. *)
Definition notify_spec (heap_ok : bool) (p : proc) (tf : trapframe) (s : pmm) : outcome (notified * pmm) :=
  let n := next_sig p in
  if n =? 0 then mret (Resume (drop_upto p 31) tf, s)
  else
    let p' := drop_upto p n in
    if n =? SIGKILL then mret (Killed SIGKILL p', s)
    else
      h ← handler_of p n;
      if h =? SIG_DFL then mret (Killed n p', s)
      else
        '(r, s) ← signal_setup_frame f heap_ok p' tf n h s;
        match r with
        | None => mret (Killed n p', s)
        | Some (p', tf) => mret (Resume p' tf, s)
        end.

(** The first ready signal, when it is not discarded, is the next one. *)
Lemma next_sig_first p m : 1 ≤ m < 32 → ready p m = true → (∀ s, 1 ≤ s < m → ready p s = false) →
  discards p m = false → next_sig p = m.
Proof.
  intros Hm Hr Hno Hd. unfold next_sig, all_sigs.
  destruct (first_sig_spec (λ s, ready p s && negb (discards p s)) 1 31) as [[_ Hall]|(H1 & H2 & H3)]; [lia..| |].
  - specialize (Hall m ltac:(lia)). cbn in Hall. by rewrite Hr, Hd in Hall.
  - set (n := first_sig _ _) in *. destruct (Z.lt_trichotomy n m) as [Hlt|[?|Hgt]]; [|done|].
    + cbn in H2. rewrite Hno in H2 by lia. done.
    + specialize (H3 m ltac:(lia)). cbn in H3. by rewrite Hr, Hd in H3.
Qed.

Lemma next_sig_drop p m : sig_ok p → 1 ≤ m < 32 → discards p m = true → next_sig (drop_sig m p) = next_sig p.
Proof.
  intros Hp Hm Hd. apply first_sig_ext. intros s Hs%elem_all_sigs. rewrite ready_drop by (done || lia).
  change (discards (drop_sig m p) s) with (discards p s). destruct (Z.eqb_spec s m) as [->|]; [|by rewrite andb_true_r].
  rewrite Hd. by rewrite !andb_false_r.
Qed.

(** A signal below the next one is not it. *)
Lemma next_sig_cases p :
  (next_sig p = 0 ∧ ∀ s, 1 ≤ s < 32 → ready p s = true → discards p s = true) ∨
  (1 ≤ next_sig p < 32 ∧ ready p (next_sig p) = true ∧ discards p (next_sig p) = false ∧
   ∀ s, 1 ≤ s < next_sig p → ready p s = true → discards p s = true).
Proof.
  unfold next_sig, all_sigs.
  destruct (first_sig_spec (λ s, ready p s && negb (discards p s)) 1 31) as [[H0 Hall]|(H1 & H2 & H3)]; [lia..| |].
  - left. split; [done|]. intros s Hs Hr. specialize (Hall s ltac:(lia)). cbn in Hall. rewrite Hr in Hall.
    by apply negb_false_iff.
  - right. apply andb_true_iff in H2 as [H2 Hn%negb_true_iff]. split_and!; [lia|lia|done|done|].
    intros s Hs Hr. specialize (H3 s ltac:(lia)). cbn in H3. rewrite Hr in H3. by apply negb_false_iff.
Qed.

Lemma notify_loop_ok fuel : ∀ heap_ok p tf s, sig_ok p → (ready_count p < fuel)%nat →
  notify_loop f fuel heap_ok p tf s = notify_spec heap_ok p tf s.
Proof.
  induction fuel as [|fuel IH]; intros heap_ok p tf s Hp Hf; [lia|]. cbn [notify_loop].
  pose proof (signal_dequeue_ok p Hp) as Hdq. destruct (signal_dequeue p) as [m p'].
  destruct Hdq as [(-> & -> & Hno)|(Hm & Hr & Hno & ->)].
  { cbn [Z.eqb]. unfold notify_spec.
    destruct (next_sig_cases p) as [[-> _]|(Hn & Hr & _)]; [|by rewrite Hno in Hr].
    cbn [Z.eqb]. rewrite drop_upto_none; [done|done|lia|]. intros s1 Hs1. apply Hno. lia. }
  rewrite (proj2 (Z.eqb_neq m 0)) by lia. fold (drop_sig m p).
  pose proof (drop_upto_first p m Hp ltac:(lia) Hr Hno) as Hdr.
  destruct (Z.eqb_spec m SIGKILL) as [->|Hk].
  { unfold notify_spec. rewrite (next_sig_first p SIGKILL) by done. cbn [Z.eqb SIGKILL Pos.eqb].
    fold SIGKILL. by rewrite Hdr. }
  destruct (lookup_lt_is_Some_2 (sighand p) (Z.to_nat m)) as [h Hh]; [rewrite (sg_hand _ Hp); unfold NSIG; lia|].
  unfold handler_of at 1. change (sighand (drop_sig m p)) with (sighand p). rewrite Hh. cbn [deref]. run.
  assert (discards p m = (h =? SIG_IGN) || ((h =? SIG_DFL) && negb (sig_fatal_default m))) as Hd.
  { unfold discards. by rewrite Hh, (proj2 (Z.eqb_neq m SIGKILL) Hk). }
  destruct (discards p m) eqn:Hdis.
  - assert (notify_spec heap_ok (drop_sig m p) tf s = notify_spec heap_ok p tf s) as Hsame.
    { unfold notify_spec. rewrite next_sig_drop by done.
      destruct (next_sig_cases p) as [[-> _]|(Hn & Hrn & Hdn & _)].
      - cbn [Z.eqb]. by rewrite drop_upto_sig by (done || lia).
      - assert (m ≤ next_sig p) as Hle.
        { destruct (Z.le_gt_cases m (next_sig p)); [done|]. rewrite Hno in Hrn by lia. done. }
        rewrite !drop_upto_sig by (done || lia). reflexivity. }
    rewrite <- Hsame.
    destruct (h =? SIG_IGN); [|cbn [orb] in Hd; rewrite <- Hd];
      (apply IH; [by apply drop_sig_ok|]; pose proof (ready_count_drop p m Hp Hm Hr); lia).
  - symmetry in Hd. apply orb_false_iff in Hd as [Hi Hdf]. rewrite Hi, Hdf.
    unfold notify_spec. rewrite (next_sig_first p m) by done.
    rewrite (proj2 (Z.eqb_neq m 0)), (proj2 (Z.eqb_neq m SIGKILL)) by (done || lia).
    unfold handler_of. rewrite Hh, Hdr. cbn [deref]. run. done.
Qed.

Lemma ready_count_le p : (ready_count p ≤ 31)%nat.
Proof. unfold ready_count. etrans; [apply length_filter|]. unfold all_sigs. by rewrite length_seqZ. Qed.

Lemma notify_fuel_ok heap_ok p tf s : sig_ok p → notify_loop f NOTIFY_FUEL heap_ok p tf s = notify_spec heap_ok p tf s.
Proof. intros Hp. apply notify_loop_ok; [done|]. pose proof (ready_count_le p). unfold NOTIFY_FUEL. lia. Qed.
End Notify.

(** ** The handler's frame *)

(** Bytes that were written stay when others are. *)
Lemma ubytes_hold W s M s' M' va n l :
  same_view W s M s' M' → 0 ≤ va → va + n ≤ USEREND → (∀ j, 0 ≤ j < n → ¬ W (va + j)) →
  ubytes s M va n = Some <$> l → ubytes s' M' va n = Some <$> l.
Proof.
  intros Hv Hva Hend HW Hl. rewrite <- Hl. apply (ubytes_keep W); try done. intros j Hj.
  apply (ubyte_some s). unfold ubytes in Hl.
  assert ((ubyte s M <$> ((λ i, va + i) <$> seqZ 0 n)) !! Z.to_nat j = (Some <$> l) !! Z.to_nat j) as Hj'.
  { rewrite <- Hl. f_equal. by rewrite <- list_fmap_compose. }
  rewrite !list_lookup_fmap, lookup_seqZ_lt in Hj' by lia. cbn in Hj'. rewrite Z.add_0_l, Z2Nat.id in Hj' by lia.
  destruct (l !! Z.to_nat j); cbn in Hj'; [by injection Hj' as ->|done].
Qed.

Lemma le32_bytes v : (λ b, b mod 256) <$> le32 v = le32 v.
Proof. cbn. by rewrite !Z.mod_mod. Qed.

Lemma retaddr_range e : USERSTACK_BOTTOM + 64 ≤ e < USERSTACK →
  let ra := Z.land (u32 (e - 8)) (u32 (Z.lnot 3)) in
  USERSTACK_BOTTOM + 8 ≤ ra ∧ ra + 8 ≤ e ∧ u32 (ra - 4) = ra - 4 ∧ u32 (ra - 4 - 4) = ra - 8.
Proof.
  intros He ra. assert (USERSTACK_BOTTOM = 0xBFFF0000) as HB by done. assert (USERSTACK = 0xC0000000) as HS by done.
  assert (e - 11 ≤ ra ≤ e - 8) as Hra.
  { unfold ra. rewrite (u32_small (e - 8)) by lia. change (u32 (Z.lnot 3)) with (Z.ldiff (Z.ones 32) (Z.ones 2)).
    rewrite Z.ldiff_land, Z.land_assoc, (Z.land_ones (e - 8)) by lia. rewrite (Z.mod_small (e - 8)) by lia.
    rewrite <- Z.ldiff_land, Z.ldiff_ones_r, Z.shiftr_div_pow2, Z.shiftl_mul_pow2 by lia.
    pose proof (Z_div_mod_eq_full (e - 8) (2 ^ 2)). pose proof (Z.mod_pos_bound (e - 8) (2 ^ 2) ltac:(lia)). lia. }
  rewrite (u32_small (ra - 4)), (u32_small (ra - 4 - 4)) by lia. lia.
Qed.

Section Frame.
Context (f : mm_struct → vma → Z → bool → pmm → outcome (Z * pmm)).

(** What a handler finds: its frame below the interrupted stack pointer, with a
    return address that leads to the [sigreturn] instructions next to it. *)
Record handler_frame (p : proc) (tf : trapframe) (sig handler : Z) (p' : proc) (tf' : trapframe)
    (s' : pmm) (M' : gmap Z Z) : Prop := {
  hf_sp : USERSTACK_BOTTOM ≤ esp tf' ∧ esp tf' + 16 ≤ esp tf;
  hf_pc : tf' = with_pc (esp tf') handler tf;
  hf_proc : p' = with_sig (sigpending p) (sigmasked p) (sighand p) (Some tf) true p;
  hf_stack : ubytes s' M' (esp tf') 16 = Some <$> (le32 (esp tf' + 8) ++ le32 sig ++ tramp)
}.

Definition stack_unshared O s M : Prop := unshared O s M USERSTACK_BOTTOM USER_STACK_SIZE.

Lemma unshared_mono O s M va n va' n' : unshared O s M va n → va ≤ va' → va' + n' ≤ va + n → unshared O s M va' n'.
Proof. intros Hu H1 H2 a e i Ha. apply Hu. unfold within in *. lia. Qed.

(** One [copyout] into the stack area. *)
Lemma stack_push m s U D T M O va src :
  uspace s U D T M O → plain_process (Some m) → no_alias M → stack_unshared O s M →
  USERSTACK_BOTTOM ≤ va → va + Z.of_nat (length src) ≤ USERSTACK →
  ∃ r s' U' T' M', copyout f (Some m) (page_to_addr s D) va src s = Done (r, s') ∧
    served (within va (Z.of_nat (length src))) s U D T M O s' U' T' M' ∧
    served (within USERSTACK_BOTTOM USER_STACK_SIZE) s U D T M O s' U' T' M' ∧
    no_alias M' ∧ stack_unshared O s' M' ∧ (r = -1 ∨ r = 0) ∧
    (r = 0 → ubytes s' M' va (Z.of_nat (length src)) = Some <$> ((λ b, b mod 256) <$> src)).
Proof.
  intros Hus Hpl Hna Hun H1 H2. assert (USERSTACK_BOTTOM + USER_STACK_SIZE = USERSTACK) as HE by done.
  assert (0 < USERSTACK_BOTTOM) as HB by done.
  destruct (copyout_ok f (Some m) s U D T M O va src) as (r & s' & U' & T' & M' & Hrun & Hs & Hr & Hb);
    try done; [eapply unshared_mono; [done|lia..]|lia|].
  exists r, s', U', T', M'. split_and!; try done.
  - eapply served_weaken; [|done]. intros a. unfold within. lia.
  - by eapply se_alias.
  - by eapply unshared_served.
Qed.

Lemma setup_frame_ok heap_ok p m tf sig handler s U D T M O :
  uspace s U D T M O → mm p = Some m → pgdir m = page_to_addr s D → plain_process (Some m) →
  no_alias M → stack_unshared O s M →
  ∃ r s' U' T' M', signal_setup_frame f heap_ok p tf sig handler s = Done (r, s') ∧
    served (within USERSTACK_BOTTOM USER_STACK_SIZE) s U D T M O s' U' T' M' ∧
    ∀ p' tf', r = Some (p', tf') → handler_frame p tf sig handler p' tf' s' M' ∧ USERLOAD ≤ handler < USEREND.
Proof.
  intros Hus Hm Hpg Hpl Hna Hun. unfold signal_setup_frame. rewrite Hm. cbn [proc_pagetable from_option]. rewrite Hpg.
  assert (served (within USERSTACK_BOTTOM USER_STACK_SIZE) s U D T M O s U T M) as Hrefl by (by apply served_refl).
  destruct ((_ =? 0) || _); [by exists None, s, U, T, M|].
  destruct (Z.ltb_spec (esp tf) (USERSTACK_BOTTOM + 64)); [by exists None, s, U, T, M|].
  destruct (Z.leb_spec USERSTACK (esp tf)); [by exists None, s, U, T, M|].
  destruct (Z.ltb_spec handler USERLOAD); [by exists None, s, U, T, M|].
  destruct (Z.leb_spec USEREND handler); [by exists None, s, U, T, M|].
  destruct heap_ok; [|by exists None, s, U, T, M]. cbn [orb negb].
  destruct (retaddr_range (esp tf)) as (R1 & R2 & R3 & R4); [lia|]. set (ra := Z.land _ _) in *. rewrite R3, R4.
  assert (0 < USERSTACK_BOTTOM) as HB by done. assert (USERSTACK = USEREND) as HSE by done.
  destruct (stack_push m s U D T M O ra tramp) as (r1 & s1 & U1 & T1 & M1 & -> & _ & V1 & N1 & X1 & Q1 & B1);
    try done; [lia|cbn; lia|]. run. cbn [length tramp le32 app] in B1.
  destruct Q1 as [-> | ->]; [by exists None, s1, U1, T1, M1|]. cbn [Z.ltb Z.compare].
  specialize (B1 eq_refl). change (Z.of_nat 8) with 8 in B1.
  rewrite <- (page_to_addr_same s s1 D) by apply V1.
  destruct (stack_push m s1 U1 D T1 M1 O (ra - 4) (le32 sig)) as (r2 & s2 & U2 & T2 & M2 & -> & W2 & V2 & N2 & X2 & Q2 & B2);
    try done; [apply V1|lia|cbn; lia|]. run. pose proof (served_trans _ _ _ _ _ _ _ _ _ _ _ _ _ _ _ V1 V2) as V12.
  destruct Q2 as [-> | ->]; [by exists None, s2, U2, T2, M2|]. cbn [Z.ltb Z.compare].
  specialize (B2 eq_refl). change (Z.of_nat (length (le32 sig))) with 4 in W2, B2.
  rewrite <- (page_to_addr_same s1 s2 D) by apply V2.
  destruct (stack_push m s2 U2 D T2 M2 O (ra - 8) (le32 ra)) as (r3 & s3 & U3 & T3 & M3 & -> & W3 & V3 & N3 & X3 & Q3 & B3);
    try done; [apply V2|lia|cbn; lia|]. run. pose proof (served_trans _ _ _ _ _ _ _ _ _ _ _ _ _ _ _ V12 V3) as V123.
  destruct Q3 as [-> | ->]; [by exists None, s3, U3, T3, M3|]. cbn [Z.ltb Z.compare].
  specialize (B3 eq_refl). change (Z.of_nat (length (le32 ra))) with 4 in W3, B3.
  assert (ubytes s3 M3 (ra - 4) 4 = Some <$> ((λ b, b mod 256) <$> le32 sig)) as C2.
  { eapply ubytes_hold; [apply W3|lia|lia|unfold within; lia|exact B2]. }
  assert (ubytes s3 M3 ra 8 = Some <$> tramp) as C1.
  { eapply ubytes_hold; [apply W3|lia|lia|unfold within; lia|].
    eapply ubytes_hold; [apply W2|lia|lia|unfold within; lia|exact B1]. }
  eexists _, s3, U3, T3, M3. split; [done|]. split; [done|]. intros p' tf' [= <- <-]. split; [|lia].
  split; cbn [esp with_pc]; [lia|done|done|]. rewrite le32_bytes in B3, C2.
  replace (ra - 8 + 8) with ra by lia. change 16 with (4 + (4 + 8)). rewrite !ubytes_app by lia.
  replace (ra - 8 + 4) with (ra - 4) by lia. replace (ra - 4 + 4) with ra by lia.
  rewrite B3, C2, C1. by rewrite !fmap_app.
Qed.
End Frame.


(** C36: [sigreturn] undoes a delivery: whenever [signal_notify] started a
    handler, the [sigreturn] it ends in gives back the interrupted trap frame,
    every register of it, and the process can take signals again. *)
Theorem sigreturn_restores f heap_ok p tf s p' tf' s' :
  sig_ok p → sighandling p = false →
  signal_notify f heap_ok p tf s = Done (Resume p' tf', s') → sighandling p' = true →
  sys_sigreturn p' = (s32 (eax tf), Some tf, signal_exit_cleanup p') ∧ sighand p' = sighand p ∧ sigmasked p' = sigmasked p.
Proof.
  intros Hp Hh Hrun Hh'. unfold signal_notify in Hrun.
  destruct (_ =? 0); [injection Hrun as <- <- <-; congruence|].
  destruct (negb _); [injection Hrun as <- <- <-; congruence|].
  rewrite Hh, notify_fuel_ok in Hrun by done. unfold notify_spec in Hrun.
  destruct (next_sig p =? 0); [injection Hrun as <- <- <-; cbn in Hh'; congruence|].
  destruct (next_sig p =? SIGKILL); [discriminate|].
  destruct (handler_of p (next_sig p)) as [h| | |]; try discriminate. run.
  unfold mbind, outcome_mbind, outcome_bind in Hrun. cbn in Hrun.
  destruct (h =? SIG_DFL); [discriminate|].
  destruct (signal_setup_frame _ _ _ _ _ _ _) as [[[[p1 tf1]|] s1]| | |] eqn:Hset; try discriminate.
  injection Hrun as <- <- <-. unfold signal_setup_frame in Hset.
  repeat match type of Hset with
  | (if ?b then _ else _) = _ => destruct b; [discriminate|]
  | (match ?c with _ => _ end) = _ => destruct c as [[? ?]| | |]; try discriminate; cbn in Hset
  | mbind _ ?c = _ => destruct c as [[? ?]| | |]; try discriminate; cbn in Hset
  end.
  injection Hset as <- <- <-. done.
Qed.

(** ** Sending *)

Section SendSpec.
Context {Mem : Type} `{KernelMem Mem}.
Implicit Types (k : ksys Mem) (q : list nat).

(** A process a signal can be sent to by its pid. *)
Definition targets (d : Z) (p : proc) : Prop := pid p = d ∧ state p ≠ UNUSED ∧ state p ≠ ZOMBIE.

Lemma targets_bool d p :
  (pid p =? d) && negb (bool_decide (state p = UNUSED)) && negb (bool_decide (state p = ZOMBIE)) = true ↔ targets d p.
Proof.
  unfold targets. rewrite !andb_true_iff, !negb_true_iff, Z.eqb_eq, !bool_decide_eq_false. tauto.
Qed.

Lemma signal_target_ok k q d n : sched_ok k q → ∀ a, (a + n = NPROC)%nat →
  ∃ r, signal_target (seq a n) d k = Done r ∧
    match r with
    | Some i => ∃ p, procs k !! i = Some p ∧ targets d p
    | None => ∀ i p, (a ≤ i)%nat → procs k !! i = Some p → ¬ targets d p
    end.
Proof.
  intros Hk. induction n as [|n IH]; intros a Ha; cbn [seq signal_target].
  - exists None. split; [done|]. intros i p Hi Hp. pose proof (sched_lt _ _ _ _ Hk Hp). lia.
  - destruct (sched_slot k q a Hk) as [p Hp]; [lia|]. rewrite (get_proc_ok _ _ _ Hp). run.
    destruct (_ && _) eqn:Hb; [apply targets_bool in Hb; exists (Some a); eauto|].
    destruct (IH (S a) ltac:(lia)) as (r & -> & Hr). exists r. split; [done|]. destruct r; [done|].
    intros i p' Hi Hp'. destruct (decide (i = a)) as [->|]; [|apply (Hr i p'); [lia|done]].
    simplify_eq. intros Ht%targets_bool. congruence.
Qed.

(** The PCB of a signalled process: marked, and awake. *)
Definition signalled (sig : Z) (p : proc) : proc :=
  let p' := mark_pending sig p in if decide (state p = SLEEPING) then woken p' else p'.

Lemma mark_state sig p : state (mark_pending sig p) = state p ∧ kstack (mark_pending sig p) = kstack p.
Proof. unfold mark_pending. by destruct (sig =? SIGKILL). Qed.

Lemma signal_send_ok k q d sig : sched_ok k q →
  (signal_send d sig k = Done (-1, k)) ∨
  (valid_sig sig = true ∧ ∃ i p h, procs k !! i = Some p ∧ targets d p ∧
     let k' := set_proc i (signalled sig p) (with_nodes h k) in
     signal_send d sig k = Done (0, k') ∧
     sched_ok k' (if decide (state p = SLEEPING) then q ++ [i] else q)).
Proof.
  intros Hk. unfold signal_send. destruct (valid_sig sig) eqn:Hv; [|by left]. cbn [negb].
  destruct (signal_target_ok k q d NPROC Hk 0 eq_refl) as (r & -> & Hr). run. destruct r as [i|]; [|by left].
  destruct Hr as (p & Hp & Ht). rewrite (get_proc_ok _ _ _ Hp). run. destruct (_ =? 0); [by left|]. right.
  destruct (mark_state sig p) as [Hst Hks].
  assert (sched_ok (set_proc i (mark_pending sig p) k) q) as Hk1.
  { eapply sched_set; [done..|by rewrite Hst|]. rewrite Hst, Hks. by apply (so_stack _ _ Hk i p). }
  assert (procs (set_proc i (mark_pending sig p) k) !! i = Some (mark_pending sig p)) as Hp1.
  { ks. by eapply lookup_set_eq. }
  unfold signal_wake_locked. rewrite (get_proc_ok _ _ _ Hp1). run. rewrite Hst. unfold signalled.
  split; [done|]. exists i, p. destruct (decide (state p = SLEEPING)) as [Hsl|Hsl].
  - rewrite bool_decide_true by done. destruct (make_runnable_ok _ q i _ Hk1 Hp1) as (h & -> & Hk2); [by rewrite Hst|].
    run. exists h. change (with_nodes h (set_proc i (mark_pending sig p) k)) with (set_proc i (mark_pending sig p) (with_nodes h k)) in *.
    rewrite set_set in *. done.
  - rewrite bool_decide_false by done. run. exists (nodes k). rewrite with_nodes_id. done.
Qed.
End SendSpec.

(** [kill] either fails and changes nothing, or marks the signal pending in
    the one process that has the pid and is alive, waking it if it sleeps, so
    that it joins the run queue once; [SIGKILL] ends up pending, unblocked and
    with its default action whatever the process had set up. *)
Theorem signal_send_spec {Mem} `{KernelMem Mem} (k : ksys Mem) q d sig :
  sched_ok k q →
  signal_send d sig k = Done (-1, k) ∨
  ∃ i p h, procs k !! i = Some p ∧ targets d p ∧ 1 ≤ sig < 32 ∧
    let k' := set_proc i (signalled sig p) (with_nodes h k) in
    signal_send d sig k = Done (0, k') ∧
    sched_ok k' (if decide (state p = SLEEPING) then q ++ [i] else q) ∧
    pending (signalled sig p) sig = true ∧
    (sig_ok p → sig = SIGKILL → ready (signalled sig p) SIGKILL = true ∧ discards (signalled sig p) SIGKILL = false).
Proof.
  intros Hk. destruct (signal_send_ok k q d sig Hk) as [?|(Hv & i & p & h & Hp & Ht & Hrun & Hk')]; [by left|right].
  apply andb_true_iff in Hv as [Hv1%Z.leb_le Hv2%Z.ltb_lt]. exists i, p, h.
  split; [done|]. split; [done|]. split; [unfold NSIG in *; lia|]. intros k'. split_and!; try done.
  - unfold pending. rewrite land_sigbit by done.
    assert (sigpending (signalled sig p) = Z.lor (sigpending p) (SIGBIT sig)) as ->.
    { unfold signalled, mark_pending. by destruct (decide _), (sig =? SIGKILL). }
    rewrite Z.lor_spec. unfold SIGBIT. rewrite Z.shiftl_1_l, Z.pow2_bits_true by lia. apply orb_true_r.
  - intros Hsg ->. split; [|done].
    assert (deliverable (signalled SIGKILL p) =
      Z.land (Z.lor (sigpending p) 256) (u32 (Z.lnot (Z.land (sigmasked p) (u32 (Z.lnot 256)))))) as Hd.
    { unfold signalled, mark_pending. by destruct (decide _). }
    unfold ready. rewrite Hd, land_lnot32 by (apply lor_range; [apply Hsg|done]).
    rewrite land_lnot32 by apply Hsg. rewrite Z.ldiff_spec, Z.lor_spec, Z.ldiff_spec.
    change (Z.testbit 256 (SIGKILL - 1)) with true. by rewrite orb_true_r, andb_false_r.
Qed.
