(* ===== verification/Futex.v ===== *)
(** [Futex]: kernel/ipc/futex.c.

    The wait key of a user word is the kernel address of the physical word
    behind it.  [do_futex_wait] is one section: [futex_lock] is held from the
    test of the word to the change of the process state, and
    [do_futex_wake] holds it too, so no wake-up falls between the two. *)
From Stdlib Require Import ZArith Lia.
From stdpp Require Import numbers strings gmap list.
From S2P Require Import Prelude ListHead MemLayout Buddy BuddyInv BuddySpec Vm PageTable VmSpec Mmap UserMem UserMemSpec.
From S2P Require Import TaskQueue Proc ProcInv.
Open Scope Z_scope.

Definition FUTEX_WAIT : Z := 0.
Definition FUTEX_WAKE : Z := 1.
Definition FUTEX_CMD_MASK : Z := 0x7f.

(** The [int] in four little-endian bytes. *)
Definition int_of (l : list Z) : Z :=
  s32 (foldr (λ b acc, b + 256 * acc) 0 l).

Section Futex.
Context {Mem : Type} `{KernelMem Mem}.
Context (shm_demand_fault : mm_struct → vma → Z → bool → pmm → outcome (Z * pmm)).
Implicit Types (k : ksys Mem) (s : pmm) (me : nat).

(** 0 stands for the null key. *)
Definition futex_key (m : option mm_struct) (uaddr : Z) s : outcome (Z * pmm) :=
  let pgd := proc_pagetable m in
  if pgd =? 0 then mret (0, s)
  else if negb (Z.land uaddr 3 =? 0) then mret (0, s)
  else
    '(r, s) ← copyin shm_demand_fault m pgd uaddr 4 s;
    match r with
    | None => mret (0, s)
    | Some _ => pa ← walkaddr pgd uaddr s; mret (pa, s)
    end.

(** The call returned, or the process is asleep in it. *)
Inductive futex_result := FRet (r : Z) | FAsleep.

Definition do_futex_wait me (uaddr val : Z) k s : outcome (futex_result * ksys Mem * pmm) :=
  p ← get_proc me k;
  '(key, s) ← futex_key (mm p) uaddr s;
  if key =? 0 then mret (FRet (-1), k, s)
  else
    '(r, s) ← copyin shm_demand_fault (mm p) (proc_pagetable (mm p)) uaddr 4 s;
    match r with
    | None => mret (FRet (-1), k, s)
    | Some bs =>
        if negb (int_of bs =? val) then mret (FRet 0, k, s)
        else k ← sleep_locked me (ChAddr key) k; mret (FAsleep, k, s)
    end.

(** [for (i = 0; i < NPROC && woken < nwake; i++)] *)
Fixpoint futex_wake_loop (l : list nat) (key woken nwake : Z) k : outcome (Z * ksys Mem) :=
  match l with
  | [] => mret (woken, k)
  | i :: l =>
      if negb (woken <? nwake) then mret (woken, k)
      else
        p ← get_proc i k;
        if sleeps_on (ChAddr key) p then k ← make_runnable i k; futex_wake_loop l key (woken + 1) nwake k
        else futex_wake_loop l key woken nwake k
  end.

Definition do_futex_wake me (uaddr nwake : Z) k s : outcome (Z * ksys Mem * pmm) :=
  if nwake <=? 0 then mret (0, k, s)
  else
    p ← get_proc me k;
    '(key, s) ← futex_key (mm p) uaddr s;
    if key =? 0 then mret (-1, k, s)
    else '(n, k) ← futex_wake_loop (seq 0 NPROC) key 0 nwake k; mret (n, k, s).

Definition sys_futex me (uaddr op val : Z) k s : outcome (futex_result * ksys Mem * pmm) :=
  let op := Z.land op FUTEX_CMD_MASK in
  if op =? FUTEX_WAIT then do_futex_wait me uaddr val k s
  else if op =? FUTEX_WAKE then '(n, k, s) ← do_futex_wake me uaddr val k s; mret (FRet n, k, s)
  else mret (FRet (-1), k, s).

(** ** Waking *)

(** The waiters of [key] among the slots [l], in order. *)
Definition waiters (key : Z) (l : list nat) k : list nat :=
  filter (λ i, from_option (sleeps_on (ChAddr key)) false (procs k !! i) = true) l.

(** What a wake-up of the slots [ws] does to slot [j]. *)
Definition wake_slot (ws : list nat) (j : nat) (p : proc) : proc := if decide (j ∈ ws) then woken p else p.

Lemma wake_slot_none j p : wake_slot [] j p = p.
Proof. unfold wake_slot. by rewrite decide_False by (by intros ?%elem_of_nil). Qed.

Lemma futex_wake_loop_ok l : ∀ key w n k q,
  sched_ok k q → NoDup l → Forall (λ i, (i < NPROC)%nat) l → w ≤ n →
  let ws := take (Z.to_nat (n - w)) (waiters key l k) in
  ∃ h P, futex_wake_loop l key w n k = Done (w + Z.of_nat (length ws), with_procs P (with_nodes h k)) ∧
    sched_ok (with_procs P (with_nodes h k)) (q ++ ws) ∧ ∀ j, P !! j = wake_slot ws j <$> procs k !! j.
Proof.
  induction l as [|i l IH]; intros key w n k q Hk Hnd Hlt Hwn; cbn [futex_wake_loop].
  all: assert (∃ h P, Done (w + 0, k) = Done (w + 0, with_procs P (with_nodes h k)) ∧
      sched_ok (with_procs P (with_nodes h k)) (q ++ []) ∧ ∀ j, P !! j = wake_slot [] j <$> procs k !! j) as Hnone
    by (exists (nodes k), (procs k); rewrite app_nil_r; replace (with_procs (procs k) (with_nodes (nodes k) k)) with k
          by (by destruct k); split_and!; [done|done|]; intros j;
        destruct (procs k !! j); cbn; by rewrite ?wake_slot_none).
  { cbn [waiters filter list_filter]. rewrite take_nil. cbn [length]. rewrite Z.add_0_r. by rewrite Z.add_0_r in Hnone. }
  apply NoDup_cons in Hnd as [Hni Hnd]. apply Forall_cons in Hlt as [Hi Hlt].
  destruct (Z.ltb_spec w n) as [Hlt2|Hge]; cbn [negb].
  2:{ replace (Z.to_nat (n - w)) with 0%nat by lia. cbn [take length]. rewrite Z.add_0_r. by rewrite Z.add_0_r in Hnone. }
  clear Hnone. destruct (sched_slot k q i Hk Hi) as [p Hp]. rewrite (get_proc_ok _ _ _ Hp). run.
  destruct (sleeps_on (ChAddr key) p) eqn:Hs.
  - assert (state p = SLEEPING) as Hst by (by apply andb_true_iff in Hs as [?%bool_decide_eq_true _]).
    destruct (make_runnable_ok k q i p Hk Hp Hst) as (h & -> & Hk1). run.
    destruct (IH key (w + 1) n _ _ Hk1 Hnd Hlt ltac:(lia)) as (h' & P & Hrun & Hk' & HP).
    assert (waiters key l (set_proc i (woken p) (with_nodes h k)) = waiters key l k) as Hw.
    { unfold waiters. apply filter_ext_in. intros j Hj. ks.
      rewrite list_lookup_insert_ne by (intros ->; done). done. }
    rewrite Hw in Hrun, Hk', HP.
    assert (waiters key (i :: l) k = i :: waiters key l k) as -> by (unfold waiters; by rewrite filter_cons_True by (by rewrite Hp)).
    replace (Z.to_nat (n - w)) with (S (Z.to_nat (n - (w + 1)))) by lia. cbn [take length].
    set (ws := take _ _) in *. exists h', P. split_and!.
    + rewrite Hrun. do 2 f_equal. lia.
    + rewrite <- app_assoc in Hk'. exact Hk'.
    + intros j. rewrite HP. ks. destruct (decide (j = i)) as [->|Hne].
      * rewrite (lookup_set_eq k i p) by done. rewrite Hp. cbn. f_equal. unfold wake_slot. rewrite (decide_True (P := i ∈ i :: ws)) by (by left).
        rewrite decide_False; [done|]. unfold ws. intros Hin%elem_of_take. destruct Hin as (x & Hx & _).
        apply list_elem_of_lookup_2, list_elem_of_filter in Hx as [_ Hx]. done.
      * rewrite list_lookup_insert_ne by done. destruct (procs k !! j); [|done]. cbn. f_equal. unfold wake_slot. destruct (decide (j ∈ ws)), (decide (j ∈ i :: ws)); set_solver.
  - assert (waiters key (i :: l) k = waiters key l k) as -> by (unfold waiters; rewrite filter_cons_False; [done|rewrite Hp; cbn; congruence]).
    by apply IH.
Qed.

(** ** Keys *)

(** A user word: four bytes at an aligned address. *)
Definition user_word (uaddr : Z) : Prop := 0 ≤ uaddr ∧ uaddr + 4 ≤ USEREND ∧ Z.land uaddr 3 = 0.

Lemma word_in_page uaddr : user_word uaddr → uaddr mod PGSIZE + 4 ≤ PGSIZE.
Proof.
  intros (H0 & H1 & Hal). change 3 with (Z.ones 2) in Hal. rewrite Z.land_ones in Hal by lia.
  assert (PGSIZE = 1024 * 2 ^ 2) as HP by done.
  assert ((uaddr mod PGSIZE) mod 2 ^ 2 = 0) as Hm.
  { rewrite HP, Z.mod_mod_divide by (by exists 1024). done. }
  pose proof (Z.mod_pos_bound uaddr PGSIZE ltac:(done)). pose proof (Z_div_mod_eq_full (uaddr mod PGSIZE) (2 ^ 2)). lia.
Qed.

(** Reading a word of a mapped page changes nothing. *)
Lemma copyin_word cur s U D T M O uaddr e :
  uspace s U D T M O → user_word uaddr → M !! vpn uaddr = Some e →
  copyin shm_demand_fault cur (page_to_addr s D) uaddr 4 s =
    Done (Some (load_bytes (ram s) (pte_page_kva e + uaddr mod PGSIZE) 4), s).
Proof.
  intros Hus Hw He. pose proof (word_in_page uaddr Hw) as Hin. destruct Hw as (H0 & H1 & Hal).
  pose proof (dir_addr_pos _ _ _ _ _ _ Hus). unfold copyin. rewrite (proj2 (Z.eqb_neq _ 0)) by lia.
  change (copy_fuel 4) with 3%nat. cbn [copyin_loop]. change (4 =? 0) with false. cbn iota.
  destruct (round_down_user uaddr ltac:(lia)) as (Hp & Hvp & Hpal & Hoff).
  destruct (round_down_user (PGROUNDDOWN uaddr) Hp) as (Hp' & Hvp' & _ & Hoff').
  rewrite (proj2 (Z.mod_divide _ PGSIZE ltac:(done)) Hpal), Z.add_0_r in Hoff'.
  unfold ensure_user_page. rewrite <- Hoff'.
  destruct (walk_lookup s U D T M O Hus (PGROUNDDOWN uaddr) false Hp) as (p & -> & Hwk). run. rewrite Hvp in Hwk.
  assert (negb (p =? 0) && has (rd s p) PTE_P = true) as ->.
  { destruct (T !! PDX (PGROUNDDOWN uaddr)); [|destruct Hwk; congruence]. destruct Hwk as (_ & Hp0 & HM).
    rewrite (proj2 (Z.eqb_neq p 0)) by done. cbn [negb andb]. rewrite He in HM. by destruct (has (rd s p) PTE_P). }
  cbn [andb]. run. change (0 <? 0) with false. cbn iota.
  rewrite (walkaddr_view s U D T M O Hus _ Hp), Hvp, He. run.
  rewrite (proj2 (Z.mod_divide _ PGSIZE ltac:(done)) Hpal), Z.add_0_r.
  destruct (user_page _ _ _ _ _ _ uaddr e Hus He) as (i & Hi & _ & Hkva & Hb).
  destruct (page_ok s U (us_pool _ _ _ _ _ _ Hus) i Hi) as (_ & _ & Hlo & Hhi).
  rewrite (proj2 (Z.eqb_neq (pte_page_kva e) 0)) by page_lia.
  replace (uaddr - PGROUNDDOWN uaddr) with (uaddr mod PGSIZE) by lia.
  pose proof (Z.mod_pos_bound uaddr PGSIZE ltac:(done)).
  replace (Z.min (PGSIZE - uaddr mod PGSIZE) 4) with 4 by lia. change (4 - 4 =? 0) with true. cbn iota.
  rewrite (u32_small (pte_page_kva e + _)) by page_lia. done.
Qed.

(** The key of a word is the address of its first byte. *)
Lemma futex_key_ok m s U D T M O uaddr :
  uspace s U D T M O → plain_process (Some m) → pgdir m = page_to_addr s D → user_word uaddr →
  ∃ key s' U' T' M', futex_key (Some m) uaddr s = Done (key, s') ∧ served nowhere s U D T M O s' U' T' M' ∧
    (key ≠ 0 → ∃ e, M' !! vpn uaddr = Some e ∧ key = pte_page_kva e + uaddr mod PGSIZE) ∧
    (is_Some (M !! vpn uaddr) → key ≠ 0).
Proof.
  intros Hus Hpl Hpg Hw. pose proof Hw as (H0 & H1 & Hal). unfold futex_key. cbn [proc_pagetable from_option].
  pose proof (dir_addr_pos _ _ _ _ _ _ Hus). rewrite Hpg, (proj2 (Z.eqb_neq (page_to_addr s D) 0)) by lia.
  rewrite Hal. change (negb (0 =? 0)) with false. cbn iota.
  destruct (copyin_ok shm_demand_fault (Some m) s U D T M O uaddr 4) as (r & s' & U' & T' & M' & -> & Hs & Hl & Hall); try done.
  run. pose proof (se_space _ _ _ _ _ _ _ _ _ _ _ Hs) as Hus'.
  pose proof (word_in_page uaddr Hw) as Hin. pose proof (Z.mod_pos_bound uaddr PGSIZE ltac:(done)).
  assert (∀ a, uaddr ≤ a < uaddr + 4 → vpn a = vpn uaddr) as Hvp.
  { intros a Ha. replace a with (uaddr + (a - uaddr)) by lia. apply vpn_in_page; lia. }
  destruct r as [l|].
  - rewrite <- (page_to_addr_same s s' D) by apply Hs. rewrite (walkaddr_view s' U' D T' M' O Hus') by lia. run.
    assert (is_Some (M' !! vpn uaddr)) as [e He].
    { apply (ubyte_some s'). pose proof (Hl l eq_refl) as Hb. unfold ubytes in Hb. destruct l as [|b l]; [discriminate Hb|].
      injection Hb as Hb _. rewrite Z.add_0_r in Hb. by rewrite Hb. }
    rewrite He. eexists _, s', U', T', M'. split; [done|]. split; [done|]. split; [eauto|]. intros _.
    destruct (user_page _ _ _ _ _ _ uaddr e Hus' He) as (i & Hi & _ & Hkva & Hb).
    destruct (page_ok s' U' (us_pool _ _ _ _ _ _ Hus') i Hi) as (_ & _ & Hlo & Hhi). page_lia.
  - exists 0, s', U', T', M'. split_and!; [done|done|done|]. intros Hm. destruct Hall as [? [=]].
    intros a Ha. by rewrite Hvp.
Qed.
End Futex.


(** [FUTEX_WAKE] wakes the first [n] processes that wait on the physical
    word, in table order, or all of them if there are fewer, returns their
    number, and touches no other process. *)
Theorem futex_wake_spec {Mem} `{KernelMem Mem} f (k : ksys Mem) q me p m s U D T M O uaddr n :
  sched_ok k q → procs k !! me = Some p → mm p = Some m →
  uspace s U D T M O → plain_process (Some m) → pgdir m = page_to_addr s D → user_word uaddr →
  is_Some (M !! vpn uaddr) → 0 < n →
  ∃ s' U' T' M' e h P, let key := pte_page_kva e + uaddr mod PGSIZE in
    let ws := take (Z.to_nat n) (waiters key (seq 0 NPROC) k) in
    do_futex_wake f me uaddr n k s = Done (Z.of_nat (length ws), with_procs P (with_nodes h k), s') ∧
    served nowhere s U D T M O s' U' T' M' ∧ M' !! vpn uaddr = Some e ∧
    sched_ok (with_procs P (with_nodes h k)) (q ++ ws) ∧ ∀ j, P !! j = wake_slot ws j <$> procs k !! j.
Proof.
  intros Hk Hp Hm Hus Hpl Hpg Hw Hmap Hn. unfold do_futex_wake. rewrite (proj2 (Z.leb_gt n 0)) by done.
  rewrite (get_proc_ok _ _ _ Hp). run. rewrite Hm.
  destruct (futex_key_ok f m s U D T M O uaddr) as (key & s' & U' & T' & M' & -> & Hs & Hkey & Hk0); try done. run.
  specialize (Hk0 Hmap). rewrite (proj2 (Z.eqb_neq key 0) Hk0). destruct (Hkey Hk0) as (e & He & ->).
  destruct (futex_wake_loop_ok (seq 0 NPROC) (pte_page_kva e + uaddr mod PGSIZE) 0 n k q Hk) as (h & P & -> & Hk' & HP).
  - apply NoDup_seq.
  - apply Forall_forall. intros i Hi%elem_of_seq. lia.
  - lia.
  - run. rewrite Z.sub_0_r in *. exists s', U', T', M', e, h, P. split_and!; try done.
Qed.
