(* ===== verification/SchedSys.v ===== *)
(** [SchedSys]: the processes of kernel/proc.c running on CPUs.

    The sections of [Proc] and [Signal] put together into whole calls.  A
    process that has begun a call and not finished it has a pending action, the
    next section it will run; between two sections anything may happen: timer
    and device interrupts, pre-emption, and work on other CPUs.  A CPU that is
    [leaving] has run the last section before [sched()] and not yet switched
    stacks.  Events that cannot happen in a state leave it alone, so that every
    sequence of events is a run. *)
From Stdlib Require Import ZArith Lia.
From stdpp Require Import numbers strings gmap list.
From S2P Require Import Prelude ListHead MemLayout Buddy Vm Mmap UserMem TaskQueue Proc ProcInv Signal.
From S2P Require Import UserMemSpec SignalSpec.
Open Scope Z_scope.

(** The next section of a call, by process. *)
Inductive act :=
  | AYield
  | ASleep (ch : channel)
  | ASleepUntil (deadline : Z)
  | AWakeup (ch : channel)
  | AKill (d sig : Z)
  | AWait (d : Z)
  | AWaitSleep (d : Z)
  | AExit (x : Z)
  | ALeave (x : Z)
  | AExitWake (par : nat)
  | AKthreadExit
  | AFork
  | AForkBuild (i : nat)
  | AKthread (nm : option (list Z)) (par : option nat)
  | AKthreadBuild (i : nat) (nm : option (list Z)) (par : option nat)
  | AStart (i : nat)
  | AExec (nm img : list Z).

(** [struct cpu] *)
Record cpu := Cpu { cproc : option nat; leaving : bool; need_resched : bool }.

(** The system, with what it has done: the statuses processes ended with, those
    [wait_child] returned, and the processes dispatched. *)
Record ssys (Mem : Type) := Ssys {
  kern : ksys Mem;
  cpus : list cpu;
  pend : gmap nat act;
  ended : list (Z * Z);
  waited : list (Z * Z);
  dispatched : list nat
}.
Arguments Ssys {Mem} _ _ _ _ _ _.
Arguments kern {Mem} _.
Arguments cpus {Mem} _.
Arguments pend {Mem} _.
Arguments ended {Mem} _.
Arguments waited {Mem} _.
Arguments dispatched {Mem} _.

(** The calls a process makes. *)
Inductive call :=
  | CYield
  | CSleep (ch : channel)
  | CSleepTicks (n : Z)
  | CWakeup (ch : channel)
  | CKill (d sig : Z)
  | CWait (d : Z)
  | CExit (status : Z)
  | CExitSignal (sig : Z)
  | CKthreadExit
  | CFork
  | CKthread (nm : option (list Z))
  | CExec (nm img : list Z).

(** What happens, on which CPU. *)
Inductive event :=
  | EDispatch (c : nat)
  | ECall (c : nat) (f : call)
  | ERun (c : nat)
  | ETick (c : nat)
  | EPreempt (c : nat)
  | EIntrWakeup (ch : channel)
  | EIntrKill (d sig : Z).

Section SchedSys.
Context {Mem : Type} `{KernelMem Mem}.
Implicit Types (k : ksys Mem) (s : ssys Mem) (me c : nat).

Definition set_kern k s : ssys Mem := Ssys k (cpus s) (pend s) (ended s) (waited s) (dispatched s).
Definition set_cpu c (x : cpu) s : ssys Mem :=
  Ssys (kern s) (<[c := x]> (cpus s)) (pend s) (ended s) (waited s) (dispatched s).
Definition set_pend me (a : option act) s : ssys Mem :=
  Ssys (kern s) (cpus s) (partial_alter (λ _, a) me (pend s)) (ended s) (waited s) (dispatched s).
Definition log_end (r : Z * Z) s : ssys Mem :=
  Ssys (kern s) (cpus s) (pend s) (r :: ended s) (waited s) (dispatched s).
Definition log_wait (r : Z * Z) s : ssys Mem :=
  Ssys (kern s) (cpus s) (pend s) (ended s) (r :: waited s) (dispatched s).
Definition log_dispatch (i : nat) s : ssys Mem :=
  Ssys (kern s) (cpus s) (pend s) (ended s) (waited s) (dispatched s ++ [i]).

(** ** [fork_copy] *)

(** The fields [fork_copy] and [vma_copy] copy from the parent's [mm]. *)
Definition fork_fields (x y : mm_struct) : mm_struct :=
  Mm (pgdir y) (user_base x) (task_size x) (mmap_base x) (stack_top x) (brk x) (brk_start x) (vmas x).

Definition set_mm i (m : option mm_struct) k : outcome (ksys Mem) :=
  p ← get_proc i k; mret (set_proc i (with_image m (kstack p) (entry p) p) k).

(** [fork_copy] by [me] for the slot [i] of [proc_alloc], up to the last
    section; the flag is false after [bad:]. *)
Definition fork_build me i k : outcome (bool * ksys Mem) :=
  pm ← get_proc me k;
  x ← deref (mm pm);
  '(r, m) ← km_fork_mm x (mem k);
  let k := with_mem m k in
  match r with
  | None => k ← proc_free i k; mret (false, k)
  | Some (y, ok) =>
      k ← set_mm i (Some y) k;
      if negb ok then k ← proc_free i k; mret (false, k)
      else
        '(y, m) ← km_shm_fork_fix (fork_fields x y) x (mem k);
        k ← set_mm i (Some y) (with_mem m k);
        p ← get_proc i k;
        let k := set_proc i (with_ident (pid p) (Some me) (xstate p) (proc_name_set (name pm)) p) k in
        '(b, k) ← alloc_kstack i k;
        if negb b then k ← proc_free i k; mret (false, k)
        else p ← get_proc i k; mret (true, set_proc i (signal_fork p pm) k)
  end.

(** ** [exec_load] *)

(** [exec_load] by [me] of the image [img]; a kernel thread that comes here
    becomes a user process ([kernel_execve]). *)
Definition exec_proc me (nm img : list Z) k : outcome (ksys Mem) :=
  '(r, m) ← km_exec_mm img (mem k);
  let k := with_mem m k in
  match r with
  | None => mret k
  | Some y =>
      p ← get_proc me k;
      let old := mm p in
      let p := with_image (Some y) (kstack p) (if old then entry p else false) p in
      let p := signal_exec_reset (with_ident (pid p) (parent p) (xstate p) (proc_name_set nm) p) in
      let k := set_proc me p k in
      match old with
      | None => mret k
      | Some m => mem' ← km_drop_mm m (mem k); mret (with_mem mem' k)
      end
  end.

(** ** Calls *)

(** The first action of a call by [me].  Only a kernel thread, which has no
    [mm], comes to [kthread_exit], when its function returns.  A new thread's
    parent is [kthreadd] once there is one. *)
Definition begin_call me (f : call) k : outcome (option act) :=
  match f with
  | CYield => mret (Some AYield)
  | CSleep ch => mret (Some (ASleep ch))
  | CSleepTicks n => mret (if n =? 0 then None else Some (ASleepUntil (u32 (ticks k + n))))
  | CWakeup ch => mret (Some (AWakeup ch))
  | CKill d sig => mret (Some (AKill d sig))
  | CWait d => mret (Some (AWait d))
  | CExit status =>
      if bool_decide (initproc k = Some me) then Panic "init exiting" else mret (Some (AExit (exit_status status)))
  | CExitSignal sig =>
      if bool_decide (initproc k = Some me) then Panic "init exiting" else mret (Some (AExit (exit_signal_status sig)))
  | CKthreadExit => p ← get_proc me k; mret (if mm p then None else Some AKthreadExit)
  | CFork => p ← get_proc me k; mret (if proc_pagetable (mm p) =? 0 then None else Some AFork)
  | CKthread nm => mret (Some (AKthread nm (if kthreadd_task k then kthreadd_task k else initproc k)))
  | CExec nm img => mret (Some (AExec nm img))
  end.

(** [sched()] is next. *)
Definition leave c me s : ssys Mem := set_cpu c (Cpu (Some me) true (from_option need_resched false (cpus s !! c))) s.

(** Action [a] of [me] on CPU [c]. *)
Definition do_act c me (a : act) s : outcome (ssys Mem) :=
  let k := kern s in
  match a with
  | AYield =>
      k ← yield_locked me k;
      mret (set_pend me None (set_cpu c (Cpu (Some me) true false) (set_kern k s)))
  | ASleep ch => k ← sleep_locked me ch k; mret (set_pend me None (leave c me (set_kern k s)))
  | ASleepUntil d =>
      r ← sleep_deadline me d k;
      mret (set_pend me None (from_option (λ k, leave c me (set_kern k s)) s r))
  | AWakeup ch => k ← wakeup (Some ch) k; mret (set_pend me None (set_kern k s))
  | AKill d sig => '(_, k) ← sys_kill d sig k; mret (set_pend me None (set_kern k s))
  | AWait d =>
      '(r, k) ← wait_scan me d k;
      let s := set_kern k s in
      mret match r with
           | Reaped d' x => log_wait (d', x) (set_pend me None s)
           | NoChild => set_pend me None s
           | MustSleep => set_pend me (Some (AWaitSleep d)) s
           end
  | AWaitSleep d =>
      k ← sleep_locked me (ChProc me) k; mret (set_pend me (Some (AWait d)) (leave c me (set_kern k s)))
  | AExit x => k ← signal_parent_child_exit me k; mret (set_pend me (Some (ALeave x)) (set_kern k s))
  | ALeave x =>
      p ← get_proc me k;
      k ← proc_drop_mm me (set_proc me (signal_exit_cleanup p) k);
      '(par, k) ← exit_locked me x k;
      let s := log_end (pid p, x) (set_kern k s) in
      mret match par with
           | Some j => set_pend me (Some (AExitWake j)) s
           | None => set_pend me None (leave c me s)
           end
  | AExitWake j => k ← wakeup (Some (ChProc j)) k; mret (set_pend me None (leave c me (set_kern k s)))
  | AKthreadExit => k ← kthread_exit_locked me k; mret (set_pend me None (leave c me (set_kern k s)))
  | AFork =>
      '(r, k) ← proc_alloc k; mret (set_pend me (AForkBuild <$> r) (set_kern k s))
  | AForkBuild i =>
      '(b, k) ← fork_build me i k;
      mret (set_pend me (if b : bool then Some (AStart i) else None) (set_kern k s))
  | AKthread nm par =>
      '(r, k) ← proc_alloc k; mret (set_pend me ((λ i, AKthreadBuild i nm par) <$> r) (set_kern k s))
  | AKthreadBuild i nm par =>
      '(b, k) ← kthread_build i nm par k;
      mret (set_pend me (if b : bool then Some (AStart i) else None) (set_kern k s))
  | AStart i => k ← start_proc i k; mret (set_pend me None (set_kern k s))
  | AExec nm img => k ← exec_proc me nm img k; mret (set_pend me None (set_kern k s))
  end.

(** ** Events *)

(** Some CPU is on the process's stack. *)
Definition on_cpu (i : nat) s : bool := existsb (λ x, bool_decide (cproc x = Some i)) (cpus s).

(** An event of a CPU there is. *)
Definition at_cpu c s (f : cpu → outcome (ssys Mem)) : outcome (ssys Mem) :=
  match cpus s !! c with Some x => f x | None => mret s end.

Definition step (e : event) s : outcome (ssys Mem) :=
  match e with
  | EDispatch c =>
      at_cpu c s (λ x,
      if cproc x then mret s
      else
        '(r, k) ← scheduler_pick (kern s);
        match r with
        | None => mret (set_kern k s)
        | Some i =>
            if on_cpu i s then Wild
            else mret (log_dispatch i (set_cpu c (Cpu (Some i) false (need_resched x)) (set_kern k s)))
        end)
  | ECall c f =>
      at_cpu c s (λ x,
      match cproc x with
      | None => mret s
      | Some me =>
          if leaving x || bool_decide (is_Some (pend s !! me)) then mret s
          else a ← begin_call me f (kern s); mret (set_pend me a s)
      end)
  | ERun c =>
      at_cpu c s (λ x,
      match cproc x with
      | None => mret s
      | Some me =>
          if leaving x then
            k ← scheduler_back me (kern s);
            mret (set_cpu c (Cpu None false (need_resched x)) (set_kern k s))
          else match pend s !! me with None => mret s | Some a => do_act c me a s end
      end)
  | ETick c =>
      at_cpu c s (λ x,
      '(n, k) ← timer_handler (cproc x) (need_resched x) (kern s);
      mret (set_cpu c (Cpu (cproc x) (leaving x) n) (set_kern k s)))
  | EPreempt c =>
      at_cpu c s (λ x,
      '(b, n) ← should_preempt (cproc x) (need_resched x) (kern s);
      match cproc x, b with
      | Some me, true =>
          k ← yield_locked me (kern s);
          mret (set_cpu c (Cpu (Some me) true false) (set_kern k s))
      | _, _ => mret (set_cpu c (Cpu (cproc x) (leaving x) n) s)
      end)
  | EIntrWakeup ch => k ← wakeup (Some ch) (kern s); mret (set_kern k s)
  | EIntrKill d sig => '(_, k) ← signal_send d sig (kern s); mret (set_kern k s)
  end.

Fixpoint steps (es : list event) s : outcome (ssys Mem) :=
  match es with [] => mret s | e :: es => s ← step e s; steps es s end.

(** [n] idle CPUs over a kernel state. *)
Definition start_sys (n : nat) k : ssys Mem :=
  Ssys k (replicate n (Cpu None false false)) ∅ [] [] [].
End SchedSys.
