(* ===== verification/SchedSpec.v ===== *)
(** [SchedSpec]: what holds in every run of [SchedSys] on one CPU. *)
From Stdlib Require Import ZArith Lia.
From stdpp Require Import numbers strings gmap list.
From S2P Require Import Prelude ListHead MemLayout Buddy Vm Mmap UserMem TaskQueue Proc ProcInv Signal.
From S2P Require Import UserMemSpec SignalSpec SchedSys.
Open Scope Z_scope.

(** ** Slots *)

(** The process runs, waits for a CPU or sleeps. *)
Definition live (p : proc) : Prop := state p = RUNNABLE ∨ state p = RUNNING ∨ state p = SLEEPING.

(** What other processes and interrupts do to a slot: they may wake it, and
    change its signals and its parent. *)
Record calm (p p' : proc) : Prop := {
  calm_stack : kstack p' = kstack p;
  calm_mm : mm p' = mm p;
  calm_pid : pid p' = pid p;
  calm_xstate : xstate p' = xstate p;
  calm_parent j : parent p' = Some j → parent p = Some j ∨ (j < NPROC)%nat;
  calm_state : state p' = state p ∨ state p = SLEEPING ∧ state p' = RUNNABLE
}.

Lemma calm_refl p : calm p p.
Proof. split; auto. Qed.

Lemma calm_live p p' : calm p p' → live p → live p'.
Proof. intros [_ _ _ _ _ [Hs|[_ Hs]]]; unfold live; rewrite Hs; tauto. Qed.

Lemma calm_same p p' st : calm p p' → st ≠ SLEEPING → st ≠ RUNNABLE → state p' = st ↔ state p = st.
Proof. intros [_ _ _ _ _ [Hs|[Hs Hs']]] ? ?; [by rewrite Hs|rewrite Hs, Hs'; naive_solver]. Qed.

(** A slot with [cur] on the CPU: zombies have no address space, free slots
    own nothing unless the process is still leaving, and only [cur] runs. *)
Record slot_ok (cur : option nat) (i : nat) (p : proc) : Prop := {
  sl_zombie : state p = ZOMBIE → mm p = None;
  sl_unused : state p = UNUSED → mm p = None ∧ (cur ≠ Some i → kstack p = 0);
  sl_running : state p = RUNNING → cur = Some i;
  sl_parent j : parent p = Some j → (j < NPROC)%nat
}.

Lemma slot_calm cur i p p' : calm p p' → slot_ok cur i p → slot_ok cur i p'.
Proof.
  intros Hc [H1 H2 H3 H4]. pose proof Hc as [Hs Hm _ _ Hp _]. split.
  1-3: intros Hst; rewrite ?Hm, ?Hs; apply (calm_same p p') in Hst; auto.
  intros j [?|?]%Hp; eauto.
Qed.

(** The status a zombie keeps for its parent. *)
Definition zombie_rec (p : proc) : list (Z * Z) := if decide (state p = ZOMBIE) then [(pid p, xstate p)] else [].

Lemma zombie_rec_calm p p' : calm p p' → zombie_rec p' = zombie_rec p.
Proof.
  intros Hc. pose proof Hc as [_ _ Hp Hx _ _]. unfold zombie_rec.
  pose proof (calm_same p p' ZOMBIE Hc ltac:(done) ltac:(done)). rewrite Hp, Hx. repeat case_decide; tauto.
Qed.

Lemma bind_Forall2 {A B} (R : A → A → Prop) (f : A → list B) l l' :
  Forall2 R l l' → (∀ x y, R x y → f y = f x) → l' ≫= f = l ≫= f.
Proof. intros HR Hf. induction HR as [|x y l l' Hxy HR IH]; [done|]. by rewrite !bind_cons, (Hf x y), IH. Qed.

(** ** The kernel state *)

Section KInv.
Context {Mem : Type} `{KernelMemLaws Mem}.
Implicit Types (k : ksys Mem) (q : list nat) (i me : nat) (cur : option nat) (zs : list (Z * Z)).

Record kinv k cur q zs : Prop := {
  ki_sched : sched_ok k q;
  ki_mem : kmem_ok k;
  ki_slot i p : procs k !! i = Some p → slot_ok cur i p;
  ki_tasks j : initproc k = Some j ∨ kthreadd_task k = Some j → (j < NPROC)%nat;
  ki_zs : procs k ≫= zombie_rec ≡ₚ zs
}.

Lemma kinv_bare k cur q zs : kinv k cur q zs → zombies_bare k.
Proof. intros Hk i p Hp. apply (ki_slot _ _ _ _ Hk i p Hp). Qed.

(** [k'] has the tasks of [k]. *)
Definition same_tasks k k' : Prop := initproc k' = initproc k ∧ kthreadd_task k' = kthreadd_task k.

(** Calm changes of any number of slots. *)
Lemma kinv_calm k k' cur q q' zs : kinv k cur q zs → Forall2 calm (procs k) (procs k') →
  mem k' = mem k → same_tasks k k' → sched_ok k' q' → kinv k' cur q' zs.
Proof.
  intros [H1 H2 H3 H4 H5] Hc Hm [Ht1 Ht2] Hs. split; [done| | |by rewrite Ht1, Ht2|].
  - unfold kmem_ok in *. rewrite Hm, !(bind_Forall2 calm _ _ _ Hc); [done|..];
      intros x y [Hks Hmm _ _ _ _]; unfold own_stack, own_space; by rewrite ?Hks, ?Hmm.
  - intros i p' Hp'. destruct (Forall2_lookup_r _ _ _ _ _ Hc Hp') as (p & Hp & Hcp). eapply slot_calm; eauto.
  - by rewrite (bind_Forall2 calm _ _ _ Hc zombie_rec_calm).
Qed.

(** An arbitrary change of one slot. *)
Lemma kinv_set k k2 cur cur' q q' zs i p p' : kinv k cur q zs → procs k !! i = Some p → procs k2 = procs k → same_tasks k k2 →
  sched_ok (set_proc i p' k2) q' → kmem_ok (set_proc i p' k2) → slot_ok cur' i p' →
  (∀ j r, j ≠ i → slot_ok cur j r → slot_ok cur' j r) →
  ∃ zs', zombie_rec p ++ zs' ≡ₚ zombie_rec p' ++ zs ∧ kinv (set_proc i p' k2) cur' q' zs'.
Proof.
  intros [H1 H2 H3 H4 H5] Hi Hk2 [Ht1 Ht2] Hs Hm Hsl Hcur.
  destruct (bind_slot zombie_rec i p _ Hi) as (R & HR & HR'). exists (zombie_rec p' ++ R). split.
  { rewrite <- H5, HR. solve_Permutation. }
  split; [done|done| |ks; by rewrite Ht1, Ht2|]; ks; rewrite Hk2; [|apply HR'].
  intros j r [(-> & <- & _)|[Hne Hj]]%list_lookup_insert_Some; eauto.
Qed.

Lemma kinv_perm k cur q zs zs' : zs ≡ₚ zs' → kinv k cur q zs → kinv k cur q zs'.
Proof. intros Hz [H1 H2 H3 H4 H5]. split; try done. by rewrite H5. Qed.

(** The same when the status records do not change. *)
Lemma kinv_set' k k2 cur cur' q q' zs i p p' : kinv k cur q zs → procs k !! i = Some p → procs k2 = procs k → same_tasks k k2 →
  sched_ok (set_proc i p' k2) q' → kmem_ok (set_proc i p' k2) → slot_ok cur' i p' →
  (∀ j r, j ≠ i → slot_ok cur j r → slot_ok cur' j r) →
  state p ≠ ZOMBIE → state p' ≠ ZOMBIE → kinv (set_proc i p' k2) cur' q' zs.
Proof.
  intros. edestruct (kinv_set k k2 cur cur' q q' zs i p p') as (zs' & Hz & Hk); try done.
  eapply kinv_perm; [|exact Hk]. unfold zombie_rec in Hz. by rewrite !decide_False in Hz.
Qed.

(** ** Pending actions *)

(** The slot an action is building. *)
Definition builds (a : act) : option nat :=
  match a with AForkBuild i | AKthreadBuild i _ _ | AStart i => Some i | _ => None end.

(** What an action needs of the process that has it. *)
Definition holds cur i (a : act) (p : proc) : Prop :=
  match a with
  | AExitWake _ => cur = Some i ∧ state p = ZOMBIE
  | AFork | AForkBuild _ => live p ∧ is_Some (mm p)
  | AKthreadExit => live p ∧ mm p = None
  | AKthread _ par | AKthreadBuild _ _ par => live p ∧ ∀ j, par = Some j → (j < NPROC)%nat
  | _ => live p
  end.

(** What it needs of the slot it builds. *)
Definition built (a : act) (p : proc) : Prop :=
  state p = USED ∧ match a with AStart _ => kstack p ≠ 0 | _ => kstack p = 0 ∧ mm p = None end.

Record pend_inv k cur (P : gmap nat act) : Prop := {
  pi_holds i a : P !! i = Some a → ∃ p, procs k !! i = Some p ∧ holds cur i a p;
  pi_built i a j : P !! i = Some a → builds a = Some j → ∃ p, procs k !! j = Some p ∧ built a p;
  pi_uniq i1 i2 a1 a2 j : P !! i1 = Some a1 → P !! i2 = Some a2 →
    builds a1 = Some j → builds a2 = Some j → i1 = i2
}.

(** No pending action depends on slot [i]. *)
Definition untouched (P : gmap nat act) i : Prop := P !! i = None ∧ ∀ j a, P !! j = Some a → builds a ≠ Some i.

(** What pending actions cannot tell apart. *)
Record mild (p p' : proc) : Prop := {
  mild_stack : kstack p' = kstack p;
  mild_mm : mm p' = mm p;
  mild_state : live p ∧ live p' ∨ state p' = state p
}.

Lemma calm_mild p p' : calm p p' → mild p p'.
Proof.
  intros Hc. pose proof (calm_live p p' Hc) as Hlv. destruct Hc as [H1 H2 _ _ _ H3]. split; [done..|].
  destruct H3 as [?|[Hs _]]; [by right|]. left. assert (live p) by (by right; right). auto.
Qed.

Lemma holds_mild cur i a p p' : mild p p' → holds cur i a p → holds cur i a p'.
Proof.
  intros [_ Hm Hs]. assert (live p → live p') as Hlive by (intros Hl; destruct Hs as [[_ ?]|Hs]; [done|unfold live in *; by rewrite Hs]).
  destruct a; cbn; rewrite ?Hm; try tauto. destruct Hs as [[Hl _]|Hs]; [|by rewrite Hs].
  intros [_ Hz]. unfold live in Hl. rewrite Hz in Hl. naive_solver.
Qed.

Lemma built_mild a p p' : mild p p' → built a p → built a p'.
Proof.
  intros [Hk Hm Hs] [Hu Ha]. unfold built. rewrite Hk, Hm. split; [|done]. destruct Hs as [[Hl _]|Hs]; [|congruence].
  unfold live in Hl. rewrite Hu in Hl. naive_solver.
Qed.

(** Mild changes everywhere but in slots no action depends on. *)
Lemma pend_frame k k' cur cur' P : pend_inv k cur P →
  (∀ i p, procs k !! i = Some p → untouched P i ∨ ∃ p', procs k' !! i = Some p' ∧ mild p p') →
  cur' = cur ∨ (∀ i j, P !! i ≠ Some (AExitWake j)) → pend_inv k' cur' P.
Proof.
  intros [H1 H2 H3] Hc Hcur. split; [..|done].
  - intros i a Ha. destruct (H1 i a Ha) as (p & Hp & Hh). destruct (Hc i p Hp) as [[Hn _]|(p' & Hp' & Hcp)]; [congruence|].
    exists p'. split; [done|]. eapply holds_mild; [done|]. destruct Hcur as [-> |Hno]; [done|].
    destruct a; try done. by destruct (Hno i par).
  - intros i a j Ha Hb. destruct (H2 i a j Ha Hb) as (p & Hp & Hh).
    destruct (Hc j p Hp) as [[_ Hn]|(p' & Hp' & Hcp)]; [by destruct (Hn i a)|]. exists p'. split; [done|]. by eapply built_mild.
Qed.

Lemma pend_pop k cur P me : pend_inv k cur P → pend_inv k cur (delete me P).
Proof. intros [H1 H2 H3]. split; intros *; rewrite !lookup_delete_Some; naive_solver. Qed.

Lemma pend_push k cur P me a p : pend_inv k cur P → procs k !! me = Some p → holds cur me a p →
  (∀ j, builds a = Some j → untouched (delete me P) j ∧ ∃ r, procs k !! j = Some r ∧ built a r) →
  pend_inv k cur (<[me := a]> P).
Proof.
  intros [H1 H2 H3] Hp Hh Hb. split.
  - intros i b [[<- <-]|[_ Hi]]%lookup_insert_Some; eauto.
  - intros i b j [[<- <-]|[_ Hi]]%lookup_insert_Some ?; [by apply Hb|eauto].
  - intros i1 i2 a1 a2 j [[<- <-]|[Hn1 Hi1]]%lookup_insert_Some [[<- <-]|[Hn2 Hi2]]%lookup_insert_Some Hb1 Hb2;
      [done| | |eauto].
    + destruct (Hb _ Hb1) as [[_ Hu] _]. destruct (Hu i2 a2); [by apply lookup_delete_Some|done].
    + destruct (Hb _ Hb2) as [[_ Hu] _]. destruct (Hu i1 a1); [by apply lookup_delete_Some|done].
Qed.

(** The action [me] has run is replaced by [a']. *)
Lemma pend_act k k' P me p a' : pend_inv k (Some me) P → procs k !! me = Some p → state p ≠ USED →
  (∀ i r, i ≠ me → procs k !! i = Some r → untouched (delete me P) i ∨ ∃ r', procs k' !! i = Some r' ∧ calm r r') →
  (∀ a, a' = Some a → ∃ p', procs k' !! me = Some p' ∧ holds (Some me) me a p' ∧
     ∀ j, builds a = Some j → untouched (delete me P) j ∧ ∃ r, procs k' !! j = Some r ∧ built a r) →
  pend_inv k' (Some me) (partial_alter (λ _, a') me P).
Proof.
  intros HP Hp Hst Hc Ha. pose proof (pend_pop _ _ _ me HP) as HP0.
  assert (pend_inv k' (Some me) (delete me P)) as HP1.
  { eapply pend_frame; [exact HP0| |by left]. intros i r Hr. destruct (decide (i = me)) as [->|Hne].
    2:{ destruct (Hc i r Hne Hr) as [?|(r' & ? & ?%calm_mild)]; eauto. }
    left. split; [by rewrite lookup_delete_eq|]. intros j a Hj Hb.
    destruct (pi_built _ _ _ HP0 j a me Hj Hb) as (r' & Hr' & Hs & _). simplify_eq; congruence. }
  destruct a' as [a|].
  - destruct (Ha a eq_refl) as (p' & Hp' & Hh & Hb).
    replace (partial_alter (λ _, Some a) me P) with (<[me := a]> (delete me P)).
    2:{ rewrite insert_delete_eq. done. }
    eapply pend_push; [done..|]. intros j Hj. rewrite (delete_id (delete me P)) by (by rewrite lookup_delete_eq). by apply Hb.
  - done.
Qed.

Lemma untouched_unused k cur P i p : pend_inv k cur P → procs k !! i = Some p → state p = UNUSED → untouched P i.
Proof.
  intros HP Hp Hst. split.
  - destruct (P !! i) as [a|] eqn:Ha; [|done]. destruct (pi_holds _ _ _ HP i a Ha) as (r & Hr & Hh). simplify_eq.
    exfalso. unfold holds, live in Hh. destruct a; rewrite Hst in Hh; naive_solver.
  - intros j a Ha Hb. destruct (pi_built _ _ _ HP j a i Ha Hb) as (r & Hr & Hs & _). simplify_eq. congruence.
Qed.

(** The slot [me] is building belongs to no other action. *)
Lemma untouched_mine k cur P me a i : pend_inv k cur P → P !! me = Some a → builds a = Some i → untouched (delete me P) i.
Proof.
  intros HP Ha Hb. destruct (pi_built _ _ _ HP me a i Ha Hb) as (r & Hr & Hs & _). split.
  - destruct (delete me P !! i) as [b|] eqn:Hd; [|done]. apply lookup_delete_Some in Hd as [_ Hd].
    destruct (pi_holds _ _ _ HP i b Hd) as (r' & Hr' & Hh). simplify_eq.
    exfalso. unfold holds, live in Hh. destruct b; rewrite Hs in Hh; naive_solver.
  - intros j b [Hne Hj]%lookup_delete_Some Hbj. destruct Hne. by eapply (pi_uniq _ _ _ HP).
Qed.

(** ** Changes of the running process *)

Lemma kinv_me k h q q' zs me p p' : kinv k (Some me) q zs → procs k !! me = Some p → state p = RUNNING →
  let k' := set_proc me p' (with_nodes h k) in
  sched_ok k' q' → kstack p' = kstack p → mm p' = mm p →
  parent p' = parent p →
  state p' = RUNNABLE ∨ state p' = SLEEPING ∨ state p' = UNUSED ∧ mm p = None → kinv k' (Some me) q' zs.
Proof.
  intros Hk Hp Hst k' Hs Hks Hm Hpar Hst'.
  eapply kinv_set'; [exact Hk|exact Hp|done|done|exact Hs| |split|done|by rewrite Hst|].
  - by eapply (kmem_same (with_nodes h k)); [|apply (ki_mem _ _ _ _ Hk)|..].
  - intros Hz. rewrite Hz in Hst'. naive_solver.
  - intros Hz. rewrite Hm. rewrite Hz in Hst'. naive_solver.
  - done.
  - intros j. rewrite Hpar. apply (ki_slot _ _ _ _ Hk me p Hp).
  - intros Hz. rewrite Hz in Hst'. naive_solver.
Qed.

(** ** Calm operations *)

Lemma calm_insert (l : list proc) i p p' : l !! i = Some p → calm p p' → Forall2 calm l (<[i := p']> l).
Proof.
  intros Hi Hc. apply Forall2_same_length_lookup_2; [by rewrite length_insert|].
  intros j x y Hx [(-> & <- & _)|[_ Hy]]%list_lookup_insert_Some; simplify_eq; [done|apply calm_refl].
Qed.

Lemma calm_map (f : proc → proc) (l : list proc) : (∀ p, calm p (f p)) → Forall2 calm l (f <$> l).
Proof. intros Hf. induction l; constructor; auto. Qed.

Lemma calm_wake sel p : (sel p = true → state p = SLEEPING) → calm p (wake_proc sel p).
Proof. intros Hs. unfold wake_proc. destruct (sel p); [|apply calm_refl]. split; cbn; auto. Qed.

Lemma calm_signalled sig p : calm p (signalled sig p).
Proof.
  unfold signalled, mark_pending. destruct (decide (state p = SLEEPING)), (sig =? SIGKILL); split; cbn; auto.
Qed.

Lemma calm_adopt me ini p : (∀ j, ini = Some j → (j < NPROC)%nat) → calm p (adopt me ini p).
Proof. intros Hi. unfold adopt. destruct (_ && _); [|apply calm_refl]. split; cbn; auto. Qed.

(** The common shape: the operation leaves the table calm and appends to the
    queue. *)
Definition calm_op k q (r : outcome (ksys Mem)) : Prop :=
  ∃ k' new, r = Done k' ∧ Forall2 calm (procs k) (procs k') ∧ mem k' = mem k ∧
    same_tasks k k' ∧ sched_ok k' (q ++ new).

Lemma calm_list (l : list proc) : Forall2 calm l l.
Proof. induction l; constructor; [apply calm_refl|done]. Qed.

Lemma calm_done k q : sched_ok k q → calm_op k q (Done k).
Proof. intros Hk. exists k, []. rewrite app_nil_r. split_and!; try done. apply calm_list. Qed.

Lemma wakeup_calm k q ch : sched_ok k q → calm_op k q (wakeup (Some ch) k).
Proof.
  intros Hk. destruct (wakeup_ok ch k q Hk) as (h & -> & Hk'). eexists _, _. split_and!; [done| |done|done|exact Hk'].
  apply calm_map. intros p. apply calm_wake. intros [Hs%bool_decide_eq_true _]%andb_true_iff. done.
Qed.

Lemma due_calm k q : sched_ok k q → calm_op k q (wake_due k).
Proof.
  intros Hk. destruct (wake_due_ok k q Hk) as (h & -> & Hk'). eexists _, _. split_and!; [done| |done|done|exact Hk'].
  apply calm_map. intros p. apply calm_wake. intros [[Hs%bool_decide_eq_true _]%andb_true_iff _]%andb_true_iff. done.
Qed.

Lemma send_calm k q d sig : sched_ok k q → calm_op k q (r ← signal_send d sig k; mret r.2).
Proof.
  intros Hk. destruct (signal_send_ok k q d sig Hk) as [-> |(_ & i & p & h & Hp & _ & -> & Hk')]; cbn.
  { by apply calm_done. }
  eexists _, (if decide (state p = SLEEPING) then [i] else []). split_and!; [done| |done|done|].
  - ks. eapply calm_insert; [done|apply calm_signalled].
  - cbn in Hk'. case_decide; [done|by rewrite app_nil_r].
Qed.

Lemma child_exit_calm k cur q zs me p : kinv k cur q zs → procs k !! me = Some p →
  calm_op k q (signal_parent_child_exit me k).
Proof.
  intros Hk Hp. pose proof (ki_sched _ _ _ _ Hk) as Hs. unfold signal_parent_child_exit.
  rewrite (get_proc_ok _ _ _ Hp). run.
  destruct (parent p) as [j|] eqn:Hpar; [|by apply calm_done]. case_bool_decide; [by apply calm_done|].
  destruct (sched_slot k q j Hs) as [r Hr]; [by apply (sl_parent _ _ _ (ki_slot _ _ _ _ Hk me p Hp))|].
  rewrite (get_proc_ok _ _ _ Hr). run. destruct (_ =? 0); [by apply calm_done|]. eexists _, []. rewrite app_nil_r.
  split_and!; [done| |done|done|].
  - ks. eapply calm_insert; [done|]. split; cbn; auto.
  - eapply sched_set; [done..|]. cbn. by apply (so_stack _ _ Hs j r).
Qed.

(** ** Building a process *)

Lemma spaces_le (l : list proc) : (length (l ≫= own_space) ≤ length l)%nat.
Proof.
  induction l as [|p l IH]; [done|]. rewrite bind_cons, length_app. cbn [length].
  unfold own_space at 1. destruct (mm p); cbn [from_option length]; lia.
Qed.

(** Slot [i], not in use, now holds [p'], and memory is [m]. *)
Definition built_slot k k' i (p' : proc) : Prop := ∃ m, k' = set_proc i p' (with_mem m k).

Section Build.
Context k cur q zs i p (Hk : kinv k cur q zs) (Hi : procs k !! i = Some p) (Hst : state p = USED).

Lemma kinv_built p' m : state p' = USED ∨ state p' = UNUSED ∧ kstack p' = 0 ∧ mm p' = None →
  kmem_ok (set_proc i p' (with_mem m k)) → (∀ j, parent p' = Some j → (j < NPROC)%nat) →
  kinv (set_proc i p' (with_mem m k)) cur q zs.
Proof.
  intros Hst' Hm Hpar. eapply kinv_set'; [exact Hk|exact Hi|done|done| |done| |done|by rewrite Hst|].
  - eapply (sched_idle (with_mem m k)); [apply sched_mem, Hk|exact Hi|by rewrite Hst|].
    unfold idle_state. naive_solver.
  - split; [| | |done]; destruct Hst' as [Hs|(Hs & ? & ?)]; rewrite Hs; done.
  - destruct Hst' as [Hs|(Hs & _)]; by rewrite Hs.
Qed.

Lemma free_built p1 m : state p1 = USED → kmem_ok (set_proc i p1 (with_mem m k)) →
  ∃ k', proc_free i (set_proc i p1 (with_mem m k)) = Done k' ∧ kinv k' cur q zs ∧ built_slot k k' i (freed_proc p1).
Proof.
  intros Hs1 Hm1. destruct (proc_free_ok (set_proc i p1 (with_mem m k)) q i p1) as (m' & -> & _ & Hm'); try done.
  - eapply (sched_idle (with_mem m k)); [apply sched_mem, Hk|exact Hi|by rewrite Hst|by right; left].
  - by eapply (lookup_set_proc (with_mem m k)).
  - by rewrite Hs1.
  - by right; left.
  - change (with_mem m' (set_proc i p1 (with_mem m k))) with (set_proc i p1 (with_mem m' k)) in *.
    rewrite set_set in *. eexists. split; [done|]. split; [|by exists m']. apply kinv_built; [by right|done|done].
Qed.

Lemma kthread_build_ok nm par : kstack p = 0 → (∀ j, parent p = Some j ∨ par = Some j → (j < NPROC)%nat) →
  ∃ b k' p', kthread_build i nm par k = Done (b, k') ∧ kinv k' cur q zs ∧ built_slot k k' i p' ∧
    (b = true → state p' = USED ∧ kstack p' ≠ 0).
Proof.
  intros Hz Hpar. unfold kthread_build.
  destruct (alloc_kstack_ok k i p (ki_mem _ _ _ _ Hk) Hi Hz) as (ks & m & -> & Hm). run.
  set (p1 := with_image (mm p) ks (entry p) p) in *. destruct (Z.eqb_spec ks 0) as [_|Hks]; cbn [negb].
  - destruct (free_built p1 m Hst Hm) as (k' & -> & Hk' & Hb). run. by exists false, k', (freed_proc p1).
  - assert (procs (set_proc i p1 (with_mem m k)) !! i = Some p1) as H1 by (by eapply (lookup_set_proc (with_mem m k))).
    rewrite (get_proc_ok _ _ _ H1). run. rewrite set_set. set (p2 := with_ident _ _ _ _ _).
    exists true, (set_proc i p2 (with_mem m k)), p2. split; [done|]. split; [|by split; [exists m|done]].
    apply kinv_built; [by left| |].
    + rewrite <- (set_set _ i _ p1). by eapply kmem_same.
    + intros j Hj. apply Hpar. cbn in Hj. destruct par; auto.
Qed.
End Build.

(** The address space of another slot among those slot [i] does not own. *)
Lemma other_space k i p A j r x : procs k !! i = Some p → own_space p = [] →
  procs k ≫= own_space ≡ₚ own_space p ++ A → length (procs k) = NPROC →
  procs k !! j = Some r → mm r = Some x → ∃ A', A ≡ₚ pgdir x :: A' ∧ (length A' < NPROC)%nat.
Proof.
  intros Hi Ho HA Hlen Hj Hx. rewrite Ho in HA. cbn in HA.
  assert (pgdir x ∈ A) as [A' HA']%elem_of_Permutation.
  { rewrite <- HA. apply list_elem_of_bind. exists r. unfold own_space. rewrite Hx.
    split; [by left|by eapply list_elem_of_lookup_2]. }
  exists A'. split; [done|]. pose proof (spaces_le (procs k)) as Hle.
  apply Permutation_length in HA, HA'. cbn [length] in *. lia.
Qed.

Lemma set_mm_ok k i p m : procs k !! i = Some p →
  set_mm i m k = Done (set_proc i (with_image m (kstack p) (entry p) p) k).
Proof. intros Hi. unfold set_mm. rewrite (get_proc_ok _ _ _ Hi). done. Qed.

Lemma fork_build_ok k me q zs i p pm : kinv k (Some me) q zs →
  procs k !! i = Some p → state p = USED → kstack p = 0 → mm p = None →
  procs k !! me = Some pm → is_Some (mm pm) → (me < NPROC)%nat →
  ∃ b k' p', fork_build me i k = Done (b, k') ∧ kinv k' (Some me) q zs ∧ built_slot k k' i p' ∧
    (b = true → state p' = USED ∧ kstack p' ≠ 0).
Proof.
  intros Hk Hi Hst Hz Hmm Hme [x Hx] Hlt. unfold fork_build. rewrite (get_proc_ok _ _ _ Hme). run. rewrite Hx. cbn [deref]. run.
  destruct (kmem_slot k i p Hi) as (S & A & HS & HA & Hb & Ha).
  assert (own_stack p = []) as Hos by (unfold own_stack; by rewrite Hz).
  assert (own_space p = []) as Hoa by (unfold own_space; by rewrite Hmm).
  destruct (other_space k i p A me pm x Hi Hoa HA (so_len _ _ (ki_sched _ _ _ _ Hk)) Hme Hx) as (A' & HA' & Hlen).
  pose proof (ki_mem _ _ _ _ Hk) as Hkm. apply Hb in Hkm. rewrite Hos, Hoa in Hkm. cbn [app] in Hkm.
  destruct (km_fork_law (mem k) x S A') as (r & m1 & -> & Hm1); [by eapply km_inv_perm|done|]. run.
  assert (∀ m j, procs (with_mem m k) !! j = procs k !! j) as Hpr by done.
  destruct r as [[y ok]|]; cbn [from_option app] in Hm1.
  2:{ assert (kmem_ok (set_proc i p (with_mem m1 k))) as Hf.
      { apply Ha. rewrite Hos, Hoa. eapply km_inv_perm; [done|symmetry; exact HA'|exact Hm1]. }
      destruct (free_built k (Some me) q zs i p Hk Hi Hst p m1 Hst Hf) as (k' & Hrun & Hk' & Hbs).
      rewrite set_same in Hrun by done. rewrite Hrun. run. by exists false, k', (freed_proc p). }
  rewrite (set_mm_ok _ i p) by done. run. rewrite Hz. set (p1 := with_image (Some y) 0 (entry p) p).
  assert (∀ y' m, pgdir y' = pgdir y → km_inv m S (pgdir y :: pgdir x :: A') → ∀ p', own_stack p' = [] → mm p' = Some y' →
    kmem_ok (set_proc i p' (with_mem m k))) as Hput.
  { intros y' m Hy' Hin p' Hs' Hm'. apply Ha. unfold own_space. rewrite Hs', Hm'. cbn. rewrite Hy'.
    eapply km_inv_perm; [done| |exact Hin]. by rewrite HA'. }
  destruct ok; cbn [negb fst] in *.
  2:{ destruct (free_built k (Some me) q zs i p Hk Hi Hst p1 m1 Hst) as (k' & -> & Hk' & Hbs); [by eapply Hput|]. run.
      by exists false, k', (freed_proc p1). }
  change (mem (set_proc i p1 (with_mem m1 k))) with m1.
  destruct (km_shm_law m1 (fork_fields x y) x S A') as (y' & m2 & -> & Hy' & Hm2); [done|]. run.
  change (with_mem m2 (set_proc i p1 (with_mem m1 k))) with (set_proc i p1 (with_mem m2 k)).
  assert (∀ p' m, procs (set_proc i p' (with_mem m k)) !! i = Some p') as Hat
    by (intros; by eapply (lookup_set_proc (with_mem _ k))).
  rewrite (set_mm_ok _ i p1) by apply Hat. run. rewrite set_set. set (p2 := with_image (Some y') _ _ p1).
  rewrite (get_proc_ok _ _ _ (Hat p2 m2)). run. rewrite set_set. set (p3 := with_ident _ _ _ _ p2).
  destruct (alloc_kstack_ok (set_proc i p3 (with_mem m2 k)) i p3) as (ks & m3 & -> & Hm3);
    [by eapply Hput|apply Hat|done|]. run.
  change (with_mem m3 (set_proc i p3 (with_mem m2 k))) with (set_proc i p3 (with_mem m3 k)) in *. rewrite set_set in *.
  set (p4 := with_image _ ks _ p3) in *. destruct (Z.eqb_spec ks 0) as [_|Hks]; cbn [negb].
  - destruct (free_built k (Some me) q zs i p Hk Hi Hst p4 m3 Hst Hm3) as (k' & -> & Hk' & Hbs). run. by exists false, k', (freed_proc p4).
  - rewrite (get_proc_ok _ _ _ (Hat p4 m3)). run. rewrite set_set. set (p5 := signal_fork p4 pm).
    exists true, (set_proc i p5 (with_mem m3 k)), p5. split; [done|]. split; [|by split; [exists m3|done]].
    eapply kinv_built; [exact Hk|exact Hi|done|by left| |].
    + rewrite <- (set_set _ i _ p4). eapply kmem_same; [apply Hat|done..].
    + intros j [= <-]. done.
Qed.

Lemma untouched_zombie k me P i p : pend_inv k (Some me) P → procs k !! i = Some p → state p = ZOMBIE → i ≠ me →
  untouched P i.
Proof.
  intros HP Hp Hst Hne. split.
  - destruct (P !! i) as [a|] eqn:Ha; [|done]. destruct (pi_holds _ _ _ HP i a Ha) as (r & Hr & Hh). simplify_eq.
    exfalso. unfold holds, live in Hh. destruct a; rewrite Hst in Hh; naive_solver.
  - intros j a Ha Hb. destruct (pi_built _ _ _ HP j a i Ha Hb) as (r & Hr & Hs & _). simplify_eq. congruence.
Qed.

Lemma untouched_delete P me i : untouched P i → untouched (delete me P) i.
Proof. intros [H1 H2]. split; [|intros j a [_ Hj]%lookup_delete_Some; eauto]. rewrite lookup_delete. by case_decide. Qed.

(** ** Boot *)

Lemma kinv_alloc k cur q zs : kinv k cur q zs → (∀ i, cur = Some i → from_option state UNUSED (procs k !! i) ≠ UNUSED) →
  ∃ r k', proc_alloc k = Done (r, k') ∧ kinv k' cur q zs ∧ same_tasks k k' ∧
    ∀ i, r = Some i → ∃ p, procs k' !! i = Some p ∧ state p = USED ∧ kstack p = 0 ∧ parent p = None.
Proof.
  intros Hk Hcur. destruct (proc_alloc_ok k q (ki_sched _ _ _ _ Hk)) as [[-> _]|(i & r & h & _ & Hi & Hu & -> & Hs)].
  { by exists None, k. }
  destruct (sl_unused _ _ _ (ki_slot _ _ _ _ Hk i r Hi) Hu) as [Hmm Hks]. eexists _, _. split; [done|]. split_and!.
  - eapply kinv_set'; [exact Hk|exact Hi|done|done|exact Hs| |by split|done|by rewrite Hu|done].
    eapply (kmem_same (with_nextpid _ (with_nodes h k))); [exact Hi|apply (ki_mem _ _ _ _ Hk)| |by rewrite Hmm].
    rewrite Hks; [done|]. intros Hc. apply (Hcur i Hc). by rewrite Hi.
  - done.
  - intros j [= <-]. eexists. split; [by eapply (lookup_set_proc (with_nextpid _ (with_nodes h k)))|done].
Qed.

Lemma kthread_create_ok k cur q zs nm par : kinv k cur q zs →
  (∀ i, cur = Some i → from_option state UNUSED (procs k !! i) ≠ UNUSED) → (∀ j, par = Some j → (j < NPROC)%nat) →
  ∃ r k', kthread_create_sync nm par k = Done (r, k') ∧ same_tasks k k' ∧
    kinv k' cur (q ++ option_list r) zs ∧ (∀ i, r = Some i → ∃ p, procs k' !! i = Some p ∧ state p = RUNNABLE).
Proof.
  intros Hk Hcur Hpar. unfold kthread_create_sync.
  destruct (kinv_alloc k cur q zs Hk Hcur) as (r & k1 & -> & Hk1 & Ht1 & Hr). run. destruct r as [i|].
  2:{ exists None, k1. cbn. rewrite app_nil_r. by split_and!. }
  destruct (Hr i eq_refl) as (p & Hp & Hst & Hz & Hpp).
  destruct (kthread_build_ok k1 cur q zs i p Hk1 Hp Hst nm par Hz) as (b & k2 & p2 & -> & Hk2 & [m ->] & Hb).
  { intros j. rewrite Hpp. intros [?|?]; [done|by apply Hpar]. }
  run. destruct b; cbn [negb].
  2:{ eexists None, _. cbn. rewrite app_nil_r. split; [done|]. by split_and!. }
  destruct (Hb eq_refl) as [Hst2 Hks2]. set (k2 := set_proc i p2 (with_mem m k1)) in *.
  assert (procs k2 !! i = Some p2) as Hp2 by (by eapply (lookup_set_proc (with_mem m k1))).
  destruct (start_ok k2 q i p2 (ki_sched _ _ _ _ Hk2) Hp2 Hst2 Hks2) as (h & -> & Hs). run.
  eexists (Some i), _. split; [done|]. split; [done|]. split.
  - eapply kinv_set'; [exact Hk2|exact Hp2|done|done|exact Hs| | |done|by rewrite Hst2|done].
    + eapply (kmem_same (with_nodes h k2)); [exact Hp2|apply (ki_mem _ _ _ _ Hk2)|done..].
    + split; try done. apply (ki_slot _ _ _ _ Hk2 i p2 Hp2).
  - intros j [= <-]. eexists. split; [by eapply (lookup_set_proc (with_nodes h k2))|done].
Qed.

Lemma under_swapper_ok k cur q zs i p : kinv k cur q zs → procs k !! i = Some p →
  ∃ k', under_swapper i k = Done k' ∧ kinv k' cur q zs ∧ same_tasks k k'.
Proof.
  intros Hk Hp. unfold under_swapper. rewrite (get_proc_ok _ _ _ Hp). run. eexists. split; [done|]. split; [|done].
  eapply kinv_calm; [exact Hk|eapply calm_insert; [exact Hp|]|done|done|].
  - split; cbn; auto. intros j [= <-]. right. unfold NPROC. lia.
  - eapply sched_set; [apply Hk|exact Hp|done|]. cbn. apply (so_stack _ _ (ki_sched _ _ _ _ Hk) i p Hp).
Qed.

Lemma kinv_tasks k cur q zs ini kt : kinv k cur q zs → (∀ j, ini = Some j ∨ kt = Some j → (j < NPROC)%nat) →
  kinv (with_tasks ini kt k) cur q zs.
Proof. intros [[] H2 H3 H4 H5] Ht. by split. Qed.

Lemma procinit_slot (m : Mem) i p : procs (procinit m) !! i = Some p →
  p = zero_proc ∨ p = with_state USED (with_ident 0 (Some 0%nat) 0 swapper_name zero_proc).
Proof.
  unfold procinit. cbn [procs]. intros [(_ & <- & _)|[_ Hi]]%list_lookup_insert_Some; [by right|].
  apply lookup_replicate in Hi as [-> _]. by left.
Qed.

Lemma procinit_ok (m : Mem) : km_inv m [] [] → kinv (procinit m) None [] [].
Proof.
  intros Hm. split; [split| | | |done].
  - done.
  - apply tq_init.
  - intros i p [-> | ->]%procinit_slot; (split; [by intros ?%elem_of_nil|done]).
  - intros i p [-> | ->]%procinit_slot; naive_solver.
  - exact Hm.
  - intros i p [-> | ->]%procinit_slot; split; try done. intros j [= <-]. unfold NPROC. lia.
  - by intros j [?|?].
Qed.

Lemma rest_init_ok (m : Mem) : km_inv m [] [] →
  (∃ k i j, rest_init (procinit m) = Done k ∧ kinv k None [i; j] [] ∧ initproc k = Some i) ∨
  ∃ msg, rest_init (procinit m) = Panic msg.
Proof.
  intros Hm. unfold rest_init. pose proof (procinit_ok m Hm) as Hk0.
  destruct (kthread_create_ok (procinit m) None [] [] (Some init_name) None Hk0) as (r & k1 & -> & Ht1 & Hk1 & Hr1); [done..|].
  run. destruct r as [i|]; [|by right; eexists]. destruct (Hr1 i eq_refl) as (p1 & Hp1 & _). cbn [option_list app] in Hk1.
  pose proof (sched_lt _ _ _ _ (ki_sched _ _ _ _ Hk1) Hp1) as Hi.
  apply (kinv_tasks _ _ _ _ (Some i) None) in Hk1; [|by intros j [[= <-]|?]].
  destruct (under_swapper_ok _ _ _ _ i p1 Hk1 Hp1) as (k2 & -> & Hk2 & Ht2). run.
  destruct (kthread_create_ok k2 None [i] [] (Some kthreadd_name) (Some i) Hk2) as (r & k3 & -> & Ht3 & Hk3 & Hr3);
    [done|by intros j [= <-]|].
  run. destruct r as [j|]; [|by right; eexists]. destruct (Hr3 j eq_refl) as (p3 & Hp3 & _). cbn [option_list app] in Hk3.
  pose proof (sched_lt _ _ _ _ (ki_sched _ _ _ _ Hk3) Hp3) as Hj.
  apply (kinv_tasks _ _ _ _ (Some i) (Some j)) in Hk3; [|by intros l [[= <-]|[= <-]]].
  destruct (under_swapper_ok _ _ _ _ j p3 Hk3 Hp3) as (k4 & -> & Hk4 & Ht4). left. exists k4, i, j.
  split; [done|]. split; [done|]. by rewrite (proj1 Ht4).
Qed.
End KInv.

(** ** The system on one CPU *)

Section SysInv.
Context {Mem : Type} `{KernelMemLaws Mem}.
Implicit Types (k : ksys Mem) (s : ssys Mem) (q : list nat) (me : nat) (x : cpu).

(** The process [x] is on runs, or has run its last section. *)
Definition cur_inv k x (P : gmap nat act) : Prop :=
  match cproc x with
  | None => leaving x = false
  | Some i => ∃ p, procs k !! i = Some p ∧
      if leaving x then state p ≠ RUNNING ∧ state p ≠ USED ∧ (∀ j, P !! i ≠ Some (AExitWake j))
      else state p = RUNNING ∨ state p = ZOMBIE ∧ ∃ j, P !! i = Some (AExitWake j)
  end.

(** Every status a process ended with has been returned by [wait_child] or is
    kept by a zombie. *)
Definition sys_inv s q : Prop :=
  ∃ x zs, cpus s = [x] ∧ kinv (kern s) (cproc x) q zs ∧ ended s ≡ₚ waited s ++ zs ∧
    pend_inv (kern s) (cproc x) (pend s) ∧ cur_inv (kern s) x (pend s).

(** A step that goes well: it appends to the run queue and takes from its
    head. *)
Definition advance s q s' : Prop :=
  ∃ q' new, sys_inv s' q' ∧ dispatched s' ++ q' = dispatched s ++ q ++ new.

Definition fine s q (r : outcome (ssys Mem)) : Prop :=
  (∃ s', r = Done s' ∧ advance s q s') ∨ r = Panic "init exiting" ∨ r = Panic "kthreadd exiting".

Lemma fine_same s q : sys_inv s q → fine s q (Done s).
Proof. intros Hs. left. exists s. split; [done|]. exists q, []. by rewrite app_nil_r. Qed.

Lemma sys_calm s q k' q' : sys_inv s q → Forall2 calm (procs (kern s)) (procs k') → mem k' = mem (kern s) →
  same_tasks (kern s) k' → sched_ok k' q' → sys_inv (set_kern k' s) q'.
Proof.
  intros (x & zs & Hx & Hk & Hl & HP & Hc) Hcalm Hm Ht Hs. exists x, zs. split; [done|].
  split; [by eapply kinv_calm|]. split; [done|]. split; cbn [kern set_kern pend].
  - eapply pend_frame; [exact HP| |by left]. intros i p Hp. right.
    destruct (Forall2_lookup_l _ _ _ _ _ Hcalm Hp) as (p' & Hp' & ?%calm_mild). eauto.
  - unfold cur_inv in *. destruct (cproc x) as [i|]; [|done]. destruct Hc as (p & Hp & Hc).
    destruct (Forall2_lookup_l _ _ _ _ _ Hcalm Hp) as (p' & Hp' & Hpp). exists p'. split; [done|].
    destruct (leaving x); rewrite !(calm_same p p') by done; done.
Qed.

(** An action of the process on the CPU. *)
Lemma sys_act s q zs x me p k' q' zs' a' lv nd en wa :
  cproc x = Some me → kinv (kern s) (cproc x) q zs → pend_inv (kern s) (cproc x) (pend s) →
  procs (kern s) !! me = Some p → state p ≠ USED →
  kinv k' (Some me) q' zs' → en ≡ₚ wa ++ zs' →
  (∀ i r, i ≠ me → procs (kern s) !! i = Some r →
     untouched (delete me (pend s)) i ∨ ∃ r', procs k' !! i = Some r' ∧ calm r r') →
  (∀ a, a' = Some a → ∃ p', procs k' !! me = Some p' ∧ holds (Some me) me a p' ∧
     ∀ j, builds a = Some j → untouched (delete me (pend s)) j ∧ ∃ r, procs k' !! j = Some r ∧ built a r) →
  (∃ p', procs k' !! me = Some p' ∧
     if lv : bool then state p' ≠ RUNNING ∧ state p' ≠ USED ∧ (∀ j, a' ≠ Some (AExitWake j))
     else state p' = RUNNING ∨ state p' = ZOMBIE ∧ ∃ j, a' = Some (AExitWake j)) →
  sys_inv (Ssys k' [Cpu (Some me) lv nd] (partial_alter (λ _, a') me (pend s)) en wa (dispatched s)) q'.
Proof.
  intros Hx Hk HP Hp Hst Hk' Hl Hfr Ha (p' & Hp' & Hc). rewrite Hx in *. exists (Cpu (Some me) lv nd), zs'.
  split; [done|]. cbn [kern pend ended waited cproc]. split; [done|]. split; [done|]. split; [by eapply pend_act|].
  unfold cur_inv. cbn [cproc leaving]. exists p'. split; [done|].
  pose proof (lookup_partial_alter_eq (M := gmap nat) (λ _, a') (pend s) me) as Hl'. cbn in Hl'.
  destruct lv; [destruct Hc as (? & ? & Hj)|destruct Hc as [?|[? [j Hj]]]]; rewrite ?Hl'; eauto.
Qed.

(** ** The actions *)

Section Acts.
Context (s : ssys Mem) (q : list nat) (zs : list (Z * Z)) (x : cpu) (me : nat) (p : proc).
Context (Hcpu : cpus s = [x]) (Hx : cproc x = Some me) (Hlv : leaving x = false)
  (Hk : kinv (kern s) (cproc x) q zs) (Hl : ended s ≡ₚ waited s ++ zs)
  (HP : pend_inv (kern s) (cproc x) (pend s)) (Hp : procs (kern s) !! me = Some p).

Lemma me_lt : (me < NPROC)%nat.
Proof. eapply sched_lt; [apply Hk|exact Hp]. Qed.

(** The state with [k'] for the kernel and [a'] pending. *)
Definition acted k' (a' : option act) (lv nd : bool) (en wa : list (Z * Z)) : ssys Mem :=
  Ssys k' [Cpu (Some me) lv nd] (partial_alter (λ _, a') me (pend s)) en wa (dispatched s).

Lemma acted_stay k' a' : set_pend me a' (set_kern k' s) = acted k' a' false (need_resched x) (ended s) (waited s).
Proof. unfold set_pend, set_kern, acted. cbn. rewrite Hcpu. destruct x. cbn in *. by subst. Qed.

Lemma acted_leave k' a' :
  set_pend me a' (leave 0 me (set_kern k' s)) = acted k' a' true (need_resched x) (ended s) (waited s).
Proof. unfold leave, set_pend, set_cpu, set_kern, acted. cbn. by rewrite Hcpu. Qed.

Lemma act_fine k' q' zs' a' lv nd en wa new r :
  r = Done (acted k' a' lv nd en wa) → q' = q ++ new → state p ≠ USED →
  kinv k' (Some me) q' zs' → en ≡ₚ wa ++ zs' →
  (∀ i r, i ≠ me → procs (kern s) !! i = Some r →
     untouched (delete me (pend s)) i ∨ ∃ r', procs k' !! i = Some r' ∧ calm r r') →
  (∀ a, a' = Some a → ∃ p', procs k' !! me = Some p' ∧ holds (Some me) me a p' ∧
     ∀ j, builds a = Some j → untouched (delete me (pend s)) j ∧ ∃ r, procs k' !! j = Some r ∧ built a r) →
  (∃ p', procs k' !! me = Some p' ∧
     if lv : bool then state p' ≠ RUNNING ∧ state p' ≠ USED ∧ (∀ j, a' ≠ Some (AExitWake j))
     else state p' = RUNNING ∨ state p' = ZOMBIE ∧ ∃ j, a' = Some (AExitWake j)) →
  fine s q r.
Proof.
  intros -> -> Hst Hk' Hl' Hfr Ha Hc. left. eexists. split; [done|]. exists (q ++ new), new. split; [|done].
  eapply sys_act; eauto.
Qed.

(** Only the slot of [me] changes. *)
Lemma only_me p' h : ∀ i r, i ≠ me → procs (kern s) !! i = Some r →
  untouched (delete me (pend s)) i ∨ ∃ r', procs (set_proc me p' (with_nodes h (kern s))) !! i = Some r' ∧ calm r r'.
Proof. intros i r Hne Hr. right. exists r. ks. rewrite list_lookup_insert_ne by done. split; [done|apply calm_refl]. Qed.

Context (Hst : state p = RUNNING).

(** [me] gives up the CPU with only its own slot changed. *)
Lemma leaves_fine p' h a' nd new : state p' = RUNNABLE ∨ state p' = SLEEPING ∨ state p' = UNUSED ∧ mm p = None →
  kstack p' = kstack p → mm p' = mm p → parent p' = parent p →
  sched_ok (set_proc me p' (with_nodes h (kern s))) (q ++ new) →
  a' = None ∨ (∃ d, a' = Some (AWait d)) ∧ live p' →
  fine s q (Done (acted (set_proc me p' (with_nodes h (kern s))) a' true nd (ended s) (waited s))).
Proof.
  intros Hs' Hks Hm Hpar Hs Ha. pose proof Hk as Hk0. rewrite Hx in Hk0.
  assert (procs (set_proc me p' (with_nodes h (kern s))) !! me = Some p') as Hp' by (by eapply lookup_set_proc).
  eapply (act_fine _ _ zs); [done|done|by rewrite Hst| |done|apply only_me| |].
  - by eapply kinv_me.
  - intros a ->. exists p'. destruct Ha as [|[[d [= ->]] Hlive]]; [done|]. split; [done|]. by split.
  - exists p'. split; [done|]. destruct Ha as [-> |[[d ->] _]], Hs' as [-> |[-> |[-> _]]]; done.
Qed.

Lemma act_yield : fine s q (do_act 0 me AYield s).
Proof.
  cbn [do_act]. destruct (yield_ok _ q me p (ki_sched _ _ _ _ Hk) Hp Hst) as (h & -> & Hs). run.
  replace (set_pend _ _ _) with (acted (set_proc me (with_state RUNNABLE p) (with_nodes h (kern s))) None true false (ended s) (waited s)).
  2:{ unfold acted, set_pend, set_cpu, set_kern. cbn. by rewrite Hcpu. }
  eapply leaves_fine; try done; auto.
Qed.

Lemma act_sleep ch : fine s q (do_act 0 me (ASleep ch) s).
Proof.
  cbn [do_act]. destruct (sleep_ok _ q me p ch (ki_sched _ _ _ _ Hk) Hp Hst) as (-> & Hs). run. rewrite acted_leave.
  rewrite <- (with_nodes_id (kern s)) in Hs |- * at 1. rewrite <- (app_nil_r q) in Hs.
  eapply leaves_fine; try done; auto.
Qed.

Lemma act_wait_sleep d : fine s q (do_act 0 me (AWaitSleep d) s).
Proof.
  cbn [do_act]. destruct (sleep_ok _ q me p (ChProc me) (ki_sched _ _ _ _ Hk) Hp Hst) as (-> & Hs). run. rewrite acted_leave.
  rewrite <- (with_nodes_id (kern s)) in Hs |- * at 1. rewrite <- (app_nil_r q) in Hs.
  eapply leaves_fine; try done; auto. right. split; [eauto|]. by right; right.
Qed.

(** A calm operation, after which [a'] is pending. *)
Lemma act_calm r a' : calm_op (kern s) q r → a' = None ∨ (∃ y, a' = Some (ALeave y)) →
  fine s q (k ← r; mret (set_pend me a' (set_kern k s))).
Proof.
  intros (k' & new & -> & Hcalm & Hm & Ht & Hs) Ha. run. rewrite acted_stay.
  destruct (Forall2_lookup_l _ _ _ _ _ Hcalm Hp) as (p' & Hp' & Hpp).
  assert (state p' = RUNNING) as Hst' by (by apply (calm_same p p')).
  eapply (act_fine _ _ zs); [done|done|by rewrite Hst| |done| | |by eauto].
  - rewrite <- Hx. by eapply kinv_calm.
  - intros i r0 _ Hr. right. destruct (Forall2_lookup_l _ _ _ _ _ Hcalm Hr) as (r' & ? & ?). eauto.
  - intros a ->. exists p'. destruct Ha as [|[y [= ->]]]; [done|]. split; [done|]. split; [by right; left|done].
Qed.

Lemma act_wakeup ch : fine s q (do_act 0 me (AWakeup ch) s).
Proof. apply act_calm; [apply wakeup_calm, Hk|by left]. Qed.

Lemma act_exit y : fine s q (do_act 0 me (AExit y) s).
Proof. apply act_calm; [by eapply child_exit_calm|eauto]. Qed.

Lemma act_kill d sig : fine s q (do_act 0 me (AKill d sig) s).
Proof.
  pose proof (act_calm _ None (send_calm _ q d sig (ki_sched _ _ _ _ Hk)) ltac:(by left)) as Hf.
  cbn [do_act]. unfold sys_kill. by destruct (signal_send d sig (kern s)) as [[? ?]| | |].
Qed.

Lemma act_sleep_until d : fine s q (do_act 0 me (ASleepUntil d) s).
Proof.
  cbn [do_act]. destruct (decide (ticks (kern s) < d)) as [Hd|Hd].
  - destruct (sleep_deadline_ok _ q me p d (ki_sched _ _ _ _ Hk) Hp Hst Hd) as (-> & Hs). run. cbn [from_option].
    rewrite acted_leave. rewrite <- (with_nodes_id (kern s)) in Hs |- * at 1. rewrite <- (app_nil_r q) in Hs.
    eapply leaves_fine; try done; auto.
  - unfold sleep_deadline. rewrite (proj2 (Z.leb_le _ _)) by lia. run. cbn [from_option].
    pose proof (act_calm _ None (calm_done _ _ (ki_sched _ _ _ _ Hk)) ltac:(by left)) as Hf. cbn in Hf.
    by replace (set_kern (kern s) s) with s in Hf by (by destruct s).
Qed.

Lemma act_kthread_exit : mm p = None → fine s q (do_act 0 me AKthreadExit s).
Proof.
  intros Hmm. cbn [do_act]. destruct (decide (initproc (kern s) = Some me)) as [Hi|Hi].
  { right. left. unfold kthread_exit_locked. by rewrite bool_decide_true. }
  destruct (decide (kthreadd_task (kern s) = Some me)) as [Ht|Ht].
  { right. right. unfold kthread_exit_locked. rewrite bool_decide_false by done. by rewrite bool_decide_true. }
  destruct (kthread_exit_ok _ q me p (ki_sched _ _ _ _ Hk) Hp Hst Hi Ht) as (-> & Hs). run. rewrite acted_leave.
  rewrite <- (with_nodes_id (kern s)) in Hs |- * at 1. rewrite <- (app_nil_r q) in Hs.
  eapply leaves_fine; try done; auto.
Qed.

(** One other slot changes, on which no action depends any more. *)
Lemma other_slot i r p' k2 : procs (kern s) !! i = Some r → i ≠ me → procs k2 = procs (kern s) →
  untouched (delete me (pend s)) i →
  (∀ j r, j ≠ me → procs (kern s) !! j = Some r →
     untouched (delete me (pend s)) j ∨ ∃ r', procs (set_proc i p' k2) !! j = Some r' ∧ calm r r') ∧
  procs (set_proc i p' k2) !! me = Some p ∧ procs (set_proc i p' k2) !! i = Some p'.
Proof.
  intros Hi Hne Hk2 Hu. ks. rewrite Hk2. split_and!.
  - intros j r' Hj Hr'. destruct (decide (j = i)) as [->|Hji]; [by left|]. right. exists r'.
    rewrite list_lookup_insert_ne by done. split; [done|apply calm_refl].
  - by rewrite list_lookup_insert_ne.
  - by eapply lookup_set_eq.
Qed.

Lemma act_wait d : fine s q (do_act 0 me (AWait d) s).
Proof.
  cbn [do_act]. pose proof Hk as Hk0. rewrite Hx in Hk0. pose proof HP as HP0. rewrite Hx in HP0.
  assert (∀ f a', a' = None ∨ (∃ d, a' = Some (AWaitSleep d)) →
    fine s q (Done (acted (console_set_fg f (kern s)) a' false (need_resched x) (ended s) (waited s)))) as Hfg.
  { intros f a' Ha. eapply (act_fine _ q zs _ _ _ _ _ []); [done|by rewrite app_nil_r|by rewrite Hst| |done| | |].
    - eapply kinv_calm; [exact Hk0|apply calm_list|done|done|]. apply sched_fg, Hk0.
    - intros j r _ Hr. right. exists r. split; [done|apply calm_refl].
    - intros a ->. exists p. destruct Ha as [|[d' [= ->]]]; [done|]. split; [done|]. split; [by right; left|done].
    - exists p. auto. }
  destruct (wait_scan_ok _ q me p d (ki_sched _ _ _ _ Hk) (ki_mem _ _ _ _ Hk) (kinv_bare _ _ _ _ Hk) Hp Hst)
    as (r & k' & -> & Hs & Hm & Hr). run. destruct r as [d' y| |].
  - destruct Hr as (i & r & m & f & Hi & (_ & Hz & _) & -> & -> & _ & ->).
    assert (i ≠ me) as Hne by (intros ->; simplify_eq; congruence).
    set (k2 := console_set_fg f (with_mem m (kern s))).
    change (console_set_fg f (set_proc i (reaped_proc r) (with_mem m (kern s)))) with (set_proc i (reaped_proc r) k2) in *.
    destruct (kinv_set (kern s) k2 (Some me) (Some me) q q zs i r (reaped_proc r)) as (zs' & Hzs & Hk'); try done.
    unfold zombie_rec in Hzs. rewrite decide_True, decide_False in Hzs by done. cbn in Hzs.
    destruct (other_slot i r (reaped_proc r) k2 Hi Hne eq_refl) as (Hfr & Hme & _).
    { apply untouched_delete. by eapply untouched_zombie. }
    rewrite acted_stay.
    eapply (act_fine _ q zs' None false (need_resched x) (ended s) ((pid r, xstate r) :: waited s) []);
      [done|by rewrite app_nil_r|by rewrite Hst|done| |done|done|eauto].
    rewrite Hl, <- Hzs. solve_Permutation.
  - destruct Hr as (_ & f & ->). rewrite acted_stay. apply Hfg. by left.
  - destruct Hr as (_ & _ & f & ->). rewrite acted_stay. apply Hfg. eauto.
Qed.

(** The process just before the section of [exit_with_xstate]: its address
    space is gone. *)
Lemma drop_ok : let p1 := with_image None (kstack p) (entry p) (signal_exit_cleanup p) in
  ∃ m, proc_drop_mm me (set_proc me (signal_exit_cleanup p) (kern s)) = Done (set_proc me p1 (with_mem m (kern s))) ∧
    kinv (set_proc me p1 (with_mem m (kern s))) (Some me) q zs.
Proof.
  intros p1. pose proof Hk as Hk0. rewrite Hx in Hk0. set (p0 := signal_exit_cleanup p).
  assert (procs (set_proc me p0 (kern s)) !! me = Some p0) as Hp0 by (by eapply lookup_set_proc).
  destruct (proc_drop_mm_ok (set_proc me p0 (kern s)) me p0) as (m & -> & Hm).
  { eapply kmem_same; [exact Hp|apply Hk|done..]. }
  { done. }
  change (with_mem m (set_proc me p0 (kern s))) with (set_proc me p0 (with_mem m (kern s))) in *. rewrite set_set in *.
  fold p1 in Hm |- *. exists m. split; [done|].
  eapply kinv_set'; [exact Hk0|exact Hp|done|done| |exact Hm| |done|by rewrite Hst|cbn; by rewrite Hst].
  - eapply (sched_set (with_mem m (kern s))); [apply sched_mem, Hk|exact Hp|done|].
    intros _. apply (so_stack _ _ (ki_sched _ _ _ _ Hk) me p Hp). auto.
  - split; cbn; [done|by rewrite Hst|done|]. apply (ki_slot _ _ _ _ Hk me p Hp).
Qed.

Lemma act_leave y : fine s q (do_act 0 me (ALeave y) s).
Proof.
  cbn [do_act]. rewrite (get_proc_ok _ _ _ Hp). run. destruct drop_ok as (m & -> & Hk1). run.
  set (p1 := with_image None _ _ _) in *. set (k1 := set_proc me p1 (with_mem m (kern s))) in *.
  assert (procs k1 !! me = Some p1) as Hp1 by (by eapply (lookup_set_proc (with_mem m (kern s)))).
  destruct (exit_ok k1 q me p1 y (ki_sched _ _ _ _ Hk1) Hp1 Hst) as (-> & Hs2). run.
  set (ad := adopt me (initproc k1)) in *. set (k2 := with_procs (ad <$> procs k1) k1) in *.
  assert (∀ r, calm r (ad r)) as Had by (intros r; apply calm_adopt; intros j Hj; apply (ki_tasks _ _ _ _ Hk1); by left).
  assert (kinv k2 (Some me) q zs) as Hk2.
  { eapply kinv_calm; [exact Hk1|by apply calm_map|done|done|]. apply sched_map; [apply Hk1|]. apply adopt_same. }
  assert (procs k2 !! me = Some (ad p1)) as Hp2 by (unfold k2; ks; by rewrite list_lookup_fmap, Hp1).
  assert (mm (ad p1) = None ∧ pid (ad p1) = pid p ∧ state (ad p1) = RUNNING) as (Hmm & Hpid & Hrun).
  { destruct (Had p1) as [_ -> -> _ _ _]. by rewrite (calm_same p1 (ad p1)). }
  destruct (kinv_set k2 k2 (Some me) (Some me) q q zs me (ad p1) (zombie_proc y (ad p1))) as (zs' & Hzs & Hk3);
    [exact Hk2|exact Hp2|done|done|exact Hs2|eapply kmem_same; [exact Hp2|apply Hk2|done|done]| |done|].
  { split; try done. cbn. apply (ki_slot _ _ _ _ Hk2 me _ Hp2). }
  unfold zombie_rec in Hzs. rewrite decide_False, decide_True in Hzs by (done || by rewrite Hrun). cbn in Hzs. rewrite Hpid in Hzs.
  set (k3 := set_proc me (zombie_proc y (ad p1)) k2) in *.
  assert (procs k3 !! me = Some (zombie_proc y (ad p1))) as Hp3 by (by eapply lookup_set_proc).
  assert (∀ i r, i ≠ me → procs (kern s) !! i = Some r →
     untouched (delete me (pend s)) i ∨ ∃ r', procs k3 !! i = Some r' ∧ calm r r') as Hfr.
  { intros i r Hne Hr. right. exists (ad r). split; [|done]. unfold k3, k2, k1. ks.
    rewrite list_lookup_insert_ne, list_lookup_fmap, list_lookup_insert_ne by done. by rewrite Hr. }
  assert ((pid p, y) :: ended s ≡ₚ waited s ++ zs') as Hl' by (rewrite Hzs, Hl; solve_Permutation).
  destruct (parent p1) as [j|].
  - eapply (act_fine k3 q zs' (Some (AExitWake j)) false (need_resched x) ((pid p, y) :: ended s) (waited s) []);
      [|by rewrite app_nil_r|by rewrite Hst|done|done|done| |].
    + f_equal. unfold set_pend, log_end, set_kern, acted. cbn. rewrite Hcpu. destruct x. cbn in *. by subst.
    + intros a [= <-]. exists (zombie_proc y (ad p1)). split; [done|]. by split.
    + exists (zombie_proc y (ad p1)). split; [done|]. right. split; [done|]. by exists j.
  - eapply (act_fine k3 q zs' None true (need_resched x) ((pid p, y) :: ended s) (waited s) []);
      [|by rewrite app_nil_r|by rewrite Hst|done|done|done|done|by exists (zombie_proc y (ad p1))].
    unfold leave, set_pend, set_cpu, log_end, set_kern, acted. cbn. by rewrite Hcpu.
Qed.

(** [proc_alloc], with [mk i] pending for the slot [i] it finds. *)
Lemma act_alloc (mk : nat → act) : (∀ i, builds (mk i) = Some i ∧ holds (Some me) me (mk i) p) →
  (∀ i r, state r = USED → kstack r = 0 → mm r = None → built (mk i) r) →
  fine s q ('(r, k) ← proc_alloc (kern s); mret (set_pend me (mk <$> r) (set_kern k s))).
Proof.
  intros Hmk Hbt. pose proof Hk as Hk0. rewrite Hx in Hk0. pose proof HP as HP0. rewrite Hx in HP0.
  destruct (proc_alloc_ok _ q (ki_sched _ _ _ _ Hk)) as [[-> _]|(i & r & h & _ & Hi & Hu & -> & Hs)]; run.
  { pose proof (act_calm _ None (calm_done _ _ (ki_sched _ _ _ _ Hk)) ltac:(by left)) as Hf. exact Hf. }
  assert (i ≠ me) as Hne by (intros ->; simplify_eq; congruence).
  set (k2 := with_nextpid _ _) in *. set (p' := fresh_proc _) in *.
  destruct (sl_unused _ _ _ (ki_slot _ _ _ _ Hk0 i r Hi) Hu) as [Hmm Hks].
  destruct (other_slot i r p' k2 Hi Hne eq_refl) as (Hfr & Hme & Hi').
  { apply untouched_delete. by eapply untouched_unused. }
  rewrite acted_stay.
  eapply (act_fine _ q zs _ _ _ _ _ []); [done|by rewrite app_nil_r|by rewrite Hst| |done|done| |eauto].
  - eapply kinv_set'; [exact Hk0|exact Hi|done|done|exact Hs| |by split|done|by rewrite Hu|done].
    eapply (kmem_same k2); [exact Hi|apply (ki_mem _ _ _ _ Hk0)|rewrite Hks by congruence; done|by rewrite Hmm].
  - cbn [fmap option_fmap option_map]. intros a [= <-]. destruct (Hmk i) as [Hb Hh]. exists p. split; [done|]. split; [done|].
    intros j. rewrite Hb. intros [= <-]. split; [apply untouched_delete; by eapply untouched_unused|].
    exists p'. split; [done|]. by apply Hbt.
Qed.

(** A slot has been built by the action [a] of [me]. *)
Lemma act_built a i r (b : bool) k' p' : pend s !! me = Some a → builds a = Some i → procs (kern s) !! i = Some r →
  kinv k' (Some me) q zs → built_slot (kern s) k' i p' → (b = true → state p' = USED ∧ kstack p' ≠ 0) →
  fine s q (Done (set_pend me (if b then Some (AStart i) else None) (set_kern k' s))).
Proof.
  intros Ha Hb Hi Hk' [m ->] Hp'. pose proof HP as HP0. rewrite Hx in HP0.
  assert (i ≠ me) as Hne.
  { intros ->. destruct (pi_built _ _ _ HP0 me a me Ha Hb) as (r' & Hr' & Hs & _). simplify_eq. congruence. }
  pose proof (untouched_mine _ _ _ me a i HP0 Ha Hb) as Hu.
  destruct (other_slot i r p' (with_mem m (kern s)) Hi Hne eq_refl Hu) as (Hfr & Hme & Hi').
  rewrite acted_stay.
  eapply (act_fine _ q zs _ _ _ _ _ []); [done|by rewrite app_nil_r|by rewrite Hst|done|done|done| |eauto].
  intros a'. destruct b; [|done]. intros [= <-]. exists p. split; [done|]. split; [by right; left|].
  intros j [= <-]. split; [done|]. exists p'. split; [done|]. by apply Hp'.
Qed.

Lemma act_fork_build i : pend s !! me = Some (AForkBuild i) → fine s q (do_act 0 me (AForkBuild i) s).
Proof.
  intros Ha. pose proof Hk as Hk0. rewrite Hx in Hk0. pose proof HP as HP0. rewrite Hx in HP0.
  destruct (pi_built _ _ _ HP0 me _ i Ha eq_refl) as (r & Hi & Hus & Hz & Hmm).
  destruct (pi_holds _ _ _ HP0 me _ Ha) as (r' & Hr' & _ & Hx'). simplify_eq.
  destruct (fork_build_ok _ me q zs i r p Hk0 Hi Hus Hz Hmm Hp Hx' me_lt) as (b & k' & p' & Hrun & Hk' & Hbs & Hb).
  cbn [do_act]. rewrite Hrun. run. by eapply act_built.
Qed.

Lemma act_kthread_build i nm par : pend s !! me = Some (AKthreadBuild i nm par) →
  fine s q (do_act 0 me (AKthreadBuild i nm par) s).
Proof.
  intros Ha. pose proof Hk as Hk0. rewrite Hx in Hk0. pose proof HP as HP0. rewrite Hx in HP0.
  destruct (pi_built _ _ _ HP0 me _ i Ha eq_refl) as (r & Hi & Hus & Hz & Hmm).
  destruct (pi_holds _ _ _ HP0 me _ Ha) as (r' & Hr' & _ & Hpar). simplify_eq.
  destruct (kthread_build_ok _ (Some me) q zs i r Hk0 Hi Hus nm par Hz) as (b & k' & p' & Hrun & Hk' & Hbs & Hb).
  { intros j [Hj|Hj]; [by apply (ki_slot _ _ _ _ Hk0 i r Hi)|by apply Hpar]. }
  cbn [do_act]. rewrite Hrun. run. by eapply act_built.
Qed.

Lemma act_start i : pend s !! me = Some (AStart i) → fine s q (do_act 0 me (AStart i) s).
Proof.
  intros Ha. pose proof Hk as Hk0. rewrite Hx in Hk0. pose proof HP as HP0. rewrite Hx in HP0.
  destruct (pi_built _ _ _ HP0 me _ i Ha eq_refl) as (r & Hi & Hus & Hz).
  assert (i ≠ me) as Hne by (intros ->; simplify_eq; congruence).
  destruct (start_ok _ q i r (ki_sched _ _ _ _ Hk) Hi Hus Hz) as (h & Hrun & Hs).
  cbn [do_act]. rewrite Hrun. run. rewrite acted_stay.
  destruct (other_slot i r (with_state RUNNABLE r) (with_nodes h (kern s)) Hi Hne eq_refl) as (Hfr & Hme & Hi').
  { by eapply untouched_mine. }
  eapply (act_fine _ _ zs _ _ _ _ _ [i]); [done|done|by rewrite Hst| |done|done|done|eauto].
  eapply kinv_set'; [exact Hk0|exact Hi|done|done|exact Hs| | |done|by rewrite Hus|done].
  - eapply (kmem_same (with_nodes h (kern s))); [exact Hi|apply (ki_mem _ _ _ _ Hk0)|done..].
  - split; try done. apply (ki_slot _ _ _ _ Hk0 i r Hi).
Qed.

Lemma exec_ok nm img : ∃ k' p', exec_proc me nm img (kern s) = Done k' ∧ kinv k' (Some me) q zs ∧
  state p' = RUNNING ∧ ∃ m, k' = set_proc me p' (with_mem m (kern s)).
Proof.
  pose proof Hk as Hk0. rewrite Hx in Hk0. unfold exec_proc.
  destruct (kmem_slot _ me p Hp) as (S & A & _ & _ & Hb & Ha). pose proof (ki_mem _ _ _ _ Hk) as Hm. apply Hb in Hm.
  destruct (km_exec_law _ img _ _ Hm) as (r & m1 & -> & Hm1). run. destruct r as [y|]; cbn [from_option app] in Hm1.
  2:{ exists (set_proc me p (with_mem m1 (kern s))), p. rewrite set_same by done. split; [done|].
      split; [|split; [done|exists m1; by rewrite set_same]].
      apply Ha in Hm1. rewrite set_same in Hm1 by done. destruct Hk0 as [H1 H2 H3 H4 H5]. split; try done. by apply sched_mem. }
  rewrite (get_proc_ok (with_mem m1 (kern s)) _ _ Hp). run.
  set (p' := signal_exec_reset _). assert (state p' = RUNNING) as Hst' by done.
  assert (∀ m2, km_inv m2 (own_stack p ++ S) (pgdir y :: A) →
    kinv (set_proc me p' (with_mem m2 (kern s))) (Some me) q zs) as Hput.
  { intros m2 Hm2. eapply kinv_set'; [exact Hk0|exact Hp|done|done| | | |done|by rewrite Hst|by rewrite Hst'].
    - eapply (sched_set (with_mem m2 (kern s))); [apply sched_mem, Hk|exact Hp|done|].
      intros _. apply (so_stack _ _ (ki_sched _ _ _ _ Hk) me p Hp). auto.
    - by apply Ha.
    - split; rewrite ?Hst'; try done. apply (ki_slot _ _ _ _ Hk me p Hp). }
  destruct (mm p) as [x0|] eqn:Hmm.
  - assert (own_space p = [pgdir x0]) as Ho by (unfold own_space; by rewrite Hmm). rewrite Ho in Hm1.
    destruct (km_drop_law m1 x0 (own_stack p ++ S) (pgdir y :: A)) as (m2 & Hd & Hm2).
    { eapply km_inv_perm; [done| |exact Hm1]. solve_Permutation. }
    change (mem (set_proc me p' (with_mem m1 (kern s)))) with m1. rewrite Hd. run.
    exists (set_proc me p' (with_mem m2 (kern s))), p'. split; [done|]. split; [by apply Hput|]. split; [done|]. by exists m2.
  - assert (own_space p = []) as Ho by (unfold own_space; by rewrite Hmm). rewrite Ho in Hm1.
    eexists _, p'. split; [done|]. split; [by apply Hput|]. split; [done|]. by exists m1.
Qed.

Lemma act_exec nm img : fine s q (do_act 0 me (AExec nm img) s).
Proof.
  cbn [do_act]. destruct (exec_ok nm img) as (k' & p' & -> & Hk' & Hst' & m & Heq). run. rewrite acted_stay.
  assert (procs k' !! me = Some p') as Hp' by (subst k'; by eapply (lookup_set_proc (with_mem m (kern s)))).
  eapply (act_fine _ q zs _ _ _ _ _ []); [done|by rewrite app_nil_r|by rewrite Hst|done|done| |done|eauto].
  intros i r Hne Hr. right. exists r. rewrite Heq. ks. rewrite list_lookup_insert_ne by done. split; [done|apply calm_refl].
Qed.
End Acts.

Lemma act_exit_wake s q zs x me p j : cpus s = [x] → cproc x = Some me → kinv (kern s) (cproc x) q zs →
  ended s ≡ₚ waited s ++ zs → pend_inv (kern s) (cproc x) (pend s) → procs (kern s) !! me = Some p → state p = ZOMBIE →
  fine s q (do_act 0 me (AExitWake j) s).
Proof.
  intros Hcpu Hx Hk Hl HP Hp Hst. cbn [do_act].
  destruct (wakeup_calm _ q (ChProc j) (ki_sched _ _ _ _ Hk)) as (k' & new & -> & Hcalm & Hm & Ht & Hs). run.
  rewrite (acted_leave s x me Hcpu). destruct (Forall2_lookup_l _ _ _ _ _ Hcalm Hp) as (p' & Hp' & Hpp).
  assert (state p' = ZOMBIE) as Hst' by (by apply (calm_same p p')).
  eapply (act_fine s q zs x me p Hx Hk HP Hp _ _ zs); [done|done|by rewrite Hst| |done| |done|].
  - rewrite <- Hx. by eapply kinv_calm.
  - intros i r _ Hr. right. destruct (Forall2_lookup_l _ _ _ _ _ Hcalm Hr) as (r' & ? & ?). eauto.
  - exists p'. by rewrite Hst'.
Qed.

(** Whatever is pending is what the process needs. *)
Lemma act_any s q zs x me p a : cpus s = [x] → cproc x = Some me → leaving x = false →
  kinv (kern s) (cproc x) q zs → ended s ≡ₚ waited s ++ zs → pend_inv (kern s) (cproc x) (pend s) →
  procs (kern s) !! me = Some p → state p = RUNNING → pend s !! me = Some a → fine s q (do_act 0 me a s).
Proof.
  intros Hcpu Hx Hlv Hk Hl HP Hp Hst Ha. pose proof (pi_holds _ _ _ HP me a Ha) as (r & Hr & Hh). simplify_eq.
  rewrite Hx in Hh. destruct a; cbn [holds] in Hh; try (by destruct Hh as [_ ?]; congruence);
    eauto using act_yield, act_sleep, act_sleep_until, act_wakeup, act_kill, act_wait, act_wait_sleep, act_exit,
      act_leave, act_fork_build, act_kthread_build, act_start, act_exec.
  - destruct Hh. by eapply act_kthread_exit.
  - apply (act_alloc s q zs x me p Hcpu Hx Hlv Hk Hl HP Hp Hst AForkBuild); [by split|]. by intros.
  - apply (act_alloc s q zs x me p Hcpu Hx Hlv Hk Hl HP Hp Hst (λ i, AKthreadBuild i nm par)); [by split|]. by intros.
Qed.

(** ** Events *)

Lemma cpu_zero s q c (f : cpu → outcome (ssys Mem)) : sys_inv s q →
  (∀ x zs, c = 0%nat → cpus s = [x] → kinv (kern s) (cproc x) q zs → ended s ≡ₚ waited s ++ zs →
     pend_inv (kern s) (cproc x) (pend s) → cur_inv (kern s) x (pend s) → fine s q (f x)) →
  fine s q (at_cpu c s f).
Proof.
  intros Hs Hf. pose proof Hs as (x & zs & Hx & Hk & Hl & HP & Hc). unfold at_cpu. rewrite Hx.
  destruct c as [|c]; cbn; [by eapply Hf|]. by apply fine_same.
Qed.

Lemma dispatch_fine s q c : sys_inv s q → fine s q (step (EDispatch c) s).
Proof.
  intros Hs. cbn [step]. apply (cpu_zero s q c _ Hs). intros x zs -> Hx Hk Hl HP Hc.
  destruct (cproc x) as [i|] eqn:Hcx; [by apply fine_same|].
  pose proof (pick_ok _ q (ki_sched _ _ _ _ Hk)) as Hpick. unfold cur_inv in Hc. rewrite Hcx in Hc.
  destruct q as [|i q].
  - destruct Hpick as (h & -> & Hs'). run. left. eexists. split; [done|]. exists [], []. split; [|done].
    exists x, zs. rewrite Hcx. split_and!; [done| |done| |by unfold cur_inv; rewrite Hcx].
    + eapply kinv_calm; [exact Hk|apply calm_list|done|done|exact Hs'].
    + eapply pend_frame; [exact HP| |by left]. intros j p Hp. right. exists p. split; [done|apply calm_mild, calm_refl].
  - destruct Hpick as (h & p & Hp & Hst & -> & Hs'). run.
    assert (on_cpu i s = false) as ->.
    { unfold on_cpu. rewrite Hx. cbn. rewrite Hcx. by rewrite bool_decide_false. }
    left. eexists. split; [done|]. exists q, []. split; [|cbn; by rewrite app_nil_r, <- app_assoc].
    exists (Cpu (Some i) false (need_resched x)), zs. cbn [kern cpus log_dispatch set_cpu set_kern pend ended waited cproc].
    rewrite Hx. split; [done|]. split_and!; [|done| |].
    + eapply kinv_set'; [exact Hk|exact Hp|done|done|exact Hs'| | | |by rewrite Hst|done].
      * eapply (kmem_same (with_nodes h (kern s))); [exact Hp|apply (ki_mem _ _ _ _ Hk)|done..].
      * split; try done. apply (ki_slot _ _ _ _ Hk i p Hp).
      * intros j r Hne [H1 H2 H3 H4]. split; [done| |intros Hr; by specialize (H3 Hr)|done].
        intros Hr. destruct (H2 Hr) as [? Hks]. split; [done|]. intros _. by apply Hks.
    + eapply pend_frame; [exact HP| |].
      * intros j r Hr. right. ks. destruct (decide (j = i)) as [->|Hne]; [|exists r; rewrite list_lookup_insert_ne by done; split; [done|apply calm_mild, calm_refl]].
        assert (r = p) as -> by congruence. exists (with_state RUNNING p). split; [by eapply lookup_set_eq|]. split; [done..|].
        left. split; [by left|by right; left].
      * right. intros j a Ha. destruct (pi_holds _ _ _ HP j _ Ha) as (r & _ & [? _]). done.
    + unfold cur_inv. cbn [cproc leaving]. exists (with_state RUNNING p). split; [by eapply (lookup_set_proc (with_nodes h (kern s)))|by left].
Qed.

Lemma call_fine s q c f : sys_inv s q → fine s q (step (ECall c f) s).
Proof.
  intros Hs. cbn [step]. apply (cpu_zero s q c _ Hs). intros x zs -> Hx Hk Hl HP Hc.
  destruct (cproc x) as [me|] eqn:Hcx; [|by apply fine_same].
  destruct (leaving x) eqn:Hlv; [by apply fine_same|]. cbn [orb].
  unfold cur_inv in Hc. rewrite Hcx, Hlv in Hc. destruct Hc as (p & Hp & Hc).
  case_bool_decide as Hpe; [by apply fine_same|]. rewrite <- eq_None_not_Some in Hpe.
  destruct Hc as [Hst|(_ & j & Hj)]; [|congruence].
  assert (∀ a', (∀ a, a' = Some a → builds a = None ∧ holds (Some me) me a p) → fine s q (Done (set_pend me a' s))) as Hput.
  { intros a' Ha. replace (set_pend me a' s) with (acted s me (kern s) a' false (need_resched x) (ended s) (waited s)).
    2:{ unfold acted, set_pend. rewrite Hx. destruct x. cbn in *. by subst. }
    rewrite <- Hcx in Hk, HP.
    eapply (act_fine s q zs x me p Hcx Hk HP Hp _ q zs _ _ _ _ _ []); [done|by rewrite app_nil_r|by rewrite Hst|by rewrite <- Hcx|done| | |by eauto].
    - intros i r _ Hr. right. exists r. split; [done|apply calm_refl].
    - intros a Haa. destruct (Ha a Haa) as [Hb Hh]. exists p. split; [done|]. split; [done|]. rewrite Hb. done. }
  assert (live p) as Hlive by (by right; left).
  assert (∀ j, initproc (kern s) = Some j ∨ kthreadd_task (kern s) = Some j → (j < NPROC)%nat) as Htk by apply Hk.
  destruct f; cbn [begin_call]; run; try (case_bool_decide; [by right; left|run]);
    try rewrite (get_proc_ok _ _ _ Hp); run; apply Hput; intros a; try (by intros [= <-]).
  - destruct (n =? 0); [done|]. by intros [= <-].
  - destruct (mm p) eqn:Hm; [done|]. by intros [= <-].
  - destruct (mm p) as [m|] eqn:Hm; cbn; [|done]. destruct (_ =? 0); [done|]. intros [= <-]. cbn. rewrite Hm. eauto.
  - intros [= <-]. split; [done|]. split; [done|]. intros j. destruct (kthreadd_task (kern s)) eqn:Ht; eauto.
Qed.

(** Back in the scheduler, after [me] has gone. *)
Lemma back_inv k q zs me p P : kinv k (Some me) q zs → pend_inv k (Some me) P → procs k !! me = Some p →
  state p ≠ RUNNING → (∀ j, P !! me ≠ Some (AExitWake j)) →
  ∃ k', scheduler_back me k = Done k' ∧ kinv k' None q zs ∧ pend_inv k' None P.
Proof.
  intros Hk HP Hp Hnr Hnw.
  assert (∀ i j, P !! i ≠ Some (AExitWake j)) as Hno.
  { intros i j Ha. destruct (pi_holds _ _ _ HP i _ Ha) as (r & Hr & [= <-] & _). by destruct (Hnw j). }
  assert (∀ j r, j ≠ me → slot_ok (Some me) j r → slot_ok None j r) as Hsl.
  { intros j r Hne [H1 H2 H3 H4]. split; [done| |intros Hr; by specialize (H3 Hr); simplify_eq|done].
    intros Hr. destruct (H2 Hr) as [? Hks]. split; [done|]. intros _. apply Hks. congruence. }
  destruct (back_ok k q me p (ki_sched _ _ _ _ Hk) (ki_mem _ _ _ _ Hk) Hp)
    as (k' & Hrun & Hs' & Hm' & [[Hst ->]|(Hst & m & ->)]); (eexists; split; [exact Hrun|]).
  - split; [|eapply pend_frame; [exact HP| |by right]; intros j r Hr; right; exists r; split; [done|apply calm_mild, calm_refl]].
    destruct Hk as [H1 H2 H3 H4 H5]. split; try done. intros j r Hr. destruct (decide (j = me)) as [->|Hne]; [|by apply Hsl; [|apply H3]].
    simplify_eq. destruct (H3 _ _ Hp). by split.
  - destruct (sl_unused _ _ _ (ki_slot _ _ _ _ Hk me p Hp) Hst) as [Hmm _]. split.
    + eapply kinv_set'; [exact Hk|exact Hp|done|done|exact Hs'|exact Hm'| |exact Hsl|by rewrite Hst|cbn; by rewrite Hst].
      split; cbn; try done. apply (ki_slot _ _ _ _ Hk me p Hp).
    + eapply pend_frame; [exact HP| |by right]. intros j r Hr. destruct (decide (j = me)) as [->|Hne].
      * left. eapply untouched_unused; [exact HP|exact Hp|done].
      * right. exists r. ks. rewrite list_lookup_insert_ne by done. split; [done|apply calm_mild, calm_refl].
Qed.

Lemma run_fine s q c : sys_inv s q → fine s q (step (ERun c) s).
Proof.
  intros Hs. cbn [step]. apply (cpu_zero s q c _ Hs). intros x zs -> Hx Hk Hl HP Hc.
  destruct (cproc x) as [me|] eqn:Hcx; [|by apply fine_same]. unfold cur_inv in Hc. rewrite Hcx in Hc.
  destruct Hc as (p & Hp & Hc). destruct (leaving x) eqn:Hlv.
  - destruct Hc as (Hnr & Hnu & Hnw).
    destruct (back_inv _ q zs me p _ Hk HP Hp Hnr Hnw) as (k' & -> & Hk' & HP'). run.
    left. eexists. split; [done|]. exists q, []. split; [|cbn; by rewrite app_nil_r].
    exists (Cpu None false (need_resched x)), zs. cbn [kern cpus set_cpu set_kern pend ended waited cproc]. by rewrite Hx.
  - destruct (pend s !! me) as [a|] eqn:Ha; [|by apply fine_same].
    rewrite <- Hcx in Hk, HP. destruct Hc as [Hst|(Hst & j & Hj)].
    + by eapply act_any.
    + simplify_eq. by eapply act_exit_wake.
Qed.

Lemma intr_fine s q (r : outcome (ksys Mem)) : sys_inv s q → calm_op (kern s) q r →
  fine s q (k ← r; mret (set_kern k s)).
Proof.
  intros Hs (k' & new & -> & Hc & Hm & Ht & Hs'). run. left. eexists. split; [done|].
  exists (q ++ new), new. split; [|done]. by eapply sys_calm.
Qed.

(** The flag [need_resched] is free. *)
Lemma sys_need s q x nd : sys_inv s q → cpus s = [x] → sys_inv (set_cpu 0 (Cpu (cproc x) (leaving x) nd) s) q.
Proof.
  intros (y & zs & Hy & Hk & Hl & HP & Hc) Hx. rewrite Hx in Hy. injection Hy as <-. exists (Cpu (cproc x) (leaving x) nd), zs.
  cbn [set_cpu cpus kern ended waited pend cproc]. rewrite Hx. split_and!; [done|done|done|done|exact Hc].
Qed.

Lemma queue_empty k cur q zs : kinv k cur q zs →
  task_queue_empty_locked (nodes k) = Done (bool_decide (q = [])).
Proof. intros Hk. apply (queue_empty_ok (so_tq _ _ (ki_sched _ _ _ _ Hk))). Qed.

Lemma tick_ok s q x : sys_inv s q → cpus s = [x] →
  ∃ k' new nd, let s' := set_cpu 0 (Cpu (cproc x) (leaving x) nd) (set_kern k' s) in
    step (ETick 0) s = Done s' ∧ sys_inv s' (q ++ new) ∧
    (∀ me p, cproc x = Some me → procs k' !! me = Some p → state p = RUNNING → q ++ new ≠ [] → nd = true).
Proof.
  intros Hs Hx. cbn [step]. unfold at_cpu. rewrite Hx. cbn [lookup list_lookup].
  unfold timer_handler. set (s1 := set_kern (with_ticks (u32 (ticks (kern s) + 1)) (kern s)) s).
  assert (sys_inv s1 q) as Hs1.
  { eapply sys_calm; [exact Hs|apply calm_list|done|done|].
    destruct Hs as (? & ? & _ & Hk & _). destruct (ki_sched _ _ _ _ Hk) as [H1 H2 H3 H4]. by split. }
  assert (sched_ok (kern s1) q) as Hk1 by (destruct Hs1 as (? & ? & _ & Hk & _); apply Hk).
  destruct (due_calm _ _ Hk1) as (k' & new & Hrun & Hc & Hm & Ht & Hk').
  pose proof (sys_calm s1 q k' _ Hs1 Hc Hm Ht Hk') as Hs2. clear Hc.
  change (wake_due (with_ticks (u32 (ticks (kern s) + 1)) (kern s))) with (wake_due (kern s1)). rewrite Hrun. run.
  assert (∃ b, tick_resched (cproc x) k' = Done b ∧
    (∀ me p, cproc x = Some me → procs k' !! me = Some p → state p = RUNNING → q ++ new ≠ [] → b = true)) as (b & -> & Hb).
  { unfold tick_resched. destruct Hs2 as (y & zs' & Hy & Hk2 & _ & _ & Hc). cbn in Hy, Hk2, Hc. rewrite Hx in Hy. injection Hy as <-.
    destruct (cproc x) as [me|] eqn:Hcx; [|by exists false]. unfold cur_inv in Hc. rewrite Hcx in Hc. destruct Hc as (p & Hp & _).
    rewrite (get_proc_ok _ _ _ Hp). run. rewrite (queue_empty _ _ _ _ Hk2). case_bool_decide as Hst; run; eexists; (split; [done|]).
    - intros me' p' _ _ _ Hq. by rewrite bool_decide_false.
    - intros me' p' [= <-] Hp' Hst'. congruence. }
  run. eexists k', new, _. split; [done|]. split; [by apply (sys_need (set_kern k' s1))|].
  intros me p H1 H2 H3 H4. rewrite (Hb me p) by done. apply orb_true_r.
Qed.

Lemma tick_fine s q c : sys_inv s q → fine s q (step (ETick c) s).
Proof.
  intros Hs. pose proof Hs as (x & zs & Hx & _). destruct c as [|c].
  2:{ cbn [step]. apply (cpu_zero s q (S c) _ Hs). discriminate. }
  destruct (tick_ok s q x Hs Hx) as (k' & new & nd & -> & Hs' & _). left. eexists. split; [done|]. by exists (q ++ new), new.
Qed.

Lemma preempt_fine s q c : sys_inv s q → fine s q (step (EPreempt c) s).
Proof.
  intros Hs. cbn [step]. apply (cpu_zero s q c _ Hs). intros x zs -> Hx Hk Hl HP Hc.
  assert (∀ nd, fine s q (Done (set_cpu 0 (Cpu (cproc x) (leaving x) nd) s))) as Hno.
  { intros nd. left. eexists. split; [done|]. exists q, []. rewrite app_nil_r. split; [by apply sys_need|done]. }
  unfold should_preempt. destruct (need_resched x) eqn:Hnd; cbn [negb]; [|run; destruct (cproc x); apply Hno].
  destruct (cproc x) as [me|] eqn:Hcx; [|run; apply Hno].
  unfold cur_inv in Hc. rewrite Hcx in Hc. destruct Hc as (p & Hp & Hc).
  rewrite (get_proc_ok _ _ _ Hp). run. case_bool_decide as Hst; cbn [negb]; [|run; apply Hno].
  rewrite (queue_empty _ _ _ _ Hk). run. case_bool_decide as Hq; [run; apply Hno|]. run.
  assert (leaving x = false) as Hlv by (destruct (leaving x); [by destruct Hc|done]).
  destruct (yield_ok _ q me p (ki_sched _ _ _ _ Hk) Hp Hst) as (h & -> & Hs'). run.
  left. eexists. split; [done|]. exists (q ++ [me]), [me]. split; [|done]. rewrite <- Hcx in Hk, HP.
  set (p' := with_state RUNNABLE p) in *. set (k' := set_proc me p' (with_nodes h (kern s))) in *.
  assert (procs k' !! me = Some p') as Hp' by (by eapply (lookup_set_proc (with_nodes h (kern s)))).
  pose proof (pend s !! me) as a'. exists (Cpu (Some me) true false), zs.
  cbn [set_cpu set_kern kern cpus pend ended waited cproc]. rewrite Hx. split; [done|]. split_and!.
  - rewrite Hcx in Hk. eapply kinv_me; [exact Hk|exact Hp|done|exact Hs'|done..|by left].
  - done.
  - rewrite Hcx in HP. eapply pend_frame; [exact HP| |by left]. intros i r Hr. right. unfold k'. ks.
    destruct (decide (i = me)) as [->|Hne].
    + assert (r = p) as -> by congruence. exists p'. split; [done|]. split; [done..|]. left. split; [by right; left|by left].
    + exists r. rewrite list_lookup_insert_ne by done. split; [done|apply calm_mild, calm_refl].
  - exists p'. split; [done|]. cbn. split_and!; [done|done|]. intros j Hj.
    destruct (pi_holds _ _ _ HP me _ Hj) as (r & Hr & _ & Hz). congruence.
Qed.

Lemma step_fine e s q : sys_inv s q → fine s q (step e s).
Proof.
  intros Hs. pose proof Hs as (x & zs & _ & Hk & _). pose proof (ki_sched _ _ _ _ Hk) as Hsc.
  destruct e; auto using dispatch_fine, call_fine, run_fine, tick_fine, preempt_fine.
  - apply intr_fine; [done|by apply wakeup_calm].
  - pose proof (intr_fine s q _ Hs (send_calm _ q d sig Hsc)) as Hf. cbn [step].
    by destruct (signal_send d sig (kern s)) as [[? ?]| | |].
Qed.

Lemma steps_fine es s q : sys_inv s q → fine s q (steps es s).
Proof.
  revert s q. induction es as [|e es IH]; intros s q Hs; cbn [steps]; [by apply fine_same|].
  destruct (step_fine e s q Hs) as [(s1 & -> & q1 & new & Hs1 & Hd)|[-> | ->]]; [|by right; left|by right; right]. run.
  destruct (IH s1 q1 Hs1) as [(s2 & -> & q2 & new2 & Hs2 & Hd2)|[?|?]]; [left|by right; left|by right; right].
  exists s2. split; [done|]. exists q2, (new ++ new2). split; [done|]. rewrite Hd2, app_assoc, Hd. by rewrite <- !app_assoc.
Qed.

Lemma start_inv k q : kinv k None q [] → sys_inv (start_sys 1 k) q.
Proof.
  intros Hk. exists (Cpu None false false), []. split_and!; try done.
Qed.
End SysInv.
