(* ===== verification/SchedRun.v ===== *)
(** [SchedRun]: runs of the process system from boot, on one CPU. *)
From Stdlib Require Import ZArith Lia.
From stdpp Require Import numbers strings gmap list.
From S2P Require Import Prelude ListHead MemLayout Buddy BuddyInv BuddySpec Vm PageTable VmSpec Mmap UserMem UserMemSpec MmSpec TaskQueue Proc ProcInv Signal SignalSpec Futex SchedSys SchedSpec.
Open Scope Z_scope.

(** A page book-keeper: the pages nobody has, the kernel stacks and the
    directories handed out. *)
Record ledger := Ledger { spare : list Z; stack_pages : list Z; dir_pages : list Z }.

Definition take_page (m : ledger) : Z * list Z :=
  match spare m with [] => (0, []) | a :: l => (a, l) end.

Definition new_mm (d : Z) : mm_struct := Mm d USERLOAD USEREND USERHEAP_TOP USERSTACK USERLOAD USERLOAD [].

#[export] Instance ledger_mem : KernelMem ledger := {|
  km_alloc_page m :=
    let '(a, l) := take_page m in
    Done (a, if a =? 0 then m else Ledger l (a :: stack_pages m) (dir_pages m));
  km_free_page a m :=
    if decide (a ∈ stack_pages m)
    then Done (Ledger (a :: spare m) (filter (λ b, b ≠ a) (stack_pages m)) (dir_pages m))
    else Panic "free_page: not allocated";
  km_fork_mm _ m :=
    let '(a, l) := take_page m in
    Done (if a =? 0 then (None, m) else (Some (new_mm a, true), Ledger l (stack_pages m) (a :: dir_pages m)));
  km_shm_fork_fix y _ m := Done (y, m);
  km_exec_mm _ m :=
    let '(a, l) := take_page m in
    Done (if a =? 0 then (None, m) else (Some (new_mm a), Ledger l (stack_pages m) (a :: dir_pages m)));
  km_drop_mm x m :=
    if decide (pgdir x ∈ dir_pages m)
    then Done (Ledger (pgdir x :: spare m) (stack_pages m) (filter (λ b, b ≠ pgdir x) (dir_pages m)))
    else Panic "uvmfree: not a directory"
|}.

Definition ledger_inv (m : ledger) (S A : list Z) : Prop :=
  stack_pages m ≡ₚ S ∧ dir_pages m ≡ₚ A ∧ NoDup (spare m ++ S ++ A) ∧ 0 ∉ spare m ++ S ++ A.

Lemma filter_out (a : Z) (l l' : list Z) : l ≡ₚ a :: l' → NoDup l → filter (λ b, b ≠ a) l ≡ₚ l'.
Proof.
  intros Hl Hnd. rewrite Hl in Hnd |- *. apply NoDup_cons in Hnd as [Hni Hnd].
  rewrite filter_cons_False by naive_solver. rewrite filter_all; [done|].
  intros x Hx ->. done.
Qed.

Lemma ledger_take m S A : ledger_inv m S A → let '(a, l) := take_page m in
  a = 0 ∨ a ≠ 0 ∧ (a =? 0) = false ∧ NoDup (l ++ a :: S ++ A) ∧ 0 ∉ l ++ a :: S ++ A.
Proof.
  intros (_ & _ & Hnd & H0). unfold take_page. destruct (spare m) as [|a l]; [by left|].
  assert (l ++ a :: S ++ A ≡ₚ (a :: l) ++ S ++ A) as Hp by solve_Permutation.
  assert (a ≠ 0) as Ha by (intros ->; apply H0; by left).
  right. rewrite Hp. split; [done|]. split; [by apply Z.eqb_neq|done].
Qed.

#[export] Instance ledger_laws : KernelMemLaws ledger.
Proof.
  refine {| km_inv := ledger_inv |}.
  - intros m S S' A A' HS HA (H1 & H2 & H3 & H4). unfold ledger_inv. by rewrite <- HS, <- HA.
  - intros m S A Hm. pose proof (ledger_take m S A Hm) as Ht. pose proof Hm as (H1 & H2 & _). cbn.
    destruct (take_page m) as [a l]. destruct Ht as [-> |(Ha & Hz & Hnd & H0)]; [by exists 0, m|].
    exists a, (Ledger l (a :: stack_pages m) (dir_pages m)). rewrite Hz. split; [done|]. by split_and!; cbn; rewrite ?H1.
  - intros m a S A (H1 & H2 & H3 & H4). cbn. rewrite decide_True by (rewrite H1; by left).
    eexists. split; [done|]. apply NoDup_app in H3 as Hs. destruct Hs as (_ & _ & Hs). apply NoDup_app in Hs as (Hs & _).
    split_and!; cbn; [apply filter_out; [done|by rewrite H1]|done|..].
    + assert (a :: spare m ++ S ++ A ≡ₚ spare m ++ (a :: S) ++ A) as -> by solve_Permutation. done.
    + assert (a :: spare m ++ S ++ A ≡ₚ spare m ++ (a :: S) ++ A) as -> by solve_Permutation. done.
  - intros m x S A Hm _. pose proof (ledger_take m S _ Hm) as Ht. pose proof Hm as (H1 & H2 & _). cbn.
    destruct (take_page m) as [a l]. destruct Ht as [-> |(Ha & Hz & Hnd & H0)]; [by exists None, m|].
    rewrite Hz. eexists _, _. split; [done|]. cbn [from_option fst pgdir new_mm app].
    assert (l ++ S ++ a :: pgdir x :: A ≡ₚ l ++ a :: S ++ pgdir x :: A) as Hp by solve_Permutation.
    split_and!; cbn; [done|by rewrite H2|by rewrite Hp|by rewrite Hp].
  - intros m y x S A Hm. by exists y, m.
  - intros m img S A Hm. pose proof (ledger_take m S _ Hm) as Ht. pose proof Hm as (H1 & H2 & _). cbn.
    destruct (take_page m) as [a l]. destruct Ht as [-> |(Ha & Hz & Hnd & H0)]; [by exists None, m|].
    rewrite Hz. eexists _, _. split; [done|]. cbn [from_option pgdir new_mm app].
    assert (l ++ S ++ a :: A ≡ₚ l ++ a :: S ++ A) as Hp by solve_Permutation.
    split_and!; cbn; [done|by rewrite H2|by rewrite Hp|by rewrite Hp].
  - intros m x S A (H1 & H2 & H3 & H4). cbn. rewrite decide_True by (rewrite H2; by left).
    eexists. split; [done|]. apply NoDup_app in H3 as Hs. destruct Hs as (_ & _ & Hs). apply NoDup_app in Hs as (_ & _ & Hs).
    assert (pgdir x :: spare m ++ S ++ A ≡ₚ spare m ++ S ++ pgdir x :: A) as Hp by solve_Permutation.
    split_and!; cbn; [done|apply filter_out; [done|by rewrite H2]|by rewrite Hp|by rewrite Hp].
Defined.

(** ** What holds in every run *)

(** The process table, the run queue and memory agree: the queue holds the
    runnable processes, each once; at most the process on the CPU runs; every
    live process has a kernel stack; stacks and address spaces in memory are
    those of the table; and every status a process ended with was returned by
    [wait_child] once or is kept by a zombie. *)
Record consistent {Mem} `{KernelMemLaws Mem} (s : ssys Mem) (q : list nat) : Prop := {
  co_queue : tq NPROC (nodes (kern s)) q;
  co_runnable i p : procs (kern s) !! i = Some p → (i ∈ q ↔ state p = RUNNABLE);
  co_running i p : procs (kern s) !! i = Some p → state p = RUNNING → cpus s !! 0%nat ≫= cproc = Some i;
  co_stack i p : procs (kern s) !! i = Some p → live p → kstack p ≠ 0;
  co_zombie i p : procs (kern s) !! i = Some p → state p = ZOMBIE → mm p = None;
  co_mem : km_inv (mem (kern s)) (procs (kern s) ≫= own_stack) (procs (kern s) ≫= own_space);
  co_status : ended s ≡ₚ waited s ++ (procs (kern s) ≫= zombie_rec)
}.

Section Runs.
Context {Mem : Type} `{KernelMemLaws Mem}.
Implicit Types (s : ssys Mem) (q : list nat).

Lemma sys_consistent s q : sys_inv s q → consistent s q.
Proof.
  intros (x & zs & Hx & Hk & Hl & HP & Hc). pose proof (ki_sched _ _ _ _ Hk) as Hs. split.
  - apply Hs.
  - apply Hs.
  - intros i p Hp Hr. rewrite Hx. cbn. by apply (sl_running _ _ _ (ki_slot _ _ _ _ Hk i p Hp)).
  - intros i p Hp Hl'. apply (so_stack _ _ Hs i p Hp Hl').
  - intros i p Hp. apply (ki_slot _ _ _ _ Hk i p Hp).
  - apply Hk.
  - by rewrite (ki_zs _ _ _ _ Hk).
Qed.

(** ** Time slices *)

(** A timer tick, the pre-emption it asks for, the two sections a process may
    still have before it is off the CPU, and the scheduler. *)
Definition slice : list event := [ETick 0; EPreempt 0; ERun 0; ERun 0; EDispatch 0].

Definition off s : Prop := ∃ x, cpus s = [x] ∧ cproc x = None.

(** From the state with the CPU free, the first of the queue is dispatched. *)
Lemma dispatch_off s q i : sys_inv s (i :: q) → off s →
  ∃ s', step (EDispatch 0) s = Done s' ∧ sys_inv s' q ∧ dispatched s' = dispatched s ++ [i].
Proof.
  intros Hs (x & Hx & Hcx). pose proof (step_fine (EDispatch 0) s _ Hs) as Hf. revert Hf. cbn [step]. unfold at_cpu.
  rewrite Hx. cbn [lookup list_lookup]. rewrite Hcx. pose proof Hs as (y & zs & Hy & Hk & _). rewrite Hx in Hy. injection Hy as <-.
  destruct (pick_ok _ _ (ki_sched _ _ _ _ Hk)) as (h & p & Hp & Hst & -> & Hs'). run.
  assert (on_cpu i s = false) as ->.
  { unfold on_cpu. rewrite Hx. cbn. rewrite Hcx. by rewrite bool_decide_false. }
  set (s' := log_dispatch _ _). intros [(s'' & [= <-] & q' & new & Hinv & Hd)|[?|?]]; [|done..].
  exists s'. split; [done|]. split; [|done]. cbn in Hd. rewrite <- app_assoc in Hd. apply app_inv_head in Hd.
  injection Hd as ->. destruct Hinv as (y & zs' & Hy & Hk' & Hrest). exists y, zs'. split; [done|].
  destruct Hk' as [H1 H2 H3 H4 H5]. split; [|done]. by split.
Qed.

(** At the end of a call the CPU is given back. *)
Lemma run_leaving s q x me : sys_inv s q → cpus s = [x] → cproc x = Some me → leaving x = true →
  ∃ s', step (ERun 0) s = Done s' ∧ sys_inv s' q ∧ off s' ∧ dispatched s' = dispatched s.
Proof.
  intros (y & zs & Hy & Hk & Hl & HP & Hc) Hx Hcx Hlv. rewrite Hx in Hy. injection Hy as <-.
  cbn [step]. unfold at_cpu. rewrite Hx. cbn [lookup list_lookup]. rewrite Hcx, Hlv.
  unfold cur_inv in Hc. rewrite Hcx, Hlv in Hc. destruct Hc as (p & Hp & Hnr & _ & Hnw). rewrite Hcx in Hk, HP.
  destruct (back_inv _ q zs me p _ Hk HP Hp Hnr Hnw) as (k' & -> & Hk' & HP'). run.
  eexists. split; [done|]. split; [|split; [|done]].
  - exists (Cpu None false (need_resched x)), zs. cbn [kern cpus set_cpu set_kern pend ended waited cproc]. by rewrite Hx.
  - exists (Cpu None false (need_resched x)). cbn. by rewrite Hx.
Qed.

Lemma run_off s : off s → step (ERun 0) s = Done s.
Proof. intros (x & Hx & Hcx). cbn [step]. unfold at_cpu. rewrite Hx. cbn [lookup list_lookup]. by rewrite Hcx. Qed.

(** Two steps of a process that is leaving, or is at the last wake-up of
    [exit], take it off the CPU. *)
Lemma run_twice s q x me p : sys_inv s q → cpus s = [x] → cproc x = Some me → procs (kern s) !! me = Some p →
  leaving x = true ∨ state p ≠ RUNNING →
  ∃ s' new, steps [ERun 0; ERun 0] s = Done s' ∧ sys_inv s' (q ++ new) ∧ off s' ∧ dispatched s' = dispatched s.
Proof.
  intros Hs Hx Hcx Hp Hor. cbn [steps]. destruct (leaving x) eqn:Hlv.
  { destruct (run_leaving s q x me Hs Hx Hcx Hlv) as (s1 & -> & Hs1 & Hoff & Hd). run.
    rewrite (run_off s1 Hoff). run. exists s1, []. by rewrite app_nil_r. }
  destruct Hor as [|Hst]; [done|]. pose proof (step_fine (ERun 0) s _ Hs) as Hf. revert Hf.
  destruct Hs as (y & zs & Hy & Hk & Hl & HP & Hc). rewrite Hx in Hy. injection Hy as <-.
  unfold cur_inv in Hc. rewrite Hcx, Hlv in Hc. destruct Hc as (p' & Hp' & [?|(_ & j & Hj)]); [congruence|].
  cbn [step]. unfold at_cpu. rewrite Hx. cbn [lookup list_lookup]. rewrite Hcx, Hlv, Hj. cbn [do_act].
  destruct (wakeup_calm _ q (ChProc j) (ki_sched _ _ _ _ Hk)) as (k' & new & -> & _ & _ & _ & Hs'). run.
  set (s1 := set_pend _ _ _). intros [(s'' & [= <-] & q' & new' & Hinv & Hd)|[?|?]]; [|done..].
  assert (q' = q ++ new') as -> by (by apply app_inv_head in Hd).
  destruct (run_leaving s1 _ (Cpu (Some me) true (need_resched x)) me Hinv) as (s2 & Hrun & Hs2 & Hoff & Hd2); [|done..|].
  { cbn. by rewrite Hx. }
  cbn [step] in Hrun. unfold at_cpu in Hrun. exists s2, new'. run. cbn [step] in *. rewrite Hrun. run. done.
Qed.

(** The process on the CPU will be off it after two steps. *)
Definition yielding s : Prop :=
  off s ∨ ∃ x me p, cpus s = [x] ∧ cproc x = Some me ∧ procs (kern s) !! me = Some p ∧ (leaving x = true ∨ state p ≠ RUNNING).

Lemma run_yielding s q : sys_inv s q → yielding s →
  ∃ s' new, steps [ERun 0; ERun 0] s = Done s' ∧ sys_inv s' (q ++ new) ∧ off s' ∧ dispatched s' = dispatched s.
Proof.
  intros Hs [Hoff|(x & me & p & Hx & Hcx & Hp & Hor)]; [|by eapply run_twice].
  exists s, []. rewrite app_nil_r. cbn [steps]. rewrite (run_off s Hoff). run. rewrite (run_off s Hoff). by run.
Qed.

Lemma preempt_ok s q x : sys_inv s q → cpus s = [x] → q ≠ [] →
  (∀ me p, cproc x = Some me → procs (kern s) !! me = Some p → state p = RUNNING → need_resched x = true) →
  ∃ s' new, step (EPreempt 0) s = Done s' ∧ sys_inv s' (q ++ new) ∧ yielding s' ∧ dispatched s' = dispatched s.
Proof.
  intros Hs Hx Hq Hneed. pose proof (step_fine (EPreempt 0) s _ Hs) as Hf. revert Hf.
  pose proof Hs as (y & zs & Hy & Hk & _ & _ & Hc). rewrite Hx in Hy. injection Hy as <-.
  cbn [step]. unfold at_cpu. rewrite Hx. cbn [lookup list_lookup].
  assert (∀ nd, (∀ me p, cproc x = Some me → procs (kern s) !! me = Some p → state p ≠ RUNNING) →
    let s' := set_cpu 0 (Cpu (cproc x) (leaving x) nd) s in yielding s') as Hno.
  { intros nd Hnr s'. assert (cpus s' = [Cpu (cproc x) (leaving x) nd]) as Hx' by (cbn; by rewrite Hx).
    unfold cur_inv in Hc. destruct (cproc x) as [me|] eqn:Hcx.
    - right. destruct Hc as (p & Hp & _). exists (Cpu (Some me) (leaving x) nd), me, p. split_and!; [done..|]. right. by eapply Hnr.
    - left. by eexists. }
  assert (∀ nd, (∀ me p, cproc x = Some me → procs (kern s) !! me = Some p → state p ≠ RUNNING) →
    fine s q (Done (set_cpu 0 (Cpu (cproc x) (leaving x) nd) s)) →
    ∃ s' new, Done (set_cpu 0 (Cpu (cproc x) (leaving x) nd) s) = Done s' ∧ sys_inv s' (q ++ new) ∧ yielding s' ∧
      dispatched s' = dispatched s) as Hquit.
  { intros nd Hnr _. eexists _, []. rewrite app_nil_r. split; [done|]. split; [by apply sys_need|]. split; [by apply Hno|done]. }
  unfold should_preempt. destruct (cproc x) as [me|] eqn:Hcx.
  2:{ destruct (negb (need_resched x)); run; apply Hquit; done. }
  unfold cur_inv in Hc. rewrite Hcx in Hc. destruct Hc as (p & Hp & Hc). rewrite (get_proc_ok _ _ _ Hp).
  destruct (decide (state p = RUNNING)) as [Hst|Hst].
  2:{ destruct (negb (need_resched x)); run; [|rewrite (bool_decide_false (state p = RUNNING)) by done; cbn [negb]; run];
        apply Hquit; intros me' p' [= <-] Hp'; congruence. }
  rewrite (Hneed me p) by done. cbn [negb]. run. rewrite bool_decide_true by done. cbn [negb].
  rewrite (queue_empty _ _ _ _ Hk), bool_decide_false by done. run.
  destruct (yield_ok _ q me p (ki_sched _ _ _ _ Hk) Hp Hst) as (h & -> & Hs'). run.
  set (s' := set_cpu _ _ _). intros [(s'' & [= <-] & q' & new & Hinv & Hd)|[?|?]]; [|done..].
  assert (q' = q ++ new) as -> by (by apply app_inv_head in Hd).
  exists s', new. split; [done|]. split; [done|]. split; [|done]. right.
  exists (Cpu (Some me) true false), me, (with_state RUNNABLE p). split; [cbn; by rewrite Hx|]. split; [done|].
  split; [by eapply (lookup_set_proc (with_nodes h (kern s)))|by left].
Qed.

Lemma steps_app es1 es2 s : steps (es1 ++ es2) s = (s ← steps es1 s; steps es2 s).
Proof.
  revert s. induction es1 as [|e es1 IH]; intros s; [done|]. cbn [app steps].
  destruct (step e s); cbn; [apply IH|done..].
Qed.

(** One slice dispatches the first process of the queue. *)
Lemma slice_ok s q i : sys_inv s (i :: q) →
  ∃ s' new, steps slice s = Done s' ∧ sys_inv s' (q ++ new) ∧ dispatched s' = dispatched s ++ [i].
Proof.
  intros Hs. pose proof Hs as (x & zs & Hx & _).
  destruct (tick_ok s _ x Hs Hx) as (k1 & new1 & nd & Htick & Hs1 & Hnd). set (s1 := set_cpu 0 _ _) in *.
  destruct (preempt_ok s1 _ (Cpu (cproc x) (leaving x) nd) Hs1) as (s2 & new2 & Hpre & Hs2 & Hy2 & Hd2).
  { cbn. by rewrite Hx. }
  { done. }
  { intros me p Hcx Hp Hst. by eapply Hnd. }
  destruct (run_yielding s2 _ Hs2 Hy2) as (s3 & new3 & Hrun & Hs3 & Hoff & Hd3).
  destruct (dispatch_off s3 (q ++ new1 ++ new2 ++ new3) i) as (s4 & Hdis & Hs4 & Hd4); [|done|].
  { by rewrite <- !app_assoc in Hs3. }
  exists s4, (new1 ++ new2 ++ new3). change slice with ([ETick 0; EPreempt 0] ++ [ERun 0; ERun 0] ++ [EDispatch 0]).
  assert (steps [ETick 0; EPreempt 0] s = Done s2) as H1 by (cbn [steps]; rewrite Htick; run; by rewrite Hpre).
  assert (steps [EDispatch 0] s3 = Done s4) as H3 by (cbn [steps]; by rewrite Hdis).
  rewrite !steps_app, H1. run. rewrite steps_app, Hrun. run. rewrite H3.
  split; [done|]. split; [done|]. rewrite Hd4, Hd3, Hd2. done.
Qed.

Lemma slices_ok n : ∀ s q i, sys_inv s q → q !! n = Some i →
  ∃ s' q', steps (concat (replicate (S n) slice)) s = Done s' ∧ sys_inv s' q' ∧
    dispatched s' = dispatched s ++ take (S n) q.
Proof.
  induction n as [|n IH]; intros s q i Hs Hi; (destruct q as [|j q]; [done|]).
  all: match goal with |- context [concat (replicate (S ?m) slice)] =>
         change (concat (replicate (S m) slice)) with (slice ++ concat (replicate m slice)) end.
  all: rewrite steps_app; destruct (slice_ok s q j Hs) as (s1 & new & -> & Hs1 & Hd1).
  - exists s1, (q ++ new). split; [done|]. split; [done|]. by rewrite Hd1.
  - destruct (IH s1 (q ++ new) i Hs1) as (s2 & q2 & Hrun & Hs2 & Hd2).
    { cbn in Hi. by rewrite lookup_app_l by (by eapply lookup_lt_Some). }
    exists s2, q2. split; [exact Hrun|]. split; [done|]. rewrite Hd2, Hd1, <- app_assoc. f_equal. cbn [app take]. f_equal.
    rewrite take_app_le; [done|]. apply lookup_lt_Some in Hi. cbn in Hi. lia.
Qed.
End Runs.




(** ** Status words, as user/include/sys/wait.h reads them *)

Definition WEXITSTATUS (status : Z) : Z := Z.shiftr (Z.land status 0xff00) 8.
Definition WTERMSIG (status : Z) : Z := Z.land status 0x7f.
Definition WIFEXITED (status : Z) : bool := WTERMSIG status =? 0.
(** [(signed char)((status & 0x7f) + 1) >> 1 > 0] *)
Definition WIFSIGNALED (status : Z) : bool :=
  let c := (Z.land status 0x7f + 1) mod 256 in
  0 <? Z.shiftr (if c <? 128 then c else c - 256) 1.

(** a parent reads from the status word what the child ended with: the low
    byte of the [exit] argument, or the number of the fatal signal. *)
Theorem wait_status_roundtrip (status sig : Z) :
  1 ≤ sig < 32 →
  WIFEXITED (exit_status status) = true ∧ WIFSIGNALED (exit_status status) = false ∧
  WEXITSTATUS (exit_status status) = status mod 256 ∧
  WIFEXITED (exit_signal_status sig) = false ∧ WIFSIGNALED (exit_signal_status sig) = true ∧
  WTERMSIG (exit_signal_status sig) = sig.
Proof.
  intros Hsig.
  assert (exit_status status = (status mod 256) * 256) as Hx.
  { unfold exit_status. change 0xff with (Z.ones 8). rewrite Z.land_ones, Z.shiftl_mul_pow2 by lia. done. }
  pose proof (Z.mod_pos_bound status 256 ltac:(lia)) as Hb. set (b := status mod 256) in *.
  assert (Z.land (b * 256) 0x7f = 0) as H7.
  { change 0x7f with (Z.ones 7). rewrite Z.land_ones by lia. replace (b * 256) with (b * 2 * 2 ^ 7) by lia. apply Z.mod_mul. lia. }
  assert (Z.land sig 0x7f = sig) as Hs.
  { change 0x7f with (Z.ones 7). rewrite Z.land_ones by lia. apply Z.mod_small. lia. }
  assert (exit_signal_status sig = sig) as Hsx.
  { unfold exit_signal_status. rewrite (proj2 (Z.ltb_ge sig 1)) by lia. done. }
  unfold WIFEXITED, WIFSIGNALED, WEXITSTATUS, WTERMSIG. rewrite Hx, Hsx, H7, Hs. split_and!; try done.
  - change 0xff00 with (Z.shiftl (Z.ones 8) 8). replace (b * 256) with (Z.shiftl b 8) by (rewrite Z.shiftl_mul_pow2; lia).
    rewrite <- Z.shiftl_land, Z.shiftr_shiftl_l by lia. rewrite Z.land_ones by lia. change (8 - 8) with 0.
    rewrite Z.shiftl_0_r. apply Z.mod_small. lia.
  - apply Z.eqb_neq. lia.
  - rewrite Z.mod_small, (proj2 (Z.ltb_lt (sig + 1) 128)) by lia. apply Z.ltb_lt.
    rewrite Z.shiftr_div_pow2 by lia. change (2 ^ 1) with 2. apply Z.div_str_pos. lia.
Qed.

(** ** A booted system *)

Definition ledger0 : ledger := Ledger [0xC0200000; 0xC0201000; 0xC0202000; 0xC0203000; 0xC0204000] [] [].
Definition boot0 : ksys ledger :=
  match rest_init (procinit ledger0) with Done k => k | _ => procinit ledger0 end.

Lemma ledger0_ok : km_inv ledger0 [] [].
Proof. split; [done|]. split; [done|]. split; apply (bool_decide_unpack _); vm_compute; exact I. Qed.

Lemma boot0_eq : rest_init (procinit ledger0) = Done boot0.
Proof. vm_compute. reflexivity. Qed.

Definition state_of {Mem} (i : nat) (k : ksys Mem) : option procstate := state <$> procs k !! i.

(** [init] becomes a user process, forks, waits for the child and is
    pre-empted between the scan of [wait_child] and its [sleep]. *)
Definition fork_wait : list event :=
  [EDispatch 0; ECall 0 (CExec init_name []); ERun 0; ECall 0 CFork; ERun 0; ERun 0; ERun 0;
   ECall 0 (CWait (-1)); ERun 0; ETick 0; EPreempt 0; ERun 0].
(** [kthreadd] sleeps, the child exits, [init] goes on. *)
Definition child_exits : list event :=
  [EDispatch 0; ECall 0 (CSleep (ChAddr 4096)); ERun 0; ERun 0;
   EDispatch 0; ECall 0 (CExit 7); ERun 0; ERun 0; ERun 0; ERun 0;
   EDispatch 0; ERun 0; ERun 0].

Definition run1 (es : list event) : ssys ledger :=
  match steps es (start_sys 1 boot0) with Done s => s | _ => start_sys 1 boot0 end.

Lemma run_fork_wait : steps fork_wait (start_sys 1 boot0) = Done (run1 fork_wait).
Proof. vm_compute. reflexivity. Qed.

Lemma run_child_exits : steps child_exits (run1 fork_wait) = Done (run1 (fork_wait ++ child_exits)).
Proof. vm_compute. reflexivity. Qed.




Lemma wait_status_roundtrip_witness :
  WIFEXITED (exit_status 300) = true ∧ WIFSIGNALED (exit_status 300) = false ∧
  WEXITSTATUS (exit_status 300) = 300 mod 256 ∧
  WIFEXITED (exit_signal_status 9) = false ∧ WIFSIGNALED (exit_signal_status 9) = true ∧
  WTERMSIG (exit_signal_status 9) = 9.
Proof. apply (wait_status_roundtrip 300 9). lia. Defined.

(** ** Where the code goes wrong *)

(** A lost wake-up on one CPU: [wait_child] releases [proc_lock] before it calls
    [sleep].  A parent pre-empted there misses the wake-up of the child's exit
    and sleeps with a zombie child; the run queue is empty and no process is on
    the CPU, so nothing will wake it. *)
Lemma wait_child_lost_wakeup :
  let k := kern (run1 (fork_wait ++ child_exits)) in
  state_of 1 k = Some SLEEPING ∧ (chan <$> procs k !! 1%nat) = Some (Some (ChProc 1)) ∧
  state_of 3 k = Some ZOMBIE ∧ (parent <$> procs k !! 3%nat) = Some (Some 1%nat) ∧
  state_of 2 k = Some SLEEPING ∧ task_queue_empty_locked (nodes k) = Done true ∧
  (cproc <$> cpus (run1 (fork_wait ++ child_exits))) = [None].
Proof. vm_compute. split_and!; reflexivity. Qed.

(** Two CPUs on one stack: [sleep] marks the process SLEEPING before it has
    left its stack, so a wake-up from another CPU can make it runnable, and a
    third scheduler can run it, while the first CPU is still on the stack. *)
Lemma sleep_races_with_dispatch :
  steps [EDispatch 0; EDispatch 1; ECall 0 (CSleep (ChAddr 64)); ERun 0;
         ECall 1 (CWakeup (ChAddr 64)); ERun 1; EDispatch 2] (start_sys 3 boot0) = Wild.
Proof. vm_compute. reflexivity. Qed.

(** A kernel stack freed in use: [wait_child] on one CPU reaps a child whose
    [exit] on the other has marked it ZOMBIE and not yet switched away. *)
Definition reap_in_use : list event :=
  [EDispatch 0; ECall 0 (CExec init_name []); ERun 0; ECall 0 CFork; ERun 0; ERun 0; ERun 0;
   EDispatch 1; ECall 1 (CSleep (ChAddr 4096)); ERun 1; ERun 1; EDispatch 1;
   ECall 1 (CExit 7); ERun 1; ERun 1; ECall 0 (CWait (-1)); ERun 0].
Definition run2 (es : list event) : ssys ledger :=
  match steps es (start_sys 2 boot0) with Done s => s | _ => start_sys 2 boot0 end.

Lemma zombie_stack_freed_in_use :
  let s := run2 reap_in_use in
  steps reap_in_use (start_sys 2 boot0) = Done s ∧ (cproc <$> cpus s) = [Some 1%nat; Some 3%nat] ∧
  (kstack <$> procs (kern (run2 (take 15 reap_in_use))) !! 3%nat) = Some 0xC0204000 ∧
  state_of 3 (kern s) = Some UNUSED ∧ head (spare (mem (kern s))) = Some 0xC0204000.
Proof. vm_compute. split_and!; reflexivity. Qed.

(** * The signal and futex theorems at concrete processes. *)

#[local] Opaque uvmcreate fill_page uvmcopy copyout alloc_page pmm_init rest_init procinit steps signal_send boot0 run1.

(** A page at the top of the stack. *)
Definition as_stack : pmm :=
  state_after (fill_page (page_to_addr as1 30) (USERSTACK - PGSIZE) (Z.lor PTE_P PTE_W) as1).

Lemma as_stack_ok : ∃ U T e, uspace as_stack U 30 T {[vpn (USERSTACK - PGSIZE) := e]} none.
Proof.
  destruct (filled_at (USERSTACK - PGSIZE) (Z.lor PTE_P PTE_W)) as (U & T & e & H & _);
    [split; reflexivity || discriminate|exists 786431; reflexivity|done|vm_compute; reflexivity|].
  exists U, T, e. exact H.
Qed.

Lemma single_no_alias v e : no_alias {[v := e]}.
Proof. intros v1 v2 e1 e2 [<- _]%lookup_singleton_Some [<- _]%lookup_singleton_Some _. reflexivity. Qed.

(** A user process that handles signal 2 at [USERLOAD], with that signal
    pending, and its registers. *)
Definition sig_proc : proc :=
  with_sig (SIGBIT 2) 0 (<[2%nat := USERLOAD]> (replicate NSIG SIG_DFL)) None false
    (with_image (Some (dmm as_stack)) 0xC0200000 false (with_state RUNNING zero_proc)).
Definition user_tf : trapframe :=
  TrapFrame 1 2 3 0 4 5 6 7 0x23 0 USERLOAD 0x1b 0x202 (USERSTACK - 64) 0x23.

Lemma sig_proc_ok : sig_ok sig_proc.
Proof. split; [split; reflexivity || discriminate..|reflexivity]. Qed.


Definition notified_to (r : outcome (notified * pmm)) : proc * trapframe :=
  match r with Done (Resume p tf, _) => (p, tf) | _ => (zero_proc, user_tf) end.
Definition handling : proc * trapframe := notified_to (signal_notify no_shm_fault true sig_proc user_tf as_stack).
Definition handling_mem : pmm :=
  match signal_notify no_shm_fault true sig_proc user_tf as_stack with Done (_, s) => s | _ => as_stack end.

Lemma handling_eq : signal_notify no_shm_fault true sig_proc user_tf as_stack =
  Done (Resume handling.1 handling.2, handling_mem).
Proof.
  unfold handling, handling_mem.
  assert (sighandling (notified_to (signal_notify no_shm_fault true sig_proc user_tf as_stack)).1 = true) as Hh
    by (vm_compute; reflexivity).
  destruct (signal_notify no_shm_fault true sig_proc user_tf as_stack) as [[[p tf|sig p] s]| | |];
    [reflexivity|discriminate Hh..].
Qed.

Lemma sigreturn_restores_witness :
  sys_sigreturn handling.1 = (s32 (eax user_tf), Some user_tf, signal_exit_cleanup handling.1) ∧
  sighand handling.1 = sighand sig_proc ∧ sigmasked handling.1 = sigmasked sig_proc.
Proof.
  apply (sigreturn_restores no_shm_fault true sig_proc user_tf as_stack _ _ handling_mem sig_proc_ok eq_refl handling_eq).
  vm_compute. reflexivity.
Defined.

(** ** Processes from boot *)

Lemma Done_inj {A} (a b : A) : Done a = Done b → a = b.
Proof. intros H. injection H as ->. reflexivity. Qed.

Lemma run1_ok es : steps es (start_sys 1 boot0) = Done (run1 es) → ∃ q, sys_inv (run1 es) q.
Proof.
  intros Hes. pose proof boot0_eq as Hb.
  destruct (rest_init_ok ledger0 ledger0_ok) as [(k' & i & j & Hrun & Hk' & _)|[msg Hrun]].
  2:{ rewrite Hb in Hrun. discriminate Hrun. }
  rewrite Hb in Hrun. apply Done_inj in Hrun. subst k'.
  destruct (steps_fine es _ _ (start_inv _ _ Hk')) as [(s & Hs & q & _ & Hinv & _)|[Hp|Hp]].
  2-3: rewrite Hes in Hp; discriminate Hp.
  rewrite Hes in Hs. apply Done_inj in Hs. subst s. exists q. exact Hinv.
Qed.

Definition result_is {A} (r : outcome (Z * A)) (v : Z) : bool :=
  match r with Done (x, _) => x =? v | _ => false end.

Lemma signal_send_spec_witness : ∃ i p h,
  let k := kern (run1 fork_wait) in
  procs k !! i = Some p ∧ targets 1 p ∧
  signal_send 1 SIGKILL k = Done (0, set_proc i (signalled SIGKILL p) (with_nodes h k)).
Proof.
  destruct (run1_ok _ run_fork_wait) as (q & x & zs & _ & Hk & _).
  destruct (signal_send_spec (kern (run1 fork_wait)) q 1 SIGKILL (ki_sched _ _ _ _ Hk))
    as [Hrun|(i & p & h & Hp & Ht & _ & Hrun & _)].
  - assert (result_is (signal_send 1 SIGKILL (kern (run1 fork_wait))) 0 = true) as Hr by (vm_compute; reflexivity).
    rewrite Hrun in Hr. discriminate Hr.
  - exists i, p, h. split; [exact Hp|]. split; [exact Ht|exact Hrun].
Defined.

(** [init] on the CPU, with the address space of [as2]. *)
Definition first : list event := [EDispatch 0].
Definition init_proc : proc := default zero_proc (procs (kern (run1 first)) !! 1%nat).
Definition user_init : proc := with_image (Some (dmm as2)) (kstack init_proc) false init_proc.
Definition kfutex : ksys ledger := set_proc 1 user_init (kern (run1 first)).

Lemma init_slot : procs (kern (run1 first)) !! 1%nat = Some init_proc.
Proof. vm_compute. reflexivity. Qed.

Lemma kfutex_ok : ∃ q, sched_ok kfutex q ∧ procs kfutex !! 1%nat = Some user_init ∧ state user_init = RUNNING.
Proof.
  destruct (run1_ok first) as (q & x & zs & _ & Hk & _); [vm_compute; reflexivity|]. exists q.
  split; [|split; [exact (lookup_set_eq _ _ _ _ init_slot)|vm_compute; reflexivity]].
  eapply sched_set; [exact (ki_sched _ _ _ _ Hk)|exact init_slot|reflexivity|]. intros _. vm_compute. discriminate.
Qed.

Lemma word_ok : user_word (USERLOAD + 8).
Proof. split_and!; [discriminate|discriminate|reflexivity]. Qed.


Lemma futex_wake_spec_witness : ∃ n k' s', do_futex_wake no_shm_fault 1 (USERLOAD + 8) 2 kfutex as2 = Done (n, k', s').
Proof.
  destruct kfutex_ok as (q & Hk & Hp & Hst). destruct as2_ok as (U & T & e & Hus & _).
  destruct (futex_wake_spec no_shm_fault kfutex q 1 user_init (dmm as2) as2 U 30 T {[1024 := e]} none (USERLOAD + 8) 2 Hk Hp)
    as (s' & U' & T' & M' & e' & h & P & Hrun & _).
  - reflexivity.
  - exact Hus.
  - exact (dmm_plain as2).
  - reflexivity.
  - exact word_ok.
  - assert (vpn (USERLOAD + 8) = 1024) as -> by reflexivity. rewrite lookup_singleton_eq. by eexists.
  - reflexivity.
  - eexists _, _, s'. exact Hrun.
Defined.
