(* ===== verification/Exec.v ===== *)
(** [Exec]: kernel/execve.c, building a program's address space.

    An image is the list of its bytes; reading a header field outside it is
    [Wild].  Names and arguments are strings without their terminator.  The new
    [mm] is a value: [p->mm] and the trap frame change in [exec_commit], once
    the whole address space is built.  Finding the file is not modelled. *)
From Stdlib Require Import ZArith Lia.
From stdpp Require Import numbers strings gmap list.
From S2P Require Import Prelude ListHead MemLayout Buddy Vm Mmap UserMem TaskQueue Proc Signal.
Open Scope Z_scope.

Definition EXEC_MAX_FILE : Z := USERHEAP_TOP - USERLOAD.
Definition NNAME : Z := 256.
Definition MAXARG : nat := 32.
Definition MAXENV : nat := 32.

Definition ELF_MAGIC : Z := 0x464C457F.
Definition ET_EXEC : Z := 2.
Definition EM_386 : Z := 3.
Definition ELF_PROG_LOAD : Z := 1.
Definition ELF_PROG_FLAG_WRITE : Z := 2.
Definition AT_NULL : Z := 0.

(** ** ELF headers, at their offsets in the image *)

Definition get8 (blob : list Z) (off : Z) : outcome Z := deref (blob !! Z.to_nat off).
Definition get16 (blob : list Z) (off : Z) : outcome Z :=
  a ← get8 blob off; b ← get8 blob (off + 1); mret (a + 256 * b).
Definition get32 (blob : list Z) (off : Z) : outcome Z :=
  a ← get16 blob off; b ← get16 blob (off + 2); mret (a + 65536 * b).

Record elfhdr := ElfHdr {
  e_magic : Z; e_type : Z; e_machine : Z; e_entry : Z; e_phoff : Z; e_phentsize : Z; e_phnum : Z
}.
Definition sizeof_elfhdr : Z := 52.

Definition elf_header (blob : list Z) : outcome elfhdr :=
  m ← get32 blob 0; t ← get16 blob 16; c ← get16 blob 18; e ← get32 blob 24;
  o ← get32 blob 28; z ← get16 blob 42; n ← get16 blob 44;
  mret (ElfHdr m t c e o z n).

Record proghdr := ProgHdr { p_type : Z; p_off : Z; p_vaddr : Z; p_filesz : Z; p_memsz : Z; p_flags : Z }.
Definition sizeof_proghdr : Z := 32.

Definition prog_header (blob : list Z) (at_ : Z) : outcome proghdr :=
  t ← get32 blob at_; o ← get32 blob (at_ + 4); v ← get32 blob (at_ + 8);
  f ← get32 blob (at_ + 16); m ← get32 blob (at_ + 20); g ← get32 blob (at_ + 24);
  mret (ProgHdr t o v f m g).

Definition is_elf (blob : list Z) : outcome bool :=
  if Z.of_nat (length blob) <? sizeof_elfhdr then mret false
  else m ← get32 blob 0; mret (m =? ELF_MAGIC).

(** ** Loading *)

(** The loop over the program headers: [n] are left, the next one is at
    [at_].  The result is the new [brk], [None] for -1. *)
Fixpoint elf_segments (n : nat) (pgd : Z) (blob : list Z) (at_ brk : Z) (s : pmm) : outcome (option Z * pmm) :=
  match n with
  | O => mret (Some brk, s)
  | S n =>
      let size := Z.of_nat (length blob) in
      ph ← prog_header blob at_;
      if negb (p_type ph =? ELF_PROG_LOAD) then elf_segments n pgd blob (at_ + sizeof_proghdr) brk s
      else if p_memsz ph =? 0 then elf_segments n pgd blob (at_ + sizeof_proghdr) brk s
      else if p_memsz ph <? p_filesz ph then mret (None, s)
      else if (size <? p_off ph) || (size - p_off ph <? p_filesz ph) then mret (None, s)
      else if p_vaddr ph <? USERLOAD then mret (None, s)
      else
        let seg_end := u32 (p_vaddr ph + p_memsz ph) in
        if (seg_end <? p_vaddr ph) || (USERHEAP_TOP <? seg_end) then mret (None, s)
        else
          let perm := if has (p_flags ph) ELF_PROG_FLAG_WRITE then Z.lor PTE_P PTE_W else PTE_P in
          let src := take (Z.to_nat (p_filesz ph)) (drop (Z.to_nat (p_off ph)) blob) in
          '(r, s) ← loaduvm_seg pgd (p_vaddr ph) src (p_memsz ph) perm s;
          if r <? 0 then mret (None, s)
          else elf_segments n pgd blob (at_ + sizeof_proghdr) (if brk <? seg_end then seg_end else brk) s
  end.

(** The result is the entry point and the end of the highest segment. *)
Definition exec_load_elf (pgd : Z) (blob : list Z) (s : pmm) : outcome (option (Z * Z) * pmm) :=
  let size := Z.of_nat (length blob) in
  eh ← elf_header blob;
  if negb (e_magic eh =? ELF_MAGIC) || negb (e_type eh =? ET_EXEC) || negb (e_machine eh =? EM_386)
  then mret (None, s)
  else if negb (e_phentsize eh =? sizeof_proghdr) || (e_phnum eh =? 0) then mret (None, s)
  else
    let ph_end := u32 (e_phoff eh + e_phnum eh * sizeof_proghdr) in
    if (size <=? e_phoff eh) || (size <? ph_end) || (ph_end <? e_phoff eh) then mret (None, s)
    else
      '(r, s) ← elf_segments (Z.to_nat (e_phnum eh)) pgd blob (e_phoff eh) USERLOAD s;
      match r with
      | None => mret (None, s)
      | Some brk =>
          if (e_entry eh <? USERLOAD) || (USERHEAP_TOP <=? e_entry eh) then mret (None, s)
          else mret (Some (e_entry eh, brk), s)
      end.

(** [for (va = USERSTACK_BOTTOM; va < USERSTACK; va += PGSIZE)] *)
Fixpoint map_stack (n : nat) (pgd va : Z) (s : pmm) : outcome (Z * pmm) :=
  match n with
  | O => mret (0, s)
  | S n =>
      '(r, s) ← fill_page pgd va (Z.lor PTE_W PTE_P) s;
      if r <? 0 then mret (-1, s) else map_stack n pgd (va + PGSIZE) s
  end.

Definition exec_map_stack (pgd : Z) (s : pmm) : outcome (Z * pmm) :=
  map_stack (Z.to_nat USER_STACK_PAGES) pgd USERSTACK_BOTTOM s.

(** ** The initial stack *)

Section Argv.
Context (shm_demand_fault : mm_struct → vma → Z → bool → pmm → outcome (Z * pmm)).
Context (cur : option mm_struct).

(** The strings, from [sp] downwards: their addresses and the new [sp]. *)
Fixpoint push_strings (pgd : Z) (strs : list (list Z)) (sp : Z) (s : pmm)
    : outcome (option (list Z * Z) * pmm) :=
  match strs with
  | [] => mret (Some ([], sp), s)
  | str :: strs =>
      let len := Z.of_nat (length str) + 1 in
      if (NNAME <? len) || (sp <? USERSTACK_BOTTOM + len) then mret (None, s)
      else
        '(r, s) ← copyout shm_demand_fault cur pgd (sp - len) (str ++ [0]) s;
        if r <? 0 then mret (None, s)
        else
          '(r, s) ← push_strings pgd strs (sp - len) s;
          mret ((λ '(us, sp'), (sp - len :: us, sp')) <$> r, s)
  end.

Definition words (l : list Z) : list Z := mjoin (le32 <$> l).

(** [argc], the two tables and the auxiliary vector, at [sp]. *)
Definition push_tables (pgd sp argc envc : Z) (uargv uenvp : list Z) (s : pmm) : outcome (option Z * pmm) :=
  '(r, s) ← copyout shm_demand_fault cur pgd sp (words [argc]) s;
  if r <? 0 then mret (None, s)
  else
    '(r, s) ← copyout shm_demand_fault cur pgd (sp + 4) (words (uargv ++ [0])) s;
    if r <? 0 then mret (None, s)
    else
      '(r, s) ← copyout shm_demand_fault cur pgd (sp + 4 + (argc + 1) * 4) (words (uenvp ++ [0])) s;
      if r <? 0 then mret (None, s)
      else
        '(r, s) ← copyout shm_demand_fault cur pgd (sp + 4 + (argc + 1 + envc + 1) * 4) (words [AT_NULL; 0]) s;
        if r <? 0 then mret (None, s) else mret (Some sp, s).

(** [argv] and [envp] are [None] for the null pointer; the result is [%esp]. *)
Definition exec_stack_argv (pgd : Z) (name : list Z) (argv envp : option (list (list Z))) (s : pmm)
    : outcome (option Z * pmm) :=
  let args := default [] argv in
  let envs := default [] envp in
  if (pgd =? 0) || bool_decide (MAXARG < length args)%nat then mret (None, s)
  else
    let kargv := if args then [name] else args in
    if bool_decide (MAXENV < length envs)%nat then mret (None, s)
    else
      '(r, s) ← push_strings pgd kargv USERSTACK s;
      match r with
      | None => mret (None, s)
      | Some (uargv, sp) =>
          '(r, s) ← push_strings pgd envs sp s;
          match r with
          | None => mret (None, s)
          | Some (uenvp, sp) =>
              let argc := Z.of_nat (length kargv) in
              let envc := Z.of_nat (length envs) in
              let tab := (1 + (argc + 1) + (envc + 1) + 2) * 4 in
              if sp <? USERSTACK_BOTTOM + tab then mret (None, s)
              else
                let sp := Z.land (sp - tab) (u32 (Z.lnot 0xf)) in
                if sp <? USERSTACK_BOTTOM then mret (None, s)
                else
                  push_tables pgd sp argc envc uargv uenvp s
          end
      end.

(** ** [exec_load] *)

(** Everything in the new address space: entry point, [%esp] and end of the
    data, or [None] for a jump to [bad]. *)
Definition exec_fill (pgd : Z) (blob name : list Z) (argv envp : option (list (list Z))) (s : pmm)
    : outcome (option (Z * Z * Z) * pmm) :=
  let size := Z.of_nat (length blob) in
  elf ← is_elf blob;
  '(r, s) ← (if elf : bool then exec_load_elf pgd blob s
             else if USERHEAP_TOP - USERLOAD <? size then mret (None, s)
             else '(r, s) ← loaduvm pgd USERLOAD blob s;
                  mret (if r <? 0 then None else Some (USERLOAD, USERLOAD + size), s));
  match r with
  | None => mret (None, s)
  | Some (entry, heap_end) =>
      '(r, s) ← exec_map_stack pgd s;
      if r <? 0 then mret (None, s)
      else
        '(r, s) ← exec_stack_argv pgd name argv envp s;
        mret ((λ esp, (entry, esp, heap_end)) <$> r, s)
  end.

(** The new address space, with its entry point and stack pointer; on failure
    it is destroyed again. *)
Definition exec_build (kernel_pgdir : Z) (blob name : list Z) (argv envp : option (list (list Z))) (s : pmm)
    : outcome (option (mm_struct * Z * Z) * pmm) :=
  let size := Z.of_nat (length blob) in
  if (size =? 0) || (EXEC_MAX_FILE <? size) then mret (None, s)
  else
    '(r, s) ← mm_create kernel_pgdir s;
    match r with
    | None => mret (None, s)
    | Some newmm =>
        '(r, s) ← exec_fill (pgdir newmm) blob name argv envp s;
        match r with
        | None => s ← uvmfree (pgdir newmm) s; mret (None, s)
        | Some (entry, esp, heap_end) =>
            let heap_end := if heap_end <? USERLOAD then USERLOAD else heap_end in
            let heap_end := if USERHEAP_TOP <? heap_end then USERHEAP_TOP else heap_end in
            mret (Some (Mm (pgdir newmm) (user_base newmm) USEREND (mmap_base newmm) (stack_top newmm)
                           heap_end heap_end (vmas newmm), entry, esp), s)
        end
    end.
End Argv.

Definition SEG_UCODE : Z := 0x18.
Definition SEG_UDATA : Z := 0x20.

(** [proc_name_from_path]: what follows the last ['/'] *)
Fixpoint last_component (path last : list Z) : list Z :=
  match path with
  | [] => last
  | c :: path => last_component path (if c =? 47 then path else last)
  end.
Definition proc_name_from_path (path : list Z) : list Z := take (Z.to_nat (NNAME - 1)) (last_component path path).

(** The process and its registers once the new address space is in place; the
    old one is what [mm_destroy] gets. *)
Definition exec_commit (m : mm_struct) (entry sp : Z) (name : list Z) (p : proc) (tf : trapframe)
    : proc * trapframe * option mm_struct :=
  let p' := with_image (Some m) (kstack p) (Proc.entry p) p in
  let p' := with_ident (pid p') (parent p') (xstate p') (proc_name_from_path name) p' in
  (signal_exec_reset p',
   TrapFrame (edi tf) (esi tf) (ebp tf) (oesp tf) (ebx tf) (edx tf) (ecx tf) (eax tf)
             (Z.lor SEG_UDATA DPL_USER) (err tf) entry (Z.lor SEG_UCODE DPL_USER) 0x202 sp (Z.lor SEG_UDATA DPL_USER),
   mm p).
