(* ===== verification/ExecSpec.v ===== *)
(** [ExecSpec]: the address space [execve] builds ([Exec]), as the program that
    starts in it sees it. *)
From Stdlib Require Import ZArith Lia.
From stdpp Require Import numbers strings gmap list.
From S2P Require Import Prelude ListHead MemLayout Buddy BuddyInv BuddySpec PageAlloc Vm PageTable VmSpec Mmap.
From S2P Require Import UserMem UserMemSpec AddrSpace TaskQueue Proc Signal SignalSpec Exec.
Open Scope Z_scope.

(** ** Reading the image *)

Definition bytes (l : list Z) : Prop := Forall (λ b, 0 ≤ b < 256) l.

Lemma get8_ok blob off : bytes blob → 0 ≤ off < Z.of_nat (length blob) → ∃ v, get8 blob off = Done v ∧ 0 ≤ v < 256.
Proof.
  intros Hb Hoff. destruct (lookup_lt_is_Some_2 blob (Z.to_nat off)) as [v Hv]; [lia|].
  exists v. unfold get8. rewrite Hv. split; [done|]. by eapply (Forall_lookup_1 _ _ _ _ Hb).
Qed.

Lemma get16_ok blob off : bytes blob → 0 ≤ off → off + 2 ≤ Z.of_nat (length blob) →
  ∃ v, get16 blob off = Done v ∧ 0 ≤ v < 2 ^ 16.
Proof.
  intros Hb H0 H1. unfold get16. destruct (get8_ok blob off Hb) as (a & -> & Ha); [lia|]. run.
  destruct (get8_ok blob (off + 1) Hb) as (b & -> & Hb'); [lia|]. run. eexists. split; [done|]. lia.
Qed.

Lemma get32_ok blob off : bytes blob → 0 ≤ off → off + 4 ≤ Z.of_nat (length blob) →
  ∃ v, get32 blob off = Done v ∧ 0 ≤ v < 2 ^ 32.
Proof.
  intros Hb H0 H1. unfold get32. destruct (get16_ok blob off Hb) as (a & -> & Ha); [lia..|]. run.
  destruct (get16_ok blob (off + 2) Hb) as (b & -> & Hb'); [lia..|]. run. eexists. split; [done|]. lia.
Qed.

(** A header in the image is read without fault, and its fields have their
    width. *)
Ltac field := match goal with
  | |- context [get32 ?b ?o] =>
      let v := fresh "v" in let E := fresh "E" in let R := fresh "R" in
      destruct (get32_ok b o) as (v & E & R); [done|lia|lia|rewrite E; clear E; run]
  | |- context [get16 ?b ?o] =>
      let v := fresh "v" in let E := fresh "E" in let R := fresh "R" in
      destruct (get16_ok b o) as (v & E & R); [done|lia|lia|rewrite E; clear E; run]
  end.

Lemma elf_header_ok blob : bytes blob → sizeof_elfhdr ≤ Z.of_nat (length blob) →
  ∃ eh, elf_header blob = Done eh ∧ 0 ≤ e_phoff eh < 2 ^ 32 ∧ 0 ≤ e_phnum eh < 2 ^ 16 ∧ 0 ≤ e_entry eh < 2 ^ 32.
Proof. unfold sizeof_elfhdr. intros Hb Hlen. unfold elf_header. repeat field. eexists. split; [done|]. cbn. lia. Qed.

Record prog_ok (ph : proghdr) : Prop := {
  po_off : 0 ≤ p_off ph < 2 ^ 32;
  po_vaddr : 0 ≤ p_vaddr ph < 2 ^ 32;
  po_filesz : 0 ≤ p_filesz ph < 2 ^ 32;
  po_memsz : 0 ≤ p_memsz ph < 2 ^ 32
}.

Lemma prog_header_ok blob at_ : bytes blob → 0 ≤ at_ → at_ + sizeof_proghdr ≤ Z.of_nat (length blob) →
  ∃ ph, prog_header blob at_ = Done ph ∧ prog_ok ph.
Proof. unfold sizeof_proghdr. intros Hb H0 Hlen. unfold prog_header. repeat field. eexists. split; [done|]. by split. Qed.

(** ** Segments *)

(** Every page of the space is mapped once, and referred to by nobody else. *)
Definition sole (O : Z → Z) (s : pmm) (M : gmap Z Z) : Prop :=
  no_alias M ∧ ∀ v e i, M !! v = Some e → pte_page_kva e = page_to_addr s i → O i = 0.

Lemma sole_empty O s : sole O s ∅.
Proof. split; [intros v1 v2 e1 e2 H1|intros v e i H1]; by rewrite lookup_empty in H1. Qed.

Lemma sole_served W s U D T M O s' U' T' M' : served W s U D T M O s' U' T' M' → sole O s M → sole O s' M'.
Proof.
  intros Hserv [Hna Hun]. split; [by apply (se_alias _ _ _ _ _ _ _ _ _ _ _ Hserv)|]. intros v e i He Hi.
  pose proof (se_space _ _ _ _ _ _ _ _ _ _ _ Hserv) as Hus'. assert (mem_start s' = mem_start s) as Hst by apply Hserv.
  destruct (decide (U' !! i = Some 0)) as [HUi|HUi]; [|by apply (ct_none _ _ _ _ _ _ (us_count _ _ _ _ _ _ Hus'))].
  destruct (se_own _ _ _ _ _ _ _ _ _ _ _ Hserv _ _ He) as [Hold|(j & HUj & Hj & HO)].
  - eapply (Hun v e i); [done|]. by rewrite <- (page_to_addr_same s s').
  - rewrite Hi, <- (page_to_addr_same s s' j Hst) in Hj.
    by rewrite (page_addr_inj s' U' (us_pool _ _ _ _ _ _ Hus') i j HUi HUj Hj).
Qed.

Lemma sole_unshared O s M va n : sole O s M → unshared O s M va n.
Proof. intros [_ Hs] a e i _ He _ Hi. by eapply Hs. Qed.

(** *** What the headers ask for *)

Definition loadable (ph : proghdr) : bool := (p_type ph =? ELF_PROG_LOAD) && negb (p_memsz ph =? 0).

(** The limits a segment has to keep. *)
Definition seg_valid (size : Z) (ph : proghdr) : Prop :=
  p_filesz ph ≤ p_memsz ph ∧ p_off ph + p_filesz ph ≤ size ∧ USERLOAD ≤ p_vaddr ph ∧ p_vaddr ph + p_memsz ph ≤ USERHEAP_TOP.

#[global] Instance seg_valid_dec size ph : Decision (seg_valid size ph).
Proof. unfold seg_valid. apply _. Defined.

(** The byte the file gives for [a]: the last segment wins. *)
Fixpoint image (blob : list Z) (phs : list proghdr) (a : Z) : option Z :=
  match phs with
  | [] => None
  | ph :: phs =>
      match image blob phs a with
      | Some b => Some b
      | None =>
          if loadable ph && (p_vaddr ph <=? a) && (a <? p_vaddr ph + p_filesz ph)
          then blob !! Z.to_nat (p_off ph + (a - p_vaddr ph)) else None
      end
  end.

Definition in_seg (a : Z) (ph : proghdr) : Prop :=
  loadable ph = true ∧ p_vaddr ph ≤ a < p_vaddr ph + p_memsz ph.
Definition covered (phs : list proghdr) (a : Z) : Prop := Exists (in_seg a) phs.

(** The end of the highest segment. *)
Definition top_seg (phs : list proghdr) (brk : Z) : Z :=
  foldl (λ b ph, if loadable ph then Z.max b (p_vaddr ph + p_memsz ph) else b) brk phs.

(** The [n] program headers from offset [at_] on. *)
Fixpoint headers (n : nat) (blob : list Z) (at_ : Z) : outcome (list proghdr) :=
  match n with
  | O => mret []
  | S n => ph ← prog_header blob at_; phs ← headers n blob (at_ + sizeof_proghdr); mret (ph :: phs)
  end.

Section Load.
Context (D : Z) (O : Z → Z).

Lemma page_zero_mod s U i : pmm_ok s U → U !! i = Some 0 → PGROUNDDOWN (page_to_addr s i) = page_to_addr s i ∧ 0 < page_to_addr s i < 2 ^ 32.
Proof.
  intros HU Hi. destruct (page_ok s U HU i Hi) as (_ & Hal & Hlo & Hhi).
  rewrite PGROUNDDOWN_spec by page_lia. apply Z.mod_divide in Hal; [|done].
  pose proof (Z_div_mod_eq_full (page_to_addr s i) PGSIZE). split; page_lia.
Qed.

Lemma seg_page_ok s U T M i perm : uspace s U D T M O → sole O s M → 0 ≤ i < USEREND → (PGSIZE | i) → 0 ≤ perm < PGSIZE →
  ∃ pa mem s' U' T' M', walkaddr (page_to_addr s D) i s = Done pa ∧
    seg_page (page_to_addr s D) i perm pa s = Done (mem, s') ∧ served nowhere s U D T M O s' U' T' M' ∧
    (∀ v, v ≠ vpn i → M' !! v = M !! v) ∧
    (mem = 0 ∨ mem ≠ 0 ∧ ∃ e, M' !! vpn i = Some e ∧ pte_page_kva e = mem ∧ (M !! vpn i = Some e ∨
       M !! vpn i = None ∧ ∀ fl, 0 ≤ fl < PGSIZE → has e fl = has (Z.lor (Z.lor perm PTE_U) PTE_P) fl)).
Proof.
  intros Hus Hso Hi Hal Hperm. pose proof (proj2 (Z.mod_divide i PGSIZE ltac:(done)) Hal) as Hmod.
  rewrite (walkaddr_view s U D T M O Hus i Hi). unfold seg_page.
  destruct (M !! vpn i) as [e|] eqn:He; eexists _.
  - destruct (user_page _ _ _ _ _ _ i e Hus He) as (n & Hn & _ & Hkva & _).
    destruct (page_zero_mod s U n (us_pool _ _ _ _ _ _ Hus) Hn) as [Hrd Hpos]. rewrite Hmod, Z.add_0_r.
    exists (pte_page_kva e), s, U, T, M. split; [done|].
    rewrite (proj2 (Z.eqb_neq (pte_page_kva e) 0)) by lia. rewrite Hkva, Hrd. split; [done|].
    split; [by apply served_refl|]. split; [done|]. right. split; [lia|]. exists e. auto.
  - change (0 =? 0) with true. cbn iota.
    destruct (space_alloc s U D T M O Hus) as (r & s1 & Halloc & Hr). rewrite Halloc. run.
    destruct r as [a|].
    2:{ subst s1. exists 0, s, U, T, M. split; [done|]. split; [done|]. split; [by apply served_refl|]. split; [done|]. by left. }
    clear Hr. destruct (zeroed_page s U D T M O a s1 Hus Halloc)
      as (n & -> & HUi & Hnt & Hm0 & HO & Hus1 & Href & Hgr & Hz).
    destruct (map_fresh nowhere s U D T M O _ n i perm Hus Hi Hal Hperm He HUi Hnt Hm0 HO Hus1 Href Hgr) as (r & s3 & -> & Hres).
    { intros va _ _. apply Hz. pose proof (Z.mod_pos_bound va PGSIZE ltac:(done)). lia. }
    run. destruct Hres as [(-> & s4 & Hfree & Hsv)|(-> & U' & T' & Hsv & HUi' & Hkva & Hfl & _)].
    + change (-1 <? 0) with true. cbn iota. rewrite Hfree. run. exists 0, s4, U, T, M.
      split; [done|]. split; [done|]. split; [done|]. split; [done|]. by left.
    + change (0 <? 0) with false. cbn iota. eexists _, s3, U', T', _. split; [done|]. split; [done|]. split; [exact Hsv|].
      split; [intros v Hv; by rewrite lookup_insert_ne|]. right.
      pose proof (se_space _ _ _ _ _ _ _ _ _ _ _ Hsv) as Hus3.
      destruct (page_zero_mod s3 U' n (us_pool _ _ _ _ _ _ Hus3) HUi') as [_ Hpos].
      rewrite (page_to_addr_same s s3) in Hpos by apply Hsv. split; [lia|]. eexists. rewrite lookup_insert_eq. auto.
Qed.

Lemma ubytes_at s M va n l j : ubytes s M va n = Some <$> l → 0 ≤ j < n → ubyte s M (va + j) = l !! Z.to_nat j.
Proof.
  intros Hl Hj. unfold ubytes in Hl.
  assert ((ubyte s M <$> ((λ i, va + i) <$> seqZ 0 n)) !! Z.to_nat j = (Some <$> l) !! Z.to_nat j) as Hj'.
  { rewrite <- Hl. f_equal. by rewrite <- list_fmap_compose. }
  rewrite !list_lookup_fmap, lookup_seqZ_lt in Hj' by lia. cbn in Hj'. rewrite Z.add_0_l, Z2Nat.id in Hj' by lia.
  destruct (l !! Z.to_nat j); cbn in Hj'; [by injection Hj' as ->|done].
Qed.

Lemma page_of i a : (PGSIZE | i) → i ≤ a < i + PGSIZE → a mod PGSIZE = a - i ∧ vpn a = vpn i.
Proof.
  intros [q ->] Ha. assert (PGSIZE = 4096) by done. unfold vpn. split.
  - symmetry. apply Z.mod_unique with q; lia.
  - rewrite Z.div_mul by lia. symmetry. apply Z.div_unique with (a - q * PGSIZE); lia.
Qed.

(** Writing the part of [src] (which lies at [va]) that falls into the page at
    [i]. *)
Lemma seg_store_ok s U T M va i fe src e :
  uspace s U D T M O → sole O s M → 0 ≤ va → 0 ≤ i → (PGSIZE | i) → fe = va + Z.of_nat (length src) →
  M !! vpn i = Some e →
  let c_lo := Z.max va i in
  let c_hi := Z.min fe (i + PGSIZE) in
  let s' := if c_lo <? c_hi
            then with_ram (store_bytes (ram s) (pte_page_kva e + (c_lo - i))
                   (take (Z.to_nat (c_hi - c_lo)) (drop (Z.to_nat (c_lo - va)) src))) s
            else s in
  served (λ a, c_lo ≤ a < fe) s U D T M O s' U T M ∧
  ∀ a, c_lo ≤ a < c_hi → ubyte s' M a = Some (default 0 (src !! Z.to_nat (a - va)) mod 256).
Proof.
  intros Hus Hso Hva Hi Hal Hfe He c_lo c_hi s'. pose proof (proj2 (Z.mod_divide i PGSIZE ltac:(done)) Hal) as Hmod.
  unfold s'. destruct (Z.ltb_spec c_lo c_hi) as [Hlt|Hge]; [|split; [by apply served_refl|lia]].
  assert (PGSIZE = 4096) as HP by done.
  destruct (page_of i c_lo Hal) as [Hoff Hvp]; [lia|].
  set (bs := take _ _).
  assert (Z.of_nat (length bs) = c_hi - c_lo) as Hlen by (unfold bs; rewrite length_take, length_drop; lia).
  destruct Hso as [Hna Hsole].
  destruct (store_served D O s U T M c_lo e bs Hus Hna) as [Hsv Hb]; [lia|by rewrite Hvp|lia|intros n _ Hn; by eapply Hsole|].
  rewrite Hoff in Hsv, Hb. split.
  - eapply served_weaken; [|exact Hsv]. unfold within. lia.
  - intros a Ha. replace a with (c_lo + (a - c_lo)) at 1 by lia. rewrite (ubytes_at _ _ _ _ _ (a - c_lo) Hb) by lia.
    rewrite list_lookup_fmap. unfold bs. rewrite lookup_take_lt, lookup_drop by lia.
    replace (Z.to_nat (c_lo - va) + Z.to_nat (a - c_lo))%nat with (Z.to_nat (a - va)) by lia.
    destruct (lookup_lt_is_Some_2 src (Z.to_nat (a - va))) as [b ->]; [lia|done].
Qed.

Lemma load_seg_loop_ok fuel : ∀ s U T M va i en fe src perm,
  uspace s U D T M O → sole O s M → 0 ≤ va → 0 ≤ i → (PGSIZE | i) → va < i + PGSIZE →
  fe = va + Z.of_nat (length src) → fe ≤ en → en ≤ USEREND → 0 ≤ perm < PGSIZE →
  (1 ≤ fuel)%nat → en - i ≤ (Z.of_nat fuel - 1) * PGSIZE →
  ∃ r s' U' T' M', load_seg_loop fuel (page_to_addr s D) va i en fe src perm s = Done (r, s') ∧
    served (λ a, Z.max va i ≤ a < fe) s U D T M O s' U' T' M' ∧ (r = -1 ∨ r = 0) ∧
    (∀ v, ¬ (i ≤ v * PGSIZE < en) → M' !! v = M !! v) ∧
    (r = 0 → (∀ a, i ≤ a < en → is_Some (M' !! vpn a)) ∧
       ∀ a, Z.max va i ≤ a < fe → ubyte s' M' a = Some (default 0 (src !! Z.to_nat (a - va)) mod 256)).
Proof.
  induction fuel as [|fuel IH]; intros s U T M va i en fe src perm Hus Hso Hva Hi Hal Hvi Hfe Hfen Hen Hperm Hf Hfu; [lia|].
  cbn [load_seg_loop]. assert (PGSIZE = 4096) as HP by done.
  destruct (Z.ltb_spec i en) as [Hlt|Hge].
  2:{ exists 0, s, U, T, M. split; [done|]. split; [by apply served_refl|]. split; [by right|]. split; [done|]. intros _. split; intros; lia. }
  destruct (seg_page_ok s U T M i perm Hus Hso ltac:(lia) Hal Hperm) as (pa & mem & s1 & U1 & T1 & M1 & -> & Hpage & Hsv1 & Hoth & Hmem).
  run. rewrite Hpage. run. pose proof (se_space _ _ _ _ _ _ _ _ _ _ _ Hsv1) as Hus1.
  pose proof (sole_served _ _ _ _ _ _ _ _ _ _ _ Hsv1 Hso) as Hso1.
  assert (∀ v, ¬ (i ≤ v * PGSIZE < en) → M1 !! v = M !! v) as Hoth1.
  { intros v Hv. apply Hoth. intros ->. apply Hv. destruct Hal as [z ->]. unfold vpn. rewrite Z.div_mul by lia. lia. }
  assert (served (λ a, Z.max va i ≤ a < fe) s U D T M O s1 U1 T1 M1) as Hw1 by (eapply served_weaken; [|exact Hsv1]; by intros a []).
  destruct Hmem as [-> |(Hm0 & e & He & <- & _)].
  { change (0 =? 0) with true. cbn iota. exists (-1), s1, U1, T1, M1. split; [done|]. split; [done|]. split; [by left|]. by split. }
  rewrite (proj2 (Z.eqb_neq _ 0) Hm0).
  destruct (seg_store_ok s1 U1 T1 M1 va i fe src e Hus1 Hso1 Hva Hi Hal Hfe He) as [Hsv2 Hb2].
  set (s2 := if _ <? _ then _ else _) in *. pose proof (se_space _ _ _ _ _ _ _ _ _ _ _ Hsv2) as Hus2.
  pose proof (sole_served _ _ _ _ _ _ _ _ _ _ _ Hsv2 Hso1) as Hso2.
  assert (page_to_addr s D = page_to_addr s2 D) as -> by (symmetry; apply page_to_addr_same; etrans; [apply Hsv2|apply Hsv1]).
  rewrite u32_small by page_lia.
  destruct (IH s2 U1 T1 M1 va (i + PGSIZE) en fe src perm Hus2 Hso2) as (r & s' & U' & T' & M' & -> & Hsv3 & Hr & Hoth3 & Hr0);
    try done; try lia.
  { apply Z.divide_add_r; [done|by exists 1]. }
  exists r, s', U', T', M'. split; [done|]. split_and!; [|done| |].
  - eapply served_trans; [exact Hw1|]. eapply served_trans; [exact Hsv2|]. eapply served_weaken; [|exact Hsv3]. cbn. lia.
  - intros v Hv. rewrite Hoth3 by lia. by apply Hoth1.
  - intros ->. destruct (Hr0 eq_refl) as [Hmap Hby]. pose proof (se_view _ _ _ _ _ _ _ _ _ _ _ Hsv3) as [Hk _].
    assert (∀ a, i ≤ a < i + PGSIZE → vpn a = vpn i) as Hvpn by (intros a Ha; by apply page_of).
    split; intros a Ha.
    + destruct (decide (i + PGSIZE ≤ a)); [apply Hmap; lia|]. rewrite Hvpn by lia. rewrite Hoth3.
      * by exists e.
      * destruct Hal as [z ->]. unfold vpn. rewrite Z.div_mul by lia. lia.
    + destruct (decide (i + PGSIZE ≤ a)); [apply Hby; lia|]. rewrite Hk; [apply Hb2; lia|lia|lia|].
      rewrite Hvpn by lia. by exists e.
Qed.

Lemma loaduvm_seg_ok s U T M va src memsz perm :
  let fe := va + Z.of_nat (length src) in
  uspace s U D T M O → sole O s M → USERLOAD ≤ va → 0 < memsz → Z.of_nat (length src) ≤ memsz → va + memsz ≤ USERHEAP_TOP →
  0 ≤ perm < PGSIZE →
  ∃ r s' U' T' M', loaduvm_seg (page_to_addr s D) va src memsz perm s = Done (r, s') ∧
    served (λ a, va ≤ a < fe) s U D T M O s' U' T' M' ∧ (r = -1 ∨ r = 0) ∧
    (∀ v, ¬ (PGROUNDDOWN va ≤ v * PGSIZE < va + memsz) → M' !! v = M !! v) ∧
    (r = 0 → (∀ a, va ≤ a < va + memsz → is_Some (M' !! vpn a)) ∧
       ∀ a, va ≤ a < fe → ubyte s' M' a = Some (default 0 (src !! Z.to_nat (a - va)) mod 256)).
Proof.
  intros fe Hus Hso Hva Hm Hlen Hend Hperm. pose proof (dir_addr_pos _ _ _ _ _ _ Hus).
  assert (USERHEAP_TOP < USEREND ∧ USEREND < 2 ^ 32 ∧ 0 < USERLOAD) as (Htop & Hue & Hul) by done.
  unfold loaduvm_seg. rewrite (proj2 (Z.eqb_neq (page_to_addr s D) 0)), (proj2 (Z.ltb_ge memsz _)) by lia. cbn [orb].
  rewrite !u32_small by lia. rewrite (proj2 (Z.eqb_neq memsz 0)), (proj2 (Z.ltb_ge va _)), (proj2 (Z.ltb_ge USEREND _)) by lia.
  cbn [orb]. destruct (copy_fuel_ok va memsz ltac:(lia) ltac:(lia)) as [Hf1 Hf]. destruct Hf as [?|Hf]; [lia|].
  destruct (round_down_user va ltac:(lia)) as (Hd & Hd0 & Hdv & Hdm).
  pose proof (Z.mod_pos_bound va PGSIZE ltac:(done)). fold fe.
  destruct (load_seg_loop_ok (copy_fuel memsz) s U T M va (PGROUNDDOWN va) (va + memsz) fe src perm)
    as (r & s' & U' & T' & M' & -> & Hsv & Hr & Hoth & Hr0); try done; try lia.
  exists r, s', U', T', M'. rewrite Z.max_l in Hsv, Hr0 by lia. split_and!; try done.
  intros Hz. destruct (Hr0 Hz) as [Hmap Hby]. split; [|done]. intros a Ha. apply Hmap. lia.
Qed.


Lemma headers_ok n : ∀ blob at_, bytes blob → 0 ≤ at_ → at_ + Z.of_nat n * sizeof_proghdr ≤ Z.of_nat (length blob) →
  ∃ phs, headers n blob at_ = Done phs ∧ Forall prog_ok phs ∧ length phs = n.
Proof.
  induction n as [|n IH]; intros blob at_ Hb H0 Hlen; [by exists []|]. cbn [headers]. unfold sizeof_proghdr in *.
  destruct (prog_header_ok blob at_ Hb H0) as (ph & -> & Hph); [unfold sizeof_proghdr; lia|]. run.
  destruct (IH blob (at_ + 32) Hb) as (phs & -> & Hphs & <-); [lia..|]. run. exists (ph :: phs). auto.
Qed.

(** The segment of one header, loaded: the checks of the loop and [loaduvm_seg]. *)
Lemma one_segment s U T M blob ph :
  let size := Z.of_nat (length blob) in
  let src := take (Z.to_nat (p_filesz ph)) (drop (Z.to_nat (p_off ph)) blob) in
  let perm := if has (p_flags ph) ELF_PROG_FLAG_WRITE then Z.lor PTE_P PTE_W else PTE_P in
  uspace s U D T M O → sole O s M → bytes blob → prog_ok ph → loadable ph = true → seg_valid size ph →
  ∃ r s' U' T' M', loaduvm_seg (page_to_addr s D) (p_vaddr ph) src (p_memsz ph) perm s = Done (r, s') ∧
    served (λ a, is_Some (image blob [ph] a)) s U D T M O s' U' T' M' ∧ (r = -1 ∨ r = 0) ∧
    (∀ a, USERHEAP_TOP ≤ a → M' !! vpn a = M !! vpn a) ∧
    (r = 0 → (∀ a, in_seg a ph → is_Some (M' !! vpn a)) ∧ ∀ a b, image blob [ph] a = Some b → ubyte s' M' a = Some b).
Proof.
  intros size src perm Hus Hso Hb [P1 P2 P3 P4] Hl (V1 & V2 & V3 & V4).
  assert (Z.of_nat (length src) = p_filesz ph) as Hlen by (unfold src; rewrite length_take, length_drop; lia).
  assert (p_memsz ph ≠ 0) as Hm0.
  { unfold loadable in Hl. apply andb_true_iff in Hl as [_ Hl]. apply negb_true_iff, Z.eqb_neq in Hl. done. }
  assert (0 ≤ perm < PGSIZE) as Hperm by (unfold perm; destruct has; done).
  destruct (loaduvm_seg_ok s U T M (p_vaddr ph) src (p_memsz ph) perm) as (r & s' & U' & T' & M' & -> & Hsv & Hr & Hoth & Hr0);
    try done; try lia. rewrite Hlen in *.
  assert (∀ a, p_vaddr ph ≤ a < p_vaddr ph + p_filesz ph →
            ∃ b, image blob [ph] a = Some b ∧ 0 ≤ b < 256 ∧ src !! Z.to_nat (a - p_vaddr ph) = Some b) as Himg.
  { intros a Ha. cbn [image]. rewrite Hl, (proj2 (Z.leb_le _ _)), (proj2 (Z.ltb_lt _ _)) by lia. cbn [andb].
    destruct (lookup_lt_is_Some_2 blob (Z.to_nat (p_off ph + (a - p_vaddr ph)))) as [b Hbl]; [lia|].
    exists b. split; [done|]. split; [by apply (Forall_lookup_1 _ _ _ _ Hb Hbl)|].
    unfold src. rewrite lookup_take_lt, lookup_drop by lia. rewrite <- Hbl. f_equal. lia. }
  exists r, s', U', T', M'. split; [done|]. split_and!; [|done| |].
  - eapply served_weaken; [|exact Hsv]. intros a Ha. destruct (Himg a Ha) as (b & -> & _). by exists b.
  - intros a Ha. apply Hoth. unfold vpn. assert (PGSIZE = 4096) by done. assert (USERHEAP_TOP = 786400 * 4096) by done.
    assert (786400 ≤ a / PGSIZE) by (apply Z.div_le_lower_bound; lia). lia.
  - intros Hz. destruct (Hr0 Hz) as [Hmap Hby]. split; [intros a [_ Ha]; auto|]. intros a b Hab.
    assert (p_vaddr ph ≤ a < p_vaddr ph + p_filesz ph) as Ha.
    { cbn [image] in Hab. rewrite Hl in Hab. cbn [andb] in Hab.
      destruct (Z.leb_spec (p_vaddr ph) a), (Z.ltb_spec a (p_vaddr ph + p_filesz ph)); try done. }
    rewrite Hby by done. destruct (Himg a Ha) as (b' & Hab' & Hr' & ->).
    rewrite Hab' in Hab. injection Hab as ->. cbn [from_option]. by rewrite Z.mod_small.
Qed.


Definition phs_valid (blob : list Z) (phs : list proghdr) : Prop :=
  Forall (λ ph, loadable ph = true → seg_valid (Z.of_nat (length blob)) ph) phs.

(** The result of loading the headers [phs]. *)
Record loaded (blob : list Z) (phs : list proghdr) (s' : pmm) (M' : gmap Z Z) : Prop := {
  ld_valid : phs_valid blob phs;
  ld_mapped a : covered phs a → is_Some (M' !! vpn a);
  ld_image a b : image blob phs a = Some b → ubyte s' M' a = Some b
}.

Lemma image_range blob phs a b : phs_valid blob phs → image blob phs a = Some b → 0 ≤ a < USEREND.
Proof.
  assert (USERHEAP_TOP < USEREND ∧ 0 < USERLOAD) as (Htop & Hul) by done.
  intros Hv. induction Hv as [|ph phs Hph _ IH]; [done|]. cbn [image].
  destruct (image blob phs a) eqn:Himg; [intros; auto|]. destruct (loadable ph) eqn:Hl; [|done].
  cbn [andb]. destruct (Z.leb_spec (p_vaddr ph) a), (Z.ltb_spec a (p_vaddr ph + p_filesz ph)); cbn [andb]; try done.
  destruct (Hph eq_refl) as (? & _ & ? & ?). lia.
Qed.

Lemma image_cons blob ph phs a : image blob (ph :: phs) a = match image blob phs a with Some b => Some b | None => image blob [ph] a end.
Proof. done. Qed.

(** One more segment in front. *)
Lemma loaded_cons W blob ph phs s U T M s' U' T' M' :
  seg_valid (Z.of_nat (length blob)) ph → loaded blob [ph] s M → (∀ a, W a ↔ is_Some (image blob phs a)) →
  served W s U D T M O s' U' T' M' → loaded blob phs s' M' → loaded blob (ph :: phs) s' M'.
Proof.
  intros Hv1 [_ Hm1 Hi1] HW Hsv [Hv Hm Hi]. pose proof (se_view _ _ _ _ _ _ _ _ _ _ _ Hsv) as [Hk _].
  assert (∀ a, 0 ≤ a < USEREND → is_Some (M !! vpn a) → is_Some (M' !! vpn a)) as Hstay.
  { intros a Ha Hs. apply (ubyte_some s'). destruct (image blob phs a) as [b|] eqn:Himg; [by rewrite (Hi a b)|].
    rewrite Hk; [by apply ubyte_some|done| |done]. rewrite HW, Himg. by apply is_Some_None. }
  assert (USERHEAP_TOP < USEREND ∧ 0 < USERLOAD) as (Htop & Hul) by done.
  assert (phs_valid blob (ph :: phs)) as Hval by (by constructor).
  split; [done| |].
  - intros a Ha. apply Exists_cons in Ha as [Ha|Ha]; [|by apply Hm].
    destruct Hv1 as (_ & _ & ? & ?). apply Hstay; [destruct Ha; lia|]. apply Hm1. by constructor.
  - intros a b Hab. pose proof (image_range _ _ _ _ Hval Hab) as Ha. rewrite image_cons in Hab.
    destruct (image blob phs a) as [b'|] eqn:Himg; [injection Hab as ->; by apply Hi|].
    rewrite Hk; [by apply Hi1|done| |].
    + rewrite HW, Himg. by apply is_Some_None.
    + apply (ubyte_some s). by rewrite (Hi1 _ _ Hab).
Qed.

Lemma loaded_skip blob ph phs s M : loadable ph = false → loaded blob phs s M → loaded blob (ph :: phs) s M.
Proof.
  intros Hl [Hv Hm Hi]. split.
  - constructor; [by rewrite Hl|done].
  - intros a Ha. apply Exists_cons in Ha as [[Ha _]|Ha]; [by rewrite Hl in Ha|auto].
  - intros a b Hab. rewrite image_cons in Hab. destruct (image blob phs a) eqn:Himg; [injection Hab as ->; auto|].
    cbn [image] in Hab. by rewrite Hl in Hab.
Qed.

Lemma image_skip blob ph phs a : loadable ph = false → image blob (ph :: phs) a = image blob phs a.
Proof. intros Hl. rewrite image_cons. cbn [image]. rewrite Hl. by destruct (image blob phs a). Qed.


Lemma elf_step n pgd blob at_ brk s ph : prog_header blob at_ = Done ph → prog_ok ph →
  elf_segments (S n) pgd blob at_ brk s =
    if loadable ph then
      if bool_decide (seg_valid (Z.of_nat (length blob)) ph) then
        '(r, s) ← loaduvm_seg pgd (p_vaddr ph) (take (Z.to_nat (p_filesz ph)) (drop (Z.to_nat (p_off ph)) blob)) (p_memsz ph)
                    (if has (p_flags ph) ELF_PROG_FLAG_WRITE then Z.lor PTE_P PTE_W else PTE_P) s;
        if r <? 0 then mret (None, s)
        else elf_segments n pgd blob (at_ + sizeof_proghdr) (Z.max brk (p_vaddr ph + p_memsz ph)) s
      else mret (None, s)
    else elf_segments n pgd blob (at_ + sizeof_proghdr) brk s.
Proof.
  intros Hph [P1 P2 P3 P4]. cbn [elf_segments]. rewrite Hph. run. unfold loadable.
  destruct (p_type ph =? ELF_PROG_LOAD); cbn [andb negb]; [|done]. destruct (p_memsz ph =? 0); cbn [negb]; [done|].
  assert (USERHEAP_TOP < 2 ^ 32) as Htop by done.
  destruct (Z.ltb_spec (p_memsz ph) (p_filesz ph)); [rewrite bool_decide_false; [done|intros (?&?&?&?); lia]|].
  set (size := Z.of_nat (length blob)).
  destruct (Z.ltb_spec size (p_off ph)); cbn [orb]; [rewrite bool_decide_false; [done|intros (?&?&?&?); lia]|].
  destruct (Z.ltb_spec (size - p_off ph) (p_filesz ph)); [rewrite bool_decide_false; [done|intros (?&?&?&?); lia]|].
  destruct (Z.ltb_spec (p_vaddr ph) USERLOAD); [rewrite bool_decide_false; [done|intros (?&?&?&?); lia]|].
  destruct (Z.ltb_spec (u32 (p_vaddr ph + p_memsz ph)) (p_vaddr ph)) as [Hw|Hw]; cbn [orb].
  { rewrite bool_decide_false; [done|]. intros (?&?&?&?). rewrite u32_small in Hw; lia. }
  assert (u32 (p_vaddr ph + p_memsz ph) = p_vaddr ph + p_memsz ph) as ->.
  { apply u32_small. split; [lia|]. destruct (Z.lt_ge_cases (p_vaddr ph + p_memsz ph) (2 ^ 32)) as [|Hge]; [done|].
    exfalso. revert Hw. unfold u32. rewrite <- (Z_mod_plus_full _ (-1)), Z.mod_small; lia. }
  destruct (Z.ltb_spec USERHEAP_TOP (p_vaddr ph + p_memsz ph)); [rewrite bool_decide_false; [done|intros (?&?&?&?); lia]|].
  rewrite bool_decide_true by (split_and!; lia).
  destruct (loaduvm_seg _ _ _ _ _ _) as [[r s1]| | |]; [|done..]. run. destruct (r <? 0); [done|].
  f_equal. destruct (Z.ltb_spec brk (p_vaddr ph + p_memsz ph)); lia.
Qed.

Lemma elf_segments_ok phs : ∀ n s U T M blob at_ brk,
  uspace s U D T M O → sole O s M → bytes blob → headers n blob at_ = Done phs → Forall prog_ok phs →
  ∃ r s' U' T' M', elf_segments n (page_to_addr s D) blob at_ brk s = Done (r, s') ∧
    served (λ a, is_Some (image blob phs a)) s U D T M O s' U' T' M' ∧
    (∀ a, USERHEAP_TOP ≤ a → M' !! vpn a = M !! vpn a) ∧
    (∀ b, r = Some b → b = top_seg phs brk ∧ loaded blob phs s' M').
Proof.
  induction phs as [|ph phs IH]; intros n s U T M blob at_ brk Hus Hso Hb Hh Hok; destruct n as [|n]; cbn [headers] in Hh.
  { eexists _, s, U, T, M. split; [done|]. split; [by apply served_refl|]. split; [done|]. intros b Hb'.
    split; [by injection Hb'|]. split; [constructor|intros a Ha; by apply Exists_nil in Ha|done]. }
  { revert Hh. destruct (prog_header blob at_); [run|done..]. destruct (headers n blob _); [run|done..]. done. }
  { done. }
  revert Hh. destruct (prog_header blob at_) as [ph'| | |] eqn:Hp; [run|done..].
  destruct (headers n blob (at_ + sizeof_proghdr)) as [phs'| | |] eqn:Hh; [run|done..].
  intros [= -> ->]. apply Forall_cons in Hok as [Hok1 Hok]. rewrite (elf_step n _ _ _ _ _ ph Hp Hok1).
  destruct (loadable ph) eqn:Hl.
  2:{ destruct (IH n s U T M blob _ brk Hus Hso Hb Hh Hok) as (r & s' & U' & T' & M' & -> & Hsv & Hoth & Hr).
      eexists _, s', U', T', M'. split; [done|]. split; [|split; [done|]].
      - eapply served_weaken; [|exact Hsv]. intros a. by rewrite image_skip.
      - intros b Hrb. destruct (Hr b Hrb) as [-> Hld]. cbn [top_seg foldl]. rewrite Hl. split; [done|]. by apply loaded_skip. }
  case_bool_decide as Hv.
  2:{ eexists _, s, U, T, M. split; [done|]. split; [by apply served_refl|]. by split. }
  destruct (one_segment s U T M blob ph Hus Hso Hb Hok1 Hl Hv) as (r & s1 & U1 & T1 & M1 & -> & Hsv1 & Hr & Hoth1 & Hr0). run.
  assert (served (λ a, is_Some (image blob (ph :: phs) a)) s U D T M O s1 U1 T1 M1) as Hw1.
  { eapply served_weaken; [|exact Hsv1]. intros a Ha. rewrite image_cons. by destruct (image blob phs a). }
  destruct Hr as [-> | ->]; [change (-1 <? 0) with true; cbn iota; eexists _, s1, U1, T1, M1; by split_and!|].
  change (0 <? 0) with false. cbn iota. destruct (Hr0 eq_refl) as [Hmap1 Himg1].
  assert (page_to_addr s D = page_to_addr s1 D) as -> by (symmetry; apply page_to_addr_same, Hsv1).
  destruct (IH n s1 U1 T1 M1 blob (at_ + sizeof_proghdr) (Z.max brk (p_vaddr ph + p_memsz ph)))
    as (r & s' & U' & T' & M' & -> & Hsv & Hoth & Hr); try done; [apply Hsv1|by eapply sole_served|].
  eexists _, s', U', T', M'. split; [done|]. split; [|split].
  - eapply served_trans; [exact Hw1|]. eapply served_weaken; [|exact Hsv]. intros a [b Hab]. rewrite image_cons, Hab. by exists b.
  - intros a Ha. by rewrite Hoth, Hoth1.
  - intros b Hrb. destruct (Hr b Hrb) as [-> Hld]. cbn [top_seg foldl]. rewrite Hl. split; [done|].
    eapply (loaded_cons (λ a, is_Some (image blob phs a))); [done| |by intros|exact Hsv|done]. split; [by constructor|intros a Ha|done].
    apply Exists_cons in Ha as [Ha|Ha]; [auto|by apply Exists_nil in Ha].
Qed.


(** ** Flat binaries *)

(** A fresh page that starts with [bs]. *)
Lemma written_page s U T M z i bs :
  let a := page_to_addr s i in
  let z' := with_ram (store_bytes (ram z) a bs) z in
  U !! i = None → Z.of_nat (length bs) ≤ PGSIZE →
  uspace z (<[i := 0]> U) D T M (upd O i 1) → grows s U D T z (<[i := 0]> U) T →
  ¬ table D T i → (∀ b, a ≤ b < a + PGSIZE → mload (ram z) b = 0) →
  uspace z' (<[i := 0]> U) D T M (upd O i 1) ∧ grows s U D T z' (<[i := 0]> U) T ∧
  ∀ j, 0 ≤ j < PGSIZE → mload (ram z') (a + j) = default 0 (bs !! Z.to_nat j) mod 256.
Proof.
  intros a z' Hi Hlen Hus Hgr Hnt Hz.
  assert (∀ n, page_to_addr s n = page_to_addr z n) as Hpa by (intros; symmetry; apply page_to_addr_same, Hgr).
  assert (∀ j b, <[i := 0]> U !! j = Some 0 → j ≠ i → page_to_addr s j ≤ b < page_to_addr s j + PGSIZE →
            mload (ram z') b = mload (ram z) b) as Hout.
  { intros j b Hj Hne Hb. unfold z'. cbn [ram with_ram]. rewrite mload_store_bytes, decide_False; [done|].
    destruct (pages_apart z _ (us_pool _ _ _ _ _ _ Hus) j i Hj (lookup_insert_eq _ _ _) Hne); rewrite !Hpa in *; unfold a; rewrite Hpa; lia. }
  split_and!.
  - apply space_ram; [done|]. intros t b Ht Hb. rewrite <- Hpa in Hb.
    apply (Hout t); [by eapply (table_owned z)|by intros ->|done].
  - destruct Hgr as [G1 G2 G3 G4 G5 G6]. split; try done. intros j b Hj Hnj Hb.
    rewrite (Hout j b); [by eapply G5|by eapply lookup_weaken|congruence|done].
  - intros j Hj. unfold z'. cbn [ram with_ram]. rewrite mload_store_bytes.
    destruct (decide (a ≤ a + j < a + Z.of_nat (length bs))); [by replace (a + j - a) with j by lia|].
    rewrite Hz by lia. by rewrite (lookup_ge_None_2 bs) by lia.
Qed.

Lemma load_page_ok s U T M va bs :
  let n := Z.of_nat (length bs) in
  uspace s U D T M O → 0 ≤ va < USEREND → (PGSIZE | va) → n ≤ PGSIZE → M !! vpn va = None →
  ∃ r s' U' T' M', load_page (page_to_addr s D) va bs s = Done (r, s') ∧
    served (within va n) s U D T M O s' U' T' M' ∧ (r = -1 ∨ r = 0) ∧ (∀ v, v ≠ vpn va → M' !! v = M !! v) ∧
    (r = 0 → ∀ a, va ≤ a < va + PGSIZE → ubyte s' M' a = Some (default 0 (bs !! Z.to_nat (a - va)) mod 256)).
Proof.
  intros n Hus Hva Hal Hn HM. unfold load_page.
  destruct (space_alloc s U D T M O Hus) as (r & s1 & Halloc & Hr). rewrite Halloc. run. destruct r as [a|].
  2:{ subst s1. exists (-1), s, U, T, M. split; [done|]. split; [by apply served_refl|]. split; [by left|]. by split. }
  clear Hr. destruct (zeroed_page s U D T M O a s1 Hus Halloc) as (i & -> & HUi & Hnt & Hm0 & HO & Hus1 & Href & Hgr & Hz).
  destruct (written_page s U T M (zero_page (page_to_addr s i) s1) i bs HUi Hn Hus1 Hgr Hnt Hz) as (Hus2 & Hgr2 & Hb2).
  set (s2 := with_ram _ (zero_page _ _)) in *.
  destruct (map_fresh (within va n) s U D T M O s2 i va (Z.lor PTE_P PTE_W) Hus Hva Hal ltac:(done) HM HUi Hnt Hm0 HO Hus2 Href Hgr2)
    as (r & s3 & -> & Hres).
  { intros a Ha Hw. pose proof (Z.mod_pos_bound a PGSIZE ltac:(done)). rewrite Hb2 by lia.
    rewrite (lookup_ge_None_2 bs); [done|]. apply Nat2Z.inj_le. rewrite Z2Nat.id by lia. fold n.
    pose proof (Z_div_mod_eq_full a PGSIZE). destruct Hal as [q ->]. unfold vpn, within in *.
    rewrite Z.div_mul in Ha by done. rewrite Ha in *. lia. }
  run. destruct Hres as [(-> & s4 & Hfree & Hsv)|(-> & U' & T' & Hsv & HUi' & Hkva & _ & Hkeep)].
  { change (-1 <? 0) with true. cbn iota. rewrite Hfree. run. exists (-1), s4, U, T, M. split; [done|]. split; [done|]. by split; [left|]. }
  change (0 <? 0) with false. cbn iota. eexists 0, s3, U', T', _. split; [done|]. split; [exact Hsv|]. split; [by right|].
  split; [intros v Hv; by rewrite lookup_insert_ne|]. intros _ a Ha. destruct (page_of va a Hal Ha) as [Hmod Hv].
  unfold ubyte. rewrite Hv, lookup_insert_eq. cbn. rewrite Hkva, Hmod, Hkeep, Hb2 by lia. done.
Qed.

Lemma load_pages_ok fuel : ∀ s U T M va src,
  let n := Z.of_nat (length src) in
  uspace s U D T M O → 0 ≤ va → (PGSIZE | va) → va + n ≤ USERHEAP_TOP →
  (∀ v, va ≤ v * PGSIZE < va + n → M !! v = None) → (1 ≤ fuel)%nat → n ≤ (Z.of_nat fuel - 1) * PGSIZE →
  ∃ r s' U' T' M', load_pages fuel (page_to_addr s D) va src s = Done (r, s') ∧
    served (within va n) s U D T M O s' U' T' M' ∧ (r = -1 ∨ r = 0) ∧
    (∀ v, ¬ (va ≤ v * PGSIZE < va + n) → M' !! v = M !! v) ∧
    (r = 0 → ∀ a, within va n a → ubyte s' M' a = Some (default 0 (src !! Z.to_nat (a - va)) mod 256)).
Proof.
  induction fuel as [|fuel IH]; intros s U T M va src n Hus Hva Hal Hend HM Hf Hfu; [lia|]. cbn [load_pages].
  assert (PGSIZE = 4096 ∧ USERHEAP_TOP = 786400 * 4096 ∧ USEREND = 0xC0000000) as (HP & HT & HE) by done.
  destruct src as [|c src0].
  { exists 0, s, U, T, M. split; [done|]. split; [by apply served_refl|]. split; [by right|]. split; [done|]. unfold n, within. cbn. lia. }
  set (src := c :: src0) in *. assert (0 < n) as Hn by (unfold n, src; cbn [length]; lia). clearbody src.
  destruct (page_of va va Hal) as [_ Hvv]; [lia|]. pose proof Hal as [q Hq].
  assert (vpn va = q) as Hvpn by (unfold vpn; subst va; by rewrite Z.div_mul).
  set (bs := take (Z.to_nat PGSIZE) src). assert (Z.of_nat (length bs) = Z.min PGSIZE n) as Hlb by (unfold bs; rewrite length_take; lia).
  set (rest := drop (Z.to_nat PGSIZE) src).
  assert (Z.of_nat (length rest) = Z.max 0 (n - PGSIZE)) as Hlr by (unfold rest; rewrite length_drop; lia).
  destruct (load_page_ok s U T M va bs) as (r & s1 & U1 & T1 & M1 & -> & Hsv1 & Hr & Hoth1 & Hb1); try done; [lia..|apply HM; lia|].
  run. rewrite Hlb in Hsv1.
  assert (served (within va n) s U D T M O s1 U1 T1 M1) as Hw1 by (eapply served_weaken; [|exact Hsv1]; unfold within; lia).
  assert (∀ v, ¬ (va ≤ v * PGSIZE < va + n) → M1 !! v = M !! v) as Hoth by (intros v Hv; apply Hoth1; rewrite Hvpn; lia).
  destruct Hr as [-> | ->]; [change (-1 <? 0) with true; cbn iota; exists (-1), s1, U1, T1, M1; by split_and!; [..|left| |]|].
  change (0 <? 0) with false. cbn iota. specialize (Hb1 eq_refl).
  assert (page_to_addr s D = page_to_addr s1 D) as -> by (symmetry; apply page_to_addr_same, Hsv1).
  rewrite u32_small by lia.
  destruct (IH s1 U1 T1 M1 (va + PGSIZE) rest) as (r & s' & U' & T' & M' & -> & Hsv & Hr & Hoth2 & Hb); try lia.
  { apply Hsv1. }
  { apply Z.divide_add_r; [done|by exists 1]. }
  { intros v Hv. rewrite Hoth1 by lia. apply HM. lia. }
  exists r, s', U', T', M'. split; [done|]. split_and!; [|done| |].
  - eapply served_trans; [exact Hw1|]. eapply served_weaken; [|exact Hsv]. unfold within. lia.
  - intros v Hv. rewrite Hoth2 by lia. by apply Hoth.
  - intros -> a Ha. unfold within in *. destruct (decide (a < va + PGSIZE)).
    + pose proof (se_view _ _ _ _ _ _ _ _ _ _ _ Hsv) as [Hk _]. assert (ubyte s1 M1 a = _) as Hua by (apply Hb1; lia).
      rewrite Hk; [|lia..|apply (ubyte_some s1); by rewrite Hua]. rewrite Hua. unfold bs. by rewrite lookup_take_lt by lia.
    + rewrite Hb by lia. unfold rest. rewrite lookup_drop. do 3 f_equal. f_equal. lia.
Qed.

Lemma loaduvm_ok s U T M va src :
  let n := Z.of_nat (length src) in
  uspace s U D T M O → USERLOAD ≤ va → (PGSIZE | va) → 0 < n → va + n ≤ USERHEAP_TOP →
  (∀ v, va ≤ v * PGSIZE < va + n → M !! v = None) →
  ∃ r s' U' T' M', loaduvm (page_to_addr s D) va src s = Done (r, s') ∧
    served (within va n) s U D T M O s' U' T' M' ∧ (r = -1 ∨ r = 0) ∧
    (∀ v, ¬ (va ≤ v * PGSIZE < va + n) → M' !! v = M !! v) ∧
    (r = 0 → ∀ a, within va n a → ubyte s' M' a = Some (default 0 (src !! Z.to_nat (a - va)) mod 256)).
Proof.
  intros n Hus Hva Hal Hn Hend HM. pose proof (dir_addr_pos _ _ _ _ _ _ Hus).
  assert (USERHEAP_TOP < USEREND ∧ USEREND < 2 ^ 32 ∧ 0 < USERLOAD ∧ PGSIZE = 4096) as (Htop & Hue & Hul & HP) by done.
  unfold loaduvm. rewrite (proj2 (Z.eqb_neq (page_to_addr s D) 0)), (proj2 (Z.eqb_neq (Z.of_nat (length src)) 0)) by lia.
  rewrite (proj2 (Z.mod_divide va PGSIZE ltac:(done)) Hal). change (0 =? 0) with true. cbn [orb negb].
  rewrite u32_small by lia. rewrite (proj2 (Z.ltb_ge va _)), (proj2 (Z.ltb_ge USEREND _)) by lia. cbn [orb].
  apply load_pages_ok; try done; try lia. fold n.
  pose proof (Z_div_mod_eq_full n PGSIZE). pose proof (Z.mod_pos_bound n PGSIZE ltac:(done)). pose proof (Z.div_pos n PGSIZE ltac:(lia) ltac:(done)). lia.
Qed.


(** ** The stack *)

Lemma map_stack_ok n : ∀ s U T M va,
  uspace s U D T M O → 0 ≤ va → (PGSIZE | va) → va + Z.of_nat n * PGSIZE ≤ USEREND →
  (∀ v, va ≤ v * PGSIZE → M !! v = None) →
  ∃ r s' U' T' M', map_stack n (page_to_addr s D) va s = Done (r, s') ∧
    served nowhere s U D T M O s' U' T' M' ∧ (r = -1 ∨ r = 0) ∧ (∀ v, v * PGSIZE < va → M' !! v = M !! v) ∧
    (r = 0 → ∀ a, va ≤ a < va + Z.of_nat n * PGSIZE → is_Some (M' !! vpn a)).
Proof.
  induction n as [|n IH]; intros s U T M va Hus Hva Hal Hend HM.
  { exists 0, s, U, T, M. split; [done|]. split; [by apply served_refl|]. split; [by right|]. split; [done|]. lia. }
  cbn [map_stack]. assert (PGSIZE = 4096) as HP by done. pose proof Hal as [q Hq].
  assert (vpn va = q) as Hvpn by (unfold vpn; subst va; by rewrite Z.div_mul).
  destruct (fill_page_ok nowhere s U D T M O va (Z.lor PTE_W PTE_P) Hus ltac:(lia) Hal ltac:(done)) as (r & s1 & U1 & T1 & M1 & -> & Hsv1 & Hr).
  { apply HM. lia. }
  run. destruct Hr as [[-> ->]|(-> & i & _ & _ & -> & _)].
  { change (-1 <? 0) with true. cbn iota. exists (-1), s1, U1, T1, M. split; [done|]. split; [done|]. split; [by left|]. by split. }
  change (0 <? 0) with false. cbn iota. set (M1 := <[vpn va := _]> M) in *.
  assert (page_to_addr s D = page_to_addr s1 D) as -> by (symmetry; apply page_to_addr_same, Hsv1).
  destruct (IH s1 U1 T1 M1 (va + PGSIZE)) as (r & s' & U' & T' & M' & -> & Hsv & Hr & Hoth & Hm); try lia.
  { apply Hsv1. }
  { apply Z.divide_add_r; [done|by exists 1]. }
  { intros v Hv. unfold M1. rewrite lookup_insert_ne by lia. apply HM. lia. }
  exists r, s', U', T', M'. split; [done|]. split; [by eapply served_trans|]. split; [done|]. split.
  - intros v Hv. rewrite Hoth by lia. unfold M1. by rewrite lookup_insert_ne by lia.
  - intros -> a Ha. destruct (decide (a < va + PGSIZE)) as [Hlt|]; [|apply Hm; lia].
    destruct (page_of va a Hal) as [_ ->]; [lia|]. rewrite Hoth by lia. unfold M1. rewrite lookup_insert_eq. by eexists.
Qed.

Section Strings.
Context (shm_demand_fault : mm_struct → vma → Z → bool → pmm → outcome (Z * pmm)).
Context (cur : option mm_struct) (Hcur : plain_process cur).

(** The string [str] with its terminator, at [u]. *)
Definition cstring_at (s : pmm) (M : gmap Z Z) (u : Z) (str : list Z) : Prop :=
  ubytes s M u (Z.of_nat (length str) + 1) = Some <$> (str ++ [0]).

Lemma bytes_mod l : bytes l → (λ b, b mod 256) <$> l = l.
Proof. induction 1 as [|b l Hb _ IH]; [done|]. rewrite fmap_cons, IH, Z.mod_small; done. Qed.

Lemma copyout_bytes s U T M va l :
  let n := Z.of_nat (length l) in
  uspace s U D T M O → sole O s M → bytes l → 0 ≤ va → va + n ≤ USEREND →
  ∃ r s' U' T' M', copyout shm_demand_fault cur (page_to_addr s D) va l s = Done (r, s') ∧
    served (within va n) s U D T M O s' U' T' M' ∧ (r = -1 ∨ r = 0) ∧ (r = 0 → ubytes s' M' va n = Some <$> l).
Proof.
  intros n Hus Hso Hl Hva Hend. 
  destruct (copyout_ok shm_demand_fault cur s U D T M O va l) as (r & s' & U' & T' & M' & Hrun & Hsv & Hr & Hb);
    try done; [apply Hso|by apply sole_unshared|].
  rewrite (bytes_mod l Hl) in Hb. by exists r, s', U', T', M'.
Qed.

Lemma push_strings_ok strs : ∀ s U T M sp,
  uspace s U D T M O → sole O s M → Forall bytes strs → USERSTACK_BOTTOM ≤ sp ≤ USERSTACK →
  ∃ r s' U' T' M', push_strings shm_demand_fault cur (page_to_addr s D) strs sp s = Done (r, s') ∧
    served (λ a, USERSTACK_BOTTOM ≤ a < sp) s U D T M O s' U' T' M' ∧
    (∀ us sp', r = Some (us, sp') → USERSTACK_BOTTOM ≤ sp' ≤ sp ∧
       Forall2 (λ u str, sp' ≤ u ∧ u + Z.of_nat (length str) + 1 ≤ sp ∧ cstring_at s' M' u str) us strs).
Proof.
  induction strs as [|str strs IH]; intros s U T M sp Hus Hso Hb Hsp; cbn [push_strings].
  { eexists _, s, U, T, M. split; [done|]. split; [by apply served_refl|]. intros us sp' [= <- <-]. split; [lia|constructor]. }
  assert (USERSTACK = USEREND ∧ 0 < USERSTACK_BOTTOM) as [HU HB] by done.
  apply Forall_cons in Hb as [Hb1 Hb]. set (len := Z.of_nat (length str) + 1).
  destruct (Z.ltb_spec NNAME len); cbn [orb].
  { eexists _, s, U, T, M. split; [done|]. split; [by apply served_refl|done]. }
  destruct (Z.ltb_spec sp (USERSTACK_BOTTOM + len)).
  { eexists _, s, U, T, M. split; [done|]. split; [by apply served_refl|done]. }
  assert (Z.of_nat (length (str ++ [0])) = len) as Hlen by (rewrite length_app; cbn; unfold len; lia).
  destruct (copyout_bytes s U T M (sp - len) (str ++ [0])) as (r & s1 & U1 & T1 & M1 & -> & Hsv1 & Hr & Hc); try done; try lia.
  { apply Forall_app. split; [done|]. by repeat constructor. }
  rewrite Hlen in *. run.
  assert (served (λ a, USERSTACK_BOTTOM ≤ a < sp) s U D T M O s1 U1 T1 M1) as Hw1.
  { eapply served_weaken; [|exact Hsv1]. unfold within. lia. }
  destruct Hr as [-> | ->]; [change (-1 <? 0) with true; cbn iota; eexists _, s1, U1, T1, M1; by split_and!|].
  change (0 <? 0) with false. cbn iota. specialize (Hc eq_refl).
  assert (page_to_addr s D = page_to_addr s1 D) as -> by (symmetry; apply page_to_addr_same, Hsv1).
  destruct (IH s1 U1 T1 M1 (sp - len)) as (r & s' & U' & T' & M' & -> & Hsv & Hr); try done; try lia.
  { apply Hsv1. }
  { by eapply sole_served. }
  run. eexists _, s', U', T', M'. split; [done|]. split.
  - eapply served_trans; [exact Hw1|]. eapply served_weaken; [|exact Hsv]. unfold len. lia.
  - intros us sp' Hr'. destruct r as [[us0 sp0]|]; [|done]. injection Hr' as <- <-.
    destruct (Hr us0 sp0 eq_refl) as [Hsp0 Hall]. split; [unfold len in *; lia|]. constructor.
    + split; [lia|]. split; [unfold len; lia|]. eapply ubytes_hold; [apply Hsv|unfold len in *; lia..|exact Hc].
    + eapply Forall2_impl; [exact Hall|]. cbn. intros u l (? & ? & ?). split_and!; [done|unfold len in *; lia|done].
Qed.

Lemma length_words l : Z.of_nat (length (words l)) = 4 * Z.of_nat (length l).
Proof. induction l as [|w l IH]; [done|]. change (words (w :: l)) with (le32 w ++ words l). rewrite length_app. cbn [length le32]. lia. Qed.

Lemma words_bytes l : bytes (words l).
Proof.
  induction l as [|w l IH]; [constructor|]. change (words (w :: l)) with (le32 w ++ words l). apply Forall_app. split; [|done].
  unfold le32. repeat constructor; try (by apply Z.mod_pos_bound).
Qed.

Lemma words_app l1 l2 : words (l1 ++ l2) = words l1 ++ words l2.
Proof. unfold words. rewrite fmap_app. apply join_app. Qed.

(** More words behind those that are at [base] already. *)
Lemma push_words s U T M base l0 l top :
  let n := 4 * Z.of_nat (length l0) in
  uspace s U D T M O → sole O s M → 0 ≤ base → base + n + 4 * Z.of_nat (length l) ≤ base + top → base + top ≤ USEREND →
  ubytes s M base n = Some <$> words l0 →
  ∃ r s' U' T' M', copyout shm_demand_fault cur (page_to_addr s D) (base + n) (words l) s = Done (r, s') ∧
    served (within base top) s U D T M O s' U' T' M' ∧ (r = -1 ∨ r = 0) ∧
    (r = 0 → ubytes s' M' base (4 * Z.of_nat (length (l0 ++ l))) = Some <$> words (l0 ++ l)).
Proof.
  intros n Hus Hso Hbase Hfit Hend Hl0.
  destruct (copyout_bytes s U T M (base + n) (words l) Hus Hso (words_bytes l)) as (r & s' & U' & T' & M' & -> & Hsv & Hr & Hb);
    rewrite ?length_words in *; try lia.
  exists r, s', U', T', M'. split; [done|]. split; [eapply served_weaken; [|exact Hsv]; unfold within; lia|]. split; [done|].
  intros Hz. rewrite length_app, words_app, fmap_app, Nat2Z.inj_add, Z.mul_add_distr_l, ubytes_app by lia.
  f_equal; [|by apply Hb]. eapply ubytes_hold; [apply Hsv|lia|lia| |done]. unfold within. lia.
Qed.

(** What the program finds: [argc] at [esp], behind it the two tables of
    pointers to the strings, each closed by 0, and the auxiliary vector. *)
Record start_stack (s : pmm) (M : gmap Z Z) (esp : Z) (args envs : list (list Z)) : Prop := {
  sk_align : esp mod 16 = 0;
  sk_range : USERSTACK_BOTTOM ≤ esp < USERSTACK;
  sk_tables : ∃ uargv uenvp,
    let tab := [Z.of_nat (length args)] ++ (uargv ++ [0]) ++ (uenvp ++ [0]) ++ [AT_NULL; 0] in
    ubytes s M esp (4 * Z.of_nat (length tab)) = Some <$> words tab ∧
    Forall2 (cstring_at s M) uargv args ∧ Forall2 (cstring_at s M) uenvp envs
}.

Lemma cstrings_hold W s U T M s' U' T' M' lo hi us strs :
  served W s U D T M O s' U' T' M' → 0 ≤ lo → hi ≤ USEREND → (∀ a, lo ≤ a → a < hi → ¬ W a) →
  Forall2 (λ u str, lo ≤ u ∧ u + Z.of_nat (length str) + 1 ≤ hi ∧ cstring_at s M u str) us strs →
  Forall2 (λ u str, lo ≤ u ∧ u + Z.of_nat (length str) + 1 ≤ hi ∧ cstring_at s' M' u str) us strs.
Proof.
  intros Hsv Hlo Hhi HW Hall. eapply Forall2_impl; [exact Hall|]. cbn. intros u str (H1 & H2 & H3). split_and!; try done.
  eapply ubytes_hold; [apply Hsv|lia|lia| |exact H3]. intros j Hj. apply HW; lia.
Qed.

Lemma align16 x : 0 ≤ x < 2 ^ 32 → let y := Z.land x (u32 (Z.lnot 0xf)) in y mod 16 = 0 ∧ x - 15 ≤ y ≤ x.
Proof.
  intros Hx y. assert (y = x - x mod 16) as ->.
  { unfold y. change (u32 (Z.lnot 0xf)) with (Z.ldiff (Z.ones 32) (Z.ones 4)).
    rewrite Z.ldiff_land, Z.land_assoc, (Z.land_ones x) by lia. rewrite (Z.mod_small x) by lia.
    rewrite <- Z.ldiff_land, Z.ldiff_ones_r by lia. rewrite Z.shiftr_div_pow2, Z.shiftl_mul_pow2 by lia.
    pose proof (Z_div_mod_eq_full x 16). change (2 ^ 4) with 16. lia. }
  pose proof (Z.mod_pos_bound x 16 ltac:(lia)). split; [|lia].
  rewrite Zminus_mod, Z.mod_mod, Z.sub_diag by lia. done.
Qed.

(** The same, with what follows when the copy succeeded. *)
Lemma push_words_then s U T M base l0 l top at_ k (Q : option Z → pmm → gmap Z Z → Prop) :
  uspace s U D T M O → sole O s M → 0 ≤ base → 4 * Z.of_nat (length (l0 ++ l)) ≤ top → base + top ≤ USEREND →
  at_ = base + 4 * Z.of_nat (length l0) → ubytes s M base (4 * Z.of_nat (length l0)) = Some <$> words l0 →
  (∀ s' M', Q None s' M') →
  (∀ s1 U1 T1 M1, uspace s1 U1 D T1 M1 O → sole O s1 M1 → page_to_addr s D = page_to_addr s1 D →
     ubytes s1 M1 base (4 * Z.of_nat (length (l0 ++ l))) = Some <$> words (l0 ++ l) →
     ∃ r s' U' T' M', k s1 = Done (r, s') ∧ served (within base top) s1 U1 D T1 M1 O s' U' T' M' ∧ Q r s' M') →
  ∃ r s' U' T' M', ('(r, s) ← copyout shm_demand_fault cur (page_to_addr s D) at_ (words l) s;
                    if r <? 0 then mret (None, s) else k s) = Done (r, s') ∧
    served (within base top) s U D T M O s' U' T' M' ∧ Q r s' M'.
Proof.
  intros Hus Hso Hbase Hfit Hend -> Hl0 HQ Hk. rewrite length_app in Hfit.
  destruct (push_words s U T M base l0 l top Hus Hso Hbase) as (r & s1 & U1 & T1 & M1 & -> & V1 & R & B); [lia|lia|done|]. run.
  destruct R as [-> | ->]; [change (-1 <? 0) with true; cbn iota; eexists _, s1, U1, T1, M1; by split_and!|].
  change (0 <? 0) with false. cbn iota.
  destruct (Hk s1 U1 T1 M1) as (r & s' & U' & T' & M' & -> & V2 & HQ').
  { apply V1. }
  { by eapply sole_served. }
  { symmetry; apply page_to_addr_same, V1. }
  { by apply B. }
  exists r, s', U', T', M'. split; [done|]. split; [by eapply served_trans|done].
Qed.

Lemma push_tables_ok s U T M sp uargv uenvp :
  let argc := Z.of_nat (length uargv) in
  let envc := Z.of_nat (length uenvp) in
  let tab := [argc] ++ (uargv ++ [0]) ++ (uenvp ++ [0]) ++ [AT_NULL; 0] in
  let len := 4 * (argc + envc + 5) in
  uspace s U D T M O → sole O s M → 0 ≤ sp → sp + len ≤ USEREND →
  ∃ r s' U' T' M', push_tables shm_demand_fault cur (page_to_addr s D) sp argc envc uargv uenvp s = Done (r, s') ∧
    served (within sp len) s U D T M O s' U' T' M' ∧
    (∀ esp, r = Some esp → esp = sp ∧ ubytes s' M' esp (4 * Z.of_nat (length tab)) = Some <$> words tab).
Proof.
  intros argc envc tab len Hus Hso Hsp Hend. unfold push_tables.
  set (Q := λ (r : option Z) (s' : pmm) (M' : gmap Z Z),
    ∀ esp, r = Some esp → esp = sp ∧ ubytes s' M' esp (4 * Z.of_nat (length tab)) = Some <$> words tab).
  assert (∀ s' M', Q None s' M') as HQ by (by intros ? ? ?).
  apply (push_words_then s U T M sp [] [argc] len sp _ Q); try done.
  { cbn. unfold len. lia. }
  { cbn. lia. }
  intros s1 U1 T1 M1 Hus1 Hso1 -> B1.
  apply (push_words_then s1 U1 T1 M1 sp ([] ++ [argc]) (uargv ++ [0]) len _ _ Q Hus1 Hso1 Hsp); try done.
  { rewrite !length_app. cbn. unfold len. lia. }
  intros s2 U2 T2 M2 Hus2 Hso2 -> B2.
  apply (push_words_then s2 U2 T2 M2 sp (([] ++ [argc]) ++ uargv ++ [0]) (uenvp ++ [0]) len _ _ Q Hus2 Hso2 Hsp); try done.
  { rewrite !length_app. cbn. unfold len. lia. }
  { rewrite !length_app. cbn. unfold argc. lia. }
  intros s3 U3 T3 M3 Hus3 Hso3 -> B3.
  apply (push_words_then s3 U3 T3 M3 sp ((([] ++ [argc]) ++ uargv ++ [0]) ++ uenvp ++ [0]) [AT_NULL; 0] len _ _ Q Hus3 Hso3 Hsp); try done.
  { rewrite !length_app. cbn. unfold len. lia. }
  { rewrite !length_app. cbn. unfold argc, envc. lia. }
  intros s4 U4 T4 M4 Hus4 Hso4 _ B4. eexists _, s4, U4, T4, M4. split; [done|]. split; [by apply served_refl|].
  intros esp [= <-]. split; [done|]. unfold tab. rewrite <- !app_assoc in *. exact B4.
Qed.

Lemma exec_stack_argv_ok s U T M name argv envp :
  let args := default [] argv in
  let envs := default [] envp in
  uspace s U D T M O → sole O s M → bytes name → Forall bytes args → Forall bytes envs →
  ∃ r s' U' T' M', exec_stack_argv shm_demand_fault cur (page_to_addr s D) name argv envp s = Done (r, s') ∧
    served (λ a, USERSTACK_BOTTOM ≤ a < USERSTACK) s U D T M O s' U' T' M' ∧
    (∀ esp, r = Some esp → start_stack s' M' esp (if args then [name] else args) envs).
Proof.
  intros args envs Hus Hso Hn Ha He. unfold exec_stack_argv. fold args envs.
  pose proof (dir_addr_pos _ _ _ _ _ _ Hus). rewrite (proj2 (Z.eqb_neq (page_to_addr s D) 0)) by lia. cbn [orb].
  assert (∃ r s' U' T' M', Done (@None Z, s) = Done (r, s') ∧
    served (λ a, USERSTACK_BOTTOM ≤ a < USERSTACK) s U D T M O s' U' T' M' ∧
    (∀ esp, r = Some esp → start_stack s' M' esp (if args then [name] else args) envs)) as Hnone.
  { eexists _, s, U, T, M. split; [done|]. split; [by apply served_refl|done]. }
  case_bool_decide; [done|]. case_bool_decide as Hne; [done|]. clear Hnone.
  assert (Forall bytes (if args then [name] else args)) as Hk by (destruct args; [by repeat constructor|done]).
  set (kargv := if args then [name] else args) in *.
  assert (0 < USERSTACK_BOTTOM < USERSTACK ∧ USERSTACK = USEREND ∧ USEREND < 2 ^ 32) as (HB & HS & HE) by done.
  destruct (push_strings_ok kargv s U T M USERSTACK Hus Hso Hk ltac:(lia)) as (r1 & s1 & U1 & T1 & M1 & -> & V1 & R1). run.
  destruct r1 as [[uargv sp1]|]; [|eexists _, s1, U1, T1, M1; by split_and!].
  destruct (R1 _ _ eq_refl) as [Hsp1 F1].
  assert (page_to_addr s D = page_to_addr s1 D) as -> by (symmetry; apply page_to_addr_same, V1).
  destruct (push_strings_ok envs s1 U1 T1 M1 sp1) as (r2 & s2 & U2 & T2 & M2 & -> & V2 & R2);
    [apply V1|by eapply sole_served|done|lia|]. run.
  assert (served (λ a, USERSTACK_BOTTOM ≤ a < USERSTACK) s U D T M O s2 U2 T2 M2) as V12.
  { eapply served_trans; [exact V1|]. eapply served_weaken; [|exact V2]. cbn. lia. }
  destruct r2 as [[uenvp sp2]|]; [|eexists _, s2, U2, T2, M2; by split_and!].
  destruct (R2 _ _ eq_refl) as [Hsp2 F2].
  rewrite <- (Forall2_length _ _ _ F1), <- (Forall2_length _ _ _ F2).
  set (tab := (1 + _ + _ + 2) * 4).
  destruct (Z.ltb_spec sp2 (USERSTACK_BOTTOM + tab)); [eexists _, s2, U2, T2, M2; by split_and!|].
  destruct (align16 (sp2 - tab)) as [Hal Hle]; [lia|]. set (sp3 := Z.land _ _) in *.
  destruct (Z.ltb_spec sp3 USERSTACK_BOTTOM); [eexists _, s2, U2, T2, M2; by split_and!|].
  assert (page_to_addr s1 D = page_to_addr s2 D) as -> by (symmetry; apply page_to_addr_same, V2).
  destruct (push_tables_ok s2 U2 T2 M2 sp3 uargv uenvp) as (r3 & s3 & U3 & T3 & M3 & -> & V3 & R3);
    [apply V12|by eapply sole_served|lia|lia|].
  eexists _, s3, U3, T3, M3. split; [done|]. split.
  - eapply served_trans; [exact V12|]. eapply served_weaken; [|exact V3]. unfold within. lia.
  - intros esp Hesp. destruct (R3 esp Hesp) as [-> Htab]. split; [done|lia|]. exists uargv, uenvp.
    rewrite <- (Forall2_length _ _ _ F1). split; [exact Htab|].
    assert (∀ a, sp2 ≤ a → ¬ within sp3 (4 * (Z.of_nat (length uargv) + Z.of_nat (length uenvp) + 5)) a) as Hout by (unfold within; lia).
    pose proof (cstrings_hold _ _ _ _ _ _ _ _ _ sp1 USERSTACK _ _ V2 ltac:(lia) ltac:(lia) ltac:(cbn; lia) F1) as F1'.
    split; (eapply Forall2_impl; [eapply cstrings_hold; [exact V3| | | |]|by intros ? ? (_ & _ & ?)]).
    4: exact F1'. 7: exact F2. all: try lia. all: intros; apply Hout; lia.
Qed.
End Strings.
End Load.
