(* ===== verification/ExecBuild.v ===== *)
(** [ExecBuild]: the whole of [exec_load] (kernel/execve.c): what a program
    starts with when it succeeds, and that nothing is left behind when it
    fails. *)
From Stdlib Require Import ZArith Lia.
From stdpp Require Import numbers strings gmap list.
From S2P Require Import Prelude ListHead MemLayout Buddy BuddyInv BuddySpec PageAlloc Vm PageTable VmSpec Mmap UserMem UserMemSpec AddrSpace MmSpec TaskQueue Proc Signal SignalSpec Exec ExecSpec.
Open Scope Z_scope.

#[global] Instance in_seg_dec a ph : Decision (in_seg a ph).
Proof. unfold in_seg. apply _. Defined.
#[global] Instance covered_dec phs a : Decision (covered phs a).
Proof. unfold covered. apply _. Defined.

(** ** What an image means

    [program blob entry brk mem]: the image asks for execution to start at
    [entry], for the heap to start at [brk], and for the memory [mem]. *)
Inductive program (blob : list Z) : Z → Z → (Z → option Z) → Prop :=
| Flat :
    is_elf blob = Done false →
    program blob USERLOAD (USERLOAD + Z.of_nat (length blob))
      (λ a, if decide (USERLOAD ≤ a) then blob !! Z.to_nat (a - USERLOAD) else None)
| Elf eh phs :
    is_elf blob = Done true → elf_header blob = Done eh → e_type eh = ET_EXEC → e_machine eh = EM_386 →
    headers (Z.to_nat (e_phnum eh)) blob (e_phoff eh) = Done phs → phs_valid blob phs →
    USERLOAD ≤ e_entry eh < USERHEAP_TOP →
    program blob (e_entry eh) (top_seg phs USERLOAD)
      (λ a, if decide (covered phs a) then Some (default 0 (image blob phs a)) else None).

Definition anywhere (a : Z) : Prop := True.

Lemma served_anywhere W s U D T M O s' U' T' M' : served W s U D T M O s' U' T' M' → served anywhere s U D T M O s' U' T' M'.
Proof. by apply served_weaken. Qed.

Lemma top_seg_ge phs : ∀ brk, brk ≤ top_seg phs brk.
Proof.
  induction phs as [|ph phs IH]; intros brk; cbn [top_seg foldl]; [done|]. unfold top_seg in IH.
  destruct (loadable ph); [|apply IH]. etrans; [|apply IH]. lia.
Qed.

Lemma top_seg_le blob phs : phs_valid blob phs → ∀ brk, brk ≤ USERHEAP_TOP → top_seg phs brk ≤ USERHEAP_TOP.
Proof.
  induction 1 as [|ph phs Hph _ IH]; intros brk Hb; cbn [top_seg foldl]; [done|].
  apply IH. destruct (loadable ph); [|done]. destruct (Hph eq_refl) as (_ & _ & _ & ?). lia.
Qed.

Lemma covered_range blob phs a : phs_valid blob phs → covered phs a → USERLOAD ≤ a < USERHEAP_TOP.
Proof.
  induction 1 as [|ph phs Hph _ IH]; intros Hc; [by apply Exists_nil in Hc|].
  apply Exists_cons in Hc as [[Hl Ha]|Hc]; [|auto]. destruct (Hph Hl) as (_ & _ & ? & ?). lia.
Qed.

Section Build.
Context (D : Z) (O : Z → Z).

(** Loading an image into an empty space: it ends; the space stays in order
    and nothing is mapped above the heap; on success it holds the program. *)
Definition loads (s : pmm) (U T : gmap Z Z) (blob : list Z) (run : outcome (option (Z * Z) * pmm)) : Prop :=
  ∃ r s' U' T' M', run = Done (r, s') ∧
    served anywhere s U D T ∅ O s' U' T' M' ∧ (∀ a, USERHEAP_TOP ≤ a → M' !! vpn a = None) ∧
    (∀ entry brk, r = Some (entry, brk) → ∃ mem, program blob entry brk mem ∧ USERLOAD ≤ brk ≤ USERHEAP_TOP ∧
       ∀ a b, mem a = Some b → USERLOAD ≤ a < USERHEAP_TOP ∧ ubyte s' M' a = Some b).

Lemma loads_none s U T blob : uspace s U D T ∅ O → loads s U T blob (Done (None, s)).
Proof.
  intros Hus. eexists _, s, U, T, ∅. split; [done|]. split; [by apply served_refl|]. split; [intros; apply lookup_empty|done].
Qed.

Lemma exec_load_elf_ok s U T blob :
  uspace s U D T ∅ O → bytes blob → is_elf blob = Done true →
  loads s U T blob (exec_load_elf (page_to_addr s D) blob s).
Proof.
  intros Hus Hb Helf. pose proof (loads_none s U T blob Hus) as Hno.
  assert (sizeof_elfhdr ≤ Z.of_nat (length blob)) as Hlen.
  { unfold is_elf in Helf. destruct (Z.ltb_spec (Z.of_nat (length blob)) sizeof_elfhdr); [done|lia]. }
  destruct (elf_header_ok blob Hb Hlen) as (eh & Heh & Hoff & Hnum & Hent). unfold exec_load_elf. rewrite Heh. run.
  destruct (e_magic eh =? ELF_MAGIC); [|done]. destruct (Z.eqb_spec (e_type eh) ET_EXEC) as [Hty|]; [|done].
  destruct (Z.eqb_spec (e_machine eh) EM_386) as [Hma|]; [|done]. cbn [negb orb].
  destruct (Z.eqb_spec (e_phentsize eh) sizeof_proghdr); [|done]. destruct (Z.eqb_spec (e_phnum eh) 0); [done|]. cbn [negb orb].
  set (size := Z.of_nat (length blob)) in *. destruct (Z.leb_spec size (e_phoff eh)); [done|]. cbn [orb].
  set (pe := u32 _). destruct (Z.ltb_spec size pe) as [|Hpe]; [done|]. destruct (Z.ltb_spec pe (e_phoff eh)) as [|Hwr]; [done|]. cbn [orb].
  clear Hno. assert (sizeof_proghdr = 32) as H32 by done.
  assert (pe = e_phoff eh + e_phnum eh * sizeof_proghdr) as Hpe'.
  { unfold pe in *. apply u32_small. split; [lia|]. destruct (Z.lt_ge_cases (e_phoff eh + e_phnum eh * sizeof_proghdr) (2 ^ 32)) as [|Hge]; [done|].
    exfalso. revert Hwr. unfold u32. rewrite <- (Z_mod_plus_full _ (-1)), Z.mod_small; lia. }
  destruct (headers_ok (Z.to_nat (e_phnum eh)) blob (e_phoff eh) Hb) as (phs & Hph & Hok & _); [lia..|].
  destruct (elf_segments_ok D O phs _ s U T ∅ blob (e_phoff eh) USERLOAD Hus (sole_empty _ _) Hb Hph Hok)
    as (r & s' & U' & T' & M' & -> & Hsv & Hoth & Hr). run.
  pose proof (served_anywhere _ _ _ _ _ _ _ _ _ _ _ Hsv) as Hsv'.
  assert (∀ a, USERHEAP_TOP ≤ a → M' !! vpn a = None) as Htop by (intros a Ha; by rewrite Hoth).
  destruct r as [brk|]; [|by eexists _, s', U', T', M'].
  destruct (Z.ltb_spec (e_entry eh) USERLOAD); [by eexists _, s', U', T', M'|].
  destruct (Z.leb_spec USERHEAP_TOP (e_entry eh)); [by eexists _, s', U', T', M'|]. cbn [orb].
  eexists _, s', U', T', M'. split; [done|]. split; [done|]. split; [done|]. intros entry brk' [= <- <-].
  destruct (Hr brk eq_refl) as [-> [Hv Hm Hi]]. eexists. split; [by eapply Elf|].
  split; [split; [apply top_seg_ge|by eapply top_seg_le]|].
  intros a b Hab. case_decide as Hc; [|done]. pose proof (covered_range _ _ _ Hv Hc) as Ha. split; [done|].
  destruct (image blob phs a) as [b'|] eqn:Himg; cbn in Hab; injection Hab as <-; [by apply Hi|].
  assert (USERHEAP_TOP < USEREND ∧ 0 < USERLOAD) as [] by done.
  destruct (sv_new _ _ _ _ _ (se_view _ _ _ _ _ _ _ _ _ _ _ Hsv) a) as [Hx|Hx]; [lia| |done| |done].
  - rewrite Himg. by apply is_Some_None.
  - pose proof (proj2 (ubyte_some s' M' a) (Hm a Hc)) as [? ?]. congruence.
Qed.

Lemma exec_load_flat_ok s U T blob :
  let size := Z.of_nat (length blob) in
  uspace s U D T ∅ O → bytes blob → is_elf blob = Done false → 0 < size →
  loads s U T blob
    (if USERHEAP_TOP - USERLOAD <? size then mret (None, s)
     else '(r, s) ← loaduvm (page_to_addr s D) USERLOAD blob s;
          mret (if r <? 0 then None else Some (USERLOAD, USERLOAD + size), s)).
Proof.
  intros size Hus Hb Helf H0. destruct (Z.ltb_spec (USERHEAP_TOP - USERLOAD) size); [by apply loads_none|].
  destruct (loaduvm_ok D O s U T ∅ USERLOAD blob) as (r & s' & U' & T' & M' & -> & Hsv & Hr & Hoth & Hby); try done.
  { by exists 1024. }
  { unfold size in *. lia. }
  run. eexists _, s', U', T', M'. split; [done|]. split; [by eapply served_anywhere|]. split.
  - intros a Ha. rewrite Hoth; [apply lookup_empty|]. assert (USERHEAP_TOP = 786400 * PGSIZE) by done.
    assert (786400 ≤ vpn a) by (apply Z.div_le_lower_bound; [done|lia]). unfold PGSIZE in *. lia.
  - intros entry brk Hres. destruct (Z.ltb_spec r 0); [done|]. injection Hres as <- <-. eexists.
    split; [by apply Flat|]. split; [unfold size in *; lia|]. intros a b Hab. case_decide; [|done].
    pose proof (lookup_lt_Some _ _ _ Hab). assert (within USERLOAD size a) as Ha by (unfold within, size; lia).
    split; [unfold within in Ha; lia|]. rewrite Hby by (done || lia). rewrite Hab. cbn.
    by rewrite Z.mod_small by by eapply (Forall_lookup_1 _ _ _ _ Hb).
Qed.

Section Fill.
Context (shm_demand_fault : mm_struct → vma → Z → bool → pmm → outcome (Z * pmm)).
Context (cur : option mm_struct) (Hcur : plain_process cur).

Lemma exec_fill_ok s U T blob name argv envp :
  let args := default [] argv in
  let envs := default [] envp in
  uspace s U D T ∅ O → bytes blob → bytes name → Forall bytes args → Forall bytes envs → 0 < Z.of_nat (length blob) →
  ∃ r s' U' T' M', exec_fill shm_demand_fault cur (page_to_addr s D) blob name argv envp s = Done (r, s') ∧
    served anywhere s U D T ∅ O s' U' T' M' ∧
    (∀ entry esp brk, r = Some (entry, esp, brk) → USERLOAD ≤ brk ≤ USERHEAP_TOP ∧
       (∃ mem, program blob entry brk mem ∧ ∀ a b, mem a = Some b → ubyte s' M' a = Some b) ∧
       start_stack s' M' esp (if args then [name] else args) envs).
Proof.
  intros args envs Hus Hb Hn Ha He H0. unfold exec_fill.
  assert (∃ elf, is_elf blob = Done elf) as [elf Helf].
  { unfold is_elf. destruct (Z.ltb_spec (Z.of_nat (length blob)) sizeof_elfhdr) as [|Hl]; [by eexists|]. unfold sizeof_elfhdr in Hl.
    destruct (get32_ok blob 0 Hb) as (v & -> & _); [lia..|]. by eexists. }
  rewrite Helf. run.
  assert (loads s U T blob (if elf then exec_load_elf (page_to_addr s D) blob s
            else if USERHEAP_TOP - USERLOAD <? Z.of_nat (length blob) then mret (None, s)
            else '(r, s) ← loaduvm (page_to_addr s D) USERLOAD blob s;
                 mret (if r <? 0 then None else Some (USERLOAD, USERLOAD + Z.of_nat (length blob)), s)))
    as (r & s1 & U1 & T1 & M1 & -> & V1 & Htop & Hr).
  { destruct elf; [by apply exec_load_elf_ok|by apply exec_load_flat_ok]. }
  run. destruct r as [[entry brk]|]; [|by eexists _, s1, U1, T1, M1].
  destruct (Hr entry brk eq_refl) as (mem & Hprog & Hbrk & Hmem).
  assert (page_to_addr s D = page_to_addr s1 D) as -> by (symmetry; apply page_to_addr_same, V1).
  assert (USERSTACK_BOTTOM = 786416 * PGSIZE ∧ USERHEAP_TOP < USERSTACK_BOTTOM ∧ USERHEAP_TOP < USEREND ∧ 0 < USERLOAD ∧ PGSIZE = 4096) as (HB & HT & HE & HL & HP) by done.
  destruct (map_stack_ok D O (Z.to_nat USER_STACK_PAGES) s1 U1 T1 M1 USERSTACK_BOTTOM) as (r & s2 & U2 & T2 & M2 & Hms & V2 & Hr2 & _ & _); try done.
  { apply V1. }
  { by exists 786416. }
  { intros v Hv. rewrite <- (Z.div_mul v PGSIZE) by done. apply Htop. lia. }
  unfold exec_map_stack. rewrite Hms. run.
  pose proof (served_trans _ _ _ _ _ _ _ _ _ _ _ _ _ _ _ V1 (served_anywhere _ _ _ _ _ _ _ _ _ _ _ V2)) as V12.
  destruct Hr2 as [-> | ->]; [change (-1 <? 0) with true; by eexists _, s2, U2, T2, M2|].
  change (0 <? 0) with false. cbn iota.
  assert (page_to_addr s1 D = page_to_addr s2 D) as -> by (symmetry; apply page_to_addr_same, V2).
  destruct (exec_stack_argv_ok D O shm_demand_fault cur Hcur s2 U2 T2 M2 name argv envp) as (r & s3 & U3 & T3 & M3 & -> & V3 & Hr3);
    try done; [apply V2|by eapply sole_served, sole_empty|]. run.
  eexists _, s3, U3, T3, M3. split; [done|]. split; [eapply served_trans; [exact V12|by eapply served_anywhere]|].
  intros entry' esp brk' Hres. destruct r as [esp'|]; [|done]. injection Hres as <- <- <-.
  split; [done|]. split; [|by apply Hr3]. exists mem. split; [done|]. intros a b Hab. destruct (Hmem a b Hab) as [Ha' Hub].
  assert (ubyte s2 M2 a = Some b) as Hub2.
  { rewrite (sv_keep _ _ _ _ _ (se_view _ _ _ _ _ _ _ _ _ _ _ V2)); [done|lia|by intros []|]. apply (ubyte_some s1). by rewrite Hub. }
  rewrite (sv_keep _ _ _ _ _ (se_view _ _ _ _ _ _ _ _ _ _ _ V3)); [done|lia|lia|]. apply (ubyte_some s2). by rewrite Hub2.
Qed.
End Fill.
End Build.

(** ** [exec_load] up to the switch *)

(** The pages that were allocated before keep their bytes. *)
Definition kept (s : pmm) (U : gmap Z Z) (s' : pmm) : Prop :=
  mem_start s' = mem_start s ∧
  ∀ i b, U !! i = Some 0 → page_to_addr s i ≤ b < page_to_addr s i + PGSIZE → mload (ram s') b = mload (ram s) b.

(** What is built in a fresh space [D] leaves the older pages alone. *)
Lemma kept_served W s U D s1 s' U' T' M' :
  pmm_ok s U → (∀ i, U !! i = Some 0 → 1 ≤ refs s i) → U !! D = None → mem_start s1 = mem_start s →
  uspace s1 (<[D := 0]> U) D ∅ ∅ (held s U) →
  (∀ b, ¬ (page_to_addr s D ≤ b < page_to_addr s D + PGSIZE) → mload (ram s1) b = mload (ram s) b) →
  served W s1 (<[D := 0]> U) D ∅ ∅ (held s U) s' U' T' M' →
  kept s U s' ∧ U ⊆ U' ∧ fresh_pages U U' ∧ ∀ i, U !! i = Some 0 → ¬ table D T' i.
Proof.
  intros HU Hlive HD Hst Hus1 Hram Hsv.
  assert (∀ n, page_to_addr s n = page_to_addr s1 n) as Hpa by (intros; by apply page_to_addr_same).
  assert (∀ i, U !! i = Some 0 → <[D := 0]> U !! i = Some 0 ∧ i ≠ D ∧ ¬ table D ∅ i) as Hold.
  { intros i Hi. assert (i ≠ D) by congruence. rewrite lookup_insert_ne by done. split_and!; try done.
    intros [->|[k Hk]]; [done|by rewrite lookup_empty in Hk]. }
  split_and!.
  - split; [etrans; [apply Hsv|done]|]. intros i b Hi Hb. destruct (Hold i Hi) as (Hi' & Hne & Hnt).
    destruct (se_others _ _ _ _ _ _ _ _ _ _ _ Hsv i Hi' Hnt) as [_ Hk].
    { unfold held. rewrite decide_True by done. auto. }
    rewrite Hk by (by rewrite <- Hpa). apply Hram.
    destruct (pages_apart s1 _ (us_pool _ _ _ _ _ _ Hus1) i D Hi' (lookup_insert_eq _ _ _) Hne); rewrite <- !Hpa in *; lia.
  - etrans; [|apply Hsv]. by apply insert_subseteq.
  - eapply fresh_pages_trans; [apply fresh_pages_insert|apply Hsv].
  - intros i Hi. destruct (Hold i Hi) as (Hi' & _ & Hnt). by apply (se_table _ _ _ _ _ _ _ _ _ _ _ Hsv).
Qed.

(** Destroying it again gives back exactly what it took. *)
Lemma undo_build s U D s' U' T' M' :
  (∀ i, U !! i = Some 0 → 1 ≤ refs s i) → uspace s' U' D T' M' (held s U) → kept s U s' → U ⊆ U' → fresh_pages U U' →
  (∀ i, U !! i = Some 0 → ¬ table D T' i) →
  ∃ s2, uvmfree (page_to_addr s' D) s' = Done s2 ∧ pmm_ok s2 U ∧ (∀ i, U !! i = Some 0 → refs s2 i = refs s i) ∧ kept s U s2.
Proof.
  intros Hlive Hus [Hst Hk] HUs Hfr Hnt. destruct (uvmfree_ok s' U' D T' M' (held s U) Hus) as (s2 & U2 & -> & Hok & HU2 & Hrefs & [Hst2 Hdata]).
  assert (U2 = U) as ->.
  { apply map_eq. intros i. destruct (U !! i) as [o|] eqn:Hi.
    - apply HU2. split; [by eapply lookup_weaken|]. destruct (decide (o = 0)) as [->|]; [right|by left].
      unfold held. rewrite decide_True by done. auto.
    - apply eq_None_not_Some. intros [o Ho]. apply HU2 in Ho as [Ho Hwhy].
      destruct (Hfr i o Ho) as [?| ->]; [congruence|]. destruct Hwhy as [?|Hh]; [done|].
      unfold held in Hh. rewrite decide_False in Hh by congruence. lia. }
  exists s2. split; [done|]. split; [done|]. split.
  - intros i Hi. rewrite Hrefs by done. unfold held. by rewrite decide_True.
  - split; [congruence|]. intros i b Hi Hb. rewrite Hdata; [by eapply Hk|].
    intros t Ht Hbt. assert (U' !! i = Some 0) as Hi' by (by eapply lookup_weaken).
    rewrite <- (page_to_addr_same s s' i) in Hb by done.
    destruct (decide (t = i)) as [->|Hne]; [by apply (Hnt i)|].
    destruct (pages_apart s' U' (us_pool _ _ _ _ _ _ Hus) i t Hi' (table_owned _ _ _ _ _ _ Hus t Ht)); [by intros ->|lia..].
Qed.

(** What the caller of [exec_load] gets. *)
Definition built_space (s : pmm) (U : gmap Z Z) (blob name : list Z) (args envs : list (list Z))
    (r : option (mm_struct * Z * Z)) (s' : pmm) : Prop :=
  match r with
  | None => pmm_ok s' U ∧ ∀ i, U !! i = Some 0 → refs s' i = refs s i
  | Some (m, entry, esp) =>
      ∃ D U' T' M' mem, pgdir m = page_to_addr s' D ∧ U !! D = None ∧ uspace s' U' D T' M' (held s U) ∧ sole (held s U) s' M' ∧
        task_size m = USEREND ∧ brk_start m = brk m ∧ USERLOAD ≤ brk m ≤ USERHEAP_TOP ∧ vmas m = replicate NVMA no_vma ∧
        program blob entry (brk m) mem ∧ (∀ a b, mem a = Some b → ubyte s' M' a = Some b) ∧
        start_stack s' M' esp (if args then [name] else args) envs
  end.

Lemma exec_build_ok f cur kp s U blob name argv envp :
  let args := default [] argv in
  let envs := default [] envp in
  pmm_ok s U → (∀ i, U !! i = Some 0 → 1 ≤ refs s i) → plain_process cur →
  bytes blob → bytes name → Forall bytes args → Forall bytes envs →
  ∃ r s', exec_build f cur kp blob name argv envp s = Done (r, s') ∧ kept s U s' ∧ built_space s U blob name args envs r s'.
Proof.
  intros args envs HU Hlive Hcur Hb Hn Ha He. unfold exec_build.
  destruct (Z.eqb_spec (Z.of_nat (length blob)) 0); cbn [orb]; [by exists None, s|].
  destruct (EXEC_MAX_FILE <? Z.of_nat (length blob)); [by exists None, s|]. unfold mm_create.
  destruct (uvmcreate_ok s U kp HU Hlive) as (d & s1 & -> & Hd). run.
  destruct Hd as [[-> ->]|(D & HD & -> & Hst & Hus1 & Hram)]; [by exists None, s|].
  pose proof (dir_addr_pos _ _ _ _ _ _ Hus1). rewrite (proj2 (Z.eqb_neq (page_to_addr s1 D) 0)) by lia. run. cbn [pgdir mm_init].
  destruct (exec_fill_ok D (held s U) f cur Hcur s1 _ ∅ blob name argv envp Hus1) as (r & s2 & U2 & T2 & M2 & -> & V & Hr); try done; [lia|].
  run. destruct (kept_served _ s U D s1 s2 U2 T2 M2 HU Hlive HD Hst Hus1 Hram V) as (Hkept & HUs & Hfr & Hnt).
  pose proof (se_space _ _ _ _ _ _ _ _ _ _ _ V) as Hus2.
  assert (page_to_addr s1 D = page_to_addr s2 D) as Hpd by (symmetry; apply page_to_addr_same, V).
  destruct r as [[[entry esp] brk]|].
  - destruct (Hr entry esp brk eq_refl) as (Hbrk & (mem & Hprog & Hmem) & Hstk).
    rewrite (proj2 (Z.ltb_ge brk USERLOAD)), (proj2 (Z.ltb_ge USERHEAP_TOP brk)) by lia.
    eexists _, s2. split; [done|]. split; [done|]. cbn. exists D, U2, T2, M2, mem. split_and!; try done; try lia.
    eapply sole_served; [exact V|apply sole_empty].
  - rewrite Hpd. destruct (undo_build s U D s2 U2 T2 M2 Hlive Hus2 Hkept HUs Hfr Hnt) as (s3 & -> & Hok & Hrefs & Hk3).
    run. exists None, s3. by split_and!.
Qed.

(** ** Claims *)


(** * [exec_load] on a small ELF image whose code and data share a
    page. *)

Definition le16 (v : Z) : list Z := [v mod 256; (v / 256) mod 256].

Definition phdr (off va filesz memsz flags : Z) : list Z :=
  words [ELF_PROG_LOAD; off; va; va; filesz; memsz; flags; PGSIZE].

(** Eight bytes of code, read-only, and two bytes of data with six of bss
    behind it in the same page, writable. *)
Definition demo_elf : list Z :=
  words [ELF_MAGIC; 0; 0; 0] ++ le16 ET_EXEC ++ le16 EM_386 ++ words [1; USERLOAD; 52; 0; 0] ++
  le16 52 ++ le16 32 ++ le16 2 ++ le16 0 ++ le16 0 ++ le16 0 ++
  phdr 116 USERLOAD 8 8 5 ++ phdr 124 (USERLOAD + 8) 2 8 6 ++
  [0xb8; 1; 0; 0; 0; 0xcd; 0x80; 0x90] ++ [65; 66].

Definition demo_argv : list (list Z) := [[115; 104]; [45; 99]].
Definition demo_envp : list (list Z) := [[72; 61; 47]].

Definition demo_exec : outcome (option (mm_struct * Z * Z) * pmm) :=
  exec_build no_shm_fault None demo_kpgdir demo_elf [47; 115; 104] (Some demo_argv) (Some demo_envp) dpool.

#[global] Instance bytes_dec l : Decision (bytes l).
Proof. unfold bytes. apply _. Defined.

(** The fields a caller looks at. *)
Definition exec_regs (o : outcome (option (mm_struct * Z * Z) * pmm)) : option (Z * Z * Z) :=
  match o with Done (Some (m, entry, esp), _) => Some (entry, esp, brk m) | _ => None end.

#[local] Opaque exec_build dpool.


(** The data segment is loaded, but its page came with the code segment and
    keeps the permission of that one: the program cannot write its data. *)
Definition seg_perm (o : outcome (option (mm_struct * Z * Z) * pmm)) (va : Z) : option (bool * Z) :=
  match o with
  | Done (Some (m, _, _), s) =>
      match walk (pgdir m) va false false s with
      | Done (p, _) => Some (has (rd s p) PTE_W, mload (ram s) (pte_page_kva (rd s p) + va mod PGSIZE))
      | _ => None
      end
  | _ => None
  end.

Lemma data_segment_readonly : seg_perm demo_exec (USERLOAD + 8) = Some (false, 65).
Proof. vm_compute. reflexivity. Qed.
