(* ===== verification/Vfs.v ===== *)
(** [Vfs]: inodes, directory entries and the memory file system: kernel/fs/inode.c,
    dcache.c, super.c and ramfs/inode.c.

    An [struct inode *] is an index into the table of ramfs; a null pointer is
    [None].  Two tables of operations occur, those of ramfs and those of FIFOs.
    Heap blocks are owned by one inode each and are kept as values; [heap] is
    what the next calls of [kmalloc] find (beyond its end they find memory), and
    [spare] says that the heap has just got back the block of a directory entry,
    which then serves the next request for one.
    A reference count is at most the number of directory entries and holders,
    which the size of memory keeps below [2^32], so counts do not wrap. *)
From Stdlib Require Import ZArith Lia.
From stdpp Require Import numbers strings gmap list.
From S2P Require Import Prelude MemLayout Slab Pipe.
Open Scope Z_scope.

Definition NINODE : nat := 64.
Definition NAME_MAX : nat := 27.
Definition DIRSIZ : nat := NAME_MAX + 1.

(** [enum inode_type]; 0 marks a free slot *)
Definition T_DIR : Z := 1.
Definition T_FILE : Z := 2.
Definition T_CHAR : Z := 3.
Definition T_BLK : Z := 4.
Definition T_FIFO : Z := 5.
Definition T_LNK : Z := 6.

(** 0644, 0755, 0777 and 07777 *)
Definition VFS_DEF_FILE_MODE : Z := 0x1a4.
Definition VFS_DEF_DIR_MODE : Z := 0x1ed.
Definition LNK_MODE : Z := 0x1ff.
Definition MODE_BITS : Z := 0xfff.

(** Strings without their terminator. *)
Notation str := (list Z).
Definition SLASH : Z := 47.

Inductive iops := ramfs_iops | pipe_iops.
#[global] Instance iops_eq_dec : EqDecision iops.
Proof. solve_decision. Defined.

Record dentry := Dentry { d_name : str; d_ip : nat }.

Record inode := Inode {
  inum : Z; itype : Z; rdev : Z; ref : Z; size : Z; mode : Z; nlink : Z; uid : Z; gid : Z;
  atime : Z; mtime : Z; ctime : Z;
  data : option (list Z); i_pipe : option pipe; dents : list dentry; iparent : option nat; iname : str;
  i_op : option iops
}.

Record fsys := Fsys {
  inodes : list inode;
  vfs_root : option nat;
  cwds : list (option nat);
  now_sec : Z;
  heap : list bool;
  spare : bool
}.

Definition with_ref (r : Z) (ip : inode) : inode :=
  Inode (inum ip) (itype ip) (rdev ip) r (size ip) (mode ip) (nlink ip) (uid ip) (gid ip) (atime ip) (mtime ip) (ctime ip)
        (data ip) (i_pipe ip) (dents ip) (iparent ip) (iname ip) (i_op ip).
Definition with_data (d : option (list Z)) (n : Z) (ip : inode) : inode :=
  Inode (inum ip) (itype ip) (rdev ip) (ref ip) n (mode ip) (nlink ip) (uid ip) (gid ip) (atime ip) (mtime ip) (ctime ip)
        d (i_pipe ip) (dents ip) (iparent ip) (iname ip) (i_op ip).
Definition with_dents (l : list dentry) (ip : inode) : inode :=
  Inode (inum ip) (itype ip) (rdev ip) (ref ip) (size ip) (mode ip) (nlink ip) (uid ip) (gid ip) (atime ip) (mtime ip) (ctime ip)
        (data ip) (i_pipe ip) l (iparent ip) (iname ip) (i_op ip).
Definition with_place (p : option nat) (n : str) (ip : inode) : inode :=
  Inode (inum ip) (itype ip) (rdev ip) (ref ip) (size ip) (mode ip) (nlink ip) (uid ip) (gid ip) (atime ip) (mtime ip) (ctime ip)
        (data ip) (i_pipe ip) (dents ip) p n (i_op ip).
Definition with_ops (p : option pipe) (o : option iops) (ip : inode) : inode :=
  Inode (inum ip) (itype ip) (rdev ip) (ref ip) (size ip) (mode ip) (nlink ip) (uid ip) (gid ip) (atime ip) (mtime ip) (ctime ip)
        (data ip) p (dents ip) (iparent ip) (iname ip) o.
Definition with_stat (md nl u g : Z) (ip : inode) : inode :=
  Inode (inum ip) (itype ip) (rdev ip) (ref ip) (size ip) md nl u g (atime ip) (mtime ip) (ctime ip)
        (data ip) (i_pipe ip) (dents ip) (iparent ip) (iname ip) (i_op ip).
Definition with_times (a m c : Z) (ip : inode) : inode :=
  Inode (inum ip) (itype ip) (rdev ip) (ref ip) (size ip) (mode ip) (nlink ip) (uid ip) (gid ip) a m c
        (data ip) (i_pipe ip) (dents ip) (iparent ip) (iname ip) (i_op ip).
Definition with_rdev (r : Z) (ip : inode) : inode :=
  Inode (inum ip) (itype ip) r (ref ip) (size ip) (mode ip) (nlink ip) (uid ip) (gid ip) (atime ip) (mtime ip) (ctime ip)
        (data ip) (i_pipe ip) (dents ip) (iparent ip) (iname ip) (i_op ip).

Definition with_inodes (l : list inode) (s : fsys) : fsys := Fsys l (vfs_root s) (cwds s) (now_sec s) (heap s) (spare s).
Definition with_heap (h : list bool) (b : bool) (s : fsys) : fsys := Fsys (inodes s) (vfs_root s) (cwds s) (now_sec s) h b.
Definition with_cwds (c : list (option nat)) (s : fsys) : fsys := Fsys (inodes s) (vfs_root s) c (now_sec s) (heap s) (spare s).
Definition vfs_set_root (r : nat) (s : fsys) : fsys := Fsys (inodes s) (Some r) (cwds s) (now_sec s) (heap s) (spare s).

Definition get_inode (i : nat) (s : fsys) : outcome inode := deref (inodes s !! i).
Definition set_inode (i : nat) (ip : inode) (s : fsys) : fsys := with_inodes (<[i := ip]> (inodes s)) s.
(** [ip->field = ...] *)
Definition upd_inode (i : nat) (f : inode → inode) (s : fsys) : outcome fsys :=
  ip ← get_inode i s; mret (set_inode i (f ip) s).

(** Whether the next [kmalloc] succeeds. *)
Definition kmalloc_ok (s : fsys) : bool * fsys :=
  match heap s with
  | [] => (true, with_heap [] false s)
  | b :: h => (b, with_heap h false s)
  end.
Definition kmalloc_dentry (s : fsys) : bool * fsys :=
  if spare s then (true, with_heap (heap s) false s) else kmalloc_ok s.

(** The largest block [kmalloc] has; it panics when asked for more.  A size to
    which the header cannot be added wraps, and the block is too small. *)
Definition KMALLOC_MAX : Z := PGSIZE * 2 ^ (MAX_ORDER - 1) - sizeof_khdr.
Definition kmalloc_file (n : Z) (s : fsys) : outcome (bool * fsys) :=
  if u32 (n + sizeof_khdr) <? n then Wild
  else if KMALLOC_MAX <? n then Panic "kmalloc: size too large"
  else mret (kmalloc_ok s).

(** ** inode.c *)

Definition fs_inode_init_meta (type md now : Z) (ip : inode) : inode :=
  Inode (inum ip) type (rdev ip) (ref ip) (size ip) (Z.land md MODE_BITS) (if type =? T_DIR then 2 else 1) 0 0 now now now
        (data ip) (i_pipe ip) (dents ip) (iparent ip) (iname ip) (i_op ip).

Definition fs_inode_touch (set_mtime set_atime : bool) (now : Z) (ip : inode) : inode :=
  let ip := if set_atime then with_times now (mtime ip) (ctime ip) ip else ip in
  if set_mtime then with_times (atime ip) now now ip else ip.

Definition touch (i : nat) (set_mtime set_atime : bool) (s : fsys) : outcome fsys :=
  upd_inode i (fs_inode_touch set_mtime set_atime (now_sec s)) s.

Definition fs_idup (i : nat) (s : fsys) : outcome fsys := upd_inode i (λ ip, with_ref (ref ip + 1) ip) s.

(** What [ramfs_evict] and [pipe_evict] leave of an inode. *)
Definition ramfs_cleared (ip : inode) : inode :=
  Inode 0 0 0 (ref ip) 0 (mode ip) (nlink ip) (uid ip) (gid ip) (atime ip) (mtime ip) (ctime ip)
        None (i_pipe ip) [] None [] None.
Definition pipe_evict (ip : inode) : inode :=
  Inode 0 0 (rdev ip) (ref ip) 0 (mode ip) (nlink ip) (uid ip) (gid ip) (atime ip) (mtime ip) (ctime ip)
        (data ip) None (dents ip) (iparent ip) (iname ip) None.

(** [fs_iput] with [ramfs_evict]: they call each other.  The depth is bounded
    by the number of inodes. *)
Fixpoint fs_iput_loop (fuel : nat) (i : nat) (s : fsys) : outcome fsys :=
  match fuel with
  | O => NoFuel
  | S fuel =>
      ip ← get_inode i s;
      if ref ip <=? 0 then Panic "fs_iput"
      else
        let s := set_inode i (with_ref (ref ip - 1) ip) s in
        if (ref ip - 1 =? 0) && negb (bool_decide (vfs_root s = Some i)) then
          match i_op ip with
          | None => mret s
          | Some pipe_iops => upd_inode i pipe_evict s
          | Some ramfs_iops =>
              s ← upd_inode i (λ ip, with_data None (size ip) ip) s;
              s ← each (d_ip <$> dents ip) (fs_iput_loop fuel) s;
              upd_inode i ramfs_cleared s
          end
        else mret s
  end.
Definition iput_fuel : nat := S NINODE.
Definition fs_iput : nat → fsys → outcome fsys := fs_iput_loop iput_fuel.

(** ** dcache.c *)

(** A [char] is signed. *)
Definition schar (c : Z) : Z := if c <? 128 then c else c - 256.
(** Reading a string at [i]: its terminator is at its length. *)
Definition at_ (s : str) (i : nat) : Z := default 0 (s !! i).

Fixpoint d_namecmp_loop (n i : nat) (a b : str) : Z :=
  match n with
  | O => schar (at_ a i) - schar (at_ b i)
  | S n =>
      if negb (at_ a i =? 0) && (at_ a i =? at_ b i) then d_namecmp_loop n (S i) a b
      else schar (at_ a i) - schar (at_ b i)
  end.
Definition d_namecmp (a b : str) : Z := d_namecmp_loop DIRSIZ 0 a b.

Definition d_namecpy (src : str) : str := take (DIRSIZ - 1) src.

Fixpoint find_dentry (l : list dentry) (name : str) : option dentry :=
  match l with
  | [] => None
  | d :: l => if d_namecmp (d_name d) name =? 0 then Some d else find_dentry l name
  end.

Definition d_lookup (dir : nat) (name : str) (s : fsys) : outcome (option dentry) :=
  dp ← get_inode dir s;
  mret (if negb (itype dp =? T_DIR) then None else find_dentry (dents dp) name).

Definition d_add (dir : nat) (name : str) (i : nat) (s : fsys) : outcome (Z * fsys) :=
  dp ← get_inode dir s;
  if negb (itype dp =? T_DIR) || bool_decide (name = []) then mret (-1, s)
  else
    de ← d_lookup dir name s;
    match de with
    | Some _ => mret (-1, s)
    | None =>
        let '(ok, s) := kmalloc_dentry s in
        if negb ok then mret (-1, s)
        else
          s ← upd_inode i (λ ip, with_place (iparent ip) (d_namecpy name) ip) s;
          s ← fs_idup i s;
          s ← upd_inode i (λ ip, with_place (match iparent ip with None => Some dir | p => p end) (iname ip) ip) s;
          s ← upd_inode dir (λ dp, with_dents (Dentry (d_namecpy name) i :: dents dp) dp) s;
          mret (0, s)
    end.

(** The list without its first entry called [name], and that entry. *)
Fixpoint take_dentry (l : list dentry) (name : str) : option (dentry * list dentry) :=
  match l with
  | [] => None
  | d :: l =>
      if d_namecmp (d_name d) name =? 0 then Some (d, l)
      else '(e, l) ← take_dentry l name; Some (e, d :: l)
  end.

Definition d_unlink (dir : nat) (name : str) (s : fsys) : outcome (Z * fsys) :=
  dp ← get_inode dir s;
  if negb (itype dp =? T_DIR) || bool_decide (name = []) then mret (-1, s)
  else
    match take_dentry (dents dp) name with
    | None => mret (-1, s)
    | Some (d, l) =>
        let s := set_inode dir (with_dents l dp) s in
        s ← fs_iput (d_ip d) s;
        mret (0, with_heap (heap s) true s)
    end.

(** ** ramfs/inode.c *)

Definition def_mode (type : Z) : Z :=
  if type =? T_DIR then VFS_DEF_DIR_MODE else if type =? T_LNK then LNK_MODE else VFS_DEF_FILE_MODE.

(** The inode [ialloc] sets up in slot [i]. *)
Definition fresh_inode (i : nat) (type now : Z) (ip : inode) : inode :=
  fs_inode_init_meta type (def_mode type) now
    (Inode (Z.of_nat i + 1) (itype ip) 0 1 0 (mode ip) (nlink ip) (uid ip) (gid ip) (atime ip) (mtime ip) (ctime ip)
           None None [] None [] (Some ramfs_iops)).

Definition ialloc (type : Z) (s : fsys) : option nat * fsys :=
  match list_find (λ ip, itype ip = 0) (inodes s) with
  | Some (i, ip) => (Some i, set_inode i (fresh_inode i type (now_sec s) ip) s)
  | None => (None, s)
  end.

Definition ramfs_link (dir : nat) (name : str) (i : nat) (s : fsys) : outcome (Z * fsys) := d_add dir name i s.
Definition ramfs_detach (dir : nat) (name : str) (s : fsys) : outcome (Z * fsys) := d_unlink dir name s.

Definition ramfs_lookup (dir : nat) (name : str) (s : fsys) : outcome (option nat * fsys) :=
  de ← d_lookup dir name s;
  match de with
  | None => mret (None, s)
  | Some d => s ← fs_idup (d_ip d) s; mret (Some (d_ip d), s)
  end.

Definition ramfs_create (dir : nat) (name : str) (type : Z) (s : fsys) : outcome (option nat * fsys) :=
  de ← d_lookup dir name s;
  match de with
  | Some _ => mret (None, s)
  | None =>
      match ialloc type s with
      | (None, s) => mret (None, s)
      | (Some i, s) =>
          '(r, s) ← d_add dir name i s;
          if r <? 0 then s ← fs_iput i s; mret (None, s) else mret (Some i, s)
      end
  end.

(** Hooking the new inode [i] into [dir] and dropping the reference of
    [ialloc], the end of [mkdir], [mknod] and [symlink]. *)
Definition hook (dir : nat) (name : str) (i : nat) (s : fsys) : outcome (Z * fsys) :=
  '(r, s) ← d_add dir name i s;
  if r <? 0 then s ← fs_iput i s; mret (-1, s) else s ← fs_iput i s; mret (0, s).

Definition ramfs_mkdir (dir : nat) (name : str) (s : fsys) : outcome (Z * fsys) :=
  de ← d_lookup dir name s;
  match de with
  | Some _ => mret (-1, s)
  | None =>
      match ialloc T_DIR s with
      | (None, s) => mret (-1, s)
      | (Some i, s) => hook dir name i s
      end
  end.

Definition ramfs_rmdir (dir : nat) (name : str) (s : fsys) : outcome (Z * fsys) :=
  de ← d_lookup dir name s;
  match de with
  | None => mret (-1, s)
  | Some d =>
      ip ← get_inode (d_ip d) s;
      if negb (itype ip =? T_DIR) || negb (bool_decide (dents ip = [])) then mret (-1, s)
      else d_unlink dir name s
  end.

(** [fifo_init_inode] of pipe.c on a fresh inode. *)
Definition fifo_init_inode (i : nat) (s : fsys) : outcome (Z * fsys) :=
  let '(ok, s) := kmalloc_ok s in
  if negb ok then mret (-1, s)
  else s ← upd_inode i (with_ops (Some (fifo_init ∅)) (Some pipe_iops)) s; mret (0, s).

Definition ramfs_mknod (dir : nat) (name : str) (type dev : Z) (s : fsys) : outcome (Z * fsys) :=
  if negb (type =? T_CHAR) && negb (type =? T_BLK) && negb (type =? T_FIFO) then mret (-1, s)
  else
    de ← d_lookup dir name s;
    match de with
    | Some _ => mret (-1, s)
    | None =>
        match ialloc type s with
        | (None, s) => mret (-1, s)
        | (Some i, s) =>
            s ← upd_inode i (with_rdev dev) s;
            if type =? T_FIFO then
              '(r, s) ← fifo_init_inode i s;
              if r <? 0 then s ← fs_iput i s; mret (-1, s) else hook dir name i s
            else hook dir name i s
        end
    end.

Definition ramfs_symlink (dir : nat) (name target : str) (s : fsys) : outcome (Z * fsys) :=
  dp ← get_inode dir s;
  if bool_decide (name = []) || negb (itype dp =? T_DIR) then mret (-1, s)
  else
    de ← d_lookup dir name s;
    match de with
    | Some _ => mret (-1, s)
    | None =>
        match ialloc T_LNK s with
        | (None, s) => mret (-1, s)
        | (Some i, s) =>
            let '(ok, s) := kmalloc_ok s in
            if negb ok then s ← fs_iput i s; mret (-1, s)
            else
              s ← upd_inode i (with_data (Some (target ++ [0])) (Z.of_nat (length target))) s;
              hook dir name i s
        end
    end.

Definition ramfs_hardlink (dir : nat) (name : str) (i : nat) (s : fsys) : outcome (Z * fsys) :=
  dp ← get_inode dir s;
  ip ← get_inode i s;
  if negb (itype dp =? T_DIR) || (itype ip =? T_DIR) then mret (-1, s)
  else
    '(r, s) ← d_add dir name i s;
    if r <? 0 then mret (-1, s)
    else
      s ← upd_inode i (λ ip, with_stat (mode ip) (nlink ip + 1) (uid ip) (gid ip) ip) s;
      s ← touch i true false s;
      mret (0, s).

Definition ramfs_unlink (dir : nat) (name : str) (s : fsys) : outcome (Z * fsys) :=
  de ← d_lookup dir name s;
  match de with
  | None => mret (-1, s)
  | Some d =>
      ip ← get_inode (d_ip d) s;
      if itype ip =? T_DIR then mret (-1, s)
      else
        s ← (if 0 <? nlink ip
             then upd_inode (d_ip d) (λ ip, with_stat (mode ip) (nlink ip - 1) (uid ip) (gid ip) ip) s
             else mret s);
        s ← touch (d_ip d) true false s;
        d_unlink dir name s
  end.

(** [d_namecpy(de->name, new_name)] on the entry called [old]. *)
Fixpoint rename_dentry (l : list dentry) (old new : str) : list dentry :=
  match l with
  | [] => []
  | d :: l => if d_namecmp (d_name d) old =? 0 then Dentry (d_namecpy new) (d_ip d) :: l
              else d :: rename_dentry l old new
  end.

(** The end of [ramfs_rename], once the target name is free. *)
Definition rename_move (old_dir : nat) (old_name : str) (new_dir : nat) (new_name : str) (i : nat) (s : fsys)
    : outcome (Z * fsys) :=
  if bool_decide (old_dir = new_dir) then
    s ← upd_inode old_dir (λ dp, with_dents (rename_dentry (dents dp) old_name new_name) dp) s;
    s ← upd_inode i (λ ip, with_place (iparent ip) (d_namecpy new_name) ip) s;
    mret (0, s)
  else
    s ← fs_idup i s;
    '(r, s) ← d_unlink old_dir old_name s;
    if r <? 0 then s ← fs_iput i s; mret (-1, s)
    else
      '(r, s) ← d_add new_dir new_name i s;
      if r <? 0 then
        '(_, s) ← d_add old_dir old_name i s;
        s ← fs_iput i s;
        mret (-1, s)
      else
        ip ← get_inode i s;
        s ← (if itype ip =? T_DIR then upd_inode i (λ ip, with_place (Some new_dir) (iname ip) ip) s else mret s);
        s ← fs_iput i s;
        mret (0, s).

Definition ramfs_rename (old_dir : nat) (old_name : str) (new_dir : nat) (new_name : str) (s : fsys)
    : outcome (Z * fsys) :=
  op ← get_inode old_dir s;
  np ← get_inode new_dir s;
  if negb (itype op =? T_DIR) || negb (itype np =? T_DIR) then mret (-1, s)
  else
    de ← d_lookup old_dir old_name s;
    match de with
    | None => mret (-1, s)
    | Some d =>
        let i := d_ip d in
        ip ← get_inode i s;
        if bool_decide (old_dir = new_dir) && (d_namecmp old_name new_name =? 0) then mret (0, s)
        else
          nde ← d_lookup new_dir new_name s;
          match nde with
          | None => rename_move old_dir old_name new_dir new_name i s
          | Some nd =>
              if bool_decide (d_ip nd = i) then mret (0, s)
              else
                tp ← get_inode (d_ip nd) s;
                if (if itype tp =? T_DIR
                    then negb (itype ip =? T_DIR) || negb (bool_decide (dents tp = []))
                    else itype ip =? T_DIR)
                then mret (-1, s)
                else
                  '(r, s) ← d_unlink new_dir new_name s;
                  if r <? 0 then mret (-1, s)
                  else rename_move old_dir old_name new_dir new_name i s
          end
    end.

(** ** Contents *)

Definition inode_to_dtype (type : Z) : Z :=
  if type =? T_DIR then 4 else if type =? T_FILE then 8 else if type =? T_CHAR then 2
  else if type =? T_BLK then 6 else if type =? T_FIFO then 1 else if type =? T_LNK then 10 else 0.

Definition bytes_le (n : nat) (v : Z) : list Z := (λ k, Z.shiftr v (8 * Z.of_nat k) mod 256) <$> seq 0 n.

(** [struct dirent] as the bytes the user gets. *)
Definition sizeof_dirent : Z := 39.
Definition dirent_bytes (ino off type : Z) (name : str) : list Z :=
  bytes_le 4 ino ++ bytes_le 4 off ++ bytes_le 2 sizeof_dirent ++ bytes_le 1 type ++
  name ++ replicate (DIRSIZ - length name) 0.

(** The entries from number [idx] on that fit into [n] bytes; [off] is the
    position of the first one. *)
Fixpoint readdir_loop (l : list dentry) (off n : Z) (s : fsys) : outcome (list Z) :=
  match l with
  | [] => mret []
  | d :: l =>
      if n <? sizeof_dirent then mret []
      else
        ip ← get_inode (d_ip d) s;
        let off := u32 (off + sizeof_dirent) in
        rest ← readdir_loop l off (n - sizeof_dirent) s;
        mret (dirent_bytes (inum ip) off (inode_to_dtype (itype ip)) (d_namecpy (d_name d)) ++ rest)
  end.

Definition ramfs_readdir (ip : inode) (off n : Z) (s : fsys) : outcome (option (list Z)) :=
  if negb (off mod sizeof_dirent =? 0) then mret None
  else
    l ← readdir_loop (drop (Z.to_nat (off / sizeof_dirent)) (dents ip)) off n s;
    mret (Some l).

(** [data[off .. off + n - 1]]; bytes outside the block are wild. *)
Definition load_data (d : list Z) (off n : Z) : outcome (list Z) :=
  if Z.of_nat (length d) <? off + n then Wild
  else mret (take (Z.to_nat n) (drop (Z.to_nat off) d)).
Definition store_data (d : list Z) (off : Z) (src : list Z) : outcome (list Z) :=
  if Z.of_nat (length d) <? off + Z.of_nat (length src) then Wild
  else mret (take (Z.to_nat off) d ++ src ++ drop (Z.to_nat off + length src) d).

(** The bytes read; [None] for -1. *)
Definition ramfs_read (i : nat) (off n : Z) (s : fsys) : outcome (option (list Z)) :=
  ip ← get_inode i s;
  if itype ip =? T_DIR then ramfs_readdir ip off n s
  else if negb (itype ip =? T_FILE) && negb (itype ip =? T_LNK) then mret None
  else if size ip <? off then mret (Some [])
  else
    let n := if size ip <? u32 (off + n) then size ip - off else n in
    match data ip with
    | None => mret (Some [])
    | Some d => l ← load_data d off n; mret (Some l)
    end.

(** The block of a file of [newsize] bytes: the old contents, then zeroes. *)
Definition regrow (ip : inode) (newsize : Z) : outcome (list Z) :=
  match data ip with
  | None => mret (replicate (Z.to_nat newsize) 0)
  | Some d =>
      old ← load_data d 0 (Z.min newsize (size ip));
      mret (old ++ replicate (Z.to_nat newsize - length old) 0)
  end.

Definition ramfs_write (i : nat) (src : list Z) (off : Z) (s : fsys) : outcome (Z * fsys) :=
  let n := Z.of_nat (length src) in
  ip ← get_inode i s;
  if negb (itype ip =? T_FILE) then mret (-1, s)
  else if n =? 0 then mret (0, s)
  else
    let newsize := u32 (off + n) in
    let grow := (size ip <? newsize) || bool_decide (data ip = None) in
    '(ok, s) ← (if grow then kmalloc_file (if newsize =? 0 then 1 else newsize) s else mret (true, s));
    if negb ok then mret (-1, s)
    else
      ip ← (if grow then buf ← regrow ip newsize; mret (with_data (Some buf) newsize ip) else mret ip);
      d ← store_data (default [] (data ip)) off src;
      let sz := if size ip <? u32 (off + n) then u32 (off + n) else size ip in
      mret (n, set_inode i (with_data (Some d) sz ip) s).

Definition ramfs_truncate (i : nat) (length_ : Z) (s : fsys) : outcome (Z * fsys) :=
  ip ← get_inode i s;
  if negb (itype ip =? T_FILE) then mret (-1, s)
  else if length_ =? size ip then mret (0, s)
  else if length_ =? 0 then mret (0, set_inode i (with_data None 0 ip) s)
  else
    '(ok, s) ← kmalloc_file length_ s;
    if negb ok then mret (-1, s)
    else buf ← regrow ip length_; mret (0, set_inode i (with_data (Some buf) length_ ip) s).

(** [i_op->read] and [i_op->write]: for a FIFO the call goes on in pipe.c. *)
Inductive io A := IoRet (a : A) | IoPipe.
Arguments IoRet {A} a.
Arguments IoPipe {A}.

Definition fs_readi (i : nat) (off n : Z) (s : fsys) : outcome (io (option (list Z)) * fsys) :=
  ip ← get_inode i s;
  match i_op ip with
  | None => mret (IoRet None, s)
  | Some pipe_iops => mret (IoPipe, s)
  | Some ramfs_iops =>
      r ← ramfs_read i off n s;
      s ← (if bool_decide (0 < length (default [] r))%nat then touch i false true s else mret s);
      mret (IoRet r, s)
  end.

Definition fs_writei (i : nat) (src : list Z) (off : Z) (s : fsys) : outcome (io Z * fsys) :=
  ip ← get_inode i s;
  match i_op ip with
  | None => mret (IoRet (-1), s)
  | Some pipe_iops => mret (IoPipe, s)
  | Some ramfs_iops =>
      '(r, s) ← ramfs_write i src off s;
      s ← (if 0 <? r then touch i true false s else mret s);
      mret (IoRet r, s)
  end.

Definition fs_truncate (i : nat) (length_ : Z) (s : fsys) : outcome (Z * fsys) :=
  ip ← get_inode i s;
  if negb (itype ip =? T_FILE) then mret (-1, s)
  else
    match i_op ip with
    | Some ramfs_iops =>
        '(r, s) ← ramfs_truncate i length_ s;
        s ← (if r =? 0 then touch i true false s else mret s);
        mret (r, s)
    | _ => mret (-1, s)
    end.
