(* ===== verification/VfsInv.v ===== *)
(** [VfsInv]: the invariant of the file system's inodes and what each operation
    of [Vfs] does to it.

    [vfs_ok X H s]: every reference count is the number of directory entries,
    working directories and holders of the inode, where [H] counts the holders
    (open files and calls in progress); free inodes are referred to by nobody;
    a directory has at most one entry, whose name and directory it records; and
    a directory that is no longer in the tree is empty.  [X] is a directory on
    its way to another place, which is exempt from the last two. *)
From Stdlib Require Import ZArith Lia.
From stdpp Require Import numbers strings gmap list.
From S2P Require Import Prelude Vfs.
Open Scope Z_scope.

(** ** Names *)

Definition cstring (n : str) : Prop := Forall (λ c, 0 < c < 256) n.
Definition valid_name (n : str) : Prop := n ≠ [] ∧ (length n < DIRSIZ)%nat ∧ cstring n ∧ SLASH ∉ n.

#[global] Instance cstring_dec n : Decision (cstring n).
Proof. unfold cstring. apply _. Defined.
#[global] Instance valid_name_dec n : Decision (valid_name n).
Proof. unfold valid_name. apply _. Defined.

Lemma at_drop (n : str) i j : at_ (drop i n) j = at_ n (i + j).
Proof. unfold at_. by rewrite lookup_drop. Qed.

Lemma at_nil i : at_ [] i = 0.
Proof. done. Qed.

Lemma at_cons c (n : str) : at_ (c :: n) 0 = c.
Proof. done. Qed.

Lemma namecmp_drop n : ∀ i a b, d_namecmp_loop n i a b = d_namecmp_loop n 0 (drop i a) (drop i b).
Proof.
  induction n as [|n IH]; intros i a b; cbn [d_namecmp_loop]; rewrite !at_drop, Nat.add_0_r; [done|].
  rewrite IH, (IH 1%nat), !drop_drop, Nat.add_1_r. done.
Qed.

Lemma schar_inj c d : 0 ≤ c < 256 → 0 ≤ d < 256 → schar c - schar d = 0 → c = d.
Proof. unfold schar. destruct (Z.ltb_spec c 128), (Z.ltb_spec d 128); lia. Qed.

(** [d_namecmp] compares for equality if one of the strings is short enough
    for a name. *)
Lemma d_namecmp_eq a b : cstring a → cstring b → (length a < DIRSIZ)%nat → d_namecmp a b = 0 ↔ a = b.
Proof.
  unfold d_namecmp. generalize DIRSIZ as n. intros n. revert a b.
  induction n as [|n IH]; intros a b Ha Hb Hlen; [lia|]. cbn [d_namecmp_loop]. rewrite (namecmp_drop n 1).
  destruct a as [|x a], b as [|y b]; rewrite ?at_nil, ?at_cons.
  - done.
  - apply Forall_cons in Hb as [Hy _]. change (0 =? 0) with true. cbn [negb andb]. split; [|done]. intros E. apply schar_inj in E; lia.
  - apply Forall_cons in Ha as [Hx _]. rewrite (proj2 (Z.eqb_neq x 0)), andb_false_r by lia. split; [|done]. intros E. apply schar_inj in E; lia.
  - apply Forall_cons in Ha as [Hx Ha], Hb as [Hy Hb]. change (drop 1 (x :: a)) with a. change (drop 1 (y :: b)) with b. destruct (Z.eqb_spec x 0); [lia|]. cbn [negb andb].
    destruct (Z.eqb_spec x y) as [<-|Hne].
    + rewrite IH by (done || (cbn in Hlen; lia)). split; [by intros ->|by intros [= ->]].
    + split; [intros E; apply schar_inj in E; lia|by intros [= ->]].
Qed.

Lemma name_neq a b : cstring a → cstring b → (length a < DIRSIZ)%nat → a ≠ b → d_namecmp a b =? 0 = false.
Proof. intros Ha Hb Hl Hne. apply Z.eqb_neq. rewrite d_namecmp_eq by done. done. Qed.

Lemma name_refl a : cstring a → (length a < DIRSIZ)%nat → d_namecmp a a =? 0 = true.
Proof. intros Ha Hl. apply Z.eqb_eq. by rewrite d_namecmp_eq. Qed.

Lemma namecpy_name n : valid_name n → d_namecpy n = n.
Proof. intros (_ & Hl & _). unfold d_namecpy. rewrite take_ge; [done|lia]. Qed.

(** ** Directories *)

Definition good_dents (l : list dentry) : Prop := NoDup (d_name <$> l) ∧ Forall (λ d, valid_name (d_name d)) l.

(** The entry called [n], if there is one. *)
Lemma find_dentry_spec l n : good_dents l → cstring n →
  match find_dentry l n with
  | Some d => d ∈ l ∧ d_name d = n
  | None => ∀ d, d ∈ l → d_name d ≠ n
  end.
Proof.
  intros [_ Hv] Hn. induction Hv as [|d l (Hd1 & Hd2 & Hd3 & _) Hv IH]; cbn [find_dentry]; [by intros d Hd%elem_of_nil|].
  destruct (Z.eqb_spec (d_namecmp (d_name d) n) 0) as [E|E]; rewrite d_namecmp_eq in E by done; [by split; [left|]|].
  destruct (find_dentry l n) as [e|]; [by destruct IH; split; [right|]|]. intros e [->|He]%elem_of_cons; [done|by apply IH].
Qed.

Lemma good_dents_inj l d e : good_dents l → d ∈ l → e ∈ l → d_name d = d_name e → d = e.
Proof.
  intros [Hnd _] Hd He Heq. apply list_elem_of_lookup in Hd as [i Hi], He as [j Hj].
  assert (i = j) as ->; [|congruence].
  eapply (NoDup_lookup _ _ _ (d_name d) Hnd); rewrite list_lookup_fmap; [by rewrite Hi|by rewrite Hj, Heq].
Qed.

Lemma find_dentry_in l n d : find_dentry l n = Some d → d ∈ l.
Proof.
  induction l as [|e l IH]; cbn [find_dentry]; [done|]. destruct (d_namecmp (d_name e) n =? 0); [intros [= ->]; by left|right; by apply IH].
Qed.

Lemma find_dentry_some l n d : good_dents l → d ∈ l → d_name d = n → find_dentry l n = Some d.
Proof.
  intros Hg Hd Hn. assert (cstring n) as Hc.
  { destruct Hg as [_ Hv]. apply (proj1 (Forall_forall _ _) Hv) in Hd as (_ & _ & ? & _). by rewrite <- Hn. }
  pose proof (find_dentry_spec l n Hg Hc) as Hs. destruct (find_dentry l n) as [e|]; [|by destruct (Hs d Hd)].
  destruct Hs as [He Hne]. f_equal. by apply (good_dents_inj l); [..|congruence].
Qed.

(** Taking an entry out. *)
Lemma take_dentry_spec l n : good_dents l → cstring n →
  match take_dentry l n with
  | Some (d, l') => find_dentry l n = Some d ∧ ∃ l1 l2, l = l1 ++ d :: l2 ∧ l' = l1 ++ l2
  | None => find_dentry l n = None
  end.
Proof.
  intros [_ Hv] Hn. induction Hv as [|d l Hd Hv IH]; cbn [find_dentry take_dentry]; [done|].
  destruct (d_namecmp (d_name d) n =? 0); [split; [done|]; by exists [], l|].
  destruct (take_dentry l n) as [[e l']|]; [|done]. destruct IH as [? (l1 & l2 & -> & ->)].
  split; [done|]. by exists (d :: l1), l2.
Qed.

Lemma good_dents_mid l1 d l2 : good_dents (l1 ++ d :: l2) →
  good_dents (l1 ++ l2) ∧ d ∉ l1 ++ l2 ∧ ∀ e, e ∈ l1 ++ l2 → d_name e ≠ d_name d.
Proof.
  unfold good_dents. rewrite fmap_app, fmap_cons, NoDup_app, NoDup_cons, Forall_app, Forall_cons.
  intros [(N1 & N2 & N3 & N4) (V1 & V2 & V3)].
  assert (∀ e, e ∈ l1 ++ l2 → d_name e ≠ d_name d) as Hne.
  { intros e [He|He]%elem_of_app Heq.
    - apply (N2 (d_name e)); [by apply list_elem_of_fmap_2|rewrite Heq; by left].
    - apply N3. rewrite <- Heq. by apply list_elem_of_fmap_2. }
  split_and!; [|by apply Forall_app|intros Hd; by apply (Hne d)|done].
  rewrite fmap_app. apply NoDup_app. split_and!; [done| |done]. intros x Hx Hx2. by apply (N2 x Hx); right.
Qed.

(** ** Counting references *)

Definition count_ip (j : nat) (l : list dentry) : Z := Z.of_nat (length (filter (λ d, d_ip d = j) l)).

(** The entries of all directories that point to [j]. *)
Fixpoint links (l : list inode) (j : nat) : Z :=
  match l with
  | [] => 0
  | ip :: l => count_ip j (dents ip) + links l j
  end.

Lemma count_ip_nonneg j l : 0 ≤ count_ip j l.
Proof. unfold count_ip. lia. Qed.

Lemma count_ip_cons j d l : count_ip j (d :: l) = (if decide (d_ip d = j) then 1 else 0) + count_ip j l.
Proof. unfold count_ip. rewrite filter_cons. case_decide; cbn [length]; lia. Qed.

Lemma count_ip_app j l1 l2 : count_ip j (l1 ++ l2) = count_ip j l1 + count_ip j l2.
Proof. unfold count_ip. rewrite filter_app, length_app. lia. Qed.

Lemma count_ip_pos j l : 0 < count_ip j l ↔ ∃ d, d ∈ l ∧ d_ip d = j.
Proof.
  induction l as [|d l IH]; [split; [done|by intros (d & Hd%elem_of_nil & _)]|].
  rewrite count_ip_cons. pose proof (count_ip_nonneg j l). case_decide as Hd.
  - split; [intros _; exists d; by split; [left|]|lia].
  - rewrite Z.add_0_l, IH. split; intros (e & He & Hj); [exists e; by split; [right|]|].
    apply elem_of_cons in He as [->|He]; [done|by exists e].
Qed.

Lemma links_nonneg l j : 0 ≤ links l j.
Proof. induction l as [|ip l IH]; cbn [links]; [done|]. pose proof (count_ip_nonneg j (dents ip)). lia. Qed.

Lemma links_insert l : ∀ i ip ip' j, l !! i = Some ip →
  links (<[i := ip']> l) j = links l j - count_ip j (dents ip) + count_ip j (dents ip').
Proof.
  induction l as [|x l IH]; intros [|i] ip ip' j Hi; try done.
  - injection Hi as ->. change (<[0%nat := ip']> (ip :: l)) with (ip' :: l). cbn [links]. lia.
  - change (<[S i := ip']> (x :: l)) with (x :: <[i := ip']> l). cbn [links]. rewrite (IH i ip ip' j Hi). lia.
Qed.

Lemma links_pos l j : 0 < links l j ↔ ∃ i ip d, l !! i = Some ip ∧ d ∈ dents ip ∧ d_ip d = j.
Proof.
  induction l as [|x l IH]; cbn [links]; [split; [done|by intros (i & ip & d & Hi & _)]|].
  pose proof (count_ip_nonneg j (dents x)). pose proof (links_nonneg l j). split.
  - intros Hp. destruct (decide (0 < count_ip j (dents x))) as [Hc|Hc].
    + apply count_ip_pos in Hc as (d & ? & ?). by exists 0%nat, x, d.
    + destruct (proj1 IH ltac:(lia)) as (i & ip & d & ? & ? & ?). by exists (S i), ip, d.
  - intros ([|i] & ip & d & Hi & Hd & Hj).
    + injection Hi as ->. assert (0 < count_ip j (dents ip)) by (apply count_ip_pos; by exists d). lia.
    + assert (0 < links l j) by (apply IH; by exists i, ip, d). lia.
Qed.

(** The references of the file system itself: working directories and the
    root. *)
Definition held (s : fsys) (j : nat) : Z :=
  Z.of_nat (length (filter (λ c, c = Some j) (cwds s))) + (if decide (vfs_root s = Some j) then 1 else 0).

Lemma held_nonneg s j : 0 ≤ held s j.
Proof. unfold held. case_decide; lia. Qed.

Definition attached (s : fsys) (i : nat) : Prop := vfs_root s = Some i ∨ 0 < links (inodes s) i.

(** ** The invariant *)

Definition bytes (l : list Z) : Prop := Forall (λ c, 0 ≤ c < 256) l.

Record node_ok (ip : inode) : Prop := {
  no_type : 0 ≤ itype ip ≤ 6;
  no_free : itype ip = 0 → ref ip = 0 ∧ i_op ip = None;
  no_live : itype ip ≠ 0 → 1 ≤ ref ip ∧ ∃ o, i_op ip = Some o ∧ (itype ip ≠ T_FIFO → o = ramfs_iops);
  no_dir : itype ip ≠ T_DIR → dents ip = [];
  no_dents : good_dents (dents ip);
  no_size : 0 ≤ size ip;
  no_data : match data ip with Some d => size ip ≤ Z.of_nat (length d) ∧ bytes d | None => itype ip = T_FILE → size ip = 0 end;
  no_parent p : iparent ip = Some p → (p < NINODE)%nat
}.

Record vfs_ok (X : option nat) (H : nat → Z) (s : fsys) : Prop := {
  vo_len : length (inodes s) = NINODE;
  vo_root : ∃ r rp, vfs_root s = Some r ∧ inodes s !! r = Some rp ∧ itype rp = T_DIR ∧ iparent rp = Some r ∧ iname rp = [];
  vo_H j : 0 ≤ H j;
  vo_node i ip : inodes s !! i = Some ip → node_ok ip;
  vo_ref i ip : inodes s !! i = Some ip → ref ip = links (inodes s) i + held s i + H i;
  vo_ent i ip d : inodes s !! i = Some ip → d ∈ dents ip → ∃ cp, inodes s !! d_ip d = Some cp ∧ itype cp ≠ 0 ∧
    (itype cp = T_DIR → X ≠ Some (d_ip d) → iparent cp = Some i ∧ iname cp = d_name d);
  vo_cwd c : Some c ∈ cwds s → ∃ cp, inodes s !! c = Some cp ∧ itype cp = T_DIR ∧ (X ≠ Some c → attached s c);
  vo_detached i ip : inodes s !! i = Some ip → itype ip = T_DIR → X ≠ Some i → ¬ attached s i → dents ip = []
}.

Definition plus (H : nat → Z) (i : nat) (j : nat) : Z := if decide (j = i) then H j + 1 else H j.

Lemma plus_eq H i : plus H i i = H i + 1.
Proof. unfold plus. by rewrite decide_True. Qed.
Lemma plus_ne H i j : j ≠ i → plus H i j = H j.
Proof. intros. unfold plus. by rewrite decide_False. Qed.

Lemma vfs_ok_ext X H H' s : vfs_ok X H s → (∀ j, H' j = H j) → vfs_ok X H' s.
Proof. intros [V1 V2 V3 V4 V5 V6 V7 V8] HH. split; try done; intros; rewrite HH; auto. Qed.

Lemma vfs_ok_heap X H h b s : vfs_ok X H s → vfs_ok X H (with_heap h b s).
Proof. by intros [V1 V2 V3 V4 V5 V6 V7 V8]. Qed.

Lemma insert_Some {A} (l : list A) i x j y : <[i := x]> l !! j = Some y →
  (j = i ∧ y = x ∧ is_Some (l !! i)) ∨ (j ≠ i ∧ l !! j = Some y).
Proof.
  intros Hj. destruct (decide (j = i)) as [->|Hne]; [left|right; by rewrite list_lookup_insert_ne in Hj].
  pose proof (lookup_lt_Some _ _ _ Hj) as Hlt. rewrite length_insert in Hlt.
  rewrite list_lookup_insert_eq in Hj by done. injection Hj as <-. split_and!; try done. by apply lookup_lt_is_Some_2.
Qed.

Lemma insert_at {A} (l : list A) i x y : l !! i = Some y → <[i := x]> l !! i = Some x.
Proof. intros Hi. apply list_lookup_insert_eq. by eapply lookup_lt_Some. Qed.

Section Update.
Context (X : option nat) (H : nat → Z) (s : fsys) (Hok : vfs_ok X H s).

(** Changing a field of an inode that is not part of the tree, or its count
    together with the holders. *)
Lemma vfs_ok_set H' i ip ip' :
  inodes s !! i = Some ip → node_ok ip' →
  dents ip' = dents ip → itype ip' = itype ip → iparent ip' = iparent ip → iname ip' = iname ip →
  0 ≤ H' i → ref ip' - ref ip = H' i - H i → (∀ j, j ≠ i → H' j = H j) →
  vfs_ok X H' (set_inode i ip' s).
Proof.
  intros Hi Hn Hd Ht Hp Hm Hpos Hr Hoth. destruct Hok as [V1 V2 V3 V4 V5 V6 V7 V8].
  assert (∀ j, links (<[i := ip']> (inodes s)) j = links (inodes s) j) as Hlinks by (intros j; rewrite (links_insert _ _ ip), Hd by done; lia).
  assert (∀ j, attached (set_inode i ip' s) j ↔ attached s j) as Hatt by (intros j; unfold attached; cbn; by rewrite Hlinks).
  assert (∀ j jp, <[i := ip']> (inodes s) !! j = Some jp → ∃ jp0, inodes s !! j = Some jp0 ∧ dents jp = dents jp0 ∧ itype jp = itype jp0 ∧
            iparent jp = iparent jp0 ∧ iname jp = iname jp0) as Hold.
  { intros j jp [(-> & -> & _)|[_ Hj]]%insert_Some; [by exists ip|by exists jp]. }
  assert (∀ j jp, inodes s !! j = Some jp → ∃ jp1, <[i := ip']> (inodes s) !! j = Some jp1 ∧ dents jp1 = dents jp ∧ itype jp1 = itype jp ∧
            iparent jp1 = iparent jp ∧ iname jp1 = iname jp) as Hnew.
  { intros j jp Hj. destruct (decide (j = i)) as [->|Hne]; [|exists jp; by rewrite list_lookup_insert_ne].
    rewrite Hi in Hj. injection Hj as <-. exists ip'. by rewrite (insert_at _ _ _ ip). }
  split; cbn [inodes set_inode with_inodes vfs_root cwds].
  - by rewrite length_insert.
  - destruct V2 as (r & rp & ? & Hrp & ? & ? & ?). destruct (Hnew r rp Hrp) as (rp' & ? & ? & ? & ? & ?).
    exists r, rp'. split_and!; congruence.
  - intros j. destruct (decide (j = i)) as [->|]; [done|by rewrite Hoth].
  - intros j jp [(-> & -> & _)|[_ Hj]]%insert_Some; [done|by eapply V4].
  - intros j jp Hj. rewrite Hlinks. change (held _ j) with (held s j).
    apply insert_Some in Hj as [(-> & -> & _)|[Hne Hj]]; [|rewrite (Hoth j Hne); by apply V5]. pose proof (V5 i ip Hi). lia.
  - intros j jp d Hj Hdj. destruct (Hold j jp Hj) as (jp0 & Hj0 & E1 & _). rewrite E1 in Hdj.
    destruct (V6 j jp0 d Hj0 Hdj) as (cp & Hcp & Hlive & Hdir). destruct (Hnew _ _ Hcp) as (cp1 & ? & ? & F2 & F3 & F4).
    exists cp1. rewrite F2, F3, F4. done.
  - intros c Hc. destruct (V7 c Hc) as (cp & Hcp & Hdir & Hat). destruct (Hnew _ _ Hcp) as (cp1 & ? & ? & F2 & _).
    exists cp1. rewrite F2, Hatt. done.
  - intros j jp Hj Hdir HX Hna. destruct (Hold j jp Hj) as (jp0 & Hj0 & E1 & E2 & _). rewrite Hatt in Hna. rewrite E1. eapply V8; [done|congruence|done|done].
Qed.

Lemma vfs_ok_upd i f : (∀ ip, inodes s !! i = Some ip → node_ok (f ip) ∧ dents (f ip) = dents ip ∧ itype (f ip) = itype ip ∧
    iparent (f ip) = iparent ip ∧ iname (f ip) = iname ip ∧ ref (f ip) = ref ip) → (i < NINODE)%nat →
  ∃ s', upd_inode i f s = Done s' ∧ vfs_ok X H s' ∧ ∃ ip, inodes s !! i = Some ip ∧ s' = set_inode i (f ip) s.
Proof.
  intros Hf Hi. destruct (lookup_lt_is_Some_2 (inodes s) i) as [ip Hip]; [by rewrite (vo_len _ _ _ Hok)|].
  unfold upd_inode, get_inode. rewrite Hip. cbn. run. destruct (Hf ip Hip) as (F1 & F2 & F3 & F4 & F5 & F6).
  eexists. split; [done|]. split; [|by exists ip]. eapply vfs_ok_set; try done; [apply Hok|lia].
Qed.
End Update.

(** ** References *)

Lemma get_inode_ok s i ip : inodes s !! i = Some ip → get_inode i s = Done ip.
Proof. intros Hi. unfold get_inode. by rewrite Hi. Qed.

Lemma upd_inode_ok s i ip f : inodes s !! i = Some ip → upd_inode i f s = Done (set_inode i (f ip) s).
Proof. intros Hi. unfold upd_inode. by rewrite (get_inode_ok s i ip Hi). Qed.

Lemma set_inode_set i a b s : set_inode i a (set_inode i b s) = set_inode i a s.
Proof. unfold set_inode, with_inodes. cbn. by rewrite list_insert_insert_eq. Qed.

Lemma set_inode_at i a s ip : inodes s !! i = Some ip → inodes (set_inode i a s) !! i = Some a.
Proof. cbn. apply insert_at. Qed.

Lemma set_inode_ne i j a s : j ≠ i → inodes (set_inode i a s) !! j = inodes s !! j.
Proof. intros Hne. cbn. by rewrite list_lookup_insert_ne. Qed.

Lemma node_ok_ref r ip : node_ok ip → itype ip ≠ 0 → 1 ≤ r → node_ok (with_ref r ip).
Proof. intros [N1 N2 N3 N4 N5 N6 N7 N8] Ht Hr. split; try done. intros _. split; [done|]. by apply N3. Qed.

Lemma idup_ok X H s i ip : vfs_ok X H s → inodes s !! i = Some ip → itype ip ≠ 0 →
  let s' := set_inode i (with_ref (ref ip + 1) ip) s in fs_idup i s = Done s' ∧ vfs_ok X (plus H i) s'.
Proof.
  intros Hok Hi Ht s'. split; [unfold fs_idup; by rewrite (upd_inode_ok s i ip)|]. pose proof (vo_node _ _ _ Hok i ip Hi) as Hn.
  pose proof (vo_H _ _ _ Hok i). destruct (no_live _ Hn Ht) as [Hr _].
  eapply (vfs_ok_set X H); [done|done| |done..| | |]; [by apply node_ok_ref; [..|lia]|rewrite plus_eq; lia|rewrite plus_eq; cbn; lia|].
  intros j Hj. by apply plus_ne.
Qed.

(** What is left of an inode that loses its last reference. *)
Definition evicted (ip : inode) : inode :=
  match i_op ip with Some pipe_iops => pipe_evict (with_ref 0 ip) | _ => ramfs_cleared (with_ref 0 ip) end.

Definition unref (i : nat) (ip : inode) (s : fsys) : fsys :=
  set_inode i (if ref ip =? 1 then evicted ip else with_ref (ref ip - 1) ip) s.

Lemma evicted_fields ip : itype (evicted ip) = 0 ∧ (ref (evicted ip) = 0 ∧ i_op (evicted ip) = None) ∧ size (evicted ip) = 0 ∧
  (dents ip = [] → dents (evicted ip) = []) ∧ (∀ p, iparent (evicted ip) = Some p → iparent ip = Some p).
Proof. unfold evicted. destruct (i_op ip) as [[]|]; by split_and!. Qed.

(** Nobody refers to an inode of which one reference is left, so that one is
    the last. *)
Lemma last_ref X H s i ip : vfs_ok X (plus H i) s → inodes s !! i = Some ip → ref ip = 1 → 0 ≤ H i →
  links (inodes s) i = 0 ∧ held s i = 0 ∧ H i = 0.
Proof.
  intros Hok Hi Hr HH. pose proof (vo_ref _ _ _ Hok i ip Hi) as Hc. rewrite plus_eq in Hc.
  pose proof (links_nonneg (inodes s) i). pose proof (held_nonneg s i). lia.
Qed.

Lemma not_held s i : held s i = 0 → vfs_root s ≠ Some i ∧ Some i ∉ cwds s.
Proof.
  unfold held. intros Hh. split; [intros Hr; rewrite decide_True in Hh by done; lia|]. intros Hc.
  apply list_elem_of_split in Hc as (l1 & l2 & Hc). rewrite Hc, filter_app, filter_cons_True, length_app in Hh by done.
  cbn [length] in Hh. case_decide; lia.
Qed.

Lemma links_zero l i : links l i = 0 → ∀ j jp d, l !! j = Some jp → d ∈ dents jp → d_ip d ≠ i.
Proof. intros Hl j jp d Hj Hd Heq. assert (0 < links l i) by (apply links_pos; by exists j, jp, d). lia. Qed.

(** Replacing an inode nobody refers to by another one without entries. *)
Lemma vfs_ok_swap X H H' s i ip ip' :
  vfs_ok X H s → inodes s !! i = Some ip → links (inodes s) i = 0 → held s i = 0 → dents ip = [] → dents ip' = [] →
  node_ok ip' → ref ip' = H' i → 0 ≤ H' i → (∀ j, j ≠ i → H' j = H j) →
  vfs_ok X H' (set_inode i ip' s).
Proof.
  intros [V1 V2 V3 V4 V5 V6 V7 V8] Hi Hl Hh Hd Hd' Hn Hr Hpos Hoth. destruct (not_held s i Hh) as [Hroot Hcwd].
  assert (∀ j, links (<[i := ip']> (inodes s)) j = links (inodes s) j) as Hlinks
    by (intros j; rewrite (links_insert _ _ ip), Hd, Hd' by done; lia).
  pose proof (links_zero _ _ Hl) as Hno.
  assert (∀ j, attached (set_inode i ip' s) j ↔ attached s j) as Hatt by (intros j; unfold attached; cbn; by rewrite Hlinks).
  split; cbn [inodes set_inode with_inodes vfs_root cwds].
  - by rewrite length_insert.
  - destruct V2 as (r & rp & Hr' & Hrp & ?). exists r, rp. split; [done|]. rewrite list_lookup_insert_ne by congruence. done.
  - intros j. destruct (decide (j = i)) as [->|]; [done|by rewrite Hoth].
  - intros j jp [(-> & -> & _)|[_ Hj]]%insert_Some; [done|by eapply V4].
  - intros j jp Hj. rewrite Hlinks. change (held _ j) with (held s j). apply insert_Some in Hj as [(-> & -> & _)|[Hne Hj]]; [lia|].
    rewrite (V5 j jp Hj), Hoth by done. done.
  - intros j jp d Hj Hdj. apply insert_Some in Hj as [(-> & -> & _)|[Hne Hj]]; [by rewrite Hd' in Hdj; apply elem_of_nil in Hdj|].
    destruct (V6 j jp d Hj Hdj) as (cp & Hcp & ?). exists cp.
    rewrite list_lookup_insert_ne; [done|]. intros Heq. by apply (Hno j jp d).
  - intros c Hc. destruct (V7 c Hc) as (cp & Hcp & Hdir & Hat). exists cp. rewrite list_lookup_insert_ne by (intros ->; done).
    rewrite Hatt. done.
  - intros j jp Hj Hdir HXj Hna. apply insert_Some in Hj as [(-> & -> & _)|[Hne Hj]]; [done|].
    rewrite Hatt in Hna. by eapply V8.
Qed.

Lemma evict_ok X H s i ip : vfs_ok X (plus H i) s → inodes s !! i = Some ip → ref ip = 1 → (∀ j, 0 ≤ H j) → X ≠ Some i →
  dents ip = [] ∧ vfs_ok X H (set_inode i (evicted ip) s).
Proof.
  intros Hok Hi Hr HH HX. destruct (last_ref X H s i ip Hok Hi Hr (HH i)) as (Hl & Hh & H0).
  destruct (not_held s i Hh) as [Hroot _]. pose proof (vo_node _ _ _ Hok i ip Hi) as Hn.
  assert (dents ip = []) as Hd.
  { destruct (decide (itype ip = T_DIR)) as [Hdir|Hnd]; [|by apply (no_dir _ Hn)].
    apply (vo_detached _ _ _ Hok i ip Hi Hdir HX). intros [?|?]; [done|lia]. }
  split; [done|]. destruct (evicted_fields ip) as (E1 & E2 & E3 & E4 & E5). specialize (E4 Hd).
  eapply (vfs_ok_swap X (plus H i)); [done|done|done|done|done|done| |lia|done|intros j Hj; by rewrite plus_ne].
  split; rewrite ?E1, ?E3, ?E4; try done; [split; constructor|..].
  - assert (data (evicted ip) = None ∨ data (evicted ip) = data ip) as [->|Hda] by (unfold evicted; destruct (i_op ip) as [[]|]; auto); [done|].
    rewrite Hda. pose proof (no_data _ Hn) as Hb. destruct (data ip); [|done]. split; [lia|apply Hb].
  - intros p Hp. by apply (no_parent _ Hn), E5.
Qed.

Lemma iput_ok X H s i ip : vfs_ok X (plus H i) s → inodes s !! i = Some ip → (∀ j, 0 ≤ H j) → (ref ip = 1 → X ≠ Some i) →
  fs_iput i s = Done (unref i ip s) ∧ vfs_ok X H (unref i ip s).
Proof.
  intros Hok Hi HH HX. pose proof (vo_ref _ _ _ Hok i ip Hi) as Hc. rewrite plus_eq in Hc.
  pose proof (links_nonneg (inodes s) i). pose proof (held_nonneg s i). pose proof (HH i).
  pose proof (vo_node _ _ _ Hok i ip Hi) as Hn.
  assert (itype ip ≠ 0) as Ht by (intros Ht; destruct (no_free _ Hn Ht); lia).
  destruct (no_live _ Hn Ht) as [Hr (o & Hop & _)].
  unfold fs_iput, iput_fuel, unref. cbn [fs_iput_loop]. rewrite (get_inode_ok s i ip Hi). run.
  rewrite (proj2 (Z.leb_gt (ref ip) 0)) by lia.
  destruct (Z.eqb_spec (ref ip) 1) as [Hone|Hone].
  - rewrite (proj2 (Z.eqb_eq (ref ip - 1) 0)) by lia. cbn [andb].
    destruct (last_ref X H s i ip Hok Hi Hone (HH i)) as (_ & Hh & _). destruct (not_held s i Hh) as [Hroot _].
    rewrite bool_decide_false by done. cbn [negb]. destruct (evict_ok X H s i ip Hok Hi Hone HH (HX Hone)) as [Hd Hok'].
    split; [|done]. replace (ref ip - 1) with 0 by lia. rewrite Hop.
    assert (∀ a, inodes (set_inode i a s) !! i = Some a) as Hat by (intros a; by eapply set_inode_at).
    unfold evicted. rewrite Hop. destruct o.
    + rewrite (upd_inode_ok _ _ _ _ (Hat _)). run. rewrite Hd. cbn [fmap list_fmap each]. run. rewrite set_inode_set.
      rewrite (upd_inode_ok _ _ _ _ (Hat _)), set_inode_set. done.
    + rewrite (upd_inode_ok _ _ _ _ (Hat _)), set_inode_set. done.
  - rewrite (proj2 (Z.eqb_neq (ref ip - 1) 0)) by lia. cbn [andb]. split; [done|].
    eapply (vfs_ok_set X (plus H i)); [done|done| |done..| |]; [by apply node_ok_ref; [..|lia]|rewrite plus_eq; cbn; lia|].
    intros j Hj. by rewrite plus_ne.
Qed.

(** A free slot is referred to by nobody. *)
Lemma free_slot X H s i ip : vfs_ok X H s → inodes s !! i = Some ip → itype ip = 0 →
  links (inodes s) i = 0 ∧ held s i = 0 ∧ H i = 0 ∧ dents ip = [].
Proof.
  intros Hok Hi Ht. pose proof (vo_node _ _ _ Hok i ip Hi) as Hn. pose proof (vo_ref _ _ _ Hok i ip Hi) as Hc.
  rewrite (proj1 (no_free _ Hn Ht)) in Hc. pose proof (links_nonneg (inodes s) i). pose proof (held_nonneg s i). pose proof (vo_H _ _ _ Hok i).
  split_and!; try lia. apply (no_dir _ Hn). by rewrite Ht.
Qed.

Lemma fresh_inode_ok i type now ip : 1 ≤ type ≤ 6 → node_ok (fresh_inode i type now ip).
Proof.
  intros Ht. unfold fresh_inode, fs_inode_init_meta. split; cbn; try done; try lia.
  - intros _. split; [done|]. by exists ramfs_iops.
  - split; constructor.
Qed.

Lemma ialloc_ok X H s type : vfs_ok X H s → 1 ≤ type ≤ 6 →
  match ialloc type s with
  | (None, s') => s' = s ∧ ∀ i ip, inodes s !! i = Some ip → itype ip ≠ 0
  | (Some i, s') => ∃ ip, inodes s !! i = Some ip ∧ itype ip = 0 ∧ s' = set_inode i (fresh_inode i type (now_sec s) ip) s ∧
      vfs_ok X (plus H i) s'
  end.
Proof.
  intros Hok Ht. unfold ialloc. destruct (list_find _ (inodes s)) as [[i ip]|] eqn:Hf.
  - apply list_find_Some in Hf as (Hi & H0 & _). exists ip. split; [done|]. split; [done|]. split; [done|].
    destruct (free_slot X H s i ip Hok Hi H0) as (Hl & Hh & HH & Hd).
    eapply (vfs_ok_swap X H); [done|done|done|done|done|done|by apply fresh_inode_ok|rewrite plus_eq, HH; done|rewrite plus_eq; lia|].
    intros j Hj. by apply plus_ne.
  - split; [done|]. intros i ip Hi H0. apply list_find_None in Hf. by apply (proj1 (Forall_lookup _ _) Hf i ip Hi).
Qed.

(** ** Adding an entry *)

(** Inode [j] after [d_add dir name i]. *)
Definition hook_node (dir : nat) (name : str) (i j : nat) (jp : inode) : inode :=
  let jp := if decide (j = i) then with_place (Some (default dir (iparent jp))) name (with_ref (ref jp + 1) jp) else jp in
  if decide (j = dir) then with_dents (Dentry name i :: dents jp) jp else jp.

Definition maps (f : nat → inode → inode) (s s' : fsys) : Prop :=
  (∀ j, inodes s' !! j = f j <$> inodes s !! j) ∧ vfs_root s' = vfs_root s ∧ cwds s' = cwds s ∧ now_sec s' = now_sec s.

Lemma maps_back f s s' j jp' : maps f s s' → inodes s' !! j = Some jp' → ∃ jp, inodes s !! j = Some jp ∧ jp' = f j jp.
Proof. intros [Hm _] Hj. rewrite Hm in Hj. destruct (inodes s !! j) as [jp|]; [|done]. injection Hj as <-. by exists jp. Qed.

Lemma maps_length f s s' : maps f s s' → length (inodes s') = length (inodes s).
Proof.
  intros Hm. apply Nat.le_antisymm; apply Nat.nlt_ge; intros Hlen; apply lookup_lt_is_Some_2 in Hlen as [jp Hj].
  - apply (maps_back _ _ _ _ _ Hm) in Hj as (jp0 & Hj & _). apply lookup_lt_Some in Hj. lia.
  - destruct Hm as [Hm _]. pose proof (Hm (length (inodes s'))) as E. rewrite Hj, (lookup_ge_None_2 (inodes s')) in E by lia. done.
Qed.

Lemma d_lookup_ok s dir dp name : inodes s !! dir = Some dp → itype dp = T_DIR →
  d_lookup dir name s = Done (find_dentry (dents dp) name).
Proof. intros Hd Ht. unfold d_lookup. rewrite (get_inode_ok s dir dp Hd). run. by rewrite Ht. Qed.

Lemma kmalloc_dentry_cases s : ∃ ok h, kmalloc_dentry s = (ok, with_heap h false s) ∧ (spare s = true → ok = true).
Proof. unfold kmalloc_dentry, kmalloc_ok. destruct (spare s), (heap s) as [|[] h]; eexists _, _; (split; [reflexivity|done]). Qed.

(** [d_add] fails for lack of memory or hooks the entry in. *)
Lemma d_add_run s dir dp name i ip :
  inodes s !! dir = Some dp → itype dp = T_DIR → valid_name name → find_dentry (dents dp) name = None → inodes s !! i = Some ip →
  ∃ r s', d_add dir name i s = Done (r, s') ∧ (spare s = true → r = 0) ∧
    ((r = -1 ∧ ∃ h b, s' = with_heap h b s) ∨
     (r = 0 ∧ maps (hook_node dir name i) s s' ∧ ∀ j, links (inodes s') j = links (inodes s) j + if decide (j = i) then 1 else 0)).
Proof.
  intros Hd Ht Hn Hf Hi. unfold d_add. rewrite (get_inode_ok s dir dp Hd). run. rewrite Ht.
  rewrite bool_decide_false by apply Hn. change (T_DIR =? T_DIR) with true. cbn [negb orb].
  rewrite (d_lookup_ok s dir dp name Hd Ht), Hf. run.
  destruct (kmalloc_dentry_cases s) as (ok & h & -> & Hsp). set (s0 := with_heap h false s).
  destruct ok; cbn [negb].
  2:{ eexists _, _. split; [done|]. split; [intros Hs; specialize (Hsp Hs); done|]. left. split; [done|]. by eexists _, _. }
  assert (inodes s0 !! i = Some ip) as Hi0 by done. assert (inodes s0 !! dir = Some dp) as Hd0 by done.
  rewrite (upd_inode_ok s0 i ip _ Hi0). run. unfold fs_idup.
  rewrite (upd_inode_ok _ i _ _ (set_inode_at _ _ _ _ Hi0)), set_inode_set. run.
  rewrite (upd_inode_ok _ i _ _ (set_inode_at _ _ _ _ Hi0)), set_inode_set. run.
  rewrite (namecpy_name name Hn). set (ip' := with_place _ _ _).
  assert (ip' = with_place (Some (default dir (iparent ip))) name (with_ref (ref ip + 1) ip)) as Hip'.
  { unfold ip', with_place, with_ref. cbn. by destruct (iparent ip). }
  set (s1 := set_inode i ip' s0).
  set (dp1 := if decide (dir = i) then ip' else dp).
  assert (inodes s1 !! dir = Some dp1 ∧ dents dp1 = dents dp) as [Hd1 Hdd].
  { unfold dp1, s1. case_decide as Heq; [|by rewrite set_inode_ne]. subst. rewrite Hi in Hd. injection Hd as <-.
    split; [by apply (set_inode_at _ _ _ ip)|]. by rewrite Hip'. }
  rewrite (upd_inode_ok s1 dir dp1 _ Hd1). run. eexists _, _. split; [done|]. split; [done|]. right. split; [done|].
  split; [split; [|done]|].
  - intros j. unfold hook_node. destruct (decide (j = dir)) as [->|Hjd].
    + rewrite (set_inode_at _ _ _ dp1 Hd1), Hd. cbn. f_equal. unfold dp1. by case_decide; [subst; rewrite Hi in Hd; injection Hd as <-; rewrite Hip'|].
    + rewrite set_inode_ne by done. unfold s1. destruct (decide (j = i)) as [->|Hji].
      * rewrite (set_inode_at _ _ _ ip Hi0), Hi, Hip'. done.
      * rewrite set_inode_ne by done. by destruct (inodes s0 !! j) eqn:E; cbn in E |- *; rewrite E.
  - intros j. cbn [inodes set_inode with_inodes]. rewrite (links_insert _ _ dp1) by done. cbn [dents with_dents].
    rewrite count_ip_cons. unfold s1. cbn [inodes set_inode with_inodes]. rewrite (links_insert _ _ ip) by done.
    change (inodes s0) with (inodes s). rewrite Hip'. cbn [dents with_place with_ref d_ip].
    destruct (decide (i = j)), (decide (j = i)); try congruence; lia.
Qed.

Lemma hook_node_fields dir name i j jp : itype (hook_node dir name i j jp) = itype jp ∧
  dents (hook_node dir name i j jp) = (if decide (j = dir) then Dentry name i :: dents jp else dents jp) ∧
  ref (hook_node dir name i j jp) = ref jp + (if decide (j = i) then 1 else 0) ∧
  iparent (hook_node dir name i j jp) = (if decide (j = i) then Some (default dir (iparent jp)) else iparent jp) ∧
  iname (hook_node dir name i j jp) = (if decide (j = i) then name else iname jp) ∧
  data (hook_node dir name i j jp) = data jp ∧ size (hook_node dir name i j jp) = size jp ∧ i_op (hook_node dir name i j jp) = i_op jp ∧
  i_pipe (hook_node dir name i j jp) = i_pipe jp.
Proof. unfold hook_node. repeat case_decide; cbn; split_and!; try done; lia. Qed.

Lemma good_dents_cons l name i : good_dents l → valid_name name → find_dentry l name = None → good_dents (Dentry name i :: l).
Proof.
  intros Hg Hn Hf. destruct Hg as [Hnd Hv] eqn:Eg. split; [|by constructor]. rewrite fmap_cons. cbn. apply NoDup_cons. split; [|done].
  intros (d & Hd & Hin)%list_elem_of_fmap. pose proof (find_dentry_spec l name Hg) as Hs. rewrite Hf in Hs.
  by apply (Hs ltac:(apply Hn) d Hin).
Qed.

Lemma hook_ok X H s s' dir dp name i ip :
  vfs_ok X H s → inodes s !! dir = Some dp → itype dp = T_DIR → valid_name name → find_dentry (dents dp) name = None →
  inodes s !! i = Some ip → itype ip ≠ 0 → vfs_root s ≠ Some i → (attached s dir ∨ X = Some dir) →
  (itype ip = T_DIR → X = Some i ∨ iparent ip = None) →
  maps (hook_node dir name i) s s' → (∀ j, links (inodes s') j = links (inodes s) j + if decide (j = i) then 1 else 0) →
  vfs_ok X H s'.
Proof.
  intros [V1 V2 V3 V4 V5 V6 V7 V8] Hd Hdt Hn Hf Hi Hit Hri Hatt Hdir Hmaps Hl. pose proof (λ j jp', maps_back _ _ _ j jp' Hmaps) as Hback.
  pose proof (maps_length _ _ _ Hmaps) as Hlen. destruct Hmaps as (Hm & Hmr & Hmc & _).
  assert (∀ j, attached s j → attached s' j) as Hmono.
  { intros j [Hr|Hp]; [left; congruence|right]. rewrite Hl. case_decide; lia. }
  assert (∀ p, p = dir ∨ (p < NINODE)%nat → (p < NINODE)%nat) as Hlt.
  { intros p [->|]; [|done]. rewrite <- V1. by eapply lookup_lt_Some. }
  split.
  - by rewrite Hlen.
  - destruct V2 as (r & rp & Hr & Hrp & Ht & Hp & Hname). rewrite Hmr. exists r, (hook_node dir name i r rp). rewrite Hm, Hrp.
    destruct (hook_node_fields dir name i r rp) as (F1 & _ & _ & F4 & F5 & _). rewrite F1, F4, F5, !decide_False by congruence. done.
  - done.
  - intros j jp' (jp & Hj & ->)%Hback. destruct (hook_node_fields dir name i j jp) as (F1 & F2 & F3 & F4 & F5 & F6 & F7 & F8 & _).
    destruct (V4 j jp Hj) as [N1 N2 N3 N4 N5 N6 N7 N8]. split; rewrite ?F1, ?F2, ?F3, ?F6, ?F7, ?F8; try done.
    + intros E. destruct (N2 E) as [-> ->]. rewrite decide_False; [done|]. intros ->. congruence.
    + intros E. destruct (N3 E) as [? ?]. split; [case_decide; lia|done].
    + intros E. rewrite decide_False; [by apply N4|]. intros ->. congruence.
    + destruct (decide (j = dir)) as [->|]; [|exact N5]. rewrite Hd in Hj. injection Hj as <-. by apply good_dents_cons.
    + intros p. rewrite F4. case_decide; [|apply N8]. intros [= <-]. apply Hlt. destruct (iparent jp) eqn:E; [right; by apply N8|by left].
  - intros j jp' (jp & Hj & ->)%Hback. destruct (hook_node_fields dir name i j jp) as (_ & _ & F3 & _). rewrite F3, Hl, (V5 j jp Hj).
    unfold held. rewrite Hmr, Hmc. lia.
  - intros j jp' d (jp & Hj & ->)%Hback Hdj. destruct (hook_node_fields dir name i j jp) as (_ & F2 & _). rewrite F2 in Hdj.
    assert (d ∈ dents jp ∨ d = Dentry name i ∧ j = dir) as [Hold|[-> ->]].
    { case_decide; [apply elem_of_cons in Hdj as [->|]; auto|auto]. }
    + destruct (V6 j jp d Hj Hold) as (cp & Hcp & Hct & Hcd). exists (hook_node dir name i (d_ip d) cp). rewrite Hm, Hcp.
      destruct (hook_node_fields dir name i (d_ip d) cp) as (G1 & _ & _ & G4 & G5 & _). rewrite G1, G4, G5. split_and!; try done.
      intros E HX. destruct (Hcd E HX) as [Hp Hnm]. case_decide as Hdi; [|done]. exfalso. rewrite Hdi, Hi in Hcp. injection Hcp as <-.
      destruct (Hdir E) as [?|?]; congruence.
    + exists (hook_node dir name i i ip). cbn [d_ip d_name]. rewrite Hm, Hi.
      destruct (hook_node_fields dir name i i ip) as (G1 & _ & _ & G4 & G5 & _). rewrite G1, G4, G5, !decide_True by done.
      split_and!; try done. intros E HX. destruct (Hdir E) as [?|Hp]; [congruence|]. by rewrite Hp.
  - intros c Hc. rewrite Hmc in Hc. destruct (V7 c Hc) as (cp & Hcp & Ht & Ha). exists (hook_node dir name i c cp). rewrite Hm, Hcp.
    destruct (hook_node_fields dir name i c cp) as (-> & _). split_and!; auto.
  - intros j jp' (jp & Hj & ->)%Hback. destruct (hook_node_fields dir name i j jp) as (-> & -> & _). intros Ht HX Hna.
    rewrite decide_False; [eapply V8; [done|done|done|auto]|]. intros ->. destruct Hatt as [Ha|?]; [|done]. by apply Hna, Hmono.
Qed.

(** ** Removing an entry *)

Lemma count_ip_le1 i l : good_dents l → (∀ d e, d ∈ l → e ∈ l → d_ip d = i → d_ip e = i → d_name d = d_name e) → count_ip i l ≤ 1.
Proof.
  intros [Hnd Hv]. induction l as [|d l IH]; intros Hu; [done|]. rewrite count_ip_cons.
  rewrite fmap_cons in Hnd. apply NoDup_cons in Hnd as [Hnin Hnd]. apply Forall_cons in Hv as [_ Hv].
  case_decide as Hd; [|rewrite Z.add_0_l; apply IH; auto; intros a b Ha Hb; apply Hu; by right].
  destruct (decide (0 < count_ip i l)) as [Hp|]; [|pose proof (count_ip_nonneg i l); lia].
  apply count_ip_pos in Hp as (e & He & Hei). destruct Hnin. apply list_elem_of_fmap. exists e. split; [|done].
  apply Hu; [by left|by right|done|done].
Qed.

(** A directory has at most one entry. *)
Lemma dir_links H s i ip : vfs_ok None H s → inodes s !! i = Some ip → itype ip = T_DIR → links (inodes s) i ≤ 1.
Proof.
  intros Hok Hi Ht. destruct (iparent ip) as [p|] eqn:Hp; [destruct (inodes s !! p) as [pp|] eqn:Hpp|].
  - assert (∀ j jp d, inodes s !! j = Some jp → d ∈ dents jp → d_ip d = i → j = p ∧ d_name d = iname ip) as Hent.
    { intros j jp d Hj Hd Hdi. destruct (vo_ent _ _ _ Hok j jp d Hj Hd) as (cp & Hcp & _ & Hdir). rewrite Hdi, Hi in Hcp. injection Hcp as <-.
      destruct (Hdir Ht) as [? ?]; [done|]. split; congruence. }
    assert (links (<[p := with_dents [] pp]> (inodes s)) i ≤ 0) as H0.
    { apply Z.le_ngt. intros (j & jp & d & Hj & Hd & Hdi)%links_pos. apply insert_Some in Hj as [(-> & -> & _)|[Hne Hj]]; [by apply elem_of_nil in Hd|].
      by destruct (Hent j jp d Hj Hd Hdi). }
    rewrite (links_insert _ _ pp) in H0 by done. cbn [dents with_dents] in H0. change (count_ip i []) with 0 in H0.
    enough (count_ip i (dents pp) ≤ 1) by lia. apply count_ip_le1; [apply (no_dents _ (vo_node _ _ _ Hok p pp Hpp))|].
    intros d e Hd He Hdi Hei. destruct (Hent p pp d Hpp Hd Hdi) as [_ ->], (Hent p pp e Hpp He Hei) as [_ ->]. done.
  - enough (¬ 0 < links (inodes s) i) by lia. intros (j & jp & d & Hj & Hd & Hdi)%links_pos.
    destruct (vo_ent _ _ _ Hok j jp d Hj Hd) as (cp & Hcp & _ & Hdir). rewrite Hdi, Hi in Hcp. injection Hcp as <-. destruct (Hdir Ht); congruence.
  - enough (¬ 0 < links (inodes s) i) by lia. intros (j & jp & d & Hj & Hd & Hdi)%links_pos.
    destruct (vo_ent _ _ _ Hok j jp d Hj Hd) as (cp & Hcp & _ & Hdir). rewrite Hdi, Hi in Hcp. injection Hcp as <-. destruct (Hdir Ht); congruence.
Qed.

(** The table after an entry is cut out of [dir]; its reference is now the
    caller's.  A directory with contents, or somebody's working directory, is
    then on its way ([X]). *)
Lemma unhook_ok X H s dir dp d l1 l2 ip :
  let i := d_ip d in
  let s1 := set_inode dir (with_dents (l1 ++ l2) dp) s in
  vfs_ok None H s → inodes s !! dir = Some dp → dents dp = l1 ++ d :: l2 → inodes s !! i = Some ip →
  (X = None ∨ X = Some i) → (itype ip = T_DIR → X = Some i ∨ (dents ip = [] ∧ Some i ∉ cwds s)) →
  vfs_ok X (plus H i) s1 ∧ (∀ j, links (inodes s1) j = links (inodes s) j - if decide (j = i) then 1 else 0).
Proof.
  intros i s1 Hok Hd Hl Hi HX Hdir. pose proof Hok as [V1 V2 V3 V4 V5 V6 V7 V8].
  assert (∀ j, links (inodes s1) j = links (inodes s) j - if decide (j = i) then 1 else 0) as Hlinks.
  { intros j. unfold s1. cbn [inodes set_inode with_inodes]. rewrite (links_insert _ _ dp) by done. cbn [dents with_dents].
    rewrite Hl, !count_ip_app, count_ip_cons. fold i. destruct (decide (i = j)), (decide (j = i)); try congruence; lia. }
  split; [|exact Hlinks].
  assert (d ∈ dents dp) as Hdin by (rewrite Hl; apply elem_of_app; right; by left).
  assert (∀ j, j ≠ i → attached s1 j ↔ attached s j) as Hatt.
  { intros j Hj. unfold attached. rewrite Hlinks, decide_False, Z.sub_0_r by done. done. }
  assert (∀ j jp, inodes s !! j = Some jp → ∃ jp1, inodes s1 !! j = Some jp1 ∧ itype jp1 = itype jp ∧ iparent jp1 = iparent jp ∧ iname jp1 = iname jp) as Hnew.
  { intros j jp Hj. unfold s1. destruct (decide (j = dir)) as [->|Hne]; [|exists jp; by rewrite set_inode_ne].
    rewrite Hd in Hj. injection Hj as <-. exists (with_dents (l1 ++ l2) dp). by rewrite (set_inode_at _ _ _ dp). }
  assert (itype dp = T_DIR) as Hdt.
  { destruct (decide (itype dp = T_DIR)); [done|]. rewrite (no_dir _ (V4 dir dp Hd)) in Hdin by done. by apply elem_of_nil in Hdin. }
  split.
  - unfold s1. cbn. by rewrite length_insert.
  - destruct V2 as (r & rp & Hr & Hrp & ?). destruct (Hnew r rp Hrp) as (rp1 & ? & E1 & E2 & E3).
    exists r, rp1. rewrite E1, E2, E3. done.
  - intros j. unfold plus. pose proof (V3 j). case_decide; lia.
  - intros j jp [(-> & -> & _)|[_ Hj]]%insert_Some; [|by eapply V4]. destruct (V4 dir dp Hd) as [N1 N2 N3 N4 N5 N6 N7 N8].
    split; try done. cbn [dents with_dents]. rewrite Hl in N5. by apply good_dents_mid in N5 as (? & _).
  - intros j jp Hj. rewrite Hlinks. change (held s1 j) with (held s j).
    assert (ref jp = links (inodes s) j + held s j + H j) as ->.
    { apply insert_Some in Hj as [(-> & -> & _)|[_ Hj]]; [exact (V5 dir dp Hd)|exact (V5 j jp Hj)]. }
    unfold plus. case_decide; lia.
  - intros j jp e Hj He. assert (∃ jp0, inodes s !! j = Some jp0 ∧ e ∈ dents jp0) as (jp0 & Hj0 & He0).
    { apply insert_Some in Hj as [(-> & -> & _)|[_ Hj]]; [|by exists jp]. exists dp. split; [done|]. cbn [dents with_dents] in He. rewrite Hl. set_solver. }
    destruct (V6 j jp0 e Hj0 He0) as (cp & Hcp & Ht & Hde). destruct (Hnew _ cp Hcp) as (cp1 & Hcp1 & E1 & E2 & E3).
    exists cp1. rewrite E1, E2, E3. split_and!; try done. intros E _. by apply Hde.
  - intros c Hc. destruct (V7 c Hc) as (cp & Hcp & Ht & Ha). destruct (Hnew _ cp Hcp) as (cp1 & Hcp1 & E1 & _).
    exists cp1. rewrite E1. split_and!; try done. intros HXc. destruct (decide (c = i)) as [->|Hne]; [|apply Hatt; auto]. rewrite Hi in Hcp. injection Hcp as <-. destruct (Hdir Ht) as [?|[_ ?]]; done.
  - intros j jp Hj Ht HXj Hna. destruct (decide (j = i)) as [->|Hne].
    + assert (itype ip = T_DIR ∧ (dents ip = [] → dents jp = [])) as [Hipt Hsub].
      { apply insert_Some in Hj as [(E & -> & _)|[_ Hj]]; [|rewrite Hi in Hj; by injection Hj as <-].
        rewrite E, Hd in Hi. injection Hi as <-. split; [done|]. intros E0. rewrite E0 in Hdin. by apply elem_of_nil in Hdin. }
      destruct (Hdir Hipt) as [?|[? _]]; [done|auto].
    + rewrite Hatt in Hna by done. apply insert_Some in Hj as [(-> & -> & _)|[_ Hj]]; [|by eapply V8].
      rewrite (V8 dir dp Hd Hdt) in Hdin; [by apply elem_of_nil in Hdin|done|done].
Qed.

(** Putting a directory that was on its way in its place. *)
Lemma settle_ok H s i ip nd ndp :
  vfs_ok (Some i) H s → inodes s !! i = Some ip → itype ip = T_DIR → vfs_root s ≠ Some i → inodes s !! nd = Some ndp →
  Dentry (iname ip) i ∈ dents ndp →
  (∀ j jp d, inodes s !! j = Some jp → d ∈ dents jp → d_ip d = i → j = nd ∧ d_name d = iname ip) →
  vfs_ok None H (set_inode i (with_place (Some nd) (iname ip) ip) s).
Proof.
  intros [V1 V2 V3 V4 V5 V6 V7 V8] Hi Ht Hroot Hnd Hin Hent. set (ip' := with_place _ _ ip).
  assert (∀ j, links (<[i := ip']> (inodes s)) j = links (inodes s) j) as Hlinks by (intros j; rewrite (links_insert _ _ ip) by done; cbn; lia).
  assert (0 < links (inodes s) i) as Hpos by (apply links_pos; by exists nd, ndp, (Dentry (iname ip) i)).
  assert (∀ j, attached (set_inode i ip' s) j ↔ attached s j) as Hatt by (intros j; unfold attached; cbn; by rewrite Hlinks).
  assert (∀ j jp, <[i := ip']> (inodes s) !! j = Some jp → ∃ jp0, inodes s !! j = Some jp0 ∧ dents jp = dents jp0 ∧ itype jp = itype jp0 ∧ ref jp = ref jp0) as Hold.
  { intros j jp [(-> & -> & _)|[_ Hj]]%insert_Some; [by exists ip|by exists jp]. }
  split; cbn [inodes set_inode with_inodes vfs_root cwds].
  - by rewrite length_insert.
  - destruct V2 as (r & rp & Hr & Hrp & ?). exists r, rp. rewrite list_lookup_insert_ne by congruence. done.
  - done.
  - intros j jp [(-> & -> & _)|[_ Hj]]%insert_Some; [|by eapply V4]. destruct (V4 i ip Hi) as [N1 N2 N3 N4 N5 N6 N7 N8].
    split; try done. intros p [= <-]. rewrite <- V1. by eapply lookup_lt_Some.
  - intros j jp Hj. rewrite Hlinks. destruct (Hold j jp Hj) as (jp0 & Hj0 & _ & _ & ->). by apply V5.
  - intros j jp d Hj Hd. destruct (Hold j jp Hj) as (jp0 & Hj0 & E & _). rewrite E in Hd.
    destruct (decide (d_ip d = i)) as [Hdi|Hdi].
    + destruct (Hent j jp0 d Hj0 Hd Hdi) as [-> Hn]. exists ip'. rewrite Hdi, (insert_at _ _ _ ip) by done. split_and!; try done.
      change (itype ip') with (itype ip). by rewrite Ht.
    + destruct (V6 j jp0 d Hj0 Hd) as (cp & Hcp & ? & Hc). exists cp. rewrite list_lookup_insert_ne by done. split_and!; try done.
      intros Hct _. apply Hc; [done|]. congruence.
  - intros c Hc. destruct (V7 c Hc) as (cp & Hcp & Hct & Ha). destruct (decide (c = i)) as [->|Hne].
    + exists ip'. rewrite (insert_at _ _ _ ip) by done. split_and!; try done. intros _. right. cbn. by rewrite Hlinks.
    + exists cp. rewrite list_lookup_insert_ne by done. rewrite Hatt. split_and!; try done. intros _. apply Ha. congruence.
  - intros j jp Hj Hjt _ Hna. destruct (Hold j jp Hj) as (jp0 & Hj0 & E & E2 & _). rewrite Hatt in Hna. rewrite E.
    destruct (decide (j = i)) as [->|Hne]; [by destruct Hna; right|]. eapply V8; [done|congruence|congruence|done].
Qed.
