(* ===== verification/RamfsSpec.v ===== *)
(** [RamfsSpec]: the operations of ramfs keep the invariant of [VfsInv], and what
    they do to the directories. *)
From Stdlib Require Import ZArith Lia.
From stdpp Require Import numbers strings gmap list.
From S2P Require Import Prelude Pipe Vfs VfsInv.
Open Scope Z_scope.

Create HintDb vfs.

(** Every inode in use is as before, and no other one came into use. *)
Definition untouched (s s' : fsys) : Prop :=
  (∀ j jp, inodes s !! j = Some jp → itype jp ≠ 0 → inodes s' !! j = Some jp) ∧
  (∀ j jp', inodes s' !! j = Some jp' → itype jp' ≠ 0 → inodes s !! j = Some jp') ∧
  vfs_root s' = vfs_root s ∧ cwds s' = cwds s.

Lemma untouched_heap s h b : untouched s (with_heap h b s).
Proof. by split_and!. Qed.

Lemma untouched_slot s i ip ip' : inodes s !! i = Some ip → itype ip = 0 → itype ip' = 0 → untouched s (set_inode i ip' s).
Proof.
  intros Hi Ht Ht'. split_and!; try done.
  - intros j jp Hj Hl. rewrite set_inode_ne; [done|]. intros ->. congruence.
  - intros j jp Hj Hl. apply insert_Some in Hj as [(-> & -> & _)|[_ Hj]]; done.
Qed.

(** A directory that can be worked in. *)
Definition in_tree (s : fsys) (dir : nat) (dp : inode) : Prop :=
  inodes s !! dir = Some dp ∧ itype dp = T_DIR ∧ attached s dir.

(** A new inode: nobody but its creator refers to it. *)
Record newborn (H : nat → Z) (s : fsys) (i : nat) (ip : inode) : Prop := {
  nb_ok : vfs_ok None (plus H i) s;
  nb_H j : 0 ≤ H j;
  nb_at : inodes s !! i = Some ip;
  nb_live : itype ip ≠ 0;
  nb_ref : ref ip = 1;
  nb_parent : iparent ip = None
}.

Lemma newborn_alone H s i ip : newborn H s i ip → links (inodes s) i = 0 ∧ held s i = 0 ∧ H i = 0 ∧ dents ip = [].
Proof.
  intros [Hok HH Hi Hl Hr Hp]. destruct (last_ref None H s i ip Hok Hi Hr (HH i)) as (? & ? & ?). split_and!; try done.
  by apply (evict_ok None H s i ip Hok Hi Hr HH).
Qed.

Lemma newborn_root H s i ip : newborn H s i ip → vfs_root s ≠ Some i.
Proof. intros Hn. destruct (newborn_alone _ _ _ _ Hn) as (_ & Hh & _). by apply not_held. Qed.

(** Giving up on it. *)
Lemma newborn_drop H s i ip : newborn H s i ip →
  fs_iput i s = Done (set_inode i (evicted ip) s) ∧ vfs_ok None H (set_inode i (evicted ip) s).
Proof.
  intros [Hok HH Hi Hl Hr Hp]. destruct (iput_ok None H s i ip Hok Hi HH) as [Hrun Hok']; [done|].
  unfold unref in *. by rewrite Hr in *.
Qed.

Lemma newborn_heap H s i ip h b : newborn H s i ip → newborn H (with_heap h b s) i ip.
Proof. intros [Hok HH Hi Hl Hr Hp]. split; try done. by apply vfs_ok_heap. Qed.

(** Hooking it in: the new name leads to it, and nothing else changes. *)
Record added (dir : nat) (name : str) (i : nat) (ip : inode) (s s' : fsys) : Prop := {
  ad_new : ∃ r, inodes s' !! i = Some (with_place (Some dir) name (with_ref r ip)) ∧ dents ip = [];
  ad_dir dp : inodes s !! dir = Some dp → inodes s' !! dir = Some (with_dents (Dentry name i :: dents dp) dp);
  ad_other j : j ≠ i → j ≠ dir → inodes s' !! j = inodes s !! j;
  ad_root : vfs_root s' = vfs_root s;
  ad_cwds : cwds s' = cwds s
}.

Lemma hook_new H s dir dp name i ip :
  newborn H s i ip → in_tree s dir dp → valid_name name → find_dentry (dents dp) name = None →
  ∃ r s1, d_add dir name i s = Done (r, s1) ∧
    ((r = -1 ∧ ∃ h b, s1 = with_heap h b s) ∨
     (r = 0 ∧ vfs_ok None (plus H i) s1 ∧ added dir name i ip s s1 ∧
        ∃ ip1, inodes s1 !! i = Some ip1 ∧ ref ip1 = 2)).
Proof.
  intros Hnb (Hd & Hdt & Hatt) Hn Hf. pose proof (newborn_root _ _ _ _ Hnb) as Hroot.
  destruct (newborn_alone _ _ _ _ Hnb) as (Hl0 & Hh0 & HH0 & Hde). destruct Hnb as [Hok HH Hi Hl Hr Hp].
  destruct (d_add_run s dir dp name i ip Hd Hdt Hn Hf Hi) as (r & s1 & -> & _ & Hres). exists r, s1. split; [done|].
  destruct Hres as [?|(-> & Hm & Hlk)]; [by left|right]. split; [done|].
  assert (dir ≠ i) as Hdi by (intros ->; destruct Hatt as [?|?]; [done|lia]).
  split; [by apply (hook_ok None _ s s1 dir dp name i ip); auto|].
  pose proof Hm as (Hm1 & Hm2 & Hm3 & _). destruct (hook_node_fields dir name i i ip) as (_ & _ & F3 & _).
  split; [split|].
  - exists (ref ip + 1). split; [|done]. rewrite Hm1, Hi. cbn. unfold hook_node. cbn zeta. rewrite Hp.
    by rewrite (decide_True (P := i = i)), (decide_False (P := i = dir)) by congruence.
  - intros dp' Hdp'. rewrite Hm1, Hdp'. cbn. unfold hook_node. cbn zeta. rewrite (decide_True (P := dir = dir)), (decide_False (P := dir = i)) by done. done.
  - intros j Hji Hjd. rewrite Hm1. destruct (inodes s !! j) as [jp|]; [|done]. cbn. unfold hook_node. by rewrite !decide_False.
  - done.
  - done.
  - exists (hook_node dir name i i ip). rewrite Hm1, Hi. split; [done|]. rewrite F3, decide_True by done. lia.
Qed.

(** An inode with its own count one lower. *)
Lemma unref_more i ip s : ref ip ≠ 1 → unref i ip s = set_inode i (with_ref (ref ip - 1) ip) s.
Proof. intros Hr. unfold unref. by rewrite (proj2 (Z.eqb_neq (ref ip) 1)). Qed.

Lemma hook_done H s dir dp name i ip :
  newborn H s i ip → in_tree s dir dp → valid_name name → find_dentry (dents dp) name = None →
  ∃ r s', hook dir name i s = Done (r, s') ∧ vfs_ok None H s' ∧
    ((r = -1 ∧ ∃ h b, s' = set_inode i (evicted ip) (with_heap h b s)) ∨ (r = 0 ∧ added dir name i ip s s')).
Proof.
  intros Hnb Hin Hn Hf. unfold hook. destruct (hook_new H s dir dp name i ip Hnb Hin Hn Hf) as (r & s1 & -> & Hres). run.
  destruct Hres as [(-> & h & b & ->)|(-> & Hok1 & Had & ip1 & Hi1 & Hr1)].
  - change (-1 <? 0) with true. cbn iota. destruct (newborn_drop H _ i ip (newborn_heap _ _ _ _ h b Hnb)) as [-> Hok']. run.
    eexists _, _. split; [done|]. split; [done|]. left. split; [done|]. by eexists _, _.
  - change (0 <? 0) with false. cbn iota. destruct (iput_ok None H s1 i ip1 Hok1 Hi1) as [-> Hok']; [apply Hnb|done|]. run.
    eexists _, _. split; [done|]. split; [done|]. right. split; [done|]. rewrite unref_more by lia.
    destruct Had as [(r2 & Hi2 & A1) B C E F]. rewrite Hi1 in Hi2. apply (inj Some) in Hi2. subst ip1.
    destruct Hin as (Hd & _ & Hatt). destruct (newborn_alone _ _ _ _ Hnb) as (Hl0 & _).
    assert (dir ≠ i) by (intros ->; destruct Hatt as [?|?]; [by apply (newborn_root _ _ _ _ Hnb)|lia]).
    split; try done.
    + eexists. split; [by apply (set_inode_at _ _ _ _ Hi1)|done].
    + intros dp' Hdp'. rewrite set_inode_ne by done. by apply B.
    + intros j Hji Hjd. rewrite set_inode_ne by done. by apply C.
Qed.

(** ** Making a new entry *)

(** The outcome of an operation that makes a new inode [P] and calls it [name]. *)
Definition made (dir : nat) (name : str) (P : inode → Prop) (s : fsys) (r : Z) (s' : fsys) : Prop :=
  (r = -1 ∧ untouched s s') ∨
  (r = 0 ∧ ∃ i ip0 ip, inodes s !! i = Some ip0 ∧ itype ip0 = 0 ∧ P ip ∧ added dir name i ip s s').

(** Slot [i] of [s], free, holds the new inode in [s1]. *)
Record birth (s : fsys) (i : nat) (ip0 ip : inode) (s1 : fsys) : Prop := {
  bi_free : inodes s !! i = Some ip0 ∧ itype ip0 = 0;
  bi_nodes : inodes s1 = <[i := ip]> (inodes s);
  bi_root : vfs_root s1 = vfs_root s;
  bi_cwds : cwds s1 = cwds s
}.

Lemma birth_upd s i ip0 ip s1 ip' : birth s i ip0 ip s1 → birth s i ip0 ip' (set_inode i ip' s1).
Proof. intros [B1 B2 B3 B4]. split; try done. cbn. by rewrite B2, list_insert_insert_eq. Qed.

Lemma birth_heap s i ip0 ip s1 h b : birth s i ip0 ip s1 → birth s i ip0 ip (with_heap h b s1).
Proof. by intros [B1 B2 B3 B4]. Qed.

Lemma birth_at s i ip0 ip s1 : birth s i ip0 ip s1 → inodes s1 !! i = Some ip.
Proof. intros [[B1 _] B2 _ _]. rewrite B2. apply list_lookup_insert_eq. by apply lookup_lt_Some in B1. Qed.

Lemma birth_other s i ip0 ip s1 j : birth s i ip0 ip s1 → j ≠ i → inodes s1 !! j = inodes s !! j.
Proof. intros [_ B2 _ _] Hj. rewrite B2. by apply list_lookup_insert_ne. Qed.

Lemma birth_in_tree s i ip0 ip s1 dir dp : birth s i ip0 ip s1 → dents ip0 = dents ip → in_tree s dir dp → dir ≠ i ∧ in_tree s1 dir dp.
Proof.
  intros Hb Hde (Hd & Ht & Hatt). assert (dir ≠ i) as Hne by (intros ->; destruct (bi_free _ _ _ _ _ Hb); unfold T_DIR in Ht; congruence).
  split; [done|]. split; [by rewrite (birth_other _ _ _ _ _ _ Hb)|]. split; [done|]. destruct Hb as [[B1 B1'] B2 B3 B4].
  unfold attached in *. rewrite B3, B2, (links_insert _ _ ip0), Hde by done. destruct Hatt; [by left|right; lia].
Qed.

(** Dropping the new inode leaves the others as they were. *)
Lemma birth_dropped s i ip0 ip s1 : birth s i ip0 ip s1 → itype ip = 0 → untouched s s1.
Proof.
  intros [[B1 B1'] B2 B3 B4] Ht. split_and!; try done.
  - intros j jp Hj Hl. rewrite B2, list_lookup_insert_ne; [done|]. intros ->. congruence.
  - intros j jp Hj Hl. rewrite B2 in Hj. apply insert_Some in Hj as [(-> & -> & _)|[_ Hj]]; done.
Qed.

Lemma birth_added s i ip0 ip s1 dir name s' : birth s i ip0 ip s1 → dir ≠ i → added dir name i ip s1 s' → added dir name i ip s s'.
Proof.
  intros Hb Hne [A1 A2 A3 A4 A5]. split; try done.
  - intros dp Hdp. apply A2. by rewrite (birth_other _ _ _ _ _ _ Hb).
  - intros j Hj Hjd. rewrite A3 by done. by apply (birth_other _ _ _ _ _ _ Hb).
  - rewrite A4. by apply Hb.
  - rewrite A5. by apply Hb.
Qed.

Lemma ialloc_birth H s type : vfs_ok None H s → 1 ≤ type ≤ 6 →
  match ialloc type s with
  | (None, s') => s' = s
  | (Some i, s1) => ∃ ip0, let ip := fresh_inode i type (now_sec s) ip0 in
      birth s i ip0 ip s1 ∧ newborn H s1 i ip ∧ dents ip0 = []
  end.
Proof.
  intros Hok Ht. pose proof (ialloc_ok None H s type Hok Ht) as Ha. destruct (ialloc type s) as [[i|] s1]; [|by destruct Ha].
  destruct Ha as (ip & Hi & H0 & -> & Hok'). exists ip. split; [by split|]. split; [|].
  - split; try done; [apply Hok|by apply (set_inode_at _ _ _ ip)|]. cbn. lia.
  - apply (no_dir _ (vo_node _ _ _ Hok i ip Hi)). rewrite H0. done.
Qed.

(** Setting fields of a new inode other than its count and its place. *)
Lemma newborn_set H s i ip ip' : newborn H s i ip → node_ok ip' → dents ip' = dents ip → itype ip' = itype ip →
  iparent ip' = iparent ip → iname ip' = iname ip → ref ip' = ref ip → newborn H (set_inode i ip' s) i ip'.
Proof.
  intros [Hok HH Hi Hl Hr Hp] Hn Hd Ht Hpa Hm Href. split; [|done|by apply (set_inode_at _ _ _ ip)|congruence..].
  apply (vfs_ok_set None (plus H i) s Hok _ i ip); try done; [apply Hok|lia].
Qed.

Lemma hook_made H s dir dp name P i ip0 ip s1 :
  birth s i ip0 ip s1 → newborn H s1 i ip → dents ip0 = [] → P ip → in_tree s dir dp → valid_name name →
  find_dentry (dents dp) name = None →
  ∃ r s', hook dir name i s1 = Done (r, s') ∧ vfs_ok None H s' ∧ made dir name P s r s'.
Proof.
  intros Hb Hnb Hd0 HP Hin Hn Hf. destruct (newborn_alone _ _ _ _ Hnb) as (_ & _ & _ & Hde).
  destruct (birth_in_tree _ _ _ _ _ _ _ Hb (eq_trans Hd0 (eq_sym Hde)) Hin) as [Hne Hin1].
  destruct (hook_done H s1 dir dp name i ip Hnb Hin1 Hn Hf) as (r & s' & -> & Hok' & Hres). exists r, s'. split; [done|].
  split; [done|]. destruct Hres as [(-> & h & b & ->)|[-> Had]].
  - left. split; [done|]. eapply birth_dropped; [eapply birth_upd, birth_heap, Hb|]. apply evicted_fields.
  - right. split; [done|]. exists i, ip0, ip. split_and!; try done; try apply Hb. by apply (birth_added _ _ ip0 _ s1).
Qed.

Lemma drop_made H s dir name P i ip0 ip s1 : birth s i ip0 ip s1 → newborn H s1 i ip →
  ∃ s', fs_iput i s1 = Done s' ∧ vfs_ok None H s' ∧ made dir name P s (-1) s'.
Proof.
  intros Hb Hnb. destruct (newborn_drop _ _ _ _ Hnb) as [-> Hok']. eexists. split; [done|]. split; [done|].
  left. split; [done|]. eapply birth_dropped; [eapply birth_upd, Hb|]. apply evicted_fields.
Qed.

Lemma untouched_refl s : untouched s s.
Proof. by split_and!. Qed.

Lemma made_none dir name P s : made dir name P s (-1) s.
Proof. left. split; [done|apply untouched_refl]. Qed.
#[export] Hint Resolve untouched_refl made_none : vfs.

Lemma node_ok_ops b o ip : node_ok ip → itype ip = T_FIFO → node_ok (with_ops b (Some o) ip).
Proof. intros [N1 N2 N3 N4 N5 N6 N7 N8] Ht. split; try done; intros Hl; [cbn in Hl; unfold T_FIFO in Ht; lia|]. split; [by apply N3|]. by exists o. Qed.

Lemma node_ok_data d n ip : node_ok ip → 0 ≤ n → n ≤ Z.of_nat (length d) → bytes d → node_ok (with_data (Some d) n ip).
Proof. intros [N1 N2 N3 N4 N5 N6 N7 N8] Hn Hl Hb. by split. Qed.

Section Make.
Context (H : nat → Z) (s : fsys) (dir : nat) (dp : inode) (name : str).
Hypothesis Hok : vfs_ok None H s.
Hypothesis Hin : in_tree s dir dp.
Hypothesis Hn : valid_name name.

Lemma lookup_run : d_lookup dir name s = Done (find_dentry (dents dp) name).
Proof. destruct Hin as (Hd & Ht & _). by apply d_lookup_ok. Qed.

(** A directory: nothing happens when the name is taken, the inodes have run
    out, or there is no memory for the entry. *)
Lemma mkdir_ok : ∃ r s', ramfs_mkdir dir name s = Done (r, s') ∧ vfs_ok None H s' ∧
  made dir name (λ ip, itype ip = T_DIR ∧ dents ip = []) s r s' ∧ (r = 0 → find_dentry (dents dp) name = None).
Proof.
  unfold ramfs_mkdir. rewrite lookup_run. run. destruct (find_dentry (dents dp) name) eqn:Hf; [eexists _, _; split_and!; auto with vfs; done|].
  pose proof (ialloc_birth H s T_DIR Hok) as Ha. destruct (ialloc T_DIR s) as [[i|] s1]; cycle 1.
  { rewrite Ha by done. eexists _, _. split_and!; auto with vfs. }
  destruct Ha as (ip0 & Hb & Hnb & Hd0); [done|]. destruct (hook_made H s dir dp name (λ ip, itype ip = T_DIR ∧ dents ip = []) i ip0 _ s1 Hb Hnb) as (r & s' & -> & ? & ?); try done.
  by eexists _, _.
Qed.

(** A new inode once more fields of it are set. *)
Lemma newborn_upd s1 i ip0 ip f :
  birth s i ip0 ip s1 → newborn H s1 i ip → node_ok (f ip) → dents (f ip) = dents ip → itype (f ip) = itype ip →
  iparent (f ip) = iparent ip → iname (f ip) = iname ip → ref (f ip) = ref ip →
  upd_inode i f s1 = Done (set_inode i (f ip) s1) ∧ birth s i ip0 (f ip) (set_inode i (f ip) s1) ∧
  newborn H (set_inode i (f ip) s1) i (f ip).
Proof.
  intros Hb Hnb. intros. split; [by apply upd_inode_ok, Hnb|]. split; [by apply (birth_upd _ _ _ ip)|]. by apply newborn_set with ip.
Qed.

(** The end of [mknod] on a new inode of type [type]. *)
Lemma mknod_tail type dev i ip0 s1 :
  let ip := fresh_inode i type (now_sec s) ip0 in
  let P ip := itype ip = type ∧ rdev ip = dev in
  birth s i ip0 ip s1 → newborn H s1 i ip → dents ip0 = [] → find_dentry (dents dp) name = None →
  ∃ r s', (s ← upd_inode i (with_rdev dev) s1;
           if type =? T_FIFO then
             '(r, s) ← fifo_init_inode i s;
             if r <? 0 then s ← fs_iput i s; mret (-1, s) else hook dir name i s
           else hook dir name i s) = Done (r, s') ∧ vfs_ok None H s' ∧ made dir name P s r s'.
Proof.
  intros ip P Hb Hnb Hd0 Hf. pose proof (vo_node _ _ _ (nb_ok _ _ _ _ Hnb) i ip (nb_at _ _ _ _ Hnb)) as Hno.
  destruct (newborn_upd s1 i ip0 ip (with_rdev dev) Hb Hnb) as (-> & Hb2 & Hnb2); try done; [by destruct Hno; split|]. run.
  set (ip2 := with_rdev dev ip) in *. set (s2 := set_inode i ip2 s1) in *.
  destruct (Z.eqb_spec type T_FIFO) as [Hty|_]; [|by apply (hook_made H s dir dp name P i ip0 ip2 s2)].
  unfold fifo_init_inode, kmalloc_ok. assert (∀ h, birth s i ip0 ip2 (with_heap h false s2)) as Hb3 by (intros h; by apply birth_heap).
  assert (∀ h, newborn H (with_heap h false s2) i ip2) as Hnb3 by (intros h; by apply newborn_heap).
  assert (∀ h, ∃ r s', ('(r, s) ← (s ← upd_inode i (with_ops (Some (fifo_init ∅)) (Some pipe_iops)) (with_heap h false s2); mret (0, s));
     if r <? 0 then s ← fs_iput i s; mret (-1, s) else hook dir name i s) = Done (r, s') ∧ vfs_ok None H s' ∧ made dir name P s r s') as Hfin.
  { intros h. destruct (newborn_upd _ i ip0 ip2 (with_ops (Some (fifo_init ∅)) (Some pipe_iops)) (Hb3 h) (Hnb3 h)) as (-> & Hb4 & Hnb4); try done.
    - apply node_ok_ops; [by destruct Hno; split|done].
    - run. by apply (hook_made H s dir dp name P i ip0 (with_ops (Some (fifo_init ∅)) (Some pipe_iops) ip2)). }
  destruct (heap s2) as [|[] h]; cbn [negb]; [apply Hfin..|]. run.
  destruct (drop_made H s dir name P i ip0 ip2 _ (Hb3 h) (Hnb3 h)) as (s' & -> & Hok' & Hm). run. by eexists _, _.
Qed.

(** A device or a named pipe. *)
Lemma mknod_ok type dev : ∃ r s', ramfs_mknod dir name type dev s = Done (r, s') ∧ vfs_ok None H s' ∧
  made dir name (λ ip, itype ip = type ∧ rdev ip = dev) s r s' ∧
  (r = 0 → find_dentry (dents dp) name = None ∧ (type = T_CHAR ∨ type = T_BLK ∨ type = T_FIFO)).
Proof.
  unfold ramfs_mknod. destruct (_ && _ && _) eqn:Hty; [eexists _, _; split_and!; auto with vfs; done|].
  assert (type = T_CHAR ∨ type = T_BLK ∨ type = T_FIFO) as Htype by (unfold T_CHAR, T_BLK, T_FIFO in *; lia).
  assert (1 ≤ type ≤ 6) as Hr by (unfold T_CHAR, T_BLK, T_FIFO in *; lia).
  rewrite lookup_run. run. destruct (find_dentry (dents dp) name) eqn:Hf; [eexists _, _; split_and!; auto with vfs; done|].
  pose proof (ialloc_birth H s type Hok Hr) as Ha. destruct (ialloc type s) as [[i|] s1]; cycle 1.
  { rewrite Ha by done. eexists _, _. split_and!; auto with vfs. }
  destruct Ha as (ip0 & Hb & Hnb & Hd0). destruct (mknod_tail type dev i ip0 s1 Hb Hnb Hd0 Hf) as (r & s' & -> & ? & ?).
  by eexists _, _.
Qed.

(** A symbolic link: its data is the target, with its terminator. *)
Lemma symlink_ok target : cstring target → ∃ r s', ramfs_symlink dir name target s = Done (r, s') ∧ vfs_ok None H s' ∧
  made dir name (λ ip, itype ip = T_LNK ∧ data ip = Some (target ++ [0]) ∧ size ip = Z.of_nat (length target)) s r s' ∧
  (r = 0 → find_dentry (dents dp) name = None).
Proof.
  intros Htg. pose proof Hin as (Hd & Ht & _). unfold ramfs_symlink. rewrite (get_inode_ok s dir dp Hd). run. rewrite Ht.
  rewrite bool_decide_false by apply Hn. change (T_DIR =? T_DIR) with true. cbn [orb negb].
  rewrite lookup_run. run. destruct (find_dentry (dents dp) name) eqn:Hf; [eexists _, _; split_and!; auto with vfs; done|].
  pose proof (ialloc_birth H s T_LNK Hok) as Ha. destruct (ialloc T_LNK s) as [[i|] s1]; cycle 1.
  { rewrite Ha by done. eexists _, _. split_and!; auto with vfs. }
  destruct Ha as (ip0 & Hb & Hnb & Hd0); [done|]. set (ip := fresh_inode i T_LNK (now_sec s) ip0) in *.
  assert (∃ ok h, kmalloc_ok s1 = (ok, with_heap h false s1)) as (ok & h & ->)
    by (unfold kmalloc_ok; destruct (heap s1); by eexists _, _).
  apply (birth_heap _ _ _ _ _ h false) in Hb. apply (newborn_heap _ _ _ _ h false) in Hnb.
  destruct ok; cbn [negb]; cycle 1.
  { destruct (drop_made H s dir name (λ ip, itype ip = T_LNK ∧ data ip = Some (target ++ [0]) ∧ size ip = Z.of_nat (length target)) i ip0 ip _ Hb Hnb)
      as (s' & -> & Hok' & Hm). run. by eexists _, _. }
  destruct (newborn_upd _ i ip0 ip (with_data (Some (target ++ [0])) (Z.of_nat (length target))) Hb Hnb) as (-> & Hb4 & Hnb4); try done.
  - apply node_ok_data; [by apply fresh_inode_ok|lia|rewrite length_app; cbn; lia|].
    apply Forall_app. split; [|by repeat constructor]. eapply Forall_impl; [exact Htg|]. cbn. lia.
  - run. destruct (hook_made H s dir dp name (λ ip, itype ip = T_LNK ∧ data ip = Some (target ++ [0]) ∧ size ip = Z.of_nat (length target)) i ip0 _ _ Hb4 Hnb4)
      as (r & s' & -> & ? & ?); try done. by eexists _, _.
Qed.
End Make.

(** A file: the caller gets a reference to it. *)
Lemma create_ok H s dir dp name type : vfs_ok None H s → in_tree s dir dp → valid_name name → 1 ≤ type ≤ 6 →
  ∃ r s', ramfs_create dir name type s = Done (r, s') ∧
    match r with
    | None => vfs_ok None H s' ∧ untouched s s'
    | Some i => vfs_ok None (plus H i) s' ∧ find_dentry (dents dp) name = None ∧
        ∃ ip0, inodes s !! i = Some ip0 ∧ itype ip0 = 0 ∧ added dir name i (fresh_inode i type (now_sec s) ip0) s s'
    end.
Proof.
  intros Hok Hin Hn Ht. unfold ramfs_create. rewrite (lookup_run s dir dp name Hin). run.
  destruct (find_dentry (dents dp) name) eqn:Hf; [eexists _, _; split; [done|]; split; [done|apply untouched_refl]|].
  pose proof (ialloc_birth H s type Hok Ht) as Ha. destruct (ialloc type s) as [[i|] s1]; cycle 1.
  { rewrite Ha. eexists _, _. split; [done|]. split; [done|apply untouched_refl]. }
  destruct Ha as (ip0 & Hb & Hnb & Hd0). set (ip := fresh_inode i type (now_sec s) ip0) in *.
  destruct (birth_in_tree _ _ _ _ _ dir dp Hb Hd0 Hin) as [Hne Hin1].
  destruct (hook_new H s1 dir dp name i ip Hnb Hin1 Hn Hf) as (r & s2 & -> & Hres). run.
  destruct Hres as [(-> & h & b & ->)|(-> & Hok2 & Had & _)].
  - change (-1 <? 0) with true. cbn iota.
    destruct (drop_made H s dir name (λ _, True) i ip0 ip _ (birth_heap _ _ _ _ _ h b Hb) (newborn_heap _ _ _ _ h b Hnb)) as (s' & -> & Hok' & [[_ Hm]|[? _]]); [|done].
    run. by eexists _, _.
  - change (0 <? 0) with false. cbn iota. run. eexists _, _. split; [done|]. split; [done|]. split; [done|].
    exists ip0. destruct (bi_free _ _ _ _ _ Hb). split_and!; try done. by apply (birth_added _ _ ip0 _ s1).
Qed.

(** ** Taking an entry out *)

(** Inode [i] after the entry for it left directory [dir], whose entries are now [l]. *)
Definition emptier (dir : nat) (l : list dentry) (i : nat) (ip : inode) : inode :=
  if decide (dir = i) then with_dents l ip else ip.

Lemma emptier_fields dir l i ip : itype (emptier dir l i ip) = itype ip ∧ ref (emptier dir l i ip) = ref ip ∧
  i_op (emptier dir l i ip) = i_op ip ∧ iparent (emptier dir l i ip) = iparent ip ∧ iname (emptier dir l i ip) = iname ip.
Proof. unfold emptier. by case_decide. Qed.

Lemma d_unlink_run X H s dir dp name d ip :
  vfs_ok None H s → inodes s !! dir = Some dp → itype dp = T_DIR → valid_name name → find_dentry (dents dp) name = Some d →
  inodes s !! d_ip d = Some ip → (X = None ∨ X = Some (d_ip d)) → (X = Some (d_ip d) → ref ip ≠ 1) →
  (itype ip = T_DIR → X = Some (d_ip d) ∨ (dents ip = [] ∧ Some (d_ip d) ∉ cwds s)) →
  ∃ l1 l2, dents dp = l1 ++ d :: l2 ∧
    let s1 := set_inode dir (with_dents (l1 ++ l2) dp) s in
    let s2 := unref (d_ip d) (emptier dir (l1 ++ l2) (d_ip d) ip) s1 in
    d_unlink dir name s = Done (0, with_heap (heap s) true s2) ∧ vfs_ok X H s2 ∧
    (∀ j, links (inodes s1) j = links (inodes s) j - if decide (j = d_ip d) then 1 else 0).
Proof.
  intros Hok Hd Ht Hn Hf Hi HX Href Hdir. pose proof (no_dents _ (vo_node _ _ _ Hok dir dp Hd)) as Hg.
  pose proof (take_dentry_spec (dents dp) name Hg) as Htd. unfold d_unlink. rewrite (get_inode_ok s dir dp Hd). run.
  rewrite Ht, bool_decide_false by apply Hn. change (T_DIR =? T_DIR) with true. cbn [negb orb].
  destruct (take_dentry (dents dp) name) as [[e l]|]; [|rewrite Htd in Hf by apply Hn; done].
  destruct Htd as [Hfe (l1 & l2 & Hl & ->)]; [apply Hn|]. rewrite Hf in Hfe. injection Hfe as <-. exists l1, l2. split; [done|].
  set (s1 := set_inode dir (with_dents (l1 ++ l2) dp) s). destruct (unhook_ok X H s dir dp d l1 l2 ip Hok Hd Hl Hi HX Hdir) as [Hok1 Hlinks].
  assert (inodes s1 !! d_ip d = Some (emptier dir (l1 ++ l2) (d_ip d) ip)) as Hi1.
  { unfold emptier. case_decide as Hc; [|by unfold s1; rewrite set_inode_ne].
    rewrite <- Hc in *. rewrite Hd in Hi. injection Hi as ->. by apply (set_inode_at _ _ _ ip). }
  destruct (iput_ok X H s1 (d_ip d) _ Hok1 Hi1) as [Hrun Hok2].
  - apply Hok.
  - destruct (emptier_fields dir (l1 ++ l2) (d_ip d) ip) as (_ & -> & _). intros Hr ->. by apply Href.
  - rewrite Hrun. run. by split_and!.
Qed.

(** The entry [name] of [dir], for inode [i], is gone; [i] is free or lost a reference. *)
Record removed (dir : nat) (name : str) (i : nat) (s s' : fsys) : Prop := {
  rm_dir dp : inodes s !! dir = Some dp → ∃ l, inodes s' !! dir = Some (with_dents l dp) ∧
    ∀ e, e ∈ l ↔ e ∈ dents dp ∧ d_name e ≠ name;
  rm_node ip : inodes s !! i = Some ip → ∃ ip', inodes s' !! i = Some ip' ∧
    (itype ip' = 0 ∨ (itype ip' = itype ip ∧ data ip' = data ip ∧ size ip' = size ip ∧ i_op ip' = i_op ip ∧ iparent ip' = iparent ip ∧ dents ip' = dents ip ∧ i_pipe ip' = i_pipe ip));
  rm_leaf ip : inodes s !! i = Some ip → dents ip = [];
  rm_other j : j ≠ i → j ≠ dir → inodes s' !! j = inodes s !! j;
  rm_root : vfs_root s' = vfs_root s;
  rm_cwds : cwds s' = cwds s
}.

Lemma mid_elem l1 l2 d : good_dents (l1 ++ d :: l2) → ∀ e, e ∈ l1 ++ l2 ↔ e ∈ l1 ++ d :: l2 ∧ d_name e ≠ d_name d.
Proof.
  intros (_ & _ & Hne)%good_dents_mid e. split; [intros He; split; [|by apply Hne]; set_solver|].
  intros [He Hn]. rewrite elem_of_app, elem_of_cons in He. destruct He as [He|[->|He]]; set_solver.
Qed.

(** Taking out the entry of something that is not a directory with entries. *)
Lemma d_unlink_ok H s dir dp name d ip :
  vfs_ok None H s → inodes s !! dir = Some dp → itype dp = T_DIR → valid_name name → find_dentry (dents dp) name = Some d →
  inodes s !! d_ip d = Some ip → (itype ip = T_DIR → dents ip = [] ∧ Some (d_ip d) ∉ cwds s) →
  ∃ s', d_unlink dir name s = Done (0, s') ∧ vfs_ok None H s' ∧ removed dir name (d_ip d) s s' ∧ d_ip d ≠ dir ∧ spare s' = true ∧
    (∀ j, links (inodes s') j = links (inodes s) j - if decide (j = d_ip d) then 1 else 0).
Proof.
  intros Hok Hd Ht Hn Hf Hi Hdir. pose proof (no_dents _ (vo_node _ _ _ Hok dir dp Hd)) as Hg.
  pose proof (find_dentry_spec (dents dp) name Hg) as Hs. rewrite Hf in Hs. destruct Hs as [Hin Hnm]; [apply Hn|].
  assert (d_ip d ≠ dir) as Hne.
  { intros Heq. rewrite Heq, Hd in Hi. injection Hi as <-. destruct (Hdir Ht) as [He _]. rewrite He in Hin. by apply elem_of_nil in Hin. }
  assert (dents ip = []) as Hleaf.
  { destruct (decide (itype ip = T_DIR)) as [Htd|Htd]; [by apply Hdir|]. by apply (no_dir _ (vo_node _ _ _ Hok _ ip Hi)). }
  destruct (d_unlink_run None H s dir dp name d ip Hok Hd Ht Hn Hf Hi) as (l1 & l2 & Hl & Hrun & Hok' & Hlk); [by left|done|auto|].
  eexists. split; [exact Hrun|]. split; [by apply vfs_ok_heap|]. unfold emptier in *. rewrite decide_False in * by done.
  set (s1 := set_inode dir (with_dents (l1 ++ l2) dp) s) in *.
  assert (inodes s1 !! d_ip d = Some ip) as Hi1 by (unfold s1; by rewrite set_inode_ne).
  split; [|split; [done|split; [done|]]].
  - split; try done.
    + intros dp' Hdp'. rewrite Hd in Hdp'. injection Hdp' as <-. exists (l1 ++ l2). cbn [inodes with_heap unref].
      split; [unfold unref; rewrite set_inode_ne by done; by apply (set_inode_at _ _ _ dp)|].
      intros e. rewrite Hl, <- Hnm. apply mid_elem. by rewrite <- Hl.
    + intros ip' Hip'. rewrite Hi in Hip'. injection Hip' as <-. eexists. split; [by apply (set_inode_at _ _ _ ip)|].
      destruct (ref ip =? 1); [left; apply evicted_fields|by right].
    + intros ip' Hip'. congruence.
    + intros j Hj Hjd. cbn [inodes with_heap]. unfold unref, s1. by rewrite !set_inode_ne.
  - intros j. rewrite <- Hlk. cbn [inodes with_heap]. unfold unref. cbn [inodes set_inode with_inodes].
    rewrite (links_insert _ _ ip) by done. assert (dents (if ref ip =? 1 then evicted ip else with_ref (ref ip - 1) ip) = dents ip) as ->; [|lia].
    destruct (ref ip =? 1); [|done]. destruct (evicted_fields ip) as (_ & _ & _ & He & _).
    rewrite Hleaf. auto.
Qed.

(** What [rmdir] and [unlink] leave. *)
Definition unnamed (dir : nat) (name : str) (d : option dentry) (s : fsys) (r : Z) (s' : fsys) : Prop :=
  (r = -1 ∧ s' = s) ∨ (r = 0 ∧ ∃ e, d = Some e ∧ removed dir name (d_ip e) s s').

Lemma dentry_live H s dir dp name d : vfs_ok None H s → inodes s !! dir = Some dp → cstring name →
  find_dentry (dents dp) name = Some d → ∃ ip, inodes s !! d_ip d = Some ip ∧ itype ip ≠ 0 ∧ 0 < links (inodes s) (d_ip d) ∧ d ∈ dents dp.
Proof.
  intros Hok Hd Hn Hf. pose proof (find_dentry_spec (dents dp) name (no_dents _ (vo_node _ _ _ Hok dir dp Hd)) Hn) as Hs.
  rewrite Hf in Hs. destruct Hs as [Hs _]. destruct (vo_ent _ _ _ Hok dir dp d Hd Hs) as (ip & Hi & Hl & _). exists ip.
  split_and!; try done. apply links_pos. by exists dir, dp, d.
Qed.

(** Only an empty directory can go; the caller makes sure no process is in it. *)
Lemma rmdir_ok H s dir dp name : vfs_ok None H s → in_tree s dir dp → valid_name name →
  (∀ d, find_dentry (dents dp) name = Some d → Some (d_ip d) ∉ cwds s) →
  ∃ r s', ramfs_rmdir dir name s = Done (r, s') ∧ vfs_ok None H s' ∧ unnamed dir name (find_dentry (dents dp) name) s r s' ∧
    (r = 0 ↔ ∃ d ip, find_dentry (dents dp) name = Some d ∧ inodes s !! d_ip d = Some ip ∧ itype ip = T_DIR ∧ dents ip = []).
Proof.
  intros Hok Hin Hn Hcwd. pose proof Hin as (Hd & Ht & _). unfold ramfs_rmdir. rewrite (lookup_run s dir dp name Hin). run.
  destruct (find_dentry (dents dp) name) as [d|] eqn:Hf; cycle 1.
  { eexists _, _. split; [done|]. split; [done|]. split; [by left|]. by split; [|intros (? & ? & ? & _)]. }
  destruct (dentry_live H s dir dp name d Hok Hd) as (ip & Hi & Hl & _ & _); [apply Hn|done|].
  rewrite (get_inode_ok s _ ip Hi). run.
  destruct (negb (itype ip =? T_DIR) || negb (bool_decide (dents ip = []))) eqn:Hb.
  - eexists _, _. split; [done|]. split; [done|]. split; [by left|]. split; [done|]. intros (e & ep & He & Hep & Het & Hee). injection He as <-.
    rewrite Hi in Hep. injection Hep as <-. rewrite Het, bool_decide_true in Hb by done. done.
  - apply orb_false_iff in Hb as [Hb1 Hb2]. rewrite negb_false_iff in Hb1, Hb2. apply Z.eqb_eq in Hb1. apply bool_decide_eq_true in Hb2.
    destruct (d_unlink_ok H s dir dp name d ip Hok Hd Ht Hn Hf Hi) as (s' & -> & Hok' & Hrm & _); [auto|].
    eexists _, _. split; [done|]. split; [done|]. split; [right; by eauto|]. split; [|done]. by eexists _, _.
Qed.

Lemma removed_upd dir name i s s' ip ip1 : removed dir name i (set_inode i ip1 s) s' → inodes s !! i = Some ip → i ≠ dir →
  itype ip1 = itype ip → data ip1 = data ip → size ip1 = size ip → i_op ip1 = i_op ip → iparent ip1 = iparent ip → dents ip1 = dents ip →
  i_pipe ip1 = i_pipe ip → removed dir name i s s'.
Proof.
  intros [R1 R2 Rl R3 R4 R5] Hi Hne F1 F2 F3 F4 F5 F6 F9. split; try done.
  - intros dp Hdp. apply R1. by rewrite set_inode_ne.
  - intros ip' Hip'. rewrite Hi in Hip'. injection Hip' as <-. destruct (R2 ip1) as (ip2 & Hi2 & Hc); [by apply (set_inode_at _ _ _ ip)|].
    exists ip2. split; [done|]. rewrite <- F1, <- F2, <- F3, <- F4, <- F5, <- F6, <- F9. done.
  - intros ip' Hip'. rewrite Hi in Hip'. injection Hip' as <-. rewrite <- F6. apply Rl. by apply (set_inode_at _ _ _ ip).
  - intros j Hj Hjd. rewrite R3 by done. by apply set_inode_ne.
Qed.

(** [unlink] drops the link count and stamps the inode first. *)
Lemma ramfs_unlink_ok H s dir dp name : vfs_ok None H s → in_tree s dir dp → valid_name name →
  ∃ r s', ramfs_unlink dir name s = Done (r, s') ∧ vfs_ok None H s' ∧ unnamed dir name (find_dentry (dents dp) name) s r s' ∧
    (r = 0 ↔ ∃ d ip, find_dentry (dents dp) name = Some d ∧ inodes s !! d_ip d = Some ip ∧ itype ip ≠ T_DIR).
Proof.
  intros Hok Hin Hn. pose proof Hin as (Hd & Ht & _). unfold ramfs_unlink. rewrite (lookup_run s dir dp name Hin). run.
  destruct (find_dentry (dents dp) name) as [d|] eqn:Hf; cycle 1.
  { eexists _, _. split; [done|]. split; [done|]. split; [by left|]. by split; [|intros (? & ? & ? & _)]. }
  destruct (dentry_live H s dir dp name d Hok Hd) as (ip & Hi & Hl & _ & _); [apply Hn|done|].
  rewrite (get_inode_ok s _ ip Hi). run. destruct (Z.eqb_spec (itype ip) T_DIR) as [Htd|Htd].
  { eexists _, _. split; [done|]. split; [done|]. split; [by left|]. split; [done|]. intros (e & ep & He & Hep & Het). injection He as <-. congruence. }
  assert (d_ip d ≠ dir) as Hne by (intros E; rewrite E, Hd in Hi; injection Hi as <-; done).
  set (ip1 := if 0 <? nlink ip then with_stat (mode ip) (nlink ip - 1) (uid ip) (gid ip) ip else ip).
  assert ((if 0 <? nlink ip then upd_inode (d_ip d) (λ ip, with_stat (mode ip) (nlink ip - 1) (uid ip) (gid ip) ip) s else mret s) =
    Done (set_inode (d_ip d) ip1 s)) as ->.
  { unfold ip1. destruct (0 <? nlink ip); [by rewrite (upd_inode_ok s _ ip)|]. unfold set_inode, with_inodes. rewrite list_insert_id by done. by destruct s. }
  run. unfold touch. rewrite (upd_inode_ok _ _ ip1) by by apply (set_inode_at _ _ _ ip). run. rewrite set_inode_set.
  set (ip2 := fs_inode_touch true false (now_sec (set_inode (d_ip d) ip1 s)) ip1).
  assert (itype ip2 = itype ip ∧ data ip2 = data ip ∧ size ip2 = size ip ∧ i_op ip2 = i_op ip ∧ iparent ip2 = iparent ip ∧ dents ip2 = dents ip ∧
    iname ip2 = iname ip ∧ ref ip2 = ref ip ∧ i_pipe ip2 = i_pipe ip) as (F1 & F2 & F3 & F4 & F5 & F6 & F7 & F8 & F9) by (unfold ip2, ip1; by destruct (0 <? nlink ip)).
  pose proof (vo_node _ _ _ Hok _ ip Hi) as Hno.
  assert (vfs_ok None H (set_inode (d_ip d) ip2 s)) as Hok1.
  { apply (vfs_ok_set None H s Hok _ _ ip); try done; [|apply Hok|lia]. destruct Hno. split; by rewrite ?F1, ?F2, ?F3, ?F4, ?F5, ?F6, ?F7, ?F8. }
  destruct (d_unlink_ok H (set_inode (d_ip d) ip2 s) dir dp name d ip2) as (s' & -> & Hok' & Hrm & _); try done.
  - by rewrite set_inode_ne.
  - by apply (set_inode_at _ _ _ ip).
  - by rewrite F1.
  - eexists _, _. split; [done|]. split; [done|]. split; [right|split; [intros _; by exists d, ip|done]].
    split; [done|]. exists d. split; [done|]. by apply (removed_upd _ _ _ _ _ ip ip2).
Qed.

(** ** Another name for an inode *)

Record linked (dir : nat) (name : str) (i : nat) (s s' : fsys) : Prop := {
  li_dir dp : inodes s !! dir = Some dp → inodes s' !! dir = Some (with_dents (Dentry name i :: dents dp) dp);
  li_node ip : inodes s !! i = Some ip → ∃ ip', inodes s' !! i = Some ip' ∧ itype ip' = itype ip ∧ data ip' = data ip ∧
    size ip' = size ip ∧ i_op ip' = i_op ip ∧ i_pipe ip' = i_pipe ip ∧ dents ip' = dents ip ∧ nlink ip' = nlink ip + 1 ∧ iparent ip' = Some (default dir (iparent ip));
  li_other j : j ≠ i → j ≠ dir → inodes s' !! j = inodes s !! j;
  li_root : vfs_root s' = vfs_root s;
  li_cwds : cwds s' = cwds s
}.

Lemma d_add_taken s dir dp name i : inodes s !! dir = Some dp → itype dp = T_DIR → name ≠ [] → is_Some (find_dentry (dents dp) name) →
  d_add dir name i s = Done (-1, s).
Proof.
  intros Hd Ht Hn [d Hf]. unfold d_add. rewrite (get_inode_ok s dir dp Hd). run. rewrite Ht, bool_decide_false by done.
  change (T_DIR =? T_DIR) with true. cbn [negb orb]. rewrite (d_lookup_ok s dir dp name Hd Ht), Hf. by run.
Qed.

Lemma hardlink_ok H s dir dp name i ip : vfs_ok None H s → in_tree s dir dp → valid_name name → inodes s !! i = Some ip → itype ip ≠ 0 →
  ∃ r s', ramfs_hardlink dir name i s = Done (r, s') ∧ vfs_ok None H s' ∧
    ((r = -1 ∧ ∃ h b, s' = with_heap h b s) ∨
     (r = 0 ∧ itype ip ≠ T_DIR ∧ find_dentry (dents dp) name = None ∧ linked dir name i s s')).
Proof.
  intros Hok (Hd & Ht & Hatt) Hn Hi Hl. unfold ramfs_hardlink. rewrite (get_inode_ok s dir dp Hd). run.
  rewrite (get_inode_ok s i ip Hi). run. assert (s = with_heap (heap s) (spare s) s) as Hs by by destruct s.
  rewrite Ht. change (T_DIR =? T_DIR) with true. cbn [negb orb].
  destruct (Z.eqb_spec (itype ip) T_DIR) as [Htd|Htd]; [eexists _, _; split_and!; try done; left; by eauto|].
  destruct (find_dentry (dents dp) name) as [d|] eqn:Hf.
  { rewrite (d_add_taken s dir dp name i Hd Ht); [|apply Hn|by rewrite Hf]. run. change (-1 <? 0) with true. eexists _, _.
    split_and!; try done. left. by eauto. }
  destruct (d_add_run s dir dp name i ip Hd Ht Hn Hf Hi) as (r & s1 & -> & _ & Hres). run.
  destruct Hres as [(-> & h & b & ->)|(-> & Hm & Hlk)].
  { change (-1 <? 0) with true. eexists _, _. split; [done|]. split; [by apply vfs_ok_heap|]. left. by eauto. }
  change (0 <? 0) with false. cbn iota. assert (dir ≠ i) as Hne by (intros ->; congruence).
  assert (vfs_root s ≠ Some i) as Hroot.
  { intros Hr. destruct (vo_root _ _ _ Hok) as (r & rp & Hr' & Hrp & Hrt & _). rewrite Hr in Hr'. injection Hr' as <-. congruence. }
  pose proof (hook_ok None H s s1 dir dp name i ip Hok Hd Ht Hn Hf Hi Hl Hroot (or_introl Hatt) ltac:(done) Hm Hlk) as Hok1.
  destruct Hm as (Hm & Hmr & Hmc & _). pose proof (Hm i) as Hi1. rewrite Hi in Hi1. cbn in Hi1.
  destruct (hook_node_fields dir name i i ip) as (F1 & F2 & F3 & F4 & F5 & F6 & F7 & F8 & F9).
  set (ip1 := hook_node dir name i i ip) in *. rewrite (upd_inode_ok s1 i ip1) by done. run. unfold touch.
  rewrite (upd_inode_ok _ _ (with_stat (mode ip1) (nlink ip1 + 1) (uid ip1) (gid ip1) ip1)) by by apply (set_inode_at _ _ _ ip1). run. rewrite set_inode_set.
  set (ip2 := fs_inode_touch _ _ _ _). eexists _, _. split; [done|]. split.
  { apply (vfs_ok_set None H s1 Hok1 _ i ip1); try done; [|apply Hok|cbn; lia]. by destruct (vo_node _ _ _ Hok1 i ip1 Hi1). }
  right. split_and!; try done. rewrite decide_False in F2 by done. rewrite decide_True in F4 by done. split; try done.
  - intros dp' Hdp'. rewrite Hd in Hdp'. injection Hdp' as <-. rewrite set_inode_ne, Hm, Hd by done. cbn. unfold hook_node. cbn zeta.
    by rewrite (decide_True (P := dir = dir)), (decide_False (P := dir = i)) by done.
  - intros ip' Hip'. rewrite Hi in Hip'. injection Hip' as <-. exists ip2. split; [by apply (set_inode_at _ _ _ ip1)|].
    cbn. rewrite F1, F2, F4, F6, F7, F8, F9. split_and!; try done; unfold ip1, hook_node; cbn zeta; by rewrite decide_False, decide_True.
  - intros j Hj Hjd. rewrite set_inode_ne, Hm by done. destruct (inodes s !! j) as [jp|]; [|done]. cbn. unfold hook_node. by rewrite !decide_False.
Qed.
