(* ===== verification/RamfsRename.v ===== *)
(** [RamfsRename]: [ramfs_rename] keeps the invariant, and moves the entry. *)
From Stdlib Require Import ZArith Lia.
From stdpp Require Import numbers strings gmap list.
From S2P Require Import Prelude Vfs VfsInv RamfsSpec.
Open Scope Z_scope.

(** ** What a name leads to *)

Definition entry (s : fsys) (dir : nat) (name : str) : option nat :=
  jp ← inodes s !! dir; d_ip <$> find_dentry (dents jp) name.

Lemma entry_iff X H s dir name i : vfs_ok X H s → cstring name →
  entry s dir name = Some i ↔ ∃ jp, inodes s !! dir = Some jp ∧ Dentry name i ∈ dents jp.
Proof.
  intros Hok Hn. unfold entry. destruct (inodes s !! dir) as [jp|] eqn:Hj; cbn; [|split; [done|by intros (? & ? & _)]].
  pose proof (no_dents _ (vo_node _ _ _ Hok dir jp Hj)) as Hg. pose proof (find_dentry_spec (dents jp) name Hg Hn) as Hs. split.
  - destruct (find_dentry (dents jp) name) as [[m k]|]; [|done]. cbn in *. destruct Hs as [Hs <-]. intros [= <-]. by exists jp.
  - intros (jp' & [= <-] & Hin). by rewrite (find_dentry_some (dents jp) name (Dentry name i) Hg Hin).
Qed.

(** What an inode is, apart from its place, its counts and its times. *)
Definition same_file (ip ip' : inode) : Prop :=
  itype ip' = itype ip ∧ data ip' = data ip ∧ size ip' = size ip ∧ i_op ip' = i_op ip ∧ i_pipe ip' = i_pipe ip.

#[global] Instance same_file_refl : Reflexive same_file.
Proof. by intros ip. Qed.
#[global] Instance same_file_trans : Transitive same_file.
Proof. intros a b c (? & ? & ? & ? & ?) (? & ? & ? & ? & ?). unfold same_file. split_and!; congruence. Qed.

(** Every entry stays, but the old one, which has become the new one. *)
Record moved (old_dir : nat) (old : str) (new_dir : nat) (new : str) (i : nat) (s s' : fsys) : Prop := {
  mv_node j jp : inodes s !! j = Some jp → ∃ jp', inodes s' !! j = Some jp' ∧ same_file jp jp' ∧
    (∀ e, e ∈ dents jp' ↔ (e ∈ dents jp ∧ (j = old_dir → d_name e ≠ old)) ∨ (j = new_dir ∧ e = Dentry new i));
  mv_root : vfs_root s' = vfs_root s;
  mv_cwds : cwds s' = cwds s
}.

Lemma moved_upd old_dir old new_dir new i s s' ip ip' : moved old_dir old new_dir new i s s' → inodes s' !! i = Some ip →
  same_file ip ip' → dents ip' = dents ip → moved old_dir old new_dir new i s (set_inode i ip' s').
Proof.
  intros [M1 M2 M3] Hi Hs Hd. split; try done. intros j jp Hj. destruct (M1 j jp Hj) as (jp' & Hj' & Hs' & He).
  destruct (decide (j = i)) as [->|Hne]; [|exists jp'; by rewrite set_inode_ne].
  rewrite Hi in Hj'. injection Hj' as <-. exists ip'. rewrite (set_inode_at _ _ _ ip) by done. split; [done|]. split; [by etrans|by rewrite Hd].
Qed.

(** ** Within a directory *)

Lemma rename_dentry_mid l old new d : good_dents l → cstring old → find_dentry l old = Some d →
  ∃ l1 l2, l = l1 ++ d :: l2 ∧ rename_dentry l old new = l1 ++ Dentry (d_namecpy new) (d_ip d) :: l2.
Proof.
  intros [_ Hv] Hn. induction Hv as [|e l He Hv IH]; cbn [find_dentry rename_dentry]; [done|].
  destruct (d_namecmp (d_name e) old =? 0); [intros [= ->]; by exists [], l|]. intros Hf.
  destruct (IH Hf) as (l1 & l2 & -> & ->). by exists (e :: l1), l2.
Qed.

Lemma count_ip_mid i l1 l2 d d' : d_ip d' = d_ip d → count_ip i (l1 ++ d' :: l2) = count_ip i (l1 ++ d :: l2).
Proof. intros E. induction l1 as [|e l1 IH]; cbn [app]; rewrite !count_ip_cons; [by rewrite E|by rewrite IH]. Qed.

#[global] Instance good_dents_proper : Proper ((≡ₚ) ==> iff) good_dents.
Proof. intros l l' E. unfold good_dents. by rewrite E. Qed.

Lemma count_ip_drop j l1 l2 d : count_ip j (l1 ++ d :: l2) = count_ip j (l1 ++ l2) + if decide (j = d_ip d) then 1 else 0.
Proof. induction l1 as [|e l1 IH]; cbn [app]; rewrite !count_ip_cons; [repeat case_decide; lia || congruence|rewrite IH; lia]. Qed.

Lemma good_dents_rename l1 l2 d new i : good_dents (l1 ++ d :: l2) → valid_name new → find_dentry (l1 ++ d :: l2) new = None →
  good_dents (l1 ++ Dentry new i :: l2).
Proof.
  intros Hg Hn Hf. pose proof (find_dentry_spec _ new Hg) as Hs. rewrite Hf in Hs. destruct Hg as [Hnd Hv].
  rewrite <- Permutation_middle.
  destruct (good_dents_mid l1 d l2 (conj Hnd Hv)) as (Hg' & _). apply good_dents_cons; try done.
  destruct (find_dentry (l1 ++ l2) new) as [e|] eqn:He; [|done]. pose proof (find_dentry_spec (l1 ++ l2) new Hg') as Hs'.
  rewrite He in Hs'. destruct Hs' as [Hin Hnm]; [apply Hn|]. destruct (Hs ltac:(apply Hn) e); [set_solver|done].
Qed.

(** Directories are entered once, under their own name and in their own parent. *)
Lemma dir_entries H s i ip : vfs_ok None H s → inodes s !! i = Some ip → itype ip = T_DIR →
  ∀ j jp e, inodes s !! j = Some jp → e ∈ dents jp → d_ip e = i → iparent ip = Some j ∧ iname ip = d_name e.
Proof.
  intros Hok Hi Ht j jp e Hj He Hei. destruct (vo_ent _ _ _ Hok j jp e Hj He) as (cp & Hcp & _ & Hdir).
  rewrite Hei, Hi in Hcp. injection Hcp as <-. by apply Hdir.
Qed.

(** The root is in no directory. *)
Lemma root_entry H s j jp e : vfs_ok None H s → inodes s !! j = Some jp → e ∈ dents jp → vfs_root s ≠ Some (d_ip e).
Proof.
  intros Hok Hj He Hr. destruct (vo_root _ _ _ Hok) as (r & rp & Hr' & Hrp & Hrt & _ & Hrn). rewrite Hr in Hr'. injection Hr' as <-.
  destruct (dir_entries H s _ rp Hok Hrp Hrt j jp e Hj He eq_refl) as [_ E].
  destruct (no_dents _ (vo_node _ _ _ Hok j jp Hj)) as [_ Hv]. rewrite Forall_forall in Hv. destruct (Hv e He) as [Hne _]. congruence.
Qed.

(** The inodes after a rename within directory [dir]. *)
Definition relabel (dir : nat) (l : list dentry) (i : nat) (new : str) (j : nat) (jp : inode) : inode :=
  let jp := if decide (j = dir) then with_dents l jp else jp in
  if decide (j = i) then with_place (iparent jp) new jp else jp.

Lemma relabel_fields dir l i new j jp : same_file jp (relabel dir l i new j jp) ∧ ref (relabel dir l i new j jp) = ref jp ∧
  iparent (relabel dir l i new j jp) = iparent jp ∧ iname (relabel dir l i new j jp) = (if decide (j = i) then new else iname jp) ∧
  dents (relabel dir l i new j jp) = (if decide (j = dir) then l else dents jp).
Proof. unfold relabel. by repeat case_decide. Qed.

Section Relabel.
Context (H : nat → Z) (s s' : fsys) (dir : nat) (dp : inode) (d : dentry) (l1 l2 : list dentry) (new : str).
Let l := l1 ++ Dentry new (d_ip d) :: l2.
Hypothesis Hok : vfs_ok None H s.
Hypothesis Hd : inodes s !! dir = Some dp.
Hypothesis Hdt : itype dp = T_DIR.
Hypothesis Hl : dents dp = l1 ++ d :: l2.
Hypothesis Hmaps : maps (relabel dir l (d_ip d) new) s s'.

(** An entry after the rename: the renamed one, or one of the others. *)
Lemma relabel_entry j jp' e : inodes s' !! j = Some jp' → ∃ jp, inodes s !! j = Some jp ∧
  (e ∈ dents jp' ↔ (j = dir ∧ e = Dentry new (d_ip d)) ∨ (e ∈ dents jp ∧ (j = dir → e ≠ d))).
Proof.
  intros Hj. destruct (maps_back _ _ _ _ _ Hmaps Hj) as (jp & Hj0 & ->). exists jp. split; [done|].
  destruct (relabel_fields dir l (d_ip d) new j jp) as (_ & _ & _ & _ & ->). case_decide as Hc; [|tauto].
  subst j. rewrite Hd in Hj0. injection Hj0 as <-. pose proof (no_dents _ (vo_node _ _ _ Hok dir dp Hd)) as Hg. rewrite Hl in Hg |- *.
  apply good_dents_mid in Hg as (_ & Hnin & _). unfold l. rewrite !elem_of_app, !elem_of_cons. rewrite elem_of_app in Hnin.
  split; [|intros [[_ ->]|[[?|[->|?]] Hne]]; tauto].
  intros [He|[->|He]]; [right|by left|right]; (split; [tauto|]); intros _ ->; tauto.
Qed.

Lemma relabel_ent j jp' e : inodes s' !! j = Some jp' → e ∈ dents jp' → ∃ cp', inodes s' !! d_ip e = Some cp' ∧ itype cp' ≠ 0 ∧
  (itype cp' = T_DIR → iparent cp' = Some j ∧ iname cp' = d_name e).
Proof.
  intros Hj He. destruct (relabel_entry j jp' e Hj) as (jp & Hj0 & Hiff). apply Hiff in He. clear Hiff.
  assert (d ∈ dents dp) as Hdin by (rewrite Hl; set_solver).
  assert (∃ e0, e0 ∈ dents jp ∧ d_ip e0 = d_ip e) as (e0 & He0 & Hei).
  { destruct He as [[-> ->]|[He _]]; [|by exists e]. rewrite Hd in Hj0. injection Hj0 as <-. by exists d. }
  destruct (vo_ent _ _ _ Hok j jp e0 Hj0 He0) as (cp & Hcp & Hct & _). rewrite Hei in Hcp. pose proof Hmaps as (Hm & _).
  eexists. split; [by rewrite Hm, Hcp|]. destruct (relabel_fields dir l (d_ip d) new (d_ip e) cp) as ((-> & _) & _ & -> & -> & _).
  split; [done|]. intros Htd. pose proof (dir_entries H s (d_ip e) cp Hok Hcp Htd) as Hde.
  destruct (Hde j jp e0 Hj0 He0 Hei) as [Hp Hnm]. split; [done|]. destruct He as [[-> ->]|[He Hne]]; [by rewrite decide_True|].
  destruct (Hde j jp e Hj0 He eq_refl) as [_ Hnm']. rewrite decide_False; [done|]. intros Heq.
  destruct (Hde dir dp d Hd Hdin (eq_sym Heq)) as [Hp2 Hnm2]. assert (j = dir) as -> by congruence. apply (Hne eq_refl).
  rewrite Hd in Hj0. injection Hj0 as <-. apply (good_dents_inj (dents dp)); [apply (vo_node _ _ _ Hok dir dp Hd)|done|done|congruence].
Qed.

Lemma relabel_ok : valid_name new → find_dentry (dents dp) new = None → (∀ j, links (inodes s') j = links (inodes s) j) → vfs_ok None H s'.
Proof.
  intros Hn Hf Hlinks. pose proof Hok as [V1 V2 V3 V4 V5 V6 V7 V8]. pose proof Hmaps as (Hm & Hmr & Hmc & _).
  pose proof (λ j jp', maps_back _ _ _ j jp' Hmaps) as Hback. assert (d ∈ dents dp) as Hdin by (rewrite Hl; set_solver).
  assert (∀ j, attached s' j ↔ attached s j) as Hatt by (intros j; unfold attached; by rewrite Hmr, Hlinks).
  assert (good_dents l) as Hgl by (apply (good_dents_rename _ _ d); [rewrite <- Hl; by apply (V4 dir)|done|by rewrite <- Hl]).
  split.
  - by rewrite (maps_length _ _ _ Hmaps).
  - destruct V2 as (r & rp & Hr & Hrp & Hrt & Hpar & Hnm). exists r. eexists. rewrite Hmr. split; [done|]. split; [by rewrite Hm, Hrp|].
    destruct (relabel_fields dir l (d_ip d) new r rp) as ((-> & _) & _ & -> & -> & _). split_and!; try done.
    rewrite decide_False; [done|]. intros ->. by apply (root_entry H s dir dp d).
  - done.
  - intros j jp' (jp & Hj & ->)%Hback. destruct (relabel_fields dir l (d_ip d) new j jp) as ((F1 & F2 & F3 & F4 & _) & F5 & F6 & F7 & F8).
    destruct (V4 j jp Hj) as [N1 N2 N3 N4 N5 N6 N7 N8]. split; rewrite ?F1, ?F2, ?F3, ?F4, ?F5, ?F6; try done; rewrite F8; case_decide as Hc; try done.
    subst j. intros Hty. congruence.
  - intros j jp' (jp & Hj & ->)%Hback. destruct (relabel_fields dir l (d_ip d) new j jp) as (_ & -> & _). rewrite Hlinks. unfold held. rewrite Hmr, Hmc. by apply V5.
  - intros j jp' e Hj He. destruct (relabel_ent j jp' e Hj He) as (cp & ? & ? & ?). exists cp. split_and!; auto.
  - intros c Hc. rewrite Hmc in Hc. destruct (V7 c Hc) as (cp & Hcp & Hct & Ha). eexists. split; [by rewrite Hm, Hcp|].
    destruct (relabel_fields dir l (d_ip d) new c cp) as ((-> & _) & _). rewrite Hatt. auto.
  - intros j jp' (jp & Hj & ->)%Hback. destruct (relabel_fields dir l (d_ip d) new j jp) as ((-> & _) & _ & _ & _ & ->). rewrite Hatt.
    intros Htd _ Hna. assert (dents jp = []) as He by (apply (V8 j); auto). case_decide as Hc; [|done]. subst j.
    rewrite Hd in Hj. injection Hj as <-. rewrite He in Hdin. by apply elem_of_nil in Hdin.
Qed.
End Relabel.

(** ** The move *)

Section Move.
Context (H : nat → Z) (s : fsys) (old_dir : nat) (op : inode) (old : str) (new_dir : nat) (np : inode) (new : str) (d : dentry) (ip : inode).
Hypothesis Hok : vfs_ok None H s.
Hypothesis Hop : in_tree s old_dir op.
Hypothesis Hnp : in_tree s new_dir np.
Hypothesis Hold : valid_name old.
Hypothesis Hnew : valid_name new.
Hypothesis Hfo : find_dentry (dents op) old = Some d.
Hypothesis Hfn : find_dentry (dents np) new = None.
Hypothesis Hi : inodes s !! d_ip d = Some ip.

Lemma move_old : d ∈ dents op ∧ d_name d = old.
Proof.
  destruct Hop as (Hd & _ & _). pose proof (find_dentry_spec (dents op) old (no_dents _ (vo_node _ _ _ Hok _ op Hd))) as Hs.
  rewrite Hfo in Hs. apply Hs, Hold.
Qed.

Lemma move_same_ok : old_dir = new_dir → ∃ s', rename_move old_dir old new_dir new (d_ip d) s = Done (0, s') ∧ vfs_ok None H s' ∧
  moved old_dir old new_dir new (d_ip d) s s'.
Proof.
  intros <-. destruct move_old as [Hin Hnm]. destruct Hop as (Hd & Ht & _), Hnp as (Hd' & _). rewrite Hd in Hd'. injection Hd' as <-.
  pose proof (no_dents _ (vo_node _ _ _ Hok _ op Hd)) as Hg.
  destruct (rename_dentry_mid (dents op) old new d Hg) as (l1 & l2 & Hl & Hr); [apply Hold|done|]. rewrite namecpy_name in Hr by done.
  unfold rename_move. rewrite bool_decide_true by done. rewrite (upd_inode_ok s old_dir op) by done. run. rewrite Hr.
  set (l := l1 ++ Dentry new (d_ip d) :: l2) in *. set (s1 := set_inode old_dir (with_dents l op) s).
  assert (inodes s1 !! d_ip d = Some (if decide (d_ip d = old_dir) then with_dents l ip else ip)) as Hi1.
  { case_decide as Hc; [|unfold s1; by rewrite set_inode_ne]. rewrite Hc in *. rewrite Hd in Hi. injection Hi as ->. by apply (set_inode_at _ _ _ ip). }
  rewrite (upd_inode_ok s1 _ _ _ Hi1). run. rewrite namecpy_name by done. eexists. split; [done|].
  set (ip1 := if decide (d_ip d = old_dir) then with_dents l ip else ip) in *. set (s' := set_inode (d_ip d) _ s1).
  assert (maps (relabel old_dir l (d_ip d) new) s s') as Hm.
  { split; [|done]. intros j. unfold s'. destruct (decide (j = d_ip d)) as [->|Hj].
    - rewrite (set_inode_at _ _ _ _ Hi1), Hi. cbn. unfold relabel. cbn zeta. by rewrite (decide_True (P := d_ip d = d_ip d)).
    - rewrite set_inode_ne by done. unfold s1. destruct (decide (j = old_dir)) as [->|Hj2].
      + rewrite (set_inode_at _ _ _ op), Hd by done. cbn. unfold relabel. cbn zeta. by rewrite decide_False, decide_True.
      + rewrite set_inode_ne by done. destruct (inodes s !! j); [|done]. cbn. unfold relabel. cbn zeta. by rewrite !decide_False. }
  assert (∀ j, links (inodes s') j = links (inodes s) j) as Hlinks.
  { intros j. unfold s', s1. cbn [inodes set_inode with_inodes]. rewrite (links_insert _ _ ip1) by done.
    rewrite (links_insert _ _ op) by done. cbn [dents with_dents with_place]. rewrite Hl. unfold l. rewrite (count_ip_mid j l1 l2 d (Dentry new (d_ip d))) by done. lia. }
  split; [by apply (relabel_ok H s s' old_dir op d l1 l2 new)|]. split; [|apply Hm..].
  intros j jp Hj. pose proof (proj1 Hm j) as Hj'. rewrite Hj in Hj'. cbn in Hj'. eexists. split; [exact Hj'|].
  split; [apply relabel_fields|]. intros e.
  destruct (relabel_entry H s s' old_dir op d l1 l2 new Hok Hd Hl Hm j _ e Hj') as (jp0 & Hj0 & ->).
  rewrite Hj in Hj0. injection Hj0 as <-. split; [intros [?|[He Hne]]; [by right|left]|intros [[He Hne]|?]; [right|by left]];
    (split; [done|]); intros ->; rewrite Hd in Hj; injection Hj as <-.
  - intros E. apply Hne; [done|]. apply (good_dents_inj (dents op)); [done..|congruence].
  - intros ->. by apply Hne.
Qed.
(** Across directories: the directory on its way is exempt from the invariant. *)
Let i := d_ip d.
Let X : option nat := if decide (itype ip = T_DIR) then Some i else None.

Lemma move_live : itype ip ≠ 0 ∧ 1 ≤ ref ip ∧ vfs_root s ≠ Some i.
Proof.
  destruct move_old as [Hin _]. destruct Hop as (Hd & _). destruct (vo_ent _ _ _ Hok old_dir op d Hd Hin) as (ip' & Hi' & Hl & _).
  rewrite Hi in Hi'. injection Hi' as <-. destruct (no_live _ (vo_node _ _ _ Hok _ ip Hi) Hl) as [? _].
  split_and!; try done. by apply (root_entry H s old_dir op d).
Qed.

(** Taking the entry out of the old directory. *)
Lemma detach_ok : ∃ l1 l2 s1 s2, let l := l1 ++ l2 in dents op = l1 ++ d :: l2 ∧
  fs_idup i s = Done s1 ∧ d_unlink old_dir old s1 = Done (0, s2) ∧ spare s2 = true ∧ vfs_ok X (plus H i) s2 ∧
  inodes s2 = <[old_dir := with_dents l op]> (inodes s) ∧ vfs_root s2 = vfs_root s ∧ cwds s2 = cwds s ∧
  (∀ j, links (inodes s2) j = links (inodes s) j - if decide (j = i) then 1 else 0).
Proof.
  destruct move_live as (Hl & Hr & _). destruct Hop as (Hd & Ht & _). destruct (idup_ok None H s i ip Hok Hi Hl) as [Hdup Hok0].
  set (ip0 := with_ref (ref ip + 1) ip) in *. set (s0 := set_inode i ip0 s) in *.
  assert (∃ op0, inodes s0 !! old_dir = Some op0 ∧ itype op0 = itype op ∧ dents op0 = dents op ∧
    op0 = if decide (old_dir = i) then with_ref (ref op + 1) op else op) as (op0 & Hd0 & E1 & E2 & E3).
  { unfold s0. destruct (decide (old_dir = i)) as [E|Hne]; [|exists op; rewrite set_inode_ne by done; done].
    assert (op = ip) as -> by (rewrite E in Hd; unfold i in Hd; congruence). exists ip0. by rewrite E, (set_inode_at _ _ _ ip). }
  assert (inodes s0 !! i = Some ip0) as Hi0 by by apply (set_inode_at _ _ _ ip).
  destruct (d_unlink_run X (plus H i) s0 old_dir op0 old d ip0) as (l1 & l2 & Hdl & Hrun & Hok2 & Hlk); try done.
  - by rewrite E1.
  - by rewrite E2.
  - unfold X, i. destruct (decide (itype ip = T_DIR)); [right|left]; done.
  - cbn. lia.
  - unfold X. intros Htd. left. by rewrite decide_True.
  - exists l1, l2, s0. eexists. rewrite <- E2. split; [done|]. split; [done|]. split; [exact Hrun|]. split; [done|].
    split; [by apply vfs_ok_heap|]. cbn [inodes with_heap vfs_root cwds]. set (s1 := set_inode old_dir (with_dents (l1 ++ l2) op0) s0) in *.
    set (ip1 := emptier old_dir (l1 ++ l2) (d_ip d) ip0) in *.
    destruct (emptier_fields old_dir (l1 ++ l2) (d_ip d) ip0) as (_ & Hr1 & _).
    assert (inodes (unref i ip1 s1) = <[old_dir := with_dents (l1 ++ l2) op]> (inodes s)) as Hnodes.
    { rewrite unref_more by (unfold ip1; rewrite Hr1; cbn; lia). unfold s1, s0. cbn [inodes set_inode with_inodes].
      unfold ip1, emptier in *. fold i. destruct (decide (old_dir = i)) as [Heq|Hne].
      - rewrite Heq in *. assert (op = ip) as -> by (unfold i in Hd; congruence). rewrite !list_insert_insert_eq. f_equal. destruct ip. unfold with_ref, with_dents. cbn. f_equal. lia.
      - rewrite list_insert_insert_ne by done. rewrite list_insert_insert_eq. subst op0.
        rewrite (list_insert_id _ i); [done|].
        unfold i. rewrite Hi. f_equal. unfold ip0. destruct ip. unfold with_ref. cbn. f_equal. lia. }
    split; [exact Hnodes|]. split; [done|]. split; [done|]. intros j. rewrite (Hnodes : inodes (unref (d_ip d) _ s1) = _), (links_insert _ _ op) by done. cbn [dents with_dents].
    rewrite <- E2, Hdl. rewrite (count_ip_drop j l1 l2 d). fold i. lia.
Qed.
(** Putting it into the new one. *)
Lemma attach_ok l s2 : old_dir ≠ new_dir →
  spare s2 = true → vfs_ok X (plus H i) s2 → inodes s2 = <[old_dir := with_dents l op]> (inodes s) → vfs_root s2 = vfs_root s →
  (∀ j, links (inodes s2) j = links (inodes s) j - if decide (j = i) then 1 else 0) →
  ∃ s3, d_add new_dir new i s2 = Done (0, s3) ∧ vfs_ok X (plus H i) s3 ∧ maps (hook_node new_dir new i) s2 s3.
Proof.
  intros Hne Hsp Hok2 Hin2 Hr2 Hlk2. destruct move_live as (Hl & _ & Hroot). destruct Hop as (Hd & _), Hnp as (Hn & Hnt & Hna).
  assert (inodes s2 !! new_dir = Some np) as Hn2 by (by rewrite Hin2, list_lookup_insert_ne).
  assert (∃ ip2, inodes s2 !! i = Some ip2 ∧ itype ip2 = itype ip) as (ip2 & Hi2 & Ht2).
  { rewrite Hin2. destruct (decide (old_dir = i)) as [E|E].
    - rewrite <- E, (list_lookup_insert_eq _ old_dir) by by eapply lookup_lt_Some. eexists. split; [done|]. unfold i in E. cbn. congruence.
    - rewrite list_lookup_insert_ne by done. by exists ip. }
  destruct (d_add_run s2 new_dir np new i ip2 Hn2 Hnt Hnew Hfn Hi2) as (r & s3 & Hrun & Hr0 & Hres).
  rewrite (Hr0 Hsp) in *. destruct Hres as [[? _]|(_ & Hm & Hlk3)]; [done|]. exists s3. split; [done|]. split; [|done].
  apply (hook_ok X _ s2 s3 new_dir np new i ip2); try done; rewrite ?Ht2, ?Hr2; try done.
  - destruct (decide (new_dir = i)) as [E|E].
    + right. unfold X. rewrite decide_True; [by rewrite E|]. unfold i in E. congruence.
    + left. unfold attached in *. rewrite Hr2, Hlk2, decide_False by done. destruct Hna; [by left|right; lia].
  - intros Htd. left. unfold X. by rewrite decide_True.
Qed.

(** No other entry leads to a directory that was taken out. *)
Lemma attach_only s2 s3 : vfs_ok X (plus H i) s2 → maps (hook_node new_dir new i) s2 s3 → links (inodes s2) i = 0 →
  ∀ j jp e, inodes s3 !! j = Some jp → e ∈ dents jp → d_ip e = i → j = new_dir ∧ d_name e = new.
Proof.
  intros Hok2 Hm Hl0 j jp e Hj He Hei. destruct (maps_back _ _ _ _ _ Hm Hj) as (jp2 & Hj2 & ->).
  destruct (hook_node_fields new_dir new i j jp2) as (_ & F & _). rewrite F in He.
  assert (e ∈ dents jp2 → False) as Hno.
  { intros He2. assert (0 < links (inodes s2) i); [|lia]. apply links_pos. by exists j, jp2, e. }
  case_decide as Hc; [|done]. apply elem_of_cons in He as [->|He]; [done|by destruct Hno].
Qed.

(** The node [j] after the move, up to its place and counts. *)
Lemma attach_moved l1 l2 s2 s3 : old_dir ≠ new_dir → dents op = l1 ++ d :: l2 →
  inodes s2 = <[old_dir := with_dents (l1 ++ l2) op]> (inodes s) → vfs_root s2 = vfs_root s → cwds s2 = cwds s →
  maps (hook_node new_dir new i) s2 s3 → moved old_dir old new_dir new i s s3.
Proof.
  intros Hne Hdl Hin2 Hr2 Hc2 (Hm & Hmr & Hmc & _). destruct move_old as [Hin Hnm]. destruct Hop as (Hd & _).
  pose proof (no_dents _ (vo_node _ _ _ Hok _ op Hd)) as Hg. rewrite Hdl in Hg.
  split; [|congruence..]. intros j jp Hj.
  assert (∃ jp2, inodes s2 !! j = Some jp2 ∧ same_file jp jp2 ∧ ∀ e, e ∈ dents jp2 ↔ e ∈ dents jp ∧ (j = old_dir → d_name e ≠ old)) as (jp2 & Hj2 & Hs & He).
  { rewrite Hin2. destruct (decide (j = old_dir)) as [->|E].
    - rewrite list_lookup_insert_eq by by eapply lookup_lt_Some. eexists. split; [done|]. rewrite Hd in Hj. injection Hj as <-. split; [done|].
      intros e. cbn. rewrite Hdl, (mid_elem l1 l2 d Hg e), Hnm. naive_solver.
    - rewrite list_lookup_insert_ne by done. exists jp. split_and!; try done. naive_solver. }
  eexists. rewrite Hm, Hj2. split; [done|]. destruct (hook_node_fields new_dir new i j jp2) as (F1 & F2 & _ & _ & _ & F6 & F7 & F8 & F9).
  destruct Hs as (S1 & S2 & S3 & S4 & S5). split; [unfold same_file; split_and!; congruence|]. intros e. rewrite F2.
  case_decide as Hc; [rewrite elem_of_cons|]; rewrite He; naive_solver.
Qed.

(** A directory gets its new parent. *)
Lemma settle_move l s2 s3 ip3 : old_dir ≠ new_dir → itype ip = T_DIR → vfs_ok X (plus H i) s2 →
  inodes s2 = <[old_dir := with_dents l op]> (inodes s) → vfs_root s2 = vfs_root s →
  (∀ j, links (inodes s2) j = links (inodes s) j - if decide (j = i) then 1 else 0) →
  vfs_ok X (plus H i) s3 → maps (hook_node new_dir new i) s2 s3 → inodes s3 !! i = Some ip3 → itype ip3 = itype ip →
  vfs_ok None (plus H i) (set_inode i (with_place (Some new_dir) (iname ip3) ip3) s3).
Proof.
  intros Hne Htd Hok2 Hin2 Hr2 Hlk2 Hok3 Hm3 Hi3 Ht3. pose proof Hm3 as (Hmj & Hmr & _). destruct move_live as (_ & _ & Hroot).
  assert (links (inodes s2) i = 0) as Hl0.
  { rewrite Hlk2, decide_True by done. pose proof (dir_links H s i ip Hok Hi Htd). destruct move_old as [Hin _]. destruct Hop as (Hd & _).
    assert (0 < links (inodes s) i) by (apply links_pos; by exists old_dir, op, d). lia. }
  destruct Hnp as (Hn & _). assert (inodes s2 !! new_dir = Some np) as Hn2 by (by rewrite Hin2, list_lookup_insert_ne).
  assert (iname ip3 = new) as Hnm3.
  { destruct (maps_back _ _ _ _ _ Hm3 Hi3) as (ip2 & _ & ->).
    destruct (hook_node_fields new_dir new i i ip2) as (_ & _ & _ & _ & -> & _). by rewrite decide_True. }
  assert (X = Some i) as HX by (unfold X; by rewrite decide_True). rewrite HX in Hok3.
  apply (settle_ok _ s3 i ip3 new_dir (hook_node new_dir new i new_dir np)); try done; try congruence.
  - by rewrite Hmj, Hn2.
  - destruct (hook_node_fields new_dir new i new_dir np) as (_ & -> & _). rewrite decide_True, Hnm3 by done. by left.
  - rewrite Hnm3. by apply (attach_only s2 s3).
Qed.

Lemma move_cross_ok : old_dir ≠ new_dir → ∃ s', rename_move old_dir old new_dir new i s = Done (0, s') ∧ vfs_ok None H s' ∧
  moved old_dir old new_dir new i s s'.
Proof.
  intros Hne. unfold rename_move. rewrite bool_decide_false by done. destruct move_live as (Hl & Hr & Hroot).
  destruct detach_ok as (l1 & l2 & s1 & s2 & Hdl & -> & Hun & Hsp & Hok2 & Hin2 & Hr2 & Hc2 & Hlk2). run. rewrite Hun. run.
  change (0 <? 0) with false. cbn iota.
  destruct (attach_ok _ s2 Hne Hsp Hok2 Hin2 Hr2 Hlk2) as (s3 & -> & Hok3 & Hm3). run. change (0 <? 0) with false. cbn iota.
  pose proof (attach_moved l1 l2 s2 s3 Hne Hdl Hin2 Hr2 Hc2 Hm3) as Hmv. destruct (mv_node _ _ _ _ _ _ _ Hmv i ip Hi) as (ip3 & Hi3 & (Ht3 & _) & _).
  rewrite (get_inode_ok s3 i ip3 Hi3). run.
  assert (∃ ip4, same_file ip3 ip4 ∧ dents ip4 = dents ip3 ∧ ref ip4 = ref ip3 ∧
    (if itype ip3 =? T_DIR then upd_inode i (λ ip, with_place (Some new_dir) (iname ip) ip) s3 else mret s3) = Done (set_inode i ip4 s3) ∧
    vfs_ok None (plus H i) (set_inode i ip4 s3)) as (ip4 & Hs4 & Hd4 & Hr4 & -> & Hok4).
  { rewrite Ht3. destruct (Z.eqb_spec (itype ip) T_DIR) as [Htd|Htd].
    - rewrite (upd_inode_ok s3 i ip3) by done. eexists. split_and!; [..|reflexivity|]; try done.
      by apply (settle_move (l1 ++ l2) s2 s3 ip3).
    - unfold X in Hok3. rewrite decide_False in Hok3 by done. exists ip3. unfold set_inode, with_inodes. rewrite list_insert_id by done. destruct s3. split_and!; done. }
  run. assert (inodes (set_inode i ip4 s3) !! i = Some ip4) as Hi4 by by apply (set_inode_at _ _ _ ip3).
  destruct (iput_ok None H _ i ip4 Hok4 Hi4) as [-> Hok5]; [apply Hok|done|]. run. eexists. split; [done|]. split; [done|].
  assert (ref ip4 ≠ 1) as Hr1.
  { intros Hr1. destruct (last_ref None H _ i ip4 Hok4 Hi4 Hr1) as (Hz & _); [apply Hok|]. assert (0 < links (inodes (set_inode i ip4 s3)) i); [|lia].
    destruct Hnp as (Hn & _). destruct (mv_node _ _ _ _ _ _ _ Hmv new_dir np Hn) as (np3 & Hn3 & _ & He).
    cbn. rewrite (links_insert _ _ ip3), Hd4 by done. assert (0 < links (inodes s3) i); [|lia]. apply links_pos.
    exists new_dir, np3, (Dentry new i). split_and!; try done. apply He. by right. }
  rewrite unref_more, set_inode_set by done. by apply (moved_upd _ _ _ _ _ _ _ ip3).
Qed.
End Move.

(** ** The whole rename *)

Definition at_name (dir : nat) (name : str) (j : nat) (n : str) : Prop := j = dir ∧ n = name.
#[global] Instance at_name_dec dir name j n : Decision (at_name dir name j n).
Proof. unfold at_name. apply _. Defined.

Section Entries.
Context (H H' : nat → Z) (s s' : fsys).
Hypothesis Hok : vfs_ok None H s.
Hypothesis Hok' : vfs_ok None H' s'.

(** Entries agree when they agree on membership. *)
Lemma entry_ext j n v : cstring n → (∀ k, (∃ jp, inodes s' !! j = Some jp ∧ Dentry n k ∈ dents jp) ↔ v = Some k) → entry s' j n = v.
Proof. intros Hn Hk. apply option_eq. intros k. by rewrite (entry_iff None H'), Hk. Qed.

Lemma entry_removed dir name i j n : cstring n → removed dir name i s s' → i ≠ dir →
  entry s' j n = if decide (at_name dir name j n) then None else entry s j n.
Proof.
  intros Hn [R1 R2 Rl R3 R4 R5] Hne. apply (entry_ext j n); [done|]. intros k.
  assert ((∃ jp, inodes s' !! j = Some jp ∧ Dentry n k ∈ dents jp) ↔ (∃ jp, inodes s !! j = Some jp ∧ Dentry n k ∈ dents jp ∧ ¬ at_name dir name j n)) as ->.
  { unfold at_name. destruct (decide (j = dir)) as [->|Hjd]; [|destruct (decide (j = i)) as [->|Hji]].
    - destruct (inodes s !! dir) as [dp|] eqn:Hd.
      + destruct (R1 dp eq_refl) as (l & -> & Hl). split; [intros (jp & [= <-] & Hin)|intros (jp & [= <-] & Hin)]; eexists; (split; [done|]).
        * apply Hl in Hin as [? ?]. naive_solver.
        * apply Hl. naive_solver.
      + assert (inodes s' !! dir = None) as ->; [|naive_solver]. apply lookup_ge_None_2. rewrite (vo_len _ _ _ Hok'), <- (vo_len _ _ _ Hok). by apply lookup_ge_None_1.
    - split; intros (jp & Hj & Hin).
      + destruct (inodes s !! i) as [ip|] eqn:Hi.
        * destruct (R2 ip eq_refl) as (ip' & Hi' & Hc). rewrite Hj in Hi'. injection Hi' as <-.
          assert (dents jp = []) as E; [|rewrite E in Hin; by apply elem_of_nil in Hin].
          destruct Hc as [Hc|(_ & _ & _ & _ & _ & -> & _)]; [|by apply Rl]. apply (no_dir _ (vo_node _ _ _ Hok' i jp Hj)). by rewrite Hc.
        * apply lookup_lt_Some in Hj. apply lookup_ge_None_1 in Hi. rewrite (vo_len _ _ _ Hok'), <- (vo_len _ _ _ Hok) in Hj. lia.
      + rewrite (Rl jp Hj) in Hin. destruct Hin as [Hin _]. by apply elem_of_nil in Hin.
    - rewrite R3 by done. naive_solver. }
  case_decide as Hc; [naive_solver|]. rewrite (entry_iff None H) by done. naive_solver.
Qed.

Lemma entry_moved old_dir old new_dir new i j n : cstring n → moved old_dir old new_dir new i s s' → is_Some (inodes s !! new_dir) →
  entry s new_dir new = None →
  entry s' j n = if decide (at_name new_dir new j n) then Some i else if decide (at_name old_dir old j n) then None else entry s j n.
Proof.
  intros Hn [M1 M2 M3] [np Hnp] Hnone. apply (entry_ext j n); [done|]. intros k. destruct (inodes s !! j) as [jp|] eqn:Hj.
  - destruct (M1 j jp Hj) as (jp' & -> & _ & He). split.
    + intros (? & [= <-] & Hin). apply He in Hin. repeat case_decide; unfold at_name in *; [|naive_solver|].
      * destruct Hin as [[Hin _]|[_ [= _ ->]]]; [|done]. destruct H0 as [-> ->]. 
        assert (entry s new_dir new = Some k) by (apply (entry_iff None H); [done..|]; by exists jp). congruence.
      * destruct Hin as [[Hin _]|[-> [= -> _]]]; [|naive_solver]. apply (entry_iff None H); [done..|]. by exists jp.
    + intros Hv. exists jp'. split; [done|]. apply He. repeat case_decide; unfold at_name in *; [naive_solver..|].
      apply (entry_iff None H) in Hv; [|done..]. destruct Hv as (? & E & Hin). rewrite Hj in E. injection E as <-. left. naive_solver.
  - assert (inodes s' !! j = None) as ->.
    { apply lookup_ge_None_2. rewrite (vo_len _ _ _ Hok'), <- (vo_len _ _ _ Hok). by apply lookup_ge_None_1. }
    assert (entry s j n = None) as -> by (unfold entry; by rewrite Hj). unfold at_name. repeat case_decide; naive_solver.
Qed.
End Entries.

(** The new name leads to what the old one led to, the old name is gone, and
    every inode is as it was but the one that was replaced, which may be free now. *)
Record renamed (old_dir : nat) (old : str) (new_dir : nat) (new : str) (i : nat) (s s' : fsys) : Prop := {
  rn_entry j n : cstring n → entry s' j n =
    if decide (at_name new_dir new j n) then Some i else if decide (at_name old_dir old j n) then None else entry s j n;
  rn_node j jp : inodes s !! j = Some jp → ∃ jp', inodes s' !! j = Some jp' ∧
    (same_file jp jp' ∨ (itype jp' = 0 ∧ entry s new_dir new = Some j));
  rn_dirs : entry s new_dir new ≠ Some old_dir ∧ entry s new_dir new ≠ Some new_dir;
  rn_root : vfs_root s' = vfs_root s;
  rn_cwds : cwds s' = cwds s
}.

Lemma find_entry s dir dp name : inodes s !! dir = Some dp → entry s dir name = d_ip <$> find_dentry (dents dp) name.
Proof. intros Hd. unfold entry. by rewrite Hd. Qed.

Section Rename.
Context (H : nat → Z) (s : fsys) (old_dir : nat) (op : inode) (old : str) (new_dir : nat) (np : inode) (new : str).
Hypothesis Hok : vfs_ok None H s.
Hypothesis Hop : in_tree s old_dir op.
Hypothesis Hnp : in_tree s new_dir np.
Hypothesis Hold : valid_name old.
Hypothesis Hnew : valid_name new.

(** To a name that is free. *)
Lemma rename_free_ok d : find_dentry (dents op) old = Some d → find_dentry (dents np) new = None →
  ∃ s', rename_move old_dir old new_dir new (d_ip d) s = Done (0, s') ∧ vfs_ok None H s' ∧ moved old_dir old new_dir new (d_ip d) s s' ∧
    renamed old_dir old new_dir new (d_ip d) s s'.
Proof.
  intros Hfo Hfn. destruct (dentry_live H s old_dir op old d Hok) as (ip & Hi & _); [apply Hop|apply Hold|done|].
  assert (∃ s', rename_move old_dir old new_dir new (d_ip d) s = Done (0, s') ∧ vfs_ok None H s' ∧
    moved old_dir old new_dir new (d_ip d) s s') as (s' & Hrun & Hok' & Hm).
  { destruct (decide (old_dir = new_dir)) as [E|E]; [by apply (move_same_ok H s old_dir op old new_dir np new d ip)|].
    by apply (move_cross_ok H s old_dir op old new_dir np new d ip). }
  exists s'. split_and!; try done. destruct Hnp as (Hn & _). split; [..|apply Hm|apply Hm].
  - intros j n Hcn. apply (entry_moved H H s s'); try done. by rewrite (find_entry s new_dir np), Hfn.
  - intros j jp Hj. destruct (mv_node _ _ _ _ _ _ _ Hm j jp Hj) as (jp' & Hj' & Hs & _). exists jp'. split; [done|]. by left.
  - by rewrite (find_entry s new_dir np), Hfn.
Qed.
End Rename.

(** Over an existing name: the directories are still there once it is gone. *)
Lemma removed_in_tree H s s' dir name i e ep : vfs_ok None H s → removed dir name i s s' → i ≠ dir → e ≠ i →
  (∀ j, links (inodes s') j = links (inodes s) j - if decide (j = i) then 1 else 0) → in_tree s e ep →
  ∃ ep', in_tree s' e ep' ∧ (∀ x, x ∈ dents ep' ↔ x ∈ dents ep ∧ (e = dir → d_name x ≠ name)).
Proof.
  intros Hok [R1 R2 Rl R3 R4 R5] Hne Hei Hlk (He & Het & Hatt).
  assert (attached s' e) as Hatt'.
  { unfold attached in *. rewrite R4, Hlk, decide_False by done. destruct Hatt; [by left|right; lia]. }
  destruct (decide (e = dir)) as [->|Hed].
  - destruct (R1 ep He) as (l & Hl & Hx). exists (with_dents l ep). split; [done|]. intros x. cbn. rewrite Hx. naive_solver.
  - exists ep. split; [split; [by rewrite R3|done]|]. naive_solver.
Qed.

Lemma find_dentry_ext l l' n : good_dents l → good_dents l' → cstring n → (∀ x, d_name x = n → x ∈ l' ↔ x ∈ l) → find_dentry l' n = find_dentry l n.
Proof.
  intros Hg Hg' Hn Hx. pose proof (find_dentry_spec l n Hg Hn) as Hs. destruct (find_dentry l n) as [x|].
  - destruct Hs as [Hin Hnm]. apply find_dentry_some; try done. by apply Hx.
  - pose proof (find_dentry_spec l' n Hg' Hn) as Hs'. destruct (find_dentry l' n) as [x|]; [|done]. destruct Hs' as [Hin Hnm].
    by destruct (Hs x); [apply Hx|].
Qed.

Lemma find_dentry_gone l n : good_dents l → cstring n → (∀ x, x ∈ l → d_name x ≠ n) → find_dentry l n = None.
Proof.
  intros Hg Hn Hx. pose proof (find_dentry_spec l n Hg Hn) as Hs. destruct (find_dentry l n) as [x|]; [|done].
  destruct Hs as [Hin Hnm]. by destruct (Hx x Hin).
Qed.

Section RenameOver.
Context (H : nat → Z) (s : fsys) (old_dir : nat) (op : inode) (old : str) (new_dir : nat) (np : inode) (new : str).
Hypothesis Hok : vfs_ok None H s.
Hypothesis Hop : in_tree s old_dir op.
Hypothesis Hnp : in_tree s new_dir np.
Hypothesis Hold : valid_name old.
Hypothesis Hnew : valid_name new.

Lemma rename_over_ok d nd tp : find_dentry (dents op) old = Some d → find_dentry (dents np) new = Some nd → d_ip nd ≠ d_ip d →
  (old_dir = new_dir → old ≠ new) → inodes s !! d_ip nd = Some tp → (itype tp = T_DIR → dents tp = [] ∧ Some (d_ip nd) ∉ cwds s) →
  ∃ s1 s', d_unlink new_dir new s = Done (0, s1) ∧ rename_move old_dir old new_dir new (d_ip d) s1 = Done (0, s') ∧ vfs_ok None H s' ∧
    renamed old_dir old new_dir new (d_ip d) s s'.
Proof.
  intros Hfo Hfn Hdi Hnames Htp Hdir. pose proof Hnp as (Hn & Hnt & _). pose proof Hop as (Ho & _ & _).
  destruct (dentry_live H s old_dir op old d Hok Ho ltac:(apply Hold) Hfo) as (ip & Hi & _ & _ & Hdin).
  destruct (d_unlink_ok H s new_dir np new nd tp Hok Hn Hnt Hnew Hfn Htp Hdir) as (s1 & Hrun & Hok1 & Hrm & Hne & _ & Hlk).
  pose proof (rm_leaf _ _ _ _ _ Hrm tp Htp) as Hleaf.
  assert (old_dir ≠ d_ip nd) as Hod by (intros E; rewrite E, Htp in Ho; injection Ho as <-; rewrite Hleaf in Hdin; by apply elem_of_nil in Hdin).
  destruct (removed_in_tree H s s1 new_dir new _ old_dir op Hok Hrm Hne Hod Hlk Hop) as (op1 & Hop1 & Ho1).
  destruct (removed_in_tree H s s1 new_dir new _ new_dir np Hok Hrm Hne ltac:(done) Hlk Hnp) as (np1 & Hnp1 & Hn1).
  pose proof (no_dents _ (vo_node _ _ _ Hok _ _ Ho)) as Hgo. pose proof (no_dents _ (vo_node _ _ _ Hok1 _ _ (proj1 Hop1))) as Hgo1.
  pose proof (no_dents _ (vo_node _ _ _ Hok1 _ _ (proj1 Hnp1))) as Hgn1.
  destruct (rename_free_ok H s1 old_dir op1 old new_dir np1 new Hok1 Hop1 Hnp1 Hold Hnew d) as (s' & Hmv & Hok' & Hm & Hr).
  - rewrite (find_dentry_ext (dents op)); try done; [apply Hold|]. intros x Hx. rewrite Ho1, Hx. naive_solver.
  - apply find_dentry_gone; [done|apply Hnew|]. intros x Hx. apply Hn1 in Hx as [_ Hx]. by apply Hx.
  - exists s1, s'. split_and!; try done. destruct Hr as [E1 E2 Ed E3 E4]. split.
    + intros j n Hcn. rewrite E1 by done. rewrite (entry_removed H H s s1 Hok Hok1 new_dir new (d_ip nd)) by done. repeat case_decide; done.
    + intros j jp Hj. destruct (decide (j = d_ip nd)) as [->|Hj1].
      * rewrite Htp in Hj. injection Hj as <-. destruct (rm_node _ _ _ _ _ Hrm tp Htp) as (t1 & Ht1 & Hc). destruct (mv_node _ _ _ _ _ _ _ Hm _ t1 Ht1) as (t' & Ht' & Hs & _).
        exists t'. split; [done|]. destruct Hc as [Hc|(C1 & C2 & C3 & C4 & _ & _ & C5)]; [right|left; etrans; [|done]; by split_and!].
        split; [by destruct Hs as [-> _]|]. by rewrite (find_entry s new_dir np), Hfn.
      * assert (∃ j1, inodes s1 !! j = Some j1 ∧ same_file jp j1) as (j1 & Hj1' & Hs1).
        { destruct (decide (j = new_dir)) as [->|Hjn]; [|exists jp; by rewrite (rm_other _ _ _ _ _ Hrm)].
          destruct (rm_dir _ _ _ _ _ Hrm jp Hj) as (l & Hl & _). by exists (with_dents l jp). }
        destruct (mv_node _ _ _ _ _ _ _ Hm j j1 Hj1') as (j2 & Hj2 & Hs2 & _). exists j2. split; [done|]. left. by etrans.
    + rewrite (find_entry s new_dir np), Hfn by done. cbn. split; congruence.
    + rewrite E3. apply Hrm.
    + rewrite E4. apply Hrm.
Qed.

(** [ramfs_rename]: it fails leaving everything as it was, or both names
    already led to the same inode, or the entry has moved. *)
Lemma rename_ok : (∀ nd, find_dentry (dents np) new = Some nd → Some (d_ip nd) ∉ cwds s) →
  ∃ r s', ramfs_rename old_dir old new_dir new s = Done (r, s') ∧ vfs_ok None H s' ∧
    ((r = -1 ∧ s' = s) ∨
     (r = 0 ∧ ∃ i, entry s old_dir old = Some i ∧
        ((s' = s ∧ entry s new_dir new = Some i) ∨ renamed old_dir old new_dir new i s s'))).
Proof.
  intros Hcwd. pose proof Hnp as (Hn & Hnt & _). pose proof Hop as (Ho & Hot & _). unfold ramfs_rename.
  rewrite (get_inode_ok s _ op Ho). run. rewrite (get_inode_ok s _ np Hn). run. rewrite Hot, Hnt.
  change (T_DIR =? T_DIR) with true. cbn [negb orb]. rewrite (d_lookup_ok s old_dir op old Ho Hot). run.
  destruct (find_dentry (dents op) old) as [d|] eqn:Hfo; [|eexists _, _; split_and!; try done; by left].
  destruct (dentry_live H s old_dir op old d Hok Ho ltac:(apply Hold) Hfo) as (ip & Hi & _ & _ & Hdin). rewrite (get_inode_ok s _ ip Hi). run.
  assert (entry s old_dir old = Some (d_ip d)) as Heo by by rewrite (find_entry s old_dir op old Ho), Hfo.
  destruct (bool_decide (old_dir = new_dir) && (d_namecmp old new =? 0)) eqn:Hsame.
  { apply andb_true_iff in Hsame as [E1 E2]. apply bool_decide_eq_true in E1. apply Z.eqb_eq, d_namecmp_eq in E2; [|apply Hold|apply Hnew|apply Hold].
    eexists _, _. split; [done|]. split; [done|]. right. split; [done|]. exists (d_ip d). split; [done|]. left. by rewrite <- E1, <- E2. }
  assert (old_dir = new_dir → old ≠ new) as Hnames.
  { intros E1 E2. rewrite (bool_decide_true _ E1), E2, name_refl in Hsame; [done|apply Hnew..]. }
  rewrite (d_lookup_ok s new_dir np new Hn Hnt). run. destruct (find_dentry (dents np) new) as [nd|] eqn:Hfn.
  - destruct (decide (d_ip nd = d_ip d)) as [Hdi|Hdi]; [rewrite (bool_decide_true _ Hdi)|rewrite (bool_decide_false _ Hdi)].
    { eexists _, _. split; [done|]. split; [done|]. right. split; [done|]. exists (d_ip d). split; [done|]. left. split; [done|].
      rewrite (find_entry s new_dir np new Hn), Hfn. cbn. by rewrite Hdi. }
    destruct (dentry_live H s new_dir np new nd Hok Hn ltac:(apply Hnew) Hfn) as (tp & Htp & _). rewrite (get_inode_ok s _ tp Htp). run.
    destruct (if itype tp =? T_DIR then _ else _) eqn:Hty; [eexists _, _; split_and!; try done; by left|].
    destruct (rename_over_ok d nd tp) as (s1 & s' & -> & Hrun & Hok' & Hr); try done.
    { intros Htd. rewrite (proj2 (Z.eqb_eq _ _) Htd) in Hty. apply orb_false_iff in Hty as [_ Hty]. apply negb_false_iff, bool_decide_eq_true in Hty. auto. }
    run. change (0 <? 0) with false. cbn iota. rewrite Hrun. eexists _, _. split_and!; try done. right. split; [done|]. exists (d_ip d). split; [done|]. by right.
  - destruct (rename_free_ok H s old_dir op old new_dir np new Hok Hop Hnp Hold Hnew d Hfo Hfn) as (s' & -> & Hok' & _ & Hr).
    eexists _, _. split_and!; try done. right. split; [done|]. exists (d_ip d). split; [done|]. by right.
Qed.
End RenameOver.
