(* ===== verification/RamfsData.v ===== *)
(** [RamfsData]: what is in a file: reading, writing and truncating on the list
    of its bytes. *)
From Stdlib Require Import ZArith Lia.
From stdpp Require Import numbers strings gmap list.
From S2P Require Import Prelude MemLayout Slab Vfs VfsInv.
Open Scope Z_scope.

Definition content (ip : inode) : list Z := take (Z.to_nat (size ip)) (default [] (data ip)).

(** [l] with [src] written at [off]; a gap before it is filled with zeroes. *)
Definition splice (l : list Z) (off : nat) (src : list Z) : list Z :=
  take off (l ++ replicate off 0) ++ src ++ drop (off + length src) l.

(** [l] cut or extended with zeroes to [n] bytes. *)
Definition resize (l : list Z) (n : nat) : list Z := take n (l ++ replicate n 0).

Lemma splice_length l off src : length (splice l off src) = Nat.max (length l) (off + length src).
Proof. unfold splice. rewrite !length_app, length_take, length_app, length_replicate, length_drop. lia. Qed.

Lemma splice_same l off src : take (length src) (drop off (splice l off src)) = src.
Proof.
  unfold splice. rewrite drop_app_length' by (rewrite length_take, length_app, length_replicate; lia). by rewrite take_app_length.
Qed.

(** Everything outside of the range stays, and a gap reads as zero. *)
Lemma splice_other l off src k : (k < off ∨ off + length src ≤ k)%nat → default 0 (splice l off src !! k) = default 0 (l !! k).
Proof.
  intros Hk. unfold splice. assert (length (take off (l ++ replicate off 0)) = off) as Hlen by (rewrite length_take, length_app, length_replicate; lia).
  destruct (decide (k < off)%nat) as [Hlt|Hge].
  - rewrite lookup_app_l by lia. rewrite lookup_take_lt by lia. destruct (decide (k < length l)%nat).
    + by rewrite lookup_app_l by lia.
    + rewrite lookup_app_r, (lookup_ge_None_2 l) by lia. rewrite lookup_replicate_2 by lia. done.
  - rewrite lookup_app_r, Hlen by lia. rewrite lookup_app_r by lia. rewrite lookup_drop. f_equal. f_equal. lia.
Qed.

Lemma resize_length l n : length (resize l n) = n.
Proof. unfold resize. rewrite length_take, length_app, length_replicate. lia. Qed.

(** The files of the invariant. *)
Definition file_ok (ip : inode) : Prop :=
  node_ok ip ∧ (itype ip = T_FILE ∨ itype ip = T_LNK ∧ is_Some (data ip)).

Lemma content_length ip : file_ok ip → length (content ip) = Z.to_nat (size ip).
Proof.
  intros [Hn Ht]. unfold content. pose proof (no_data _ Hn) as Hd. pose proof (no_size _ Hn). destruct (data ip) as [d|]; cbn.
  - rewrite length_take. destruct Hd as [Hd _]. lia.
  - destruct Ht as [Ht|[_ [? ?]]]; [|done]. rewrite (Hd Ht). done.
Qed.

Lemma content_some ip d : data ip = Some d → content ip = take (Z.to_nat (size ip)) d.
Proof. intros Hd. unfold content. by rewrite Hd. Qed.

Lemma read_ok s i ip off n : inodes s !! i = Some ip → file_ok ip → 0 ≤ off → 0 ≤ n → off + n < 2 ^ 32 →
  ramfs_read i off n s = Done (Some (take (Z.to_nat n) (drop (Z.to_nat off) (content ip)))).
Proof.
  intros Hi Hf Ho Hn Hw. pose proof (content_length ip Hf) as Hlen. destruct Hf as [Hok Ht]. unfold ramfs_read. rewrite (get_inode_ok s i ip Hi). run.
  assert (itype ip ≠ T_DIR ∧ negb (itype ip =? T_FILE) && negb (itype ip =? T_LNK) = false) as [Hnd ->].
  { destruct Ht as [->|[-> _]]; split; done. }
  rewrite (proj2 (Z.eqb_neq _ _) Hnd). pose proof (no_size _ Hok). destruct (Z.ltb_spec (size ip) off) as [Hlt|Hge].
  { rewrite drop_ge by lia. by rewrite take_nil. }
  rewrite u32_small by lia. pose proof (no_data _ Hok) as Hd. unfold content in *. destruct (data ip) as [d|]; cbn [default] in *.
  - unfold load_data. destruct Hd as [Hd _]. change (id d) with d in *.
    destruct (Z.ltb_spec (size ip) (off + n)); rewrite (proj2 (Z.ltb_ge _ _)) by lia; run; do 2 f_equal.
    + rewrite (take_ge (drop _ (take _ _))) by (rewrite length_drop, length_take; lia). rewrite take_drop_commute. do 2 f_equal. lia.
    + rewrite !take_drop_commute, take_take. do 2 f_equal. lia.
  - run. by rewrite take_nil, drop_nil, take_nil.
Qed.

(** ** Writing *)

Lemma store_ok d off src : 0 ≤ off → off + Z.of_nat (length src) ≤ Z.of_nat (length d) →
  store_data d off src = Done (take (Z.to_nat off) d ++ src ++ drop (Z.to_nat off + length src) d).
Proof. intros Ho Hl. unfold store_data. by rewrite (proj2 (Z.ltb_ge _ _)). Qed.

Lemma regrow_ok ip n : file_ok ip → 0 ≤ n → regrow ip n = Done (resize (content ip) (Z.to_nat n)).
Proof.
  intros Hf Hn. pose proof (content_length ip Hf) as Hlen. destruct Hf as [Hok Ht]. unfold regrow, resize, content in *.
  pose proof (no_data _ Hok) as Hd. pose proof (no_size _ Hok). destruct (data ip) as [d|]; cbn [default] in *.
  - change (id d) with d in *. destruct Hd as [Hd _]. unfold load_data. rewrite (proj2 (Z.ltb_ge _ _)) by lia. run. f_equal. rewrite drop_0.
    rewrite take_app, take_take, take_replicate, !length_take. f_equal; [|f_equal; lia]. f_equal. lia.
  - run. f_equal. rewrite take_nil, app_nil_l, take_replicate. f_equal. lia.
Qed.

Lemma resize_id l n : length l = n → resize l n = l.
Proof. intros <-. unfold resize. by rewrite take_app_length. Qed.

(** Storing into the grown block is the splice. *)
Lemma resize_splice l off src n : n = Nat.max (length l) (off + length src) →
  take off (resize l n) ++ src ++ drop (off + length src) (resize l n) = splice l off src.
Proof.
  intros ->. unfold resize, splice. f_equal; [|f_equal].
  - rewrite take_take, !take_app. rewrite !take_replicate. f_equal; f_equal; lia.
  - destruct (decide (length l ≤ off + length src)%nat) as [Hle|Hgt].
    + rewrite !drop_ge; [done|lia|rewrite length_take, length_app, length_replicate; lia].
    + rewrite Nat.max_l by lia. by rewrite take_app_length.
Qed.

Lemma kmalloc_file_ok n s : 0 ≤ n ≤ KMALLOC_MAX → ∃ ok h, kmalloc_file n s = Done (ok, with_heap h false s).
Proof.
  intros [Hn Hm]. unfold kmalloc_file. assert (KMALLOC_MAX + sizeof_khdr < 2 ^ 32) by (vm_compute; done).
  rewrite u32_small by (unfold sizeof_khdr in *; lia). rewrite (proj2 (Z.ltb_ge _ _)) by (unfold sizeof_khdr; lia).
  rewrite (proj2 (Z.ltb_ge _ _)) by lia. unfold kmalloc_ok. destruct (heap s) as [|b h]; by eexists _, _.
Qed.

Lemma kmalloc_max_word : KMALLOC_MAX < 2 ^ 32.
Proof. by vm_compute. Qed.

Lemma bytes_app a b : bytes (a ++ b) ↔ bytes a ∧ bytes b.
Proof. apply Forall_app. Qed.
Lemma bytes_zeroes n : bytes (replicate n 0).
Proof. by apply Forall_replicate. Qed.

Lemma content_bytes ip : node_ok ip → bytes (content ip).
Proof.
  intros Hn. unfold content. pose proof (no_data _ Hn) as Hd. destruct (data ip) as [d|]; cbn; [by apply Forall_take, Hd|].
  rewrite take_nil. constructor.
Qed.

Lemma splice_bytes l off src : bytes l → bytes src → bytes (splice l off src).
Proof.
  intros Hl Hs. unfold splice. apply bytes_app. split; [apply Forall_take, bytes_app; split; [done|apply bytes_zeroes]|].
  apply bytes_app. split; [done|by apply Forall_drop].
Qed.

Lemma resize_bytes l n : bytes l → bytes (resize l n).
Proof. intros Hl. apply Forall_take, bytes_app. split; [done|apply bytes_zeroes]. Qed.

(** The inode with new contents. *)
Definition holding (l : list Z) (ip : inode) : inode := with_data (Some l) (Z.of_nat (length l)) ip.

Lemma holding_content l ip : content (holding l ip) = l.
Proof. unfold content, holding. cbn. rewrite Nat2Z.id. by apply take_ge. Qed.

Lemma holding_ok l ip : node_ok ip → bytes l → node_ok (holding l ip).
Proof. intros [N1 N2 N3 N4 N5 N6 N7 N8] Hl. split; cbn; try done. lia. Qed.

(** Storing into a block, within the first [n] bytes of it. *)
Lemma take_store (d src : list Z) off n : (off + length src ≤ n)%nat → (n ≤ length d)%nat →
  take n (take off d ++ src ++ drop (off + length src) d) = splice (take n d) off src.
Proof.
  intros Ho Hd. rewrite <- (resize_splice (take n d) off src n) by (rewrite length_take; lia). rewrite resize_id by (rewrite length_take; lia).
  rewrite take_take, Nat.min_l by lia. rewrite take_app, length_take, Nat.min_l by lia. rewrite (take_ge (take off d)) by (rewrite length_take; lia).
  f_equal. rewrite take_app, (take_ge src) by lia. f_equal. rewrite take_drop_commute. f_equal. f_equal. lia.
Qed.

Section Change.
Context (s : fsys) (i : nat) (ip : inode).
Hypothesis Hi : inodes s !! i = Some ip.
Hypothesis Hn : node_ok ip.
Hypothesis Ht : itype ip = T_FILE.

(** The block is as long as the file, or longer. *)
Lemma write_ok off src : 0 ≤ off → src ≠ [] → off + Z.of_nat (length src) ≤ KMALLOC_MAX →
  ∃ h b, ramfs_write i src off s = Done (-1, with_heap h b s) ∨
    ∃ ip', ramfs_write i src off s = Done (Z.of_nat (length src), set_inode i ip' (with_heap h b s)) ∧
      content ip' = splice (content ip) (Z.to_nat off) src ∧
      ∃ d n, ip' = with_data (Some d) n ip ∧ n = Z.max (size ip) (off + Z.of_nat (length src)) ∧ n ≤ Z.of_nat (length d) ∧ (bytes src → bytes d).
Proof.
  intros Ho Hs Hmax. pose proof kmalloc_max_word. assert (file_ok ip) as Hf by (split; auto). pose proof (content_length ip Hf) as Hlen.
  pose proof (no_size _ Hn) as Hsz. assert (0 < Z.of_nat (length src)) as Hpos by (destruct src; [done|cbn [length]; lia]).
  unfold ramfs_write. rewrite (get_inode_ok s i ip Hi). run. rewrite Ht. change (T_FILE =? T_FILE) with true. cbn [negb].
  rewrite (proj2 (Z.eqb_neq _ 0)) by lia. rewrite u32_small by lia. set (n := off + Z.of_nat (length src)) in *.
  destruct ((size ip <? n) || bool_decide (data ip = None)) eqn:Hg.
  - rewrite (proj2 (Z.eqb_neq n 0)) by lia. destruct (kmalloc_file_ok n s) as (ok & h & ->); [lia|]. run. exists h, false.
    destruct ok; cbn [negb]; [right|by left]. rewrite (regrow_ok ip n Hf) by lia. run. cbn [data with_data].
    change (default [] (Some (resize (content ip) (Z.to_nat n)))) with (resize (content ip) (Z.to_nat n)).
    assert (size ip ≤ n) as Hle.
    { apply orb_true_iff in Hg as [Hg|Hg]; [lia|]. apply bool_decide_eq_true in Hg. pose proof (no_data _ Hn) as Hd. rewrite Hg in Hd. rewrite Hd by done. lia. }
    rewrite store_ok; [|lia|rewrite resize_length; lia]. run. cbn [size with_data]. rewrite Z.ltb_irrefl.
    rewrite (resize_splice (content ip) (Z.to_nat off) src (Z.to_nat n)) by (rewrite Hlen; lia). eexists. split; [done|].
    assert (length (splice (content ip) (Z.to_nat off) src) = Z.to_nat n) as Hl by (rewrite splice_length; lia).
    split; [|eexists _, _; split_and!; [done|cbn; lia|cbn; lia|]].
    + unfold content at 1. cbn. by rewrite take_ge by lia.
    + intros Hb. by apply splice_bytes; [apply content_bytes|].
  - apply orb_false_iff in Hg as [Hg1 Hg2]. apply bool_decide_eq_false in Hg2. destruct (data ip) as [d|] eqn:Hd; [|done].
    exists (heap s), (spare s). right. run. pose proof (no_data _ Hn) as Hdl. rewrite Hd in Hdl. destruct Hdl as [Hdl Hdb].
    rewrite Hd. cbn [default]. change (id d) with d. rewrite store_ok by lia. run.
    eexists. split; [by destruct s|]. rewrite Hg1. 
    assert (length (take (Z.to_nat off) d ++ src ++ drop (Z.to_nat off + length src) d) = length d) as Hl
      by (rewrite !length_app, length_take, length_drop; lia).
    split; [|eexists _, _; split_and!; [done|cbn; lia|cbn; lia|]].
    + unfold content. cbn. rewrite Hd. apply Z.ltb_ge in Hg1. unfold n in *. apply (take_store d); lia.
    + intros Hb. apply bytes_app. split; [by apply Forall_take|]. apply bytes_app. split; [done|by apply Forall_drop].
Qed.
End Change.

Section Truncate.
Context (s : fsys) (i : nat) (ip : inode).
Hypothesis Hi : inodes s !! i = Some ip.
Hypothesis Hn : node_ok ip.
Hypothesis Ht : itype ip = T_FILE.

Lemma truncate_ok n : 0 ≤ n ≤ KMALLOC_MAX →
  ∃ h b, ramfs_truncate i n s = Done (-1, with_heap h b s) ∨
    ∃ ip', ramfs_truncate i n s = Done (0, set_inode i ip' (with_heap h b s)) ∧ content ip' = resize (content ip) (Z.to_nat n) ∧ size ip' = n ∧
      node_ok ip' ∧ ∃ d, ip' = with_data d n ip.
Proof.
  intros Hb. assert (file_ok ip) as Hf by (split; auto). pose proof (content_length ip Hf) as Hlen. pose proof (no_size _ Hn) as Hsz.
  unfold ramfs_truncate. rewrite (get_inode_ok s i ip Hi). run. rewrite Ht. change (T_FILE =? T_FILE) with true. cbn [negb].
  destruct (Z.eqb_spec n (size ip)) as [->|Hne].
  { exists (heap s), (spare s). right. exists ip. split; [|rewrite resize_id by done; split_and!; try done; exists (data ip); by destruct ip].
    unfold set_inode, with_inodes, with_heap. cbn. rewrite list_insert_id by done. by destruct s. }
  destruct (Z.eqb_spec n 0) as [->|Hz].
  { exists (heap s), (spare s). right. eexists. split; [by destruct s|]. split_and!; try done; [|by exists None].
    destruct Hn. by split. }
  destruct (kmalloc_file_ok n s Hb) as (ok & h & ->). run. exists h, false. destruct ok; cbn [negb]; [right|by left].
  rewrite (regrow_ok ip n Hf) by lia. run. eexists. split; [done|]. assert (length (resize (content ip) (Z.to_nat n)) = Z.to_nat n) as Hl by apply resize_length.
  split_and!; try done; [|pose proof (resize_bytes (content ip) (Z.to_nat n) (content_bytes _ Hn)); destruct Hn; split; cbn; try done; try lia; split; [lia|done]|by eexists].
  unfold content at 1. cbn. by rewrite take_ge by lia.
Qed.
End Truncate.

(** ** Through the table of operations *)

Lemma file_ops ip : node_ok ip → itype ip = T_FILE → i_op ip = Some ramfs_iops.
Proof. intros Hn Ht. destruct (no_live _ Hn) as [_ (o & -> & Ho)]; [by rewrite Ht|]. rewrite Ho; [done|by rewrite Ht]. Qed.

(** The state with inode [i] replaced by one of the same type, place and count. *)
Record data_set (i : nat) (ip' : inode) (s s' : fsys) : Prop := {
  ds_at : ∃ h b, s' = set_inode i ip' (with_heap h b s);
  ds_node : node_ok ip';
  ds_same ip : inodes s !! i = Some ip → dents ip' = dents ip ∧ itype ip' = itype ip ∧ iparent ip' = iparent ip ∧ iname ip' = iname ip ∧ ref ip' = ref ip
}.

Lemma data_set_ok X H s s' i ip ip' : vfs_ok X H s → inodes s !! i = Some ip → data_set i ip' s s' → vfs_ok X H s'.
Proof.
  intros Hok Hi [(h & b & ->) Hn Hs]. destruct (Hs ip Hi) as (E1 & E2 & E3 & E4 & E5).
  apply (vfs_ok_set X H _ (vfs_ok_heap X H h b s Hok) H i ip); try done; [apply Hok|lia].
Qed.

Lemma touch_set s i ip ip' m a h b : inodes s !! i = Some ip → node_ok ip' →
  dents ip' = dents ip → itype ip' = itype ip → iparent ip' = iparent ip → iname ip' = iname ip → ref ip' = ref ip →
  ∃ ip2, touch i m a (set_inode i ip' (with_heap h b s)) = Done (set_inode i ip2 (with_heap h b s)) ∧ data_set i ip2 s (set_inode i ip2 (with_heap h b s)) ∧
    content ip2 = content ip' ∧ size ip2 = size ip'.
Proof.
  intros Hi Hn E1 E2 E3 E4 E5. unfold touch. rewrite (upd_inode_ok _ i ip') by by apply (set_inode_at _ _ _ ip). rewrite set_inode_set.
  eexists. split; [done|]. split_and!; [split| |]; try (by destruct m, a).
  - by eauto.
  - destruct Hn, m, a; by split.
  - intros ip0 Hip0. rewrite Hi in Hip0. apply (inj Some) in Hip0. subst ip0. by destruct m, a.
Qed.

Lemma writei_ok H s i ip off src : vfs_ok None H s → inodes s !! i = Some ip → itype ip = T_FILE →
  0 ≤ off → src ≠ [] → bytes src → off + Z.of_nat (length src) ≤ KMALLOC_MAX →
  ∃ r s', fs_writei i src off s = Done (IoRet r, s') ∧ vfs_ok None H s' ∧
    ((r = -1 ∧ ∃ h b, s' = with_heap h b s) ∨
     (r = Z.of_nat (length src) ∧ ∃ ip', data_set i ip' s s' ∧ content ip' = splice (content ip) (Z.to_nat off) src ∧
        size ip' = Z.max (size ip) (off + Z.of_nat (length src)))).
Proof.
  intros Hok Hi Ht Ho Hs Hb Hmax. pose proof (vo_node _ _ _ Hok i ip Hi) as Hn. unfold fs_writei. rewrite (get_inode_ok s i ip Hi). run.
  rewrite (file_ops ip Hn Ht). destruct (write_ok s i ip Hi Hn Ht off src Ho Hs Hmax) as (h & b & [->|(ip' & -> & Hc & d & n & -> & Hsz & Hd & Hdb)]); run.
  - eexists _, _. split; [done|]. split; [by apply vfs_ok_heap|]. left. by eauto.
  - assert (0 < length src)%nat as Hpos by (destruct src; [done|cbn; lia]). rewrite (proj2 (Z.ltb_lt 0 _)) by lia.
    destruct (touch_set s i ip (with_data (Some d) n ip) true false h b) as (ip2 & -> & Hds & Hc2 & Hs2); try done.
    { pose proof (no_size _ Hn). destruct Hn. split; cbn; try done; [lia|]. split; [lia|auto]. }
    run. eexists _, _. split; [done|]. split; [by eapply data_set_ok|]. right. split; [done|]. exists ip2. split; [done|]. rewrite Hc2, Hs2. done.
Qed.

Lemma touch_ok H s i ip m a : vfs_ok None H s → inodes s !! i = Some ip →
  ∃ ip', touch i m a s = Done (set_inode i ip' s) ∧ data_set i ip' s (set_inode i ip' s) ∧ content ip' = content ip ∧ size ip' = size ip.
Proof.
  intros Hok Hi. destruct (touch_set s i ip ip m a (heap s) (spare s) Hi (vo_node _ _ _ Hok i ip Hi)) as (ip2 & Hrun & Hds & Hc & Hs); try done.
  exists ip2. assert (with_heap (heap s) (spare s) s = s) as E by by destruct s. rewrite !E in *.
  assert (set_inode i ip s = s) as E2; [|by rewrite E2 in Hrun]. unfold set_inode, with_inodes. rewrite list_insert_id by done. by destruct s.
Qed.

(** Reading gives the bytes and changes the access time only. *)
Lemma readi_ok H s i ip off n : vfs_ok None H s → inodes s !! i = Some ip → itype ip = T_FILE → 0 ≤ off → 0 ≤ n → off + n < 2 ^ 32 →
  ∃ s', fs_readi i off n s = Done (IoRet (Some (take (Z.to_nat n) (drop (Z.to_nat off) (content ip)))), s') ∧
    vfs_ok None H s' ∧ (s' = s ∨ ∃ ip', data_set i ip' s s' ∧ content ip' = content ip).
Proof.
  intros Hok Hi Ht Ho Hn Hw. pose proof (vo_node _ _ _ Hok i ip Hi) as Hno. unfold fs_readi. rewrite (get_inode_ok s i ip Hi). run.
  rewrite (file_ops ip Hno Ht), (read_ok s i ip off n Hi) by (done || by split; auto). run. case_bool_decide; run; [|by eauto 10].
  destruct (touch_ok H s i ip false true Hok Hi) as (ip' & -> & Hds & Hc & _). run. eexists. split; [done|]. split; [by eapply data_set_ok|]. by eauto.
Qed.

Lemma truncatei_ok H s i ip n : vfs_ok None H s → inodes s !! i = Some ip → itype ip = T_FILE → 0 ≤ n ≤ KMALLOC_MAX →
  ∃ r s', fs_truncate i n s = Done (r, s') ∧ vfs_ok None H s' ∧
    ((r = -1 ∧ ∃ h b, s' = with_heap h b s) ∨
     (r = 0 ∧ ∃ ip', data_set i ip' s s' ∧ content ip' = resize (content ip) (Z.to_nat n) ∧ size ip' = n)).
Proof.
  intros Hok Hi Ht Hb. pose proof (vo_node _ _ _ Hok i ip Hi) as Hn. unfold fs_truncate. rewrite (get_inode_ok s i ip Hi). run.
  rewrite Ht. change (T_FILE =? T_FILE) with true. cbn [negb]. rewrite (file_ops ip Hn Ht).
  destruct (truncate_ok s i ip Hi Hn Ht n Hb) as (h & b & [->|(ip' & -> & Hc & Hs & Hn' & d & Hd)]); run.
  - eexists _, _. split; [done|]. split; [by apply vfs_ok_heap|]. left. by eauto.
  - change (0 =? 0) with true. cbn iota. destruct (touch_set s i ip ip' true false h b Hi Hn') as (ip2 & -> & Hds & Hc2 & Hs2); try (by rewrite Hd).
    run. eexists _, _. split; [done|]. split; [by eapply data_set_ok|]. right. split; [done|]. exists ip2. split_and!; try done; congruence.
Qed.

(** C30: What is written to a file is there for every later read, the rest of it
    stays as it was, and a gap that a write past the end leaves reads as zeroes;
    a write that finds no memory changes nothing. *)
Theorem write_read H s i ip off src :
  vfs_ok None H s → inodes s !! i = Some ip → itype ip = T_FILE →
  0 ≤ off → src ≠ [] → bytes src → off + Z.of_nat (length src) ≤ KMALLOC_MAX →
  ∃ r s', fs_writei i src off s = Done (IoRet r, s') ∧ vfs_ok None H s' ∧ (r = -1 ∨ r = Z.of_nat (length src)) ∧
    ∀ off' n, 0 ≤ off' → 0 ≤ n → off' + n < 2 ^ 32 →
      ∃ s'', fs_readi i off' n s' =
        Done (IoRet (Some (take (Z.to_nat n) (drop (Z.to_nat off') (if r =? -1 then content ip else splice (content ip) (Z.to_nat off) src)))), s'').
Proof.
  intros Hok Hi Ht Ho Hs Hb Hmax. destruct (writei_ok H s i ip off src Hok Hi Ht Ho Hs Hb Hmax) as (r & s' & Hrun & Hok' & Hc).
  exists r, s'. split; [done|]. split; [done|]. split; [destruct Hc as [[-> _]|[-> _]]; auto|]. intros off' n Ho' Hn' Hw.
  assert (∃ ip', inodes s' !! i = Some ip' ∧ itype ip' = T_FILE ∧ content ip' = if r =? -1 then content ip else splice (content ip) (Z.to_nat off) src) as (ip' & Hi' & Ht' & <-).
  { destruct Hc as [(-> & h & b & ->)|(-> & ip' & [(h & b & ->) _ Hsame] & Hc & _)]; [by exists ip|]. exists ip'.
    destruct (Hsame ip Hi) as (_ & ? & _). split; [by apply (set_inode_at _ _ _ ip)|]. split; [congruence|].
    rewrite (proj2 (Z.eqb_neq _ _)); [done|lia]. }
  destruct (readi_ok H s' i ip' off' n Hok' Hi' Ht' Ho' Hn' Hw) as (s'' & -> & _). by eexists.
Qed.

(** [ftruncate] beyond the largest block of [kmalloc] stops the kernel. *)
Lemma truncate_panics s i ip n : inodes s !! i = Some ip → itype ip = T_FILE → i_op ip = Some ramfs_iops →
  KMALLOC_MAX < n → n ≠ size ip → n + sizeof_khdr < 2 ^ 32 → fs_truncate i n s = Panic "kmalloc: size too large".
Proof.
  intros Hi Ht Ho Hm Hne Hw. assert (0 < KMALLOC_MAX) by by vm_compute. unfold fs_truncate, ramfs_truncate. rewrite (get_inode_ok s i ip Hi). run. rewrite Ht, Ho.
  change (T_FILE =? T_FILE) with true. cbn [negb]. rewrite (proj2 (Z.eqb_neq n _)), (proj2 (Z.eqb_neq n 0)) by lia. unfold kmalloc_file.
  rewrite u32_small by (unfold sizeof_khdr in *; lia). rewrite (proj2 (Z.ltb_ge _ _)) by (unfold sizeof_khdr; lia). by rewrite (proj2 (Z.ltb_lt _ _)) by lia.
Qed.
