(* ===== verification/Namei.v ===== *)
(** [Namei]: path resolution and the operations on paths, kernel/fs/namei.c, and
    the start of the file system ([fs_init] of ramfs/inode.c).

    [me] is the slot of the calling process, whose working directory is
    [cwds !! me].  The loop over the components of a path is recursion on the
    list [skipelem] cuts it into: [*s == 0] is the end of that list.  An
    absolute symbolic link is resolved by a recursive call, to which the code
    sets no bound: [fuel] bounds it here. *)
From Stdlib Require Import ZArith Lia.
From stdpp Require Import numbers strings gmap list.
From S2P Require Import Prelude Vfs.
Open Scope Z_scope.

Definition MAXSYMLINKS : nat := 8.
Definition NNAME : nat := 256.
Definition DOT : str := [46].
Definition DOTDOT : str := [46; 46].

(** The path without leading slashes; the first component; what follows. *)
Fixpoint skip_slashes (p : str) : str :=
  match p with
  | c :: p' => if c =? SLASH then skip_slashes p' else p
  | [] => []
  end.
Fixpoint head_elem (p : str) : str :=
  match p with
  | c :: p' => if c =? SLASH then [] else c :: head_elem p'
  | [] => []
  end.
Fixpoint after_elem (p : str) : str :=
  match p with
  | c :: p' => if c =? SLASH then p else after_elem p'
  | [] => []
  end.

Definition skipelem (path : str) : option (str * str) :=
  match skip_slashes path with
  | [] => None
  | p => Some (take (DIRSIZ - 1) (head_elem p), skip_slashes (after_elem p))
  end.

Fixpoint elems_loop (n : nat) (path : str) : list str :=
  match n with
  | O => []
  | S n => match skipelem path with None => [] | Some (e, rest) => e :: elems_loop n rest end
  end.
Definition elems (path : str) : list str := elems_loop (length path) path.

(** [a && !strcmp(...)] of the code *)
Definition name_eq (a b : str) : bool := d_namecmp a b =? 0.

(** The string at the start of a buffer. *)
Fixpoint cstr (l : list Z) : str :=
  match l with
  | c :: l => if c =? 0 then [] else c :: cstr l
  | [] => []
  end.

Section Resolve.
(** The resolution of an absolute link target. *)
Context (resolve : str → fsys → outcome (option nat * fsys)).

Definition follow_symlink (link : nat) (depth : nat) (s : fsys) : outcome (option nat * fsys) :=
  if (MAXSYMLINKS <? depth)%nat then s ← fs_iput link s; mret (None, s)
  else
    '(r, s) ← fs_readi link 0 (Z.of_nat NNAME - 1) s;
    match r with
    | IoRet (Some ((_ :: _) as buf)) =>
        let target := cstr buf in
        if at_ target 0 =? SLASH then s ← fs_iput link s; resolve target s
        else if bool_decide (SLASH ∈ target) then s ← fs_iput link s; mret (None, s)
        else
          ip ← get_inode link s;
          match iparent ip with
          | None => s ← fs_iput link s; mret (None, s)
          | Some parent =>
              pp ← get_inode parent s;
              if bool_decide (i_op pp = Some ramfs_iops) then
                s ← fs_idup parent s;
                s ← fs_iput link s;
                '(next, s) ← ramfs_lookup parent target s;
                s ← fs_iput parent s;
                mret (next, s)
              else s ← fs_iput link s; mret (None, s)
          end
    | _ => s ← fs_iput link s; mret (None, s)
    end.

(** [while (next->type == T_LNK)]: [n] rounds are left, [depth] are done. *)
Fixpoint follow_links (n depth : nat) (next : nat) (s : fsys) : outcome (option nat * fsys) :=
  match n with
  | O => NoFuel
  | S n =>
      ip ← get_inode next s;
      if itype ip =? T_LNK then
        '(r, s) ← follow_symlink next (S depth) s;
        match r with
        | None => mret (None, s)
        | Some next => follow_links n (S depth) next s
        end
      else mret (Some next, s)
  end.

(** The loop of [namex]: the inode, and the last component for
    [nameiparent]. *)
Fixpoint walk_path (comps : list str) (nameiparent follow : bool) (ip : nat) (s : fsys)
    : outcome (option (nat * str) * fsys) :=
  match comps with
  | [] => if nameiparent then s ← fs_iput ip s; mret (None, s) else mret (Some (ip, []), s)
  | name :: comps =>
      p ← get_inode ip s;
      if negb (itype p =? T_DIR) then s ← fs_iput ip s; mret (None, s)
      else if nameiparent && bool_decide (comps = []) then mret (Some (ip, name), s)
      else if name_eq name DOT then walk_path comps nameiparent follow ip s
      else if name_eq name DOTDOT then
        let next := default ip (iparent p) in
        s ← fs_idup next s;
        s ← fs_iput ip s;
        walk_path comps nameiparent follow next s
      else if negb (bool_decide (i_op p = Some ramfs_iops)) then s ← fs_iput ip s; mret (None, s)
      else
        '(next, s) ← ramfs_lookup ip name s;
        s ← fs_iput ip s;
        match next with
        | None => mret (None, s)
        | Some next =>
            '(next, s) ← (if bool_decide (comps = []) && negb follow then mret (Some next, s)
                          else follow_links (S (S MAXSYMLINKS)) 0 next s);
            match next with
            | None => mret (None, s)
            | Some next => walk_path comps nameiparent follow next s
            end
        end
  end.
End Resolve.

Fixpoint namex (fuel : nat) (me : nat) (path : str) (nameiparent follow : bool) (s : fsys)
    : outcome (option (nat * str) * fsys) :=
  match fuel with
  | O => NoFuel
  | S fuel =>
      let start := if at_ path 0 =? SLASH then vfs_root s else mjoin (cwds s !! me) in
      match path, start with
      | [], _ | _, None => mret (None, s)
      | _, Some ip =>
          s ← fs_idup ip s;
          walk_path (λ target s, '(r, s) ← namex fuel me target false true s; mret (option_map fst r, s))
                    (elems path) nameiparent follow ip s
      end
  end.

Section Calls.
Context (fuel me : nat).

Definition fs_namei (path : str) (s : fsys) : outcome (option nat * fsys) :=
  '(r, s) ← namex fuel me path false true s; mret (option_map fst r, s).
Definition fs_namei_nofollow (path : str) (s : fsys) : outcome (option nat * fsys) :=
  '(r, s) ← namex fuel me path false false s; mret (option_map fst r, s).

(** The names from the working directory up to the root, innermost first;
    [None] when they are more than [n]. *)
Fixpoint cwd_chain (n : nat) (ip : nat) (s : fsys) : outcome (option (list str)) :=
  p ← get_inode ip s;
  if bool_decide (vfs_root s = Some ip) then mret (Some [])
  else
    match iparent p with
    | None => mret (Some [])
    | Some up =>
        if bool_decide (up = ip) then mret (Some [])
        else
          match n with
          | O => mret None
          | S n => r ← cwd_chain n up s; mret (option_map (cons (iname p)) r)
          end
    end.

(** [/a/b/c] from the names, outermost first, if each is there and the whole
    fits. *)
Fixpoint join_names (names : list str) (len max : Z) : option str :=
  match names with
  | [] => Some []
  | n :: names =>
      let nlen := Z.of_nat (length n) in
      if bool_decide (n = []) || (max <? len + 1 + nlen + 1) then None
      else option_map (λ p, SLASH :: n ++ p) (join_names names (len + 1 + nlen) max)
  end.

(** The path, without its terminator; [None] for -1. *)
Definition fs_getcwd (max : Z) (s : fsys) : outcome (option str) :=
  match mjoin (cwds s !! me), vfs_root s with
  | Some cwd, Some _ =>
      if max <? 2 then mret None
      else
        r ← cwd_chain NINODE cwd s;
        mret (match r with
              | None => None
              | Some [] => Some [SLASH]
              | Some names => join_names (rev names) 0 max
              end)
  | _, _ => mret None
  end.

Definition fs_create (path : str) (type : Z) (s : fsys) : outcome (option nat * fsys) :=
  '(r, s) ← namex fuel me path true true s;
  match r with
  | None => mret (None, s)
  | Some (dp, name) =>
      d ← get_inode dp s;
      if bool_decide (name = []) || negb (bool_decide (i_op d = Some ramfs_iops)) then s ← fs_iput dp s; mret (None, s)
      else
        '(i, s) ← ramfs_create dp name type s;
        s ← fs_iput dp s;
        mret (i, s)
  end.

Definition MKDEV (ma mi : Z) : Z := Z.lor (u32 (Z.shiftl ma 20)) (Z.land mi 0xfffff).

Definition fs_mknod (path : str) (type major minor : Z) (s : fsys) : outcome (option nat * fsys) :=
  if negb (type =? T_CHAR) && negb (type =? T_BLK) && negb (type =? T_FIFO) then mret (None, s)
  else
    '(r, s) ← namex fuel me path true true s;
    match r with
    | None => mret (None, s)
    | Some (dp, name) =>
        d ← get_inode dp s;
        if bool_decide (name = []) || negb (bool_decide (i_op d = Some ramfs_iops)) then s ← fs_iput dp s; mret (None, s)
        else
          '(r, s) ← ramfs_mknod dp name type (if type =? T_FIFO then 0 else MKDEV major minor) s;
          s ← fs_iput dp s;
          if r <? 0 then mret (None, s) else fs_namei path s
    end.

Definition inode_is_cwd (i : nat) (s : fsys) : bool := bool_decide (Some i ∈ cwds s).

(** The directory of [path] and the last component of it, which is neither
    [.] nor [..]; the calls below that need both start with it. *)
Definition parent_of (path : str) (s : fsys) : outcome (option (nat * str) * fsys) :=
  if bool_decide (path = []) then mret (None, s)
  else
    '(r, s) ← namex fuel me path true true s;
    match r with
    | None => mret (None, s)
    | Some (dp, name) =>
        if bool_decide (name = []) || name_eq name DOT || name_eq name DOTDOT
        then s ← fs_iput dp s; mret (None, s)
        else mret (Some (dp, name), s)
    end.

Definition fs_mkdir (path : str) (s : fsys) : outcome (Z * fsys) :=
  '(r, s) ← parent_of path s;
  match r with
  | None => mret (-1, s)
  | Some (dp, name) =>
      d ← get_inode dp s;
      if negb (bool_decide (i_op d = Some ramfs_iops)) then s ← fs_iput dp s; mret (-1, s)
      else
        '(r, s) ← ramfs_mkdir dp name s;
        s ← fs_iput dp s;
        mret (if r <? 0 then -1 else 0, s)
  end.

Definition fs_rmdir (path : str) (s : fsys) : outcome (Z * fsys) :=
  '(r, s) ← parent_of path s;
  match r with
  | None => mret (-1, s)
  | Some (dp, name) =>
      d ← get_inode dp s;
      if negb (bool_decide (i_op d = Some ramfs_iops)) then s ← fs_iput dp s; mret (-1, s)
      else
        '(r, s) ← ramfs_lookup dp name s;
        match r with
        | None => s ← fs_iput dp s; mret (-1, s)
        | Some i =>
            ip ← get_inode i s;
            if negb (itype ip =? T_DIR) || bool_decide (vfs_root s = Some i) || inode_is_cwd i s
            then s ← fs_iput i s; s ← fs_iput dp s; mret (-1, s)
            else
              s ← fs_iput i s;
              '(r, s) ← ramfs_rmdir dp name s;
              s ← fs_iput dp s;
              mret (if r <? 0 then -1 else 0, s)
        end
  end.

Definition fs_link (oldpath newpath : str) (s : fsys) : outcome (Z * fsys) :=
  if bool_decide (oldpath = []) || bool_decide (newpath = []) then mret (-1, s)
  else
    '(r, s) ← fs_namei oldpath s;
    match r with
    | None => mret (-1, s)
    | Some i =>
        ip ← get_inode i s;
        if itype ip =? T_DIR then s ← fs_iput i s; mret (-1, s)
        else
          '(r, s) ← parent_of newpath s;
          match r with
          | None => s ← fs_iput i s; mret (-1, s)
          | Some (dp, name) =>
              d ← get_inode dp s;
              ip ← get_inode i s;
              if negb (bool_decide (i_op d = Some ramfs_iops)) || negb (bool_decide (i_op d = i_op ip))
              then s ← fs_iput dp s; s ← fs_iput i s; mret (-1, s)
              else
                '(r, s) ← ramfs_hardlink dp name i s;
                s ← fs_iput dp s;
                s ← fs_iput i s;
                mret (if r <? 0 then -1 else 0, s)
          end
    end.

Definition fs_symlink (target linkpath : str) (s : fsys) : outcome (Z * fsys) :=
  '(r, s) ← parent_of linkpath s;
  match r with
  | None => mret (-1, s)
  | Some (dp, name) =>
      d ← get_inode dp s;
      if negb (bool_decide (i_op d = Some ramfs_iops)) then s ← fs_iput dp s; mret (-1, s)
      else
        '(r, s) ← ramfs_symlink dp name target s;
        s ← fs_iput dp s;
        mret (if r <? 0 then -1 else 0, s)
  end.

Definition fs_unlink (path : str) (s : fsys) : outcome (Z * fsys) :=
  '(r, s) ← parent_of path s;
  match r with
  | None => mret (-1, s)
  | Some (dp, name) =>
      d ← get_inode dp s;
      if negb (bool_decide (i_op d = Some ramfs_iops)) then s ← fs_iput dp s; mret (-1, s)
      else
        '(r, s) ← ramfs_lookup dp name s;
        match r with
        | None => s ← fs_iput dp s; mret (-1, s)
        | Some i =>
            ip ← get_inode i s;
            if itype ip =? T_DIR then s ← fs_iput i s; s ← fs_iput dp s; mret (-1, s)
            else
              s ← fs_iput i s;
              '(r, s) ← ramfs_unlink dp name s;
              s ← fs_iput dp s;
              mret (if r <? 0 then -1 else 0, s)
        end
  end.

Definition fs_rename (oldpath newpath : str) (s : fsys) : outcome (Z * fsys) :=
  if bool_decide (oldpath = []) || bool_decide (newpath = []) then mret (-1, s)
  else
    '(r, s) ← parent_of oldpath s;
    match r with
    | None => mret (-1, s)
    | Some (od, oldname) =>
        '(r, s) ← parent_of newpath s;
        match r with
        | None => s ← fs_iput od s; mret (-1, s)
        | Some (nd, newname) =>
            o ← get_inode od s;
            n ← get_inode nd s;
            if negb (bool_decide (i_op o = Some ramfs_iops)) || negb (bool_decide (i_op o = i_op n))
            then s ← fs_iput nd s; s ← fs_iput od s; mret (-1, s)
            else
              '(r, s) ← ramfs_rename od oldname nd newname s;
              s ← fs_iput nd s;
              s ← fs_iput od s;
              mret (if r <? 0 then -1 else 0, s)
        end
    end.

(** ** Attributes *)

Definition F_OK : Z := 0.
Definition X_OK : Z := 1.
Definition W_OK : Z := 2.
Definition R_OK : Z := 4.

Definition fs_access (path : str) (amode : Z) (s : fsys) : outcome (Z * fsys) :=
  '(r, s) ← fs_namei path s;
  match r with
  | None => mret (-1, s)
  | Some i =>
      ip ← get_inode i s;
      s ← fs_iput i s;
      let lacks bit m := negb (Z.land amode bit =? 0) && (Z.land (mode ip) m =? 0) in
      mret (if amode =? F_OK then 0
            else if lacks R_OK 0x124 || lacks W_OK 0x92 || lacks X_OK 0x49 then -1 else 0, s)
  end.

Definition fs_chmod (path : str) (md : Z) (s : fsys) : outcome (Z * fsys) :=
  '(r, s) ← fs_namei path s;
  match r with
  | None => mret (-1, s)
  | Some i =>
      s ← upd_inode i (λ ip, with_stat (Z.land md MODE_BITS) (nlink ip) (uid ip) (gid ip) ip) s;
      s ← touch i true false s;
      s ← fs_iput i s;
      mret (0, s)
  end.

Definition fs_chown (path : str) (u g : Z) (s : fsys) : outcome (Z * fsys) :=
  '(r, s) ← fs_namei path s;
  match r with
  | None => mret (-1, s)
  | Some i =>
      s ← upd_inode i (λ ip, with_stat (mode ip) (nlink ip) u g ip) s;
      s ← touch i true false s;
      s ← fs_iput i s;
      mret (0, s)
  end.

Definition fs_utime (path : str) (at_ mt : Z) (s : fsys) : outcome (Z * fsys) :=
  '(r, s) ← fs_namei path s;
  match r with
  | None => mret (-1, s)
  | Some i =>
      s ← upd_inode i (with_times at_ mt mt) s;
      s ← fs_iput i s;
      mret (0, s)
  end.

(** [sys_chdir] of sysfile.c, for the path it copied in. *)
Definition chdir (path : str) (s : fsys) : outcome (Z * fsys) :=
  '(r, s) ← fs_namei path s;
  match r with
  | None => mret (-1, s)
  | Some i =>
      ip ← get_inode i s;
      if negb (itype ip =? T_DIR) then s ← fs_iput i s; mret (-1, s)
      else
        s ← match mjoin (cwds s !! me) with Some old => fs_iput old s | None => mret s end;
        mret (0, with_cwds (<[me := Some i]> (cwds s)) s)
  end.
End Calls.

(** ** Start-up *)

Definition lit (x : string) : str := (λ c, Z.of_N (Ascii.N_of_ascii c)) <$> String.list_ascii_of_string x.

Definition zero_inode : inode := Inode 0 0 0 0 0 0 0 0 0 0 0 0 None None [] None [] None.

Definition CONSOLE_MAJOR : Z := 1.
Definition CONSOLE_MINOR : Z := 0.

Definition seed_file (fuel me : nat) (path text : str) (s : fsys) : outcome fsys :=
  '(r, s) ← fs_create fuel me path T_FILE s;
  match r with
  | None => mret s
  | Some i => '(_, s) ← fs_writei i text 0 s; fs_iput i s
  end.

(** [fs_init] up to [fileinit]; [procs] are the slots of the process table. *)
Definition fs_init (fuel me procs : nat) (now : Z) (h : list bool) : outcome fsys :=
  let s := Fsys (replicate NINODE zero_inode) None (replicate procs None) now h false in
  match ialloc T_DIR s with
  | (None, _) => Panic "fs_init: root"
  | (Some root, s) =>
      s ← upd_inode root (λ ip, with_place (Some root) (iname ip) ip) s;
      let s := vfs_set_root root s in
      match ialloc T_DIR s with
      | (None, _) => Panic "fs_init: /dev"
      | (Some dev, s) =>
          '(r, s) ← d_add root (lit "dev") dev s;
          if r <? 0 then Panic "fs_init: /dev"
          else
            s ← fs_iput dev s;
            match ialloc T_CHAR s with
            | (None, _) => Panic "fs_init: console"
            | (Some console, s) =>
                s ← upd_inode console (with_rdev (MKDEV CONSOLE_MAJOR CONSOLE_MINOR)) s;
                '(r, s) ← d_add dev (lit "console") console s;
                if r <? 0 then Panic "fs_init: /dev/console"
                else
                  s ← fs_iput console s;
                  seed_file fuel me (lit "/hello") (lit "Hello from Tiny-OS ramfs!" ++ [10]) s
            end
      end
  end.
