(* ===== verification/NameiSpec.v ===== *)
(** [NameiSpec]: path resolution without the reference counts, and that the code
    implements it.  Looking a path up changes no more than reference counts and
    access times ([alike]), whatever symbolic links it goes through. *)
From Stdlib Require Import ZArith Lia.
From stdpp Require Import numbers strings gmap list.
From S2P Require Import Prelude Vfs VfsInv RamfsSpec RamfsRename Namei.
Open Scope Z_scope.

(** ** States up to reference counts and times *)

Definition strip (ip : inode) : inode := with_times 0 0 0 (with_ref 0 ip).

Record alike (s s' : fsys) : Prop := {
  al_nodes : strip <$> inodes s' = strip <$> inodes s;
  al_root : vfs_root s' = vfs_root s;
  al_cwds : cwds s' = cwds s;
  al_now : now_sec s' = now_sec s;
  al_heap : heap s' = heap s;
  al_spare : spare s' = spare s
}.

#[global] Instance alike_equivalence : Equivalence alike.
Proof.
  split; [done|..].
  - by intros s s' [].
  - intros s1 s2 s3 [A1 A2 A3 A4 A5 A6] [B1 B2 B3 B4 B5 B6]. split; congruence.
Qed.

Lemma alike_set s i ip ip' : inodes s !! i = Some ip → strip ip' = strip ip → alike s (set_inode i ip' s).
Proof.
  intros Hi Hs. split; try done. cbn. rewrite list_fmap_insert, Hs. apply list_insert_id. by rewrite list_lookup_fmap, Hi.
Qed.

Lemma alike_at s s' i ip : alike s s' → inodes s !! i = Some ip → ∃ ip', inodes s' !! i = Some ip' ∧ strip ip' = strip ip.
Proof.
  intros [Hn _ _ _ _ _] Hi. pose proof (f_equal (λ l, l !! i) Hn) as E. cbn in E. rewrite !list_lookup_fmap, Hi in E.
  destruct (inodes s' !! i) as [ip'|]; [|done]. apply (inj Some) in E. by exists ip'.
Qed.

Lemma strip_fields ip ip' : strip ip' = strip ip → itype ip' = itype ip ∧ data ip' = data ip ∧ size ip' = size ip ∧ i_op ip' = i_op ip ∧
  iparent ip' = iparent ip ∧ iname ip' = iname ip ∧ dents ip' = dents ip ∧ inum ip' = inum ip ∧ mode ip' = mode ip ∧ nlink ip' = nlink ip ∧ rdev ip' = rdev ip ∧ i_pipe ip' = i_pipe ip.
Proof.
  intros E. split_and!; [exact (f_equal itype E)|exact (f_equal data E)|exact (f_equal size E)|exact (f_equal i_op E)|exact (f_equal iparent E)|
    exact (f_equal iname E)|exact (f_equal dents E)|exact (f_equal inum E)|exact (f_equal mode E)|exact (f_equal nlink E)|exact (f_equal rdev E)|exact (f_equal i_pipe E)].
Qed.

Lemma links_strip l l' j : strip <$> l' = strip <$> l → links l' j = links l j.
Proof.
  revert l'. induction l as [|ip l IH]; intros [|ip' l'] E; try done. rewrite !fmap_cons in E. apply (inj2 cons) in E as [E1 E2].
  cbn [links]. rewrite (IH l' E2). apply strip_fields in E1 as (_ & _ & _ & _ & _ & _ & -> & _). done.
Qed.

Section Alike.
Context (s s' : fsys).
Hypothesis Hal : alike s s'.

Lemma alike_links j : links (inodes s') j = links (inodes s) j.
Proof. apply links_strip, Hal. Qed.

Lemma alike_attached j : attached s' j ↔ attached s j.
Proof. unfold attached. by rewrite alike_links, (al_root _ _ Hal). Qed.

Lemma alike_held j : held s' j = held s j.
Proof. unfold held. by rewrite (al_root _ _ Hal), (al_cwds _ _ Hal). Qed.

Lemma alike_entry dir name : entry s' dir name = entry s dir name.
Proof.
  unfold entry. destruct (inodes s !! dir) as [jp|] eqn:Hj.
  - destruct (alike_at s s' dir jp Hal Hj) as (jp' & -> & Hs). cbn. by apply strip_fields in Hs as (_ & _ & _ & _ & _ & _ & -> & _).
  - destruct (inodes s' !! dir) as [jp|] eqn:Hj'; [|done]. symmetry in Hal.
    destruct (alike_at s' s dir jp Hal Hj') as (? & ? & _). congruence.
Qed.
End Alike.

(** Somebody other than the walker refers to [i]. *)
Definition pinned (H : nat → Z) (s : fsys) (i : nat) : Prop := 1 ≤ links (inodes s) i + held s i + H i.

Lemma attached_pinned H s i : (∀ j, 0 ≤ H j) → attached s i → pinned H s i.
Proof.
  intros HH Hatt. unfold pinned. pose proof (HH i). pose proof (links_nonneg (inodes s) i). pose proof (held_nonneg s i).
  destruct Hatt as [Hr|]; [|lia]. assert (held s i ≠ 0); [|lia]. intros Hz. by apply not_held in Hz as [? _].
Qed.

Lemma live_pinned H s i ip : vfs_ok None H s → inodes s !! i = Some ip → itype ip ≠ 0 → pinned H s i.
Proof.
  intros Hok Hi Hl. unfold pinned. rewrite <- (vo_ref _ _ _ Hok i ip Hi). by destruct (no_live _ (vo_node _ _ _ Hok i ip Hi) Hl).
Qed.

Lemma pinned_alike H s s' i : alike s s' → pinned H s i → pinned H s' i.
Proof. intros Hal. unfold pinned. by rewrite (alike_links s s' Hal), (alike_held s s' Hal). Qed.

Lemma pinned_live H s i ip : vfs_ok None H s → inodes s !! i = Some ip → pinned H s i → itype ip ≠ 0.
Proof.
  intros Hok Hi Hp Ht. destruct (no_free _ (vo_node _ _ _ Hok i ip Hi) Ht) as [Hr _]. unfold pinned in Hp.
  rewrite <- (vo_ref _ _ _ Hok i ip Hi) in Hp. lia.
Qed.

Lemma idup_alike H s i ip : vfs_ok None H s → inodes s !! i = Some ip → itype ip ≠ 0 →
  ∃ s', fs_idup i s = Done s' ∧ alike s s' ∧ vfs_ok None (plus H i) s'.
Proof.
  intros Hok Hi Hl. destruct (idup_ok None H s i ip Hok Hi Hl) as [Hrun Hok']. eexists. split; [done|]. split; [|done].
  by apply (alike_set s i ip).
Qed.

Lemma plus_pos H i j : (∀ k, 0 ≤ H k) → 0 ≤ plus H i j.
Proof. intros HH. unfold plus. pose proof (HH j). case_decide; lia. Qed.

Lemma plus_ge H i j : H j ≤ plus H i j.
Proof. unfold plus. case_decide; lia. Qed.

Lemma plus_swap X H a b s : vfs_ok X (plus (plus H a) b) s → vfs_ok X (plus (plus H b) a) s.
Proof. intros Hok. eapply vfs_ok_ext; [done|]. intros j. unfold plus. repeat case_decide; lia. Qed.

(** Dropping a reference that is not the last one. *)
Lemma iput_alike H s i : vfs_ok None (plus H i) s → (∀ j, 0 ≤ H j) → is_Some (inodes s !! i) → pinned H s i →
  ∃ s', fs_iput i s = Done s' ∧ alike s s' ∧ vfs_ok None H s'.
Proof.
  intros Hok HH [ip Hi] Hp. destruct (iput_ok None H s i ip Hok Hi HH ltac:(done)) as [Hrun Hok']. exists (unref i ip s).
  split; [done|]. split; [|done]. pose proof (vo_ref _ _ _ Hok i ip Hi) as Hr. rewrite plus_eq in Hr. unfold pinned in Hp.
  rewrite unref_more by lia. by apply (alike_set s i ip).
Qed.

Lemma attached_live H s i : vfs_ok None H s → attached s i → ∃ ip, inodes s !! i = Some ip ∧ itype ip ≠ 0.
Proof.
  intros Hok [Hr|(j & jp & d & Hj & Hd & <-)%links_pos].
  - destruct (vo_root _ _ _ Hok) as (r & rp & Hr' & Hrp & Ht & _). rewrite Hr in Hr'. injection Hr' as <-. exists rp. by rewrite Ht.
  - destruct (vo_ent _ _ _ Hok j jp d Hj Hd) as (cp & Hc & Hl & _). by exists cp.
Qed.

(** The entry, with a reference for the caller. *)
Lemma lookup_ok H s dir dp name : vfs_ok None H s → inodes s !! dir = Some dp →
  ∃ s', ramfs_lookup dir name s = Done (entry s dir name, s') ∧ alike s s' ∧
    match entry s dir name with Some i => vfs_ok None (plus H i) s' ∧ attached s i | None => vfs_ok None H s' end.
Proof.
  intros Hok Hd. unfold ramfs_lookup, d_lookup. rewrite (get_inode_ok s dir dp Hd). run. rewrite (find_entry s dir dp) by done.
  destruct (Z.eqb_spec (itype dp) T_DIR) as [Ht|Ht]; cbn [negb].
  - destruct (find_dentry (dents dp) name) as [d|] eqn:Hf; [|by exists s]. cbn. apply find_dentry_in in Hf.
    destruct (vo_ent _ _ _ Hok dir dp d Hd Hf) as (ip & Hi & Hl & _). destruct (idup_alike H s (d_ip d) ip Hok Hi Hl) as (s' & -> & Hal & Hok').
    run. exists s'. split_and!; try done. right. apply links_pos. by exists dir, dp, d.
  - rewrite (no_dir _ (vo_node _ _ _ Hok dir dp Hd) Ht). by exists s.
Qed.

(** What a symbolic link says. *)
Definition link_text (ip : inode) : str :=
  match data ip with
  | Some d => take (Z.to_nat (Z.min (size ip) (Z.of_nat NNAME - 1))) d
  | None => []
  end.

Lemma readlink_ok H s i ip : vfs_ok None H s → inodes s !! i = Some ip → itype ip = T_LNK →
  ∃ s', fs_readi i 0 (Z.of_nat NNAME - 1) s = Done (IoRet (Some (link_text ip)), s') ∧ alike s s' ∧ vfs_ok None H s'.
Proof.
  intros Hok Hi Ht. pose proof (vo_node _ _ _ Hok i ip Hi) as Hn. unfold fs_readi. rewrite (get_inode_ok s i ip Hi). run.
  destruct (no_live _ Hn) as [_ (o & Ho & Hram)]; [by rewrite Ht|]. rewrite Ho, Hram by by rewrite Ht.
  assert (ramfs_read i 0 (Z.of_nat NNAME - 1) s = Done (Some (link_text ip))) as ->.
  { unfold ramfs_read, link_text. rewrite (get_inode_ok s i ip Hi). run. rewrite Ht. cbn [Z.eqb T_LNK T_DIR T_FILE negb andb].
    pose proof (no_size _ Hn). rewrite (proj2 (Z.ltb_ge (size ip) 0)) by lia. destruct (data ip) as [d|] eqn:Hd; [|done].
    pose proof (no_data _ Hn) as Hlen. rewrite Hd in Hlen. destruct Hlen as [Hlen _]. unfold load_data. change (u32 (0 + (Z.of_nat NNAME - 1))) with 255. change (Z.of_nat NNAME - 1) with 255.
    destruct (Z.ltb_spec (size ip) 255); rewrite (proj2 (Z.ltb_ge _ _)) by lia; run; do 2 f_equal; rewrite drop_0; f_equal; lia. }
  run. destruct (bool_decide _); [|exists s; by run]. unfold touch. rewrite (upd_inode_ok s i ip) by done. run.
  eexists. split; [done|]. split; [by apply (alike_set s i ip)|]. apply (vfs_ok_set None H s Hok _ i ip); try done; [|apply Hok|cbn; lia].
  destruct Hn. by split.
Qed.

(** ** Resolution as a function of the tree *)

Section Pure.
Context (resolve : str → outcome (option nat)) (s : fsys).

Definition p_follow (link depth : nat) : outcome (option nat) :=
  if (MAXSYMLINKS <? depth)%nat then mret None
  else
    match inodes s !! link with
    | None => Wild
    | Some ip =>
        match link_text ip with
        | [] => mret None
        | text =>
            let target := cstr text in
            if at_ target 0 =? SLASH then resolve target
            else if bool_decide (SLASH ∈ target) then mret None
            else mret (match iparent ip with Some parent => entry s parent target | None => None end)
        end
    end.

Fixpoint p_links (n depth next : nat) : outcome (option nat) :=
  match n with
  | O => NoFuel
  | S n =>
      ip ← deref (inodes s !! next);
      if itype ip =? T_LNK then
        r ← p_follow next (S depth);
        match r with None => mret None | Some next => p_links n (S depth) next end
      else mret (Some next)
  end.

Fixpoint p_walk (comps : list str) (nameiparent follow : bool) (i : nat) : outcome (option (nat * str)) :=
  match comps with
  | [] => mret (if nameiparent then None else Some (i, []))
  | name :: comps =>
      ip ← deref (inodes s !! i);
      if negb (itype ip =? T_DIR) then mret None
      else if nameiparent && bool_decide (comps = []) then mret (Some (i, name))
      else if name_eq name DOT then p_walk comps nameiparent follow i
      else if name_eq name DOTDOT then p_walk comps nameiparent follow (default i (iparent ip))
      else
        match entry s i name with
        | None => mret None
        | Some next =>
            r ← (if bool_decide (comps = []) && negb follow then mret (Some next) else p_links (S (S MAXSYMLINKS)) 0 next);
            match r with None => mret None | Some next => p_walk comps nameiparent follow next end
        end
  end.
End Pure.

Fixpoint p_namex (fuel me : nat) (path : str) (nameiparent follow : bool) (s : fsys) : outcome (option (nat * str)) :=
  match fuel with
  | O => NoFuel
  | S fuel =>
      match path, (if at_ path 0 =? SLASH then vfs_root s else mjoin (cwds s !! me)) with
      | [], _ | _, None => mret None
      | _, Some i => p_walk (λ target, r ← p_namex fuel me target false true s; mret (option_map fst r)) s
                            (elems path) nameiparent follow i
      end
  end.

(** ** The code implements it *)

(** [o] does what [p] says, and leaves a state that [Q] holds of. *)
Definition follows {A} (p : outcome A) (o : outcome (A * fsys)) (Q : A → fsys → Prop) : Prop :=
  match p with
  | Done a => ∃ s', o = Done (a, s') ∧ Q a s'
  | NoFuel => o = NoFuel
  | _ => False
  end.

Lemma follows_bind {A B} (p : outcome A) (o : outcome (A * fsys)) Q (f : A → outcome B) g R :
  follows p o Q → (∀ a s', Q a s' → follows (f a) (g (a, s')) R) → follows (p ≫= f) (o ≫= g) R.
Proof. destruct p as [a| | |]; cbn; [|done|done|by intros ->]. intros (s' & -> & HQ) Hf. by apply Hf. Qed.

Definition hold (H : nat → Z) (r : option nat) : nat → Z := match r with Some i => plus H i | None => H end.

(** What a lookup from [s0] that found [r] leaves. *)
Definition found (s0 : fsys) (H : nat → Z) (r : option nat) (s' : fsys) : Prop :=
  alike s0 s' ∧ vfs_ok None (hold H r) s' ∧ (∀ i, r = Some i → attached s0 i).

Section Refine.
Context (s0 : fsys) (presolve : str → outcome (option nat)) (resolve : str → fsys → outcome (option nat * fsys)).
Hypothesis Hresolve : ∀ target H s, alike s0 s → vfs_ok None H s → follows (presolve target) (resolve target s) (found s0 H).

(** Giving a reference up. *)
Lemma ref_drop_ok H s i : (∀ j, 0 ≤ H j) → alike s0 s → vfs_ok None (plus H i) s → attached s0 i →
  ∃ s', fs_iput i s = Done s' ∧ alike s0 s' ∧ vfs_ok None H s'.
Proof.
  intros HH Hal Hok Hatt. destruct (attached_live (plus H i) s i Hok) as (ip & Hi & _); [by apply (alike_attached s0 s)|].
  destruct (iput_alike H s i Hok HH) as (s' & -> & Hal' & Hok'); [done|apply attached_pinned; [done|by apply (alike_attached s0 s)]|].
  exists s'. split_and!; try done. by transitivity s.
Qed.

Lemma none_ok H s i : (∀ j, 0 ≤ H j) → alike s0 s → vfs_ok None (plus H i) s → attached s0 i →
  follows (mret None) (s ← fs_iput i s; mret (None, s)) (found s0 H).
Proof. intros HH Hal Hok Hatt. destruct (ref_drop_ok H s i HH Hal Hok Hatt) as (s' & -> & Hal' & Hok'). run. cbn. exists s'. by split. Qed.

(** A link relative to its directory. *)
Lemma follow_relative_ok H s link lp target parent : (∀ j, 0 ≤ H j) → alike s0 s → vfs_ok None (plus H link) s → attached s0 link →
  inodes s !! link = Some lp → iparent lp = Some parent →
  follows (mret (entry s0 parent target))
    (pp ← get_inode parent s;
     if bool_decide (i_op pp = Some ramfs_iops) then
       s ← fs_idup parent s; s ← fs_iput link s; '(next, s) ← ramfs_lookup parent target s; s ← fs_iput parent s; mret (next, s)
     else s ← fs_iput link s; mret (None, s)) (found s0 H).
Proof.
  intros HH Hal Hok Hatt Hl Hp. pose proof (no_parent _ (vo_node _ _ _ Hok link lp Hl) parent Hp) as Hlt.
  rewrite <- (vo_len _ _ _ Hok) in Hlt. apply lookup_lt_is_Some_2 in Hlt as [pp Hpp]. rewrite (get_inode_ok s parent pp Hpp). run.
  pose proof (vo_node _ _ _ Hok parent pp Hpp) as Hn. case_bool_decide as Ho; cycle 1.
  { assert (entry s0 parent target = None) as ->; [|by apply none_ok]. rewrite <- (alike_entry s0 s Hal), (find_entry s parent pp) by done.
    rewrite (no_dir _ Hn); [done|]. intros Ht. destruct (no_live _ Hn) as [_ (o & Ho' & Hram)]; [by rewrite Ht|].
    rewrite Hram in Ho' by by rewrite Ht. done. }
  assert (itype pp ≠ 0) as Ht by (intros Ht; apply (no_free _ Hn) in Ht as [_ Ht]; congruence).
  pose proof (live_pinned (plus H link) s parent pp Hok Hpp Ht) as Hpin.
  assert (pinned H s parent) as Hpin'.
  { destruct (decide (parent = link)) as [->|Hne]; [apply attached_pinned; [done|by apply (alike_attached s0 s)]|].
    unfold pinned in *. by rewrite plus_ne in Hpin. }
  destruct (idup_alike _ s parent pp Hok Hpp Ht) as (s1 & -> & Hal1 & Hok1). run.
  assert (alike s0 s1) as Hal1' by by transitivity s.
  destruct (ref_drop_ok (plus H parent) s1 link) as (s2 & -> & Hal2 & Hok2); [intros j; by apply plus_pos|done| |done|].
  { by apply plus_swap. }
  run. destruct (alike_at s s2 parent pp) as (p2 & Hp2 & Hs2); [by etrans; [symmetry|]|done|].
  destruct (lookup_ok _ s2 parent p2 target Hok2 Hp2) as (s3 & -> & Hal3 & Hres). run. rewrite (alike_entry s0 s2 Hal2).
  rewrite (alike_entry s0 s2 Hal2) in Hres. assert (alike s0 s3) as Hal3' by by transitivity s2.
  assert (vfs_ok None (plus (hold H (entry s0 parent target)) parent) s3) as Hok3.
  { destruct (entry s0 parent target) as [i|]; cbn [hold]; [|done]. destruct Hres as [Hres _]. by apply plus_swap. }
  destruct (alike_at s2 s3 parent p2 Hal3 Hp2) as (p3 & Hp3 & _).
  destruct (iput_alike (hold H (entry s0 parent target)) s3 parent Hok3) as (s4 & -> & Hal4 & Hok4).
  - intros j. destruct (entry s0 parent target); cbn; [by apply plus_pos|done].
  - done.
  - apply (pinned_alike _ s s3); [transitivity s0; [by symmetry|done]|]. destruct (entry s0 parent target) as [i|]; [|done].
    unfold pinned in *. cbn [hold]. pose proof (plus_ge H i parent). lia.
  - run. cbn. exists s4. split; [done|]. split; [by transitivity s3|]. split; [done|]. intros i Hi. rewrite Hi in Hres.
    by apply (alike_attached s0 s2 Hal2), Hres.
Qed.

Lemma follow_ok H s link lp depth : (∀ j, 0 ≤ H j) → alike s0 s → vfs_ok None (plus H link) s → attached s0 link →
  inodes s0 !! link = Some lp → itype lp = T_LNK →
  follows (p_follow presolve s0 link depth) (follow_symlink resolve link depth s) (found s0 H).
Proof.
  intros HH Hal Hok Hatt Hl Ht. unfold p_follow, follow_symlink. rewrite Hl. destruct (MAXSYMLINKS <? depth)%nat; [by apply none_ok|].
  destruct (alike_at s0 s link lp Hal Hl) as (l1 & Hl1 & Hs1). pose proof (strip_fields _ _ Hs1) as (E1 & E2 & E3 & E4 & E5 & _).
  destruct (readlink_ok _ s link l1 Hok Hl1) as (s1 & -> & Hal1 & Hok1); [congruence|]. run.
  assert (link_text l1 = link_text lp) as -> by (unfold link_text; by rewrite E2, E3). assert (alike s0 s1) as Hal1' by by transitivity s.
  destruct (link_text lp) as [|c text]; [by apply none_ok|]. set (target := cstr (c :: text)).
  destruct (at_ target 0 =? SLASH).
  { destruct (ref_drop_ok H s1 link HH Hal1' Hok1 Hatt) as (s2 & -> & Hal2 & Hok2). run. by apply Hresolve. }
  destruct (bool_decide (SLASH ∈ target)); [by apply none_ok|].
  destruct (alike_at s0 s1 link lp Hal1' Hl) as (l2 & Hl2 & Hs2). pose proof (strip_fields _ _ Hs2) as (_ & _ & _ & _ & F5 & _).
  rewrite (get_inode_ok s1 link l2 Hl2). run. rewrite F5. destruct (iparent lp) as [parent|] eqn:Hp; [|by apply none_ok].
  apply (follow_relative_ok H s1 link l2); try done. 
Qed.
Lemma links_ok n depth H s next np : (∀ j, 0 ≤ H j) → alike s0 s → vfs_ok None (plus H next) s → attached s0 next →
  inodes s0 !! next = Some np →
  follows (p_links presolve s0 n depth next) (follow_links resolve n depth next s) (found s0 H).
Proof.
  intros HH. revert depth s next np. induction n as [|n IH]; intros depth s next np Hal Hok Hatt Hn; cbn [p_links follow_links]; [done|].
  destruct (alike_at s0 s next np Hal Hn) as (n1 & Hn1 & Hs1). rewrite (get_inode_ok s next n1 Hn1), Hn. run. cbn.
  pose proof (strip_fields _ _ Hs1) as (-> & _). destruct (Z.eqb_spec (itype np) T_LNK) as [Ht|Ht]; cycle 1.
  { run. cbn. exists s. split; [done|]. split_and!; try done. by intros ? [= <-]. }
  eapply follows_bind; [by apply (follow_ok H s next np)|]. intros [i|] s1 (Hal1 & Hok1 & Hatt1); cycle 1.
  { cbn. exists s1. by split_and!. }
  destruct (attached_live _ s1 i Hok1) as (ip1 & Hi1 & _); [apply (alike_attached s0 s1 Hal1); auto|].
  destruct (alike_at s1 s0 i ip1) as (ip & Hi & _); [by symmetry|done|]. by apply (IH _ _ _ ip); auto.
Qed.

(** The parent of a directory in the tree. *)
Lemma parent_attached H i ip : vfs_ok None H s0 → inodes s0 !! i = Some ip → itype ip = T_DIR → attached s0 i →
  ∃ p, iparent ip = Some p ∧ attached s0 p.
Proof.
  intros Hok Hi Ht [Hr|(j & jp & d & Hj & Hd & Hdi)%links_pos].
  - destruct (vo_root _ _ _ Hok) as (r & rp & Hr' & Hrp & _ & Hp & _). rewrite Hr in Hr'. injection Hr' as <-. rewrite Hi in Hrp. injection Hrp as <-.
    exists i. split; [done|]. by left.
  - destruct (dir_entries H s0 i ip Hok Hi Ht j jp d Hj Hd Hdi) as [Hp _]. exists j. split; [done|].
    assert (itype jp = T_DIR) as Hjt.
    { destruct (decide (itype jp = T_DIR)) as [?|Hne]; [done|]. rewrite (no_dir _ (vo_node _ _ _ Hok j jp Hj) Hne) in Hd. by apply elem_of_nil in Hd. }
    destruct (decide (vfs_root s0 = Some j)) as [|Hnr]; [by left|]. destruct (decide (0 < links (inodes s0) j)) as [|Hnl]; [by right|].
    rewrite (vo_detached _ _ _ Hok j jp Hj Hjt) in Hd; [by apply elem_of_nil in Hd|done|]. by intros [|].
Qed.

Definition found_last (H : nat → Z) (nameiparent : bool) (r : option (nat * str)) (s' : fsys) : Prop :=
  found s0 H (option_map fst r) s' ∧
  (nameiparent = true → ∀ i name, r = Some (i, name) → ∃ ip, inodes s0 !! i = Some ip ∧ itype ip = T_DIR).

Lemma walk_ok H0 comps nameiparent follow H s i : vfs_ok None H0 s0 → (∀ j, 0 ≤ H j) → alike s0 s → vfs_ok None (plus H i) s → attached s0 i →
  follows (p_walk presolve s0 comps nameiparent follow i) (walk_path resolve comps nameiparent follow i s) (found_last H nameiparent).
Proof.
  intros Hok0 HH. revert s i. induction comps as [|name comps IH]; intros s i Hal Hok Hatt; cbn [p_walk walk_path].
  { destruct nameiparent.
    - destruct (ref_drop_ok H s i HH Hal Hok Hatt) as (s' & -> & Hal' & Hok'). run. by exists s'.
    - exists s. split; [done|]. split; [|done]. split_and!; try done. by intros ? [= <-]. }
  assert (∀ s i, alike s0 s → vfs_ok None (plus H i) s → attached s0 i →
    follows (mret None) (s ← fs_iput i s; mret (None, s)) (found_last H nameiparent)) as Hfail.
  { intros s1 i1 Hal1 Hok1 Hatt1. destruct (ref_drop_ok H s1 i1 HH Hal1 Hok1 Hatt1) as (s' & -> & Hal' & Hok'). run. by exists s'. }
  destruct (attached_live H0 s0 i Hok0 Hatt) as (ip & Hi & Hl). destruct (alike_at s0 s i ip Hal Hi) as (i1 & Hi1 & Hs1).
  rewrite (get_inode_ok s i i1 Hi1), Hi. run. cbn [deref]. run. pose proof (strip_fields _ _ Hs1) as (-> & _ & _ & E4 & E5 & _).
  destruct (Z.eqb_spec (itype ip) T_DIR) as [Ht|Ht]; cbn [negb]; [|by apply Hfail].
  destruct (nameiparent && bool_decide (comps = [])) eqn:Hlast.
  { cbn. exists s. split; [done|]. split; [split_and!; try done; by intros ? [= <-]|]. intros _ ? ? [= <- <-]. by exists ip. }
  destruct (name_eq name DOT); [by apply IH|]. destruct (name_eq name DOTDOT).
  { rewrite E5. destruct (parent_attached H0 i ip Hok0 Hi Ht Hatt) as (p & Hp & Hpa). rewrite Hp. change (default i (Some p)) with p.
    destruct (attached_live (plus H i) s p Hok) as (pp & Hpp & Hpl); [by apply (alike_attached s0 s)|].
    destruct (idup_alike _ s p pp Hok Hpp Hpl) as (s1 & -> & Hal1 & Hok1). run. assert (alike s0 s1) as Hal1' by by transitivity s.
    destruct (ref_drop_ok (plus H p) s1 i) as (s2 & -> & Hal2 & Hok2); [intros j; by apply plus_pos|done|by apply plus_swap|done|].
    run. by apply IH. }
  destruct (no_live _ (vo_node _ _ _ Hok0 i ip Hi) Hl) as [_ (o & Ho & Hram)]. rewrite (bool_decide_true (i_op i1 = Some ramfs_iops)) by (rewrite E4, Ho; f_equal; apply Hram; by rewrite Ht).
  cbn [negb]. destruct (lookup_ok _ s i i1 name Hok Hi1) as (s1 & -> & Hal1 & Hres). run. rewrite (alike_entry s0 s Hal) in Hres |- *.
  assert (alike s0 s1) as Hal1' by by transitivity s.
  destruct (entry s0 i name) as [next|]; cycle 1.
  { destruct (ref_drop_ok H s1 i HH Hal1' Hres Hatt) as (s2 & -> & Hal2 & Hok2). run. by exists s2. }
  destruct Hres as [Hok1 Hatt1%(alike_attached s0 s Hal)].
  destruct (ref_drop_ok (plus H next) s1 i) as (s2 & -> & Hal2 & Hok2); [intros j; by apply plus_pos|done|by apply plus_swap|done|]. run.
  eapply (follows_bind _ _ (found s0 H)).
  - destruct (bool_decide (comps = []) && negb follow).
    + cbn. exists s2. split; [done|]. split_and!; try done. by intros ? [= <-].
    + destruct (attached_live H0 s0 next Hok0 Hatt1) as (np & Hnp & _). by apply (links_ok _ _ _ _ _ np).
  - intros [n2|] s3 (Hal3 & Hok3 & Hatt3); [apply IH; auto|]. by exists s3.
Qed.
End Refine.

(** Looking up a path finds what [p_namex] finds; it fails without a trace,
    or the caller gets one reference. *)
Lemma start_attached H me p s i : vfs_ok None H s → (if at_ p 0 =? SLASH then vfs_root s else mjoin (cwds s !! me)) = Some i → attached s i.
Proof.
  intros Hok. destruct (at_ p 0 =? SLASH); [by left|]. destruct (cwds s !! me) as [[c|]|] eqn:Hc; cbn; [|done..].
  intros [= <-]. destruct (vo_cwd _ _ _ Hok c) as (_ & _ & _ & Ha); [by eapply list_elem_of_lookup_2|]. by apply Ha.
Qed.

Lemma namex_ok fuel me path nameiparent follow s0 H0 H s : vfs_ok None H0 s0 → alike s0 s → vfs_ok None H s →
  follows (p_namex fuel me path nameiparent follow s0) (namex fuel me path nameiparent follow s) (found_last s0 H nameiparent).
Proof.
  intros Hok0. revert path nameiparent follow H s. induction fuel as [|fuel IH]; intros path nameiparent follow H s Hal Hok; cbn [p_namex namex]; [done|].
  rewrite (al_root _ _ Hal), (al_cwds _ _ Hal). destruct path as [|c path]; [by exists s|]. set (p := c :: path) in *.
  destruct (if at_ p 0 =? SLASH then vfs_root s0 else mjoin (cwds s0 !! me)) as [i|] eqn:Hstart; [|by exists s].
  pose proof (start_attached H0 me p s0 i Hok0 Hstart) as Hatt.
  destruct (attached_live H s i Hok) as (ip & Hi & Hl); [by apply (alike_attached s0 s)|].
  destruct (idup_alike H s i ip Hok Hi Hl) as (s1 & -> & Hal1 & Hok1). run.
  apply (walk_ok s0 _ _) with H0; try done; [|apply Hok|by transitivity s].
  intros target H' s' Hal' Hok'. eapply follows_bind; [by apply IH|]. intros r s2 [Hf _]. cbn. by exists s2.
Qed.

(** * How resolution depends on the tree: the components of a path,
    the last component against the directory before it, and resolution in a tree
    with fewer entries. *)

(** ** Components *)

Lemma skip_slashes_suffix p : ∃ q, p = q ++ skip_slashes p.
Proof.
  induction p as [|c p IH]; cbn [skip_slashes]; [by exists []|]. destruct (c =? SLASH); [|by exists []].
  destruct IH as [q E]. exists (c :: q). cbn. by rewrite <- E.
Qed.

Lemma skip_slashes_head p : match skip_slashes p with [] => True | c :: _ => c ≠ SLASH end.
Proof. induction p as [|c p IH]; cbn [skip_slashes]; [done|]. destruct (Z.eqb_spec c SLASH); done. Qed.

Lemma elem_split p : p = head_elem p ++ after_elem p.
Proof. induction p as [|c p IH]; cbn [head_elem after_elem]; [done|]. destruct (c =? SLASH); [done|]. cbn. by rewrite <- IH. Qed.

Lemma head_elem_slash p : SLASH ∉ head_elem p.
Proof.
  induction p as [|c p IH]; cbn [head_elem]; [by intros ?%elem_of_nil|]. destruct (Z.eqb_spec c SLASH); [by intros ?%elem_of_nil|].
  rewrite elem_of_cons. naive_solver.
Qed.

Lemma skipelem_valid p name rest : cstring p → skipelem p = Some (name, rest) → valid_name name ∧ cstring rest.
Proof.
  intros Hp. unfold skipelem. destruct (skip_slashes_suffix p) as [q Hq]. pose proof (skip_slashes_head p) as Hh.
  destruct (skip_slashes p) as [|c l] eqn:Hs; [done|]. intros [= <- <-]. set (p' := c :: l) in *.
  assert (cstring p') as Hp' by (unfold cstring in *; rewrite Hq in Hp; by apply Forall_app in Hp as [_ ?]).
  pose proof (elem_split p') as He. assert (cstring (head_elem p') ∧ cstring (after_elem p')) as [Hhe Hae].
  { unfold cstring in *. rewrite He in Hp'. by apply Forall_app in Hp'. }
  split; [split_and!|].
  - unfold p'. cbn [head_elem]. destruct (Z.eqb_spec c SLASH); [done|]. by unfold DIRSIZ.
  - rewrite length_take. unfold DIRSIZ, NAME_MAX. lia.
  - by apply Forall_take.
  - intros Hin. apply (head_elem_slash p'). rewrite <- (take_drop (DIRSIZ - 1) (head_elem p')). set_solver.
  - destruct (skip_slashes_suffix (after_elem p')) as [q' Hq']. unfold cstring in *. rewrite Hq' in Hae. by apply Forall_app in Hae as [_ ?].
Qed.

Lemma elems_loop_valid n p : cstring p → Forall valid_name (elems_loop n p).
Proof.
  revert p. induction n as [|n IH]; intros p Hp; cbn [elems_loop]; [done|]. destruct (skipelem p) as [[e rest]|] eqn:He; [|done].
  destruct (skipelem_valid p e rest Hp He) as [? ?]. constructor; auto.
Qed.

Lemma elems_valid p : cstring p → Forall valid_name (elems p).
Proof. apply elems_loop_valid. Qed.

Lemma elems_cstring p : cstring p → Forall cstring (elems p).
Proof. intros Hp. eapply Forall_impl; [by apply elems_valid|]. by intros n (_ & _ & ? & _). Qed.

(** ** The last component *)

Section Last.
Context (resolve : str → outcome (option nat)) (s : fsys).

Lemma p_walk_name comps follow i dp name : p_walk resolve s comps true follow i = Done (Some (dp, name)) → name ∈ comps.
Proof.
  revert i. induction comps as [|e comps IH]; intros i; cbn [p_walk]; [done|]. destruct (inodes s !! i) as [ip|]; [|done].
  cbn [deref]. run. destruct (negb (itype ip =? T_DIR)); [done|]. cbn [andb]. case_bool_decide as Hl.
  { intros E. injection E as <- <-. by left. }
  intros E. right. destruct (name_eq e DOT); [by eapply IH|]. destruct (name_eq e DOTDOT); [by eapply IH|].
  destruct (entry s i e) as [next|]; [|done]. cbn [andb] in E.
  destruct (p_links resolve s (S (S MAXSYMLINKS)) 0 next) as [[n2|]| | |]; try done. by eapply IH.
Qed.

(** Whether the last link is followed does not matter for its directory. *)
Lemma p_walk_follow comps follow i : p_walk resolve s comps true follow i = p_walk resolve s comps true true i.
Proof.
  revert i. induction comps as [|e comps IH]; intros i; cbn [p_walk]; [done|]. destruct (inodes s !! i) as [ip|]; [|done]. cbn [deref andb]. run.
  destruct (negb (itype ip =? T_DIR)); [done|]. case_bool_decide as Hc; [done|]. cbn [andb]. rewrite !IH.
  destruct (name_eq e DOT); [done|]. destruct (name_eq e DOTDOT); [done|]. destruct (entry s i e) as [next|]; [|done].
  destruct (p_links resolve s (S (S MAXSYMLINKS)) 0 next) as [[n2|]| | |]; [apply IH|done..].
Qed.

(** Resolving a path is resolving its directory, then the last component. *)
Lemma p_walk_last comps follow i : comps ≠ [] →
  p_walk resolve s comps false follow i =
    (r ← p_walk resolve s comps true follow i;
     match r with None => mret None | Some (dp, name) => p_walk resolve s [name] false follow dp end).
Proof.
  revert i. induction comps as [|e comps IH]; intros i Hne; [done|]. destruct (decide (comps = [])) as [->|Hc].
  - cbn [p_walk]. destruct (inodes s !! i) as [ip|] eqn:Hi; [|done]. cbn [deref andb]. run.
    destruct (negb (itype ip =? T_DIR)) eqn:Ht; [done|]. rewrite bool_decide_true by done. run. cbn [p_walk]. rewrite Hi. cbn [deref]. run.
    by rewrite Ht.
  - cbn [p_walk]. destruct (inodes s !! i) as [ip|] eqn:Hi; [|done]. cbn [deref andb]. run. destruct (negb (itype ip =? T_DIR)); [done|].
    rewrite bool_decide_false by done. cbn [andb]. destruct (name_eq e DOT); [by apply IH|]. destruct (name_eq e DOTDOT); [by apply IH|].
    destruct (entry s i e) as [next|]; [|done]. destruct (p_links resolve s (S (S MAXSYMLINKS)) 0 next) as [[n2|]| | |]; try done.
    by apply IH.
Qed.
End Last.

Lemma p_namex_last fuel me path s fo dp name : p_namex (S fuel) me path true true s = Done (Some (dp, name)) →
  p_namex (S fuel) me path false fo s =
    p_walk (λ target, r ← p_namex fuel me target false true s; mret (option_map fst r)) s [name] false fo dp.
Proof.
  cbn [p_namex]. destruct path as [|c p]; [done|]. destruct (if _ =? SLASH then _ else _) as [i|]; [|done]. intros E.
  assert (elems (c :: p) ≠ []) as Hne by (intros E2; by rewrite E2 in E). rewrite p_walk_last by done. by rewrite p_walk_follow, E.
Qed.

(** A path without one leads nowhere. *)
Lemma p_namex_nodir fuel me path s fo : p_namex (S fuel) me path true true s = Done None → elems path ≠ [] →
  p_namex (S fuel) me path false fo s = Done None.
Proof.
  cbn [p_namex]. destruct path as [|c p]; [done|]. destruct (if _ =? SLASH then _ else _) as [i|]; [|done]. intros E Hne.
  rewrite p_walk_last by done. by rewrite p_walk_follow, E.
Qed.

Lemma p_namex_comps fuel me path s r : p_namex (S fuel) me path true true s = Done (Some r) → elems path ≠ [].
Proof. cbn [p_namex]. destruct path as [|c p]; [done|]. destruct (if _ =? SLASH then _ else _) as [i|]; [|done]. intros E E2. by rewrite E2 in E. Qed.

(** ** A tree with fewer entries *)

Record extends (s s' : fsys) : Prop := {
  ex_node j jp : inodes s !! j = Some jp → attached s j → ∃ jp', inodes s' !! j = Some jp' ∧
    itype jp' = itype jp ∧ data jp' = data jp ∧ size jp' = size jp ∧ iparent jp' = iparent jp;
  ex_entry j n i : cstring n → entry s j n = Some i → entry s' j n = Some i;
  ex_root : vfs_root s' = vfs_root s;
  ex_cwds : cwds s' = cwds s
}.

(** The smaller tree finds nothing or the same. *)
Definition smaller {A} (p q : outcome (option A)) : Prop := p = Done None ∨ p = q.

Lemma smaller_bind {A B} (p q : outcome (option A)) (f g : option A → outcome (option B)) :
  smaller p q → f None = Done None → (∀ a, p = Done (Some a) → smaller (f (Some a)) (g (Some a))) → g None = Done None →
  smaller (p ≫= f) (q ≫= g).
Proof.
  intros [->| ->] Hf Hs Hg; [by left|]. destruct q as [[a|]| | |]; try (by right).
  - by apply Hs.
  - cbn. rewrite Hf. by left.
Qed.

Lemma entry_attached H s j n i : vfs_ok None H s → entry s j n = Some i → attached s i.
Proof.
  intros Hok. unfold entry. destruct (inodes s !! j) as [jp|] eqn:Hj; [|done]. cbn. destruct (find_dentry (dents jp) n) as [d|] eqn:Hf; [|done].
  intros [= <-]. right. apply links_pos. exists j, jp, d. split_and!; try done. by eapply find_dentry_in.
Qed.

Lemma cstr_cstring l : bytes l → cstring (cstr l).
Proof.
  induction 1 as [|c l Hc Hl IH]; cbn [cstr]; [constructor|]. destruct (Z.eqb_spec c 0); [constructor|]. constructor; [lia|done].
Qed.

Lemma link_text_cstring ip : node_ok ip → cstring (cstr (link_text ip)).
Proof.
  intros Hn. apply cstr_cstring. unfold link_text. pose proof (no_data _ Hn) as Hd. destruct (data ip); [|constructor].
  apply Forall_take, Hd.
Qed.

Section Smaller.
Context (H : nat → Z) (s s' : fsys) (res res' : str → outcome (option nat)).
Hypothesis Hok : vfs_ok None H s.
Hypothesis Hex : extends s s'.
Hypothesis Hres : ∀ t, cstring t → smaller (res t) (res' t).
Hypothesis Hatt : ∀ t i, res t = Done (Some i) → attached s i.

Lemma p_follow_attached link depth i : p_follow res s link depth = Done (Some i) → attached s i.
Proof.
  unfold p_follow. destruct (_ <? _)%nat; [done|]. destruct (inodes s !! link) as [ip|]; [|done]. destruct (link_text ip) as [|c t]; [done|].
  destruct (at_ _ 0 =? SLASH); [apply Hatt|]. destruct (bool_decide _); [done|]. intros E. injection E as E.
  destruct (iparent ip); [|done]. by eapply entry_attached.
Qed.

Lemma p_follow_smaller link depth : attached s link → smaller (p_follow res s link depth) (p_follow res' s' link depth).
Proof.
  intros Hl. unfold p_follow. destruct (_ <? _)%nat; [by right|]. destruct (attached_live H s link Hok Hl) as (ip & Hi & _).
  destruct (ex_node _ _ Hex link ip Hi Hl) as (ip' & Hi' & _ & E2 & E3 & E4). rewrite Hi, Hi'.
  assert (link_text ip' = link_text ip) as -> by (unfold link_text; by rewrite E2, E3).
  pose proof (link_text_cstring ip (vo_node _ _ _ Hok link ip Hi)) as Hc. destruct (link_text ip) as [|c t]; [by right|].
  destruct (at_ _ 0 =? SLASH); [by apply Hres|]. destruct (bool_decide _); [by right|]. rewrite E4. destruct (iparent ip) as [p|]; [|by right].
  destruct (entry s p _) as [k|] eqn:He; [|by left]. right. by rewrite (ex_entry _ _ Hex _ _ _ Hc He).
Qed.

Lemma p_links_smaller n depth next : attached s next → smaller (p_links res s n depth next) (p_links res' s' n depth next).
Proof.
  revert depth next. induction n as [|n IH]; intros depth next Hn; cbn [p_links]; [by right|].
  destruct (attached_live H s next Hok Hn) as (ip & Hi & _). destruct (ex_node _ _ Hex next ip Hi Hn) as (ip' & Hi' & E1 & _).
  rewrite Hi, Hi'. cbn [deref]. run. rewrite E1. destruct (itype ip =? T_LNK); [|by right].
  apply smaller_bind; [by apply p_follow_smaller|done| |done]. intros k Hk. apply IH. by eapply p_follow_attached.
Qed.

Lemma p_links_attached n depth next i : attached s next → p_links res s n depth next = Done (Some i) → attached s i.
Proof.
  revert depth next. induction n as [|n IH]; intros depth next Hn; cbn [p_links]; [done|]. destruct (inodes s !! next) as [ip|]; [|done].
  cbn [deref]. run. destruct (itype ip =? T_LNK); [|by intros E; injection E as <-].
  destruct (p_follow res s next (S depth)) as [[k|]| | |] eqn:Hk; try done. apply IH. by eapply p_follow_attached.
Qed.

Lemma p_walk_smaller comps nameiparent follow i : Forall cstring comps → attached s i →
  smaller (p_walk res s comps nameiparent follow i) (p_walk res' s' comps nameiparent follow i).
Proof.
  intros Hcs. revert i. induction Hcs as [|name comps Hc _ IH]; intros i Hi; cbn [p_walk]; [by right|].
  destruct (attached_live H s i Hok Hi) as (ip & Hip & _). destruct (ex_node _ _ Hex i ip Hip Hi) as (ip' & Hip' & E1 & _ & _ & E4).
  rewrite Hip, Hip'. cbn [deref]. run. rewrite E1. destruct (Z.eqb_spec (itype ip) T_DIR) as [Ht|Ht]; cbn [negb]; [|by right].
  destruct (nameiparent && bool_decide (comps = [])); [by right|]. destruct (name_eq name DOT); [by apply IH|]. destruct (name_eq name DOTDOT).
  { rewrite E4. destruct (parent_attached s H i ip Hok Hip Ht Hi) as (p & -> & Hp). by apply IH. }
  destruct (entry s i name) as [next|] eqn:He; [|by left]. rewrite (ex_entry _ _ Hex _ _ _ Hc He).
  pose proof (entry_attached H s i name next Hok He) as Hn.
  apply smaller_bind; [|done| |done].
  - destruct (_ && _); [by right|]. by apply p_links_smaller.
  - intros k Hk. apply IH. destruct (_ && _); [by injection Hk as <-|]. by eapply p_links_attached.
Qed.

Lemma p_walk_attached comps nameiparent follow i r : attached s i →
  p_walk res s comps nameiparent follow i = Done (Some r) → attached s r.1.
Proof.
  revert i. induction comps as [|name comps IH]; intros i Hi; cbn [p_walk].
  { intros E. injection E as E. destruct nameiparent; [done|]. by injection E as <-. }
  destruct (inodes s !! i) as [ip|] eqn:Hip; [|done]. cbn [deref]. run. destruct (Z.eqb_spec (itype ip) T_DIR) as [Ht|Ht]; cbn [negb]; [|done].
  destruct (nameiparent && bool_decide (comps = [])); [by intros E; injection E as <-|]. destruct (name_eq name DOT); [by apply IH|].
  destruct (name_eq name DOTDOT).
  { destruct (parent_attached s H i ip Hok Hip Ht Hi) as (p & -> & Hp). by apply IH. }
  destruct (entry s i name) as [next|] eqn:He; [|done]. pose proof (entry_attached H s i name next Hok He) as Hn.
  destruct (bool_decide (comps = []) && negb follow); [by apply IH|].
  destruct (p_links res s (S (S MAXSYMLINKS)) 0 next) as [[k|]| | |] eqn:Hk; try done. apply IH. by eapply p_links_attached.
Qed.
End Smaller.

(** Everything a path leads to is in the tree. *)
Lemma p_namex_attached H s fuel me path nameiparent follow r : vfs_ok None H s →
  p_namex fuel me path nameiparent follow s = Done (Some r) → attached s r.1.
Proof.
  intros Hok. revert path nameiparent follow r. induction fuel as [|fuel IH]; intros path nameiparent follow r; cbn [p_namex]; [done|].
  destruct path as [|c path]; [done|]. destruct (if _ =? SLASH then _ else _) as [i|] eqn:Hs; [|done].
  apply (p_walk_attached H); [done| |by eapply start_attached]. intros t j Ht.
  destruct (p_namex fuel me t false true s) as [[k|]| | |] eqn:Hk; try done. injection Ht as <-. by eapply IH.
Qed.

Lemma p_namex_smaller H s s' fuel me path nameiparent follow : vfs_ok None H s → extends s s' → cstring path →
  smaller (p_namex fuel me path nameiparent follow s) (p_namex fuel me path nameiparent follow s').
Proof.
  intros Hok Hex. revert path nameiparent follow. induction fuel as [|fuel IH]; intros path nameiparent follow Hp; cbn [p_namex]; [by right|].
  destruct path as [|c path]; [by right|]. rewrite (ex_root _ _ Hex), (ex_cwds _ _ Hex).
  destruct (if _ =? SLASH then _ else _) as [i|] eqn:Hs; [|by right]. apply (p_walk_smaller H); try done; [..|by apply elems_cstring|by eapply start_attached].
  - intros t Ht. apply smaller_bind; [by apply IH|done|by right|done].
  - intros t j Ht. destruct (p_namex fuel me t false true s) as [[k|]| | |] eqn:Hk; try done. injection Ht as <-. by apply (p_namex_attached H) in Hk.
Qed.
