(* ===== verification/NameiOps.v ===== *)
(** [NameiOps]: the calls that take paths, on top of resolution
    ([NameiSpec]) and of ramfs ([RamfsSpec], [RamfsRename]). *)
From Stdlib Require Import ZArith Lia.
From stdpp Require Import numbers strings gmap list.
From S2P Require Import Prelude Vfs VfsInv RamfsSpec RamfsRename Namei NameiSpec.
Open Scope Z_scope.

(** ** Changes to one entry *)

(** The entry [name] of [dir] becomes [v]; what is in use before and after is the same file. *)
Record edits (dir : nat) (name : str) (v : option nat) (s s' : fsys) : Prop := {
  ed_entry j n : cstring n → entry s' j n = if decide (at_name dir name j n) then v else entry s j n;
  ed_node j jp jp' : inodes s !! j = Some jp → inodes s' !! j = Some jp' → itype jp ≠ 0 → itype jp' ≠ 0 →
    same_file jp jp' ∧ iparent jp' = iparent jp;
  ed_root : vfs_root s' = vfs_root s;
  ed_cwds : cwds s' = cwds s
}.

(** No entry changes. *)
Record stays (s s' : fsys) : Prop := {
  st_entry j n : cstring n → entry s' j n = entry s j n;
  st_node j jp jp' : inodes s !! j = Some jp → inodes s' !! j = Some jp' → itype jp ≠ 0 → itype jp' ≠ 0 →
    same_file jp jp' ∧ iparent jp' = iparent jp;
  st_root : vfs_root s' = vfs_root s;
  st_cwds : cwds s' = cwds s
}.

Lemma alike_stays s s' : alike s s' → stays s s'.
Proof.
  intros Hal. split; [intros; by apply alike_entry| |apply Hal..]. intros j jp jp' Hj Hj' _ _.
  destruct (alike_at s s' j jp Hal Hj) as (j2 & E & Hs). rewrite Hj' in E. injection E as <-.
  apply strip_fields in Hs as (? & ? & ? & ? & ? & _ & _ & _ & _ & _ & _ & ?). by split.
Qed.

Lemma attached_entry H s j : vfs_ok None H s → attached s j ↔ vfs_root s = Some j ∨ ∃ k n, cstring n ∧ entry s k n = Some j.
Proof.
  intros Hok. split; (intros [?|Hl]; [by left|right]).
  - apply links_pos in Hl as (k & kp & d & Hk & Hd & Hdj). pose proof (no_dents _ (vo_node _ _ _ Hok k kp Hk)) as [_ Hv].
    rewrite Forall_forall in Hv. destruct (Hv d Hd) as (_ & _ & Hc & _). exists k, (d_name d). split; [done|].
    apply (entry_iff None H); [done..|]. exists kp. split; [done|]. rewrite <- Hdj. by destruct d.
  - destruct Hl as (k & n & Hn & He). apply (entry_iff None H) in He as (kp & Hk & Hin); [|done..]. apply links_pos. by exists k, kp, (Dentry n j).
Qed.

Section Edits.
Context (H H' : nat → Z) (s s' : fsys).
Hypothesis Hok : vfs_ok None H s.
Hypothesis Hok' : vfs_ok None H' s'.

Lemma stays_attached j : stays s s' → attached s' j ↔ attached s j.
Proof.
  intros Hst. rewrite (attached_entry H' s'), (attached_entry H s), (st_root _ _ Hst) by done.
  split; (intros [?|(k & n & Hn & He)]; [by left|right; exists k, n; split; [done|]]); [by rewrite <- (st_entry _ _ Hst)|by rewrite (st_entry _ _ Hst)].
Qed.

Lemma slot_both j jp : inodes s !! j = Some jp → ∃ jp', inodes s' !! j = Some jp'.
Proof. intros Hj. apply lookup_lt_is_Some_2. rewrite (vo_len _ _ _ Hok'), <- (vo_len _ _ _ Hok). by eapply lookup_lt_Some. Qed.

Lemma edits_attached dir name v j : edits dir name v s s' → (entry s dir name = Some j → v = Some j) → attached s j → attached s' j.
Proof.
  intros Hed Hv. rewrite (attached_entry H' s'), (attached_entry H s), (ed_root _ _ _ _ _ Hed) by done.
  intros [?|(k & n & Hn & He)]; [by left|right]. exists k, n. split; [done|]. rewrite (ed_entry _ _ _ _ _ Hed) by done.
  case_decide as Hc; [|done]. destruct Hc as [-> ->]. auto.
Qed.

(** What is in use in both is the same. *)
Lemma attached_node (P : ∀ j jp jp', inodes s !! j = Some jp → inodes s' !! j = Some jp' → itype jp ≠ 0 → itype jp' ≠ 0 →
    same_file jp jp' ∧ iparent jp' = iparent jp) j jp :
  inodes s !! j = Some jp → attached s j → attached s' j → ∃ jp', inodes s' !! j = Some jp' ∧ same_file jp jp' ∧ iparent jp' = iparent jp.
Proof.
  intros Hj Ha Ha'. destruct (attached_live H s j Hok Ha) as (? & E & Hl). rewrite Hj in E. injection E as <-.
  destruct (attached_live H' s' j Hok' Ha') as (jp' & Hj' & Hl'). exists jp'. split; [done|]. by apply (P j).
Qed.

(** A new entry makes the tree larger. *)
Lemma edits_extends dir name i : edits dir name (Some i) s s' → cstring name → entry s dir name = None → extends s s'.
Proof.
  intros Hed Hn Hnone. assert (∀ j, attached s j → attached s' j) as Hatt by (intros j; eapply edits_attached; [done|by rewrite Hnone]).
  split; [..|apply Hed|apply Hed].
  - intros j jp Hj Ha. destruct (attached_node (ed_node _ _ _ _ _ Hed) j jp Hj Ha (Hatt j Ha)) as (jp' & Hj' & (? & ? & ? & ? & ?) & ?). by exists jp'.
  - intros j n k Hc He. rewrite (ed_entry _ _ _ _ _ Hed) by done. case_decide as Hd; [|done]. destruct Hd as [-> ->]. congruence.
Qed.
End Edits.

(** Without an entry it is smaller. *)
Lemma edits_shrinks H H' s s' dir name : vfs_ok None H s → vfs_ok None H' s' → edits dir name None s s' → extends s' s.
Proof.
  intros Hok Hok' Hed.
  assert (∀ j n k, cstring n → entry s' j n = Some k → entry s j n = Some k) as He.
  { intros j n k Hn. rewrite (ed_entry _ _ _ _ _ Hed) by done. by case_decide. }
  assert (∀ j, attached s' j → attached s j) as Hatt.
  { intros j. rewrite (attached_entry H' s'), (attached_entry H s), (ed_root _ _ _ _ _ Hed) by done.
    intros [?|(k & n & Hn & Hk)]; [by left|right]. exists k, n. auto. }
  split; [..|symmetry; apply Hed|symmetry; apply Hed].
  - intros j jp' Hj' Ha. destruct (attached_live H s j Hok (Hatt j Ha)) as (jp & Hj & Hl).
    destruct (attached_live H' s' j Hok' Ha) as (? & E & Hl'). rewrite Hj' in E. injection E as <-.
    destruct (ed_node _ _ _ _ _ Hed j jp jp' Hj Hj' Hl Hl') as [(? & ? & ? & ? & ?) ?]. exists jp. by split_and!.
  - done.
Qed.

Lemma stays_extends H H' s s' : vfs_ok None H s → vfs_ok None H' s' → stays s s' → extends s s'.
Proof.
  intros Hok Hok' Hst. split; [..|apply Hst|apply Hst].
  - intros j jp Hj Ha. destruct (attached_node H H' s s' Hok Hok' (st_node _ _ Hst) j jp Hj Ha) as (jp' & Hj' & (? & ? & ? & ? & ?) & ?);
      [by apply (stays_attached H H' s s')|]. by exists jp'.
  - intros j n k Hn. by rewrite (st_entry _ _ Hst).
Qed.

Lemma stays_sym s s' : stays s s' → stays s' s.
Proof.
  intros [S1 S2 S3 S4]. split; try done; [intros; symmetry; by apply S1|]. intros j jp jp' Hj Hj' Hl Hl'.
  destruct (S2 j jp' jp Hj' Hj Hl' Hl) as [(? & ? & ? & ? & ?) ?]. by split.
Qed.

(** Resolution does not see it. *)
Lemma stays_namex H H' s s' fuel me path np fo : vfs_ok None H s → vfs_ok None H' s' → stays s s' → cstring path →
  p_namex fuel me path np fo s' = p_namex fuel me path np fo s.
Proof.
  intros Hok Hok' Hst Hp.
  destruct (p_namex_smaller H s s' fuel me path np fo Hok) as [E1|E1]; [by apply (stays_extends H H')|done| |done].
  destruct (p_namex_smaller H' s' s fuel me path np fo Hok') as [E2|E2]; [by apply (stays_extends H' H), stays_sym|done|congruence|done].
Qed.

(** Between states that are alike. *)
Lemma node_alike s1 s2 s3 s4 : alike s1 s2 → alike s3 s4 →
  (∀ j jp jp', inodes s2 !! j = Some jp → inodes s3 !! j = Some jp' → itype jp ≠ 0 → itype jp' ≠ 0 → same_file jp jp' ∧ iparent jp' = iparent jp) →
  ∀ j jp jp', inodes s1 !! j = Some jp → inodes s4 !! j = Some jp' → itype jp ≠ 0 → itype jp' ≠ 0 → same_file jp jp' ∧ iparent jp' = iparent jp.
Proof.
  intros H12 H34 P j jp jp' Hj Hj' Hl Hl'. destruct (alike_at s1 s2 j jp H12 Hj) as (j2 & Hj2 & E2).
  destruct (alike_at s4 s3 j jp') as (j3 & Hj3 & E3); [by symmetry|done|].
  apply strip_fields in E2 as (A1 & A2 & A3 & A4 & A5 & _ & _ & _ & _ & _ & _ & A6), E3 as (B1 & B2 & B3 & B4 & B5 & _ & _ & _ & _ & _ & _ & B6).
  destruct (P j j2 j3 Hj2 Hj3) as [(C1 & C2 & C3 & C4 & C6) C5]; [congruence..|]. unfold same_file. split_and!; congruence.
Qed.

Lemma edits_alike dir name v s1 s2 s3 s4 : alike s1 s2 → edits dir name v s2 s3 → alike s3 s4 → edits dir name v s1 s4.
Proof.
  intros H12 [E1 E2 E3 E4] H34. split.
  - intros j n Hn. rewrite (alike_entry s3 s4 H34), E1, (alike_entry s1 s2 H12) by done. done.
  - by apply (node_alike s1 s2 s3 s4).
  - rewrite (al_root _ _ H34), E3. apply H12.
  - rewrite (al_cwds _ _ H34), E4. apply H12.
Qed.

Lemma stays_alike s1 s2 s3 s4 : alike s1 s2 → stays s2 s3 → alike s3 s4 → stays s1 s4.
Proof.
  intros H12 [E1 E2 E3 E4] H34. split.
  - intros j n Hn. rewrite (alike_entry s3 s4 H34), E1, (alike_entry s1 s2 H12) by done. done.
  - by apply (node_alike s1 s2 s3 s4).
  - rewrite (al_root _ _ H34), E3. apply H12.
  - rewrite (al_cwds _ _ H34), E4. apply H12.
Qed.

(** ** The changes of ramfs as changes of entries *)

Lemma entry_free H s j jp n : vfs_ok None H s → inodes s !! j = Some jp → itype jp ≠ T_DIR → entry s j n = None.
Proof. intros Hok Hj Ht. rewrite (find_entry s j jp) by done. by rewrite (no_dir _ (vo_node _ _ _ Hok j jp Hj) Ht). Qed.

Section Changes.
Context (H H' : nat → Z) (s s' : fsys).
Hypothesis Hok : vfs_ok None H s.
Hypothesis Hok' : vfs_ok None H' s'.

Lemma untouched_stays : untouched s s' → stays s s'.
Proof.
  intros (U1 & U2 & U3 & U4). split; try done.
  - intros j n Hn. destruct (inodes s !! j) as [jp|] eqn:Hj.
    + destruct (slot_both H H' s s' Hok Hok' j jp Hj) as [jp' Hj']. destruct (decide (itype jp = 0)) as [Hz|Hl].
      * rewrite (entry_free H s j jp) by (done || by rewrite Hz). destruct (decide (itype jp' = 0)) as [Hz'|Hl'].
        -- apply (entry_free H' s' j jp'); [done..|by rewrite Hz'].
        -- rewrite (U2 j jp' Hj' Hl') in Hj. congruence.
      * pose proof (U1 j jp Hj Hl) as E. by rewrite (find_entry s j jp), (find_entry s' j jp).
    + unfold entry. rewrite Hj. assert (inodes s' !! j = None) as ->; [|done]. apply lookup_ge_None_2.
      rewrite (vo_len _ _ _ Hok'), <- (vo_len _ _ _ Hok). by apply lookup_ge_None_1.
  - intros j jp jp' Hj Hj' Hl _. rewrite (U1 j jp Hj Hl) in Hj'. by injection Hj' as <-.
Qed.

Lemma entry_cons dir dp name i n : inodes s !! dir = Some dp → inodes s' !! dir = Some (with_dents (Dentry name i :: dents dp) dp) →
  entry s dir name = None → cstring n → entry s' dir n = if decide (at_name dir name dir n) then Some i else entry s dir n.
Proof.
  intros Hd Hd' Hnone Hn. apply (entry_ext H' s' Hok'); [done|]. intros k. rewrite Hd'. destruct (decide (at_name dir name dir n)) as [[_ ->]|Hna].
  - split; [intros (? & [= <-] & [[= ->]|Hin]%elem_of_cons); [done|]|intros [= <-]; eexists; split; [done|by left]].
    assert (entry s dir name = Some k) by (apply (entry_iff None H); [done..|by exists dp]). congruence.
  - rewrite (entry_iff None H) by done. split.
    + intros (? & [= <-] & [[= -> _]|Hin]%elem_of_cons); [by destruct Hna|by exists dp].
    + intros (? & E & Hin). rewrite Hd in E. injection E as <-. eexists. split; [done|by right].
Qed.

Lemma added_edits dir dp name i ip0 ip : inodes s !! i = Some ip0 → itype ip0 = 0 → inodes s !! dir = Some dp → itype dp = T_DIR →
  cstring name → find_dentry (dents dp) name = None → added dir name i ip s s' → edits dir name (Some i) s s'.
Proof.
  intros Hi0 Hz Hd Ht Hn Hf [A1 A2 A3 A4 A5]. assert (dir ≠ i) as Hne by (intros ->; unfold T_DIR in Ht; congruence).
  assert (entry s dir name = None) as Hnone by by rewrite (find_entry s dir dp), Hf. split; try done.
  - intros j n Hc. destruct (decide (j = dir)) as [->|Hjd]; [|rewrite decide_False by (by intros [? _]); destruct (decide (j = i)) as [->|Hji]].
    + by apply (entry_cons dir dp name i n Hd (A2 dp Hd)).
    + destruct A1 as (r & Hi' & Hde). rewrite (find_entry s' i _ n Hi'). cbn [dents with_place with_ref]. rewrite Hde. symmetry.
      apply (entry_free H s i ip0); [done..|by rewrite Hz].
    + unfold entry. by rewrite A3.
  - intros j jp jp' Hj Hj' Hl _. assert (j ≠ i) as Hji by congruence. destruct (decide (j = dir)) as [->|Hjd].
    + rewrite (A2 jp Hj) in Hj'. by injection Hj' as <-.
    + rewrite A3, Hj in Hj' by done. by injection Hj' as <-.
Qed.

Lemma removed_edits dir name i : removed dir name i s s' → i ≠ dir → edits dir name None s s'.
Proof.
  intros Hrm Hne. pose proof Hrm as [R1 R2 Rl R3 R4 R5]. split; try done.
  - intros j n Hn. by apply (entry_removed H H' s s' Hok Hok' dir name i).
  - intros j jp jp' Hj Hj' Hl Hl'. destruct (decide (j = i)) as [->|Hji]; [|destruct (decide (j = dir)) as [->|Hjd]].
    + destruct (R2 jp Hj) as (? & E & Hc). rewrite Hj' in E. injection E as <-. destruct Hc as [?|(? & ? & ? & ? & ? & _ & ?)]; [done|]. by split.
    + destruct (R1 jp Hj) as (l & E & _). rewrite Hj' in E. by injection E as ->.
    + rewrite R3, Hj in Hj' by done. by injection Hj' as <-.
Qed.
End Changes.

(** ** The directory of a path *)

Section Paths.
Context (fuel me : nat).

Definition p_parent (path : str) (s : fsys) : outcome (option (nat * str)) :=
  if bool_decide (path = []) then mret None
  else
    r ← p_namex fuel me path true true s;
    mret (match r with
          | Some (dp, name) => if bool_decide (name = []) || name_eq name DOT || name_eq name DOTDOT then None else Some (dp, name)
          | None => None
          end).

(** The caller holds the directory [dp], of [s0]. *)
Definition at_dir (s0 : fsys) (H : nat → Z) (r : option (nat * str)) (s : fsys) : Prop :=
  alike s0 s ∧
  match r with
  | None => vfs_ok None H s
  | Some (dp, name) => vfs_ok None (plus H dp) s ∧ valid_name name ∧ ∃ d, in_tree s dp d
  end.

Lemma namex_name path s i name : cstring path → p_namex fuel me path true true s = Done (Some (i, name)) → valid_name name.
Proof.
  intros Hp. destruct fuel as [|n]; cbn [p_namex]; [done|]. destruct path as [|c p]; [done|]. destruct (if _ =? SLASH then _ else _); [|done].
  intros E%p_walk_name. by apply (proj1 (Forall_forall _ _) (elems_valid (c :: p) Hp)).
Qed.

Lemma nameiparent_ok path s H : vfs_ok None H s → cstring path →
  follows (p_namex fuel me path true true s) (namex fuel me path true true s) (at_dir s H).
Proof.
  intros Hok Hp. pose proof (namex_ok fuel me path true true s H H s Hok (reflexivity s) Hok) as Hf. unfold follows in *.
  destruct (p_namex fuel me path true true s) as [r| | |] eqn:Hr; try done. destruct Hf as (s' & -> & (Hal & Hok' & Hatt) & Hdir). exists s'.
  split; [done|]. split; [done|]. destruct r as [[dp name]|]; [|done]. cbn in *. split; [done|]. split; [by eapply namex_name|].
  destruct (Hdir eq_refl dp name eq_refl) as (d & Hd & Ht). destruct (alike_at s s' dp d Hal Hd) as (d' & Hd' & E). exists d'.
  split; [done|]. apply strip_fields in E as (E & _). split; [congruence|]. apply (alike_attached s s' Hal). auto.
Qed.

Lemma parent_of_ok path s H : vfs_ok None H s → cstring path →
  follows (p_parent path s) (parent_of fuel me path s) (at_dir s H).
Proof.
  intros Hok Hp. unfold p_parent, parent_of. destruct (bool_decide (path = [])); [by exists s|].
  eapply follows_bind; [by apply nameiparent_ok|]. intros [[dp name]|] s1 [Hal Hres]; [|by exists s1]. destruct Hres as (Hok1 & Hn & d & Hd).
  destruct (_ || _ || _).
  - destruct (ref_drop_ok s H s1 dp) as (s2 & -> & Hal2 & Hok2); try done; [apply Hok|apply (alike_attached s s1 Hal), Hd|]. run. by exists s2.
  - exists s1. split; [done|]. split; [done|]. by eauto.
Qed.

(** Both names a call looks at. *)
Lemma p_parent_name path s i name : p_parent path s = Done (Some (i, name)) →
  p_namex fuel me path true true s = Done (Some (i, name)) ∧ name_eq name DOT = false ∧ name_eq name DOTDOT = false.
Proof.
  unfold p_parent. destruct (bool_decide (path = [])); [done|]. destruct (p_namex fuel me path true true s) as [[[dp n]|]| | |]; try done. cbn.
  destruct (_ || _ || _) eqn:E; [done|]. intros E2. injection E2 as <- <-. apply orb_false_iff in E as [E ?]. by apply orb_false_iff in E as [_ ?].
Qed.
(** Every path can be resolved within the fuel. *)
Definition resolves (s : fsys) : Prop := ∀ path np fo, cstring path → p_namex fuel me path np fo s ≠ NoFuel.

(** The call returns, unless the fuel is not enough. *)
Definition ends {A} (s : fsys) (o : outcome A) (Q : A → Prop) : Prop :=
  match o with Done a => Q a | NoFuel => ¬ resolves s | _ => False end.

Lemma ends_parent {A} path s H (g : option (nat * str) * fsys → outcome A) Q : vfs_ok None H s → cstring path →
  (∀ r s1, p_parent path s = Done r → at_dir s H r s1 → ends s (g (r, s1)) Q) → ends s (parent_of fuel me path s ≫= g) Q.
Proof.
  intros Hok Hp Hg. pose proof (parent_of_ok path s H Hok Hp) as Hf. unfold follows in Hf.
  destruct (p_parent path s) as [r| | |] eqn:Hr; try done.
  - destruct Hf as (s1 & -> & Hd). by apply Hg.
  - rewrite Hf. cbn. intros Hres. unfold p_parent in Hr. destruct (bool_decide (path = [])); [done|].
    destruct (p_namex fuel me path true true s) eqn:E; try done. by apply (Hres path true true).
Qed.

(** Giving the directory up at the end of a call. *)
Lemma put_dir H s dp : (∀ j, 0 ≤ H j) → vfs_ok None (plus H dp) s → attached s dp →
  ∃ s', fs_iput dp s = Done s' ∧ alike s s' ∧ vfs_ok None H s'.
Proof. intros HH Hok Ha. by apply (ref_drop_ok s H s dp). Qed.

Lemma dir_ops H s dp d : vfs_ok None H s → in_tree s dp d → i_op d = Some ramfs_iops.
Proof.
  intros Hok (Hd & Ht & _). destruct (no_live _ (vo_node _ _ _ Hok dp d Hd)) as [_ (o & Ho & Hram)]; [by rewrite Ht|].
  rewrite Ho, Hram; [done|by rewrite Ht].
Qed.

(** ** Making things *)

(** A property of what an inode is. *)
Definition of_file (P : inode → Prop) : Prop :=
  ∀ ip ip', P ip → itype ip' = itype ip → rdev ip' = rdev ip → data ip' = data ip → size ip' = size ip → P ip'.

(** Nothing happens, or [path] leads to a new inode. *)
Definition made_path (path : str) (P : inode → Prop) (s : fsys) (r : Z) (s' : fsys) : Prop :=
  (r = -1 ∧ stays s s') ∨
  (r = 0 ∧ ∃ dp name i ip, p_parent path s = Done (Some (dp, name)) ∧ entry s dp name = None ∧ cstring name ∧
     edits dp name (Some i) s s' ∧ inodes s' !! i = Some ip ∧ P ip).

Lemma made_edits H H' s s' dir dp name (P : inode → Prop) r : vfs_ok None H s → vfs_ok None H' s' → in_tree s dir dp → valid_name name →
  made dir name P s r s' → (r = 0 → find_dentry (dents dp) name = None) → of_file P →
  (r = -1 ∧ stays s s') ∨
  (r = 0 ∧ entry s dir name = None ∧ ∃ i ip, edits dir name (Some i) s s' ∧ inodes s' !! i = Some ip ∧ P ip).
Proof.
  intros Hok Hok' (Hd & Ht & _) Hn Hm Hf HP. destruct Hm as [[-> Hu]|(-> & i & ip0 & ip & Hi0 & Hz & Hp & Had)].
  - left. split; [done|]. by apply (untouched_stays H H').
  - right. specialize (Hf eq_refl). split; [done|]. split; [by rewrite (find_entry s dir dp), Hf|].
    destruct (ad_new _ _ _ _ _ _ Had) as (c & Hi' & _). eexists i, _. split; [|split; [done|by apply (HP ip)]].
    by apply (added_edits H H' s s' Hok Hok' dir dp name i ip0 ip Hi0 Hz Hd Ht (proj1 (proj2 (proj2 Hn))) Hf Had).
Qed.

Lemma made_mono dir name (P Q : inode → Prop) s r s' : made dir name P s r s' → (∀ ip, P ip → Q ip) → made dir name Q s r s'.
Proof. intros [?|(-> & i & ip0 & ip & ? & ? & ? & ?)] HPQ; [by left|]. right. split; [done|]. exists i, ip0, ip. auto. Qed.

(** A call that makes something in the directory [dp] it holds. *)
Lemma make_ends H s path dp name d s1 (P : inode → Prop) (op : fsys → outcome (Z * fsys)) :
  (∀ j, 0 ≤ H j) → p_parent path s = Done (Some (dp, name)) → alike s s1 → vfs_ok None (plus H dp) s1 → valid_name name → in_tree s1 dp d →
  (∃ r s2, op s1 = Done (r, s2) ∧ vfs_ok None (plus H dp) s2 ∧ made dp name P s1 r s2 ∧ (r = 0 → find_dentry (dents d) name = None)) →
  of_file P →
  ∃ r s3, ('(r, s) ← op s1; s ← fs_iput dp s; mret (if r <? 0 then -1 else 0, s)) = Done (r, s3) ∧ vfs_ok None H s3 ∧ made_path path P s r s3.
Proof.
  intros HH Hpar Hal Hok1 Hn Hin (r & s2 & -> & Hok2 & Hm & Hf) HP. run. pose proof Hin as (Hd & Ht & Ha).
  destruct (made_edits _ _ s1 s2 dp d name P r Hok1 Hok2 Hin Hn Hm Hf HP) as [[-> Hst]|(-> & Hnone & i & ip & Hed & Hi & Hp)].
  - destruct (put_dir H s2 dp HH Hok2) as (s3 & -> & Hal3 & Hok3); [by apply (stays_attached _ _ s1 s2 Hok1 Hok2)|]. run.
    exists (-1), s3. split; [done|]. split; [done|]. left. split; [done|]. by apply (stays_alike s s1 s2 s3).
  - assert (attached s2 dp) as Ha2 by (eapply (edits_attached _ _ s1 s2 Hok1 Hok2); [done|by rewrite Hnone|done]).
    destruct (put_dir H s2 dp HH Hok2 Ha2) as (s3 & -> & Hal3 & Hok3). run.
    exists 0, s3. split; [done|]. split; [done|]. right. split; [done|].
    destruct (alike_at s2 s3 i ip Hal3 Hi) as (ip' & Hi' & E).
    apply strip_fields in E as (E1 & E2 & E3 & _ & _ & _ & _ & _ & _ & _ & E4 & _).
    exists dp, name, i, ip'. split; [done|]. split; [by rewrite <- (alike_entry s s1 Hal)|]. split; [apply Hn|].
    split; [by apply (edits_alike _ _ _ s s1 s2 s3)|]. split; [done|]. by apply (HP ip).
Qed.

Lemma fs_mkdir_ok path s H : vfs_ok None H s → cstring path →
  ends s (fs_mkdir fuel me path s) (λ '(r, s'), vfs_ok None H s' ∧ made_path path (λ ip, itype ip = T_DIR) s r s').
Proof.
  intros Hok Hp. unfold fs_mkdir. apply (ends_parent path s H); [done..|]. intros r s1 Hr [Hal Hres].
  destruct r as [[dp name]|]; cycle 1. { split; [done|]. left. split; [done|]. by apply alike_stays. }
  destruct Hres as (Hok1 & Hn & d & Hin). pose proof Hin as (Hd & _ & _). rewrite (get_inode_ok s1 dp d Hd). run.
  rewrite bool_decide_true by by eapply dir_ops. cbn [negb].
  destruct (make_ends H s path dp name d s1 (λ ip, itype ip = T_DIR) (ramfs_mkdir dp name)) as (r & s3 & -> & Hok3 & Hm); try done.
  - apply Hok.
  - destruct (mkdir_ok (plus H dp) s1 dp d name Hok1 Hin Hn) as (r & s2 & Hrun & Hok2 & Hm & Hf). exists r, s2. split_and!; try done.
    eapply made_mono; [done|]. by intros ip [? _].
  - intros ip ip' ? ? _ _ _. congruence.
Qed.
Definition is_link (target : str) (ip : inode) : Prop :=
  itype ip = T_LNK ∧ data ip = Some (target ++ [0]) ∧ size ip = Z.of_nat (length target).

Lemma fs_symlink_ok target path s H : vfs_ok None H s → cstring path → cstring target →
  ends s (fs_symlink fuel me target path s) (λ '(r, s'), vfs_ok None H s' ∧ made_path path (is_link target) s r s').
Proof.
  intros Hok Hp Ht. unfold fs_symlink. apply (ends_parent path s H); [done..|]. intros r s1 Hr [Hal Hres].
  destruct r as [[dp name]|]; cycle 1. { split; [done|]. left. split; [done|]. by apply alike_stays. }
  destruct Hres as (Hok1 & Hn & d & Hin). pose proof Hin as (Hd & _ & _). rewrite (get_inode_ok s1 dp d Hd). run.
  rewrite bool_decide_true by by eapply dir_ops. cbn [negb].
  destruct (make_ends H s path dp name d s1 (is_link target) (ramfs_symlink dp name target)) as (r & s3 & -> & Hok3 & Hm); try done.
  - apply Hok.
  - by apply symlink_ok.
  - intros ip ip' (? & ? & ?) ? _ ? ?. unfold is_link. split_and!; congruence.
Qed.

(** ** Resolving what was made *)

(** From a directory, one more component. *)
Lemma p_walk_one res s dp d name fo : inodes s !! dp = Some d → itype d = T_DIR → name_eq name DOT = false → name_eq name DOTDOT = false →
  p_walk res s [name] false fo dp =
    match entry s dp name with
    | None => mret None
    | Some next => r ← (if fo then p_links res s (S (S MAXSYMLINKS)) 0 next else mret (Some next)); mret (option_map (λ i, (i, [])) r)
    end.
Proof.
  intros Hd Ht N1 N2. cbn [p_walk]. rewrite Hd. cbn [deref andb]. run. rewrite Ht, N1, N2. change (T_DIR =? T_DIR) with true. cbn [negb].
  destruct (entry s dp name) as [next|]; [|done]. rewrite bool_decide_true by done. destruct fo; cbn [andb negb]; [|done].
  by destruct (p_links res s (S (S MAXSYMLINKS)) 0 next) as [[k|]| | |].
Qed.

Lemma p_links_plain res s n depth i ip : inodes s !! i = Some ip → itype ip ≠ T_LNK → p_links res s (S n) depth i = Done (Some i).
Proof. intros Hi Ht. cbn [p_links]. rewrite Hi. cbn [deref]. run. by rewrite (proj2 (Z.eqb_neq _ _) Ht). Qed.

(** A path of a directory in the tree. *)
Lemma namex_dir H path s dp name : vfs_ok None H s → cstring path → p_namex fuel me path true true s = Done (Some (dp, name)) →
  valid_name name ∧ ∃ d, in_tree s dp d.
Proof.
  intros Hok Hp E. split; [by eapply namex_name|]. pose proof (p_namex_attached H s fuel me path true true _ Hok E) as Ha. cbn in Ha.
  pose proof (namex_ok fuel me path true true s H H s Hok (reflexivity s) Hok) as Hf. rewrite E in Hf. destruct Hf as (s' & _ & _ & Hdir).
  destruct (Hdir eq_refl dp name eq_refl) as (d & Hd & Ht). by exists d.
Qed.

(** After a new entry the path leads to it. *)
Lemma made_found H H' path s s' dp name i ip fo :
  vfs_ok None H s → vfs_ok None H' s' → cstring path → p_namex fuel me path true true s = Done (Some (dp, name)) →
  name_eq name DOT = false → name_eq name DOTDOT = false → entry s dp name = None → edits dp name (Some i) s s' →
  inodes s' !! i = Some ip → itype ip ≠ T_LNK ∨ fo = false → p_namex fuel me path false fo s' = Done (Some (i, [])).
Proof.
  intros Hok Hok' Hp E N1 N2 Hnone Hed Hi Hl. destruct (namex_dir H path s dp name Hok Hp E) as [Hn (d & Hin)].
  pose proof (edits_extends H H' s s' Hok Hok' dp name i Hed ltac:(apply Hn) Hnone) as Hex.
  destruct (p_namex_smaller H s s' fuel me path true true Hok Hex Hp) as [E2|E2]; [congruence|]. rewrite E in E2. symmetry in E2.
  destruct (namex_dir H' path s' dp name Hok' Hp E2) as [_ (d' & Hd' & Ht' & _)].
  destruct fuel as [|n]; [done|]. rewrite (p_namex_last _ _ _ _ _ _ _ E2), (p_walk_one _ _ _ d') by done.
  rewrite (ed_entry _ _ _ _ _ Hed) by apply Hn. rewrite decide_True by done. destruct fo; [|done]. destruct Hl as [Hl|]; [|done].
  by rewrite (p_links_plain _ _ _ _ _ ip).
Qed.

(** After an entry is gone the path leads nowhere. *)
Lemma gone_found H H' path s s' dp name fo :
  vfs_ok None H s → vfs_ok None H' s' → cstring path → p_namex fuel me path true true s = Done (Some (dp, name)) →
  name_eq name DOT = false → name_eq name DOTDOT = false → edits dp name None s s' → p_namex fuel me path false fo s' = Done None.
Proof.
  intros Hok Hok' Hp E N1 N2 Hed. destruct (namex_dir H path s dp name Hok Hp E) as [Hn _].
  pose proof (edits_shrinks H H' s s' dp name Hok Hok' Hed) as Hex. destruct fuel as [|n]; [done|].
  destruct (p_namex_smaller H' s' s (S n) me path true true Hok' Hex Hp) as [E2|E2].
  - apply p_namex_nodir; [done|]. by apply p_namex_comps in E.
  - rewrite E in E2. rewrite (p_namex_last _ _ _ _ _ _ _ E2).
    pose proof (p_namex_attached H' s' (S n) me path true true _ Hok' E2) as Ha. cbn in Ha.
    pose proof (namex_ok (S n) me path true true s' H' H' s' Hok' (reflexivity s') Hok') as Hf. rewrite E2 in Hf. destruct Hf as (? & _ & _ & Hdir).
    destruct (Hdir eq_refl dp name eq_refl) as (d & Hd & Ht). rewrite (p_walk_one _ _ _ d) by done.
    rewrite (ed_entry _ _ _ _ _ Hed) by apply Hn. by rewrite decide_True.
Qed.

(** ** Removing things *)

(** Nothing happens, or [path] loses its last component. *)
Definition gone_path (path : str) (P : inode → Prop) (s : fsys) (r : Z) (s' : fsys) : Prop :=
  (r = -1 ∧ stays s s') ∨
  (r = 0 ∧ ∃ dp name i ip, p_parent path s = Done (Some (dp, name)) ∧ cstring name ∧ entry s dp name = Some i ∧ inodes s !! i = Some ip ∧ P ip ∧
     edits dp name None s s').

Lemma removed_ne s s' dir dp name d : inodes s !! dir = Some dp → find_dentry (dents dp) name = Some d → removed dir name (d_ip d) s s' →
  d_ip d ≠ dir.
Proof.
  intros Hd Hf Hrm E. rewrite E in Hrm. pose proof (rm_leaf _ _ _ _ _ Hrm dp Hd) as Hl. by rewrite Hl in Hf.
Qed.

(** The end of [rmdir] and [unlink]: the operation, then the directory is given up. *)
Lemma remove_ends H s path dp name d e ep s1 (P : inode → Prop) (op : fsys → outcome (Z * fsys)) :
  (∀ j, 0 ≤ H j) → p_parent path s = Done (Some (dp, name)) → alike s s1 → vfs_ok None (plus H dp) s1 → valid_name name → in_tree s1 dp d →
  find_dentry (dents d) name = Some e → inodes s1 !! d_ip e = Some ep → of_file P → P ep →
  (∃ r s2, op s1 = Done (r, s2) ∧ vfs_ok None (plus H dp) s2 ∧ unnamed dp name (find_dentry (dents d) name) s1 r s2) →
  ∃ r s3, ('(r, s) ← op s1; s ← fs_iput dp s; mret (if r <? 0 then -1 else 0, s)) = Done (r, s3) ∧ vfs_ok None H s3 ∧ gone_path path P s r s3.
Proof.
  intros HH Hpar Hal Hok1 Hn Hin Hf He HP HPe (r & s2 & -> & Hok2 & Hu). run. pose proof Hin as (Hd & Ht & Ha).
  destruct Hu as [[-> ->]|(-> & e' & He' & Hrm)].
  - destruct (put_dir H s1 dp HH Hok1 Ha) as (s3 & -> & Hal3 & Hok3). run. exists (-1), s3. split; [done|]. split; [done|]. left. split; [done|].
    apply alike_stays. by transitivity s1.
  - rewrite Hf in He'. injection He' as <-. pose proof (removed_ne s1 s2 dp d name e Hd Hf Hrm) as Hne.
    pose proof (removed_edits _ _ s1 s2 Hok1 Hok2 dp name (d_ip e) Hrm Hne) as Hed.
    assert (entry s1 dp name = Some (d_ip e)) as Hen by by rewrite (find_entry s1 dp d), Hf.
    assert (attached s2 dp) as Ha2.
    { apply (attached_entry _ s2 dp Hok2). apply (attached_entry _ s1 dp Hok1) in Ha. rewrite (ed_root _ _ _ _ _ Hed).
      destruct Ha as [?|(k & n & Hc & Hk)]; [by left|right]. exists k, n. split; [done|]. rewrite (ed_entry _ _ _ _ _ Hed) by done.
      case_decide as Hx; [|done]. destruct Hx as [-> ->]. congruence. }
    destruct (put_dir H s2 dp HH Hok2 Ha2) as (s3 & -> & Hal3 & Hok3). run. exists 0, s3. split; [done|]. split; [done|]. right. split; [done|].
    destruct (alike_at s1 s (d_ip e) ep) as (ep' & Hep' & E); [by symmetry|done|]. apply strip_fields in E as (E1 & E2 & E3 & _ & _ & _ & _ & _ & _ & _ & E4 & _).
    exists dp, name, (d_ip e), ep'. split_and!; try done.
    + apply Hn.
    + by rewrite <- (alike_entry s s1 Hal).
    + by apply (HP ep).
    + by apply (edits_alike _ _ _ s s1 s2 s3).
Qed.
(** Looking at an entry and letting go of it again. *)
Lemma peek_ok H s dp d name : vfs_ok None H s → inodes s !! dp = Some d →
  match find_dentry (dents d) name with
  | None => ramfs_lookup dp name s = Done (None, s)
  | Some e => ∃ ep s1 s2, ramfs_lookup dp name s = Done (Some (d_ip e), s1) ∧ inodes s1 !! d_ip e = Some ep ∧ itype ep ≠ 0 ∧ alike s s1 ∧
      vfs_ok None (plus H (d_ip e)) s1 ∧ fs_iput (d_ip e) s1 = Done s2 ∧ alike s s2 ∧ vfs_ok None H s2 ∧ attached s (d_ip e)
  end.
Proof.
  intros Hok Hd. destruct (lookup_ok H s dp d name Hok Hd) as (s1 & Hrun & Hal & Hres). rewrite (find_entry s dp d) in Hrun, Hres by done.
  destruct (find_dentry (dents d) name) as [e|] eqn:Hf; cbn in *.
  - destruct Hres as [Hok1 Ha]. destruct (attached_live _ s1 (d_ip e) Hok1) as (ep & He & Hl); [by apply (alike_attached s s1)|].
    destruct (ref_drop_ok s H s1 (d_ip e)) as (s2 & Hput & Hal2 & Hok2); [apply Hok|done..|]. by exists ep, s1, s2.
  - unfold ramfs_lookup, d_lookup in *. rewrite (get_inode_ok s dp d Hd) in *. run. destruct (negb (itype d =? T_DIR)); [done|]. by rewrite Hf.
Qed.

Lemma alike_in_tree s s' dp d : alike s s' → in_tree s dp d → ∃ d', in_tree s' dp d' ∧ dents d' = dents d.
Proof.
  intros Hal (Hd & Ht & Ha). destruct (alike_at s s' dp d Hal Hd) as (d' & Hd' & E). exists d'.
  apply strip_fields in E as (E1 & _ & _ & _ & _ & _ & E7 & _). split; [|done]. split; [done|]. split; [congruence|]. by apply (alike_attached s s').
Qed.

(** Failing with the directory in hand. *)
Lemma release_dir H s s1 dp d : (∀ j, 0 ≤ H j) → alike s s1 → vfs_ok None (plus H dp) s1 → in_tree s1 dp d →
  ∃ s2, fs_iput dp s1 = Done s2 ∧ vfs_ok None H s2 ∧ alike s s2.
Proof.
  intros HH Hal Hok (_ & _ & Ha). destruct (put_dir H s1 dp HH Hok Ha) as (s2 & -> & Hal2 & Hok2). exists s2. split_and!; try done. by transitivity s1.
Qed.

Lemma fs_unlink_ok path s H : vfs_ok None H s → cstring path →
  ends s (fs_unlink fuel me path s) (λ '(r, s'), vfs_ok None H s' ∧ gone_path path (λ ip, itype ip ≠ T_DIR) s r s').
Proof.
  intros Hok Hp. pose proof (vo_H _ _ _ Hok) as HH. unfold fs_unlink. apply (ends_parent path s H); [done..|]. intros r s1 Hr [Hal Hres].
  destruct r as [[dp name]|]; cycle 1. { split; [done|]. left. split; [done|]. by apply alike_stays. }
  destruct Hres as (Hok1 & Hn & d & Hin). pose proof Hin as (Hd & _ & _). rewrite (get_inode_ok s1 dp d Hd). run.
  rewrite bool_decide_true by by eapply dir_ops. cbn [negb]. pose proof (peek_ok _ s1 dp d name Hok1 Hd) as Hpk.
  destruct (find_dentry (dents d) name) as [e|] eqn:Hf; cycle 1.
  { rewrite Hpk. run. destruct (release_dir H s s1 dp d HH Hal Hok1 Hin) as (s2 & -> & Hok2 & Hal2). run. split; [done|]. left. split; [done|]. by apply alike_stays. }
  destruct Hpk as (ep & s2 & s3 & -> & He & Hl & Hal2 & Hok2 & Hput & Hal3 & Hok3 & _). run. rewrite (get_inode_ok s2 _ ep He). run. rewrite Hput. run.
  assert (alike s s3) as Hal3' by by transitivity s1. destruct (alike_in_tree s1 s3 dp d Hal3 Hin) as (d3 & Hin3 & Hde).
  destruct (Z.eqb_spec (itype ep) T_DIR) as [Ht|Ht].
  { destruct (release_dir H s s3 dp d3 HH Hal3' Hok3 Hin3) as (s4 & -> & Hok4 & Hal4). run. split; [done|]. left. split; [done|]. by apply alike_stays. }
  rewrite <- Hde in Hf. destruct (alike_at s2 s3 (d_ip e) ep) as (ep3 & He3 & E); [by transitivity s1|done|]. apply strip_fields in E as (E & _).
  destruct (remove_ends H s path dp name d3 e ep3 s3 (λ ip, itype ip ≠ T_DIR) (ramfs_unlink dp name)) as (r & s4 & -> & Hok4 & Hg); try done.
  - intros ip ip' ? ? _ _ _. congruence.
  - congruence.
  - destruct (ramfs_unlink_ok _ s3 dp d3 name Hok3 Hin3 Hn) as (r & s4 & ? & ? & ? & _). by exists r, s4.
Qed.

Lemma fs_rmdir_ok path s H : vfs_ok None H s → cstring path →
  ends s (fs_rmdir fuel me path s) (λ '(r, s'), vfs_ok None H s' ∧ gone_path path (λ ip, itype ip = T_DIR) s r s').
Proof.
  intros Hok Hp. pose proof (vo_H _ _ _ Hok) as HH. unfold fs_rmdir. apply (ends_parent path s H); [done..|]. intros r s1 Hr [Hal Hres].
  destruct r as [[dp name]|]; cycle 1. { split; [done|]. left. split; [done|]. by apply alike_stays. }
  destruct Hres as (Hok1 & Hn & d & Hin). pose proof Hin as (Hd & _ & _). rewrite (get_inode_ok s1 dp d Hd). run.
  rewrite bool_decide_true by by eapply dir_ops. cbn [negb]. pose proof (peek_ok _ s1 dp d name Hok1 Hd) as Hpk.
  destruct (find_dentry (dents d) name) as [e|] eqn:Hf; cycle 1.
  { rewrite Hpk. run. destruct (release_dir H s s1 dp d HH Hal Hok1 Hin) as (s2 & -> & Hok2 & Hal2). run. split; [done|]. left. split; [done|]. by apply alike_stays. }
  destruct Hpk as (ep & s2 & s3 & -> & He & Hl & Hal2 & Hok2 & Hput & Hal3 & Hok3 & _). run. rewrite (get_inode_ok s2 _ ep He). run. rewrite Hput. run.
  assert (alike s s3) as Hal3' by by transitivity s1. destruct (alike_in_tree s1 s3 dp d Hal3 Hin) as (d3 & Hin3 & Hde).
  destruct (_ || _ || _) eqn:Hb.
  { destruct (release_dir H s s3 dp d3 HH Hal3' Hok3 Hin3) as (s4 & -> & Hok4 & Hal4). run. split; [done|]. left. split; [done|]. by apply alike_stays. }
  rewrite !orb_false_iff, negb_false_iff, Z.eqb_eq in Hb. destruct Hb as [[Ht _] Hc]. apply bool_decide_eq_false in Hc.
  rewrite <- Hde in Hf. destruct (alike_at s2 s3 (d_ip e) ep) as (ep3 & He3 & E); [by transitivity s1|done|]. apply strip_fields in E as (E & _).
  destruct (remove_ends H s path dp name d3 e ep3 s3 (λ ip, itype ip = T_DIR) (ramfs_rmdir dp name)) as (r & s4 & -> & Hok4 & Hg); try done.
  - intros ip ip' ? ? _ _ _. congruence.
  - congruence.
  - destruct (rmdir_ok _ s3 dp d3 name Hok3 Hin3 Hn) as (r & s4 & ? & ? & ? & _); [|by exists r, s4].
    intros e' Hf'. rewrite Hf in Hf'. injection Hf' as <-. rewrite (al_cwds _ _ Hal3), <- (al_cwds _ _ Hal2). done.
Qed.
(** ** Files and devices *)

Lemma ends_namex {A} path np s H (g : option (nat * str) * fsys → outcome A) Q : vfs_ok None H s → cstring path →
  (∀ r s1, p_namex fuel me path np true s = Done r → found_last s H np r s1 → ends s (g (r, s1)) Q) →
  ends s (namex fuel me path np true s ≫= g) Q.
Proof.
  intros Hok Hp Hg. pose proof (namex_ok fuel me path np true s H H s Hok (reflexivity s) Hok) as Hf. unfold follows in Hf.
  destruct (p_namex fuel me path np true s) as [r| | |] eqn:Hr; try done.
  - destruct Hf as (s1 & -> & Hd). by apply Hg.
  - rewrite Hf. cbn. intros Hres. by apply (Hres path np true).
Qed.

(** The directory a call that makes something works in; [.] and [..] are not refused. *)
Lemma ends_nameiparent {A} path s H (g : option (nat * str) * fsys → outcome A) Q : vfs_ok None H s → cstring path →
  (∀ r s1, p_namex fuel me path true true s = Done r → at_dir s H r s1 → ends s (g (r, s1)) Q) →
  ends s (namex fuel me path true true s ≫= g) Q.
Proof.
  intros Hok Hp Hg. pose proof (nameiparent_ok path s H Hok Hp) as Hf. unfold follows in Hf.
  destruct (p_namex fuel me path true true s) as [r| | |] eqn:Hr; try done.
  - destruct Hf as (s1 & -> & Hd). by apply Hg.
  - rewrite Hf. cbn. intros Hres. by apply (Hres path true true).
Qed.

(** The new file, if there is one. *)
Definition created (path : str) (type : Z) (s : fsys) (r : option nat) (s' : fsys) : Prop :=
  match r with
  | None => stays s s'
  | Some i => ∃ dp name ip, p_namex fuel me path true true s = Done (Some (dp, name)) ∧ entry s dp name = None ∧
      edits dp name (Some i) s s' ∧ inodes s' !! i = Some ip ∧ itype ip = type ∧ data ip = None ∧ size ip = 0
  end.

Lemma fs_create_ok path type s H : vfs_ok None H s → cstring path → 1 ≤ type ≤ 6 →
  ends s (fs_create fuel me path type s) (λ '(r, s'), vfs_ok None (hold H r) s' ∧ created path type s r s').
Proof.
  intros Hok Hp Hty. pose proof (vo_H _ _ _ Hok) as HH. unfold fs_create. apply (ends_nameiparent path s H); [done..|].
  intros r s1 Hr [Hal Hres]. destruct r as [[dp name]|]; cycle 1. { split; [done|]. by apply alike_stays. }
  destruct Hres as (Hok1 & Hn & d & Hin). pose proof Hin as (Hd & Ht & Ha). rewrite (get_inode_ok s1 dp d Hd). run.
  rewrite bool_decide_false by apply Hn. rewrite bool_decide_true by by eapply dir_ops. cbn [negb orb].
  destruct (create_ok _ s1 dp d name type Hok1 Hin Hn Hty) as (r & s2 & -> & Hc). run. destruct r as [i|]; cycle 1.
  { destruct Hc as [Hok2 Hu]. pose proof (untouched_stays _ _ s1 s2 Hok1 Hok2 Hu) as Hst.
    destruct (put_dir H s2 dp HH Hok2) as (s3 & -> & Hal3 & Hok3); [by apply (stays_attached _ _ s1 s2 Hok1 Hok2)|]. run.
    split; [done|]. by apply (stays_alike s s1 s2 s3). }
  destruct Hc as (Hok2 & Hf & ip0 & Hi0 & Hz & Had). apply plus_swap in Hok2.
  pose proof (added_edits _ _ s1 s2 Hok1 Hok2 dp d name i ip0 _ Hi0 Hz Hd Ht ltac:(apply Hn) Hf Had) as Hed.
  assert (entry s1 dp name = None) as Hnone by by rewrite (find_entry s1 dp d), Hf.
  destruct (put_dir (plus H i) s2 dp) as (s3 & -> & Hal3 & Hok3); [intros j; by apply plus_pos|done| |].
  { eapply (edits_attached _ _ s1 s2 Hok1 Hok2); [done|by rewrite Hnone|done]. }
  run. split; [done|]. destruct (ad_new _ _ _ _ _ _ Had) as (c & Hi & _).
  destruct (alike_at s2 s3 i _ Hal3 Hi) as (ip & Hi3 & E). apply strip_fields in E as (E1 & E2 & E3 & _).
  exists dp, name, ip. split_and!; try done; [by rewrite <- (alike_entry s s1 Hal)|by apply (edits_alike _ _ _ s s1 s2 s3)].
Qed.
Lemma p_walk_dot res s dp d name fo : inodes s !! dp = Some d → itype d = T_DIR → name_eq name DOT = true ∨ name_eq name DOTDOT = true →
  ∃ r, p_walk res s [name] false fo dp = Done r.
Proof.
  intros Hd Ht Hn. cbn [p_walk]. rewrite Hd. cbn [deref andb]. run. rewrite Ht. change (T_DIR =? T_DIR) with true. cbn [negb].
  destruct (name_eq name DOT); [by eexists|]. destruct (name_eq name DOTDOT); [by eexists|]. by destruct Hn.
Qed.

(** A device or a FIFO; the inode is what the path leads to afterwards. *)
Definition mknod_post (path : str) (type : Z) (s : fsys) (r : option nat) (s' : fsys) : Prop :=
  (r = None ∧ stays s s') ∨
  ∃ dp name i ip, p_namex fuel me path true true s = Done (Some (dp, name)) ∧ entry s dp name = None ∧ edits dp name (Some i) s s' ∧
    inodes s' !! i = Some ip ∧ itype ip = type ∧ (name_eq name DOT = false → name_eq name DOTDOT = false → r = Some i).

Lemma fs_mknod_ok path type ma mi s H : vfs_ok None H s → cstring path →
  ends s (fs_mknod fuel me path type ma mi s) (λ '(r, s'), vfs_ok None (hold H r) s' ∧ mknod_post path type s r s' ∧ ∀ i, r = Some i → attached s' i).
Proof.
  intros Hok Hp. pose proof (vo_H _ _ _ Hok) as HH. unfold fs_mknod. destruct (_ && _ && _) eqn:Hty; [split; [done|split; [by left; split; [|by apply alike_stays]|done]]|].
  apply (ends_nameiparent path s H); [done..|]. intros r s1 Hr [Hal Hres].
  destruct r as [[dp name]|]; cycle 1. { split; [done|]. split; [|done]. left. split; [done|]. by apply alike_stays. }
  destruct Hres as (Hok1 & Hn & d & Hin). pose proof Hin as (Hd & Ht & Ha). rewrite (get_inode_ok s1 dp d Hd). run.
  rewrite bool_decide_false by apply Hn. rewrite bool_decide_true by by eapply dir_ops. cbn [negb orb]. set (dev := if _ =? _ then _ else _).
  destruct (mknod_ok _ s1 dp d name Hok1 Hin Hn type dev) as (r & s2 & -> & Hok2 & Hm & Hf). run.
  destruct (made_edits _ _ s1 s2 dp d name (λ ip, itype ip = type ∧ rdev ip = dev) r Hok1 Hok2 Hin Hn Hm ltac:(naive_solver)) as
    [[-> Hst]|(-> & Hnone & i & ip & Hed & Hi & Hit & _)].
  { intros ip ip' [? ?] ? ? _ _. split; congruence. }
  { destruct (put_dir H s2 dp HH Hok2) as (s3 & -> & Hal3 & Hok3); [by apply (stays_attached _ _ s1 s2 Hok1 Hok2)|]. run.
    split; [done|]. split; [|done]. left. split; [done|]. by apply (stays_alike s s1 s2 s3). }
  assert (attached s2 dp) as Ha2 by (eapply (edits_attached _ _ s1 s2 Hok1 Hok2); [done|by rewrite Hnone|done]).
  destruct (put_dir H s2 dp HH Hok2 Ha2) as (s3 & -> & Hal3 & Hok3). run. change (0 <? 0) with false. cbn iota.
  destruct (alike_at s2 s3 i ip Hal3 Hi) as (ip3 & Hi3 & E). apply strip_fields in E as (E1 & _).
  pose proof (edits_alike _ _ _ s s1 s2 s3 Hal Hed Hal3) as Hed3. rewrite (alike_entry s s1 Hal) in Hnone.
  assert (∃ r, p_namex fuel me path false true s3 = Done r ∧ (name_eq name DOT = false → name_eq name DOTDOT = false → r = Some (i, []))) as (r & Er & Hri).
  { destruct (name_eq name DOT || name_eq name DOTDOT) eqn:Hdots.
    - pose proof (edits_extends H H s s3 Hok Hok3 dp name i Hed3 ltac:(apply Hn) Hnone) as Hex.
      destruct (p_namex_smaller H s s3 fuel me path true true Hok Hex Hp) as [E2|E2]; [congruence|]. rewrite Hr in E2. symmetry in E2.
      destruct (namex_dir H path s3 dp name Hok3 Hp E2) as [_ (d' & Hd' & Ht' & _)]. apply orb_true_iff in Hdots.
      destruct fuel as [|n]; [done|]. rewrite (p_namex_last _ _ _ _ _ _ _ E2).
      destruct (p_walk_dot (λ t, r ← p_namex n me t false true s3; mret (option_map fst r)) s3 dp d' name true Hd' Ht' Hdots) as [r ->].
      exists r. split; [done|]. destruct Hdots; congruence.
    - apply orb_false_iff in Hdots as [N1 N2]. eexists. split; [|done].
      apply (made_found H H path s s3 dp name i ip3); try done. left. rewrite E1, Hit. clear -Hty. unfold T_CHAR, T_BLK, T_FIFO, T_LNK in *. lia. }
  unfold fs_namei. pose proof (namex_ok fuel me path false true s3 H H s3 Hok3 (reflexivity s3) Hok3) as Hfo. rewrite Er in Hfo.
  destruct Hfo as (s4 & -> & (Hal4 & Hok4 & Hatt) & _). run. split; [done|]. split; [right|intros j Hj; by apply (alike_attached s3 s4), Hatt].
  destruct (alike_at s3 s4 i ip3 Hal4 Hi3) as (ip4 & Hi4 & E). apply strip_fields in E as (E2 & _).
  exists dp, name, i, ip4. split_and!; try done; [by apply (edits_alike _ _ _ s s s3 s4)|congruence|].
  intros N1 N2. by rewrite (Hri N1 N2).
Qed.
End Paths.
