(* ===== verification/NameiCalls.v ===== *)
(** [NameiCalls]: the calls with two paths, on attributes and on the working
    directory. *)
From Stdlib Require Import ZArith Lia.
From stdpp Require Import numbers strings gmap list.
From S2P Require Import Prelude Vfs VfsInv RamfsSpec RamfsRename Namei NameiSpec NameiOps.
Open Scope Z_scope.

Section Calls.
Context (fuel me : nat).

Lemma resolves_alike H H' s s' : vfs_ok None H s → vfs_ok None H' s' → alike s s' → resolves fuel me s → resolves fuel me s'.
Proof.
  intros Hok Hok' Hal Hres path np fo Hp. rewrite (stays_namex H H' s s') by (done || by apply alike_stays). by apply Hres.
Qed.

Lemma ends_alike {A} H H' s s' (o : outcome A) Q : vfs_ok None H s → vfs_ok None H' s' → alike s s' → ends fuel me s' o Q → ends fuel me s o Q.
Proof. intros Hok Hok' Hal. unfold ends. destruct o; try done. intros Hn Hr. apply Hn. by apply (resolves_alike H H' s s'). Qed.

Lemma ends_mono {A} s (o : outcome A) (Q R : A → Prop) : ends fuel me s o Q → (∀ a, Q a → R a) → ends fuel me s o R.
Proof. unfold ends. destruct o; auto. Qed.

Lemma p_parent_alike H H' s s' path : vfs_ok None H s → vfs_ok None H' s' → alike s s' → cstring path → p_parent fuel me path s' = p_parent fuel me path s.
Proof. intros Hok Hok' Hal Hp. unfold p_parent. rewrite (stays_namex H H' s s') by (done || by apply alike_stays). done. Qed.

Lemma p_walk_nil res s comps fo i r : p_walk res s comps false fo i = Done (Some r) → r.2 = [].
Proof.
  revert i. induction comps as [|e comps IH]; intros i; cbn [p_walk]; [by intros E; injection E as <-|]. destruct (inodes s !! i) as [ip|]; [|done].
  cbn [deref andb]. run. destruct (negb (itype ip =? T_DIR)); [done|]. destruct (name_eq e DOT); [by apply IH|]. destruct (name_eq e DOTDOT); [by apply IH|].
  destruct (entry s i e) as [next|]; [|done]. destruct (bool_decide (comps = []) && negb fo); [apply IH|].
  destruct (p_links res s (S (S MAXSYMLINKS)) 0 next) as [[k|]| | |]; try done. apply IH.
Qed.

Lemma p_namex_nil path fo s r : p_namex fuel me path false fo s = Done (Some r) → r = (r.1, []).
Proof.
  destruct fuel as [|n]; cbn [p_namex]; [done|]. destruct path as [|c p]; [done|]. destruct (if _ =? SLASH then _ else _) as [i|]; [|done].
  intros E%p_walk_nil. destruct r. by cbn in *; subst.
Qed.

(** A call that starts with [fs_namei]. *)
Lemma ends_namei {A} path s H (g : option nat * fsys → outcome A) Q : vfs_ok None H s → cstring path →
  (∀ r s1, p_namex fuel me path false true s = Done (option_map (λ i, (i, [])) r) → found s H r s1 → ends fuel me s (g (r, s1)) Q) →
  ends fuel me s (fs_namei fuel me path s ≫= g) Q.
Proof.
  intros Hok Hp Hg. unfold fs_namei. pose proof (namex_ok fuel me path false true s H H s Hok (reflexivity s) Hok) as Hf. unfold follows in Hf.
  destruct (p_namex fuel me path false true s) as [r| | |] eqn:Hr; try done.
  - destruct Hf as (s1 & -> & Hd & _). run. apply Hg; [|done]. destruct r as [r|]; [|done]. by rewrite (p_namex_nil _ _ _ _ Hr).
  - rewrite Hf. cbn. intros Hres. by apply (Hres path false true).
Qed.

(** ** [link] *)

Definition link_post (oldpath newpath : str) (s : fsys) (r : Z) (s' : fsys) : Prop :=
  (r = -1 ∧ stays s s') ∨
  (r = 0 ∧ ∃ i dp name, p_namex fuel me oldpath false true s = Done (Some (i, [])) ∧ p_parent fuel me newpath s = Done (Some (dp, name)) ∧
     entry s dp name = None ∧ (∀ j n, cstring n → entry s' j n = if decide (at_name dp name j n) then Some i else entry s j n) ∧
     (∀ j jp jp', inodes s !! j = Some jp → inodes s' !! j = Some jp' → itype jp ≠ 0 → itype jp' ≠ 0 → same_file jp jp') ∧
     (∃ ip ip', inodes s !! i = Some ip ∧ inodes s' !! i = Some ip' ∧ itype ip ≠ T_DIR ∧ nlink ip' = nlink ip + 1)).

Lemma linked_entry H H' s s' dir dp name i ip : vfs_ok None H s → vfs_ok None H' s' → in_tree s dir dp → cstring name →
  inodes s !! i = Some ip → itype ip ≠ T_DIR → find_dentry (dents dp) name = None → linked dir name i s s' →
  (∀ j n, cstring n → entry s' j n = if decide (at_name dir name j n) then Some i else entry s j n) ∧
  (∀ j jp jp', inodes s !! j = Some jp → inodes s' !! j = Some jp' → same_file jp jp') ∧
  (∀ j, attached s j → attached s' j).
Proof.
  intros Hok Hok' (Hd & Ht & _) Hn Hi Hti Hf [L1 L2 L3 L4 L5]. assert (dir ≠ i) as Hne by (intros ->; congruence).
  assert (entry s dir name = None) as Hnone by by rewrite (find_entry s dir dp), Hf.
  assert (∀ j n, cstring n → entry s' j n = if decide (at_name dir name j n) then Some i else entry s j n) as He.
  { intros j n Hc. destruct (decide (j = dir)) as [->|Hjd]; [|rewrite decide_False by (by intros [? _]); destruct (decide (j = i)) as [->|Hji]].
    - by apply (entry_cons H H' s s' Hok Hok' dir dp name i n Hd (L1 dp Hd)).
    - destruct (L2 ip Hi) as (ip' & Hi' & E1 & _). rewrite (entry_free H s i ip), (entry_free H' s' i ip') by (done || congruence). done.
    - unfold entry. by rewrite L3. }
  split; [done|]. split.
  - intros j jp jp' Hj Hj'. destruct (decide (j = i)) as [->|Hji]; [|destruct (decide (j = dir)) as [->|Hjd]].
    + destruct (L2 jp Hj) as (? & E & ? & ? & ? & ? & ? & _). rewrite Hj' in E. injection E as <-. by split_and!.
    + rewrite (L1 jp Hj) in Hj'. by injection Hj' as <-.
    + rewrite L3, Hj in Hj' by done. by injection Hj' as <-.
  - intros j. rewrite (attached_entry H' s'), (attached_entry H s), L4 by done. intros [?|(k & n & Hc & Hk)]; [by left|right].
    exists k, n. split; [done|]. rewrite He by done. case_decide as Hx; [|done]. destruct Hx as [-> ->]. congruence.
Qed.

Lemma heap_stays s h b : stays s (with_heap h b s).
Proof. split; try done. intros j jp jp' Hj Hj' _ _. cbn in Hj'. rewrite Hj in Hj'. by injection Hj' as <-. Qed.

Lemma fs_link_ok oldpath newpath s H : vfs_ok None H s → cstring oldpath → cstring newpath →
  ends fuel me s (fs_link fuel me oldpath newpath s) (λ '(r, s'), vfs_ok None H s' ∧ link_post oldpath newpath s r s').
Proof.
  intros Hok Hpo Hpn. pose proof (vo_H _ _ _ Hok) as HH. unfold fs_link.
  assert (∀ s', alike s s' → vfs_ok None H s' → vfs_ok None H s' ∧ link_post oldpath newpath s (-1) s') as Hfail
    by (intros s' Hal Hok'; split; [done|left; split; [done|by apply alike_stays]]).
  destruct (_ || _); [by apply Hfail|]. apply (ends_namei oldpath s H); [done..|]. intros [i|] s1 Hr (Hal1 & Hok1 & Ha1); [|by apply Hfail].
  cbn [hold] in Hok1. specialize (Ha1 i eq_refl). destruct (attached_live _ s1 i Hok1) as (ip1 & Hi1 & Hl1); [by apply (alike_attached s s1)|].
  rewrite (get_inode_ok s1 i ip1 Hi1). run. destruct (Z.eqb_spec (itype ip1) T_DIR) as [Ht|Ht].
  { destruct (ref_drop_ok s H s1 i) as (s2 & -> & ? & ?); try done. run. by apply Hfail. }
  apply (ends_alike H (plus H i) s s1); [done..|]. apply (ends_parent fuel me newpath s1 (plus H i)); [done..|]. intros r s2 Hr2 [Hal2 Hres].
  assert (alike s s2) as Hal2' by by transitivity s1. rewrite (p_parent_alike H (plus H i) s s1) in Hr2 by done.
  destruct r as [[dp name]|]; cycle 1. { destruct (ref_drop_ok s H s2 i) as (s3 & -> & ? & ?); try done. run. by apply Hfail. }
  destruct Hres as (Hok2 & Hn & d & Hin). pose proof Hin as (Hd & Htd & Ha). rewrite (get_inode_ok s2 dp d Hd). run.
  destruct (alike_at s1 s2 i ip1 Hal2 Hi1) as (ip2 & Hi2 & E). pose proof (strip_fields _ _ E) as (E1 & _ & _ & E4 & _ & _ & _ & _ & _ & E10 & _).
  rewrite (get_inode_ok s2 i ip2 Hi2). run. destruct (_ || _).
  { destruct (ref_drop_ok s (plus H i) s2 dp) as (s3 & -> & ? & ?); try done; [intros j; by apply plus_pos|by apply (alike_attached s s2)|]. run.
    destruct (ref_drop_ok s H s3 i) as (s4 & -> & ? & ?); try done. run. by apply Hfail. }
  destruct (hardlink_ok _ s2 dp d name i ip2 Hok2 Hin Hn Hi2) as (r & s3 & -> & Hok3 & Hc); [by rewrite E1|]. run.
  destruct Hc as [(-> & h & b & ->)|(-> & _ & Hf & Hlk)].
  { destruct (put_dir (plus H i) (with_heap h b s2) dp) as (s4 & -> & Hal4 & Hok4); [intros j; by apply plus_pos|done|done|]. run.
    destruct (put_dir H s4 i HH Hok4) as (s5 & -> & Hal5 & Hok5).
    { apply (alike_attached _ s4 Hal4). change (attached s2 i). by apply (alike_attached s s2). }
    run. split; [done|]. left. split; [done|]. apply (stays_alike s s2 (with_heap h b s2) s5); [done|apply heap_stays|by transitivity s4]. }
  destruct (linked_entry _ _ s2 s3 dp d name i ip2 Hok2 Hok3 Hin) as (Hen & Hsame & Hatt); try done; [apply Hn|congruence|].
  destruct (put_dir (plus H i) s3 dp) as (s4 & -> & Hal4 & Hok4); [intros j; by apply plus_pos|done|by apply Hatt|]. run.
  destruct (put_dir H s4 i HH Hok4) as (s5 & -> & Hal5 & Hok5); [apply (alike_attached s3 s4 Hal4), Hatt; by apply (alike_attached s s2)|].
  run. split; [done|]. right. split; [done|]. exists i, dp, name. assert (alike s3 s5) as Hal5' by by transitivity s4.
  split_and!; try done.
  - rewrite <- (alike_entry s s2 Hal2'). by rewrite (find_entry s2 dp d), Hf.
  - intros j n Hc. by rewrite (alike_entry s3 s5 Hal5'), Hen, (alike_entry s s2 Hal2').
  - intros j jp jp' Hj Hj' _ _. destruct (alike_at s s2 j jp Hal2' Hj) as (j2 & Hj2 & F2). destruct (alike_at s5 s3 j jp') as (j3 & Hj3 & F3); [by symmetry|done|].
    pose proof (Hsame j j2 j3 Hj2 Hj3) as (? & ? & ? & ? & ?).
    apply strip_fields in F2 as (? & ? & ? & ? & _ & _ & _ & _ & _ & _ & _ & ?), F3 as (? & ? & ? & ? & _ & _ & _ & _ & _ & _ & _ & ?). unfold same_file. split_and!; congruence.
  - destruct (alike_at s1 s i ip1) as (ip & Hi & F); [by symmetry|done|]. destruct (li_node _ _ _ _ _ Hlk ip2 Hi2) as (ip3 & Hi3 & ? & _ & _ & _ & _ & _ & Hnl & _).
    destruct (alike_at s3 s5 i ip3 Hal5' Hi3) as (ip5 & Hi5 & F5). apply strip_fields in F as (? & _ & _ & _ & _ & _ & _ & _ & _ & ? & _), F5 as (_ & _ & _ & _ & _ & _ & _ & _ & _ & ? & _).
    exists ip, ip5. split_and!; try done; congruence.
Qed.
(** ** [rename] *)

(** No process works in the directory a rename would replace. *)
Definition rename_allowed (newpath : str) (s : fsys) : Prop :=
  ∀ dp name i, p_parent fuel me newpath s = Done (Some (dp, name)) → entry s dp name = Some i → Some i ∉ cwds s.

(** Nothing happens, or both paths led to the same inode, or the entry has
    moved; what is in use before and after is the same. *)
Definition rename_post (oldpath newpath : str) (s : fsys) (r : Z) (s' : fsys) : Prop :=
  (r = -1 ∧ stays s s') ∨
  (r = 0 ∧ ∃ od on nd nn i, p_parent fuel me oldpath s = Done (Some (od, on)) ∧ p_parent fuel me newpath s = Done (Some (nd, nn)) ∧
     entry s od on = Some i ∧
     ((stays s s' ∧ entry s nd nn = Some i) ∨
      ((∀ j n, cstring n → entry s' j n =
          if decide (at_name nd nn j n) then Some i else if decide (at_name od on j n) then None else entry s j n) ∧
       (∀ j jp jp', inodes s !! j = Some jp → inodes s' !! j = Some jp' → itype jp' ≠ 0 → same_file jp jp')))).

Lemma renamed_attached H H' s s' od on nd nn i j : vfs_ok None H s → vfs_ok None H' s' → renamed od on nd nn i s s' → cstring nn →
  entry s od on = Some i → entry s nd nn ≠ Some j → attached s j → attached s' j.
Proof.
  intros Hok Hok' Hr Hc Ho Hne. rewrite (attached_entry H' s'), (attached_entry H s), (rn_root _ _ _ _ _ _ _ Hr) by done.
  intros [?|(k & n & Hn & Hk)]; [by left|right]. destruct (decide (at_name od on k n)) as [Hod|Hod].
  - destruct Hod as [-> ->]. exists nd, nn. split; [done|]. rewrite (rn_entry _ _ _ _ _ _ _ Hr), decide_True by done. congruence.
  - exists k, n. split; [done|]. rewrite (rn_entry _ _ _ _ _ _ _ Hr) by done. rewrite (decide_False (P := at_name od on k n)) by done.
    case_decide as Hx; [|done]. destruct Hx as [-> ->]. congruence.
Qed.

Lemma fs_rename_ok oldpath newpath s H : vfs_ok None H s → cstring oldpath → cstring newpath → rename_allowed newpath s →
  ends fuel me s (fs_rename fuel me oldpath newpath s) (λ '(r, s'), vfs_ok None H s' ∧ rename_post oldpath newpath s r s').
Proof.
  intros Hok Hpo Hpn Hallow. pose proof (vo_H _ _ _ Hok) as HH. unfold fs_rename.
  assert (∀ s', alike s s' → vfs_ok None H s' → vfs_ok None H s' ∧ rename_post oldpath newpath s (-1) s') as Hfail
    by (intros s' Hal Hok'; split; [done|left; split; [done|by apply alike_stays]]).
  destruct (_ || _); [by apply Hfail|]. apply (ends_parent fuel me oldpath s H); [done..|]. intros r s1 Hr1 [Hal1 Hres1].
  destruct r as [[od on]|]; [|by apply Hfail]. destruct Hres1 as (Hok1 & Hno & o1 & Hino). assert (∀ j, 0 ≤ plus H od j) as HHo by (intros j; by apply plus_pos).
  apply (ends_alike H (plus H od) s s1); [done..|]. apply (ends_parent fuel me newpath s1 (plus H od)); [done..|]. intros r s2 Hr2 [Hal2 Hres2].
  assert (alike s s2) as Hal2' by by transitivity s1. rewrite (p_parent_alike H (plus H od) s s1) in Hr2 by done.
  assert (attached s od) as Hao by by apply (alike_attached s s1 Hal1), Hino.
  destruct r as [[nd nn]|]; cycle 1. { destruct (ref_drop_ok s H s2 od) as (s3 & -> & ? & ?); try done. run. by apply Hfail. }
  destruct Hres2 as (Hok2 & Hnn & n2 & Hinn). destruct (alike_in_tree s1 s2 od o1 Hal2 Hino) as (o2 & Hino2 & _).
  rewrite (get_inode_ok s2 od o2) by apply Hino2. run. rewrite (get_inode_ok s2 nd n2) by apply Hinn. run.
  rewrite !bool_decide_true; [|by rewrite (dir_ops _ _ _ _ Hok2 Hino2), (dir_ops _ _ _ _ Hok2 Hinn)|by eapply dir_ops]. cbn [negb orb].
  assert (attached s2 nd ∧ attached s2 od) as [Han2 Hao2] by (split; [apply Hinn|apply Hino2]).
  destruct (rename_ok _ s2 od o2 on nd n2 nn Hok2 Hino2 Hinn Hno Hnn) as (r & s3 & -> & Hok3 & Hc).
  { intros e He. rewrite (al_cwds _ _ Hal2'). apply (Hallow nd nn); [done|]. rewrite <- (alike_entry s s2 Hal2').
    rewrite (find_entry s2 nd n2) by apply Hinn. by rewrite He. }
  run.
  assert (attached s3 nd ∧ attached s3 od) as [Han3 Hao3].
  { destruct Hc as [[_ ->]|(_ & i & Hi & [[-> _]|Hrn])]; [done..|]. pose proof (rn_dirs _ _ _ _ _ _ _ Hrn) as [D1 D2].
    split; eapply (renamed_attached _ _ s2 s3); try done; apply Hnn. }
  destruct (put_dir (plus H od) s3 nd HHo Hok3 Han3) as (s4 & -> & Hal4 & Hok4). run.
  destruct (put_dir H s4 od HH Hok4) as (s5 & -> & Hal5 & Hok5); [by apply (alike_attached s3 s4 Hal4)|]. run.
  assert (alike s3 s5) as Hal35 by by transitivity s4. split; [done|].
  destruct Hc as [[-> ->]|(-> & i & Hi & Hc)]; [left; split; [done|]; apply alike_stays; by transitivity s2|right]. split; [done|].
  exists od, on, nd, nn, i. rewrite (alike_entry s s2 Hal2') in Hi. split_and!; try done.
  destruct Hc as [[-> Hn]|Hrn]; [left; split; [apply alike_stays; by transitivity s2|by rewrite <- (alike_entry s s2 Hal2')]|right]. split.
  - intros j n Hcn. by rewrite (alike_entry s3 s5 Hal35), (rn_entry _ _ _ _ _ _ _ Hrn), (alike_entry s s2 Hal2').
  - intros j jp jp' Hj Hj' Hl. destruct (alike_at s s2 j jp Hal2' Hj) as (j2 & Hj2 & F2). destruct (alike_at s5 s3 j jp') as (j3 & Hj3 & F3); [by symmetry|done|].
    destruct (rn_node _ _ _ _ _ _ _ Hrn j j2 Hj2) as (j3' & Hj3' & Hc). rewrite Hj3 in Hj3'. apply (inj Some) in Hj3'. subst j3'.
    apply strip_fields in F2 as (? & ? & ? & ? & _ & _ & _ & _ & _ & _ & _ & ?), F3 as (? & ? & ? & ? & _ & _ & _ & _ & _ & _ & _ & ?).
    destruct Hc as [(? & ? & ? & ? & ?)|[? _]]; [unfold same_file; split_and!; congruence|congruence].
Qed.
(** ** Attributes *)

(** A change to the attributes of an inode. *)
Definition attr_only (f : inode → inode) : Prop :=
  ∀ ip, dents (f ip) = dents ip ∧ itype (f ip) = itype ip ∧ iparent (f ip) = iparent ip ∧ iname (f ip) = iname ip ∧ ref (f ip) = ref ip ∧
    data (f ip) = data ip ∧ size (f ip) = size ip ∧ i_op (f ip) = i_op ip ∧ i_pipe (f ip) = i_pipe ip.

Lemma attr_node_ok f ip : attr_only f → node_ok ip → node_ok (f ip).
Proof.
  intros Hf [N1 N2 N3 N4 N5 N6 N7 N8]. destruct (Hf ip) as (E1 & E2 & E3 & E4 & E5 & E6 & E7 & E8 & E9).
  split; by rewrite ?E1, ?E2, ?E3, ?E4, ?E5, ?E6, ?E7, ?E8.
Qed.

Lemma attr_ok H s i ip f : attr_only f → vfs_ok None H s → inodes s !! i = Some ip →
  upd_inode i f s = Done (set_inode i (f ip) s) ∧ vfs_ok None H (set_inode i (f ip) s) ∧ stays s (set_inode i (f ip) s) ∧
  (∀ j, attached (set_inode i (f ip) s) j ↔ attached s j).
Proof.
  intros Hf Hok Hi. destruct (Hf ip) as (E1 & E2 & E3 & E4 & E5 & E6 & E7 & E8 & E9). split; [by apply upd_inode_ok|].
  assert (vfs_ok None H (set_inode i (f ip) s)) as Hok'.
  { apply (vfs_ok_set None H s Hok _ i ip); try done; [by apply attr_node_ok, (vo_node _ _ _ Hok i ip)|apply Hok|lia]. }
  assert (stays s (set_inode i (f ip) s)) as Hst; [|split_and!; try done; intros j; by apply (stays_attached H H s)].
  split; try done.
  - intros j n Hn. unfold entry. destruct (decide (j = i)) as [->|Hj]; [|by rewrite set_inode_ne].
    rewrite (set_inode_at _ _ _ ip), Hi by done. cbn. by rewrite E1.
  - intros j jp jp' Hj Hj' _ _. destruct (decide (j = i)) as [->|Hne].
    + rewrite (set_inode_at _ _ _ ip) in Hj' by done. apply (inj Some) in Hj'. rewrite Hi in Hj. apply (inj Some) in Hj. subst. by split.
    + rewrite set_inode_ne, Hj in Hj' by done. by injection Hj' as <-.
Qed.

Lemma put_exact H s i ip : vfs_ok None (plus H i) s → (∀ j, 0 ≤ H j) → attached s i → inodes s !! i = Some ip →
  fs_iput i s = Done (set_inode i (with_ref (ref ip - 1) ip) s) ∧ vfs_ok None H (set_inode i (with_ref (ref ip - 1) ip) s).
Proof.
  intros Hok HH Ha Hi. destruct (iput_ok None H s i ip Hok Hi HH) as [Hrun Hok']; [done|].
  pose proof (attached_pinned H s i HH Ha) as Hp. unfold pinned in Hp. pose proof (vo_ref _ _ _ Hok i ip Hi) as Hr. rewrite plus_eq in Hr.
  by rewrite unref_more in Hrun, Hok' by lia.
Qed.

(** Nothing but the inode [path] leads to changes, and that one by [f]. *)
Definition attr_post (path : str) (f : inode → inode) (s : fsys) (r : Z) (s' : fsys) : Prop :=
  stays s s' ∧
  ((r = -1 ∧ p_namex fuel me path false true s = Done None) ∨
   (r = 0 ∧ ∃ i ip c, p_namex fuel me path false true s = Done (Some (i, [])) ∧ inodes s' !! i = Some (with_ref c (f ip)))).

Lemma attr_ends path s H f (g : nat → fsys → outcome (Z * fsys)) : vfs_ok None H s → cstring path → attr_only (f (now_sec s)) →
  (∀ i s ip, inodes s !! i = Some ip → g i s = (s ← fs_iput i (set_inode i (f (now_sec s) ip) s); mret (0, s))) →
  ends fuel me s ('(r, s) ← fs_namei fuel me path s; match r with None => mret (-1, s) | Some i => g i s end)
    (λ '(r, s'), vfs_ok None H s' ∧ attr_post path (f (now_sec s)) s r s').
Proof.
  intros Hok Hp Hf Hg. apply (ends_namei path s H); [done..|]. intros [i|] s1 Hr (Hal & Hok1 & Ha); cycle 1.
  { split; [done|]. split; [by apply alike_stays|by left]. }
  specialize (Ha i eq_refl). cbn [hold] in Hok1. destruct (attached_live _ s1 i Hok1) as (ip & Hi & _); [by apply (alike_attached s s1)|].
  rewrite (Hg i s1 ip Hi), (al_now _ _ Hal). set (f' := f (now_sec s)) in *.
  destruct (attr_ok (plus H i) s1 i ip f' Hf Hok1 Hi) as (_ & Hok2 & Hst & Hatt). set (s2 := set_inode i (f' ip) s1) in *.
  assert (inodes s2 !! i = Some (f' ip)) as Hi2 by by apply (set_inode_at _ _ _ ip).
  destruct (put_exact H s2 i (f' ip) Hok2) as [-> Hok3]; [apply Hok|by apply Hatt, (alike_attached s s1)|done|]. run. split; [done|]. split.
  - apply (stays_alike s s1 s2); [done|done|by apply (alike_set s2 i (f' ip))].
  - right. split; [done|]. eexists i, ip, _. split; [done|]. by rewrite (set_inode_at _ _ _ _ Hi2).
Qed.

Definition chmod_node (md now : Z) (ip : inode) : inode := fs_inode_touch true false now (with_stat (Z.land md MODE_BITS) (nlink ip) (uid ip) (gid ip) ip).
Definition chown_node (u g now : Z) (ip : inode) : inode := fs_inode_touch true false now (with_stat (mode ip) (nlink ip) u g ip).

(** [ip->... = ...; touch(ip); fs_iput(ip)] *)
Lemma upd_touch_put i f s ip : inodes s !! i = Some ip →
  (s ← upd_inode i f s; s ← touch i true false s; s ← fs_iput i s; mret (0, s)) =
  (s ← fs_iput i (set_inode i (fs_inode_touch true false (now_sec s) (f ip)) s); mret (0, s)).
Proof.
  intros Hi. rewrite (upd_inode_ok s i ip) by done. run. unfold touch. rewrite (upd_inode_ok _ i (f ip)) by by apply (set_inode_at _ _ _ ip).
  run. by rewrite set_inode_set.
Qed.

Lemma fs_chmod_ok path md s H : vfs_ok None H s → cstring path →
  ends fuel me s (fs_chmod fuel me path md s) (λ '(r, s'), vfs_ok None H s' ∧ attr_post path (chmod_node md (now_sec s)) s r s').
Proof. intros Hok Hp. apply (attr_ends path s H (chmod_node md)); try done. intros i s1 ip Hi. by rewrite (upd_touch_put i _ s1 ip Hi). Qed.

Lemma fs_chown_ok path u g s H : vfs_ok None H s → cstring path →
  ends fuel me s (fs_chown fuel me path u g s) (λ '(r, s'), vfs_ok None H s' ∧ attr_post path (chown_node u g (now_sec s)) s r s').
Proof. intros Hok Hp. apply (attr_ends path s H (chown_node u g)); try done. intros i s1 ip Hi. by rewrite (upd_touch_put i _ s1 ip Hi). Qed.

Lemma fs_utime_ok path a m s H : vfs_ok None H s → cstring path →
  ends fuel me s (fs_utime fuel me path a m s) (λ '(r, s'), vfs_ok None H s' ∧ attr_post path (with_times a m m) s r s').
Proof.
  intros Hok Hp. apply (attr_ends path s H (λ _, with_times a m m)); try done. intros i s1 ip Hi. by rewrite (upd_inode_ok s1 i ip).
Qed.

(** [access] looks at the mode of the inode and changes nothing. *)
Definition access_ret (amode : Z) (ip : inode) : Z :=
  let lacks bit m := negb (Z.land amode bit =? 0) && (Z.land (mode ip) m =? 0) in
  if amode =? F_OK then 0 else if lacks R_OK 0x124 || lacks W_OK 0x92 || lacks X_OK 0x49 then -1 else 0.

Lemma fs_access_ok path amode s H : vfs_ok None H s → cstring path →
  ends fuel me s (fs_access fuel me path amode s) (λ '(r, s'), vfs_ok None H s' ∧ alike s s' ∧
    ((r = -1 ∧ p_namex fuel me path false true s = Done None) ∨
     (∃ i ip, p_namex fuel me path false true s = Done (Some (i, [])) ∧ inodes s !! i = Some ip ∧ r = access_ret amode ip))).
Proof.
  intros Hok Hp. apply (ends_namei path s H); [done..|]. intros [i|] s1 Hr (Hal & Hok1 & Ha); [|by split_and!; try done; left].
  specialize (Ha i eq_refl). cbn [hold] in Hok1. destruct (attached_live _ s1 i Hok1) as (ip & Hi & _); [by apply (alike_attached s s1)|].
  rewrite (get_inode_ok s1 i ip Hi). run. destruct (ref_drop_ok s H s1 i) as (s2 & -> & Hal2 & Hok2); [apply Hok|done..|]. run.
  split_and!; try done. right. destruct (alike_at s1 s i ip) as (ip0 & Hi0 & E); [by symmetry|done|]. exists i, ip0. split_and!; try done.
  apply strip_fields in E as (_ & _ & _ & _ & _ & _ & _ & _ & E & _). unfold access_ret. by rewrite E.
Qed.
(** ** [chdir] *)

Definition cwd_count (l : list (option nat)) (j : nat) : Z := Z.of_nat (length (filter (λ c, c = Some j) l)).

Lemma cwd_count_insert l : ∀ k x y j, l !! k = Some x →
  cwd_count (<[k := y]> l) j = cwd_count l j - (if decide (x = Some j) then 1 else 0) + (if decide (y = Some j) then 1 else 0).
Proof.
  unfold cwd_count. induction l as [|c l IH]; intros [|k] x y j Hk; try done.
  - injection Hk as ->. change (<[0%nat := y]> (x :: l)) with (y :: l). rewrite !filter_cons. repeat case_decide; cbn [length]; lia.
  - change (<[S k := y]> (c :: l)) with (c :: <[k := y]> l). rewrite !filter_cons. specialize (IH k x y j Hk).
    destruct (decide (c = Some j)); cbn [length]; lia.
Qed.

(** Process [me] moves from [c] to the directory [i] it holds. *)
Lemma cwd_set_ok H s i ip c : vfs_ok None (plus H i) s → (∀ j, 0 ≤ H j) → inodes s !! i = Some ip → itype ip = T_DIR → attached s i →
  cwds s !! me = Some c →
  ∃ s', match c with Some old => fs_iput old s | None => mret s end = Done s' ∧ alike s s' ∧
    vfs_ok None H (with_cwds (<[me := Some i]> (cwds s')) s').
Proof.
  intros Hok HH Hi Ht Ha Hc. set (H1 := λ j, plus H i j + (if decide (c = Some j) then 1 else 0) - (if decide (Some i = Some j) then 1 else 0)).
  assert (∀ j, H1 j = match c with Some old => plus H old j | None => H j end) as HH1.
  { intros j. unfold H1, plus. destruct c as [old|].
    - destruct (decide (j = i)), (decide (j = old)), (decide (Some old = Some j)), (decide (Some i = Some j)); (lia || congruence).
    - rewrite (decide_False (P := None = Some j)) by done. destruct (decide (j = i)), (decide (Some i = Some j)); (lia || congruence). }
  assert (∀ j, 0 ≤ H1 j) as Hp1 by (intros j; rewrite HH1; destruct c; [by apply plus_pos|done]).
  assert (vfs_ok None H1 (with_cwds (<[me := Some i]> (cwds s)) s)) as Hok1.
  { destruct Hok as [V1 V2 V3 V4 V5 V6 V7 V8]. split; try done.
    - intros j jp Hj. rewrite (V5 j jp Hj). unfold held. cbn [cwds with_cwds vfs_root].
      pose proof (cwd_count_insert (cwds s) me c (Some i) j Hc) as E. unfold cwd_count in E. rewrite E. unfold H1. cbn [inodes with_cwds]. lia.
    - intros k Hk. cbn in Hk. apply list_elem_of_lookup in Hk as [q Hq]. apply insert_Some in Hq as [(_ & [= ->] & _)|[_ Hq]].
      + exists ip. split_and!; try done.
      + apply V7. by eapply list_elem_of_lookup_2. }
  destruct c as [old|]; cycle 1.
  { exists s. split_and!; try done. eapply vfs_ok_ext; [done|]. intros j. by rewrite HH1. }
  destruct (vo_cwd _ _ _ Hok old) as (op & Hop & Hot & Hoa); [by eapply list_elem_of_lookup_2|]. specialize (Hoa ltac:(done)).
  assert (vfs_ok None (plus H old) (with_cwds (<[me := Some i]> (cwds s)) s)) as Hok2 by (eapply vfs_ok_ext; [done|]; intros j; by rewrite HH1).
  destruct (put_exact H _ old op Hok2 HH Hoa Hop) as [_ Hok3].
  assert (2 ≤ ref op) as Hr.
  { pose proof (vo_ref _ _ _ Hok2 old op Hop) as Hr. rewrite plus_eq in Hr. pose proof (attached_pinned H (with_cwds (<[me := Some i]> (cwds s)) s) old HH Hoa) as Hpin.
    unfold pinned in Hpin. lia. }
  exists (set_inode old (with_ref (ref op - 1) op) s). split_and!; [|by apply (alike_set s old op)|done].
  unfold fs_iput, iput_fuel. cbn [fs_iput_loop]. rewrite (get_inode_ok s old op Hop). run. rewrite (proj2 (Z.leb_gt (ref op) 0)) by lia.
  by rewrite (proj2 (Z.eqb_neq (ref op - 1) 0)) by lia.
Qed.

(** The working directory changes to the directory the path leads to, and
    nothing else does. *)
Lemma chdir_ok path s H : vfs_ok None H s → cstring path → (me < length (cwds s))%nat →
  ends fuel me s (chdir fuel me path s) (λ '(r, s'), vfs_ok None H s' ∧
    ((r = -1 ∧ alike s s') ∨
     (r = 0 ∧ ∃ i ip, p_namex fuel me path false true s = Done (Some (i, [])) ∧ inodes s !! i = Some ip ∧ itype ip = T_DIR ∧
        ∃ s1, alike s s1 ∧ s' = with_cwds (<[me := Some i]> (cwds s)) s1))).
Proof.
  intros Hok Hp Hme. apply (ends_namei path s H); [done..|]. intros [i|] s1 Hr (Hal & Hok1 & Ha); [|by split; [|left]].
  specialize (Ha i eq_refl). cbn [hold] in Hok1. destruct (attached_live _ s1 i Hok1) as (ip & Hi & _); [by apply (alike_attached s s1)|].
  rewrite (get_inode_ok s1 i ip Hi). run. destruct (Z.eqb_spec (itype ip) T_DIR) as [Ht|Ht]; cbn [negb]; cycle 1.
  { destruct (ref_drop_ok s H s1 i) as (s2 & -> & Hal2 & Hok2); [apply Hok|done..|]. run. split; [done|]. by left. }
  destruct (lookup_lt_is_Some_2 (cwds s1) me) as [c Hc]; [by rewrite (al_cwds _ _ Hal)|].
  destruct (cwd_set_ok H s1 i ip c Hok1) as (s2 & Hrun & Hal2 & Hok2); try done; [apply Hok|by apply (alike_attached s s1)|].
  assert (mjoin (cwds s1 !! me) = c) as -> by by rewrite Hc. rewrite Hrun. run. split; [done|]. right. split; [done|].
  destruct (alike_at s1 s i ip) as (ip0 & Hi0 & E); [by symmetry|done|]. apply strip_fields in E as (E & _). exists i, ip0. split_and!; try done; [congruence|].
  exists s2. split; [by transitivity s1|]. by rewrite (al_cwds _ _ Hal2), (al_cwds _ _ Hal).
Qed.
End Calls.
