(* ===== verification/NameiLive.v ===== *)
(** [NameiLive]: resolution comes to an end when no link is absolute, and the
    path of the working directory leads back to it. *)
From Stdlib Require Import ZArith Lia.
From stdpp Require Import numbers strings gmap list.
From S2P Require Import Prelude Vfs VfsInv RamfsSpec RamfsRename Namei NameiSpec NameiOps.
Open Scope Z_scope.

(** ** Termination *)

Definition no_absolute (s : fsys) : Prop :=
  ∀ i ip, inodes s !! i = Some ip → itype ip = T_LNK → at_ (cstr (link_text ip)) 0 ≠ SLASH.

Section Ends.
Context (res : str → outcome (option nat)) (s : fsys).
Hypothesis Hrel : no_absolute s.

Lemma p_follow_ends link ip depth : inodes s !! link = Some ip → itype ip = T_LNK → p_follow res s link depth ≠ NoFuel.
Proof.
  intros Hl Ht. unfold p_follow. destruct (_ <? _)%nat; [done|]. rewrite Hl. pose proof (Hrel link ip Hl Ht) as Ha.
  destruct (link_text ip) as [|c t]; [done|]. rewrite (proj2 (Z.eqb_neq _ _) Ha). by destruct (bool_decide _).
Qed.

(** Each round of the loop counts up, and the ninth gives up. *)
Lemma p_links_ends n depth next : (depth ≤ MAXSYMLINKS)%nat → (S MAXSYMLINKS < n + depth)%nat → p_links res s n depth next ≠ NoFuel.
Proof.
  revert depth next. induction n as [|n IH]; intros depth next Hm Hd; cbn [p_links]; [lia|].
  destruct (inodes s !! next) as [ip|] eqn:Hi; [|done]. cbn [deref]. run. destruct (Z.eqb_spec (itype ip) T_LNK) as [Ht|]; [|done].
  pose proof (p_follow_ends next ip (S depth) Hi Ht) as Hf. destruct (p_follow res s next (S depth)) as [[k|]| | |] eqn:E; try done. run.
  apply IH; [|lia]. destruct (decide (depth = MAXSYMLINKS)) as [->|]; [|lia]. by unfold p_follow in E.
Qed.

Lemma p_walk_ends comps np fo i : p_walk res s comps np fo i ≠ NoFuel.
Proof.
  revert i. induction comps as [|e comps IH]; intros i; cbn [p_walk]; [done|]. destruct (inodes s !! i) as [ip|]; [|done]. cbn [deref]. run.
  destruct (negb (itype ip =? T_DIR)); [done|]. destruct (np && _); [done|]. destruct (name_eq e DOT); [apply IH|]. destruct (name_eq e DOTDOT); [apply IH|].
  destruct (entry s i e) as [next|]; [|done]. destruct (bool_decide (comps = []) && negb fo); [apply IH|].
  pose proof (p_links_ends (S (S MAXSYMLINKS)) 0 next ltac:(unfold MAXSYMLINKS; lia) ltac:(unfold MAXSYMLINKS; lia)) as Hl.
  destruct (p_links res s (S (S MAXSYMLINKS)) 0 next) as [[k|]| | |]; try done. apply IH.
Qed.
End Ends.

Lemma relative_resolves fuel me s : no_absolute s → resolves (S fuel) me s.
Proof.
  intros Hrel path np fo _. cbn [p_namex]. destruct path as [|c p]; [done|]. destruct (if _ =? SLASH then _ else _) as [i|]; [|done]. by apply p_walk_ends.
Qed.

(** C31: Resolution ends.  When no symbolic link in the tree is absolute, looking
    up any path returns after following at most eight links for each component,
    without a recursive call. *)
Theorem namei_terminates me path np fo H s : vfs_ok None H s → no_absolute s → cstring path →
  ∃ r s', namex 1 me path np fo s = Done (r, s') ∧ alike s s' ∧ vfs_ok None (hold H (option_map fst r)) s'.
Proof.
  intros Hok Hrel Hp. pose proof (relative_resolves 0 me s Hrel path np fo Hp) as Hne.
  pose proof (namex_ok 1 me path np fo s H H s Hok (reflexivity s) Hok) as Hf. unfold follows in Hf.
  destruct (p_namex 1 me path np fo s) as [r| | |]; try done. destruct Hf as (s' & -> & (Hal & Hok' & _) & _). by exists r, s'.
Qed.

(** ** The way back from the working directory *)

(** A directory below the root. *)
Inductive rooted (s : fsys) : nat → Prop :=
  | rooted_root r : vfs_root s = Some r → rooted s r
  | rooted_child j jp n i ip : rooted s j → inodes s !! j = Some jp → Dentry n i ∈ dents jp → inodes s !! i = Some ip → itype ip = T_DIR → rooted s i.

(** No directory is called [.] or [..]. *)
Definition plain_dirs (s : fsys) : Prop :=
  ∀ j jp d ip, inodes s !! j = Some jp → d ∈ dents jp → inodes s !! d_ip d = Some ip → itype ip = T_DIR →
    d_name d ≠ DOT ∧ d_name d ≠ DOTDOT.

Section Cwd.
Context (H : nat → Z) (s : fsys).
Hypothesis Hok : vfs_ok None H s.

Lemma rooted_parent i ip : rooted s i → inodes s !! i = Some ip → vfs_root s = Some i ∨ iparent ip ≠ Some i.
Proof.
  intros Hr. revert ip. induction Hr as [r Hr|j jp n i ip Hj IH Hjp Hin Hi Ht]; intros ip' Hip'; [by left|].
  rewrite Hi in Hip'. injection Hip' as <-. right. destruct (dir_entries H s i ip Hok Hi Ht j jp _ Hjp Hin eq_refl) as [Hp _]. rewrite Hp.
  intros [= ->]. rewrite Hjp in Hi. injection Hi as ->. destruct (IH ip Hjp) as [E|E]; [|congruence].
  by apply (root_entry H s i ip _ Hok Hjp Hin).
Qed.

(** The path [/a/b] of names. *)
Fixpoint path_of (names : list str) : str := match names with [] => [] | n :: names => SLASH :: n ++ path_of names end.

Lemma join_path names : ∀ len max p, join_names names len max = Some p → p = path_of names.
Proof.
  induction names as [|n names IH]; intros len max p; cbn [join_names path_of]; [by intros [= <-]|]. destruct (_ || _); [done|].
  destruct (join_names names (len + 1 + Z.of_nat (length n)) max) as [q|] eqn:E; [|done]. intros [= <-]. by rewrite (IH _ _ _ E).
Qed.

Lemma head_elem_app n p : SLASH ∉ n → match p with [] => True | c :: _ => c = SLASH end → head_elem (n ++ p) = n ∧ after_elem (n ++ p) = p.
Proof.
  induction n as [|c n IH]; intros Hn Hp; cbn [app head_elem after_elem].
  - destruct p as [|c p]; [done|]. subst c. cbn. done.
  - apply not_elem_of_cons in Hn as [Hc Hn]. rewrite (proj2 (Z.eqb_neq c SLASH)) by congruence. destruct (IH Hn Hp) as [-> ->]. done.
Qed.

Lemma skip_path names : Forall valid_name names → skip_slashes (path_of names) = match names with [] => [] | n :: names => n ++ path_of names end.
Proof.
  destruct 1 as [|n names (Hne & _ & _ & Hs) _]; [done|]. cbn [path_of skip_slashes]. change (SLASH =? SLASH) with true. cbn iota.
  destruct n as [|c n]; [done|]. cbn. rewrite (proj2 (Z.eqb_neq c SLASH)); [done|]. intros ->. apply Hs. by left.
Qed.

Lemma elems_loop_path names : Forall valid_name names → ∀ k, (length names ≤ k)%nat →
  elems_loop k (path_of names) = names ∧ elems_loop k (skip_slashes (path_of names)) = names.
Proof.
  induction 1 as [|n names Hn Hv IH]; intros k Hk; [by destruct k|]. destruct k as [|k]; [cbn in Hk; lia|].
  pose proof Hn as (Hne & Hlen & _ & Hs).
  assert (skipelem (path_of (n :: names)) = Some (n, skip_slashes (path_of names)) ∧ skipelem (n ++ path_of names) = Some (n, skip_slashes (path_of names))) as [E1 E2].
  { unfold skipelem. rewrite (skip_path (n :: names)) by by constructor.
    assert (skip_slashes (n ++ path_of names) = n ++ path_of names) as ->.
    { destruct n as [|c n]; [done|]. cbn. rewrite (proj2 (Z.eqb_neq c SLASH)); [done|]. intros ->. apply Hs. by left. }
    destruct (head_elem_app n (path_of names) Hs) as [E3 E4]; [by destruct names|].
    assert (take (DIRSIZ - 1) n = n) as E5 by (apply take_ge; unfold DIRSIZ in *; lia).
    destruct (n ++ path_of names) as [|c q] eqn:E; [by destruct n|]. by rewrite E3, E4, E5. }
  cbn [length] in Hk. destruct (IH k ltac:(lia)) as [_ IH2]. split.
  - cbn [elems_loop]. rewrite E1. by rewrite IH2.
  - rewrite (skip_path (n :: names)) by by constructor. cbn [elems_loop]. rewrite E2. by rewrite IH2.
Qed.

Lemma elems_path names : Forall valid_name names → elems (path_of names) = names.
Proof.
  intros Hv. apply elems_loop_path; [done|]. clear -Hv. induction Hv as [|n names Hn Hv IH]; cbn [path_of length]; [done|]. rewrite length_app. lia.
Qed.

(** A round of the loop that collects them: at the root, or one directory up. *)
Lemma chain_step n i names : rooted s i → cwd_chain n i s = Done (Some names) →
  (names = [] ∧ vfs_root s = Some i) ∨
  ∃ n' j jp ip names', n = S n' ∧ names = iname ip :: names' ∧ cwd_chain n' j s = Done (Some names') ∧ rooted s j ∧
    inodes s !! j = Some jp ∧ Dentry (iname ip) i ∈ dents jp ∧ inodes s !! i = Some ip ∧ itype ip = T_DIR.
Proof.
  intros Hr E.
  destruct (decide (vfs_root s = Some i)) as [Hi|Hi].
  { left. split; [|done]. destruct n; cbn [cwd_chain] in E; unfold get_inode in E; destruct (inodes s !! i) as [p|]; try done; cbn [deref] in E;
      revert E; run; rewrite bool_decide_true by done; by intros [= <-]. }
  right. pose proof Hr as Hr'. destruct Hr as [r Hr|j jp name i ip Hj Hjp Hin Hip Ht]; [done|].
  destruct (dir_entries H s i ip Hok Hip Ht j jp _ Hjp Hin eq_refl) as [Hp Hn]. cbn in Hn. subst name.
  destruct (rooted_parent i ip Hr' Hip) as [?|Hnp]; [done|]. assert (j ≠ i) as Hji by congruence.
  destruct n as [|n]; cbn [cwd_chain] in E; unfold get_inode in E; rewrite Hip in E; cbn [deref] in E; revert E; run;
    rewrite bool_decide_false, Hp, bool_decide_false by done; [done|].
  destruct (cwd_chain n j s) as [[ns|]| | |] eqn:Ec; try done. run. intros [= <-]. by exists n, j, jp, ip, ns.
Qed.

Lemma not_dots n : valid_name n → n ≠ DOT → n ≠ DOTDOT → name_eq n DOT = false ∧ name_eq n DOTDOT = false.
Proof.
  intros (_ & Hl & Hc & _) N1 N2. split; apply name_neq; try done; repeat constructor.
Qed.

(** Walking down the names leads to where the loop started. *)
Lemma chain_walk res root n : vfs_root s = Some root → plain_dirs s → ∀ i names, rooted s i → cwd_chain n i s = Done (Some names) →
  Forall valid_name names ∧ ∀ rest, p_walk res s (rev names ++ rest) false true root = p_walk res s rest false true i.
Proof.
  intros Hroot Hpl. induction n as [n IH] using lt_wf_ind. intros i names Hr E.
  destruct (chain_step n i names Hr E) as [[-> Hi]|(n' & j & jp & ip & ns & -> & -> & E' & Hj & Hjp & Hin & Hip & Ht)].
  { rewrite Hroot in Hi. injection Hi as ->. split; [constructor|done]. }
  destruct (IH n' ltac:(lia) j ns Hj E') as [Hv Hw]. pose proof (no_dents _ (vo_node _ _ _ Hok j jp Hjp)) as Hg.
  assert (valid_name (iname ip)) as Hvn by (destruct Hg as [_ Hg]; rewrite Forall_forall in Hg; exact (Hg _ Hin)).
  split; [by constructor|]. intros rest. cbn [rev]. rewrite <- app_assoc. rewrite Hw. cbn [app p_walk].
  destruct (Hpl j jp _ ip Hjp Hin Hip Ht) as [N1 N2]. cbn [d_name] in N1, N2.
  assert (itype jp = T_DIR) as Hjt.
  { destruct (decide (itype jp = T_DIR)); [done|]. rewrite (no_dir _ (vo_node _ _ _ Hok j jp Hjp)) in Hin by done. set_solver. }
  rewrite Hjp. cbn [deref]. run. rewrite Hjt. change (T_DIR =? T_DIR) with true. cbn [negb andb].
  destruct (not_dots _ Hvn N1 N2) as [-> ->].
  rewrite (find_entry s j jp _ Hjp), (find_dentry_some _ (iname ip) _ Hg Hin eq_refl). cbn [fmap option_fmap option_map d_ip negb]. rewrite andb_false_r.
  rewrite (p_links_plain res s _ 0 i ip Hip) by (rewrite Ht; done). done.
Qed.

Lemma getcwd_back fuel me max c p : mjoin (cwds s !! me) = Some c → rooted s c → plain_dirs s →
  fs_getcwd me max s = Done (Some p) → p_namex (S fuel) me p false true s = Done (Some (c, [])).
Proof.
  intros Hc Hr Hpl. unfold fs_getcwd. rewrite Hc. destruct (vfs_root s) as [root|] eqn:Hroot; [|done]. destruct (max <? 2); [done|].
  destruct (cwd_chain NINODE c s) as [[names|]| | |] eqn:E; try done; run.
  destruct (chain_walk (λ target, r ← p_namex fuel me target false true s; mret (option_map fst r)) root NINODE Hroot Hpl c names Hr E) as [Hv Hw].
  specialize (Hw []). rewrite app_nil_r in Hw. cbn [p_namex].
  destruct names as [|n ns].
  { intros [= <-]. change (at_ [SLASH] 0 =? SLASH) with true. cbn iota. rewrite Hroot. exact Hw. }
  intros Ej. remember (rev (n :: ns)) as names eqn:En. injection Ej as Ej. apply join_path in Ej as ->.
  assert (Forall valid_name names) as Hv' by (rewrite En; by apply Forall_rev).
  destruct names as [|m ms]; [by apply (f_equal length) in En; rewrite length_rev in En|]. rewrite elems_path by done. cbn [path_of]. change (at_ (SLASH :: m ++ path_of ms) 0 =? SLASH) with true.
  cbn iota. rewrite Hroot. exact Hw.
Qed.

(** C32: The path that [getcwd] gives leads back to the working directory, when
    that is below the root and no directory is called [.] or [..]. *)
Theorem getcwd_namei fuel me max c p : mjoin (cwds s !! me) = Some c → rooted s c → plain_dirs s →
  fs_getcwd me max s = Done (Some p) → ∃ s', fs_namei (S fuel) me p s = Done (Some c, s') ∧ alike s s'.
Proof.
  intros Hc Hr Hpl E. pose proof (getcwd_back fuel me max c p Hc Hr Hpl E) as En.
  pose proof (namex_ok (S fuel) me p false true s H H s Hok (reflexivity s) Hok) as Hf. rewrite En in Hf. cbn [follows] in Hf.
  destruct Hf as (s' & Es & (Hal & _) & _). exists s'. unfold fs_namei. rewrite Es. by split.
Qed.
End Cwd.
