(* ===== verification/FsInit.v ===== *)
(** [FsInit]: [fs_init] leaves a file system that satisfies the invariant. *)
From Stdlib Require Import ZArith Lia.
From stdpp Require Import numbers strings gmap list.
From S2P Require Import Prelude Slab Vfs VfsInv RamfsSpec RamfsRename RamfsData Namei NameiSpec NameiOps NameiCalls NameiLive.
Open Scope Z_scope.

(** ** The root *)

Definition boot_root (now : Z) : inode := with_place (Some 0%nat) [] (fresh_inode 0 T_DIR now zero_inode).
Definition boot_fs (procs : nat) (now : Z) (h : list bool) : fsys :=
  Fsys (<[0%nat := boot_root now]> (replicate NINODE zero_inode)) (Some 0%nat) (replicate procs None) now h false.

Definition nobody (_ : nat) : Z := 0.

Lemma boot_nodes procs now h i ip : inodes (boot_fs procs now h) !! i = Some ip → (i = 0%nat ∧ ip = boot_root now) ∨ (i ≠ 0%nat ∧ ip = zero_inode).
Proof.
  intros Hi. apply insert_Some in Hi as [(-> & -> & _)|[? Hi]]; [by left|right]. apply lookup_replicate in Hi as [-> _]. done.
Qed.

Lemma boot_links procs now h j : links (inodes (boot_fs procs now h)) j = 0.
Proof.
  destruct (decide (links (inodes (boot_fs procs now h)) j = 0)) as [?|Hne]; [done|exfalso].
  pose proof (links_nonneg (inodes (boot_fs procs now h)) j). assert (0 < links (inodes (boot_fs procs now h)) j) as Hp by lia.
  apply links_pos in Hp as (i & ip & d & Hi & Hd & _). apply boot_nodes in Hi as [[-> ->]|[_ ->]]; set_solver.
Qed.

Lemma boot_no_cwd procs c : Some c ∉ replicate procs (@None nat).
Proof. intros Hin. by apply elem_of_replicate in Hin as [? _]. Qed.

Lemma boot_held procs now h j : held (boot_fs procs now h) j = if decide (j = 0%nat) then 1 else 0.
Proof.
  unfold held. assert (filter (λ c, c = Some j) (cwds (boot_fs procs now h)) = []) as ->.
  { cbn. induction procs as [|n IH]; [done|]. cbn [replicate]. by rewrite filter_cons_False. }
  cbn. destruct (decide (j = 0%nat)) as [->|]; [by rewrite decide_True|by rewrite decide_False by congruence].
Qed.

Lemma boot_ok procs now h : vfs_ok None nobody (boot_fs procs now h).
Proof.
  split.
  - unfold boot_fs. cbn [inodes]. by rewrite length_insert, length_replicate.
  - by exists 0%nat, (boot_root now).
  - done.
  - intros i ip Hi. apply boot_nodes in Hi as [[-> ->]|[_ ->]].
    + destruct (fresh_inode_ok 0 T_DIR now zero_inode) as [N1 N2 N3 N4 N5 N6 N7 N8]; [done|]. split; try done. intros p [= <-]. unfold NINODE. lia.
    + by split; try done; split; constructor.
  - intros i ip Hi. rewrite boot_links, boot_held. unfold nobody. apply boot_nodes in Hi as [[-> ->]|[? ->]]; [done|]. by rewrite decide_False.
  - intros i ip d Hi Hd. apply boot_nodes in Hi as [[-> ->]|[_ ->]]; set_solver.
  - intros c Hc. by apply boot_no_cwd in Hc.
  - intros i ip Hi _ _ _. by apply boot_nodes in Hi as [[-> ->]|[_ ->]].
Qed.

(** ** The first entries *)

Definition no_links (s : fsys) : Prop := ∀ i ip, inodes s !! i = Some ip → itype ip ≠ T_LNK.

Lemma no_links_resolves fuel me s : no_links s → resolves (S fuel) me s.
Proof. intros Hnl. apply relative_resolves. intros i ip Hi Ht. by destruct (Hnl i ip Hi). Qed.

Lemma no_links_birth s i ip0 ip s1 : birth s i ip0 ip s1 → itype ip ≠ T_LNK → no_links s → no_links s1.
Proof. intros [_ B2 _ _] Ht Hnl j jp Hj. rewrite B2 in Hj. apply insert_Some in Hj as [(-> & -> & _)|[_ Hj]]; [done|by apply (Hnl j)]. Qed.

Lemma no_links_added dir name i ip s s' : added dir name i ip s s' → itype ip ≠ T_LNK → is_Some (inodes s !! dir) → no_links s → no_links s'.
Proof.
  intros [(r & A1 & _) A2 A3 _ _] Ht [dp Hd] Hnl j jp Hj. destruct (decide (j = i)) as [->|Hi].
  { rewrite A1 in Hj. apply (inj Some) in Hj. rewrite <- Hj. exact Ht. }
  destruct (decide (j = dir)) as [->|Hdir]; [|rewrite A3 in Hj by done; by apply (Hnl j)].
  rewrite (A2 dp Hd) in Hj. apply (inj Some) in Hj. rewrite <- Hj. exact (Hnl dir dp Hd).
Qed.

(** [d_add] of a new inode and the [fs_iput] after it. *)
Lemma add_put H s dir dp name i ip : newborn H s i ip → in_tree s dir dp → valid_name name → find_dentry (dents dp) name = None →
  ∃ r s1, d_add dir name i s = Done (r, s1) ∧
    (r <? 0 = true ∨ (r <? 0 = false ∧ ∃ s2, fs_iput i s1 = Done s2 ∧ vfs_ok None H s2 ∧ added dir name i ip s s2)).
Proof.
  intros Hnb Hin Hn Hf. destruct (hook_done H s dir dp name i ip Hnb Hin Hn Hf) as (r & s' & Hrun & Hok & Hres).
  destruct (hook_new H s dir dp name i ip Hnb Hin Hn Hf) as (r1 & s1 & Hadd & Hcase). exists r1, s1. split; [done|].
  destruct Hcase as [[-> _]|(-> & _)]; [by left|right]. split; [done|]. unfold hook in Hrun. rewrite Hadd in Hrun. revert Hrun. run.
  destruct (fs_iput i s1) as [s2| | |]; try done. run. intros E. injection E as <- <-. exists s2. split; [done|]. split; [done|].
  by destruct Hres as [[? _]|[_ ?]].
Qed.

(** A new directory is one to work in. *)
Lemma added_in_tree dir name i ip s s' : added dir name i ip s s' → is_Some (inodes s !! dir) → itype ip = T_DIR →
  ∃ ip', in_tree s' i ip' ∧ dents ip' = [].
Proof.
  intros [(r & A1 & Hde) A2 _ _ _] [dp Hd] Ht. eexists. split; [split; [exact A1|]|done]. split; [done|]. right. apply links_pos.
  exists dir, (with_dents (Dentry name i :: dents dp) dp), (Dentry name i). split; [by apply A2|]. split; [by left|done].
Qed.

Lemma seed_ok fuel me path text s : vfs_ok None nobody s → no_links s → cstring path → text ≠ [] → bytes text → Z.of_nat (length text) ≤ KMALLOC_MAX →
  ∃ s', seed_file (S fuel) me path text s = Done s' ∧ vfs_ok None nobody s' ∧ cwds s' = cwds s.
Proof.
  intros Hok Hnl Hp Ht Hb Hm. pose proof (fs_create_ok (S fuel) me path T_FILE s nobody Hok Hp) as Hc. unfold seed_file, ends in *.
  destruct (fs_create (S fuel) me path T_FILE s) as [[r s1]| | |]; [|destruct Hc; try done..].
  2: { by apply no_links_resolves. }
  destruct Hc as [Hok1 Hcr]; [done|]. run. destruct r as [i|]; [|exists s1; split_and!; try done; by apply Hcr]. cbn [hold] in Hok1.
  destruct Hcr as (dp & name & ip & _ & _ & Hed & Hi & Hty & _).
  destruct (writei_ok (plus nobody i) s1 i ip 0 text Hok1 Hi Hty ltac:(done) Ht Hb ltac:(lia)) as (r & s2 & -> & Hok2 & Hw). run.
  assert (∃ ip2, inodes s2 !! i = Some ip2 ∧ cwds s2 = cwds s1) as (ip2 & Hi2 & Hcw).
  { destruct Hw as [(_ & h & b & ->)|(_ & ip' & [(h & b & ->) _ _] & _)]; [by exists ip|]. exists ip'. split; [by apply (set_inode_at _ _ _ ip)|done]. }
  destruct (iput_ok None nobody s2 i ip2 Hok2 Hi2) as [-> Hok3]; [done..|]. eexists. split; [done|]. split; [done|].
  transitivity (cwds s2); [unfold unref; by destruct (ref ip2 =? 1)|]. rewrite Hcw. by apply Hed.
Qed.

Lemma init_tail fuel me s : vfs_ok None nobody s → no_links s →
  ∃ s', seed_file (S fuel) me (lit "/hello") (lit "Hello from Tiny-OS ramfs!" ++ [10]) s = Done s' ∧ vfs_ok None nobody s' ∧ cwds s' = cwds s.
Proof. intros Hok Hnl. apply seed_ok; try done; repeat constructor; by vm_compute. Qed.

Lemma lit_cstring x : bool_decide (Forall (λ c, 0 < c < 256) (lit x)) = true → cstring (lit x).
Proof. by intros Hc%bool_decide_eq_true. Qed.

Lemma lit_valid x : bool_decide (Forall (λ c, 0 < c < 256 ∧ c ≠ SLASH) (lit x)) = true → lit x ≠ [] → (length (lit x) < DIRSIZ)%nat → valid_name (lit x).
Proof.
  intros Hc%bool_decide_eq_true Hne Hl. split_and!; try done.
  - eapply Forall_impl; [exact Hc|]. by intros ? [? _].
  - rewrite Forall_forall in Hc. intros Hin. by destruct (Hc _ Hin).
Qed.

(** The console, in [/dev], and what comes after. *)
Lemma init_console fuel me s dev dp : vfs_ok None nobody s → no_links s → in_tree s dev dp → dents dp = [] →
  match (match ialloc T_CHAR s with
         | (None, _) => Panic "fs_init: console"
         | (Some console, s) =>
             s ← upd_inode console (with_rdev (MKDEV CONSOLE_MAJOR CONSOLE_MINOR)) s;
             '(r, s) ← d_add dev (lit "console") console s;
             if r <? 0 then Panic "fs_init: /dev/console"
             else
               s ← fs_iput console s;
               seed_file (S fuel) me (lit "/hello") (lit "Hello from Tiny-OS ramfs!" ++ [10]) s
         end) with
  | Done s' => vfs_ok None nobody s' ∧ cwds s' = cwds s
  | Panic why => why = "fs_init: console" ∨ why = "fs_init: /dev/console"
  | _ => False
  end.
Proof.
  intros Hok Hnl Hin Hde. pose proof (ialloc_birth nobody s T_CHAR Hok) as Ha. destruct (ialloc T_CHAR s) as [[i|] s1]; [|by left].
  destruct Ha as (ip0 & Hb & Hnb & Hd0); [done|]. set (ip := fresh_inode i T_CHAR (now_sec s) ip0) in *.
  destruct (newborn_upd nobody s s1 i ip0 ip (with_rdev (MKDEV CONSOLE_MAJOR CONSOLE_MINOR)) Hb Hnb) as (-> & Hb2 & Hnb2); try done.
  { by destruct (fresh_inode_ok i T_CHAR (now_sec s) ip0); [|split]. }
  run. set (s2 := set_inode i _ s1) in *. destruct (birth_in_tree _ _ _ _ _ dev dp Hb2 Hd0 Hin) as [Hne Hin2].
  destruct (add_put nobody s2 dev dp (lit "console") i _ Hnb2 Hin2) as (r & s3 & -> & Hres); [apply lit_valid; [by vm_compute|done|vm_compute; lia]|by rewrite Hde|].
  run. destruct Hres as [->|(-> & s4 & -> & Hok4 & Had)]; [by right|]. run.
  assert (no_links s4) as Hnl4.
  { eapply no_links_added; [exact Had|done|by exists dp; apply Hin2|]. by apply (no_links_birth s i ip0 _ s2 Hb2). }
  destruct (init_tail fuel me s4 Hok4 Hnl4) as (s5 & -> & Hok5 & Hc). split; [done|]. rewrite Hc, (ad_cwds _ _ _ _ _ _ Had). by apply Hb2.
Qed.

(** Start-up ends in a file system that satisfies the invariant, with no working
    directory set, unless memory or inodes run out, which the code says. *)
Lemma fs_init_ok fuel me procs now h :
  match fs_init (S fuel) me procs now h with
  | Done s => vfs_ok None nobody s ∧ cwds s = replicate procs None
  | Panic why => why ∈ ["fs_init: /dev"; "fs_init: console"; "fs_init: /dev/console"]
  | _ => False
  end.
Proof.
  unfold fs_init. set (s0 := Fsys _ _ _ _ _ _).
  assert (ialloc T_DIR s0 = (Some 0%nat, set_inode 0 (fresh_inode 0 T_DIR now zero_inode) s0)) as -> by done. run.
  set (s1 := set_inode 0 (fresh_inode 0 T_DIR now zero_inode) s0).
  assert (upd_inode 0 (λ ip, with_place (Some 0%nat) (iname ip) ip) s1 = Done (set_inode 0 (boot_root now) s1)) as -> by done. run.
  assert (vfs_set_root 0 (set_inode 0 (boot_root now) s1) = boot_fs procs now h) as -> by done.
  pose proof (boot_ok procs now h) as Hok. set (s := boot_fs procs now h) in *.
  assert (no_links s) as Hnl by (intros i ip Hi; apply boot_nodes in Hi as [[-> ->]|[_ ->]]; done).
  pose proof (ialloc_birth nobody s T_DIR Hok) as Ha. destruct (ialloc T_DIR s) as [[i|] s2]; [|set_solver].
  destruct Ha as (ip0 & Hb & Hnb & Hd0); [done|].
  assert (in_tree s 0 (boot_root now)) as Hin by (split; [done|]; split; [done|by left]).
  destruct (birth_in_tree _ _ _ _ _ _ _ Hb Hd0 Hin) as [Hne Hin2].
  destruct (add_put nobody s2 0 (boot_root now) (lit "dev") i _ Hnb Hin2) as (r & s3 & -> & Hres); [apply lit_valid; [by vm_compute|done|vm_compute; lia]|done|].
  run. destruct Hres as [->|(-> & s4 & -> & Hok4 & Had)]; [set_solver|]. run.
  assert (is_Some (inodes s2 !! 0%nat)) as Hr by (exists (boot_root now); apply Hin2).
  destruct (added_in_tree _ _ _ _ _ _ Had Hr) as (dp & Hdin & Hde); [done|].
  assert (no_links s4) as Hnl4 by (eapply no_links_added; [exact Had|done..|]; by apply (no_links_birth s i ip0 _ s2 Hb)).
  pose proof (init_console fuel me s4 i dp Hok4 Hnl4 Hdin Hde) as Hc. revert Hc.
  match goal with |- match ?o with _ => _ end → _ => destruct o end; try done.
  - intros [? ->]. split; [done|]. rewrite (ad_cwds _ _ _ _ _ _ Had). by rewrite (bi_cwds _ _ _ _ _ Hb).
  - intros [->| ->]; set_solver.
Qed.
