(* ===== verification/NameiClaims.v ===== *)
(** [NameiClaims]: what the calls on paths promise their callers. *)
From Stdlib Require Import ZArith Lia.
From stdpp Require Import numbers strings gmap list.
From S2P Require Import Prelude Slab Vfs VfsInv RamfsSpec RamfsRename RamfsData Namei NameiSpec NameiOps NameiCalls NameiLive FsInit.
Open Scope Z_scope.

(** C28: Path resolution implements the resolver on the tree of names: the
    counting of references on the way, the links it reads and the recursion
    for absolute links change no file and no name, and at the end the caller
    holds one reference to what was found, and no other. *)
Theorem namei_refines fuel me path np fo H s : vfs_ok None H s →
  match p_namex fuel me path np fo s with
  | Done r => ∃ s', namex fuel me path np fo s = Done (r, s') ∧ alike s s' ∧ vfs_ok None (hold H (option_map fst r)) s'
  | NoFuel => namex fuel me path np fo s = NoFuel
  | _ => False
  end.
Proof.
  intros Hok. pose proof (namex_ok fuel me path np fo s H H s Hok (reflexivity s) Hok) as Hf. unfold follows in Hf.
  destruct (p_namex fuel me path np fo s) as [r| | |]; try done. destruct Hf as (s' & -> & (Hal & Hok' & _) & _). by exists s'.
Qed.

(** ** Names that appear and disappear *)

(** The last component of a path is not [.] or [..]. *)
Definition plain_last (path : str) : Prop := ∀ e, last (elems path) = Some e → e ≠ DOT ∧ e ≠ DOTDOT.

Lemma p_walk_last_name resolve s comps i dp name : p_walk resolve s comps true true i = Done (Some (dp, name)) → last comps = Some name.
Proof.
  revert i. induction comps as [|e comps IH]; intros i; cbn [p_walk]; [done|]. destruct (inodes s !! i) as [ip|]; [|done].
  cbn [deref]. run. destruct (negb (itype ip =? T_DIR)); [done|]. cbn [andb]. case_bool_decide as Hl.
  { intros E. injection E as <- <-. by rewrite Hl. }
  rewrite last_cons. intros E. assert (last comps = Some name) as ->; [|done].
  destruct (name_eq e DOT); [by eapply IH|]. destruct (name_eq e DOTDOT); [by eapply IH|].
  destruct (entry s i e) as [next|]; [|done]. cbn [negb] in E. rewrite andb_false_r in E.
  destruct (p_links resolve s (S (S MAXSYMLINKS)) 0 next) as [[n2|]| | |]; try done. by eapply IH.
Qed.

Lemma p_namex_plain fuel me path s dp name : cstring path → plain_last path → p_namex fuel me path true true s = Done (Some (dp, name)) →
  name_eq name DOT = false ∧ name_eq name DOTDOT = false.
Proof.
  intros Hp Hpl E. pose proof (namex_name fuel me path s dp name Hp E) as Hn. destruct fuel as [|n]; [done|]. cbn [p_namex] in E.
  destruct path as [|c p]; [done|]. destruct (if _ =? SLASH then _ else _) as [i|]; [|done]. apply p_walk_last_name in E.
  destruct (Hpl name E). by apply not_dots.
Qed.

(** Looking a path up that the resolver knows. *)
Lemma namei_as fuel me path H s r : vfs_ok None H s → p_namex fuel me path false true s = Done r →
  ∃ s', fs_namei fuel me path s = Done (option_map fst r, s') ∧ alike s s' ∧ vfs_ok None (hold H (option_map fst r)) s'.
Proof.
  intros Hok E. pose proof (namex_ok fuel me path false true s H H s Hok (reflexivity s) Hok) as Hf. rewrite E in Hf. cbn [follows] in Hf.
  destruct Hf as (s' & Es & (Hal & Hok' & _) & _). exists s'. unfold fs_namei. rewrite Es. by split_and!.
Qed.

(** After a successful [fs_create] the path leads to the new inode, which is
    empty and of the type asked for, and before it led nowhere. *)
Theorem create_namei fuel me path type H s i s' : vfs_ok None H s → cstring path → plain_last path → 1 ≤ type ≤ 6 → type ≠ T_LNK →
  fs_create fuel me path type s = Done (Some i, s') →
  (∃ s0, fs_namei fuel me path s = Done (None, s0)) ∧
  (∃ s2, fs_namei fuel me path s' = Done (Some i, s2) ∧ vfs_ok None (plus (plus H i) i) s2) ∧
  ∃ ip, inodes s' !! i = Some ip ∧ itype ip = type ∧ data ip = None ∧ size ip = 0.
Proof.
  intros Hok Hp Hpl Hty Hnl E. pose proof (fs_create_ok fuel me path type s H Hok Hp Hty) as Hc. rewrite E in Hc.
  destruct Hc as [Hok' (dp & name & ip & En & Hnone & Hed & Hi & Ht & Hd & Hs)]. cbn [hold] in Hok'.
  destruct (p_namex_plain fuel me path s dp name Hp Hpl En) as [N1 N2]. split; [|split; [|by exists ip]].
  - destruct (namei_as fuel me path H s None Hok) as (s0 & E0 & _); [|by exists s0].
    destruct fuel as [|n]; [done|]. rewrite (p_namex_last n me path s true dp name En).
    destruct (namex_dir (S n) me H path s dp name Hok Hp En) as [_ (d & Hd' & Hdt & _)]. by rewrite (p_walk_one _ s dp d), Hnone.
  - destruct (namei_as fuel me path (plus H i) s' (Some (i, [])) Hok') as (s2 & E2 & _ & Hok2); [|by exists s2].
    apply (made_found fuel me H (plus H i) path s s' dp name i ip true); try done. left. congruence.
Qed.

(** After a successful [unlink] the path leads nowhere, though it named
    something else than a directory before; everything else in the tree can be
    found as before under its own name. *)
Theorem unlink_namei fuel me path H s s' : vfs_ok None H s → cstring path → fs_unlink fuel me path s = Done (0, s') →
  (∃ s2, fs_namei fuel me path s' = Done (None, s2) ∧ vfs_ok None H s2) ∧
  ∃ dp name i ip, p_parent fuel me path s = Done (Some (dp, name)) ∧ entry s dp name = Some i ∧ inodes s !! i = Some ip ∧ itype ip ≠ T_DIR ∧
    ∀ j n, cstring n → entry s' j n = if decide (at_name dp name j n) then None else entry s j n.
Proof.
  intros Hok Hp E. pose proof (fs_unlink_ok fuel me path s H Hok Hp) as Hc. rewrite E in Hc.
  destruct Hc as [Hok' [[? _]|(_ & dp & name & i & ip & En & Hn & He & Hi & Ht & Hed)]]; [done|].
  split; [|exists dp, name, i, ip; split_and!; try done; apply Hed].
  destruct (namei_as fuel me path H s' None Hok') as (s2 & E2 & _ & Hok2); [|by exists s2].
  unfold p_parent in En. destruct (bool_decide (path = [])); [done|]. destruct (p_namex fuel me path true true s) as [[[dp' name']|]| | |] eqn:Ex; try done.
  revert En. run. destruct (bool_decide (name' = []) || name_eq name' DOT || name_eq name' DOTDOT) eqn:Eb; [done|]. intros E1. injection E1 as -> ->.
  apply orb_false_iff in Eb as [Eb N2]. apply orb_false_iff in Eb as [_ N1].
  by apply (gone_found fuel me H H path s s' dp name true).
Qed.


(** * The file system after start-up and a few calls, on which the
    theorems about it are used, and what goes wrong with some others. *)

Definition after {A} (o : outcome (A * fsys)) (s : fsys) : fsys := match o with Done (_, s') => s' | _ => s end.

(** Two processes; the first one works in [/d]. *)
Definition fs0 : fsys := match fs_init 1 0 2 100 [] with Done s => s | _ => boot_fs 2 100 [] end.
Definition fs1 : fsys := after (chdir 1 0 (lit "/") fs0) fs0.
Definition fs2 : fsys := after (fs_mkdir 1 0 (lit "/d") fs1) fs1.
Definition fs3 : fsys := after (chdir 1 0 (lit "d") fs2) fs2.
Definition fs4 : fsys := after (fs_create 1 0 (lit "../f") T_FILE fs3) fs3.
Definition fs5 : fsys := after (let i := 5%nat in s ← fs_iput i fs4; mret ((), s)) fs4.

Lemma fs0_ok : vfs_ok None nobody fs0.
Proof. pose proof (fs_init_ok 0 0 2 100 []) as Hi. assert (fs_init 1 0 2 100 [] = Done fs0) as E by by vm_compute. rewrite E in Hi. apply Hi. Qed.

Lemma fs1_ok : vfs_ok None nobody fs1.
Proof.
  pose proof (chdir_ok 1 0 (lit "/") fs0 nobody fs0_ok) as Hc. assert (chdir 1 0 (lit "/") fs0 = Done (0, fs1)) as E by by vm_compute.
  rewrite E in Hc. apply Hc; [by apply lit_cstring|vm_compute; lia].
Qed.

Lemma fs2_ok : vfs_ok None nobody fs2.
Proof.
  pose proof (fs_mkdir_ok 1 0 (lit "/d") fs1 nobody fs1_ok) as Hc. assert (fs_mkdir 1 0 (lit "/d") fs1 = Done (0, fs2)) as E by by vm_compute.
  rewrite E in Hc. apply Hc. by apply lit_cstring.
Qed.

Lemma fs3_ok : vfs_ok None nobody fs3.
Proof.
  pose proof (chdir_ok 1 0 (lit "d") fs2 nobody fs2_ok) as Hc. assert (chdir 1 0 (lit "d") fs2 = Done (0, fs3)) as E by by vm_compute.
  rewrite E in Hc. apply Hc; [by apply lit_cstring|vm_compute; lia].
Qed.

(** ** The theorems at work *)

Lemma no_absolute_check s : forallb (λ ip, negb (itype ip =? T_LNK) || negb (at_ (cstr (link_text ip)) 0 =? SLASH)) (inodes s) = true → no_absolute s.
Proof.
  intros Hc i ip Hi Ht. rewrite forallb_forall in Hc. specialize (Hc ip (proj1 (list_elem_of_In _ _) (list_elem_of_lookup_2 _ _ _ Hi))). rewrite Ht in Hc.
  change (T_LNK =? T_LNK) with true in Hc. cbn in Hc. apply negb_true_iff, Z.eqb_neq in Hc. done.
Qed.

Lemma plain_dirs_check s :
  forallb (λ ip, forallb (λ d, negb (bool_decide (d_name d = DOT)) && negb (bool_decide (d_name d = DOTDOT))) (dents ip)) (inodes s) = true → plain_dirs s.
Proof.
  intros Hc j jp d ip Hj Hd _ _. rewrite forallb_forall in Hc. specialize (Hc jp (proj1 (list_elem_of_In _ _) (list_elem_of_lookup_2 _ _ _ Hj))).
  rewrite forallb_forall in Hc. specialize (Hc d (proj1 (list_elem_of_In _ _) Hd)). apply andb_true_iff in Hc as [C1 C2].
  apply negb_true_iff, bool_decide_eq_false in C1, C2. done.
Qed.

Lemma namei_refines_witness : ∃ s', namex 1 0 (lit "../hello") false true fs3 = Done (Some (3%nat, []), s') ∧ alike fs3 s' ∧ vfs_ok None (hold nobody (Some 3%nat)) s'.
Proof.
  pose proof (namei_refines 1 0 (lit "../hello") false true nobody fs3 fs3_ok) as Hr.
  assert (p_namex 1 0 (lit "../hello") false true fs3 = Done (Some (3%nat, []))) as E by by vm_compute. by rewrite E in Hr.
Defined.

Lemma namei_terminates_witness : ∃ r s', namex 1 0 (lit ".././d/../hello") false true fs3 = Done (r, s') ∧ alike fs3 s' ∧ vfs_ok None (hold nobody (option_map fst r)) s'.
Proof. apply (namei_terminates 0 (lit ".././d/../hello") false true nobody fs3 fs3_ok); [by apply no_absolute_check; vm_compute|by apply lit_cstring]. Defined.

Lemma fs3_rooted : rooted fs3 4.
Proof.
  apply (rooted_child fs3 0 (default zero_inode (inodes fs3 !! 0%nat)) (lit "d") 4 (default zero_inode (inodes fs3 !! 4%nat))); try by vm_compute.
  - by apply rooted_root; vm_compute.
  - apply list_elem_of_lookup. exists 0%nat. by vm_compute.
Qed.

Lemma getcwd_namei_witness : fs_getcwd 0 128 fs3 = Done (Some (lit "/d")) ∧ ∃ s', fs_namei 1 0 (lit "/d") fs3 = Done (Some 4%nat, s') ∧ alike fs3 s'.
Proof.
  split; [by vm_compute|]. apply (getcwd_namei nobody fs3 fs3_ok 0 0 128 4 (lit "/d")); [by vm_compute|apply fs3_rooted|by apply plain_dirs_check; vm_compute|by vm_compute].
Defined.

Lemma create_namei_witness : ∃ s', fs_create 1 0 (lit "../f") T_FILE fs3 = Done (Some 5%nat, s') ∧
  ∃ s2, fs_namei 1 0 (lit "../f") s' = Done (Some 5%nat, s2).
Proof.
  exists fs4. split; [by vm_compute|].
  destruct (create_namei 1 0 (lit "../f") T_FILE nobody fs3 5 fs4 fs3_ok) as (_ & (s2 & E & _) & _).
  - by apply lit_cstring.
  - intros e He. vm_compute in He. injection He as <-. done.
  - done.
  - done.
  - by vm_compute.
  - exists s2. exact E.
Defined.

Lemma unlink_namei_witness : ∃ s', fs_unlink 1 0 (lit "/hello") fs3 = Done (0, s') ∧ ∃ s2, fs_namei 1 0 (lit "/hello") s' = Done (None, s2).
Proof.
  exists (after (fs_unlink 1 0 (lit "/hello") fs3) fs3). split; [by vm_compute|].
  destruct (unlink_namei 1 0 (lit "/hello") nobody fs3 (after (fs_unlink 1 0 (lit "/hello") fs3) fs3) fs3_ok) as [(s2 & E & _) _]; [by apply lit_cstring|by vm_compute|exists s2; exact E].
Defined.


Lemma write_read_witness : ∃ r s', fs_writei 3 [65; 66] 28 fs3 = Done (IoRet r, s') ∧ vfs_ok None nobody s' ∧ (r = -1 ∨ r = Z.of_nat (length [65; 66])) ∧
  ∀ off' n, 0 ≤ off' → 0 ≤ n → off' + n < 2 ^ 32 →
    ∃ s'', fs_readi 3 off' n s' =
      Done (IoRet (Some (take (Z.to_nat n) (drop (Z.to_nat off') (if r =? -1 then content (default zero_inode (inodes fs3 !! 3%nat)) else
        splice (content (default zero_inode (inodes fs3 !! 3%nat))) (Z.to_nat 28) [65; 66])))), s'').
Proof. apply (write_read nobody fs3 3 (default zero_inode (inodes fs3 !! 3%nat)) 28 [65; 66] fs3_ok); [by vm_compute..|done|done|by repeat constructor|by vm_compute]. Defined.

(** ** What goes wrong *)

(** An absolute link that leads to itself: the bound on the links followed is
    set anew in every recursive call, so none stops them. *)
Lemma loop_forever me s path name root rp i ip :
  elems path = [name] → at_ path 0 = SLASH → vfs_root s = Some root → inodes s !! root = Some rp → itype rp = T_DIR →
  name_eq name DOT = false → name_eq name DOTDOT = false → entry s root name = Some i →
  inodes s !! i = Some ip → itype ip = T_LNK → cstr (link_text ip) = path →
  ∀ fuel, p_namex fuel me path false true s = NoFuel.
Proof.
  intros Hel Hab Hr Hrp Hrt N1 N2 He Hi Hl Ht. induction fuel as [|fuel IH]; [done|]. cbn [p_namex].
  destruct path as [|c p]; [done|]. rewrite Hel, Hab. change (SLASH =? SLASH) with true. cbn iota. rewrite Hr.
  rewrite (p_walk_one _ s root rp name true Hrp Hrt N1 N2), He. cbn [p_links]. rewrite Hi. cbn [deref]. run. rewrite Hl.
  change (T_LNK =? T_LNK) with true. cbn iota. unfold p_follow. change (MAXSYMLINKS <? 1)%nat with false. cbn iota. rewrite Hi.
  destruct (link_text ip) as [|c' t] eqn:Hlt; [done|]. rewrite Ht, Hab. change (SLASH =? SLASH) with true. cbn iota zeta. by rewrite IH.
Qed.

Definition fs_loop : fsys := after (fs_symlink 1 0 (lit "/loop") (lit "/loop") fs3) fs3.

Lemma loop_never_ends fuel : namex fuel 0 (lit "/loop") false true fs_loop = NoFuel.
Proof.
  assert (vfs_ok None nobody fs_loop) as Hok.
  { pose proof (fs_symlink_ok 1 0 (lit "/loop") (lit "/loop") fs3 nobody fs3_ok) as Hc.
    assert (fs_symlink 1 0 (lit "/loop") (lit "/loop") fs3 = Done (0, fs_loop)) as E by by vm_compute. rewrite E in Hc. apply Hc; by apply lit_cstring. }
  pose proof (namex_ok fuel 0 (lit "/loop") false true fs_loop nobody nobody fs_loop Hok (reflexivity fs_loop) Hok) as Hf.
  rewrite (loop_forever 0 fs_loop (lit "/loop") (lit "loop") 0 (default zero_inode (inodes fs_loop !! 0%nat)) 5
    (default zero_inode (inodes fs_loop !! 5%nat))) in Hf; [exact Hf|by vm_compute..].
Qed.

(** A directory moved into itself is its own parent: it cannot be reached any
    more, and the path of a process that works in it is [/]. *)
Definition fs_cut : fsys := after (fs_rename 1 0 (lit "/d") (lit "/d/e") fs3) fs3.
Lemma rename_into_itself :
  fs_rename 1 0 (lit "/d") (lit "/d/e") fs3 = Done (0, fs_cut) ∧ iparent <$> inodes fs_cut !! 4%nat = Some (Some 4%nat) ∧
  p_namex 1 0 (lit "/d") false true fs_cut = Done None ∧ fs_getcwd 0 128 fs_cut = Done (Some (lit "/")).
Proof. split_and!; by vm_compute. Qed.

(** Replacing a file with a hard link to it left does not count the link down. *)
Definition fs_linked : fsys :=
  after (fs_rename 1 0 (lit "/hello") (lit "/a") (after (fs_link 1 0 (lit "/a") (lit "/b") (after (fs_create 1 0 (lit "/a") T_FILE fs3) fs3)) fs3)) fs3.
Lemma rename_keeps_nlink : p_namex 1 0 (lit "/b") false true fs_linked = Done (Some (5%nat, [])) ∧ nlink <$> inodes fs_linked !! 5%nat = Some 2.
Proof. split; by vm_compute. Qed.

(** A file can be created under the name of the directory it is in. *)
Lemma create_dot : ∃ s', fs_create 1 0 (lit "/.") T_FILE fs3 = Done (Some 5%nat, s') ∧ p_namex 1 0 (lit "/.") false true s' = Done (Some (0%nat, [])).
Proof. exists (after (fs_create 1 0 (lit "/.") T_FILE fs3) fs3). split; by vm_compute. Qed.
