(* ===== verification/VfsFrame.v ===== *)
(** [VfsFrame]: no operation of the file system touches the buffer of a FIFO: in
    the state it leaves, a FIFO has the pipe it had, or a new one.  And none makes
    a file larger than the heap allows. *)
From Stdlib Require Import ZArith Lia.
From stdpp Require Import numbers strings gmap list.
From S2P Require Import Prelude Pipe Vfs VfsInv RamfsData Namei.
Open Scope Z_scope.

Definition new_pipe (p : option pipe) : Prop := p = None ∨ p = Some (fifo_init ∅).

(** The inode afterwards, for the inode before. *)
Definition same_pipe (ip ip' : inode) : Prop :=
  (itype ip' = T_FIFO → (itype ip = T_FIFO ∧ i_pipe ip' = i_pipe ip) ∨ new_pipe (i_pipe ip')) ∧ size ip' ≤ Z.max (size ip) KMALLOC_MAX.

Definition fifo_step (s s' : fsys) : Prop :=
  (∀ j ip', inodes s' !! j = Some ip' → ∃ ip, inodes s !! j = Some ip ∧ same_pipe ip ip') ∧ length (cwds s') = length (cwds s).

#[global] Instance same_pipe_refl : Reflexive same_pipe.
Proof. intros ip. split; [by left|lia]. Qed.
#[global] Instance same_pipe_trans : Transitive same_pipe.
Proof.
  intros a b c [H1 S1] [H2 S2]. split; [|lia]. intros Hc. destruct (H2 Hc) as [[Hb E]|]; [|by right]. destruct (H1 Hb) as [[Ha E']|Hn]; [left; split; congruence|right; by rewrite E].
Qed.

Lemma same_fields ip ip' : itype ip' = itype ip → i_pipe ip' = i_pipe ip → size ip' = size ip → same_pipe ip ip'.
Proof. intros E1 E2 E3. split; [|lia]. intros Ht. left. split; congruence. Qed.
Lemma no_fifo ip ip' : itype ip' ≠ T_FIFO ∨ new_pipe (i_pipe ip') → size ip' ≤ KMALLOC_MAX → same_pipe ip ip'.
Proof. intros Hn Hs. split; [|lia]. intros Ht. right. by destruct Hn. Qed.
#[global] Instance fifo_step_refl : Reflexive fifo_step.
Proof. intros s. split; [|done]. intros j ip Hj. by exists ip. Qed.
#[global] Instance fifo_step_trans : Transitive fifo_step.
Proof. intros a b c [H1 C1] [H2 C2]. split; [|congruence]. intros j ip Hj. destruct (H2 j ip Hj) as (ip1 & H1' & E1). destruct (H1 j ip1 H1') as (ip2 & H2' & E2). exists ip2. split; [done|by transitivity ip1]. Qed.

(** Where an operation ends, [π] of its result is a step from [s]. *)
Definition frames {A} (π : A → fsys) (s : fsys) (o : outcome A) : Prop := ∀ a, o = Done a → fifo_step s (π a).
Notation keeps_pipes s o := (frames id s o).
Notation keeps_pipes2 s o := (frames snd s o).

Lemma frames_bind {A B} (π : A → fsys) (π' : B → fsys) s (o : outcome A) k :
  frames π s o → (∀ a, o = Done a → frames π' (π a) (k a)) → frames π' s (o ≫= k).
Proof. intros Ho Hk b E. destruct o as [a| | |]; try done. transitivity (π a); [by apply Ho|]. by apply (Hk a eq_refl). Qed.

Lemma frames_pure {A B} (π' : B → fsys) s (o : outcome A) k : (∀ a, o = Done a → frames π' s (k a)) → frames π' s (o ≫= k).
Proof. intros Hk b E. destruct o as [a| | |]; try done. by apply (Hk a eq_refl). Qed.

Lemma frames_ret {A} (π : A → fsys) s a : fifo_step s (π a) → frames π s (Done a).
Proof. intros Hs b E. by injection E as <-. Qed.

Lemma frames_none {A} (π : A → fsys) s (o : outcome A) : (∀ a, o ≠ Done a) → frames π s o.
Proof. intros Hn a E. by destruct (Hn a). Qed.

Lemma frames_from {A} (π : A → fsys) s s1 (o : outcome A) : fifo_step s s1 → frames π s1 o → frames π s o.
Proof. intros Hs Ho a E. transitivity s1; [done|by apply Ho]. Qed.

Lemma step_nodes s s' : inodes s' = inodes s → length (cwds s') = length (cwds s) → fifo_step s s'.
Proof. intros E C. split; [|done]. intros j ip Hj. rewrite E in Hj. by exists ip. Qed.

Lemma step_set i ip ip' s : inodes s !! i = Some ip → same_pipe ip ip' → fifo_step s (set_inode i ip' s).
Proof. intros Hi Hs. split; [|done]. intros j jp Hj. apply insert_Some in Hj as [(-> & -> & _)|[_ Hj]]; [by exists ip|by exists jp]. Qed.

Lemma upd_pipes i f s : (∀ ip, same_pipe ip (f ip)) → keeps_pipes s (upd_inode i f s).
Proof. intros Hf s' E. unfold upd_inode, get_inode in E. destruct (inodes s !! i) as [ip|] eqn:Hi; [|done]. injection E as <-. by eapply step_set. Qed.

(** Updates of other fields. *)
Ltac other_fields := apply upd_pipes; let ip := fresh in intros ip; by apply same_fields.

Create HintDb frame.

Lemma idup_pipes i s : keeps_pipes s (fs_idup i s).
Proof. other_fields. Qed.
Lemma touch_pipes i m a s : keeps_pipes s (touch i m a s).
Proof. unfold touch. apply upd_pipes. intros ip. by apply same_fields; destruct m, a. Qed.

Lemma each_pipes l f s : (∀ i s, keeps_pipes s (f i s)) → keeps_pipes s (each l f s).
Proof.
  intros Hf. revert s. induction l as [|i l IH]; intros s; cbn [each]; [by apply frames_ret|].
  eapply frames_bind; [apply Hf|]. intros s1 _. apply IH.
Qed.

Lemma iput_loop_pipes fuel i s : keeps_pipes s (fs_iput_loop fuel i s).
Proof.
  revert i s. induction fuel as [|fuel IH]; intros i s; cbn [fs_iput_loop]; [by apply frames_none|].
  unfold get_inode at 1. destruct (inodes s !! i) as [ip|] eqn:Hi; [|by apply frames_none]. cbn [deref]. run.
  destruct (ref ip <=? 0); [by apply frames_none|]. apply (frames_from id s (set_inode i (with_ref (ref ip - 1) ip) s)).
  { eapply step_set; [done|]. by apply same_fields. }
  destruct (_ && _); [|by apply frames_ret].
  destruct (i_op ip) as [[]|]; [|by apply upd_pipes; intros jp; apply no_fifo; [left|vm_compute]|by apply frames_ret].
  eapply frames_bind; [other_fields|]. intros s1 _. eapply frames_bind; [by apply each_pipes|]. intros s2 _.
  apply upd_pipes. intros jp. by apply no_fifo; [left|vm_compute].
Qed.
Lemma iput_pipes i s : keeps_pipes s (fs_iput i s).
Proof. apply iput_loop_pipes. Qed.
#[export] Hint Resolve idup_pipes touch_pipes iput_pipes : frame.

Lemma kmalloc_pipes s ok s1 : kmalloc_ok s = (ok, s1) → fifo_step s s1.
Proof. unfold kmalloc_ok. intros E. apply step_nodes; by destruct (heap s); injection E as <- <-. Qed.
Lemma kmalloc_dentry_pipes s ok s1 : kmalloc_dentry s = (ok, s1) → fifo_step s s1.
Proof. unfold kmalloc_dentry. destruct (spare s); [|apply kmalloc_pipes]. intros E. apply step_nodes; by injection E as <- <-. Qed.
Lemma kmalloc_file_pipes n s : keeps_pipes2 s (kmalloc_file n s).
Proof.
  unfold kmalloc_file. destruct (_ <? _); [by apply frames_none|]. destruct (_ <? _); [by apply frames_none|]. apply frames_ret.
  destruct (kmalloc_ok s) eqn:E. by eapply kmalloc_pipes.
Qed.
Lemma ialloc_pipes type s r s1 : ialloc type s = (r, s1) → fifo_step s s1.
Proof.
  unfold ialloc. destruct (list_find _ (inodes s)) as [[i ip]|] eqn:Ef; intros E; injection E as <- <-; [|done].
  apply list_find_Some in Ef as (Hi & _). eapply step_set; [done|]. apply no_fifo; [by right; left|by vm_compute].
Qed.
#[export] Hint Resolve kmalloc_file_pipes : frame.

(** An update that is made only under some condition. *)
Ltac maybe_fields :=
  match goal with |- frames _ _ (match ?b with _ => _ end) => destruct b; solve [auto with frame | other_fields | by apply frames_ret] end.

(** One step through a monadic program: the reads first. *)
Ltac frame_step :=
  match goal with
  | E : kmalloc_ok ?s = (_, ?s1) |- frames _ ?s _ => apply (frames_from _ s s1 _ (kmalloc_pipes _ _ _ E)); clear E
  | E : kmalloc_dentry ?s = (_, ?s1) |- frames _ ?s _ => apply (frames_from _ s s1 _ (kmalloc_dentry_pipes _ _ _ E)); clear E
  | E : ialloc _ ?s = (_, ?s1) |- frames _ ?s _ => apply (frames_from _ s s1 _ (ialloc_pipes _ _ _ _ E)); clear E
  | |- frames _ _ (Done _) => apply frames_ret
  | |- frames _ _ (mret _) => apply frames_ret
  | |- frames _ _ (Panic _) => by apply frames_none
  | |- frames _ _ Wild => by apply frames_none
  | |- frames _ _ NoFuel => by apply frames_none
  | |- frames _ _ (_ ≫= _) =>
      first [ apply (frames_bind id); [solve [auto with frame | other_fields | maybe_fields]|]
            | apply (frames_bind snd); [solve [auto with frame | maybe_fields]|]
            | apply frames_pure ]; let E := fresh "E" in intros ? E; cbn beta iota
  | |- frames _ _ (match ?x with _ => _ end) => destruct x eqn:?
  | |- fifo_step _ _ => first [reflexivity | by apply step_nodes | by eapply step_set; [done|]; apply same_fields]
  | |- frames _ _ _ => solve [auto with frame]
  end.
Ltac framed := repeat (frame_step; cbn [id fst snd] in * ).

(** ** dcache.c and ramfs *)

Lemma d_add_pipes dir name i s : keeps_pipes2 s (d_add dir name i s).
Proof. unfold d_add. framed. Qed.
Lemma d_unlink_pipes dir name s : keeps_pipes2 s (d_unlink dir name s).
Proof.
  unfold d_unlink. apply frames_pure. intros dp Hd. destruct (_ || _); [framed|]. destruct (take_dentry (dents dp) name) as [[d l]|]; [|framed].
  apply (frames_from snd s (set_inode dir (with_dents l dp) s)); [|framed]. unfold get_inode in Hd. destruct (inodes s !! dir) as [dp'|] eqn:E; [|done].
  injection Hd as ->. eapply step_set; [done|]. by apply same_fields.
Qed.
#[export] Hint Resolve d_add_pipes d_unlink_pipes : frame.

Lemma hook_pipes dir name i s : keeps_pipes2 s (hook dir name i s).
Proof. unfold hook. framed. Qed.
#[export] Hint Resolve hook_pipes : frame.
Lemma ramfs_lookup_pipes dir name s : keeps_pipes2 s (ramfs_lookup dir name s).
Proof. unfold ramfs_lookup. framed. Qed.
Lemma ramfs_create_pipes dir name type s : keeps_pipes2 s (ramfs_create dir name type s).
Proof. unfold ramfs_create. framed. Qed.
Lemma ramfs_mkdir_pipes dir name s : keeps_pipes2 s (ramfs_mkdir dir name s).
Proof. unfold ramfs_mkdir. framed. Qed.
Lemma ramfs_rmdir_pipes dir name s : keeps_pipes2 s (ramfs_rmdir dir name s).
Proof. unfold ramfs_rmdir. framed. Qed.
Lemma fifo_init_pipes i s : keeps_pipes2 s (fifo_init_inode i s).
Proof.
  unfold fifo_init_inode. destruct (kmalloc_ok s) as [ok s1] eqn:E. apply (frames_from _ s s1 _ (kmalloc_pipes _ _ _ E)). destruct ok; cbn [negb]; [|framed].
  apply (frames_bind id); [apply upd_pipes; intros ip; split; [intros _; right; by right|cbn; lia]|]. intros s2 _. framed.
Qed.
#[export] Hint Resolve fifo_init_pipes : frame.
Lemma ramfs_mknod_pipes dir name type dev s : keeps_pipes2 s (ramfs_mknod dir name type dev s).
Proof. unfold ramfs_mknod. framed. Qed.
Lemma ramfs_symlink_pipes dir name target s : Z.of_nat (length target) ≤ KMALLOC_MAX → keeps_pipes2 s (ramfs_symlink dir name target s).
Proof.
  intros Hl. assert (∀ i s, keeps_pipes s (upd_inode i (with_data (Some (target ++ [0])) (Z.of_nat (length target))) s)) as Hu.
  { intros i s1. apply upd_pipes. intros ip. split; [by left|cbn; lia]. }
  unfold ramfs_symlink. framed.
Qed.
Lemma ramfs_hardlink_pipes dir name i s : keeps_pipes2 s (ramfs_hardlink dir name i s).
Proof. unfold ramfs_hardlink. framed. Qed.
Lemma ramfs_unlink_pipes dir name s : keeps_pipes2 s (ramfs_unlink dir name s).
Proof. unfold ramfs_unlink. framed. Qed.
Lemma rename_move_pipes od on nd nn i s : keeps_pipes2 s (rename_move od on nd nn i s).
Proof. unfold rename_move. framed. Qed.
#[export] Hint Resolve rename_move_pipes : frame.
Lemma ramfs_rename_pipes od on nd nn s : keeps_pipes2 s (ramfs_rename od on nd nn s).
Proof. unfold ramfs_rename. framed. Qed.
#[export] Hint Resolve ramfs_lookup_pipes ramfs_create_pipes ramfs_mkdir_pipes ramfs_rmdir_pipes ramfs_mknod_pipes ramfs_symlink_pipes
  ramfs_hardlink_pipes ramfs_unlink_pipes ramfs_rename_pipes : frame.

(** ** Contents *)

Lemma kmalloc_file_nodes n s ok s1 : kmalloc_file n s = Done (ok, s1) → inodes s1 = inodes s ∧ length (cwds s1) = length (cwds s).
Proof.
  unfold kmalloc_file, kmalloc_ok. destruct (_ <? _); [done|]. destruct (_ <? _); [done|]. destruct (heap s); intros E; by injection E as <- <-.
Qed.

Lemma kmalloc_file_size n s ok s1 : kmalloc_file n s = Done (ok, s1) → n ≤ KMALLOC_MAX.
Proof. unfold kmalloc_file. destruct (_ <? _); [done|]. by destruct (Z.ltb_spec KMALLOC_MAX n). Qed.

(** The inode at [i] with other contents. *)
Lemma data_pipes i ip d n s s1 : get_inode i s = Done ip → inodes s1 = inodes s → length (cwds s1) = length (cwds s) → n ≤ Z.max (size ip) KMALLOC_MAX → fifo_step s (set_inode i (with_data d n ip) s1).
Proof.
  intros Hi Hs Hc Hn. transitivity s1; [by apply step_nodes|]. unfold get_inode in Hi. rewrite <- Hs in Hi. destruct (inodes s1 !! i) eqn:E; [|done].
  injection Hi as ->. eapply step_set; [done|]. split; [by left|done].
Qed.

Lemma ramfs_write_pipes i src off s : keeps_pipes2 s (ramfs_write i src off s).
Proof.
  unfold ramfs_write. apply frames_pure. intros ip Hi. destruct (negb _); [framed|]. destruct (_ =? 0); [framed|]. cbn zeta.
  set (newsize := u32 (off + Z.of_nat (length src))). destruct ((size ip <? newsize) || bool_decide (data ip = None)) eqn:Hg.
  - apply frames_pure. intros [ok s1] Ek. destruct (kmalloc_file_nodes _ _ _ _ Ek) as [Hs Hc]. pose proof (kmalloc_file_size _ _ _ _ Ek) as Hsz.
    destruct ok; cbn [negb]; [|apply frames_ret; by apply step_nodes]. destruct (regrow ip newsize) as [buf| | |]; try by apply frames_none. run. cbn [data size with_data default].
    apply frames_pure. intros d _. apply frames_ret. cbn [snd]. rewrite Z.ltb_irrefl. apply (data_pipes i ip (Some d)); try done.
    destruct (Z.eqb_spec newsize 0); [|lia]. assert (0 ≤ KMALLOC_MAX) by (by vm_compute). lia.
  - run. cbn [negb]. apply frames_pure. intros d _. apply frames_ret. cbn [snd]. apply orb_false_iff in Hg as [-> _]. apply data_pipes; try done. lia.
Qed.

Lemma ramfs_truncate_pipes i n s : keeps_pipes2 s (ramfs_truncate i n s).
Proof.
  unfold ramfs_truncate. apply frames_pure. intros ip Hi. destruct (negb _); [framed|]. destruct (_ =? size ip); [framed|].
  destruct (_ =? 0); [apply frames_ret; apply data_pipes; try done; assert (0 ≤ KMALLOC_MAX) by (by vm_compute); lia|].
  apply frames_pure. intros [ok s1] Ek. pose proof (kmalloc_file_size _ _ _ _ Ek). apply kmalloc_file_nodes in Ek as [Hs Hc].
  destruct ok; cbn [negb]; [|apply frames_ret; by apply step_nodes]. apply frames_pure. intros d _. apply frames_ret. apply data_pipes; try done. lia.
Qed.
#[export] Hint Resolve ramfs_write_pipes ramfs_truncate_pipes : frame.

Lemma fs_readi_pipes i off n s : keeps_pipes2 s (fs_readi i off n s).
Proof. unfold fs_readi. framed. Qed.
Lemma fs_writei_pipes i src off s : keeps_pipes2 s (fs_writei i src off s).
Proof. unfold fs_writei. framed. Qed.
Lemma fs_truncate_pipes i n s : keeps_pipes2 s (fs_truncate i n s).
Proof. unfold fs_truncate. framed. Qed.
#[export] Hint Resolve fs_readi_pipes fs_writei_pipes fs_truncate_pipes : frame.

(** ** Lookup *)

Section Lookup.
Context (resolve : str → fsys → outcome (option nat * fsys)).
Hypothesis Hres : ∀ t s, keeps_pipes2 s (resolve t s).

Lemma follow_symlink_pipes link depth s : keeps_pipes2 s (follow_symlink resolve link depth s).
Proof. unfold follow_symlink. framed. Qed.
Hint Resolve follow_symlink_pipes : frame.

Lemma follow_links_pipes n depth next s : keeps_pipes2 s (follow_links resolve n depth next s).
Proof. revert depth next s. induction n as [|n IH]; intros depth next s; cbn [follow_links]; framed. Qed.
Hint Resolve follow_links_pipes : frame.

Lemma walk_path_pipes comps np fo ip s : keeps_pipes2 s (walk_path resolve comps np fo ip s).
Proof. revert ip s. induction comps as [|e comps IH]; intros ip s; cbn [walk_path]; framed. Qed.
End Lookup.

Lemma namex_pipes fuel me path np fo s : keeps_pipes2 s (namex fuel me path np fo s).
Proof.
  revert path np fo s. induction fuel as [|fuel IH]; intros path np fo s; cbn [namex]; [framed|]. destruct path; [framed|].
  destruct (if _ =? SLASH then _ else _); [|framed]. framed. apply walk_path_pipes. intros t s1. framed.
Qed.
#[export] Hint Resolve namex_pipes : frame.

(** ** The calls on paths *)

Section Paths.
Context (fuel me : nat).

Lemma fs_namei_pipes path s : keeps_pipes2 s (fs_namei fuel me path s).
Proof. unfold fs_namei. framed. Qed.
Lemma fs_namei_nofollow_pipes path s : keeps_pipes2 s (fs_namei_nofollow fuel me path s).
Proof. unfold fs_namei_nofollow. framed. Qed.
Lemma parent_of_pipes path s : keeps_pipes2 s (parent_of fuel me path s).
Proof. unfold parent_of. framed. Qed.
Hint Resolve fs_namei_pipes parent_of_pipes : frame.

Lemma fs_create_pipes path type s : keeps_pipes2 s (fs_create fuel me path type s).
Proof. unfold fs_create. framed. Qed.
Lemma fs_mknod_pipes path type ma mi s : keeps_pipes2 s (fs_mknod fuel me path type ma mi s).
Proof. unfold fs_mknod. framed. Qed.
Lemma fs_mkdir_pipes path s : keeps_pipes2 s (fs_mkdir fuel me path s).
Proof. unfold fs_mkdir. framed. Qed.
Lemma fs_rmdir_pipes path s : keeps_pipes2 s (fs_rmdir fuel me path s).
Proof. unfold fs_rmdir. framed. Qed.
Lemma fs_link_pipes old new s : keeps_pipes2 s (fs_link fuel me old new s).
Proof. unfold fs_link. framed. Qed.
Lemma fs_symlink_pipes target path s : Z.of_nat (length target) ≤ KMALLOC_MAX → keeps_pipes2 s (fs_symlink fuel me target path s).
Proof. intros Hl. unfold fs_symlink. framed. Qed.
Lemma fs_unlink_pipes path s : keeps_pipes2 s (fs_unlink fuel me path s).
Proof. unfold fs_unlink. framed. Qed.
Lemma fs_rename_pipes old new s : keeps_pipes2 s (fs_rename fuel me old new s).
Proof. unfold fs_rename. framed. Qed.
Lemma fs_access_pipes path amode s : keeps_pipes2 s (fs_access fuel me path amode s).
Proof. unfold fs_access. framed. Qed.
Lemma fs_chmod_pipes path md s : keeps_pipes2 s (fs_chmod fuel me path md s).
Proof. unfold fs_chmod. framed. Qed.
Lemma fs_chown_pipes path u g s : keeps_pipes2 s (fs_chown fuel me path u g s).
Proof. unfold fs_chown. framed. Qed.
Lemma fs_utime_pipes path a m s : keeps_pipes2 s (fs_utime fuel me path a m s).
Proof. unfold fs_utime. framed. Qed.
Lemma chdir_pipes path s : keeps_pipes2 s (chdir fuel me path s).
Proof. unfold chdir. framed. apply step_nodes; [done|]. apply length_insert. Qed.
End Paths.
#[export] Hint Resolve fs_namei_pipes fs_namei_nofollow_pipes fs_create_pipes fs_mknod_pipes fs_mkdir_pipes fs_rmdir_pipes fs_link_pipes
  fs_symlink_pipes fs_unlink_pipes fs_rename_pipes fs_access_pipes fs_chmod_pipes fs_chown_pipes fs_utime_pipes chdir_pipes : frame.
