(* ===== verification/File.v ===== *)
(** [File]: the table of open files and the file descriptors of processes
    (kernel/fs/file.c), and what kernel/fs/pipe.c needs of them.

    A [struct file *] is an index into [ftable].  An inode belongs to ramfs
    ([Ino]) or to the table of anonymous pipes ([Pno]).  Wake-ups and signals
    that a call raises are recorded in [events].  The device drivers and the
    copies from and to user memory are interfaces, [Devices] and [UserMemory]. *)
From Stdlib Require Import ZArith Lia.
From stdpp Require Import numbers strings gmap list.
From S2P Require Import Prelude Pipe Vfs VfsInv Namei.
Open Scope Z_scope.

Definition NFILE : nat := 64.
Definition NOFILE : Z := 256.
Definition NPIPE : nat := 32.
Definition BLOCK_SECTOR_SIZE : Z := 512.

Definition O_WRONLY : Z := 0x001.
Definition O_RDWR : Z := 0x002.
Definition O_ACCMODE : Z := 0x003.
Definition O_CREATE : Z := 0x200.
Definition O_APPEND : Z := 0x400.
Definition O_NONBLOCK : Z := 0x800.
Definition O_EXCL : Z := 0x1000.
Definition O_TRUNC : Z := 0x2000.
Definition LOCK_SH : Z := 1.
Definition LOCK_EX : Z := 2.
Definition LOCK_NB : Z := 4.
Definition LOCK_UN : Z := 8.
Definition SEEK_SET : Z := 0.
Definition SEEK_CUR : Z := 1.
Definition SEEK_END : Z := 2.
Definition FD_CLOEXEC : Z := 1.

(** [x & bits] as a condition *)
Definition has (x bits : Z) : bool := negb (Z.land x bits =? 0).

(** ** Interfaces *)

(** mm/vm.c, for the memory of process [me]: the bytes copied in, [None] for -1;
    whether a copy out succeeded; the string copied in. *)
Class UserMemory (M : Type) := {
  um_copyin (me : nat) (va n : Z) (m : M) : outcome (option (list Z) * M);
  um_copyout (me : nat) (va : Z) (src : list Z) (m : M) : outcome (bool * M);
  um_copyinstr (me : nat) (va max : Z) (m : M) : outcome (option str * M)
}.

(** Drivers: [chr_read major n] is the [read] of the driver registered for
    [major], [None] if there is no such; it gives the result and the bytes
    stored.  [blk_capacity] is the size in sectors of the disk for a device
    number. *)
Class Devices (D : Type) := {
  chr_read (major n : Z) (d : D) : option (Z * list Z * D);
  chr_write (major : Z) (src : list Z) (d : D) : option (Z * D);
  chr_ioctl (major req arg : Z) (d : D) : option (Z * D);
  blk_capacity (rdev : Z) (d : D) : option Z;
  blk_read_sect (rdev sec : Z) (d : D) : option (list Z) * D;
  blk_write_sect (rdev sec : Z) (src : list Z) (d : D) : bool * D
}.

(** ** State *)

Inductive iref := Ino (i : nat) | Pno (i : nat).
#[global] Instance iref_eq_dec : EqDecision iref.
Proof. solve_decision. Defined.

Inductive fdtype := FD_NONE | FD_INODE | FD_CHAR | FD_BLOCK.
#[global] Instance fdtype_eq_dec : EqDecision fdtype.
Proof. solve_decision. Defined.

Record file := File {
  f_type : fdtype; f_ref : Z; f_readable : bool; f_writable : bool;
  f_flags : Z; f_flock : Z; f_ip : option iref; f_off : Z
}.

(** What a process sleeps in: a read of a pipe, a write of [buf] to one with [i]
    bytes of it copied, or waiting for a lock. *)
Inductive pending :=
  | Idle
  | InRead (f : nat) (uaddr n total : Z)
  | InWrite (f : nat) (uaddr n total : Z) (buf : list Z) (i : nat)
  | InFlock (f : nat) (cmd : Z).

Record fproc := Fproc { ofile : list (option nat); fdflags : list Z; pend : pending }.

Inductive event := WakeLock (r : iref) | WakeReaders (r : iref) | WakeWriters (r : iref) | SigPipe (me : nat).

Record ksys (M D : Type) := Ksys {
  fs : fsys; pipes : list inode; pipe_next_inum : Z; ftable : list file; tasks : list fproc;
  mem : M; devs : D; events : list event
}.
Arguments Ksys {M D}.
Arguments fs {M D}.
Arguments pipes {M D}.
Arguments pipe_next_inum {M D}.
Arguments ftable {M D}.
Arguments tasks {M D}.
Arguments mem {M D}.
Arguments devs {M D}.
Arguments events {M D}.

Definition with_frefs (r : Z) (f : file) : file := File (f_type f) r (f_readable f) (f_writable f) (f_flags f) (f_flock f) (f_ip f) (f_off f).
Definition with_lock (l : Z) (f : file) : file := File (f_type f) (f_ref f) (f_readable f) (f_writable f) (f_flags f) l (f_ip f) (f_off f).
Definition with_off (o : Z) (f : file) : file := File (f_type f) (f_ref f) (f_readable f) (f_writable f) (f_flags f) (f_flock f) (f_ip f) o.
Definition with_flags (x : Z) (f : file) : file := File (f_type f) (f_ref f) (f_readable f) (f_writable f) x (f_flock f) (f_ip f) (f_off f).
(** [f->type], [f->ip], [f->readable], [f->writable], [f->flags] and [f->off = 0] of an opened file *)
Definition opened (t : fdtype) (r : iref) (rd wr : bool) (flags : Z) (f : file) : file :=
  File t (f_ref f) rd wr flags (f_flock f) (Some r) 0.
(** The end of [fileclose]. *)
Definition closed (f : file) : file := File FD_NONE (f_ref f) (f_readable f) (f_writable f) (f_flags f) 0 None (f_off f).

Section State.
Context {M D : Type}.
Notation ksys := (ksys M D).

Definition with_fs (s : fsys) (k : ksys) : ksys := Ksys s (pipes k) (pipe_next_inum k) (ftable k) (tasks k) (mem k) (devs k) (events k).
Definition with_pipes (l : list inode) (k : ksys) : ksys := Ksys (fs k) l (pipe_next_inum k) (ftable k) (tasks k) (mem k) (devs k) (events k).
Definition with_inum (n : Z) (k : ksys) : ksys := Ksys (fs k) (pipes k) n (ftable k) (tasks k) (mem k) (devs k) (events k).
Definition with_ftable (l : list file) (k : ksys) : ksys := Ksys (fs k) (pipes k) (pipe_next_inum k) l (tasks k) (mem k) (devs k) (events k).
Definition with_tasks (l : list fproc) (k : ksys) : ksys := Ksys (fs k) (pipes k) (pipe_next_inum k) (ftable k) l (mem k) (devs k) (events k).
Definition with_mem (m : M) (k : ksys) : ksys := Ksys (fs k) (pipes k) (pipe_next_inum k) (ftable k) (tasks k) m (devs k) (events k).
Definition with_devs (d : D) (k : ksys) : ksys := Ksys (fs k) (pipes k) (pipe_next_inum k) (ftable k) (tasks k) (mem k) d (events k).
Definition emit (e : event) (k : ksys) : ksys := Ksys (fs k) (pipes k) (pipe_next_inum k) (ftable k) (tasks k) (mem k) (devs k) (e :: events k).
Definition emit_if (b : bool) (e : event) (k : ksys) : ksys := if b then emit e k else k.

Definition get_file (f : nat) (k : ksys) : outcome file := deref (ftable k !! f).
Definition set_file (f : nat) (fl : file) (k : ksys) : ksys := with_ftable (<[f := fl]> (ftable k)) k.
Definition upd_file (f : nat) (g : file → file) (k : ksys) : outcome ksys := fl ← get_file f k; mret (set_file f (g fl) k).
Definition get_task (p : nat) (k : ksys) : outcome fproc := deref (tasks k !! p).
Definition set_task (p : nat) (t : fproc) (k : ksys) : ksys := with_tasks (<[p := t]> (tasks k)) k.
Definition upd_task (p : nat) (g : fproc → fproc) (k : ksys) : outcome ksys := t ← get_task p k; mret (set_task p (g t) k).

(** A function of inode.c on the table of pipes: none of them is the root. *)
Definition on_pipes (g : fsys → outcome fsys) (k : ksys) : outcome ksys :=
  s ← g (Fsys (pipes k) None [] (now_sec (fs k)) (heap (fs k)) (spare (fs k)));
  mret (with_pipes (inodes s) (with_fs (with_heap (heap s) (spare s) (fs k)) k)).
Definition on_fs (g : fsys → outcome fsys) (k : ksys) : outcome ksys := s ← g (fs k); mret (with_fs s k).

Definition node (r : iref) (k : ksys) : option inode := match r with Ino i => inodes (fs k) !! i | Pno i => pipes k !! i end.
Definition upd_node (r : iref) (g : inode → inode) (k : ksys) : outcome ksys :=
  match r with Ino i => on_fs (upd_inode i g) k | Pno i => on_pipes (upd_inode i g) k end.
Definition node_touch (r : iref) (m a : bool) (k : ksys) : outcome ksys := upd_node r (fs_inode_touch m a (now_sec (fs k))) k.
Definition node_idup (r : iref) (k : ksys) : outcome ksys :=
  match r with Ino i => on_fs (fs_idup i) k | Pno i => on_pipes (fs_idup i) k end.
Definition node_iput (r : iref) (k : ksys) : outcome ksys :=
  match r with Ino i => on_fs (fs_iput i) k | Pno i => on_pipes (fs_iput i) k end.
Definition set_pipe (r : iref) (pi : option pipe) (k : ksys) : outcome ksys := upd_node r (λ ip, with_ops pi (i_op ip) ip) k.

(** ** file.c *)

Definition zero_file : file := File FD_NONE 0 false false 0 0 None 0.

Definition filealloc (k : ksys) : option nat * ksys :=
  match list_find (λ f, f_ref f = 0) (ftable k) with
  | Some (f, _) => (Some f, set_file f (File FD_NONE 1 false false 0 0 None 0) k)
  | None => (None, k)
  end.

Definition filedup (f : nat) (k : ksys) : outcome ksys :=
  fl ← get_file f k;
  if f_ref fl <? 1 then Panic "filedup" else mret (set_file f (with_frefs (f_ref fl + 1) fl) k).

(** [pipe_release] of pipe.c *)
Definition file_pipe_release (fl : file) (k : ksys) : outcome ksys :=
  match f_ip fl with
  | None => mret k
  | Some r =>
      ip ← deref (node r k);
      match i_pipe ip with
      | Some pi =>
          if itype ip =? T_FIFO then
            let '(pi, ww, wr) := pipe_release (f_readable fl) (f_writable fl) pi in
            k ← set_pipe r (Some pi) k;
            mret (emit_if wr (WakeReaders r) (emit_if ww (WakeWriters r) k))
          else mret k
      | None => mret k
      end
  end.

(** The last close: what follows [f->ref--] when it reaches 0. *)
Definition fileclose_last (f : nat) (k : ksys) : outcome ksys :=
  fl ← get_file f k;
  k ← match f_ip fl with
      | Some r => if negb (f_flock fl =? 0) then mret (emit (WakeLock r) (set_file f (with_lock 0 fl) k)) else mret k
      | None => mret k
      end;
  k ← match f_ip fl with
      | Some r => ip ← deref (node r k); if itype ip =? T_FIFO then file_pipe_release fl k else mret k
      | None => mret k
      end;
  k ← match f_type fl, f_ip fl with
      | FD_NONE, _ | _, None => mret k
      | _, Some r => node_iput r k
      end;
  upd_file f closed k.

Definition fileclose (f : nat) (k : ksys) : outcome ksys :=
  fl ← get_file f k;
  if f_ref fl <? 1 then Panic "fileclose"
  else
    let k := set_file f (with_frefs (f_ref fl - 1) fl) k in
    if 0 <? f_ref fl - 1 then mret k else fileclose_last f k.

Definition MAJOR (dev : Z) : Z := Z.shiftr dev 20.

(** A call on a file returns a value, and for a read the bytes it stored, or
    sleeps in the pipe. *)
Inductive ioret := IoVal (r : Z) (l : list Z) | IoSleep (i : nat).

Section Io.
Context `{Devices D}.

(** One round of the loop of [file_blk_rw] at byte [off] for at most [want]
    bytes: the bytes read or the number written, [None] when the disk fails. *)
Definition blk_read_part (rdev off want : Z) (d : D) : option (list Z) * D :=
  let sec_off := off mod BLOCK_SECTOR_SIZE in
  let chunk := Z.min (BLOCK_SECTOR_SIZE - sec_off) want in
  let '(r, d) := blk_read_sect rdev (off / BLOCK_SECTOR_SIZE) d in
  (match r with None => None | Some sect => Some (take (Z.to_nat chunk) (drop (Z.to_nat sec_off) sect)) end, d).

Definition blk_write_part (rdev off : Z) (src : list Z) (d : D) : option Z * D :=
  let sec := off / BLOCK_SECTOR_SIZE in
  let sec_off := off mod BLOCK_SECTOR_SIZE in
  let chunk := Z.min (BLOCK_SECTOR_SIZE - sec_off) (Z.of_nat (length src)) in
  let buf := take (Z.to_nat chunk) src in
  if negb (sec_off =? 0) || negb (chunk =? BLOCK_SECTOR_SIZE) then
    let '(r, d) := blk_read_sect rdev sec d in
    match r with
    | None => (None, d)
    | Some sect =>
        let '(ok, d) := blk_write_sect rdev sec (take (Z.to_nat sec_off) sect ++ buf ++ drop (Z.to_nat (sec_off + chunk)) sect) d in
        (if ok : bool then Some chunk else None, d)
    end
  else
    let '(ok, d) := blk_write_sect rdev sec buf d in
    (if ok : bool then Some chunk else None, d).

(** The loops: [done] bytes are transferred; the new offset is [None] where the
    code returns before it stores it.  [off] is an [uint64], which is [unsigned
    long] and so has 32 bits in this build. *)
Fixpoint blk_read_loop (fuel : nat) (rdev cap off n : Z) (done : list Z) (d : D) : outcome (Z * list Z * option Z * D) :=
  match fuel with
  | O => NoFuel
  | S fuel =>
      let did := Z.of_nat (length done) in
      if n <=? did then mret (did, done, Some off, d)
      else if cap <=? off / BLOCK_SECTOR_SIZE then mret (did, done, Some off, d)
      else
        let '(r, d) := blk_read_part rdev off (n - did) d in
        match r with
        | None => mret (if did =? 0 then -1 else did, done, None, d)
        | Some part => blk_read_loop fuel rdev cap (u32 (off + Z.of_nat (length part))) n (done ++ part) d
        end
  end.

Fixpoint blk_write_loop (fuel : nat) (rdev cap off : Z) (src : list Z) (did : Z) (d : D) : outcome (Z * option Z * D) :=
  match fuel with
  | O => NoFuel
  | S fuel =>
      if bool_decide (src = []) then mret (did, Some off, d)
      else if cap <=? off / BLOCK_SECTOR_SIZE then mret (did, Some off, d)
      else
        let '(r, d) := blk_write_part rdev off src d in
        match r with
        | None => mret (if did =? 0 then -1 else did, None, d)
        | Some chunk => blk_write_loop fuel rdev cap (u32 (off + chunk)) (drop (Z.to_nat chunk) src) (did + chunk) d
        end
  end.

(** Every round but the first and the last transfers a sector. *)
Definition blk_fuel (n : Z) : nat := Z.to_nat (n / BLOCK_SECTOR_SIZE) + 3.

Definition store_off (f : nat) (off : option Z) (k : ksys) : outcome ksys :=
  match off with Some o => upd_file f (with_off (u32 o)) k | None => mret k end.

Definition file_blk_read (f : nat) (n : Z) (k : ksys) : outcome (ioret * ksys) :=
  fl ← get_file f k;
  match f_ip fl with
  | None => mret (IoVal (-1) [], k)
  | Some r =>
      ip ← deref (node r k);
      match blk_capacity (rdev ip) (devs k) with
      | None => mret (IoVal (-1) [], k)
      | Some cap =>
          '(v, l, off, d) ← blk_read_loop (blk_fuel n) (rdev ip) cap (f_off fl) n [] (devs k);
          k ← store_off f off (with_devs d k);
          mret (IoVal v l, k)
      end
  end.

Definition file_blk_write (f : nat) (src : list Z) (k : ksys) : outcome (ioret * ksys) :=
  fl ← get_file f k;
  match f_ip fl with
  | None => mret (IoVal (-1) [], k)
  | Some r =>
      ip ← deref (node r k);
      match blk_capacity (rdev ip) (devs k) with
      | None => mret (IoVal (-1) [], k)
      | Some cap =>
          '(v, off, d) ← blk_write_loop (blk_fuel (Z.of_nat (length src))) (rdev ip) cap (f_off fl) src 0 (devs k);
          k ← store_off f off (with_devs d k);
          mret (IoVal v [], k)
      end
  end.

Definition file_char_read (f : nat) (n : Z) (k : ksys) : outcome (ioret * ksys) :=
  fl ← get_file f k;
  match f_ip fl with
  | None => mret (IoVal (-1) [], k)
  | Some r =>
      ip ← deref (node r k);
      match chr_read (MAJOR (rdev ip)) n (devs k) with
      | None => mret (IoVal (-1) [], k)
      | Some (v, l, d) => mret (IoVal v l, with_devs d k)
      end
  end.

Definition file_char_write (f : nat) (src : list Z) (k : ksys) : outcome (ioret * ksys) :=
  fl ← get_file f k;
  match f_ip fl with
  | None => mret (IoVal (-1) [], k)
  | Some r =>
      ip ← deref (node r k);
      match chr_write (MAJOR (rdev ip)) src (devs k) with
      | None => mret (IoVal (-1) [], k)
      | Some (v, d) => mret (IoVal v [], with_devs d k)
      end
  end.

Definition fileioctl (f : nat) (req arg : Z) (k : ksys) : outcome (Z * ksys) :=
  fl ← get_file f k;
  match f_type fl, f_ip fl with
  | FD_CHAR, Some r =>
      ip ← deref (node r k);
      match chr_ioctl (MAJOR (rdev ip)) req arg (devs k) with
      | None => mret (-1, k)
      | Some (v, d) => mret (v, with_devs d k)
      end
  | _, _ => mret (-1, k)
  end.

(** [fs_readi] and [fs_writei] on any inode; the pipe of a FIFO may put the
    caller, process [me], to sleep.  Nothing sets [killed]. *)
Definition node_readi (r : iref) (off n : Z) (k : ksys) : outcome (ioret * ksys) :=
  ip ← deref (node r k);
  match i_op ip, r with
  | Some pipe_iops, _ =>
      '(pi, res, w) ← pipe_read (i_pipe ip) true n false;
      k ← set_pipe r pi k;
      let k := emit_if w (WakeWriters r) k in
      match res with
      | RSleep => mret (IoSleep 0, k)
      | RRet v l => k ← (if 0 <? v then node_touch r false true k else mret k); mret (IoVal v l, k)
      end
  | _, Ino i =>
      '(res, s) ← fs_readi i off n (fs k);
      match res with
      | IoRet (Some l) => mret (IoVal (Z.of_nat (length l)) l, with_fs s k)
      | IoRet None => mret (IoVal (-1) [], with_fs s k)
      | IoPipe => Wild
      end
  | _, Pno _ => mret (IoVal (-1) [], k)
  end.

(** The end of a section of [pipe_write], and [fs_writei] after it. *)
Definition pipe_written (me : nat) (r : iref) (pi : option pipe) (res : wres) (w : bool) (k : ksys) : outcome (ioret * ksys) :=
  k ← set_pipe r pi k;
  let k := emit_if w (WakeReaders r) k in
  match res with
  | WSleep i => mret (IoSleep i, k)
  | WRet v sp =>
      let k := emit_if sp (SigPipe me) k in
      k ← (if 0 <? v then node_touch r true false k else mret k);
      mret (IoVal v [], k)
  end.

Definition node_writei (me : nat) (r : iref) (src : list Z) (off : Z) (k : ksys) : outcome (ioret * ksys) :=
  ip ← deref (node r k);
  match i_op ip, r with
  | Some pipe_iops, _ =>
      let '(pi, res, w) := pipe_write (i_pipe ip) (Some src) false in
      pipe_written me r pi res w k
  | _, Ino i =>
      '(res, s) ← fs_writei i src off (fs k);
      match res with
      | IoRet v => mret (IoVal v [], with_fs s k)
      | IoPipe => Wild
      end
  | _, Pno _ => mret (IoVal (-1) [], k)
  end.

(** [pipe_write] after its sleep, with [i] bytes copied. *)
Definition node_writei_resume (me : nat) (r : iref) (src : list Z) (i : nat) (k : ksys) : outcome (ioret * ksys) :=
  ip ← deref (node r k);
  pi ← deref (i_pipe ip);
  let '(pi, res, w) := pipe_write_section src i false pi in
  pipe_written me r (Some pi) res w k.

(** [if (r > 0) f->off += r] *)
Definition advance (f : nat) (res : ioret) (k : ksys) : outcome ksys :=
  match res with
  | IoVal v _ => if 0 <? v then upd_file f (λ fl, with_off (u32 (f_off fl + v)) fl) k else mret k
  | IoSleep _ => mret k
  end.

Definition fileread (f : nat) (n : Z) (k : ksys) : outcome (ioret * ksys) :=
  fl ← get_file f k;
  if negb (f_readable fl) || (n <? 0) then mret (IoVal (-1) [], k)
  else
    match f_type fl, f_ip fl with
    | FD_BLOCK, _ => file_blk_read f n k
    | FD_CHAR, _ => file_char_read f n k
    | FD_INODE, Some r =>
        ip ← deref (node r k);
        if itype ip =? T_FIFO then node_readi r 0 n k
        else '(res, k) ← node_readi r (f_off fl) n k; k ← advance f res k; mret (res, k)
    | _, _ => mret (IoVal (-1) [], k)
    end.

Definition filewrite (me : nat) (f : nat) (src : list Z) (k : ksys) : outcome (ioret * ksys) :=
  fl ← get_file f k;
  if negb (f_writable fl) then mret (IoVal (-1) [], k)
  else
    match f_type fl, f_ip fl with
    | FD_BLOCK, _ => file_blk_write f src k
    | FD_CHAR, _ => file_char_write f src k
    | FD_INODE, Some r =>
        ip ← deref (node r k);
        if itype ip =? T_FIFO then node_writei me r src 0 k
        else
          let off := if has (f_flags fl) O_APPEND && (itype ip =? T_FILE) then size ip else f_off fl in
          let k := set_file f (with_off off fl) k in
          '(res, k) ← node_writei me r src off k; k ← advance f res k; mret (res, k)
    | _, _ => mret (IoVal (-1) [], k)
    end.

(** The sums are those of the machine: they wrap. *)
Definition filelseek (f : nat) (offset whence : Z) (k : ksys) : outcome (Z * ksys) :=
  fl ← get_file f k;
  match f_type fl, f_ip fl with
  | FD_CHAR, _ | FD_NONE, _ | _, None => mret (-1, k)
  | t, Some r =>
      ip ← deref (node r k);
      if bool_decide (t = FD_INODE) && (itype ip =? T_FIFO) then mret (-1, k)
      else
        let seek newoff := if newoff <? 0 then mret (-1, k) else mret (newoff, set_file f (with_off newoff fl) k) in
        if whence =? SEEK_SET then seek offset
        else if whence =? SEEK_CUR then seek (s32 (s32 (f_off fl) + offset))
        else if whence =? SEEK_END then seek (s32 (s32 (size ip) + offset))
        else mret (-1, k)
  end.

Definition conflicts (want : Z) (ip : option iref) (g : file) : bool :=
  negb (f_ref g <? 1) && bool_decide (f_ip g = ip) && negb (f_flock g =? 0) && ((want =? LOCK_EX) || (f_flock g =? LOCK_EX)).
Definition flock_conflict (self : nat) (ip : option iref) (want : Z) (k : ksys) : bool :=
  existsb (λ '(f, g), negb (f =? self)%nat && conflicts want ip g) (imap (λ f g, (f, g)) (ftable k)).

(** The result of a call, or what the caller sleeps in. *)
Inductive sysret := Ret (r : Z) | Block (p : pending).

(** The loop of [fileflock] up to the next sleep. *)
Definition flock_section (f : nat) (cmd : Z) (nb : bool) (k : ksys) : outcome (sysret * ksys) :=
  fl ← get_file f k;
  if negb (flock_conflict f (f_ip fl) cmd k) then mret (Ret 0, set_file f (with_lock cmd fl) k)
  else if nb then mret (Ret (-1), k)
  else mret (Block (InFlock f cmd), k).

Definition fileflock (f : nat) (op : Z) (k : ksys) : outcome (sysret * ksys) :=
  fl ← get_file f k;
  match f_type fl, f_ip fl with
  | FD_NONE, _ | _, None => mret (Ret (-1), k)
  | _, Some r =>
      let nb := has op LOCK_NB in
      let cmd := Z.land op (Z.lnot LOCK_NB) in
      if cmd =? LOCK_UN then
        if negb (f_flock fl =? 0) then mret (Ret 0, emit (WakeLock r) (set_file f (with_lock 0 fl) k)) else mret (Ret 0, k)
      else if negb (cmd =? LOCK_SH) && negb (cmd =? LOCK_EX) then mret (Ret (-1), k)
      else flock_section f cmd nb k
  end.

(** ** Descriptors *)

(** The smallest free descriptor from [minfd] on. *)
Definition free_fd (l : list (option nat)) (minfd : Z) : option nat :=
  match list_find (λ o, o = None) (drop (Z.to_nat minfd) l) with
  | Some (i, _) => Some (Z.to_nat minfd + i)%nat
  | None => None
  end.

Definition set_fd (fd : nat) (o : option nat) (flags : Z) (t : fproc) : fproc := Fproc (<[fd := o]> (ofile t)) (<[fd := flags]> (fdflags t)) (pend t).

(** [ofile[fd] = 0] alone. *)
Definition clear_fd (fd : nat) (t : fproc) : fproc := Fproc (<[fd := None]> (ofile t)) (fdflags t) (pend t).

Definition fdalloc_ge (me f : nat) (minfd : Z) (k : ksys) : outcome (Z * ksys) :=
  t ← get_task me k;
  if minfd <? 0 then mret (-1, k)
  else
    match free_fd (ofile t) (Z.min minfd NOFILE) with
    | Some fd => mret (Z.of_nat fd, set_task me (set_fd fd (Some f) 0 t) k)
    | None => mret (-1, k)
    end.
Definition fdalloc (me f : nat) (k : ksys) : outcome (Z * ksys) := fdalloc_ge me f 0 k.

Definition fdget (me : nat) (fd : Z) (k : ksys) : outcome (option nat) :=
  t ← get_task me k;
  mret (if (fd <? 0) || (NOFILE <=? fd) then None else mjoin (ofile t !! Z.to_nat fd)).

(** [dst->ofile[i] = filedup(src->ofile[i])], for each descriptor. *)
Definition fd_copy (dst src : nat) (k : ksys) : outcome ksys :=
  t ← get_task src k;
  k ← each (omap id (ofile t)) filedup k;
  upd_task dst (λ d, Fproc (ofile t) (zip_with (λ o x, match o with Some _ => x | None => 0 end) (ofile t) (fdflags t)) (pend d)) k.

Definition close_fd (me fd : nat) (k : ksys) : outcome ksys :=
  t ← get_task me k;
  match mjoin (ofile t !! fd) with
  | Some f => k ← fileclose f k; upd_task me (clear_fd fd) k
  | None => mret k
  end.

Definition fd_closeall (me : nat) (k : ksys) : outcome ksys :=
  each (seq 0 (Z.to_nat NOFILE)) (λ fd k,
    k ← close_fd me fd k;
    upd_task me (λ t, Fproc (ofile t) (<[fd := 0]> (fdflags t)) (pend t)) k) k.

Definition fd_close_on_exec (me : nat) (k : ksys) : outcome ksys :=
  each (seq 0 (Z.to_nat NOFILE)) (λ fd k,
    t ← get_task me k;
    match mjoin (ofile t !! fd) with
    | None => mret k
    | Some f =>
        if has (default 0 (fdflags t !! fd)) FD_CLOEXEC then
          k ← fileclose f k; upd_task me (set_fd fd None 0) k
        else mret k
    end) k.

(** [pipe_inode_alloc] and [pipealloc] of pipe.c *)
Definition pipe_inode_alloc (pi : pipe) (k : ksys) : option nat * ksys :=
  match list_find (λ ip, itype ip = 0) (pipes k) with
  | None => (None, k)
  | Some (i, ip) =>
      let ip := fs_inode_init_meta T_FIFO VFS_DEF_FILE_MODE (now_sec (fs k))
        (Inode (pipe_next_inum k) T_FIFO 0 1 0 (mode ip) (nlink ip) (uid ip) (gid ip) (atime ip) (mtime ip) (ctime ip)
               None (Some pi) [] None (iname ip) (Some pipe_iops)) in
      let n := u32 (pipe_next_inum k + 1) in
      (Some i, with_pipes (<[i := ip]> (pipes k)) (with_inum (if n =? 0 then 1 else n) k))
  end.

Definition pipealloc_bad (f0 f1 : option nat) (k : ksys) : outcome (option (nat * nat) * ksys) :=
  k ← match f0 with Some f => fileclose f k | None => mret k end;
  k ← match f1 with Some f => fileclose f k | None => mret k end;
  mret (None, k).

Definition pipealloc (k : ksys) : outcome (option (nat * nat) * ksys) :=
  match filealloc k with
  | (None, k) => pipealloc_bad None None k
  | (Some f0, k) =>
      match filealloc k with
      | (None, k) => pipealloc_bad (Some f0) None k
      | (Some f1, k) =>
          let '(ok, s) := kmalloc_ok (fs k) in
          let k := with_fs s k in
          if negb ok then pipealloc_bad (Some f0) (Some f1) k
          else
            match pipe_inode_alloc (pipealloc_init ∅) k with
            | (None, k) => pipealloc_bad (Some f0) (Some f1) k
            | (Some i, k) =>
                k ← node_idup (Pno i) k;
                k ← upd_file f0 (opened FD_INODE (Pno i) true false 0) k;
                k ← upd_file f1 (opened FD_INODE (Pno i) false true O_WRONLY) k;
                mret (Some (f0, f1), k)
            end
      end
  end.
End Io.
End State.
