(* ===== verification/SysFile.v ===== *)
(** [SysFile]: the system calls on files, kernel/fs/sysfile.c, with the parts of
    proc.c and execve.c that deal with open files.

    The arguments are those in the registers; [argint] and [argaddr] only fetch
    them.  A call on a pipe or a lock may sleep: it then leaves in [pend] what it
    goes on with, and [resume] is its next section. *)
From Stdlib Require Import ZArith Lia.
From stdpp Require Import numbers strings gmap list.
From S2P Require Import Prelude Pipe Vfs VfsInv Namei File.
Open Scope Z_scope.

Definition F_DUPFD : Z := 0.
Definition F_GETFD : Z := 1.
Definition F_SETFD : Z := 2.
Definition F_GETFL : Z := 3.
Definition F_SETFL : Z := 4.
Definition F_DUPFD_CLOEXEC : Z := 1030.

Definition S_IFMT : Z := 0xf000.
Definition S_IFIFO : Z := 0x1000.
Definition S_IFCHR : Z := 0x2000.
Definition S_IFDIR : Z := 0x4000.
Definition S_IFBLK : Z := 0x6000.
Definition S_IFREG : Z := 0x8000.
Definition S_IFLNK : Z := 0xa000.

Definition inode_to_mode (ip : inode) : Z :=
  let t := if itype ip =? T_DIR then S_IFDIR else if itype ip =? T_FILE then S_IFREG else if itype ip =? T_CHAR then S_IFCHR
           else if itype ip =? T_BLK then S_IFBLK else if itype ip =? T_FIFO then S_IFIFO else if itype ip =? T_LNK then S_IFLNK else 0 in
  Z.lor t (Z.land (mode ip) MODE_BITS).

(** [struct stat] as its bytes. *)
Definition inode_to_stat (ip : inode) : list Z :=
  bytes_le 2 (inode_to_mode ip) ++ bytes_le 2 (nlink ip) ++ bytes_le 4 (uid ip) ++ bytes_le 4 (gid ip) ++ bytes_le 4 (inum ip) ++
  bytes_le 4 (size ip) ++ bytes_le 4 (rdev ip) ++ bytes_le 4 (atime ip) ++ bytes_le 4 (mtime ip) ++ bytes_le 4 (ctime ip).

Definition le_int (l : list Z) : Z := foldr (λ b v, b + 256 * v) 0 l.

(** [char buf[128]] of [sys_read] and [sys_write] *)
Definition BUF : Z := 128.

Section Calls.
Context {M D : Type} `{UserMemory M} `{Devices D}.
Notation ksys := (ksys M D).
Context (fuel : nat).

(** A call that only concerns the file system. *)
Definition fs_call {A} (g : fsys → outcome (A * fsys)) (k : ksys) : outcome (A * ksys) := '(a, s) ← g (fs k); mret (a, with_fs s k).
Definition ret_call (g : fsys → outcome (Z * fsys)) (k : ksys) : outcome (sysret * ksys) := '(r, k) ← fs_call g k; mret (Ret r, k).

Definition ret (r : Z) (k : ksys) : outcome (sysret * ksys) := mret (Ret r, k).

Definition argstr (me : nat) (addr : Z) (k : ksys) : outcome (option str * ksys) :=
  '(p, m) ← um_copyinstr me addr (Z.of_nat NNAME) (mem k); mret (p, with_mem m k).

(** A call with one path; -1 when it cannot be copied in. *)
Definition with_path (me : nat) (addr : Z) (g : str → ksys → outcome (sysret * ksys)) (k : ksys) : outcome (sysret * ksys) :=
  '(p, k) ← argstr me addr k; match p with None => ret (-1) k | Some p => g p k end.

Definition copy_out (me : nat) (addr : Z) (l : list Z) (r : Z) (k : ksys) : outcome (sysret * ksys) :=
  '(ok, m) ← um_copyout me addr l (mem k); ret (if ok : bool then r else -1) (with_mem m k).

(** ** open, creat *)

Definition iput_fail (i : nat) (k : ksys) : outcome (sysret * ksys) := k ← node_iput (Ino i) k; ret (-1) k.

(** [filealloc] and [fdalloc]: the file gets the reference to inode [i]. *)
Definition open_fd (me i : nat) (g : inode → file → file) (k : ksys) : outcome (sysret * ksys) :=
  match filealloc k with
  | (None, k) => iput_fail i k
  | (Some f, k) =>
      '(fd, k) ← fdalloc me f k;
      if fd <? 0 then k ← fileclose f k; iput_fail i k
      else ip ← get_inode i (fs k); k ← upd_file f (g ip) k; ret fd k
  end.

Definition open_type (ip : inode) : fdtype := if itype ip =? T_CHAR then FD_CHAR else if itype ip =? T_BLK then FD_BLOCK else FD_INODE.

Definition fifo_open (i : nat) (rd wr : bool) (k : ksys) : outcome ksys :=
  ip ← get_inode i (fs k);
  match i_pipe ip with
  | Some pi => if itype ip =? T_FIFO then set_pipe (Ino i) (Some (fifo_on_open rd wr pi)) k else mret k
  | None => mret k
  end.

(** The inode, and whether it is new. *)
Definition open_find (me : nat) (path : str) (flags : Z) (k : ksys) : outcome (option nat * bool * ksys) :=
  if has flags O_CREATE then
    '(ip, k) ← fs_call (fs_create fuel me path T_FILE) k;
    match ip with
    | Some i => mret (Some i, true, k)
    | None => if has flags O_EXCL then mret (None, false, k)
              else '(ip, k) ← fs_call (fs_namei fuel me path) k; mret (ip, false, k)
    end
  else '(ip, k) ← fs_call (fs_namei fuel me path) k; mret (ip, false, k).

Definition do_open (me : nat) (path : str) (flags : Z) (k : ksys) : outcome (sysret * ksys) :=
  '(ip, created, k) ← open_find me path flags k;
  match ip with
  | None => ret (-1) k
  | Some i =>
      ip ← get_inode i (fs k);
      '(failed, k) ←
        (if has flags O_TRUNC && has flags (Z.lor O_WRONLY O_RDWR) && (itype ip =? T_FILE)
         then '(r, k) ← fs_call (fs_truncate i 0) k; mret ((r <? 0) && negb created, k)
         else mret (false, k));
      if failed : bool then iput_fail i k
      else
        let rd := negb (has flags O_WRONLY) in
        let wr := has flags O_WRONLY || has flags O_RDWR in
        '(r, k) ← open_fd me i (λ ip, opened (open_type ip) (Ino i) rd wr (Z.land flags (Z.lor (Z.lor O_ACCMODE O_APPEND) O_NONBLOCK))) k;
        match r with
        | Ret fd => if fd <? 0 then mret (r, k) else k ← fifo_open i rd wr k; mret (r, k)
        | Block _ => mret (r, k)
        end
  end.
Definition sys_open (me : nat) (upath flags : Z) : ksys → outcome (sysret * ksys) := with_path me upath (λ path, do_open me path flags).

Definition creat_find (me : nat) (path : str) (k : ksys) : outcome (option nat * ksys) :=
  '(ip, k) ← fs_call (fs_create fuel me path T_FILE) k;
  match ip with
  | Some i => mret (Some i, k)
  | None =>
      '(ip, k) ← fs_call (fs_namei fuel me path) k;
      match ip with
      | None => mret (None, k)
      | Some i =>
          '(r, k) ← fs_call (fs_truncate i 0) k;
          if r <? 0 then k ← node_iput (Ino i) k; mret (None, k) else mret (Some i, k)
      end
  end.

Definition do_creat (me : nat) (path : str) (md : Z) (k : ksys) : outcome (sysret * ksys) :=
  '(ip, k) ← creat_find me path k;
  match ip with
  | None => ret (-1) k
  | Some i =>
      k ← on_fs (upd_inode i (λ ip, with_stat (Z.land md MODE_BITS) (nlink ip) (uid ip) (gid ip) ip)) k;
      open_fd me i (λ _, opened FD_INODE (Ino i) false true O_WRONLY) k
  end.
Definition sys_creat (me : nat) (upath md : Z) : ksys → outcome (sysret * ksys) := with_path me upath (λ path, do_creat me path md).

(** ** Descriptors *)

Definition sys_close (me : nat) (fd : Z) (k : ksys) : outcome (sysret * ksys) :=
  o ← fdget me fd k;
  match o with
  | None => ret (-1) k
  | Some f => k ← upd_task me (set_fd (Z.to_nat fd) None 0) k; k ← fileclose f k; ret 0 k
  end.

Definition sys_dup (me : nat) (fd : Z) (k : ksys) : outcome (sysret * ksys) :=
  o ← fdget me fd k;
  match o with
  | None => ret (-1) k
  | Some f =>
      '(nfd, k) ← fdalloc me f k;
      if nfd <? 0 then ret (-1) k else k ← filedup f k; ret nfd k
  end.

Definition sys_dup2 (me : nat) (oldfd newfd : Z) (k : ksys) : outcome (sysret * ksys) :=
  if (newfd <? 0) || (NOFILE <=? newfd) then ret (-1) k
  else
    o ← fdget me oldfd k;
    match o with
    | None => ret (-1) k
    | Some f =>
        if oldfd =? newfd then ret newfd k
        else
          t ← get_task me k;
          k ← match mjoin (ofile t !! Z.to_nat newfd) with
              | Some g => k ← fileclose g k; upd_task me (set_fd (Z.to_nat newfd) None 0) k
              | None => mret k
              end;
          k ← filedup f k;
          k ← upd_task me (set_fd (Z.to_nat newfd) (Some f) 0) k;
          ret newfd k
    end.

Definition sys_fcntl (me : nat) (fd cmd arg : Z) (k : ksys) : outcome (sysret * ksys) :=
  o ← fdget me fd k;
  match o with
  | None => ret (-1) k
  | Some f =>
      if (cmd =? F_DUPFD) || (cmd =? F_DUPFD_CLOEXEC) then
        if arg <? 0 then ret (-1) k
        else
          '(nfd, k) ← fdalloc_ge me f arg k;
          if nfd <? 0 then ret (-1) k
          else
            k ← filedup f k;
            k ← (if cmd =? F_DUPFD_CLOEXEC then upd_task me (set_fd (Z.to_nat nfd) (Some f) FD_CLOEXEC) k else mret k);
            ret nfd k
      else if cmd =? F_GETFD then t ← get_task me k; ret (default 0 (fdflags t !! Z.to_nat fd)) k
      else if cmd =? F_SETFD then k ← upd_task me (set_fd (Z.to_nat fd) (Some f) (Z.land arg FD_CLOEXEC)) k; ret 0 k
      else if cmd =? F_GETFL then fl ← get_file f k; ret (f_flags fl) k
      else if cmd =? F_SETFL then
        k ← upd_file f (λ fl, with_flags (Z.lor (Z.land (f_flags fl) O_ACCMODE) (Z.land arg (Z.lor O_APPEND O_NONBLOCK))) fl) k;
        ret 0 k
      else ret (-1) k
  end.

Definition sys_flock (me : nat) (fd op : Z) (k : ksys) : outcome (sysret * ksys) :=
  o ← fdget me fd k; match o with None => ret (-1) k | Some f => fileflock f op k end.
Definition sys_lseek (me : nat) (fd offset whence : Z) (k : ksys) : outcome (sysret * ksys) :=
  o ← fdget me fd k; match o with None => ret (-1) k | Some f => '(r, k) ← filelseek f offset whence k; ret r k end.
Definition sys_ioctl (me : nat) (fd req arg : Z) (k : ksys) : outcome (sysret * ksys) :=
  o ← fdget me fd k; match o with None => ret (-1) k | Some f => '(r, k) ← fileioctl f req arg k; ret r k end.
Definition sys_fsync (me : nat) (fd : Z) (k : ksys) : outcome (sysret * ksys) :=
  o ← fdget me fd k;
  match o with
  | None => ret (-1) k
  | Some f => fl ← get_file f k; ret (if bool_decide (f_ip fl = None) then -1 else 0) k
  end.
Definition sys_sync (k : ksys) : outcome (sysret * ksys) := ret 0 k.

(** ** stat, readlink *)

Definition sys_fstat (me : nat) (fd uaddr : Z) (k : ksys) : outcome (sysret * ksys) :=
  o ← fdget me fd k;
  match o with
  | None => ret (-1) k
  | Some f =>
      fl ← get_file f k;
      match f_ip fl with
      | None => ret (-1) k
      | Some r => ip ← deref (node r k); copy_out me uaddr (inode_to_stat ip) 0 k
      end
  end.

(** [stat] and [lstat], by how they look the path up. *)
Definition do_stat (me : nat) (uaddr : Z) (lookup : str → fsys → outcome (option nat * fsys)) (path : str) (k : ksys) : outcome (sysret * ksys) :=
  '(r, k) ← fs_call (lookup path) k;
  match r with
  | None => ret (-1) k
  | Some i => ip ← get_inode i (fs k); k ← node_iput (Ino i) k; copy_out me uaddr (inode_to_stat ip) 0 k
  end.
Definition sys_stat (me : nat) (upath uaddr : Z) : ksys → outcome (sysret * ksys) := with_path me upath (do_stat me uaddr (fs_namei fuel me)).
Definition sys_lstat (me : nat) (upath uaddr : Z) : ksys → outcome (sysret * ksys) := with_path me upath (do_stat me uaddr (fs_namei_nofollow fuel me)).

Definition do_readlink (me : nat) (uaddr bufsiz : Z) (path : str) (k : ksys) : outcome (sysret * ksys) :=
  if bufsiz <=? 0 then ret (-1) k
  else
    '(r, k) ← fs_call (fs_namei_nofollow fuel me path) k;
    match r with
    | None => ret (-1) k
    | Some i =>
        ip ← get_inode i (fs k);
        if negb (itype ip =? T_LNK) then iput_fail i k
        else
          '(res, k) ← node_readi (Ino i) 0 (Z.of_nat DIRSIZ) k;
          k ← node_iput (Ino i) k;
          match res with
          | IoVal v l => if v <? 0 then ret (-1) k else let n := Z.min v bufsiz in copy_out me uaddr (take (Z.to_nat n) l) n k
          | IoSleep _ => Wild
          end
    end.
Definition sys_readlink (me : nat) (upath uaddr bufsiz : Z) : ksys → outcome (sysret * ksys) := with_path me upath (do_readlink me uaddr bufsiz).

(** ** pipe *)

(** Both descriptors are taken back, and both files closed. *)
Definition pipe_undo (me : nat) (fds : list nat) (rf wf : nat) (k : ksys) : outcome (sysret * ksys) :=
  k ← each fds (λ fd k, upd_task me (clear_fd fd) k) k;
  k ← fileclose rf k;
  k ← fileclose wf k;
  ret (-1) k.

Definition sys_pipe (me : nat) (uaddr : Z) (k : ksys) : outcome (sysret * ksys) :=
  '(r, k) ← pipealloc k;
  match r with
  | None => ret (-1) k
  | Some (rf, wf) =>
      '(fd0, k) ← fdalloc me rf k;
      if fd0 <? 0 then pipe_undo me [] rf wf k
      else
        '(fd1, k) ← fdalloc me wf k;
        if fd1 <? 0 then pipe_undo me [Z.to_nat fd0] rf wf k
        else
          '(ok, m) ← um_copyout me uaddr (bytes_le 4 fd0) (mem k);
          let k := with_mem m k in
          if negb ok then pipe_undo me [Z.to_nat fd0; Z.to_nat fd1] rf wf k
          else
            '(ok, m) ← um_copyout me (u32 (uaddr + 4)) (bytes_le 4 fd1) (mem k);
            let k := with_mem m k in
            if negb ok then pipe_undo me [Z.to_nat fd0; Z.to_nat fd1] rf wf k else ret 0 k
  end.

(** ** read and write *)

Definition is_fifo (f : nat) (k : ksys) : outcome bool :=
  fl ← get_file f k;
  match f_ip fl with None => mret false | Some r => ip ← deref (node r k); mret (itype ip =? T_FIFO) end.

Fixpoint read_loop (rounds : nat) (me f : nat) (uaddr n total : Z) (k : ksys) : outcome (sysret * ksys) :=
  match rounds with
  | O => NoFuel
  | S rounds =>
      if n <=? total then ret total k
      else
        let chunk := Z.min (n - total) BUF in
        '(res, k) ← fileread f chunk k;
        match res with
        | IoSleep _ => mret (Block (InRead f uaddr n total), k)
        | IoVal r l =>
            if r <? 0 then ret (-1) k
            else if r =? 0 then ret total k
            else if BUF <? r then Wild
            else
              '(ok, m) ← um_copyout me (u32 (uaddr + total)) (take (Z.to_nat r) l) (mem k);
              let k := with_mem m k in
              if negb ok then ret (-1) k
              else
                fifo ← is_fifo f k;
                if (r <? chunk) || fifo then ret (total + r) k else read_loop rounds me f uaddr n (total + r) k
        end
  end.

(** Every round but the last transfers a whole buffer. *)
Definition io_rounds (n : Z) : nat := Z.to_nat (n / BUF) + 2.

Definition sys_read (me : nat) (fd uaddr n : Z) (k : ksys) : outcome (sysret * ksys) :=
  if n <? 0 then ret (-1) k
  else
    o ← fdget me fd k;
    match o with None => ret (-1) k | Some f => read_loop (io_rounds n) me f uaddr n 0 k end.

(** What [sys_write] does with the result of [filewrite] on [buf]; [next] is the
    next round. *)
Definition wrote (f : nat) (uaddr n total : Z) (buf : list Z) (next : Z → ksys → outcome (sysret * ksys)) (res : ioret) (k : ksys) : outcome (sysret * ksys) :=
  match res with
  | IoSleep i => mret (Block (InWrite f uaddr n total buf i), k)
  | IoVal r _ =>
      if r <? 0 then ret (-1) k
      else if r =? 0 then ret total k
      else if r <? Z.of_nat (length buf) then ret (total + r) k
      else next (total + r) k
  end.

Fixpoint write_loop (rounds : nat) (me f : nat) (uaddr n total : Z) (k : ksys) : outcome (sysret * ksys) :=
  match rounds with
  | O => NoFuel
  | S rounds =>
      if n <=? total then ret total k
      else
        '(r, m) ← um_copyin me (u32 (uaddr + total)) (Z.min (n - total) BUF) (mem k);
        let k := with_mem m k in
        match r with
        | None => ret (-1) k
        | Some buf => '(res, k) ← filewrite me f buf k; wrote f uaddr n total buf (write_loop rounds me f uaddr n) res k
        end
  end.

Definition sys_write (me : nat) (fd uaddr n : Z) (k : ksys) : outcome (sysret * ksys) :=
  if n <? 0 then ret (-1) k
  else
    o ← fdget me fd k;
    match o with None => ret (-1) k | Some f => write_loop (io_rounds n) me f uaddr n 0 k end.

(** ** Calls on paths *)

Definition sys_mkdir (me : nat) (upath : Z) : ksys → outcome (sysret * ksys) := with_path me upath (λ path, ret_call (fs_mkdir fuel me path)).
Definition sys_rmdir (me : nat) (upath : Z) : ksys → outcome (sysret * ksys) := with_path me upath (λ path, ret_call (fs_rmdir fuel me path)).
Definition sys_unlink (me : nat) (upath : Z) : ksys → outcome (sysret * ksys) := with_path me upath (λ path, ret_call (fs_unlink fuel me path)).
Definition sys_link (me : nat) (uold unew : Z) : ksys → outcome (sysret * ksys) :=
  with_path me uold (λ old, with_path me unew (λ new, ret_call (fs_link fuel me old new))).
Definition sys_symlink (me : nat) (utarget upath : Z) : ksys → outcome (sysret * ksys) :=
  with_path me utarget (λ target, with_path me upath (λ path, ret_call (fs_symlink fuel me target path))).
Definition sys_rename (me : nat) (uold unew : Z) : ksys → outcome (sysret * ksys) :=
  with_path me uold (λ old, with_path me unew (λ new, ret_call (fs_rename fuel me old new))).
Definition sys_access (me : nat) (upath amode : Z) : ksys → outcome (sysret * ksys) := with_path me upath (λ path, ret_call (fs_access fuel me path amode)).
Definition sys_chmod (me : nat) (upath md : Z) : ksys → outcome (sysret * ksys) := with_path me upath (λ path, ret_call (fs_chmod fuel me path md)).
Definition sys_chown (me : nat) (upath u g : Z) : ksys → outcome (sysret * ksys) := with_path me upath (λ path, ret_call (fs_chown fuel me path u g)).
Definition sys_chdir (me : nat) (upath : Z) : ksys → outcome (sysret * ksys) := with_path me upath (λ path, ret_call (chdir fuel me path)).

Definition sys_utime (me : nat) (upath uaddr : Z) : ksys → outcome (sysret * ksys) :=
  with_path me upath (λ path k,
    if uaddr =? 0 then ret_call (fs_utime fuel me path (now_sec (fs k)) (now_sec (fs k))) k
    else
      '(r, m) ← um_copyin me uaddr 8 (mem k);
      let k := with_mem m k in
      match r with
      | None => ret (-1) k
      | Some ub => ret_call (fs_utime fuel me path (le_int (take 4 ub)) (le_int (drop 4 ub))) k
      end).

Definition sys_getcwd (me : nat) (uaddr sz : Z) (k : ksys) : outcome (sysret * ksys) :=
  if sz <? 2 then ret (-1) k
  else
    r ← fs_getcwd me (if sz <? Z.of_nat NNAME then sz else Z.of_nat NNAME) (fs k);
    match r with
    | None => ret (-1) k
    | Some p => copy_out me uaddr (p ++ [0]) (Z.of_nat (length p) + 1) k
    end.

Definition do_truncate (me : nat) (length_ : Z) (path : str) (k : ksys) : outcome (sysret * ksys) :=
  if length_ <? 0 then ret (-1) k
  else
    '(r, k) ← fs_call (fs_namei fuel me path) k;
    match r with
    | None => ret (-1) k
    | Some i =>
        '(r, k) ← fs_call (fs_truncate i length_) k;
        k ← node_iput (Ino i) k;
        ret (if r <? 0 then -1 else 0) k
    end.
Definition sys_truncate (me : nat) (upath length_ : Z) : ksys → outcome (sysret * ksys) := with_path me upath (do_truncate me length_).

Definition sys_ftruncate (me : nat) (fd length_ : Z) (k : ksys) : outcome (sysret * ksys) :=
  if length_ <? 0 then ret (-1) k
  else
    o ← fdget me fd k;
    match o with
    | None => ret (-1) k
    | Some f =>
        fl ← get_file f k;
        match f_ip fl with
        | Some (Ino i) => if negb (f_writable fl) then ret (-1) k else ret_call (fs_truncate i length_) k
        | _ => ret (-1) k
        end
    end.

Definition sys_fchdir (me : nat) (fd : Z) (k : ksys) : outcome (sysret * ksys) :=
  o ← fdget me fd k;
  match o with
  | None => ret (-1) k
  | Some f =>
      fl ← get_file f k;
      match f_ip fl with
      | Some (Ino i) =>
          ip ← get_inode i (fs k);
          if negb (itype ip =? T_DIR) then ret (-1) k
          else
            k ← node_idup (Ino i) k;
            k ← match mjoin (cwds (fs k) !! me) with Some old => node_iput (Ino old) k | None => mret k end;
            ret 0 (with_fs (with_cwds (<[me := Some i]> (cwds (fs k))) (fs k)) k)
      | _ => ret (-1) k
      end
  end.

Definition do_mknod (me : nat) (md dev : Z) (path : str) (k : ksys) : outcome (sysret * ksys) :=
  let t := Z.land md S_IFMT in
  let type := if t =? S_IFCHR then Some T_CHAR else if t =? S_IFBLK then Some T_BLK else if t =? S_IFIFO then Some T_FIFO else None in
  match type with
  | None => ret (-1) k
  | Some type =>
      '(r, k) ← fs_call (fs_mknod fuel me path type (Z.land (Z.shiftr dev 8) 0xfff) (Z.land dev 0xff)) k;
      match r with
      | None => ret (-1) k
      | Some i =>
          k ← on_fs (upd_inode i (λ ip, with_stat (Z.land md MODE_BITS) (nlink ip) (uid ip) (gid ip) ip)) k;
          k ← node_iput (Ino i) k;
          ret 0 k
      end
  end.
Definition sys_mknod (me : nat) (upath md dev : Z) : ksys → outcome (sysret * ksys) := with_path me upath (do_mknod me md dev).

(** ** Processes *)

Definition open_console (me : nat) (rd wr : bool) (k : ksys) : outcome (option nat * ksys) :=
  '(r, k) ← fs_call (fs_namei fuel me (lit "/dev/console")) k;
  match r with
  | None => mret (None, k)
  | Some i =>
      match filealloc k with
      | (None, k) => k ← node_iput (Ino i) k; mret (None, k)
      | (Some f, k) =>
          k ← upd_file f (opened FD_CHAR (Ino i) rd wr (if rd && wr then O_RDWR else if wr then O_WRONLY else 0)) k;
          mret (Some f, k)
      end
  end.

Definition fd_install_stdio (me : nat) (k : ksys) : outcome ksys :=
  '(inp, k) ← open_console me true false k;
  '(out, k) ← open_console me false true k;
  match inp, out with
  | Some i, Some o =>
      k ← filedup o k;
      upd_task me (λ t, set_fd 2 (Some o) 0 (set_fd 1 (Some o) 0 (set_fd 0 (Some i) 0 t))) k
  | _, _ =>
      k ← match inp with Some i => fileclose i k | None => mret k end;
      match out with Some o => fileclose o k | None => mret k end
  end.

(** The end of [kernel_execve]. *)
Definition kernel_execve_files (me : nat) (k : ksys) : outcome ksys :=
  t ← get_task me k;
  k ← match mjoin (ofile t !! 0%nat) with None => fd_install_stdio me k | Some _ => mret k end;
  match mjoin (cwds (fs k) !! me) with
  | Some _ => mret k
  | None =>
      '(r, k) ← fs_call (fs_namei fuel me [SLASH]) k;
      match r with
      | None => Panic "kernel_execve: cwd"
      | Some i => mret (with_fs (with_cwds (<[me := Some i]> (cwds (fs k))) (fs k)) k)
      end
  end.

(** The files of the child in [fork_copy], and of a process in
    [exit_with_xstate]. *)
Definition fork_files (child me : nat) (k : ksys) : outcome ksys :=
  k ← fd_copy child me k;
  match mjoin (cwds (fs k) !! me) with
  | None => mret k
  | Some c => k ← node_idup (Ino c) k; mret (with_fs (with_cwds (<[child := Some c]> (cwds (fs k))) (fs k)) k)
  end.

Definition exit_files (me : nat) (k : ksys) : outcome ksys :=
  k ← fd_closeall me k;
  match mjoin (cwds (fs k) !! me) with
  | None => mret k
  | Some c => k ← node_iput (Ino c) k; mret (with_fs (with_cwds (<[me := None]> (cwds (fs k))) (fs k)) k)
  end.

(** ** The calls together *)

Inductive call :=
  | Open (upath flags : Z) | Creat (upath md : Z) | Close (fd : Z) | Dup (fd : Z) | Dup2 (oldfd newfd : Z) | Fcntl (fd cmd arg : Z)
  | Flock (fd op : Z) | Lseek (fd offset whence : Z) | Ioctl (fd req arg : Z) | Fsync (fd : Z) | Sync
  | Fstat (fd uaddr : Z) | Stat (upath uaddr : Z) | Lstat (upath uaddr : Z) | Readlink (upath uaddr bufsiz : Z) | MkPipe (uaddr : Z)
  | Read (fd uaddr n : Z) | Write (fd uaddr n : Z)
  | Mkdir (upath : Z) | Rmdir (upath : Z) | Unlink (upath : Z) | Link (uold unew : Z) | Symlink (utarget upath : Z) | Rename (uold unew : Z)
  | Access (upath amode : Z) | Chmod (upath md : Z) | Chown (upath u g : Z) | Chdir (upath : Z) | Utime (upath uaddr : Z) | Getcwd (uaddr sz : Z)
  | Truncate (upath length_ : Z) | Ftruncate (fd length_ : Z) | Fchdir (fd : Z) | Mknod (upath md dev : Z).

Definition do_call (me : nat) (c : call) : ksys → outcome (sysret * ksys) :=
  match c with
  | Open p f => sys_open me p f | Creat p m => sys_creat me p m | Close fd => sys_close me fd | Dup fd => sys_dup me fd
  | Dup2 a b => sys_dup2 me a b | Fcntl fd c a => sys_fcntl me fd c a | Flock fd o => sys_flock me fd o | Lseek fd o w => sys_lseek me fd o w
  | Ioctl fd r a => sys_ioctl me fd r a | Fsync fd => sys_fsync me fd | Sync => sys_sync
  | Fstat fd a => sys_fstat me fd a | Stat p a => sys_stat me p a | Lstat p a => sys_lstat me p a | Readlink p a n => sys_readlink me p a n
  | MkPipe a => sys_pipe me a | Read fd a n => sys_read me fd a n | Write fd a n => sys_write me fd a n
  | Mkdir p => sys_mkdir me p | Rmdir p => sys_rmdir me p | Unlink p => sys_unlink me p | Link a b => sys_link me a b
  | Symlink a b => sys_symlink me a b | Rename a b => sys_rename me a b | Access p m => sys_access me p m | Chmod p m => sys_chmod me p m
  | Chown p u g => sys_chown me p u g | Chdir p => sys_chdir me p | Utime p a => sys_utime me p a | Getcwd a n => sys_getcwd me a n
  | Truncate p n => sys_truncate me p n | Ftruncate fd n => sys_ftruncate me fd n | Fchdir fd => sys_fchdir me fd | Mknod p m d => sys_mknod me p m d
  end.

(** The next section of a call that slept. *)
Definition resume (me : nat) (p : pending) (k : ksys) : outcome (sysret * ksys) :=
  match p with
  | Idle => Wild
  | InRead f uaddr n total => read_loop (io_rounds (n - total)) me f uaddr n total k
  | InWrite f uaddr n total buf i =>
      fl ← get_file f k;
      r ← deref (f_ip fl);
      '(res, k) ← node_writei_resume me r buf i k;
      wrote f uaddr n total buf (write_loop (io_rounds (n - total)) me f uaddr n) res k
  | InFlock f cmd => flock_section f cmd false k
  end.

(** A process enters a call when it is in none, and goes on with the one it is
    in; the others are what the process system does to the files. *)
Inductive act := Call (c : call) | Resume | Fork (child : nat) | Exit | Exec | Boot.

Definition settle_call (me : nat) (r : sysret) (k : ksys) : outcome (option Z * ksys) :=
  k ← upd_task me (λ t, Fproc (ofile t) (fdflags t) (match r with Ret _ => Idle | Block p => p end)) k;
  mret (match r with Ret v => Some v | Block _ => None end, k).

Definition file_act (me : nat) (a : act) (k : ksys) : outcome (option Z * ksys) :=
  t ← get_task me k;
  match a, pend t with
  | Resume, Idle => mret (None, k)
  | Resume, p => '(r, k) ← resume me p k; settle_call me r k
  | Call c, Idle => '(r, k) ← do_call me c k; settle_call me r k
  | Fork child, Idle => k ← fork_files child me k; mret (None, k)
  | Exit, Idle => k ← exit_files me k; mret (None, k)
  | Exec, Idle => k ← fd_close_on_exec me k; mret (None, k)
  | Boot, Idle => k ← kernel_execve_files me k; mret (None, k)
  | _, _ => mret (None, k)
  end.

Fixpoint file_acts (l : list (nat * act)) (k : ksys) : outcome ksys :=
  match l with
  | [] => mret k
  | (me, a) :: l => '(_, k) ← file_act me a k; file_acts l k
  end.
End Calls.

(** ** Start-up *)

(** No descriptor is open. *)
Definition no_files : fproc := Fproc (replicate (Z.to_nat NOFILE) None) (replicate (Z.to_nat NOFILE) 0) Idle.

(** The tables after [fs_init] and [fileinit]. *)
Definition fileinit {M D} (s : fsys) (m : M) (d : D) : ksys M D :=
  Ksys s (replicate NPIPE zero_inode) 1 (replicate NFILE zero_file) (replicate (length (cwds s)) no_files) m d [].
