(* ===== verification/FileInv.v ===== *)
(** [FileInv]: the invariant of open files.  The reference counts of inodes count
    the open files, those of files count descriptors, a pipe knows how many of
    its ends are open, locks on an inode are compatible, and a process that
    sleeps in a call has the file open. *)
From Stdlib Require Import ZArith Lia.
From stdpp Require Import numbers strings gmap list.
From S2P Require Import Prelude MemLayout Pipe Vfs VfsInv RamfsSpec RamfsRename RamfsData Namei NameiSpec NameiOps VfsFrame File SysFile.
Open Scope Z_scope.

(** ** Counting *)

Section Count.
Context {A : Type} (P : A → Prop) `{∀ x, Decision (P x)}.

Definition cnt (l : list A) : Z := Z.of_nat (length (filter P l)).
Definition one (x : A) : Z := if decide (P x) then 1 else 0.

Lemma cnt_cons x l : cnt (x :: l) = one x + cnt l.
Proof. unfold cnt, one. rewrite filter_cons. case_decide; cbn [length]; lia. Qed.

Lemma cnt_nonneg l : 0 ≤ cnt l.
Proof. unfold cnt. lia. Qed.

Lemma cnt_insert l : ∀ i x y, l !! i = Some x → cnt (<[i := y]> l) = cnt l - one x + one y.
Proof.
  induction l as [|z l IH]; intros [|i] x y Hi; try done.
  - injection Hi as ->. change (<[0%nat := y]> (x :: l)) with (y :: l). rewrite !cnt_cons. lia.
  - change (<[S i := y]> (z :: l)) with (z :: <[i := y]> l). rewrite !cnt_cons, (IH i x y Hi). lia.
Qed.

Lemma cnt_in l i x : l !! i = Some x → P x → 1 ≤ cnt l.
Proof.
  intros Hi Hp. pose proof (cnt_insert l i x x Hi). unfold one in *. rewrite decide_True in * by done.
  pose proof (list_elem_of_lookup_2 _ _ _ Hi) as Hin. unfold cnt. assert (x ∈ filter P l) as Hf by (apply list_elem_of_filter; done).
  destruct (filter P l); [by apply elem_of_nil in Hf|cbn; lia].
Qed.

Lemma cnt_zero l : (∀ x, x ∈ l → ¬ P x) → cnt l = 0.
Proof. intros Hn. induction l as [|x l IH]; [done|]. rewrite cnt_cons, IH by set_solver. unfold one. rewrite decide_False; [done|]. apply Hn. by left. Qed.

Lemma cnt_zero_inv l i x : cnt l = 0 → l !! i = Some x → ¬ P x.
Proof. intros Hz Hi Hp. pose proof (cnt_in l i x Hi Hp). lia. Qed.
End Count.

Lemma one_ext {A} (P : A → Prop) `{∀ x, Decision (P x)} x y : (P x ↔ P y) → one P x = one P y.
Proof. unfold one. intros Hiff. repeat case_decide; tauto. Qed.

(** Open files on inode [r], those of them open for reading and for writing. *)
Definition on_inode (r : iref) (f : file) : Prop := f_ip f = Some r.
Definition read_end (r : iref) (f : file) : Prop := f_ip f = Some r ∧ f_readable f = true.
Definition write_end (r : iref) (f : file) : Prop := f_ip f = Some r ∧ f_writable f = true.
#[global] Instance on_inode_dec r f : Decision (on_inode r f) := ltac:(unfold on_inode; apply _).
#[global] Instance read_end_dec r f : Decision (read_end r f) := ltac:(unfold read_end; apply _).
#[global] Instance write_end_dec r f : Decision (write_end r f) := ltac:(unfold write_end; apply _).

(** The descriptors of all processes that stand for file [f]. *)
Fixpoint fd_refs (l : list fproc) (f : nat) : Z :=
  match l with [] => 0 | t :: l => cnt (λ o, o = Some f) (ofile t) + fd_refs l f end.

Lemma fd_refs_nonneg l f : 0 ≤ fd_refs l f.
Proof. induction l as [|t l IH]; cbn [fd_refs]; [done|]. pose proof (cnt_nonneg (λ o, o = Some f) (ofile t)). lia. Qed.

Lemma fd_refs_insert l : ∀ p t t' f, l !! p = Some t →
  fd_refs (<[p := t']> l) f = fd_refs l f - cnt (λ o, o = Some f) (ofile t) + cnt (λ o, o = Some f) (ofile t').
Proof.
  induction l as [|x l IH]; intros [|p] t t' f Hp; try done.
  - injection Hp as ->. change (<[0%nat := t']> (t :: l)) with (t' :: l). cbn [fd_refs]. lia.
  - change (<[S p := t']> (x :: l)) with (x :: <[p := t']> l). cbn [fd_refs]. rewrite (IH p t t' f Hp). lia.
Qed.

Lemma fd_refs_in l p t fd f : l !! p = Some t → ofile t !! fd = Some (Some f) → 1 ≤ fd_refs l f.
Proof.
  revert p. induction l as [|x l IH]; intros [|p] Hp Hf; try done; cbn [fd_refs].
  - injection Hp as ->. pose proof (cnt_in (λ o, o = Some f) _ _ _ Hf eq_refl). pose proof (fd_refs_nonneg l f). lia.
  - pose proof (cnt_nonneg (λ o, o = Some f) (ofile x)). pose proof (IH p Hp Hf). lia.
Qed.

(** ** Pipes that can be read *)

(** Every byte that a reader can get to has been written, even after the counters
    have wrapped. *)
Definition pipe_safe (pi : pipe) : Prop :=
  0 ≤ nread pi < 2 ^ 32 ∧ 0 ≤ nwrite pi < 2 ^ 32 ∧
  ∃ n : nat, nwrite pi = u32 (nread pi + Z.of_nat n) ∧ ∀ i, (i < n)%nat → is_Some (Pipe.data pi !! ((nread pi + Z.of_nat i) mod PIPESIZE)).

Lemma pipe_put_safe b pi : pipe_safe pi → pipe_safe (pipe_put b pi).
Proof.
  intros (H1 & H2 & n & Hn & Hd). unfold pipe_put. split; [done|]. split; [apply u32_range|]. exists (S n). cbn. split.
  - rewrite Hn. unfold u32. rewrite Zplus_mod_idemp_l. f_equal. lia.
  - intros i Hi. destruct (decide (i = n)) as [->|]; [|].
    + rewrite Hn, u32_mod_PIPESIZE, lookup_insert_eq. by eexists.
    + destruct (decide ((nread pi + Z.of_nat i) mod PIPESIZE = nwrite pi mod PIPESIZE)) as [E|E]; [rewrite E, lookup_insert_eq; by eexists|].
      rewrite lookup_insert_ne by done. apply Hd. lia.
Qed.

Lemma pipe_get_safe pi : pipe_safe pi → nread pi ≠ nwrite pi → ∃ b pi', pipe_get pi = Done (b, pi') ∧ pipe_safe pi' ∧ same_ends pi pi'.
Proof.
  intros (H1 & H2 & n & Hn & Hd) Hne. destruct n as [|n]; [rewrite Z.add_0_r, u32_small in Hn by done; by rewrite Hn in Hne|].
  unfold pipe_get. destruct (Hd 0%nat ltac:(lia)) as [b Hb]. rewrite Z.add_0_r in Hb. rewrite Hb. cbn [deref]. run. eexists _, _. split; [done|].
  split; [|done]. split; [apply u32_range|]. split; [done|]. exists n. cbn. split.
  - rewrite Hn. unfold u32. rewrite Zplus_mod_idemp_l. f_equal. lia.
  - intros i Hi. rewrite <- Zplus_mod_idemp_l, u32_mod_PIPESIZE, Zplus_mod_idemp_l. replace (nread pi + 1 + Z.of_nat i) with (nread pi + Z.of_nat (S i)) by lia.
    apply Hd. lia.
Qed.

Lemma pipe_read_loop_safe n : ∀ pi acc, pipe_safe pi →
  ∃ l pi', pipe_read_loop n acc pi = Done (acc ++ l, pi') ∧ pipe_safe pi' ∧ same_ends pi pi' ∧ (length l ≤ n)%nat.
Proof.
  induction n as [|n IH]; intros pi acc Hs; cbn [pipe_read_loop]; [exists [], pi; rewrite app_nil_r; by split_and!|].
  destruct (Z.eqb_spec (nread pi) (nwrite pi)) as [|Hne]; [exists [], pi; rewrite app_nil_r; split_and!; try done; cbn; lia|].
  destruct (pipe_get_safe pi Hs Hne) as (b & pi1 & -> & Hs1 & He1). run. destruct (IH pi1 (acc ++ [b]) Hs1) as (l & pi2 & -> & Hs2 & He2 & Hl).
  exists (b :: l), pi2. rewrite <- app_assoc. split_and!; try done; [destruct He1, He2; split; congruence|cbn; lia].
Qed.

Lemma pipe_puts_safe l : ∀ pi, pipe_safe pi → pipe_safe (foldl (λ pi b, pipe_put b pi) pi l) ∧ same_ends pi (foldl (λ pi b, pipe_put b pi) pi l).
Proof.
  induction l as [|b l IH]; intros pi Hs; cbn; [done|]. destruct (IH (pipe_put b pi) (pipe_put_safe b pi Hs)) as [? He]. done.
Qed.

Lemma fifo_init_safe : pipe_safe (fifo_init ∅).
Proof. split; [done|]. split; [done|]. exists 0%nat. split; [done|]. intros i Hi. lia. Qed.

Lemma pipe_read_safe pi n : pipe_safe pi → 0 ≤ n →
  ∃ pi' res w, pipe_read (Some pi) true n false = Done (Some pi', res, w) ∧ pipe_safe pi' ∧ same_ends pi pi' ∧
    match res with RRet v l => (v = -1 ∧ l = []) ∨ (v = Z.of_nat (length l) ∧ v ≤ n) | RSleep => True end.
Proof.
  intros Hs Hn. unfold pipe_read. cbn [negb orb]. destruct (2 ^ 31 <=? n).
  { eexists _, _, _. split_and!; try done. by left. }
  unfold pipe_read_section. destruct (_ && _); [by eexists _, _, _|].
  destruct (pipe_read_loop_safe (Z.to_nat n) pi [] Hs) as (l & pi' & -> & Hs' & He & Hl). run. eexists _, _, _. split_and!; try done. right. cbn. lia.
Qed.

Definition wres_ok (len : nat) (res : wres) : Prop :=
  match res with WRet v _ => -1 ≤ v ≤ Z.of_nat len | WSleep i => (i ≤ len)%nat end.

Lemma pipe_write_long_safe rest : ∀ i pi, pipe_safe pi →
  ∃ pi' res w, pipe_write_long rest i false pi = (pi', res, w) ∧ pipe_safe pi' ∧ same_ends pi pi' ∧ wres_ok (i + length rest) res.
Proof.
  induction rest as [|b rest IH]; intros i pi Hs; cbn [pipe_write_long].
  { eexists _, _, _. split_and!; try done; cbn; lia. }
  destruct (_ =? _); cycle 1.
  { destruct (IH (S i) (pipe_put b pi) (pipe_put_safe b pi Hs)) as (pi' & res & w & -> & Hs' & He & Hr). eexists _, _, _. split_and!; try done.
    cbn [length]. by rewrite Nat.add_succ_r. }
  destruct (_ || _); eexists _, _, _; (split_and!; [done..|]); cbn [wres_ok length]; [|lia]. destruct (0 <? i)%nat; lia.
Qed.

Lemma pipe_write_section_safe src i pi : pipe_safe pi → (i ≤ length src)%nat →
  ∃ pi' res w, pipe_write_section src i false pi = (pi', res, w) ∧ pipe_safe pi' ∧ same_ends pi pi' ∧ wres_ok (length src) res.
Proof.
  intros Hs Hi. unfold pipe_write_section. cbn zeta. destruct (_ && _).
  - destruct (_ <? _); [destruct (_ || _); eexists _, _, _; (split_and!; [done..|]); cbn; lia|].
    destruct (pipe_puts_safe src pi Hs). eexists _, _, _. split_and!; try done; cbn; lia.
  - destruct (pipe_write_long_safe (drop i src) i pi Hs) as (pi' & res & w & -> & Hs' & He & Hr). eexists _, _, _. split_and!; try done.
    rewrite length_drop in Hr. by replace (i + (length src - i))%nat with (length src) in Hr by lia.
Qed.

Lemma pipe_write_safe src pi : pipe_safe pi →
  ∃ pi' res w, pipe_write (Some pi) (Some src) false = (Some pi', res, w) ∧ pipe_safe pi' ∧ same_ends pi pi' ∧ wres_ok (length src) res.
Proof.
  intros Hs. unfold pipe_write. destruct (_ <=? _); [eexists _, _, _; split_and!; try done; cbn; lia|].
  destruct (_ =? 0); [eexists _, _, _; split_and!; try done; cbn; lia|].
  destruct (pipe_write_section_safe src 0 pi Hs ltac:(lia)) as (pi' & res & w & -> & ?). by eexists _, _, _.
Qed.

(** ** The invariant *)

(** What the copies and the drivers promise. *)
Class UserMemoryLaws (M : Type) `{UserMemory M} := {
  mem_ok : M → Prop;
  copyin_law me va n m : mem_ok m → 0 ≤ n → ∃ r m', um_copyin me va n m = Done (r, m') ∧ mem_ok m' ∧ ∀ l, r = Some l → Z.of_nat (length l) = n ∧ bytes l;
  copyout_law me va l m : mem_ok m → ∃ r m', um_copyout me va l m = Done (r, m') ∧ mem_ok m';
  copyinstr_law me va max m : mem_ok m → 0 ≤ max → ∃ r m', um_copyinstr me va max m = Done (r, m') ∧ mem_ok m' ∧ ∀ p, r = Some p → cstring p ∧ Z.of_nat (length p) < max
}.

Class DevicesLaws (D : Type) `{Devices D} := {
  chr_read_law major n d v l d' : chr_read major n d = Some (v, l, d') → 0 ≤ n → v ≤ n;
  chr_write_law major src d v d' : chr_write major src d = Some (v, d') → v ≤ Z.of_nat (length src);
  blk_read_law rdev sec d l d' : blk_read_sect rdev sec d = (Some l, d') → Z.of_nat (length l) = BLOCK_SECTOR_SIZE
}.

Section Inv.
Context {M D : Type} `{UserMemoryLaws M} `{DevicesLaws D}.
Notation ksys := (ksys M D).

(** A FIFO's pipe counts the ends that are open. *)
Definition fifo_ok (k : ksys) (r : iref) : Prop := ∀ ip pi, node r k = Some ip → itype ip = T_FIFO → i_pipe ip = Some pi →
  readers pi = cnt (read_end r) (ftable k) ∧ writers pi = cnt (write_end r) (ftable k).

Record file_wf (k : ksys) (fl : file) : Prop := {
  fw_ref : 0 ≤ f_ref fl;
  fw_free : f_ref fl = 0 → f_ip fl = None;
  fw_none : f_type fl = FD_NONE ↔ f_ip fl = None;
  fw_lock : f_ip fl = None → f_flock fl = 0;
  fw_cmd : f_flock fl = 0 ∨ f_flock fl = LOCK_SH ∨ f_flock fl = LOCK_EX;
  fw_off : 0 ≤ f_off fl < 2 ^ 32;
  fw_node r : f_ip fl = Some r → ∃ ip, node r k = Some ip ∧ itype ip ≠ 0 ∧ f_type fl = open_type ip
}.

(** An inode of the table of pipes. *)
Record pnode_ok (ip : inode) : Prop := {
  pn_free : itype ip = 0 → ref ip = 0;
  pn_live : itype ip ≠ 0 → itype ip = T_FIFO ∧ 1 ≤ ref ip ∧ i_op ip = Some pipe_iops ∧ is_Some (i_pipe ip)
}.

(** A process that sleeps has the file open. *)
Definition pend_ok (k : ksys) (t : fproc) : Prop :=
  match pend t with
  | Idle => True
  | InRead f _ n total => Some f ∈ ofile t ∧ 0 ≤ total ≤ n
  | InWrite f _ n total buf i => Some f ∈ ofile t ∧ 0 ≤ total ∧ total + Z.of_nat (length buf) ≤ n ∧ (0 < length buf)%nat ∧ bytes buf ∧ (i ≤ length buf)%nat ∧
      ∃ fl r ip, ftable k !! f = Some fl ∧ f_ip fl = Some r ∧ node r k = Some ip ∧ itype ip = T_FIFO ∧ is_Some (i_pipe ip)
  | InFlock f cmd => Some f ∈ ofile t ∧ (cmd = LOCK_SH ∨ cmd = LOCK_EX) ∧ ∃ fl, ftable k !! f = Some fl ∧ f_ip fl ≠ None
  end.

Record task_ok (k : ksys) (t : fproc) : Prop := {
  tk_ofile : length (ofile t) = Z.to_nat NOFILE;
  tk_flags : length (fdflags t) = Z.to_nat NOFILE;
  tk_file f : Some f ∈ ofile t → ∃ fl, ftable k !! f = Some fl ∧ f_ip fl ≠ None;
  tk_pend : pend_ok k t
}.

(** [L r] references to inode [r] and [F f] references to file [f] are held by
    the code that runs; the pipe [X] is being opened or closed. *)
Record files_ok (X : option iref) (L : iref → Z) (F : nat → Z) (k : ksys) : Prop := {
  fo_fs : vfs_ok None (λ i, cnt (on_inode (Ino i)) (ftable k) + L (Ino i)) (fs k);
  fo_files : length (ftable k) = NFILE;
  fo_pipes : length (pipes k) = NPIPE;
  fo_tasks : length (tasks k) = length (cwds (fs k));
  fo_L r : 0 ≤ L r;
  fo_F f : 0 ≤ F f;
  fo_pnode i ip : pipes k !! i = Some ip → pnode_ok ip ∧ ref ip = cnt (on_inode (Pno i)) (ftable k) + L (Pno i);
  fo_file f fl : ftable k !! f = Some fl → file_wf k fl ∧ f_ref fl = fd_refs (tasks k) f + F f;
  fo_task p t : tasks k !! p = Some t → task_ok k t;
  fo_fifo r : X ≠ Some r → fifo_ok k r;
  fo_safe r ip pi : node r k = Some ip → itype ip = T_FIFO → i_pipe ip = Some pi → pipe_safe pi;
  fo_lock f g fl gl r : ftable k !! f = Some fl → ftable k !! g = Some gl → f ≠ g → f_ip fl = Some r → f_ip gl = Some r →
    f_flock fl = LOCK_EX → f_flock gl = 0;
  fo_mem : mem_ok (mem k);
  fo_size i ip : inodes (fs k) !! i = Some ip → size ip ≤ KMALLOC_MAX
}.
End Inv.

(** * The elementary moves on files, inodes and descriptors keep the
    invariant of [FileInv]. *)

(** [n] more references to [x]. *)
Definition bump {A} `{EqDecision A} (x : A) (n : Z) (L : A → Z) (y : A) : Z := if decide (y = x) then L y + n else L y.

Lemma bump_eq {A} `{EqDecision A} (x : A) n L : bump x n L x = L x + n.
Proof. unfold bump. by rewrite decide_True. Qed.
Lemma bump_ne {A} `{EqDecision A} (x : A) n L y : y ≠ x → bump x n L y = L y.
Proof. intros. unfold bump. by rewrite decide_False. Qed.
Lemma bump_bump {A} `{EqDecision A} (x : A) a b L y : bump x a (bump x b L) y = bump x (a + b) L y.
Proof. unfold bump. case_decide; lia. Qed.

(** What is in use before and after is the same inode, with the same pipe. *)
Definition quiet (s s' : fsys) : Prop :=
  ∀ j jp jp', inodes s !! j = Some jp → inodes s' !! j = Some jp' → itype jp ≠ 0 → itype jp' ≠ 0 →
    itype jp' = itype jp ∧ (itype jp = T_FIFO → i_pipe jp' = i_pipe jp).

Lemma quiet_refl s : quiet s s.
Proof. intros j jp jp' Hj Hj'. rewrite Hj in Hj'. by injection Hj' as <-. Qed.

(** One inode changes, and stays what it is. *)
Lemma quiet_set s i ip ip' h b : inodes s !! i = Some ip → itype ip' = itype ip → (itype ip = T_FIFO → i_pipe ip' = i_pipe ip) → quiet s (set_inode i ip' (with_heap h b s)).
Proof.
  intros Hi Ht Hp. intros j jp jp' Hj Hj' _ _. apply insert_Some in Hj' as [(-> & -> & _)|[_ Hj']]; [|cbn in Hj'; rewrite Hj in Hj'; by injection Hj' as <-].
  rewrite Hi in Hj. by injection Hj as <-.
Qed.

Section Steps.
Context {M D : Type} `{UserMemoryLaws M} `{DevicesLaws D}.
Notation ksys := (ksys M D).
Implicit Types (X : option iref) (L : iref → Z) (F : nat → Z) (k : ksys).

Lemma files_ok_ext X L L' F F' k : files_ok X L F k → (∀ r, L' r = L r) → (∀ f, F' f = F f) → files_ok X L' F' k.
Proof.
  intros [A1 A2 A3 A4 A5 A6 A7 A8 A9 A10 A11 A12 A13 A14] HL HF. split; try done.
  - eapply vfs_ok_ext; [exact A1|]. intros j. cbn. by rewrite HL.
  - intros r. rewrite HL. apply A5.
  - intros f. rewrite HF. apply A6.
  - intros i ip Hi. rewrite HL. by apply A7.
  - intros f fl Hf. rewrite HF. by apply A8.
Qed.

(** A file that is open, or that the running code has. *)
Lemma file_there X L F k me t fd f : files_ok X L F k → tasks k !! me = Some t → ofile t !! fd = Some (Some f) →
  ∃ fl, ftable k !! f = Some fl ∧ 1 ≤ f_ref fl.
Proof.
  intros Hok Ht Hf. destruct (tk_file _ _ (fo_task _ _ _ _ Hok me t Ht) f) as (fl & Hfl & _); [by eapply list_elem_of_lookup_2|]. exists fl. split; [done|].
  destruct (fo_file _ _ _ _ Hok f fl Hfl) as [_ ->]. pose proof (fd_refs_in _ _ _ _ _ Ht Hf). pose proof (fo_F _ _ _ _ Hok f). lia.
Qed.

Lemma fd_open X L F k me t fd f fl : files_ok X L F k → tasks k !! me = Some t → ofile t !! fd = Some (Some f) → ftable k !! f = Some fl → f_ip fl ≠ None.
Proof.
  intros Hok Ht Hfd Hf. destruct (tk_file _ _ (fo_task _ _ _ _ Hok me t Ht) f) as (fl' & Hf' & Hn); [by eapply list_elem_of_lookup_2|]. congruence.
Qed.

(** ** Files *)

Lemma on_one r fl : one (on_inode r) fl = if decide (f_ip fl = Some r) then 1 else 0.
Proof. done. Qed.

(** The locks of other files on the same inode. *)
Definition lock_fits k f fl : Prop := ∀ g gl r, ftable k !! g = Some gl → g ≠ f → f_ip fl = Some r → f_ip gl = Some r →
  (f_flock fl = LOCK_EX → f_flock gl = 0) ∧ (f_flock gl = LOCK_EX → f_flock fl = 0).

Lemma lock_fits_old X L F k f fl : files_ok X L F k → ftable k !! f = Some fl → lock_fits k f fl.
Proof. intros Hok Hf g gl r Hg Hne E1 E2. split; intros El; [by apply (fo_lock _ _ _ _ Hok f g fl gl r)|by apply (fo_lock _ _ _ _ Hok g f gl fl r)]. Qed.

(** Changing a file: the references it holds and is held by move between it and
    the running code. *)
Lemma set_file_ok X X' L L' F F' k f fl fl' : files_ok X L F k → ftable k !! f = Some fl → file_wf k fl' →
  (∀ r, L' r = L r + one (on_inode r) fl - one (on_inode r) fl') → (∀ r, 0 ≤ L' r) →
  F' f = F f + f_ref fl' - f_ref fl → (∀ g, g ≠ f → F' g = F g) → 0 ≤ F' f →
  (∀ r, X' ≠ Some r → X ≠ Some r ∧ one (read_end r) fl' = one (read_end r) fl ∧ one (write_end r) fl' = one (write_end r) fl) →
  lock_fits k f fl' → (f_ip fl' = f_ip fl ∨ f_ip fl = None ∨ fd_refs (tasks k) f = 0) →
  files_ok X' L' F' (set_file f fl' k).
Proof.
  intros [A1 A2 A3 A4 A5 A6 A7 A8 A9 A10 A11 A12 A13 A14] Hf Hwf HL HL0 HF HFn HF0 HX Hlk Hip.
  assert (∀ P `{∀ x, Decision (P x)}, cnt P (ftable (set_file f fl' k)) = cnt P (ftable k) - one P fl + one P fl') as Hc
    by (intros P ?; by apply cnt_insert).
  assert (∀ g gl, ftable (set_file f fl' k) !! g = Some gl → (g = f ∧ gl = fl') ∨ (g ≠ f ∧ ftable k !! g = Some gl)) as Hat.
  { intros g gl Hg. apply insert_Some in Hg as [(-> & -> & _)|?]; [by left|by right]. }
  assert (∀ g gl, ftable k !! g = Some gl → 0 < fd_refs (tasks k) g → f_ip gl ≠ None → ∃ gl', ftable (set_file f fl' k) !! g = Some gl' ∧ f_ip gl' = f_ip gl) as Hkeep.
  { intros g gl Hg Hr Hn. destruct (decide (g = f)) as [->|Hne]; [|exists gl; split; [cbn; by rewrite list_lookup_insert_ne|done]].
    exists fl'. split; [by eapply insert_at|]. rewrite Hf in Hg. injection Hg as ->. destruct Hip as [?|[?|?]]; [done|done|lia]. }
  split; try done.
  - eapply vfs_ok_ext; [exact A1|]. intros j. cbn beta. rewrite Hc, HL. lia.
  - cbn. by rewrite length_insert.
  - intros g. destruct (decide (g = f)) as [->|]; [done|by rewrite HFn].
  - intros i ip Hi. destruct (A7 i ip Hi) as [? Hr]. split; [done|]. rewrite Hc, HL. lia.
  - intros g gl Hg. destruct (Hat g gl Hg) as [[-> ->]|[Hne Hg']].
    + split; [by destruct Hwf; split|]. rewrite HF. destruct (A8 f fl Hf) as [_ ->]. cbn. lia.
    + rewrite HFn by done. destruct (A8 g gl Hg') as [Hw ?]. split; [by destruct Hw; split|done].
  - intros p t Ht. change (tasks k !! p = Some t) in Ht. destruct (A9 p t Ht) as [T1 T2 T3 T4]. split; try done.
    2: assert (∀ g, Some g ∈ ofile t → 0 < fd_refs (tasks k) g) as Hpos
      by (intros g Hg; apply list_elem_of_lookup in Hg as [fd Hfd]; pose proof (fd_refs_in _ _ _ _ _ Ht Hfd); lia).
    { intros g Hg. pose proof Hg as [fd Hfd]%list_elem_of_lookup. pose proof (fd_refs_in _ _ _ _ _ Ht Hfd). destruct (T3 g Hg) as (gl & Hgl & Hn).
      destruct (Hkeep g gl Hgl ltac:(lia) Hn) as (gl' & Hg' & E). exists gl'. split; [done|congruence]. }
    unfold pend_ok in *. destruct (pend t) as [|? ? ? ?|g ? ? ? ? ?|g ?]; try done.
    + destruct T4 as (Hin & ? & ? & ? & ? & ? & gl & r & ip & Hg & Hr & Hrest). split_and!; try done.
      destruct (Hkeep g gl Hg (Hpos g Hin) ltac:(congruence)) as (gl' & Hg' & E). exists gl', r, ip. split_and!; try done; [congruence|apply Hrest..].
    + destruct T4 as (Hin & ? & gl & Hg & Hr). split_and!; try done. destruct (Hkeep g gl Hg (Hpos g Hin) Hr) as (gl' & Hg' & E). exists gl'. split; [done|congruence].
  - intros r Hr. destruct (HX r Hr) as (HXr & E1 & E2). intros ip pi Hn Ht Hp. destruct (A10 r HXr ip pi Hn Ht Hp) as [? ?]. rewrite !Hc. lia.
  - intros g h gl hl r Hg Hh Hne. destruct (Hat g gl Hg) as [[-> ->]|[Hgf Hg']], (Hat h hl Hh) as [[-> ->]|[Hhf Hh']]; try done; intros E1 E2 El.
    + by apply (Hlk h hl r Hh').
    + by apply (Hlk g gl r Hg').
    + by apply (A12 g h gl hl r).
Qed.

(** ** The file system *)

(** An inode that a file has open is live in any state with the same files. *)
Lemma held_live (H' : nat → Z) s i : vfs_ok None H' s → (i < NINODE)%nat → 1 ≤ H' i → ∃ ip, inodes s !! i = Some ip ∧ itype ip ≠ 0.
Proof.
  intros Hok Hi Hh. destruct (lookup_lt_is_Some_2 (inodes s) i) as [ip Hip]; [by rewrite (vo_len _ _ _ Hok)|]. exists ip. split; [done|]. intros Ht.
  destruct (no_free _ (vo_node _ _ _ Hok i ip Hip) Ht) as [Hr _]. rewrite (vo_ref _ _ _ Hok i ip Hip) in Hr.
  pose proof (links_nonneg (inodes s) i). pose proof (held_nonneg s i). lia.
Qed.

Lemma with_fs_id k : with_fs (fs k) k = k.
Proof. by destruct k. Qed.

Lemma with_fs_ok X L L' F k s' : files_ok X L F k → vfs_ok None (λ i, cnt (on_inode (Ino i)) (ftable k) + L' (Ino i)) s' → quiet (fs k) s' →
  fifo_step (fs k) s' → (∀ r, 0 ≤ L' r) → (∀ i, L' (Pno i) = L (Pno i)) → files_ok X L' F (with_fs s' k).
Proof.
  intros [A1 A2 A3 A4 A5 A6 A7 A8 A9 A10 A11 A12 A13 A14] Hok' Hcalm [Hst Hcw] HL0 HLp.
  assert (∀ i, 1 ≤ cnt (on_inode (Ino i)) (ftable k) → (i < NINODE)%nat → ∃ ip, inodes s' !! i = Some ip ∧ itype ip ≠ 0) as Hlive.
  { intros i Hc Hi. apply (held_live _ s' i Hok' Hi). cbn. pose proof (HL0 (Ino i)). lia. }
  assert (∀ f fl r ip, ftable k !! f = Some fl → f_ip fl = Some r → node r k = Some ip → itype ip ≠ 0 →
    ∃ ip', node r (with_fs s' k) = Some ip' ∧ itype ip' = itype ip ∧ (itype ip = T_FIFO → i_pipe ip' = i_pipe ip)) as Hopen.
  { intros f fl [i|i] ip Hf Hr Hn Ht; [|by exists ip]. cbn in *. destruct (Hlive i) as (ip' & Hi' & Ht').
    - eapply cnt_in; [exact Hf|exact Hr].
    - rewrite <- (vo_len _ _ _ A1). by eapply lookup_lt_Some.
    - exists ip'. split; [done|]. by apply (Hcalm i). }
  split; try done.
  - cbn. congruence.
  - intros i ip Hi. rewrite HLp. by apply A7.
  - intros f fl Hf. destruct (A8 f fl Hf) as [[W1 W2 W3 W4 W5 W6 W7] ?]. split; [|done]. split; try done. intros r Hr.
    destruct (W7 r Hr) as (ip & Hn & Ht & Hty). destruct (Hopen f fl r ip Hf Hr Hn Ht) as (ip' & Hn' & E & _). exists ip'. split; [done|].
    unfold open_type. by rewrite E.
  - intros p t Ht. destruct (A9 p t Ht) as [T1 T2 T3 T4]. split; try done. unfold pend_ok in *. destruct (pend t); try done.
    destruct T4 as (? & ? & ? & ? & ? & ? & fl & r & ip & Hf & Hr & Hn & Htf & Hp). split_and!; try done.
    destruct (Hopen _ fl r ip Hf Hr Hn) as (ip' & Hn' & E1 & E2); [by rewrite Htf|]. exists fl, r, ip'. split_and!; try done; [congruence|by rewrite (E2 Htf)].
  - intros r HX. intros ip' pi Hn Ht Hp. destruct r as [i|i]; [|by apply (A10 (Pno i) HX ip' pi)]. cbn [node with_fs fs] in Hn.
    destruct (Hst i ip' Hn) as (ip & Hi & Hsp & _). destruct (decide (cnt (on_inode (Ino i)) (ftable k) = 0)) as [Hz|Hz].
    + destruct (Hsp Ht) as [[Ht0 E]|[E|E]]; [by apply (A10 (Ino i) HX ip pi Hi Ht0); congruence|congruence|]. rewrite Hp in E. injection E as ->. cbn.
      split; symmetry; apply cnt_zero; intros fl [j Hj]%list_elem_of_lookup [Hon _]; by apply (cnt_zero_inv _ _ _ _ Hz Hj).
    + assert (∃ f fl, ftable k !! f = Some fl ∧ f_ip fl = Some (Ino i)) as (f & fl & Hf & Hfi).
      { destruct (filter (on_inode (Ino i)) (ftable k)) as [|fl l] eqn:E; [unfold cnt in Hz; by rewrite E in Hz|].
        assert (fl ∈ filter (on_inode (Ino i)) (ftable k)) as Hin by (rewrite E; by left). apply list_elem_of_filter in Hin as [? [f ?]%list_elem_of_lookup]. by exists f, fl. }
      destruct (fw_node _ _ (proj1 (A8 f fl Hf)) (Ino i) Hfi) as (ip2 & Hi2 & Ht2 & _). cbn in Hi2. rewrite Hi in Hi2. injection Hi2 as <-.
      destruct (Hcalm i ip ip' Hi Hn Ht2) as [E1 E2]; [by rewrite Ht|]. apply (A10 (Ino i) HX ip pi Hi); [congruence|]. rewrite <- E2 by congruence. done.
  - intros [i|i] ip' pi Hn Ht Hp; [|by apply (A11 (Pno i) ip' pi)]. cbn [node with_fs fs] in Hn. destruct (Hst i ip' Hn) as (ip & Hi & Hsp & _).
    destruct (Hsp Ht) as [[Ht0 E]|[E|E]]; [by apply (A11 (Ino i) ip pi Hi Ht0); congruence|congruence|]. rewrite Hp in E. injection E as ->. apply fifo_init_safe.
  - intros i ip' Hi'. destruct (Hst i ip' Hi') as (ip & Hi & _ & Hs). pose proof (A14 i ip Hi). cbn in *. lia.
Qed.

(** ** Descriptors *)

Lemma set_task_ok X L F F' k p t t' : files_ok X L F k → tasks k !! p = Some t → task_ok k t' →
  (∀ f, F' f = F f + cnt (λ o, o = Some f) (ofile t) - cnt (λ o, o = Some f) (ofile t')) → (∀ f, 0 ≤ F' f) → files_ok X L F' (set_task p t' k).
Proof.
  intros [A1 A2 A3 A4 A5 A6 A7 A8 A9 A10 A11 A12 A13 A14] Hp Ht' HF HF0. split; try done.
  - cbn. by rewrite length_insert.
  - intros f fl Hf. destruct (A8 f fl Hf) as [Hw Hr]. split; [by destruct Hw; split|]. cbn [set_task with_tasks tasks]. rewrite (fd_refs_insert _ p t t' f Hp), HF. lia.
  - intros q u Hq. apply insert_Some in Hq as [(-> & -> & _)|[_ Hq]]; [by destruct Ht'; split|by destruct (A9 q u Hq); split].
Qed.

Lemma cnt_fd fd (l : list (option nat)) o o' f : l !! fd = Some o →
  cnt (λ x, x = Some f) (<[fd := o']> l) = cnt (λ x, x = Some f) l - (if decide (o = Some f) then 1 else 0) + (if decide (o' = Some f) then 1 else 0).
Proof. intros Hl. by rewrite (cnt_insert _ l fd o o' Hl). Qed.

(** A descriptor takes a reference of the running code, and gives one back. *)
Lemma fd_put_ok X L F k p t fd f flags : files_ok X L F k → tasks k !! p = Some t → pend t = Idle → ofile t !! fd = Some None → (∃ fl, ftable k !! f = Some fl ∧ f_ip fl ≠ None) → 1 ≤ F f →
  files_ok X L (bump f (-1) F) (set_task p (set_fd fd (Some f) flags t) k).
Proof.
  intros Hok Hp Hi Hfd Hf HF. destruct (fo_task _ _ _ _ Hok p t Hp) as [T1 T2 T3 T4]. eapply set_task_ok; [done|done| | |].
  - split; cbn; [by rewrite length_insert..| |].
    + intros g [j Hg]%list_elem_of_lookup. apply insert_Some in Hg as [(_ & E & _)|[_ Hg]]; [by injection E as ->|]. apply T3. by eapply list_elem_of_lookup_2.
    + unfold pend_ok. cbn. by rewrite Hi.
  - intros g. cbn [set_fd ofile]. rewrite (cnt_fd fd _ None (Some f) g Hfd). unfold bump. destruct (decide (g = f)) as [->|Hne]; rewrite (decide_False (P := None = _)) by done.
    + rewrite decide_True by done. lia.
    + rewrite decide_False by congruence. lia.
  - intros g. unfold bump. pose proof (fo_F _ _ _ _ Hok g). case_decide as E; [rewrite E; lia|lia].
Qed.

Lemma fd_take_ok X L F k p t fd f flags : files_ok X L F k → tasks k !! p = Some t → pend t = Idle → ofile t !! fd = Some (Some f) →
  files_ok X L (bump f 1 F) (set_task p (set_fd fd None flags t) k).
Proof.
  intros Hok Hp Hi Hfd. destruct (fo_task _ _ _ _ Hok p t Hp) as [T1 T2 T3 T4]. eapply set_task_ok; [done|done| | |].
  - split; cbn; [by rewrite length_insert..| |].
    + intros g [j Hg]%list_elem_of_lookup. apply insert_Some in Hg as [(_ & E & _)|[_ Hg]]; [done|]. apply T3. by eapply list_elem_of_lookup_2.
    + unfold pend_ok. cbn. by rewrite Hi.
  - intros g. cbn [set_fd ofile]. rewrite (cnt_fd fd _ (Some f) None g Hfd). unfold bump. destruct (decide (g = f)) as [->|Hne]; rewrite (decide_False (P := None = _)) by done.
    + rewrite decide_True by done. lia.
    + rewrite decide_False by congruence. lia.
  - intros g. unfold bump. pose proof (fo_F _ _ _ _ Hok g). case_decide; lia.
Qed.

(** ** The rest of the state *)

Lemma with_mem_ok X L F k m : files_ok X L F k → mem_ok m → files_ok X L F (with_mem m k).
Proof.
  intros [A1 A2 A3 A4 A5 A6 A7 A8 A9 A10 A11 A12 A13 A14] Hm. split; try done; [intros f fl Hf|intros p t Ht].
  - destruct (A8 f fl Hf) as [Hw ?]. split; [by destruct Hw; split|done].
  - by destruct (A9 p t Ht); split.
Qed.

Lemma with_devs_ok X L F k d : files_ok X L F k → files_ok X L F (with_devs d k).
Proof.
  intros [A1 A2 A3 A4 A5 A6 A7 A8 A9 A10 A11 A12 A13 A14]. split; try done; [intros f fl Hf|intros p t Ht].
  - destruct (A8 f fl Hf) as [Hw ?]. split; [by destruct Hw; split|done].
  - by destruct (A9 p t Ht); split.
Qed.

Lemma emit_ok X L F k e : files_ok X L F k → files_ok X L F (emit e k).
Proof.
  intros [A1 A2 A3 A4 A5 A6 A7 A8 A9 A10 A11 A12 A13 A14]. split; try done; [intros f fl Hf|intros p t Ht].
  - destruct (A8 f fl Hf) as [Hw ?]. split; [by destruct Hw; split|done].
  - by destruct (A9 p t Ht); split.
Qed.
Lemma emit_if_ok X L F k b e : files_ok X L F k → files_ok X L F (emit_if b e k).
Proof. destruct b; [apply emit_ok|done]. Qed.

(** ** One inode *)

Definition set_node (r : iref) (ip : inode) k : ksys :=
  match r with Ino i => with_fs (set_inode i ip (fs k)) k | Pno i => with_pipes (<[i := ip]> (pipes k)) k end.

Lemma heap_same k l : with_pipes l (with_fs (with_heap (heap (fs k)) (spare (fs k)) (fs k)) k) = with_pipes l k.
Proof. by destruct k as [[]]. Qed.

Lemma upd_node_run r g k ip : node r k = Some ip → upd_node r g k = Done (set_node r (g ip) k).
Proof.
  intros Hn. destruct r as [i|i]; cbn in Hn |- *.
  - unfold on_fs. by rewrite (upd_inode_ok (fs k) i ip).
  - unfold on_pipes. rewrite (upd_inode_ok _ i ip) by done. run. cbn. by rewrite heap_same.
Qed.

Lemma node_set_eq r k ip ip' : node r k = Some ip → node r (set_node r ip' k) = Some ip'.
Proof. intros Hn. destruct r; cbn in *; by eapply insert_at. Qed.
Lemma node_set_ne r r' k ip' : r' ≠ r → node r' (set_node r ip' k) = node r' k.
Proof. intros Hne. destruct r, r'; cbn in *; try done; apply list_lookup_insert_ne; congruence. Qed.
Lemma ftable_set_node r ip k : ftable (set_node r ip k) = ftable k.
Proof. by destruct r. Qed.
Lemma tasks_set_node r ip k : tasks (set_node r ip k) = tasks k.
Proof. by destruct r. Qed.

(** The inode may get new contents, another pipe or another count, but stays
    what and where it is. *)
Record node_like (ip ip' : inode) : Prop := {
  nl_type : itype ip' = itype ip;
  nl_dents : dents ip' = dents ip;
  nl_parent : iparent ip' = iparent ip;
  nl_name : iname ip' = iname ip;
  nl_op : i_op ip' = i_op ip;
  nl_size : size ip' = size ip;
  nl_pipe : is_Some (i_pipe ip) → is_Some (i_pipe ip');
  nl_ok : node_ok ip → node_ok ip'
}.

Lemma set_node_ok X X' L L' F k r ip ip' : files_ok X L F k → node r k = Some ip → itype ip ≠ 0 → node_like ip ip' →
  (∀ pi, i_pipe ip' = Some pi → itype ip = T_FIFO → pipe_safe pi ∧
    (X' ≠ Some r → readers pi = cnt (read_end r) (ftable k) ∧ writers pi = cnt (write_end r) (ftable k))) →
  (∀ r', r' ≠ r → X' ≠ Some r' → X ≠ Some r') →
  L' r = L r + ref ip' - ref ip → (∀ r', r' ≠ r → L' r' = L r') → 0 ≤ L' r → 1 ≤ ref ip' →
  files_ok X' L' F (set_node r ip' k).
Proof.
  intros Hok Hn Hlv Hlike Hpi HX HLr HLn HL0 Href. pose proof (node_set_eq r k ip ip' Hn) as Heq. pose proof (node_set_ne r) as Hnew.
  destruct Hlike as [N1 N2 N3 N4 N5 N8 N6 N7]. destruct Hok as [A1 A2 A3 A4 A5 A6 A7 A8 A9 A10 A11 A12 A13 A14].
  assert (∀ r1 ip1, node r1 k = Some ip1 → ∃ ip2, node r1 (set_node r ip' k) = Some ip2 ∧ itype ip2 = itype ip1 ∧ (is_Some (i_pipe ip1) → is_Some (i_pipe ip2))) as Hmap.
  { intros r1 ip1 H1'. destruct (decide (r1 = r)) as [->|Hne]; [rewrite Hn in H1'; injection H1' as <-; by exists ip'|].
    exists ip1. by rewrite Hnew. }
  split; rewrite ?ftable_set_node, ?tasks_set_node; try done.
  - destruct r as [i|i]; cbn [set_node fs with_fs with_pipes] in *.
    + eapply (vfs_ok_set None _ (fs k) A1); [exact Hn|by apply N7, (vo_node _ _ _ A1 i ip Hn)|done..| | |].
      * cbn. pose proof (cnt_nonneg (on_inode (Ino i)) (ftable k)). lia.
      * cbn. lia.
      * intros j Hj. cbn. rewrite HLn by congruence. done.
    + eapply vfs_ok_ext; [exact A1|]. intros j. cbn. by rewrite HLn.
  - destruct r; cbn; [done|by rewrite length_insert].
  - by destruct r.
  - intros r1. destruct (decide (r1 = r)) as [->|]; [done|rewrite HLn by done; apply A5].
  - intros j jp Hj. destruct (decide (r = Pno j)) as [->|Hne].
    + cbn in Hj. cbn in Hn. apply insert_Some in Hj as [(_ & -> & _)|[? _]]; [|done]. destruct (A7 j ip Hn) as [[P1 P2] Hr]. split; [|lia].
      destruct (P2 Hlv) as (? & ? & ? & ?). split; [intros E; congruence|]. intros _. split_and!; [congruence|lia|congruence|by apply N6].
    + assert (pipes k !! j = Some jp) as Hj'.
      { destruct r; cbn in Hj; [done|]. rewrite list_lookup_insert_ne in Hj by congruence. done. }
      rewrite HLn by congruence. by apply A7.
  - intros f fl Hf. destruct (A8 f fl Hf) as [[W1 W2 W3 W4 W5 W6 W7] ?]. split; [|done]. split; try done. intros r1 Hr1.
    destruct (W7 r1 Hr1) as (ip1 & Hi1 & Ht1 & Hty). destruct (Hmap r1 ip1 Hi1) as (ip2 & Hi2 & E & _). exists ip2. unfold open_type. rewrite E. done.
  - intros p t Ht. destruct (A9 p t Ht) as [T1 T2 T3 T4]. split; rewrite ?ftable_set_node; try done. unfold pend_ok in *. destruct (pend t); rewrite ?ftable_set_node; try done.
    destruct T4 as (? & ? & ? & ? & ? & ? & fl & r1 & ip1 & Hf & Hr1 & Hn1 & Htf & Hp). split_and!; try done.
    destruct (Hmap r1 ip1 Hn1) as (ip2 & Hi2 & E & Hp2). exists fl, r1, ip2. split_and!; try done; [congruence|by apply Hp2].
  - intros r1 HX1 ip1 pi Hi1 Ht1 Hp1. rewrite ftable_set_node. destruct (decide (r1 = r)) as [->|Hne].
    + rewrite Heq in Hi1. injection Hi1 as <-. apply (Hpi pi Hp1); [congruence|done].
    + rewrite Hnew in Hi1 by done. by apply (A10 r1 (HX r1 Hne HX1) ip1 pi).
  - intros r1 ip1 pi Hi1 Ht1 Hp1. destruct (decide (r1 = r)) as [->|Hne].
    + rewrite Heq in Hi1. injection Hi1 as <-. apply (Hpi pi Hp1). congruence.
    + rewrite Hnew in Hi1 by done. by apply (A11 r1 ip1 pi).
  - by destruct r.
  - intros j jp Hj. destruct r as [i|i]; [|by apply (A14 j)]. cbn in Hj, Hn. apply insert_Some in Hj as [(-> & -> & _)|[_ Hj]]; [rewrite N8; by apply (A14 i)|by apply (A14 j)].
Qed.
End Steps.
