(* ===== verification/FileOps.v ===== *)
(** [FileOps]: the functions of file.c keep the invariant of [FileInv]. *)
From Stdlib Require Import ZArith Lia.
From stdpp Require Import numbers strings gmap list.
From S2P Require Import Prelude MemLayout Pipe Vfs VfsInv RamfsSpec RamfsRename RamfsData Namei NameiSpec NameiOps VfsFrame File SysFile FileInv.
Open Scope Z_scope.

Section Ops.
Context {M D : Type} `{UserMemoryLaws M} `{DevicesLaws D}.
Notation ksys := (ksys M D).
Implicit Types (X : option iref) (L : iref → Z) (F : nat → Z) (k : ksys).

(** ** References to inodes *)

Lemma like_ref ip n : 1 ≤ n → itype ip ≠ 0 → node_like ip (with_ref n ip).
Proof. intros Hn Ht. split; try done. intros Hok. by apply node_ok_ref. Qed.

Lemma like_touch m a now ip : node_like ip (fs_inode_touch m a now ip).
Proof. split; try by destruct m, a. intros [N1 N2 N3 N4 N5 N6 N7 N8]. by destruct m, a; split. Qed.

Lemma like_pipe pi ip : node_like ip (with_ops (Some pi) (i_op ip) ip).
Proof. split; try done. intros [N1 N2 N3 N4 N5 N6 N7 N8]. by split. Qed.

Lemma like_stat md nl u g ip : node_like ip (with_stat md nl u g ip).
Proof. split; try done. intros [N1 N2 N3 N4 N5 N6 N7 N8]. by split. Qed.

Lemma live_ref X L F k r ip : files_ok X L F k → node r k = Some ip → itype ip ≠ 0 → 1 ≤ ref ip.
Proof.
  intros Hok Hn Ht. destruct r as [i|i]; cbn in Hn.
  - by destruct (no_live _ (vo_node _ _ _ (fo_fs _ _ _ _ Hok) i ip Hn) Ht).
  - destruct (fo_pnode _ _ _ _ Hok i ip Hn) as [[_ Hl] _]. by destruct (Hl Ht) as (_ & ? & _).
Qed.

(** An update of an inode that leaves its pipe alone. *)
Lemma node_same_ok X L F k r ip ip' : files_ok X L F k → node r k = Some ip → itype ip ≠ 0 → node_like ip ip' → i_pipe ip' = i_pipe ip → ref ip' = ref ip →
  files_ok X L F (set_node r ip' k).
Proof.
  intros Hok Hn Ht Hl Hp Hr. apply (set_node_ok X X L L F k r ip ip' Hok Hn Ht Hl); try done; [|lia|apply Hok|rewrite Hr; by eapply live_ref].
  intros pi Hpi Hf. rewrite Hp in Hpi. split; [by apply (fo_safe _ _ _ _ Hok r ip)|]. intros HX. by apply (fo_fifo _ _ _ _ Hok r HX ip).
Qed.

Lemma node_touch_ok X L F k r ip m a : files_ok X L F k → node r k = Some ip → itype ip ≠ 0 →
  ∃ ip', node_touch r m a k = Done (set_node r ip' k) ∧ node_like ip ip' ∧ i_pipe ip' = i_pipe ip ∧ files_ok X L F (set_node r ip' k).
Proof.
  intros Hok Hn Ht. unfold node_touch. rewrite (upd_node_run r _ k ip Hn). eexists. split; [done|]. pose proof (like_touch m a (now_sec (fs k)) ip) as Hl.
  assert (i_pipe (fs_inode_touch m a (now_sec (fs k)) ip) = i_pipe ip) as Hp by by destruct m, a. split; [done|]. split; [done|].
  apply (node_same_ok X L F k r ip); try done. by destruct m, a.
Qed.

Lemma node_idup_ok X L F k r ip : files_ok X L F k → node r k = Some ip → itype ip ≠ 0 →
  node_idup r k = Done (set_node r (with_ref (ref ip + 1) ip) k) ∧ files_ok X (bump r 1 L) F (set_node r (with_ref (ref ip + 1) ip) k).
Proof.
  intros Hok Hn Ht. pose proof (live_ref _ _ _ _ _ _ Hok Hn Ht). split.
  { transitivity (upd_node r (λ ip, with_ref (ref ip + 1) ip) k); [by destruct r|]. by rewrite (upd_node_run r (λ ip, with_ref (ref ip + 1) ip) k ip Hn). }
  apply (set_node_ok X X L (bump r 1 L) F k r ip _ Hok Hn Ht (like_ref ip (ref ip + 1) ltac:(lia) Ht)); try done.
  - intros pi Hpi Hf. split; [by apply (fo_safe _ _ _ _ Hok r ip)|]. intros HX. by apply (fo_fifo _ _ _ _ Hok r HX ip).
  - rewrite bump_eq. cbn. lia.
  - intros r' Hne. by apply bump_ne.
  - rewrite bump_eq. pose proof (fo_L _ _ _ _ Hok r). lia.
  - cbn. lia.
Qed.

(** Dropping one that the running code has, on an inode of ramfs. *)
Lemma unref_quiet s i ip : inodes s !! i = Some ip → quiet s (unref i ip s).
Proof.
  intros Hi. intros j jp jp' Hj Hj' Ht Ht'. unfold unref in Hj'. apply insert_Some in Hj' as [(-> & -> & _)|[_ Hj']]; [|rewrite Hj in Hj'; by injection Hj' as <-].
  rewrite Hi in Hj. injection Hj as <-. destruct (ref ip =? 1); [|done]. destruct (evicted_fields ip) as [E _]. congruence.
Qed.

Lemma ino_iput_ok X L F k i ip : files_ok X L F k → inodes (fs k) !! i = Some ip → 1 ≤ L (Ino i) →
  node_iput (Ino i) k = Done (with_fs (unref i ip (fs k)) k) ∧ files_ok X (bump (Ino i) (-1) L) F (with_fs (unref i ip (fs k)) k).
Proof.
  intros Hok Hi HL. pose proof (fo_fs _ _ _ _ Hok) as Hv.
  assert (vfs_ok None (plus (λ j, cnt (on_inode (Ino j)) (ftable k) + bump (Ino i) (-1) L (Ino j)) i) (fs k)) as Hv'.
  { eapply vfs_ok_ext; [exact Hv|]. intros j. unfold plus, bump. destruct (decide (j = i)) as [->|Hne]; [rewrite decide_True by done; lia|rewrite decide_False by congruence; done]. }
  assert (∀ r, 0 ≤ bump (Ino i) (-1) L r) as HL0.
  { intros r. unfold bump. pose proof (fo_L _ _ _ _ Hok r). case_decide as E; [rewrite E; lia|done]. }
  destruct (iput_ok None _ (fs k) i ip Hv' Hi) as [Hrun Hv2]; [|done|].
  { intros j. pose proof (cnt_nonneg (on_inode (Ino j)) (ftable k)). pose proof (HL0 (Ino j)). lia. }
  split; [unfold node_iput, on_fs; by rewrite Hrun|].
  apply (with_fs_ok X L _ F k); [done|done|by apply unref_quiet|by apply (iput_pipes i (fs k) _ Hrun)|done|]. intros j. by apply bump_ne.
Qed.

(** On an anonymous pipe. *)
Lemma pno_iput_run k i ip : pipes k !! i = Some ip → i_op ip = Some pipe_iops → 1 ≤ ref ip →
  node_iput (Pno i) k = Done (set_node (Pno i) (if ref ip =? 1 then pipe_evict (with_ref 0 ip) else with_ref (ref ip - 1) ip) k).
Proof.
  intros Hi Ho Hr. unfold node_iput, on_pipes, fs_iput, iput_fuel. cbn [fs_iput_loop]. unfold get_inode. cbn [inodes]. rewrite Hi. cbn [deref]. run.
  rewrite (proj2 (Z.leb_gt _ _)) by lia. set (s := Fsys _ _ _ _ _ _). cbn [vfs_root set_inode with_inodes s]. rewrite bool_decide_false by done. cbn [negb]. rewrite andb_true_r.
  destruct (Z.eqb_spec (ref ip) 1) as [E|E].
  - rewrite E. change (1 - 1 =? 0) with true. cbn iota. rewrite Ho. rewrite (upd_inode_ok _ i (with_ref (1 - 1) ip)) by (cbn; by eapply insert_at). run.
    cbn. by rewrite list_insert_insert_eq, heap_same.
  - rewrite (proj2 (Z.eqb_neq (ref ip - 1) 0)) by lia. run. cbn. by rewrite heap_same.
Qed.

(** The last reference: the inode is free again. *)
Lemma pipe_free_ok X L F k i ip : files_ok X L F k → pipes k !! i = Some ip → ref ip = 1 → itype ip ≠ 0 → L (Pno i) = 1 →
  files_ok X (bump (Pno i) (-1) L) F (set_node (Pno i) (pipe_evict (with_ref 0 ip)) k).
Proof.
  intros [A1 A2 A3 A4 A5 A6 A7 A8 A9 A10 A11 A12 A13 A14] Hi Hr Ht HL. destruct (A7 i ip Hi) as [_ Hc].
  assert (∀ f fl, ftable k !! f = Some fl → f_ip fl ≠ Some (Pno i)) as Hno by (intros f fl Hf E; pose proof (cnt_in (on_inode (Pno i)) _ _ _ Hf E); lia).
  assert (∀ r, r ≠ Pno i → node r (set_node (Pno i) (pipe_evict (with_ref 0 ip)) k) = node r k) as Hn by (intros; by apply node_set_ne).
  split; try done.
  - cbn. by rewrite length_insert.
  - intros r. unfold bump. pose proof (A5 r). case_decide as E; [rewrite E; lia|done].
  - intros j jp Hj. cbn in Hj. apply insert_Some in Hj as [(-> & -> & _)|[Hne Hj]].
    + split; [by split|]. rewrite bump_eq. cbn [ref pipe_evict with_ref ftable set_node with_pipes]. lia.
    + rewrite bump_ne by congruence. by apply A7.
  - intros f fl Hf. destruct (A8 f fl Hf) as [[W1 W2 W3 W4 W5 W6 W7] ?]. split; [|done]. split; try done. intros r Hfr. rewrite Hn; [by apply W7|].
    intros ->. by apply (Hno f fl).
  - intros p t Hp. destruct (A9 p t Hp) as [T1 T2 T3 T4]. split; try done. unfold pend_ok in *. destruct (pend t); try done.
    destruct T4 as (? & ? & ? & ? & ? & ? & fl & r & ip1 & Hf & Hfr & ?). split_and!; try done. exists fl, r, ip1. split_and!; try done; rewrite ?Hn; try naive_solver.
  - intros r HX ip1 pi Hi1 Ht1 Hp1. destruct (decide (r = Pno i)) as [->|Hne]; [|rewrite Hn in Hi1 by done; by apply (A10 r HX ip1 pi)].
    cbn in Hi1. rewrite list_lookup_insert_eq in Hi1 by (by eapply lookup_lt_Some). by injection Hi1 as <-.
  - intros r ip1 pi Hi1 Ht1 Hp1. destruct (decide (r = Pno i)) as [->|Hne]; [|rewrite Hn in Hi1 by done; by apply (A11 r ip1 pi)].
    cbn in Hi1. rewrite list_lookup_insert_eq in Hi1 by (by eapply lookup_lt_Some). by injection Hi1 as <-.
Qed.

(** [fs_iput] touches only the inode, and the rest of the state not at all. *)
Record puts (r : iref) k k' : Prop := {
  pt_table : ftable k' = ftable k;
  pt_tasks : tasks k' = tasks k;
  pt_events : events k' = events k;
  pt_mem : mem k' = mem k;
  pt_devs : devs k' = devs k;
  pt_cwds : cwds (fs k') = cwds (fs k);
  pt_root : vfs_root (fs k') = vfs_root (fs k);
  pt_other r' : r' ≠ r → node r' k' = node r' k;
  pt_links j : links (inodes (fs k')) j = links (inodes (fs k)) j
}.

Lemma node_iput_ok X L F k r ip : files_ok X L F k → node r k = Some ip → itype ip ≠ 0 → 1 ≤ L r →
  ∃ k', node_iput r k = Done k' ∧ files_ok X (bump r (-1) L) F k' ∧ puts r k k'.
Proof.
  intros Hok Hn Ht HL. destruct r as [i|i]; cbn [node] in Hn.
  - destruct (ino_iput_ok X L F k i ip Hok Hn HL) as [-> Hok']. eexists. split; [done|]. split; [done|]. split; try done.
    + intros [j|j] Hne; [|done]. cbn. apply list_lookup_insert_ne. congruence.
    + intros j. cbn [fs with_fs]. unfold unref, set_inode. cbn [inodes with_inodes]. rewrite (links_insert _ i ip) by done. destruct (Z.eqb_spec (ref ip) 1) as [E|]; cbn [with_ref dents]; [|lia].
      assert (dents ip = []) as Hde; [|destruct (evicted_fields ip) as (_ & _ & _ & -> & _); rewrite ?Hde; [lia|done]].
      pose proof (fo_fs _ _ _ _ Hok) as Hv. pose proof (vo_ref _ _ _ Hv i ip Hn) as Hr. pose proof (links_nonneg (inodes (fs k)) i).
      pose proof (held_nonneg (fs k) i). pose proof (cnt_nonneg (on_inode (Ino i)) (ftable k)). cbn beta in Hr.
      destruct (decide (itype ip = T_DIR)) as [Hd|Hd]; [|by apply (no_dir _ (vo_node _ _ _ Hv i ip Hn))].
      apply (vo_detached _ _ _ Hv i ip Hn Hd); [done|]. intros [Hrt|Hl]; [|lia]. unfold held in Hr. rewrite decide_True in Hr by done. lia.
  - destruct (fo_pnode _ _ _ _ Hok i ip Hn) as [[_ Hlv] Hc]. destruct (Hlv Ht) as (Hft & Hr & Ho & Hp). rewrite (pno_iput_run k i ip Hn Ho Hr). eexists. split; [done|].
    split; cycle 1. { split; try done. intros r' Hne. by apply node_set_ne. }
    destruct (Z.eqb_spec (ref ip) 1) as [E|E].
    + apply pipe_free_ok; try done. pose proof (cnt_nonneg (on_inode (Pno i)) (ftable k)). lia.
    + apply (set_node_ok X X L (bump (Pno i) (-1) L) F k (Pno i) ip (with_ref (ref ip - 1) ip) Hok Hn Ht (like_ref ip (ref ip - 1) ltac:(lia) Ht)); try done.
      * intros pi Hpi Hf. split; [by apply (fo_safe _ _ _ _ Hok (Pno i) ip)|]. intros HX. by apply (fo_fifo _ _ _ _ Hok (Pno i) HX ip).
      * rewrite bump_eq. cbn. lia.
      * intros r' Hne. by apply bump_ne.
      * rewrite bump_eq. lia.
      * cbn. lia.
Qed.

(** ** Files *)

Lemma ip_one r fl fl' : f_ip fl' = f_ip fl → one (on_inode r) fl' = one (on_inode r) fl.
Proof. intros E. apply one_ext. unfold on_inode. by rewrite E. Qed.

Lemma ends_one r fl fl' : f_ip fl' = f_ip fl → f_readable fl' = f_readable fl → f_writable fl' = f_writable fl →
  one (read_end r) fl' = one (read_end r) fl ∧ one (write_end r) fl' = one (write_end r) fl.
Proof. intros E1 E2 E3. split; apply one_ext; unfold read_end, write_end; by rewrite E1, ?E2, ?E3. Qed.

Lemma none_one r fl : f_ip fl = None → one (on_inode r) fl = 0 ∧ one (read_end r) fl = 0 ∧ one (write_end r) fl = 0.
Proof. intros E. unfold one. split_and!; rewrite decide_False; try done; unfold on_inode, read_end, write_end; rewrite E; naive_solver. Qed.

Lemma open_one r fl : f_ip fl = Some r →
  one (on_inode r) fl = 1 ∧ one (read_end r) fl = (if f_readable fl then 1 else 0) ∧ one (write_end r) fl = (if f_writable fl then 1 else 0).
Proof.
  intros E. unfold one. split_and!; [by rewrite decide_True| |].
  - destruct (f_readable fl) eqn:Er; [by rewrite decide_True|rewrite decide_False; [done|]; intros [_ ?]; congruence].
  - destruct (f_writable fl) eqn:Er; [by rewrite decide_True|rewrite decide_False; [done|]; intros [_ ?]; congruence].
Qed.

(** A change to other fields of a file. *)
Lemma file_same_ok X L F k f fl fl' : files_ok X L F k → ftable k !! f = Some fl → f_ip fl' = f_ip fl → f_readable fl' = f_readable fl → f_writable fl' = f_writable fl →
  file_wf k fl' → lock_fits k f fl' → 0 ≤ F f + f_ref fl' - f_ref fl → files_ok X L (bump f (f_ref fl' - f_ref fl) F) (set_file f fl' k).
Proof.
  intros Hok Hf E1 E2 E3 Hwf Hlk HF. eapply (set_file_ok X X L L F); try done.
  - intros r. rewrite (ip_one r fl fl' E1). lia.
  - apply Hok.
  - rewrite bump_eq. lia.
  - intros g Hne. by apply bump_ne.
  - rewrite bump_eq. lia.
  - intros r HX. split; [done|]. by apply ends_one.
  - by left.
Qed.

Lemma file_attr_ok X L F k f fl fl' : files_ok X L F k → ftable k !! f = Some fl → f_ip fl' = f_ip fl → f_readable fl' = f_readable fl → f_writable fl' = f_writable fl →
  file_wf k fl' → lock_fits k f fl' → f_ref fl' = f_ref fl → files_ok X L F (set_file f fl' k).
Proof.
  intros Hok Hf E1 E2 E3 Hwf Hlk Hr. eapply files_ok_ext; [by apply (file_same_ok X L F k f fl fl'); try done; rewrite Hr; pose proof (fo_F _ _ _ _ Hok f); lia|done|].
  intros g. unfold bump. rewrite Hr. case_decide; lia.
Qed.

Lemma set_off_ok X L F k f fl o : files_ok X L F k → ftable k !! f = Some fl → 0 ≤ o < 2 ^ 32 → files_ok X L F (set_file f (with_off o fl) k).
Proof.
  intros Hok Hf Ho. apply (file_attr_ok X L F k f fl); try done.
  - by destruct (fo_file _ _ _ _ Hok f fl Hf) as [[] _]; split.
  - by apply (lock_fits_old X L F k f fl).
Qed.

Lemma set_flags_ok X L F k f fl x : files_ok X L F k → ftable k !! f = Some fl → files_ok X L F (set_file f (with_flags x fl) k).
Proof.
  intros Hok Hf. apply (file_attr_ok X L F k f fl); try done.
  - by destruct (fo_file _ _ _ _ Hok f fl Hf) as [[] _]; split.
  - by apply (lock_fits_old X L F k f fl).
Qed.

Lemma filealloc_ok X L F k : files_ok X L F k →
  match filealloc k with
  | (None, k') => k' = k
  | (Some f, k') => ∃ fl, ftable k !! f = Some fl ∧ f_ref fl = 0 ∧ f_ip fl = None ∧ k' = set_file f (File FD_NONE 1 false false 0 0 None 0) k ∧
      files_ok X L (bump f 1 F) k'
  end.
Proof.
  intros Hok. unfold filealloc. destruct (list_find _ (ftable k)) as [[f fl]|] eqn:E; [|done]. apply list_find_Some in E as (Hf & Hr & _). cbn in Hr.
  destruct (fo_file _ _ _ _ Hok f fl Hf) as [Hw Hc]. pose proof (fw_free _ _ Hw Hr) as Hip. exists fl. split; [done|]. split; [done|]. split; [done|]. split; [done|].
  set (fl' := File FD_NONE 1 false false 0 0 None 0).
  eapply (set_file_ok X X L L F _ k f fl fl'); try done.
  - split; try done. by left.
  - intros r. destruct (none_one r fl Hip) as (-> & _). destruct (none_one r fl' eq_refl) as (-> & _). lia.
  - apply Hok.
  - rewrite bump_eq, Hr. cbn. lia.
  - intros g Hne. by apply bump_ne.
  - rewrite bump_eq. pose proof (fo_F _ _ _ _ Hok f). lia.
  - intros r HX. split; [done|]. destruct (none_one r fl Hip) as (_ & -> & ->). destruct (none_one r fl' eq_refl) as (_ & -> & ->). done.
  - by right; left.
Qed.

Lemma filedup_ok X L F k f fl : files_ok X L F k → ftable k !! f = Some fl → 1 ≤ f_ref fl →
  filedup f k = Done (set_file f (with_frefs (f_ref fl + 1) fl) k) ∧ files_ok X L (bump f 1 F) (set_file f (with_frefs (f_ref fl + 1) fl) k).
Proof.
  intros Hok Hf Hr. unfold filedup, get_file. rewrite Hf. cbn [deref]. run. rewrite (proj2 (Z.ltb_ge _ _)) by lia. split; [done|].
  eapply files_ok_ext; [apply (file_same_ok X L F k f fl (with_frefs (f_ref fl + 1) fl)); try done| |].
  - destruct (fo_file _ _ _ _ Hok f fl Hf) as [[] _]; split; try done; cbn; lia.
  - by apply (lock_fits_old X L F k f fl).
  - cbn. pose proof (fo_F _ _ _ _ Hok f). lia.
  - done.
  - intros g. cbn. by replace (f_ref fl + 1 - f_ref fl) with 1 by lia.
Qed.

(** ** Closing *)

Lemma obind_assoc {A B C} (m : outcome A) (g : A → outcome B) (h : B → outcome C) : (m ≫= g) ≫= h = m ≫= (λ x, g x ≫= h).
Proof. by destruct m. Qed.

(** The program does not look at the table of files. *)
Definition tableless (Q : ksys → outcome ksys) : Prop := ∀ l k, Q (with_ftable l k) = (k' ← Q k; mret (with_ftable l k')).

Lemma tableless_bind Q R : tableless Q → tableless R → tableless (λ k, k ← Q k; R k).
Proof. intros HQ HR l k. rewrite HQ. destruct (Q k) as [k1| | |]; try done. run. by rewrite HR. Qed.
Lemma tableless_ret : tableless mret.
Proof. by intros l k. Qed.
Lemma tableless_upd r g : tableless (upd_node r g).
Proof. intros l k. destruct r; cbn [upd_node]; unfold on_fs, on_pipes; cbn [fs pipes with_ftable]; by destruct (upd_inode _ _ _). Qed.
Lemma tableless_iput r : tableless (node_iput r).
Proof. intros l k. destruct r; unfold node_iput, on_fs, on_pipes; cbn [fs pipes with_ftable]; by destruct (fs_iput _ _). Qed.
Lemma tableless_release fl : tableless (file_pipe_release fl).
Proof.
  intros l k. unfold file_pipe_release. destruct (f_ip fl) as [r|]; [|done]. assert (node r (with_ftable l k) = node r k) as -> by by destruct r.
  destruct (node r k) as [ip|]; [|done]. cbn [deref]. run. destruct (i_pipe ip) as [pi|]; [|done]. destruct (_ =? _); [|done].
  destruct (pipe_release _ _ _) as [[pi' ww] wr]. unfold set_pipe. rewrite tableless_upd. destruct (upd_node _ _ _) as [k1| | |]; try done. run. by destruct ww, wr.
Qed.

(** What the last close does to the inode. *)
Definition let_go (fl : file) : ksys → outcome ksys := λ k,
  k ← match f_ip fl with
      | Some r => ip ← deref (node r k); if itype ip =? T_FIFO then file_pipe_release fl k else mret k
      | None => mret k
      end;
  match f_type fl, f_ip fl with
  | FD_NONE, _ | _, None => mret k
  | _, Some r => node_iput r k
  end.

Lemma tableless_let_go fl : tableless (let_go fl).
Proof.
  apply tableless_bind.
  - destruct (f_ip fl) as [r|]; [|apply tableless_ret]. intros l k. assert (node r (with_ftable l k) = node r k) as -> by by destruct r.
    destruct (node r k) as [ip|]; [|done]. cbn [deref]. run. destruct (_ =? _); [apply tableless_release|done].
  - destruct (f_type fl), (f_ip fl) as [r|]; try apply tableless_ret; apply tableless_iput.
Qed.

(** A tableless program and then a change of a file may as well be run the other
    way round. *)
Lemma tableless_run Q k f fl (g : file → file) k' : tableless Q → ftable k !! f = Some fl → Q (set_file f (g fl) k) = Done k' →
  (k ← Q k; upd_file f g k) = Done k'.
Proof.
  intros HQ Hf E. unfold set_file in E. rewrite HQ in E. pose proof (HQ (ftable k) k) as Hsame. assert (with_ftable (ftable k) k = k) as Hk by by destruct k.
  rewrite Hk in Hsame. destruct (Q k) as [k1| | |] eqn:E1; try done. revert E Hsame. run. intros E Hsame. injection E as <-. injection Hsame as Hsame.
  assert (ftable k1 = ftable k) as Ht by by rewrite Hsame. unfold upd_file, get_file. rewrite Ht, Hf. cbn [deref]. run. unfold set_file. by rewrite Ht.
Qed.

Lemma fileclose_run k f fl k' : ftable k !! f = Some fl → f_ref fl = 1 →
  let_go fl (set_file f (closed (with_frefs 0 fl)) (match f_ip fl with Some r => emit_if (negb (f_flock fl =? 0)) (WakeLock r) k | None => k end)) = Done k' →
  fileclose f k = Done k'.
Proof.
  intros Hf Hr E. unfold fileclose, get_file. rewrite Hf. cbn [deref]. run. rewrite Hr. change (1 <? 1) with false. change (0 <? 1 - 1) with false. cbn iota.
  change (1 - 1) with 0. set (k0 := set_file f (with_frefs 0 fl) k). assert (ftable k0 !! f = Some (with_frefs 0 fl)) as Hf0 by by eapply insert_at.
  unfold fileclose_last, get_file. rewrite Hf0. cbn [deref]. run. change (f_ip (with_frefs 0 fl)) with (f_ip fl). change (f_flock (with_frefs 0 fl)) with (f_flock fl).
  change (f_type (with_frefs 0 fl)) with (f_type fl).
  set (k1 := match f_ip fl with Some r => if negb (f_flock fl =? 0) then emit (WakeLock r) (set_file f (with_lock 0 (with_frefs 0 fl)) k0) else k0 | None => k0 end).
  assert (∃ fl1, ftable k1 !! f = Some fl1 ∧ closed fl1 = closed (with_frefs 0 fl) ∧
    set_file f (closed (with_frefs 0 fl)) k1 = set_file f (closed (with_frefs 0 fl)) (match f_ip fl with Some r => emit_if (negb (f_flock fl =? 0)) (WakeLock r) k | None => k end))
    as (fl1 & Hf1 & Hc & Hk1).
  { subst k1. destruct (f_ip fl) as [r|]; [destruct (negb _)|]; cbn [emit_if].
    - eexists. split; [by cbn; eapply insert_at|]. split; [done|]. unfold set_file, emit, with_ftable, k0. cbn. by rewrite !list_insert_insert_eq.
    - eexists. split; [done|]. split; [done|]. unfold set_file, with_ftable, k0. cbn. by rewrite list_insert_insert_eq.
    - eexists. split; [done|]. split; [done|]. unfold set_file, with_ftable, k0. cbn. by rewrite list_insert_insert_eq. }
  rewrite <- Hk1, <- Hc in E. pose proof (tableless_run (let_go fl) k1 f fl1 closed k' (tableless_let_go fl) Hf1 E) as Hrun. revert Hrun. unfold let_go.
  assert (match f_ip fl with Some r => if negb (f_flock fl =? 0) then mret (emit (WakeLock r) (set_file f (with_lock 0 (with_frefs 0 fl)) k0)) else mret k0
    | None => mret k0 end = mret (M := outcome) k1) as -> by (subst k1; destruct (f_ip fl) as [r|]; [by destruct (negb _)|done]).
  run. by rewrite obind_assoc.
Qed.

Lemma exempt_done L F k r : files_ok (Some r) L F k → fifo_ok k r → files_ok None L F k.
Proof.
  intros [A1 A2 A3 A4 A5 A6 A7 A8 A9 A10 A11 A12 A13 A14] Hr. split; try done. intros r' _. destruct (decide (r' = r)) as [->|]; [done|]. apply A10. congruence.
Qed.

(** The file is free; the running code has the reference to the inode, and one
    end of its pipe is gone. *)
Lemma close_table_ok L F k f fl r : files_ok None L F k → ftable k !! f = Some fl → f_ref fl = 1 → F f = 1 → f_ip fl = Some r →
  files_ok (Some r) (bump r 1 L) (bump f (-1) F) (set_file f (closed (with_frefs 0 fl)) k).
Proof.
  intros Hok Hf Hr HF Hip. set (fl' := closed (with_frefs 0 fl)). assert (∀ r, one (on_inode r) fl' = 0 ∧ one (read_end r) fl' = 0 ∧ one (write_end r) fl' = 0) as Hz
    by (intros r'; by apply none_one).
  assert (∀ r', r' ≠ r → one (on_inode r') fl = 0 ∧ one (read_end r') fl = 0 ∧ one (write_end r') fl = 0) as Hz'.
  { intros r' Hne. unfold one. split_and!; rewrite decide_False; try done; unfold on_inode, read_end, write_end; rewrite Hip; intros; naive_solver. }
  assert (one (on_inode r) fl = 1) as Ho by (unfold one; by rewrite decide_True).
  destruct (fo_file _ _ _ _ Hok f fl Hf) as [Hw Hc].
  eapply (set_file_ok None (Some r) L _ F _ k f fl fl'); try done.
  - split; try done; [by left|apply Hw].
  - intros r'. destruct (Hz r') as (-> & _). unfold bump. destruct (decide (r' = r)) as [->|Hne]; [lia|]. destruct (Hz' r' Hne) as (-> & _). lia.
  - intros r'. unfold bump. pose proof (fo_L _ _ _ _ Hok r'). case_decide; lia.
  - rewrite bump_eq, Hr. cbn. lia.
  - intros g Hne. by apply bump_ne.
  - rewrite bump_eq. lia.
  - intros r' Hne. split; [done|]. destruct (Hz r') as (_ & -> & ->). by destruct (Hz' r' ltac:(congruence)) as (_ & -> & ->).
  - right. right. lia.
Qed.

Lemma release_counts rd wr pi : 0 ≤ readers pi → 0 ≤ writers pi → (rd = true → 1 ≤ readers pi) → (wr = true → 1 ≤ writers pi) →
  let pi' := (pipe_release rd wr pi).1.1 in
  readers pi' = readers pi - (if rd then 1 else 0) ∧ writers pi' = writers pi - (if wr then 1 else 0) ∧ (pipe_safe pi → pipe_safe pi').
Proof.
  intros H3 H4 Hr Hw. cbn. split_and!; [| |by intros (? & ? & ?)].
  - destruct rd; cbn [andb]; [|lia]. rewrite (proj2 (Z.ltb_lt 0 _)) by (specialize (Hr eq_refl); lia). done.
  - destruct wr; cbn [andb]; [|lia]. rewrite (proj2 (Z.ltb_lt 0 _)) by (specialize (Hw eq_refl); lia). done.
Qed.

(** Giving up the inode of a closed file: [kc] is the state with the file gone,
    [k] the one before. *)
Lemma let_go_ok L F kc k f fl r ip : files_ok (Some r) (bump r 1 L) F kc → (∀ r, 0 ≤ L r) → f_ip fl = Some r → f_type fl ≠ FD_NONE →
  node r kc = Some ip → itype ip ≠ 0 → node r k = Some ip → fifo_ok k r → ftable k !! f = Some fl →
  (∀ r, cnt (read_end r) (ftable kc) = cnt (read_end r) (ftable k) - one (read_end r) fl) →
  (∀ r, cnt (write_end r) (ftable kc) = cnt (write_end r) (ftable k) - one (write_end r) fl) →
  ∃ k', let_go fl kc = Done k' ∧ files_ok None L F k' ∧ tasks k' = tasks kc ∧ mem k' = mem kc ∧ cwds (fs k') = cwds (fs kc).
Proof.
  intros Hok HL Hip Hty Hn Hlv Hnk Hff Hf Hcr Hcw. unfold let_go. rewrite Hip, Hn. cbn [deref]. run.
  assert (∃ k1 ip1, (if itype ip =? T_FIFO then file_pipe_release fl kc else mret kc) = Done k1 ∧ files_ok None (bump r 1 L) F k1 ∧ node r k1 = Some ip1 ∧ itype ip1 ≠ 0 ∧
    tasks k1 = tasks kc ∧ mem k1 = mem kc ∧ cwds (fs k1) = cwds (fs kc)) as (k1 & ip1 & -> & Hok1 & Hn1 & Hlv1 & Ht1 & Hm1 & Hc1).
  { destruct (Z.eqb_spec (itype ip) T_FIFO) as [Hft|Hft].
    2: { exists kc, ip. split_and!; try done. apply (exempt_done _ _ kc r Hok). intros ip' pi Hn' Ht'. congruence. }
    unfold file_pipe_release. rewrite Hip, Hn. cbn [deref]. run. destruct (i_pipe ip) as [pi|] eqn:Hpi.
    2: { exists kc, ip. split_and!; try done. apply (exempt_done _ _ kc r Hok). intros ip' pi Hn' Ht'. congruence. }
    rewrite Hft. change (T_FIFO =? T_FIFO) with true. cbn iota. destruct (Hff ip pi Hnk Hft Hpi) as [Hrd Hwr].
    destruct (open_one r fl Hip) as (_ & Ord & Owr).
    pose proof (cnt_nonneg (read_end r) (ftable kc)) as P1. pose proof (cnt_nonneg (write_end r) (ftable kc)) as P2. rewrite Hcr in P1. rewrite Hcw in P2. rewrite Ord in P1. rewrite Owr in P2.
    pose proof (release_counts (f_readable fl) (f_writable fl) pi ltac:(destruct (f_readable fl); lia) ltac:(destruct (f_writable fl); lia)
      ltac:(intros E; rewrite E in P1; lia) ltac:(intros E; rewrite E in P2; lia)) as (E1 & E2 & Hsafe).
    destruct (pipe_release (f_readable fl) (f_writable fl) pi) as [[pi' ww] wr]. cbn [fst] in E1, E2, Hsafe. unfold set_pipe. rewrite (upd_node_run r _ kc ip Hn). run.
    eexists _, (with_ops (Some pi') (i_op ip) ip). split; [done|]. split; cycle 1.
    { split_and!; try done; try (destruct ww, wr; cbn; by destruct r). destruct ww, wr; cbn [emit_if]; unfold emit; destruct r; cbn in *; by eapply insert_at. }
    apply emit_if_ok, emit_if_ok. apply (set_node_ok (Some r) None (bump r 1 L) (bump r 1 L) F kc r ip _ Hok Hn Hlv (like_pipe pi' ip)); try done.
    - intros pi1 E _. injection E as <-. split; [apply Hsafe; by apply (fo_safe _ _ _ _ Hok r ip)|]. intros _. rewrite E1, E2, Hcr, Hcw, Ord, Owr. lia.
    - congruence.
    - cbn. lia.
    - apply Hok.
    - cbn. by apply (live_ref _ _ _ _ _ _ Hok Hn). }
  run. destruct (node_iput_ok None (bump r 1 L) F k1 r ip1 Hok1 Hn1 Hlv1) as (k2 & Hrun & Hok2 & Hp); [rewrite bump_eq; pose proof (HL r); lia|].
  exists k2. split; [by destruct (f_type fl)|]. split; [|destruct Hp; split_and!; congruence].
  eapply files_ok_ext; [exact Hok2| |done]. intros r'. rewrite bump_bump. unfold bump. case_decide; lia.
Qed.

Lemma fileclose_ok L F k f fl : files_ok None L F k → ftable k !! f = Some fl → 1 ≤ F f →
  ∃ k', fileclose f k = Done k' ∧ files_ok None L (bump f (-1) F) k' ∧ tasks k' = tasks k ∧ mem k' = mem k ∧ cwds (fs k') = cwds (fs k).
Proof.
  intros Hok Hf HF. destruct (fo_file _ _ _ _ Hok f fl Hf) as [Hw Hc]. pose proof (fd_refs_nonneg (tasks k) f).
  destruct (decide (f_ref fl = 1)) as [Hr|Hr].
  2: { unfold fileclose, get_file. rewrite Hf. cbn [deref]. run. rewrite (proj2 (Z.ltb_ge _ _)), (proj2 (Z.ltb_lt _ _)) by lia. eexists. split; [done|]. split; [|done].
    eapply files_ok_ext; [apply (file_same_ok None L F k f fl (with_frefs (f_ref fl - 1) fl)); try done| |].
    - destruct Hw; split; try done; cbn; lia.
    - by apply (lock_fits_old None L F k f fl).
    - cbn. lia.
    - done.
    - intros g. cbn. by replace (f_ref fl - 1 - f_ref fl) with (-1) by lia. }
  destruct (f_ip fl) as [r|] eqn:Hip.
  - destruct (fw_node _ _ Hw r Hip) as (ip & Hn & Hlv & _).
    set (k0 := emit_if (negb (f_flock fl =? 0)) (WakeLock r) k). assert (files_ok None L F k0) as Hok0 by by apply emit_if_ok.
    assert (ftable k0 = ftable k ∧ tasks k0 = tasks k ∧ mem k0 = mem k ∧ fs k0 = fs k ∧ node r k0 = node r k) as (T1 & T2 & T3 & T4 & T5)
      by (subst k0; destruct (negb _); split_and!; try done; by destruct r).
    assert (ftable k0 !! f = Some fl) as Hf0 by by rewrite T1. pose proof (close_table_ok L F k0 f fl r Hok0 Hf0 Hr ltac:(lia) Hip) as Hokc.
    set (kc := set_file f (closed (with_frefs 0 fl)) k0) in *.
    destruct (let_go_ok L _ kc k0 f fl r ip Hokc) as (k' & Hrun & Hok' & E1 & E2 & E3); try done.
    + apply Hok.
    + intros E. apply (fw_none _ _ Hw) in E. congruence.
    + transitivity (node r k0); [by destruct r|congruence].
    + congruence.
    + by apply (fo_fifo _ _ _ _ Hok0).
    + intros r'. unfold kc. cbn [ftable set_file with_ftable]. rewrite (cnt_insert _ _ f fl) by done. destruct (none_one r' (closed (with_frefs 0 fl)) eq_refl) as (_ & -> & _). lia.
    + intros r'. unfold kc. cbn [ftable set_file with_ftable]. rewrite (cnt_insert _ _ f fl) by done. destruct (none_one r' (closed (with_frefs 0 fl)) eq_refl) as (_ & _ & ->). lia.
    + exists k'. split; [apply (fileclose_run k f fl k' Hf Hr); by rewrite Hip|]. split; [done|]. cbn in E1, E2, E3. rewrite E1, E2, E3. split_and!; congruence.
  - assert (f_type fl = FD_NONE) as Hty by by apply (fw_none _ _ Hw).
    exists (set_file f (closed (with_frefs 0 fl)) k). split; [apply (fileclose_run k f fl _ Hf Hr); unfold let_go; by rewrite Hip, Hty|]. split; [|done].
    eapply files_ok_ext; [apply (file_same_ok None L F k f fl (closed (with_frefs 0 fl))); try done| |].
    + split; try done; [by left|apply Hw].
    + cbn. lia.
    + done.
    + intros g. cbn. rewrite Hr. done.
Qed.
End Ops.
