(* ===== verification/FileIo.v ===== *)
(** [FileIo]: reading and writing through a file keeps the invariant of
    [FileInv]. *)
From Stdlib Require Import ZArith Lia.
From stdpp Require Import numbers strings gmap list.
From S2P Require Import Prelude MemLayout Pipe Vfs VfsInv RamfsSpec RamfsRename RamfsData Namei NameiSpec NameiOps VfsFrame File SysFile FileInv FileOps.
Open Scope Z_scope.

(** ** Reading any inode of ramfs *)

Lemma bytes_le_length n v : length (bytes_le n v) = n.
Proof. unfold bytes_le. by rewrite length_fmap, length_seq. Qed.

Lemma dirent_length ino off type name : (length name ≤ DIRSIZ)%nat → length (dirent_bytes ino off type name) = Z.to_nat sizeof_dirent.
Proof. intros Hn. unfold dirent_bytes. rewrite !length_app, !bytes_le_length, length_replicate. unfold sizeof_dirent, DIRSIZ, NAME_MAX in *. lia. Qed.

Lemma readdir_loop_ok s l : (∀ d, d ∈ l → is_Some (inodes s !! d_ip d)) → ∀ off n, 0 ≤ n → ∃ r, readdir_loop l off n s = Done r ∧ Z.of_nat (length r) ≤ n.
Proof.
  induction l as [|d l IH]; intros Hl off n Hn; cbn [readdir_loop]; [by exists []|]. destruct (Z.ltb_spec n sizeof_dirent) as [|Hge]; [by exists []|].
  destruct (Hl d ltac:(by left)) as [ip Hip]. rewrite (get_inode_ok s _ ip Hip). run.
  destruct (IH (λ e He, Hl e ltac:(by right)) (u32 (off + sizeof_dirent)) (n - sizeof_dirent) ltac:(lia)) as (r & -> & Hr). run. eexists. split; [done|].
  rewrite length_app, dirent_length; [unfold sizeof_dirent in *; lia|]. unfold d_namecpy. rewrite length_take. lia.
Qed.

Lemma ramfs_read_any H s i ip off n : vfs_ok None H s → inodes s !! i = Some ip → size ip ≤ KMALLOC_MAX → 0 ≤ off → 0 ≤ n < 2 ^ 31 →
  ∃ r, ramfs_read i off n s = Done r ∧ ∀ l, r = Some l → Z.of_nat (length l) ≤ n.
Proof.
  intros Hok Hi Hs Ho Hn. pose proof (vo_node _ _ _ Hok i ip Hi) as Hno. unfold ramfs_read. rewrite (get_inode_ok s i ip Hi). run.
  destruct (itype ip =? T_DIR).
  - unfold ramfs_readdir. destruct (negb _); [by exists None|].
    destruct (readdir_loop_ok s (drop (Z.to_nat (off / sizeof_dirent)) (dents ip))) with (off := off) (n := n) as (r & -> & Hr); [|lia|run; exists (Some r); split; [done|by intros l [= <-]]].
    intros d Hd. assert (d ∈ dents ip) as Hd' by (rewrite <- (take_drop (Z.to_nat (off / sizeof_dirent)) (dents ip)); set_solver).
    destruct (vo_ent _ _ _ Hok i ip d Hi Hd') as (cp & -> & _). done.
  - destruct (_ && _); [by exists None|]. destruct (Z.ltb_spec (size ip) off) as [|Hoff]; [exists (Some []); split; [done|intros l [= <-]; cbn; lia]|].
    assert (KMALLOC_MAX < 2 ^ 31) by (by vm_compute). pose proof (no_size _ Hno). rewrite u32_small by lia.
    set (m := if size ip <? off + n then size ip - off else n). assert (0 ≤ m ≤ n ∧ off + m ≤ size ip ∨ n = m ∧ off + m ≤ size ip) as Hm
      by (subst m; destruct (Z.ltb_spec (size ip) (off + n)); lia).
    pose proof (no_data _ Hno) as Hd. destruct (data ip) as [d|]; [|exists (Some []); split; [done|intros l [= <-]; cbn; lia]].
    unfold load_data. rewrite (proj2 (Z.ltb_ge _ _)) by lia. run. eexists. split; [done|]. intros l [= <-]. rewrite length_take. lia.
Qed.

(** No inode changes its type. *)
Definition kinds (s s' : fsys) : Prop := ∀ j jp, inodes s !! j = Some jp → ∃ jp', inodes s' !! j = Some jp' ∧ itype jp' = itype jp.

Lemma kinds_set s i ip ip' h b : inodes s !! i = Some ip → itype ip' = itype ip → kinds s (set_inode i ip' (with_heap h b s)).
Proof.
  intros Hi Ht j jp Hj. cbn. destruct (decide (j = i)) as [->|Hne]; [|exists jp; by rewrite list_lookup_insert_ne].
  exists ip'. rewrite Hi in Hj. injection Hj as <-. split; [by eapply insert_at|done].
Qed.

(** The result of a read of an inode of ramfs: at most its times change. *)
Lemma fs_readi_any H s i ip off n : vfs_ok None H s → inodes s !! i = Some ip → itype ip ≠ 0 → i_op ip ≠ Some pipe_iops → size ip ≤ KMALLOC_MAX → 0 ≤ off → 0 ≤ n < 2 ^ 31 →
  ∃ r s', fs_readi i off n s = Done (IoRet r, s') ∧ vfs_ok None H s' ∧ quiet s s' ∧ kinds s s' ∧ ∀ l, r = Some l → Z.of_nat (length l) ≤ n.
Proof.
  intros Hok Hi Ht Ho Hs Hoff Hn. pose proof (vo_node _ _ _ Hok i ip Hi) as Hno. unfold fs_readi. rewrite (get_inode_ok s i ip Hi). run.
  destruct (no_live _ Hno Ht) as [_ (o & Eo & _)]. rewrite Eo in Ho |- *. destruct o; [|done].
  destruct (ramfs_read_any H s i ip off n Hok Hi Hs Hoff Hn) as (r & -> & Hr). run. destruct (bool_decide _); cycle 1.
  { run. exists r, s. split; [done|]. split; [done|]. split; [apply quiet_refl|]. split; [intros j jp Hj; by exists jp|done]. }
  unfold touch. rewrite (upd_inode_ok s i ip) by done. run. eexists r, _. split; [done|]. assert (s = with_heap (heap s) (spare s) s) as E by by destruct s. split; [|split; [|split; [|done]]].
  - apply (vfs_ok_set None H s Hok H i ip); try done; [by destruct Hno; split|apply Hok|cbn; lia].
  - rewrite E at 2. by apply (quiet_set s i ip).
  - rewrite E at 2. by apply (kinds_set s i ip).
Qed.

Section Io.
Context {M D : Type} `{UserMemoryLaws M} `{DevicesLaws D}.
Notation ksys := (ksys M D).
Implicit Types (X : option iref) (L : iref → Z) (F : nat → Z) (k : ksys).

(** Nobody's descriptors change, and no file changes what it is open on. *)
Record shape k k' : Prop := {
  sh_tasks : tasks k' = tasks k;
  sh_mem : mem k' = mem k;
  sh_file f fl : ftable k !! f = Some fl → ∃ fl', ftable k' !! f = Some fl' ∧ f_ip fl' = f_ip fl ∧ f_type fl' = f_type fl ∧
    f_readable fl' = f_readable fl ∧ f_writable fl' = f_writable fl ∧ f_flags fl' = f_flags fl;
  sh_node r ip : node r k = Some ip → ∃ ip', node r k' = Some ip' ∧ itype ip' = itype ip
}.
#[global] Instance shape_refl : Reflexive shape.
Proof. intros k. split; try done; [intros f fl Hf; by exists fl|intros r ip Hr; by exists ip]. Qed.
#[global] Instance shape_trans : Transitive shape.
Proof.
  intros a b c [A1 A2 A3 A4] [B1 B2 B3 B4]. split; [congruence..| |].
  - intros f fl Hf. destruct (A3 f fl Hf) as (f1 & Hf1 & ? & ? & ? & ? & ?). destruct (B3 f f1 Hf1) as (f2 & Hf2 & ? & ? & ? & ? & ?). exists f2. split_and!; congruence.
  - intros r ip Hr. destruct (A4 r ip Hr) as (i1 & Hi1 & E1). destruct (B4 r i1 Hi1) as (i2 & Hi2 & E2). exists i2. split; congruence.
Qed.

Lemma shape_table k k' : tasks k' = tasks k → mem k' = mem k → ftable k' = ftable k →
  (∀ r ip, node r k = Some ip → ∃ ip', node r k' = Some ip' ∧ itype ip' = itype ip) → shape k k'.
Proof. intros E1 E2 E3 E4. split; try done. intros f fl Hf. exists fl. by rewrite E3. Qed.
Lemma shape_same k k' : tasks k' = tasks k → mem k' = mem k → ftable k' = ftable k → (∀ r, node r k' = node r k) → shape k k'.
Proof. intros E1 E2 E3 E4. apply shape_table; try done. intros r ip. rewrite E4. by exists ip. Qed.
Lemma shape_node r ip ip' k : node r k = Some ip → itype ip' = itype ip → shape k (set_node r ip' k).
Proof.
  intros Hr Ht. apply shape_table; [by destruct r..|]. intros r' jp Hj. destruct (decide (r' = r)) as [->|Hne]; [|exists jp; by rewrite node_set_ne].
  exists ip'. rewrite Hr in Hj. injection Hj as <-. split; [by eapply node_set_eq|done].
Qed.
Lemma node_emit r b e k : node r (emit_if b e k) = node r k.
Proof. destruct b; by destruct r. Qed.
Lemma shape_emit b e k : shape k (emit_if b e k).
Proof. apply shape_same; by destruct b. Qed.
Lemma shape_off f fl o k : ftable k !! f = Some fl → shape k (set_file f (with_off o fl) k).
Proof.
  intros Hf. split; try done; intros g gl Hg; [destruct (decide (g = f)) as [->|Hne]|].
  - exists (with_off o fl). rewrite Hf in Hg. injection Hg as <-. split; [by eapply insert_at|done].
  - exists gl. split; [cbn; by rewrite list_lookup_insert_ne|done].
  - exists gl. by destruct g.
Qed.

(** ** Pipes *)

Lemma pipe_ops_fifo X L F k r ip : files_ok X L F k → node r k = Some ip → itype ip ≠ 0 → i_op ip = Some pipe_iops → itype ip = T_FIFO.
Proof.
  intros Hok Hn Ht Ho. destruct r as [i|i]; cbn in Hn.
  - destruct (no_live _ (vo_node _ _ _ (fo_fs _ _ _ _ Hok) i ip Hn) Ht) as [_ (o & Eo & Hr)]. destruct (decide (itype ip = T_FIFO)) as [|Hne]; [done|].
    specialize (Hr Hne). congruence.
  - destruct (fo_pnode _ _ _ _ Hok i ip Hn) as [[_ Hl] _]. by apply Hl.
Qed.

(** A pipe with the same ends open. *)
Lemma set_pipe_ok L F k r ip pi pi' : files_ok None L F k → node r k = Some ip → itype ip = T_FIFO → i_pipe ip = Some pi → pipe_safe pi' → same_ends pi pi' →
  ∃ ip', set_pipe r (Some pi') k = Done (set_node r ip' k) ∧ files_ok None L F (set_node r ip' k) ∧ itype ip' = T_FIFO ∧ i_pipe ip' = Some pi'.
Proof.
  intros Hok Hn Ht Hp Hs [E1 E2]. unfold set_pipe. rewrite (upd_node_run r _ k ip Hn). eexists. split; [done|]. split; [|done].
  assert (itype ip ≠ 0) as Hl by by rewrite Ht.
  apply (set_node_ok None None L L F k r ip _ Hok Hn Hl (like_pipe pi' ip)); try done; [|cbn; lia|apply Hok|cbn; by apply (live_ref _ _ _ _ _ _ Hok Hn)].
  intros pi1 E _. injection E as <-. split; [done|]. intros _. rewrite E1, E2. by apply (fo_fifo _ _ _ _ Hok r ltac:(done) ip).
Qed.

Definition io_ok (n : Z) (res : ioret) : Prop := match res with IoVal v _ => v ≤ n | IoSleep i => Z.of_nat i ≤ n end.

(** The time stamps after a transfer. *)
Lemma maybe_touch_ok L F k r ip m a v : files_ok None L F k → node r k = Some ip → itype ip ≠ 0 →
  ∃ k', (if 0 <? v then node_touch r m a k else mret k) = Done k' ∧ files_ok None L F k' ∧ shape k k'.
Proof.
  intros Hok Hn Ht. destruct (0 <? v); [|by exists k]. destruct (node_touch_ok None L F k r ip m a Hok Hn Ht) as (ip' & -> & Hlike & _ & Hok').
  eexists. split; [done|]. split; [done|]. apply (shape_node r ip); [done|apply Hlike].
Qed.

Lemma set_pipe_same r ip k : node r k = Some ip → set_pipe r (i_pipe ip) k = Done k.
Proof.
  intros Hn. unfold set_pipe. rewrite (upd_node_run r _ k ip Hn). assert (with_ops (i_pipe ip) (i_op ip) ip = ip) as -> by by destruct ip. f_equal.
  destruct r as [i|i]; cbn in *; unfold set_inode, with_inodes, with_fs, with_pipes; rewrite list_insert_id by done; by destruct k as [[]].
Qed.

Lemma pipe_read_ok L F k r ip n : files_ok None L F k → node r k = Some ip → itype ip = T_FIFO → 0 ≤ n →
  ∃ res k', ('(pi, res, w) ← pipe_read (i_pipe ip) true n false;
      k ← set_pipe r pi k;
      let k := emit_if w (WakeWriters r) k in
      match res with
      | RSleep => mret (IoSleep 0, k)
      | RRet v l => k ← (if 0 <? v then node_touch r false true k else mret k); mret (IoVal v l, k)
      end) = Done (res, k') ∧ files_ok None L F k' ∧ shape k k' ∧ io_ok n res ∧ (∀ i, res = IoSleep i → is_Some (i_pipe ip)).
Proof.
  intros Hok Hn Ht Hnn. destruct (i_pipe ip) as [pi|] eqn:Hp; cycle 1.
  { cbn [pipe_read]. run. rewrite <- Hp, (set_pipe_same r ip k Hn). run. eexists _, _. split; [done|]. split_and!; try done; cbn; lia. }
  destruct (pipe_read_safe pi n (fo_safe _ _ _ _ Hok r ip pi Hn Ht Hp) Hnn) as (pi' & res & w & -> & Hs & He & Hres). run.
  destruct (set_pipe_ok L F k r ip pi pi' Hok Hn Ht Hp Hs He) as (ip' & -> & Hok1 & Ht' & Hp'). run.
  set (k1 := emit_if w (WakeWriters r) (set_node r ip' k)). assert (files_ok None L F k1) as Hok2 by by apply emit_if_ok.
  assert (shape k k1) as Hsh by (transitivity (set_node r ip' k); [apply (shape_node r ip); congruence|apply shape_emit]).
  destruct res as [v l|]; cycle 1. { eexists _, _. split; [done|]. split_and!; try done. }
  assert (node r k1 = Some ip') as Hn1 by (unfold k1; rewrite node_emit; by eapply node_set_eq).
  destruct (maybe_touch_ok L F k1 r ip' false true v Hok2 Hn1 ltac:(by rewrite Ht')) as (k2 & -> & Hok3 & Hsh2). run.
  eexists _, _. split; [done|]. split; [done|]. split; [by transitivity k1|]. split; [|done]. cbn. destruct Hres as [[-> _]|[-> ?]]; lia.
Qed.

Lemma pipe_written_ok me L F k r ip pi pi' res w len : files_ok None L F k → node r k = Some ip → itype ip = T_FIFO → i_pipe ip = Some pi →
  pipe_safe pi' → same_ends pi pi' → wres_ok len res →
  ∃ res' k', pipe_written me r (Some pi') res w k = Done (res', k') ∧ files_ok None L F k' ∧ shape k k' ∧ io_ok (Z.of_nat len) res' ∧
    (∀ i, res' = IoSleep i → (i ≤ len)%nat ∧ ∃ ip', node r k' = Some ip' ∧ itype ip' = T_FIFO ∧ is_Some (i_pipe ip')).
Proof.
  intros Hok Hn Ht Hp Hs He Hres. unfold pipe_written. destruct (set_pipe_ok L F k r ip pi pi' Hok Hn Ht Hp Hs He) as (ip' & -> & Hok1 & Ht' & Hp'). run.
  set (k1 := emit_if w (WakeReaders r) (set_node r ip' k)). assert (files_ok None L F k1) as Hok2 by by apply emit_if_ok.
  assert (shape k k1) as Hsh by (transitivity (set_node r ip' k); [apply (shape_node r ip); congruence|apply shape_emit]).
  assert (node r k1 = Some ip') as Hn1 by (unfold k1; rewrite node_emit; by eapply node_set_eq).
  destruct res as [v sp|i]; cycle 1. { eexists _, _. split; [done|]. split_and!; try done; cbn in *; [lia|]. intros j [= <-]. split; [done|]. exists ip'. split_and!; [done..|by eexists]. }
  cbn zeta. destruct (maybe_touch_ok L F (emit_if sp (SigPipe me) k1) r ip' true false v) as (k2 & -> & Hok3 & Hsh2);
    [by apply emit_if_ok|by rewrite node_emit|by rewrite Ht'|]. run. eexists _, _. split; [done|]. split; [done|].
  split; [|split; [cbn in *; lia|done]]. transitivity k1; [done|]. transitivity (emit_if sp (SigPipe me) k1); [apply shape_emit|done].
Qed.

Lemma shape_fs s k : kinds (fs k) s → shape k (with_fs s k).
Proof. intros Hk. apply shape_table; try done. intros [i|i] ip Hr; [by apply Hk|by exists ip]. Qed.

Lemma not_pipe_ops X L F k i ip : files_ok X L F k → inodes (fs k) !! i = Some ip → itype ip ≠ 0 → i_op ip ≠ Some pipe_iops → i_op ip = Some ramfs_iops.
Proof. intros Hok Hi Ht Ho. destruct (no_live _ (vo_node _ _ _ (fo_fs _ _ _ _ Hok) i ip Hi) Ht) as [_ (o & Eo & _)]. destruct o; congruence. Qed.

Lemma node_readi_ok L F k r ip off n : files_ok None L F k → node r k = Some ip → itype ip ≠ 0 → 0 ≤ off → 0 ≤ n < 2 ^ 31 →
  ∃ res k', node_readi r off n k = Done (res, k') ∧ files_ok None L F k' ∧ shape k k' ∧ io_ok n res.
Proof.
  intros Hok Hn Ht Hoff Hnn. unfold node_readi. rewrite Hn. cbn [deref]. run.
  destruct (decide (i_op ip = Some pipe_iops)) as [Ho|Ho].
  { rewrite Ho. destruct (pipe_read_ok L F k r ip n Hok Hn (pipe_ops_fifo _ _ _ _ _ _ Hok Hn Ht Ho) ltac:(lia)) as (res & k' & E & ? & ? & ? & _).
    eexists _, _. split; [exact E|done]. }
  destruct r as [i|i]; cycle 1. { destruct (fo_pnode _ _ _ _ Hok i ip Hn) as [[_ Hl] _]. by destruct (Hl Ht) as (_ & _ & ? & _). }
  rewrite (not_pipe_ops _ _ _ _ _ _ Hok Hn Ht Ho).
  destruct (fs_readi_any _ (fs k) i ip off n (fo_fs _ _ _ _ Hok) Hn Ht Ho (fo_size _ _ _ _ Hok i ip Hn) Hoff Hnn) as (l & s' & Hrun & Hv & Hc & Hk & Hl).
  pose proof (fs_readi_pipes i off n (fs k) _ Hrun) as Hp. rewrite Hrun. run.
  assert (files_ok None L F (with_fs s' k)) as Hok' by (apply (with_fs_ok None L L F k s' Hok Hv Hc Hp); [apply Hok|done]).
  destruct l as [l|]; eexists _, _; (split; [done|]); (split; [done|]); (split; [by apply shape_fs|]); cbn; [by apply Hl|lia].
Qed.

(** ** Writing *)

(** Any inode that is not a regular file of ramfs refuses to be written. *)
Lemma fs_writei_not H' s i ip src off : vfs_ok None H' s → inodes s !! i = Some ip → itype ip ≠ T_FILE → i_op ip = Some ramfs_iops →
  fs_writei i src off s = Done (IoRet (-1), s).
Proof.
  intros Hok Hi Ht Ho. unfold fs_writei, ramfs_write. rewrite (get_inode_ok s i ip Hi). run. rewrite Ho. rewrite (proj2 (Z.eqb_neq _ _)) by done. by run.
Qed.

Lemma data_set_quiet i ip ip' s s' : inodes s !! i = Some ip → itype ip ≠ T_FIFO → data_set i ip' s s' → quiet s s'.
Proof. intros Hi Ht [(h & b & ->) _ Hs]. destruct (Hs ip Hi) as (_ & Et & _). by apply (quiet_set s i ip). Qed.

Lemma heap_quiet h b s : quiet s (with_heap h b s).
Proof. intros j jp jp' Hj Hj' _ _. cbn in Hj'. rewrite Hj in Hj'. by injection Hj' as <-. Qed.

(** A write of a regular file. *)
Lemma file_writei_ok L F k i ip off src : files_ok None L F k → inodes (fs k) !! i = Some ip → itype ip = T_FILE →
  0 ≤ off → src ≠ [] → bytes src → off + Z.of_nat (length src) ≤ KMALLOC_MAX →
  ∃ v s' ip', fs_writei i src off (fs k) = Done (IoRet v, s') ∧ files_ok None L F (with_fs s' k) ∧ kinds (fs k) s' ∧ v ≤ Z.of_nat (length src) ∧
    inodes s' !! i = Some ip' ∧ itype ip' = T_FILE ∧ (v = -1 ∧ size ip' = size ip ∨ v = Z.of_nat (length src) ∧ size ip' ≤ Z.max (size ip) (off + v)).
Proof.
  intros Hok Hi Ht Ho Hs Hb Hl. destruct (writei_ok _ (fs k) i ip off src (fo_fs _ _ _ _ Hok) Hi Ht Ho Hs Hb Hl) as (v & s' & Hrun & Hv & Hres).
  pose proof (fs_writei_pipes i src off (fs k) _ Hrun) as Hp. destruct Hres as [(-> & h & b & ->)|(-> & ip' & Hds & Hc & Hsz)].
  - exists (-1), (with_heap h b (fs k)), ip. split; [done|]. split; [|split_and!; try done; [intros j jp Hj; by exists jp|lia|by left]].
    apply (with_fs_ok None L L F k _ Hok Hv (heap_quiet h b _) Hp); [apply Hok|done].
  - exists (Z.of_nat (length src)), s', ip'. split; [done|]. assert (quiet (fs k) s') as Hcalm by (apply (data_set_quiet i ip ip' _ _ Hi); [by rewrite Ht|done]).
    split; [apply (with_fs_ok None L L F k _ Hok Hv Hcalm Hp); [apply Hok|done]|].
    destruct Hds as [(h & b & ->) Hn Hsame]. destruct (Hsame ip Hi) as (_ & Et & _). split; [by apply (kinds_set (fs k) i ip)|]. split; [lia|]. split; [by eapply insert_at|]. split; [congruence|]. right. split; [done|lia].
Qed.
Definition fifo_there k r : Prop := ∃ ip, node r k = Some ip ∧ itype ip = T_FIFO ∧ is_Some (i_pipe ip).

Lemma fifo_writei_ok me L F k r ip off src : files_ok None L F k → node r k = Some ip → itype ip = T_FIFO →
  ∃ res k', node_writei me r src off k = Done (res, k') ∧ files_ok None L F k' ∧ shape k k' ∧ io_ok (Z.of_nat (length src)) res ∧
    (∀ i, res = IoSleep i → (i ≤ length src)%nat ∧ fifo_there k' r).
Proof.
  intros Hok Hn Ht. assert (itype ip ≠ 0) as Hl by by rewrite Ht. unfold node_writei. rewrite Hn. cbn [deref]. run.
  destruct (decide (i_op ip = Some pipe_iops)) as [Ho|Ho].
  { rewrite Ho. destruct (i_pipe ip) as [pi|] eqn:Hp.
    - destruct (pipe_write_safe src pi (fo_safe _ _ _ _ Hok r ip pi Hn Ht Hp)) as (pi' & res & w & -> & Hs & He & Hres).
      apply (pipe_written_ok me L F k r ip pi pi' res w _ Hok Hn Ht Hp Hs He Hres).
    - cbn. unfold pipe_written. rewrite <- Hp, (set_pipe_same r ip k Hn). run. eexists _, _. split; [done|]. split_and!; try done. cbn. lia. }
  destruct r as [i|i]; cycle 1. { destruct (fo_pnode _ _ _ _ Hok i ip Hn) as [[_ Hl'] _]. by destruct (Hl' Hl) as (_ & _ & ? & _). }
  pose proof (not_pipe_ops _ _ _ _ _ _ Hok Hn Hl Ho) as Ho'. rewrite Ho', (fs_writei_not _ (fs k) i ip src off (fo_fs _ _ _ _ Hok) Hn) by (by rewrite ?Ht).
  run. rewrite with_fs_id. eexists _, _. split; [done|]. split_and!; try done. cbn. lia.
Qed.

Lemma resume_ok me L F k r src i : files_ok None L F k → fifo_there k r → (i ≤ length src)%nat →
  ∃ res k', node_writei_resume me r src i k = Done (res, k') ∧ files_ok None L F k' ∧ shape k k' ∧ io_ok (Z.of_nat (length src)) res ∧
    (∀ i, res = IoSleep i → (i ≤ length src)%nat ∧ fifo_there k' r).
Proof.
  intros Hok (ip & Hn & Ht & pi & Hp) Hi. unfold node_writei_resume. rewrite Hn. cbn [deref]. run. rewrite Hp. cbn [deref]. run.
  destruct (pipe_write_section_safe src i pi (fo_safe _ _ _ _ Hok r ip pi Hn Ht Hp) Hi) as (pi' & res & w & -> & Hs & He & Hres).
  apply (pipe_written_ok me L F k r ip pi pi' res w _ Hok Hn Ht Hp Hs He Hres).
Qed.

(** [need] more bytes fit into the file where the next ones go. *)
Definition room k f (need : Z) : Prop := ∀ fl r ip, ftable k !! f = Some fl → f_ip fl = Some r → node r k = Some ip → itype ip = T_FILE →
  Z.max (f_off fl) (size ip) + need ≤ KMALLOC_MAX.

(** What a transfer leaves. *)
Lemma advance_ok L F k f fl res : files_ok None L F k → ftable k !! f = Some fl →
  ∃ k', advance f res k = Done k' ∧ files_ok None L F k' ∧ shape k k' ∧ (∀ r, node r k' = node r k) ∧
    ∃ fl', ftable k' !! f = Some fl' ∧ f_ip fl' = f_ip fl ∧ f_off fl' = match res with IoVal v _ => if 0 <? v then u32 (f_off fl + v) else f_off fl | IoSleep _ => f_off fl end.
Proof.
  intros Hok Hf. unfold advance. destruct res as [v l|i]; [|eexists; split; [done|]; split_and!; try done; by exists fl].
  destruct (0 <? v); [|eexists; split; [done|]; split_and!; try done; by exists fl].
  unfold upd_file, get_file. rewrite Hf. cbn [deref]. run. eexists. split; [done|]. split; [apply (set_off_ok None L F k f fl _ Hok Hf), u32_range|].
  split; [by apply shape_off|]. split; [by intros []|]. eexists. split; [by eapply insert_at|]. done.
Qed.
(** ** Block devices *)

Lemma mod_part off want : 0 <= off → 0 < want → let chunk := Z.min (BLOCK_SECTOR_SIZE - off mod BLOCK_SECTOR_SIZE) want in
  0 < chunk ≤ want ∧ off mod BLOCK_SECTOR_SIZE + chunk ≤ BLOCK_SECTOR_SIZE ∧ (chunk = want ∨ (off + chunk) mod BLOCK_SECTOR_SIZE = 0) ∧
  (off mod BLOCK_SECTOR_SIZE = 0 → chunk = want ∨ chunk = BLOCK_SECTOR_SIZE).
Proof.
  intros Ho Hw. cbn zeta. unfold BLOCK_SECTOR_SIZE. pose proof (Z.mod_pos_bound off 512 ltac:(lia)). split; [lia|]. split; [lia|]. split; [|lia].
  destruct (Z.min_spec (512 - off mod 512) want) as [[_ ->]|[_ ->]]; [|by left]. right. rewrite (Z.div_mod off 512) at 1 by lia.
  replace (512 * (off / 512) + off mod 512 + (512 - off mod 512)) with ((off / 512 + 1) * 512) by lia. apply Z.mod_mul. lia.
Qed.

Lemma read_part_ok rdev off want (d d' : D) l : 0 ≤ off → 0 < want → blk_read_part rdev off want d = (Some l, d') →
  Z.of_nat (length l) = Z.min (BLOCK_SECTOR_SIZE - off mod BLOCK_SECTOR_SIZE) want.
Proof.
  intros Ho Hw. unfold blk_read_part. destruct (blk_read_sect _ _ _) as [[sect|] d1] eqn:E; [|done]. intros [= <- <-]. pose proof (blk_read_law _ _ _ _ _ E) as Hl.
  destruct (mod_part off want Ho Hw) as (? & ? & _). pose proof (Z.mod_pos_bound off BLOCK_SECTOR_SIZE ltac:(done)). rewrite length_take, length_drop. lia.
Qed.

Lemma u32_sector x : u32 x mod BLOCK_SECTOR_SIZE = x mod BLOCK_SECTOR_SIZE.
Proof. unfold u32, BLOCK_SECTOR_SIZE. change (2 ^ 32) with (512 * 2 ^ 23). rewrite Z.rem_mul_r by done. rewrite Z.mul_comm, Z.mod_add by done. by apply Z.mod_mod. Qed.

(** From a sector boundary the loop takes as many rounds as there are sectors. *)
Lemma blk_read_rounds rdev cap n fuel : ∀ off done (d : D), 0 ≤ off → Z.of_nat (length done) ≤ n →
  (off mod BLOCK_SECTOR_SIZE = 0 → n - Z.of_nat (length done) ≤ BLOCK_SECTOR_SIZE * Z.of_nat fuel) →
  (off mod BLOCK_SECTOR_SIZE ≠ 0 → n = Z.of_nat (length done) ∨ n - Z.of_nat (length done) ≤ BLOCK_SECTOR_SIZE * (Z.of_nat fuel - 1)) →
  ∃ v l o d', blk_read_loop (S fuel) rdev cap off n done d = Done (v, l, o, d') ∧ v ≤ n.
Proof.
  induction fuel as [|fuel IH]; intros off dn d Ho Hle Ha Hu; cbn [blk_read_loop].
  { destruct (Z.leb_spec n (Z.of_nat (length dn))); [|unfold BLOCK_SECTOR_SIZE in *; lia]. eexists _, _, _, _. split; [done|lia]. }
  destruct (Z.leb_spec n (Z.of_nat (length dn))); [eexists _, _, _, _; split; [done|lia]|].
  destruct (_ <=? _); [eexists _, _, _, _; split; [done|lia]|].
  destruct (blk_read_part _ _ _ _) as [[part|] d1] eqn:E; cycle 1. { eexists _, _, _, _. split; [done|]. destruct (_ =? 0); lia. }
  pose proof (read_part_ok rdev off (n - Z.of_nat (length dn)) d d1 part ltac:(lia) ltac:(lia) E) as Hp. destruct (mod_part off (n - Z.of_nat (length dn)) ltac:(lia) ltac:(lia)) as (P1 & P2 & P3 & P4).
  rewrite <- Hp in P1, P2, P3, P4. apply (IH (u32 (off + Z.of_nat (length part))) (dn ++ part) d1); [apply u32_range|rewrite length_app; lia|..]; rewrite u32_sector;
    intros Hm; rewrite length_app, Nat2Z.inj_add; unfold BLOCK_SECTOR_SIZE in *; lia.
Qed.
Lemma write_part_ok rdev off src (d d' : D) c : 0 ≤ off → src ≠ [] → blk_write_part rdev off src d = (Some c, d') →
  c = Z.min (BLOCK_SECTOR_SIZE - off mod BLOCK_SECTOR_SIZE) (Z.of_nat (length src)).
Proof.
  intros Ho Hw. unfold blk_write_part. destruct (_ || _).
  - destruct (blk_read_sect _ _ _) as [[sect|] d1]; [|done]. destruct (blk_write_sect _ _ _ _) as [[] d2]; [|done]. by intros [= <- _].
  - destruct (blk_write_sect _ _ _ _) as [[] d2]; [|done]. by intros [= <- _].
Qed.

Lemma blk_write_rounds rdev cap fuel : ∀ off src did (d : D), 0 ≤ off → 0 ≤ did →
  (off mod BLOCK_SECTOR_SIZE = 0 → Z.of_nat (length src) ≤ BLOCK_SECTOR_SIZE * Z.of_nat fuel) →
  (off mod BLOCK_SECTOR_SIZE ≠ 0 → src = [] ∨ Z.of_nat (length src) ≤ BLOCK_SECTOR_SIZE * (Z.of_nat fuel - 1)) →
  ∃ v o d', blk_write_loop (S fuel) rdev cap off src did d = Done (v, o, d') ∧ v ≤ did + Z.of_nat (length src).
Proof.
  induction fuel as [|fuel IH]; intros off src did d Ho Hle Ha Hu; cbn [blk_write_loop].
  { assert (src = []) as ->; [|eexists _, _, _; split; [done|cbn; lia]].
    destruct (decide (off mod BLOCK_SECTOR_SIZE = 0)) as [E|E]; [specialize (Ha E); destruct src; [done|cbn in Ha; lia]|].
    destruct (Hu E) as [|Hn]; [done|unfold BLOCK_SECTOR_SIZE in Hn; lia]. }
  case_bool_decide as Hs; [eexists _, _, _; split; [done|lia]|].
  destruct (_ <=? _); [eexists _, _, _; split; [done|lia]|].
  destruct (blk_write_part _ _ _ _) as [[c|] d1] eqn:E; cycle 1. { eexists _, _, _. split; [done|]. destruct (_ =? 0); lia. }
  assert (0 < length src)%nat as Hpos by (destruct src; [done|cbn; lia]).
  pose proof (write_part_ok rdev off src d d1 c ltac:(lia) Hs E) as Hp. destruct (mod_part off (Z.of_nat (length src)) ltac:(lia) ltac:(lia)) as (P1 & P2 & P3 & P4).
  rewrite <- Hp in P1, P2, P3, P4. assert (length (drop (Z.to_nat c) src) = (length src - Z.to_nat c)%nat) as Hd by apply length_drop.
  destruct (IH (u32 (off + c)) (drop (Z.to_nat c) src) (did + c) d1) as (v & o & d' & Hrun & Hv); rewrite ?u32_sector; [apply u32_range|lia|..].
  - intros Hm. rewrite Hd. destruct (decide (off mod BLOCK_SECTOR_SIZE = 0)) as [Ea|Ea]; [|destruct (Hu Ea); [done|]]; unfold BLOCK_SECTOR_SIZE in *; lia.
  - intros Hm. destruct P3 as [->|]; [left; apply drop_ge; lia|done].
  - eexists _, _, _. split; [exact Hrun|]. rewrite Hd in Hv. lia.
Qed.

Lemma blk_fuel_enough n : 0 ≤ n → ∃ fuel, blk_fuel n = S fuel ∧ n ≤ BLOCK_SECTOR_SIZE * (Z.of_nat fuel - 1).
Proof.
  intros Hn. exists (Z.to_nat (n / BLOCK_SECTOR_SIZE) + 2)%nat. unfold blk_fuel. split; [lia|]. pose proof (Z.div_mod n BLOCK_SECTOR_SIZE ltac:(done)).
  pose proof (Z.mod_pos_bound n BLOCK_SECTOR_SIZE ltac:(done)). pose proof (Z.div_pos n BLOCK_SECTOR_SIZE ltac:(lia) ltac:(done)). unfold BLOCK_SECTOR_SIZE in *. lia.
Qed.

Lemma blk_stored L F k f fl o d : files_ok None L F k → ftable k !! f = Some fl →
  ∃ k', store_off f o (with_devs d k) = Done k' ∧ files_ok None L F k' ∧ shape k k' ∧ (∀ r, node r k' = node r k).
Proof.
  intros Hok Hf. pose proof (with_devs_ok None L F k d Hok) as Hok'. unfold store_off. destruct o as [o|]; cycle 1.
  { eexists. split; [done|]. split; [done|]. split; [apply shape_same; try done; by intros []|by intros []]. }
  unfold upd_file, get_file. change (ftable (with_devs d k)) with (ftable k). rewrite Hf. cbn [deref]. run. eexists. split; [done|].
  split; [by apply set_off_ok; [..|apply u32_range]|]. split; [|by intros []].
  transitivity (with_devs d k); [apply shape_same; try done; by intros []|by apply shape_off].
Qed.
(** ** Files *)

(** A file that is open, of any kind. *)
Lemma file_node L F k f fl r : files_ok None L F k → ftable k !! f = Some fl → f_ip fl = Some r →
  ∃ ip, node r k = Some ip ∧ itype ip ≠ 0 ∧ f_type fl = open_type ip.
Proof. intros Hok Hf Hr. by apply (fw_node _ _ (proj1 (fo_file _ _ _ _ Hok f fl Hf))). Qed.

Lemma fileread_ok L F k f fl n : files_ok None L F k → ftable k !! f = Some fl → 0 ≤ n < 2 ^ 31 →
  ∃ res k', fileread f n k = Done (res, k') ∧ files_ok None L F k' ∧ shape k k' ∧ io_ok n res.
Proof.
  intros Hok Hf Hn. unfold fileread, get_file. rewrite Hf. cbn [deref]. run.
  assert (∃ res k', Done (IoVal (-1) [], k) = Done (res, k') ∧ files_ok None L F k' ∧ shape k k' ∧ io_ok n res) as Hfail
    by (eexists _, _; split; [done|]; split_and!; try done; cbn; lia).
  destruct (_ || _); [done|]. destruct (fo_file _ _ _ _ Hok f fl Hf) as [Hw _]. pose proof (fw_off _ _ Hw) as Hoff. destruct (f_ip fl) as [r|] eqn:Hr; cycle 1.
  { rewrite (proj2 (fw_none _ _ Hw) Hr). done. }
  destruct (file_node L F k f fl r Hok Hf Hr) as (ip & Hip & Ht & Hty). destruct (f_type fl) eqn:Et; [done|..].
  - rewrite Hip. cbn [deref]. run. destruct (itype ip =? T_FIFO); [by apply (node_readi_ok L F k r ip)|].
    destruct (node_readi_ok L F k r ip (f_off fl) n Hok Hip Ht ltac:(lia) Hn) as (res & k1 & -> & Hok1 & Hsh & Hio). run.
    destruct (sh_file _ _ Hsh f fl Hf) as (fl1 & Hf1 & _). destruct (advance_ok L F k1 f fl1 res Hok1 Hf1) as (k2 & -> & Hok2 & Hsh2 & _). run.
    eexists _, _. split; [done|]. split; [done|]. split; [by transitivity k1|done].
  - unfold file_char_read, get_file. rewrite Hf. cbn [deref]. run. rewrite Hr, Hip. cbn [deref]. run. destruct (chr_read _ _ _) as [[[v l] d]|] eqn:E; [|done].
    eexists _, _. split; [done|]. split; [by apply with_devs_ok|]. split; [apply shape_same; try done; by intros []|]. cbn. apply (chr_read_law _ _ _ _ _ _ E). lia.
  - unfold file_blk_read, get_file. rewrite Hf. cbn [deref]. run. rewrite Hr, Hip. cbn [deref]. run. destruct (blk_capacity _ _) as [cap|]; [|done].
    destruct (blk_fuel_enough n ltac:(lia)) as (fuel & -> & Hfu).
    destruct (blk_read_rounds (rdev ip) cap n fuel (f_off fl) [] (devs k)) as (v & l & o & d & -> & Hv); [lia|cbn; lia|cbn [length]; unfold BLOCK_SECTOR_SIZE in *; lia..|].
    run. destruct (blk_stored L F k f fl o d Hok Hf) as (k1 & -> & Hok1 & Hsh & _). run. by eexists _, _.
Qed.

(** The write of a regular file through [f], from where it is or the end. *)
Lemma regular_write_ok me L F k f fl i ip off src : files_ok None L F k → ftable k !! f = Some fl → f_ip fl = Some (Ino i) → inodes (fs k) !! i = Some ip → itype ip = T_FILE →
  0 ≤ off ≤ Z.max (f_off fl) (size ip) → src ≠ [] → bytes src → off + Z.of_nat (length src) ≤ KMALLOC_MAX →
  ∃ v k', ('(res, k) ← node_writei me (Ino i) src off (set_file f (with_off off fl) k); k ← advance f res k; mret (res, k)) = Done (IoVal v [], k') ∧
    files_ok None L F k' ∧ shape k k' ∧ v ≤ Z.of_nat (length src) ∧ (∀ need, 0 ≤ v → room k f need → room k' f (need - v)).
Proof.
  intros Hok Hf Hr Hip Ht Ho Hs Hb Hl. assert (KMALLOC_MAX < 2 ^ 32) by by vm_compute. pose proof (shape_off f fl off k Hf) as Hsh.
  pose proof (set_off_ok None L F k f fl off Hok Hf ltac:(lia)) as Hok1. set (k1 := set_file f (with_off off fl) k) in *.
  assert (ftable k1 !! f = Some (with_off off fl)) as Hf1 by by eapply insert_at.
  unfold node_writei. change (node (Ino i) k1) with (inodes (fs k) !! i). rewrite Hip. cbn [deref]. run.
  rewrite (file_ops ip (vo_node _ _ _ (fo_fs _ _ _ _ Hok) i ip Hip) Ht).
  destruct (file_writei_ok L F k1 i ip off src Hok1 Hip Ht ltac:(lia) Hs Hb Hl) as (v & s' & ip' & -> & Hok2 & Hkinds & Hv & Hip' & Ht' & Hsz). run.
  destruct (advance_ok L F (with_fs s' k1) f _ (IoVal v []) Hok2 Hf1) as (k2 & -> & Hok3 & Hsh2 & Hnode & fl2 & Hf2 & Hip2 & Hoff2). run.
  eexists _, _. split; [done|]. split; [done|]. split; [transitivity k1; [done|transitivity (with_fs s' k1); [by apply shape_fs|done]]|]. split; [done|].
  intros need Hv0 Hroom gl r jp Hg Hgr Hjp Htj. rewrite Hf2 in Hg. injection Hg as <-. rewrite Hip2 in Hgr. cbn in Hgr. rewrite Hr in Hgr. injection Hgr as <-.
  rewrite Hnode in Hjp. cbn in Hjp. rewrite Hip' in Hjp. injection Hjp as <-. specialize (Hroom fl (Ino i) ip Hf Hr Hip Ht).
  destruct Hsz as [[-> _]|[-> Hsz]]; [lia|]. rewrite Hoff2. cbn [f_off with_off]. destruct (0 <? _) eqn:E; [rewrite u32_small by lia|]; lia.
Qed.
Lemma other_writei me L F k r ip off src : files_ok None L F k → node r k = Some ip → itype ip ≠ 0 → itype ip ≠ T_FILE → itype ip ≠ T_FIFO →
  node_writei me r src off k = Done (IoVal (-1) [], k).
Proof.
  intros Hok Hn Hl Ht Hf. unfold node_writei. rewrite Hn. cbn [deref]. run. assert (i_op ip ≠ Some pipe_iops) as Ho
    by (intros Ho; by apply Hf, (pipe_ops_fifo _ _ _ _ _ _ Hok Hn Hl)).
  destruct r as [i|i]; cycle 1. { destruct (fo_pnode _ _ _ _ Hok i ip Hn) as [[_ Hl'] _]. by destruct (Hl' Hl) as (? & _). }
  pose proof (not_pipe_ops _ _ _ _ _ _ Hok Hn Hl Ho) as Ho'. rewrite Ho', (fs_writei_not _ (fs k) i ip src off (fo_fs _ _ _ _ Hok) Hn) by done.
  run. by destruct k.
Qed.

(** A sleeping writer waits in a FIFO, and then the limit on files is of no
    concern. *)
Record written (f len : nat) k k' (res : ioret) : Prop := {
  wr_len : io_ok (Z.of_nat len) res;
  wr_sleep i : res = IoSleep i → (i ≤ len)%nat ∧ ∃ fl r, ftable k' !! f = Some fl ∧ f_ip fl = Some r ∧ fifo_there k' r;
  wr_room need v l : res = IoVal v l → 0 ≤ v → room k f need → room k' f (need - v)
}.

Lemma fifo_room k f fl r need : ftable k !! f = Some fl → f_ip fl = Some r → (∃ ip, node r k = Some ip ∧ itype ip ≠ T_FILE) → room k f need.
Proof. intros Hf Hr (ip & Hip & Ht) gl r' jp Hg Hgr Hjp Htj. rewrite Hf in Hg. injection Hg as <-. rewrite Hr in Hgr. injection Hgr as <-. congruence. Qed.

Lemma room_same k k' f need : (∀ fl, ftable k' !! f = Some fl → ∃ fl0, ftable k !! f = Some fl0 ∧ f_ip fl0 = f_ip fl ∧ f_off fl0 = f_off fl) → (∀ r, node r k' = node r k) →
  ∀ v, 0 ≤ v → room k f need → room k' f (need - v).
Proof.
  intros Hf Hn v Hv Hroom fl r ip Hfl Hr Hip Ht. destruct (Hf fl Hfl) as (fl0 & Hf0 & E1 & E2). rewrite Hn in Hip. specialize (Hroom fl0 r ip Hf0 ltac:(congruence) Hip Ht). lia.
Qed.

(** A file that is not a regular one does not become one. *)
Lemma shape_room k k' f fl r ip : shape k k' → ftable k !! f = Some fl → f_ip fl = Some r → node r k = Some ip → itype ip ≠ T_FILE → ∀ need, room k' f need.
Proof.
  intros Hsh Hf Hr Hip Hne need. destruct (sh_file _ _ Hsh f fl Hf) as (fl' & Hf' & Er & _). destruct (sh_node _ _ Hsh r ip Hip) as (ip' & Hip' & Et).
  apply (fifo_room k' f fl' r); [done|congruence|]. exists ip'. by rewrite Et.
Qed.

Lemma filewrite_ok me L F k f fl src : files_ok None L F k → ftable k !! f = Some fl → src ≠ [] → bytes src → room k f (Z.of_nat (length src)) →
  ∃ res k', filewrite me f src k = Done (res, k') ∧ files_ok None L F k' ∧ shape k k' ∧ written f (length src) k k' res.
Proof.
  intros Hok Hf Hs Hb Hroom. unfold filewrite, get_file. rewrite Hf. cbn [deref]. run.
  assert (∃ res k', Done (IoVal (-1) [], k) = Done (res, k') ∧ files_ok None L F k' ∧ shape k k' ∧ written f (length src) k k' res) as Hfail.
  { eexists _, _. split; [done|]. split_and!; try done. split; [cbn; lia|done|]. intros need v l [= <- <-] ?. lia. }
  destruct (negb _); [done|]. destruct (fo_file _ _ _ _ Hok f fl Hf) as [Hw _]. pose proof (fw_off _ _ Hw) as Hoff. destruct (f_ip fl) as [r|] eqn:Hr; cycle 1.
  { rewrite (proj2 (fw_none _ _ Hw) Hr). done. }
  destruct (file_node L F k f fl r Hok Hf Hr) as (ip & Hip & Ht & Hty). assert (∀ v l k', shape k k' → itype ip ≠ T_FILE → v ≤ Z.of_nat (length src) → written f (length src) k k' (IoVal v l)) as Hval.
  { intros v l k' Hsh Hne Hv. split; [done|done|]. intros need v' l' _ _ _. by apply (shape_room k k' f fl r ip). }
  destruct (f_type fl) eqn:Et; [done|..].
  - rewrite Hip. cbn [deref]. run. destruct (Z.eqb_spec (itype ip) T_FIFO) as [Hfifo|Hnf].
    { destruct (fifo_writei_ok me L F k r ip 0 src Hok Hip Hfifo) as (res & k' & -> & Hok' & Hsh & Hio & Hsl). eexists _, _. split; [done|]. split; [done|]. split; [done|].
      split; [done| |]; [|intros need v l _ _ _; apply (shape_room k k' f fl r ip); try done; by rewrite Hfifo].
      intros i Hi. destruct (Hsl i Hi) as [Hle Hth]. destruct (sh_file _ _ Hsh f fl Hf) as (fl' & Hf' & Er & _). split; [done|]. exists fl', r. split_and!; [done|congruence|done]. }
    cbn zeta. destruct (decide (itype ip = T_FILE)) as [Hfile|Hne].
    + rewrite Hfile, Z.eqb_refl, andb_true_r. destruct r as [i|i]; [|destruct (fo_pnode _ _ _ _ Hok i ip Hip) as [[_ Hl] _]; by destruct (Hl Ht) as (? & _)].
      pose proof (no_size _ (vo_node _ _ _ (fo_fs _ _ _ _ Hok) i ip Hip)) as Hsz. specialize (Hroom fl (Ino i) ip Hf Hr Hip Hfile).
      edestruct (regular_write_ok me L F k f fl i ip (if has (f_flags fl) O_APPEND then size ip else f_off fl) src) as (v & k' & -> & Hok' & Hsh & Hv & Hro); try done;
        [destruct (has _ _); lia..|]. eexists _, _. split; [done|]. split; [done|]. split; [done|]. split; [done|done|]. intros need v' l [= <- <-]. apply Hro.
    + rewrite (proj2 (Z.eqb_neq _ _) Hne), andb_false_r. assert (with_off (f_off fl) fl = fl) as -> by by destruct fl.
      assert (set_file f fl k = k) as -> by (unfold set_file; rewrite list_insert_id by done; by destruct k).
      rewrite (other_writei me L F k r ip _ src Hok Hip Ht Hne Hnf). run. cbn. done.
  - unfold file_char_write, get_file. rewrite Hf. cbn [deref]. run. rewrite Hr, Hip. cbn [deref]. run. destruct (chr_write _ _ _) as [[v d]|] eqn:E; [|done].
    assert (shape k (with_devs d k)) as Hsh by (apply shape_same; try done; by intros []).
    eexists _, _. split; [done|]. split; [by apply with_devs_ok|]. split; [done|]. apply Hval; [done| |by apply (chr_write_law _ _ _ _ _ E)].
    intros Hfile. unfold open_type in Hty. by rewrite Hfile in Hty.
  - unfold file_blk_write, get_file. rewrite Hf. cbn [deref]. run. rewrite Hr, Hip. cbn [deref]. run. destruct (blk_capacity _ _) as [cap|]; [|done].
    destruct (blk_fuel_enough (Z.of_nat (length src)) ltac:(lia)) as (fuel & -> & Hfu).
    destruct (blk_write_rounds (rdev ip) cap fuel (f_off fl) src 0 (devs k)) as (v & o & d & -> & Hv); [lia|lia|unfold BLOCK_SECTOR_SIZE in *; lia|intros _; by right|].
    run. destruct (blk_stored L F k f fl o d Hok Hf) as (k1 & -> & Hok1 & Hsh & _). run. eexists _, _. split; [done|]. split; [done|]. split; [done|].
    apply Hval; [done| |lia]. intros Hfile. unfold open_type in Hty. by rewrite Hfile in Hty.
Qed.
(** ** The loops of read and write *)

(** What a call may change of the rest of the system. *)
Record calls k k' : Prop := {
  ca_tasks : tasks k' = tasks k;
  ca_file f fl : ftable k !! f = Some fl → ∃ fl', ftable k' !! f = Some fl' ∧ f_ip fl' = f_ip fl ∧ f_type fl' = f_type fl;
  ca_node r ip : node r k = Some ip → ∃ ip', node r k' = Some ip' ∧ itype ip' = itype ip
}.
#[global] Instance calls_refl : Reflexive calls.
Proof. intros k. split; try done; [intros f fl Hf; by exists fl|intros r ip Hr; by exists ip]. Qed.
#[global] Instance calls_trans : Transitive calls.
Proof.
  intros a b c [A1 A3 A4] [B1 B3 B4]. split; [congruence..| |].
  - intros f fl Hf. destruct (A3 f fl Hf) as (f1 & Hf1 & ? & ?). destruct (B3 f f1 Hf1) as (f2 & Hf2 & ? & ?). exists f2. split_and!; congruence.
  - intros r ip Hr. destruct (A4 r ip Hr) as (i1 & Hi1 & E1). destruct (B4 r i1 Hi1) as (i2 & Hi2 & E2). exists i2. split; congruence.
Qed.
Lemma shape_calls k k' : shape k k' → calls k k'.
Proof. intros [A1 A2 A3 A4]. split; try done. intros f fl Hf. destruct (A3 f fl Hf) as (fl' & ? & ? & ? & _). by exists fl'. Qed.
Lemma calls_mem m k : calls k (with_mem m k).
Proof. split; [done| |]; [intros f fl Hf; by exists fl|]. intros r ip Hr. exists ip. by destruct r. Qed.

(** What a call of a process [t] sleeps in, if it does. *)
Definition sleep_ok k (t : fproc) (r : sysret) : Prop :=
  match r with Ret _ => True | Block p => pend_ok k (Fproc (ofile t) (fdflags t) p) end.

Lemma is_fifo_ok L F k f fl : files_ok None L F k → ftable k !! f = Some fl → ∃ b, is_fifo f k = Done b.
Proof.
  intros Hok Hf. unfold is_fifo, get_file. rewrite Hf. cbn [deref]. run. destruct (f_ip fl) as [r|] eqn:Hr; [|by eexists].
  destruct (file_node L F k f fl r Hok Hf Hr) as (ip & -> & _). by eexists.
Qed.

Lemma read_loop_ok me t L F f uaddr n rounds : Some f ∈ ofile t → ∀ total k, files_ok None L F k → is_Some (ftable k !! f) → 0 ≤ total ≤ n → n - total ≤ BUF * Z.of_nat rounds →
  ∃ r k', read_loop (S rounds) me f uaddr n total k = Done (r, k') ∧ files_ok None L F k' ∧ calls k k' ∧ sleep_ok k' t r.
Proof.
  intros Hin. induction rounds as [|rounds IH]; intros total k Hok [fl Hf] Hn Hb; cbn [read_loop].
  { rewrite (proj2 (Z.leb_le _ _)) by lia. by eexists _, _. }
  destruct (Z.leb_spec n total); [by eexists _, _|]. assert (0 < Z.min (n - total) BUF ≤ BUF) as Hchunk by (unfold BUF; lia). set (chunk := Z.min _ _) in *.
  destruct (fileread_ok L F k f fl chunk Hok Hf ltac:(unfold BUF in *; lia)) as (res & k1 & -> & Hok1 & Hsh & Hio). run. pose proof (shape_calls _ _ Hsh) as Hca.
  destruct res as [v l|i]; [|by eexists _, _].
  destruct (Z.ltb_spec v 0); [by eexists _, _|]. destruct (Z.eqb_spec v 0); [by eexists _, _|]. cbn in Hio. rewrite (proj2 (Z.ltb_ge _ _)) by lia.
  destruct (copyout_law me (u32 (uaddr + total)) (take (Z.to_nat v) l) (mem k1) (fo_mem _ _ _ _ Hok1)) as (ok & m & -> & Hm). run.
  pose proof (with_mem_ok None L F k1 m Hok1 Hm) as Hok2. assert (calls k (with_mem m k1)) as Hca2 by (etransitivity; [done|apply calls_mem]).
  destruct ok; cbn [negb]; [|by eexists _, _]. destruct (sh_file _ _ Hsh f fl Hf) as (fl1 & Hf1 & _).
  destruct (is_fifo_ok L F (with_mem m k1) f fl1 Hok2 Hf1) as (b & ->). run. destruct (_ || _) eqn:E; [by eexists _, _|].
  apply orb_false_iff in E as [E _]. apply Z.ltb_ge in E. assert (v = chunk) as -> by lia.
  destruct (IH (total + chunk) (with_mem m k1) Hok2 ltac:(by eexists)) as (r & k2 & Hrun & Hok3 & Hca3 & Hres); [unfold chunk, BUF in *; lia..|].
  eexists _, _. split; [exact Hrun|]. split; [done|]. split; [by etransitivity|done].
Qed.

(** After a transfer of [buf] of which [next] is the rest. *)
Lemma wrote_run t L F f uaddr n total buf next res k0 k : Some f ∈ ofile t → files_ok None L F k → calls k0 k → 0 ≤ total → total + Z.of_nat (length buf) ≤ n → buf ≠ [] → bytes buf →
  io_ok (Z.of_nat (length buf)) res →
  (∀ i, res = IoSleep i → (i ≤ length buf)%nat ∧ ∃ fl r, ftable k !! f = Some fl ∧ f_ip fl = Some r ∧ fifo_there k r) →
  (∀ l, res = IoVal (Z.of_nat (length buf)) l → ∃ r k', next (total + Z.of_nat (length buf)) k = Done (r, k') ∧ files_ok None L F k' ∧ calls k k' ∧ sleep_ok k' t r) →
  ∃ r k', wrote f uaddr n total buf next res k = Done (r, k') ∧ files_ok None L F k' ∧ calls k0 k' ∧ sleep_ok k' t r.
Proof.
  intros Hin Hok Hca Ht Hle Hne Hb Hio Hsl Hnext. destruct res as [v l|i]; cbn [wrote] in *; cycle 1.
  { destruct (Hsl i eq_refl) as (Hi & fl & r & Hf & Hr & ip & Hip & Htp & Hpi). eexists _, _. split; [done|]. split; [done|]. split; [done|]. cbn.
    split; [done|]. split; [done|]. split; [done|]. split; [destruct buf; [done|cbn; lia]|]. split; [done|]. split; [done|]. by exists fl, r, ip. }
  destruct (v <? 0); [by eexists _, _|]. destruct (v =? 0); [by eexists _, _|]. destruct (Z.ltb_spec v (Z.of_nat (length buf))); [by eexists _, _|].
  cbn in Hio. assert (v = Z.of_nat (length buf)) as -> by lia. destruct (Hnext l eq_refl) as (r & k' & -> & Hok' & Hca' & Hs). eexists _, _. split; [done|].
  split; [done|]. split; [by etransitivity|done].
Qed.

Lemma room_mem m k f need : room k f need → room (with_mem m k) f need.
Proof. intros Hr fl r ip Hf Hfr Hip Ht. apply (Hr fl r ip); try done. Qed.

Lemma write_loop_ok me t L F f uaddr n rounds : Some f ∈ ofile t → ∀ total k, files_ok None L F k → is_Some (ftable k !! f) → 0 ≤ total ≤ n → n - total ≤ BUF * Z.of_nat rounds →
  room k f (n - total) → ∃ r k', write_loop (S rounds) me f uaddr n total k = Done (r, k') ∧ files_ok None L F k' ∧ calls k k' ∧ sleep_ok k' t r.
Proof.
  intros Hin. induction rounds as [|rounds IH]; intros total k Hok [fl Hf] Hn Hb Hroom; cbn [write_loop].
  { rewrite (proj2 (Z.leb_le _ _)) by lia. by eexists _, _. }
  destruct (Z.leb_spec n total); [by eexists _, _|]. assert (0 < Z.min (n - total) BUF ≤ BUF) as Hchunk by (unfold BUF; lia). set (chunk := Z.min _ _) in *.
  destruct (copyin_law me (u32 (uaddr + total)) chunk (mem k) (fo_mem _ _ _ _ Hok) ltac:(lia)) as (o & m & -> & Hm & Ho). run.
  pose proof (with_mem_ok None L F k m Hok Hm) as Hok1. pose proof (calls_mem m k) as Hca. pose proof (room_mem m k f _ Hroom) as Hroom1. set (k1 := with_mem m k) in *.
  destruct o as [buf|]; [|by eexists _, _]. destruct (Ho buf eq_refl) as [Hlen Hbytes]. assert (buf ≠ []) as Hne by (intros ->; cbn in Hlen; lia).
  destruct (filewrite_ok me L F k1 f fl buf Hok1 Hf Hne Hbytes) as (res & k2 & -> & Hok2 & Hsh & [W1 W2 W3]).
  { intros gl r ip Hg Hr Hip Ht. specialize (Hroom1 gl r ip Hg Hr Hip Ht). unfold chunk in *. lia. }
  run. destruct (sh_file _ _ Hsh f fl Hf) as (fl2 & Hf2 & _).
  apply (wrote_run t L F f uaddr n total buf _ res k k2); try done; [etransitivity; [done|by apply shape_calls]|unfold chunk in *; lia..|].
  intros l ->. apply (IH _ k2 Hok2 ltac:(by eexists)); [unfold chunk, BUF in *; lia| |]; [destruct (Z.min_spec (n - total) BUF); unfold chunk, BUF in *; lia|]. replace (n - (total + Z.of_nat (length buf))) with (n - total - Z.of_nat (length buf)) by lia.
  apply (W3 _ _ l eq_refl); [lia|done].
Qed.

Lemma io_rounds_enough n : 0 ≤ n → ∃ rounds, io_rounds n = S rounds ∧ n ≤ BUF * Z.of_nat rounds.
Proof.
  intros Hn. exists (Z.to_nat (n / BUF) + 1)%nat. unfold io_rounds. split; [lia|]. pose proof (Z.div_mod n BUF ltac:(done)).
  pose proof (Z.mod_pos_bound n BUF ltac:(done)). pose proof (Z.div_pos n BUF ltac:(lia) ltac:(done)). unfold BUF in *. lia.
Qed.
End Io.
