(* ===== verification/FileCalls.v ===== *)
(** [FileCalls]: every system call on files keeps the invariant of [FileInv],
    and returns. *)
From Stdlib Require Import ZArith Lia.
From stdpp Require Import numbers strings gmap list.
From S2P Require Import Prelude MemLayout Pipe Vfs VfsInv RamfsSpec RamfsRename RamfsData Namei NameiSpec NameiOps NameiCalls VfsFrame File SysFile FileInv FileOps FileIo.
Open Scope Z_scope.

(** Nothing is held. *)
Definition idle_i (_ : iref) : Z := 0.
Definition idle_f (_ : nat) : Z := 0.

Definition hold_i (r : option nat) (L : iref → Z) : iref → Z := match r with Some i => bump (Ino i) 1 L | None => L end.

Lemma bump_back {A} `{EqDecision A} (x : A) a b L y : a + b = 0 → bump x a (bump x b L) y = L y.
Proof. intros E. rewrite bump_bump. unfold bump. case_decide; lia. Qed.

Lemma alike_quiet s s' : alike s s' → quiet s s'.
Proof. intros Hal j jp jp' Hj Hj' T1 T2. destruct (st_node _ _ (alike_stays _ _ Hal) j jp jp' Hj Hj' T1 T2) as [(E1 & _ & _ & _ & E5) _]. done. Qed.
Lemma stays_quiet s s' : stays s s' → quiet s s'.
Proof. intros Hst j jp jp' Hj Hj' T1 T2. destruct (st_node _ _ Hst j jp jp' Hj Hj' T1 T2) as [(E1 & _ & _ & _ & E5) _]. done. Qed.
Lemma edits_quiet dir name v s s' : edits dir name v s s' → quiet s s'.
Proof. intros Hst j jp jp' Hj Hj' T1 T2. destruct (ed_node _ _ _ _ _ Hst j jp jp' Hj Hj' T1 T2) as [(E1 & _ & _ & _ & E5) _]. done. Qed.

Lemma cwd_chain_done H s n : vfs_ok None H s → ∀ i ip, inodes s !! i = Some ip → ∃ r, cwd_chain n i s = Done r.
Proof.
  intros Hok. induction n as [|n IH]; intros i ip Hi; cbn [cwd_chain]; rewrite (get_inode_ok s i ip Hi); run;
    (destruct (bool_decide _); [by eexists|]); (destruct (iparent ip) as [up|] eqn:Hp; [|by eexists]); (destruct (bool_decide _); [by eexists|]); [by eexists|].
  pose proof (no_parent _ (vo_node _ _ _ Hok i ip Hi) up Hp) as Hup. rewrite <- (vo_len _ _ _ Hok) in Hup.
  destruct (lookup_lt_is_Some_2 _ _ Hup) as [upp Hupp]. destruct (IH up upp Hupp) as [r ->]. run. by eexists.
Qed.

Lemma getcwd_done H s me max : vfs_ok None H s → ∃ r, fs_getcwd me max s = Done r.
Proof.
  intros Hok. unfold fs_getcwd. destruct (mjoin (cwds s !! me)) as [c|] eqn:Hc; [|by eexists]. destruct (vfs_root s); [|by eexists]. destruct (_ <? _); [by eexists|].
  destruct (cwds s !! me) as [o|] eqn:Hm; [|done]. cbn in Hc. subst o. apply list_elem_of_lookup_2 in Hm. destruct (vo_cwd _ _ _ Hok c Hm) as (cp & Hcp & _).
  destruct (cwd_chain_done H s NINODE Hok c cp Hcp) as [r ->]. run. by eexists.
Qed.

Section Calls.
Context {M D : Type} `{UserMemoryLaws M} `{DevicesLaws D}.
Notation ksys := (ksys M D).
Implicit Types (X : option iref) (L : iref → Z) (F : nat → Z) (k : ksys).
Context (fuel me : nat).

Lemma files_back X L F k r x : files_ok X (bump r (-1) (bump r 1 L)) (bump x (-1) (bump x 1 F)) k → files_ok X L F k.
Proof. intros Hok. apply (files_ok_ext _ _ _ _ _ _ Hok); intros; symmetry; by apply bump_back. Qed.
Lemma inode_back X L F k r : files_ok X (bump r (-1) (bump r 1 L)) F k → files_ok X L F k.
Proof. intros Hok. apply (files_ok_ext _ _ _ _ _ _ Hok); intros; [|done]. symmetry. by apply bump_back. Qed.
Lemma file_back X L F k x : files_ok X L (bump x (-1) (bump x 1 F)) k → files_ok X L F k.
Proof. intros Hok. apply (files_ok_ext _ _ _ _ _ _ Hok); intros; [done|]. symmetry. by apply bump_back. Qed.

(** ** Lookup *)

(** A call of namei.c that ends in [s'], holding [r]. *)
Lemma fs_step_ok L F k r s' : files_ok None L F k → vfs_ok None (hold (λ i, cnt (on_inode (Ino i)) (ftable k) + L (Ino i)) r) s' → quiet (fs k) s' → fifo_step (fs k) s' →
  files_ok None (hold_i r L) F (with_fs s' k).
Proof.
  intros Hok Hv Hq Hst. apply (with_fs_ok None L _ F k s' Hok); try done.
  - apply (vfs_ok_ext _ _ _ _ Hv). intros j. destruct r as [i|]; [|done]. cbn. unfold plus, bump. repeat case_decide; try lia; congruence.
  - intros x. pose proof (fo_L _ _ _ _ Hok x). destruct r as [i|]; [|done]. cbn. unfold bump. case_decide; lia.
  - intros i. destruct r; [|done]. cbn. by rewrite bump_ne.
Qed.

Lemma find_call_ok fo path L F k : files_ok None L F k → resolves fuel me (fs k) → cstring path →
  ∃ r s', ('(r, s) ← namex fuel me path false fo (fs k); mret (option_map fst r, s)) = Done (r, s') ∧ alike (fs k) s' ∧ files_ok None (hold_i r L) F (with_fs s' k) ∧
    (∀ i, r = Some i → attached s' i ∧ ∃ ip, inodes s' !! i = Some ip ∧ itype ip ≠ 0).
Proof.
  intros Hok Hres Hp. pose proof (fo_fs _ _ _ _ Hok) as Hv. pose proof (namex_ok fuel me path false fo (fs k) _ _ (fs k) Hv (reflexivity _) Hv) as Hf. unfold follows in Hf.
  specialize (Hres path false fo Hp). destruct (p_namex fuel me path false fo (fs k)) as [r| | |]; try done.
  destruct Hf as (s' & Hrun & (Hal & Hv' & Hatt) & _). pose proof (namex_pipes fuel me path false fo (fs k) _ Hrun) as Hst. rewrite Hrun. run.
  exists (option_map fst r), s'. split; [done|]. split; [done|]. split; [by apply fs_step_ok; [..|apply alike_quiet|]|].
  intros i Hi. assert (attached s' i) as Ha by by apply (alike_attached (fs k) s'), Hatt. split; [done|]. by apply (attached_live _ s' i Hv').
Qed.

(** ** How a call ends *)

(** The call of process [me] ends or sleeps: the invariant holds with nothing
    held, and the other processes keep their descriptors. *)
Record settled k0 k (r : sysret) : Prop := {
  se_ok : files_ok None idle_i idle_f k;
  se_me : ∃ t, tasks k !! me = Some t ∧ sleep_ok k t r;
  se_other p : p ≠ me → tasks k !! p = tasks k0 !! p
}.
Definition finishes k0 (o : outcome (sysret * ksys)) : Prop := ∃ r k, o = Done (r, k) ∧ settled k0 k r.

(** [me] runs, and its call has not changed the descriptors of others since [k0]. *)
Record running k0 k : Prop := {
  ru_me : ∃ t, tasks k !! me = Some t ∧ pend t = Idle;
  ru_other p : p ≠ me → tasks k !! p = tasks k0 !! p
}.

Lemma running_same k0 k k' : running k0 k → tasks k' = tasks k → running k0 k'.
Proof. intros [A1 A2] E. split; by rewrite E. Qed.

Lemma running_set k0 k t fd o x : running k0 k → tasks k !! me = Some t → running k0 (set_task me (set_fd fd o x t) k).
Proof.
  intros [(t' & Ht' & Hp) Ho] Ht. rewrite Ht in Ht'. injection Ht' as <-. split.
  - exists (set_fd fd o x t). split; [by eapply insert_at|done].
  - intros p Hne. cbn. rewrite list_lookup_insert_ne by done. by apply Ho.
Qed.

Lemma finishes_ret k0 k v : running k0 k → files_ok None idle_i idle_f k → finishes k0 (ret v k).
Proof. intros [(t & Ht & Hp) Ho] Hok. eexists _, _. split; [done|]. split; [done| |done]. by exists t. Qed.

Lemma ret_call_ok k0 k (g : fsys → outcome (Z * fsys)) (Q : Z → fsys → Prop) : running k0 k → files_ok None idle_i idle_f k → resolves fuel me (fs k) →
  (∀ H', vfs_ok None H' (fs k) → ends fuel me (fs k) (g (fs k)) (λ '(r, s'), vfs_ok None H' s' ∧ Q r s')) → (∀ r s', Q r s' → quiet (fs k) s') →
  frames snd (fs k) (g (fs k)) → finishes k0 (ret_call g k).
Proof.
  intros Hr Hok Hres Hends HQ Hfr. specialize (Hends _ (fo_fs _ _ _ _ Hok)). unfold ret_call, fs_call, ends in *. destruct (g (fs k)) as [[r s']| | |] eqn:E; try done.
  destruct Hends as [Hv Hq]. run. apply finishes_ret; [by apply (running_same k0 k)|].
  apply (fs_step_ok idle_i idle_f k None s' Hok Hv (HQ _ _ Hq)). exact (Hfr _ eq_refl).
Qed.

Lemma with_path_ok k0 k addr g : running k0 k → files_ok None idle_i idle_f k →
  (∀ path m, um_copyinstr me addr (Z.of_nat NNAME) (mem k) = Done (Some path, m) → cstring path → (length path < NNAME)%nat →
    running k0 (with_mem m k) → files_ok None idle_i idle_f (with_mem m k) → finishes k0 (g path (with_mem m k))) →
  finishes k0 (with_path me addr g k).
Proof.
  intros Hr Hok Hg. unfold with_path, argstr. destruct (copyinstr_law me addr (Z.of_nat NNAME) (mem k) (fo_mem _ _ _ _ Hok) ltac:(lia)) as (o & m & E & Hm & Ho). rewrite E. run.
  pose proof (with_mem_ok None _ _ k m Hok Hm) as Hok'. pose proof (running_same k0 k (with_mem m k) Hr eq_refl) as Hr'.
  destruct o as [path|]; [|by apply finishes_ret]. destruct (Ho path eq_refl) as [Hc Hl]. apply Hg; try done. lia.
Qed.

Lemma copy_out_ok k0 k addr l r : running k0 k → files_ok None idle_i idle_f k → finishes k0 (copy_out me addr l r k).
Proof.
  intros Hr Hok. unfold copy_out. destruct (copyout_law me addr l (mem k) (fo_mem _ _ _ _ Hok)) as (ok & m & -> & Hm). run.
  apply finishes_ret; [by apply (running_same k0 k)|by apply with_mem_ok].
Qed.

(** ** Calls on paths *)

Section Paths.
Context (k0 k : ksys) (Hr : running k0 k) (Hok : files_ok None idle_i idle_f k) (Hres : resolves fuel me (fs k)).

Lemma made_quiet path P r s' : made_path fuel me path P (fs k) r s' → quiet (fs k) s'.
Proof. intros [[_ Hs]|(_ & ? & ? & ? & ? & _ & _ & _ & He & _)]; [by apply stays_quiet|by eapply edits_quiet]. Qed.
Lemma gone_quiet path P r s' : gone_path fuel me path P (fs k) r s' → quiet (fs k) s'.
Proof. intros [[_ Hs]|(_ & ? & ? & ? & ? & _ & _ & _ & _ & _ & He)]; [by apply stays_quiet|by eapply edits_quiet]. Qed.

Lemma sys_mkdir_ok upath : finishes k0 (sys_mkdir fuel me upath k).
Proof.
  apply with_path_ok; [done..|]. intros path m _ Hp _ Hr' Hok'. apply (ret_call_ok k0 _ _ (made_path fuel me path (λ ip, itype ip = T_DIR) (fs k)) Hr' Hok' Hres);
    [intros; by apply fs_mkdir_ok|intros r s'; apply made_quiet|apply fs_mkdir_pipes].
Qed.
Lemma sys_rmdir_ok upath : finishes k0 (sys_rmdir fuel me upath k).
Proof.
  apply with_path_ok; [done..|]. intros path m _ Hp _ Hr' Hok'. apply (ret_call_ok k0 _ _ (gone_path fuel me path (λ ip, itype ip = T_DIR) (fs k)) Hr' Hok' Hres);
    [intros; by apply fs_rmdir_ok|intros r s'; apply gone_quiet|apply fs_rmdir_pipes].
Qed.
Lemma sys_unlink_ok upath : finishes k0 (sys_unlink fuel me upath k).
Proof.
  apply with_path_ok; [done..|]. intros path m _ Hp _ Hr' Hok'. apply (ret_call_ok k0 _ _ (gone_path fuel me path (λ ip, itype ip ≠ T_DIR) (fs k)) Hr' Hok' Hres);
    [intros; by apply fs_unlink_ok|intros r s'; apply gone_quiet|apply fs_unlink_pipes].
Qed.
Lemma sys_link_ok uold unew : finishes k0 (sys_link fuel me uold unew k).
Proof.
  apply with_path_ok; [done..|]. intros old m _ Ho _ Hr1 Hok1. apply with_path_ok; [done..|]. intros new m' _ Hn _ Hr2 Hok2.
  apply (ret_call_ok k0 _ _ (link_post fuel me old new (fs k)) Hr2 Hok2 Hres); [intros; by apply fs_link_ok| |apply fs_link_pipes].
  intros r s' [[_ Hs]|(_ & i & dp & name & _ & _ & _ & _ & Hf & _)]; [by apply stays_quiet|]. intros j jp jp' Hj Hj' T1 T2.
  destruct (Hf j jp jp' Hj Hj' T1 T2) as (E1 & _ & _ & _ & E5). done.
Qed.
Lemma sys_symlink_ok utarget upath : finishes k0 (sys_symlink fuel me utarget upath k).
Proof.
  apply with_path_ok; [done..|]. intros target m _ Ht Hl Hr1 Hok1. apply with_path_ok; [done..|]. intros path m' _ Hp _ Hr2 Hok2.
  apply (ret_call_ok k0 _ _ (made_path fuel me path (is_link target) (fs k)) Hr2 Hok2 Hres);
    [intros; by apply fs_symlink_ok|intros r s'; apply made_quiet|apply fs_symlink_pipes].
  assert (Z.of_nat NNAME ≤ KMALLOC_MAX) by by vm_compute. lia.
Qed.
Lemma sys_rename_ok uold unew :
  (∀ old m new m', um_copyinstr me uold (Z.of_nat NNAME) (mem k) = Done (Some old, m) → um_copyinstr me unew (Z.of_nat NNAME) m = Done (Some new, m') →
    rename_allowed fuel me new (fs k)) → finishes k0 (sys_rename fuel me uold unew k).
Proof.
  intros Hal. apply with_path_ok; [done..|]. intros old m E1 Ho _ Hr1 Hok1. apply with_path_ok; [done..|]. intros new m' E2 Hn _ Hr2 Hok2.
  apply (ret_call_ok k0 _ _ (rename_post fuel me old new (fs k)) Hr2 Hok2 Hres); [intros; apply fs_rename_ok; try done; by eapply Hal| |apply fs_rename_pipes].
  intros r s' [[_ Hs]|(_ & od & on & nd & nn & i & _ & _ & _ & [[Hs _]|[_ Hf]])]; [by apply stays_quiet..|]. intros j jp jp' Hj Hj' T1 T2.
  destruct (Hf j jp jp' Hj Hj' T2) as (E3 & _ & _ & _ & E5). done.
Qed.
Lemma sys_access_ok upath amode : finishes k0 (sys_access fuel me upath amode k).
Proof.
  apply with_path_ok; [done..|]. intros path m _ Hp _ Hr' Hok'. apply (ret_call_ok k0 _ _ (λ _ s', alike (fs k) s') Hr' Hok' Hres);
    [|intros r s'; apply alike_quiet|apply fs_access_pipes].
  intros H' Hv. eapply ends_mono; [by apply fs_access_ok|]. by intros [r s'] (? & ? & _).
Qed.
Lemma sys_chmod_ok upath md : finishes k0 (sys_chmod fuel me upath md k).
Proof.
  apply with_path_ok; [done..|]. intros path m _ Hp _ Hr' Hok'. apply (ret_call_ok k0 _ _ (attr_post fuel me path (chmod_node md (now_sec (fs k))) (fs k)) Hr' Hok' Hres);
    [intros; by apply fs_chmod_ok|intros r s' [Hs _]; by apply stays_quiet|apply fs_chmod_pipes].
Qed.
Lemma sys_chown_ok upath u g : finishes k0 (sys_chown fuel me upath u g k).
Proof.
  apply with_path_ok; [done..|]. intros path m _ Hp _ Hr' Hok'. apply (ret_call_ok k0 _ _ (attr_post fuel me path (chown_node u g (now_sec (fs k))) (fs k)) Hr' Hok' Hres);
    [intros; by apply fs_chown_ok|intros r s' [Hs _]; by apply stays_quiet|apply fs_chown_pipes].
Qed.
Lemma sys_chdir_ok upath : finishes k0 (sys_chdir fuel me upath k).
Proof.
  apply with_path_ok; [done..|]. intros path m _ Hp _ Hr' Hok'. apply (ret_call_ok k0 _ _ (λ _ s', quiet (fs k) s') Hr' Hok' Hres); [|done|apply chdir_pipes].
  intros H' Hv. eapply ends_mono; [apply chdir_ok; try done|].
  - rewrite <- (fo_tasks _ _ _ _ Hok'). destruct (ru_me _ _ Hr') as (t & Ht & _). by eapply lookup_lt_Some.
  - intros [r s'] [Hv' [[_ Hal]|(_ & i & ip & _ & _ & _ & s1 & Hal & ->)]]; (split; [done|]); [by apply alike_quiet|]. exact (alike_quiet _ _ Hal).
Qed.

Lemma sys_utime_ok upath uaddr : finishes k0 (sys_utime fuel me upath uaddr k).
Proof.
  apply with_path_ok; [done..|]. intros path m _ Hp _ Hr' Hok'. destruct (uaddr =? 0).
  - apply (ret_call_ok k0 _ _ (λ _ s', quiet (fs k) s') Hr' Hok' Hres); [|done|apply fs_utime_pipes].
    intros H' Hv. eapply ends_mono; [by apply fs_utime_ok|]. intros [r s'] [? [Hs _]]. split; [done|]. by apply stays_quiet.
  - destruct (copyin_law me uaddr 8 m (fo_mem _ _ _ _ Hok') ltac:(lia)) as (o & m' & E & Hm & _). cbn [mem with_mem]. rewrite E. run.
    pose proof (with_mem_ok None _ _ _ m' Hok' Hm) as Hok2. pose proof (running_same k0 _ (with_mem m' (with_mem m k)) Hr' eq_refl) as Hr2.
    destruct o as [ub|]; [|by apply finishes_ret]. apply (ret_call_ok k0 _ _ (λ _ s', quiet (fs k) s') Hr2 Hok2 Hres); [|done|apply fs_utime_pipes].
    intros H' Hv. eapply ends_mono; [by apply fs_utime_ok|]. intros [r s'] [? [Hs _]]. split; [done|]. by apply stays_quiet.
Qed.

Lemma sys_getcwd_ok uaddr sz : finishes k0 (sys_getcwd me uaddr sz k).
Proof.
  unfold sys_getcwd. destruct (sz <? 2); [by apply finishes_ret|]. destruct (getcwd_done _ (fs k) me (if sz <? Z.of_nat NNAME then sz else Z.of_nat NNAME) (fo_fs _ _ _ _ Hok)) as [r ->].
  run. destruct r; [by apply copy_out_ok|by apply finishes_ret].
Qed.

(** ** Calls that look a path up *)

Lemma ino_put_ok k1 L F i ip : files_ok None (bump (Ino i) 1 L) F k1 → (∀ r, 0 ≤ L r) → inodes (fs k1) !! i = Some ip → itype ip ≠ 0 →
  ∃ k2, node_iput (Ino i) k1 = Done k2 ∧ files_ok None L F k2 ∧ puts (Ino i) k1 k2.
Proof.
  intros Hok1 HL Hi Ht. destruct (node_iput_ok None _ F k1 (Ino i) ip Hok1 Hi Ht) as (k2 & -> & Hok2 & Hp); [rewrite bump_eq; pose proof (HL (Ino i)); lia|].
  exists k2. split; [done|]. split; [by apply (inode_back None L F k2 (Ino i))|done].
Qed.

Lemma iput_fail_ok k1 i ip : running k0 k1 → files_ok None (bump (Ino i) 1 idle_i) idle_f k1 → inodes (fs k1) !! i = Some ip → itype ip ≠ 0 → finishes k0 (iput_fail i k1).
Proof.
  intros Hr1 Hok1 Hi Ht. unfold iput_fail. destruct (ino_put_ok k1 idle_i idle_f i ip Hok1 ltac:(done) Hi Ht) as (k2 & -> & Hok2 & Hp). run.
  apply finishes_ret; [|done]. by apply (running_same k0 k1); [|apply Hp].
Qed.

Lemma do_stat_ok fo uaddr path : cstring path →
  finishes k0 (do_stat me uaddr (λ path s, '(r, s) ← namex fuel me path false fo s; mret (option_map fst r, s)) path k).
Proof.
  intros Hp. unfold do_stat, fs_call. destruct (find_call_ok fo path idle_i idle_f k Hok Hres Hp) as (r & s' & -> & Hal & Hok1 & Hat). run.
  pose proof (running_same k0 k (with_fs s' k) Hr eq_refl) as Hr1. destruct r as [i|]; [|by apply finishes_ret]. destruct (Hat i eq_refl) as (_ & ip & Hi & Ht).
  cbn [fs with_fs]. rewrite (get_inode_ok s' i ip Hi). run. destruct (ino_put_ok (with_fs s' k) idle_i idle_f i ip Hok1 ltac:(done) Hi Ht) as (k2 & -> & Hok2 & Hpt). run.
  apply copy_out_ok; [|done]. by apply (running_same k0 (with_fs s' k)); [|apply Hpt].
Qed.
End Paths.

Lemma sys_stat_ok k0 k upath uaddr : running k0 k → files_ok None idle_i idle_f k → resolves fuel me (fs k) → finishes k0 (sys_stat fuel me upath uaddr k).
Proof. intros Hr Hok Hres. apply with_path_ok; [done..|]. intros path m _ Hp _ Hr' Hok'. by apply (do_stat_ok k0 (with_mem m k) Hr' Hok' Hres true). Qed.
Lemma sys_lstat_ok k0 k upath uaddr : running k0 k → files_ok None idle_i idle_f k → resolves fuel me (fs k) → finishes k0 (sys_lstat fuel me upath uaddr k).
Proof. intros Hr Hok Hres. apply with_path_ok; [done..|]. intros path m _ Hp _ Hr' Hok'. by apply (do_stat_ok k0 (with_mem m k) Hr' Hok' Hres false). Qed.

Lemma sys_readlink_ok k0 k upath uaddr bufsiz : running k0 k → files_ok None idle_i idle_f k → resolves fuel me (fs k) → finishes k0 (sys_readlink fuel me upath uaddr bufsiz k).
Proof.
  intros Hr0 Hok0 Hres. apply with_path_ok; [done..|]. intros path m _ Hp _ Hr Hok. unfold do_readlink. destruct (bufsiz <=? 0); [by apply finishes_ret|].
  unfold fs_call. destruct (find_call_ok false path idle_i idle_f _ Hok Hres Hp) as (r & s' & Hrun & Hal & Hok1 & Hat). unfold fs_namei_nofollow. rewrite Hrun. run.
  set (k1 := with_fs s' _) in *. pose proof (running_same k0 _ k1 Hr eq_refl) as Hr1. destruct r as [i|]; [|by apply finishes_ret]. destruct (Hat i eq_refl) as (_ & ip & Hi & Ht).
  cbn [fs with_fs k1]. rewrite (get_inode_ok s' i ip Hi). run. destruct (negb _) eqn:Hl; [by apply (iput_fail_ok k0 k1 i ip)|].
  apply negb_false_iff, Z.eqb_eq in Hl.
  destruct (node_readi_ok _ idle_f k1 (Ino i) ip 0 (Z.of_nat DIRSIZ) Hok1 Hi Ht ltac:(lia) ltac:(by vm_compute)) as (res & k2 & Hrd & Hok2 & Hsh & Hio). rewrite Hrd. run.
  destruct (sh_node _ _ Hsh (Ino i) ip Hi) as (ip2 & Hi2 & Et). destruct (ino_put_ok k2 idle_i idle_f i ip2 Hok2 ltac:(done) Hi2 ltac:(congruence)) as (k3 & -> & Hok3 & Hpt). run.
  assert (running k0 k3) as Hr3 by (apply (running_same k0 k1 k3 Hr1); rewrite (pt_tasks _ _ _ Hpt); apply Hsh).
  destruct res as [v l|j]; cycle 1.
  { exfalso. unfold node_readi in Hrd. change (node (Ino i) k1) with (inodes s' !! i) in Hrd. rewrite Hi in Hrd. cbn [deref] in Hrd. revert Hrd. run. rewrite (not_pipe_ops _ _ _ _ _ _ Hok1 Hi Ht) by
      (intros Ho; pose proof (pipe_ops_fifo _ _ _ _ (Ino i) ip Hok1 Hi Ht Ho) as E; by rewrite Hl in E).
    destruct (fs_readi _ _ _ _) as [[[[]|] ?]| | |]; done. }
  destruct (v <? 0); [by apply finishes_ret|by apply copy_out_ok].
Qed.

(** ** truncate *)

Lemma truncate_step L F k i ip n : files_ok None L F k → inodes (fs k) !! i = Some ip → (itype ip = T_FILE → 0 ≤ n ≤ KMALLOC_MAX) →
  ∃ r s', fs_truncate i n (fs k) = Done (r, s') ∧ files_ok None L F (with_fs s' k) ∧ (∃ ip', inodes s' !! i = Some ip' ∧ itype ip' = itype ip) ∧
    (r <? 0 = false → itype ip = T_FILE).
Proof.
  intros Hok Hi Hn. destruct (decide (itype ip = T_FILE)) as [Ht|Ht]; cycle 1.
  { exists (-1), (fs k). unfold fs_truncate. rewrite (get_inode_ok _ i ip Hi). run. rewrite (proj2 (Z.eqb_neq _ _) Ht). split; [done|].
    rewrite with_fs_id. split; [done|]. split; [by exists ip|done]. }
  destruct (truncatei_ok _ (fs k) i ip n (fo_fs _ _ _ _ Hok) Hi Ht (Hn Ht)) as (r & s' & Hrun & Hv & Hres). exists r, s'. split; [done|].
  pose proof (fs_truncate_pipes i n (fs k) _ Hrun) as Hp. split.
  - apply (with_fs_ok None L L F k s' Hok Hv); [|done|apply Hok|done]. destruct Hres as [(_ & h & b & ->)|(_ & ip' & Hds & _)]; [apply heap_quiet|].
    apply (data_set_quiet i ip ip'); [done|by rewrite Ht|done].
  - split; [|done]. destruct Hres as [(_ & h & b & ->)|(_ & ip' & [(h & b & ->) _ Hs] & _)]; [by exists ip|]. destruct (Hs ip Hi) as (_ & E & _).
    exists ip'. split; [by eapply insert_at|done].
Qed.

(** What may be cut or extended to [n] bytes. *)
Definition small (n : Z) : Prop := n ≤ KMALLOC_MAX.

Lemma sys_truncate_ok k0 k upath n : running k0 k → files_ok None idle_i idle_f k → resolves fuel me (fs k) → small n → finishes k0 (sys_truncate fuel me upath n k).
Proof.
  intros Hr0 Hok0 Hres Hn. apply with_path_ok; [done..|]. intros path m _ Hp _ Hr Hok. unfold do_truncate. destruct (Z.ltb_spec n 0); [by apply finishes_ret|].
  unfold fs_call, fs_namei. destruct (find_call_ok true path idle_i idle_f _ Hok Hres Hp) as (r & s' & -> & Hal & Hok1 & Hat). run.
  set (k1 := with_fs s' _) in *. pose proof (running_same k0 _ k1 Hr eq_refl) as Hr1. destruct r as [i|]; [|by apply finishes_ret]. destruct (Hat i eq_refl) as (_ & ip & Hi & Ht).
  destruct (truncate_step _ _ k1 i ip n Hok1 Hi ltac:(by split)) as (r & s2 & -> & Hok2 & (ip2 & Hi2 & Et) & _). run.
  destruct (ino_put_ok (with_fs s2 k1) idle_i idle_f i ip2 Hok2 ltac:(done) Hi2 ltac:(congruence)) as (k3 & -> & Hok3 & Hpt). run.
  apply finishes_ret; [|done]. apply (running_same k0 k1 k3 Hr1), Hpt.
Qed.
End Calls.
