(* ===== verification/FileDesc.v ===== *)
(** [FileDesc]: the calls on file descriptors keep the invariant of [FileInv],
    and return. *)
From Stdlib Require Import ZArith Lia.
From stdpp Require Import numbers strings gmap list.
From S2P Require Import Prelude MemLayout Pipe Vfs VfsInv RamfsSpec RamfsRename RamfsData Namei NameiSpec NameiOps NameiCalls VfsFrame File SysFile FileInv FileOps FileIo FileCalls.
Open Scope Z_scope.

Section Desc.
Context {M D : Type} `{UserMemoryLaws M} `{DevicesLaws D}.
Notation ksys := (ksys M D).
Implicit Types (X : option iref) (L : iref → Z) (F : nat → Z) (k : ksys).
Context (fuel me : nat).

(** ** Looking a descriptor up *)

Lemma running_task k0 k : running me k0 k → ∃ t, tasks k !! me = Some t ∧ pend t = Idle ∧ get_task me k = Done t.
Proof. intros [(t & Ht & Hp) _]. exists t. unfold get_task. by rewrite Ht. Qed.

Lemma fdget_ok L F k0 k fd : running me k0 k → files_ok None L F k → ∃ o, fdget me fd k = Done o ∧
  ∀ f, o = Some f → 0 ≤ fd < NOFILE ∧ ∃ t fl, tasks k !! me = Some t ∧ pend t = Idle ∧ ofile t !! Z.to_nat fd = Some (Some f) ∧ ftable k !! f = Some fl ∧ 1 ≤ f_ref fl.
Proof.
  intros Hr Hok. destruct (running_task k0 k Hr) as (t & Ht & Hp & Hg). unfold fdget. rewrite Hg. run. eexists. split; [done|]. intros f Hf.
  destruct (Z.ltb_spec fd 0); [done|]. destruct (Z.leb_spec NOFILE fd); [done|]. cbn in Hf. split; [done|].
  destruct (ofile t !! Z.to_nat fd) as [o|] eqn:E; [|done]. cbn in Hf. subst o. destruct (file_there _ _ _ k me t _ f Hok Ht E) as (fl & Hfl & Hrf).
  by exists t, fl.
Qed.

(** A call on the file of a descriptor. *)
Lemma with_fd_ok k0 k fd (g : nat → outcome (sysret * ksys)) : running me k0 k → files_ok None idle_i idle_f k →
  (∀ f t fl, 0 ≤ fd < NOFILE → tasks k !! me = Some t → pend t = Idle → ofile t !! Z.to_nat fd = Some (Some f) → ftable k !! f = Some fl → 1 ≤ f_ref fl → finishes me k0 (g f)) →
  finishes me k0 (o ← fdget me fd k; match o with None => ret (-1) k | Some f => g f end).
Proof.
  intros Hr Hok Hg. destruct (fdget_ok _ _ k0 k fd Hr Hok) as (o & -> & Ho). run. destruct o as [f|]; [|by apply finishes_ret].
  destruct (Ho f eq_refl) as (Hfd & t & fl & ?). naive_solver.
Qed.

Lemma set_file_running k0 k f fl : running me k0 k → running me k0 (set_file f fl k).
Proof. intros Hr. by apply (running_same me k0 k). Qed.

Lemma sys_fsync_ok k0 k fd : running me k0 k → files_ok None idle_i idle_f k → finishes me k0 (sys_fsync me fd k).
Proof. intros Hr Hok. apply with_fd_ok; [done..|]. intros f t fl _ _ _ _ Hf _. unfold get_file. rewrite Hf. cbn [deref]. run. by apply finishes_ret. Qed.

Lemma sys_fstat_ok k0 k fd uaddr : running me k0 k → files_ok None idle_i idle_f k → finishes me k0 (sys_fstat me fd uaddr k).
Proof.
  intros Hr Hok. apply with_fd_ok; [done..|]. intros f t fl _ _ _ _ Hf _. unfold get_file. rewrite Hf. cbn [deref]. run.
  destruct (f_ip fl) as [r|] eqn:Hfr; [|by apply finishes_ret]. destruct (file_node _ _ k f fl r Hok Hf Hfr) as (ip & -> & _). cbn [deref]. run. by apply copy_out_ok.
Qed.

Lemma sys_ioctl_ok k0 k fd req arg : running me k0 k → files_ok None idle_i idle_f k → finishes me k0 (sys_ioctl me fd req arg k).
Proof.
  intros Hr Hok. apply with_fd_ok; [done..|]. intros f t fl _ _ _ _ Hf _. unfold fileioctl, get_file. rewrite Hf. cbn [deref]. run.
  destruct (f_type fl); run; try by apply finishes_ret. destruct (f_ip fl) as [r|] eqn:Hfr; [|run; by apply finishes_ret].
  destruct (file_node _ _ k f fl r Hok Hf Hfr) as (ip & -> & _). cbn [deref]. run. destruct (chr_ioctl _ _ _ _) as [[v d]|]; run; [|by apply finishes_ret].
  apply finishes_ret; [by apply (running_same me k0 k)|by apply with_devs_ok].
Qed.

Lemma s32_range x : - 2 ^ 31 ≤ s32 x < 2 ^ 31.
Proof. unfold s32. pose proof (Z.mod_pos_bound (x + 2 ^ 31) (2 ^ 32) ltac:(done)). lia. Qed.

(** The offsets an [int] argument can name. *)
Lemma sys_lseek_ok k0 k fd offset whence : running me k0 k → files_ok None idle_i idle_f k → offset < 2 ^ 31 → finishes me k0 (sys_lseek me fd offset whence k).
Proof.
  intros Hr Hok Hoff. apply with_fd_ok; [done..|]. intros f t fl _ _ _ _ Hf _. unfold filelseek, get_file. rewrite Hf. cbn [deref]. run.
  assert (∀ o, o < 2 ^ 31 → finishes me k0 ('(r, k) ← (if o <? 0 then mret (-1, k) else mret (o, set_file f (with_off o fl) k)); ret r k)) as Hseek.
  { intros o Ho. destruct (Z.ltb_spec o 0); run; apply finishes_ret; try done. by apply set_file_running. apply set_off_ok; [done..|lia]. }
  assert (finishes me k0 ('(r, k) ← mret (-1, k); ret r k)) as Hfail by (run; by apply finishes_ret).
  destruct (f_ip fl) as [r|] eqn:Hfr; [|by destruct (f_type fl)]. destruct (file_node _ _ k f fl r Hok Hf Hfr) as (ip & Hip & _).
  destruct (f_type fl) eqn:Hty; try done; rewrite Hip; cbn [deref]; rewrite obind_assoc; run; (destruct (_ && _); [done|]); cbn zeta;
    repeat match goal with |- context [if ?b =? ?c then _ else _] => destruct (b =? c) end; try done; apply Hseek; try done; apply s32_range.
Qed.

(** ** Closing *)

(** The program does not look at the descriptors. *)
Definition taskless (Q : ksys → outcome ksys) : Prop := ∀ l k, Q (with_tasks l k) = (k' ← Q k; mret (with_tasks l k')).

Lemma taskless_bind Q R : taskless Q → taskless R → taskless (λ k, k ← Q k; R k).
Proof. intros HQ HR l k. rewrite HQ. destruct (Q k) as [k1| | |]; try done. run. by rewrite HR. Qed.
Lemma taskless_upd r g : taskless (upd_node r g).
Proof. intros l k. destruct r; cbn [upd_node]; unfold on_fs, on_pipes; cbn [fs pipes with_tasks]; by destruct (upd_inode _ _ _). Qed.
Lemma taskless_iput r : taskless (node_iput r).
Proof. intros l k. destruct r; unfold node_iput, on_fs, on_pipes; cbn [fs pipes with_tasks]; by destruct (fs_iput _ _). Qed.
Lemma node_tasks r l k : node r (with_tasks l k) = node r k.
Proof. by destruct r. Qed.
Lemma taskless_release fl : taskless (file_pipe_release fl).
Proof.
  intros l k. unfold file_pipe_release. destruct (f_ip fl) as [r|]; [|done]. rewrite node_tasks.
  destruct (node r k) as [ip|]; [|done]. cbn [deref]. run. destruct (i_pipe ip) as [pi|]; [|done]. destruct (_ =? _); [|done].
  destruct (pipe_release _ _ _) as [[pi' ww] wr]. unfold set_pipe. rewrite taskless_upd. destruct (upd_node _ _ _) as [k1| | |]; try done. run. by destruct ww, wr.
Qed.
Lemma taskless_file f g : taskless (upd_file f g).
Proof. intros l k. unfold upd_file, get_file. cbn [ftable with_tasks]. by destruct (ftable k !! f). Qed.

Lemma taskless_close f : taskless (fileclose f).
Proof.
  intros l k. unfold fileclose, get_file. cbn [ftable with_tasks]. destruct (ftable k !! f) as [fl|]; [|done]. cbn [deref]. run. destruct (_ <? _); [done|]. destruct (_ <? _); [done|].
  set (k1 := set_file f _ k). change (set_file f _ (with_tasks l k)) with (with_tasks l k1). unfold fileclose_last, get_file. cbn [ftable with_tasks].
  destruct (ftable k1 !! f) as [fl1|]; [|done]. cbn [deref]. run.
  assert (taskless (λ k, k ← match f_ip fl1 with Some r => ip ← deref (node r k); if itype ip =? T_FIFO then file_pipe_release fl1 k else mret k | None => mret k end;
      k ← match f_type fl1, f_ip fl1 with FD_NONE, _ | _, None => mret k | _, Some r => node_iput r k end; upd_file f closed k)) as Hrest.
  { apply taskless_bind.
    - destruct (f_ip fl1) as [r|]; [|by intros ? ?]. intros l' k'. rewrite node_tasks. destruct (node r k') as [ip|]; [|done]. cbn [deref]. run. destruct (_ =? _); [apply taskless_release|done].
    - apply taskless_bind; [|apply taskless_file]. destruct (f_type fl1), (f_ip fl1) as [r|]; try (by intros ? ?); apply taskless_iput. }
  destruct (f_ip fl1) as [r|] eqn:Hr; [|run; apply Hrest]. destruct (negb _); run; [|apply Hrest]. apply (Hrest l (emit (WakeLock r) (set_file f (with_lock 0 fl1) k1))).
Qed.

(** Closing a file and then changing descriptors may as well be done the other
    way round. *)
Lemma close_then k f t (g : fproc → fproc) k' : tasks k !! me = Some t → fileclose f (set_task me (g t) k) = Done k' →
  (k ← fileclose f k; upd_task me g k) = Done k'.
Proof.
  intros Ht E. unfold set_task in E. rewrite taskless_close in E. pose proof (taskless_close f (tasks k) k) as Hsame. assert (with_tasks (tasks k) k = k) as Hk by by destruct k.
  rewrite Hk in Hsame. destruct (fileclose f k) as [k1| | |] eqn:E1; try done. revert E Hsame. run. intros E Hsame. injection E as <-. injection Hsame as Hsame.
  assert (tasks k1 = tasks k) as Hts by by rewrite Hsame. unfold upd_task, get_task. rewrite Hts, Ht. cbn [deref]. run. unfold set_task. by rewrite Hts.
Qed.

(** Descriptor [fd] is given back, in either order. *)
Lemma give_back k0 k t fd f x : running me k0 k → files_ok None idle_i idle_f k → tasks k !! me = Some t → ofile t !! fd = Some (Some f) →
  ∃ k', fileclose f (set_task me (set_fd fd None x t) k) = Done k' ∧ files_ok None idle_i idle_f k' ∧ running me k0 k' ∧ tasks k' = <[me := set_fd fd None x t]> (tasks k) ∧
    mem k' = mem k ∧ cwds (fs k') = cwds (fs k).
Proof.
  intros Hr Hok Ht Hfd. destruct (running_task k0 k Hr) as (t' & Ht' & Hp & _). rewrite Ht in Ht'. injection Ht' as <-. pose proof (fd_take_ok None _ _ k me t fd f x Hok Ht Hp Hfd) as Hok1.
  destruct (file_there _ _ _ k me t fd f Hok Ht Hfd) as (fl & Hf & _).
  destruct (fileclose_ok _ _ _ f fl Hok1 Hf) as (k' & -> & Hok' & Htk & Hm & Hc); [by rewrite bump_eq|]. exists k'. split; [done|]. split; [by apply (file_back None _ _ k' f)|].
  split; [|done]. apply (running_same me k0 (set_task me (set_fd fd None x t) k)); [by apply running_set|done].
Qed.

Lemma sys_close_ok k0 k fd : running me k0 k → files_ok None idle_i idle_f k → finishes me k0 (sys_close me fd k).
Proof.
  intros Hr Hok. apply with_fd_ok; [done..|]. intros f t fl _ Ht Hp Hfd Hf _. unfold upd_task, get_task. rewrite Ht. cbn [deref]. run.
  destruct (give_back k0 k t (Z.to_nat fd) f 0 Hr Hok Ht Hfd) as (k' & -> & Hok' & Hr' & _). run. by apply finishes_ret.
Qed.

(** ** Duplicating *)

Lemma free_fd_ok l minfd fd : free_fd l minfd = Some fd → l !! fd = Some None ∧ (Z.to_nat minfd ≤ fd)%nat.
Proof.
  unfold free_fd. destruct (list_find _ _) as [[i o]|] eqn:E; [|done]. intros [= <-]. apply list_find_Some in E as (Hi & -> & _). rewrite lookup_drop in Hi. split; [done|lia].
Qed.

Lemma fdalloc_run k0 k f minfd : running me k0 k → (∃ k', fdalloc_ge me f minfd k = Done (-1, k') ∧ k' = k) ∨
  ∃ fd t, tasks k !! me = Some t ∧ pend t = Idle ∧ ofile t !! fd = Some None ∧ fdalloc_ge me f minfd k = Done (Z.of_nat fd, set_task me (set_fd fd (Some f) 0 t) k).
Proof.
  intros Hr. destruct (running_task k0 k Hr) as (t & Ht & Hp & Hg). unfold fdalloc_ge. rewrite Hg. run. destruct (_ <? 0); [left; by eexists|].
  destruct (free_fd _ _) as [fd|] eqn:E; [|left; by eexists]. right. apply free_fd_ok in E as [E _]. by exists fd, t.
Qed.

(** The new descriptor comes first, the reference to the file after it. *)
Lemma dup_ok k0 k f fl minfd : running me k0 k → files_ok None idle_i idle_f k → ftable k !! f = Some fl → 1 ≤ f_ref fl → f_ip fl ≠ None →
  fdalloc_ge me f minfd k = Done (-1, k) ∨
  ∃ fd t k', tasks k !! me = Some t ∧ fdalloc_ge me f minfd k = Done (Z.of_nat fd, set_task me (set_fd fd (Some f) 0 t) k) ∧
    filedup f (set_task me (set_fd fd (Some f) 0 t) k) = Done k' ∧ files_ok None idle_i idle_f k' ∧ running me k0 k' ∧
    tasks k' !! me = Some (set_fd fd (Some f) 0 t) ∧ (fd < length (ofile t))%nat.
Proof.
  intros Hr Hok Hf Hrf Hipf. destruct (fdalloc_run k0 k f minfd Hr) as [(k' & E & ->)|(fd & t & Ht & Hp & Hfd & E)]; [by left|right].
  destruct (filedup_ok None _ _ k f fl Hok Hf Hrf) as [_ Hok1]. exists fd, t, (set_task me (set_fd fd (Some f) 0 t) (set_file f (with_frefs (f_ref fl + 1) fl) k)).
  split; [done|]. split; [done|]. split. { unfold filedup, get_file. cbn [ftable set_task with_tasks]. rewrite Hf. cbn [deref]. run. by rewrite (proj2 (Z.ltb_ge _ _)). }
  split. { apply (file_back None _ _ _ f). apply fd_put_ok; try done; [|by rewrite bump_eq]. eexists. split; [by eapply insert_at|done]. }
  split; [by apply running_set; [apply set_file_running|]|]. split; [by cbn; eapply insert_at|by eapply lookup_lt_Some].
Qed.

Lemma sys_dup_ok k0 k fd : running me k0 k → files_ok None idle_i idle_f k → finishes me k0 (sys_dup me fd k).
Proof.
  intros Hr Hok. apply with_fd_ok; [done..|]. intros f t fl _ Ht _ Hof Hf Hrf. unfold fdalloc. destruct (dup_ok k0 k f fl 0 Hr Hok Hf Hrf (fd_open _ _ _ _ _ _ _ _ _ Hok Ht Hof Hf)) as [->|(nfd & t' & k' & _ & -> & E & Hok' & Hr' & _)]; run.
  - by apply finishes_ret.
  - rewrite (proj2 (Z.ltb_ge _ _)) by lia. rewrite E. run. by apply finishes_ret.
Qed.

Lemma sys_dup2_ok k0 k oldfd newfd : running me k0 k → files_ok None idle_i idle_f k → finishes me k0 (sys_dup2 me oldfd newfd k).
Proof.
  intros Hr Hok. unfold sys_dup2. destruct (Z.ltb_spec newfd 0); [by apply finishes_ret|]. destruct (Z.leb_spec NOFILE newfd); [by apply finishes_ret|]. cbn [orb].
  apply with_fd_ok; [done..|]. intros f t fl Hfd Ht Hp Hof Hf Hrf. destruct (Z.eqb_spec oldfd newfd) as [|Hne]; [by apply finishes_ret|].
  unfold get_task at 1. rewrite Ht. cbn [deref]. run.
  assert (∃ o, ofile t !! Z.to_nat newfd = Some o) as [o Ho].
  { apply lookup_lt_is_Some_2. rewrite (tk_ofile _ _ (fo_task _ _ _ _ Hok me t Ht)). lia. }
  rewrite Ho. assert (∃ k1 t1, match mjoin (Some o) with Some g => k ← fileclose g k; upd_task me (set_fd (Z.to_nat newfd) None 0) k | None => mret k end = Done k1 ∧
    files_ok None idle_i idle_f k1 ∧ running me k0 k1 ∧ tasks k1 !! me = Some t1 ∧ ofile t1 !! Z.to_nat newfd = Some None ∧ ofile t1 !! Z.to_nat oldfd = Some (Some f)) as
    (k1 & t1 & -> & Hok1 & Hr1 & Ht1 & Hn1 & Ho1).
  { cbn. destruct o as [g|]; [|by exists k, t]. destruct (give_back k0 k t (Z.to_nat newfd) g 0 Hr Hok Ht Ho) as (k1 & E & Hok1 & Hr1 & Htk & _).
    exists k1, (set_fd (Z.to_nat newfd) None 0 t). split; [by apply (close_then k g t)|]. split; [done|]. split; [done|]. rewrite Htk. split; [by eapply insert_at|].
    cbn. split; [by eapply insert_at|]. rewrite list_lookup_insert_ne by lia. done. }
  run. destruct (file_there _ _ _ k1 me t1 _ f Hok1 Ht1 Ho1) as (fl1 & Hf1 & Hrf1). destruct (filedup_ok None _ _ k1 f fl1 Hok1 Hf1 Hrf1) as [-> Hok2]. run.
  unfold upd_task, get_task. cbn [tasks set_file with_ftable]. rewrite Ht1. cbn [deref]. run. apply finishes_ret.
  - apply running_set; [by apply set_file_running|done].
  - apply (file_back None _ _ _ f). destruct (running_task k0 k1 Hr1) as (t2 & Ht2 & Hp2 & _). rewrite Ht1 in Ht2. injection Ht2 as <-.
    apply fd_put_ok; try done; [|by rewrite bump_eq]. eexists. split; [by eapply insert_at|]. exact (fd_open _ _ _ _ _ _ _ _ _ Hok1 Ht1 Ho1 Hf1).
Qed.

(** The flags of a descriptor. *)
Lemma fd_flags_ok k0 k t fd f x : running me k0 k → files_ok None idle_i idle_f k → tasks k !! me = Some t → ofile t !! fd = Some (Some f) →
  upd_task me (set_fd fd (Some f) x) k = Done (set_task me (set_fd fd (Some f) x t) k) ∧ files_ok None idle_i idle_f (set_task me (set_fd fd (Some f) x t) k) ∧
  running me k0 (set_task me (set_fd fd (Some f) x t) k).
Proof.
  intros Hr Hok Ht Hfd. unfold upd_task, get_task. rewrite Ht. cbn [deref]. run. split; [done|]. split; [|by apply running_set].
  destruct (fo_task _ _ _ _ Hok me t Ht) as [T1 T2 T3 T4]. apply (set_task_ok None _ idle_f idle_f k me t); try done.
  - split; cbn; rewrite ?length_insert, ?list_insert_id by done; try done. destruct (running_task k0 k Hr) as (t' & Ht' & Hp & _). rewrite Ht in Ht'. injection Ht' as <-.
    unfold pend_ok. cbn. by rewrite Hp.
  - intros g. cbn. rewrite list_insert_id by done. unfold idle_f. lia.
Qed.

Lemma sys_fcntl_ok k0 k fd cmd arg : running me k0 k → files_ok None idle_i idle_f k → finishes me k0 (sys_fcntl me fd cmd arg k).
Proof.
  intros Hr Hok. apply with_fd_ok; [done..|]. intros f t fl Hfd Ht Hp Hof Hf Hrf. destruct (_ || _).
  { destruct (arg <? 0); [by apply finishes_ret|]. destruct (dup_ok k0 k f fl arg Hr Hok Hf Hrf (fd_open _ _ _ _ _ _ _ _ _ Hok Ht Hof Hf)) as [->|(nfd & t' & k' & Ht' & -> & E & Hok' & Hr' & Hme & Hlt)]; run; [by apply finishes_ret|].
    rewrite (proj2 (Z.ltb_ge _ _)) by lia. rewrite E. run. destruct (_ =? _); run; [|by apply finishes_ret].
    destruct (fd_flags_ok k0 k' _ (Z.to_nat (Z.of_nat nfd)) f FD_CLOEXEC Hr' Hok' Hme) as (-> & ? & ?). { cbn. rewrite Nat2Z.id. by apply list_lookup_insert_eq. }
    run. by apply finishes_ret. }
  destruct (_ =? _). { unfold get_task. rewrite Ht. cbn [deref]. run. by apply finishes_ret. }
  destruct (_ =? _). { destruct (fd_flags_ok k0 k t (Z.to_nat fd) f (Z.land arg FD_CLOEXEC) Hr Hok Ht Hof) as (-> & ? & ?). run. by apply finishes_ret. }
  destruct (_ =? _). { unfold get_file. rewrite Hf. cbn [deref]. run. by apply finishes_ret. }
  destruct (_ =? _); [|by apply finishes_ret]. unfold upd_file, get_file. rewrite Hf. cbn [deref]. run.
  apply finishes_ret; [by apply set_file_running|by apply set_flags_ok].
Qed.

(** ** Locks *)

Lemma no_conflict L F k f fl cmd : files_ok None L F k → ftable k !! f = Some fl → flock_conflict f (f_ip fl) cmd k = false → cmd = LOCK_SH ∨ cmd = LOCK_EX →
  lock_fits k f (with_lock cmd fl).
Proof.
  intros Hok Hf Hc Hcmd g gl r Hg Hne Hr Hgr. cbn in Hr |- *. destruct (fo_file _ _ _ _ Hok g gl Hg) as [Hw _].
  assert (conflicts cmd (f_ip fl) gl = false) as Hno.
  { destruct (conflicts cmd (f_ip fl) gl) eqn:E; [|done]. exfalso. assert (flock_conflict f (f_ip fl) cmd k = true); [|congruence]. unfold flock_conflict.
    apply existsb_exists. exists (g, gl). split; [|by rewrite (proj2 (Nat.eqb_neq _ _))]. apply list_elem_of_In, list_elem_of_lookup. exists g. by rewrite list_lookup_imap, Hg. }
  unfold conflicts in Hno. rewrite bool_decide_true in Hno by congruence. pose proof (fw_ref _ _ Hw). assert (f_ref gl ≠ 0) by (intros E; by rewrite (fw_free _ _ Hw E) in Hgr).
  rewrite (proj2 (Z.ltb_ge _ _)) in Hno by lia. cbn [negb andb] in Hno. destruct (Z.eqb_spec (f_flock gl) 0) as [E|E]; [rewrite E; by split|].
  cbn [negb andb] in Hno. apply orb_false_iff in Hno as [N1%Z.eqb_neq N2%Z.eqb_neq]. done.
Qed.

Lemma lock_ok L F k f fl cmd : files_ok None L F k → ftable k !! f = Some fl → f_ip fl ≠ None → cmd = 0 ∨ cmd = LOCK_SH ∨ cmd = LOCK_EX → lock_fits k f (with_lock cmd fl) →
  files_ok None L F (set_file f (with_lock cmd fl) k).
Proof. intros Hok Hf Hip Hc Hl. apply (file_attr_ok None L F k f fl); try done. destruct (fo_file _ _ _ _ Hok f fl Hf) as [[W1 W2 W3 W4 W5 W6 W7] _]. by split. Qed.

(** One round of [fileflock], of a call or of one that slept. *)
Lemma flock_section_ok k0 k f fl t cmd nb : files_ok None idle_i idle_f k → tasks k !! me = Some t → (∀ p, p ≠ me → tasks k !! p = tasks k0 !! p) → Some f ∈ ofile t →
  ftable k !! f = Some fl → f_ip fl ≠ None → cmd = LOCK_SH ∨ cmd = LOCK_EX → finishes me k0 (flock_section f cmd nb k).
Proof.
  intros Hok Ht Ho Hin Hf Hip Hcmd. unfold flock_section, get_file. rewrite Hf. cbn [deref]. run. destruct (flock_conflict _ _ _ _) eqn:Hc; cbn [negb].
  - destruct nb; eexists _, _; (split; [done|]); (split; [done| |done]); exists t; (split; [done|]); [done|]. cbn. split; [done|]. split; [done|]. by exists fl.
  - eexists _, _. split; [done|]. split; [|by exists t|done]. apply lock_ok; try done; [by right|]. by apply (no_conflict idle_i idle_f).
Qed.

Lemma sys_flock_ok k0 k fd op : running me k0 k → files_ok None idle_i idle_f k → finishes me k0 (sys_flock me fd op k).
Proof.
  intros Hr Hok. apply with_fd_ok; [done..|]. intros f t fl Hfd Ht Hp Hof Hf Hrf. unfold fileflock, get_file. rewrite Hf. cbn [deref]. run.
  destruct (f_ip fl) as [r|] eqn:Hip; [|destruct (f_type fl); by apply finishes_ret].
  destruct (decide (f_type fl = FD_NONE)) as [Hn|Hn].
  { pose proof (proj1 (fw_none _ _ (proj1 (fo_file _ _ _ _ Hok f fl Hf))) Hn). congruence. }
  cbn zeta. set (cmd := Z.land op (Z.lnot LOCK_NB)).
  assert (finishes me k0 (if cmd =? LOCK_UN then
        if negb (f_flock fl =? 0) then mret (Ret 0, emit (WakeLock r) (set_file f (with_lock 0 fl) k)) else mret (Ret 0, k)
      else if negb (cmd =? LOCK_SH) && negb (cmd =? LOCK_EX) then mret (Ret (-1), k)
      else flock_section f cmd (has op LOCK_NB) k)) as Hgo; [|by destruct (f_type fl)].
  destruct (_ =? LOCK_UN).
  - destruct (negb _); [|by apply finishes_ret]. apply finishes_ret; [by apply (running_same me k0 k)|]. apply emit_ok, lock_ok; [done|done|congruence|by left|].
    intros g gl r' Hg Hne Hr' Hgr. by split.
  - destruct (Z.eqb_spec cmd LOCK_SH) as [E|E]; cbn [negb andb].
    + apply (flock_section_ok k0 k f fl t); try done; [apply Hr|by eapply list_elem_of_lookup_2|congruence|by left].
    + destruct (Z.eqb_spec cmd LOCK_EX) as [E'|E']; cbn [negb]; [|by apply finishes_ret].
      apply (flock_section_ok k0 k f fl t); try done; [apply Hr|by eapply list_elem_of_lookup_2|congruence|by right].
Qed.

(** ** Reading and writing *)

Lemma done_calls k0 k k' t r : tasks k !! me = Some t → (∀ p, p ≠ me → tasks k !! p = tasks k0 !! p) → files_ok None idle_i idle_f k' → calls k k' → sleep_ok k' t r → settled me k0 k' r.
Proof. intros Ht Ho Hok Hca Hs. rewrite <- (ca_tasks _ _ Hca) in Ht, Ho. split; [done|by exists t|done]. Qed.

Lemma sys_read_ok k0 k fd uaddr n : running me k0 k → files_ok None idle_i idle_f k → finishes me k0 (sys_read me fd uaddr n k).
Proof.
  intros Hr Hok. unfold sys_read. destruct (Z.ltb_spec n 0); [by apply finishes_ret|]. apply with_fd_ok; [done..|]. intros f t fl Hfd Ht Hp Hof Hf Hrf.
  destruct (io_rounds_enough n ltac:(lia)) as (rounds & -> & Hb).
  destruct (read_loop_ok me t idle_i idle_f f uaddr n rounds ltac:(by eapply list_elem_of_lookup_2) 0 k Hok ltac:(by eexists)) as (r & k' & -> & Hok' & Hca & Hs); [lia..|].
  eexists _, _. split; [done|]. apply (done_calls k0 k k' t); try done. apply Hr.
Qed.

Definition write_fits k fd n : Prop := ∀ f, fdget me fd k = Done (Some f) → room k f n.

Lemma sys_write_ok k0 k fd uaddr n : running me k0 k → files_ok None idle_i idle_f k → write_fits k fd n → finishes me k0 (sys_write me fd uaddr n k).
Proof.
  intros Hr Hok Hw. unfold sys_write. destruct (Z.ltb_spec n 0); [by apply finishes_ret|]. destruct (fdget_ok _ _ k0 k fd Hr Hok) as (o & E & Ho).
  unfold write_fits in Hw. rewrite E in Hw |- *. run. destruct o as [f|]; [|by apply finishes_ret]. specialize (Hw f eq_refl). destruct (Ho f eq_refl) as (Hfd & t & fl & Ht & Hp & Hof & Hf & Hrf).
  destruct (io_rounds_enough n ltac:(lia)) as (rounds & -> & Hb).
  destruct (write_loop_ok me t idle_i idle_f f uaddr n rounds ltac:(by eapply list_elem_of_lookup_2) 0 k Hok ltac:(by eexists)) as (r & k' & -> & Hok' & Hca & Hs); [lia..|by rewrite Z.sub_0_r|].
  eexists _, _. split; [done|]. apply (done_calls k0 k k' t); try done. apply Hr.
Qed.

(** A process that slept goes on. *)
Lemma resume_call_ok k t : files_ok None idle_i idle_f k → tasks k !! me = Some t → pend t ≠ Idle → finishes me k (resume me (pend t) k).
Proof.
  intros Hok Ht Hp. destruct (fo_task _ _ _ _ Hok me t Ht) as [T1 T2 T3 T4]. unfold pend_ok in T4. destruct (pend t) as [|f uaddr n total|f uaddr n total buf i|f cmd]; [done|..]; cbn [resume].
  - destruct T4 as [Hin Hn]. destruct (T3 f Hin) as (fl & Hf & _). destruct (io_rounds_enough (n - total) ltac:(lia)) as (rounds & -> & Hb).
    destruct (read_loop_ok me t idle_i idle_f f uaddr n rounds Hin total k Hok (ex_intro _ fl Hf) Hn Hb) as (r & k' & -> & Hok' & Hca & Hs).
    eexists _, _. split; [done|]. by apply (done_calls k k k' t).
  - destruct T4 as (Hin & Htot & Hle & Hpos & Hb & Hi & fl & r & ip & Hf & Hr & Hip & Htp & Hpi). unfold get_file. rewrite Hf. cbn [deref]. run. rewrite Hr. cbn [deref]. run.
    destruct (resume_ok me idle_i idle_f k r buf i Hok ltac:(by exists ip) Hi) as (res & k1 & -> & Hok1 & Hsh & Hio & Hsl). run.
    destruct (sh_file _ _ Hsh f fl Hf) as (fl1 & Hf1 & Er & _). destruct (io_rounds_enough (n - total) ltac:(lia)) as (rounds & -> & Hrd).
    destruct (wrote_run t idle_i idle_f f uaddr n total buf (write_loop (S rounds) me f uaddr n) res k k1) as (ret & k2 & -> & Hok2 & Hca & Hs); try done.
    + by apply shape_calls.
    + destruct buf; [cbn in Hpos; lia|done].
    + intros j Hj. destruct (Hsl j Hj) as [? ?]. split; [done|]. exists fl1, r. split_and!; [done|congruence|done].
    + intros l _. apply (write_loop_ok me t idle_i idle_f f uaddr n rounds Hin); [done|by eexists|lia..|]. apply (shape_room k k1 f fl r ip); try done. by rewrite Htp.
    + eexists _, _. split; [done|]. by apply (done_calls k k k2 t).
  - destruct T4 as (Hin & Hcmd & fl & Hf & Hip). by apply (flock_section_ok k k f fl t).
Qed.
End Desc.
