(* ===== verification/FileOpen.v ===== *)
(** [FileOpen]: the calls that make open files keep the invariant of [FileInv],
    and return. *)
From Stdlib Require Import ZArith Lia.
From stdpp Require Import numbers strings gmap list.
From S2P Require Import Prelude MemLayout Pipe Vfs VfsInv RamfsSpec RamfsRename RamfsData Namei NameiSpec NameiOps NameiCalls VfsFrame File SysFile FileInv FileOps FileIo FileCalls FileDesc.
Open Scope Z_scope.

Lemma cnt_le {A} (P : A → Prop) `{∀ x, Decision (P x)} l : cnt P l ≤ Z.of_nat (length l).
Proof. unfold cnt. pose proof (length_filter P l). lia. Qed.

Section Open.
Context {M D : Type} `{UserMemoryLaws M} `{DevicesLaws D}.
Notation ksys := (ksys M D).
Implicit Types (X : option iref) (L : iref → Z) (F : nat → Z) (k : ksys).
Context (fuel me : nat).

(** ** ftruncate and fchdir *)

Lemma sys_ftruncate_ok k0 k fd n : running me k0 k → files_ok None idle_i idle_f k → small n → finishes me k0 (sys_ftruncate me fd n k).
Proof.
  intros Hr Hok Hn. unfold sys_ftruncate. destruct (Z.ltb_spec n 0); [by apply finishes_ret|]. apply with_fd_ok; [done..|]. intros f t fl _ _ _ _ Hf _.
  unfold get_file. rewrite Hf. cbn [deref]. run. destruct (f_ip fl) as [[i|i]|] eqn:Hfr; [|by apply finishes_ret..]. destruct (negb _); [by apply finishes_ret|].
  destruct (file_node _ _ k f fl _ Hok Hf Hfr) as (ip & Hip & Ht & _). unfold ret_call, fs_call.
  destruct (truncate_step _ _ k i ip n Hok Hip ltac:(by split)) as (r & s' & -> & Hok' & _). run. apply finishes_ret; [by apply (running_same me k0 k)|done].
Qed.

(** The directory that is open is not removed. *)
Definition fchdir_allowed k fd : Prop := ∀ f fl i, fdget me fd k = Done (Some f) → ftable k !! f = Some fl → f_ip fl = Some (Ino i) → attached (fs k) i.

Lemma sys_fchdir_ok k0 k fd : running me k0 k → files_ok None idle_i idle_f k → fchdir_allowed k fd → finishes me k0 (sys_fchdir me fd k).
Proof.
  intros Hr Hok Hal. unfold sys_fchdir. destruct (fdget_ok me _ _ k0 k fd Hr Hok) as (o & E & Ho). unfold fchdir_allowed in Hal. rewrite E in Hal |- *. run. destruct o as [f|]; [|by apply finishes_ret].
  destruct (Ho f eq_refl) as (_ & t & fl & Ht & _ & _ & Hf & _). unfold get_file. rewrite Hf. cbn [deref]. run. destruct (f_ip fl) as [[i|i]|] eqn:Hfr; [|by apply finishes_ret..].
  specialize (Hal f fl i eq_refl Hf Hfr). destruct (file_node _ _ k f fl _ Hok Hf Hfr) as (ip & Hip & Hl & _). cbn [node] in Hip. rewrite (get_inode_ok _ i ip Hip). run.
  destruct (Z.eqb_spec (itype ip) T_DIR) as [Hd|]; cbn [negb]; [|by apply finishes_ret].
  destruct (node_idup_ok None _ _ k (Ino i) ip Hok Hip Hl) as [-> Hok1]. run. set (k1 := set_node (Ino i) _ k) in *.
  assert (inodes (fs k1) !! i = Some (with_ref (ref ip + 1) ip)) as Hi1 by by cbn; eapply insert_at.
  assert (me < length (cwds (fs k1)))%nat as Hlt by (rewrite <- (fo_tasks _ _ _ _ Hok1); by eapply lookup_lt_Some).
  destruct (lookup_lt_is_Some_2 _ _ Hlt) as [c Hc]. rewrite Hc. cbn [mjoin option_join].
  assert (attached (fs k1) i) as Ha1. { destruct Hal as [?|Hlk]; [by left|right]. unfold k1. cbn. rewrite (links_insert _ i ip) by done. cbn. lia. }
  edestruct (cwd_set_ok me (λ j, cnt (on_inode (Ino j)) (ftable k1) + idle_i (Ino j)) (fs k1) i (with_ref (ref ip + 1) ip) c) as (s' & Hrun & Hal' & Hv'); [| |exact Hi1|exact Hd|exact Ha1|exact Hc|].
  { apply (vfs_ok_ext _ _ _ _ (fo_fs _ _ _ _ Hok1)). intros j. unfold plus, bump. repeat case_decide; try lia; congruence. }
  { intros j. pose proof (cnt_nonneg (on_inode (Ino j)) (ftable k1)). unfold idle_i. lia. }
  assert (match c with Some old => node_iput (Ino old) k1 | None => mret k1 end = Done (with_fs s' k1)) as ->.
  { destruct c as [old|]; [unfold node_iput, on_fs; by rewrite Hrun|]. change (Done (fs k1) = Done s') in Hrun. assert (s' = fs k1) as -> by congruence. by rewrite with_fs_id. }
  run. apply finishes_ret; [by apply (running_same me k0 k)|]. change (with_fs (with_cwds ?c ?s) (with_fs s' k1)) with (with_fs (with_cwds c s) k1). cbn [fs with_fs].
  apply (with_fs_ok None _ idle_i idle_f k1 _ Hok1 Hv'); try done.
  - exact (alike_quiet _ _ Hal').
  - transitivity s'; [|apply step_nodes; [done|apply length_insert]]. destruct c as [old|]; [exact (iput_pipes old (fs k1) _ Hrun)|]. change (Done (fs k1) = Done s') in Hrun. assert (s' = fs k1) as -> by congruence. done.
Qed.

(** ** Opening *)

Lemma held_node L F k i : files_ok None L F k → 1 ≤ L (Ino i) → (i < NINODE)%nat → ∃ ip, inodes (fs k) !! i = Some ip ∧ itype ip ≠ 0.
Proof. intros Hok HL Hi. apply (held_live _ _ i (fo_fs _ _ _ _ Hok) Hi). pose proof (cnt_nonneg (on_inode (Ino i)) (ftable k)). lia. Qed.

Lemma node_lt L F k i ip : files_ok None L F k → inodes (fs k) !! i = Some ip → (i < NINODE)%nat.
Proof. intros Hok Hi. rewrite <- (vo_len _ _ _ (fo_fs _ _ _ _ Hok)). by eapply lookup_lt_Some. Qed.

Lemma iput_fail_run k0 k i : running me k0 k → files_ok None (bump (Ino i) 1 idle_i) idle_f k → (i < NINODE)%nat →
  ∃ k', iput_fail i k = Done (Ret (-1), k') ∧ settled me k0 k' (Ret (-1)).
Proof.
  intros Hr Hok Hi. destruct (held_node _ _ k i Hok) as (ip & Hip & Ht); [by rewrite bump_eq|done|].
  destruct (iput_fail_ok me k0 k i ip Hr Hok Hip Ht) as (r & k' & E & Hs). unfold iput_fail in *. destruct (node_iput (Ino i) k) as [k1| | |]; try done. revert E. run. intros [= <- <-]. by exists k1.
Qed.

(** An opened file. *)
Lemma opened_wf k i ip rd wr flags fl : inodes (fs k) !! i = Some ip → itype ip ≠ 0 → f_ref fl = 1 → f_flock fl = 0 → file_wf k (opened (open_type ip) (Ino i) rd wr flags fl).
Proof.
  intros Hi Ht Hr Hl. split; cbn; try done; rewrite ?Hr, ?Hl; try done; try (by left).
  - unfold open_type. destruct (_ =? _); [done|]. by destruct (_ =? _).
  - intros r [= <-]. by exists ip.
Qed.

(** A file that is allocated takes the reference to inode [i]. *)
Lemma file_open_ok F k f fl i ip rd wr flags : files_ok None (bump (Ino i) 1 idle_i) F k → ftable k !! f = Some fl → f_ip fl = None → f_ref fl = 1 → f_flock fl = 0 →
  inodes (fs k) !! i = Some ip → itype ip ≠ 0 →
  let fl' := opened (open_type ip) (Ino i) rd wr flags fl in
  files_ok (Some (Ino i)) idle_i F (set_file f fl' k) ∧
  cnt (read_end (Ino i)) (ftable (set_file f fl' k)) = cnt (read_end (Ino i)) (ftable k) + (if rd then 1 else 0) ∧
  cnt (write_end (Ino i)) (ftable (set_file f fl' k)) = cnt (write_end (Ino i)) (ftable k) + (if wr then 1 else 0).
Proof.
  intros Hok Hf Hip Hrf Hfl Hi Ht. cbn zeta. set (fl' := opened _ _ _ _ _ fl). destruct (open_one (Ino i) fl' eq_refl) as (O1 & O2 & O3).
  destruct (none_one (Ino i) fl Hip) as (N1 & N2 & N3). split; cycle 1.
  { cbn [ftable set_file with_ftable]. rewrite !(cnt_insert _ _ f fl fl' Hf), N2, N3, O2, O3. cbn. lia. }
  apply (set_file_ok None _ (bump (Ino i) 1 idle_i) idle_i F F k f fl fl' Hok Hf); try done.
  - by apply opened_wf.
  - intros r. destruct (none_one r fl Hip) as (-> & _). destruct (decide (r = Ino i)) as [->|Hne]; [rewrite O1, bump_eq; unfold idle_i; lia|].
    rewrite bump_ne by done. rewrite on_one. cbn. rewrite decide_False by congruence. lia.
  - cbn. lia.
  - apply Hok.
  - intros r Hne. split; [done|]. destruct (none_one r fl Hip) as (_ & -> & ->). unfold one, read_end, write_end. cbn.
    rewrite !decide_False by (intros [E _]; congruence). done.
  - intros g gl r Hg Hne Hr Hgr. cbn. rewrite Hfl. by split.
  - right. by left.
Qed.

Lemma open_fd_ok k0 k i ip g rd wr flags : running me k0 k → files_ok None (bump (Ino i) 1 idle_i) idle_f k → inodes (fs k) !! i = Some ip → itype ip ≠ 0 →
  (∀ fl, g ip fl = opened (open_type ip) (Ino i) rd wr flags fl) →
  (∃ k', open_fd me i g k = Done (Ret (-1), k') ∧ settled me k0 k' (Ret (-1))) ∨
  ∃ fd k', open_fd me i g k = Done (Ret (Z.of_nat fd), k') ∧ files_ok (Some (Ino i)) idle_i idle_f k' ∧ running me k0 k' ∧ fs k' = fs k ∧
    cnt (read_end (Ino i)) (ftable k') = cnt (read_end (Ino i)) (ftable k) + (if rd then 1 else 0) ∧
    cnt (write_end (Ino i)) (ftable k') = cnt (write_end (Ino i)) (ftable k) + (if wr then 1 else 0).
Proof.
  intros Hr Hok Hi Ht Hg. pose proof (node_lt _ _ k i ip Hok Hi) as Hlt. unfold open_fd. pose proof (filealloc_ok None _ _ k Hok) as Hfa. destruct (filealloc k) as [[f|] k1]; cycle 1.
  { subst k1. left. by apply iput_fail_run. }
  destruct Hfa as (fl0 & Hf0 & _ & Hip0 & Ek1 & Hok1). assert (running me k0 k1) as Hr1 by (rewrite Ek1; by apply set_file_running).
  assert (ftable k1 !! f = Some (File FD_NONE 1 false false 0 0 None 0)) as Hf1 by (rewrite Ek1; by eapply insert_at).
  unfold fdalloc. destruct (fdalloc_run me k0 k1 f 0 Hr1) as [(? & -> & ->)|(fd & t & Htk & Hp & Hfd & ->)]; run.
  { left. change (-1 <? 0) with true. cbn iota. destruct (fileclose_ok _ _ k1 f _ Hok1 Hf1) as (k2 & -> & Hok2 & Htk & _ & _); [by rewrite bump_eq|]. run.
    apply (file_back None _ _ k2 f) in Hok2. apply iput_fail_run; [by apply (running_same me k0 k1)|done|done]. }
  right. rewrite (proj2 (Z.ltb_ge _ _)) by lia. assert (fs k1 = fs k) as Efs by by rewrite Ek1. change (fs (set_task me _ k1)) with (fs k1). rewrite Efs, (get_inode_ok _ i ip Hi). run.
  unfold upd_file, get_file. change (ftable (set_task me _ k1)) with (ftable k1). rewrite Hf1. cbn [deref]. run. rewrite Hg. assert (inodes (fs k1) !! i = Some ip) as Hi1 by by rewrite Efs.
  destruct (file_open_ok (bump f 1 idle_f) k1 f _ i ip rd wr flags Hok1 Hf1 eq_refl eq_refl eq_refl Hi1 Ht) as (Hok2 & C1 & C2). set (fl' := opened _ _ _ _ _ _) in *.
  change (set_file f fl' (set_task me (set_fd fd (Some f) 0 t) k1)) with (set_task me (set_fd fd (Some f) 0 t) (set_file f fl' k1)). eexists fd, _. split; [done|].
  split. { apply (file_back _ _ _ _ f). apply fd_put_ok; try done; [|by rewrite bump_eq]. eexists. split; [by eapply insert_at|done]. }
  split; [by apply running_set; [apply set_file_running|]|]. split; [done|]. change (ftable (set_task me _ (set_file f fl' k1))) with (ftable (set_file f fl' k1)).
  rewrite C1, C2. rewrite Ek1. cbn [ftable set_file with_ftable]. rewrite !(cnt_insert _ _ f fl0 _ Hf0).
  destruct (none_one (Ino i) fl0 Hip0) as (_ & -> & ->). destruct (none_one (Ino i) (File FD_NONE 1 false false 0 0 None 0) eq_refl) as (_ & -> & ->). lia.
Qed.

Lemma fifo_open_ok k i ip (rd wr : bool) : files_ok (Some (Ino i)) idle_i idle_f k → inodes (fs k) !! i = Some ip → itype ip ≠ 0 →
  (∀ pi, i_pipe ip = Some pi → itype ip = T_FIFO →
    cnt (read_end (Ino i)) (ftable k) = readers pi + (if rd then 1 else 0) ∧ cnt (write_end (Ino i)) (ftable k) = writers pi + (if wr then 1 else 0)) →
  ∃ k', fifo_open i rd wr k = Done k' ∧ files_ok None idle_i idle_f k' ∧ tasks k' = tasks k.
Proof.
  intros Hok Hi Ht Hc. unfold fifo_open. rewrite (get_inode_ok _ i ip Hi). run.
  assert ((∀ pi, i_pipe ip = Some pi → itype ip = T_FIFO → False) → files_ok None idle_i idle_f k) as Hno.
  { intros Hn. apply (exempt_done idle_i idle_f k (Ino i) Hok). intros ip' pi Hi' Ht' Hp'. cbn in Hi'. rewrite Hi in Hi'. injection Hi' as <-. by destruct (Hn pi). }
  destruct (i_pipe ip) as [pi|] eqn:Hp; cycle 1. { exists k. split; [done|]. split; [by apply Hno|done]. }
  destruct (Z.eqb_spec (itype ip) T_FIFO) as [Hf|Hf]; cycle 1. { exists k. split; [done|]. split; [apply Hno; naive_solver|done]. }
  destruct (Hc pi eq_refl Hf) as [C1 C2]. pose proof (cnt_le (read_end (Ino i)) (ftable k)) as B1. pose proof (cnt_le (write_end (Ino i)) (ftable k)) as B2.
  pose proof (cnt_nonneg (read_end (Ino i)) (ftable k)). pose proof (cnt_nonneg (write_end (Ino i)) (ftable k)). rewrite (fo_files _ _ _ _ Hok) in B1, B2. unfold NFILE in *.
  unfold set_pipe. rewrite (upd_node_run (Ino i) _ k ip Hi). eexists. split; [done|]. split; [|done].
  apply (set_node_ok (Some (Ino i)) None idle_i idle_i idle_f k (Ino i) ip _ Hok Hi Ht (like_pipe _ ip)); try done; [| |cbn; lia|cbn; by apply (live_ref _ _ _ k (Ino i) ip Hok)].
  - intros pi' E _. injection E as <-. split; [by apply (fo_safe _ _ _ _ Hok (Ino i) ip pi)|]. intros _. cbn. destruct rd, wr; rewrite ?u32_small by lia; lia.
  - intros r' Hne _. congruence.
Qed.

(** [do_open] up to the inode, and what a lookup gives. *)
Lemma find_ok path k0 k : running me k0 k → files_ok None idle_i idle_f k → resolves fuel me (fs k) → cstring path →
  ∃ r k', fs_call (fs_namei fuel me path) k = Done (r, k') ∧ files_ok None (hold_i r idle_i) idle_f k' ∧ running me k0 k' ∧
    (∀ i, r = Some i → ∃ ip, inodes (fs k') !! i = Some ip ∧ itype ip ≠ 0).
Proof.
  intros Hr Hok Hres Hp. unfold fs_call, fs_namei. destruct (find_call_ok fuel me true path idle_i idle_f k Hok Hres Hp) as (r & s' & -> & _ & Hok1 & Hat). run.
  eexists _, _. split; [done|]. split; [done|]. split; [by apply (running_same me k0 k)|]. intros i Hi. by destruct (Hat i Hi).
Qed.

Lemma create_call_ok path k0 k : running me k0 k → files_ok None idle_i idle_f k → resolves fuel me (fs k) → cstring path →
  ∃ r k', fs_call (fs_create fuel me path T_FILE) k = Done (r, k') ∧ files_ok None (hold_i r idle_i) idle_f k' ∧ running me k0 k' ∧
    match r with Some i => ∃ ip, inodes (fs k') !! i = Some ip ∧ itype ip = T_FILE | None => resolves fuel me (fs k') end.
Proof.
  intros Hr Hok Hres Hp. unfold fs_call. pose proof (fo_fs _ _ _ _ Hok) as Hv. pose proof (fs_create_ok fuel me path T_FILE (fs k) _ Hv Hp ltac:(by vm_compute)) as He.
  unfold ends in He. destruct (fs_create _ _ _ _ _) as [[r s']| | |] eqn:E; try done. destruct He as [Hv' Hc]. run.
  assert (quiet (fs k) s') as Hq by (destruct r as [i|]; [destruct Hc as (? & ? & ? & _ & _ & Hed & _); by eapply edits_quiet|by apply stays_quiet]).
  eexists _, _. split; [done|]. split; [apply (fs_step_ok _ _ k r s' Hok Hv' Hq); exact (fs_create_pipes fuel me path T_FILE (fs k) _ E)|].
  split; [by apply (running_same me k0 k)|]. destruct r as [i|]; [destruct Hc as (? & ? & ip & _ & _ & _ & Hi & Ht & _); by exists ip|].
  intros p np fo Hpp. cbn [fs with_fs hold] in Hv' |- *. rewrite (stays_namex _ _ (fs k) s' fuel me p np fo Hv Hv' Hc Hpp). by apply Hres.
Qed.

Lemma open_find_ok path flags k0 k : running me k0 k → files_ok None idle_i idle_f k → resolves fuel me (fs k) → cstring path →
  ∃ r b k', open_find fuel me path flags k = Done (r, b, k') ∧
    files_ok None (hold_i r idle_i) idle_f k' ∧ running me k0 k' ∧ (∀ i, r = Some i → ∃ ip, inodes (fs k') !! i = Some ip ∧ itype ip ≠ 0).
Proof.
  intros Hr Hok Hres Hp. unfold open_find. destruct (has flags O_CREATE); cycle 1.
  { destruct (find_ok path k0 k Hr Hok Hres Hp) as (r & k' & -> & Hok' & Hr' & Hi). run. by eexists _, _, _. }
  destruct (create_call_ok path k0 k Hr Hok Hres Hp) as (r & k' & -> & Hok' & Hr' & Hi). run. destruct r as [i|].
  { eexists _, _, _. split; [done|]. split; [done|]. split; [done|]. intros j [= <-]. destruct Hi as (ip & ? & Ht). exists ip. by rewrite Ht. }
  destruct (has flags O_EXCL); [by eexists _, _, _|]. destruct (find_ok path k0 k' Hr' Hok' Hi Hp) as (r & k2 & -> & Hok2 & Hr2 & Hi2). run. by eexists _, _, _.
Qed.

(** The descriptor, and the end of the pipe. *)
Lemma open_end_ok k0 k i ip rd wr flags : running me k0 k → files_ok None (bump (Ino i) 1 idle_i) idle_f k → inodes (fs k) !! i = Some ip → itype ip ≠ 0 →
  finishes me k0 ('(r, k) ← open_fd me i (λ ip, opened (open_type ip) (Ino i) rd wr flags) k;
    match r with Ret fd => if fd <? 0 then mret (r, k) else k ← fifo_open i rd wr k; mret (r, k) | Block _ => mret (r, k) end).
Proof.
  intros Hr Hok Hi Ht. destruct (open_fd_ok k0 k i ip (λ ip, opened (open_type ip) (Ino i) rd wr flags) rd wr flags Hr Hok Hi Ht ltac:(done)) as
    [(k' & -> & Hs)|(fd & k' & -> & Hok' & Hr' & Hfs & C1 & C2)]; run; [by eexists _, _|].
  rewrite (proj2 (Z.ltb_ge _ _)) by lia. destruct (fifo_open_ok k' i ip rd wr Hok') as (k2 & -> & Hok2 & Htk); [by rewrite Hfs|done| |].
  - intros pi Hp Hf. destruct (fo_fifo _ _ _ _ Hok (Ino i) ltac:(done) ip pi Hi Hf Hp) as [E1 E2]. rewrite C1, C2, E1, E2. done.
  - run. apply finishes_ret; [by apply (running_same me k0 k')|done].
Qed.

Lemma do_open_ok k0 k path flags : running me k0 k → files_ok None idle_i idle_f k → resolves fuel me (fs k) → cstring path → finishes me k0 (do_open fuel me path flags k).
Proof.
  intros Hr Hok Hres Hp. unfold do_open. destruct (open_find_ok path flags k0 k Hr Hok Hres Hp) as (r & b & k1 & -> & Hok1 & Hr1 & Hi). run.
  destruct r as [i|]; [|by apply finishes_ret]. destruct (Hi i eq_refl) as (ip & Hip & Ht). cbn [hold_i] in Hok1. rewrite (get_inode_ok _ i ip Hip). run.
  assert (0 ≤ 0 ≤ KMALLOC_MAX) as Hz by by vm_compute.
  destruct (truncate_step _ _ k1 i ip 0 Hok1 Hip ltac:(done)) as (v & s2 & Hrun & Hok2 & (ip2 & Hip2 & Et) & _).
  assert (∃ failed k2 ip2, (if has flags O_TRUNC && has flags (Z.lor O_WRONLY O_RDWR) && (itype ip =? T_FILE)
      then '(r, k) ← fs_call (fs_truncate i 0) k1; mret ((r <? 0) && negb b, k) else mret (false, k1)) = Done (failed, k2) ∧
      files_ok None (bump (Ino i) 1 idle_i) idle_f k2 ∧ running me k0 k2 ∧ inodes (fs k2) !! i = Some ip2 ∧ itype ip2 ≠ 0) as (failed & k2 & ip3 & -> & Hok3 & Hr3 & Hip3 & Ht3).
  { destruct (_ && _); [|by exists false, k1, ip]. unfold fs_call. rewrite Hrun. run. eexists _, _, ip2. split; [done|]. split; [done|].
    split; [by apply (running_same me k0 k1)|]. split; [done|congruence]. }
  run. destruct failed; [by apply (iput_fail_ok me k0 k2 i ip3)|]. by apply (open_end_ok k0 k2 i ip3).
Qed.
Lemma sys_open_ok k0 k upath flags : running me k0 k → files_ok None idle_i idle_f k → resolves fuel me (fs k) → finishes me k0 (sys_open fuel me upath flags k).
Proof. intros Hr Hok Hres. apply with_path_ok; [done..|]. intros path m _ Hp _ Hr' Hok'. by apply do_open_ok. Qed.

(** [creat] opens a regular file only. *)
Lemma creat_find_ok path k0 k : running me k0 k → files_ok None idle_i idle_f k → resolves fuel me (fs k) → cstring path →
  ∃ r k', creat_find fuel me path k = Done (r, k') ∧ files_ok None (hold_i r idle_i) idle_f k' ∧ running me k0 k' ∧ (∀ i, r = Some i → ∃ ip, inodes (fs k') !! i = Some ip ∧ itype ip = T_FILE).
Proof.
  intros Hr Hok Hres Hp. unfold creat_find. destruct (create_call_ok path k0 k Hr Hok Hres Hp) as (r & k1 & -> & Hok1 & Hr1 & Hi1). run. destruct r as [i|].
  { eexists _, _. split; [done|]. split; [done|]. split; [done|]. intros j [= <-]. done. }
  destruct (find_ok path k0 k1 Hr1 Hok1 Hi1 Hp) as (r & k2 & -> & Hok2 & Hr2 & Hi2). run. destruct r as [i|]; [|by eexists _, _]. destruct (Hi2 i eq_refl) as (ip & Hip & Ht). cbn [hold_i] in Hok2.
  assert (0 ≤ 0 ≤ KMALLOC_MAX) as Hz by by vm_compute. destruct (truncate_step _ _ k2 i ip 0 Hok2 Hip ltac:(done)) as (v & s3 & Hrun & Hok3 & (ip3 & Hip3 & Et) & Hv).
  unfold fs_call. rewrite Hrun. run. pose proof (running_same me k0 k2 (with_fs s3 k2) Hr2 eq_refl) as Hr3. destruct (v <? 0).
  - destruct (ino_put_ok (with_fs s3 k2) idle_i idle_f i ip3 Hok3 ltac:(done) Hip3 ltac:(congruence)) as (k4 & -> & Hok4 & Hpt). run. eexists _, _. split; [done|]. split; [done|].
    split; [by apply (running_same me k0 (with_fs s3 k2)); [|apply Hpt]|done].
  - eexists _, _. split; [done|]. split; [done|]. split; [done|]. intros j [= <-]. exists ip3. split; [done|]. rewrite Et. by apply Hv.
Qed.

(** [ip->mode = ...] *)
Lemma stat_ok L F k i ip md : files_ok None L F k → inodes (fs k) !! i = Some ip → itype ip ≠ 0 → let ip' := with_stat md (nlink ip) (uid ip) (gid ip) ip in
  on_fs (upd_inode i (λ ip, with_stat md (nlink ip) (uid ip) (gid ip) ip)) k = Done (set_node (Ino i) ip' k) ∧ files_ok None L F (set_node (Ino i) ip' k).
Proof.
  intros Hok Hi Ht. cbn zeta. split; [exact (upd_node_run (Ino i) (λ ip, with_stat md (nlink ip) (uid ip) (gid ip) ip) k ip Hi)|].
  by apply (node_same_ok None L F k (Ino i) ip); [..|apply like_stat| |].
Qed.

Lemma do_creat_ok k0 k path md : running me k0 k → files_ok None idle_i idle_f k → resolves fuel me (fs k) → cstring path → finishes me k0 (do_creat fuel me path md k).
Proof.
  intros Hr Hok Hres Hp. unfold do_creat. destruct (creat_find_ok path k0 k Hr Hok Hres Hp) as (r & k1 & -> & Hok1 & Hr1 & Hi). run.
  destruct r as [i|]; [|by apply finishes_ret]. destruct (Hi i eq_refl) as (ip & Hip & Ht). assert (itype ip ≠ 0) as Hl by by rewrite Ht. cbn [hold_i] in Hok1.
  destruct (stat_ok _ _ k1 i ip (Z.land md MODE_BITS) Hok1 Hip Hl) as [-> Hok2]. run. set (ip2 := with_stat _ _ _ _ ip) in *. set (k2 := set_node (Ino i) ip2 k1) in *.
  assert (inodes (fs k2) !! i = Some ip2) as Hip2 by by cbn; eapply insert_at.
  destruct (open_fd_ok k0 k2 i ip2 (λ _, opened FD_INODE (Ino i) false true O_WRONLY) false true O_WRONLY) as [(k' & -> & Hs)|(fd & k' & -> & Hok' & Hr' & Hfs & C1 & C2)]; try done.
  - by apply (running_same me k0 k1).
  - intros fl. assert (open_type ip2 = FD_INODE) as ->; [|done]. unfold open_type. cbn. by rewrite Ht.
  - by eexists _, _.
  - apply finishes_ret; [done|]. apply (exempt_done idle_i idle_f k' (Ino i) Hok'). intros ip' pi Hi' Ht' _. cbn in Hi'. rewrite Hfs, Hip2 in Hi'. injection Hi' as <-.
    cbn in Ht'. by rewrite Ht in Ht'.
Qed.
Lemma sys_creat_ok k0 k upath md : running me k0 k → files_ok None idle_i idle_f k → resolves fuel me (fs k) → finishes me k0 (sys_creat fuel me upath md k).
Proof. intros Hr Hok Hres. apply with_path_ok; [done..|]. intros path m _ Hp _ Hr' Hok'. by apply do_creat_ok. Qed.

Lemma do_mknod_ok k0 k path md dev : running me k0 k → files_ok None idle_i idle_f k → resolves fuel me (fs k) → cstring path → finishes me k0 (do_mknod fuel me md dev path k).
Proof.
  intros Hr Hok Hres Hp. unfold do_mknod.
  destruct (if _ =? S_IFCHR then _ else _) as [type|]; [|by apply finishes_ret]. unfold fs_call. pose proof (fo_fs _ _ _ _ Hok) as Hv.
  pose proof (fs_mknod_ok fuel me path type (Z.land (Z.shiftr dev 8) 0xfff) (Z.land dev 0xff) (fs k) _ Hv Hp) as He. unfold ends in He.
  destruct (fs_mknod _ _ _ _ _ _ _) as [[r s']| | |] eqn:E; try done. destruct He as (Hv' & Hc & Hat). run.
  assert (quiet (fs k) s') as Hq by (destruct Hc as [[_ Hs]|(? & ? & ? & ? & _ & _ & Hed & _)]; [by apply stays_quiet|by eapply edits_quiet]).
  pose proof (fs_step_ok _ _ k r s' Hok Hv' Hq (fs_mknod_pipes fuel me path type _ _ (fs k) _ E)) as Hok1. pose proof (running_same me k0 k (with_fs s' k) Hr eq_refl) as Hr1.
  destruct r as [i|]; [|by apply finishes_ret]. destruct (attached_live _ s' i Hv' (Hat i eq_refl)) as (ip & Hip & Ht). cbn [hold_i] in Hok1.
  destruct (stat_ok _ _ (with_fs s' k) i ip (Z.land md MODE_BITS) Hok1 Hip Ht) as [-> Hok2]. run. set (ip2 := with_stat _ _ _ _ ip) in *. set (k2 := set_node (Ino i) ip2 _) in *.
  assert (inodes (fs k2) !! i = Some ip2) as Hip2 by by cbn; eapply insert_at.
  destruct (ino_put_ok k2 idle_i idle_f i ip2 Hok2 ltac:(done) Hip2 Ht) as (k3 & -> & Hok3 & Hpt). run. apply finishes_ret; [|done]. apply (running_same me k0 k k3 Hr). by rewrite (pt_tasks _ _ _ Hpt).
Qed.
Lemma sys_mknod_ok k0 k upath md dev : running me k0 k → files_ok None idle_i idle_f k → resolves fuel me (fs k) → finishes me k0 (sys_mknod fuel me upath md dev k).
Proof. intros Hr Hok Hres. apply with_path_ok; [done..|]. intros path m _ Hp _ Hr' Hok'. by apply do_mknod_ok. Qed.
End Open.

(** * [pipealloc] and [sys_pipe] keep the invariant of [FileInv], and
    return. *)

Lemma pipealloc_init_safe : pipe_safe (pipealloc_init ∅).
Proof. split; [done|]. split; [done|]. exists 0%nat. split; [done|]. intros i Hi. lia. Qed.

Section Pipes.
Context {M D : Type} `{UserMemoryLaws M} `{DevicesLaws D}.
Notation ksys := (ksys M D).
Implicit Types (X : option iref) (L : iref → Z) (F : nat → Z) (k : ksys).
Context (me : nat).

(** A free inode of the table of pipes becomes a FIFO with one reference. *)
Lemma pipe_born_ok L F k i ip ip' n : files_ok None L F k → pipes k !! i = Some ip → itype ip = 0 →
  itype ip' = T_FIFO → ref ip' = 1 → i_op ip' = Some pipe_iops → i_pipe ip' = Some (pipealloc_init ∅) →
  files_ok (Some (Pno i)) (bump (Pno i) 1 L) F (with_pipes (<[i := ip']> (pipes k)) (with_inum n k)).
Proof.
  intros [A1 A2 A3 A4 A5 A6 A7 A8 A9 A10 A11 A12 A13 A14] Hi Ht Ht' Hr' Ho' Hp'. destruct (A7 i ip Hi) as [[Hfree _] Hc]. rewrite (Hfree Ht) in Hc.
  pose proof (cnt_nonneg (on_inode (Pno i)) (ftable k)) as Hcn. pose proof (A5 (Pno i)) as HL0.
  assert (∀ f fl, ftable k !! f = Some fl → f_ip fl ≠ Some (Pno i)) as Hno by (intros f fl Hf E; pose proof (cnt_in (on_inode (Pno i)) _ _ _ Hf E); lia).
  set (k' := with_pipes _ _). assert (∀ r, r ≠ Pno i → node r k' = node r k) as Hn.
  { intros [j|j] Hne; [done|]. cbn. apply list_lookup_insert_ne. congruence. }
  assert (node (Pno i) k' = Some ip') as Hni by (cbn; by eapply insert_at).
  split; try done.
  - cbn. by rewrite length_insert.
  - intros r. unfold bump. pose proof (A5 r). case_decide; lia.
  - intros j jp Hj. cbn in Hj. apply insert_Some in Hj as [(-> & -> & _)|[Hne Hj]].
    + split. { split; [by rewrite Ht'|]. intros _. split; [done|]. split; [lia|]. split; [done|]. by rewrite Hp'. }
      rewrite bump_eq, Hr'. cbn [ftable k' with_pipes with_inum]. lia.
    + rewrite bump_ne by congruence. by apply A7.
  - intros f fl Hf. destruct (A8 f fl Hf) as [[W1 W2 W3 W4 W5 W6 W7] ?]. split; [|done]. split; try done. intros r Hfr. rewrite Hn; [by apply W7|].
    intros ->. by apply (Hno f fl).
  - intros p t Hp. destruct (A9 p t Hp) as [T1 T2 T3 T4]. split; try done. unfold pend_ok in *. destruct (pend t); try done.
    destruct T4 as (? & ? & ? & ? & ? & ? & fl & r & ip1 & Hf & Hfr & ?). split_and!; try done. exists fl, r, ip1. split_and!; try done; rewrite ?Hn; try naive_solver.
  - intros r HX ip1 pi Hi1 Ht1 Hp1. rewrite Hn in Hi1 by congruence. by apply (A10 r ltac:(done) ip1 pi).
  - intros r ip1 pi Hi1 Ht1 Hp1. destruct (decide (r = Pno i)) as [->|Hne]; [|rewrite Hn in Hi1 by done; by apply (A11 r ip1 pi)].
    rewrite Hni in Hi1. injection Hi1 as <-. rewrite Hp' in Hp1. injection Hp1 as <-. apply pipealloc_init_safe.
Qed.

(** One end of the new pipe [i] gets its file. *)
Lemma end_open_ok L F k f fl i ip rd wr flags : files_ok (Some (Pno i)) (bump (Pno i) 1 L) F k → (∀ r, 0 ≤ L r) → ftable k !! f = Some fl → f_ip fl = None → f_ref fl = 1 → f_flock fl = 0 →
  pipes k !! i = Some ip → itype ip = T_FIFO →
  files_ok (Some (Pno i)) L F (set_file f (opened FD_INODE (Pno i) rd wr flags fl) k).
Proof.
  intros Hok HL Hf Hip Hrf Hfl Hi Ht. set (fl' := opened _ _ _ _ _ fl). destruct (open_one (Pno i) fl' eq_refl) as (O1 & O2 & O3).
  apply (set_file_ok _ _ (bump (Pno i) 1 L) L F F k f fl fl' Hok Hf); try done.
  - split; cbn; try done; rewrite ?Hrf, ?Hfl; try done; try (by left). intros r [= <-]. exists ip. split; [done|]. rewrite Ht. split; [done|]. unfold open_type. by rewrite Ht.
  - intros r. destruct (none_one r fl Hip) as (-> & _). destruct (decide (r = Pno i)) as [->|Hne]; [rewrite O1, bump_eq; lia|].
    rewrite bump_ne by done. rewrite on_one. cbn. rewrite decide_False by congruence. lia.
  - cbn. lia.
  - apply Hok.
  - intros r Hne. split; [done|]. destruct (none_one r fl Hip) as (_ & -> & ->). unfold one, read_end, write_end. cbn.
    rewrite !decide_False by (intros [E _]; congruence). done.
  - intros g gl r Hg Hne Hr Hgr. cbn. rewrite Hfl. by split.
  - right. by left.
Qed.

(** A call that gives up files it has allocated. *)
Lemma close_file_ok L F k f : files_ok None L (bump f 1 F) k → (∀ x, 0 ≤ F x) → is_Some (ftable k !! f) → ∃ k', fileclose f k = Done k' ∧ files_ok None L F k' ∧ tasks k' = tasks k.
Proof.
  intros Hok HF [fl Hf]. destruct (fileclose_ok L _ k f fl Hok Hf) as (k' & -> & Hok' & Ht & _); [rewrite bump_eq; pose proof (HF f); lia|]. exists k'. split; [done|].
  split; [by apply (file_back None L F k' f)|done].
Qed.

(** The file is on an inode. *)
Definition is_open k f : Prop := ∃ fl, ftable k !! f = Some fl ∧ f_ip fl ≠ None.

Lemma file_is_there X L F k f : files_ok X L F k → (f < NFILE)%nat → is_Some (ftable k !! f).
Proof. intros Hok Hf. apply lookup_lt_is_Some_2. by rewrite (fo_files _ _ _ _ Hok). Qed.

Lemma heap_step_ok X L F k h b : files_ok X L F k → files_ok X L F (with_fs (with_heap h b (fs k)) k).
Proof.
  intros Hok. apply (with_fs_ok X L L F k _ Hok); [apply vfs_ok_heap, Hok|apply heap_quiet|by apply step_nodes|apply Hok|done].
Qed.

Lemma bump_comm {A} `{EqDecision A} (x y : A) (a b : Z) (L : A → Z) z : bump x a (bump y b L) z = bump y b (bump x a L) z.
Proof. unfold bump. repeat case_decide; lia. Qed.

Notation two f0 f1 := (bump f1 1 (bump f0 1 idle_f)).

Lemma two_nonneg f g x : 0 ≤ bump f 1 idle_f x ∧ 0 ≤ two f g x.
Proof. unfold bump, idle_f. repeat case_decide; lia. Qed.

(** Both files are closed again. *)
Lemma close_both_ok k f0 f1 : files_ok None idle_i (two f0 f1) k → (f0 < NFILE)%nat → (f1 < NFILE)%nat →
  ∃ k', (k ← fileclose f0 k; fileclose f1 k) = Done k' ∧ files_ok None idle_i idle_f k' ∧ tasks k' = tasks k.
Proof.
  intros Hok H0' H1'. assert (files_ok None idle_i (bump f0 1 (bump f1 1 idle_f)) k) as Hok0 by (apply (files_ok_ext _ _ _ _ _ _ Hok); [done|]; intros; apply bump_comm).
  destruct (close_file_ok _ _ k f0 Hok0) as (k1 & -> & Hok1 & Ht1); [apply (two_nonneg f1 f1)|by apply (file_is_there _ _ _ k f0 Hok)|]. run.
  destruct (close_file_ok _ _ k1 f1 Hok1) as (k2 & -> & Hok2 & Ht2); [done|by apply (file_is_there _ _ _ k1 f1 Hok1)|]. exists k2. split; [done|]. split; [done|congruence].
Qed.

Lemma bad_both k f0 f1 : pipealloc_bad (Some f0) (Some f1) k = (k ← (k ← fileclose f0 k; fileclose f1 k); mret (None, k)).
Proof. unfold pipealloc_bad. by rewrite obind_assoc. Qed.

(** The new pipe and the two files on it. *)
Lemma pipe_ends_ok k f0 f1 i ip n ip' : files_ok None idle_i (two f0 f1) k → f0 ≠ f1 →
  ftable k !! f0 = Some (File FD_NONE 1 false false 0 0 None 0) → ftable k !! f1 = Some (File FD_NONE 1 false false 0 0 None 0) →
  pipes k !! i = Some ip → itype ip = 0 → itype ip' = T_FIFO → ref ip' = 1 → i_op ip' = Some pipe_iops → i_pipe ip' = Some (pipealloc_init ∅) →
  ∃ k', (k ← node_idup (Pno i) (with_pipes (<[i := ip']> (pipes k)) (with_inum n k));
         k ← upd_file f0 (opened FD_INODE (Pno i) true false 0) k;
         k ← upd_file f1 (opened FD_INODE (Pno i) false true O_WRONLY) k;
         mret (Some (f0, f1), k)) = Done (Some (f0, f1), k') ∧ files_ok None idle_i (two f0 f1) k' ∧ tasks k' = tasks k ∧ is_open k' f0 ∧ is_open k' f1.
Proof.
  intros Hok Hne Hf0 Hf1 Hi Ht Ht' Hr' Ho' Hp'. pose proof (pipe_born_ok idle_i _ k i ip ip' n Hok Hi Ht Ht' Hr' Ho' Hp') as Hok1. set (k1 := with_pipes _ _) in *.
  assert (∀ f fl, ftable k !! f = Some fl → f_ip fl ≠ Some (Pno i)) as Hno.
  { intros f fl Hf E. destruct (fw_node _ _ (proj1 (fo_file _ _ _ _ Hok f fl Hf)) _ E) as (jp & Hj & Hjt & _). cbn in Hj. rewrite Hi in Hj. injection Hj as <-. done. }
  assert (node (Pno i) k1 = Some ip') as Hn1 by (cbn; by eapply insert_at).
  destruct (node_idup_ok _ _ _ k1 (Pno i) ip' Hok1 Hn1 ltac:(by rewrite Ht')) as [-> Hok2]. run. set (k2 := set_node (Pno i) _ k1) in *.
  assert (pipes k2 !! i = Some (with_ref (ref ip' + 1) ip')) as Hi2 by (cbn; eapply insert_at; by eapply insert_at).
  assert (ftable k2 !! f0 = ftable k !! f0) as E2 by done. unfold upd_file, get_file. rewrite E2, Hf0. cbn [deref]. run.
  pose proof (end_open_ok _ _ k2 f0 _ i _ true false 0 Hok2 ltac:(intros r; unfold bump, idle_i; case_decide; lia) Hf0 eq_refl eq_refl eq_refl Hi2 Ht') as Hok3.
  set (fl0 := opened FD_INODE (Pno i) true false 0 _) in *. set (k3 := set_file f0 fl0 k2) in *.
  assert (ftable k3 !! f1 = Some (File FD_NONE 1 false false 0 0 None 0)) as Hf1' by (cbn; by rewrite list_lookup_insert_ne).
  rewrite Hf1'. cbn [deref]. run.
  pose proof (end_open_ok _ _ k3 f1 _ i _ false true O_WRONLY Hok3 ltac:(done) Hf1' eq_refl eq_refl eq_refl Hi2 Ht') as Hok4.
  set (fl1 := opened FD_INODE (Pno i) false true O_WRONLY _) in *. set (k4 := set_file f1 fl1 k3) in *. exists k4. split; [done|]. split.
  2: { split; [done|]. split; [exists fl0|exists fl1]; (split; [|done]); [cbn; rewrite list_lookup_insert_ne by done; by eapply insert_at|by eapply insert_at]. }
  apply (exempt_done _ _ k4 (Pno i) Hok4). intros jp pi Hj _ Hpi. change (node (Pno i) k4) with (pipes k2 !! i) in Hj. rewrite Hi2 in Hj. injection Hj as <-.
  cbn [i_pipe with_ref] in Hpi. rewrite Hp' in Hpi. injection Hpi as <-. cbn [readers writers pipealloc_init].
  assert (∀ (P : file → Prop) `{∀ x, Decision (P x)}, (∀ fl, P fl → f_ip fl = Some (Pno i)) → cnt P (ftable k4) = one P fl0 + one P fl1) as Hcnt.
  { intros P ? HP. change (ftable k4) with (<[f1 := fl1]> (<[f0 := fl0]> (ftable k))). rewrite (cnt_insert P _ f1 (File FD_NONE 1 false false 0 0 None 0) fl1 Hf1').
    rewrite (cnt_insert P _ f0 (File FD_NONE 1 false false 0 0 None 0) fl0 Hf0).
    rewrite (cnt_zero P (ftable k)) by (intros x [g Hg]%list_elem_of_lookup HPx; by apply (Hno g x Hg), HP).
    assert (one P (File FD_NONE 1 false false 0 0 None 0) = 0) as -> by (unfold one; rewrite decide_False; [done|]; by intros ?%HP). lia. }
  rewrite !Hcnt by (by intros fl [? _]). destruct (open_one (Pno i) fl0 eq_refl) as (_ & -> & ->). by destruct (open_one (Pno i) fl1 eq_refl) as (_ & -> & ->).
Qed.

Lemma pipealloc_ok k : files_ok None idle_i idle_f k →
  ∃ r k', pipealloc k = Done (r, k') ∧ tasks k' = tasks k ∧
    match r with None => files_ok None idle_i idle_f k' | Some (f0, f1) => (f0 < NFILE)%nat ∧ (f1 < NFILE)%nat ∧ f0 ≠ f1 ∧ is_open k' f0 ∧ is_open k' f1 ∧ files_ok None idle_i (two f0 f1) k' end.
Proof.
  intros Hok. unfold pipealloc. pose proof (filealloc_ok None _ _ k Hok) as Ha. destruct (filealloc k) as [[f0|] k1]; [|subst k1; by eexists _, _].
  destruct Ha as (fl0 & Hf0 & _ & _ & E1 & Hok1). assert (f0 < NFILE)%nat as Hl0 by (rewrite <- (fo_files _ _ _ _ Hok); by eapply lookup_lt_Some).
  assert (ftable k1 !! f0 = Some (File FD_NONE 1 false false 0 0 None 0)) as Hf0' by (rewrite E1; by eapply insert_at).
  pose proof (filealloc_ok None _ _ k1 Hok1) as Hb. destruct (filealloc k1) as [[f1|] k2]; cycle 1.
  { subst k2. unfold pipealloc_bad. destruct (close_file_ok _ _ k1 f0 Hok1) as (k3 & -> & Hok3 & Ht3); [done|by eexists|]. run. eexists _, _. split; [done|].
    split; [by rewrite Ht3, E1|done]. }
  destruct Hb as (fl1 & Hf1 & Hr1 & _ & E2 & Hok2). assert (f1 < NFILE)%nat as Hl1 by (rewrite <- (fo_files _ _ _ _ Hok1); by eapply lookup_lt_Some).
  assert (f0 ≠ f1) as Hne by (intros <-; rewrite Hf0' in Hf1; by injection Hf1 as <-). assert (tasks k2 = tasks k) as Htk by by rewrite E2, E1.
  assert (ftable k2 !! f0 = Some (File FD_NONE 1 false false 0 0 None 0)) as Hg0 by (rewrite E2; cbn; by rewrite list_lookup_insert_ne).
  assert (ftable k2 !! f1 = Some (File FD_NONE 1 false false 0 0 None 0)) as Hg1 by (rewrite E2; by eapply insert_at).
  assert (∃ b h, kmalloc_ok (fs k2) = (b, with_heap h false (fs k2))) as (b & h & Hkm) by (unfold kmalloc_ok; destruct (heap (fs k2)); by eexists _, _).
  rewrite Hkm. pose proof (heap_step_ok None _ _ k2 h false Hok2) as Hok3. set (k3 := with_fs _ k2) in *.
  assert (∃ r k', pipealloc_bad (Some f0) (Some f1) k3 = Done (r, k') ∧ tasks k' = tasks k ∧
    match r with None => files_ok None idle_i idle_f k' | Some (f0, f1) => (f0 < NFILE)%nat ∧ (f1 < NFILE)%nat ∧ f0 ≠ f1 ∧ is_open k' f0 ∧ is_open k' f1 ∧ files_ok None idle_i (two f0 f1) k' end) as Hbad.
  { rewrite bad_both. destruct (close_both_ok k3 f0 f1 Hok3 Hl0 Hl1) as (k4 & -> & Hok4 & Ht4). run. eexists _, _. split; [done|]. split; [by rewrite Ht4|done]. }
  destruct b; cbn [negb]; [|done]. unfold pipe_inode_alloc. destruct (list_find _ (pipes k3)) as [[i ip]|] eqn:Ef; [|done]. apply list_find_Some in Ef as (Hi & Ht & _).
  cbn zeta. match goal with |- context [with_pipes (<[i := ?x]> _) (with_inum ?n _)] =>
    destruct (pipe_ends_ok k3 f0 f1 i ip n x Hok3 Hne Hg0 Hg1 Hi Ht eq_refl eq_refl eq_refl eq_refl) as (k4 & Hrun & Hok4 & Ht4 & Ho0 & Ho1) end.
  eexists _, _. split; [exact Hrun|]. split; [by rewrite Ht4|done].
Qed.

(** ** The system call *)

Lemma clear_is X L F k t fd : files_ok X L F k → tasks k !! me = Some t → (fd < length (ofile t))%nat → ∃ x, clear_fd fd t = set_fd fd None x t.
Proof.
  intros Hok Ht Hfd. destruct (fo_task _ _ _ _ Hok me t Ht) as [T1 T2 _ _]. destruct (lookup_lt_is_Some_2 (fdflags t) fd) as [x Hx]; [lia|]. exists x.
  unfold clear_fd, set_fd. by rewrite (list_insert_id (fdflags t)).
Qed.

Lemma clear_ok k0 k F t fd f : running me k0 k → files_ok None idle_i F k → tasks k !! me = Some t → ofile t !! fd = Some (Some f) →
  upd_task me (clear_fd fd) k = Done (set_task me (clear_fd fd t) k) ∧ files_ok None idle_i (bump f 1 F) (set_task me (clear_fd fd t) k) ∧ running me k0 (set_task me (clear_fd fd t) k).
Proof.
  intros Hr Hok Ht Hfd. unfold upd_task, get_task. rewrite Ht. cbn [deref]. run. split; [done|]. destruct (running_task me k0 k Hr) as (t' & Ht' & Hp & _).
  rewrite Ht in Ht'. injection Ht' as <-. destruct (clear_is None _ _ k t fd Hok Ht) as [x ->]; [by eapply lookup_lt_Some|]. split; [by apply fd_take_ok|by apply running_set].
Qed.

Lemma undo_files_ok k0 k rf wf : running me k0 k → files_ok None idle_i (two rf wf) k → (rf < NFILE)%nat → (wf < NFILE)%nat →
  finishes me k0 (k ← fileclose rf k; k ← fileclose wf k; ret (-1) k).
Proof.
  intros Hr Hok H0' H1'. destruct (close_both_ok k rf wf Hok H0' H1') as (k1 & E & Hok1 & Ht1). destruct (fileclose rf k) as [k'| | |]; try done. revert E. run. intros ->. run.
  apply finishes_ret; [by apply (running_same me k0 k)|done].
Qed.

(** A descriptor for one end. *)
Lemma put_end_ok k0 k F f : running me k0 k → files_ok None idle_i (bump f 1 F) k → (∀ x, 0 ≤ F x) → is_open k f → fdalloc me f k = Done (-1, k) ∨
  ∃ fd t k', fdalloc me f k = Done (Z.of_nat fd, k') ∧ ftable k' = ftable k ∧ files_ok None idle_i F k' ∧ running me k0 k' ∧ tasks k' !! me = Some t ∧ ofile t !! fd = Some (Some f) ∧
    (∀ e x, (∃ t0, tasks k !! me = Some t0 ∧ ofile t0 !! e = Some (Some x)) → ofile t !! e = Some (Some x)).
Proof.
  intros Hr Hok HF Hf. unfold fdalloc. destruct (fdalloc_run me k0 k f 0 Hr) as [(k' & E & ->)|(fd & t & Ht & Hp & Hfd & E)]; [by left|right].
  exists fd, (set_fd fd (Some f) 0 t), (set_task me (set_fd fd (Some f) 0 t) k). split; [done|]. split; [done|]. split.
  { apply (file_back None _ _ _ f). apply fd_put_ok; try done. rewrite bump_eq. pose proof (HF f). lia. }
  split; [by apply running_set|]. split; [by cbn; eapply insert_at|]. cbn. split; [by eapply insert_at|]. intros e x (t0 & Ht0 & He). rewrite Ht in Ht0. injection Ht0 as <-.
  rewrite list_lookup_insert_ne; [done|]. intros <-. congruence.
Qed.

Lemma undo_both_ok k0 k t fd0 fd1 rf wf : running me k0 k → files_ok None idle_i idle_f k → tasks k !! me = Some t → ofile t !! fd0 = Some (Some rf) → ofile t !! fd1 = Some (Some wf) →
  rf ≠ wf → (rf < NFILE)%nat → (wf < NFILE)%nat → finishes me k0 (pipe_undo me [fd0; fd1] rf wf k).
Proof.
  intros Hr Hok Ht E0 E1 Hne H0' H1'. unfold pipe_undo. cbn [each]. destruct (clear_ok k0 k _ t fd0 rf Hr Hok Ht E0) as (Hrun & Hok1 & Hr1). rewrite Hrun. run. set (k1 := set_task me _ k) in *.
  assert (tasks k1 !! me = Some (clear_fd fd0 t)) as Ht1 by by cbn; eapply insert_at.
  destruct (clear_ok k0 k1 _ (clear_fd fd0 t) fd1 wf Hr1 Hok1 Ht1) as (Hrun1 & Hok2 & Hr2). { cbn. rewrite list_lookup_insert_ne; [done|]. congruence. }
  rewrite Hrun1. run. by apply undo_files_ok.
Qed.

Lemma sys_pipe_ok k0 k uaddr : running me k0 k → files_ok None idle_i idle_f k → finishes me k0 (sys_pipe me uaddr k).
Proof.
  intros Hr Hok. unfold sys_pipe. destruct (pipealloc_ok k Hok) as (r & k1 & -> & Ht1 & Hres). run. pose proof (running_same me k0 k k1 Hr Ht1) as Hr1.
  destruct r as [[rf wf]|]; [|by apply finishes_ret]. destruct Hres as (Hl0 & Hl1 & Hne & Hop0 & Hop1 & Hok1).
  assert (files_ok None idle_i (bump rf 1 (bump wf 1 idle_f)) k1) as Hok1' by (apply (files_ok_ext _ _ _ _ _ _ Hok1); [done|]; intros; apply bump_comm).
  destruct (put_end_ok k0 k1 _ rf Hr1 Hok1' ltac:(intros; apply (two_nonneg wf wf)) Hop0) as [->|(fd0 & t & k2 & -> & Eft & Hok2 & Hr2 & Ht2 & Hfd0 & _)]; run.
  { change (-1 <? 0) with true. cbn iota. unfold pipe_undo. cbn [each]. run. by apply undo_files_ok. }
  rewrite (proj2 (Z.ltb_ge _ _)) by lia.
  destruct (put_end_ok k0 k2 _ wf Hr2 Hok2 ltac:(done) ltac:(unfold is_open; by rewrite Eft)) as [->|(fd1 & t' & k3 & -> & _ & Hok3 & Hr3 & Ht3 & Hfd1 & Hkeep)]; run.
  { change (-1 <? 0) with true. cbn iota. unfold pipe_undo. cbn [each]. rewrite Nat2Z.id. destruct (clear_ok k0 k2 _ t fd0 rf Hr2 Hok2 Ht2 Hfd0) as (Hrun & Hok3 & Hr3).
    rewrite Hrun. run. apply undo_files_ok; try done. apply (files_ok_ext _ _ _ _ _ _ Hok3); [done|]. intros; apply bump_comm. }
  rewrite (proj2 (Z.ltb_ge _ _)) by lia. specialize (Hkeep fd0 rf ltac:(by exists t)). rewrite !Nat2Z.id.
  destruct (copyout_law me uaddr (bytes_le 4 (Z.of_nat fd0)) (mem k3) (fo_mem _ _ _ _ Hok3)) as (ok & m & -> & Hm). run.
  pose proof (with_mem_ok None _ _ k3 m Hok3 Hm) as Hok4. pose proof (running_same me k0 k3 (with_mem m k3) Hr3 eq_refl) as Hr4.
  destruct ok; cbn [negb]; [|by apply (undo_both_ok k0 _ t')].
  change (mem (with_mem m k3)) with m. destruct (copyout_law me (u32 (uaddr + 4)) (bytes_le 4 (Z.of_nat fd1)) m Hm) as (ok & m' & -> & Hm'). run.
  pose proof (with_mem_ok None _ _ (with_mem m k3) m' Hok4 Hm') as Hok5. pose proof (running_same me k0 k3 (with_mem m' (with_mem m k3)) Hr3 eq_refl) as Hr5.
  destruct ok; cbn [negb]; [by apply finishes_ret|by apply (undo_both_ok k0 _ t')].
Qed.
End Pipes.
