(* ===== verification/FileTasks.v ===== *)
(** [FileTasks]: what the process system does to open files keeps the invariant
    of [FileInv]; with it every sequence of calls by any processes does. *)
From Stdlib Require Import ZArith Lia.
From stdpp Require Import numbers strings gmap list.
From S2P Require Import Prelude MemLayout Pipe Vfs VfsInv RamfsSpec RamfsRename RamfsData Namei NameiSpec NameiOps NameiCalls NameiLive FsInit VfsFrame File SysFile FileInv FileOps FileIo FileCalls FileDesc FileOpen.
Open Scope Z_scope.

(** Process [me] leaves its working directory. *)
Lemma cwd_drop_ok me H s c : vfs_ok None H s → cwds s !! me = Some (Some c) →
  ∃ s', fs_iput c s = Done s' ∧ alike s s' ∧ vfs_ok None H (with_cwds (<[me := None]> (cwds s')) s').
Proof.
  intros Hok Hc. pose proof (vo_H _ _ _ Hok) as HH. destruct (vo_cwd _ _ _ Hok c) as (cp & Hcp & Hct & Ha); [by eapply list_elem_of_lookup_2|]. specialize (Ha ltac:(done)).
  assert (vfs_ok None (plus H c) (with_cwds (<[me := None]> (cwds s)) s)) as Hok1.
  { destruct Hok as [V1 V2 V3 V4 V5 V6 V7 V8]. split; try done.
    - intros j. pose proof (plus_ge H c j). pose proof (HH j). lia.
    - intros j jp Hj. rewrite (V5 j jp Hj). unfold held. cbn [cwds with_cwds vfs_root]. pose proof (cwd_count_insert (cwds s) me (Some c) None j Hc) as E. unfold cwd_count in E. rewrite E.
      rewrite (decide_False (P := None = Some j)) by done. unfold plus. cbn [inodes with_cwds]. destruct (decide (Some c = Some j)), (decide (j = c)); (lia || congruence).
    - intros x Hx. cbn in Hx. apply list_elem_of_lookup in Hx as [q Hq]. apply insert_Some in Hq as [(_ & ? & _)|[_ Hq]]; [done|]. apply V7. by eapply list_elem_of_lookup_2. }
  destruct (put_exact H _ c cp Hok1 HH Ha Hcp) as [_ Hok2].
  assert (2 ≤ ref cp) as Hr.
  { pose proof (vo_ref _ _ _ Hok1 c cp Hcp) as Hr. rewrite plus_eq in Hr. pose proof (attached_pinned H (with_cwds (<[me := None]> (cwds s)) s) c HH Ha) as Hpin. unfold pinned in Hpin. lia. }
  exists (set_inode c (with_ref (ref cp - 1) cp) s). split_and!; [|by apply (alike_set s c cp)|done].
  unfold fs_iput, iput_fuel. cbn [fs_iput_loop]. rewrite (get_inode_ok s c cp Hcp). run. rewrite (proj2 (Z.leb_gt (ref cp) 0)) by lia.
  by rewrite (proj2 (Z.eqb_neq (ref cp - 1) 0)) by lia.
Qed.

Section Tasks.
Context {M D : Type} `{UserMemoryLaws M} `{DevicesLaws D}.
Notation ksys := (ksys M D).
Implicit Types (X : option iref) (L : iref → Z) (F : nat → Z) (k : ksys).
Context (fuel me : nat).

Lemma cwd_slot L F k p t : files_ok None L F k → tasks k !! p = Some t → ∃ c, cwds (fs k) !! p = Some c.
Proof. intros Hok Ht. apply lookup_lt_is_Some_2. rewrite <- (fo_tasks _ _ _ _ Hok). by eapply lookup_lt_Some. Qed.

(** ** exit and exec *)

(** [p->fdflags[fd] = 0] *)
Lemma flags_zero_ok k0 k t fd : running me k0 k → files_ok None idle_i idle_f k → tasks k !! me = Some t →
  let t' := Fproc (ofile t) (<[fd := 0]> (fdflags t)) (pend t) in
  upd_task me (λ t, Fproc (ofile t) (<[fd := 0]> (fdflags t)) (pend t)) k = Done (set_task me t' k) ∧ files_ok None idle_i idle_f (set_task me t' k) ∧ running me k0 (set_task me t' k).
Proof.
  intros Hr Hok Ht. cbn zeta. unfold upd_task, get_task. rewrite Ht. cbn [deref]. run. split; [done|]. destruct (running_task me k0 k Hr) as (t1 & Ht1 & Hp & _). rewrite Ht in Ht1. injection Ht1 as <-.
  destruct (fo_task _ _ _ _ Hok me t Ht) as [T1 T2 T3 T4]. split.
  - apply (set_task_ok None _ idle_f idle_f k me t); try done; [|intros g; unfold idle_f; cbn; lia]. split; cbn; [done|by rewrite length_insert|done|]. unfold pend_ok. cbn. by rewrite Hp.
  - split; [eexists; split; [by cbn; eapply insert_at|done]|]. intros p Hne. cbn. rewrite list_lookup_insert_ne by done. by apply Hr.
Qed.

Lemma close_fd_ok k0 k t fd : running me k0 k → files_ok None idle_i idle_f k → tasks k !! me = Some t → (fd < length (ofile t))%nat →
  ∃ k', close_fd me fd k = Done k' ∧ files_ok None idle_i idle_f k' ∧ running me k0 k' ∧ ∃ t', tasks k' !! me = Some t' ∧ ofile t' = <[fd := None]> (ofile t).
Proof.
  intros Hr Hok Ht Hlt. unfold close_fd, get_task. rewrite Ht. cbn [deref]. run. destruct (lookup_lt_is_Some_2 _ _ Hlt) as [o Ho]. rewrite Ho. cbn [mjoin option_join].
  destruct o as [f|]; cycle 1. { exists k. split; [done|]. split; [done|]. split; [done|]. exists t. split; [done|]. by rewrite list_insert_id. }
  destruct (clear_is me None _ _ k t fd Hok Ht Hlt) as [x Hx]. destruct (give_back me k0 k t fd f x Hr Hok Ht Ho) as (k' & E & Hok' & Hr' & Htk & _). rewrite <- Hx in E, Htk.
  exists k'. split; [by apply (close_then me k f t)|]. split; [done|]. split; [done|]. exists (clear_fd fd t). rewrite Htk. split; [by eapply insert_at|done].
Qed.

Lemma fd_closeall_ok k0 k : running me k0 k → files_ok None idle_i idle_f k →
  ∃ k', fd_closeall me k = Done k' ∧ files_ok None idle_i idle_f k' ∧ running me k0 k' ∧ ∃ t, tasks k' !! me = Some t ∧ ∀ f, Some f ∉ ofile t.
Proof.
  intros Hr Hok. set (I (n : nat) k := files_ok None idle_i idle_f k ∧ running me k0 k ∧ ∃ t, tasks k !! me = Some t ∧ length (ofile t) = Z.to_nat NOFILE ∧ ∀ fd, (fd < n)%nat → ofile t !! fd = Some None).
  destruct (each_rule (λ fd k, k ← close_fd me fd k; upd_task me (λ t, Fproc (ofile t) (<[fd := 0]> (fdflags t)) (pend t)) k) I (Z.to_nat NOFILE) 0 k) as (k' & Hrun & Hok' & Hr' & t & Ht & Hlen & Hnone).
  - split; [done|]. split; [done|]. destruct (running_task me k0 k Hr) as (t & Ht & _). exists t. split; [done|]. split; [apply (tk_ofile _ _ (fo_task _ _ _ _ Hok me t Ht))|]. intros; lia.
  - intros fd k1 Hfd (Hok1 & Hr1 & t & Ht & Hlen & Hnone). destruct (close_fd_ok k0 k1 t fd Hr1 Hok1 Ht ltac:(lia)) as (k2 & -> & Hok2 & Hr2 & t2 & Ht2 & Eo). run.
    destruct (flags_zero_ok k0 k2 t2 fd Hr2 Hok2 Ht2) as (-> & Hok3 & Hr3). eexists. split; [done|]. split; [done|]. split; [done|]. eexists. split; [by cbn; eapply insert_at|]. cbn.
    rewrite Eo, length_insert. split; [done|]. intros e He. destruct (decide (e = fd)) as [->|Hne]; [apply list_lookup_insert_eq; lia|]. rewrite list_lookup_insert_ne by done. apply Hnone. lia.
  - exists k'. split; [done|]. split; [done|]. split; [done|]. exists t. split; [done|]. intros f [j Hj]%list_elem_of_lookup. pose proof (lookup_lt_Some _ _ _ Hj). rewrite Hnone in Hj by lia. done.
Qed.

Lemma exit_files_ok k0 k : running me k0 k → files_ok None idle_i idle_f k →
  ∃ k', exit_files me k = Done k' ∧ files_ok None idle_i idle_f k' ∧ running me k0 k' ∧ mjoin (cwds (fs k') !! me) = None ∧ ∃ t, tasks k' !! me = Some t ∧ ∀ f, Some f ∉ ofile t.
Proof.
  intros Hr Hok. unfold exit_files. destruct (fd_closeall_ok k0 k Hr Hok) as (k1 & -> & Hok1 & Hr1 & t & Ht & Hn). run. destruct (cwd_slot _ _ k1 me t Hok1 Ht) as [c Hc]. rewrite Hc. cbn [mjoin option_join].
  destruct c as [c|]; [|exists k1; rewrite Hc; split_and!; try done; by exists t]. destruct (cwd_drop_ok me _ (fs k1) c (fo_fs _ _ _ _ Hok1) Hc) as (s' & Hrun & Hal & Hv).
  unfold node_iput, on_fs. rewrite Hrun. run. eexists. split; [done|]. cbn [fs with_fs]. change (with_fs ?s (with_fs s' k1)) with (with_fs s k1). split.
  - apply (with_fs_ok None _ idle_i idle_f k1 _ Hok1 Hv); try done; [exact (alike_quiet _ _ Hal)|].
    transitivity s'; [exact (iput_pipes c (fs k1) _ Hrun)|apply step_nodes; [done|apply length_insert]].
  - split; [by apply (running_same me k0 k1)|]. split; [|by exists t]. cbn. rewrite list_lookup_insert_eq; [done|]. rewrite (al_cwds _ _ Hal). by eapply lookup_lt_Some.
Qed.

Lemma close_on_exec_ok k0 k : running me k0 k → files_ok None idle_i idle_f k →
  ∃ k', fd_close_on_exec me k = Done k' ∧ files_ok None idle_i idle_f k' ∧ running me k0 k'.
Proof.
  intros Hr Hok. edestruct (each_rule (λ fd k, t ← get_task me k;
    match mjoin (ofile t !! fd) with
    | None => mret k
    | Some f => if has (default 0 (fdflags t !! fd)) FD_CLOEXEC then k ← fileclose f k; upd_task me (set_fd fd None 0) k else mret k
    end) (λ _ k, files_ok None idle_i idle_f k ∧ running me k0 k) (Z.to_nat NOFILE) 0 k) as (k' & Hrun & Hok' & Hr'); [done| |by exists k'].
  intros fd k1 _ [Hok1 Hr1]. destruct (running_task me k0 k1 Hr1) as (t & Ht & Hp & ->). run. destruct (ofile t !! fd) as [[f|]|] eqn:Ho; cbn [mjoin option_join]; try by exists k1.
  destruct (has _ _); [|by exists k1]. destruct (give_back me k0 k1 t fd f 0 Hr1 Hok1 Ht Ho) as (k2 & E & Hok2 & Hr2 & _). exists k2. split; [by apply (close_then me k1 f t)|done].
Qed.

(** ** fork *)

Lemma dup_all_ok L l : ∀ k F, files_ok None L F k → (∀ f, f ∈ l → ∃ fl, ftable k !! f = Some fl ∧ 1 ≤ f_ref fl) →
  ∃ k', each l filedup k = Done k' ∧ files_ok None L (λ f, F f + cnt (λ g, g = f) l) k' ∧ tasks k' = tasks k ∧ fs k' = fs k.
Proof.
  induction l as [|f l IH]; intros k F Hok Hl; cbn [each].
  { exists k. split; [done|]. split; [|done]. apply (files_ok_ext _ _ _ _ _ _ Hok); [done|]. intros f. unfold cnt. cbn. lia. }
  destruct (Hl f ltac:(by left)) as (fl & Hf & Hr). destruct (filedup_ok None L F k f fl Hok Hf Hr) as [-> Hok1]. run.
  destruct (IH (set_file f (with_frefs (f_ref fl + 1) fl) k) _ Hok1) as (k' & -> & Hok' & Ht & Hfs).
  { intros g Hg. cbn. destruct (decide (g = f)) as [->|Hne]; [eexists; split; [by eapply insert_at|cbn; lia]|]. rewrite list_lookup_insert_ne by done. apply Hl. by right. }
  exists k'. split; [done|]. split; [|done]. apply (files_ok_ext _ _ _ _ _ _ Hok'); [done|]. intros g. rewrite cnt_cons. unfold bump, one.
  destruct (decide (g = f)), (decide (f = g)); (lia || congruence).
Qed.

Lemma cnt_omap (l : list (option nat)) f : cnt (λ g, g = f) (omap id l) = cnt (λ o, o = Some f) l.
Proof.
  induction l as [|[g|] l IH]; cbn [omap list_omap]; [done|..]; rewrite ?cnt_cons, ?IH; cbn; rewrite ?cnt_cons, ?IH; unfold one; repeat case_decide; (lia || congruence).
Qed.

(** A slot no process uses. *)
Definition empty_slot (child : nat) k : Prop := child ≠ me ∧ cwds (fs k) !! child = Some None ∧ ∃ t, tasks k !! child = Some t ∧ pend t = Idle ∧ ∀ f, Some f ∉ ofile t.

Lemma fd_copy_ok k0 k child : running me k0 k → files_ok None idle_i idle_f k → empty_slot child k →
  ∃ k', fd_copy child me k = Done k' ∧ files_ok None idle_i idle_f k' ∧ fs k' = fs k ∧
    (∀ p, p ≠ child → tasks k' !! p = tasks k !! p) ∧ ∃ t c, tasks k !! me = Some t ∧ tasks k' !! child = Some c ∧ ofile c = ofile t ∧ pend c = Idle.
Proof.
  intros Hr Hok (Hne & _ & tc & Htc & Hpc & Hnone). destruct (running_task me k0 k Hr) as (t & Ht & Hp & Hg). unfold fd_copy. rewrite Hg. run.
  destruct (dup_all_ok idle_i (omap id (ofile t)) k idle_f Hok) as (k1 & -> & Hok1 & Ht1 & Hfs).
  { intros f Hf. apply list_elem_of_omap in Hf as (o & [fd Ho]%list_elem_of_lookup & E). cbn in E. subst o. by apply (file_there _ _ _ k me t fd f Hok Ht). }
  run. unfold upd_task, get_task. rewrite Ht1, Htc. cbn [deref]. run. set (c := Fproc _ _ _). eexists. split; [done|]. destruct (fo_task _ _ _ _ Hok1 me t ltac:(by rewrite Ht1)) as [T1 T2 T3 T4]. split.
  - apply (set_task_ok None _ _ idle_f k1 child tc c Hok1); [by rewrite Ht1| | |done].
    + split; cbn; [done|rewrite length_zip_with; lia|done|]. unfold pend_ok. cbn. by rewrite Hpc.
    + intros f. rewrite cnt_omap. rewrite (cnt_zero _ (ofile tc)) by (intros x Hx ->; by apply (Hnone f)). unfold idle_f. cbn. lia.
  - split; [done|]. split; [intros p Hp'; cbn; rewrite list_lookup_insert_ne by done; by rewrite Ht1|]. exists t, c. split; [done|]. split; [cbn; eapply insert_at; by rewrite Ht1|done].
Qed.

(** A reference to directory [c] becomes the working directory of [p]. *)
Lemma cwd_take_ok k p c cp t : files_ok None (bump (Ino c) 1 idle_i) idle_f k → inodes (fs k) !! c = Some cp → itype cp = T_DIR → attached (fs k) c → tasks k !! p = Some t →
  cwds (fs k) !! p = Some None → files_ok None idle_i idle_f (with_fs (with_cwds (<[p := Some c]> (cwds (fs k))) (fs k)) k).
Proof.
  intros Hok Hc Ht Ha Htp Hp. edestruct (cwd_set_ok p (λ j, cnt (on_inode (Ino j)) (ftable k) + idle_i (Ino j)) (fs k) c cp None) as (s' & Hrun & Hal & Hv); [| |exact Hc|exact Ht|exact Ha|exact Hp|].
  { apply (vfs_ok_ext _ _ _ _ (fo_fs _ _ _ _ Hok)). intros j. unfold plus, bump. repeat case_decide; try lia; congruence. }
  { intros j. pose proof (cnt_nonneg (on_inode (Ino j)) (ftable k)). unfold idle_i. lia. }
  change (Done (fs k) = Done s') in Hrun. assert (s' = fs k) as -> by congruence.
  apply (with_fs_ok None _ idle_i idle_f k _ Hok Hv); try done; [exact (alike_quiet _ _ Hal)|]. apply step_nodes; [done|apply length_insert].
Qed.

Lemma fork_files_ok k0 k child : running me k0 k → files_ok None idle_i idle_f k → empty_slot child k →
  ∃ k', fork_files child me k = Done k' ∧ files_ok None idle_i idle_f k' ∧ (∀ p, p ≠ child → tasks k' !! p = tasks k !! p) ∧
    cwds (fs k') !! child = cwds (fs k) !! me ∧ ∃ t c, tasks k !! me = Some t ∧ tasks k' !! child = Some c ∧ ofile c = ofile t ∧ pend c = Idle.
Proof.
  intros Hr Hok He. unfold fork_files. destruct (fd_copy_ok k0 k child Hr Hok He) as (k1 & -> & Hok1 & Hfs & Hoth & t & c & Ht & Hc & Ho & Hp). run. rewrite Hfs.
  destruct He as (Hne & Hcw & _). destruct (cwd_slot _ _ k me t Hok Ht) as [d Hd]. rewrite Hd. cbn [mjoin option_join].
  destruct d as [d|]; cycle 1. { exists k1. split; [done|]. split; [done|]. split; [done|]. rewrite Hfs. split; [congruence|]. by exists t, c. }
  destruct (vo_cwd _ _ _ (fo_fs _ _ _ _ Hok1) d) as (dp & Hdp & Hdt & Ha); [rewrite Hfs; by eapply list_elem_of_lookup_2|]. specialize (Ha ltac:(done)).
  destruct (node_idup_ok None _ _ k1 (Ino d) dp Hok1 Hdp ltac:(by rewrite Hdt)) as [-> Hok2]. run. set (k2 := set_node (Ino d) _ k1) in *.
  eexists. split; [done|]. split.
  - apply (cwd_take_ok k2 child d (with_ref (ref dp + 1) dp) c Hok2); try done; [by cbn; eapply insert_at| |by cbn; rewrite Hfs].
    destruct Ha as [?|Hl]; [by left|right]. unfold k2. cbn. rewrite (links_insert _ d dp) by done. cbn. lia.
  - split; [done|]. split; [|by exists t, c]. cbn. rewrite list_lookup_insert_eq; [done|]. rewrite Hfs. by eapply lookup_lt_Some.
Qed.

(** ** The first program *)

(** [/dev/console] leads to a character device. *)
Definition console_ok (s : fsys) : Prop := ∀ i, p_namex fuel me (lit "/dev/console") false true s = Done (Some (i, [])) → ∃ ip, inodes s !! i = Some ip ∧ itype ip = T_CHAR.

Lemma console_alike H' H'' s s' : vfs_ok None H' s → vfs_ok None H'' s' → alike s s' → console_ok s → console_ok s'.
Proof.
  intros Hok Hok' Hal Hc i Hi. rewrite (stays_namex H' H'' s s') in Hi; [|done|done|by apply alike_stays|by apply lit_cstring]. destruct (Hc i Hi) as (ip & Hip & Ht). destruct (alike_at s s' i ip Hal Hip) as (ip' & Hip' & E).
  apply strip_fields in E as (E & _). exists ip'. split; [done|congruence].
Qed.

(** A lookup of [/dev/console] that gives up, or one more file on it. *)
Lemma open_console_ok F k0 k rd wr : running me k0 k → files_ok None idle_i F k → resolves fuel me (fs k) → console_ok (fs k) →
  ∃ r k', open_console fuel me rd wr k = Done (r, k') ∧ running me k0 k' ∧ tasks k' = tasks k ∧ alike (fs k) (fs k') ∧ (∀ g, is_open k g → is_open k' g) ∧
    match r with Some f => (f < NFILE)%nat ∧ is_open k' f ∧ files_ok None idle_i (bump f 1 F) k' | None => files_ok None idle_i F k' end.
Proof.
  intros Hr Hok Hres Hcon. unfold open_console, fs_call, fs_namei. pose proof (fo_fs _ _ _ _ Hok) as Hv. assert (cstring (lit "/dev/console")) as Hcs by by apply lit_cstring.
  pose proof (namex_ok fuel me (lit "/dev/console") false true (fs k) _ _ (fs k) Hv (reflexivity _) Hv) as Hf. unfold follows in Hf. specialize (Hres _ false true Hcs).
  destruct (p_namex fuel me _ false true (fs k)) as [o| | |] eqn:Ep; try done. destruct Hf as (s' & Hrun & (Hal & Hv' & Hatt) & _).
  pose proof (namex_pipes fuel me _ false true (fs k) _ Hrun) as Hst. rewrite Hrun. run.
  pose proof (fs_step_ok idle_i F k (option_map fst o) s' Hok Hv' (alike_quiet _ _ Hal) Hst) as Hok1. set (k1 := with_fs s' k) in *. pose proof (running_same me k0 k k1 Hr eq_refl) as Hr1.
  destruct o as [[i e]|]; cbn [option_map fst hold_i] in *; [|by eexists _, _].
  pose proof (p_namex_nil fuel me _ true (fs k) _ Ep) as [= ->]. destruct (Hcon i Ep) as (ip & Hip & Ht).
  destruct (alike_at _ _ i ip Hal Hip) as (ip' & Hip' & Es). apply strip_fields in Es as (Es & _). assert (itype ip' = T_CHAR) as Ht' by congruence.
  pose proof (filealloc_ok None _ _ k1 Hok1) as Ha. destruct (filealloc k1) as [[f|] k2]; cycle 1.
  { subst k2. destruct (ino_put_ok k1 idle_i F i ip' Hok1 ltac:(done) Hip' ltac:(by rewrite Ht')) as (k3 & E3 & Hok3 & Hpt). rewrite E3. run. eexists _, _. split; [done|].
    split; [by apply (running_same me k0 k1); [|apply Hpt]|]. split; [apply Hpt|]. split; [|split; [unfold is_open; by rewrite (pt_table _ _ _ Hpt)|done]]. transitivity s'; [done|].
    destruct (iput_alike (λ j, cnt (on_inode (Ino j)) (ftable k) + idle_i (Ino j)) s' i Hv' (vo_H _ _ _ Hv)) as (s3 & Hp3 & Hal3 & _); [by eexists| |].
    - apply attached_pinned; [apply (vo_H _ _ _ Hv)|]. apply (alike_attached (fs k) s' Hal). by apply Hatt.
    - unfold node_iput, on_fs in E3. change (fs k1) with s' in E3. rewrite Hp3 in E3. revert E3. run. intros [= <-]. done. }
  destruct Ha as (fl & Hfl & Hrf & Hipf & E2 & Hok2). assert (f < NFILE)%nat as Hlf by (rewrite <- (fo_files _ _ _ _ Hok1); by eapply lookup_lt_Some).
  assert (ftable k2 !! f = Some (File FD_NONE 1 false false 0 0 None 0)) as Hf2 by (rewrite E2; by eapply insert_at).
  assert (inodes (fs k2) !! i = Some ip') as Hip2 by by rewrite E2. unfold upd_file, get_file. rewrite Hf2. cbn [deref]. run.
  destruct (file_open_ok (bump f 1 F) k2 f _ i ip' rd wr (if rd && wr then O_RDWR else if wr then O_WRONLY else 0) Hok2 Hf2 eq_refl eq_refl eq_refl Hip2 ltac:(by rewrite Ht')) as (Hok3 & _).
  assert (open_type ip' = FD_CHAR) as Eo by (unfold open_type; by rewrite Ht'). rewrite Eo in Hok3. eexists _, _. split; [done|]. subst k2. split; [by apply (running_same me k0 k1)|]. split; [done|].
  split; [done|]. split.
  { intros g (gl & Hg & Hn). exists gl. split; [|done]. cbn. rewrite list_insert_insert_eq. rewrite list_lookup_insert_ne; [done|]. intros <-. change (ftable k1) with (ftable k) in Hfl. congruence. }
  split; [done|]. split; [eexists; split; [by eapply insert_at|done]|]. apply (exempt_done _ _ _ (Ino i) Hok3). intros jp pi Hj Htj _. cbn in Hj. rewrite Hip' in Hj. injection Hj as <-. by rewrite Ht' in Htj.
Qed.

(** Descriptors 0, 1 and 2 are free. *)
Definition no_stdio k : Prop := ∀ t fd, tasks k !! me = Some t → (fd < 3)%nat → ofile t !! fd = Some None.

Lemma stdio_put_ok k0 k i o t : running me k0 k → files_ok None idle_i (bump o 1 (bump o 1 (bump i 1 idle_f))) k → is_open k i → is_open k o → no_stdio k → tasks k !! me = Some t →
  let t' := set_fd 2 (Some o) 0 (set_fd 1 (Some o) 0 (set_fd 0 (Some i) 0 t)) in
  files_ok None idle_i idle_f (set_task me t' k) ∧ running me k0 (set_task me t' k).
Proof.
  intros Hr Hok Hi Ho Hn Ht. cbn zeta. destruct (running_task me k0 k Hr) as (t1 & Ht1 & Hp & _). rewrite Ht in Ht1. injection Ht1 as <-. split.
  - assert (∀ fd f F k1 t1, files_ok None idle_i (bump f 1 F) k1 → (∀ x, 0 ≤ F x) → tasks k1 !! me = Some t1 → pend t1 = Idle → ofile t1 !! fd = Some None → is_open k1 f →
      files_ok None idle_i F (set_task me (set_fd fd (Some f) 0 t1) k1)) as Hput.
    { intros fd f F k1 t1 Hok1 HF Ht1 Hp1 Hfd Hf. apply (file_back None _ _ _ f). apply fd_put_ok; try done. rewrite bump_eq. pose proof (HF f). lia. }
    assert (∀ t1 t2, set_task me t2 (set_task me t1 k) = set_task me t2 k) as Hss.
    { intros t1 t2. unfold set_task, with_tasks. cbn. by rewrite list_insert_insert_eq. }
    set (t1 := set_fd 0 (Some i) 0 t). set (t2 := set_fd 1 (Some o) 0 t1).
    assert (files_ok None idle_i (bump i 1 (bump o 1 (bump o 1 idle_f))) k) as A0.
    { apply (files_ok_ext _ _ _ _ _ _ Hok); [done|]. intros x. unfold bump. repeat case_decide; lia. }
    assert (files_ok None idle_i (bump o 1 (bump o 1 idle_f)) (set_task me t1 k)) as A1 by (apply Hput; try done; [intros x; unfold bump, idle_f; repeat case_decide; lia|by apply (Hn t); [|lia]]).
    assert (tasks (set_task me t1 k) !! me = Some t1) as Ht1 by by cbn; eapply insert_at.
    assert (files_ok None idle_i (bump o 1 idle_f) (set_task me t2 (set_task me t1 k))) as A2.
    { apply Hput; try done; [intros x; unfold bump, idle_f; repeat case_decide; lia|]. cbn. rewrite list_lookup_insert_ne by done. apply (Hn t); [done|lia]. }
    assert (tasks (set_task me t2 (set_task me t1 k)) !! me = Some t2) as Ht2 by by cbn; eapply insert_at.
    assert (ofile t2 !! 2%nat = Some None) as E2 by (cbn; rewrite !list_lookup_insert_ne by done; apply (Hn t); [done|lia]).
    pose proof (Hput 2%nat o idle_f _ t2 A2 ltac:(done) Ht2 Hp E2 Ho) as A3. by rewrite !Hss in A3.
  - split; [eexists; split; [by cbn; eapply insert_at|done]|]. intros p Hne. cbn. rewrite list_lookup_insert_ne by done. by apply Hr.
Qed.

Lemma install_stdio_ok k0 k : running me k0 k → files_ok None idle_i idle_f k → resolves fuel me (fs k) → console_ok (fs k) → no_stdio k →
  ∃ k', fd_install_stdio fuel me k = Done k' ∧ files_ok None idle_i idle_f k' ∧ running me k0 k'.
Proof.
  intros Hr Hok Hres Hcon Hn. unfold fd_install_stdio. destruct (open_console_ok idle_f k0 k true false Hr Hok Hres Hcon) as (inp & k1 & -> & Hr1 & Ht1 & Hal1 & _ & Hi1). run.
  set (F1 := match inp with Some f => bump f 1 idle_f | None => idle_f end). assert (files_ok None idle_i F1 k1) as Hok1 by (unfold F1; destruct inp; [by destruct Hi1 as (_ & _ & ?)|done]).
  assert (resolves fuel me (fs k1)) as Hres1 by (eapply resolves_alike; [apply Hok|apply Hok1|done|done]).
  assert (console_ok (fs k1)) as Hcon1 by (eapply console_alike; [apply Hok|apply Hok1|done|done]).
  destruct (open_console_ok F1 k0 k1 false true Hr1 Hok1 Hres1 Hcon1) as (out & k2 & -> & Hr2 & Ht2 & Hal2 & Hkeep & Ho2). run.
  assert (∀ f k3, files_ok None idle_i (bump f 1 idle_f) k3 → (f < NFILE)%nat → running me k0 k3 →
    ∃ k', fileclose f k3 = Done k' ∧ files_ok None idle_i idle_f k' ∧ running me k0 k') as Hclose.
  { intros f k3 Hok3 Hf Hr3. destruct (close_file_ok _ _ k3 f Hok3 ltac:(done) (file_is_there _ _ _ k3 f Hok3 Hf)) as (k4 & -> & Hok4 & Ht4).
    exists k4. split; [done|]. split; [done|]. by apply (running_same me k0 k3). }
  destruct inp as [i|], out as [o|]; subst F1; run.
  - destruct Hi1 as (Hli & Hopi & Hi1), Ho2 as (Hlo & Hopo & Ho2). destruct (file_is_there _ _ _ k2 o Ho2 Hlo) as [fl Hfl].
    assert (1 ≤ f_ref fl) as Hrf. { destruct (fo_file _ _ _ _ Ho2 o fl Hfl) as [_ ->]. rewrite bump_eq. pose proof (fd_refs_nonneg (tasks k2) o). destruct (two_nonneg i i o). lia. }
    destruct (filedup_ok None _ _ k2 o fl Ho2 Hfl Hrf) as [-> Hok3]. run. destruct (running_task me k0 k2 Hr2) as (t & Ht & Hp & _). unfold upd_task, get_task. cbn [tasks set_file with_ftable].
    rewrite Ht. cbn [deref]. run. eexists. split; [done|]. set (k3 := set_file o _ k2) in *. assert (no_stdio k3) as Hn3 by (intros t' fd Ht' Hfd; cbn in Ht'; apply (Hn t'); [congruence|done]).
    assert (∀ g, is_open k2 g → is_open k3 g) as Hk3.
    { intros g (gl & Hg & Hng). destruct (decide (g = o)) as [->|Hne]; [|exists gl; split; [cbn; by rewrite list_lookup_insert_ne|done]].
      rewrite Hfl in Hg. injection Hg as <-. eexists. split; [by eapply insert_at|done]. }
    by destruct (stdio_put_ok k0 k3 i o t (running_same me k0 k2 k3 Hr2 eq_refl) Hok3 (Hk3 _ (Hkeep i Hopi)) (Hk3 _ Hopo) Hn3 Ht).
  - destruct Hi1 as (Hli & _ & Hi1). destruct (Hclose i k2 Ho2 Hli Hr2) as (k3 & -> & ?). run. by exists k3.
  - destruct Ho2 as (Hlo & _ & Ho2). destruct (Hclose o k2 Ho2 Hlo Hr2) as (k3 & -> & ?). by exists k3.
  - by exists k2.
Qed.

Lemma root_found H' s : (0 < fuel)%nat → vfs_ok None H' s → ∃ r, vfs_root s = Some r ∧ p_namex fuel me [SLASH] false true s = Done (Some (r, [])).
Proof.
  intros Hfuel Hok. destruct (vo_root _ _ _ Hok) as (r & rp & Hr & _). exists r. split; [done|]. destruct fuel as [|n]; [lia|]. cbn [p_namex]. change (at_ [SLASH] 0 =? SLASH) with true. cbn iota. by rewrite Hr.
Qed.

Lemma boot_files_ok k0 k : running me k0 k → files_ok None idle_i idle_f k → resolves fuel me (fs k) → console_ok (fs k) →
  (∀ t, tasks k !! me = Some t → ofile t !! 0%nat = Some None → no_stdio k) →
  ∃ k', kernel_execve_files fuel me k = Done k' ∧ files_ok None idle_i idle_f k' ∧ running me k0 k'.
Proof.
  intros Hr Hok Hres Hcon Hstd. unfold kernel_execve_files. destruct (running_task me k0 k Hr) as (t & Ht & Hp & ->). run.
  assert (∃ k1, match mjoin (ofile t !! 0%nat) with None => fd_install_stdio fuel me k | Some _ => mret k end = Done k1 ∧ files_ok None idle_i idle_f k1 ∧ running me k0 k1)
    as (k1 & -> & Hok1 & Hr1).
  { destruct (lookup_lt_is_Some_2 (ofile t) 0) as [o Ho]; [rewrite (tk_ofile _ _ (fo_task _ _ _ _ Hok me t Ht)); unfold NOFILE; lia|]. rewrite Ho. cbn [mjoin option_join]. destruct o; [by exists k|].
    by apply install_stdio_ok; [..|apply (Hstd t)]. }
  run. destruct (running_task me k0 k1 Hr1) as (t1 & Ht1 & _). destruct (cwd_slot _ _ k1 me t1 Hok1 Ht1) as [c Hc]. rewrite Hc. cbn [mjoin option_join]. destruct c as [c|]; [by exists k1|].
  assert (0 < fuel)%nat as Hfuel. { specialize (Hres [SLASH] false true ltac:(by repeat constructor)). destruct fuel; [done|lia]. }
  destruct (root_found _ (fs k1) Hfuel (fo_fs _ _ _ _ Hok1)) as (root & Hroot & Ep). unfold fs_call, fs_namei.
  pose proof (namex_ok fuel me [SLASH] false true (fs k1) _ _ (fs k1) (fo_fs _ _ _ _ Hok1) (reflexivity _) (fo_fs _ _ _ _ Hok1)) as Hf. rewrite Ep in Hf. destruct Hf as (s2 & Hrun & (Hal & Hv2 & _) & _).
  pose proof (namex_pipes fuel me _ false true (fs k1) _ Hrun) as Hst. rewrite Hrun. run.
  pose proof (fs_step_ok idle_i idle_f k1 (Some root) s2 Hok1 Hv2 (alike_quiet _ _ Hal) Hst) as Hok2. cbn [hold_i] in Hok2. set (k2 := with_fs s2 k1) in *.
  destruct (vo_root _ _ _ Hv2) as (r & rp & Hr2 & Hrp & Hrt & _). rewrite (al_root _ _ Hal), Hroot in Hr2. injection Hr2 as <-.
  eexists. split; [done|]. split; [|by apply (running_same me k0 k1)]. apply (cwd_take_ok k2 me root rp t1 Hok2); try done; [left; by rewrite <- Hroot; apply Hal|cbn; by rewrite (al_cwds _ _ Hal)].
Qed.
End Tasks.
