(* ===== verification/FileClaims.v ===== *)
(** [FileClaims]: the system calls on files put together: any sequence of calls by
    any processes runs, from boot on, and what holds in every state it reaches. *)
From Stdlib Require Import ZArith Lia.
From stdpp Require Import numbers strings gmap list.
From S2P Require Import Prelude MemLayout Pipe Vfs VfsInv RamfsSpec RamfsRename RamfsData Namei NameiSpec NameiOps NameiCalls NameiLive FsInit VfsFrame File SysFile FileInv FileOps FileIo FileCalls FileDesc FileOpen FileTasks.
Open Scope Z_scope.

Section Run.
Context {M D : Type} `{UserMemoryLaws M} `{DevicesLaws D}.
Notation ksys := (ksys M D).
Implicit Types (k : ksys).
Context (fuel : nat).

(** What a caller must not do: loop in path lookup for longer than the kernel's
    stack lasts, make a file larger than [kmalloc] can hold, replace a directory
    that someone works in, or change to one that is removed.  Arguments are
    [int]s. *)
Definition call_allowed (me : nat) (c : call) k : Prop :=
  resolves fuel me (fs k) ∧
  match c with
  | Write fd _ n => write_fits me k fd n
  | Truncate _ n | Ftruncate _ n => small n
  | Lseek _ offset _ => offset < 2 ^ 31
  | Rename uold unew =>
      ∀ old m new m', um_copyinstr me uold (Z.of_nat NNAME) (mem k) = Done (Some old, m) → um_copyinstr me unew (Z.of_nat NNAME) m = Done (Some new, m') →
        rename_allowed fuel me new (fs k)
  | Fchdir fd => fchdir_allowed me k fd
  | _ => True
  end.

Definition act_allowed (me : nat) (a : act) k : Prop :=
  (me < length (tasks k))%nat ∧
  match a with
  | Call c => call_allowed me c k
  | Fork child => empty_slot me child k
  | Boot => resolves fuel me (fs k) ∧ console_ok fuel me (fs k) ∧ ∀ t, tasks k !! me = Some t → ofile t !! 0%nat = Some None → no_stdio me k
  | Resume | Exit | Exec => True
  end.

Lemma do_call_ok me c k : running me k k → files_ok None idle_i idle_f k → call_allowed me c k → finishes me k (do_call fuel me c k).
Proof.
  intros Hr Hok [Hres Hc]. destruct c; cbn [do_call]; auto using sys_open_ok, sys_creat_ok, sys_close_ok, sys_dup_ok, sys_dup2_ok, sys_fcntl_ok, sys_flock_ok, sys_lseek_ok, sys_ioctl_ok,
    sys_fsync_ok, sys_fstat_ok, sys_stat_ok, sys_lstat_ok, sys_readlink_ok, sys_pipe_ok, sys_read_ok, sys_write_ok, sys_mkdir_ok, sys_rmdir_ok, sys_unlink_ok, sys_link_ok,
    sys_symlink_ok, sys_rename_ok, sys_access_ok, sys_chmod_ok, sys_chown_ok, sys_chdir_ok, sys_utime_ok, sys_getcwd_ok, sys_truncate_ok, sys_ftruncate_ok, sys_fchdir_ok, sys_mknod_ok.
  by apply finishes_ret.
Qed.

Lemma settle_call_ok me k0 k r : settled me k0 k r →
  ∃ v k', settle_call me r k = Done (v, k') ∧ files_ok None idle_i idle_f k' ∧ ∀ p, p ≠ me → tasks k' !! p = tasks k0 !! p.
Proof.
  intros [Hok (t & Ht & Hs) Ho]. unfold settle_call, upd_task, get_task. rewrite Ht. cbn [deref]. run. eexists _, _. split; [done|]. split.
  - destruct (fo_task _ _ _ _ Hok me t Ht) as [T1 T2 T3 T4]. apply (set_task_ok None _ idle_f idle_f k me t); try done; [|intros g; unfold idle_f; cbn; lia].
    split; cbn; try done. by destruct r.
  - intros p Hne. cbn. rewrite list_lookup_insert_ne by done. by apply Ho.
Qed.

Lemma file_act_ok me a k : files_ok None idle_i idle_f k → act_allowed me a k →
  ∃ v k', file_act fuel me a k = Done (v, k') ∧ files_ok None idle_i idle_f k' ∧ ∀ p, p ≠ me → (∀ child, a = Fork child → p ≠ child) → tasks k' !! p = tasks k !! p.
Proof.
  intros Hok [Hlt Ha]. destruct (lookup_lt_is_Some_2 _ _ Hlt) as [t Ht]. unfold file_act, get_task. rewrite Ht. cbn [deref]. run.
  assert (∃ (v : option Z) k', Done (None, k) = Done (v, k') ∧ files_ok None idle_i idle_f k' ∧ ∀ p, p ≠ me → (∀ child, a = Fork child → p ≠ child) → tasks k' !! p = tasks k !! p) as Hskip by by eexists _, _.
  assert (pend t = Idle ∨ pend t ≠ Idle) as [Hp|Hp] by (destruct (pend t); [by left|by right..]); cycle 1.
  { destruct a; try by destruct (pend t). destruct (resume_call_ok me k t Hok Ht Hp) as (r & k1 & Hrun & Hs). destruct (settle_call_ok me k k1 r Hs) as (v & k2 & E & Hok2 & Ho).
    exists v, k2. split; [|by split; [|intros p Hne _; apply Ho]]. destruct (pend t); [done|..]; rewrite Hrun; run; exact E. }
  assert (running me k k) as Hr by by split; [exists t|]. rewrite Hp. destruct a as [c| |child| | |]; [|done|..].
  - destruct (do_call_ok me c k Hr Hok Ha) as (r & k1 & -> & Hs). run. destruct (settle_call_ok me k k1 r Hs) as (v & k2 & -> & Hok2 & Ho). exists v, k2. split; [done|]. split; [done|]. intros p Hne _. by apply Ho.
  - destruct (fork_files_ok me k k child Hr Hok Ha) as (k1 & -> & Hok1 & Ho & _). run. eexists _, _. split; [done|]. split; [done|]. intros p _ Hne. apply Ho. by apply Hne.
  - destruct (exit_files_ok me k k Hr Hok) as (k1 & -> & Hok1 & Hr1 & _). run. eexists _, _. split; [done|]. split; [done|]. intros p Hne _. by apply Hr1.
  - destruct (close_on_exec_ok me k k Hr Hok) as (k1 & -> & Hok1 & Hr1). run. eexists _, _. split; [done|]. split; [done|]. intros p Hne _. by apply Hr1.
  - destruct Ha as (Hres & Hcon & Hstd). destruct (boot_files_ok fuel me k k Hr Hok Hres Hcon Hstd) as (k1 & -> & Hok1 & Hr1). run. eexists _, _. split; [done|]. split; [done|]. intros p Hne _. by apply Hr1.
Qed.

(** Every step is allowed when it is its turn. *)
Fixpoint acts_allowed (l : list (nat * act)) k : Prop :=
  match l with
  | [] => True
  | (me, a) :: l => act_allowed me a k ∧ ∀ v k', file_act fuel me a k = Done (v, k') → acts_allowed l k'
  end.

Lemma file_acts_ok l : ∀ k, files_ok None idle_i idle_f k → acts_allowed l k → ∃ k', file_acts fuel l k = Done k' ∧ files_ok None idle_i idle_f k'.
Proof.
  induction l as [|[me a] l IH]; intros k Hok Hal; cbn [file_acts]; [by exists k|]. destruct Hal as [Ha Hl].
  destruct (file_act_ok me a k Hok Ha) as (v & k1 & E & Hok1 & _). rewrite E. run. by apply IH; [|by apply (Hl v)].
Qed.
End Run.

(** * The file system and the files at boot, and what the system
    calls on files promise in every run. *)

(** ** Boot *)

Lemma seed_file_pipes fuel me path text s : keeps_pipes s (seed_file fuel me path text s).
Proof. unfold seed_file. framed. Qed.
#[export] Hint Resolve seed_file_pipes : frame.

Definition blank_fs (procs : nat) (now : Z) (h : list bool) : fsys := Fsys (replicate NINODE zero_inode) None (replicate procs None) now h false.

Lemma root_pipes root s : fifo_step s (vfs_set_root root s).
Proof. by apply step_nodes. Qed.

Lemma fs_init_pipes fuel me procs now h : keeps_pipes (blank_fs procs now h) (fs_init fuel me procs now h).
Proof.
  unfold fs_init. change (Fsys _ _ _ _ _ _) with (blank_fs procs now h). destruct (ialloc T_DIR (blank_fs procs now h)) as [[root|] s] eqn:E; [|by apply frames_none].
  apply (frames_from _ _ s _ (ialloc_pipes _ _ _ _ E)). clear E. apply (frames_bind id); [other_fields|]. intros s1 _. cbn zeta.
  apply (frames_from _ _ (vfs_set_root root s1) _ (root_pipes root s1)). framed.
Qed.

Section Claims.
Context {M D : Type} `{UserMemoryLaws M} `{DevicesLaws D}.
Notation ksys := (ksys M D).
Implicit Types (k : ksys).

Lemma fileinit_tables s m d : (∀ f fl, ftable (fileinit s m d : ksys) !! f = Some fl → fl = zero_file) ∧
  (∀ p t, tasks (fileinit s m d : ksys) !! p = Some t → t = no_files) ∧ (∀ i ip, pipes (fileinit s m d : ksys) !! i = Some ip → ip = zero_inode).
Proof. split_and!; intros x y [-> _]%lookup_replicate; done. Qed.

Lemma no_files_none f : Some f ∉ ofile no_files.
Proof. intros [i Hi]%list_elem_of_lookup. by apply lookup_replicate in Hi as [? _]. Qed.

Lemma fileinit_cnt s m d (P : file → Prop) `{∀ x, Decision (P x)} : ¬ P zero_file → cnt P (ftable (fileinit s m d : ksys)) = 0.
Proof. intros Hn. apply cnt_zero. intros x [i Hi]%list_elem_of_lookup. by rewrite (proj1 (fileinit_tables s m d) _ _ Hi). Qed.

Lemma fileinit_refs s m d f : fd_refs (tasks (fileinit s m d : ksys)) f = 0.
Proof.
  cbn. induction (length (cwds s)) as [|n IH]; [done|]. cbn [replicate fd_refs]. rewrite IH. rewrite cnt_zero; [done|]. intros x Hx ->. by apply (no_files_none f).
Qed.

Lemma fileinit_ok fuel me procs now h s m d : fs_init (S fuel) me procs now h = Done s → mem_ok m → files_ok None idle_i idle_f (fileinit s m d : ksys).
Proof.
  intros Hs Hm. pose proof (fs_init_ok fuel me procs now h) as Hi. rewrite Hs in Hi. destruct Hi as [Hv Hc]. destruct (fs_init_pipes (S fuel) me procs now h _ Hs) as [Hst _].
  destruct (fileinit_tables s m d) as (Tf & Tt & Tp). assert (∀ i ip, inodes s !! i = Some ip → size ip ≤ KMALLOC_MAX ∧ (itype ip = T_FIFO → new_pipe (i_pipe ip))) as Hnew.
  { intros i ip Hip. destruct (Hst i ip Hip) as (ip0 & Hi0 & Hp & Hsz). unfold blank_fs in Hi0. cbn [inodes] in Hi0. apply lookup_replicate in Hi0 as [-> _]. assert (0 ≤ KMALLOC_MAX) by by vm_compute. cbn in Hsz. split; [lia|].
    intros Ht. destruct (Hp Ht) as [[? _]|?]; done. }
  assert (∀ r, ¬ on_inode r zero_file) as Hno by done.
  assert (∀ r ip pi, node r (fileinit s m d : ksys) = Some ip → itype ip = T_FIFO → i_pipe ip = Some pi → pi = fifo_init ∅) as Hpipe.
  { intros [i|i] ip pi Hn Ht Hp; [|by rewrite (Tp i ip Hn) in Ht]. destruct (proj2 (Hnew i ip Hn) Ht); congruence. }
  split; try done.
  - cbn. by rewrite length_replicate.
  - intros i ip Hip. rewrite (Tp i ip Hip). split; [by split|]. by rewrite fileinit_cnt.
  - intros f fl Hf. rewrite (Tf f fl Hf). split; [split; try done; by left|]. by rewrite fileinit_refs.
  - intros p t Ht. rewrite (Tt p t Ht). split; [by apply length_replicate..| |done]. intros f Hf. by destruct (no_files_none f).
  - intros r _ ip pi Hn Ht Hp. rewrite (Hpipe r ip pi Hn Ht Hp). by rewrite !fileinit_cnt by (by intros [? _]).
  - intros r ip pi Hn Ht Hp. rewrite (Hpipe r ip pi Hn Ht Hp). apply fifo_init_safe.
  - intros f g fl gl r Hf _ _ Hr. by rewrite (Tf f fl Hf) in Hr.
  - intros i ip Hip. by apply (Hnew i ip).
Qed.

(** ** Runs *)


(** A state of such a run. *)
Definition reached (fuel : nat) k : Prop := ∃ me procs now h s m d l,
  fs_init (S fuel) me procs now h = Done s ∧ mem_ok m ∧ acts_allowed (S fuel) l (fileinit s m d : ksys) ∧ file_acts (S fuel) l (fileinit s m d : ksys) = Done k.

Lemma reached_ok fuel k : reached fuel k → files_ok None idle_i idle_f k.
Proof.
  intros (me & procs & now & h & s & m & d & l & Hs & Hm & Hl & Hrun). destruct (file_acts_ok (S fuel) l (fileinit s m d)) as (k' & Hrun' & Hok); [by eapply fileinit_ok|done|]. congruence.
Qed.



End Claims.
