(* ===== verification/FileRead.v ===== *)
(** [FileRead]: the loops that transfer a file piece by piece do what one transfer
    of the whole would do: [sys_read] through its buffer of 128 bytes, and
    [file_blk_rw] sector by sector. *)
From Stdlib Require Import ZArith Lia.
From stdpp Require Import numbers strings gmap list.
From S2P Require Import Prelude MemLayout Pipe Vfs VfsInv RamfsSpec RamfsRename RamfsData Namei NameiSpec NameiOps VfsFrame File SysFile FileInv FileOps FileIo.
Open Scope Z_scope.

(** ** Block devices *)

(** A disk that does not fail: its sectors, and what its driver does with them. *)
Class Disk (D : Type) `{Devices D} := {
  disk (d : D) (rdev sec : Z) : list Z;
  disk_len d rdev sec : length (disk d rdev sec) = Z.to_nat BLOCK_SECTOR_SIZE;
  disk_read rdev sec d cap : blk_capacity rdev d = Some cap → 0 ≤ sec < cap → blk_read_sect rdev sec d = (Some (disk d rdev sec), d);
  disk_write rdev sec src d cap : blk_capacity rdev d = Some cap → 0 ≤ sec < cap → length src = Z.to_nat BLOCK_SECTOR_SIZE →
    ∃ d', blk_write_sect rdev sec src d = (true, d') ∧ (∀ r, blk_capacity r d' = blk_capacity r d) ∧
      ∀ r s, disk d' r s = if decide (r = rdev ∧ s = sec) then src else disk d r s
}.

Section Disks.
Context {D : Type} `{Disk D}.
Context (rdev cap : Z).
(** The disk is smaller than 4 GiB. *)
Context (Hsmall : cap * BLOCK_SECTOR_SIZE < 2 ^ 32).

(** The bytes of the disk as one sequence. *)
Definition disk_byte (d : D) (r j : Z) : Z := default 0 (disk d r (j / BLOCK_SECTOR_SIZE) !! Z.to_nat (j mod BLOCK_SECTOR_SIZE)).
Definition disk_bytes (d : D) (off : Z) (n : nat) : list Z := (λ i, disk_byte d rdev (off + Z.of_nat i)) <$> seq 0 n.

(** How many of [n] bytes at [off] are on the disk. *)
Definition disk_got (off n : Z) : Z := Z.max 0 (Z.min n (cap * BLOCK_SECTOR_SIZE - off)).

Lemma disk_bytes_length d off n : length (disk_bytes d off n) = n.
Proof. unfold disk_bytes. by rewrite length_fmap, length_seq. Qed.

Lemma disk_bytes_app d off a b : disk_bytes d off (a + b) = disk_bytes d off a ++ disk_bytes d (off + Z.of_nat a) b.
Proof.
  unfold disk_bytes. rewrite seq_app, fmap_app. f_equal. rewrite Nat.add_0_l, <- (Nat.add_0_r a), <- fmap_add_seq at 1. rewrite <- list_fmap_compose.
  apply list_fmap_ext. intros i x _. cbn. f_equal. lia.
Qed.

(** A place [i] bytes further on in the same sector. *)
Lemma same_sector off i : off mod BLOCK_SECTOR_SIZE + i < BLOCK_SECTOR_SIZE → 0 ≤ i →
  (off + i) / BLOCK_SECTOR_SIZE = off / BLOCK_SECTOR_SIZE ∧ (off + i) mod BLOCK_SECTOR_SIZE = off mod BLOCK_SECTOR_SIZE + i.
Proof.
  intros Hi Hp. pose proof (Z.mod_pos_bound off BLOCK_SECTOR_SIZE ltac:(done)). pose proof (Z.div_mod off BLOCK_SECTOR_SIZE ltac:(done)).
  split; symmetry; [eapply (Z.div_unique_pos _ _ _ (off mod BLOCK_SECTOR_SIZE + i))|eapply (Z.mod_unique_pos _ _ (off / BLOCK_SECTOR_SIZE))]; lia.
Qed.

(** A piece within a sector. *)
Lemma disk_piece d off c : 0 ≤ off → off mod BLOCK_SECTOR_SIZE + Z.of_nat c ≤ BLOCK_SECTOR_SIZE →
  take c (drop (Z.to_nat (off mod BLOCK_SECTOR_SIZE)) (disk d rdev (off / BLOCK_SECTOR_SIZE))) = disk_bytes d off c.
Proof.
  intros Ho Hc. pose proof (Z.mod_pos_bound off BLOCK_SECTOR_SIZE ltac:(done)) as Hm. apply list_eq. intros i. destruct (decide (i < c)%nat) as [Hi|Hi].
  - rewrite lookup_take_lt, lookup_drop by done. unfold disk_bytes. rewrite list_lookup_fmap, lookup_seq_lt by done. cbn [fmap option_fmap option_map]. rewrite Nat.add_0_l. unfold disk_byte.
    destruct (same_sector off (Z.of_nat i)) as [-> ->]; [lia..|]. rewrite Z2Nat.inj_add, Nat2Z.id by lia.
    destruct (lookup_lt_is_Some_2 (disk d rdev (off / BLOCK_SECTOR_SIZE)) (Z.to_nat (off mod BLOCK_SECTOR_SIZE) + i)) as [x ->]; [|done]. rewrite disk_len. lia.
  - rewrite lookup_take_ge by lia. symmetry. apply lookup_ge_None_2. rewrite disk_bytes_length. lia.
Qed.

Lemma got_zero off n : n ≤ 0 ∨ cap ≤ off / BLOCK_SECTOR_SIZE → 0 ≤ off → disk_got off n = 0.
Proof.
  intros Hz Ho. unfold disk_got. destruct Hz as [|Hz]; [lia|]. pose proof (Z.div_mod off BLOCK_SECTOR_SIZE ltac:(done)). pose proof (Z.mod_pos_bound off BLOCK_SECTOR_SIZE ltac:(done)).
  unfold BLOCK_SECTOR_SIZE in *. nia.
Qed.

Lemma got_step off n c : off / BLOCK_SECTOR_SIZE < cap → 0 ≤ off → 0 < c ≤ n → off mod BLOCK_SECTOR_SIZE + c ≤ BLOCK_SECTOR_SIZE → disk_got off n = c + disk_got (off + c) (n - c).
Proof.
  intros Hc Ho Hn Hs. unfold disk_got. pose proof (Z.div_mod off BLOCK_SECTOR_SIZE ltac:(done)). pose proof (Z.mod_pos_bound off BLOCK_SECTOR_SIZE ltac:(done)).
  unfold BLOCK_SECTOR_SIZE in *. nia.
Qed.

Lemma step_small off c : off / BLOCK_SECTOR_SIZE < cap → 0 ≤ off → 0 < c → off mod BLOCK_SECTOR_SIZE + c ≤ BLOCK_SECTOR_SIZE → u32 (off + c) = off + c.
Proof using Hsmall.
  intros Hc Ho Hn Hs. pose proof (Z.div_mod off BLOCK_SECTOR_SIZE ltac:(done)). apply u32_small. unfold BLOCK_SECTOR_SIZE in *. nia.
Qed.

Lemma blk_read_loop_flat n d fuel : blk_capacity rdev d = Some cap → ∀ off done, 0 ≤ off → Z.of_nat (length done) ≤ n →
  (off mod BLOCK_SECTOR_SIZE = 0 → n - Z.of_nat (length done) ≤ BLOCK_SECTOR_SIZE * Z.of_nat fuel) →
  (off mod BLOCK_SECTOR_SIZE ≠ 0 → n = Z.of_nat (length done) ∨ n - Z.of_nat (length done) ≤ BLOCK_SECTOR_SIZE * (Z.of_nat fuel - 1)) →
  let v := disk_got off (n - Z.of_nat (length done)) in
  blk_read_loop (S fuel) rdev cap off n done d = Done (Z.of_nat (length done) + v, done ++ disk_bytes d off (Z.to_nat v), Some (off + v), d).
Proof.
  intros Hcap. induction fuel as [|fuel IH]; intros off dn Ho Hle Ha Hu; cbn zeta.
  { cbn [blk_read_loop]. destruct (Z.leb_spec n (Z.of_nat (length dn))); [|unfold BLOCK_SECTOR_SIZE in *; lia]. rewrite got_zero by lia. by rewrite app_nil_r, !Z.add_0_r. }
  remember (S fuel) as fuel' eqn:Ef. cbn [blk_read_loop]. subst fuel'.
  destruct (Z.leb_spec n (Z.of_nat (length dn))); [rewrite got_zero by lia; by rewrite app_nil_r, !Z.add_0_r|].
  destruct (Z.leb_spec cap (off / BLOCK_SECTOR_SIZE)); [rewrite got_zero by lia; by rewrite app_nil_r, !Z.add_0_r|].
  unfold blk_read_part. rewrite (disk_read _ _ _ cap Hcap) by (split; [apply Z.div_pos; [lia|done]|lia]).
  destruct (mod_part off (n - Z.of_nat (length dn)) Ho ltac:(lia)) as (P1 & P2 & P3 & P4).
  set (c := Z.min (BLOCK_SECTOR_SIZE - off mod BLOCK_SECTOR_SIZE) (n - Z.of_nat (length dn))) in *. rewrite (disk_piece d off (Z.to_nat c)) by lia. cbn iota beta.
  rewrite disk_bytes_length, Z2Nat.id, step_small by lia. rewrite IH; rewrite ?length_app, ?disk_bytes_length; try (unfold BLOCK_SECTOR_SIZE in *; lia).
  rewrite (got_step off (n - Z.of_nat (length dn)) c) by lia. replace (n - Z.of_nat (length dn + Z.to_nat c)) with (n - Z.of_nat (length dn) - c) by lia.
  assert (0 ≤ disk_got (off + c) (n - Z.of_nat (length dn) - c)) by (unfold disk_got; lia).
  rewrite (Z2Nat.inj_add c), disk_bytes_app, <- app_assoc, Z2Nat.id by lia. f_equal. f_equal. f_equal; [f_equal; lia|f_equal; lia].
Qed.

(** [src] written at byte [off] of [d]. *)
Definition disk_wrote (off : Z) (src : list Z) (d d' : D) : Prop :=
  (∀ r, blk_capacity r d' = blk_capacity r d) ∧
  ∀ r j, 0 ≤ j → disk_byte d' r j = if decide (r = rdev ∧ off ≤ j < off + Z.of_nat (length src)) then default 0 (src !! Z.to_nat (j - off)) else disk_byte d r j.

(** The sector that is written back, after it was read or not. *)
Lemma patched (l buf : list Z) a : (a + length buf ≤ length l)%nat →
  let l' := take a l ++ buf ++ drop (a + length buf) l in
  length l' = length l ∧ ∀ p, (p < length l)%nat → l' !! p = if decide (a ≤ p < a + length buf)%nat then buf !! (p - a)%nat else l !! p.
Proof.
  intros Ha. cbn zeta. rewrite !length_app, length_take, length_drop. split; [lia|]. intros p Hp. destruct (decide (p < a)%nat).
  { rewrite lookup_app_l by (rewrite length_take; lia). rewrite decide_False by lia. by apply lookup_take_lt. }
  rewrite lookup_app_r by (rewrite length_take; lia). rewrite length_take, Nat.min_l by lia. case_decide as Hd.
  - by apply lookup_app_l; lia.
  - rewrite lookup_app_r by lia. rewrite lookup_drop. f_equal. lia.
Qed.

Lemma blk_write_part_flat off src d : blk_capacity rdev d = Some cap → 0 ≤ off → off / BLOCK_SECTOR_SIZE < cap → src ≠ [] →
  let c := Z.min (BLOCK_SECTOR_SIZE - off mod BLOCK_SECTOR_SIZE) (Z.of_nat (length src)) in
  ∃ d', blk_write_part rdev off src d = (Some c, d') ∧ disk_wrote off (take (Z.to_nat c) src) d d'.
Proof.
  intros Hcap Ho Hc Hne. cbn zeta. assert (0 < length src)%nat as Hpos by (destruct src; [done|cbn; lia]). destruct (mod_part off (Z.of_nat (length src)) Ho ltac:(lia)) as (P1 & P2 & _ & _).
  set (c := Z.min _ _) in *. set (so := off mod BLOCK_SECTOR_SIZE) in *. pose proof (Z.mod_pos_bound off BLOCK_SECTOR_SIZE ltac:(done)) as Hm. fold so in Hm. set (sec := off / BLOCK_SECTOR_SIZE) in *.
  assert (0 ≤ sec < cap) as Hsec by (split; [apply Z.div_pos; [lia|done]|lia]). set (buf := take (Z.to_nat c) src). assert (length buf = Z.to_nat c) as Hbl by (unfold buf; rewrite length_take; lia).
  destruct (patched (disk d rdev sec) buf (Z.to_nat so)) as [Hpl Hp]; [rewrite disk_len; lia|]. set (new := take _ _ ++ _) in *. rewrite disk_len in Hpl, Hp.
  destruct (disk_write rdev sec new d cap Hcap Hsec Hpl) as (d' & Hw & Hcs & Hd). exists d'. split.
  - unfold blk_write_part. fold so sec c buf. destruct (negb (so =? 0) || negb (c =? BLOCK_SECTOR_SIZE)) eqn:E.
    + rewrite (disk_read _ _ _ cap Hcap Hsec). replace (Z.to_nat (so + c)) with (Z.to_nat so + length buf)%nat by lia. fold new. by rewrite Hw.
    + apply orb_false_iff in E as [E1%negb_false_iff%Z.eqb_eq E2%negb_false_iff%Z.eqb_eq]. assert (new = buf) as En; [|rewrite <- En; by rewrite Hw].
      unfold new. rewrite E1. cbn [Z.to_nat take app]. rewrite drop_ge by (rewrite disk_len; lia). by rewrite app_nil_r.
  - split; [done|]. intros r j Hj. unfold disk_byte at 1. rewrite Hd. pose proof (Z.div_mod j BLOCK_SECTOR_SIZE ltac:(done)) as Hjd. pose proof (Z.mod_pos_bound j BLOCK_SECTOR_SIZE ltac:(done)) as Hjm.
    pose proof (Z.div_mod off BLOCK_SECTOR_SIZE ltac:(done)) as Hod. fold so sec in Hod. rewrite Hbl, Z2Nat.id by lia. destruct (decide (r = rdev ∧ j / BLOCK_SECTOR_SIZE = sec)) as [[-> Es]|Hn].
    + rewrite Hp by lia. destruct (decide (rdev = rdev ∧ off ≤ j < off + c)) as [[_ Hin]|Hout].
      * rewrite decide_True by lia. do 2 f_equal. lia.
      * rewrite decide_False by lia. unfold disk_byte. by rewrite Es.
    + rewrite decide_False; [done|]. intros [-> Hin]. apply Hn. split; [done|]. destruct (same_sector off (j - off)) as [E _]; [fold so; lia..|]. replace (off + (j - off)) with j in E by lia. done.
Qed.

Lemma disk_wrote_app off a b d d1 d2 : disk_wrote off a d d1 → disk_wrote (off + Z.of_nat (length a)) b d1 d2 → disk_wrote off (a ++ b) d d2.
Proof.
  intros [C1 W1] [C2 W2]. split; [intros r; by rewrite C2|]. intros r j Hj. rewrite (W2 r j Hj), (W1 r j Hj), length_app.
  destruct (decide (r = rdev)) as [->|Hr]; [|by rewrite !decide_False by tauto]. destruct (decide (off + Z.of_nat (length a) ≤ j < off + Z.of_nat (length a) + Z.of_nat (length b))) as [Hb|Hb].
  - rewrite !decide_True by lia. f_equal. rewrite lookup_app_r by lia. f_equal. lia.
  - rewrite decide_False by lia. destruct (decide (off ≤ j < off + Z.of_nat (length a))) as [Ha|Ha]; [rewrite !decide_True by lia; f_equal; by rewrite lookup_app_l by lia|by rewrite !decide_False by lia].
Qed.

Lemma disk_wrote_nil off d : disk_wrote off [] d d.
Proof. split; [done|]. intros r j Hj. cbn [length]. by rewrite decide_False by lia. Qed.

Lemma blk_write_loop_flat fuel : ∀ off src did d, blk_capacity rdev d = Some cap → 0 ≤ off → 0 ≤ did →
  (off mod BLOCK_SECTOR_SIZE = 0 → Z.of_nat (length src) ≤ BLOCK_SECTOR_SIZE * Z.of_nat fuel) →
  (off mod BLOCK_SECTOR_SIZE ≠ 0 → src = [] ∨ Z.of_nat (length src) ≤ BLOCK_SECTOR_SIZE * (Z.of_nat fuel - 1)) →
  let v := disk_got off (Z.of_nat (length src)) in
  ∃ d', blk_write_loop (S fuel) rdev cap off src did d = Done (did + v, Some (off + v), d') ∧ disk_wrote off (take (Z.to_nat v) src) d d'.
Proof.
  induction fuel as [|fuel IH]; intros off src did d Hcap Ho Hdid Ha Hu; cbn zeta.
  { assert (src = []) as ->.
    { destruct (decide (off mod BLOCK_SECTOR_SIZE = 0)) as [E|E]; [specialize (Ha E); destruct src; [done|cbn in Ha; lia]|]. destruct (Hu E) as [|Hn]; [done|unfold BLOCK_SECTOR_SIZE in Hn; lia]. }
    rewrite got_zero by (cbn; lia). cbn. rewrite !Z.add_0_r. exists d. split; [done|apply disk_wrote_nil]. }
  remember (S fuel) as fuel' eqn:Ef. cbn [blk_write_loop]. subst fuel'. assert (∀ d, disk_wrote off (take (Z.to_nat 0) src) d d) as Hnil by (intros; apply disk_wrote_nil).
  case_bool_decide as Hs; [rewrite got_zero by (subst; cbn; lia); rewrite !Z.add_0_r; by exists d|].
  destruct (Z.leb_spec cap (off / BLOCK_SECTOR_SIZE)); [rewrite got_zero by lia; rewrite !Z.add_0_r; by exists d|].
  assert (0 < length src)%nat as Hpos by (destruct src; [done|cbn; lia]). destruct (mod_part off (Z.of_nat (length src)) Ho ltac:(lia)) as (P1 & P2 & P3 & P4).
  destruct (blk_write_part_flat off src d Hcap Ho ltac:(lia) Hs) as (d1 & -> & Hw1). set (c := Z.min _ _) in *. assert (length (drop (Z.to_nat c) src) = (length src - Z.to_nat c)%nat) as Hd by apply length_drop. rewrite step_small by lia.
  destruct (IH (off + c) (drop (Z.to_nat c) src) (did + c) d1) as (d2 & -> & Hw2); [by rewrite (proj1 Hw1)|lia|lia|..].
  { intros Hm. rewrite Hd. destruct (decide (off mod BLOCK_SECTOR_SIZE = 0)) as [Ea|Ea]; [|destruct (Hu Ea); [done|]]; unfold BLOCK_SECTOR_SIZE in *; lia. }
  { intros Hm. destruct P3 as [->|]; [left; apply drop_ge; lia|done]. }
  rewrite Hd in *. replace (Z.of_nat (length src - Z.to_nat c)) with (Z.of_nat (length src) - c) in * by lia. rewrite (got_step off (Z.of_nat (length src)) c) by lia.
  exists d2. split; [f_equal; f_equal; f_equal; [lia|f_equal; lia]|]. assert (0 ≤ disk_got (off + c) (Z.of_nat (length src) - c)) by (unfold disk_got; lia).
  rewrite Z2Nat.inj_add, <- take_take_drop by lia. apply (disk_wrote_app off _ _ d d1 d2); [done|]. rewrite length_take, Nat.min_l, Z2Nat.id by lia. done.
Qed.
End Disks.

Section BlockFiles.
Context {M D : Type} `{Disk D}.
Notation ksys := (ksys M D).

(** reading a block device of less than 4 GiB, sector by sector, gives the
    bytes of the disk as one sequence, up to its end, and moves the offset past
    them. *)
Theorem blk_read_flat (k : ksys) f fl r ip cap n : ftable k !! f = Some fl → f_ip fl = Some r → node r k = Some ip → blk_capacity (rdev ip) (devs k) = Some cap → cap * BLOCK_SECTOR_SIZE < 2 ^ 32 → 0 ≤ f_off fl → 0 ≤ n →
  let v := disk_got cap (f_off fl) n in
  file_blk_read f n k = Done (IoVal v (disk_bytes (rdev ip) (devs k) (f_off fl) (Z.to_nat v)), set_file f (with_off (u32 (f_off fl + v)) fl) k).
Proof.
  intros Hf Hr Hn Hcap Hsm Ho Hlen. cbn zeta. unfold file_blk_read, get_file. rewrite Hf. cbn [deref]. run. rewrite Hr, Hn. cbn [deref]. run. rewrite Hcap.
  destruct (blk_fuel_enough n Hlen) as (fuel & -> & Hfu).
  rewrite (blk_read_loop_flat (rdev ip) cap Hsm n (devs k) fuel Hcap (f_off fl) [] Ho); cbn [length]; try (unfold BLOCK_SECTOR_SIZE in *; lia). run.
  change (Z.of_nat 0) with 0. rewrite Z.sub_0_r, Z.add_0_l. cbn [app store_off]. unfold upd_file, get_file. cbn [ftable with_devs]. rewrite Hf. cbn [deref]. run. by destruct k.
Qed.

(** C25: writing a block device of less than 4 GiB, with the sectors at both ends read first and
    written back, changes exactly the bytes of the range and returns how many of
    them are on the disk. *)
Theorem blk_write_flat (k : ksys) f fl r ip cap src : ftable k !! f = Some fl → f_ip fl = Some r → node r k = Some ip → blk_capacity (rdev ip) (devs k) = Some cap → cap * BLOCK_SECTOR_SIZE < 2 ^ 32 → 0 ≤ f_off fl →
  let v := disk_got cap (f_off fl) (Z.of_nat (length src)) in
  ∃ d, file_blk_write f src k = Done (IoVal v [], set_file f (with_off (u32 (f_off fl + v)) fl) (with_devs d k)) ∧
    ∀ r' j, 0 ≤ j → disk_byte d r' j = if decide (r' = rdev ip ∧ f_off fl ≤ j < f_off fl + v) then default 0 (src !! Z.to_nat (j - f_off fl)) else disk_byte (devs k) r' j.
Proof.
  intros Hf Hr Hn Hcap Hsm Ho. cbn zeta. unfold file_blk_write, get_file. rewrite Hf. cbn [deref]. run. rewrite Hr, Hn. cbn [deref]. run. rewrite Hcap.
  destruct (blk_fuel_enough (Z.of_nat (length src)) ltac:(lia)) as (fuel & -> & Hfu).
  destruct (blk_write_loop_flat (rdev ip) cap Hsm fuel (f_off fl) src 0 (devs k) Hcap Ho) as (d & -> & _ & Hw); [lia|unfold BLOCK_SECTOR_SIZE in *; lia|intros _; by right|]. run.
  set (v := disk_got cap (f_off fl) (Z.of_nat (length src))) in *. rewrite Z.add_0_l. cbn [store_off]. unfold upd_file, get_file. cbn [ftable with_devs]. rewrite Hf. cbn [deref]. run.
  exists d. split; [done|]. intros r' j Hj. rewrite (Hw r' j Hj). assert (0 ≤ v ≤ Z.of_nat (length src)) as Hv by (unfold v, disk_got; lia).
  rewrite length_take, Nat.min_l, Z2Nat.id by lia. case_decide as Hd; [|done]. rewrite lookup_take_lt by lia. done.
Qed.
End BlockFiles.

(** ** Regular files *)

Section Whole.
Context {M D : Type} `{UserMemoryLaws M} `{DevicesLaws D}.
Notation ksys := (ksys M D).
Implicit Types (L : iref → Z) (F : nat → Z) (k : ksys).

(** File [f] is open for reading at [off] of regular file [i], which holds [c]. *)
Record reading (f i : nat) (c : list Z) (off : Z) k : Prop := {
  rd_file : ∃ fl, ftable k !! f = Some fl ∧ f_type fl = FD_INODE ∧ f_readable fl = true ∧ f_ip fl = Some (Ino i) ∧ f_off fl = off;
  rd_node : ∃ ip, inodes (fs k) !! i = Some ip ∧ itype ip = T_FILE ∧ content ip = c
}.

Lemma fileread_exact L F k f i c off n : files_ok None L F k → reading f i c off k → 0 ≤ n → off + n < 2 ^ 32 →
  let l := take (Z.to_nat n) (drop (Z.to_nat off) c) in
  ∃ k', fileread f n k = Done (IoVal (Z.of_nat (length l)) l, k') ∧ files_ok None L F k' ∧ reading f i c (off + Z.of_nat (length l)) k' ∧ mem k' = mem k ∧ tasks k' = tasks k.
Proof.
  intros Hok [(fl & Hf & Hty & Hrd & Hip & Ho) (ip & Hi & Ht & Hc)] Hn Hw. cbn zeta. set (l := take _ _).
  pose proof (fw_off _ _ (proj1 (fo_file _ _ _ _ Hok f fl Hf))) as Hoff. pose proof (fo_fs _ _ _ _ Hok) as Hv.
  unfold fileread, get_file. rewrite Hf. cbn [deref]. run. rewrite Hrd, (proj2 (Z.ltb_ge _ _)) by lia. cbn [negb orb]. rewrite Hty, Hip. cbn [node]. rewrite Hi. cbn [deref]. run.
  rewrite Ht. change (T_FILE =? T_FIFO) with false. cbn iota. unfold node_readi. cbn [node]. rewrite Hi. cbn [deref]. run.
  rewrite (file_ops ip (vo_node _ _ _ Hv i ip Hi) Ht). rewrite Ho.
  destruct (readi_ok _ (fs k) i ip off n Hv Hi Ht ltac:(lia) Hn Hw) as (s' & Hrun & Hv' & Hs). rewrite Hc in Hrun. fold l in Hrun.
  pose proof (fs_readi_pipes i off n (fs k) _ Hrun) as Hp. rewrite Hrun. run.
  assert (quiet (fs k) s' ∧ ∃ ip', inodes s' !! i = Some ip' ∧ itype ip' = T_FILE ∧ content ip' = c) as [Hq Hnode].
  { destruct Hs as [->|(ip' & Hds & Hc')]; [split; [apply quiet_refl|by exists ip]|]. split; [by apply (data_set_quiet i ip ip'); [|rewrite Ht|]|].
    destruct Hds as [(h & b & ->) _ Hsame]. destruct (Hsame ip Hi) as (_ & Et & _). exists ip'. split; [by eapply insert_at|]. split; congruence. }
  assert (files_ok None L F (with_fs s' k)) as Hok1 by (apply (with_fs_ok None L L F k s' Hok Hv' Hq Hp); [apply Hok|done]). set (k1 := with_fs s' k) in *.
  assert (ftable k1 !! f = Some fl) as Hf1 by done.
  assert (Z.of_nat (length l) ≤ n) as Hl by (unfold l; rewrite length_take; lia). unfold advance. destruct (Z.ltb_spec 0 (Z.of_nat (length l))) as [Hpos|Hz]; run.
  - unfold upd_file, get_file. rewrite Hf1. cbn [deref]. run. rewrite Ho, u32_small by lia. eexists. split; [done|]. split; [apply set_off_ok; [done..|lia]|]. split; [|done].
    split; [|done]. eexists. split; [by cbn; eapply insert_at|]. done.
  - eexists. split; [done|]. split; [done|]. split; [|done]. split; [|done]. exists fl. split_and!; try done. lia.
Qed.

(** What the piecewise copies rely on: the copy of a sequence is the copy of its
    parts, one after the other. *)
Context (me : nat).
Hypothesis copyout_nil : ∀ va m, um_copyout me va [] m = Done (true, m).
Hypothesis copyout_app : ∀ va a b m m2, um_copyout me va (a ++ b) m = Done (true, m2) →
  ∃ m1, um_copyout me va a m = Done (true, m1) ∧ um_copyout me (u32 (va + Z.of_nat (length a))) b m1 = Done (true, m2).

Lemma read_loop_exact L F f i c uaddr n rounds : ∀ total off k m', files_ok None L F k → reading f i c off k → 0 ≤ total ≤ n → 0 ≤ off → off + (n - total) < 2 ^ 32 → n - total ≤ BUF * Z.of_nat rounds →
  let l := take (Z.to_nat (n - total)) (drop (Z.to_nat off) c) in
  um_copyout me (u32 (uaddr + total)) l (mem k) = Done (true, m') →
  ∃ k', read_loop (S rounds) me f uaddr n total k = Done (Ret (total + Z.of_nat (length l)), k') ∧ mem k' = m' ∧ reading f i c (off + Z.of_nat (length l)) k' ∧ tasks k' = tasks k.
Proof.
  induction rounds as [|rounds IH]; intros total off k m' Hok Hrd Htot Hoff Hw Hb; cbn zeta; set (l := take _ _); intros Hcp.
  { cbn [read_loop]. rewrite (proj2 (Z.leb_le _ _)) by lia. assert (l = []) as El by (unfold l; by replace (n - total) with 0 by lia). rewrite El in Hcp |- *. rewrite copyout_nil in Hcp. injection Hcp as <-.
    cbn [length]. exists k. rewrite !Z.add_0_r. done. }
  change (read_loop (S (S rounds)) me f uaddr n total k) with
    (if n <=? total then ret total k
      else
        let chunk := Z.min (n - total) BUF in
        '(res, k) ← fileread f chunk k;
        match res with
        | IoSleep _ => mret (Block (InRead f uaddr n total), k)
        | IoVal r l =>
            if r <? 0 then ret (-1) k
            else if r =? 0 then ret total k
            else if BUF <? r then Wild
            else
              '(ok, m) ← um_copyout me (u32 (uaddr + total)) (take (Z.to_nat r) l) (mem k);
              let k := with_mem m k in
              if negb ok then ret (-1) k
              else
                fifo ← is_fifo f k;
                if (r <? chunk) || fifo then ret (total + r) k else read_loop (S rounds) me f uaddr n (total + r) k
        end).
  destruct (Z.leb_spec n total) as [Hge|Hlt].
  { assert (l = []) as El by (unfold l; by replace (n - total) with 0 by lia). rewrite El in Hcp |- *. rewrite copyout_nil in Hcp. injection Hcp as <-. cbn [length]. exists k. rewrite !Z.add_0_r. done. }
  cbn zeta. set (chunk := Z.min (n - total) BUF). assert (0 < chunk ≤ BUF ∧ chunk ≤ n - total) as [Hch Hch'] by (unfold chunk, BUF; lia).
  destruct (fileread_exact L F k f i c off chunk Hok Hrd ltac:(lia) ltac:(lia)) as (k1 & -> & Hok1 & Hrd1 & Hm1 & Ht1). run. set (part := take (Z.to_nat chunk) (drop (Z.to_nat off) c)) in *.
  assert (length part ≤ Z.to_nat chunk)%nat as Hpl by (unfold part; rewrite length_take; lia).
  assert (l = part ++ take (Z.to_nat (n - total) - length part) (drop (length part) (drop (Z.to_nat off) c))) as El.
  { unfold l. set (q := drop (Z.to_nat off) c) in *. rewrite <- (take_drop (length part) (take _ q)), take_take, skipn_firstn_comm. f_equal.
    unfold part. rewrite length_take. destruct (decide (length q ≤ Z.to_nat chunk)%nat); [rewrite !take_ge by lia; done|f_equal; lia]. }
  set (rest := take (_ - _) _) in El. assert (Z.of_nat (length part) < chunk → rest = []) as Hrest.
  { intros Hsh. unfold rest. rewrite (drop_ge (drop (Z.to_nat off) c)); [apply take_nil|]. unfold part in Hsh |- *. rewrite length_take in Hsh |- *. lia. }
  rewrite (proj2 (Z.ltb_ge _ _)) by lia. destruct (Z.eqb_spec (Z.of_nat (length part)) 0) as [Hz|Hnz].
  { assert (l = []) as El0 by (rewrite El, Hrest by lia; rewrite app_nil_r; destruct part; [done|cbn in Hz; lia]). rewrite El0 in Hcp |- *. rewrite copyout_nil in Hcp. injection Hcp as <-.
    exists k1. cbn [length]. rewrite Hz, !Z.add_0_r in *. done. }
  rewrite (proj2 (Z.ltb_ge BUF _)) by lia. rewrite Nat2Z.id, take_ge by lia. rewrite El in Hcp. destruct (copyout_app _ _ _ _ _ Hcp) as (m1 & E1 & E2). rewrite Hm1, E1. run. cbn [negb].
  assert (reading f i c (off + Z.of_nat (length part)) (with_mem m1 k1)) as Hrd2 by by destruct Hrd1; split.
  assert (is_fifo f (with_mem m1 k1) = Done false) as ->.
  { destruct Hrd2 as [(fl & Hf & _ & _ & Hip & _) (ip & Hi & Ht & _)]. unfold is_fifo, get_file. rewrite Hf. cbn [deref]. run. rewrite Hip. cbn [node]. rewrite Hi. cbn [deref]. run. by rewrite Ht. }
  run. rewrite orb_false_r. rewrite u32_plus in E2. destruct (Z.ltb_spec (Z.of_nat (length part)) chunk) as [Hsh|Hfull].
  - rewrite (Hrest Hsh), copyout_nil in E2. injection E2 as <-. rewrite El, (Hrest Hsh), app_nil_r. eexists. split; [done|]. done.
  - assert (files_ok None L F (with_mem m1 k1)) as Hok2.
    { apply with_mem_ok; [done|]. destruct (copyout_law me (u32 (uaddr + total)) part (mem k) (fo_mem _ _ _ _ Hok)) as (ok & m2 & E3 & Hm2). rewrite E1 in E3. by injection E3 as _ <-. }
    assert (rest = take (Z.to_nat (n - (total + Z.of_nat (length part)))) (drop (Z.to_nat (off + Z.of_nat (length part))) c)) as Er.
    { unfold rest. rewrite drop_drop. f_equal; [lia|]. f_equal. lia. }
    destruct (IH (total + Z.of_nat (length part)) (off + Z.of_nat (length part)) (with_mem m1 k1) m' Hok2 Hrd2) as (k2 & -> & Hm2 & Hrd3 & Ht2); [unfold BUF in *; lia..| |].
    + rewrite <- Er. replace (uaddr + (total + Z.of_nat (length part))) with (uaddr + total + Z.of_nat (length part)) by lia. exact E2.
    + rewrite <- Er in Hrd3 |- *. rewrite El, length_app, Nat2Z.inj_add. exists k2. split; [f_equal; f_equal; f_equal; lia|]. split; [done|]. split; [by rewrite Z.add_assoc|]. by rewrite Ht2.
Qed.

(** C18: [read] of [n] bytes of a regular file, which goes through a buffer of 128
    bytes and copies each piece out, is one copy of the bytes from the offset
    on, up to the end of the file, and the offset moves past them. *)
Theorem sys_read_whole L F k fd f i c off uaddr n m' : files_ok None L F k → fdget me fd k = Done (Some f) → reading f i c off k → 0 ≤ n → off + n < 2 ^ 32 →
  let l := take (Z.to_nat n) (drop (Z.to_nat off) c) in
  um_copyout me (u32 uaddr) l (mem k) = Done (true, m') →
  ∃ k', sys_read me fd uaddr n k = Done (Ret (Z.of_nat (length l)), k') ∧ mem k' = m' ∧ reading f i c (off + Z.of_nat (length l)) k' ∧ tasks k' = tasks k.
Proof.
  intros Hok Hfd Hrd Hn Hw. cbn zeta. intros Hcp. unfold sys_read. rewrite (proj2 (Z.ltb_ge _ _)) by lia. rewrite Hfd. run.
  assert (0 ≤ off) as Ho. { destruct Hrd as [(fl & Hf & _ & _ & _ & <-) _]. apply (fw_off _ _ (proj1 (fo_file _ _ _ _ Hok f fl Hf))). }
  destruct (io_rounds_enough n Hn) as (rounds & -> & Hb).
  destruct (read_loop_exact L F f i c uaddr n rounds 0 off k m' Hok Hrd) as (k' & -> & ?); rewrite ?Z.sub_0_r, ?Z.add_0_r; try done; try lia. exists k'. by rewrite Z.sub_0_r in *.
Qed.
End Whole.
