(* ===== verification/FileDemo.v ===== *)
(** [FileDemo]: a small memory and a disk on which the theorems about open files
    are used, and what some sequences of calls show. *)
From Stdlib Require Import ZArith Lia.
From stdpp Require Import numbers strings gmap list.
From S2P Require Import Prelude MemLayout Pipe Vfs VfsInv RamfsSpec RamfsRename RamfsData Namei NameiSpec NameiOps NameiCalls NameiLive FsInit NameiClaims VfsFrame File SysFile FileInv FileOps FileIo FileCalls FileDesc FileOpen FileTasks FileClaims FileRead.
Open Scope Z_scope.

(** ** A memory *)

(** The bytes of each process, by process and address. *)
Notation umem := (gmap (nat * Z) Z).

Definition load (me : nat) (va : Z) (n : nat) (m : umem) : list Z := (λ i, default 0 (m !! (me, va + Z.of_nat i)) mod 256) <$> seq 0 n.
Fixpoint store (me : nat) (va : Z) (l : list Z) (m : umem) : umem :=
  match l with
  | [] => m
  | b :: l => store me (va + 1) l (<[(me, va) := b]> m)
  end.
Definition in_range (va n : Z) : bool := (n =? 0) || ((0 <=? va) && (va + n <=? 2 ^ 32)).

#[global] Instance umem_ops : UserMemory umem := {
  um_copyin me va n m := Done (if in_range va n then Some (load me va (Z.to_nat n) m) else None, m);
  um_copyout me va l m := Done (if in_range va (Z.of_nat (length l)) then (true, store me va l m) else (false, m));
  um_copyinstr me va max m := Done (let l := load me va (Z.to_nat max) m in if bool_decide (0 ∈ l) then Some (cstr l) else None, m)
}.

Lemma load_bytes me va n m : bytes (load me va n m) ∧ length (load me va n m) = n.
Proof.
  unfold load. split; [|by rewrite length_fmap, length_seq]. apply Forall_fmap, Forall_true. intros i. cbn. apply Z.mod_pos_bound. done.
Qed.

Lemma cstr_short l : 0 ∈ l → (length (cstr l) < length l)%nat.
Proof.
  induction l as [|c l IH]; [by intros ?%elem_of_nil|]. cbn [cstr]. intros Hin. destruct (Z.eqb_spec c 0) as [|Hc]; [cbn; lia|]. apply elem_of_cons in Hin as [?|Hin]; [done|]. specialize (IH Hin). cbn. lia.
Qed.

#[refine, global] Instance umem_laws : UserMemoryLaws umem := {| mem_ok := λ _, True |}.
Proof.
  - intros me va n m _ Hn. eexists _, _. split; [done|]. split; [done|]. destruct (in_range va n); [|done]. intros l [= <-]. destruct (load_bytes me va (Z.to_nat n) m) as [Hb Hl].
    split; [rewrite Hl; lia|done].
  - intros me va l m _. cbn. destruct (in_range _ _); by eexists _, _.
  - intros me va max m _ Hmax. eexists _, _. split; [done|]. split; [done|]. cbn zeta. intros p. case_bool_decide as Hz; [|done]. intros [= <-].
    destruct (load_bytes me va (Z.to_nat max) m) as [Hb Hl]. split; [by apply cstr_cstring|]. pose proof (cstr_short _ Hz). lia.
Defined.

Lemma store_app me a : ∀ va b m, store me va (a ++ b) m = store me (va + Z.of_nat (length a)) b (store me va a m).
Proof.
  induction a as [|x a IH]; intros va b m; cbn [app store length]; [by rewrite Z.add_0_r|]. rewrite IH. f_equal. lia.
Qed.

Lemma umem_nil (me : nat) (va : Z) (m : umem) : um_copyout me va [] m = Done (true, m).
Proof. done. Qed.
Lemma umem_app (me : nat) (va : Z) (a b : list Z) (m m2 : umem) : um_copyout me va (a ++ b) m = Done (true, m2) →
  ∃ m1, um_copyout me va a m = Done (true, m1) ∧ um_copyout me (u32 (va + Z.of_nat (length a))) b m1 = Done (true, m2).
Proof.
  cbn. unfold in_range. rewrite length_app, Nat2Z.inj_add. destruct b as [|x b].
  { rewrite app_nil_r. cbn [length]. change (Z.of_nat 0) with 0. rewrite Z.add_0_r. destruct (_ || _); [|done]. intros [= <-]. by eexists. }
  cbn [length]. destruct (Z.eqb_spec (Z.of_nat (length a) + Z.of_nat (S (length b))) 0); [lia|]. cbn [orb].
  destruct (Z.leb_spec 0 va); [|done]. destruct (Z.leb_spec (va + (Z.of_nat (length a) + Z.of_nat (S (length b)))) (2 ^ 32)); [|done]. cbn [andb]. intros [= <-].
  rewrite u32_small by lia. rewrite (proj2 (Z.leb_le _ (2 ^ 32))) by lia. rewrite orb_true_r. eexists. split; [done|].
  rewrite (proj2 (Z.leb_le 0 _)), (proj2 (Z.leb_le _ (2 ^ 32))) by lia. rewrite orb_true_r. by rewrite store_app.
Qed.

(** ** Devices *)

(** A console at major 1 that swallows what is written and has nothing to read,
    and a disk of four sectors at major 3. *)
Notation ddev := (gmap (Z * Z) (list Z)).
Definition sector (d : ddev) (rdev sec : Z) : list Z := resize (default [] (d !! (rdev, sec))) (Z.to_nat BLOCK_SECTOR_SIZE).

#[global] Instance ddev_ops : Devices ddev := {
  chr_read major n d := if major =? 1 then Some (0, [], d) else None;
  chr_write major src d := if major =? 1 then Some (Z.of_nat (length src), d) else None;
  chr_ioctl _ _ _ _ := None;
  blk_capacity rdev _ := if MAJOR rdev =? 3 then Some 4 else None;
  blk_read_sect rdev sec d := (if MAJOR rdev =? 3 then Some (sector d rdev sec) else None, d);
  blk_write_sect rdev sec src d := (true, <[(rdev, sec) := src]> d)
}.

#[global] Instance ddev_laws : DevicesLaws ddev.
Proof.
  split.
  - intros major n d v l d'. cbn. destruct (_ =? _); [|done]. by intros [= <- <- <-].
  - intros major src d v d'. cbn. destruct (_ =? _); [|done]. intros [= <- <-]. lia.
  - intros rdev sec d l d'. cbn. destruct (_ =? _); [|done]. intros [= <- <-]. unfold sector. by rewrite resize_length.
Qed.

#[refine, global] Instance ddev_disk : Disk ddev := {| disk := sector |}.
Proof.
  - intros d rdev sec. apply resize_length.
  - intros rdev sec d cap. cbn. by destruct (_ =? _).
  - intros rdev sec src d cap _ _ Hl. exists (<[(rdev, sec) := src]> d). split; [done|]. split; [done|]. intros r s. unfold sector. case_decide as Hd.
    + destruct Hd as [-> ->]. rewrite lookup_insert_eq. cbn. by apply resize_id.
    + rewrite lookup_insert_ne; [done|]. intros [= -> ->]. by apply Hd.
Defined.

(** ** Which steps are allowed, as a test *)

Notation demo := (ksys umem ddev).

Definition short_links (s : fsys) : bool := forallb (λ ip, negb (itype ip =? T_LNK) || negb (at_ (cstr (link_text ip)) 0 =? SLASH)) (inodes s).

Definition fits_check (me : nat) (fd n : Z) (k : demo) : bool :=
  match fdget me fd k with
  | Done (Some f) =>
      match ftable k !! f with
      | Some fl =>
          match f_ip fl with
          | Some r => match node r k with Some ip => negb (itype ip =? T_FILE) || (Z.max (f_off fl) (size ip) + n <=? KMALLOC_MAX) | None => false end
          | None => true
          end
      | None => true
      end
  | _ => true
  end.

Definition act_check (me : nat) (a : act) (k : demo) : bool :=
  (me <? length (tasks k))%nat && short_links (fs k) &&
  match a with
  | Call (Write fd _ n) => fits_check me fd n k
  | Call (Truncate _ n | Ftruncate _ n) => n <=? KMALLOC_MAX
  | Call (Lseek _ offset _) => offset <? 2 ^ 31
  | Call (Rename _ _) | Call (Fchdir _) => false
  | Call _ | Resume | Exit | Exec => true
  | Fork child =>
      negb (child =? me)%nat && bool_decide (cwds (fs k) !! child = Some None) &&
      match tasks k !! child with Some (Fproc l _ Idle) => forallb (λ o, bool_decide (o = None)) l | _ => false end
  | Boot =>
      match p_namex 1 me (lit "/dev/console") false true (fs k) with
      | Done (Some (i, [])) => match inodes (fs k) !! i with Some ip => itype ip =? T_CHAR | None => false end
      | _ => false
      end &&
      match tasks k !! me with Some t => bool_decide (take 3 (ofile t) = [None; None; None]) | None => false end
  end.

Lemma forallb_elem {A} (p : A → bool) l x : forallb p l = true → x ∈ l → p x = true.
Proof. intros Hl Hx. rewrite forallb_forall in Hl. by apply Hl, list_elem_of_In. Qed.

Lemma fits_check_ok (me : nat) (fd n : Z) (k : demo) : fits_check me fd n k = true → write_fits me k fd n.
Proof.
  unfold fits_check. intros Hc f Hf fl r ip Hfl Hr Hip Ht. rewrite Hf, Hfl, Hr, Hip, Ht in Hc. change (T_FILE =? T_FILE) with true in Hc. cbn in Hc. by apply Z.leb_le in Hc.
Qed.

Lemma boot_check_ok (me : nat) (k : demo) : (match p_namex 1 me (lit "/dev/console") false true (fs k) with
      | Done (Some (i, [])) => match inodes (fs k) !! i with Some ip => itype ip =? T_CHAR | None => false end
      | _ => false
      end &&
      match tasks k !! me with Some t => bool_decide (take 3 (ofile t) = [None; None; None]) | None => false end) = true →
  console_ok 1 me (fs k) ∧ no_stdio me k.
Proof.
  intros [C1 C2]%andb_true_iff. split.
  - intros i Hi. rewrite Hi in C1. destruct (inodes (fs k) !! i) as [ip|]; [|done]. exists ip. split; [done|]. by apply Z.eqb_eq.
  - intros t fd Ht Hfd. rewrite Ht in C2. apply bool_decide_eq_true in C2. rewrite <- (lookup_take_lt _ 3 fd) by done. rewrite C2. by destruct fd as [|[|[|]]]; [..|lia].
Qed.

Lemma act_check_ok (me : nat) (a : act) (k : demo) : act_check me a k = true → act_allowed 1 me a k.
Proof.
  unfold act_check. intros [[C1%Nat.ltb_lt C2]%andb_true_iff C3]%andb_true_iff. split; [done|]. pose proof (relative_resolves 0 me (fs k) (no_absolute_check _ C2)) as Hres.
  destruct a as [c| |child| | |]; try done.
  - split; [done|]. destruct c; try done; [by apply Z.ltb_lt|by apply fits_check_ok|by apply Z.leb_le..].
  - apply andb_true_iff in C3 as [[N1%negb_true_iff%Nat.eqb_neq N2%bool_decide_eq_true]%andb_true_iff N3]. split; [done|]. split; [done|].
    destruct (tasks k !! child) as [[l x []]|]; try done. eexists. split; [done|]. split; [done|]. intros f Hf. pose proof (forallb_elem _ _ _ N3 Hf) as E. by apply bool_decide_eq_true in E.
  - destruct (boot_check_ok me k C3) as [B1 B2]. split; [done|]. split; [done|]. intros t _ _. exact B2.
Qed.

Fixpoint acts_check (l : list (nat * act)) (k : demo) : bool :=
  match l with
  | [] => true
  | (me, a) :: l => act_check me a k && match file_act 1 me a k with Done (_, k') => acts_check l k' | _ => true end
  end.

Lemma acts_check_ok l : ∀ k : demo, acts_check l k = true → acts_allowed 1 l k.
Proof.
  induction l as [|[me a] l IH]; intros k; cbn [acts_check acts_allowed]; [done|]. intros [Ha Hl]%andb_true_iff. split; [by apply act_check_ok|]. intros v k' E. rewrite E in Hl. by apply IH.
Qed.

(** ** A run *)

(** The strings at 100, 200 and 300 of both processes. *)
Definition mem0 : umem :=
  store 0 100 (lit "/hello") (store 1 100 (lit "/hello") (store 0 200 (lit "/d") (store 0 300 (lit "x") ∅))).
Definition start : demo := fileinit fs0 mem0 ∅.
Definition ends_in (l : list (nat * act)) (k : demo) : demo := match file_acts 1 l k with Done k' => k' | _ => k end.

(** Both processes have [/hello] open; the first has locked it, and the second
    waits for the lock. *)
Definition run1 : list (nat * act) :=
  [(0, Boot); (0, Call (Open 100 O_RDWR)); (0, Call (Flock 3 LOCK_EX)); (0, Fork 1); (1, Call (Open 100 0)); (1, Call (Flock 4 LOCK_SH)); (0, Call (MkPipe 400))]%nat.
Definition k1 : demo := ends_in run1 start.

Lemma mem0_ok : mem_ok mem0.
Proof. exact I. Qed.

Lemma fs0_boot : fs_init 1 0 2 100 [] = Done fs0.
Proof. by vm_compute. Qed.

Definition returns {A} (o : outcome A) : bool := match o with Done _ => true | _ => false end.

Lemma reached_run l : acts_check l start = true → returns (file_acts 1 l start) = true → reached 0 (ends_in l start).
Proof.
  intros Hc Hr. exists 0%nat, 2%nat, 100, [], fs0, mem0, ∅, l. split; [apply fs0_boot|]. split; [apply mem0_ok|]. split; [by apply acts_check_ok|].
  change (fileinit fs0 mem0 ∅) with start. unfold ends_in. by destruct (file_acts 1 l start).
Qed.


Lemma k1_reached : reached 0 k1.
Proof. by apply reached_run; vm_compute. Qed.

(** Descriptor 4 of the second process is its own opening of [/hello]. *)
Definition task1 (p : nat) (k : demo) : fproc := default no_files (tasks k !! p).
Definition file_at (f : nat) (k : demo) : file := default zero_file (ftable k !! f).



(** Everything is closed again: both processes end. *)
Definition run2 : list (nat * act) := run1 ++ [(0, Call (Flock 3 LOCK_UN)); (1, Resume); (0, Exit); (1, Exit)]%nat.
Definition k2 : demo := ends_in run2 start.

Lemma k2_reached : reached 0 k2.
Proof. by apply reached_run; vm_compute. Qed.

Lemma k2_closed : forallb (λ t, forallb (λ o, bool_decide (o = None)) (ofile t)) (tasks k2) = true.
Proof. by vm_compute. Qed.


(** Ten bytes of [/hello], read into memory at 1000. *)
Definition k1_text : list Z := content (default zero_inode (inodes (fs k1) !! 3%nat)).
Definition copied (o : outcome (bool * umem)) : option umem := match o with Done (true, m) => Some m | _ => None end.

Lemma copied_done o : (if copied o then true else false) = true → o = Done (true, default ∅ (copied o)).
Proof. by destruct o as [[[] m]| | |]. Qed.

Definition mem1 : umem := default ∅ (copied (um_copyout 0 (u32 1000) (take (Z.to_nat 10) (drop (Z.to_nat 0) k1_text)) (mem k1))).

Lemma k1_reading : reading 2 3 k1_text 0 k1.
Proof. split; [exists (file_at 2 k1)|exists (default zero_inode (inodes (fs k1) !! 3%nat))]; by vm_compute. Qed.

Lemma k1_copied : um_copyout 0 (u32 1000) (take (Z.to_nat 10) (drop (Z.to_nat 0) k1_text)) (mem k1) = Done (true, mem1).
Proof. unfold mem1. apply copied_done. vm_compute. reflexivity. Qed.

Lemma k1_length : Z.of_nat (length (take (Z.to_nat 10) (drop (Z.to_nat 0) k1_text))) = 10.
Proof. by vm_compute. Qed.

Lemma sys_read_whole_witness : ∃ k', sys_read 0 3 1000 10 k1 = Done (Ret 10, k') ∧ mem k' = mem1 ∧ reading 2 3 k1_text (0 + 10) k' ∧ tasks k' = tasks k1.
Proof.
  assert (fdget 0 3 k1 = Done (Some 2%nat)) as Hfd by by vm_compute.
  pose proof (sys_read_whole 0 (umem_nil 0) (umem_app 0) idle_i idle_f k1 3 2 3 k1_text 0 1000 10 mem1 (reached_ok 0 k1 k1_reached) Hfd k1_reading ltac:(lia) ltac:(lia) k1_copied) as E.
  rewrite k1_length in E. exact E.
Defined.

(** A disk at [/d], opened and moved to the last bytes of its first sector. *)
Definition disk0 : ddev := {[ (MKDEV 3 0, 0) := repeat 7 512; (MKDEV 3 0, 1) := repeat 8 512 ]}.
Definition run3 : list (nat * act) := [(0, Boot); (0, Call (Mknod 200 (S_IFBLK + 0x180) 0x300)); (0, Call (Open 200 O_RDWR)); (0, Call (Lseek 3 510 0))]%nat.
Definition k3 : demo := ends_in run3 (fileinit fs0 mem0 disk0).
Definition node3 : inode := default zero_inode (inodes (fs k3) !! 4%nat).

Lemma blk_read_flat_witness : file_blk_read 2 4 k3 = Done (IoVal 4 [7; 7; 8; 8], set_file 2 (with_off 514 (file_at 2 k3)) k3).
Proof.
  pose proof (blk_read_flat k3 2 (file_at 2 k3) (Ino 4) node3 4 4) as E. assert (f_off (file_at 2 k3) = 510) as Ho by by vm_compute.
  assert (disk_bytes (rdev node3) (devs k3) 510 4 = [7; 7; 8; 8]) as Hb by by vm_compute. rewrite Ho in E. rewrite <- Hb. by apply E; vm_compute.
Defined.

Lemma blk_write_flat_witness : ∃ d, file_blk_write 2 [1; 2; 3] k3 = Done (IoVal 3 [], set_file 2 (with_off 513 (file_at 2 k3)) (with_devs d k3)) ∧
    ∀ r' j, 0 ≤ j → disk_byte d r' j = if decide (r' = rdev node3 ∧ 510 ≤ j < 513) then default 0 ([1; 2; 3] !! Z.to_nat (j - 510)) else disk_byte (devs k3) r' j.
Proof.
  destruct (blk_write_flat k3 2 (file_at 2 k3) (Ino 4) node3 4 [1; 2; 3]) as (d & E1 & E2); [by vm_compute..|]. assert (f_off (file_at 2 k3) = 510) as Ho by by vm_compute.
  rewrite Ho in E1, E2. exists d. split; [exact E1|exact E2].
Defined.

(** ** What goes wrong *)

(** The first process writes 384 and then 200 bytes to a pipe.  The 200 bytes
    are written in pieces of 128, so the 100 bytes that the second process
    writes come between them, although 200 is less than the size of a pipe. *)
Definition mem_pipe : umem := store 0 1000 (repeat 97 384) (store 0 2000 (repeat 98 200) (store 1 3000 (repeat 99 100) ∅)).
Definition run_pipe : list (nat * act) :=
  [(0, Boot); (0, Call (MkPipe 400)); (0, Fork 1); (0, Call (Write 4 1000 384)); (0, Call (Write 4 2000 200));
   (1, Call (Read 3 5000 128)); (1, Call (Write 4 3000 100)); (1, Call (Read 3 5000 128)); (0, Resume)]%nat.
Definition queued (pi : pipe) : list Z := (λ i, default 0 (Pipe.data pi !! ((nread pi + Z.of_nat i) mod PIPESIZE))) <$> seq 0 (Z.to_nat (nwrite pi - nread pi)).
Definition pipe_of (o : outcome demo) : list Z :=
  match o with Done k => match pipes k !! 0%nat with Some ip => match i_pipe ip with Some pi => queued pi | None => [] end | None => [] end | _ => [] end.

Lemma write_200_splits : pipe_of (file_acts 1 run_pipe (fileinit fs0 mem_pipe ∅)) = repeat 97 128 ++ repeat 98 128 ++ repeat 99 100 ++ repeat 98 72.
Proof. by vm_compute. Qed.

(** A directory that was removed while it was open can still become the working
    directory, and files can be made in it. *)
Definition run_gone : list (nat * act) :=
  [(0, Boot); (0, Call (Mkdir 200)); (0, Call (Open 200 0)); (0, Call (Rmdir 200)); (0, Call (Fchdir 3)); (0, Call (Creat 300 0x180))]%nat.
Definition k_gone : demo := ends_in run_gone start.

Lemma fchdir_to_removed : cwds (fs k_gone) !! 0%nat = Some (Some 4%nat) ∧
  map d_name (dents (default zero_inode (inodes (fs k_gone) !! 4%nat))) = [lit "x"] ∧ p_namex 1 0 (lit "/d") false true (fs k_gone) = Done None.
Proof. by split_and!; vm_compute. Qed.

(** A disk whose second sector cannot be read, or one of 4 GiB, with the number
    of a sector in its bytes. *)
Definition odd_disk (broken : bool) : Devices unit := {|
  chr_read _ _ _ := None;
  chr_write _ _ _ := None;
  chr_ioctl _ _ _ _ := None;
  blk_capacity _ _ := Some (if broken then 4 else 2 ^ 23);
  blk_read_sect _ sec d := (if broken && (sec =? 1) then None else Some (repeat (sec mod 256) 512), d);
  blk_write_sect _ _ _ d := (true, d)
|}.
Definition odd (broken : bool) (off : Z) : ksys umem unit :=
  let run := [(0, Call (Mknod 200 (S_IFBLK + 0x180) 0x300)); (0, Call (Open 200 O_RDWR))]%nat in
  match @file_acts _ _ _ (odd_disk broken) 1 run (fileinit fs0 mem0 tt) with
  | Done k => set_file 0 (with_off off (default zero_file (ftable k !! 0%nat))) k
  | _ => fileinit fs0 mem0 tt
  end.
Definition got {M D} (o : outcome (ioret * File.ksys M D)) : option (Z * list Z * option Z) :=
  match o with Done (IoVal v l, k) => Some (v, l, f_off <$> ftable k !! 0%nat) | _ => None end.

(** An error in the middle returns the bytes before it and leaves the offset
    where it was, so the next [read] returns them again. *)
Lemma blk_error_keeps_offset : got (@file_blk_read _ _ (odd_disk true) 0 1024 (odd true 0)) = Some (512, repeat 0 512, Some 0).
Proof. by vm_compute. Qed.

(** At 4 GiB the offset is zero again, and the disk begins anew. *)
Lemma blk_wraps_at_4G : got (@file_blk_read _ _ (odd_disk false) 0 4 (odd false (2 ^ 32 - 2))) = Some (4, [255; 255; 0; 0], Some 2).
Proof. by vm_compute. Qed.
