(* ===== verification/RBio.v ===== *)
(** [RBio]: the buffer cache of the RISC-V kernel (arch/riscv/kernel/bio.c) with
    the sleep locks of its buffers, over a disk of blocks.

    The buffers are an array; the list that keeps them in order of use is the
    [next] and [prev] pointers of the buffers and of the head, and every store
    to them is one of the code's.  The disk is a map from device and block
    number to bytes: what virtio_disk_rw does once the device has answered.  A
    spin lock is held for the length of a function, so a function is one step;
    a caller that finds a sleep lock taken waits, which the model shows as a
    function that does not end. *)
From Stdlib Require Import ZArith Lia.
From stdpp Require Import numbers strings gmap list.
From S2P Require Import Prelude ListHead.
Open Scope Z_scope.

Definition BSIZE : Z := 1024.
Definition MAXOPBLOCKS : Z := 10.
Definition LOGSIZE : Z := MAXOPBLOCKS * 3.
Definition NBUF : nat := 30.

Notation block := (list Z).
Definition zero_block : block := repeat 0 (Z.to_nat BSIZE).

(** [struct buf] without its pointers; [holder] is the process that has the
    sleep lock. *)
Record buf := Buf {
  valid : bool;
  dev : Z;
  blockno : Z;
  holder : option nat;
  refcnt : Z;
  data : block
}.

(** [Some i] is buffer [i], [None] the head of the list. *)
Notation node := (option nat).

Record bsys := Bsys {
  bufs : list buf;
  lru : gmap node (list_head node);
  disk : gmap (Z * Z) block
}.

Definition with_bufs (l : list buf) (s : bsys) : bsys := Bsys l (lru s) (disk s).
Definition with_lru (h : gmap node (list_head node)) (s : bsys) : bsys := Bsys (bufs s) h (disk s).
Definition with_disk (d : gmap (Z * Z) block) (s : bsys) : bsys := Bsys (bufs s) (lru s) d.

Definition with_valid (v : bool) (b : buf) : buf := Buf v (dev b) (blockno b) (holder b) (refcnt b) (data b).
Definition with_key (v : bool) (d n : Z) (r : Z) (b : buf) : buf := Buf v d n (holder b) r (data b).
Definition with_holder (h : option nat) (b : buf) : buf := Buf (valid b) (dev b) (blockno b) h (refcnt b) (data b).
Definition with_refcnt (r : Z) (b : buf) : buf := Buf (valid b) (dev b) (blockno b) (holder b) r (data b).
Definition with_data (l : block) (b : buf) : buf := Buf (valid b) (dev b) (blockno b) (holder b) (refcnt b) l.

Definition get_buf (i : nat) (s : bsys) : outcome buf := deref (bufs s !! i).
Definition set_buf (i : nat) (b : buf) (s : bsys) : bsys := with_bufs (<[i := b]> (bufs s)) s.
Definition upd_buf (i : nat) (f : buf → buf) (s : bsys) : outcome bsys := b ← get_buf i s; mret (set_buf i (f b) s).
Definition on_lru (f : gmap node (list_head node) → outcome (gmap node (list_head node))) (s : bsys) : outcome bsys :=
  h ← f (lru s); mret (with_lru h s).

(** ** Sleep locks (sleeplock.c) *)

Definition initsleeplock (i : nat) (s : bsys) : outcome bsys := upd_buf i (with_holder None) s.

Definition acquiresleep (me i : nat) (s : bsys) : outcome bsys :=
  b ← get_buf i s;
  match holder b with None => mret (set_buf i (with_holder (Some me) b) s) | Some _ => NoFuel end.

Definition releasesleep (i : nat) (s : bsys) : outcome bsys := upd_buf i (with_holder None) s.

Definition holdingsleep (me i : nat) (s : bsys) : outcome bool := b ← get_buf i s; mret (bool_decide (holder b = Some me)).

(** ** The disk *)

Definition disk_block (d : gmap (Z * Z) block) (dv n : Z) : block := default zero_block (d !! (dv, n)).

Definition virtio_disk_rw (i : nat) (write : bool) (s : bsys) : outcome bsys :=
  b ← get_buf i s;
  if write then mret (with_disk (<[(dev b, blockno b) := data b]> (disk s)) s)
  else mret (set_buf i (with_data (disk_block (disk s) (dev b) (blockno b)) b) s).

(** ** bio.c *)

(** [b] goes behind the head:
    [b->next = head.next; b->prev = &head; head.next->prev = b; head.next = b]. *)
Definition put_first (i : nat) (h : gmap node (list_head node)) : outcome (gmap node (list_head node)) :=
  nx ← get_next h None;
  h ← set_next h (Some i) nx;
  h ← set_prev h (Some i) None;
  nx ← get_next h None;
  h ← set_prev h nx (Some i);
  set_next h None (Some i).

(** [b->next->prev = b->prev; b->prev->next = b->next] *)
Definition take_out (i : nat) (h : gmap node (list_head node)) : outcome (gmap node (list_head node)) :=
  nx ← get_next h (Some i);
  pv ← get_prev h (Some i);
  h ← set_prev h nx pv;
  pv ← get_prev h (Some i);
  nx ← get_next h (Some i);
  set_next h pv nx.

Definition binit (s : bsys) : outcome bsys :=
  let s := with_lru (<[None := ListNode None None]> (lru s)) s in
  each (seq 0 NBUF) (λ i s, s ← on_lru (put_first i) s; initsleeplock i s) s.

(** The first loop of [bget]: from the most recently used buffer on. *)
Fixpoint find_block (fuel : nat) (pos : node) (dv n : Z) (s : bsys) : outcome (option nat) :=
  match fuel with
  | O => NoFuel
  | S fuel =>
      match pos with
      | None => mret None
      | Some i =>
          b ← get_buf i s;
          if (dev b =? dv) && (blockno b =? n) then mret (Some i)
          else nx ← get_next (lru s) pos; find_block fuel nx dv n s
      end
  end.

(** The second loop: from the least recently used buffer on. *)
Fixpoint find_unused (fuel : nat) (pos : node) (s : bsys) : outcome (option nat) :=
  match fuel with
  | O => NoFuel
  | S fuel =>
      match pos with
      | None => mret None
      | Some i =>
          b ← get_buf i s;
          if refcnt b =? 0 then mret (Some i) else pv ← get_prev (lru s) pos; find_unused fuel pv s
      end
  end.

Definition bget (me : nat) (dv n : Z) (s : bsys) : outcome (nat * bsys) :=
  first ← get_next (lru s) None;
  hit ← find_block (S NBUF) first dv n s;
  match hit with
  | Some i =>
      s ← upd_buf i (λ b, with_refcnt (u32 (refcnt b + 1)) b) s;
      s ← acquiresleep me i s;
      mret (i, s)
  | None =>
      last ← get_prev (lru s) None;
      unused ← find_unused (S NBUF) last s;
      match unused with
      | Some i =>
          s ← upd_buf i (with_key false dv n 1) s;
          s ← acquiresleep me i s;
          mret (i, s)
      | None => Panic "bget: no buffers"
      end
  end.

Definition bread (me : nat) (dv n : Z) (s : bsys) : outcome (nat * bsys) :=
  '(i, s) ← bget me dv n s;
  b ← get_buf i s;
  if valid b then mret (i, s)
  else
    s ← virtio_disk_rw i false s;
    s ← upd_buf i (with_valid true) s;
    mret (i, s).

Definition bwrite (me i : nat) (s : bsys) : outcome bsys :=
  h ← holdingsleep me i s;
  if negb h then Panic "bwrite" else virtio_disk_rw i true s.

Definition brelse (me i : nat) (s : bsys) : outcome bsys :=
  h ← holdingsleep me i s;
  if negb h then Panic "brelse"
  else
    s ← releasesleep i s;
    s ← upd_buf i (λ b, with_refcnt (u32 (refcnt b - 1)) b) s;
    b ← get_buf i s;
    if refcnt b =? 0 then s ← on_lru (take_out i) s; on_lru (put_first i) s else mret s.

Definition bpin (i : nat) (s : bsys) : outcome bsys := upd_buf i (λ b, with_refcnt (u32 (refcnt b + 1)) b) s.
Definition bunpin (i : nat) (s : bsys) : outcome bsys := upd_buf i (λ b, with_refcnt (u32 (refcnt b - 1)) b) s.

(** Memory and the disk when the machine starts. *)
Definition zero_buf : buf := Buf false 0 0 None 0 zero_block.
Definition power_on (d : gmap (Z * Z) block) : bsys :=
  Bsys (repeat zero_buf NBUF) (list_to_map ((λ i, (i, ListNode None None)) <$> (None :: (Some <$> seq 0 NBUF)))) d.
