(* ===== verification/RBioSpec.v ===== *)
(** [RBioSpec]: what the buffer cache of the RISC-V kernel does.

    The pointer list is a sequence of buffers, most recently used first
    ([cache_ok]).  [bread] finds the one buffer of a block, or takes the least
    recently used of those nobody refers to; what it returns is the block as
    the cache and the disk together show it ([view]). *)
From Stdlib Require Import ZArith Lia.
From stdpp Require Import numbers strings gmap list.
From S2P Require Import Prelude ListHead MemLayout RBio.
Open Scope Z_scope.

Definition is_block (dv n : Z) (b : buf) : bool := (dev b =? dv) && (blockno b =? n).
Definition is_unused (b : buf) : bool := refcnt b =? 0.

Lemma is_block_spec dv n b : is_block dv n b = true ↔ dev b = dv ∧ blockno b = n.
Proof. unfold is_block. rewrite andb_true_iff, !Z.eqb_eq. done. Qed.

(** The first buffer of [order] with property [p]. *)
Fixpoint search (p : buf → bool) (order : list nat) (l : list buf) : option nat :=
  match order with
  | [] => None
  | i :: order => match l !! i with Some b => if p b then Some i else search p order l | None => search p order l end
  end.

Record cache_ok (s : bsys) (order : list nat) : Prop := {
  co_len : length (bufs s) = NBUF;
  co_lru : repr (lru s) {[ None := Some <$> order ]};
  co_perm : order ≡ₚ seq 0 NBUF;
  co_key i j b c : bufs s !! i = Some b → bufs s !! j = Some c → dev b ≠ 0 → dev b = dev c → blockno b = blockno c → i = j
}.

(** ** The list *)

Lemma list_del_take_out i h : list_del (Some i) h = (h ← take_out i h; h ← set_next h (Some i) (Some i); set_prev h (Some i) (Some i)).
Proof.
  unfold list_del, take_out. destruct (get_next h (Some i)) as [nx|?| |]; [|done..]. run. destruct (get_prev h (Some i)) as [pv|?| |]; [|done..]. run.
  destruct (set_prev h nx pv) as [h1|?| |]; [|done..]. run. destruct (get_prev h1 (Some i)) as [pv'|?| |]; [|done..]. run.
  destruct (get_next h1 (Some i)) as [nx'|?| |]; [|done..]. run. by destruct (set_next h1 pv' nx').
Qed.

Ltac go := cbn [deref]; run.

Lemma set_both (h : gmap node (list_head node)) x a b nd : h !! x = Some nd → (h ← set_next h x a; set_prev h x b) = Done (<[x := ListNode a b]> h).
Proof. intros Hx. unfold set_next, set_prev. rewrite Hx. go. rewrite lookup_insert_eq. go. by rewrite insert_insert_eq. Qed.

Lemma put_first_add i h h2 nd : h !! Some i = Some nd → next <$> h !! None ≠ Some (Some i) →
  list_add (Some i) None (INIT_LIST_HEAD (Some i) h) = Done h2 → put_first i h = Done h2.
Proof.
  intros Hi Hne. destruct (h !! None) as [hd|] eqn:Hd.
  - assert (next hd ≠ Some i) as Hn by (intros E; apply Hne; cbn; by rewrite E). unfold list_add, __list_add, put_first, INIT_LIST_HEAD, get_next, set_next, set_prev.
    destruct (h !! next hd) as [nn|] eqn:Hnx.
    + repeat (first [rewrite lookup_insert_eq|rewrite lookup_insert_ne by done|rewrite Hi|rewrite Hd|rewrite Hnx]; go; cbn [next prev]).
      destruct (next hd) as [j|] eqn:En; repeat (first [rewrite lookup_insert_eq|rewrite lookup_insert_ne by done|rewrite Hi|rewrite Hd|rewrite Hnx]; go; cbn [next prev]); intros <-; f_equal; apply map_eq; intros x;
        rewrite !lookup_insert; repeat case_decide; simplify_eq; done.
    + rewrite lookup_insert_ne by done. rewrite Hd. go. rewrite lookup_insert_ne by done. by rewrite Hnx.
  - unfold list_add, INIT_LIST_HEAD, get_next. rewrite lookup_insert_ne by done. by rewrite Hd.
Qed.

Implicit Types (h : gmap node (list_head node)) (order : list nat).

Lemma first_node h (xs : list nat) : repr h {[ None := Some <$> xs ]} → next <$> h !! None = Some (head xs).
Proof.
  intros Hr. pose proof (repr_linked _ _ Hr None (Some <$> xs) (lookup_singleton_eq _ _)) as Hl. by destruct xs; destruct Hl as [Hn _].
Qed.

Lemma set_next_dom h h' x v j : set_next h x v = Done h' → is_Some (h !! j) → is_Some (h' !! j).
Proof. unfold set_next. destruct (h !! x); [|done]. intros [= <-] Hj. apply lookup_insert_is_Some'. by right. Qed.
Lemma set_prev_dom h h' x v j : set_prev h x v = Done h' → is_Some (h !! j) → is_Some (h' !! j).
Proof. unfold set_prev. destruct (h !! x); [|done]. intros [= <-] Hj. apply lookup_insert_is_Some'. by right. Qed.

Lemma put_first_dom h h' i j : put_first i h = Done h' → is_Some (h !! j) → is_Some (h' !! j).
Proof.
  unfold put_first. destruct (get_next h None) as [nx|?| |]; [|done..]. run. destruct (set_next h (Some i) nx) as [h1|?| |] eqn:E1; [|done..]. run.
  destruct (set_prev h1 (Some i) None) as [h2|?| |] eqn:E2; [|done..]. run. destruct (get_next h2 None) as [nx2|?| |]; [|done..]. run.
  destruct (set_prev h2 nx2 (Some i)) as [h3|?| |] eqn:E3; [|done..]. run. intros E4 Hj. eauto using set_next_dom, set_prev_dom.
Qed.

(** A buffer that is not in the list is put first. *)
Lemma put_first_spec h xs i : repr h {[ None := Some <$> xs ]} → i ∉ xs → is_Some (h !! Some i) →
  ∃ h', put_first i h = Done h' ∧ repr h' {[ None := Some <$> i :: xs ]} ∧ ∀ j, is_Some (h !! j) → is_Some (h' !! j).
Proof.
  intros Hr Hi [nd Hnd]. assert (unlisted {[ None := Some <$> xs ]} (Some i)) as Hu.
  { intros hd ys [<- <-]%lookup_singleton_Some. intros [E|(j & [= <-] & Hj)%list_elem_of_fmap]%elem_of_cons; done. }
  destruct (list_add_spec (INIT_LIST_HEAD (Some i) h) (<[Some i := []]> {[ None := Some <$> xs ]}) None (Some <$> xs) (Some i)) as (h' & Ha & Hr').
  { apply INIT_LIST_HEAD_repr; [done|by left]. } { rewrite lookup_insert_ne by done. apply lookup_singleton_eq. } { apply lookup_insert_eq. } { done. }
  assert (put_first i h = Done h') as Hrun.
  { apply (put_first_add i h h' nd Hnd); [|done]. rewrite (first_node h xs Hr). destruct xs as [|j xs]; [done|]. cbn. intros [= ->]. set_solver. }
  exists h'. split; [done|]. split; [|intros j; by apply put_first_dom with i].
  replace ({[None := Some <$> i :: xs]}) with (<[None := Some i :: (Some <$> xs)]> (delete (Some i) (<[Some i := []]> ({[None := Some <$> xs]} : gmap node (list node))))); [done|].
  rewrite delete_insert_id by (by rewrite lookup_singleton_ne). by rewrite insert_singleton_eq.
Qed.

(** A buffer of the list is moved to its front. *)
Lemma relink_spec h xs i ys : repr h {[ None := Some <$> xs ++ i :: ys ]} →
  ∃ h1 h', take_out i h = Done h1 ∧ put_first i h1 = Done h' ∧ repr h' {[ None := Some <$> i :: xs ++ ys ]}.
Proof.
  intros Hr. rewrite fmap_app in Hr. destruct (list_del_spec h _ None (fmap (M:=list) Some xs) (Some i) (fmap (M:=list) Some ys) Hr (lookup_singleton_eq _ _)) as (h2 & Hd & Hr2).
  rewrite list_del_take_out in Hd. destruct (take_out i h) as [h1|?| |] eqn:Ht; [|done..]. cbn [mbind outcome_mbind outcome_bind] in Hd.
  assert (is_Some (h1 !! Some i)) as [nd Hnd]. { unfold set_next in Hd. destruct (h1 !! Some i); [eauto|done]. }
  pose proof (set_both h1 (Some i) (Some i) (Some i) nd Hnd) as Hb. cbn [mbind outcome_mbind outcome_bind] in Hb. rewrite Hb in Hd. injection Hd as <-.
  rewrite insert_singleton_eq in Hr2. destruct (list_add_spec _ _ None ((fmap (M:=list) Some xs) ++ (fmap (M:=list) Some ys)) (Some i) Hr2) as (h' & Ha & Hr').
  { rewrite lookup_insert_ne by done. apply lookup_singleton_eq. } { apply lookup_insert_eq. } { done. }
  exists h1, h'. split; [done|]. split.
  - apply (put_first_add i h1 h' nd Hnd); [|done]. pose proof (repr_linked _ _ Hr2 None ((fmap (M:=list) Some xs) ++ (fmap (M:=list) Some ys))) as Hl.
    rewrite lookup_insert_ne in Hl by done. specialize (Hl (lookup_singleton_eq _ _)). pose proof (repr_nodup _ _ Hr None _ (lookup_singleton_eq _ _)) as Hn.
    destruct xs as [|a xs]; [destruct ys as [|a ys]|]; destruct Hl as [Hl _]; rewrite lookup_insert_ne in Hl by done; rewrite Hl; [done|..]; intros [= ->];
      apply NoDup_cons in Hn as [_ Hn]; apply NoDup_cons in Hn as [Hn _]; set_solver.
  - rewrite delete_insert_id in Hr' by (by rewrite lookup_singleton_ne). rewrite insert_singleton_eq in Hr'. by rewrite fmap_cons, fmap_app.
Qed.

(** ** The loops of [bget] *)

Lemma find_block_walk s dv n xs fuel : linked (lru s) ((Some <$> xs) ++ [None]) → (length xs < fuel)%nat → (∀ i, i ∈ xs → is_Some (bufs s !! i)) →
  find_block fuel (head xs) dv n s = Done (search (is_block dv n) xs (bufs s)).
Proof.
  revert fuel. induction xs as [|i xs IH]; intros [|fuel] Hl Hf Hb; [cbn in Hf; lia|done|cbn in Hf; lia|]. cbn [find_block head search].
  destruct (Hb i) as [b Hi]; [set_solver|]. unfold get_buf. rewrite Hi. cbn [deref]. run. unfold is_block. destruct (_ && _); [done|].
  assert (next <$> lru s !! Some i = Some (head xs) ∧ linked (lru s) ((Some <$> xs) ++ [None])) as [Hn Hl'] by (destruct xs; destruct Hl as (? & _ & ?); done).
  unfold get_next. destruct (lru s !! Some i) as [nd|]; [|done]. cbn [deref]. run. injection Hn as ->. cbn in Hf. apply IH; [done|lia|set_solver].
Qed.

Lemma find_unused_walk s xs fuel : linked (lru s) (None :: (Some <$> xs)) → (length xs < fuel)%nat → (∀ i, i ∈ xs → is_Some (bufs s !! i)) →
  find_unused fuel (last xs) s = Done (search is_unused (rev xs) (bufs s)).
Proof.
  revert fuel. induction xs as [|i xs IH] using rev_ind; intros [|fuel] Hl Hf Hb; [cbn in Hf; lia|done|lia|]. rewrite last_snoc, rev_unit. cbn [find_unused search].
  destruct (Hb i) as [b Hi]; [set_solver|]. unfold get_buf. rewrite Hi. cbn [deref]. run. unfold is_unused. destruct (_ =? _); [done|].
  assert (prev <$> lru s !! Some i = Some (last xs) ∧ linked (lru s) (None :: (Some <$> xs))) as [Hn Hl'].
  { rewrite fmap_app in Hl. change (Some <$> [i]) with [Some i] in Hl. destruct xs as [|j xs _] using rev_ind; [by destruct Hl as (_ & ? & _)|]. rewrite last_snoc.
    rewrite fmap_app, <- app_assoc in Hl. change (None :: (Some <$> xs) ++ (Some <$> [j]) ++ [Some i]) with ((None :: (Some <$> xs)) ++ Some j :: [Some i]) in Hl.
    apply linked_app in Hl as [Hl1 Hl2]. rewrite fmap_app. split; [by destruct Hl2 as (_ & ? & _)|done]. }
  unfold get_prev. destruct (lru s !! Some i) as [nd|]; [|done]. cbn [deref]. run. injection Hn as ->. rewrite length_app in Hf. cbn in Hf. apply IH; [done|lia|set_solver].
Qed.

Lemma search_Some p order l i : search p order l = Some i → ∃ b, l !! i = Some b ∧ p b = true ∧ i ∈ order.
Proof.
  induction order as [|j order IH]; [done|]. cbn. destruct (l !! j) as [b|] eqn:Hj.
  - destruct (p b) eqn:Hp; [intros [= <-]; exists b; set_solver|]. intros Hs. destruct (IH Hs) as (c & ? & ? & ?). exists c. set_solver.
  - intros Hs. destruct (IH Hs) as (c & ? & ? & ?). exists c. set_solver.
Qed.

Lemma search_None p order l i b : search p order l = None → i ∈ order → l !! i = Some b → p b = false.
Proof.
  induction order as [|j order IH]; [set_solver|]. cbn. intros Hs Hi Hb. destruct (decide (i = j)) as [->|Hne]; [rewrite Hb in Hs; by destruct (p b)|].
  apply IH; [|set_solver|done]. destruct (l !! j) as [c|]; [by destruct (p c)|done].
Qed.

Section Cache.
Context (s : bsys) (order : list nat) (Hok : cache_ok s order).

Lemma order_buf i : i ∈ order → is_Some (bufs s !! i).
Proof using Hok. rewrite (co_perm _ _ Hok), elem_of_seq. intros Hi. apply lookup_lt_is_Some_2. rewrite (co_len _ _ Hok). lia. Qed.

Lemma buf_order i b : bufs s !! i = Some b → i ∈ order.
Proof using Hok. intros Hi%lookup_lt_Some. rewrite (co_len _ _ Hok) in Hi. rewrite (co_perm _ _ Hok), elem_of_seq. lia. Qed.

Lemma order_length : length order = NBUF.
Proof using Hok. by rewrite (co_perm _ _ Hok), length_seq. Qed.

Lemma order_cycle : linked (lru s) (None :: (Some <$> order) ++ [None]).
Proof using Hok. apply (repr_linked _ _ (co_lru _ _ Hok) None). apply lookup_singleton_eq. Qed.

Lemma lru_head : ∃ nd, lru s !! None = Some nd ∧ next nd = head order ∧ prev nd = last order.
Proof using Hok.
  pose proof order_cycle as Hl. assert (next <$> lru s !! None = Some (head order)) as Hn by (destruct order; by destruct Hl as [? _]).
  assert (prev <$> lru s !! None = Some (last order)) as Hp.
  { clear Hn. destruct order as [|j o _] using rev_ind; [by destruct Hl as (_ & ? & _)|]. rewrite last_snoc. rewrite fmap_app, <- app_assoc in Hl.
    change (None :: (Some <$> o) ++ (Some <$> [j]) ++ [None]) with ((None :: (Some <$> o)) ++ Some j :: [None]) in Hl. apply linked_app in Hl as [_ Hl]. by destruct Hl as (_ & ? & _). }
  destruct (lru s !! None) as [nd|]; [|done]. exists nd. cbn in Hn, Hp. by simplify_eq.
Qed.

Lemma bget_search me dv n : bget me dv n s =
  match search (is_block dv n) order (bufs s) with
  | Some i => s ← upd_buf i (λ b, with_refcnt (u32 (refcnt b + 1)) b) s; s ← acquiresleep me i s; mret (i, s)
  | None => match search is_unused (rev order) (bufs s) with
            | Some i => s ← upd_buf i (with_key false dv n 1) s; s ← acquiresleep me i s; mret (i, s)
            | None => Panic "bget: no buffers"
            end
  end.
Proof using Hok.
  destruct lru_head as (nd & Hnd & En & Ep). unfold bget, get_next, get_prev. rewrite Hnd. cbn [deref]. run. rewrite En, Ep.
  pose proof order_cycle as Hl. pose proof order_length as Hlen. rewrite find_block_walk; [|destruct order; apply Hl|lia|apply order_buf]. run.
  destruct (search _ order _) as [i|]; [done|]. rewrite find_unused_walk; [done| |lia|apply order_buf].
  change (None :: (Some <$> order) ++ [None]) with ((None :: (Some <$> order)) ++ [None]) in Hl. destruct (exists_last (l := None :: (Some <$> order))) as (l1 & x & E); [done|].
  rewrite E in Hl |- *. rewrite <- app_assoc in Hl. by apply linked_app in Hl as [? _].
Qed.

Definition cached dv n : Prop := ∃ i b, bufs s !! i = Some b ∧ dev b = dv ∧ blockno b = n.

Lemma search_hit dv n i b : dv ≠ 0 → bufs s !! i = Some b → dev b = dv → blockno b = n → search (is_block dv n) order (bufs s) = Some i.
Proof using Hok.
  intros Hd Hi E1 E2. destruct (search _ _ _) as [j|] eqn:Hs.
  - apply search_Some in Hs as (c & Hj & [E3 E4]%is_block_spec & _). f_equal. apply (co_key _ _ Hok j i c b); congruence.
  - pose proof (search_None _ _ _ _ _ Hs (buf_order i b Hi) Hi) as E. assert (is_block dv n b = true) by by apply is_block_spec. congruence.
Qed.

Lemma search_miss dv n : ¬ cached dv n → search (is_block dv n) order (bufs s) = None.
Proof using Hok.
  intros Hn. destruct (search _ _ _) as [j|] eqn:Hs; [|done]. apply search_Some in Hs as (c & Hj & [E3 E4]%is_block_spec & _). destruct Hn. by exists j, c.
Qed.
End Cache.

(** ** The functions *)

(** A block as the cache and the disk show it. *)
Definition view (s : bsys) (dv n : Z) : block :=
  match list_find (λ b, is_block dv n b && valid b) (bufs s) with Some (_, b) => data b | None => disk_block (disk s) dv n end.

Lemma view_hit s order dv n i b : cache_ok s order → dv ≠ 0 → bufs s !! i = Some b → dev b = dv → blockno b = n → valid b = true → view s dv n = data b.
Proof.
  intros Hok Hd Hi E1 E2 Hv. unfold view. destruct (list_find _ _) as [[j c]|] eqn:Hf.
  - apply list_find_Some in Hf as (Hj & Hp & _). apply Is_true_true, andb_true_iff in Hp as [[E3 E4]%is_block_spec _].
    assert (j = i) as -> by (apply (co_key _ _ Hok j i c b); congruence). congruence.
  - apply list_find_None in Hf. rewrite Forall_lookup in Hf. specialize (Hf i b Hi). destruct Hf. apply Is_true_true, andb_true_iff. by rewrite is_block_spec.
Qed.

Lemma view_miss s dv n : (∀ i b, bufs s !! i = Some b → dev b = dv → blockno b = n → valid b = false) → view s dv n = disk_block (disk s) dv n.
Proof.
  intros Hn. unfold view. destruct (list_find _ _) as [[j c]|] eqn:Hf; [|done].
  apply list_find_Some in Hf as (Hj & Hp & _). apply Is_true_true, andb_true_iff in Hp as [[E3 E4]%is_block_spec Hv]. rewrite (Hn j c Hj E3 E4) in Hv. done.
Qed.

Lemma set_buf_at s i b : (i < length (bufs s))%nat → bufs (set_buf i b s) !! i = Some b.
Proof. intros Hi. by apply list_lookup_insert_eq. Qed.

Lemma set_buf_ne s i j b : i ≠ j → bufs (set_buf i b s) !! j = bufs s !! j.
Proof. intros Hi. by apply list_lookup_insert_ne. Qed.

Lemma set_buf_twice s i b c : set_buf i b (set_buf i c s) = set_buf i b s.
Proof. unfold set_buf, with_bufs. cbn. by rewrite list_insert_insert_eq. Qed.

Lemma set_buf_ok s order i b c : cache_ok s order → bufs s !! i = Some b →
  dev c = 0 ∨ dev c = dev b ∧ blockno c = blockno b ∨ ¬ cached s (dev c) (blockno c) → cache_ok (set_buf i c s) order.
Proof.
  intros Hok Hi Hk. pose proof (lookup_lt_Some _ _ _ Hi) as Hlt. split; [|apply Hok|apply Hok|].
  - cbn. rewrite length_insert. apply Hok.
  - assert (∀ j d, bufs s !! j = Some d → dev d ≠ 0 → dev d = dev c → blockno d = blockno c → j = i) as Hone.
    { intros j d Hj Hd E1 E2. destruct Hk as [Hk|[[K1 K2]|Hk]]; [congruence|apply (co_key _ _ Hok j i d b); congruence|destruct Hk; by exists j, d]. }
    intros j k d e Hj Hk' Hd E1 E2. destruct (decide (i = j)) as [<-|Nj]; [rewrite set_buf_at in Hj by done; injection Hj as <-|rewrite set_buf_ne in Hj by done];
      (destruct (decide (i = k)) as [<-|Nk]; [rewrite set_buf_at in Hk' by done; injection Hk' as <-|rewrite set_buf_ne in Hk' by done]);
      [done|symmetry; by apply (Hone k e); congruence|by apply (Hone j d)|by apply (co_key _ _ Hok j k d e)].
Qed.

Ltac at_buf := rewrite set_buf_at by (cbn; rewrite ?length_insert; lia).

Lemma bread_hit s order me dv n i b : cache_ok s order → dv ≠ 0 → bufs s !! i = Some b → dev b = dv → blockno b = n → holder b = None →
  bread me dv n s = Done (i, set_buf i (Buf true dv n (Some me) (u32 (refcnt b + 1)) (view s dv n)) s).
Proof.
  intros Hok Hd Hi E1 E2 Hh. pose proof (lookup_lt_Some _ _ _ Hi) as Hlt. unfold bread. rewrite (bget_search s order Hok), (search_hit s order Hok dv n i b Hd Hi E1 E2).
  unfold upd_buf, acquiresleep, virtio_disk_rw, get_buf. rewrite Hi. go. at_buf.
  go. cbn [with_refcnt holder]. rewrite Hh. go.
  at_buf. go. cbn [with_refcnt with_holder valid]. rewrite set_buf_twice. destruct (valid b) eqn:Hv.
  - rewrite (view_hit s order dv n i b Hok Hd Hi E1 E2 Hv). cbn. unfold with_holder, with_refcnt. cbn. by rewrite E1, E2, Hv.
  - repeat (at_buf; go). rewrite !set_buf_twice. rewrite view_miss.
    + cbn. unfold with_valid, with_data, with_holder, with_refcnt. cbn. by rewrite E1, E2.
    + intros j c Hj E3 E4. assert (j = i) as -> by (apply (co_key _ _ Hok j i c b); congruence). congruence.
Qed.

Lemma bread_miss s order me dv n i b : cache_ok s order → ¬ cached s dv n → search is_unused (rev order) (bufs s) = Some i → bufs s !! i = Some b → holder b = None →
  bread me dv n s = Done (i, set_buf i (Buf true dv n (Some me) 1 (view s dv n)) s).
Proof.
  intros Hok Hn Hs Hi Hh. pose proof (lookup_lt_Some _ _ _ Hi) as Hlt. unfold bread. rewrite (bget_search s order Hok), (search_miss s order Hok dv n Hn), Hs.
  unfold upd_buf, acquiresleep, virtio_disk_rw, get_buf. rewrite Hi. go. at_buf. go. cbn [with_key holder]. rewrite Hh. go.
  at_buf. go. cbn [with_key with_holder valid]. rewrite set_buf_twice. repeat (at_buf; go). rewrite !set_buf_twice. rewrite view_miss; [done|]. intros j c Hj E3 E4. destruct Hn. by exists j, c.
Qed.

Lemma cached_dec s dv n : cached s dv n ∨ ¬ cached s dv n.
Proof.
  destruct (decide (Exists (λ b, is_block dv n b = true) (bufs s))) as [He|He].
  - left. apply Exists_exists in He as (b & [i Hi]%list_elem_of_lookup & [E1 E2]%is_block_spec). by exists i, b.
  - right. intros (i & b & Hi & E1 & E2). apply He, Exists_exists. exists b. split; [by eapply list_elem_of_lookup_2|by apply is_block_spec].
Qed.

(** What a successful [bread] did. *)
Lemma bread_inv s order me dv n i s' : cache_ok s order → dv ≠ 0 → bread me dv n s = Done (i, s') →
  ∃ b r, bufs s !! i = Some b ∧ holder b = None ∧ s' = set_buf i (Buf true dv n (Some me) r (view s dv n)) s ∧ cache_ok s' order ∧
    (dev b = dv ∧ blockno b = n ∧ r = u32 (refcnt b + 1) ∨ ¬ cached s dv n ∧ refcnt b = 0 ∧ r = 1).
Proof.
  intros Hok Hd Hrun. destruct (cached_dec s dv n) as [(j & b & Hj & E1 & E2)|Hn].
  - destruct (holder b) eqn:Hh.
    + exfalso. unfold bread in Hrun. rewrite (bget_search s order Hok), (search_hit s order Hok dv n j b Hd Hj E1 E2) in Hrun.
      unfold upd_buf, acquiresleep, get_buf in Hrun. rewrite Hj in Hrun. cbn [deref mbind outcome_mbind outcome_bind mret outcome_mret] in Hrun. rewrite set_buf_at in Hrun by (by eapply lookup_lt_Some).
      cbn [deref mbind outcome_mbind outcome_bind with_refcnt holder] in Hrun. by rewrite Hh in Hrun.
    + rewrite (bread_hit s order me dv n j b Hok Hd Hj E1 E2 Hh) in Hrun. injection Hrun as <- <-. exists b, (u32 (refcnt b + 1)). split_and!; try done; [|by left].
      apply (set_buf_ok s order j b); [done..|]. right. by left.
  - destruct (search is_unused (rev order) (bufs s)) as [j|] eqn:Hs.
    + pose proof (search_Some _ _ _ _ Hs) as (b & Hj & Hu & _). destruct (holder b) eqn:Hh.
      * exfalso. unfold bread in Hrun. rewrite (bget_search s order Hok), (search_miss s order Hok dv n Hn), Hs in Hrun.
        unfold upd_buf, acquiresleep, get_buf in Hrun. rewrite Hj in Hrun. cbn [deref mbind outcome_mbind outcome_bind mret outcome_mret] in Hrun. rewrite set_buf_at in Hrun by (by eapply lookup_lt_Some).
        cbn [deref mbind outcome_mbind outcome_bind with_key holder] in Hrun. by rewrite Hh in Hrun.
      * rewrite (bread_miss s order me dv n j b Hok Hn Hs Hj Hh) in Hrun. injection Hrun as <- <-. exists b, 1. apply Z.eqb_eq in Hu. split_and!; try done; [|by right].
        apply (set_buf_ok s order j b); [done..|]. by do 2 right.
    + exfalso. unfold bread in Hrun. by rewrite (bget_search s order Hok), (search_miss s order Hok dv n Hn), Hs in Hrun.
Qed.

(** ** Giving back *)

Definition released (b : buf) : buf := with_refcnt (u32 (refcnt b - 1)) (with_holder None b).

Lemma brelse_spec s order me i b : cache_ok s order → bufs s !! i = Some b → holder b = Some me →
  ∃ h order', brelse me i s = Done (with_lru h (set_buf i (released b) s)) ∧ cache_ok (with_lru h (set_buf i (released b) s)) order' ∧
    if refcnt (released b) =? 0 then ∃ xs ys, order = xs ++ i :: ys ∧ order' = i :: xs ++ ys else order' = order.
Proof.
  intros Hok Hi Hh. pose proof (lookup_lt_Some _ _ _ Hi) as Hlt. unfold brelse, holdingsleep, releasesleep, upd_buf, get_buf. rewrite Hi. go. rewrite Hh, bool_decide_true by done. cbn [negb]. go.
  repeat (at_buf; go). rewrite !set_buf_twice. repeat (at_buf; go).
  assert (cache_ok (set_buf i (released b) s) order) as Hok' by (apply (set_buf_ok s order i b); [done..|]; right; by left).
  change (with_refcnt (u32 (refcnt (with_holder None b) - 1)) (with_holder None b)) with (released b). destruct (refcnt (released b) =? 0).
  - pose proof (buf_order s order Hok i b Hi) as (xs & ys & ->)%list_elem_of_split. pose proof (co_lru _ _ Hok) as Hr. destruct (relink_spec (lru s) xs i ys Hr) as (h1 & h' & E1 & E2 & Hr').
    unfold on_lru. cbn [lru set_buf with_bufs]. rewrite E1. run. cbn [lru with_lru]. rewrite E2. run. exists h', (i :: xs ++ ys). split; [done|]. split; [|by exists xs, ys].
    split; [apply Hok'|done| |apply Hok']. rewrite <- (co_perm _ _ Hok). by rewrite Permutation_middle.
  - exists (lru s), order. split; [|split; [|done]]; by destruct s.
Qed.

(** ** At start-up *)

Lemma binit_loop l : ∀ xs s, NoDup l → (∀ i, i ∈ l → i ∉ xs ∧ is_Some (lru s !! Some i) ∧ ∃ b, bufs s !! i = Some b ∧ holder b = None) → repr (lru s) {[ None := Some <$> xs ]} →
  ∃ h, each l (λ i s, s ← on_lru (put_first i) s; initsleeplock i s) s = Done (with_lru h s) ∧ repr h {[ None := Some <$> rev l ++ xs ]}.
Proof.
  set (f := λ i s, _). induction l as [|i l IH]; intros xs s Hnd Hl Hr; cbn [each]; [exists (lru s); by destruct s|]. apply NoDup_cons in Hnd as [Hi Hnd]. destruct (Hl i) as (Hx & Hd & b & Hb & Hh); [set_solver|].
  destruct (put_first_spec (lru s) xs i Hr Hx Hd) as (h & E & Hr' & Hdom).
  assert (f i s = Done (with_lru h s)) as ->.
  { unfold f, on_lru. rewrite E. go. unfold initsleeplock, upd_buf, get_buf. cbn [bufs with_lru]. rewrite Hb. go. f_equal. unfold set_buf, with_bufs, with_lru. cbn. f_equal.
    apply list_insert_id. rewrite Hb. f_equal. destruct b; cbn in *. by subst. }
  go. destruct (IH (i :: xs) (with_lru h s)) as (h' & E' & Hr''); [done| |done|].
  - intros j Hj. destruct (Hl j) as (Jx & Jd & Jb); [set_solver|]. split; [|split; [by apply Hdom|done]]. intros [->|?]%elem_of_cons; done.
  - exists h'. split; [by destruct s|]. cbn [rev]. by rewrite <- app_assoc.
Qed.

Lemma binit_ok d : ∃ h, binit (power_on d) = Done (with_lru h (power_on d)) ∧ cache_ok (with_lru h (power_on d)) (rev (seq 0 NBUF)).
Proof.
  unfold binit. set (s0 := with_lru _ _). assert (∀ i, bufs s0 !! i = Some zero_buf ∨ bufs s0 !! i = None) as Hz.
  { intros i. destruct (bufs s0 !! i) as [b|] eqn:E; [left|by right]. change (repeat zero_buf NBUF !! i = Some b) in E. f_equal. symmetry. by apply list_elem_of_lookup_2, list_elem_of_In, repeat_spec in E. }
  destruct (binit_loop (seq 0 NBUF) [] s0) as (h & E & Hr).
  - apply NoDup_seq.
  - intros i Hi. apply elem_of_seq in Hi. split; [apply not_elem_of_nil|]. split.
    + unfold s0. cbn [lru with_lru]. apply lookup_insert_is_Some'. right. apply elem_of_dom, dom_list_to_map. rewrite <- list_fmap_compose. apply elem_of_list_to_set, list_elem_of_fmap. exists (Some i). split; [done|].
      apply elem_of_cons. right. apply list_elem_of_fmap. exists i. split; [done|]. apply elem_of_seq. lia.
    + destruct (Hz i) as [->|Hn]; [by eexists|]. apply lookup_ge_None_1 in Hn. change (length (repeat zero_buf NBUF) ≤ i)%nat in Hn. rewrite repeat_length in Hn. lia.
  - split.
    + intros hd xs [<- <-]%lookup_singleton_Some. cbn. done.
    + intros hd xs [<- <-]%lookup_singleton_Some. apply NoDup_singleton.
    + intros hd hd' xs xs' x [<- _]%lookup_singleton_Some [<- _]%lookup_singleton_Some. done.
  - exists h. split; [exact E|]. rewrite app_nil_r in Hr. split; [apply repeat_length|done|symmetry; apply Permutation_rev|].
    intros i j b c Hi Hj Hd. exfalso. apply Hd. change (bufs s0 !! i = Some b) in Hi. destruct (Hz i) as [E0|E0]; rewrite Hi in E0; [|done]. apply (inj Some) in E0. by rewrite E0.
Qed.

(** * The buffer cache of the RISC-V kernel as a map from blocks to
    contents.

    [cinv s pins cont]: cache and disk together hold [cont]; [pins k] counts the
    references to the buffer of block [k] that no lock accounts for.  A block
    with [pins k = 1] is pinned: its contents may be in the cache only.  Every
    other block is on the disk.  ([pins k = -1] is what the recovery leaves
    behind: it unpins buffers nobody pinned.) *)

Notation bkey := (Z * Z)%type.
Definition key (b : buf) : bkey := (dev b, blockno b).
Definition held (b : buf) : Z := if holder b then 1 else 0.
Definition on_disk (s : bsys) (k : bkey) : block := disk_block (disk s) k.1 k.2.

Record cinv (s : bsys) (pins : bkey → Z) (cont : bkey → block) : Prop := {
  ci_ok : ∃ order, cache_ok s order;
  ci_ref i b : bufs s !! i = Some b → refcnt b = u32 (held b + pins (key b));
  ci_val i b : bufs s !! i = Some b → valid b = true → data b = cont (key b);
  ci_zero i b : bufs s !! i = Some b → dev b = 0 → valid b = false ∧ holder b = None;
  ci_len k : length (cont k) = Z.to_nat BSIZE;
  ci_pin k : pins k ≠ 0 → ∃ i b, bufs s !! i = Some b ∧ key b = k ∧ valid b = true;
  ci_clean k : pins k ≠ 1 → on_disk s k = cont k;
  ci_pins k : -1 ≤ pins k ≤ 1;
  ci_dev k : pins k ≠ 0 → k.1 ≠ 0;
  ci_held i b : bufs s !! i = Some b → holder b ≠ None → valid b = true
}.

(** Change at one place. *)
Definition upd {A} (k : bkey) (v : A) (f : bkey → A) : bkey → A := λ k', if decide (k' = k) then v else f k'.
Lemma put_eq {A} k (v : A) f : upd k v f k = v.
Proof. unfold upd. by rewrite decide_True. Qed.
Lemma put_ne {A} k k' (v : A) f : k' ≠ k → upd k v f k' = f k'.
Proof. intros Hn. unfold upd. by rewrite decide_False. Qed.

Lemma cinv_ext s pins cont pins' cont' : (∀ k, pins' k = pins k) → (∀ k, cont' k = cont k) → cinv s pins cont → cinv s pins' cont'.
Proof.
  intros Ep Ec [I1 I2 I3 I4 I5 I6 I7 I8 I9 I10]. split; [done|..].
  - intros i b Hi. rewrite Ep. by apply (I2 i).
  - intros i b Hi Hv. rewrite Ec. by apply (I3 i).
  - done.
  - intros k. by rewrite Ec.
  - intros k. rewrite Ep. apply I6.
  - intros k. rewrite Ep, Ec. apply I7.
  - intros k. by rewrite Ep.
  - intros k. rewrite Ep. apply I9.
  - done.
Qed.

Lemma key_eq b dv n : dev b = dv → blockno b = n → key b = (dv, n).
Proof. intros <- <-. done. Qed.

(** One buffer of a block. *)
Lemma one_buf s pins cont i j b c : cinv s pins cont → bufs s !! i = Some b → bufs s !! j = Some c → dev b ≠ 0 → key b = key c → i = j.
Proof. intros Hc Hi Hj Hd [= E1 E2]. destruct (ci_ok _ _ _ Hc) as [order Hok]. by apply (co_key _ _ Hok i j b c). Qed.

(** Replace the state of a buffer: its block, contents and references agree. *)
Lemma cinv_set s order pins cont pins' cont' i b c : cinv s pins cont → cache_ok (set_buf i c s) order → bufs s !! i = Some b →
  refcnt c = u32 (held c + pins' (key c)) → dev c ≠ 0 → (holder c ≠ None → valid c = true) → (valid c = true → data c = cont' (key c)) →
  (∀ k, pins' k ≠ pins k ∨ cont' k ≠ cont k → k = key c) → (∀ k, length (cont' k) = Z.to_nat BSIZE) →
  (pins (key b) ≠ 0 → key b = key c) → (pins' (key c) ≠ 0 → valid c = true) →
  (pins' (key c) ≠ 1 → on_disk s (key c) = cont' (key c)) → -1 ≤ pins' (key c) ≤ 1 →
  cinv (set_buf i c s) pins' cont'.
Proof.
  intros Hc Hok Hi Hr Hdv Hhv Hv Hk Hlen Hold Hp Hcl Hrg. pose proof (lookup_lt_Some _ _ _ Hi) as Hlt. destruct Hc as [I1 I2 I3 I4 I5 I6 I7 I8 I9 I10].
  assert (∀ k, k ≠ key c → pins' k = pins k ∧ cont' k = cont k) as Hsame.
  { intros k Hne. split; [destruct (decide (pins' k = pins k)) as [|Hx]; [done|]|destruct (decide (cont' k = cont k)) as [|Hx]; [done|]]; destruct Hne, (Hk k); auto. }
  assert (∀ j d, bufs (set_buf i c s) !! j = Some d → j = i ∧ d = c ∨ j ≠ i ∧ bufs s !! j = Some d) as Hat.
  { intros j d Hj. destruct (decide (j = i)) as [->|Hn]; [rewrite set_buf_at in Hj by done; injection Hj as <-; by left|rewrite set_buf_ne in Hj by done; by right]. }
  assert (∀ j d, j ≠ i → bufs s !! j = Some d → key d = key c → dev c = 0) as Huniq.
  { intros j d Hn Hj E. destruct (decide (dev c = 0)) as [|Hd]; [done|]. exfalso. injection E as E1 E2.
    apply Hn, (co_key _ _ Hok j i d c); [by rewrite set_buf_ne by congruence|by apply set_buf_at|congruence..]. }
  split; [by exists order|..].
  - intros j d Hj. destruct (Hat j d Hj) as [[-> ->]|[Hn Hj']]; [done|]. rewrite (I2 j d Hj'). destruct (decide (key d = key c)) as [E|E].
    + by destruct Hdv, (Huniq j d Hn Hj' E).
    + by rewrite (proj1 (Hsame (key d) E)).
  - intros j d Hj Hd. destruct (Hat j d Hj) as [[-> ->]|[Hn Hj']]; [by apply Hv|]. destruct (decide (key d = key c)) as [E|E]; [|rewrite (proj2 (Hsame (key d) E)); by apply (I3 j d)].
    by destruct Hdv, (Huniq j d Hn Hj' E).
  - intros j d Hj Hd. destruct (Hat j d Hj) as [[-> ->]|[Hn Hj']]; [done|by apply (I4 j d)].
  - done.
  - intros k Hk1. destruct (decide (k = key c)) as [->|Hne].
    + exists i, c. split; [by apply set_buf_at|]. split; [done|]. by apply Hp.
    + rewrite (proj1 (Hsame k Hne)) in Hk1. destruct (I6 k Hk1) as (j & d & Hj & Ek & Hd). exists j, d. split; [|done]. rewrite set_buf_ne; [done|].
      intros ->. assert (d = b) as -> by congruence. apply Hne. rewrite <- Ek. apply Hold. by rewrite Ek.
  - intros k Hk1. destruct (decide (k = key c)) as [->|Hne]; [by apply Hcl|]. destruct (Hsame k Hne) as [E1 E2]. rewrite E1 in Hk1. rewrite E2. by apply I7.
  - intros k. destruct (decide (k = key c)) as [->|Hne]; [done|]. rewrite (proj1 (Hsame k Hne)). apply I8.
  - intros k. destruct (decide (k = key c)) as [->|Hne]; [done|]. rewrite (proj1 (Hsame k Hne)). apply I9.
  - intros j d Hj Hd. destruct (Hat j d Hj) as [[-> ->]|[Hn Hj']]; [by apply Hhv|by apply (I10 j d)].
Qed.

Section Ops.
Context (s : bsys) (pins : bkey → Z) (cont : bkey → block) (Hc : cinv s pins cont).

Lemma view_cont k : k.1 ≠ 0 → view s k.1 k.2 = cont k.
Proof using Hc.
  intros Hd. destruct (ci_ok _ _ _ Hc) as [order Hok]. destruct (decide (Exists (λ b, is_block k.1 k.2 b && valid b = true) (bufs s))) as [He|He].
  - apply Exists_exists in He as (b & [i Hi]%list_elem_of_lookup & [[E1 E2]%is_block_spec Hv]%andb_true_iff). rewrite (view_hit s order k.1 k.2 i b Hok Hd Hi E1 E2 Hv).
    rewrite (ci_val _ _ _ Hc i b Hi Hv). f_equal. destruct k. by apply key_eq.
  - assert (∀ i b, bufs s !! i = Some b → dev b = k.1 → blockno b = k.2 → valid b = false) as Hn.
    { intros i b Hi E1 E2. destruct (valid b) eqn:Hv; [|done]. destruct He. apply Exists_exists. exists b. split; [by eapply list_elem_of_lookup_2|]. apply andb_true_iff. by rewrite is_block_spec. }
    rewrite (view_miss s k.1 k.2 Hn). apply (ci_clean _ _ _ Hc k). intros Hp. destruct (ci_pin _ _ _ Hc k ltac:(lia)) as (i & b & Hi & Ek & Hv).
    rewrite (Hn i b Hi) in Hv; [done|by rewrite <- Ek..].
Qed.

Lemma ref_zero i b : bufs s !! i = Some b → refcnt b = 0 → holder b = None → pins (key b) = 0.
Proof using Hc.
  intros Hi Hr Hh. rewrite (ci_ref _ _ _ Hc i b Hi) in Hr. unfold held in Hr. rewrite Hh in Hr. pose proof (ci_pins _ _ _ Hc (key b)) as Hp. unfold u32 in Hr.
  destruct (decide (pins (key b) = -1)) as [E|E]; [by rewrite E in Hr|]. rewrite Z.mod_small in Hr; lia.
Qed.

Lemma uncached_pin k : ¬ cached s k.1 k.2 → pins k = 0.
Proof using Hc.
  intros Hn. destruct (decide (pins k = 0)) as [|Hp]; [done|]. destruct (ci_pin _ _ _ Hc k Hp) as (i & b & Hi & Ek & _). destruct Hn. exists i, b. by rewrite <- Ek.
Qed.

(** A buffer that [me] holds on block [k]. *)
Definition holds (me i : nat) (k : bkey) (t : bsys) : Prop := ∃ b, bufs t !! i = Some b ∧ key b = k ∧ holder b = Some me ∧ valid b = true ∧ data b = cont k.

Lemma bread_cinv me k i s' : k.1 ≠ 0 → bread me k.1 k.2 s = Done (i, s') →
  cinv s' pins cont ∧ holds me i k s' ∧ disk s' = disk s ∧ (∀ j, j ≠ i → bufs s' !! j = bufs s !! j) ∧ ∃ b, bufs s !! i = Some b ∧ holder b = None.
Proof using Hc.
  intros Hd Hrun. destruct (ci_ok _ _ _ Hc) as [order Hok]. destruct (bread_inv s order me k.1 k.2 i s' Hok Hd Hrun) as (b & r & Hi & Hh & -> & Hok' & Hcase).
  rewrite view_cont in * by done. pose proof (lookup_lt_Some _ _ _ Hi) as Hlt. set (c := Buf true k.1 k.2 (Some me) r (cont k)) in *. assert (key c = k) as Ek by by destruct k. split; [|split; [|split; [done|split]]].
  - apply (cinv_set s order pins cont pins cont i b c Hc Hok' Hi); try rewrite Ek; try done; try apply Hc.
    + destruct Hcase as [(E1 & E2 & ->)|(Hn & Hr & ->)]; cbn.
      * rewrite (ci_ref _ _ _ Hc i b Hi). unfold held. rewrite Hh. rewrite (key_eq b k.1 k.2 E1 E2). rewrite <- surjective_pairing. unfold u32. rewrite Zplus_mod_idemp_l. f_equal. lia.
      * by rewrite (uncached_pin k Hn).
    + intros k' [?|?]; done.
    + intros Hp. destruct Hcase as [(E1 & E2 & _)|(Hn & Hr & _)]; [rewrite (key_eq b k.1 k.2 E1 E2); by destruct k|]. by rewrite (ref_zero i b Hi Hr Hh) in Hp.
  - exists c. split; [by apply set_buf_at|]. done.
  - intros j Hn. by apply set_buf_ne.
  - by exists b.
Qed.
(** ** When [bread] returns *)

Lemma unused_free i b : bufs s !! i = Some b → refcnt b = 0 → (holder b ≠ None → pins (key b) ≠ -1) → holder b = None.
Proof using Hc.
  intros Hi Hr Hp. destruct (holder b) as [p|] eqn:Hh; [|done]. specialize (Hp ltac:(done)). rewrite (ci_ref _ _ _ Hc i b Hi) in Hr. unfold held in Hr. rewrite Hh in Hr.
  pose proof (ci_pins _ _ _ Hc (key b)). unfold u32 in Hr. rewrite Z.mod_small in Hr; lia.
Qed.

Lemma bread_total me k : k.1 ≠ 0 → (∀ i b, bufs s !! i = Some b → key b = k → holder b = None) → (∀ i b, bufs s !! i = Some b → holder b ≠ None → pins (key b) ≠ -1) →
  cached s k.1 k.2 ∨ (∃ i b, bufs s !! i = Some b ∧ refcnt b = 0) → ∃ i s', bread me k.1 k.2 s = Done (i, s').
Proof using Hc.
  intros Hd Hfree Hnn Hex. destruct (ci_ok _ _ _ Hc) as [order Hok]. destruct (cached_dec s k.1 k.2) as [(i & b & Hi & E1 & E2)|Hn].
  - eexists _, _. apply (bread_hit s order me k.1 k.2 i b Hok Hd Hi E1 E2). apply (Hfree i b Hi). rewrite (key_eq b _ _ E1 E2). by destruct k.
  - destruct Hex as [?|(i & b & Hi & Hr)]; [done|]. destruct (search is_unused (rev order) (bufs s)) as [j|] eqn:Hs.
    + destruct (search_Some _ _ _ _ Hs) as (c & Hj & Hu%Z.eqb_eq & _). eexists _, _. apply (bread_miss s order me k.1 k.2 j c Hok Hn Hs Hj). apply (unused_free j c Hj Hu). by apply (Hnn j).
    + exfalso. pose proof (search_None _ _ _ i b Hs) as Hb.
      assert (is_unused b = false) as Hx by (apply Hb; [apply list_elem_of_In; rewrite <- in_rev; apply list_elem_of_In; by eapply buf_order|done]). unfold is_unused in Hx. by rewrite Hr in Hx.
Qed.

(** Fewer blocks in use than buffers. *)
Lemma free_buf (K : list bkey) : (length K < NBUF)%nat → (∀ i b, bufs s !! i = Some b → refcnt b ≠ 0 → key b ∈ K) → ∃ i b, bufs s !! i = Some b ∧ refcnt b = 0.
Proof using Hc.
  intros HK Hin. destruct (decide (Exists (λ b, refcnt b = 0) (bufs s))) as [He|He].
  - apply Exists_exists in He as (b & [i Hi]%list_elem_of_lookup & Hr). by exists i, b.
  - exfalso. assert (∀ i b, bufs s !! i = Some b → refcnt b ≠ 0) as Hnz. { intros i b Hi Hr. apply He, Exists_exists. exists b. split; [by eapply list_elem_of_lookup_2|done]. }
    destruct (ci_ok _ _ _ Hc) as [order Hok]. assert (∀ i b, bufs s !! i = Some b → dev b ≠ 0) as Hdv.
    { intros i b Hi Hz. apply (Hnz i b Hi). rewrite (ci_ref _ _ _ Hc i b Hi). unfold held. rewrite (proj2 (ci_zero _ _ _ Hc i b Hi Hz)).
      destruct (decide (pins (key b) = 0)) as [->|Hp]; [done|]. by apply (ci_dev _ _ _ Hc) in Hp. }
    assert (NoDup (key <$> bufs s)) as Hnd.
    { apply NoDup_alt. intros i j k Hi Hj. rewrite list_lookup_fmap in Hi, Hj. apply fmap_Some in Hi as (b & Hi & ->), Hj as (c & Hj & E). exact (one_buf s pins cont i j b c Hc Hi Hj (Hdv i b Hi) E). }
    pose proof (submseteq_length _ _ (NoDup_submseteq (key <$> bufs s) K Hnd ltac:(intros k (b & -> & [i Hi]%list_elem_of_lookup)%list_elem_of_fmap; eauto))) as Hle.
    rewrite length_fmap, (co_len _ _ Hok) in Hle. lia.
Qed.
(** ** Changing a buffer that is held *)

(** Same block, other contents, references or lock. *)
Lemma cinv_change i b c pins' cont' : bufs s !! i = Some b → key c = key b → dev b ≠ 0 → (holder c ≠ None → valid c = true) →
  refcnt c = u32 (held c + pins' (key b)) → (valid c = true → data c = cont' (key b)) →
  (∀ k, k ≠ key b → pins' k = pins k ∧ cont' k = cont k) → length (cont' (key b)) = Z.to_nat BSIZE →
  (pins' (key b) ≠ 0 → valid c = true) → (pins' (key b) ≠ 1 → on_disk s (key b) = cont' (key b)) → -1 ≤ pins' (key b) ≤ 1 →
  cinv (set_buf i c s) pins' cont'.
Proof using Hc.
  intros Hi Ek Hd Hhv Hr Hv Hsame Hlen Hp Hcl Hrg. destruct (ci_ok _ _ _ Hc) as [order Hok]. assert (dev c = dev b ∧ blockno c = blockno b) as [E1 E2] by by injection Ek.
  apply (cinv_set s order pins cont pins' cont' i b c Hc); try done; try by rewrite Ek.
  - apply (set_buf_ok s order i b c Hok Hi). right. by left.
  - congruence.
  - intros k Hk. rewrite Ek. destruct (decide (k = key b)) as [|Hne]; [done|]. destruct (Hsame k Hne). by destruct Hk.
  - intros k. destruct (decide (k = key b)) as [->|Hne]; [done|]. rewrite (proj2 (Hsame k Hne)). apply Hc.
Qed.

Lemma brelse_cinv me i b : bufs s !! i = Some b → holder b = Some me → dev b ≠ 0 →
  ∃ s', brelse me i s = Done s' ∧ cinv s' pins cont ∧ disk s' = disk s ∧ bufs s' = <[i := released b]> (bufs s).
Proof using Hc.
  intros Hi Hh Hd. destruct (ci_ok _ _ _ Hc) as [order Hok]. destruct (brelse_spec s order me i b Hok Hi Hh) as (h & order' & E & Hok' & _).
  eexists. split; [exact E|]. split; [|done].
  assert (cinv (set_buf i (released b) s) pins cont) as Hi'.
  { apply (cinv_change i b (released b) pins cont Hi); try done; try apply Hc.
    - cbn. rewrite (ci_ref _ _ _ Hc i b Hi). unfold held. rewrite Hh. unfold u32. rewrite Zminus_mod_idemp_l. f_equal. cbn. lia.
    - cbn. by apply (ci_val _ _ _ Hc i b).
    - cbn. intros Hp. destruct (ci_pin _ _ _ Hc (key b) Hp) as (j & c & Hj & Ek & Hv). assert (j = i) as -> by (apply (one_buf s pins cont j i c b Hc Hj Hi); [|done]; injection Ek; congruence). congruence. }
  destruct Hi' as [_ I2 I3 I4 I5 I6 I7 I8 I9 I10]. split; [by exists order'|..]; done.
Qed.

Lemma put_write_cinv me i k l b : holds me i k s → bufs s !! i = Some b → k.1 ≠ 0 → length l = Z.to_nat BSIZE →
  bwrite me i (set_buf i (with_data l b) s) = Done (with_disk (<[k := l]> (disk s)) (set_buf i (with_data l b) s)) ∧
  cinv (with_disk (<[k := l]> (disk s)) (set_buf i (with_data l b) s)) pins (upd k l cont).
Proof using Hc.
  intros (b' & Hi' & Ek & Hh & Hv & Hdat) Hi Hd Hl. assert (b' = b) as -> by congruence. clear Hi'. pose proof (lookup_lt_Some _ _ _ Hi) as Hlt. split.
  - unfold bwrite, holdingsleep, virtio_disk_rw, get_buf. rewrite set_buf_at by done. cbn [deref]. run. cbn [with_data holder]. rewrite Hh, bool_decide_true by done. cbn [negb]. run.
    cbn. change (dev b, blockno b) with (key b). by rewrite Ek.
  - assert (∀ k', on_disk (with_disk (<[k := l]> (disk s)) s) k' = if decide (k' = k) then l else on_disk s k') as Hod.
    { intros k'. unfold on_disk, disk_block. cbn. rewrite <- surjective_pairing. case_decide as E; [subst; by rewrite lookup_insert_eq|by rewrite lookup_insert_ne by done]. }
    destruct Hc as [[order Hok] I2 I3 I4 I5 I6 I7 I8 I9 I10]. assert (cache_ok (set_buf i (with_data l b) s) order) as Hok' by (apply (set_buf_ok s order i b _ Hok Hi); right; by left).
    assert (∀ j d, bufs (set_buf i (with_data l b) s) !! j = Some d → j = i ∧ d = with_data l b ∨ j ≠ i ∧ bufs s !! j = Some d ∧ key d ≠ k) as Hat.
    { intros j d Hj. destruct (decide (j = i)) as [->|Hn]; [rewrite set_buf_at in Hj by done; injection Hj as <-; by left|rewrite set_buf_ne in Hj by done; right]. split; [done|]. split; [done|].
      intros E. apply Hn, (co_key _ _ Hok j i d b Hj Hi); rewrite <- Ek in E; injection E as E1 E2; [|done..]. rewrite E1. rewrite <- Ek in Hd. done. }
    split.
    + exists order. destruct Hok'. by split.
    + intros j d Hj. destruct (Hat j d Hj) as [[-> ->]|(_ & Hj' & _)]; [by apply (I2 i b)|by apply (I2 j)].
    + intros j d Hj Hvd. destruct (Hat j d Hj) as [[-> ->]|(_ & Hj' & Hne)]; [change (key (with_data l b)) with (key b); by rewrite Ek, put_eq|]. rewrite put_ne by done. by apply (I3 j).
    + intros j d Hj Hz. destruct (Hat j d Hj) as [[-> ->]|(_ & Hj' & _)]; [by apply (I4 i b)|by apply (I4 j)].
    + intros k'. unfold upd. case_decide; [done|apply I5].
    + intros k' Hp. destruct (I6 k' Hp) as (j & d & Hj & E & Hvd). destruct (decide (j = i)) as [->|Hn].
      * exists i, (with_data l b). assert (d = b) as -> by congruence. split; [by apply set_buf_at|done].
      * exists j, d. split; [by rewrite <- Hj; apply set_buf_ne|done].
    + intros k' Hp. change (on_disk (with_disk (<[k := l]> (disk s)) s) k' = upd k l cont k'). rewrite Hod. unfold upd. case_decide; [done|by apply I7].
    + done.
    + done.
    + intros j d Hj Hd'. destruct (Hat j d Hj) as [[-> ->]|(_ & Hj' & _)]; [done|by apply (I10 j)].
Qed.
Lemma bunpin_cinv i b : bufs s !! i = Some b → dev b ≠ 0 → valid b = true → 0 ≤ pins (key b) → on_disk s (key b) = cont (key b) →
  bunpin i s = Done (set_buf i (with_refcnt (u32 (refcnt b - 1)) b) s) ∧ cinv (set_buf i (with_refcnt (u32 (refcnt b - 1)) b) s) (upd (key b) (pins (key b) - 1) pins) cont.
Proof using Hc.
  intros Hi Hd Hv Hp Hod. split; [unfold bunpin, upd_buf, get_buf; by rewrite Hi|]. pose proof (ci_pins _ _ _ Hc (key b)).
  apply (cinv_change i b); try done; rewrite ?put_eq; try done; try apply Hc.
  - cbn. rewrite (ci_ref _ _ _ Hc i b Hi). unfold u32. rewrite Zminus_mod_idemp_l. f_equal. unfold held. cbn. lia.
  - intros _. by apply (ci_val _ _ _ Hc i b).
  - intros k Hne. by rewrite put_ne.
  - lia.
Qed.

(** A block that is changed in the cache, and pinned there. *)
Lemma dirty_cinv i b l : bufs s !! i = Some b → dev b ≠ 0 → valid b = true → pins (key b) = 0 → length l = Z.to_nat BSIZE →
  cinv (set_buf i (with_refcnt (u32 (refcnt b + 1)) (with_data l b)) s) (upd (key b) 1 pins) (upd (key b) l cont).
Proof using Hc.
  intros Hi Hd Hv Hp Hl. apply (cinv_change i b); try done; rewrite ?put_eq; try done.
  - cbn. rewrite (ci_ref _ _ _ Hc i b Hi). rewrite Hp. unfold u32. rewrite Zplus_mod_idemp_l. f_equal. unfold held. cbn. lia.
  - intros k Hne. by rewrite !put_ne.
Qed.

Lemma redirty_cinv i b l : bufs s !! i = Some b → dev b ≠ 0 → valid b = true → pins (key b) = 1 → length l = Z.to_nat BSIZE →
  cinv (set_buf i (with_data l b) s) pins (upd (key b) l cont).
Proof using Hc.
  intros Hi Hd Hv Hp Hl. apply (cinv_change i b); try done; rewrite ?put_eq; try done; try apply Hc.
  - by apply (ci_ref _ _ _ Hc i b).
  - intros k Hne. by rewrite !put_ne.
Qed.
End Ops.
