(* ===== verification/RLog.v ===== *)
(** [RLog]: the redo log of the RISC-V kernel (arch/riscv/kernel/log.c) over the
    buffer cache.

    Each function is the code's.  The body of a loop that writes the disk is a
    definition of its own, so that a crash can come between two rounds. *)
From Stdlib Require Import ZArith Lia.
From stdpp Require Import numbers strings gmap list.
From S2P Require Import Prelude ListHead RBio.
Open Scope Z_scope.

(** [struct log]; the block numbers of the header are kept as [uint]. *)
Record log := Log {
  start : Z;
  size : Z;
  outstanding : Z;
  committing : bool;
  ldev : Z;
  lh_n : Z;
  lh_block : list Z
}.

Record rsys := Rsys { bs : bsys; lg : log }.

Definition with_bs (b : bsys) (s : rsys) : rsys := Rsys b (lg s).
Definition with_lg (l : log) (s : rsys) : rsys := Rsys (bs s) l.
Definition with_n (n : Z) (l : log) : log := Log (start l) (size l) (outstanding l) (committing l) (ldev l) n (lh_block l).
Definition with_head (n : Z) (bl : list Z) (l : log) : log := Log (start l) (size l) (outstanding l) (committing l) (ldev l) n bl.
Definition with_outstanding (o : Z) (c : bool) (l : log) : log := Log (start l) (size l) o c (ldev l) (lh_n l) (lh_block l).

(** A function of the buffer cache. *)
Definition on_bs (f : bsys → outcome bsys) (s : rsys) : outcome rsys := b ← f (bs s); mret (with_bs b s).
Definition with_bread (me : nat) (dv n : Z) (s : rsys) : outcome (nat * rsys) := '(i, b) ← bread me dv n (bs s); mret (i, with_bs b s).
Definition buf_data (i : nat) (s : rsys) : outcome block := b ← get_buf i (bs s); mret (data b).
Definition put_data (i : nat) (l : block) (s : rsys) : outcome rsys := on_bs (upd_buf i (with_data l)) s.

Definition lh_at (s : rsys) (i : Z) : outcome Z := if (i <? 0) || (LOGSIZE <=? i) then Wild else deref (lh_block (lg s) !! Z.to_nat i).

(** ** The header block *)

(** [struct logheader] at the start of a block: [n] and [block[i]]. *)
Definition word_at (l : block) (i : Z) : Z := let w j := default 0 (l !! Z.to_nat (4 * i + j)) in w 0 + 2 ^ 8 * w 1 + 2 ^ 16 * w 2 + 2 ^ 24 * w 3.
Definition put_word (i v : Z) (l : block) : block := take (Z.to_nat (4 * i)) l ++ le32 v ++ drop (Z.to_nat (4 * i + 4)) l.

(** ** log.c *)

(** One round of the loop of [install_trans]. *)
Definition install_one (me : nat) (tail : Z) (s : rsys) : outcome rsys :=
  '(lbuf, s) ← with_bread me (ldev (lg s)) (u32 (start (lg s) + tail + 1)) s;
  n ← lh_at s tail;
  '(dbuf, s) ← with_bread me (ldev (lg s)) n s;
  l ← buf_data lbuf s;
  s ← put_data dbuf l s;
  s ← on_bs (bwrite me dbuf) s;
  s ← on_bs (bunpin dbuf) s;
  s ← on_bs (brelse me lbuf) s;
  on_bs (brelse me dbuf) s.

Definition upto (n : Z) : list nat := seq 0 (Z.to_nat n).

Definition install_trans (me : nat) (s : rsys) : outcome rsys :=
  each (upto (lh_n (lg s))) (λ tail, install_one me (Z.of_nat tail)) s.

Definition read_head (me : nat) (s : rsys) : outcome rsys :=
  '(i, s) ← with_bread me (ldev (lg s)) (u32 (start (lg s))) s;
  l ← buf_data i s;
  let n := s32 (word_at l 0) in
  if LOGSIZE <? n then Wild
  else
    let bl := map (λ t, word_at l (Z.of_nat t + 1)) (upto n) ++ drop (Z.to_nat n) (lh_block (lg s)) in
    on_bs (brelse me i) (with_lg (with_head n bl (lg s)) s).

Definition write_head (me : nat) (s : rsys) : outcome rsys :=
  '(i, s) ← with_bread me (ldev (lg s)) (u32 (start (lg s))) s;
  l ← buf_data i s;
  let n := lh_n (lg s) in
  if LOGSIZE <? n then Wild
  else
    let l := foldl (λ l t, put_word (Z.of_nat t + 1) (default 0 (lh_block (lg s) !! t)) l) (put_word 0 n l) (upto n) in
    s ← put_data i l s;
    s ← on_bs (bwrite me i) s;
    on_bs (brelse me i) s.

Definition recover_from_log (me : nat) (s : rsys) : outcome rsys :=
  s ← read_head me s;
  s ← install_trans me s;
  write_head me (with_lg (with_n 0 (lg s)) s).

Definition initlog (me : nat) (dv logstart nlog : Z) (s : rsys) : outcome rsys :=
  recover_from_log me (with_lg (Log logstart nlog (outstanding (lg s)) (committing (lg s)) dv (lh_n (lg s)) (lh_block (lg s))) s).

(** [begin_op] when it does not sleep; [None] when it does. *)
Definition begin_op (s : rsys) : option rsys :=
  let l := lg s in
  if committing l then None
  else if LOGSIZE <? lh_n l + (outstanding l + 1) * MAXOPBLOCKS then None
  else Some (with_lg (with_outstanding (outstanding l + 1) false l) s).

(** One round of the loop of [write_log]. *)
Definition log_one (me : nat) (tail : Z) (s : rsys) : outcome rsys :=
  '(to, s) ← with_bread me (ldev (lg s)) (u32 (start (lg s) + tail + 1)) s;
  n ← lh_at s tail;
  '(from, s) ← with_bread me (ldev (lg s)) n s;
  l ← buf_data from s;
  s ← put_data to l s;
  s ← on_bs (bwrite me to) s;
  s ← on_bs (brelse me from) s;
  on_bs (brelse me to) s.

Definition write_log (me : nat) (s : rsys) : outcome rsys :=
  each (upto (lh_n (lg s))) (λ tail, log_one me (Z.of_nat tail)) s.

Definition commit (me : nat) (s : rsys) : outcome rsys :=
  if 0 <? lh_n (lg s) then
    s ← write_log me s;
    s ← write_head me s;
    s ← install_trans me s;
    write_head me (with_lg (with_n 0 (lg s)) s)
  else mret s.

(** [end_op] up to the release of its lock, with [do_commit]. *)
Definition end_op_locked (s : rsys) : outcome (bool * rsys) :=
  let l := lg s in
  let o := outstanding l - 1 in
  if committing l then Panic "log.committing"
  else if o =? 0 then mret (true, with_lg (with_outstanding o true l) s)
  else mret (false, with_lg (with_outstanding o false l) s).

Definition end_op_done (s : rsys) : rsys := with_lg (with_outstanding (outstanding (lg s)) false (lg s)) s.

Definition end_op (me : nat) (s : rsys) : outcome rsys :=
  '(do_commit, s) ← end_op_locked s;
  if do_commit : bool then s ← commit me s; mret (end_op_done s) else mret s.

(** The first [i] with [block[i] = n], or [lh_n]. *)
Definition absorb (n : Z) (l : log) : nat :=
  let bl := take (Z.to_nat (lh_n l)) (lh_block l) in
  match list_find (n =.) bl with Some (i, _) => i | None => length bl end.

Definition log_write (i : nat) (s : rsys) : outcome rsys :=
  let l := lg s in
  if (LOGSIZE <=? lh_n l) || (size l - 1 <=? lh_n l) then Panic "too big a transaction"
  else if outstanding l <? 1 then Panic "log_write outside of trans"
  else
    b ← get_buf i (bs s);
    let j := absorb (blockno b) l in
    let bl := <[j := blockno b]> (lh_block l) in
    if Z.of_nat j =? lh_n l then
      s ← on_bs (bpin i) s;
      mret (with_lg (with_head (lh_n l + 1) bl l) s)
    else mret (with_lg (with_head (lh_n l) bl l) s).
