(* ===== verification/RLogSpec.v ===== *)
(** [RLogSpec]: what the functions of the RISC-V log do to the map of blocks that
    cache and disk hold, and that they return when nobody holds a buffer and
    fewer blocks are pinned than there are buffers. *)
From Stdlib Require Import ZArith Lia.
From stdpp Require Import numbers strings gmap list.
From S2P Require Import Prelude ListHead MemLayout RBio RBioSpec RLog.
Open Scope Z_scope.

Definition idle (s : bsys) : Prop := ∀ i b, bufs s !! i = Some b → holder b = None.


Lemma holder_ne (s : bsys) i j b c : bufs s !! i = Some b → bufs s !! j = Some c → holder b ≠ holder c → i ≠ j.
Proof. intros Hi Hj Hn ->. congruence. Qed.

Section Rounds.
Context (s : rsys) (pins : bkey → Z) (cont : bkey → block) (Hc : cinv (bs s) pins cont) (me : nat).
Notation dv := (ldev (lg s)).
Context (Hdv : dv ≠ 0).

(** Two different blocks, read one after the other. *)
Lemma two_breads ka kb i j b1 b2 : ka.1 ≠ 0 → kb.1 ≠ 0 → bread me ka.1 ka.2 (bs s) = Done (i, b1) → bread me kb.1 kb.2 b1 = Done (j, b2) →
  cinv b2 pins cont ∧ holds cont me i ka b2 ∧ holds cont me j kb b2 ∧ i ≠ j ∧ disk b2 = disk (bs s) ∧ ∀ x, x ≠ i → x ≠ j → bufs b2 !! x = bufs (bs s) !! x.
Proof using Hc.
  intros Ha Hb H1 H2. destruct (bread_cinv _ _ _ Hc me ka i b1 Ha H1) as (Hc1 & Hh1 & Hd1 & Ho1 & _).
  destruct (bread_cinv _ _ _ Hc1 me kb j b2 Hb H2) as (Hc2 & Hh2 & Hd2 & Ho2 & c & Hj & Hcn). pose proof Hh1 as (b & Hi & Ek & Hhb & Hv & Hdat).
  assert (i ≠ j) as Hne by (eapply holder_ne; [done..|]; congruence). split; [done|]. split; [exists b; by rewrite Ho2 by done|]. split; [done|]. split; [done|]. split; [congruence|].
  intros x Hxi Hxj. rewrite Ho2, Ho1 by done. done.
Qed.

Lemma log_one_run tail n i j b1 b2 : lh_block (lg s) !! Z.to_nat tail = Some n → 0 ≤ tail < LOGSIZE →
  let kt := (dv, u32 (start (lg s) + tail + 1)) in let kf := (dv, n) in
  bread me dv kt.2 (bs s) = Done (i, b1) → bread me dv kf.2 b1 = Done (j, b2) →
  ∃ b', log_one me tail s = Done (with_bs b' s) ∧ cinv b' pins (upd kt (cont kf) cont) ∧ disk b' = <[kt := cont kf]> (disk (bs s)) ∧ (idle (bs s) → idle b').
Proof using Hc Hdv.
  intros Hn Ht kt kf H1 H2. destruct (two_breads kt kf i j b1 b2 Hdv Hdv H1 H2) as (Hc2 & (b & Hi & Ki & Hhi & Hvi & Hdi) & (c & Hj & Kj & Hhj & Hvj & Hdj) & Hne & Hd2 & Ho).
  unfold log_one, with_bread. cbn in H1, H2. rewrite H1. run. unfold lh_at. cbn [lg with_bs]. rewrite (proj2 (Z.ltb_ge _ _)), (proj2 (Z.leb_gt _ _)) by lia. cbn [orb]. rewrite Hn. cbn [deref]. run.
  cbn [bs with_bs lg]. rewrite H2. run. unfold buf_data, put_data, on_bs, upd_buf, get_buf. cbn [bs with_bs]. rewrite Hj. cbn [deref]. run. rewrite Hi. cbn [deref]. run. cbn [bs with_bs]. rewrite Hdj.
  destruct (put_write_cinv b2 pins cont Hc2 me i kt (cont kf) b) as [E3 Hc3]; [by exists b|done|done|apply Hc|]. rewrite E3. run. set (b3 := with_disk _ _) in *. cbn [bs with_bs].
  assert (bufs b3 !! j = Some c) as Hj3 by (cbn; by rewrite list_lookup_insert_ne). assert (dev c ≠ 0) as Hdc by (injection Kj; congruence).
  destruct (brelse_cinv b3 pins _ Hc3 me j c Hj3 Hhj Hdc) as (b4 & E4 & Hc4 & Hd4 & Hb4). rewrite E4. run. cbn [bs with_bs].
  assert (bufs b4 !! i = Some (with_data (cont kf) b)) as Hi4. { rewrite Hb4, list_lookup_insert_ne by done. apply list_lookup_insert_eq. by eapply lookup_lt_Some. }
  destruct (brelse_cinv b4 pins _ Hc4 me i (with_data (cont kf) b) Hi4 Hhi) as (b5 & E5 & Hc5 & Hd5 & Hb5); [cbn; injection Ki; congruence|]. rewrite E5. run.
  exists b5. split; [done|]. split; [done|]. split; [rewrite Hd5, Hd4; cbn; by rewrite Hd2|]. intros Hidle x d Hx. rewrite Hb5 in Hx. destruct (decide (x = i)) as [->|Nxi].
  { rewrite list_lookup_insert_eq in Hx by (by eapply lookup_lt_Some). by injection Hx as <-. } rewrite list_lookup_insert_ne, Hb4 in Hx by done. destruct (decide (x = j)) as [->|Nxj].
  { rewrite list_lookup_insert_eq in Hx by (by eapply lookup_lt_Some). by injection Hx as <-. } rewrite list_lookup_insert_ne in Hx by done. cbn in Hx. rewrite list_lookup_insert_ne, Ho in Hx by done. by apply (Hidle x).
Qed.
Lemma install_one_run tail n i j b1 b2 : lh_block (lg s) !! Z.to_nat tail = Some n → 0 ≤ tail < LOGSIZE →
  let kl := (dv, u32 (start (lg s) + tail + 1)) in let kd := (dv, n) in 0 ≤ pins kd →
  bread me dv kl.2 (bs s) = Done (i, b1) → bread me dv kd.2 b1 = Done (j, b2) →
  ∃ b', install_one me tail s = Done (with_bs b' s) ∧ cinv b' (upd kd (pins kd - 1) pins) (upd kd (cont kl) cont) ∧ disk b' = <[kd := cont kl]> (disk (bs s)) ∧ (idle (bs s) → idle b').
Proof using Hc Hdv.
  intros Hn Ht kl kd Hp H1 H2. destruct (two_breads kl kd i j b1 b2 Hdv Hdv H1 H2) as (Hc2 & (b & Hi & Ki & Hhi & Hvi & Hdi) & (c & Hj & Kj & Hhj & Hvj & Hdj) & Hne & Hd2 & Ho).
  unfold install_one, with_bread. cbn in H1, H2. rewrite H1. run. unfold lh_at. cbn [lg with_bs]. rewrite (proj2 (Z.ltb_ge _ _)), (proj2 (Z.leb_gt _ _)) by lia. cbn [orb]. rewrite Hn. cbn [deref]. run.
  cbn [bs with_bs lg]. rewrite H2. run. unfold buf_data, put_data, on_bs, upd_buf, get_buf. cbn [bs with_bs]. rewrite Hi. cbn [deref]. run. rewrite Hj. cbn [deref]. run. cbn [bs with_bs]. rewrite Hdi.
  destruct (put_write_cinv b2 pins cont Hc2 me j kd (cont kl) c) as [E3 Hc3]; [by exists c|done|done|apply Hc|]. rewrite E3. run. set (b3 := with_disk _ _) in *. cbn [bs with_bs].
  set (c3 := with_data (cont kl) c) in *. assert (bufs b3 !! j = Some c3) as Hj3 by (apply list_lookup_insert_eq; by eapply lookup_lt_Some). assert (dev c3 ≠ 0) as Hdc by (cbn; injection Kj; congruence).
  assert (key c3 = kd) as K3 by done.
  destruct (bunpin_cinv b3 pins _ Hc3 j c3 Hj3 Hdc Hvj) as [E4 Hc4]; [by rewrite K3|rewrite K3, put_eq; unfold on_disk, disk_block; cbn; by rewrite lookup_insert_eq|]. rewrite E4. run. rewrite K3 in Hc4.
  set (c4 := with_refcnt _ c3) in *. set (b4 := set_buf j c4 b3) in *. cbn [bs with_bs].
  assert (bufs b4 !! i = Some b) as Hi4 by (cbn; rewrite !list_lookup_insert_ne by done; done). assert (dev b ≠ 0) as Hdb by (injection Ki; congruence).
  destruct (brelse_cinv b4 _ _ Hc4 me i b Hi4 Hhi Hdb) as (b5 & E5 & Hc5 & Hd5 & Hb5). rewrite E5. run. cbn [bs with_bs].
  assert (bufs b5 !! j = Some c4) as Hj5. { rewrite Hb5, list_lookup_insert_ne by done. apply list_lookup_insert_eq. by eapply lookup_lt_Some. }
  destruct (brelse_cinv b5 _ _ Hc5 me j c4 Hj5 Hhj Hdc) as (b6 & E6 & Hc6 & Hd6 & Hb6). rewrite E6. run.
  exists b6. split; [done|]. split; [done|]. split; [rewrite Hd6, Hd5; cbn; by rewrite Hd2|]. intros Hidle x d Hx. rewrite Hb6 in Hx. destruct (decide (x = j)) as [->|Nxj].
  { rewrite list_lookup_insert_eq in Hx by (by eapply lookup_lt_Some). by injection Hx as <-. } rewrite list_lookup_insert_ne, Hb5 in Hx by done. destruct (decide (x = i)) as [->|Nxi].
  { rewrite list_lookup_insert_eq in Hx by (by eapply lookup_lt_Some). by injection Hx as <-. } rewrite list_lookup_insert_ne in Hx by done. cbn in Hx. rewrite !list_lookup_insert_ne, Ho in Hx by done. by apply (Hidle x).
Qed.

(** A block that is read, changed, written and given back, as the header is. *)
Lemma header_run i b1 l' : let kh := (dv, u32 (start (lg s))) in length l' = Z.to_nat BSIZE → bread me dv kh.2 (bs s) = Done (i, b1) →
  holds cont me i kh b1 ∧
  ∃ b', (s ← put_data i l' (with_bs b1 s); s ← on_bs (bwrite me i) s; on_bs (brelse me i) s) = Done (with_bs b' s) ∧
    cinv b' pins (upd kh l' cont) ∧ disk b' = <[kh := l']> (disk (bs s)) ∧ (idle (bs s) → idle b').
Proof using Hc Hdv.
  intros kh Hl H1. destruct (bread_cinv _ _ _ Hc me kh i b1 Hdv H1) as (Hc1 & Hh & Hd1 & Ho & _). split; [done|]. destruct Hh as (b & Hi & Ki & Hhi & Hvi & Hdi).
  unfold put_data, on_bs, upd_buf, get_buf. cbn [bs with_bs]. rewrite Hi. cbn [deref]. run. cbn [bs with_bs].
  destruct (put_write_cinv b1 pins cont Hc1 me i kh l' b) as [E3 Hc3]; [by exists b|done|done|done|]. rewrite E3. run. set (b3 := with_disk _ _) in *. cbn [bs with_bs].
  assert (bufs b3 !! i = Some (with_data l' b)) as Hi3 by (apply list_lookup_insert_eq; by eapply lookup_lt_Some).
  destruct (brelse_cinv b3 pins _ Hc3 me i (with_data l' b) Hi3 Hhi) as (b4 & E4 & Hc4 & Hd4 & Hb4); [cbn; injection Ki; congruence|]. rewrite E4. run.
  exists b4. split; [done|]. split; [done|]. split; [rewrite Hd4; cbn; by rewrite Hd1|]. intros Hidle x d Hx. rewrite Hb4 in Hx. destruct (decide (x = i)) as [->|Nxi].
  { rewrite list_lookup_insert_eq in Hx by (by eapply lookup_lt_Some). by injection Hx as <-. } rewrite list_lookup_insert_ne in Hx by done. cbn in Hx. rewrite list_lookup_insert_ne, Ho in Hx by done. by apply (Hidle x).
Qed.
End Rounds.

(** ** The header on the disk *)

Definition is_word (v : Z) : Prop := 0 ≤ v < 2 ^ 32.

Lemma le32_value v : is_word v → let w j := default 0 (le32 v !! j) in w 0%nat + 2 ^ 8 * w 1%nat + 2 ^ 16 * w 2%nat + 2 ^ 24 * w 3%nat = v.
Proof.
  intros Hv. cbn. unfold is_word in Hv. pose proof (Z.div_mod v 256 ltac:(lia)). pose proof (Z.div_mod (v / 256) 256 ltac:(lia)). pose proof (Z.div_mod (v / 2 ^ 16) 256 ltac:(lia)).
  assert (v / 2 ^ 16 = v / 256 / 256) as E1 by (by rewrite Z.div_div). assert (v / 2 ^ 24 = v / 2 ^ 16 / 256) as E2 by (by rewrite Z.div_div).
  change (2 ^ 8) with 256 in *. rewrite (Z.mod_small (v / 2 ^ 24) 256); [lia|]. split; [apply Z.div_pos; lia|]. apply Z.div_lt_upper_bound; lia.
Qed.

Section Words.
Context (l : block) (i : nat) (v : Z) (Hi : (4 * i + 4 ≤ length l)%nat).

Lemma put_word_eq : put_word (Z.of_nat i) v l = take (4 * i) l ++ le32 v ++ drop (4 * i + 4) l.
Proof using Hi. unfold put_word. repeat f_equal; lia. Qed.

Lemma put_word_length : length (put_word (Z.of_nat i) v l) = length l.
Proof using Hi. rewrite put_word_eq, !length_app, length_take, length_drop. cbn. lia. Qed.

Lemma put_word_at p : put_word (Z.of_nat i) v l !! p = if decide (4 * i ≤ p < 4 * i + 4)%nat then le32 v !! (p - 4 * i)%nat else l !! p.
Proof using Hi.
  rewrite put_word_eq. destruct (decide (p < 4 * i)%nat).
  { rewrite lookup_app_l by (rewrite length_take; lia). rewrite decide_False by lia. by apply lookup_take_lt. }
  rewrite lookup_app_r by (rewrite length_take; lia). rewrite length_take, Nat.min_l by lia. case_decide as Hd.
  - apply lookup_app_l. cbn. lia.
  - rewrite lookup_app_r by (cbn; lia). rewrite lookup_drop. f_equal. cbn. lia.
Qed.

Lemma word_at_put j : is_word v → word_at (put_word (Z.of_nat i) v l) (Z.of_nat j) = if decide (i = j) then v else word_at l (Z.of_nat j).
Proof using Hi.
  intros Hv. unfold word_at. cbn zeta. rewrite !Z2Nat.inj_add, !Z2Nat.inj_mul, !Nat2Z.id by lia. change (Z.to_nat 4) with 4%nat. change (Z.to_nat 0) with 0%nat.
  change (Z.to_nat 1) with 1%nat. change (Z.to_nat 2) with 2%nat. change (Z.to_nat 3) with 3%nat. rewrite !put_word_at. destruct (decide (i = j)) as [->|Hn].
  - rewrite !decide_True by lia. replace (4 * j + 0 - 4 * j)%nat with 0%nat by lia. replace (4 * j + 1 - 4 * j)%nat with 1%nat by lia. replace (4 * j + 2 - 4 * j)%nat with 2%nat by lia. replace (4 * j + 3 - 4 * j)%nat with 3%nat by lia.
    by apply le32_value.
  - rewrite !decide_False by lia. done.
Qed.
End Words.

(** [hb->n = n] and [hb->block[i] = bl[i]] for [i < n] *)
Definition enc (n : Z) (bl : list Z) (l : block) : block :=
  foldl (λ l t, put_word (Z.of_nat t + 1) (default 0 (bl !! t)) l) (put_word 0 n l) (upto n).

Lemma enc_loop n (bl : list Z) l m : is_word n → (∀ t x, bl !! t = Some x → is_word x) → (4 * m + 4 ≤ length l)%nat →
  let l' := foldl (λ l t, put_word (Z.of_nat t + 1) (default 0 (bl !! t)) l) (put_word 0 n l) (seq 0 m) in
  length l' = length l ∧ word_at l' 0 = n ∧ ∀ t, (t < m)%nat → word_at l' (Z.of_nat t + 1) = default 0 (bl !! t).
Proof.
  intros Hn Hbl. induction m as [|m IH]; intros Hl; cbn zeta.
  - cbn [seq foldl]. split; [by apply (put_word_length l 0 n)|]. split; [|lia]. exact (word_at_put l 0 n Hl 0 Hn).
  - rewrite seq_S, foldl_app. cbn [foldl Nat.add]. destruct (IH ltac:(lia)) as (L & W0 & W). set (l1 := foldl _ _ _) in *.
    assert (is_word (default 0 (bl !! m))) as Hw by (destruct (bl !! m) eqn:E; [by eapply Hbl|done]). replace (Z.of_nat m + 1) with (Z.of_nat (S m)) by lia. rewrite <- L in Hl.
    split; [rewrite put_word_length by lia; done|]. split; [etransitivity; [exact (word_at_put l1 (S m) _ ltac:(lia) 0 Hw)|exact W0]|]. intros t Ht. replace (Z.of_nat t + 1) with (Z.of_nat (S t)) by lia.
    rewrite word_at_put by (done || lia). destruct (decide (S m = S t)) as [[= ->]|]; [done|]. rewrite <- W by lia. f_equal. lia.
Qed.

Lemma enc_spec n (bl : list Z) l : 0 ≤ n ≤ LOGSIZE → (∀ t x, bl !! t = Some x → is_word x) → length l = Z.to_nat BSIZE →
  length (enc n bl l) = Z.to_nat BSIZE ∧ word_at (enc n bl l) 0 = n ∧ ∀ t, (t < Z.to_nat n)%nat → word_at (enc n bl l) (Z.of_nat t + 1) = default 0 (bl !! t).
Proof.
  intros Hn Hbl Hl. destruct (enc_loop n bl l (Z.to_nat n)) as (L & W0 & W); [unfold is_word, LOGSIZE, MAXOPBLOCKS in *; lia|done|rewrite Hl; unfold BSIZE, LOGSIZE, MAXOPBLOCKS in *; lia|].
  rewrite Hl in L. done.
Qed.

Section Head.
Context (s : rsys) (pins : bkey → Z) (cont : bkey → block) (Hc : cinv (bs s) pins cont) (me : nat).
Notation dv := (ldev (lg s)).
Notation kh := (ldev (lg s), u32 (start (lg s))).
Context (Hdv : dv ≠ 0).

Lemma write_head_run i b1 : 0 ≤ lh_n (lg s) ≤ LOGSIZE → (∀ t x, lh_block (lg s) !! t = Some x → is_word x) → bread me dv kh.2 (bs s) = Done (i, b1) →
  let l' := enc (lh_n (lg s)) (lh_block (lg s)) (cont kh) in
  ∃ b', write_head me s = Done (with_bs b' s) ∧ cinv b' pins (upd kh l' cont) ∧ disk b' = <[kh := l']> (disk (bs s)) ∧ (idle (bs s) → idle b').
Proof using Hc Hdv.
  intros Hn Hbl H1 l'. destruct (enc_spec (lh_n (lg s)) (lh_block (lg s)) (cont kh) Hn Hbl (ci_len _ _ _ Hc kh)) as (Hl & _).
  destruct (header_run s pins cont Hc me Hdv i b1 l' Hl H1) as ((b & Hi & _ & _ & _ & Hd) & b' & Hrun & Hpost). exists b'. split; [|done].
  unfold write_head, with_bread. cbn in H1. rewrite H1. run. unfold buf_data, get_buf. cbn [bs with_bs lg]. rewrite Hi. cbn [deref]. run. rewrite Hd, (proj2 (Z.ltb_ge _ _)) by lia. exact Hrun.
Qed.

Lemma read_head_run i b1 n : s32 (word_at (cont kh) 0) = n → n ≤ LOGSIZE → bread me dv kh.2 (bs s) = Done (i, b1) →
  let bl := map (λ t, word_at (cont kh) (Z.of_nat t + 1)) (upto n) ++ drop (Z.to_nat n) (lh_block (lg s)) in
  ∃ b', read_head me s = Done (Rsys b' (with_head n bl (lg s))) ∧ cinv b' pins cont ∧ disk b' = disk (bs s) ∧ (idle (bs s) → idle b').
Proof using Hc Hdv.
  intros Hn Hle H1 bl. destruct (bread_cinv _ _ _ Hc me kh i b1 Hdv H1) as (Hc1 & (b & Hi & Ki & Hhi & Hvi & Hdi) & Hd1 & Ho & _).
  unfold read_head, with_bread. cbn in H1. rewrite H1. run. unfold buf_data, get_buf. cbn [bs with_bs lg]. rewrite Hi. cbn [deref]. run. rewrite Hdi, Hn, (proj2 (Z.ltb_ge _ _)) by lia.
  destruct (brelse_cinv b1 pins _ Hc1 me i b Hi Hhi) as (b4 & E4 & Hc4 & Hd4 & Hb4); [injection Ki; congruence|]. unfold on_bs. cbn [bs with_lg with_bs]. rewrite E4. run.
  exists b4. split; [done|]. split; [done|]. split; [congruence|]. intros Hidle x d Hx. rewrite Hb4 in Hx. destruct (decide (x = i)) as [->|Nxi].
  { rewrite list_lookup_insert_eq in Hx by (by eapply lookup_lt_Some). by injection Hx as <-. } rewrite list_lookup_insert_ne, Ho in Hx by done. by apply (Hidle x).
Qed.

(** ** Enough buffers *)

Lemma idle_bread k K : k.1 ≠ 0 → idle (bs s) → (length K < NBUF)%nat → (∀ k, pins k ≠ 0 → k ∈ K) → ∃ i b1, bread me k.1 k.2 (bs s) = Done (i, b1).
Proof using Hc.
  intros Hd Hidle HK Hp. apply (bread_total (bs s) pins cont Hc); [done|intros i b Hi _; by apply (Hidle i)|intros i b Hi Hh; by rewrite (Hidle i b Hi) in Hh|].
  right. apply (free_buf (bs s) pins cont Hc K HK). intros i b Hi Hr. apply Hp. intros Hz. apply Hr. rewrite (ci_ref _ _ _ Hc i b Hi), Hz. unfold held. by rewrite (Hidle i b Hi).
Qed.

(** A second block, while the first is held. *)
Lemma second_bread ka kb K i b1 : ka.1 ≠ 0 → kb.1 ≠ 0 → ka ≠ kb → idle (bs s) → (S (length K) < NBUF)%nat ∨ pins kb = 1 → (∀ k, pins k ≠ 0 → k ∈ K) → pins ka ≠ -1 →
  bread me ka.1 ka.2 (bs s) = Done (i, b1) → ∃ j b2, bread me kb.1 kb.2 b1 = Done (j, b2).
Proof using Hc.
  intros Ha Hb Hne Hidle HK Hp Hpa H1. destruct (bread_cinv _ _ _ Hc me ka i b1 Ha H1) as (Hc1 & (b & Hi & Ki & Hhi & _) & _ & Ho & _).
  assert (∀ j c, bufs b1 !! j = Some c → holder c ≠ None → j = i ∧ c = b) as Honly.
  { intros j c Hj Hh. destruct (decide (j = i)) as [->|Hn]; [split; [done|congruence]|]. rewrite Ho in Hj by done. by rewrite (Hidle j c Hj) in Hh. }
  apply (bread_total b1 pins cont Hc1); [done| | |].
  - intros j c Hj Ek. destruct (holder c) eqn:Hh; [|done]. destruct (Honly j c Hj) as [-> ->]; [congruence|]. congruence.
  - intros j c Hj Hh. destruct (Honly j c Hj Hh) as [-> ->]. congruence.
  - destruct HK as [HK|Hpb].
    + right. apply (free_buf b1 pins cont Hc1 (ka :: K)); [done|]. intros j c Hj Hr. destruct (holder c) eqn:Hh.
      * destruct (Honly j c Hj) as [-> ->]; [congruence|]. rewrite Ki. apply list_elem_of_here.
      * apply list_elem_of_further, Hp. intros Hz. apply Hr. rewrite (ci_ref _ _ _ Hc1 j c Hj), Hz. unfold held. by rewrite Hh.
    + left. destruct (ci_pin _ _ _ Hc1 kb ltac:(lia)) as (j & c & Hj & Ek & _). exists j, c. by rewrite <- Ek.
Qed.
End Head.

(** * The recovery of the RISC-V log.  From a disk on which a
    transaction is committed or none is ([recoverable]), start-up copies it to
    its place; cut short at any point, it leaves a disk from which it succeeds
    the next time. *)

(** Where the log is; [size <= LOGSIZE] is what mkfs makes. *)
Record layout := Layout { l_dev : Z; l_start : Z; l_size : Z }.
Record layout_ok (L : layout) : Prop := {
  lo_dev : l_dev L ≠ 0;
  lo_start : 0 ≤ l_start L;
  lo_size : 1 ≤ l_size L ≤ LOGSIZE;
  lo_end : l_start L + l_size L < 2 ^ 32
}.

(** A block that is not one of the log's. *)
Definition home (L : layout) (b : Z) : Prop := is_word b ∧ ¬ (l_start L ≤ b < l_start L + l_size L).

Definition header (L : layout) (d : gmap bkey block) : block := disk_block d (l_dev L) (l_start L).
Definition log_block (L : layout) (d : gmap bkey block) (i : nat) : block := disk_block d (l_dev L) (l_start L + Z.of_nat i + 1).

(** The log on disk [d] holds the blocks [B] of a committed transaction; with
    it the disk holds [S]. *)
Record logged (L : layout) (d : gmap bkey block) (S : Z → block) (B : list Z) : Prop := {
  lo_len k : length (disk_block d k.1 k.2) = Z.to_nat BSIZE;
  lo_n : word_at (header L d) 0 = Z.of_nat (length B);
  lo_fit : Z.of_nat (length B) ≤ l_size L - 1;
  lo_nodup : NoDup B;
  lo_block i b : B !! i = Some b → word_at (header L d) (Z.of_nat i + 1) = b ∧ home L b ∧ log_block L d i = S b;
  lo_rest b : home L b → b ∉ B → disk_block d (l_dev L) b = S b
}.
Definition recoverable (L : layout) (d : gmap bkey block) (S : Z → block) : Prop := ∃ B, logged L d S B.

(** What start-up runs: binit and, in the first process, initlog. *)
Definition log0 : log := Log 0 0 0 false 0 0 (repeat 0 (Z.to_nat LOGSIZE)).
Definition boot (me : nat) (L : layout) (d : gmap bkey block) : outcome rsys :=
  b ← binit (power_on d); initlog me (l_dev L) (l_start L) (l_size L) (Rsys b log0).

(** The recovery when only [t] blocks have been copied. *)
Definition boot_upto (me t : nat) (L : layout) (d : gmap bkey block) : outcome rsys :=
  b ← binit (power_on d);
  s ← read_head me (with_lg (Log (l_start L) (l_size L) 0 false (l_dev L) 0 (repeat 0 (Z.to_nat LOGSIZE))) (Rsys b log0));
  each (seq 0 t) (λ tail, install_one me (Z.of_nat tail)) s.

Lemma power_on_cinv d : (∀ k, length (disk_block d k.1 k.2) = Z.to_nat BSIZE) →
  ∃ b, binit (power_on d) = Done b ∧ cinv b (λ _, 0) (λ k, disk_block d k.1 k.2) ∧ disk b = d ∧ idle b.
Proof.
  intros Hlen. destruct (binit_ok d) as (h & E & Hok). set (b := with_lru h (power_on d)) in *. exists b. split; [done|].
  assert (∀ i c, bufs b !! i = Some c → c = zero_buf) as Hz.
  { intros i c Hi. change (repeat zero_buf NBUF !! i = Some c) in Hi. by apply list_elem_of_lookup_2, list_elem_of_In, repeat_spec in Hi. }
  assert (disk b = d) as Ed by done. clearbody b. split; [|split; [done|intros i c Hi; by rewrite (Hz i c Hi)]].
  split.
  - by eexists.
  - intros i c Hi. rewrite (Hz i c Hi). reflexivity.
  - intros i c Hi Hv. rewrite (Hz i c Hi) in Hv. discriminate Hv.
  - intros i c Hi _. rewrite (Hz i c Hi). by split.
  - exact Hlen.
  - intros k Hk. by destruct Hk.
  - intros k _. unfold on_disk. by rewrite Ed.
  - lia.
  - intros k Hk. by destruct Hk.
  - intros i c Hi Hh. rewrite (Hz i c Hi) in Hh. by destruct Hh.
Qed.

Section Recovery.
Context (me : nat) (L : layout) (HL : layout_ok L) (d : gmap bkey block) (S : Z → block) (B : list Z) (Hd : logged L d S B).
Notation dv := (l_dev L).

(** After [t] rounds: the first [t] blocks are in place, and their buffers have
    one reference too few. *)
Definition done_pins (t : nat) (k : bkey) : Z := if decide (k.1 = dv ∧ k.2 ∈ take t B) then -1 else 0.
Definition done_cont (t : nat) (k : bkey) : block := if decide (k.1 = dv ∧ k.2 ∈ take t B) then S k.2 else disk_block d k.1 k.2.

Lemma home_log b i : home L b → (i < length B)%nat → b ≠ l_start L + Z.of_nat i + 1 ∧ b ≠ l_start L.
Proof using HL Hd. intros [_ Hb] Hi. pose proof (lo_fit _ _ _ _ Hd). destruct HL. lia. Qed.

Lemma in_B b t : b ∈ take t B → home L b ∧ ∃ i, B !! i = Some b.
Proof using Hd.
  intros [i Hi]%list_elem_of_lookup. apply lookup_take_Some in Hi as [Hi _]. destruct (lo_block _ _ _ _ Hd i b Hi) as (_ & ? & _). eauto.
Qed.

Lemma done_next t b : B !! t = Some b → (∀ k, done_pins (Datatypes.S t) k = upd (dv, b) (done_pins t (dv, b) - 1) (done_pins t) k) ∧ done_pins t (dv, b) = 0 ∧
  (∀ k, done_cont (Datatypes.S t) k = upd (dv, b) (S b) (done_cont t) k).
Proof using Hd.
  intros Hb. assert (b ∉ take t B) as Hn.
  { intros [i Hi]%list_elem_of_lookup. apply lookup_take_Some in Hi as [Hi Hlt]. pose proof (proj1 (NoDup_alt B) (lo_nodup _ _ _ _ Hd) i t b Hi Hb). lia. }
  assert (∀ k : bkey, (k.1 = dv ∧ k.2 ∈ take (Datatypes.S t) B) ↔ k = (dv, b) ∨ (k.1 = dv ∧ k.2 ∈ take t B)) as Hiff.
  { intros [x y]. cbn. rewrite (take_S_r B t b Hb), elem_of_app, elem_of_cons, elem_of_nil. split; [intros [-> [|[->|[]]]]; auto|intros [[= -> ->]|[-> ?]]; auto]. }
  assert (done_pins t (dv, b) = 0) as H0 by (unfold done_pins; cbn; rewrite decide_False; [done|tauto]). split; [|split; [done|]].
  - intros k. rewrite H0. unfold upd. destruct (decide (k = (dv, b))) as [->|Hne]; unfold done_pins; [rewrite decide_True; [done|apply Hiff; by left]|].
    destruct (decide (k.1 = dv ∧ k.2 ∈ take t B)) as [Hi|Hi]; [rewrite decide_True; [done|apply Hiff; by right]|rewrite decide_False; [done|]]. rewrite Hiff. tauto.
  - intros k. unfold upd. destruct (decide (k = (dv, b))) as [->|Hne]; unfold done_cont; [rewrite decide_True; [done|apply Hiff; by left]|].
    destruct (decide (k.1 = dv ∧ k.2 ∈ take t B)) as [Hi|Hi]; [rewrite decide_True; [done|apply Hiff; by right]|rewrite decide_False; [done|]]. rewrite Hiff. tauto.
Qed.

Lemma done_other t k : (∀ b, k = (dv, b) → b ∉ take t B) → done_pins t k = 0 ∧ done_cont t k = disk_block d k.1 k.2.
Proof using.
  intros Hk. assert (¬ (k.1 = dv ∧ k.2 ∈ take t B)) as Hn by (intros [E Hi]; apply (Hk k.2); [destruct k; cbn in *; by subst|done]).
  unfold done_pins, done_cont. by rewrite !decide_False.
Qed.

Lemma done_log t i : (i < length B)%nat → done_pins t (dv, l_start L + Z.of_nat i + 1) = 0 ∧ done_cont t (dv, l_start L + Z.of_nat i + 1) = log_block L d i.
Proof using HL Hd. intros Hi. apply done_other. intros b [= <-] Hb. destruct (in_B _ _ Hb) as [Hh _]. by destruct (home_log _ i Hh Hi) as [? _]. Qed.

Lemma done_head t : done_pins t (dv, l_start L) = 0 ∧ done_cont t (dv, l_start L) = header L d.
Proof using HL Hd. apply done_other. intros b [= <-] Hb. destruct (in_B _ _ Hb) as [[_ Hh] _]. destruct HL. lia. Qed.

Lemma done_few t : (t ≤ length B)%nat → ∃ K : list bkey, length K = t ∧ ∀ k, done_pins t k ≠ 0 → k ∈ K.
Proof using.
  intros Ht. exists ((λ b, (dv, b)) <$> take t B). split; [rewrite length_fmap, length_take; lia|]. intros k. unfold done_pins. case_decide as Hk; [|done]. intros _.
  apply list_elem_of_fmap. exists k.2. split; [destruct Hk as [<- _]; by destruct k|apply Hk].
Qed.

Lemma B_short : (length B < NBUF)%nat.
Proof using HL Hd. pose proof (lo_fit _ _ _ _ Hd). destruct HL. unfold LOGSIZE, MAXOPBLOCKS, NBUF in *. lia. Qed.

(** The state after [t] rounds. *)
Record midway (t : nat) (s : rsys) : Prop := {
  mw_cinv : cinv (bs s) (done_pins t) (done_cont t);
  mw_idle : idle (bs s);
  mw_lg : ldev (lg s) = dv ∧ start (lg s) = l_start L ∧ size (lg s) = l_size L ∧ lh_n (lg s) = Z.of_nat (length B) ∧ outstanding (lg s) = 0 ∧ committing (lg s) = false ∧
          length (lh_block (lg s)) = Z.to_nat LOGSIZE ∧ (∀ i x, lh_block (lg s) !! i = Some x → is_word x) ∧ ∀ i, (i < length B)%nat → lh_block (lg s) !! i = B !! i
}.

Lemma u32_log i : (i < length B)%nat → u32 (l_start L + Z.of_nat i + 1) = l_start L + Z.of_nat i + 1.
Proof using HL Hd. intros Hi. apply u32_small. pose proof (lo_fit _ _ _ _ Hd). destruct HL. lia. Qed.

Lemma u32_start : u32 (l_start L) = l_start L.
Proof using HL. apply u32_small. destruct HL. lia. Qed.

Lemma install_round t s : midway t s → (t < length B)%nat → ∃ s', install_one me (Z.of_nat t) s = Done s' ∧ midway (Datatypes.S t) s'.
Proof using HL Hd.
  intros [Hc Hidle (E1 & E2 & E3 & E4 & E5 & E6 & E7 & E8 & E9)] Ht. destruct (lookup_lt_is_Some_2 B t Ht) as [b Hb]. destruct (lo_block _ _ _ _ Hd t b Hb) as (_ & Hh & HS).
  destruct (done_log t t Ht) as [Lp Lc]. destruct (done_next t b Hb) as (Np & N0 & Nc). destruct (done_few t ltac:(lia)) as (K & HK & Hp). pose proof B_short as Hshort.
  assert (ldev (lg s) ≠ 0) as Hdv by (rewrite E1; apply HL).
  destruct (idle_bread s _ _ Hc me (dv, l_start L + Z.of_nat t + 1) K) as (i & b1 & H1); [apply HL|done|lia|done|].
  destruct (second_bread s _ _ Hc me (dv, l_start L + Z.of_nat t + 1) (dv, b) K i b1) as (j & b2 & H2); [apply HL|apply HL| |done|left; lia|done|lia|done|].
  { intros [= E]. by destruct (home_log b t Hh Ht) as [? _]. }
  destruct (install_one_run s _ _ Hc me Hdv (Z.of_nat t) b i j b1 b2) as (b' & Hrun & Hc' & _ & Hi').
  - rewrite Nat2Z.id, E9 by done. done.
  - pose proof (lo_fit _ _ _ _ Hd). destruct HL. lia.
  - rewrite E1. lia.
  - rewrite E1, E2, u32_log by done. exact H1.
  - rewrite E1. exact H2.
  - exists (with_bs b' s). split; [done|]. split; [|by apply Hi'|done]. rewrite E1, E2, u32_log in Hc' by done.
    eapply cinv_ext; [| |exact Hc']; [done|]. intros k. rewrite Nc. unfold upd. case_decide; [|done]. by rewrite Lc.
Qed.

Lemma install_rounds t : (t ≤ length B)%nat → ∀ s, midway 0 s → ∃ s', each (seq 0 t) (λ tail, install_one me (Z.of_nat tail)) s = Done s' ∧ midway t s'.
Proof using HL Hd.
  intros Ht s Hs. destruct (each_rule (λ tail, install_one me (Z.of_nat tail)) midway t 0 s Hs) as (s' & E & Hs'); [|by exists s'].
  intros k s1 Hk Hs1. apply (install_round k s1 Hs1). lia.
Qed.

Lemma read_round b : cinv b (λ _, 0) (λ k, disk_block d k.1 k.2) → idle b →
  ∃ s, read_head me (Rsys b (Log (l_start L) (l_size L) 0 false dv 0 (repeat 0 (Z.to_nat LOGSIZE)))) = Done s ∧ midway 0 s.
Proof using HL Hd.
  intros Hc Hidle. set (s0 := Rsys b _). assert (ldev (lg s0) ≠ 0) as Hdv by apply HL.
  destruct (idle_bread s0 _ _ Hc me (dv, l_start L) []) as (i & b1 & H1); [apply HL|done|by vm_compute; lia|done|].
  pose proof B_short as Hshort. pose proof (lo_fit _ _ _ _ Hd) as Hfit. assert (Z.of_nat (length B) ≤ LOGSIZE) as Hle by (destruct HL; lia).
  destruct (read_head_run s0 _ _ Hc me Hdv i b1 (Z.of_nat (length B))) as (b' & Hrun & Hc' & _ & Hi').
  - cbn [lg s0 ldev start]. rewrite u32_start. cbn [fst snd]. fold (header L d). rewrite (lo_n _ _ _ _ Hd). apply s32_small. unfold NBUF in Hshort. lia.
  - done.
  - cbn [lg s0 ldev start]. rewrite u32_start. exact H1.
  - eexists. split; [exact Hrun|]. cbn [lg s0 ldev start snd fst] in *. rewrite u32_start in *. fold (header L d). unfold upto. rewrite Nat2Z.id.
    assert (∀ i, (i < length B)%nat → (map (λ t, word_at (header L d) (Z.of_nat t + 1)) (seq 0 (length B)) ++ drop (length B) (repeat 0 (Z.to_nat LOGSIZE))) !! i = B !! i) as Hbl.
    { intros x Hx. rewrite lookup_app_l by (rewrite length_map, length_seq; lia). change (map (λ t, word_at (header L d) (Z.of_nat t + 1)) (seq 0 (length B))) with ((λ t, word_at (header L d) (Z.of_nat t + 1)) <$> seq 0 (length B)).
      rewrite list_lookup_fmap, lookup_seq_lt by lia. destruct (lookup_lt_is_Some_2 B x Hx) as [y Hy]. cbn. rewrite Hy. f_equal. by apply (lo_block _ _ _ _ Hd x y Hy). }
    split; [|by apply Hi'|].
    + eapply cinv_ext; [| |exact Hc']; intros k; [unfold done_pins|unfold done_cont]; rewrite decide_False; try done; cbn [take]; intros [_ []%not_elem_of_nil].
    + cbn. split_and!; try done.
      * rewrite length_app, length_map, length_seq, length_drop, repeat_length. lia.
      * intros x y Hxy. destruct (decide (x < length B)%nat) as [Hx|Hx]; [rewrite Hbl in Hxy by done; by apply (lo_block _ _ _ _ Hd x y Hxy)|].
        rewrite lookup_app_r in Hxy by (rewrite length_map, length_seq; lia). rewrite lookup_drop in Hxy. apply list_elem_of_lookup_2, list_elem_of_In, repeat_spec in Hxy. by subst.
Qed.

Lemma midway_logged t s : midway t s → logged L (disk (bs s)) S B.
Proof using HL Hd.
  intros [Hc _ _]. assert (∀ x y, disk_block (disk (bs s)) x y = done_cont t (x, y)) as Hdisk.
  { intros x y. apply (ci_clean _ _ _ Hc (x, y)). unfold done_pins. case_decide; lia. }
  split; try apply Hd.
  - intros k. rewrite Hdisk. apply Hc.
  - unfold header. rewrite (Hdisk dv (l_start L)), (proj2 (done_head t)). apply Hd.
  - intros i b Hi. destruct (lo_block _ _ _ _ Hd i b Hi) as (W & Hh & HS). unfold header, log_block.
    rewrite (Hdisk dv (l_start L)), (proj2 (done_head t)), (Hdisk dv (l_start L + Z.of_nat i + 1)), (proj2 (done_log t i (lookup_lt_Some _ _ _ Hi))). done.
  - intros b Hh Hb. rewrite (Hdisk dv b). rewrite (proj2 (done_other t (dv, b) ltac:(intros ? [= <-] Hin; apply Hb; eapply subseteq_take; exact Hin))). by apply (lo_rest _ _ _ _ Hd).
Qed.

Lemma boot_upto_ok t : (t ≤ length B)%nat → ∃ s, boot_upto me t L d = Done s ∧ logged L (disk (bs s)) S B.
Proof using HL Hd.
  intros Ht. destruct (power_on_cinv d (lo_len _ _ _ _ Hd)) as (b & E & Hc & _ & Hidle). unfold boot_upto. rewrite E. run.
  destruct (read_round b Hc Hidle) as (s1 & E1 & H1). unfold with_lg. cbn [bs]. rewrite E1. run. destruct (install_rounds t Ht s1 H1) as (s2 & E2 & H2). exists s2. split; [done|]. by apply (midway_logged t).
Qed.

(** The recovery as a whole, with what is left in memory. *)
Lemma recovered_ok : ∃ s cont, boot me L d = Done s ∧ cinv (bs s) (done_pins (length B)) cont ∧ idle (bs s) ∧ logged L (disk (bs s)) S [] ∧ (∀ b, home L b → disk_block (disk (bs s)) dv b = S b) ∧
  ldev (lg s) = dv ∧ start (lg s) = l_start L ∧ size (lg s) = l_size L ∧ lh_n (lg s) = 0 ∧ outstanding (lg s) = 0 ∧ committing (lg s) = false ∧
  length (lh_block (lg s)) = Z.to_nat LOGSIZE ∧ ∀ i x, lh_block (lg s) !! i = Some x → is_word x.
Proof using HL Hd.
  destruct (power_on_cinv d (lo_len _ _ _ _ Hd)) as (b & E & Hc & _ & Hidle). unfold boot. rewrite E. run. destruct (read_round b Hc Hidle) as (s1 & E1 & H1).
  unfold initlog, recover_from_log, with_lg. cbn [bs lg log0 outstanding committing lh_n lh_block]. rewrite E1. run. unfold install_trans, upto. pose proof (mw_lg _ _ H1) as (_ & _ & _ & En & _). rewrite En, Nat2Z.id.
  destruct (install_rounds (length B) ltac:(lia) s1 H1) as (s2 & E2 & [Hc2 Hid2 (E3 & E4 & E5 & E6 & E7 & E8 & E9 & E10 & E11)]). rewrite E2. run.
  set (s3 := Rsys (bs s2) (with_n 0 (lg s2))). destruct (done_few (length B) ltac:(lia)) as (K & HK & Hp). pose proof B_short as Hshort.
  destruct (idle_bread s3 _ _ Hc2 me (dv, l_start L) K) as (i & b1 & Hb1); [apply HL|done|lia|done|]. assert (ldev (lg s3) ≠ 0) as Hdv by (cbn; rewrite E3; apply HL).
  destruct (write_head_run s3 _ _ Hc2 me Hdv i b1) as (b' & Hrun & Hc3 & Hd3 & Hi3); [cbn [lg s3 lh_n with_n]; unfold LOGSIZE, MAXOPBLOCKS; lia|exact E10|cbn [lg s3 ldev start with_n snd]; rewrite E3, E4, u32_start; exact Hb1|].
  exists (with_bs b' s3), (upd (dv, l_start L) (enc 0 (lh_block (lg s2)) (header L d)) (done_cont (length B))). cbn [lg s3 ldev start lh_n lh_block with_n] in *. rewrite E3, E4, u32_start in *.
  rewrite (proj2 (done_head (length B))) in Hc3, Hd3. split; [exact Hrun|]. set (l0 := enc 0 _ _) in *. split; [done|]. split; [by apply Hi3|].
  assert (∀ x y, disk_block (disk b') x y = upd (dv, l_start L) l0 (done_cont (length B)) (x, y)) as Hdisk. { intros x y. apply (ci_clean _ _ _ Hc3 (x, y)). unfold done_pins. case_decide; lia. }
  assert (∀ x, home L x → disk_block (disk b') dv x = S x) as Hhome.
  { intros x Hx. rewrite (Hdisk dv x). rewrite put_ne by (intros [= ->]; destruct Hx as [_ Hx], HL; lia). unfold done_cont. cbn [fst snd]. rewrite take_ge by lia. case_decide as Hin; [done|].
    apply (lo_rest _ _ _ _ Hd x Hx). intros Hb. apply Hin. split; [reflexivity|exact Hb]. }
  split; [|exact (conj Hhome (conj E3 (conj E4 (conj E5 (conj eq_refl (conj E7 (conj E8 (conj E9 E10))))))))].
  split; [intros k; cbn [bs with_bs]; rewrite Hdisk; apply Hc3| |cbn; destruct HL; lia|apply NoDup_nil_2|intros i' x Hx; discriminate Hx|intros x Hx _; exact (Hhome x Hx)].
  unfold header. cbn [bs with_bs]. rewrite (Hdisk dv (l_start L)), put_eq. unfold l0.
  destruct (enc_spec 0 (lh_block (lg s2)) (header L d)) as (_ & -> & _); [unfold LOGSIZE, MAXOPBLOCKS; lia|exact E10|apply (lo_len _ _ _ _ Hd (dv, l_start L))|reflexivity].
Qed.
End Recovery.
