(* ===== verification/RLogSys.v ===== *)
(** [RLogSys]: any number of processes that use the RISC-V log, in any
    interleaving, and a crash at any point.

    A step is a call of a process, or one round of the commit that the last
    [end_op] runs; every step writes at most one block.  [snap] is the contents
    of the disk at the last commit, as cache and disk showed it at the moment
    the header was written. *)
From Stdlib Require Import ZArith Lia.
From stdpp Require Import numbers strings gmap list.
From S2P Require Import Prelude MemLayout ListHead RBio RBioSpec RLog RLogSpec.
Open Scope Z_scope.

(** Where the commit is. *)
Inductive cpc := Quiet | Logging (me t : nat) | Installing (me t : nat) | Finishing (me : nat).

Definition busy (c : cpc) : bool := match c with Quiet => false | _ => true end.

Record lst := Lst { sy : rsys; inop : list nat; pc : cpc; snap : Z → block }.

Definition head_now (s : rsys) (b : Z) : block := view (bs s) (ldev (lg s)) b.

Section Sys.
Context (L : layout) (HL : layout_ok L).
Notation dv := (l_dev L).

Inductive lstep : lst → lst → Prop :=
| S_begin p s s' ops c S : p ∉ ops → begin_op s = Some s' → lstep (Lst s ops c S) (Lst s' (p :: ops) c S)
| S_read p d n i s s' ops c S : d ≠ 0 → is_word n → with_bread p d n s = Done (i, s') → lstep (Lst s ops c S) (Lst s' ops c S)
| S_release p i s s' ops c S : on_bs (brelse p i) s = Done s' → lstep (Lst s ops c S) (Lst s' ops c S)
| S_update p i b l s s1 s2 ops c S :
    p ∈ ops → bufs (bs s) !! i = Some b → holder b = Some p → dev b = dv → home L (blockno b) → length l = Z.to_nat BSIZE →
    put_data i l s = Done s1 → log_write i s1 = Done s2 → lstep (Lst s ops c S) (Lst s2 ops c S)
| S_end p s s' ops1 ops2 commits c S :
    end_op_locked s = Done (commits, s') →
    lstep (Lst s (ops1 ++ p :: ops2) c S)
      (Lst s' (ops1 ++ ops2) (if commits : bool then if 0 <? lh_n (lg s') then Logging p 0 else Finishing p else c) S)
| S_log me t s s' ops S : Z.of_nat t < lh_n (lg s) → log_one me (Z.of_nat t) s = Done s' → lstep (Lst s ops (Logging me t) S) (Lst s' ops (Logging me (Datatypes.S t)) S)
| S_head me t s s' ops S : lh_n (lg s) ≤ Z.of_nat t → write_head me s = Done s' → lstep (Lst s ops (Logging me t) S) (Lst s' ops (Installing me 0) (head_now s))
| S_install me t s s' ops S : Z.of_nat t < lh_n (lg s) → install_one me (Z.of_nat t) s = Done s' → lstep (Lst s ops (Installing me t) S) (Lst s' ops (Installing me (Datatypes.S t)) S)
| S_clear me t s s' ops S : lh_n (lg s) ≤ Z.of_nat t → write_head me (with_lg (with_n 0 (lg s)) s) = Done s' → lstep (Lst s ops (Installing me t) S) (Lst s' ops (Finishing me) S)
| S_done me s ops S : lstep (Lst s ops (Finishing me) S) (Lst (end_op_done s) ops Quiet S).

(** ** The invariant *)

Definition blocks (s : rsys) : list Z := take (Z.to_nat (lh_n (lg s))) (lh_block (lg s)).
Definition pinned (σ : lst) : list Z := match pc σ with Installing _ t => drop t (blocks (sy σ)) | _ => blocks (sy σ) end.
Definition pins_of (P : list Z) (k : bkey) : Z := if decide (k.1 = dv ∧ k.2 ∈ P) then 1 else 0.

(** Nothing is committed on disk [d] that is not in place. *)
Definition settled (d : gmap bkey block) (cont : bkey → block) (S : Z → block) : Prop :=
  word_at (cont (dv, l_start L)) 0 = 0 ∧ ∀ b, home L b → disk_block d dv b = S b.

Definition phase (σ : lst) (cont : bkey → block) : Prop :=
  let s := sy σ in let S := snap σ in
  match pc σ with
  | Quiet => settled (disk (bs s)) cont S
  | Finishing _ => settled (disk (bs s)) cont S ∧ lh_n (lg s) = 0
  | Logging _ t =>
      settled (disk (bs s)) cont S ∧ (t ≤ length (blocks s))%nat ∧
      ∀ i b, (i < t)%nat → blocks s !! i = Some b → cont (dv, l_start L + Z.of_nat i + 1) = cont (dv, b)
  | Installing _ t =>
      (t ≤ length (blocks s))%nat ∧ word_at (cont (dv, l_start L)) 0 = lh_n (lg s) ∧
      (∀ i b, blocks s !! i = Some b → word_at (cont (dv, l_start L)) (Z.of_nat i + 1) = b ∧ cont (dv, l_start L + Z.of_nat i + 1) = S b) ∧
      ∀ b, home L b → cont (dv, b) = S b
  end.

(** The log in memory. *)
Record log_ok (s : rsys) : Prop := {
  lk_dev : ldev (lg s) = dv;
  lk_start : start (lg s) = l_start L;
  lk_size : size (lg s) = l_size L;
  lk_n : 0 ≤ lh_n (lg s) ≤ l_size L - 1;
  lk_len : length (lh_block (lg s)) = Z.to_nat LOGSIZE;
  lk_word i x : lh_block (lg s) !! i = Some x → is_word x;
  lk_nodup : NoDup (blocks s);
  lk_home b : b ∈ blocks s → home L b
}.

Record linv (σ : lst) : Prop := {
  li_log : log_ok (sy σ);
  li_out : outstanding (lg (sy σ)) = Z.of_nat (length (inop σ));
  li_busy : committing (lg (sy σ)) = busy (pc σ);
  li_none : busy (pc σ) = true → inop σ = [];
  li_rest : busy (pc σ) = false → inop σ = [] → lh_n (lg (sy σ)) = 0;
  li_dlen k : length (disk_block (disk (bs (sy σ))) k.1 k.2) = Z.to_nat BSIZE;
  li_cont : ∃ cont, cinv (bs (sy σ)) (pins_of (pinned σ)) cont ∧ phase σ cont
}.

(** ** Steps that do not touch the log *)

Lemma cache_step σ b' : linv σ → (∀ cont, cinv (bs (sy σ)) (pins_of (pinned σ)) cont → cinv b' (pins_of (pinned σ)) cont) → disk b' = disk (bs (sy σ)) →
  linv (Lst (with_bs b' (sy σ)) (inop σ) (pc σ) (snap σ)).
Proof using.
  intros [I1 I2 I3 I4 I5 I6 (cont & I7 & I8)] Hc Hd. split; try done.
  - by destruct I1; split.
  - intros k. cbn. rewrite Hd. apply I6.
  - exists cont. split; [by apply Hc|]. unfold phase in *. cbn. by rewrite Hd.
Qed.

Lemma read_step p d n i s s' ops c S : linv (Lst s ops c S) → d ≠ 0 → with_bread p d n s = Done (i, s') → linv (Lst s' ops c S).
Proof using.
  intros Hl Hd. unfold with_bread. destruct (bread p d n (bs s)) as [[j b]|?| |] eqn:E; [|done..]. run. intros [= <- <-]. destruct (li_cont _ Hl) as (c0 & Hc0 & _).
  apply (cache_step (Lst s ops c S)); [done|..].
  - intros cont Hc. by apply (bread_cinv _ _ _ Hc p (d, n) j b).
  - by apply (bread_cinv _ _ _ Hc0 p (d, n) j b).
Qed.

Lemma brelse_held b p i b' pins cont : cinv b pins cont → brelse p i b = Done b' → ∃ c, bufs b !! i = Some c ∧ holder c = Some p ∧ dev c ≠ 0.
Proof using.
  intros Hc. unfold brelse, holdingsleep, get_buf. destruct (bufs b !! i) as [c|] eqn:Hi; [|done]. cbn [deref]. run. case_bool_decide as Hh; [|done]. intros _. exists c. split; [done|]. split; [done|].
  intros Hz. by rewrite (proj2 (ci_zero _ _ _ Hc i c Hi Hz)) in Hh.
Qed.

Lemma release_step p i s s' ops c S : linv (Lst s ops c S) → on_bs (brelse p i) s = Done s' → linv (Lst s' ops c S).
Proof using.
  intros Hl. unfold on_bs. destruct (brelse p i (bs s)) as [b|?| |] eqn:E; [|done..]. run. intros [= <-]. apply (cache_step (Lst s ops c S)); [done|..].
  - intros cont Hc. destruct (brelse_held _ _ _ _ _ _ Hc E) as (x & Hi & Hh & Hx). destruct (brelse_cinv _ _ _ Hc p i x Hi Hh Hx) as (b2 & E2 & Hc2 & _). change (brelse p i (bs s) = Done b2) in E2. rewrite E in E2. by injection E2 as ->.
  - destruct (li_cont _ Hl) as (cont & Hc & _). destruct (brelse_held _ _ _ _ _ _ Hc E) as (x & Hi & Hh & Hx). destruct (brelse_cinv _ _ _ Hc p i x Hi Hh Hx) as (b2 & E2 & _ & Hd & _). change (brelse p i (bs s) = Done b2) in E2. rewrite E in E2. by injection E2 as ->.
Qed.

Lemma begin_step p s s' ops c S : linv (Lst s ops c S) → begin_op s = Some s' → linv (Lst s' (p :: ops) c S).
Proof using.
  intros [I1 I2 I3 I4 I5 I6 I7]. cbn in *. unfold begin_op. destruct (committing (lg s)) eqn:Hcm; [done|]. destruct (_ <? _); [done|]. intros [= <-]. split; cbn; try done.
  - by destruct I1; split.
  - rewrite I2. lia.
  - congruence.
Qed.

(** ** Updates *)

Lemma blocks_length s : log_ok s → length (blocks s) = Z.to_nat (lh_n (lg s)).
Proof using HL. intros Hk. unfold blocks. rewrite length_take, (lk_len _ Hk). pose proof (lk_n _ Hk). destruct HL. lia. Qed.

Lemma absorb_spec s n : log_ok s → (n ∈ blocks s ∧ ∃ j, absorb n (lg s) = j ∧ blocks s !! j = Some n) ∨ (n ∉ blocks s ∧ absorb n (lg s) = length (blocks s)).
Proof using.
  intros Hk. unfold absorb. fold (blocks s). destruct (list_find (n =.) (blocks s)) as [[j x]|] eqn:E.
  - left. apply list_find_Some in E as (Hj & <- & _). split; [by eapply list_elem_of_lookup_2|by exists j].
  - right. apply list_find_None in E. split; [|done]. intros Hin. rewrite Forall_forall in E. by apply (E n).
Qed.

Lemma pins_in P b : b ∈ P → pins_of P (dv, b) = 1.
Proof using. intros Hb. unfold pins_of. by rewrite decide_True. Qed.
Lemma pins_out P k : (∀ b, k = (dv, b) → b ∉ P) → pins_of P k = 0.
Proof using. intros Hk. unfold pins_of. rewrite decide_False; [done|]. intros [E Hi]. apply (Hk k.2); [|done]. destruct k; cbn in *; by subst. Qed.

Lemma pins_snoc P b k : pins_of (P ++ [b]) k = upd (dv, b) 1 (pins_of P) k.
Proof using.
  unfold upd. case_decide as E; [subst; apply pins_in, elem_of_app; right; by apply list_elem_of_singleton|]. unfold pins_of. destruct (decide (k.1 = dv ∧ k.2 ∈ P)) as [[E1 E2]|Hn].
  - rewrite decide_True; [done|]. split; [done|apply elem_of_app; by left].
  - rewrite decide_False; [done|]. rewrite elem_of_app, list_elem_of_singleton. intros [E1 [E2|E2]]; [by apply Hn|]. apply E. destruct k; cbn in *; by subst.
Qed.

Lemma home_start b : home L b → (dv, l_start L) ≠ (dv, b).
Proof using HL. intros [_ Hb] [= <-]. destruct HL. lia. Qed.

Lemma head_id l : with_head (lh_n l) (lh_block l) l = l.
Proof using. by destruct l. Qed.

Lemma log_grows s n x : log_ok s → n ∉ blocks s → home L n → lh_n (lg s) < l_size L - 1 →
  let s' := Rsys x (with_head (lh_n (lg s) + 1) (<[length (blocks s) := n]> (lh_block (lg s))) (lg s)) in log_ok s' ∧ blocks s' = blocks s ++ [n].
Proof using HL.
  intros Hk Hn Hh Hlt s'. pose proof (blocks_length s Hk) as Hbl. assert (blocks s' = blocks s ++ [n]) as Eb.
  { unfold s', blocks at 1. cbn [lg lh_n lh_block with_head]. replace (Z.to_nat (lh_n (lg s) + 1)) with (Datatypes.S (Z.to_nat (lh_n (lg s)))) by (pose proof (lk_n _ Hk); lia). rewrite Hbl.
    assert (Z.to_nat (lh_n (lg s)) < length (lh_block (lg s)))%nat as Hin by (rewrite (lk_len _ Hk); pose proof (lk_n _ Hk); destruct HL; lia).
    rewrite (take_S_r _ _ n) by (by apply list_lookup_insert_eq). rewrite take_insert_ge by lia. done. }
  split; [|done]. destruct Hk as [K1 K2 K3 K4 K5 K6 K7 K8]. split; [done..|cbn; lia|cbn; by rewrite length_insert| | |].
  - intros i y Hy. cbn [lg s' lh_block with_head] in Hy. destruct (decide (i = length (blocks s))) as [->|Hne]; [|rewrite list_lookup_insert_ne in Hy by done; by apply (K6 i)].
    pose proof (lookup_lt_Some _ _ _ Hy) as Hx. rewrite length_insert in Hx. rewrite list_lookup_insert_eq in Hy by done. injection Hy as <-. by destruct Hh.
  - rewrite Eb. apply NoDup_app. split; [done|]. split; [|apply NoDup_singleton]. intros y Hy ->%list_elem_of_singleton. done.
  - intros y. rewrite Eb, elem_of_app, list_elem_of_singleton. intros [Hy| ->]; [by apply K8|done].
Qed.

Lemma update_step p i b l s s1 s2 ops c S : linv (Lst s ops c S) → p ∈ ops → bufs (bs s) !! i = Some b → holder b = Some p → dev b = dv → home L (blockno b) → length l = Z.to_nat BSIZE →
  put_data i l s = Done s1 → log_write i s1 = Done s2 → linv (Lst s2 ops c S).
Proof using HL.
  intros [I1 I2 I3 I4 I5 I6 (cont & Hc & Hph)] Hp Hi Hh Hdb Hhome Hl. cbn in *. unfold put_data, on_bs, upd_buf, get_buf. rewrite Hi. cbn [deref]. run. intros [= <-].
  assert (c = Quiet) as -> by (destruct c; [done|exfalso; specialize (I4 eq_refl); subst ops; by apply not_elem_of_nil in Hp..]). change (pinned (Lst s ops Quiet S)) with (blocks s) in Hc.
  pose proof (lookup_lt_Some _ _ _ Hi) as Hlt. unfold log_write. cbn [lg with_bs bs]. destruct ((LOGSIZE <=? _) || (size (lg s) - 1 <=? _)) eqn:Efull; [done|].
  apply orb_false_iff in Efull as [Ef1%Z.leb_gt Ef2%Z.leb_gt]. destruct (_ <? 1); [done|]. unfold get_buf. cbn [bs with_bs]. rewrite set_buf_at by done. cbn [deref]. run. cbn [with_data blockno].
  assert (key b = (dv, blockno b)) as Kb by by apply key_eq. assert (valid b = true) as Hv by (apply (ci_held _ _ _ Hc i b Hi); congruence). assert (dev b ≠ 0) as Hd0 by (rewrite Hdb; apply HL).
  pose proof (home_start _ Hhome) as Hstart. pose proof (blocks_length s I1) as Hbl. pose proof (lk_n _ I1) as Hn0. destruct (absorb_spec s (blockno b) I1) as [[Hin (j & Ej & Hj)]|[Hnin Ej]]; rewrite Ej.
  - pose proof (lookup_lt_Some _ _ _ Hj) as Hjlt. rewrite (proj2 (Z.eqb_neq _ _)) by lia. intros [= <-].
    assert (lh_block (lg s) !! j = Some (blockno b)) as Hj' by (unfold blocks in Hj; by apply lookup_take_Some in Hj as [? _]). rewrite list_insert_id, head_id by done.
    split; try done; [by destruct I1; split|]. exists (upd (dv, blockno b) l cont). split.
    + rewrite <- Kb. apply (redirty_cinv _ _ _ Hc i b l Hi Hd0 Hv); [rewrite Kb; by apply pins_in|done].
    + destruct Hph as [Hw Hdk]. split; [rewrite put_ne by done; done|done].
  - rewrite (proj2 (Z.eqb_eq _ _)) by lia. unfold on_bs, bpin, upd_buf, get_buf. cbn [bs with_bs]. rewrite set_buf_at by done. cbn [deref]. run. rewrite set_buf_twice. intros [= <-].
    rewrite (lk_size _ I1) in Ef2. set (x := set_buf i _ (bs s)). destruct (log_grows s (blockno b) x I1 Hnin Hhome Ef2) as [Hk' Eb].
    split; [exact Hk'|done..| | |].
    + cbn. intros _ ->. by apply not_elem_of_nil in Hp.
    + done.
    + exists (upd (dv, blockno b) l cont). split.
      * change (cinv x (pins_of (blocks (Rsys x (with_head (lh_n (lg s) + 1) (<[length (blocks s) := blockno b]> (lh_block (lg s))) (lg s))))) (upd (dv, blockno b) l cont)). rewrite Eb. rewrite <- Kb.
        eapply cinv_ext; [| |apply (dirty_cinv _ _ _ Hc i b l Hi Hd0 Hv)]; [intros k; rewrite Kb; apply pins_snoc|done|rewrite Kb; apply pins_out; by intros y [= <-]|done].
      * destruct Hph as [Hw Hdk]. split; [rewrite put_ne by done; done|done].
Qed.

(** ** The end of an operation, and the commit *)

Lemma end_step p s s' ops1 ops2 commits c S : linv (Lst s (ops1 ++ p :: ops2) c S) → end_op_locked s = Done (commits, s') →
  linv (Lst s' (ops1 ++ ops2) (if commits : bool then if 0 <? lh_n (lg s') then Logging p 0 else Finishing p else c) S).
Proof using.
  intros [I1 I2 I3 I4 I5 I6 (cont & Hc & Hph)]. cbn in *. unfold end_op_locked. destruct (committing (lg s)) eqn:Hcm; [done|]. assert (c = Quiet) as -> by by destruct c.
  rewrite length_app in I2. cbn in I2. assert (∀ o x, log_ok (with_lg (with_outstanding o x (lg s)) s)) as Hk by (intros; by destruct I1; split).
  destruct (Z.eqb_spec (outstanding (lg s) - 1) 0) as [Ho|Ho]; intros [= <- <-]; cbn [lg with_lg with_outstanding lh_n].
  - assert (ops1 = [] ∧ ops2 = []) as [-> ->] by (destruct ops1, ops2; cbn in *; try lia; done). destruct (Z.ltb_spec 0 (lh_n (lg s))) as [Hn|Hn]; split; cbn; try done; try by apply Hk.
    + exists cont. split; [done|]. split; [done|]. split; [lia|]. intros i b Hi. lia.
    + exists cont. split; [done|]. split; [done|]. cbn. pose proof (lk_n _ I1). lia.
  - split; cbn; try done; try (by apply Hk); [rewrite length_app; lia| |by exists cont]. intros _ E. apply app_eq_nil in E as [-> ->]. cbn in *. lia.
Qed.

Lemma log_one_inv me tail s s' : log_one me tail s = Done s' → ∃ n i b1 j b2, lh_at s tail = Done n ∧
  bread me (ldev (lg s)) (u32 (start (lg s) + tail + 1)) (bs s) = Done (i, b1) ∧ bread me (ldev (lg s)) n b1 = Done (j, b2).
Proof using.
  unfold log_one, with_bread. destruct (bread me (ldev (lg s)) _ (bs s)) as [[i b1]|?| |] eqn:E1; [|done..]. run. cbn [bs with_bs lg].
  change (lh_at (with_bs b1 s) tail) with (lh_at s tail). destruct (lh_at s tail) as [n|?| |] eqn:E2; [|done..]. run.
  destruct (bread me (ldev (lg s)) n b1) as [[j b2]|?| |] eqn:E3; [|done..]. intros _. by exists n, i, b1, j, b2.
Qed.

Lemma install_one_inv me tail s s' : install_one me tail s = Done s' → ∃ n i b1 j b2, lh_at s tail = Done n ∧
  bread me (ldev (lg s)) (u32 (start (lg s) + tail + 1)) (bs s) = Done (i, b1) ∧ bread me (ldev (lg s)) n b1 = Done (j, b2).
Proof using.
  unfold install_one, with_bread. destruct (bread me (ldev (lg s)) _ (bs s)) as [[i b1]|?| |] eqn:E1; [|done..]. run. cbn [bs with_bs lg].
  change (lh_at (with_bs b1 s) tail) with (lh_at s tail). destruct (lh_at s tail) as [n|?| |] eqn:E2; [|done..]. run.
  destruct (bread me (ldev (lg s)) n b1) as [[j b2]|?| |] eqn:E3; [|done..]. intros _. by exists n, i, b1, j, b2.
Qed.

(** The block a round is about. *)
Lemma round_block s t n : log_ok s → Z.of_nat t < lh_n (lg s) → lh_at s (Z.of_nat t) = Done n →
  blocks s !! t = Some n ∧ lh_block (lg s) !! Z.to_nat (Z.of_nat t) = Some n ∧ 0 ≤ Z.of_nat t < LOGSIZE ∧ home L n ∧ u32 (start (lg s) + Z.of_nat t + 1) = l_start L + Z.of_nat t + 1 ∧
  (∀ b, home L b → (dv, b) ≠ (dv, l_start L + Z.of_nat t + 1)) ∧ (dv, l_start L) ≠ (dv, l_start L + Z.of_nat t + 1).
Proof using HL.
  intros Hk Ht. pose proof (lk_n _ Hk). assert (0 ≤ Z.of_nat t < LOGSIZE) as Hr by (destruct HL; lia). unfold lh_at. rewrite (proj2 (Z.ltb_ge _ _)), (proj2 (Z.leb_gt _ _)) by lia. cbn [orb].
  destruct (lh_block (lg s) !! Z.to_nat (Z.of_nat t)) as [x|] eqn:Hx; [|done]. intros [= ->]. assert (blocks s !! t = Some n) as Hb by (unfold blocks; rewrite lookup_take_lt by lia; by rewrite Nat2Z.id in Hx).
  split_and!; try done; [lia|lia|apply (lk_home _ Hk); by eapply list_elem_of_lookup_2|rewrite (lk_start _ Hk); apply u32_small; destruct HL; lia| |].
  - intros b [_ Hbb] [= ->]. destruct HL. lia.
  - intros [= E]. lia.
Qed.

Lemma dlen_insert d k l : (∀ k' : bkey, length (disk_block d k'.1 k'.2) = Z.to_nat BSIZE) → length l = Z.to_nat BSIZE → ∀ k' : bkey, length (disk_block (<[k := l]> d) k'.1 k'.2) = Z.to_nat BSIZE.
Proof using.
  intros Hd Hl k'. unfold disk_block. rewrite <- surjective_pairing. destruct (decide (k = k')) as [->|Hne]; [by rewrite lookup_insert_eq|]. rewrite lookup_insert_ne by done.
  specialize (Hd k'). unfold disk_block in Hd. by rewrite <- surjective_pairing in Hd.
Qed.

Lemma disk_insert_ne d k l x y : (x, y) ≠ k → disk_block (<[k := l]> d) x y = disk_block d x y.
Proof using. intros Hne. unfold disk_block. by rewrite lookup_insert_ne. Qed.

Lemma log_step me t s s' ops S : linv (Lst s ops (Logging me t) S) → Z.of_nat t < lh_n (lg s) → log_one me (Z.of_nat t) s = Done s' → linv (Lst s' ops (Logging me (Datatypes.S t)) S).
Proof using HL.
  intros [I1 I2 I3 I4 I5 I6 (cont & Hc & Hset & Ht & Hlog)] Hlt Hrun. cbn [sy inop pc snap] in *. destruct (log_one_inv _ _ _ _ Hrun) as (n & i & b1 & j & b2 & Hn & R1 & R2).
  destruct (round_block s t n I1 Hlt Hn) as (Hb & Hn' & Hr & Hh & Eu & Hne & Hns). pose proof (lk_dev _ I1) as Ed. assert (ldev (lg s) ≠ 0) as Hdv by (rewrite Ed; apply HL).
  destruct (log_one_run s _ _ Hc me Hdv (Z.of_nat t) n i j b1 b2 Hn' Hr R1 R2) as (b' & Hrun' & Hc' & Hd' & _). rewrite Hrun' in Hrun. injection Hrun as <-. rewrite Ed, Eu in Hc', Hd'.
  set (kt := (dv, l_start L + Z.of_nat t + 1)) in *. split; try done.
  - by destruct I1; split.
  - intros k. cbn. rewrite Hd'. apply dlen_insert; [done|apply Hc].
  - exists (upd kt (cont (dv, n)) cont). split; [done|]. unfold phase. cbn [sy pc snap bs with_bs]. destruct Hset as [Hw Hdk]. split; [split|split].
    + rewrite put_ne by done. done.
    + intros b Hbh. rewrite Hd', disk_insert_ne by (by apply Hne). by apply Hdk.
    + change (blocks (with_bs b' s)) with (blocks s). rewrite (blocks_length s I1). lia.
    + intros x b Hx Hxb. change (blocks (with_bs b' s)) with (blocks s) in Hxb. rewrite (put_ne kt (dv, b)) by (apply Hne, (lk_home _ I1); by eapply list_elem_of_lookup_2).
      destruct (decide (x = t)) as [->|Hxt]; [assert (b = n) as -> by congruence; by rewrite put_eq|]. rewrite put_ne by (intros [= E]; lia). apply Hlog; [lia|done].
Qed.

Lemma write_head_inv me s s' : write_head me s = Done s' → ∃ i b1, bread me (ldev (lg s)) (u32 (start (lg s))) (bs s) = Done (i, b1).
Proof using. unfold write_head, with_bread. destruct (bread me _ _ (bs s)) as [[i b1]|?| |] eqn:E; [|done..]. intros _. by exists i, b1. Qed.

Lemma start_word s : log_ok s → u32 (start (lg s)) = l_start L.
Proof using HL. intros Hk. rewrite (lk_start _ Hk). apply u32_small. destruct HL. lia. Qed.

Lemma log_start b : home L b → (dv, b) ≠ (dv, l_start L).
Proof using HL. intros Hh E. by apply (home_start b Hh). Qed.

Lemma head_step me t s s' ops S : linv (Lst s ops (Logging me t) S) → lh_n (lg s) ≤ Z.of_nat t → write_head me s = Done s' → linv (Lst s' ops (Installing me 0) (head_now s)).
Proof using HL.
  intros [I1 I2 I3 I4 I5 I6 (cont & Hc & Hset & Ht & Hlog)] Hge Hrun. cbn [sy inop pc snap] in *. destruct (write_head_inv _ _ _ Hrun) as (i & b1 & R1).
  pose proof (lk_dev _ I1) as Ed. assert (ldev (lg s) ≠ 0) as Hdv by (rewrite Ed; apply HL). pose proof (lk_n _ I1) as Hn. assert (0 ≤ lh_n (lg s) ≤ LOGSIZE) as Hn' by (destruct HL; lia).
  destruct (write_head_run s _ _ Hc me Hdv i b1 Hn' (lk_word _ I1) R1) as (b' & Hrun' & Hc' & Hd' & _). rewrite Hrun' in Hrun. injection Hrun as <-. rewrite (start_word s I1), Ed in Hc', Hd'.
  set (kh := (dv, l_start L)) in *. destruct (enc_spec _ _ _ Hn' (lk_word _ I1) (ci_len _ _ _ Hc kh)) as (El & E0 & Ei). set (l' := enc _ _ _) in *.
  assert (∀ b, head_now s b = cont (dv, b)) as Hnow. { intros b. unfold head_now. rewrite Ed. apply (view_cont _ _ _ Hc (dv, b)). apply HL. }
  pose proof (blocks_length s I1) as Hbl. assert (t = length (blocks s)) as Et by lia. split; try done.
  - by destruct I1; split.
  - intros k. cbn. rewrite Hd'. by apply dlen_insert.
  - exists (upd kh l' cont). split; [done|]. unfold phase. cbn [sy pc snap bs with_bs lg]. change (blocks (with_bs b' s)) with (blocks s). rewrite put_eq. split; [lia|]. split; [done|]. split.
    + intros x b Hx. pose proof (lookup_lt_Some _ _ _ Hx) as Hxl. assert (home L b) as Hh by (apply (lk_home _ I1); by eapply list_elem_of_lookup_2). split.
      * rewrite Ei by lia. unfold blocks in Hx. apply lookup_take_Some in Hx as [-> _]. done.
      * rewrite Hnow. rewrite put_ne by (intros [= E]; lia). apply Hlog; [lia|done].
    + intros b Hh. rewrite Hnow. by rewrite put_ne by (by apply log_start).
Qed.

Lemma drop_cons_nodup (l : list Z) t n : NoDup l → l !! t = Some n → drop t l = n :: drop (Datatypes.S t) l ∧ n ∉ drop (Datatypes.S t) l.
Proof using.
  intros Hnd Hn. pose proof (drop_S l n t Hn) as E. split; [done|]. rewrite <- (take_drop t l) in Hnd. apply NoDup_app in Hnd as (_ & _ & Hnd). rewrite E in Hnd. by apply NoDup_cons in Hnd as [? _].
Qed.

Lemma install_step me t s s' ops S : linv (Lst s ops (Installing me t) S) → Z.of_nat t < lh_n (lg s) → install_one me (Z.of_nat t) s = Done s' → linv (Lst s' ops (Installing me (Datatypes.S t)) S).
Proof using HL.
  intros [I1 I2 I3 I4 I5 I6 (cont & Hc & Ht & Hw & Hlog & Hhome)] Hlt Hrun. cbn [sy inop pc snap] in *. destruct (install_one_inv _ _ _ _ Hrun) as (n & i & b1 & j & b2 & Hn & R1 & R2).
  destruct (round_block s t n I1 Hlt Hn) as (Hb & Hn' & Hr & Hh & Eu & Hne & Hns). pose proof (lk_dev _ I1) as Ed. assert (ldev (lg s) ≠ 0) as Hdv by (rewrite Ed; apply HL).
  change (pinned (Lst s ops (Installing me t) S)) with (drop t (blocks s)) in Hc. destruct (drop_cons_nodup _ t n (lk_nodup _ I1) Hb) as [Edrop Hnin]. rewrite Edrop in Hc.
  assert (pins_of (n :: drop (Datatypes.S t) (blocks s)) (dv, n) = 1) as Hp1 by (apply pins_in, list_elem_of_here).
  destruct (install_one_run s _ _ Hc me Hdv (Z.of_nat t) n i j b1 b2 Hn' Hr) as (b' & Hrun' & Hc' & Hd' & _); [rewrite Ed; lia|done|done|]. rewrite Hrun' in Hrun. injection Hrun as <-.
  rewrite Ed, Eu, Hp1 in Hc'. rewrite Ed, Eu in Hd'. destruct (Hlog t n Hb) as [_ Hl]. rewrite Hl in Hc', Hd'. split; try done.
  - by destruct I1; split.
  - intros k. cbn. rewrite Hd'. apply dlen_insert; [done|]. rewrite <- Hl. apply Hc.
  - exists (upd (dv, n) (S n) cont). split.
    + eapply cinv_ext; [| |exact Hc']; [|done]. intros k. change (pinned _) with (drop (Datatypes.S t) (blocks s)). unfold upd. case_decide as E.
      * subst k. apply pins_out. by intros ? [= <-].
      * unfold pins_of. destruct (decide (k.1 = dv ∧ k.2 ∈ drop (Datatypes.S t) (blocks s))) as [[K1 K2]|K].
        -- rewrite decide_True; [done|]. split; [done|by apply list_elem_of_further].
        -- rewrite decide_False; [done|]. intros [K1 [K2|K2]%elem_of_cons]; [apply E; destruct k; cbn in *; by subst|by apply K].
    + unfold phase. cbn [sy pc snap bs with_bs lg]. change (blocks (with_bs b' s)) with (blocks s). pose proof (blocks_length s I1).
      rewrite (put_ne (dv, n) (dv, l_start L)) by (by apply home_start). split; [lia|]. split; [done|]. split.
      * intros x b Hx. rewrite put_ne; [by apply Hlog|]. pose proof (lookup_lt_Some _ _ _ Hx). pose proof (lk_n _ I1). destruct Hh as [_ Hh]. intros [= E]. destruct HL. lia.
      * intros b Hbh. unfold upd. case_decide as E; [by injection E as ->|by apply Hhome].
Qed.

Lemma clear_step me t s s' ops S : linv (Lst s ops (Installing me t) S) → lh_n (lg s) ≤ Z.of_nat t → write_head me (with_lg (with_n 0 (lg s)) s) = Done s' → linv (Lst s' ops (Finishing me) S).
Proof using HL.
  intros [I1 I2 I3 I4 I5 I6 (cont & Hc & Ht & Hw & Hlog & Hhome)] Hge Hrun. cbn [sy inop pc snap] in *. set (s0 := with_lg (with_n 0 (lg s)) s) in *.
  destruct (write_head_inv _ _ _ Hrun) as (i & b1 & R1). pose proof (lk_dev _ I1) as Ed. assert (ldev (lg s0) ≠ 0) as Hdv by (cbn; rewrite Ed; apply HL). pose proof (lk_n _ I1) as Hn.
  change (pinned (Lst s ops (Installing me t) S)) with (drop t (blocks s)) in Hc. pose proof (blocks_length s I1) as Hbl. rewrite drop_ge in Hc by lia.
  assert (0 ≤ lh_n (lg s0) ≤ LOGSIZE) as Hn' by (cbn [lg s0 with_lg lh_n with_n]; unfold LOGSIZE, MAXOPBLOCKS; lia).
  destruct (write_head_run s0 _ _ Hc me Hdv i b1 Hn' (lk_word _ I1) R1) as (b' & Hrun' & Hc' & Hd' & _). rewrite Hrun' in Hrun. injection Hrun as <-.
  cbn [lg s0 with_lg ldev start lh_n lh_block with_n] in Hc', Hd'. rewrite (start_word s I1), Ed in Hc', Hd'. set (kh := (dv, l_start L)) in *.
  destruct (enc_spec _ _ _ Hn' (lk_word _ I1) (ci_len _ _ _ Hc kh)) as (El & E0 & _). change (lh_n (lg s0)) with 0 in *. set (l' := enc 0 _ _) in *. split; try done.
  - destruct I1 as [K1 K2 K3 K4 K5 K6 K7 K8]. split; try done; [cbn; destruct HL; lia|apply NoDup_nil_2|intros b Hb; by apply not_elem_of_nil in Hb].
  - intros k. cbn [sy bs with_bs]. rewrite Hd'. by apply dlen_insert.
  - exists (upd kh l' cont). split; [done|]. unfold phase. cbn [sy pc snap bs with_bs lg]. split; [split|done].
    + by rewrite put_eq.
    + intros b Hh. rewrite Hd', disk_insert_ne by (by apply log_start). etransitivity; [apply (ci_clean _ _ _ Hc (dv, b)); rewrite pins_out; [lia|intros ? _; apply not_elem_of_nil]|by apply Hhome].
Qed.

Lemma done_step me s ops S : linv (Lst s ops (Finishing me) S) → linv (Lst (end_op_done s) ops Quiet S).
Proof using.
  intros [I1 I2 I3 I4 I5 I6 (cont & Hc & Hset & Hz)]. cbn [sy inop pc snap] in *. split; try done; [by destruct I1; split|]. exists cont. split; done.
Qed.

Lemma lstep_inv σ σ' : lstep σ σ' → linv σ → linv σ'.
Proof using HL.
  intros Hs Hl. destruct Hs; eauto using begin_step, read_step, release_step, update_step, end_step, log_step, head_step, install_step, clear_step, done_step.
Qed.
End Sys.
