(* ===== verification/RLogClaims.v ===== *)
(** [RLogClaims]: what the log of the RISC-V kernel promises: whatever processes
    do and whenever the machine stops, the next start finds the disk as it was
    at a moment when no operation was in progress; and an operation that has
    ended is on the disk. *)
From Stdlib Require Import ZArith Lia.
From stdpp Require Import numbers strings gmap list.
From S2P Require Import Prelude ListHead MemLayout RBio RBioSpec RLog RLogSpec RLogSys.
Open Scope Z_scope.

Section Claims.
Context (L : layout) (HL : layout_ok L).
Notation dv := (l_dev L).

Lemma boot_linv me d S s : logged L d S [] → boot me L d = Done s → linv L (Lst s [] Quiet S).
Proof using HL.
  intros Hd Hb. destruct (recovered_ok me L HL d S [] Hd) as (s' & cont & Hb' & Hc & _ & Hl & Hh & E1 & E2 & E3 & E4 & E5 & E6 & E7 & E8). rewrite Hb in Hb'. injection Hb' as <-. clear Hb.
  assert (blocks s = []) as Eb by (unfold blocks; by rewrite E4). split; cbn [sy inop pc snap].
  - split; [exact E1|exact E2|exact E3|rewrite E4; destruct HL; lia|exact E7|exact E8|rewrite Eb; apply NoDup_nil_2|rewrite Eb; intros b Hn; by apply not_elem_of_nil in Hn].
  - exact E5.
  - exact E6.
  - intros E; discriminate E.
  - intros _ _. exact E4.
  - apply Hl.
  - exists cont. unfold pinned. cbn [pc sy]. rewrite Eb. split; [|split; [|exact Hh]].
    + eapply cinv_ext; [| |exact Hc]; [|done]. intros k. unfold done_pins, pins_of. cbn [take]. by rewrite !decide_False by (intros [_ []%not_elem_of_nil]).
    + rewrite <- (ci_clean _ _ _ Hc (dv, l_start L)); [exact (lo_n _ _ _ _ Hl)|]. unfold done_pins. case_decide; lia.
Qed.

Lemma clean_start σ cont : linv L σ → cinv (bs (sy σ)) (pins_of L (pinned σ)) cont → header L (disk (bs (sy σ))) = cont (dv, l_start L) ∧
  ∀ i b, blocks (sy σ) !! i = Some b → log_block L (disk (bs (sy σ))) i = cont (dv, l_start L + Z.of_nat i + 1).
Proof using HL.
  intros Hl Hc. assert (∀ b, b ∈ pinned σ → home L b) as Hhome.
  { intros b Hb. apply (lk_home _ _ (li_log _ _ Hl)). unfold pinned in Hb. destruct (pc σ); try done. apply list_elem_of_lookup in Hb as [x Hx]. rewrite lookup_drop in Hx. by eapply list_elem_of_lookup_2. }
  split; [|intros i b Hi]; [apply (ci_clean _ _ _ Hc (dv, l_start L))|apply (ci_clean _ _ _ Hc (dv, l_start L + Z.of_nat i + 1))]; rewrite pins_out; try lia; intros x [= <-] Hx%Hhome; destruct Hx as [_ Hx].
  - destruct HL. lia.
  - pose proof (lookup_lt_Some _ _ _ Hi) as Hlt. rewrite (blocks_length L HL _ (li_log _ _ Hl)) in Hlt. pose proof (lk_n _ _ (li_log _ _ Hl)). lia.
Qed.

(** In every state the disk is recoverable, and holds the last commit. *)
Lemma linv_logged σ : linv L σ → ∃ B, logged L (disk (bs (sy σ))) (snap σ) B.
Proof using HL.
  intros Hl. destruct (li_cont _ _ Hl) as (cont & Hc & Hph). destruct (clean_start σ cont Hl Hc) as [Hh Hlb]. pose proof (li_log _ _ Hl) as Hk.
  assert (settled L (disk (bs (sy σ))) cont (snap σ) → ∃ B, logged L (disk (bs (sy σ))) (snap σ) B) as Hnone.
  { intros [Hw Hd]. exists []. split; [apply Hl|by rewrite Hh|cbn; destruct HL; lia|apply NoDup_nil_2|intros i b Hi; discriminate Hi|intros b Hb _; by apply Hd]. }
  destruct (pc σ) as [|me t|me t|me] eqn:Epc; unfold phase in Hph; rewrite Epc in Hph; [by apply Hnone|by apply Hnone, Hph| |by apply Hnone, Hph].
  destruct Hph as (Ht & Hw & Hlog & Hhome). exists (blocks (sy σ)). pose proof (blocks_length L HL _ Hk) as Hbl. pose proof (lk_n _ _ Hk) as Hn. split.
  - apply Hl.
  - rewrite Hh, Hw. lia.
  - lia.
  - apply Hk.
  - intros i b Hi. rewrite Hh, (Hlb i b Hi). destruct (Hlog i b Hi) as [W1 W2]. split; [done|]. split; [|done]. apply (lk_home _ _ Hk). by eapply list_elem_of_lookup_2.
  - intros b Hb Hnin. rewrite <- (Hhome b Hb). apply (ci_clean _ _ _ Hc (dv, b)). rewrite pins_out; [lia|]. intros x [= <-] Hx. apply Hnin. unfold pinned in Hx. rewrite Epc in Hx.
    apply list_elem_of_lookup in Hx as [y Hy]. rewrite lookup_drop in Hy. by eapply list_elem_of_lookup_2.
Qed.

(** The states of a run that starts from a disk with an empty log. *)
Definition log_run (σ : lst) : Prop := ∃ me d S s, logged L d S [] ∧ boot me L d = Done s ∧ rtc (lstep L) (Lst s [] Quiet S) σ.

Lemma log_run_inv σ : log_run σ → linv L σ.
Proof using HL.
  intros (me & d & S & s & Hd & Hb & Hr). pose proof (boot_linv me d S s Hd Hb) as Hl. revert Hl. induction Hr as [|σ1 σ2 σ3 Hs _ IH]; [done|]. intros Hl. by apply IH, (lstep_inv L HL σ1).
Qed.


(** C4: the contents of the last commit change only when no operation is in
    progress, and then to what all processes see at that moment: a commit holds
    whole operations only. *)
Theorem commit_atomic σ σ' : log_run σ → lstep L σ σ' → (∀ b, snap σ' b = snap σ b) ∨ inop σ = [] ∧ ∀ b, snap σ' b = view (bs (sy σ)) dv b.
Proof using HL.
  intros Hr Hs. pose proof (log_run_inv σ Hr) as Hl. destruct Hs; try (by left). right. split; [exact (li_none _ _ Hl eq_refl)|]. intros b. cbn. unfold head_now. pose proof (lk_dev _ _ (li_log _ _ Hl)) as Ed. cbn in Ed. by rewrite Ed.
Qed.

(** C26: a start that is cut short after any number of blocks leaves a disk from
    which the next start recovers the same contents. *)
Theorem recovery_restarts d S B me me' t : logged L d S B → (t ≤ length B)%nat →
  ∃ s1 s2, boot_upto me t L d = Done s1 ∧ boot me' L (disk (bs s1)) = Done s2 ∧ ∀ b, home L b → disk_block (disk (bs s2)) dv b = S b.
Proof using HL.
  intros Hd Ht. destruct (boot_upto_ok me L HL d S B Hd t Ht) as (s1 & E1 & H1). destruct (recovered_ok me' L HL _ _ B H1) as (s2 & cont & E2 & _ & _ & _ & Hh & _). exists s1, s2. split; [exact E1|]. split; [exact E2|exact Hh].
Qed.

(** ** The commit runs to its end *)

Lemma pinned_few σ : linv L σ → ∃ K : list bkey, (length K < NBUF)%nat ∧ ∀ k, pins_of L (pinned σ) k ≠ 0 → k ∈ K.
Proof using HL.
  intros Hl. exists ((λ b, (dv, b)) <$> pinned σ). pose proof (li_log _ _ Hl) as Hk. pose proof (blocks_length L HL _ Hk) as Hbl. pose proof (lk_n _ _ Hk) as Hn. split.
  - rewrite length_fmap. assert (length (pinned σ) ≤ length (blocks (sy σ)))%nat by (unfold pinned; destruct (pc σ); rewrite ?length_drop; lia).
    destruct HL. unfold NBUF, LOGSIZE, MAXOPBLOCKS in *. lia.
  - intros k. unfold pins_of. case_decide as Hd; [|done]. intros _. apply list_elem_of_fmap. exists k.2. split; [destruct Hd as [<- _]; by destruct k|apply Hd].
Qed.

Lemma log_dev s : log_ok L s → ldev (lg s) ≠ 0.
Proof using HL. intros Hk. rewrite (lk_dev _ _ Hk). apply HL. Qed.

Lemma lh_some s t : log_ok L s → Z.of_nat t < lh_n (lg s) → ∃ n, lh_at s (Z.of_nat t) = Done n.
Proof using HL.
  intros Hk Ht. pose proof (lk_n _ _ Hk). destruct (lookup_lt_is_Some_2 (lh_block (lg s)) (Z.to_nat (Z.of_nat t))) as [n Hn]; [rewrite (lk_len _ _ Hk); destruct HL; lia|].
  exists n. unfold lh_at. rewrite (proj2 (Z.ltb_ge _ _)), (proj2 (Z.leb_gt _ _)), Hn by (destruct HL; lia). done.
Qed.

Lemma log_round p t s ops S : linv L (Lst s ops (Logging p t) S) → idle (bs s) → Z.of_nat t < lh_n (lg s) →
  ∃ b', log_one p (Z.of_nat t) s = Done (with_bs b' s) ∧ idle b' ∧ ∀ b, home L b → view b' dv b = view (bs s) dv b.
Proof using HL.
  intros Hl Hidle Ht. pose proof (li_log _ _ Hl) as Hk. destruct (lh_some s t Hk Ht) as [n Hn]. destruct (round_block L HL s t n Hk Ht Hn) as (Hb & Hn' & Hr & Hh & Eu & Hne & _).
  destruct (li_cont _ _ Hl) as (cont & Hc & _). destruct (pinned_few _ Hl) as (K & HK & Hp). pose proof (lk_dev _ _ Hk) as Ed. cbn [sy] in *. pose proof (log_dev s Hk) as Hdv.
  assert (pins_of L (pinned (Lst s ops (Logging p t) S)) (dv, l_start L + Z.of_nat t + 1) = 0) as Hp0.
  { apply pins_out. intros x [= <-] Hx. apply (Hne (l_start L + Z.of_nat t + 1)); [|done]. apply (lk_home _ _ Hk). exact Hx. }
  destruct (idle_bread s _ _ Hc p (dv, l_start L + Z.of_nat t + 1) K) as (i & b1 & R1); [apply HL|done|done|done|].
  destruct (second_bread s _ _ Hc p (dv, l_start L + Z.of_nat t + 1) (dv, n) K i b1) as (j & b2 & R2); [apply HL|apply HL|intros E; by apply (Hne n)|done| |done|lia|done|].
  { right. apply pins_in. by eapply list_elem_of_lookup_2. }
  destruct (log_one_run s _ _ Hc p Hdv (Z.of_nat t) n i j b1 b2 Hn' Hr) as (b' & E & Hc' & _ & Hi); [rewrite Ed, Eu; exact R1|rewrite Ed; exact R2|].
  exists b'. split; [exact E|]. split; [by apply Hi|]. rewrite Ed, Eu in Hc'. intros b Hbh. assert (dv ≠ 0) as Hd0 by apply HL.
  pose proof (view_cont _ _ _ Hc' (dv, b) Hd0) as V1. pose proof (view_cont _ _ _ Hc (dv, b) Hd0) as V2. cbn [fst snd] in V1, V2. rewrite V1, V2. by rewrite put_ne by (by apply Hne).
Qed.

Lemma install_round' p t s ops S : linv L (Lst s ops (Installing p t) S) → idle (bs s) → Z.of_nat t < lh_n (lg s) → ∃ b', install_one p (Z.of_nat t) s = Done (with_bs b' s) ∧ idle b'.
Proof using HL.
  intros Hl Hidle Ht. pose proof (li_log _ _ Hl) as Hk. destruct (lh_some s t Hk Ht) as [n Hn]. destruct (round_block L HL s t n Hk Ht Hn) as (Hb & Hn' & Hr & Hh & Eu & Hne & _).
  destruct (li_cont _ _ Hl) as (cont & Hc & _). destruct (pinned_few _ Hl) as (K & HK & Hp). pose proof (lk_dev _ _ Hk) as Ed. cbn [sy] in *. pose proof (log_dev s Hk) as Hdv.
  change (pinned (Lst s ops (Installing p t) S)) with (drop t (blocks s)) in *. destruct (drop_cons_nodup _ t n (lk_nodup _ _ Hk) Hb) as [Edrop _].
  assert (pins_of L (drop t (blocks s)) (dv, n) = 1) as Hp1 by (apply pins_in; rewrite Edrop; apply list_elem_of_here).
  assert (pins_of L (drop t (blocks s)) (dv, l_start L + Z.of_nat t + 1) = 0) as Hp0.
  { apply pins_out. intros x [= <-] Hx. apply (Hne (l_start L + Z.of_nat t + 1)); [|done]. apply (lk_home _ _ Hk). apply list_elem_of_lookup in Hx as [y Hy]. rewrite lookup_drop in Hy. by eapply list_elem_of_lookup_2. }
  destruct (idle_bread s _ _ Hc p (dv, l_start L + Z.of_nat t + 1) K) as (i & b1 & R1); [apply HL|done|done|done|].
  destruct (second_bread s _ _ Hc p (dv, l_start L + Z.of_nat t + 1) (dv, n) K i b1) as (j & b2 & R2); [apply HL|apply HL|intros E; by apply (Hne n)|done|by right|done|lia|done|].
  destruct (install_one_run s _ _ Hc p Hdv (Z.of_nat t) n i j b1 b2 Hn' Hr) as (b' & E & _ & _ & Hi); [rewrite Ed; lia|rewrite Ed, Eu; exact R1|rewrite Ed; exact R2|].
  exists b'. split; [exact E|by apply Hi].
Qed.

Lemma head_round p s n ops c S : linv L (Lst s ops c S) → idle (bs s) → 0 ≤ n ≤ LOGSIZE → ∃ b', write_head p (with_lg (with_n n (lg s)) s) = Done (with_bs b' (with_lg (with_n n (lg s)) s)) ∧ idle b'.
Proof using HL.
  intros Hl Hidle Hn. pose proof (li_log _ _ Hl) as Hk. destruct (li_cont _ _ Hl) as (cont & Hc & _). destruct (pinned_few _ Hl) as (K & HK & Hp). cbn [sy] in *.
  set (s0 := with_lg (with_n n (lg s)) s). pose proof (log_dev s Hk) as Hdv. destruct (idle_bread s0 _ _ Hc p (dv, l_start L) K) as (i & b1 & R1); [apply HL|done|done|done|].
  destruct (write_head_run s0 _ _ Hc p Hdv i b1 Hn (lk_word _ _ Hk)) as (b' & E & _ & _ & Hi).
  - cbn [lg s0 with_lg ldev start with_n snd]. rewrite (lk_dev _ _ Hk), (start_word L HL s Hk). exact R1.
  - exists b'. split; [exact E|by apply Hi].
Qed.

Lemma with_n_id s : with_lg (with_n (lh_n (lg s)) (lg s)) s = s.
Proof using. destruct s as [b [? ? ? ? ? ? ?]]. done. Qed.

(** Its loops, as steps. *)
Lemma logs_loop p s S : linv L (Lst s [] (Logging p 0) S) → idle (bs s) →
  ∃ s', write_log p s = Done s' ∧ rtc (lstep L) (Lst s [] (Logging p 0) S) (Lst s' [] (Logging p (Z.to_nat (lh_n (lg s)))) S) ∧ idle (bs s') ∧ lg s' = lg s ∧
    ∀ b, home L b → view (bs s') dv b = view (bs s) dv b.
Proof using HL.
  intros Hl Hidle. unfold write_log, upto. set (n := Z.to_nat (lh_n (lg s))).
  destruct (each_rule (λ tail, log_one p (Z.of_nat tail)) (λ t s1, rtc (lstep L) (Lst s [] (Logging p 0) S) (Lst s1 [] (Logging p t) S) ∧ linv L (Lst s1 [] (Logging p t) S) ∧
      idle (bs s1) ∧ lg s1 = lg s ∧ ∀ b, home L b → view (bs s1) dv b = view (bs s) dv b) n 0 s) as (s' & E & Hr & _ & Hi & Eg & Hv).
  - split; [apply rtc_refl|]. done.
  - intros t s1 Ht (Hr & Hl1 & Hi1 & Eg & Hv). assert (Z.of_nat t < lh_n (lg s1)) as Hlt by (rewrite Eg; unfold n in Ht; lia).
    destruct (log_round p t s1 [] S Hl1 Hi1 Hlt) as (b' & E & Hi2 & Hv2). exists (with_bs b' s1). split; [exact E|].
    assert (lstep L (Lst s1 [] (Logging p t) S) (Lst (with_bs b' s1) [] (Logging p (Datatypes.S t)) S)) as Hstep by (by apply S_log).
    split; [by eapply rtc_r|]. split; [by apply (lstep_inv L HL _ _ Hstep)|]. split; [done|]. split; [done|]. intros b Hb. cbn [bs with_bs]. rewrite Hv2 by done. by apply Hv.
  - exists s'. split; [exact E|]. done.
Qed.

Lemma installs_loop p s S : linv L (Lst s [] (Installing p 0) S) → idle (bs s) →
  ∃ s', install_trans p s = Done s' ∧ rtc (lstep L) (Lst s [] (Installing p 0) S) (Lst s' [] (Installing p (Z.to_nat (lh_n (lg s)))) S) ∧ idle (bs s') ∧ lg s' = lg s.
Proof using HL.
  intros Hl Hidle. unfold install_trans, upto. set (n := Z.to_nat (lh_n (lg s))).
  destruct (each_rule (λ tail, install_one p (Z.of_nat tail)) (λ t s1, rtc (lstep L) (Lst s [] (Installing p 0) S) (Lst s1 [] (Installing p t) S) ∧ linv L (Lst s1 [] (Installing p t) S) ∧
      idle (bs s1) ∧ lg s1 = lg s) n 0 s) as (s' & E & Hr & _ & Hi & Eg).
  - split; [apply rtc_refl|]. done.
  - intros t s1 Ht (Hr & Hl1 & Hi1 & Eg). assert (Z.of_nat t < lh_n (lg s1)) as Hlt by (rewrite Eg; unfold n in Ht; lia).
    destruct (install_round' p t s1 [] S Hl1 Hi1 Hlt) as (b' & E & Hi2). exists (with_bs b' s1). split; [exact E|].
    assert (lstep L (Lst s1 [] (Installing p t) S) (Lst (with_bs b' s1) [] (Installing p (Datatypes.S t)) S)) as Hstep by (by apply S_install).
    split; [by eapply rtc_r|]. split; [by apply (lstep_inv L HL _ _ Hstep)|]. done.
  - exists s'. split; [exact E|]. done.
Qed.

Lemma rtc_linv σ σ' : rtc (lstep L) σ σ' → linv L σ → linv L σ'.
Proof using HL. induction 1 as [|σ1 σ2 σ3 Hs _ IH]; [done|]. intros Hl. by apply IH, (lstep_inv L HL σ1). Qed.

Lemma commit_run p s S : linv L (Lst s [] (Logging p 0) S) → idle (bs s) → 0 < lh_n (lg s) →
  ∃ s' S', commit p s = Done s' ∧ rtc (lstep L) (Lst s [] (Logging p 0) S) (Lst s' [] (Finishing p) S') ∧ ∀ b, home L b → S' b = view (bs s) dv b.
Proof using HL.
  intros Hl Hidle Hn. destruct (logs_loop p s S Hl Hidle) as (s1 & E1 & R1 & Hi1 & Eg1 & Hv1). pose proof (rtc_linv _ _ R1 Hl) as Hl1. pose proof (li_log _ _ Hl1) as Hk1. cbn [sy] in Hk1.
  assert (0 ≤ lh_n (lg s1) ≤ LOGSIZE) as Hn1 by (pose proof (lk_n _ _ Hk1); destruct HL; lia).
  destruct (head_round p s1 (lh_n (lg s1)) _ _ _ Hl1 Hi1 Hn1) as (b2 & E2 & Hi2). rewrite with_n_id in E2. set (s2 := with_bs b2 s1) in *.
  assert (lstep L (Lst s1 [] (Logging p (Z.to_nat (lh_n (lg s)))) S) (Lst s2 [] (Installing p 0) (head_now s1))) as R2 by (apply S_head; [rewrite Eg1; lia|exact E2]).
  pose proof (lstep_inv L HL _ _ R2 Hl1) as Hl2. destruct (installs_loop p s2 (head_now s1) Hl2 Hi2) as (s3 & E3 & R3 & Hi3 & Eg3). pose proof (rtc_linv _ _ R3 Hl2) as Hl3.
  destruct (head_round p s3 0 _ _ _ Hl3 Hi3) as (b4 & E4 & Hi4); [unfold LOGSIZE, MAXOPBLOCKS; lia|]. exists (with_bs b4 (with_lg (with_n 0 (lg s3)) s3)), (head_now s1).
  split; [|split].
  - unfold commit. rewrite (proj2 (Z.ltb_lt _ _)) by done. rewrite E1. run. rewrite E2. run. rewrite E3. run. exact E4.
  - etransitivity; [exact R1|]. eapply rtc_l; [exact R2|]. eapply rtc_r; [exact R3|]. apply S_clear; [rewrite Eg3; lia|exact E4].
  - intros b Hb. unfold head_now. rewrite (lk_dev _ _ Hk1). by apply Hv1.
Qed.

End Claims.

(** * A run of the RISC-V log on which the theorems are used, and what
    its recovery leaves behind. *)

(** The log that mkfs lays out: 30 blocks from block 2 on. *)
Definition disk1 : layout := Layout 1 2 30.
Lemma disk1_ok : layout_ok disk1.
Proof. by split. Qed.

Definition done_of {A} (a : A) (o : outcome A) : A := match o with Done a => a | _ => a end.
Definition is_done {A} (o : outcome A) : bool := match o with Done _ => true | _ => false end.
Lemma done_ok {A} (a : A) o : is_done o = true → o = Done (done_of a o).
Proof. by destruct o. Qed.

Definition is_some {A} (o : option A) : bool := match o with Some _ => true | None => false end.
Lemma some_ok {A} (a : A) o : is_some o = true → o = Some (default a o).
Proof. by destruct o. Qed.

Definition sevens : block := repeat 7 (Z.to_nat BSIZE).
Definition none : Z → block := λ _, zero_block.

(** One process changes block 100. *)
Definition r0 : rsys := done_of (Rsys (power_on ∅) log0) (boot 0 disk1 ∅).
Definition r1 : rsys := default r0 (begin_op r0).
Definition r2 : nat * rsys := done_of (0%nat, r1) (with_bread 0 1 100 r1).
Definition r3 : rsys := done_of r1 (put_data r2.1 sevens r2.2).
Definition r4 : rsys := done_of r1 (log_write r2.1 r3).
Definition r5 : rsys := done_of r1 (on_bs (brelse 0 r2.1) r4).
Definition r6 : bool * rsys := done_of (false, r1) (end_op_locked r5).
Definition r7 : rsys := done_of r1 (log_one 0 0 r6.2).
Definition r8 : rsys := done_of r1 (write_head 0 r7).
Definition b2 : buf := default zero_buf (bufs (bs r2.2) !! r2.1).

Lemma empty_logged : logged disk1 ∅ none [].
Proof.
  split; [intros k; apply repeat_length|by vm_compute|by vm_compute|apply NoDup_nil_2|intros i b Hi; discriminate Hi|].
  intros b _ _. unfold disk_block. by rewrite lookup_empty.
Qed.

Lemma boot0 : boot 0 disk1 ∅ = Done r0.
Proof. unfold r0. apply done_ok. vm_compute. reflexivity. Qed.
Lemma begin1 : begin_op r0 = Some r1.
Proof. unfold r1. apply some_ok. vm_compute. reflexivity. Qed.
Lemma read2 : with_bread 0 1 100 r1 = Done (r2.1, r2.2).
Proof. rewrite <- surjective_pairing. unfold r2. apply done_ok. vm_compute. reflexivity. Qed.
Lemma buf2 : bufs (bs r2.2) !! r2.1 = Some b2.
Proof. unfold b2. apply some_ok. vm_compute. reflexivity. Qed.
Lemma put3 : put_data r2.1 sevens r2.2 = Done r3.
Proof. unfold r3. apply done_ok. vm_compute. reflexivity. Qed.
Lemma write4 : log_write r2.1 r3 = Done r4.
Proof. unfold r4. apply done_ok. vm_compute. reflexivity. Qed.
Lemma release5 : on_bs (brelse 0 r2.1) r4 = Done r5.
Proof. unfold r5. apply done_ok. vm_compute. reflexivity. Qed.
Lemma end6 : end_op_locked r5 = Done (r6.1, r6.2).
Proof. rewrite <- surjective_pairing. unfold r6. apply done_ok. vm_compute. reflexivity. Qed.
Lemma log7 : log_one 0 0 r6.2 = Done r7.
Proof. unfold r7. apply done_ok. vm_compute. reflexivity. Qed.
Lemma head8 : write_head 0 r7 = Done r8.
Proof. unfold r8. apply done_ok. vm_compute. reflexivity. Qed.

Lemma run5 : rtc (lstep disk1) (Lst r0 [] Quiet none) (Lst r5 [0%nat] Quiet none).
Proof.
  assert (is_word 100) as Hw by by split. assert (holder b2 = Some 0%nat ∧ dev b2 = 1 ∧ blockno b2 = 100) as (H1 & H2 & H3) by by vm_compute.
  eapply rtc_l; [apply (S_begin disk1 0 r0 r1 [] Quiet none (not_elem_of_nil _) begin1)|].
  eapply rtc_l; [apply (S_read disk1 0 1 100 r2.1 r1 r2.2 [0%nat] Quiet none ltac:(done) Hw read2)|].
  eapply rtc_l; [|apply rtc_once, (S_release disk1 0 r2.1 r4 r5 [0%nat] Quiet none release5)].
  apply (S_update disk1 0 r2.1 b2 sevens r2.2 r3 r4 [0%nat] Quiet none (list_elem_of_here _ _) buf2 H1 H2); [|apply repeat_length|exact put3|exact write4].
  rewrite H3. split; [exact Hw|]. cbn. lia.
Qed.

Definition at_head : lst := Lst r7 [] (Logging 0 1) none.
Definition at_install : lst := Lst r8 [] (Installing 0 0) (head_now r7).

Lemma run7 : rtc (lstep disk1) (Lst r0 [] Quiet none) at_head.
Proof.
  etransitivity; [exact run5|]. assert (r6.1 = true ∧ lh_n (lg r6.2) = 1) as (H1 & H2) by by vm_compute. pose proof (S_end disk1 0 r5 r6.2 [] [] r6.1 Quiet none end6) as R6. rewrite H1, H2 in R6. cbn [app] in R6.
  eapply rtc_l; [exact R6|]. apply rtc_once, (S_log disk1 0 0 r6.2 r7 [] none); [rewrite H2; done|exact log7].
Qed.

Lemma step8 : lstep disk1 at_head at_install.
Proof. apply (S_head disk1 0 1 r7 r8 [] none); [by vm_compute|exact head8]. Qed.

Lemma log_run5 : log_run disk1 (Lst r5 [0%nat] Quiet none).
Proof. exists 0%nat, ∅, none, r0. split; [exact empty_logged|]. split; [exact boot0|exact run5]. Qed.
Lemma log_run7 : log_run disk1 at_head.
Proof. exists 0%nat, ∅, none, r0. split; [exact empty_logged|]. split; [exact boot0|exact run7]. Qed.
Lemma log_run8 : log_run disk1 at_install.
Proof. exists 0%nat, ∅, none, r0. split; [exact empty_logged|]. split; [exact boot0|]. eapply rtc_r; [exact run7|exact step8]. Qed.


Lemma commit_atomic_witness : (∀ b, snap at_install b = snap at_head b) ∨ inop at_head = [] ∧ ∀ b, snap at_install b = view (bs (sy at_head)) (l_dev disk1) b.
Proof. exact (commit_atomic disk1 disk1_ok at_head at_install log_run7 step8). Defined.

Lemma idle_check (s : bsys) : forallb (λ b, negb (is_some (holder b))) (bufs s) = true → idle s.
Proof.
  intros Hf i b Hi. rewrite forallb_forall in Hf. specialize (Hf b (proj1 (list_elem_of_In _ _) (list_elem_of_lookup_2 _ _ _ Hi))). by destruct (holder b).
Qed.


(** A disk with one committed block, 100, that is not in its place. *)
Definition logged_disk : gmap bkey block := {[ (1, 2) := enc 1 [100] zero_block; (1, 3) := sevens ]}.
Definition hundred (b : Z) : block := if b =? 100 then sevens else zero_block.

Lemma disk_logged : logged disk1 logged_disk hundred [100].
Proof.
  assert (∀ x y, disk_block logged_disk x y = if decide ((x, y) = (1, 2)) then enc 1 [100] zero_block else if decide ((x, y) = (1, 3)) then sevens else zero_block) as Hd.
  { intros x y. unfold disk_block, logged_disk. rewrite lookup_insert, lookup_singleton. repeat case_decide; try reflexivity; exfalso; congruence. }
  split.
  - intros k. rewrite Hd. repeat case_decide; [|apply repeat_length|apply repeat_length]. apply enc_spec; [by vm_compute|intros [|t] x Hx; [injection Hx as <-; by split|discriminate Hx]|apply repeat_length].
  - by vm_compute.
  - by vm_compute.
  - apply NoDup_singleton.
  - intros [|i] b Hi; [|discriminate Hi]. injection Hi as <-. split; [by vm_compute|]. split; [split; [by split|cbn; lia]|by vm_compute].
  - intros b [_ Hb] Hn. rewrite Hd. cbn in Hb. rewrite !decide_False by (intros [= ->]; lia). unfold hundred. rewrite (proj2 (Z.eqb_neq _ _)); [done|]. intros ->. apply Hn. apply list_elem_of_here.
Qed.

Lemma recovery_restarts_witness : ∃ s1 s2, boot_upto 0 1 disk1 logged_disk = Done s1 ∧ boot 0 disk1 (disk (bs s1)) = Done s2 ∧ ∀ b, home disk1 b → disk_block (disk (bs s2)) (l_dev disk1) b = hundred b.
Proof. apply (recovery_restarts disk1 disk1_ok logged_disk hundred [100] 0 0 1 disk_logged). cbn. lia. Defined.

(** ** What goes wrong *)

(** The recovery unpins buffers that nobody pinned.  The buffer of block 100 is
    left with 2^32 - 1 references; when a process reads the block again it has
    none, and the next process that needs a buffer takes it from under the
    first. *)
Definition r9 : rsys := done_of r0 (boot 0 disk1 logged_disk).
Definition r10 : nat * rsys := done_of (0%nat, r0) (with_bread 0 1 100 r9).
Definition oldest (s : bsys) : node := match lru s !! None with Some nd => prev nd | None => None end.

Lemma recovery_unpins : boot 0 disk1 logged_disk = Done r9 ∧ map refcnt (List.filter (is_block 1 100) (bufs (bs r9))) = [2 ^ 32 - 1].
Proof. split; [unfold r9; apply done_ok|]; vm_compute; reflexivity. Qed.

Lemma recovered_buffer_stolen : with_bread 0 1 100 r9 = Done (r10.1, r10.2) ∧ holder <$> bufs (bs r10.2) !! r10.1 = Some (Some 0%nat) ∧
  find_unused (S NBUF) (oldest (bs r10.2)) (bs r10.2) = Done (Some r10.1).
Proof. split; [rewrite <- surjective_pairing; unfold r10; apply done_ok|split]; vm_compute; reflexivity. Qed.

(** After the recovery of a full log one buffer is left. *)
Definition full_log : list Z := (λ i, 100 + Z.of_nat i) <$> seq 0 29.
Definition r11 : rsys := done_of r0 (boot 0 disk1 {[ (1, 2) := enc 29 full_log zero_block ]}).
Definition r12 : nat * rsys := done_of (0%nat, r0) (with_bread 0 1 200 r11).

Lemma recovery_uses_up_buffers : is_done (boot 0 disk1 {[ (1, 2) := enc 29 full_log zero_block ]}) = true ∧ is_done (with_bread 0 1 200 r11) = true ∧
  with_bread 0 1 201 r12.2 = Panic "bget: no buffers".
Proof. split; [|split]; vm_compute; reflexivity. Qed.
