(* ===== verification/Console.v ===== *)
(** [Console]: the console of kernel/console.c: the ring of input characters with
    its line editing, the sections of [console_intr] and [console_getc] between
    two uses of [cons_lock], the output to every registered back end, and the
    file operations of /dev/console.

    [console_intr] gives the lock up while it echoes, so it is cut into sections:
    [intr_section] runs one of them and says what comes next.  A character is
    the number 0 to 255 that [console_getc] makes of the [char] in the buffer. *)
From Stdlib Require Import ZArith Lia.
From stdpp Require Import numbers strings gmap list.
From S2P Require Import Prelude.
Open Scope Z_scope.

Definition CONS_BUF : Z := 256.
Definition ASCII_ETX : Z := 3.
Definition ASCII_EOT : Z := 4.
Definition ASCII_BS : Z := 8.
Definition ASCII_NAK : Z := 0x15.
Definition ASCII_DEL : Z := 0x7f.
Definition CR : Z := 13.
Definition NL : Z := 10.

Definition ISIG : Z := 0x1.
Definition ICANON : Z := 0x2.
Definition ECHO : Z := 0x8.
Definition TCGETS : Z := 1.
Definition TCSETS : Z := 2.

(** A registered back end and what it was given to show. *)
Record console := Con { con_name : string; shown : list Z }.

(** The static variables of console.c.  [signalled] are the processes that were
    sent [SIGINT], in order. *)
Record tty := Tty {
  consoles : list console;
  cons_buf : list Z;
  cons_r : Z;
  cons_w : Z;
  cons_e : Z;
  cons_fg_pid : Z;
  cons_lflag : Z;
  signalled : list Z
}.

Definition with_consoles (c : list console) (t : tty) : tty :=
  Tty c (cons_buf t) (cons_r t) (cons_w t) (cons_e t) (cons_fg_pid t) (cons_lflag t) (signalled t).
Definition with_input (b : list Z) (r w e : Z) (t : tty) : tty :=
  Tty (consoles t) b r w e (cons_fg_pid t) (cons_lflag t) (signalled t).
Definition with_lflag (f : Z) (t : tty) : tty :=
  Tty (consoles t) (cons_buf t) (cons_r t) (cons_w t) (cons_e t) (cons_fg_pid t) f (signalled t).
Definition with_fg (p : Z) (t : tty) : tty :=
  Tty (consoles t) (cons_buf t) (cons_r t) (cons_w t) (cons_e t) p (cons_lflag t) (signalled t).
Definition with_signalled (l : list Z) (t : tty) : tty :=
  Tty (consoles t) (cons_buf t) (cons_r t) (cons_w t) (cons_e t) (cons_fg_pid t) (cons_lflag t) l.

Definition flag (f bit : Z) : bool := negb (Z.land f bit =? 0).

(** ** Output *)

Definition register_console (c : console) (t : tty) : tty := with_consoles (c :: consoles t) t.

(** Every back end gets all the bytes. *)
Definition console_write (s : list Z) (t : tty) : tty :=
  with_consoles ((λ c, Con (con_name c) (shown c ++ s)) <$> consoles t) t.

Definition consputc (c : Z) (t : tty) : tty := console_write [c mod 256] t.

(** What [cons_echo_char] and [cons_echo_erase] write. *)
Definition echo_char (c : Z) : list Z := if (c =? NL) || ((0x20 <=? c) && (c <? 0x7f)) then [c] else [].
Definition echo_erase : list Z := [ASCII_BS; 0x20; ASCII_BS].
Definition echo_intr : list Z := [94; 67; NL].

(** ** The ring of input characters *)

Definition cons_empty (t : tty) : bool := cons_r t =? cons_w t.
Definition cons_input_full (t : tty) : bool := CONS_BUF <=? u32 (cons_e t - cons_r t).
Definition cons_flush_input (t : tty) : tty := with_input (cons_buf t) 0 0 0 t.

(** [cons_buf[cons_e % CONS_BUF] = c; cons_e++] *)
Definition put_char (c : Z) (t : tty) : tty :=
  with_input (<[Z.to_nat (cons_e t mod CONS_BUF) := c]> (cons_buf t)) (cons_r t) (cons_w t) (u32 (cons_e t + 1)) t.

(** [cons_e--] *)
Definition drop_char (t : tty) : tty := with_input (cons_buf t) (cons_r t) (cons_w t) (u32 (cons_e t - 1)) t.

(** [cons_w = cons_e] *)
Definition submit (t : tty) : tty := with_input (cons_buf t) (cons_r t) (cons_e t) (cons_e t) t.

Definition set_fg (pid : Z) (t : tty) : tty := with_fg pid t.

(** ** [console_intr]

    What is left to do of a call: it starts, writes to the back ends, goes round
    the loop of Ctrl+U, tests whether the line is complete, sends [SIGINT], or
    wakes the readers. *)
Inductive hpc :=
| HStart (c : Z)
| HEcho (s : list Z) (k : hpc)
| HKill (lflag : Z)
| HLine (c : Z)
| HSignal (fg : Z)
| HWake
| HEnd.

Definition echo (lflag : Z) (s : list Z) (k : hpc) : hpc := if flag lflag ECHO then HEcho s k else k.

(** The section that begins with the first [acquire]. *)
Definition intr_start (c : Z) (t : tty) : hpc * tty :=
  let c := Z.land c 0xff in
  let lflag := cons_lflag t in
  if flag lflag ISIG && (c =? ASCII_ETX) then
    (HEcho echo_intr (HSignal (cons_fg_pid t)), cons_flush_input t)
  else if flag lflag ICANON then
    if (c =? ASCII_BS) || (c =? ASCII_DEL) then
      if negb (cons_e t =? cons_w t) then (echo lflag echo_erase HEnd, drop_char t) else (HEnd, t)
    else if c =? ASCII_NAK then
      if negb (cons_e t =? cons_w t) then (echo lflag echo_erase (HKill lflag), drop_char t) else (HEnd, t)
    else if (c =? 0) || cons_input_full t then (HEnd, t)
    else
      let c := if c =? CR then NL else c in
      (echo lflag (echo_char c) (HLine c), put_char c t)
  else if (c =? 0) || cons_input_full t then (HEnd, t)
  else
    let c := if c =? CR then NL else c in
    (echo lflag (echo_char c) HWake, submit (put_char c t)).

(** The next section of a call, and what is left after it. *)
Definition intr_section (pc : hpc) (t : tty) : hpc * tty :=
  match pc with
  | HStart c => intr_start c t
  | HEcho s k => (k, console_write s t)
  | HKill lflag =>
      if negb (cons_e t =? cons_w t) then (echo lflag echo_erase (HKill lflag), drop_char t) else (HEnd, t)
  | HLine c =>
      if (c =? NL) || (c =? ASCII_EOT) || (u32 (cons_e t - cons_r t) =? CONS_BUF) then (HWake, submit t)
      else (HEnd, t)
  | HSignal fg => (HWake, if 0 <? fg then with_signalled (signalled t ++ [fg]) t else t)
  | HWake | HEnd => (HEnd, t)
  end.

(** A call from its start to its end, when nothing comes in between. *)
Fixpoint intr_run (fuel : nat) (pc : hpc) (t : tty) : outcome tty :=
  match fuel with
  | O => NoFuel
  | S fuel => match pc with HEnd => mret t | _ => let '(pc, t) := intr_section pc t in intr_run fuel pc t end
  end.

(** Ctrl+U takes two sections for each of at most [CONS_BUF] characters. *)
Definition console_intr (c : Z) (t : tty) : outcome tty := intr_run 520 (HStart c) t.

(** ** [console_getc] *)

Inductive got := Char (c : Z) | Eof | Interrupted | Sleep.

Definition take_char (t : tty) : Z * tty :=
  (Z.land (default 0 (cons_buf t !! Z.to_nat (cons_r t mod CONS_BUF))) 0xff,
   with_input (cons_buf t) (u32 (cons_r t + 1)) (cons_w t) (cons_e t) t).

(** From the head of the loop; [intr] is what [signal_can_interrupt] answers. *)
Definition getc_section (intr : bool) (t : tty) : got * tty :=
  if cons_empty t then (if intr then Interrupted else Sleep, t)
  else
    let '(c, t) := take_char t in
    if flag (cons_lflag t) ICANON && (c =? ASCII_EOT) then (Eof, t) else (Char c, t).

(** From the return of [sleep_chan]. *)
Definition getc_resume (intr intr' : bool) (t : tty) : got * tty :=
  if intr then (Interrupted, t) else getc_section intr' t.

(** The path without a process that could sleep, which polls. *)
Definition console_getc_poll (t : tty) : outcome (Z * tty) :=
  if cons_empty t then NoFuel else mret (take_char t).

Definition console_is_canon (t : tty) : bool := flag (cons_lflag t) ICANON.

(** ** The file operations of /dev/console *)

(** A call of [console_fop_read]: about to read its mode, about to get a
    character with [todo] to go, asleep, woken, or returned. *)
Inductive rpc :=
| RNew (n : Z)
| RGet (canon : bool) (todo : nat) (dst : list Z)
| RAsleep (canon : bool) (todo : nat) (dst : list Z)
| RWoken (canon : bool) (todo : nat) (dst : list Z)
| RRet (ret : Z) (dst : list Z).

Definition read_start (n : Z) (canon : bool) : rpc := if n <=? 0 then RRet n [] else RGet canon (Z.to_nat n) [].

(** One round of its loop, with what [console_getc] gave. *)
Definition read_char (g : got) (canon : bool) (todo : nat) (dst : list Z) : rpc :=
  match g with
  | Sleep => RAsleep canon todo dst
  | Eof => RRet (Z.of_nat (length dst)) dst
  | Interrupted => RRet (if bool_decide (dst = []) then -1 else Z.of_nat (length dst)) dst
  | Char c =>
      let dst := dst ++ [c] in
      if (canon && (c =? NL)) || (todo =? 1)%nat then RRet (Z.of_nat (length dst)) dst
      else RGet canon (todo - 1) dst
  end.

(** A call that is alone and not interrupted; [NoFuel] is a call that waits. *)
Fixpoint read_run (canon : bool) (todo : nat) (dst : list Z) (t : tty) : outcome (Z * list Z * tty) :=
  match todo with
  | O => mret (Z.of_nat (length dst), dst, t)
  | S n =>
      let '(g, t) := getc_section false t in
      match read_char g canon todo dst with
      | RRet r dst => mret (r, dst, t)
      | RGet canon _ dst => read_run canon n dst t
      | _ => NoFuel
      end
  end.

Definition console_fop_read (n : Z) (t : tty) : outcome (Z * list Z * tty) :=
  match read_start n (console_is_canon t) with
  | RGet canon todo dst => read_run canon todo dst t
  | _ => mret (n, [], t)
  end.

Definition console_fop_write (src : list Z) (t : tty) : Z * tty :=
  (Z.of_nat (length src), if (0 <? length src)%nat then console_write src t else t).

(** [TCSETS] with the value that [copyin] brought, up to its [wakeup]. *)
Definition tcsets (f : Z) (t : tty) : tty :=
  cons_flush_input (with_lflag (Z.land f (Z.lor (Z.lor ISIG ICANON) ECHO)) t).

(** [console_ioctl]: what it returns, the value it stores for the user, whether
    it wakes the readers.  [copyin] gives [uin], [copyout] succeeds if [out_ok]. *)
Definition console_ioctl (req : Z) (uin : option Z) (out_ok : bool) (t : tty) : Z * option Z * bool * tty :=
  if req =? TCGETS then
    if out_ok then (0, Some (cons_lflag t), false, t) else (-1, None, false, t)
  else if req =? TCSETS then
    match uin with
    | Some f => (0, None, true, tcsets f t)
    | None => (-1, None, false, t)
    end
  else (-1, None, false, t).

Definition console_init (t : tty) : tty :=
  let t := with_lflag (Z.lor (Z.lor ISIG ICANON) ECHO) (with_fg 0 (with_input (cons_buf t) 0 0 0 t)) in
  register_console (Con "tty0" []) (register_console (Con "ttyS0" []) t).

(** The static variables before [console_init]. *)
Definition tty0 : tty := Tty [] (repeat 0 (Z.to_nat CONS_BUF)) 0 0 0 0 0 [].

(** * The PS/2 keyboard driver of kernel/kbd.c: the translation of scan codes
    (set 1) into characters, and the interrupt that hands them to the console.

    The controller is the sequence of bytes it has ready: each round of the loop
    of [kbd_intr] takes one. *)

Definition MOD_SHIFT : Z := 1.
Definition MOD_CTRL : Z := 2.
Definition MOD_ALT : Z := 4.
Definition MOD_CAPS : Z := 8.

Record kbd := Kbd { kbd_mod : Z; kbd_e0 : bool }.
#[export] Instance kbd_eq_dec : EqDecision kbd.
Proof. solve_decision. Defined.

(** The characters of a stretch of consecutive scan codes. *)
Definition row (start : Z) (cs : list Z) : list (Z * Z) := zip (seqZ start (Z.of_nat (length cs))) cs.

Fixpoint text (s : string) : list Z :=
  match s with EmptyString => [] | String a s => Z.of_nat (Ascii.nat_of_ascii a) :: text s end.

(** [kbd_map] and [kbd_shift_map]; an entry that is not given is 0. *)
Definition kbd_map : list (Z * Z) :=
  row 0x01 [0x1b] ++ row 0x02 (text "1234567890-=") ++ row 0x0e [8; 9] ++ row 0x10 (text "qwertyuiop[]") ++ row 0x1c [10]
  ++ row 0x1e (text "asdfghjkl;'`") ++ row 0x2b (text "\zxcvbnm,./") ++ row 0x39 (text " ").
Definition kbd_shift_map : list (Z * Z) :=
  row 0x01 [0x1b] ++ row 0x02 (text "!@#$%^&*()_+") ++ row 0x0e [8; 9] ++ row 0x10 (text "QWERTYUIOP{}") ++ row 0x1c [10]
  ++ row 0x1e (text "ASDFGHJKL:" ++ [34; 126]) ++ row 0x2b (text "|ZXCVBNM<>?") ++ row 0x39 (text " ").

Definition entry (m : list (Z * Z)) (key : Z) : Z :=
  match list_find (λ kc, kc.1 = key) m with Some (_, kc) => kc.2 | None => 0 end.

Definition is_lower (c : Z) : bool := (97 <=? c) && (c <=? 122).
Definition is_upper (c : Z) : bool := (65 <=? c) && (c <=? 90).

(** [kbd_mod |= m] on a press, [kbd_mod &= ~m] on a release. *)
Definition modifier (m : Z) (release : bool) (k : kbd) : kbd :=
  Kbd (if release then Z.ldiff (kbd_mod k) m else Z.lor (kbd_mod k) m) false.

Definition apply_caps (md c : Z) : Z :=
  if flag md MOD_CAPS then if is_lower c then c - 97 + 65 else if is_upper c then c - 65 + 97 else c else c.
Definition apply_ctrl (md c : Z) : Z :=
  if flag md MOD_CTRL then if is_lower c then c - 97 + 1 else if is_upper c then c - 65 + 1 else c else c.

(** [kbd_decode]; -1 when the byte gives no character. *)
Definition kbd_decode (data : Z) (k : kbd) : Z * kbd :=
  if data =? 0xe0 then (-1, Kbd (kbd_mod k) true)
  else
    let release := negb (Z.land data 0x80 =? 0) in
    let key := Z.land data 0x7f in
    if (key =? 0x2a) || (key =? 0x36) then (-1, modifier MOD_SHIFT release k)
    else if key =? 0x1d then (-1, modifier MOD_CTRL release k)
    else if key =? 0x38 then (-1, modifier MOD_ALT release k)
    else if key =? 0x3a then (-1, Kbd (if release then kbd_mod k else Z.lxor (kbd_mod k) MOD_CAPS) false)
    else if release || kbd_e0 k then (-1, Kbd (kbd_mod k) false)
    else
      let c := entry (if flag (kbd_mod k) MOD_SHIFT then kbd_shift_map else kbd_map) key in
      if c =? 0 then (-1, k) else (apply_ctrl (kbd_mod k) (apply_caps (kbd_mod k) c), k).

(** [kbd_intr] with the bytes the controller has ready. *)
Fixpoint kbd_intr (bytes : list Z) (k : kbd) (t : tty) : outcome (kbd * tty) :=
  match bytes with
  | [] => mret (k, t)
  | b :: bytes =>
      let '(c, k) := kbd_decode (Z.land b 0xff) k in
      if 0 <=? c then t ← console_intr c t; kbd_intr bytes k t else kbd_intr bytes k t
  end.

Definition kbd_init : kbd := Kbd 0 false.
