(* ===== verification/ConsoleSys.v ===== *)
(** [ConsoleSys]: what the console promises.  [term] is a terminal without a
    ring: the characters that readers may take and the line that is being
    edited, as two lists.  The variables of console.c implement it
    ([section_refines], [getc_refines]), for any positions of the counters, whose
    wrap-around at [2 ^ 32] does no harm because [CONS_BUF] divides it. *)
From Stdlib Require Import ZArith Lia.
From stdpp Require Import numbers strings gmap list.
From S2P Require Import Prelude MemLayout Console.
Open Scope Z_scope.

(** ** The specification *)

Record term := Term {
  ready : list Z;
  line : list Z;
  screens : list console;
  fg : Z;
  lflag : Z;
  signals : list Z
}.

Definition with_lines (rd ln : list Z) (a : term) : term := Term rd ln (screens a) (fg a) (lflag a) (signals a).
Definition held (a : term) : Z := Z.of_nat (length (ready a) + length (line a)).

Definition t_write (s : list Z) (a : term) : term :=
  Term (ready a) (line a) ((λ c, Con (con_name c) (shown c ++ s)) <$> screens a) (fg a) (lflag a) (signals a).

Definition t_erase (lf : Z) (k : hpc) (a : term) : hpc * term :=
  if bool_decide (line a = []) then (HEnd, a)
  else (echo lf echo_erase k, with_lines (ready a) (removelast (line a)) a).

Definition t_start (c : Z) (a : term) : hpc * term :=
  let c := Z.land c 0xff in
  let lf := lflag a in
  let n := if c =? CR then NL else c in
  if flag lf ISIG && (c =? ASCII_ETX) then (HEcho echo_intr (HSignal (fg a)), with_lines [] [] a)
  else if flag lf ICANON && ((c =? ASCII_BS) || (c =? ASCII_DEL)) then t_erase lf HEnd a
  else if flag lf ICANON && (c =? ASCII_NAK) then t_erase lf (HKill lf) a
  else if (c =? 0) || (CONS_BUF <=? held a) then (HEnd, a)
  else if flag lf ICANON then (echo lf (echo_char n) (HLine n), with_lines (ready a) (line a ++ [n]) a)
  else (echo lf (echo_char n) HWake, with_lines (ready a ++ line a ++ [n]) [] a).

Definition t_section (pc : hpc) (a : term) : hpc * term :=
  match pc with
  | HStart c => t_start c a
  | HEcho s k => (k, t_write s a)
  | HKill lf => t_erase lf (HKill lf) a
  | HLine c =>
      if (c =? NL) || (c =? ASCII_EOT) || (held a =? CONS_BUF) then (HWake, with_lines (ready a ++ line a) [] a)
      else (HEnd, a)
  | HSignal p => (HWake, if 0 <? p then Term (ready a) (line a) (screens a) (fg a) (lflag a) (signals a ++ [p]) else a)
  | HWake | HEnd => (HEnd, a)
  end.

Definition t_getc (intr : bool) (a : term) : got * term :=
  match ready a with
  | [] => (if intr then Interrupted else Sleep, a)
  | c :: rd => (if flag (lflag a) ICANON && (c =? ASCII_EOT) then Eof else Char c, with_lines rd (line a) a)
  end.

Definition t_tcsets (f : Z) (a : term) : term :=
  Term [] [] (screens a) (fg a) (Z.land f (Z.lor (Z.lor ISIG ICANON) ECHO)) (signals a).
Definition t_fg (p : Z) (a : term) : term := Term (ready a) (line a) (screens a) p (lflag a) (signals a).

(** ** The ring holds the two lists *)

Record holds (t : tty) (rd ln : list Z) : Prop := {
  ho_len : length (cons_buf t) = Z.to_nat CONS_BUF;
  ho_r : 0 ≤ cons_r t < 2 ^ 32;
  ho_w : cons_w t = u32 (cons_r t + Z.of_nat (length rd));
  ho_e : cons_e t = u32 (cons_r t + Z.of_nat (length rd) + Z.of_nat (length ln));
  ho_room : Z.of_nat (length rd) + Z.of_nat (length ln) ≤ CONS_BUF;
  ho_chars k c : (rd ++ ln) !! k = Some c → 0 ≤ c < 256 ∧ cons_buf t !! Z.to_nat ((cons_r t + Z.of_nat k) mod CONS_BUF) = Some c
}.

Record refines (t : tty) (a : term) : Prop := {
  rf_holds : holds t (ready a) (line a);
  rf_screens : consoles t = screens a;
  rf_fg : cons_fg_pid t = fg a;
  rf_lflag : cons_lflag t = lflag a;
  rf_signals : signalled t = signals a
}.

Lemma u32_mod_buf x : u32 x mod CONS_BUF = x mod CONS_BUF.
Proof. unfold u32, CONS_BUF. symmetry. apply (Znumtheory.Zmod_div_mod 256 (2 ^ 32)); [done|done|by exists (2 ^ 24)]. Qed.

Lemma u32_diff x n : 0 ≤ n < 2 ^ 32 → u32 (u32 (x + n) - u32 x) = n.
Proof. intros Hn. unfold u32. rewrite <- Zminus_mod. replace (x + n - x) with n by lia. by apply Z.mod_small. Qed.

(** Two counters less than [2 ^ 32] apart are equal only if they do not differ. *)
Lemma u32_apart x n : 0 ≤ n < 2 ^ 32 → u32 (x + n) = u32 x ↔ n = 0.
Proof.
  intros Hn. split; [|intros ->; by rewrite Z.add_0_r]. intros E. pose proof (u32_diff x n Hn) as H. rewrite E, Z.sub_diag in H. by rewrite <- H.
Qed.

Section Ring.
Context (t : tty) (rd ln : list Z) (Hh : holds t rd ln).

Lemma r_idem : u32 (cons_r t) = cons_r t.
Proof using Hh. apply u32_small, Hh. Qed.

Lemma buf_small : CONS_BUF < 2 ^ 32.
Proof using. done. Qed.

Lemma held_ok : u32 (cons_e t - cons_r t) = Z.of_nat (length rd + length ln).
Proof using Hh.
  pose proof buf_small. pose proof (ho_room _ _ _ Hh). pose proof (u32_diff (cons_r t) (Z.of_nat (length rd + length ln)) ltac:(lia)) as E. rewrite r_idem in E.
  rewrite <- E. f_equal. rewrite (ho_e _ _ _ Hh). do 2 f_equal. lia.
Qed.

Lemma empty_ok : cons_empty t = bool_decide (rd = []).
Proof using Hh.
  unfold cons_empty. rewrite (ho_w _ _ _ Hh). pose proof (ho_room _ _ _ Hh). pose proof buf_small. pose proof (u32_apart (cons_r t) (Z.of_nat (length rd)) ltac:(lia)) as E. rewrite r_idem in E.
  case_bool_decide as Hd; [rewrite Hd; cbn; rewrite Z.add_0_r, r_idem; apply Z.eqb_refl|]. apply Z.eqb_neq. intros E'. symmetry in E'. apply E in E'. apply Hd, nil_length_inv. lia.
Qed.

Lemma line_empty_ok : (cons_e t =? cons_w t) = bool_decide (ln = []).
Proof using Hh.
  rewrite (ho_e _ _ _ Hh), (ho_w _ _ _ Hh). pose proof (ho_room _ _ _ Hh). pose proof buf_small. pose proof (u32_apart (cons_r t + Z.of_nat (length rd)) (Z.of_nat (length ln)) ltac:(lia)) as E.
  case_bool_decide as Hd; [rewrite Hd; cbn; rewrite Z.add_0_r; apply Z.eqb_refl|]. apply Z.eqb_neq. intros E'. apply E in E'. apply Hd, nil_length_inv. lia.
Qed.

Lemma submit_holds : holds (submit t) (rd ++ ln) [].
Proof using Hh.
  split; cbn; try apply Hh.
  - by rewrite (ho_e _ _ _ Hh), length_app, Nat2Z.inj_add, Z.add_assoc.
  - rewrite (ho_e _ _ _ Hh), length_app, Nat2Z.inj_add. f_equal. lia.
  - rewrite length_app. pose proof (ho_room _ _ _ Hh). lia.
  - rewrite app_nil_r. apply Hh.
Qed.

Lemma put_holds c : Z.of_nat (length rd + length ln) < CONS_BUF → 0 ≤ c < 256 → holds (put_char c t) rd (ln ++ [c]).
Proof using Hh.
  intros Hroom Hc. split; cbn; try apply Hh.
  - rewrite length_insert. apply Hh.
  - rewrite (ho_e _ _ _ Hh), u32_plus, length_app. cbn. f_equal. lia.
  - rewrite length_app. cbn. lia.
  - intros k x Hk. rewrite app_assoc in Hk. apply lookup_snoc_Some in Hk as [[Hlt Hk]|[-> ->]].
    + destruct (ho_chars _ _ _ Hh k x Hk) as [Hx Hb]. split; [done|]. rewrite list_lookup_insert_ne; [done|]. rewrite length_app in Hlt.
      rewrite (ho_e _ _ _ Hh), u32_mod_buf. intros E. apply Z2Nat.inj in E; [|by apply Z.mod_pos_bound..].
      assert ((Z.of_nat (length rd + length ln) - Z.of_nat k) mod CONS_BUF = 0) as Hz.
      { replace (Z.of_nat (length rd + length ln) - Z.of_nat k) with ((cons_r t + Z.of_nat (length rd) + Z.of_nat (length ln)) - (cons_r t + Z.of_nat k)) by lia. rewrite Zminus_mod, E, Z.sub_diag. done. }
      rewrite Z.mod_small in Hz by lia. lia.
    + split; [done|]. rewrite (ho_e _ _ _ Hh), u32_mod_buf, length_app, Nat2Z.inj_add, Z.add_assoc. apply list_lookup_insert_eq. rewrite (ho_len _ _ _ Hh). apply Z2Nat.inj_lt; [by apply Z.mod_pos_bound|done|by apply Z.mod_pos_bound].
Qed.

Lemma flush_holds : holds (cons_flush_input t) [] [].
Proof using Hh. split; cbn; [apply Hh|done..]. Qed.
End Ring.

Lemma drop_holds t rd ln x : holds t rd (ln ++ [x]) → holds (drop_char t) rd ln.
Proof.
  intros H. pose proof (ho_room _ _ _ H) as Hr. rewrite length_app in Hr. cbn in Hr. split; cbn; try apply H.
  - rewrite (ho_e _ _ _ H), length_app. cbn. unfold u32. rewrite Zminus_mod_idemp_l. f_equal. lia.
  - lia.
  - intros k c Hk. apply (ho_chars _ _ _ H). rewrite app_assoc. by apply lookup_app_l_Some.
Qed.

Lemma take_holds t c rd ln : holds t (c :: rd) ln → ∃ t', take_char t = (c, t') ∧ holds t' rd ln ∧ consoles t' = consoles t ∧ cons_fg_pid t' = cons_fg_pid t ∧ cons_lflag t' = cons_lflag t ∧ signalled t' = signalled t.
Proof.
  intros H. destruct (ho_chars _ _ _ H 0 c eq_refl) as [Hc Hb]. rewrite Z.add_0_r in Hb. eexists. split.
  { unfold take_char. rewrite Hb. cbn [default from_option id]. change 0xff with (Z.ones 8). rewrite Z.land_ones, Z.mod_small by lia. reflexivity. }
  split; [|done]. pose proof (ho_room _ _ _ H) as Hr. cbn [length] in Hr. split; cbn; try apply H.
  - apply u32_range.
  - rewrite (ho_w _ _ _ H), u32_plus. cbn [length]. f_equal. lia.
  - rewrite (ho_e _ _ _ H), <- (Z.add_assoc (u32 _)), u32_plus. cbn [length]. f_equal. lia.
  - lia.
  - intros k x Hk. destruct (ho_chars _ _ _ H (S k) x Hk) as [Hx Hbx]. split; [done|]. rewrite Zplus_mod, u32_mod_buf, <- Zplus_mod. rewrite <- Hbx. f_equal. f_equal. f_equal. lia.
Qed.

Lemma removelast_snoc (l : list Z) : l ≠ [] → ∃ x, l = removelast l ++ [x].
Proof. intros Hl. destruct (exists_last Hl) as (l' & x & ->). exists x. by rewrite removelast_last. Qed.

(** ** The console implements the specification *)

Lemma low_byte c : 0 ≤ Z.land c 0xff < 256.
Proof. change 0xff with (Z.ones 8). rewrite Z.land_ones by lia. by apply Z.mod_pos_bound. Qed.

Lemma nl_byte c : 0 ≤ (if Z.land c 0xff =? CR then NL else Z.land c 0xff) < 256.
Proof. pose proof (low_byte c). case_match; unfold NL; lia. Qed.

(** The part of [refines] that a change of the ring leaves alone. *)
Lemma refines_ring t a b r w e rd ln : refines t a → holds (with_input b r w e t) rd ln → refines (with_input b r w e t) (with_lines rd ln a).
Proof. intros [] Hh. by split. Qed.

Lemma write_refines t a s : refines t a → refines (console_write s t) (t_write s a).
Proof. intros [[] ? ? ? ?]. split; [by split|cbn; congruence|done..]. Qed.

Lemma erase_refines t a lf k : refines t a →
  ∃ t' a' k', (if negb (cons_e t =? cons_w t) then (echo lf echo_erase k, drop_char t) else (HEnd, t)) = (k', t') ∧ t_erase lf k a = (k', a') ∧ refines t' a'.
Proof.
  intros Hr. pose proof (rf_holds _ _ Hr) as Hh. unfold t_erase. rewrite (line_empty_ok _ _ _ Hh). case_bool_decide as Hl; cbn [negb].
  - by exists t, a, HEnd.
  - destruct (removelast_snoc _ Hl) as [x Hx]. rewrite Hx in Hh. eexists _, _, _. split; [reflexivity|]. split; [reflexivity|]. apply (refines_ring t a); [done|]. by eapply drop_holds.
Qed.

Lemma start_refines t a c : refines t a → ∃ k t' a', intr_start c t = (k, t') ∧ t_start c a = (k, a') ∧ refines t' a'.
Proof.
  intros Hr. pose proof (rf_holds _ _ Hr) as Hh. unfold intr_start, t_start. rewrite (rf_lflag _ _ Hr). cbv zeta.
  destruct (flag (lflag a) ISIG && (Z.land c 255 =? ASCII_ETX)).
  { rewrite (rf_fg _ _ Hr). eexists _, _, _. split; [reflexivity|]. split; [reflexivity|]. apply (refines_ring t a); [done|]. by eapply flush_holds. }
  assert (cons_input_full t = (CONS_BUF <=? held a)) as Ef by (unfold cons_input_full; by rewrite (held_ok _ _ _ Hh)). rewrite Ef.
  destruct (flag (lflag a) ICANON); cbn [andb].
  - destruct ((Z.land c 255 =? ASCII_BS) || (Z.land c 255 =? ASCII_DEL)).
    { destruct (erase_refines t a (lflag a) HEnd Hr) as (t' & a' & k & E1 & E2 & H'). exists k, t', a'. by rewrite E1, E2. }
    destruct (Z.land c 255 =? ASCII_NAK).
    { destruct (erase_refines t a (lflag a) (HKill (lflag a)) Hr) as (t' & a' & k & E1 & E2 & H'). exists k, t', a'. by rewrite E1, E2. }
    destruct ((Z.land c 255 =? 0) || (CONS_BUF <=? held a)) eqn:Eb; [by exists HEnd, t, a|]. apply orb_false_iff in Eb as [_ Hroom%Z.leb_gt].
    eexists _, _, _. split; [reflexivity|]. split; [reflexivity|]. apply (refines_ring t a); [done|]. by apply put_holds; [| |apply nl_byte].
  - destruct ((Z.land c 255 =? 0) || (CONS_BUF <=? held a)) eqn:Eb; [by exists HEnd, t, a|]. apply orb_false_iff in Eb as [_ Hroom%Z.leb_gt].
    eexists _, _, _. split; [reflexivity|]. split; [reflexivity|]. apply (refines_ring t a); [done|]. eapply (submit_holds (put_char _ t)). by apply put_holds; [| |apply nl_byte].
Qed.

Lemma section_refines pc t a : refines t a → ∃ k t' a', intr_section pc t = (k, t') ∧ t_section pc a = (k, a') ∧ refines t' a'.
Proof.
  intros Hr. pose proof (rf_holds _ _ Hr) as Hh. destruct pc as [c|s k|lf|c|p| |]; cbn [intr_section t_section].
  - by apply start_refines.
  - exists k, (console_write s t), (t_write s a). split; [done|]. split; [done|]. by apply write_refines.
  - destruct (erase_refines t a lf (HKill lf) Hr) as (t' & a' & k & E1 & E2 & H'). exists k, t', a'. by rewrite E1, E2.
  - rewrite (held_ok _ _ _ Hh). change (Z.of_nat (length (ready a) + length (line a))) with (held a).
    destruct ((c =? NL) || (c =? ASCII_EOT) || (held a =? CONS_BUF)); [|by exists HEnd, t, a].
    eexists _, _, _. split; [reflexivity|]. split; [reflexivity|]. apply (refines_ring t a); [done|]. by apply submit_holds.
  - eexists _, _, _. split; [reflexivity|]. split; [reflexivity|]. destruct Hr as [[] ? ? ? ?]. destruct (0 <? p); split; cbn; try done; try congruence; by split.
  - by exists HEnd, t, a.
  - by exists HEnd, t, a.
Qed.

Lemma getc_refines i t a : refines t a → ∃ g t' a', getc_section i t = (g, t') ∧ t_getc i a = (g, a') ∧ refines t' a'.
Proof.
  intros Hr. pose proof (rf_holds _ _ Hr) as Hh. unfold getc_section, t_getc. rewrite (empty_ok _ _ _ Hh). destruct (ready a) as [|c rd] eqn:Er.
  { rewrite bool_decide_eq_true_2 by done. by eexists _, t, a. }
  rewrite bool_decide_eq_false_2 by done. destruct (take_holds _ _ _ _ Hh) as (t' & -> & Hh' & E1 & E2 & E3 & E4). rewrite E3, (rf_lflag _ _ Hr).
  eexists (if flag (lflag a) ICANON && (c =? ASCII_EOT) then Eof else Char c), t', _. split; [by destruct (flag (lflag a) ICANON && (c =? ASCII_EOT))|]. split; [reflexivity|]. destruct Hr. split; cbn; [done|congruence..].
Qed.

Lemma resume_refines i i' t a : refines t a → ∃ g t' a', getc_resume i i' t = (g, t') ∧ (if i then (Interrupted, a) else t_getc i' a) = (g, a') ∧ refines t' a'.
Proof. intros Hr. unfold getc_resume. destruct i; [by exists Interrupted, t, a|by apply getc_refines]. Qed.

Lemma tcsets_refines f t a : refines t a → refines (tcsets f t) (t_tcsets f a).
Proof. intros Hr. destruct Hr as [Hh ? ? ? ?]. split; cbn; try done. split; cbn; [apply Hh|done..]. Qed.

Lemma fg_refines p t a : refines t a → refines (set_fg p t) (t_fg p a).
Proof. intros [[] ? ? ? ?]. split; cbn; try done; by split. Qed.

Definition term0 : term := Term [] [] [Con "tty0" []; Con "ttyS0" []] 0 (Z.lor (Z.lor ISIG ICANON) ECHO) [].

Lemma init_refines : refines (console_init tty0) term0.
Proof. by repeat split. Qed.

(** * Any number of interrupts and readers on one console.

    A run is a sequence of actions: an interrupt arrives, a call of
    [console_intr] or of [console_fop_read] runs its next section, a process
    starts to read, changes the mode, or is woken by a signal.  The same runs
    are made by the variables of console.c and by the two lists of the
    specification; both are instances of [Terminal]. *)

Class Terminal (T : Type) := {
  do_section : hpc → T → hpc * T;
  do_getc : bool → T → got * T;
  do_resume : bool → bool → T → got * T;
  do_canon : T → bool;
  do_tcsets : Z → T → T;
  do_fg : Z → T → T;
  do_write : list Z → T → T
}.

#[export] Instance tty_terminal : Terminal tty :=
  {| do_section := intr_section; do_getc := getc_section; do_resume := getc_resume; do_canon := console_is_canon;
     do_tcsets := tcsets; do_fg := set_fg; do_write := console_write |}.

#[export] Instance term_terminal : Terminal term :=
  {| do_section := t_section; do_getc := t_getc; do_resume i i' a := if i then (Interrupted, a) else t_getc i' a;
     do_canon a := flag (lflag a) ICANON; do_tcsets := t_tcsets; do_fg := t_fg; do_write := t_write |}.

Record csys (T : Type) := Csys { tt : T; handlers : list hpc; readers : list rpc }.
Arguments Csys {T}.
Arguments tt {T}.
Arguments handlers {T}.
Arguments readers {T}.

(** [wakeup(&cons_chan)] *)
Definition wake_reader (r : rpc) : rpc := match r with RAsleep canon todo dst => RWoken canon todo dst | _ => r end.

Inductive cact :=
| Irq (c : Z)
| Handle (i : nat)
| StartRead (n : Z)
| Read (i : nat) (intr intr' : bool)
| Signalled (i : nat)
| SetMode (f : Z)
| SetFg (p : Z)
| Show (s : list Z).

Section Run.
Context {T : Type} `{Terminal T}.

Definition cdo (a : cact) (σ : csys T) : option (csys T) :=
  let t := tt σ in let hs := handlers σ in let rs := readers σ in
  match a with
  | Irq c => Some (Csys t (hs ++ [HStart c]) rs)
  | Handle i =>
      pc ← hs !! i;
      match pc with
      | HEnd => None
      | HWake => Some (Csys t (<[i := HEnd]> hs) (wake_reader <$> rs))
      | _ => let '(k, t) := do_section pc t in Some (Csys t (<[i := k]> hs) rs)
      end
  | StartRead n => Some (Csys t hs (rs ++ [RNew n]))
  | Read i intr intr' =>
      r ← rs !! i;
      match r with
      | RNew n => Some (Csys t hs (<[i := read_start n (do_canon t)]> rs))
      | RGet canon todo dst => let '(g, t) := do_getc intr t in Some (Csys t hs (<[i := read_char g canon todo dst]> rs))
      | RWoken canon todo dst => let '(g, t) := do_resume intr intr' t in Some (Csys t hs (<[i := read_char g canon todo dst]> rs))
      | _ => None
      end
  | Signalled i => r ← rs !! i; match r with RAsleep _ _ _ => Some (Csys t hs (<[i := wake_reader r]> rs)) | _ => None end
  | SetMode f => Some (Csys (do_tcsets f t) (hs ++ [HWake]) rs)
  | SetFg p => Some (Csys (do_fg p t) hs rs)
  | Show s => Some (Csys (do_write s t) hs rs)
  end.

Fixpoint crun (acts : list cact) (σ : csys T) : option (csys T) :=
  match acts with [] => Some σ | a :: acts => σ ← cdo a σ; crun acts σ end.

Lemma crun_snoc acts a σ : crun (acts ++ [a]) σ = σ' ← crun acts σ; cdo a σ'.
Proof using. revert σ. induction acts as [|b acts IH]; intros σ; cbn; [by destruct (cdo a σ)|]. destruct (cdo b σ); cbn; [apply IH|done]. Qed.
End Run.

(** ** The ring implements the two lists *)

Definition sim (σ : csys tty) (a : csys term) : Prop := refines (tt σ) (tt a) ∧ handlers σ = handlers a ∧ readers σ = readers a.

(** Both are stuck, or both go on to states that are related again. *)
Definition both (o : option (csys tty)) (o' : option (csys term)) : Prop :=
  match o, o' with Some σ, Some a => sim σ a | None, None => True | _, _ => False end.

Lemma cdo_sim x σ a : sim σ a → both (cdo x σ) (cdo x a).
Proof.
  intros (Hr & Eh & Er). destruct x as [c|i|n|i b b'|i|f|p|s]; cbn [cdo]; rewrite ?Eh, ?Er.
  - done.
  - destruct (handlers a !! i) as [pc|]; [|done]. cbn [mbind option_bind]. destruct (section_refines pc _ _ Hr) as (k & t' & a' & E1 & E2 & H').
    cbn [do_section tty_terminal term_terminal]. rewrite E1, E2. by destruct pc.
  - done.
  - destruct (readers a !! i) as [r|]; [|done]. cbn [mbind option_bind]. destruct r as [n|cn td ds| |cn td ds|]; try done.
    + cbn [do_canon tty_terminal term_terminal]. unfold console_is_canon. by rewrite (rf_lflag _ _ Hr).
    + cbn [do_getc tty_terminal term_terminal]. destruct (getc_refines b _ _ Hr) as (g & t' & a' & -> & -> & H'). done.
    + cbn [do_resume tty_terminal term_terminal]. destruct (resume_refines b b' _ _ Hr) as (g & t' & a' & -> & -> & H'). done.
  - destruct (readers a !! i) as [r|]; [|done]. cbn [mbind option_bind]. by destruct r.
  - split; [|done]. by apply tcsets_refines.
  - split; [|done]. by apply fg_refines.
  - split; [|done]. by apply write_refines.
Qed.

Lemma crun_sim acts σ a : sim σ a → both (crun acts σ) (crun acts a).
Proof.
  revert σ a. induction acts as [|x acts IH]; intros σ a Hs; [done|]. cbn. pose proof (cdo_sim x _ _ Hs) as H. destruct (cdo x σ), (cdo x a); try done. by apply IH.
Qed.

(** The console after [console_init]. *)
Definition con0 : csys tty := Csys (console_init tty0) [] [].
Definition spec0 : csys term := Csys term0 [] [].

Lemma con0_sim : sim con0 spec0.
Proof. split; [apply init_refines|done]. Qed.

(** C12: any interrupts and readers in any order: the console behaves as the two
    lists of the specification, for as long as it runs.  A run is possible for
    the one exactly if it is possible for the other, all calls are at the same
    point and have the same results, the same output was written and the same
    signals were sent. *)
Theorem console_refines (acts : list cact) :
  match crun acts con0, crun acts spec0 with
  | Some σ, Some a => handlers σ = handlers a ∧ readers σ = readers a ∧ consoles (tt σ) = screens (tt a) ∧ signalled (tt σ) = signals (tt a) ∧ holds (tt σ) (ready (tt a)) (line (tt a))
  | None, None => True
  | _, _ => False
  end.
Proof.
  pose proof (crun_sim acts _ _ con0_sim) as H. destruct (crun acts con0) as [σ|], (crun acts spec0) as [a|]; try done. destruct H as ([] & Eh & Er). by split_and!.
Qed.

(** ** Nobody sleeps next to a character *)

Fixpoint will_wake (pc : hpc) : Prop :=
  match pc with HWake | HSignal _ => True | HEcho _ k => will_wake k | _ => False end.

Definition asleep (r : rpc) : Prop := match r with RAsleep _ _ _ => True | _ => False end.

Definition wake_due (a : csys term) : Prop := Exists asleep (readers a) → ready (tt a) = [] ∨ Exists will_wake (handlers a).

Lemma erase_ready lf k a : ready (t_erase lf k a).2 = ready a.
Proof. unfold t_erase. by case_bool_decide. Qed.

Lemma echo_wake lf s k : will_wake k → will_wake (echo lf s k).
Proof. unfold echo. by case_match. Qed.

(** A section that makes characters ready goes on to a wakeup. *)
Lemma section_ready pc a : ready (t_section pc a).2 = ready a ∨ ready (t_section pc a).2 = [] ∨ will_wake (t_section pc a).1.
Proof.
  destruct pc as [c|s k|lf|c|p| |]; cbn [t_section]; try (by left).
  - unfold t_start. cbv zeta. repeat case_match; try (by left); try (by right; left); try (by left; apply erase_ready); right; right; cbn [fst]; by apply echo_wake.
  - left. apply erase_ready.
  - case_match; [by right; right|by left].
  - left. by case_match.
Qed.

Lemma section_wake pc a : pc ≠ HWake → will_wake pc → will_wake (t_section pc a).1.
Proof. by destruct pc. Qed.

Lemma exists_insert {A} (P : A → Prop) (l : list A) i x y : l !! i = Some x → (P x → P y) → Exists P l → Exists P (<[i := y]> l).
Proof.
  intros Hi Hxy Hl. apply list.Exists_exists in Hl as (z & Hz & Pz). apply list.Exists_exists. apply list_elem_of_lookup in Hz as (j & Hj). destruct (decide (j = i)) as [->|Hne].
  - assert (z = x) as -> by congruence. exists y. split; [|by apply Hxy]. apply list_elem_of_lookup. exists i. apply list_lookup_insert_eq. by eapply lookup_lt_Some.
  - exists z. split; [|done]. apply list_elem_of_lookup. exists j. by rewrite list_lookup_insert_ne.
Qed.

Lemma exists_inserted {A} (P : A → Prop) (l : list A) i x y : l !! i = Some x → P y → Exists P (<[i := y]> l).
Proof. intros Hi Py. apply list.Exists_exists. exists y. split; [|done]. apply list_elem_of_lookup. exists i. apply list_lookup_insert_eq. by eapply lookup_lt_Some. Qed.

(** Who is asleep after a change of one reader was asleep before, or is that one. *)
Lemma exists_insert_inv {A} (P : A → Prop) (l : list A) i y : Exists P (<[i := y]> l) → P y ∨ Exists P l.
Proof.
  intros Hl. apply list.Exists_exists in Hl as (z & Hz & Pz). apply list_elem_of_lookup in Hz as (j & Hj). apply list_lookup_insert_Some in Hj as [(-> & <- & _)|[_ Hj]]; [by left|].
  right. apply list.Exists_exists. exists z. split; [|done]. apply list_elem_of_lookup. by exists j.
Qed.

Lemma woken_none rs : ¬ Exists asleep (wake_reader <$> rs).
Proof. intros Hx. apply list.Exists_exists in Hx as (r & Hin & Hr). apply list_elem_of_fmap in Hin as (r0 & -> & _). by destruct r0. Qed.

Lemma getc_ready i a : ready (t_getc i a).2 = ready a ∨ ∃ c, ready a = c :: ready (t_getc i a).2.
Proof. unfold t_getc. destruct (ready a) as [|c rd] eqn:E; [by left|]. right. by exists c. Qed.

(** A reader goes to sleep only if nothing is ready. *)
Lemma getc_sleeps i a cn td ds : asleep (read_char (t_getc i a).1 cn td ds) → ready (t_getc i a).2 = [].
Proof. unfold t_getc. destruct (ready a) as [|c rd] eqn:E; [done|]. cbn [fst]. case_match; cbn; [done|]. by case_match. Qed.

Lemma reader_wake a a' i x y hs : wake_due (Csys a hs x) → (ready a' = ready a ∨ ∃ c, ready a = c :: ready a') → (asleep y → ready a' = []) → wake_due (Csys a' hs (<[i := y]> x)).
Proof.
  intros Hw Hrd Hy Hx. cbn in *. apply exists_insert_inv in Hx as [Hx|Hx]; [left; by apply Hy|]. destruct (Hw Hx) as [E|E]; [|by right]. cbn in E. left. destruct Hrd as [->|[c Hc]]; [done|congruence].
Qed.

Lemma cdo_wake x a a' : wake_due a → cdo x a = Some a' → wake_due a'.
Proof.
  destruct a as [t hs rs]. intros Hw. unfold wake_due in Hw. cbn in Hw. destruct x as [c|i|n|i b b'|i|f|p|s]; cbn [cdo tt handlers readers].
  - intros [= <-] Hx. destruct (Hw Hx); [by left|right; apply Exists_app; by left].
  - destruct (hs !! i) as [pc|] eqn:Hi; cbn [mbind option_bind]; [|done]. intros E. assert (pc = HWake ∨ pc ≠ HWake ∧ a' = Csys (t_section pc t).2 (<[i := (t_section pc t).1]> hs) rs) as [->|[Hne ->]].
    { cbn [do_section term_terminal] in E. destruct (t_section pc t) eqn:Es. destruct pc; simplify_eq; try (by left); by right. }
    + injection E as <-. intros Hx. by apply woken_none in Hx.
    + intros Hx. cbn in Hx |- *. destruct (section_ready pc t) as [Er|[Er|Er]]; [|by left|right; by eapply exists_inserted].
      destruct (Hw Hx) as [Ex|Ex]; [left; congruence|right]. eapply exists_insert; [done| |done]. by apply section_wake.
  - intros [= <-] Hx. apply Hw. cbn in Hx. apply Exists_app in Hx as [Hx|Hx]; [done|]. apply Exists_cons in Hx as [[]|Hx]; inversion Hx.
  - destruct (rs !! i) as [r|]; cbn [mbind option_bind]; [|done]. destruct r as [n|cn td ds| |cn td ds|]; try done.
    + intros [= <-]. apply (reader_wake t); [done|by left|]. unfold read_start. by case_match.
    + cbn [do_getc term_terminal]. destruct (t_getc b t) as [g t'] eqn:Eg. intros [= <-]. replace t' with (t_getc b t).2 by (by rewrite Eg). replace g with (t_getc b t).1 by (by rewrite Eg).
      apply (reader_wake t); [done|apply getc_ready|apply getc_sleeps].
    + cbn [do_resume term_terminal]. destruct b.
      { intros [= <-]. apply (reader_wake t); [done|by left|done]. }
      destruct (t_getc b' t) as [g t'] eqn:Eg. intros [= <-]. replace t' with (t_getc b' t).2 by (by rewrite Eg). replace g with (t_getc b' t).1 by (by rewrite Eg).
      apply (reader_wake t); [done|apply getc_ready|apply getc_sleeps].
  - destruct (rs !! i) as [r|]; cbn [mbind option_bind]; [|done]. destruct r; try done. intros [= <-]. by apply (reader_wake t); [|left|].
  - intros [= <-] _. by left.
  - by intros [= <-].
  - by intros [= <-].
Qed.

Lemma crun_wake acts a a' : wake_due a → crun acts a = Some a' → wake_due a'.
Proof.
  revert a. induction acts as [|x acts IH]; intros a Hw E; [by injection E as <-|]. cbn in E. destruct (cdo x a) as [a1|] eqn:Ex; [|done]. apply (IH a1); [by eapply cdo_wake|done].
Qed.

(** C13: in no run does a reader sleep while a character is ready for it, unless
    some call is still on its way to waking the readers. *)
Theorem console_no_lost_wakeup acts σ i canon todo dst :
  crun acts con0 = Some σ → readers σ !! i = Some (RAsleep canon todo dst) → cons_empty (tt σ) = true ∨ ∃ j pc, handlers σ !! j = Some pc ∧ will_wake pc.
Proof.
  intros E Hi. pose proof (crun_sim acts _ _ con0_sim) as H. rewrite E in H. destruct (crun acts spec0) as [a|] eqn:Ea; [|done]. destruct H as (Hr & Eh & Er).
  assert (wake_due spec0) as H0 by (intros Hx; by inversion Hx). destruct (crun_wake acts _ _ H0 Ea) as [Hn|Hn].
  - apply list.Exists_exists. exists (RAsleep canon todo dst). split; [|done]. apply list_elem_of_lookup. exists i. by rewrite <- Er.
  - left. by rewrite (empty_ok _ _ _ (rf_holds _ _ Hr)), bool_decide_eq_true_2.
  - right. apply list.Exists_exists in Hn as (pc & Hpc & Hw). apply list_elem_of_lookup in Hpc as (j & Hj). exists j, pc. by rewrite Eh.
Qed.
