(* ===== verification/ConsoleLine.v ===== *)
(** [ConsoleLine]: from the keys to the reader.  A line that is typed, with its
    corrections, is what the next read in canonical mode returns. *)
From Stdlib Require Import ZArith Lia.
From stdpp Require Import numbers strings gmap list.
From S2P Require Import Prelude Console ConsoleSys.
Open Scope Z_scope.

(** ** Calls without interruption, on the specification *)

Fixpoint t_run (fuel : nat) (pc : hpc) (a : term) : outcome term :=
  match fuel with
  | O => NoFuel
  | S fuel => match pc with HEnd => mret a | _ => let '(pc, a) := t_section pc a in t_run fuel pc a end
  end.

Lemma run_refines fuel pc t a a' : refines t a → t_run fuel pc a = Done a' → ∃ t', intr_run fuel pc t = Done t' ∧ refines t' a'.
Proof.
  revert pc t a. induction fuel as [|fuel IH]; intros pc t a Hr; [done|]. cbn. destruct (section_refines pc t a Hr) as (k & t1 & a1 & E1 & E2 & Hr1). rewrite E1, E2.
  destruct pc; try (apply IH; exact Hr1). intros [= <-]. by exists t.
Qed.

(** A step of [t_run] that is not the last. *)
Lemma t_run_step n pc a k a1 : pc ≠ HEnd → t_section pc a = (k, a1) → t_run (S n) pc a = t_run n k a1.
Proof. intros Hp E. cbn [t_run]. rewrite E. by destruct pc. Qed.

Lemma start_goes c : HStart c ≠ HEnd.
Proof. done. Qed.

(** Everything but the line and the screens. *)
Definition same (a a' : term) : Prop := ready a' = ready a ∧ lflag a' = lflag a ∧ fg a' = fg a ∧ signals a' = signals a.

Lemma same_trans a b c : same a b → same b c → same a c.
Proof. unfold same. naive_solver congruence. Qed.

(** An echo costs at most one round. *)
Lemma t_run_echo lf s k n a : ∃ a1, same a a1 ∧ line a1 = line a ∧ (t_run (S n) (echo lf s k) a = t_run n k a1 ∨ t_run (S n) (echo lf s k) a = t_run (S n) k a1).
Proof.
  unfold echo. destruct (flag lf ECHO); [|exists a; by repeat split; right]. exists (t_write s a). split; [done|]. split; [done|]. left. by apply t_run_step.
Qed.

Lemma t_run_more n m pc a a' : t_run n pc a = Done a' → (n ≤ m)%nat → t_run m pc a = Done a'.
Proof.
  revert m pc a. induction n as [|n IH]; intros m pc a; [done|]. destruct m as [|m]; [lia|]. intros E Hle. cbn in E |- *. destruct (t_section pc a) as [k a1]. destruct pc; try (apply IH; [done|lia]); done.
Qed.

Lemma t_run_after_echo lf s k n a a1 (R : term → Prop) :
  (∀ b, same a b → line b = line a → ∃ c, t_run n k b = Done c ∧ R c) → a1 = a → ∃ c, t_run (S n) (echo lf s k) a1 = Done c ∧ R c.
Proof.
  intros Hk ->. destruct (t_run_echo lf s k n a) as (b & Hb & Hl & [E|E]); destruct (Hk b Hb Hl) as (c & Ec & Hc); exists c; (split; [|exact Hc]); rewrite E; [exact Ec|eapply t_run_more; [exact Ec|lia]].
Qed.

(** ** Editing *)

Definition edit1 (ln : list Z) (c : Z) : list Z :=
  if (c =? ASCII_BS) || (c =? ASCII_DEL) then removelast ln
  else if c =? ASCII_NAK then []
  else if c =? 0 then ln else ln ++ [c].

Definition edited (cs : list Z) : list Z := foldl edit1 [] cs.

Lemma removelast_length (l : list Z) : length (removelast l) = (length l - 1)%nat.
Proof. destruct l as [|x l]; [done|]. rewrite removelast_firstn_len. rewrite length_take. lia. Qed.

Lemma edit1_length ln c : (length (edit1 ln c) ≤ S (length ln))%nat.
Proof. unfold edit1. repeat case_match; rewrite ?removelast_length, ?length_app; cbn; lia. Qed.

(** Ctrl+U empties the line. *)
Lemma kill_run lf n : ∀ a, (length (line a) ≤ n)%nat → ∃ a', t_run (2 * n + 2) (HKill lf) a = Done a' ∧ same a a' ∧ line a' = [].
Proof.
  induction n as [|n IH]; intros a Hn.
  - exists a. destruct (line a) eqn:El; [|cbn in Hn; lia]. split; [|done]. change (2 * 0 + 2)%nat with 2%nat. rewrite (t_run_step 1 (HKill lf) a HEnd a); [done|done|]. cbn [t_section]. unfold t_erase. by rewrite El.
  - destruct (decide (line a = [])) as [El|Hne].
    { exists a. split; [|by repeat split]. replace (2 * S n + 2)%nat with (S (S (2 * n + 2))) by lia. rewrite (t_run_step _ (HKill lf) a HEnd a); [done|done|]. cbn [t_section]. unfold t_erase. by rewrite El. }
    replace (2 * S n + 2)%nat with (S (S (2 * n + 2))) by lia. set (b := with_lines (ready a) (removelast (line a)) a).
    rewrite (t_run_step _ (HKill lf) a (echo lf echo_erase (HKill lf)) b); [|done|cbn [t_section]; unfold t_erase; by rewrite bool_decide_eq_false_2].
    apply (t_run_after_echo lf echo_erase (HKill lf) (2 * n + 2) b b); [|done]. intros c Hc Hl. destruct (IH c) as (a' & E & Hs & Hl').
    { rewrite Hl. cbn. rewrite removelast_length. lia. }
    exists a'. split; [exact E|]. split; [|exact Hl']. by apply (same_trans a c); [apply (same_trans a b)|].
Qed.

(** The characters that edit a line, without those that end or discard it. *)
Definition edits (c : Z) : Prop := 0 ≤ c < 256 ∧ c ≠ ASCII_ETX ∧ c ≠ ASCII_EOT ∧ c ≠ NL ∧ c ≠ CR.

Lemma edit_run c a : flag (lflag a) ICANON = true → edits c → held a < CONS_BUF - 1 →
  ∃ a', t_run 520 (HStart c) a = Done a' ∧ same a a' ∧ line a' = edit1 (line a) c.
Proof.
  intros Hcan (Hc & Hetx & Heot & Hnl & Hcr) Hroom. assert (Z.land c 0xff = c) as Hland. { change 0xff with (Z.ones 8). rewrite Z.land_ones by lia. by apply Z.mod_small. }
  assert (t_section (HStart c) a = t_start c a) as Es by done. unfold t_start in Es. rewrite Hland, Hcan in Es. cbv zeta in Es. cbn [andb] in Es.
  rewrite (proj2 (Z.eqb_neq _ _) Hetx), andb_false_r, (proj2 (Z.eqb_neq _ _) Hcr) in Es. unfold edit1.
  destruct ((c =? ASCII_BS) || (c =? ASCII_DEL)) eqn:Eb; [|destruct (c =? ASCII_NAK) eqn:En].
  - unfold t_erase in Es. case_bool_decide as Hl.
    + exists a. rewrite (t_run_step 519 _ _ _ _ (start_goes _) Es). split; [done|]. split; [done|]. by rewrite Hl.
    + rewrite (t_run_step 519 _ _ _ _ (start_goes _) Es). eapply (t_run_after_echo _ _ _ 518); [|reflexivity]. intros b Hb Hlb. by exists b.
  - unfold t_erase in Es. case_bool_decide as Hl.
    + exists a. rewrite (t_run_step 519 _ _ _ _ (start_goes _) Es). split; [done|]. split; [done|done].
    + rewrite (t_run_step 519 _ _ _ _ (start_goes _) Es). eapply (t_run_after_echo _ _ _ 518); [|reflexivity]. intros b Hb Hlb.
      destruct (kill_run (lflag a) 254 b) as (a' & E & Hs & Hl'). { rewrite Hlb. cbn [line with_lines]. rewrite removelast_length. unfold held, CONS_BUF in Hroom. lia. }
      exists a'. split; [eapply t_run_more; [exact E|lia]|]. split; [|exact Hl']. by apply (same_trans a b).
  - destruct (Z.eqb_spec c 0) as [->|H0]; cbn [orb] in Es.
    { exists a. rewrite (t_run_step 519 _ _ _ _ (start_goes _) Es). done. }
    rewrite (proj2 (Z.leb_gt _ _)) in Es by lia. rewrite (t_run_step 519 _ _ _ _ (start_goes _) Es). eapply (t_run_after_echo _ _ _ 518); [|reflexivity]. intros b Hb Hlb. exists b. split; [|done].
    rewrite (t_run_step 517 (HLine c) b HEnd b); [done|done|]. cbn [t_section]. rewrite (proj2 (Z.eqb_neq _ _) Hnl), (proj2 (Z.eqb_neq _ _) Heot). cbn [orb].
    destruct Hb as (Hb & _). unfold held in *. rewrite Hb, Hlb. cbn [ready line with_lines]. rewrite length_app. cbn [length]. rewrite (proj2 (Z.eqb_neq _ _)); [done|lia].
Qed.

(** Enter makes the line ready. *)
Lemma enter_run a : flag (lflag a) ICANON = true → held a < CONS_BUF →
  ∃ a', t_run 520 (HStart NL) a = Done a' ∧ ready a' = ready a ++ line a ++ [NL] ∧ line a' = [] ∧ lflag a' = lflag a.
Proof.
  intros Hcan Hroom. assert (t_section (HStart NL) a = t_start NL a) as Es by done. unfold t_start in Es. rewrite Hcan in Es. cbv zeta in Es. change (Z.land NL 255) with NL in Es. cbn [andb orb Z.eqb NL ASCII_ETX ASCII_BS ASCII_DEL ASCII_NAK CR Pos.eqb] in Es.
  rewrite andb_false_r, (proj2 (Z.leb_gt _ _)) in Es by lia. rewrite (t_run_step 519 _ _ _ _ (start_goes _) Es). eapply (t_run_after_echo _ _ _ 518); [|reflexivity]. intros b (Hb & Hf & _) Hlb.
  exists (with_lines (ready b ++ line b) [] b). split; [done|]. cbn [ready line lflag with_lines]. rewrite Hb, Hlb, Hf. done.
Qed.

(** Characters arrive one after the other. *)
Fixpoint type_chars (cs : list Z) (t : tty) : outcome tty :=
  match cs with [] => mret t | c :: cs => t ← console_intr c t; type_chars cs t end.

Lemma type_chars_app l1 l2 t : type_chars (l1 ++ l2) t = t ← type_chars l1 t; type_chars l2 t.
Proof. revert t. induction l1 as [|c l1 IH]; intros t; cbn [type_chars app]; [done|]. destruct (console_intr c t); run; [apply IH|done..]. Qed.

Fixpoint t_type (cs : list Z) (a : term) : outcome term :=
  match cs with [] => mret a | c :: cs => a ← t_run 520 (HStart c) a; t_type cs a end.

Lemma type_refines cs : ∀ t a a', refines t a → t_type cs a = Done a' → ∃ t', type_chars cs t = Done t' ∧ refines t' a'.
Proof.
  induction cs as [|c cs IH]; intros t a a' Hr; cbn [t_type type_chars]; [intros [= <-]; by exists t|].
  destruct (t_run 520 (HStart c) a) as [a1| | |] eqn:E; run; try done. destruct (run_refines _ _ _ _ _ Hr E) as (t1 & E1 & Hr1). unfold console_intr. rewrite E1. run. by apply IH.
Qed.

Lemma type_edits cs : ∀ t a, refines t a → flag (lflag a) ICANON = true → Forall edits cs → held a + Z.of_nat (length cs) < CONS_BUF →
  ∃ t' a', type_chars cs t = Done t' ∧ refines t' a' ∧ lflag a' = lflag a ∧ ready a' = ready a ∧ line a' = foldl edit1 (line a) cs ∧ held a' ≤ held a + Z.of_nat (length cs).
Proof.
  induction cs as [|c cs IH]; intros t a Hr Hcan Hcs Hroom.
  { exists t, a. cbn in *. split_and!; try done. lia. }
  apply Forall_cons in Hcs as [Hc Hcs]. cbn [length] in Hroom. destruct (edit_run c a Hcan Hc) as (a1 & E1 & (Hrd & Hlf & _) & Hl); [lia|].
  destruct (run_refines _ _ _ _ _ Hr E1) as (t1 & Et & Hr1). assert (held a1 ≤ held a + 1) as Hh. { unfold held. rewrite Hrd, Hl. pose proof (edit1_length (line a) c). lia. }
  destruct (IH t1 a1 Hr1) as (t' & a' & E & Hr' & Hlf' & Hrd' & Hl' & Hh'); [congruence|done|lia|].
  exists t', a'. cbn [type_chars foldl length]. unfold console_intr. rewrite Et. run. split_and!; [exact E|exact Hr'|congruence|congruence|by rewrite Hl', Hl|lia].
Qed.

(** A complete line makes its way to the readers. *)
Lemma type_line cs t a : refines t a → flag (lflag a) ICANON = true → Forall edits cs → held a + Z.of_nat (length cs) < CONS_BUF →
  ∃ t' a', type_chars (cs ++ [NL]) t = Done t' ∧ refines t' a' ∧ lflag a' = lflag a ∧ ready a' = ready a ++ foldl edit1 (line a) cs ++ [NL] ∧ line a' = [].
Proof.
  intros Hr Hcan Hcs Hroom. destruct (type_edits cs t a Hr Hcan Hcs Hroom) as (t1 & a1 & E1 & Hr1 & Hlf & Hrd & Hl & Hh).
  destruct (enter_run a1) as (a' & E & Hrd' & Hl' & Hlf'); [congruence|lia|]. destruct (run_refines _ _ _ _ _ Hr1 E) as (t' & Et & Hr').
  exists t', a'. rewrite type_chars_app, E1. run. cbn [type_chars]. unfold console_intr. rewrite Et. run. split_and!; [done|done|congruence|by rewrite Hrd', Hrd, Hl|done].
Qed.

(** ** Reading a line *)

Lemma read_line s more : ∀ t a acc todo, refines t a → flag (lflag a) ICANON = true → Forall edits s → ready a = s ++ NL :: more → (length s < todo)%nat →
  ∃ t' a', read_run true todo acc t = Done (Z.of_nat (length (acc ++ s ++ [NL])), acc ++ s ++ [NL], t') ∧ refines t' a' ∧ ready a' = more ∧ line a' = line a.
Proof.
  induction s as [|c s IH]; intros t a acc todo Hr Hcan Hs Hrd Htodo; (destruct todo as [|todo]; [lia|]); cbn [read_run app] in *;
    destruct (getc_refines false t a Hr) as (g & t1 & a1 & E1 & E2 & Hr1); rewrite E1; unfold t_getc in E2; rewrite Hrd, Hcan in E2; cbn [andb] in E2.
  - injection E2 as <- <-. cbn [read_char andb orb Z.eqb NL ASCII_EOT Pos.eqb]. eexists t1, _. split; [reflexivity|]. split; [exact Hr1|]. done.
  - apply Forall_cons in Hs as [Hc Hs]. destruct Hc as (_ & _ & Heot & Hnl & _). rewrite (proj2 (Z.eqb_neq _ _) Heot) in E2. injection E2 as <- <-. unfold read_char.
    rewrite (proj2 (Z.eqb_neq _ _) Hnl). cbn [length] in Htodo. rewrite (proj2 (Nat.eqb_neq (S todo) 1)) by lia. cbn [andb orb].
    destruct (IH t1 _ (acc ++ [c]) todo Hr1 Hcan Hs eq_refl) as (t' & a' & E & H'); [lia|]. exists t', a'. rewrite E, <- !app_assoc. done.
Qed.

(** ** The keyboard *)

(** The key of a character, and whether it needs Shift. *)
Definition key_of (c : Z) : option (bool * Z) :=
  match list_find (λ kc, kc.2 = c) kbd_map with
  | Some (_, kc) => Some (false, kc.1)
  | None => match list_find (λ kc, kc.2 = c) kbd_shift_map with Some (_, kc) => Some (true, kc.1) | None => None end
  end.

(** The scan codes of typing it: press and release, with Shift around if needed. *)
Definition strokes (c : Z) : list Z :=
  match key_of c with
  | Some (shift, k) => (if shift then [0x2a] else []) ++ [k; Z.lor k 0x80] ++ (if shift then [0xaa] else [])
  | None => []
  end.

Definition typable (c : Z) : bool := match key_of c with Some _ => true | None => false end.

(** What the scan codes say, before any of it reaches the console. *)
Fixpoint decode_all (bytes : list Z) (k : kbd) : list Z * kbd :=
  match bytes with
  | [] => ([], k)
  | b :: bytes =>
      let '(c, k) := kbd_decode (Z.land b 0xff) k in
      let '(cs, k) := decode_all bytes k in
      (if 0 <=? c then c :: cs else cs, k)
  end.

Lemma kbd_intr_decode bytes : ∀ k t, kbd_intr bytes k t = t' ← type_chars (decode_all bytes k).1 t; mret ((decode_all bytes k).2, t').
Proof.
  induction bytes as [|b bytes IH]; intros k t; [done|]. cbn [kbd_intr decode_all]. destruct (kbd_decode (Z.land b 255) k) as [c k1]. destruct (decode_all bytes k1) as [cs k2] eqn:E.
  destruct (0 <=? c); cbn [fst snd type_chars].
  - destruct (console_intr c t); run; try done. by rewrite IH, E.
  - by rewrite IH, E.
Qed.

Lemma decode_all_app l1 l2 k : decode_all (l1 ++ l2) k = ((decode_all l1 k).1 ++ (decode_all l2 (decode_all l1 k).2).1, (decode_all l2 (decode_all l1 k).2).2).
Proof.
  revert k. induction l1 as [|b l1 IH]; intros k; cbn; [by destruct (decode_all l2 k)|]. destruct (kbd_decode (Z.land b 255) k) as [c k1]. rewrite IH. destruct (decode_all l1 k1) as [cs k2]. cbn. by destruct (0 <=? c).
Qed.

Lemma key_of_range c : typable c = true → In c (seqZ 1 126).
Proof.
  unfold typable, key_of. assert (∀ m, forallb (λ kc, (1 <=? kc.2) && (kc.2 <=? 126)) m = true → ∀ x, list_find (λ kc : Z * Z, kc.2 = c) m = Some x → 1 ≤ c ≤ 126) as Hm.
  { intros m Hm [i kc] E. apply list_find_Some in E as (E & Hc & _). rewrite forallb_forall in Hm. specialize (Hm kc). rewrite andb_true_iff, !Z.leb_le in Hm. rewrite <- Hc. apply Hm, list_elem_of_In. by eapply list_elem_of_lookup_2. }
  intros Hty. apply list_elem_of_In, elem_of_seqZ. destruct (list_find _ kbd_map) as [x|] eqn:E1; [pose proof (Hm kbd_map ltac:(by vm_compute) _ E1); lia|].
  destruct (list_find _ kbd_shift_map) as [x|] eqn:E2; [pose proof (Hm kbd_shift_map ltac:(by vm_compute) _ E2); lia|done].
Qed.

(** A character that is typed is decoded, and all keys are up again. *)
Lemma strokes_ok c : typable c = true → decode_all (strokes c) kbd_init = ([c], kbd_init).
Proof.
  intros Hty. pose proof (key_of_range c Hty) as Hin.
  assert (forallb (λ c, negb (typable c) || bool_decide (decode_all (strokes c) kbd_init = ([c], kbd_init))) (seqZ 1 126) = true) as Hall by (vm_compute; reflexivity).
  rewrite forallb_forall in Hall. specialize (Hall c Hin). rewrite Hty in Hall. by apply bool_decide_eq_true in Hall.
Qed.

Definition press (cs : list Z) : list Z := concat (strokes <$> cs).

Lemma press_ok cs : Forall (λ c, typable c = true) cs → decode_all (press cs) kbd_init = (cs, kbd_init).
Proof.
  induction 1 as [|c cs Hc Hcs IH]; [done|]. unfold press in *. cbn [fmap list_fmap concat]. rewrite decode_all_app, (strokes_ok c Hc). cbn [fst snd]. by rewrite IH.
Qed.

Lemma typable_edits c : typable c = true → c ≠ NL → edits c.
Proof.
  intros Hty Hnl. pose proof (key_of_range c Hty) as Hin%list_elem_of_In%elem_of_seqZ. split; [lia|]. repeat split; try done; intros ->; by vm_compute in Hty.
Qed.

Lemma edits_edited cs ln : Forall edits ln → Forall edits cs → Forall edits (foldl edit1 ln cs).
Proof.
  intros Hln Hcs. revert ln Hln. induction Hcs as [|c cs Hc _ IH]; intros ln Hln; [done|]. cbn. apply IH. unfold edit1. repeat case_match; try done.
  - destruct ln as [|x ln]; [done|]. rewrite removelast_firstn_len. by apply Forall_take.
  - apply Forall_app. split; [done|]. by apply Forall_singleton.
Qed.

(** C21: type any line on the keyboard, with corrections, and press Enter: the
    interrupts return, all keys are up, and a read in canonical mode with room
    for the line returns it as edited, with its newline, and leaves nothing. *)
Theorem typed_line_read cs t n :
  holds t [] [] → flag (cons_lflag t) ICANON = true → Forall (λ c, typable c = true) cs → NL ∉ cs → (length cs < 256)%nat → Z.of_nat (length (edited cs)) < n →
  ∃ t' t'', kbd_intr (press (cs ++ [NL])) kbd_init t = Done (kbd_init, t') ∧
    console_fop_read n t' = Done (Z.of_nat (length (edited cs)) + 1, edited cs ++ [NL], t'') ∧ holds t'' [] [].
Proof.
  intros Hh Hcan Hty Hnl Hlen Hn. set (a := Term [] [] (consoles t) (cons_fg_pid t) (cons_lflag t) (signalled t)). assert (refines t a) as Hr by done.
  assert (Forall edits cs) as Hed. { apply Forall_forall. intros c Hc. apply typable_edits; [|by intros ->]. by apply (proj1 (Forall_forall _ _) Hty). }
  destruct (type_line cs t a Hr Hcan Hed) as (t' & a' & E & Hr' & Hlf & Hrd & Hl). { unfold held. cbn. unfold CONS_BUF. lia. }
  destruct (read_line (edited cs) [] t' a' [] (Z.to_nat n) Hr') as (t'' & a'' & E2 & Hr'' & Hrd'' & Hl''); [by rewrite Hlf|by apply edits_edited|exact Hrd|lia|].
  exists t', t''. split; [|split].
  - rewrite kbd_intr_decode, press_ok; cbn [fst snd]; [rewrite E; by run|]. apply Forall_app. split; [done|]. by apply Forall_singleton.
  - unfold console_fop_read, read_start. rewrite (proj2 (Z.leb_gt _ _)) by lia. unfold console_is_canon. rewrite (rf_lflag _ _ Hr'), Hlf. change (lflag a) with (cons_lflag t). rewrite Hcan, E2. cbn [app]. rewrite length_app. cbn [length]. do 3 f_equal. lia.
  - pose proof (rf_holds _ _ Hr'') as Hh''. by rewrite Hrd'', Hl'', Hl in Hh''.
Qed.

(** ** Concrete runs *)

(** "lz", a backspace and "s", as typed at the start. *)
Definition typed_ls : list Z := [108; 122; 8; 115].

Lemma typed_line_read_witness : ∃ t' t'', kbd_intr (press (typed_ls ++ [NL])) kbd_init (console_init tty0) = Done (kbd_init, t') ∧
  console_fop_read 100 t' = Done (3, [108; 115; 10], t'') ∧ holds t'' [] [].
Proof.
  destruct (typed_line_read typed_ls (console_init tty0) 100) as (t' & t'' & E1 & E2 & Hh).
  - apply (rf_holds _ _ init_refines).
  - reflexivity.
  - repeat constructor.
  - apply (bool_decide_eq_true_1 (NL ∉ typed_ls)). reflexivity.
  - cbn. lia.
  - reflexivity.
  - exists t', t''. split; [exact E1|]. split; [exact E2|exact Hh].
Defined.

(** A reader that finds nothing sleeps; a key arrives, and its wakeup is due. *)
Definition sleepy : list cact := [SetMode 0; Handle 0; StartRead 1; Read 0 false false; Read 0 false false; Irq 97; Handle 1].

Lemma sleepy_runs : ∃ σ, crun sleepy con0 = Some σ ∧ readers σ !! 0%nat = Some (RAsleep false 1 []) ∧ cons_empty (tt σ) = false.
Proof. eexists. split; [vm_compute; reflexivity|]. split; reflexivity. Qed.

Lemma console_no_lost_wakeup_witness : ∃ σ, crun sleepy con0 = Some σ ∧ (cons_empty (tt σ) = true ∨ ∃ j pc, handlers σ !! j = Some pc ∧ will_wake pc).
Proof.
  destruct (crun sleepy con0) as [σ|] eqn:E; [|vm_compute in E; discriminate E]. exists σ. split; [reflexivity|]. apply (console_no_lost_wakeup sleepy σ 0 false 1 [] E).
  vm_compute in E. injection E as <-. reflexivity.
Defined.

(** Both Shift keys share one bit: the release of one ends the shift of the
    other, which is still held. *)
Lemma two_shifts : (decode_all [0x2a; 0x36; 0xb6; 0x1e] kbd_init).1 = [97].
Proof. reflexivity. Qed.

(** A line that fills the ring is handed over without a newline, and the rest of
    what is typed, Enter included, is lost until somebody reads. *)
Lemma full_line_no_newline : ∃ t, type_chars (repeat 97 256 ++ [NL]) (console_init tty0) = Done t ∧ holds t (repeat 97 256) [].
Proof.
  destruct (type_refines (repeat 97 256 ++ [NL]) _ _ (Term (repeat 97 256) [] [Con "tty0" (repeat 97 256); Con "ttyS0" (repeat 97 256)] 0 11 []) init_refines) as (t & E & Hr); [vm_compute; reflexivity|]. exists t. split; [exact E|]. apply Hr.
Qed.
