(* ===== verification/Spinlock.v ===== *)
(** [Spinlock]: the spin locks of kernel/lock/spinlock.c on any number of CPUs,
    with the nesting of interrupt-disabling in [push_off] and [pop_off].

    A step is one access to shared memory: the exchange that takes the lock, the
    store of the owner, its removal, the store that gives the lock up.  The two
    counters of a CPU and its interrupt flag are its own, so [push_off] and
    [pop_off] are one step each.  The model says what the other components take
    for granted: what happens under a lock happens alone, with interrupts off. *)
From Stdlib Require Import ZArith Lia.
From stdpp Require Import numbers strings gmap list sets.
From S2P Require Import Prelude.
Open Scope Z_scope.

(** [struct spinlock], and the fields of [struct cpu] that it uses, with the
    interrupt flag of the CPU. *)
Record spinlock := Lock { locked : bool; lk_cpu : option nat }.
Record cpu := Cpu { ifl : bool; noff : Z; intena : bool }.

Definition initlock : spinlock := Lock false None.

Definition holding (c : nat) (l : spinlock) : bool := locked l && bool_decide (lk_cpu l = Some c).

Definition push_off (k : cpu) : cpu :=
  Cpu false (noff k + 1) (if noff k =? 0 then ifl k else intena k).

(** [preempt_check] may give the CPU to another process, after which the rest of
    [pop_off] runs when this one is back. *)
Definition pop_off (k : cpu) : outcome cpu :=
  if ifl k then Panic "pop_off - interruptible"
  else if noff k <? 1 then Panic "pop_off"
  else mret (Cpu (if (noff k - 1 =? 0) && intena k then true else false) (noff k - 1) (intena k)).

(** Where a CPU is: outside of these functions; in [acquire], before the exchange
    or before it has stored itself as the owner; in [release], after it has
    removed itself or has given the lock up. *)
Inductive pc := Run | Spin (l : nat) | Taken (l : nat) | Leaving (l : nat) | Left.
#[export] Instance pc_eq_dec : EqDecision pc.
Proof. solve_decision. Defined.

(** [held] are the locks taken by [acquire] and not given back, most recent first,
    [want] the interrupt flag as it was last set outside of these functions;
    both are not part of the program. *)
Record core := Core { cp : cpu; at_ : pc; held : list nat; want : bool }.

Record smp := Smp { cores : list core; locks : gmap nat spinlock }.

Definition set_core (c : nat) (k : core) (s : smp) : smp := Smp (<[c := k]> (cores s)) (locks s).
Definition set_lock (l : nat) (x : spinlock) (s : smp) : smp := Smp (cores s) (<[l := x]> (locks s)).

(** What a CPU can do: [acquire], [release], the next access of either, or
    setting its interrupt flag when no lock is involved. *)
Inductive sact := Acquire (l : nat) | Release (l : nat) | Go | SetIf (b : bool).

Definition sstep (c : nat) (a : sact) (s : smp) : outcome smp :=
  k ← deref (cores s !! c);
  match a, at_ k with
  | Acquire l, Run =>
      x ← deref (locks s !! l);
      if holding c x then Panic "acquire" else mret (set_core c (Core (push_off (cp k)) (Spin l) (held k) (want k)) s)
  | Release l, Run =>
      x ← deref (locks s !! l);
      if negb (holding c x) then Panic "release"
      else mret (set_lock l (Lock (locked x) None) (set_core c (Core (cp k) (Leaving l) (held k) (want k)) s))
  | SetIf b, Run => if noff (cp k) =? 0 then mret (set_core c (Core (Cpu b 0 (intena (cp k))) Run (held k) b) s) else mret s
  | Go, Spin l =>
      x ← deref (locks s !! l);
      if locked x then mret s
      else mret (set_lock l (Lock true (lk_cpu x)) (set_core c (Core (cp k) (Taken l) (held k) (want k)) s))
  | Go, Taken l =>
      x ← deref (locks s !! l);
      mret (set_lock l (Lock (locked x) (Some c)) (set_core c (Core (cp k) Run (l :: held k) (want k)) s))
  | Go, Leaving l =>
      x ← deref (locks s !! l);
      mret (set_lock l (Lock false (lk_cpu x)) (set_core c (Core (cp k) Left (list_difference (held k) [l]) (want k)) s))
  | Go, Left => p ← pop_off (cp k); mret (set_core c (Core p Run (held k) (want k)) s)
  | _, _ => mret s
  end.

(** ** The invariant *)

Definition owns (k : core) (l : nat) : Prop := l ∈ held k ∨ at_ k = Taken l.

(** The locks a CPU has stored itself in. *)
Definition marked (k : core) (l : nat) : Prop := l ∈ held k ∧ at_ k ≠ Leaving l.

#[export] Instance marked_dec k l : Decision (marked k l).
Proof. unfold marked. apply _. Defined.

(** How often [push_off] was called more than [pop_off]. *)
Definition pushed (k : core) : Z := Z.of_nat (length (held k)) + match at_ k with Spin _ | Taken _ | Left => 1 | _ => 0 end.

Record core_ok (k : core) : Prop := {
  co_noff : noff (cp k) = pushed k;
  co_if : if noff (cp k) =? 0 then ifl (cp k) = want k else ifl (cp k) = false ∧ intena (cp k) = want k;
  co_nodup : NoDup (held k);
  co_leaving l : at_ k = Leaving l → l ∈ held k;
  co_spin l : at_ k = Spin l ∨ at_ k = Taken l → l ∉ held k
}.

Record smp_ok (s : smp) : Prop := {
  so_core c k : cores s !! c = Some k → core_ok k;
  so_one l c c' k k' : cores s !! c = Some k → cores s !! c' = Some k' → owns k l → owns k' l → c = c';
  so_locked l x c k : locks s !! l = Some x → cores s !! c = Some k → owns k l → locked x = true;
  so_cpu l x c : locks s !! l = Some x → lk_cpu x = Some c ↔ ∃ k, cores s !! c = Some k ∧ marked k l
}.

Lemma holding_marks s c k l x : smp_ok s → cores s !! c = Some k → locks s !! l = Some x → holding c x = bool_decide (marked k l).
Proof.
  intros Hs Hc Hl. unfold holding. destruct (so_cpu _ Hs l x c Hl) as [H1 H2]. case_bool_decide as Hm; case_bool_decide as Hk.
  - rewrite andb_true_r. apply (so_locked _ Hs l x c k Hl Hc). left. apply Hk.
  - destruct (H1 Hm) as (k' & E & Hk'). congruence.
  - exfalso. apply Hm, H2. by exists k.
  - apply andb_false_r.
Qed.

(** One CPU moves and one lock changes. *)
Lemma smp_ok_move s c k k' l0 x0 x' : smp_ok s → cores s !! c = Some k → locks s !! l0 = Some x0 → core_ok k' →
  (∀ l, l ≠ l0 → (owns k' l → owns k l) ∧ (marked k' l ↔ marked k l)) →
  (owns k' l0 → (owns k l0 ∨ locked x0 = false) ∧ locked x' = true) →
  (locked x0 = true → locked x' = true ∨ owns k l0) →
  (lk_cpu x' = Some c ↔ marked k' l0) →
  (∀ c', c' ≠ c → lk_cpu x' = Some c' ↔ lk_cpu x0 = Some c') →
  smp_ok (set_lock l0 x' (set_core c k' s)).
Proof.
  intros Hs Hc Hl Hk' Hother Hnew Hkeep Hme Hthey. pose proof (lookup_lt_Some _ _ _ Hc) as Hlt.
  assert (∀ c1 k1, <[c := k']> (cores s) !! c1 = Some k1 → (c1 = c ∧ k1 = k') ∨ (c1 ≠ c ∧ cores s !! c1 = Some k1)) as Hsplit.
  { intros c1 k1 H1. apply list_lookup_insert_Some in H1 as [(-> & <- & _)|[Hne H1]]; [by left|by right]. }
  assert (∀ l, owns k' l → owns k l ∨ l = l0 ∧ locked x0 = false) as Hgain.
  { intros l Ho. destruct (decide (l = l0)) as [->|Hne]; [destruct (Hnew Ho) as [[H|H] _]; auto|left; by apply (Hother l Hne)]. }
  assert (∀ l c1 k1, owns k' l → c1 ≠ c → cores s !! c1 = Some k1 → ¬ owns k1 l) as Halone.
  { intros l c1 k1 Ho Hne H1 Ho1. destruct (Hgain l Ho) as [H|[-> Hu]]; [by apply Hne, (so_one _ Hs l c1 c k1 k)|]. rewrite (so_locked _ Hs l0 x0 c1 k1 Hl H1 Ho1) in Hu. done. }
  split; cbn [set_lock set_core cores locks].
  - intros c1 k1 H1. destruct (Hsplit c1 k1 H1) as [[-> ->]|[_ H2]]; [done|by apply (so_core _ Hs c1)].
  - intros l c1 c2 k1 k2 H1 H2 O1 O2. destruct (Hsplit c1 k1 H1) as [[-> ->]|[N1 E1]], (Hsplit c2 k2 H2) as [[-> ->]|[N2 E2]]; [done| | |by apply (so_one _ Hs l c1 c2 k1 k2)].
    + by destruct (Halone l c2 k2 O1 N2 E2).
    + by destruct (Halone l c1 k1 O2 N1 E1).
  - intros l x c1 k1 Hx H1 O1. destruct (decide (l = l0)) as [->|Hne].
    + rewrite lookup_insert_eq in Hx. injection Hx as <-. destruct (Hsplit c1 k1 H1) as [[-> ->]|[N1 E1]]; [by apply Hnew|].
      destruct (Hkeep (so_locked _ Hs l0 x0 c1 k1 Hl E1 O1)) as [H|H]; [done|]. by destruct N1; apply (so_one _ Hs l0 c1 c k1 k).
    + rewrite lookup_insert_ne in Hx by done. destruct (Hsplit c1 k1 H1) as [[-> ->]|[N1 E1]]; [|by apply (so_locked _ Hs l x c1 k1)]. apply (so_locked _ Hs l x c k Hx Hc). by apply (Hother l Hne).
  - intros l x c1 Hx. assert (∀ P : core → Prop, (∃ k1, <[c := k']> (cores s) !! c1 = Some k1 ∧ P k1) ↔ if decide (c1 = c) then P k' else ∃ k1, cores s !! c1 = Some k1 ∧ P k1) as Hex.
    { intros P. case_decide as Hd; [subst c1; rewrite list_lookup_insert_eq by done; naive_solver|by rewrite list_lookup_insert_ne by done]. }
    rewrite Hex. destruct (decide (l = l0)) as [->|Hne].
    + rewrite lookup_insert_eq in Hx. injection Hx as <-. case_decide as Hd; [by subst c1|]. by rewrite (Hthey c1 Hd), (so_cpu _ Hs l0 x0 c1 Hl).
    + rewrite lookup_insert_ne in Hx by done. rewrite (so_cpu _ Hs l x c1 Hx). case_decide as Hd; [|done]. subst c1. rewrite (proj2 (Hother l Hne)). naive_solver.
Qed.

(** One CPU moves and no lock changes hands. *)
Lemma smp_ok_core s c k k' : smp_ok s → cores s !! c = Some k → core_ok k' → (∀ l, (owns k' l → owns k l) ∧ (marked k' l ↔ marked k l)) → smp_ok (set_core c k' s).
Proof.
  intros Hs Hc Hk' Hsame. pose proof (lookup_lt_Some _ _ _ Hc) as Hlt.
  assert (∀ c1 k1, <[c := k']> (cores s) !! c1 = Some k1 → ∃ k0, cores s !! c1 = Some k0 ∧ core_ok k1 ∧ ∀ l, (owns k1 l → owns k0 l) ∧ (marked k1 l ↔ marked k0 l)) as Hold.
  { intros c1 k1 H1. apply list_lookup_insert_Some in H1 as [(-> & <- & _)|[Hne H1]]; [by exists k|]. exists k1. split; [done|]. split; [by apply (so_core _ Hs c1)|]. tauto. }
  split; cbn [set_core cores locks].
  - intros c1 k1 H1. by destruct (Hold c1 k1 H1) as (_ & _ & H & _).
  - intros l c1 c2 k1 k2 H1 H2 O1 O2. destruct (Hold c1 k1 H1) as (k3 & E3 & _ & H3), (Hold c2 k2 H2) as (k4 & E4 & _ & H4). apply (so_one _ Hs l c1 c2 k3 k4); [done|done|by apply H3|by apply H4].
  - intros l x c1 k1 Hx H1 O1. destruct (Hold c1 k1 H1) as (k3 & E3 & _ & H3). apply (so_locked _ Hs l x c1 k3); [done|done|by apply H3].
  - intros l x c1 Hx. rewrite (so_cpu _ Hs l x c1 Hx). destruct (decide (c1 = c)) as [->|Hne].
    + rewrite list_lookup_insert_eq by done. split; intros (k1 & E1 & M1); simplify_eq; [by exists k'; split; [|apply Hsame]|by exists k; split; [|apply Hsame]].
    + by rewrite list_lookup_insert_ne by done.
Qed.

Lemma core_at k a l : owns (Core (cp k) a (held k) (want k)) l ↔ l ∈ held k ∨ a = Taken l.
Proof. done. Qed.

Lemma push_ok k l : core_ok k → at_ k = Run → l ∉ held k → core_ok (Core (push_off (cp k)) (Spin l) (held k) (want k)).
Proof.
  intros [Hn Hi Hd _ _] Ha Hl. unfold pushed in Hn. rewrite Ha in Hn. split; cbn.
  - unfold pushed. cbn. lia.
  - rewrite (proj2 (Z.eqb_neq _ _)) by lia. split; [done|]. destruct (noff (cp k) =? 0); [done|apply Hi].
  - done.
  - done.
  - intros l' [[= <-]|[=]]. done.
Qed.

Lemma pop_off_ok k : core_ok k → at_ k = Left → ∃ p, pop_off (cp k) = Done p ∧ core_ok (Core p Run (held k) (want k)).
Proof.
  intros [Hn Hi Hd _ _] Ha. unfold pushed in Hn. rewrite Ha in Hn. rewrite (proj2 (Z.eqb_neq _ _)) in Hi by lia. destruct Hi as [Hif Hin].
  unfold pop_off. rewrite Hif, (proj2 (Z.ltb_ge _ _)) by lia. eexists. split; [reflexivity|]. split; cbn; try done.
  - unfold pushed. cbn. lia.
  - destruct (noff (cp k) - 1 =? 0); cbn; [rewrite Hin; by destruct (want k)|done].
  - intros l [[=]|[=]].
Qed.

(** Outside of [acquire] and [release] a CPU is marked in all the locks it has. *)
Lemma marked_run k l : at_ k = Run → marked k l ↔ l ∈ held k.
Proof. intros Ha. unfold marked. rewrite Ha. naive_solver. Qed.

Definition step_result (c : nat) (a : sact) (s : smp) : Prop :=
  match sstep c a s with
  | Done s' => smp_ok s'
  | Panic _ => ∃ k l, cores s !! c = Some k ∧ (a = Acquire l ∧ l ∈ held k ∨ a = Release l ∧ l ∉ held k)
  | Wild => cores s !! c = None ∨ ∃ l, locks s !! l = None
  | NoFuel => False
  end.

Section Step.
Context (s : smp) (c : nat) (k : core) (Hs : smp_ok s) (Hc : cores s !! c = Some k).

Lemma acquire_ok l : at_ k = Run → step_result c (Acquire l) s.
Proof using Hs Hc.
  intros Ha. unfold step_result, sstep. rewrite Hc. cbn [deref]. run. rewrite Ha. destruct (locks s !! l) as [x|] eqn:Hl; cbn [deref]; run; [|right; by exists l].
  rewrite (holding_marks s c k l x Hs Hc Hl). pose proof (marked_run k l Ha) as Hm. case_bool_decide as Hd; [exists k, l; split; [done|left; tauto]|]. run.
  apply (smp_ok_core s c k); [done|done| |].
  - apply push_ok; [by apply (so_core _ Hs c)|done|tauto].
  - intros l'. unfold owns, marked. cbn. rewrite Ha. naive_solver.
Qed.

Lemma release_steps l : at_ k = Run → step_result c (Release l) s.
Proof using Hs Hc.
  intros Ha. unfold step_result, sstep. rewrite Hc. cbn [deref]. run. rewrite Ha. destruct (locks s !! l) as [x|] eqn:Hl; cbn [deref]; run; [|right; by exists l].
  rewrite (holding_marks s c k l x Hs Hc Hl). pose proof (marked_run k l Ha) as Hm. case_bool_decide as Hd; cbn [negb]; [|exists k, l; split; [done|right; tauto]]. run.
  assert (owns k l) as Ho by (left; tauto). apply (smp_ok_move s c k _ l x); [done|done|done| | | | | |].
  - destruct (so_core _ Hs c k Hc) as [Hn Hi Hnd _ _]. split; cbn; try done.
    + rewrite Hn. unfold pushed. by rewrite Ha.
    + intros l' [= <-]. tauto.
    + intros l' [[=]|[=]].
  - intros l' Hne. unfold owns, marked. cbn. rewrite Ha. naive_solver.
  - intros _. cbn. split; [by left|]. by apply (so_locked _ Hs l x c k).
  - cbn. intros ->. by left.
  - cbn. unfold marked. cbn. naive_solver.
  - intros c' Hne. cbn. split; [done|]. intros E. destruct Hne. apply (so_cpu _ Hs l x c' Hl) in E as (k1 & E1 & M1). apply (so_one _ Hs l c' c k1 k); [done|done|left; apply M1|done].
Qed.

Lemma setif_ok b : at_ k = Run → step_result c (SetIf b) s.
Proof using Hs Hc.
  intros Ha. unfold step_result, sstep. rewrite Hc. cbn [deref]. run. rewrite Ha. destruct (Z.eqb_spec (noff (cp k)) 0) as [E|]; [|done]. run. apply (smp_ok_core s c k); [done|done| |].
  - destruct (so_core _ Hs c k Hc) as [Hn Hi Hnd _ _]. split; cbn; try done.
    + rewrite <- E, Hn. unfold pushed. by rewrite Ha.
    + intros l' [[=]|[=]].
  - intros l'. unfold owns, marked. cbn. rewrite Ha. naive_solver.
Qed.

Lemma spin_ok l : at_ k = Spin l → step_result c Go s.
Proof using Hs Hc.
  intros Ha. unfold step_result, sstep. rewrite Hc. cbn [deref]. run. rewrite Ha. destruct (locks s !! l) as [x|] eqn:Hl; cbn [deref]; run; [|right; by exists l]. destruct (locked x) eqn:Hx; [done|]. run.
  destruct (so_core _ Hs c k Hc) as [Hn Hi Hnd _ Hsp]. pose proof (Hsp l (or_introl Ha)) as Hnl. apply (smp_ok_move s c k _ l x); [done|done|done| | | | | |].
  - split; cbn; try done.
    + rewrite Hn. unfold pushed. by rewrite Ha.
    + intros l' [[=]|[= <-]]. done.
  - intros l' Hne. unfold owns, marked. cbn. rewrite Ha. naive_solver.
  - intros _. split; [by right|done].
  - rewrite Hx. done.
  - cbn. rewrite (so_cpu _ Hs l x c Hl). unfold marked. cbn. naive_solver.
  - done.
Qed.

Lemma taken_ok l : at_ k = Taken l → step_result c Go s.
Proof using Hs Hc.
  intros Ha. unfold step_result, sstep. rewrite Hc. cbn [deref]. run. rewrite Ha. destruct (locks s !! l) as [x|] eqn:Hl; cbn [deref]; run; [|right; by exists l].
  assert (owns k l) as Ho by (by right). destruct (so_core _ Hs c k Hc) as [Hn Hi Hnd _ Hsp]. pose proof (Hsp l (or_intror Ha)) as Hnl. apply (smp_ok_move s c k _ l x); [done|done|done| | | | | |].
  - split; cbn; try done.
    + rewrite Hn. unfold pushed. rewrite Ha. cbn. lia.
    + by apply NoDup_cons.
    + intros l' [[=]|[=]].
  - intros l' Hne. unfold owns, marked. cbn. rewrite Ha, elem_of_cons. naive_solver.
  - intros _. cbn. split; [by left|]. by apply (so_locked _ Hs l x c k).
  - cbn. intros ->. by left.
  - cbn. unfold marked. cbn. rewrite elem_of_cons. naive_solver.
  - intros c' Hne. cbn. split; [congruence|]. intros E. destruct Hne. apply (so_cpu _ Hs l x c' Hl) in E as (k1 & E1 & M1). apply (so_one _ Hs l c' c k1 k); [done|done|left; apply M1|done].
Qed.

Lemma without_absent (xs : list nat) l : l ∉ xs → list_difference xs [l] = xs.
Proof using.
  induction xs as [|y xs IH]; intros Hy; [done|]. apply not_elem_of_cons in Hy as [Hne Hy]. cbn. destruct (decide_rel elem_of y [l]) as [Hd|Hd]; [apply list_elem_of_singleton in Hd; congruence|]. by rewrite (IH Hy).
Qed.

Lemma length_without (xs : list nat) l : NoDup xs → l ∈ xs → S (length (list_difference xs [l])) = length xs.
Proof using.
  induction xs as [|y xs IH]; intros Hnd Hin; [by apply not_elem_of_nil in Hin|]. apply NoDup_cons in Hnd as [Hy Hnd]. cbn. destruct (decide_rel elem_of y [l]) as [Hd|Hd]; rewrite list_elem_of_singleton in Hd.
  - subst y. by rewrite without_absent.
  - cbn. f_equal. apply IH; [done|]. apply elem_of_cons in Hin as [->|Hin]; done.
Qed.

Lemma leaving_ok l : at_ k = Leaving l → step_result c Go s.
Proof using Hs Hc.
  intros Ha. unfold step_result, sstep. rewrite Hc. cbn [deref]. run. rewrite Ha. destruct (locks s !! l) as [x|] eqn:Hl; cbn [deref]; run; [|right; by exists l].
  destruct (so_core _ Hs c k Hc) as [Hn Hi Hnd Hlv _]. pose proof (Hlv l Ha) as Hin. assert (owns k l) as Ho by (by left).
  assert (∀ l', l' ∈ list_difference (held k) [l] ↔ l' ∈ held k ∧ l' ≠ l) as Hd by (intros l'; by rewrite list_elem_of_difference, list_elem_of_singleton).
  apply (smp_ok_move s c k _ l x); [done|done|done| | | | | |].
  - split; cbn; try done.
    + rewrite Hn. unfold pushed. rewrite Ha. cbn. pose proof (length_without (held k) l Hnd Hin). lia.
    + by apply NoDup_list_difference.
    + intros l' [[=]|[=]].
  - intros l' Hne. unfold owns, marked. cbn. rewrite Hd, Ha. naive_solver.
  - unfold owns. cbn. rewrite Hd. naive_solver.
  - intros _. by right.
  - cbn. rewrite (so_cpu _ Hs l x c Hl). unfold marked. cbn. rewrite Hd. naive_solver congruence.
  - done.
Qed.

Lemma left_ok : at_ k = Left → step_result c Go s.
Proof using Hs Hc.
  intros Ha. unfold step_result, sstep. rewrite Hc. cbn [deref]. run. rewrite Ha. destruct (pop_off_ok k (so_core _ Hs c k Hc) Ha) as (p & -> & Hp). run.
  apply (smp_ok_core s c k); [done|done|done|]. intros l'. unfold owns, marked. cbn. rewrite Ha. naive_solver.
Qed.
End Step.

Lemma step_ok c a s : smp_ok s → step_result c a s.
Proof.
  intros Hs. destruct (cores s !! c) as [k|] eqn:Hc; [|unfold step_result, sstep; rewrite Hc; by left].
  destruct a as [l|l| |b], (at_ k) as [|l'|l'|l'|] eqn:Ha; try (by unfold step_result, sstep; rewrite Hc; cbn [deref]; run; rewrite Ha).
  - by eapply acquire_ok.
  - by eapply release_steps.
  - by eapply spin_ok.
  - by eapply taken_ok.
  - by eapply leaving_ok.
  - by eapply left_ok.
  - by eapply setif_ok.
Qed.

(** ** Runs *)

(** [n] CPUs with interrupts on, and [m] locks after [initlock]. *)
Definition core0 : core := Core (Cpu true 0 false) Run [] true.
Definition smp0 (n m : nat) : smp := Smp (repeat core0 n) (list_to_map ((λ l, (l, initlock)) <$> seq 0 m)).

Definition smp_run (n m : nat) : smp → Prop := rtc (λ s s', ∃ c a, sstep c a s = Done s') (smp0 n m).

Lemma smp0_core n m c k : cores (smp0 n m) !! c = Some k → k = core0.
Proof. intros Hk. cbn in Hk. by apply list_elem_of_lookup_2, list_elem_of_In, repeat_spec in Hk. Qed.

Lemma smp0_ok n m : smp_ok (smp0 n m).
Proof.
  assert (∀ l, ¬ owns core0 l) as Hno by (intros l [H|H]; [by apply not_elem_of_nil in H|done]). split.
  - intros c k ->%smp0_core. split; try done; [apply NoDup_nil_2|]. intros l [[=]|[=]].
  - intros l c c' k k' ->%smp0_core _ Ho _. by apply Hno in Ho.
  - intros l x c k _ ->%smp0_core Ho. by apply Hno in Ho.
  - intros l x c Hx. cbn in Hx. apply elem_of_list_to_map_2, list_elem_of_fmap in Hx as (l' & [= -> ->] & _). split; [done|]. intros (k & ->%smp0_core & Hm). destruct (Hno l'). left. apply Hm.
Qed.

Lemma smp_run_ok n m s : smp_run n m s → smp_ok s.
Proof.
  intros Hr. unfold smp_run in Hr. remember (smp0 n m) as s0 eqn:E. assert (smp_ok s0) as H0 by (subst; apply smp0_ok). clear E. induction Hr as [|s1 s2 s3 (c & a & E) _ IH]; [done|]. apply IH.
  pose proof (step_ok c a s1 H0) as H. unfold step_result in H. by rewrite E in H.
Qed.

(** C9: on any number of CPUs that take and give back locks in any interleaving:
    no two CPUs have a lock at once; who has one has interrupts off; who has none
    has interrupts as it left them; and the only panics are taking a lock twice
    and giving back a lock one does not have. *)
Theorem spinlock_safe n m s c k : smp_run n m s → cores s !! c = Some k →
  (∀ l c' k', l ∈ held k → cores s !! c' = Some k' → l ∈ held k' → c' = c) ∧
  (held k ≠ [] → ifl (cp k) = false) ∧
  (held k = [] → at_ k = Run → ifl (cp k) = want k) ∧
  (∀ a w, sstep c a s = Panic w → ∃ l, a = Acquire l ∧ l ∈ held k ∨ a = Release l ∧ l ∉ held k).
Proof.
  intros Hr Hc. pose proof (smp_run_ok n m s Hr) as Hs. destruct (so_core _ Hs c k Hc) as [Hn Hi _ _ _]. split_and!.
  - intros l c' k' H1 H2 H3. apply (so_one _ Hs l c' c k' k); [done|done|by left|by left].
  - intros Hh. assert (noff (cp k) ≠ 0) as Hne. { rewrite Hn. unfold pushed. destruct (held k); [done|]. cbn. destruct (at_ k); lia. } rewrite (proj2 (Z.eqb_neq _ _) Hne) in Hi. apply Hi.
  - intros Hh Ha. unfold pushed in Hn. rewrite Hh, Ha in Hn. cbn in Hn. by rewrite Hn in Hi.
  - intros a w E. pose proof (step_ok c a s Hs) as H. unfold step_result in H. rewrite E in H. destruct H as (k' & l & Hk' & H). exists l. assert (k' = k) as -> by congruence. exact H.
Qed.

(** Two CPUs want one lock, and one has it. *)
Definition two_cpus : list (nat * sact) := [(0%nat, Acquire 0); (1%nat, Acquire 0); (0%nat, Go); (0%nat, Go); (1%nat, Go)].

Fixpoint srun (l : list (nat * sact)) (s : smp) : outcome smp :=
  match l with [] => mret s | (c, a) :: l => s ← sstep c a s; srun l s end.

Lemma srun_rtc l s s' : srun l s = Done s' → rtc (λ s s', ∃ c a, sstep c a s = Done s') s s'.
Proof.
  revert s. induction l as [|[c a] l IH]; intros s; cbn [srun]; [intros [= <-]; apply rtc_refl|]. destruct (sstep c a s) as [s1| | |] eqn:E; run; try done. intros E2. apply rtc_l with s1; [by exists c, a|by apply IH].
Qed.

Lemma spinlock_safe_witness : ∃ s k, srun two_cpus (smp0 2 1) = Done s ∧ cores s !! 0%nat = Some k ∧ held k = [0%nat] ∧ ifl (cp k) = false.
Proof.
  destruct (srun two_cpus (smp0 2 1)) as [s| | |] eqn:E; try (vm_compute in E; discriminate E). pose proof (srun_rtc _ _ _ E) as Hr. destruct (cores s !! 0%nat) as [k|] eqn:Hk; [|vm_compute in E; injection E as <-; discriminate Hk].
  assert (held k = [0%nat]) as Hh by (vm_compute in E; injection E as <-; vm_compute in Hk; injection Hk as <-; reflexivity).
  exists s, k. split; [reflexivity|]. split; [exact Hk|]. split; [exact Hh|]. destruct (spinlock_safe 2 1 s 0 k Hr Hk) as (_ & H & _). apply H. rewrite Hh. discriminate.
Defined.
