(* ===== verification/Block.v ===== *)
(** [Block]: the block layer (kernel/block/blk-core.c, bio.c) and the request queues
    of the disk driver (the part of kernel/ide.c above the device registers).

    A call of [submit_bio_wait] has a bio, which becomes a request on the queue of
    its disk.  A channel serves the queues of its disks one request at a time: who
    finds the channel idle runs it until the queues are empty, also for others.
    Each call is cut where it gives up a lock, and [bstep] runs one section.

    The queues are the pointers of list.h.  A sector transfer is its effect on the
    medium, or an error of the device, which the step is told. *)
From Stdlib Require Import ZArith Lia.
From stdpp Require Import numbers strings gmap list sets.
From S2P Require Import Prelude ListHead.
Open Scope Z_scope.

Definition BLOCK_SECTOR_SIZE : Z := 512.
Definition SECTOR_SHIFT : Z := 9.
Definition REQ_OP_READ : Z := 0.
Definition REQ_OP_WRITE : Z := 1.
Definition REQ_OP_MASK : Z := 0xff.
Definition BLK_STS_OK : Z := 0.
Definition BLK_STS_IOERR : Z := 1.
Definition BLK_STS_NOTSUPP : Z := 2.

(** [struct bio]; [bi_disk] is an index into the disks, [bi_data] the bytes of the
    buffer.  [bi_end_io] is always that of [submit_bio_wait] during a call. *)
Record bio := Bio {
  bi_disk : option nat;
  bi_sector : Z;
  bi_size : Z;
  bi_opf : Z;
  bi_data : option (list Z);
  bi_status : Z
}.

Definition with_status (st : Z) (b : bio) : bio := Bio (bi_disk b) (bi_sector b) (bi_size b) (bi_opf b) (bi_data b) st.
Definition with_bytes (l : option (list Z)) (b : bio) : bio := Bio (bi_disk b) (bi_sector b) (bi_size b) (bi_opf b) l (bi_status b).

Definition zero_bio : bio := Bio None 0 0 0 None BLK_STS_OK.
(** [mem] says whether there is memory. *)
Definition bio_alloc (mem : bool) : option bio := if mem then Some zero_bio else None.
Definition bio_set_dev (d : nat) (b : bio) : bio := Bio (Some d) (bi_sector b) (bi_size b) (bi_opf b) (bi_data b) (bi_status b).
Definition bio_set_op_attrs (op : Z) (b : bio) : bio := Bio (bi_disk b) (bi_sector b) (bi_size b) (Z.land op REQ_OP_MASK) (bi_data b) (bi_status b).

(** A disk with its [gendisk] and its queue; [d_make] says that the queue has a
    [make_request_fn], [d_sectors] is what the disk itself reported. *)
Record disk := Disk { capacity : Z; d_make : bool; d_chan : nat; d_sectors : Z }.

Record chan := Chan { busy : bool; cur_rq : option nat }.

(** The heads of the queues and the nodes of the requests; a request has the
    number of the call it was made for. *)
Inductive qnode := QHead (d : nat) | QReq (r : nat).
#[export] Instance qnode_eq_dec : EqDecision qnode.
Proof. solve_decision. Defined.
#[export] Instance qnode_countable : Countable qnode.
Proof. refine (inj_countable' (λ n, match n with QHead d => inl d | QReq r => inr r end) (λ s, match s with inl d => QHead d | inr r => QReq r end) _). by intros []. Defined.

(** Where a call is: before [submit_bio]; at the head of the loop of [ide_run] for
    channel [c]; transferring request [r], with [togo] bytes left, [pos] done;
    having finished it with a status; about to complete it; waiting for its own
    bio, awake or asleep; returned. *)
Inductive bpc :=
| BSubmit
| BRun (c : nat)
| BExec (c r : nat) (sec togo pos : Z)
| BDone (c r : nat) (st : Z)
| BComplete (c r : nat) (st : Z)
| BWait
| BSleep
| BRet (ret : Z).

(** A call of [submit_bio_wait]: its bio, the [done] of its [bio_waiter], and
    whether its request is allocated. *)
Record call := Call { c_bio : bio; c_done : bool; c_live : bool; c_pc : bpc }.

(** [accepted], [picked] and [ended] are the calls whose request was queued, was
    taken from its queue, and whose bio was ended, in order; they are not part
    of the program. *)
Record blk := Blk {
  calls : list call;
  qs : gmap qnode (list_head qnode);
  disks : list disk;
  chans : list chan;
  media : gmap (nat * Z) (list Z);
  accepted : list nat;
  picked : list nat;
  ended : list nat
}.

Definition with_calls (x : list call) (s : blk) : blk := Blk x (qs s) (disks s) (chans s) (media s) (accepted s) (picked s) (ended s).
Definition with_qs (x : gmap qnode (list_head qnode)) (s : blk) : blk := Blk (calls s) x (disks s) (chans s) (media s) (accepted s) (picked s) (ended s).
Definition with_chans (x : list chan) (s : blk) : blk := Blk (calls s) (qs s) (disks s) x (media s) (accepted s) (picked s) (ended s).
Definition with_media (x : gmap (nat * Z) (list Z)) (s : blk) : blk := Blk (calls s) (qs s) (disks s) (chans s) x (accepted s) (picked s) (ended s).
Definition with_hist (a p e : list nat) (s : blk) : blk := Blk (calls s) (qs s) (disks s) (chans s) (media s) a p e.

Definition get_call (i : nat) (s : blk) : outcome call := deref (calls s !! i).
Definition set_call (i : nat) (c : call) (s : blk) : blk := with_calls (<[i := c]> (calls s)) s.
Definition goto (i : nat) (pc : bpc) (s : blk) : outcome blk :=
  c ← get_call i s; mret (set_call i (Call (c_bio c) (c_done c) (c_live c) pc) s).

(** ** The queue of a disk *)

Definition blk_queue_push (d r : nat) (s : blk) : outcome blk :=
  h ← list_add_tail (QReq r) (QHead d) (qs s); mret (with_qs h s).

Definition blk_queue_peek (d : nat) (s : blk) : outcome (option nat) :=
  e ← list_empty (QHead d) (qs s);
  if e : bool then mret None
  else n ← list_first_entry (QHead d) (qs s); match n with QReq r => mret (Some r) | QHead _ => Wild end.

Definition blk_queue_pop (d : nat) (s : blk) : outcome (option nat * blk) :=
  o ← blk_queue_peek d s;
  match o with
  | None => mret (None, s)
  | Some r => h ← list_del (QReq r) (qs s); mret (Some r, with_qs h s)
  end.

(** ** Completion *)

(** [bio_wait_end_io]: sets [done] and wakes the call that waits. *)
Definition bio_wait_end_io (i : nat) (s : blk) : outcome blk :=
  c ← get_call i s;
  let pc := match c_pc c with BSleep => BWait | pc => pc end in
  mret (with_hist (accepted s) (picked s) (ended s ++ [i]) (set_call i (Call (c_bio c) true (c_live c) pc) s)).

(** [bio->bi_status = st; bio->bi_end_io(bio)] *)
Definition end_bio (i : nat) (st : Z) (s : blk) : outcome blk :=
  c ← get_call i s;
  bio_wait_end_io i (set_call i (Call (with_status st (c_bio c)) (c_done c) (c_live c) (c_pc c)) s).

(** A request that is freed twice would corrupt the heap. *)
Definition blk_free_request (r : nat) (s : blk) : outcome blk :=
  c ← get_call r s;
  if c_live c then mret (set_call r (Call (c_bio c) (c_done c) false (c_pc c)) s) else Wild.

Definition ide_complete_rq (r : nat) (st : Z) (s : blk) : outcome blk :=
  s ← end_bio r st s; blk_free_request r s.

(** ** Submission *)

(** [blk_alloc_request]; [mem] says whether there is memory. *)
Definition blk_alloc_request (r : nat) (s : blk) : outcome blk :=
  c ← get_call r s;
  mret (with_qs (INIT_LIST_HEAD (QReq r) (qs s)) (set_call r (Call (c_bio c) (c_done c) true (c_pc c)) s)).

(** [ide_submit_bio]: the channel that the caller has to run, if any. *)
Definition ide_submit_bio (d i : nat) (mem : bool) (s : blk) : outcome (option nat * blk) :=
  dk ← deref (disks s !! d);
  if negb mem then s ← end_bio i BLK_STS_IOERR s; mret (None, s)
  else
    s ← blk_alloc_request i s;
    c ← get_call i s;
    let s := set_call i (Call (with_status BLK_STS_OK (c_bio c)) (c_done c) (c_live c) (c_pc c)) s in
    s ← blk_queue_push d i s;
    let s := with_hist (accepted s ++ [i]) (picked s) (ended s) s in
    ch ← deref (chans s !! d_chan dk);
    if busy ch then mret (None, s)
    else mret (Some (d_chan dk), with_chans (<[d_chan dk := Chan true (cur_rq ch)]> (chans s)) s).

(** Why [submit_bio] refuses a bio, or the disk it goes to. *)
Definition check_bio (b : bio) (s : blk) : Z + nat :=
  match bi_disk b with
  | None => inl BLK_STS_NOTSUPP
  | Some d =>
      match disks s !! d with
      | None => inl BLK_STS_NOTSUPP
      | Some dk =>
          if negb (d_make dk) then inl BLK_STS_NOTSUPP
          else if bool_decide (bi_data b = None) || (bi_size b =? 0) || negb (Z.land (bi_size b) (BLOCK_SECTOR_SIZE - 1) =? 0) then inl BLK_STS_IOERR
          else if capacity dk <? u32 (bi_sector b + Z.shiftr (bi_size b) SECTOR_SHIFT) then inl BLK_STS_IOERR
          else inr d
      end
  end.

Definition submit_bio (i : nat) (mem : bool) (s : blk) : outcome (option nat * blk) :=
  c ← get_call i s;
  match check_bio (c_bio c) s with
  | inl st => s ← end_bio i st s; mret (None, s)
  | inr d => ide_submit_bio d i mem s
  end.

(** ** The runner of a channel *)

(** [ide_chan_pick], from disk [d] on. *)
Fixpoint chan_pick (c : nat) (ds : list disk) (d : nat) (s : blk) : outcome (option nat * blk) :=
  match ds with
  | [] => mret (None, s)
  | dk :: ds =>
      if (d_chan dk =? c)%nat then
        '(o, s) ← blk_queue_pop d s;
        match o with Some r => mret (Some r, s) | None => chan_pick c ds (S d) s end
      else chan_pick c ds (S d) s
  end.

Definition ide_chan_pick (c : nat) (s : blk) : outcome (option nat * blk) := chan_pick c (disks s) 0 s.

(** [ide_read] and [ide_write] of one sector, with [hw] for the device. *)
Definition sector_ok (dk : disk) (lba : Z) (hw : bool) : bool :=
  negb (negb (d_sectors dk =? 0) && (d_sectors dk <=? lba)) && hw.
Definition sector_at (m : gmap (nat * Z) (list Z)) (d : nat) (lba : Z) : list Z := default (repeat 0 (Z.to_nat BLOCK_SECTOR_SIZE)) (m !! (d, lba)).

Definition slice (l : list Z) (pos : Z) : list Z := take (Z.to_nat BLOCK_SECTOR_SIZE) (drop (Z.to_nat pos) l).
Definition splice (l : list Z) (pos : Z) (x : list Z) : list Z := take (Z.to_nat pos) l ++ x ++ drop (Z.to_nat pos + length x) l.

(** One round of the loop of [ide_execute_rq]. *)
Definition ide_execute (c r : nat) (sec togo pos : Z) (hw : bool) (s : blk) : outcome (bpc * blk) :=
  k ← get_call r s;
  d ← deref (bi_disk (c_bio k));
  dk ← deref (disks s !! d);
  p ← deref (bi_data (c_bio k));
  if togo <? BLOCK_SECTOR_SIZE then mret (BDone c r (if togo =? 0 then BLK_STS_OK else BLK_STS_IOERR), s)
  else if negb (sector_ok dk sec hw) then mret (BDone c r BLK_STS_IOERR, s)
  else
    let s := if Z.land (bi_opf (c_bio k)) REQ_OP_MASK =? REQ_OP_WRITE then with_media (<[(d, sec) := slice p pos]> (media s)) s
             else set_call r (Call (with_bytes (Some (splice p pos (sector_at (media s) d sec))) (c_bio k)) (c_done k) (c_live k) (c_pc k)) s in
    mret (BExec c r (u32 (sec + 1)) (togo - BLOCK_SECTOR_SIZE) (pos + BLOCK_SECTOR_SIZE), s).

Definition set_cur (c : nat) (b : bool) (r : option nat) (s : blk) : outcome blk :=
  _ ← deref (chans s !! c); mret (with_chans (<[c := Chan b r]> (chans s)) s).

(** ** The next section of call [i]

    [ok] is what the allocator or the device answers where one is asked. *)
Definition bstep (i : nat) (ok : bool) (s : blk) : outcome blk :=
  k ← get_call i s;
  match c_pc k with
  | BSubmit => '(o, s) ← submit_bio i ok s; goto i (match o with Some c => BRun c | None => BWait end) s
  | BRun c =>
      '(o, s) ← ide_chan_pick c s;
      match o with
      | None => s ← set_cur c false None s; goto i BWait s
      | Some r =>
          s ← set_cur c true (Some r) s;
          b ← get_call r s;
          goto i (BExec c r (bi_sector (c_bio b)) (bi_size (c_bio b)) 0) (with_hist (accepted s) (picked s ++ [r]) (ended s) s)
      end
  | BExec c r sec togo pos => '(pc, s) ← ide_execute c r sec togo pos ok s; goto i pc s
  | BDone c r st => s ← set_cur c true None s; goto i (BComplete c r st) s
  | BComplete c r st => s ← ide_complete_rq r st s; goto i (BRun c) s
  | BWait =>
      if c_done k then goto i (BRet (if bi_status (c_bio k) =? BLK_STS_OK then 0 else -1)) s else goto i BSleep s
  | BSleep | BRet _ => mret s
  end.

(** A new call of [submit_bio_wait]. *)
Definition new_call (b : bio) (s : blk) : blk := with_calls (calls s ++ [Call b false false BSubmit]) s.

(** ** One sector, by a call that is alone *)

(** What [blkdev_read_sect] and [blkdev_write_sect] store into a bio. *)
Definition sect_bio (op : Z) (d : nat) (sector : Z) (buf : list Z) (b : bio) : bio :=
  let b := bio_set_op_attrs op (bio_set_dev d b) in Bio (bi_disk b) sector BLOCK_SECTOR_SIZE (bi_opf b) (Some buf) (bi_status b).
Definition read_bio (d : nat) (sector : Z) (buf : list Z) : bio := sect_bio REQ_OP_READ d sector buf zero_bio.
Definition write_bio (d : nat) (sector : Z) (buf : list Z) : bio := sect_bio REQ_OP_WRITE d sector buf zero_bio.

Fixpoint alone (fuel i : nat) (ok : bool) (s : blk) : outcome (Z * blk) :=
  match fuel with
  | O => NoFuel
  | S fuel => k ← get_call i s; match c_pc k with BRet r => mret (r, s) | _ => s ← bstep i ok s; alone fuel i ok s end
  end.

Definition submit_bio_wait (b : bio) (ok : bool) (s : blk) : outcome (Z * option (list Z) * blk) :=
  let i := length (calls s) in
  '(r, s) ← alone 20 i ok (new_call b s);
  k ← get_call i s;
  mret (r, bi_data (c_bio k), s).

(** The outcome, the buffer and the state; [mem] is for [bio_alloc]. *)
Definition blkdev_sect (op : Z) (d : nat) (sector : Z) (buf : list Z) (mem ok : bool) (s : blk) : outcome (Z * option (list Z) * blk) :=
  match bio_alloc mem with
  | None => mret (-1, Some buf, s)
  | Some b => submit_bio_wait (sect_bio op d sector buf b) ok s
  end.
Definition blkdev_read_sect := blkdev_sect REQ_OP_READ.
Definition blkdev_write_sect := blkdev_sect REQ_OP_WRITE.
