(* ===== verification/BlockSpec.v ===== *)
(** [BlockSpec]: the invariant of the block layer.  Every queue is the part of the
    accepted requests of its disk that was not yet taken; a channel is busy
    exactly if one call runs it, and the queues of a channel that is not busy are
    empty. *)
From Stdlib Require Import ZArith Lia.
From stdpp Require Import numbers strings gmap list sets.
From S2P Require Import Prelude ListHead Block.
Open Scope Z_scope.

(** What the invariant needs to know of a call. *)
Record cv := Cv { v_disk : option nat; v_data : bool; v_size : Z; v_done : bool; v_live : bool; v_pc : bpc }.

Definition cv_of (c : call) : cv := Cv (bi_disk (c_bio c)) (bool_decide (bi_data (c_bio c) ≠ None)) (bi_size (c_bio c)) (c_done c) (c_live c) (c_pc c).
Definition view (s : blk) (i : nat) : option cv := cv_of <$> calls s !! i.

Definition vput (V : nat → option cv) (i : nat) (v : cv) : nat → option cv := λ j, if decide (j = i) then Some v else V j.
Definition at_pc (pc : bpc) (v : cv) : cv := Cv (v_disk v) (v_data v) (v_size v) (v_done v) (v_live v) pc.

(** The channel a call runs, and the request it has in its hands. *)
Definition runs (pc : bpc) : option nat := match pc with BRun c | BExec c _ _ _ _ | BDone c _ _ | BComplete c _ _ => Some c | _ => None end.
Definition hand (pc : bpc) : option nat := match pc with BExec _ r _ _ _ | BDone _ r _ | BComplete _ r _ => Some r | _ => None end.

Definition on (V : nat → option cv) (d i : nat) : bool := match V i with Some v => bool_decide (v_disk v = Some d) | None => false end.

Notation of_disk V d l := (filter (λ i, Is_true (on V d i)) l).

Record bok (V : nat → option cv) (Q : nat → list nat) (dk : list disk) (ch : list chan) (ac pk en : list nat) : Prop := {
  b_chan d x : dk !! d = Some x → (d_chan x < length ch)%nat;
  b_ac_nodup : NoDup ac;
  b_en_nodup : NoDup en;
  b_q d : (d < length dk)%nat → of_disk V d ac = of_disk V d pk ++ Q d;
  b_ac i : i ∈ ac → ∃ v d, V i = Some v ∧ v_disk v = Some d ∧ (d < length dk)%nat ∧ v_data v = true;
  b_pk i : i ∈ pk → i ∈ ac;
  b_new i v : V i = Some v → v_pc v = BSubmit → i ∉ ac ∧ i ∉ en;
  b_old i v : V i = Some v → v_pc v ≠ BSubmit → i ∈ ac ∨ i ∈ en;
  b_en i : i ∈ en → is_Some (V i);
  b_over i : i ∈ en → i ∈ ac → i ∈ pk;
  b_done i v : V i = Some v → v_done v = true ↔ i ∈ en;
  b_live i v : V i = Some v → v_live v = true ↔ i ∈ ac ∧ i ∉ en;
  b_held i : i ∈ pk → i ∉ en → ∃ j v, V j = Some v ∧ hand (v_pc v) = Some i;
  b_hand j v i : V j = Some v → hand (v_pc v) = Some i → i ∈ pk ∧ i ∉ en ∧ ∃ d x, on V d i = true ∧ dk !! d = Some x ∧ runs (v_pc v) = Some (d_chan x);
  b_run j v c : V j = Some v → runs (v_pc v) = Some c → ∃ x, ch !! c = Some x ∧ busy x = true;
  b_one j j' v v' c : V j = Some v → V j' = Some v' → runs (v_pc v) = Some c → runs (v_pc v') = Some c → j = j';
  b_busy c x : ch !! c = Some x → busy x = true → ∃ j v, V j = Some v ∧ runs (v_pc v) = Some c;
  b_idle c x d y : ch !! c = Some x → busy x = false → dk !! d = Some y → d_chan y = c → Q d = [];
  b_sleep i v : V i = Some v → v_pc v = BSleep → v_done v = false;
  b_ret i v r : V i = Some v → v_pc v = BRet r → v_done v = true
}.

(** The pointers hold the queues; a request that was taken is alone. *)
Definition queues (h : gmap qnode (list_head qnode)) (Q : nat → list nat) (n : nat) (pk : list nat) : Prop :=
  ∃ L, repr h L ∧ (∀ d, (d < n)%nat → L !! QHead d = Some (QReq <$> Q d)) ∧
    ∀ x xs, L !! x = Some xs → (∃ d, x = QHead d ∧ (d < n)%nat) ∨ ∃ r, x = QReq r ∧ xs = [] ∧ r ∈ pk.

Definition blk_ok (s : blk) (Q : nat → list nat) : Prop :=
  bok (view s) Q (disks s) (chans s) (accepted s) (picked s) (ended s) ∧ queues (qs s) Q (length (disks s)) (picked s).

Definition qput (Q : nat → list nat) (d : nat) (l : list nat) : nat → list nat := λ d', if decide (d' = d) then l else Q d'.

(** ** Queues *)

Lemma queues_push h Q n pk d r : queues h Q n pk → (d < n)%nat → r ∉ pk → (∀ d', (d' < n)%nat → r ∉ Q d') →
  ∃ h', list_add_tail (QReq r) (QHead d) (INIT_LIST_HEAD (QReq r) h) = Done h' ∧ queues h' (qput Q d (Q d ++ [r])) n pk.
Proof.
  intros (L & HR & HQ & HL) Hd Hpk Hq. assert (repr (INIT_LIST_HEAD (QReq r) h) (<[QReq r := []]> L)) as HR1.
  { apply INIT_LIST_HEAD_repr; [done|]. left. intros x xs Hx Hin. destruct (HL x xs Hx) as [(d' & -> & Hd')|(r' & -> & -> & Hr')]; apply elem_of_cons in Hin as [E|Hin].
    - discriminate E.
    - rewrite (HQ d' Hd') in Hx. injection Hx as <-. apply list_elem_of_fmap in Hin as (r' & [= <-] & Hin). by apply (Hq d').
    - injection E as <-. by apply Hpk.
    - by apply not_elem_of_nil in Hin. }
  destruct (list_add_tail_spec _ (<[QReq r := []]> L) (QHead d) (QReq <$> Q d) (QReq r) HR1) as (h' & E & HR'); [by rewrite lookup_insert_ne; [apply HQ|]|by rewrite lookup_insert_eq|done|].
  exists h'. split; [exact E|]. eexists. split; [exact HR'|]. split.
  - intros d' Hd'. unfold qput. case_decide as Hc.
    + subst d'. by rewrite lookup_insert_eq, fmap_app.
    + rewrite lookup_insert_ne by congruence. rewrite lookup_delete_ne by done. rewrite lookup_insert_ne by done. by apply HQ.
  - intros x xs Hx. destruct (decide (x = QHead d)) as [->|Hne]; [left; by exists d|]. rewrite lookup_insert_ne in Hx by done. apply lookup_delete_Some in Hx as [Hne' Hx]. rewrite lookup_insert_ne in Hx by done. by apply (HL x xs).
Qed.

Lemma queues_empty h Q n pk d : queues h Q n pk → (d < n)%nat → list_empty (QHead d) h = Done (bool_decide (Q d = [])).
Proof.
  intros (L & HR & HQ & _) Hd. rewrite (list_empty_spec _ _ _ _ HR (HQ d Hd)). f_equal. apply bool_decide_ext. destruct (Q d); naive_solver.
Qed.

Lemma queues_pop h Q n pk d r rest : queues h Q n pk → (d < n)%nat → Q d = r :: rest →
  list_first_entry (QHead d) h = Done (QReq r) ∧ ∃ h', list_del (QReq r) h = Done h' ∧ queues h' (qput Q d rest) n (pk ++ [r]).
Proof.
  intros (L & HR & HQ & HL) Hd Hq. pose proof (HQ d Hd) as Hh. rewrite Hq in Hh. cbn [fmap list_fmap] in Hh. split; [by apply (list_first_entry_spec _ _ _ _ _ HR Hh)|].
  destruct (list_del_spec h L (QHead d) [] (QReq r) (QReq <$> rest) HR Hh) as (h' & E & HR'). exists h'. split; [exact E|]. eexists. split; [exact HR'|]. split.
  - intros d' Hd'. rewrite lookup_insert_ne by done. unfold qput. case_decide as Hc; [subst d'; by rewrite lookup_insert_eq|]. rewrite lookup_insert_ne by congruence. by apply HQ.
  - intros x xs Hx. destruct (decide (x = QReq r)) as [->|Hne].
    { rewrite lookup_insert_eq in Hx. injection Hx as <-. right. exists r. split; [done|]. split; [done|]. apply elem_of_app. right. by apply list_elem_of_singleton. }
    rewrite lookup_insert_ne in Hx by done. destruct (decide (x = QHead d)) as [->|Hne']; [left; by exists d|]. rewrite lookup_insert_ne in Hx by done.
    destruct (HL x xs Hx) as [H|(r' & -> & -> & Hr')]; [by left|right]. exists r'. split; [done|]. split; [done|]. apply elem_of_app. by left.
Qed.

(** ** Changes of the calls *)

Lemma vput_Some V i v j w : vput V i v j = Some w → (j = i ∧ w = v) ∨ (j ≠ i ∧ V j = Some w).
Proof. unfold vput. case_decide; [left|right]; by simplify_eq. Qed.
Lemma vput_eq V i v : vput V i v i = Some v.
Proof. unfold vput. by rewrite decide_True. Qed.
Lemma vput_ne V i v j : j ≠ i → vput V i v j = V j.
Proof. intros. unfold vput. by rewrite decide_False. Qed.

Lemma on_vput V i v w d j : V i = Some v → v_disk w = v_disk v → on (vput V i w) d j = on V d j.
Proof. intros Hi Hd. unfold on, vput. case_decide; [subst; by rewrite Hi, Hd|done]. Qed.

Lemma of_disk_ext V V' d (l : list nat) : (∀ j, on V' d j = on V d j) → of_disk V' d l = of_disk V d l.
Proof. intros H. apply list_filter_iff. intros j. by rewrite H. Qed.

Section Change.
Context (V : nat → option cv) (Q : nat → list nat) (dk : list disk) (ch : list chan) (ac pk en : list nat).
Context (H : bok V Q dk ch ac pk en).

(** What is in a queue was accepted, was not taken, and is not over. *)
Lemma queued d i : (d < length dk)%nat → i ∈ Q d → i ∈ ac ∧ i ∉ pk ∧ on V d i = true.
Proof using H.
  intros Hd Hi. pose proof (b_q _ _ _ _ _ _ _ H d Hd) as E. assert (i ∈ of_disk V d ac) as Hin by (rewrite E; apply elem_of_app; by right). apply list_elem_of_filter in Hin as [Ho%Is_true_eq_true Hac].
  split; [done|]. split; [|done]. intros Hpk. assert (NoDup (of_disk V d ac)) as Hnd by (apply NoDup_filter, (b_ac_nodup _ _ _ _ _ _ _ H)). rewrite E in Hnd. apply NoDup_app in Hnd as (_ & Hdis & _).
  apply (Hdis i); [|done]. apply list_elem_of_filter. split; [by apply Is_true_eq_left|done].
Qed.

(** A request that was accepted and is not over waits in its queue or is in
    somebody's hands. *)
Lemma accepted_where i : i ∈ ac → i ∉ en → (∃ d, (d < length dk)%nat ∧ i ∈ Q d) ∨ ∃ j v, V j = Some v ∧ hand (v_pc v) = Some i.
Proof using H.
  intros Hac Hen. destruct (b_ac _ _ _ _ _ _ _ H i Hac) as (v & d & Hv & Hdisk & Hd & _). assert (i ∈ of_disk V d ac) as Hin.
  { apply list_elem_of_filter. split; [|done]. unfold on. rewrite Hv. by apply Is_true_eq_left, bool_decide_eq_true. }
  rewrite (b_q _ _ _ _ _ _ _ H d Hd) in Hin. apply elem_of_app in Hin as [Hin|Hin]; [|left; by exists d]. apply list_elem_of_filter in Hin as [_ Hpk]. right. by apply (b_held _ _ _ _ _ _ _ H).
Qed.

(** A call goes on, with the same channel and the same request. *)
Lemma bok_goto i v pc : V i = Some v → v_pc v ≠ BSubmit → pc ≠ BSubmit → hand pc = hand (v_pc v) → runs pc = runs (v_pc v) →
  (pc = BSleep → v_done v = false) → (∀ r, pc = BRet r → v_done v = true) → bok (vput V i (at_pc pc v)) Q dk ch ac pk en.
Proof using H.
  intros Hi Hn1 Hn2 Hh Hr Hs Ht. assert (∀ j w, vput V i (at_pc pc v) j = Some w → ∃ w0, V j = Some w0 ∧ v_disk w = v_disk w0 ∧ v_data w = v_data w0 ∧ v_done w = v_done w0 ∧ v_live w = v_live w0 ∧
    hand (v_pc w) = hand (v_pc w0) ∧ runs (v_pc w) = runs (v_pc w0) ∧ (v_pc w = BSubmit ↔ v_pc w0 = BSubmit)) as Hback.
  { intros j w [[-> ->]|[_ Hw]]%vput_Some; [exists v|exists w]; cbn; naive_solver. }
  assert (∀ j w0, V j = Some w0 → ∃ w, vput V i (at_pc pc v) j = Some w ∧ v_disk w = v_disk w0 ∧ v_data w = v_data w0 ∧ hand (v_pc w) = hand (v_pc w0) ∧ runs (v_pc w) = runs (v_pc w0)) as Hfwd.
  { intros j w0 Hw. destruct (decide (j = i)) as [->|Hne]; [exists (at_pc pc v); rewrite vput_eq|exists w0; rewrite vput_ne by done]; naive_solver. }
  assert (∀ d j, on (vput V i (at_pc pc v)) d j = on V d j) as Hon by (intros; by eapply on_vput).
  destruct H. split; try done.
  - intros d Hd. rewrite !(of_disk_ext V (vput V i (at_pc pc v))) by auto. by apply b_q0.
  - intros j Hj. destruct (b_ac0 j Hj) as (w0 & d & Hw & Hx). destruct (Hfwd j w0 Hw) as (w & E & E1 & E2 & _). exists w, d. by rewrite E1, E2.
  - intros j w Hw Hp. destruct (Hback j w Hw) as (w0 & E & _ & _ & _ & _ & _ & _ & Hx). by apply (b_new0 j w0 E), Hx.
  - intros j w Hw Hp. destruct (Hback j w Hw) as (w0 & E & _ & _ & _ & _ & _ & _ & Hx). apply (b_old0 j w0 E). tauto.
  - intros j Hj. destruct (b_en0 j Hj) as [w0 Hw]. destruct (Hfwd j w0 Hw) as (w & E & _). by exists w.
  - intros j w Hw. destruct (Hback j w Hw) as (w0 & E & _ & _ & -> & _). by apply b_done0.
  - intros j w Hw. destruct (Hback j w Hw) as (w0 & E & _ & _ & _ & -> & _). by apply b_live0.
  - intros j H1 H2. destruct (b_held0 j H1 H2) as (j' & w0 & Hw & Hx). destruct (Hfwd j' w0 Hw) as (w & E & _ & _ & E3 & _). exists j', w. by rewrite E3.
  - intros j w r Hw Hx. destruct (Hback j w Hw) as (w0 & E & _ & _ & _ & _ & E1 & E2 & _). rewrite E1 in Hx. destruct (b_hand0 j w0 r E Hx) as (? & ? & d & x & ? & ? & ?). do 2 (split; [done|]). exists d, x. by rewrite Hon, E2.
  - intros j w c Hw Hx. destruct (Hback j w Hw) as (w0 & E & _ & _ & _ & _ & _ & E2 & _). rewrite E2 in Hx. by apply (b_run0 j w0).
  - intros j j' w w' c Hw Hw' Hx Hx'. destruct (Hback j w Hw) as (w0 & E & _ & _ & _ & _ & _ & E2 & _), (Hback j' w' Hw') as (w0' & E' & _ & _ & _ & _ & _ & E2' & _). rewrite E2 in Hx. rewrite E2' in Hx'. by apply (b_one0 j j' w0 w0' c).
  - intros c x Hx Hb. destruct (b_busy0 c x Hx Hb) as (j & w0 & Hw & Hy). destruct (Hfwd j w0 Hw) as (w & E & _ & _ & _ & E4). exists j, w. by rewrite E4.
  - intros j w Hw Hp. apply vput_Some in Hw as [[-> ->]|[_ Hw]]; [by apply Hs|by apply (b_sleep0 j)].
  - intros j w r Hw Hp. apply vput_Some in Hw as [[-> ->]|[_ Hw]]; [by apply (Ht r)|by apply (b_ret0 j w r)].
Qed.

(** The channels but for their current requests. *)
Lemma bok_chans ch' : length ch' = length ch → (∀ c x, ch' !! c = Some x → ∃ y, ch !! c = Some y ∧ busy y = busy x) → bok V Q dk ch' ac pk en.
Proof using H.
  intros Hlen Hb. assert (∀ c y, ch !! c = Some y → ∃ x, ch' !! c = Some x ∧ busy y = busy x) as Hf.
  { intros c y Hy. destruct (lookup_lt_is_Some_2 ch' c) as [x Hx]; [rewrite Hlen; by eapply lookup_lt_Some|]. exists x. split; [done|]. destruct (Hb c x Hx) as (y' & Hy' & E). congruence. }
  destruct H. split; try done.
  - intros d x Hx. rewrite Hlen. by eapply b_chan0.
  - intros j v c Hv Hr. destruct (b_run0 j v c Hv Hr) as (y & Hy & Hby). destruct (Hf c y Hy) as (x & Hx & E). exists x. split; [done|congruence].
  - intros c x Hx Hbx. destruct (Hb c x Hx) as (y & Hy & E). apply (b_busy0 c y); congruence.
  - intros c x d y Hx Hbx. destruct (Hb c x Hx) as (z & Hz & E). apply (b_idle0 c z d y); congruence.
Qed.
End Change.

(** Splits on whether a call is the one that changed. *)
Ltac vs Hw := apply vput_Some in Hw as [[-> ->]|[? Hw]].

Lemma not_in_snoc (i j : nat) l : j ∉ l → j ≠ i → j ∉ l ++ [i].
Proof. intros H1 H2 H3. apply elem_of_app in H3 as [H3|H3]; [done|]. by apply list_elem_of_singleton in H3. Qed.
Lemma in_snoc_old (i j : nat) l : j ∈ l → j ∈ l ++ [i].
Proof. intros. apply elem_of_app. by left. Qed.
Lemma in_snoc_new (i : nat) l : i ∈ l ++ [i].
Proof. apply elem_of_app. right. by apply list_elem_of_singleton. Qed.
Lemma in_snoc_inv (i j : nat) l : j ∈ l ++ [i] → j ∈ l ∨ j = i.
Proof. intros Hj. apply elem_of_app in Hj as [Hj|Hj]; [by left|right]. by apply list_elem_of_singleton in Hj. Qed.
Lemma NoDup_snoc (i : nat) l : NoDup l → i ∉ l → NoDup (l ++ [i]).
Proof. intros Hl Hi. apply NoDup_app. split; [done|]. split; [|apply NoDup_singleton]. intros x Hx Hx'. apply list_elem_of_singleton in Hx'. by subst. Qed.
#[local] Hint Resolve not_in_snoc in_snoc_old in_snoc_new NoDup_snoc : blk.

Section Moves.
Context (V : nat → option cv) (Q : nat → list nat) (dk : list disk) (ch : list chan) (ac pk en : list nat).
Context (H : bok V Q dk ch ac pk en).

(** A bio is refused. *)
Lemma bok_refuse i v : V i = Some v → v_pc v = BSubmit → bok (vput V i (Cv (v_disk v) (v_data v) (v_size v) true (v_live v) BWait)) Q dk ch ac pk (en ++ [i]).
Proof using H.
  intros Hi Hp. destruct (b_new _ _ _ _ _ _ _ H i v Hi Hp) as [Hac Hen]. set (w := Cv _ _ _ _ _ _).
  assert (∀ d j, on (vput V i w) d j = on V d j) as Hon by (intros; by eapply on_vput).
  assert (∀ j u, V j = Some u → (hand (v_pc u) ≠ None ∨ runs (v_pc u) ≠ None) → j ≠ i) as Hother by (intros j u Hu Hx ->; rewrite Hi in Hu; injection Hu as <-; rewrite Hp in Hx; cbn in Hx; tauto).
  assert (∀ j, j ∈ ac → j ≠ i) as Hai by (intros j Hj ->; done).
  destruct H. split; try done.
  - auto with blk.
  - intros d Hd. rewrite !(of_disk_ext V (vput V i w)) by auto. by apply b_q0.
  - intros j Hj. destruct (b_ac0 j Hj) as (u & d & Hu & Hx). exists u, d. rewrite vput_ne by auto. done.
  - intros j u Hu Hx. vs Hu; [done|]. destruct (b_new0 j u Hu Hx). auto with blk.
  - intros j u Hu Hx. vs Hu; [auto with blk|]. destruct (b_old0 j u Hu Hx); auto with blk.
  - intros j Hj. apply in_snoc_inv in Hj as [Hj| ->]; [|rewrite vput_eq; by eexists]. destruct (decide (j = i)) as [->|Hne]; [by rewrite vput_eq|]. rewrite vput_ne by done. auto.
  - intros j Hj Hx. apply in_snoc_inv in Hj as [Hj| ->]; [by apply b_over0|done].
  - intros j u Hu. vs Hu; [split; auto with blk|]. rewrite (b_done0 j u Hu). split; [auto with blk|]. intros Hj. by apply in_snoc_inv in Hj as [Hj| ->].
  - intros j u Hu. vs Hu; [cbn; rewrite (b_live0 i v Hi); tauto|]. rewrite (b_live0 j u Hu). split; [intros [? ?]; auto with blk|]. intros [? Hx]. split; [done|]. intros Hy. by apply Hx, in_snoc_old.
  - intros j Hj Hx. destruct (b_held0 j Hj) as (j' & u & Hu & Hy); [intros Hy; by apply Hx, in_snoc_old|]. exists j', u. rewrite vput_ne; [done|]. apply (Hother j' u Hu). left. congruence.
  - intros j u r Hu Hx. vs Hu; [done|]. destruct (b_hand0 j u r Hu Hx) as (Hr & Hr' & d & x & ? & ? & ?). split; [done|]. split; [apply not_in_snoc; auto|]. exists d, x. by rewrite Hon.
  - intros j u c Hu Hx. vs Hu; [done|]. by apply (b_run0 j u).
  - intros j j' u u' c Hu Hu' Hx Hx'. vs Hu; [done|]. vs Hu'; [done|]. by apply (b_one0 j j' u u' c).
  - intros c x Hx Hb. destruct (b_busy0 c x Hx Hb) as (j & u & Hu & Hy). exists j, u. rewrite vput_ne; [done|]. apply (Hother j u Hu). right. congruence.
  - intros j u Hu Hx. vs Hu; [done|]. by apply (b_sleep0 j).
  - intros j u r Hu Hx. vs Hu; [done|]. by apply (b_ret0 j u r).
Qed.

(** A request goes to the queue of disk [d], whose channel is or becomes busy. *)
Lemma bok_accept i v d x pc ch' : V i = Some v → v_pc v = BSubmit → v_disk v = Some d → v_data v = true → dk !! d = Some x →
  length ch' = length ch → (∀ c y, ch' !! c = Some y → c ≠ d_chan x → ch !! c = Some y) → (∀ y, ch' !! d_chan x = Some y → busy y = true) →
  (pc = BWait ∧ (∃ y, ch !! d_chan x = Some y ∧ busy y = true) ∨ pc = BRun (d_chan x) ∧ ∃ y, ch !! d_chan x = Some y ∧ busy y = false) →
  bok (vput V i (Cv (v_disk v) (v_data v) (v_size v) (v_done v) true pc)) (qput Q d (Q d ++ [i])) dk ch' (ac ++ [i]) pk en.
Proof using H.
  intros Hi Hp Hdisk Hdata Hd Hlen Hch Hbusy Hpc. destruct (b_new _ _ _ _ _ _ _ H i v Hi Hp) as [Hac Hen]. set (w := Cv _ _ _ _ _ _).
  assert (∀ d' j, on (vput V i w) d' j = on V d' j) as Hon by (intros; by eapply on_vput).
  assert (∀ j u, V j = Some u → (hand (v_pc u) ≠ None ∨ runs (v_pc u) ≠ None) → j ≠ i) as Hother by (intros j u Hu Hx ->; rewrite Hi in Hu; injection Hu as <-; rewrite Hp in Hx; cbn in Hx; tauto).
  assert (∀ j, j ∈ ac → j ≠ i) as Hai by (intros j Hj ->; done). assert (hand pc = None ∧ pc ≠ BSubmit ∧ pc ≠ BSleep ∧ ∀ r, pc ≠ BRet r) as (Hpc1 & Hpc2 & Hpc3 & Hpc4) by (destruct Hpc as [[-> _]|[-> _]]; done).
  assert (∀ c y, ch !! c = Some y → ∃ y', ch' !! c = Some y' ∧ (busy y = true → busy y' = true)) as Hgrow.
  { intros c y Hy. destruct (lookup_lt_is_Some_2 ch' c) as [y' Hy']; [rewrite Hlen; by eapply lookup_lt_Some|]. exists y'. split; [done|]. destruct (decide (c = d_chan x)) as [->|Hne]; [intros _; by apply Hbusy|]. rewrite (Hch c y' Hy' Hne) in Hy. congruence. }
  assert (d < length dk)%nat as Hdl by (by eapply lookup_lt_Some). assert (∀ c, runs pc = Some c → c = d_chan x ∧ ∃ y, ch !! c = Some y ∧ busy y = false) as Hrun by (destruct Hpc as [[-> _]|[-> Hf]]; [done|]; intros c [= <-]; done).
  destruct H. split; try done.
  - intros d' x' Hx'. rewrite Hlen. by eapply b_chan0.
  - auto with blk.
  - intros d' Hd'. rewrite !(of_disk_ext V (vput V i w)) by auto. rewrite filter_app, (b_q0 d' Hd'), <- app_assoc. f_equal. unfold qput. assert (on V d' i = bool_decide (d' = d)) as E.
    { unfold on. rewrite Hi, Hdisk. apply bool_decide_ext. naive_solver. }
    unfold filter, list_filter. rewrite E. case_decide as Hc; [subst; rewrite bool_decide_eq_true_2 by done; done|]. rewrite bool_decide_eq_false_2 by done. cbn. apply app_nil_r.
  - intros j Hj. apply in_snoc_inv in Hj as [Hj| ->]; [|exists w, d; by rewrite vput_eq]. destruct (b_ac0 j Hj) as (u & d' & Hu & Hx). exists u, d'. rewrite vput_ne by auto. done.
  - auto with blk.
  - intros j u Hu Hx. vs Hu; [done|]. destruct (b_new0 j u Hu Hx). auto with blk.
  - intros j u Hu Hx. vs Hu; [auto with blk|]. destruct (b_old0 j u Hu Hx); auto with blk.
  - intros j Hj. destruct (decide (j = i)) as [->|Hne]; [by rewrite vput_eq|]. rewrite vput_ne by done. auto.
  - intros j Hj Hx. apply in_snoc_inv in Hx as [Hx| ->]; [by apply b_over0|done].
  - intros j u Hu. vs Hu; [cbn; by apply b_done0|by apply b_done0].
  - intros j u Hu. vs Hu; [cbn; split; auto with blk|]. rewrite (b_live0 j u Hu). split; [intros [? ?]; auto with blk|]. intros [Hx ?]. by apply in_snoc_inv in Hx as [Hx| ->].
  - intros j Hj Hx. destruct (b_held0 j Hj Hx) as (j' & u & Hu & Hy). exists j', u. rewrite vput_ne; [done|]. apply (Hother j' u Hu). left. congruence.
  - intros j u r Hu Hx. vs Hu; [cbn in Hx; congruence|]. destruct (b_hand0 j u r Hu Hx) as (Hr & Hr' & d' & x' & ? & ? & ?). do 2 (split; [done|]). exists d', x'. by rewrite Hon.
  - intros j u c Hu Hx. vs Hu.
    + cbn in Hx. destruct (Hrun c Hx) as (-> & y & Hy & _). destruct (Hgrow _ y Hy) as (y' & Hy' & _). exists y'. split; [done|by apply Hbusy].
    + destruct (b_run0 j u c Hu Hx) as (y & Hy & Hb). destruct (Hgrow c y Hy) as (y' & Hy' & Hb'). exists y'. auto.
  - assert (∀ j u c, V j = Some u → runs (v_pc u) = Some c → runs pc = Some c → False) as Hno. { intros j u c Hu Hx Hx'. destruct (Hrun c Hx') as (-> & y & Hy & Hb). destruct (b_run0 j u _ Hu Hx) as (y' & Hy' & Hb'). congruence. }
    intros j j' u u' c Hu Hu' Hx Hx'. vs Hu; vs Hu'; [done| | |by apply (b_one0 j j' u u' c)]; cbn in *; exfalso; eauto.
  - intros c y Hy Hb. destruct (decide (c = d_chan x)) as [->|Hne].
    + destruct Hpc as [[-> (y' & Hy' & Hb')]|[-> _]]; [|exists i, w; by rewrite vput_eq]. destruct (b_busy0 _ y' Hy' Hb') as (j & u & Hu & Hz). exists j, u. rewrite vput_ne; [done|]. apply (Hother j u Hu). right. congruence.
    + destruct (b_busy0 c y (Hch c y Hy Hne) Hb) as (j & u & Hu & Hz). exists j, u. rewrite vput_ne; [done|]. apply (Hother j u Hu). right. congruence.
  - intros c y d' x' Hy Hb Hd' Hc. destruct (decide (c = d_chan x)) as [->|Hne]; [by rewrite (Hbusy y Hy) in Hb|]. unfold qput. rewrite decide_False; [by apply (b_idle0 c y d' x'); auto|]. intros ->. congruence.
  - intros j u Hu Hx. vs Hu; [done|]. by apply (b_sleep0 j).
  - intros j u r Hu Hx. vs Hu; [by apply Hpc4 in Hx|]. by apply (b_ret0 j u r).
Qed.
End Moves.

Section Moves2.
Context (V : nat → option cv) (Q : nat → list nat) (dk : list disk) (ch : list chan) (ac pk en : list nat).
Context (H : bok V Q dk ch ac pk en).

(** The runner of a channel finds nothing more to do. *)
Lemma bok_stop i v c r : V i = Some v → v_pc v = BRun c → (∀ d x, dk !! d = Some x → d_chan x = c → Q d = []) →
  bok (vput V i (at_pc BWait v)) Q dk (<[c := Chan false r]> ch) ac pk en.
Proof using H.
  intros Hi Hp Hq. set (w := at_pc BWait v). assert (∀ d' j, on (vput V i w) d' j = on V d' j) as Hon by (intros; by eapply on_vput).
  destruct (b_run _ _ _ _ _ _ _ H i v c Hi) as (y0 & Hy0 & _); [by rewrite Hp|]. pose proof (lookup_lt_Some _ _ _ Hy0) as Hlt.
  assert (∀ j u, V j = Some u → hand (v_pc u) ≠ None → j ≠ i) as Hother by (intros j u Hu Hx ->; rewrite Hi in Hu; injection Hu as <-; by rewrite Hp in Hx).
  assert (∀ j u c', j ≠ i → V j = Some u → runs (v_pc u) = Some c' → c' ≠ c) as Hruns by (intros j u c' Hne Hu Hx ->; apply Hne, (b_one _ _ _ _ _ _ _ H j i u v c); [done|done|done|by rewrite Hp]).
  destruct H. split; try done.
  - intros d' x' Hx'. rewrite length_insert. by eapply b_chan0.
  - intros d Hd. rewrite !(of_disk_ext V (vput V i w)) by auto. by apply b_q0.
  - intros j Hj. destruct (b_ac0 j Hj) as (u & d & Hu & Hx). destruct (decide (j = i)) as [->|Hne]; [|exists u, d; by rewrite vput_ne]. exists w, d. rewrite vput_eq. rewrite Hi in Hu. injection Hu as <-. done.
  - intros j u Hu Hx. vs Hu; [done|]. by apply (b_new0 j u).
  - intros j u Hu Hx. vs Hu; [|by apply (b_old0 j u)]. apply (b_old0 i v Hi). by rewrite Hp.
  - intros j Hj. destruct (decide (j = i)) as [->|Hne]; [by rewrite vput_eq|]. rewrite vput_ne by done. auto.
  - intros j u Hu. vs Hu; [cbn|]; by apply b_done0.
  - intros j u Hu. vs Hu; [cbn|]; by apply b_live0.
  - intros j Hj Hx. destruct (b_held0 j Hj Hx) as (j' & u & Hu & Hy). exists j', u. rewrite vput_ne; [done|]. apply (Hother j' u Hu). congruence.
  - intros j u r' Hu Hx. vs Hu; [done|]. destruct (b_hand0 j u r' Hu Hx) as (Hr & Hr' & d' & x' & ? & ? & ?). do 2 (split; [done|]). exists d', x'. by rewrite Hon.
  - intros j u c' Hu Hx. vs Hu; [done|]. rewrite list_lookup_insert_ne; [by apply (b_run0 j u)|]. by apply not_eq_sym, (Hruns j u).
  - intros j j' u u' c' Hu Hu' Hx Hx'. vs Hu; [done|]. vs Hu'; [done|]. by apply (b_one0 j j' u u' c').
  - intros c' x Hx Hb. destruct (decide (c' = c)) as [->|Hne]; [rewrite list_lookup_insert_eq in Hx by done; by injection Hx as <-|]. rewrite list_lookup_insert_ne in Hx by done.
    destruct (b_busy0 c' x Hx Hb) as (j & u & Hu & Hy). exists j, u. rewrite vput_ne; [done|]. intros ->. rewrite Hi in Hu. injection Hu as <-. rewrite Hp in Hy. injection Hy as <-. done.
  - intros c' x d y Hx Hb Hd Hc. destruct (decide (c' = c)) as [->|Hne]; [by apply (Hq d y)|]. rewrite list_lookup_insert_ne in Hx by done. by apply (b_idle0 c' x d y).
  - intros j u Hu Hx. vs Hu; [done|]. by apply (b_sleep0 j).
  - intros j u r' Hu Hx. vs Hu; [done|]. by apply (b_ret0 j u r').
Qed.

(** It takes the first request of a queue. *)
Lemma bok_pick i v c d x r rest sec togo pos : V i = Some v → v_pc v = BRun c → dk !! d = Some x → d_chan x = c → Q d = r :: rest →
  bok (vput V i (at_pc (BExec c r sec togo pos) v)) (qput Q d rest) dk ch ac (pk ++ [r]) en.
Proof using H.
  intros Hi Hp Hd Hc Hq. set (w := at_pc _ v). assert (∀ d' j, on (vput V i w) d' j = on V d' j) as Hon by (intros; by eapply on_vput).
  assert (d < length dk)%nat as Hdl by (by eapply lookup_lt_Some). assert (r ∈ Q d) as Hrq by (rewrite Hq; apply elem_of_cons; by left). destruct (queued _ _ _ _ _ _ _ H d r Hdl Hrq) as (Hrac & Hrpk & Hron).
  assert (r ∉ en) as Hren by (intros Hen; by apply Hrpk, (b_over _ _ _ _ _ _ _ H)).
  assert (∀ j u, V j = Some u → hand (v_pc u) ≠ None → j ≠ i) as Hother by (intros j u Hu Hx ->; rewrite Hi in Hu; injection Hu as <-; by rewrite Hp in Hx).
  assert (∀ j u, V j = Some u → ∃ u', vput V i w j = Some u' ∧ v_disk u' = v_disk u ∧ v_data u' = v_data u ∧ runs (v_pc u') = runs (v_pc u)) as Hfwd.
  { intros j u Hu. destruct (decide (j = i)) as [->|Hne]; [exists w; rewrite vput_eq; rewrite Hi in Hu; injection Hu as <-; by rewrite Hp|exists u; by rewrite vput_ne]. }
  destruct H. split; try done.
  - intros d' Hd'. rewrite !(of_disk_ext V (vput V i w)) by auto. rewrite filter_app, (b_q0 d' Hd'). unfold qput. case_decide as Hd0.
    + subst d'. rewrite Hq, <- app_assoc. f_equal. unfold filter, list_filter. by rewrite Hron.
    + rewrite <- app_assoc. f_equal. assert (on V d' r = false) as E; [|unfold filter, list_filter; by rewrite E]. unfold on in *. destruct (V r); [|done]. apply bool_decide_eq_true in Hron. apply bool_decide_eq_false. congruence.
  - intros j Hj. destruct (b_ac0 j Hj) as (u & d' & Hu & Hx). destruct (Hfwd j u Hu) as (u' & Hu' & E1 & E2 & _). exists u', d'. by rewrite E1, E2.
  - intros j Hj. apply in_snoc_inv in Hj as [Hj| ->]; auto.
  - intros j u Hu Hx. vs Hu; [done|]. by apply (b_new0 j u).
  - intros j u Hu Hx. vs Hu; [|by apply (b_old0 j u)]. apply (b_old0 i v Hi). by rewrite Hp.
  - intros j Hj. destruct (b_en0 j Hj) as [u Hu]. destruct (Hfwd j u Hu) as (u' & Hu' & _). by exists u'.
  - intros j Hj Hx. apply in_snoc_old. by apply b_over0.
  - intros j u Hu. vs Hu; [cbn|]; by apply b_done0.
  - intros j u Hu. vs Hu; [cbn|]; by apply b_live0.
  - intros j Hj Hx. apply in_snoc_inv in Hj as [Hj| ->]; [|exists i, w; by rewrite vput_eq]. destruct (b_held0 j Hj Hx) as (j' & u & Hu & Hy). exists j', u. rewrite vput_ne; [done|]. apply (Hother j' u Hu). congruence.
  - intros j u r' Hu Hx. vs Hu.
    + injection Hx as <-. split; [auto with blk|]. split; [done|]. exists d, x. rewrite Hon. subst c. done.
    + destruct (b_hand0 j u r' Hu Hx) as (Hr & Hr' & d' & x' & ? & ? & ?). split; [auto with blk|]. split; [done|]. exists d', x'. by rewrite Hon.
  - intros j u c' Hu Hx. vs Hu; [|by apply (b_run0 j u)]. apply (b_run0 i v); [done|]. by rewrite Hp.
  - assert (∀ j u, vput V i w j = Some u → ∃ u0, V j = Some u0 ∧ runs (v_pc u0) = runs (v_pc u)) as Hback by (intros j u Hu; vs Hu; [exists v; by rewrite Hp|by exists u]).
    intros j j' u u' c' Hu Hu' Hx Hx'. destruct (Hback j u Hu) as (u0 & E0 & E1), (Hback j' u' Hu') as (u0' & E0' & E1'). apply (b_one0 j j' u0 u0' c'); congruence.
  - intros c' y Hy Hb. destruct (b_busy0 c' y Hy Hb) as (j & u & Hu & Hz). destruct (Hfwd j u Hu) as (u' & Hu' & _ & _ & E). exists j, u'. by rewrite E.
  - intros c' y d' z Hy Hb Hz Hcz. unfold qput. case_decide as Hd0; [|by apply (b_idle0 c' y d' z)]. subst d'. rewrite Hd in Hz. injection Hz as <-. rewrite (b_idle0 c' y d x Hy Hb Hd Hcz) in Hq. done.
  - intros j u Hu Hx. vs Hu; [done|]. by apply (b_sleep0 j).
  - intros j u r' Hu Hx. vs Hu; [done|]. by apply (b_ret0 j u r').
Qed.

(** The bio of request [r] is over; its runner [i] goes on. *)
Lemma bok_complete i v c r st vr V' : V i = Some v → v_pc v = BComplete c r st → V r = Some vr →
  (∀ j, V' j = if decide (j = i) then Some (Cv (v_disk v) (v_data v) (v_size v) (if decide (i = r) then true else v_done v) (if decide (i = r) then false else v_live v) (BRun c))
              else if decide (j = r) then Some (Cv (v_disk vr) (v_data vr) (v_size vr) true false (match v_pc vr with BSleep => BWait | pc => pc end)) else V j) →
  bok V' Q dk ch ac pk (en ++ [r]).
Proof using H.
  intros Hi Hp Hr HV. destruct (b_hand _ _ _ _ _ _ _ H i v r Hi) as (Hrpk & Hren & d & x & Hon0 & Hd & Hrun); [by rewrite Hp|]. pose proof (b_pk _ _ _ _ _ _ _ H r Hrpk) as Hrac.
  assert (∀ j u, V j = Some u → ∃ u', V' j = Some u' ∧ v_disk u' = v_disk u ∧ v_data u' = v_data u ∧ v_done u' = (if decide (j = r) then true else v_done u) ∧ v_live u' = (if decide (j = r) then false else v_live u) ∧
    runs (v_pc u') = runs (v_pc u) ∧ hand (v_pc u') = (if decide (j = i) then None else hand (v_pc u)) ∧ (v_pc u' = BSubmit → v_pc u = BSubmit) ∧ (v_pc u = BSubmit → v_pc u' = BSubmit) ∧ (v_pc u' = BSleep → v_pc u = BSleep ∧ j ≠ r) ∧ (∀ z, v_pc u' = BRet z → v_pc u = BRet z)) as Hfwd.
  { intros j u Hu. rewrite HV. destruct (decide (j = i)) as [->|Hji].
    - rewrite Hi in Hu. injection Hu as <-. eexists. split; [reflexivity|]. cbn. rewrite Hp. cbn. by destruct (decide (i = r)).
    - destruct (decide (j = r)) as [->|Hjr]; [|exists u; split; [done|]; naive_solver]. rewrite Hr in Hu. injection Hu as <-. eexists. split; [reflexivity|]. cbn. destruct (v_pc vr); naive_solver. }
  assert (∀ j u', V' j = Some u' → is_Some (V j)) as Hback by (intros j u'; rewrite HV; destruct (decide (j = i)) as [->|]; [by exists v|]; destruct (decide (j = r)) as [->|]; [by exists vr|]; by exists u').
  assert (∀ d' j, on V' d' j = on V d' j) as Hon. { intros d' j. unfold on. destruct (V j) as [u|] eqn:Hu; [destruct (Hfwd j u Hu) as (u' & -> & -> & _); done|]. destruct (V' j) eqn:E; [|done]. destruct (Hback j _ E). congruence. }
  assert (∀ j u', V' j = Some u' → ∃ u, V j = Some u ∧ v_done u' = (if decide (j = r) then true else v_done u) ∧ v_live u' = (if decide (j = r) then false else v_live u) ∧
    runs (v_pc u') = runs (v_pc u) ∧ hand (v_pc u') = (if decide (j = i) then None else hand (v_pc u)) ∧ (v_pc u' = BSubmit → v_pc u = BSubmit) ∧ (v_pc u = BSubmit → v_pc u' = BSubmit) ∧ (v_pc u' = BSleep → v_pc u = BSleep ∧ j ≠ r) ∧ (∀ z, v_pc u' = BRet z → v_pc u = BRet z)) as Hold.
  { intros j u' Hu'. destruct (Hback j u' Hu') as [u Hu]. exists u. destruct (Hfwd j u Hu) as (u2 & Hu2 & _ & _ & Hx). assert (u2 = u') as -> by congruence. done. }
  clear Hback HV. destruct H. split; try done.
  - auto with blk.
  - intros d' Hd'. rewrite !(of_disk_ext V V') by auto. by apply b_q0.
  - intros j Hj. destruct (b_ac0 j Hj) as (u & d' & Hu & Hx). destruct (Hfwd j u Hu) as (u' & Hu' & E1 & E2 & _). exists u', d'. by rewrite E1, E2.
  - intros j u' Hu' Hx. destruct (Hold j u' Hu') as (u & Hu & _ & _ & _ & _ & Hs & _). destruct (b_new0 j u Hu (Hs Hx)). split; [done|]. apply not_in_snoc; [done|]. by intros ->.
  - intros j u' Hu' Hx. destruct (Hold j u' Hu') as (u & Hu & _ & _ & _ & _ & _ & Hs & _). destruct (b_old0 j u Hu) as [Hy|Hy]; [naive_solver|by left|right; auto with blk].
  - intros j Hj. apply in_snoc_inv in Hj as [Hj| ->]; [destruct (b_en0 j Hj) as [u Hu]|rename Hr into Hu]; destruct (Hfwd _ _ Hu) as (u' & Hu' & _); by exists u'.
  - intros j Hj Hx. apply in_snoc_inv in Hj as [Hj| ->]; auto.
  - intros j u' Hu'. destruct (Hold j u' Hu') as (u & Hu & -> & _). destruct (decide (j = r)) as [->|Hne]; [split; auto with blk|]. rewrite (b_done0 j u Hu). split; [auto with blk|]. intros Hj. by apply in_snoc_inv in Hj as [Hj|Hj].
  - intros j u' Hu'. destruct (Hold j u' Hu') as (u & Hu & _ & -> & _). destruct (decide (j = r)) as [->|Hne]; [split; [done|]; intros [_ Hx]; destruct Hx; auto with blk|]. rewrite (b_live0 j u Hu).
    split; intros [? Hx]; (split; [done|]); [auto with blk|]. intros Hy. by apply Hx, in_snoc_old.
  - intros j Hj Hx. assert (j ≠ r) as Hjr by (intros ->; apply Hx; auto with blk). destruct (b_held0 j Hj) as (j' & u & Hu & Hy); [intros Hy; by apply Hx, in_snoc_old|].
    destruct (Hfwd j' u Hu) as (u' & Hu' & _ & _ & _ & _ & _ & Hh & _). exists j', u'. split; [done|]. rewrite Hh. destruct (decide (j' = i)) as [->|]; [|done]. rewrite Hi in Hu. injection Hu as <-. rewrite Hp in Hy. by injection Hy as ->.
  - intros j u' r' Hu' Hx. destruct (Hold j u' Hu') as (u & Hu & _ & _ & E1 & E2 & _). rewrite E2 in Hx. destruct (decide (j = i)) as [|Hji]; [done|]. destruct (b_hand0 j u r' Hu Hx) as (Hr1 & Hr2 & d' & x' & Ho & ? & ?). split; [done|]. split.
    + apply not_in_snoc; [done|]. intros ->. apply Hji. assert (d' = d) as ->. { unfold on in Ho, Hon0. rewrite Hr in Ho, Hon0. apply bool_decide_eq_true in Ho, Hon0. congruence. } apply (b_one0 j i u v (d_chan x)); congruence.
    + exists d', x'. by rewrite Hon, E1.
  - intros j u' c' Hu' Hx. destruct (Hold j u' Hu') as (u & Hu & _ & _ & E1 & _). rewrite E1 in Hx. by apply (b_run0 j u).
  - intros j j' u' w' c' Hu' Hw' Hx Hx'. destruct (Hold j u' Hu') as (u & Hu & _ & _ & E1 & _), (Hold j' w' Hw') as (w & Hw & _ & _ & E2 & _). apply (b_one0 j j' u w c'); congruence.
  - intros c' y Hy Hb. destruct (b_busy0 c' y Hy Hb) as (j & u & Hu & Hz). destruct (Hfwd j u Hu) as (u' & Hu' & _ & _ & _ & _ & E & _). exists j, u'. by rewrite E.
  - intros j u' Hu' Hx. destruct (Hold j u' Hu') as (u & Hu & -> & _ & _ & _ & _ & _ & Hs & _). destruct (Hs Hx) as [Hy Hz]. rewrite decide_False by done. by apply (b_sleep0 j).
  - intros j u' z Hu' Hx. destruct (Hold j u' Hu') as (u & Hu & -> & _ & _ & _ & _ & _ & _ & Hs). destruct (decide (j = r)); [done|]. apply (b_ret0 j u z); auto.
Qed.

(** A new call. *)
Lemma bok_new n b V' : V n = None → (∀ j, V' j = if decide (j = n) then Some (cv_of (Call b false false BSubmit)) else V j) → bok V' Q dk ch ac pk en.
Proof using H.
  intros Hn HV. assert (∀ j u, V j = Some u → V' j = Some u) as Hfwd by (intros j u Hu; rewrite HV, decide_False; [done|]; intros ->; congruence).
  assert (∀ j u, V' j = Some u → (j = n ∧ u = cv_of (Call b false false BSubmit)) ∨ V j = Some u) as Hold by (intros j u; rewrite HV; case_decide; [left; by simplify_eq|by right]).
  assert (n ∉ ac) as Hnac by (intros Hx; destruct (b_ac _ _ _ _ _ _ _ H n Hx) as (u & _ & Hu & _); congruence). assert (n ∉ en) as Hnen by (intros Hx; destruct (b_en _ _ _ _ _ _ _ H n Hx); congruence).
  assert (∀ d (l : list nat), n ∉ l → of_disk V' d l = of_disk V d l) as Hof.
  { intros d l. induction l as [|j l IH]; intros Hl; [done|]. apply not_elem_of_cons in Hl as [Hj Hl]. assert (on V' d j = on V d j) as E by (unfold on; by rewrite HV, decide_False by congruence).
    rewrite !filter_cons, E, (IH Hl). done. }
  destruct H. assert (n ∉ pk) as Hnpk by (intros Hx; by apply Hnac, b_pk0). split; try done.
  - intros d Hd. rewrite !Hof by done. by apply b_q0.
  - intros j Hj. destruct (b_ac0 j Hj) as (u & d & Hu & Hx). exists u, d. auto.
  - intros j u Hu Hx. destruct (Hold j u Hu) as [[-> _]|Hu']; [done|]. by apply (b_new0 j u).
  - intros j u Hu Hx. destruct (Hold j u Hu) as [[-> ->]|Hu']; [done|]. by apply (b_old0 j u).
  - intros j Hj. destruct (b_en0 j Hj) as [u Hu]. exists u. auto.
  - intros j u Hu. destruct (Hold j u Hu) as [[-> ->]|Hu']; [done|]. by apply b_done0.
  - intros j u Hu. destruct (Hold j u Hu) as [[-> ->]|Hu']; [split; [done|by intros [Hx _]]|]. by apply b_live0.
  - intros j Hj Hx. destruct (b_held0 j Hj Hx) as (j' & u & Hu & Hy). exists j', u. auto.
  - intros j u r Hu Hx. destruct (Hold j u Hu) as [[-> ->]|Hu']; [done|]. destruct (b_hand0 j u r Hu' Hx) as (Hr & ? & d & x & Ho & ? & ?). do 2 (split; [done|]). exists d, x. split; [|done]. unfold on. rewrite HV, decide_False; [done|]. intros ->. by apply Hnpk.
  - intros j u c Hu Hx. destruct (Hold j u Hu) as [[-> ->]|Hu']; [done|]. by apply (b_run0 j u).
  - intros j j' u u' c Hu Hu' Hx Hx'. destruct (Hold j u Hu) as [[-> ->]|E], (Hold j' u' Hu') as [[-> ->]|E']; try done. by apply (b_one0 j j' u u' c).
  - intros c x Hx Hb. destruct (b_busy0 c x Hx Hb) as (j & u & Hu & Hy). exists j, u. auto.
  - intros j u Hu Hx. destruct (Hold j u Hu) as [[-> ->]|Hu']; [done|]. by apply (b_sleep0 j).
  - intros j u r Hu Hx. destruct (Hold j u Hu) as [[-> ->]|Hu']; [done|]. by apply (b_ret0 j u r).
Qed.
End Moves2.
