(* ===== verification/BlockSys.v ===== *)
(** [BlockSys]: runs of the block layer.  Any number of calls of
    [submit_bio_wait], in any interleaving of their sections, with any failures of
    the allocator and the devices, keep the invariant of [BlockSpec]; so every
    request is served, once and in order, and nobody waits for ever. *)
From Stdlib Require Import ZArith Lia.
From stdpp Require Import numbers strings gmap list sets.
From S2P Require Import Prelude ListHead Block BlockSpec.
Open Scope Z_scope.

Lemma bok_ext V V' Q dk ch ac pk en : (∀ j, V' j = V j) → bok V Q dk ch ac pk en → bok V' Q dk ch ac pk en.
Proof.
  intros HV H. destruct H.
  assert (∀ d j, on V' d j = on V d j) as Hon by (intros; unfold on; by rewrite HV). split; try done; intros *; rewrite ?HV; eauto.
  - intros Hd. rewrite !(of_disk_ext V V') by auto. auto.
  - intros H1 H2. destruct (b_held i H1 H2) as (j & v & ?). exists j, v. by rewrite HV.
  - intros H1 H2. destruct (b_hand j v i H1 H2) as (? & ? & d & x & ?). do 2 (split; [done|]). exists d, x. by rewrite Hon.
  - intros H1 H2. destruct (b_busy c x H1 H2) as (j & v & ?). exists j, v. by rewrite HV.
Qed.

(** The invariant with the calls given point by point. *)
Definition shows (s : blk) (V : nat → option cv) : Prop := ∀ j, view s j = V j.

Lemma view_set s i c j : (i < length (calls s))%nat → view (set_call i c s) j = vput (view s) i (cv_of c) j.
Proof.
  intros Hi. unfold view, vput. cbn. case_decide as Hd; [subst; by rewrite list_lookup_insert_eq|by rewrite list_lookup_insert_ne].
Qed.

Lemma view_call s i v : view s i = Some v → ∃ c, calls s !! i = Some c ∧ cv_of c = v ∧ (i < length (calls s))%nat.
Proof. unfold view. destruct (calls s !! i) as [c|] eqn:E; [|done]. intros [= <-]. exists c. split; [done|]. split; [done|]. by eapply lookup_lt_Some. Qed.

(** ** What is left to do

    [work] is what a queued request of [n] bytes will still cost, [price] what a
    call at [pc] will, both in sections. *)
Definition sectors (n : Z) : nat := Z.to_nat (n / BLOCK_SECTOR_SIZE).
Definition work (n : Z) : nat := (sectors n + 6)%nat.
Definition price (n : Z) (pc : bpc) : nat :=
  match pc with
  | BSubmit => work n + 4
  | BRun _ => 3
  | BExec _ _ _ togo _ => 8 + sectors togo
  | BDone _ _ _ => 7
  | BComplete _ _ _ => 6
  | BWait => 2
  | BSleep => 1
  | BRet _ => 0
  end%nat.

Definition waits (s : blk) (i : nat) : bool := bool_decide (i ∈ accepted s ∧ i ∉ picked s).
Definition share (s : blk) (i : nat) : nat := match view s i with Some v => price (v_size v) (v_pc v) + (if waits s i then work (v_size v) else 0) | None => 0 end%nat.
Definition total (f : nat → nat) (n : nat) : nat := sum_list_with f (seq 0 n).
Definition cost (s : blk) : nat := total (share s) (length (calls s)).

Lemma total_ext f g n : (∀ j, (j < n)%nat → g j = f j) → total g n = total f n.
Proof.
  unfold total. induction n as [|n IH]; intros Hfg; [done|]. rewrite seq_S, !sum_list_with_app. cbn. rewrite IH by (intros; apply Hfg; lia). rewrite Hfg by lia. done.
Qed.

Lemma total_one f g n i : (i < n)%nat → (∀ j, j ≠ i → g j = f j) → (total g n + f i = total f n + g i)%nat.
Proof.
  unfold total. induction n as [|n IH]; intros Hi Hfg; [lia|]. rewrite seq_S, !sum_list_with_app. cbn. destruct (decide (i = n)) as [->|Hne].
  - pose proof (total_ext f g n) as E. unfold total in E. rewrite E by (intros; apply Hfg; lia). lia.
  - rewrite (Hfg n) by done. specialize (IH ltac:(lia) Hfg). lia.
Qed.

Lemma cost_one s s' i : length (calls s') = length (calls s) → (i < length (calls s))%nat → (∀ j, j ≠ i → share s' j = share s j) → (share s' i < share s i)%nat → (cost s' < cost s)%nat.
Proof. intros Hl Hi Hj Hlt. unfold cost. rewrite Hl. pose proof (total_one (share s) (share s') _ i Hi Hj). lia. Qed.

Lemma cost_two s s' i r : length (calls s') = length (calls s) → (i < length (calls s))%nat → (r < length (calls s))%nat → i ≠ r → (∀ j, j ≠ i → j ≠ r → share s' j = share s j) →
  (share s' i + share s' r < share s i + share s r)%nat → (cost s' < cost s)%nat.
Proof.
  intros Hl Hi Hr Hne Hj Hlt. unfold cost. rewrite Hl. set (g := λ j, if decide (j = i) then share s' i else share s j).
  pose proof (total_one (share s) g _ i Hi) as E1. pose proof (total_one g (share s') _ r Hr) as E2. unfold g in E1 at 2 3, E2 at 2 3. rewrite decide_True in E1 by done. rewrite decide_False in E2 by done.
  assert (total g (length (calls s)) + share s i = total (share s) (length (calls s)) + share s' i)%nat by (apply E1; intros j Hji; unfold g; by rewrite decide_False).
  assert (total (share s') (length (calls s)) + share s r = total g (length (calls s)) + share s' r)%nat by (apply E2; intros j Hjr; unfold g; case_decide; [by subst|by apply Hj]). lia.
Qed.

(** [goto] changes one program counter. *)
Lemma goto_ok s i v pc : view s i = Some v → ∃ s', goto i pc s = Done s' ∧ (∀ j, view s' j = vput (view s) i (at_pc pc v) j) ∧
  qs s' = qs s ∧ disks s' = disks s ∧ chans s' = chans s ∧ length (calls s') = length (calls s) ∧ accepted s' = accepted s ∧ picked s' = picked s ∧ ended s' = ended s.
Proof.
  intros Hv. destruct (view_call s i v Hv) as (c & Hc & <- & Hlt). unfold goto, get_call. rewrite Hc. cbn [deref]. run. eexists. split; [reflexivity|]. split; [|split_and!; try done; apply length_insert]. intros j. by apply view_set.
Qed.

(** [end_bio] ends a bio. *)
Lemma end_bio_ok s i st v : view s i = Some v → ∃ s', end_bio i st s = Done s' ∧
  (∀ j, view s' j = vput (view s) i (Cv (v_disk v) (v_data v) (v_size v) true (v_live v) (match v_pc v with BSleep => BWait | pc => pc end)) j) ∧
  qs s' = qs s ∧ disks s' = disks s ∧ chans s' = chans s ∧ accepted s' = accepted s ∧ picked s' = picked s ∧ ended s' = ended s ++ [i] ∧ length (calls s') = length (calls s).
Proof.
  intros Hv. destruct (view_call s i v Hv) as (c & Hc & <- & Hlt). unfold end_bio, bio_wait_end_io, get_call. rewrite Hc. cbn [deref]. run. cbn [set_call with_calls calls]. rewrite list_lookup_insert_eq by done. cbn [deref]. run.
  eexists. split; [reflexivity|]. split; [|split_and!; try done; cbn; by rewrite !length_insert]. intros j. unfold view. cbn. rewrite list_insert_insert_eq. unfold vput. case_decide as Hd; [subst; by rewrite list_lookup_insert_eq|by rewrite list_lookup_insert_ne].
Qed.

(** ** The sections *)

Lemma set_cur_ok s c x b r : chans s !! c = Some x → set_cur c b r s = Done (with_chans (<[c := Chan b r]> (chans s)) s).
Proof. intros Hc. unfold set_cur. by rewrite Hc. Qed.

Lemma pop_ok s Q d : queues (qs s) Q (length (disks s)) (picked s) → (d < length (disks s))%nat →
  match Q d with
  | [] => blk_queue_pop d s = Done (None, s)
  | r :: rest => ∃ h, blk_queue_pop d s = Done (Some r, with_qs h s) ∧ queues h (qput Q d rest) (length (disks s)) (picked s ++ [r])
  end.
Proof.
  intros Hq Hd. unfold blk_queue_pop, blk_queue_peek. rewrite (queues_empty _ _ _ _ _ Hq Hd). run. destruct (Q d) as [|r rest] eqn:E.
  - by rewrite bool_decide_eq_true_2.
  - rewrite bool_decide_eq_false_2 by done. destruct (queues_pop _ _ _ _ _ _ _ Hq Hd E) as (-> & h & E' & Hq'). run. rewrite E'. run. by exists h.
Qed.

Lemma chan_pick_ok c s Q : queues (qs s) Q (length (disks s)) (picked s) → ∀ ds d, drop d (disks s) = ds →
  (∃ d' x r rest h, chan_pick c ds d s = Done (Some r, with_qs h s) ∧ disks s !! d' = Some x ∧ d_chan x = c ∧ Q d' = r :: rest ∧ queues h (qput Q d' rest) (length (disks s)) (picked s ++ [r])) ∨
  chan_pick c ds d s = Done (None, s) ∧ ∀ d' x, (d ≤ d')%nat → disks s !! d' = Some x → d_chan x = c → Q d' = [].
Proof.
  intros Hq. induction ds as [|dk ds IH]; intros d Hdrop; cbn [chan_pick].
  - right. split; [done|]. intros d' x Hle Hx. apply lookup_lt_Some in Hx. assert (length (drop d (disks s)) = 0)%nat as E by (by rewrite Hdrop). rewrite length_drop in E. lia.
  - assert (disks s !! d = Some dk) as Hd. { pose proof (lookup_drop (disks s) d 0) as E. rewrite Hdrop, Nat.add_0_r in E. by rewrite <- E. }
    assert (drop (S d) (disks s) = ds) as Hdrop' by (rewrite <- Nat.add_1_r, <- drop_drop, Hdrop; done). pose proof (lookup_lt_Some _ _ _ Hd) as Hlt.
    destruct (Nat.eqb_spec (d_chan dk) c) as [Hc|Hc].
    + pose proof (pop_ok s Q d Hq Hlt) as Hp. destruct (Q d) as [|r rest] eqn:E.
      * rewrite Hp. run. destruct (IH (S d) Hdrop') as [Hl|[Hl Hr]]; [by left|right]. split; [done|]. intros d' x Hle Hx Hxc. destruct (decide (d' = d)) as [->|Hne]; [done|]. apply (Hr d' x); [lia|done|done].
      * destruct Hp as (h & Hp & Hq'). rewrite Hp. run. left. exists d, dk, r, rest, h. done.
    + destruct (IH (S d) Hdrop') as [Hl|[Hl Hr]]; [by left|right]. split; [done|]. intros d' x Hle Hx Hxc. destruct (decide (d' = d)) as [->|Hne]; [congruence|]. apply (Hr d' x); [lia|done|done].
Qed.

Lemma vput_twice V i a b j : vput (vput V i a) i b j = vput V i b j.
Proof. unfold vput. by case_decide. Qed.

Lemma check_bio_ok b s d : check_bio b s = inr d → bi_disk b = Some d ∧ bi_data b ≠ None ∧ is_Some (disks s !! d).
Proof.
  unfold check_bio. destruct (bi_disk b) as [d'|]; [|done]. destruct (disks s !! d') as [dk|] eqn:E; [|done]. destruct (negb (d_make dk)); [done|]. case_bool_decide as Hd; [done|]. cbn [orb]. repeat case_match; try done. intros [= <-]. by rewrite E.
Qed.

(** A step forward. *)
Definition goes (s s' : blk) : Prop := disks s' = disks s ∧ length (calls s') = length (calls s) ∧ (cost s' < cost s)%nat.

(** The share of a call that does not change. *)
Lemma share_same s s' j : view s' j = view s j → waits s' j = waits s j → share s' j = share s j.
Proof. unfold share. by intros -> ->. Qed.

Lemma waits_same s s' j : accepted s' = accepted s → picked s' = picked s → waits s' j = waits s j.
Proof. unfold waits. by intros -> ->. Qed.

(** The bio of call [i] ends before it was queued. *)
Lemma refuse_ok s Q i v st : blk_ok s Q → view s i = Some v → v_pc v = BSubmit → ∃ s', (s' ← end_bio i st s; goto i BWait s') = Done s' ∧ blk_ok s' Q ∧ goes s s'.
Proof.
  intros [Hb Hq] Hv Hp. destruct (end_bio_ok s i st v Hv) as (s1 & -> & HV1 & E1 & E2 & E3 & E4 & E5 & E6 & E7). run.
  assert (view s1 i = Some (Cv (v_disk v) (v_data v) (v_size v) true (v_live v) BSubmit)) as Hv1 by (rewrite HV1, vput_eq; by rewrite Hp).
  destruct (goto_ok s1 i _ BWait Hv1) as (s2 & -> & HV2 & F1 & F2 & F3 & F7 & F4 & F5 & F6). exists s2. split; [done|].
  assert (∀ j, waits s2 j = waits s j) as Hw by (intros j; apply waits_same; congruence). destruct (b_new _ _ _ _ _ _ _ Hb i v Hv Hp) as [Hac _].
  split; [|split; [congruence|split; [congruence|]]]; [split|].
  - rewrite F2, E2, F3, E3, F4, E4, F5, E5, F6, E6. eapply bok_ext; [|by apply (bok_refuse _ _ _ _ _ _ _ Hb i v Hv Hp)]. intros j. rewrite HV2. unfold vput at 1 2. case_decide as Hd; [done|]. rewrite HV1. by apply vput_ne.
  - rewrite F1, E1, F2, E2, F5, E5. exact Hq.
  - apply (cost_one s s2 i); [congruence|by destruct (view_call s i v Hv) as (? & _ & _ & ?)| |].
    + intros j Hj. apply share_same; [|done]. rewrite HV2, vput_ne, HV1 by done. by apply vput_ne.
    + unfold share. rewrite Hw, HV2, vput_eq, Hv, Hp. cbn. lia.
Qed.

(** It is queued. *)
Lemma accept_ok s Q i v d : blk_ok s Q → view s i = Some v → v_pc v = BSubmit → v_disk v = Some d → v_data v = true → is_Some (disks s !! d) →
  ∃ o s1 s' Q', ide_submit_bio d i true s = Done (o, s1) ∧ goto i (match o with Some c => BRun c | None => BWait end) s1 = Done s' ∧ blk_ok s' Q' ∧ goes s s'.
Proof.
  intros [Hb Hq] Hv Hp Hdisk Hdata [x Hd]. destruct (view_call s i v Hv) as (c & Hc & Ecv & Hlt). destruct (b_new _ _ _ _ _ _ _ Hb i v Hv Hp) as [Hac Hen].
  assert (d < length (disks s))%nat as Hdl by (by eapply lookup_lt_Some). destruct (queues_push _ _ _ _ d i Hq Hdl) as (h & Eh & Hq').
  { intros Hx. by apply Hac, (b_pk _ _ _ _ _ _ _ Hb). } { intros d' Hd' Hx. by apply Hac, (queued _ _ _ _ _ _ _ Hb d' i Hd' Hx). }
  destruct (lookup_lt_is_Some_2 (chans s) (d_chan x)) as [y Hy]; [by apply (b_chan _ _ _ _ _ _ _ Hb d x)|].
  set (c2 := Call (with_status BLK_STS_OK (c_bio c)) (c_done c) true (c_pc c)). set (s1 := with_hist (accepted s ++ [i]) (picked s) (ended s) (with_qs h (set_call i c2 s))).
  assert (ide_submit_bio d i true s = Done (if busy y then (None, s1) else (Some (d_chan x), with_chans (<[d_chan x := Chan true (cur_rq y)]> (chans s)) s1))) as Esub.
  { unfold ide_submit_bio, blk_alloc_request, blk_queue_push, get_call. rewrite Hd. cbn [deref negb]. run. rewrite Hc. cbn [deref]. run. cbn [with_qs set_call with_calls calls qs]. rewrite list_lookup_insert_eq by done. cbn [deref]. run. cbn [with_calls set_call qs calls].
    rewrite Eh. run. cbn [with_hist with_qs set_call with_calls chans]. rewrite Hy. cbn [deref]. run. unfold s1, c2. destruct (busy y); unfold with_hist, with_chans, with_qs, set_call, with_calls; cbn; by rewrite list_insert_insert_eq. }
  assert (∀ j, view s1 j = vput (view s) i (Cv (v_disk v) (v_data v) (v_size v) (v_done v) true BSubmit) j) as HV1.
  { intros j. change (view s1 j) with (view (set_call i c2 s) j). rewrite view_set by done. unfold cv_of, c2. cbn. rewrite <- Ecv in Hp |- *. cbn in Hp. rewrite Hp. done. }
  assert (∀ ch pc, length ch = length (chans s) → (∀ c y, ch !! c = Some y → c ≠ d_chan x → chans s !! c = Some y) → (∀ y, ch !! d_chan x = Some y → busy y = true) →
    (pc = BWait ∧ (∃ y, chans s !! d_chan x = Some y ∧ busy y = true) ∨ pc = BRun (d_chan x) ∧ ∃ y, chans s !! d_chan x = Some y ∧ busy y = false) →
    ∃ s', goto i pc (with_chans ch s1) = Done s' ∧ blk_ok s' (qput Q d (Q d ++ [i])) ∧ goes s s') as Hgo.
  { intros ch pc H1 H2 H3 H4. assert (view (with_chans ch s1) i = Some (Cv (v_disk v) (v_data v) (v_size v) (v_done v) true BSubmit)) as Hv1 by (change (view (with_chans ch s1) i) with (view s1 i); by rewrite HV1, vput_eq).
    destruct (goto_ok _ i _ pc Hv1) as (s2 & -> & HV2 & F1 & F2 & F3 & F7 & F4 & F5 & F6). exists s2. split; [done|].
    assert (length (calls s2) = length (calls s)) as Hl by (rewrite F7; apply length_insert). split; [|split; [rewrite F2; done|split; [done|]]]; [split|].
    - rewrite F2, F3, F4, F5, F6. eapply bok_ext; [|exact (bok_accept _ _ _ _ _ _ _ Hb i v d x pc ch Hv Hp Hdisk Hdata Hd H1 H2 H3 H4)].
      intros j. rewrite HV2. unfold vput at 1 2. case_decide; [done|]. change (view (with_chans ch s1) j) with (view s1 j). rewrite HV1. by apply vput_ne.
    - rewrite F1, F2, F5. exact Hq'.
    - assert (∀ j, j ≠ i → waits s2 j = waits s j) as Hw.
      { intros j Hj. unfold waits. rewrite F4, F5. apply bool_decide_ext. cbn. split; intros [Hx ?]; (split; [|done]); [by apply in_snoc_inv in Hx as [Hx| ->]|by apply in_snoc_old]. }
      assert (waits s i = false) as Hwi by (apply bool_decide_eq_false; tauto). apply (cost_one s s2 i); [done|done| |].
      + intros j Hj. apply share_same; [|by apply Hw]. rewrite HV2, vput_ne by done. change (view (with_chans ch s1) j) with (view s1 j). rewrite HV1. by apply vput_ne.
      + unfold share. rewrite HV2, vput_eq, Hv, Hp, Hwi. cbn [at_pc v_pc v_size]. destruct H4 as [[-> _]|[-> _]]; cbn [price]; destruct (waits s2 i); lia. }
  destruct (busy y) eqn:Hby.
  - destruct (Hgo (chans s) BWait) as (s' & Hs' & Hok & Hds); [done|done|intros y' Hy'; congruence|left; split; [done|by exists y]|]. exists None, s1, s', (qput Q d (Q d ++ [i])). split; [exact Esub|]. done.
  - destruct (Hgo (<[d_chan x := Chan true (cur_rq y)]> (chans s)) (BRun (d_chan x))) as (s' & Hs' & Hok & Hds).
    + apply length_insert.
    + intros c' y' Hy' Hne. by rewrite list_lookup_insert_ne in Hy'.
    + intros y' Hy'. rewrite list_lookup_insert_eq in Hy' by (by eapply lookup_lt_Some). by injection Hy' as <-.
    + right. split; [done|by exists y].
    + eexists (Some (d_chan x)), _, s', _. split; [exact Esub|]. done.
Qed.

(** A busy channel gets or loses its current request. *)
Lemma still_busy (ch : list chan) c y r c' z : ch !! c = Some y → busy y = true → <[c := Chan true r]> ch !! c' = Some z → ∃ y, ch !! c' = Some y ∧ busy y = busy z.
Proof.
  intros Hy Hb Hz. destruct (decide (c' = c)) as [->|Hne]; [|rewrite list_lookup_insert_ne in Hz by done; by exists z]. rewrite list_lookup_insert_eq in Hz by (by eapply lookup_lt_Some). injection Hz as <-. by exists y.
Qed.

Lemma run_ok s Q i v c : blk_ok s Q → view s i = Some v → v_pc v = BRun c → ∃ s' Q', bstep i true s = Done s' ∧ bstep i false s = Done s' ∧ blk_ok s' Q' ∧ goes s s'.
Proof.
  intros [Hb Hq] Hv Hp. destruct (view_call s i v Hv) as (k & Hk & Ek & Hlt). destruct (b_run _ _ _ _ _ _ _ Hb i v c Hv) as (y & Hy & Hby); [by rewrite Hp|].
  assert (∀ ok, bstep i ok s = '(o, s) ← ide_chan_pick c s; match o with None => s ← set_cur c false None s; goto i BWait s
    | Some r => s ← set_cur c true (Some r) s; b ← get_call r s; goto i (BExec c r (bi_sector (c_bio b)) (bi_size (c_bio b)) 0) (with_hist (accepted s) (picked s ++ [r]) (ended s) s) end) as Eb.
  { intros ok. unfold bstep, get_call. rewrite Hk. cbn [deref]. run. assert (c_pc k = BRun c) as -> by (by rewrite <- Hp, <- Ek). done. }
  rewrite !Eb. clear Eb. unfold ide_chan_pick. destruct (chan_pick_ok c s Q Hq (disks s) 0 eq_refl) as [(d & x & r & rest & h & -> & Hd & Hx & Er & Hq')|[-> Hnone]]; run.
  - assert (d < length (disks s))%nat as Hdl by (by eapply lookup_lt_Some). destruct (queued _ _ _ _ _ _ _ Hb d r Hdl) as (Hrac & Hrpk & _); [rewrite Er; apply elem_of_cons; by left|].
    destruct (b_ac _ _ _ _ _ _ _ Hb r Hrac) as (vr & _ & Hvr & _). destruct (view_call s r vr Hvr) as (kr & Hkr & Ekr & Hltr). rewrite (set_cur_ok (with_qs h s) c y true (Some r) Hy). run. unfold get_call. cbn [with_chans with_qs calls]. rewrite Hkr. cbn [deref]. run.
    set (s1 := with_hist _ _ _ _). destruct (goto_ok s1 i v (BExec c r (bi_sector (c_bio kr)) (bi_size (c_bio kr)) 0) Hv) as (s2 & -> & HV2 & F1 & F2 & F3 & F7 & F4 & F5 & F6). exists s2, (qput Q d rest). do 2 (split; [done|]). split; [|split; [by rewrite F2|split; [by rewrite F7|]]]; [split|].
    + rewrite F2, F3, F4, F5, F6. eapply bok_ext; [exact HV2|]. eapply bok_chans; [exact (bok_pick _ _ _ _ _ _ _ Hb i v c d x r rest _ _ _ Hv Hp Hd Hx Er)| |].
      * apply length_insert.
      * intros c' z Hz. exact (still_busy _ c y _ c' z Hy Hby Hz).
    + rewrite F1, F2, F5. exact Hq'.
    + assert (∀ j, j ≠ r → waits s2 j = waits s j) as Hw.
      { intros j Hj. unfold waits. rewrite F4, F5. apply bool_decide_ext. cbn. split; intros [? Hn]; (split; [done|]); [intros Hy'; by apply Hn, in_snoc_old|by apply not_in_snoc]. }
      assert (waits s r = true) as Hwr by (by apply bool_decide_eq_true). assert (waits s2 r = false) as Hwr'. { apply bool_decide_eq_false. rewrite F5. cbn. intros [_ Hn]. apply Hn, in_snoc_new. }
      assert (∀ j, view s1 j = view s j) as HVs by done. assert (bi_size (c_bio kr) = v_size vr) as Esz by (by rewrite <- Ekr). destruct (decide (i = r)) as [<-|Hir].
      * assert (vr = v) as -> by congruence. apply (cost_one s s2 i); [by rewrite F7|done| |].
        -- intros j Hj. apply share_same; [|by apply Hw]. rewrite HV2. by apply vput_ne.
        -- unfold share. rewrite HV2, vput_eq, Hv, Hp, Hwr, Hwr'. cbn. rewrite Esz. unfold work. lia.
      * apply (cost_two s s2 i r); [by rewrite F7|done|done|done| |].
        -- intros j Hj Hj'. apply share_same; [|by apply Hw]. rewrite HV2. by apply vput_ne.
        -- unfold share. rewrite HV2, vput_eq, HV2, vput_ne, HVs, Hv, Hvr, Hp, Hwr, Hwr' by done. rewrite (Hw i) by done. cbn. rewrite Esz. unfold work. destruct (waits s i); lia.
  - rewrite (set_cur_ok s c y false None Hy). run. set (s1 := with_chans _ s). destruct (goto_ok s1 i v BWait Hv) as (s2 & -> & HV2 & F1 & F2 & F3 & F7 & F4 & F5 & F6). exists s2, Q. do 2 (split; [done|]).
    assert (∀ j, waits s2 j = waits s j) as Hw by (intros j; by apply waits_same). split; [|split; [by rewrite F2|split; [by rewrite F7|]]]; [split|].
    + rewrite F2, F3, F4, F5, F6. eapply bok_ext; [exact HV2|]. apply (bok_stop _ _ _ _ _ _ _ Hb i v c None Hv Hp). intros d x Hd Hx. by apply (Hnone d x); [lia| |].
    + rewrite F1, F2, F5. exact Hq.
    + apply (cost_one s s2 i); [by rewrite F7|done| |].
      * intros j Hj. apply share_same; [|done]. rewrite HV2. by apply vput_ne.
      * unfold share. rewrite Hw, HV2, vput_eq, Hv, Hp. cbn. lia.
Qed.

(** A step of the program counter alone, with what else it does not touch. *)
Lemma goto_same s s1 Q i v pc : blk_ok s Q → view s i = Some v → (∀ j, view s1 j = view s j) → qs s1 = qs s → disks s1 = disks s → length (chans s1) = length (chans s) →
  (∀ c x, chans s1 !! c = Some x → ∃ y, chans s !! c = Some y ∧ busy y = busy x) → accepted s1 = accepted s → picked s1 = picked s → ended s1 = ended s →
  v_pc v ≠ BSubmit → pc ≠ BSubmit → hand pc = hand (v_pc v) → runs pc = runs (v_pc v) → (pc = BSleep → v_done v = false) → (∀ r, pc = BRet r → v_done v = true) →
  length (calls s1) = length (calls s) → (price (v_size v) pc < price (v_size v) (v_pc v))%nat →
  ∃ s', goto i pc s1 = Done s' ∧ blk_ok s' Q ∧ goes s s'.
Proof.
  intros [Hb Hq] Hv HV1 E1 E2 E3 E3' E4 E5 E6 H1 H2 H3 H4 H5 H6 H7 H8. assert (view s1 i = Some v) as Hv1 by (by rewrite HV1). destruct (goto_ok s1 i v pc Hv1) as (s2 & -> & HV2 & F1 & F2 & F3 & F7 & F4 & F5 & F6). exists s2. split; [done|].
  assert (∀ j, waits s2 j = waits s j) as Hw by (intros j; apply waits_same; congruence). split; [|split; [congruence|split; [congruence|]]]; [split|].
  - rewrite F2, E2, F3, F4, E4, F5, E5, F6, E6. eapply bok_ext; [intros j; rewrite HV2; unfold vput; rewrite HV1; reflexivity|]. eapply bok_chans; [by apply (bok_goto _ _ _ _ _ _ _ Hb i v pc)|done|done].
  - rewrite F1, E1, F2, E2, F5, E5. exact Hq.
  - apply (cost_one s s2 i); [congruence|by destruct (view_call s i v Hv) as (? & _ & _ & ?)| |].
    + intros j Hj. apply share_same; [|done]. rewrite HV2, vput_ne by done. apply HV1.
    + unfold share. rewrite Hw, HV2, vput_eq, Hv. cbn. destruct (waits s i); lia.
Qed.

Lemma sectors_less n : BLOCK_SECTOR_SIZE ≤ n → (sectors (n - BLOCK_SECTOR_SIZE) < sectors n)%nat.
Proof.
  intros Hn. unfold sectors, BLOCK_SECTOR_SIZE in *. replace (n - 512) with (n + (-1) * 512) by lia. rewrite Z.div_add by lia. pose proof (Z.div_le_lower_bound n 512 1). lia.
Qed.

Lemma execute_ok s Q i v c r sec togo pos ok : blk_ok s Q → view s i = Some v → v_pc v = BExec c r sec togo pos → ∃ s', bstep i ok s = Done s' ∧ blk_ok s' Q ∧ goes s s'.
Proof.
  intros Hs Hv Hp. pose proof Hs as [Hb _]. destruct (view_call s i v Hv) as (k & Hk & Ek & Hlt). destruct (b_hand _ _ _ _ _ _ _ Hb i v r Hv) as (Hrpk & _ & d & x & Hon & Hd & _); [by rewrite Hp|].
  destruct (b_ac _ _ _ _ _ _ _ Hb r) as (vr & d' & Hvr & Hdisk & _ & Hdata); [by apply (b_pk _ _ _ _ _ _ _ Hb)|]. destruct (view_call s r vr Hvr) as (kr & Hkr & Er & Hltr). unfold on in Hon. rewrite Hvr in Hon. apply bool_decide_eq_true in Hon.
  assert (bi_disk (c_bio kr) = Some d) as Ed by (by rewrite <- Hon, <- Er). assert (∃ p, bi_data (c_bio kr) = Some p) as [p Ep]. { rewrite <- Er in Hdata. apply bool_decide_eq_true in Hdata. destruct (bi_data (c_bio kr)); [by eexists|done]. }
  unfold bstep, get_call. rewrite Hk. cbn [deref]. run. assert (c_pc k = BExec c r sec togo pos) as -> by (by rewrite <- Hp, <- Ek). unfold ide_execute, get_call. rewrite Hkr. cbn [deref]. run. rewrite Ed. cbn [deref]. run. rewrite Hd. cbn [deref]. run. rewrite Ep. cbn [deref]. run.
  assert (∀ st, ∃ s', goto i (BDone c r st) s = Done s' ∧ blk_ok s' Q ∧ goes s s') as Hdone by (intros st; eapply (goto_same s s Q i v); rewrite ?Hp; try done; try (by eexists); cbn; lia).
  destruct (Z.ltb_spec togo BLOCK_SECTOR_SIZE) as [|Htogo]; [run; apply Hdone|]. destruct (negb (sector_ok x sec ok)); [run; apply Hdone|]. run. pose proof (sectors_less togo Htogo) as Hless.
  destruct (Z.land (bi_opf (c_bio kr)) REQ_OP_MASK =? REQ_OP_WRITE); eapply (goto_same s _ Q i v); rewrite ?Hp; try done; try (by eexists); try (cbn; lia); [|apply length_insert].
  intros j. rewrite view_set by done. unfold vput. case_decide as Hj; [|done]. subst j. rewrite Hvr, <- Er. unfold cv_of. cbn. rewrite Ep. done.
Qed.

Lemma complete_ok s Q i v c r st : blk_ok s Q → view s i = Some v → v_pc v = BComplete c r st → ∃ s', (s' ← ide_complete_rq r st s; goto i (BRun c) s') = Done s' ∧ blk_ok s' Q ∧ goes s s'.
Proof.
  intros [Hb Hq] Hv Hp. destruct (b_hand _ _ _ _ _ _ _ Hb i v r Hv) as (Hrpk & Hren & _); [by rewrite Hp|]. pose proof (b_pk _ _ _ _ _ _ _ Hb r Hrpk) as Hrac. destruct (b_ac _ _ _ _ _ _ _ Hb r Hrac) as (vr & _ & Hvr & _).
  assert (v_live vr = true) as Hlive by (by apply (b_live _ _ _ _ _ _ _ Hb r vr Hvr)). unfold ide_complete_rq. destruct (end_bio_ok s r st vr Hvr) as (s1 & -> & HV1 & E1 & E2 & E3 & E4 & E5 & E6 & E7). run. unfold blk_free_request, get_call.
  assert (view s1 r = Some (Cv (v_disk vr) (v_data vr) (v_size vr) true (v_live vr) (match v_pc vr with BSleep => BWait | pc => pc end))) as Hv1 by (by rewrite HV1, vput_eq). destruct (view_call s1 r _ Hv1) as (k & Hk & Ek & Hlt). rewrite Hk. cbn [deref]. run.
  assert (c_live k = true) as -> by (change (v_live (cv_of k) = true); by rewrite Ek). run. set (s2 := set_call r _ s1).
  assert (∀ j, view s2 j = vput (view s) r (Cv (v_disk vr) (v_data vr) (v_size vr) true false (match v_pc vr with BSleep => BWait | pc => pc end)) j) as HV2.
  { intros j. unfold s2. rewrite view_set by done. unfold vput. case_decide as Hj; [|rewrite HV1; by apply vput_ne]. unfold cv_of. cbn. unfold cv_of in Ek. by injection Ek as -> -> -> -> _ ->. }
  assert (∃ v2, view s2 i = Some v2 ∧ v_disk v2 = v_disk v ∧ v_data v2 = v_data v ∧ v_size v2 = v_size v ∧ v_done v2 = (if decide (i = r) then true else v_done v) ∧ v_live v2 = (if decide (i = r) then false else v_live v)) as (v2 & Hv2 & D1 & D2 & D5 & D3 & D4).
  { rewrite HV2. destruct (decide (i = r)) as [->|Hne]; [rewrite vput_eq|rewrite vput_ne by done; by exists v]. eexists. split; [reflexivity|]. cbn. assert (vr = v) as -> by congruence. done. }
  destruct (goto_ok s2 i v2 (BRun c) Hv2) as (s3 & -> & HV3 & F1 & F2 & F3 & F7 & F4 & F5 & F6). exists s3. split; [done|].
  assert (length (calls s3) = length (calls s)) as Hl3 by (rewrite F7; unfold s2; cbn; by rewrite length_insert). assert (∀ j, waits s3 j = waits s j) as Hw by (intros j; apply waits_same; [rewrite F4; exact E4|rewrite F5; exact E5]).
  split; [|split; [rewrite F2; exact E2|split; [done|]]]; [split|].
  - rewrite F2, F3, F4, F5, F6. change (disks s2) with (disks s1). change (chans s2) with (chans s1). change (accepted s2) with (accepted s1). change (picked s2) with (picked s1). change (ended s2) with (ended s1). rewrite E2, E3, E4, E5, E6.
    eapply (bok_complete _ _ _ _ _ _ _ Hb i v c r st vr); [done|done|done|]. intros j. rewrite HV3. unfold vput. destruct (decide (j = i)) as [->|Hj].
    + unfold at_pc. by rewrite D1, D2, D5, D3, D4.
    + rewrite HV2. unfold vput. by case_decide.
  - rewrite F1, F2, F5. change (qs s2) with (qs s1). change (disks s2) with (disks s1). change (picked s2) with (picked s1). rewrite E1, E2, E5. exact Hq.
  - destruct (view_call s i v Hv) as (_ & _ & _ & Hlti). destruct (view_call s r vr Hvr) as (_ & _ & _ & Hltr). destruct (decide (i = r)) as [<-|Hir].
    + apply (cost_one s s3 i); [done|done| |].
      * intros j Hj. apply share_same; [|done]. rewrite HV3, vput_ne, HV2 by done. by apply vput_ne.
      * unfold share. rewrite Hw, HV3, vput_eq, Hv, Hp. cbn. rewrite D5. destruct (waits s i); lia.
    + apply (cost_two s s3 i r); [done|done|done|done| |].
      * intros j Hj Hj'. apply share_same; [|done]. rewrite HV3, vput_ne, HV2 by done. by apply vput_ne.
      * unfold share. rewrite !Hw, HV3, vput_eq, HV3, vput_ne, HV2, vput_eq, Hv, Hvr, Hp by done. cbn. rewrite D5. destruct (v_pc vr); cbn; destruct (waits s i), (waits s r); lia.
Qed.

(** A call that neither sleeps nor has returned. *)
Definition awake (s : blk) (i : nat) : bool := match view s i with Some v => match v_pc v with BSleep | BRet _ => false | _ => true end | None => false end.

Lemma bstep_ok s Q i ok : blk_ok s Q → (i < length (calls s))%nat → ∃ s' Q', bstep i ok s = Done s' ∧ blk_ok s' Q' ∧ if awake s i then goes s s' else s' = s.
Proof.
  intros Hs Hlt. destruct (lookup_lt_is_Some_2 _ _ Hlt) as [k Hk]. assert (view s i = Some (cv_of k)) as Hv by (unfold view; by rewrite Hk). pose proof Hs as [Hb _].
  assert (∀ B (f : call → outcome B), (k ← get_call i s; f k) = f k) as Eget by (intros B f; unfold get_call; by rewrite Hk). unfold awake. rewrite Hv. cbn [v_pc cv_of].
  destruct (c_pc k) as [|c|c r sec togo pos|c r st|c r st| | |ret] eqn:Hp.
  - unfold bstep. rewrite Eget, Hp. unfold submit_bio. rewrite Eget. destruct (check_bio (c_bio k) s) as [st|d] eqn:Ec.
    + destruct (refuse_ok s Q i (cv_of k) st Hs Hv Hp) as (s' & E & H'). exists s', Q. split; [|done]. destruct (end_bio i st s); done.
    + destruct (check_bio_ok _ _ _ Ec) as (Hd & Hdata & Hsome). destruct ok.
      * destruct (accept_ok s Q i (cv_of k) d Hs Hv Hp Hd) as (o & s1 & s' & Q' & E1 & E2 & H'); [by apply bool_decide_eq_true|done|]. exists s', Q'. rewrite E1. run. by rewrite E2.
      * destruct (refuse_ok s Q i (cv_of k) BLK_STS_IOERR Hs Hv Hp) as (s' & E & H'). exists s', Q. split; [|done]. unfold ide_submit_bio. destruct Hsome as [x ->]. cbn [deref negb]. run. destruct (end_bio i BLK_STS_IOERR s); done.
  - destruct (run_ok s Q i (cv_of k) c Hs Hv Hp) as (s' & Q' & E1 & E2 & H'). exists s', Q'. by destruct ok.
  - destruct (execute_ok s Q i (cv_of k) c r sec togo pos ok Hs Hv Hp) as (s' & E & H'). by exists s', Q.
  - unfold bstep. rewrite Eget, Hp. destruct (b_run _ _ _ _ _ _ _ Hb i (cv_of k) c Hv) as (y & Hy & Hby); [cbn; by rewrite Hp|]. rewrite (set_cur_ok s c y true None Hy). run.
    assert (∃ s', goto i (BComplete c r st) (with_chans (<[c := Chan true None]> (chans s)) s) = Done s' ∧ blk_ok s' Q ∧ goes s s') as (s' & E & H'); [|by exists s', Q].
    eapply (goto_same s _ Q i (cv_of k)); cbn [v_pc v_done cv_of]; rewrite ?Hp; try done; try (cbn; lia); [apply length_insert|]. intros c' z Hz. exact (still_busy _ c y _ c' z Hy Hby Hz).
  - unfold bstep. rewrite Eget, Hp. destruct (complete_ok s Q i (cv_of k) c r st Hs Hv Hp) as (s' & E & H'). by exists s', Q.
  - unfold bstep. rewrite Eget, Hp. destruct (c_done k) eqn:Hd.
    + destruct (goto_same s s Q i (cv_of k) (BRet (if bi_status (c_bio k) =? BLK_STS_OK then 0 else -1)) Hs Hv) as (s' & E & H'); cbn [v_pc v_done cv_of]; rewrite ?Hp; try done; try (by eexists); try (cbn; lia); by exists s', Q.
    + destruct (goto_same s s Q i (cv_of k) BSleep Hs Hv) as (s' & E & H'); cbn [v_pc v_done cv_of]; rewrite ?Hp; try done; try (by eexists); try (cbn; lia); by exists s', Q.
  - exists s, Q. unfold bstep. by rewrite Eget, Hp.
  - exists s, Q. unfold bstep. by rewrite Eget, Hp.
Qed.

(** ** Runs *)

(** After the driver has found its disks: empty queues and idle channels. *)
Definition blk0 (dk : list disk) (n : nat) (m : gmap (nat * Z) (list Z)) : blk :=
  Blk [] (list_to_map ((λ d, (QHead d, ListNode (QHead d) (QHead d))) <$> seq 0 (length dk))) dk (repeat (Chan false None) n) m [] [] [].

Inductive blk_run (dk : list disk) (n : nat) (m : gmap (nat * Z) (list Z)) : blk → Prop :=
| R_start : blk_run dk n m (blk0 dk n m)
| R_call b s : blk_run dk n m s → blk_run dk n m (new_call b s)
| R_step i ok s s' : blk_run dk n m s → (i < length (calls s))%nat → bstep i ok s = Done s' → blk_run dk n m s'.

Lemma queues0 n : queues (list_to_map ((λ d, (QHead d, ListNode (QHead d) (QHead d))) <$> seq 0 n)) (λ _, []) n [].
Proof.
  induction n as [|n (L & HR & HQ & HL)].
  { exists ∅. split; [split; intros *; by rewrite lookup_empty|]. split; [lia|]. intros x xs. by rewrite lookup_empty. }
  exists (<[QHead n := []]> L). assert (list_to_map ((λ d, (QHead d, ListNode (QHead d) (QHead d))) <$> seq 0 (S n)) = INIT_LIST_HEAD (QHead n) (list_to_map ((λ d, (QHead d, ListNode (QHead d) (QHead d))) <$> seq 0 n) : gmap qnode (list_head qnode))) as ->.
  { rewrite seq_S, fmap_app, list_to_map_app. cbn [fmap list_fmap list_to_map foldr]. unfold INIT_LIST_HEAD. apply map_eq. intros x. destruct (decide (x = QHead n)) as [->|Hne].
    - rewrite lookup_insert_eq. apply lookup_union_Some_raw. right. split; [|by rewrite lookup_insert_eq]. apply not_elem_of_list_to_map_1. intros Hx. apply list_elem_of_fmap in Hx as ([y z] & E & Hx). apply list_elem_of_fmap in Hx as (d & [= -> ->] & Hd). cbn in E. injection E as <-. apply elem_of_seq in Hd. lia.
    - rewrite lookup_insert_ne by done. rewrite lookup_union_l; [done|]. rewrite lookup_insert_ne by done. apply lookup_empty. }
  split; [apply INIT_LIST_HEAD_repr; [done|]; left|].
  - intros x xs Hx Hin. destruct (HL x xs Hx) as [(d & -> & Hd)|(r & -> & -> & Hr)]; [|by apply not_elem_of_nil in Hr]. rewrite (HQ d Hd) in Hx. injection Hx as <-. apply elem_of_cons in Hin as [[= <-]|Hin]; [lia|by apply not_elem_of_nil in Hin].
  - split.
    + intros d Hd. destruct (decide (d = n)) as [->|Hne]; [by rewrite lookup_insert_eq|]. rewrite lookup_insert_ne by congruence. apply HQ. lia.
    + intros x xs Hx. destruct (decide (x = QHead n)) as [->|Hne]; [left; exists n; split; [done|lia]|]. rewrite lookup_insert_ne in Hx by done. destruct (HL x xs Hx) as [(d & -> & Hd)|H]; [left; exists d; split; [done|lia]|by right].
Qed.

Lemma blk0_ok dk n m : (∀ d x, dk !! d = Some x → (d_chan x < n)%nat) → blk_ok (blk0 dk n m) (λ _, []).
Proof.
  intros Hch. split; [|apply queues0]. assert (∀ i : nat, i ∈ [] → False) as Hnil by (intros i; apply not_elem_of_nil). split; cbn; try done; try (by apply NoDup_nil_2); try (intros * Hi; by apply Hnil in Hi).
  - intros d x Hd. rewrite repeat_length. by apply (Hch d).
  - intros c x Hx Hb. apply list_elem_of_lookup_2, list_elem_of_In, repeat_spec in Hx. by subst.
Qed.

Section Runs.
Context (dk : list disk) (n : nat) (m : gmap (nat * Z) (list Z)).
Context (Hch : ∀ d x, dk !! d = Some x → (d_chan x < n)%nat).

Lemma blk_run_ok s : blk_run dk n m s → ∃ Q, blk_ok s Q.
Proof using Hch.
  induction 1 as [|b s Hr (Q & Hb & Hq)|i ok s s' Hr (Q & Hok) Hi E].
  - exists (λ _, []). by apply blk0_ok.
  - exists Q. split; [|exact Hq]. apply (bok_new _ _ _ _ _ _ _ Hb (length (calls s)) b); [unfold view; by rewrite lookup_ge_None_2|]. intros j. unfold view. cbn. case_decide as Hj.
    + subst j. by rewrite lookup_app_r, Nat.sub_diag.
    + destruct (decide (j < length (calls s))%nat) as [Hlt|Hge]; [by rewrite lookup_app_l|]. rewrite !lookup_ge_None_2; [done|lia|rewrite length_app; cbn; lia].
  - destruct (bstep_ok s Q i ok Hok Hi) as (s1 & Q1 & E1 & H1 & _). exists Q1. congruence.
Qed.

(** The requests among [l] that are for disk [d]. *)
Definition requests_of (s : blk) (d : nat) (l : list nat) : list nat := of_disk (view s) d l.

(** C10: any number of calls of [submit_bio_wait], in any interleaving, with any
    failures of the allocator and the disks: the next section of every call
    returns; no bio is ended twice; the [done] of a call says whether its bio was
    ended, and a call that has returned has seen it; the requests of a disk are
    taken in the order in which they were queued; and a channel that nobody runs
    has no request waiting. *)
Theorem block_layer_safe s : blk_run dk n m s →
  (∀ i ok, (i < length (calls s))%nat → ∃ s', bstep i ok s = Done s') ∧ NoDup (ended s) ∧
  (∀ i c, calls s !! i = Some c → (c_done c = true ↔ i ∈ ended s) ∧ ∀ r, c_pc c = BRet r → i ∈ ended s) ∧
  (∀ d, (d < length (disks s))%nat → requests_of s d (picked s) `prefix_of` requests_of s d (accepted s)) ∧
  (∀ c x d y, chans s !! c = Some x → busy x = false → disks s !! d = Some y → d_chan y = c → requests_of s d (picked s) = requests_of s d (accepted s)).
Proof using Hch.
  intros Hr. destruct (blk_run_ok s Hr) as (Q & Hok). pose proof Hok as [Hb _]. split_and!.
  - intros i ok Hi. destruct (bstep_ok s Q i ok Hok Hi) as (s' & Q' & E & _). by exists s'.
  - apply Hb.
  - intros i c Hc. assert (view s i = Some (cv_of c)) as Hv by (unfold view; by rewrite Hc). pose proof (b_done _ _ _ _ _ _ _ Hb i _ Hv) as Hd. split; [exact Hd|]. intros r Hp. apply Hd, (b_ret _ _ _ _ _ _ _ Hb i _ r Hv Hp).
  - intros d Hd. exists (Q d). by apply (b_q _ _ _ _ _ _ _ Hb).
  - intros c x d y Hx Hbx Hd Hy. unfold requests_of. rewrite (b_q _ _ _ _ _ _ _ Hb d) by (by eapply lookup_lt_Some). by rewrite (b_idle _ _ _ _ _ _ _ Hb c x d y), app_nil_r.
Qed.

(** Every way of going on ends, and then all calls have returned. *)
Inductive ends : blk → Prop :=
| Ends s : (∀ i c, calls s !! i = Some c → (∃ r, c_pc c = BRet r) ∨ ∃ j, awake s j = true) →
    (∀ i ok s', awake s i = true → bstep i ok s = Done s' → ends s') → ends s.

(** If anybody has not returned, somebody can go on. *)
Lemma somebody s Q i c : blk_ok s Q → calls s !! i = Some c → (∃ r, c_pc c = BRet r) ∨ ∃ j, awake s j = true.
Proof using.
  intros [Hb _] Hc. assert (view s i = Some (cv_of c)) as Hv by (unfold view; by rewrite Hc). assert (∀ j v, view s j = Some v → runs (v_pc v) ≠ None → awake s j = true) as Hrun by (intros j v Hj Hx; unfold awake; rewrite Hj; by destruct (v_pc v)).
  destruct (c_pc c) as [|c'|c' r' sec togo pos|c' r' st|c' r' st| | |ret] eqn:Hp; try (right; exists i; unfold awake; rewrite Hv; cbn; by rewrite Hp); [|left; by exists ret]. right.
  assert (v_done (cv_of c) = false) as Hd by (by apply (b_sleep _ _ _ _ _ _ _ Hb i)). pose proof (b_done _ _ _ _ _ _ _ Hb i _ Hv) as Hdi. assert (i ∉ ended s) as Hen by (intros Hx; apply Hdi in Hx; congruence).
  destruct (b_old _ _ _ _ _ _ _ Hb i _ Hv) as [Hac|Hac]; [cbn; by rewrite Hp| |done]. destruct (accepted_where _ _ _ _ _ _ _ Hb i Hac Hen) as [(d & Hd' & Hq)|(j & v & Hj & Hh)].
  - destruct (lookup_lt_is_Some_2 _ _ Hd') as [x Hx]. destruct (lookup_lt_is_Some_2 (chans s) (d_chan x)) as [y Hy]; [by apply (b_chan _ _ _ _ _ _ _ Hb d)|]. destruct (busy y) eqn:Hby.
    + destruct (b_busy _ _ _ _ _ _ _ Hb _ y Hy Hby) as (j & v & Hj & Hr). exists j. apply (Hrun j v Hj). congruence.
    + rewrite (b_idle _ _ _ _ _ _ _ Hb _ y d x Hy Hby Hx eq_refl) in Hq. by apply not_elem_of_nil in Hq.
  - exists j. apply (Hrun j v Hj). by destruct (v_pc v).
Qed.

(** C11: nobody waits for ever.  However the calls that can go on are scheduled,
    and whatever the allocator and the disks answer, only finitely many sections
    are left, and when nobody can go on all calls have returned. *)
Theorem block_calls_return s : blk_run dk n m s → ends s.
Proof using Hch.
  intros Hr. destruct (blk_run_ok s Hr) as (Q & Hok). clear Hr. remember (cost s) as k eqn:Ek. revert s Q Hok Ek. induction (lt_wf k) as [k _ IH]. intros s Q Hok ->. split.
  - intros i c Hc. by eapply somebody.
  - intros i ok s' Ha E. assert (i < length (calls s))%nat as Hi. { unfold awake in Ha. destruct (view s i) as [v|] eqn:Hv; [|done]. by destruct (view_call s i v Hv) as (_ & _ & _ & ?). }
    destruct (bstep_ok s Q i ok Hok Hi) as (s1 & Q1 & E1 & H1 & Hg). rewrite Ha in Hg. assert (s1 = s') as -> by congruence. apply (IH (cost s')) with Q1; [apply Hg|done|done].
Qed.
End Runs.
