(* ===== verification/BlockSect.v ===== *)
(** [BlockSect]: one sector through the block layer.  A call that finds its channel
    idle queues its request, runs the channel itself and returns: what
    [blkdev_read_sect] and [blkdev_write_sect] do to the buffer and the medium. *)
From Stdlib Require Import ZArith Lia.
From stdpp Require Import numbers strings gmap list sets.
From S2P Require Import Prelude ListHead Block BlockSpec BlockSys.
Open Scope Z_scope.

Section Alone.
Context (s : blk).

(** The state of a call that is the last one. *)
Definition last_call (k : call) (h : gmap qnode (list_head qnode)) (ch : list chan) (md : gmap (nat * Z) (list Z)) (ac pk en : list nat) : blk :=
  Blk (calls s ++ [k]) h (disks s) ch md ac pk en.
Notation me := (length (calls s)).

Lemma get_me k h ch md ac pk en : get_call me (last_call k h ch md ac pk en) = Done k.
Proof using. unfold get_call. cbn. by rewrite lookup_app_r, Nat.sub_diag. Qed.

Lemma set_me k' k h ch md ac pk en : set_call me k' (last_call k h ch md ac pk en) = last_call k' h ch md ac pk en.
Proof using. unfold set_call, with_calls, last_call. cbn. f_equal. rewrite insert_app_r_alt, Nat.sub_diag by done. done. Qed.

Lemma goto_me pc k h ch md ac pk en : goto me pc (last_call k h ch md ac pk en) = Done (last_call (Call (c_bio k) (c_done k) (c_live k) pc) h ch md ac pk en).
Proof using. unfold goto. rewrite get_me. run. by rewrite set_me. Qed.

Lemma end_me st k h ch md ac pk en : end_bio me st (last_call k h ch md ac pk en) =
  Done (last_call (Call (with_status st (c_bio k)) true (c_live k) (match c_pc k with BSleep => BWait | pc => pc end)) h ch md ac pk (en ++ [me])).
Proof using. unfold end_bio, bio_wait_end_io. rewrite get_me. run. rewrite set_me, get_me. run. rewrite set_me. done. Qed.

Lemma cur_me c b r k h ch md ac pk en : is_Some (ch !! c) → set_cur c b r (last_call k h ch md ac pk en) = Done (last_call k h (<[c := Chan b r]> ch) md ac pk en).
Proof using. intros [z Hz]. by rewrite (set_cur_ok _ _ z). Qed.

Lemma alone_step fuel ok k h ch md ac pk en s' : (∀ r, c_pc k ≠ BRet r) → bstep me ok (last_call k h ch md ac pk en) = Done s' →
  alone (S fuel) me ok (last_call k h ch md ac pk en) = alone fuel me ok s'.
Proof using. intros Hp E. cbn [alone]. rewrite get_me. run. rewrite E. run. destruct (c_pc k); try done. by destruct (Hp ret). Qed.

Lemma alone_ret fuel ok k h ch md ac pk en r : c_pc k = BRet r → alone (S fuel) me ok (last_call k h ch md ac pk en) = Done (r, last_call k h ch md ac pk en).
Proof using. intros Hp. cbn [alone]. rewrite get_me. run. by rewrite Hp. Qed.

(** ** The sections of a call that is alone *)

Context (Q : nat → list nat) (d : nat) (x : disk) (y : chan).
Context (Hok : blk_ok s Q) (Hd : disks s !! d = Some x) (Hy : chans s !! d_chan x = Some y) (Hidle : busy y = false).

Lemma d_small : (d < length (disks s))%nat.
Proof using Hd. by eapply lookup_lt_Some. Qed.

(** The first section queues the request, the second takes it again, and the last
    finds nothing more. *)
Lemma queue_trip : ∃ h h', list_add_tail (QReq me) (QHead d) (INIT_LIST_HEAD (QReq me) (qs s)) = Done h ∧
  (∀ k ch md ac en, ide_chan_pick (d_chan x) (last_call k h ch md ac (picked s) en) = Done (Some me, last_call k h' ch md ac (picked s) en)) ∧
  (∀ k ch md ac en, ide_chan_pick (d_chan x) (last_call k h' ch md ac (picked s ++ [me]) en) = Done (None, last_call k h' ch md ac (picked s ++ [me]) en)).
Proof using Hok Hd Hy Hidle.
  pose proof Hok as [Hb Hq]. assert (view s me = None) as Hnone by (unfold view; by rewrite lookup_ge_None_2). assert (me ∉ accepted s) as Hac by (intros Hx; destruct (b_ac _ _ _ _ _ _ _ Hb _ Hx) as (v & _ & Hv & _); congruence).
  destruct (queues_push _ _ _ _ d me Hq d_small) as (h & Eh & Hq1). { intros Hx. by apply Hac, (b_pk _ _ _ _ _ _ _ Hb). } { intros d' Hd' Hx. by apply Hac, (queued _ _ _ _ _ _ _ Hb d' me Hd' Hx). }
  assert (∀ d' x', disks s !! d' = Some x' → d_chan x' = d_chan x → Q d' = []) as Hempty by (intros d' x' Hd' Hx'; by apply (b_idle _ _ _ _ _ _ _ Hb _ y d' x' Hy)).
  set (Q1 := qput Q d (Q d ++ [me])) in *. exists h.
  destruct (chan_pick_ok (d_chan x) (with_qs h s) Q1 Hq1 (disks s) 0 eq_refl) as [(d' & x' & r & rest & h' & Ep & Hd' & Hx' & Er & Hq')|[_ Hn]]; [|specialize (Hn d x (Nat.le_0_l _) Hd eq_refl); unfold Q1, qput in Hn; rewrite decide_True in Hn by done; by destruct (Q d)].
  assert (d' = d ∧ r = me ∧ rest = []) as (-> & -> & ->).
  { unfold Q1, qput in Er. case_decide as Hdd; [subst d'; rewrite (Hempty d x Hd eq_refl) in Er; by injection Er as <- <-|]. by rewrite (Hempty d' x' Hd' Hx') in Er. }
  exists h'. split; [exact Eh|]. assert (∀ c ds e t t', qs t' = qs t → disks t' = disks t → ∀ o u, chan_pick c ds e t = Done (o, u) → chan_pick c ds e t' = Done (o, with_qs (qs u) t')) as Hframe.
  { intros c ds. induction ds as [|z ds IH]; intros e t t' Eq Ed o u; cbn [chan_pick].
    - intros [= <- <-]. destruct t'. cbn in *. by subst.
    - destruct (d_chan z =? c)%nat; [|by apply IH]. unfold blk_queue_pop, blk_queue_peek. rewrite Eq. destruct (list_empty (QHead e) (qs t)) as [[]| | |]; run; try done; [by apply IH|].
      destruct (list_first_entry (QHead e) (qs t)) as [[]| | |]; run; try done. destruct (list_del (QReq r) (qs t)); run; try done. by intros [= <- <-]. }
  split.
  - intros k ch md ac en. exact (Hframe _ _ _ (with_qs h s) (last_call k h ch md ac (picked s) en) eq_refl eq_refl _ _ Ep).
  - intros k ch md ac en. set (t0 := Blk (calls s) h' (disks s) (chans s) (media s) (accepted s) (picked s ++ [me]) (ended s)). destruct (chan_pick_ok (d_chan x) t0 _ Hq' (disks s) 0 eq_refl) as [(d' & x'' & r & rest & _ & _ & Hd'' & Hx'' & Er' & _)|[Ep' _]].
    + exfalso. unfold qput in Er'. case_decide as Hdd; [done|]. unfold Q1, qput in Er'. rewrite decide_False in Er' by done. by rewrite (Hempty d' x'' Hd'' Hx'') in Er'.
    + exact (Hframe _ _ _ t0 (last_call k h' ch md ac (picked s ++ [me]) en) eq_refl eq_refl _ _ Ep').
Qed.

(** What a transfer of one sector does to the medium and the buffer. *)
Definition moved (b : bio) (p : list Z) (md : gmap (nat * Z) (list Z)) : gmap (nat * Z) (list Z) * list Z :=
  if Z.land (bi_opf b) REQ_OP_MASK =? REQ_OP_WRITE then (<[(d, bi_sector b) := slice p 0]> md, p) else (md, splice p 0 (sector_at md d (bi_sector b))).

Context (b : bio) (p : list Z) (Eb : bi_disk b = Some d) (Ep : bi_data b = Some p) (Esz : bi_size b = BLOCK_SECTOR_SIZE).
Notation b1 := (with_status BLK_STS_OK b).
Notation taken := (<[d_chan x := Chan true (cur_rq y)]> (chans s)).

Lemma check_me : d_make x = true → u32 (bi_sector b + 1) ≤ capacity x → check_bio b s = inr d.
Proof using Hd Eb Ep Esz.
  intros Hmake Hcap. unfold check_bio. rewrite Eb, Hd, Hmake, Ep, Esz. change (Z.shiftr BLOCK_SECTOR_SIZE SECTOR_SHIFT) with 1. rewrite (proj2 (Z.ltb_ge _ _) Hcap). reflexivity.
Qed.

Lemma submit_me h : check_bio b s = inr d → list_add_tail (QReq me) (QHead d) (INIT_LIST_HEAD (QReq me) (qs s)) = Done h →
  bstep me true (new_call b s) = Done (last_call (Call b1 false true (BRun (d_chan x))) h taken (media s) (accepted s ++ [me]) (picked s) (ended s)).
Proof using Hd Hy Hidle.
  intros Ec Eh. change (new_call b s) with (last_call (Call b false false BSubmit) (qs s) (chans s) (media s) (accepted s) (picked s) (ended s)).
  unfold bstep. rewrite get_me. run. cbn [c_pc]. unfold submit_bio. rewrite get_me. run. cbn [c_bio]. change (check_bio b (last_call _ _ _ _ _ _ _)) with (check_bio b s). rewrite Ec. unfold ide_submit_bio. cbn [last_call disks]. rewrite Hd. cbn [deref negb]. run.
  unfold blk_alloc_request. rewrite get_me. run. rewrite set_me. change (with_qs ?a (last_call ?k _ ?ch ?md ?ac ?pk ?en)) with (last_call k a ch md ac pk en). rewrite get_me. run. rewrite set_me.
  unfold blk_queue_push. cbn [last_call qs]. rewrite Eh. run. cbn [with_hist with_qs chans last_call]. rewrite Hy. cbn [deref]. run. rewrite Hidle. run. exact (goto_me (BRun (d_chan x)) (Call b1 false true BSubmit) h taken (media s) (accepted s ++ [me]) (picked s) (ended s)).
Qed.

Lemma pick_me h h' ch : (∀ k ch md ac en, ide_chan_pick (d_chan x) (last_call k h ch md ac (picked s) en) = Done (Some me, last_call k h' ch md ac (picked s) en)) → is_Some (ch !! d_chan x) →
  bstep me true (last_call (Call b1 false true (BRun (d_chan x))) h ch (media s) (accepted s ++ [me]) (picked s) (ended s)) =
  Done (last_call (Call b1 false true (BExec (d_chan x) me (bi_sector b) (bi_size b) 0)) h' (<[d_chan x := Chan true (Some me)]> ch) (media s) (accepted s ++ [me]) (picked s ++ [me]) (ended s)).
Proof using.
  intros Epick Hz. unfold bstep. rewrite get_me. run. cbn [c_pc]. rewrite Epick. run. rewrite cur_me by done. run. rewrite get_me. run.
  exact (goto_me _ (Call b1 false true (BRun (d_chan x))) h' (<[d_chan x := Chan true (Some me)]> ch) (media s) (accepted s ++ [me]) (picked s ++ [me]) (ended s)).
Qed.

Lemma exec_me h ch ac pk en : sector_ok x (bi_sector b) true = true →
  bstep me true (last_call (Call b1 false true (BExec (d_chan x) me (bi_sector b) BLOCK_SECTOR_SIZE 0)) h ch (media s) ac pk en) =
  Done (last_call (Call (with_bytes (Some (moved b p (media s)).2) b1) false true (BExec (d_chan x) me (u32 (bi_sector b + 1)) 0 BLOCK_SECTOR_SIZE)) h ch (moved b p (media s)).1 ac pk en).
Proof using Hd Eb Ep.
  intros Hsec. unfold bstep. rewrite get_me. run. cbn [c_pc]. unfold ide_execute. rewrite get_me. run. cbn [c_bio with_status bi_disk bi_data bi_opf]. rewrite Eb, Ep. cbn [deref]. run. change (disks (last_call ?k ?h ?ch ?md ?ac ?pk ?en)) with (disks s). rewrite Hd. cbn [deref]. run.
  rewrite Hsec. cbn [negb]. change (BLOCK_SECTOR_SIZE <? BLOCK_SECTOR_SIZE) with false. unfold moved. destruct (Z.land (bi_opf b) REQ_OP_MASK =? REQ_OP_WRITE); run.
  - change (with_media ?m (last_call ?k ?h ?ch _ ?ac ?pk ?en)) with (last_call k h ch m ac pk en). rewrite goto_me. cbn [c_bio c_done c_live fst snd]. do 3 f_equal. unfold with_bytes. cbn. by rewrite <- Ep.
  - rewrite set_me, goto_me. done.
Qed.

(** From the transfer to the return. *)
Lemma finish_me b2 h ch md ac : bi_disk b2 = Some d → is_Some (bi_data b2) → is_Some (ch !! d_chan x) →
  (∀ k ch md ac en, ide_chan_pick (d_chan x) (last_call k h ch md ac (picked s ++ [me]) en) = Done (None, last_call k h ch md ac (picked s ++ [me]) en)) →
  alone 7 me true (last_call (Call b2 false true (BExec (d_chan x) me (u32 (bi_sector b + 1)) 0 BLOCK_SECTOR_SIZE)) h ch md ac (picked s ++ [me]) (ended s)) =
  Done (0, last_call (Call (with_status BLK_STS_OK b2) true false (BRet 0)) h (<[d_chan x := Chan false None]> ch) md ac (picked s ++ [me]) (ended s ++ [me])).
Proof using Hd.
  intros E2 [p2 Ep2] Hz Elast. assert (is_Some (<[d_chan x := Chan true None]> ch !! d_chan x)) as Hz' by (apply lookup_lt_is_Some; rewrite length_insert; by apply lookup_lt_is_Some).
  erewrite alone_step; [|done|unfold bstep; rewrite get_me; run; cbn [c_pc]; unfold ide_execute; rewrite get_me; run; cbn [c_bio]; rewrite E2, Ep2; cbn [deref]; run; change (disks (last_call ?k ?h ?ch ?md ?ac ?pk ?en)) with (disks s); rewrite Hd; cbn [deref]; run; apply goto_me].
  erewrite alone_step; [|done|unfold bstep; rewrite get_me; run; cbn [c_pc c_bio]; rewrite cur_me by done; run; apply goto_me].
  erewrite alone_step; [|done|unfold bstep; rewrite get_me; run; cbn [c_pc c_bio c_done c_live]; unfold ide_complete_rq; rewrite end_me; run; unfold blk_free_request; rewrite get_me; run; cbn [c_live c_bio c_done c_pc]; rewrite set_me; apply goto_me].
  cbn [c_bio c_done c_live]. erewrite alone_step; [|done|unfold bstep; rewrite get_me; run; cbn [c_pc c_bio]; rewrite Elast; run; rewrite cur_me by done; run; apply goto_me].
  cbn [c_bio c_done c_live]. erewrite alone_step; [|done|unfold bstep; rewrite get_me; run; cbn [c_pc c_bio c_done with_status bi_status]; apply goto_me].
  rewrite (alone_ret 1 true _ _ _ _ _ _ _ 0) by done. cbn [c_bio c_done c_live]. by rewrite list_insert_insert_eq.
Qed.

Lemma transfer_me : d_make x = true → u32 (bi_sector b + 1) ≤ capacity x → sector_ok x (bi_sector b) true = true →
  ∃ s', submit_bio_wait b true s = Done (0, Some (moved b p (media s)).2, s') ∧ media s' = (moved b p (media s)).1 ∧ chans s' = <[d_chan x := Chan false None]> (chans s).
Proof using Hok Hd Hy Hidle Eb Ep Esz.
  intros Hmake Hcap Hsec. destruct queue_trip as (h & h' & Eh & Epick & Elast). pose proof (lookup_lt_Some _ _ _ Hy) as Hyl.
  pose proof (submit_me h (check_me Hmake Hcap) Eh) as E1. pose proof (pick_me h h' taken Epick) as E2. rewrite Esz in E2.
  pose proof (finish_me (with_bytes (Some (moved b p (media s)).2) b1) h' (<[d_chan x := Chan true (Some me)]> taken) (moved b p (media s)).1 (accepted s ++ [me]) Eb) as E4.
  unfold submit_bio_wait. change (new_call b s) with (last_call (Call b false false BSubmit) (qs s) (chans s) (media s) (accepted s) (picked s) (ended s)) in *.
  change 20%nat with (S (S (S 17))). erewrite alone_step; [|done|exact E1]. erewrite alone_step; [|done|apply E2; rewrite list_lookup_insert_eq by done; by eexists]. erewrite alone_step; [|done|by apply exec_me].
  assert (∀ f g i o s r, alone f i o s = Done r → (f ≤ g)%nat → alone g i o s = Done r) as Hmore.
  { intros f. induction f as [|f IH]; intros [|g] i o t r; cbn [alone]; [done|done|lia|]. destruct (get_call i t) as [k| | |]; run; try done. destruct (c_pc k); try done; destruct (bstep i o t); run; try done; intros; (eapply IH; [done|lia]). }
  rewrite (Hmore 7%nat 17%nat _ _ _ _ (E4 ltac:(by eexists) ltac:(by rewrite list_lookup_insert_eq by (rewrite length_insert; done); eexists) Elast)) by lia.
  run. rewrite get_me. run. eexists. split; [reflexivity|]. split; [done|]. cbn. by rewrite !list_insert_insert_eq.
Qed.
End Alone.

(** ** Errors *)

(** A bio that the block layer must not pass on. *)
Definition bad_bio (b : bio) (s : blk) : Prop :=
  match d ← bi_disk b; disks s !! d with
  | None => True
  | Some x => d_make x = false ∨ bi_data b = None ∨ bi_size b = 0 ∨ bi_size b mod BLOCK_SECTOR_SIZE ≠ 0 ∨ capacity x < u32 (bi_sector b + bi_size b / BLOCK_SECTOR_SIZE)
  end.

Lemma bad_bio_check b s : bad_bio b s → ∃ st, check_bio b s = inl st ∧ st ≠ BLK_STS_OK.
Proof.
  unfold bad_bio, check_bio. destruct (bi_disk b) as [d|]; cbn [mbind option_bind]; [|intros _; by exists BLK_STS_NOTSUPP]. destruct (disks s !! d) as [x|]; [|intros _; by exists BLK_STS_NOTSUPP]. intros Hbad.
  change (BLOCK_SECTOR_SIZE - 1) with (Z.ones 9). rewrite Z.land_ones, Z.shiftr_div_pow2 by done. change (2 ^ 9) with BLOCK_SECTOR_SIZE. change (2 ^ SECTOR_SHIFT) with BLOCK_SECTOR_SIZE.
  destruct (d_make x); cbn [negb]; [|by exists BLK_STS_NOTSUPP]. case_bool_decide as H1; [by exists BLK_STS_IOERR|]. destruct (Z.eqb_spec (bi_size b) 0) as [H2|H2]; [by exists BLK_STS_IOERR|]. destruct (Z.eqb_spec (bi_size b mod BLOCK_SECTOR_SIZE) 0) as [H3|H3]; cbn [orb negb]; [|by exists BLK_STS_IOERR].
  destruct (Z.ltb_spec (capacity x) (u32 (bi_sector b + bi_size b / BLOCK_SECTOR_SIZE))) as [H4|H4]; [by exists BLK_STS_IOERR|]. exfalso. destruct Hbad as [H|[H|[H|[H|H]]]]; try done. lia.
Qed.

Lemma refused_me s b ok st : (check_bio b s = inl st ∨ (∃ d, check_bio b s = inr d) ∧ ok = false ∧ st = BLK_STS_IOERR) → st ≠ BLK_STS_OK →
  submit_bio_wait b ok s = Done (-1, bi_data b, last_call s (Call (with_status st b) true false (BRet (-1))) (qs s) (chans s) (media s) (accepted s) (picked s) (ended s ++ [length (calls s)])).
Proof.
  intros Hc Hst. unfold submit_bio_wait. change (new_call b s) with (last_call s (Call b false false BSubmit) (qs s) (chans s) (media s) (accepted s) (picked s) (ended s)).
  assert (submit_bio (length (calls s)) ok (last_call s (Call b false false BSubmit) (qs s) (chans s) (media s) (accepted s) (picked s) (ended s)) =
    Done (None, last_call s (Call (with_status st b) true false BSubmit) (qs s) (chans s) (media s) (accepted s) (picked s) (ended s ++ [length (calls s)]))) as Esub.
  { unfold submit_bio. rewrite get_me. run. cbn [c_bio]. change (check_bio b (last_call s _ _ _ _ _ _ _)) with (check_bio b s). destruct Hc as [->|((d & Ed) & -> & ->)]; [rewrite end_me; by run|]. rewrite Ed.
    apply check_bio_ok in Ed as (_ & _ & x & Hx). unfold ide_submit_bio. change (disks (last_call s ?k ?h ?ch ?md ?ac ?pk ?en)) with (disks s). rewrite Hx. cbn [deref negb]. run. rewrite end_me. by run. }
  change 20%nat with (S (S (S 17))). erewrite alone_step; [|done|unfold bstep; rewrite get_me; run; cbn [c_pc]; rewrite Esub; run; apply goto_me]. cbn [c_bio c_done c_live].
  erewrite alone_step; [|done|unfold bstep; rewrite get_me; run; cbn [c_pc c_done c_bio with_status bi_status]; rewrite (proj2 (Z.eqb_neq _ _) Hst); apply goto_me]. rewrite (alone_ret s 17 ok _ _ _ _ _ _ _ (-1)) by done. run. rewrite get_me. run. done.
Qed.


(** ** One sector *)

Lemma splice_all (l x : list Z) : length x = length l → splice l 0 x = x.
Proof. intros Hl. unfold splice. cbn [Z.to_nat take app]. rewrite drop_ge by lia. apply app_nil_r. Qed.

Lemma slice_all (l : list Z) : length l = Z.to_nat BLOCK_SECTOR_SIZE → slice l 0 = l.
Proof. intros Hl. unfold slice. cbn [Z.to_nat]. rewrite drop_0. apply take_ge. lia. Qed.

Section Sector.
Context (dk : list disk) (n : nat) (m : gmap (nat * Z) (list Z)).
Context (Hch : ∀ d x, dk !! d = Some x → (d_chan x < n)%nat).

(** C20: on a disk whose channel is idle, in any state of any run, reading a sector
    of the disk fills the buffer with it, and writing one puts the buffer there
    and nowhere else. *)
Theorem sector_transfer s d x y sec buf : blk_run dk n m s → disks s !! d = Some x → chans s !! d_chan x = Some y → busy y = false → d_make x = true →
  u32 (sec + 1) ≤ capacity x → (d_sectors x = 0 ∨ sec < d_sectors x) → length buf = Z.to_nat BLOCK_SECTOR_SIZE → length (sector_at (media s) d sec) = Z.to_nat BLOCK_SECTOR_SIZE →
  (∃ s', blkdev_read_sect d sec buf true true s = Done (0, Some (sector_at (media s) d sec), s') ∧ media s' = media s) ∧
  (∃ s', blkdev_write_sect d sec buf true true s = Done (0, Some buf, s') ∧ media s' = <[(d, sec) := buf]> (media s)).
Proof using Hch.
  intros Hr Hd Hy Hb Hmk Hcap Hsec Hbuf Hlen. destruct (blk_run_ok dk n m Hch s Hr) as (Q & Hok). assert (sector_ok x sec true = true) as Hso.
  { unfold sector_ok. destruct Hsec as [->|Hsec]; [done|]. rewrite (proj2 (Z.leb_gt _ _) Hsec), andb_false_r. done. }
  split.
  - destruct (transfer_me s Q d x y Hok Hd Hy Hb (read_bio d sec buf) buf eq_refl eq_refl eq_refl Hmk Hcap Hso) as (s' & E & Em & _). exists s'.
    assert (moved d (read_bio d sec buf) buf (media s) = (media s, splice buf 0 (sector_at (media s) d sec))) as Emv by reflexivity. rewrite Emv in E, Em. cbn [fst snd] in E, Em. rewrite splice_all in E by congruence. split; [exact E|exact Em].
  - destruct (transfer_me s Q d x y Hok Hd Hy Hb (write_bio d sec buf) buf eq_refl eq_refl eq_refl Hmk Hcap Hso) as (s' & E & Em & _). exists s'.
    assert (moved d (write_bio d sec buf) buf (media s) = (<[(d, sec) := slice buf 0]> (media s), buf)) as Emv by reflexivity. rewrite Emv in E, Em. cbn [fst snd] in E, Em. rewrite slice_all in Em by done. split; [exact E|exact Em].
Qed.
End Sector.

(** * Two disks on one channel and one on another; two calls for the
    same disk, of which the first serves both. *)

Definition hda : disk := Disk 100 true 0 100.
Definition hdb : disk := Disk 50 true 0 50.
Definition hdc : disk := Disk 200 true 1 200.
Definition three : list disk := [hda; hdb; hdc].

Lemma three_chans d x : three !! d = Some x → (d_chan x < 2)%nat.
Proof. destruct d as [|[|[|d]]]; intros E; try discriminate E; injection E as <-; cbn; lia. Qed.

Definition start : blk := blk0 three 2 ∅.

(** A run as a list of new calls and sections. *)
Inductive bact := NewCall (b : bio) | Section_ (i : nat) (ok : bool).

Fixpoint brun (l : list bact) (s : blk) : option blk :=
  match l with
  | [] => Some s
  | NewCall b :: l => brun l (new_call b s)
  | Section_ i ok :: l => if (i <? length (calls s))%nat then match bstep i ok s with Done s => brun l s | _ => None end else None
  end.

Lemma brun_ok l : ∀ s s', blk_run three 2 ∅ s → brun l s = Some s' → blk_run three 2 ∅ s'.
Proof.
  induction l as [|[b|i ok] l IH]; intros s s' Hr; cbn [brun].
  - by intros [= <-].
  - apply IH. by apply R_call.
  - destruct (Nat.ltb_spec i (length (calls s))); [|done]. destruct (bstep i ok s) as [s1| | |] eqn:E; try done. apply IH. by eapply R_step.
Qed.

Definition buf0 : list Z := repeat 7 512.

(** Both calls queue their requests; the first is in the middle of its own, the
    second sleeps. *)
Definition busy_run : list bact :=
  [NewCall (write_bio 0 5 buf0); NewCall (read_bio 0 6 buf0); Section_ 0 true; Section_ 1 true; Section_ 1 true; Section_ 0 true; Section_ 0 true].
Definition mid : option blk := brun busy_run start.

Definition is_some {A} (o : option A) : bool := match o with Some _ => true | None => false end.
Lemma is_some_ok {A} (o : option A) : is_some o = true → ∃ x, o = Some x.
Proof. destruct o; [by eexists|done]. Qed.

Lemma mid_ok : ∃ s, mid = Some s ∧ blk_run three 2 ∅ s.
Proof.
  assert (is_some mid = true) as H by (vm_compute; reflexivity). destruct (is_some_ok _ H) as [s E]. exists s. split; [exact E|]. eapply (brun_ok busy_run start); [apply R_start|exact E].
Qed.

Lemma mid_queue : match mid with Some s => accepted s = [0; 1]%nat ∧ picked s = [0%nat] ∧ ended s = [] ∧ (c_pc <$> calls s !! 1%nat) = Some BSleep ∧ media s !! (0%nat, 5) = Some buf0 | None => False end.
Proof. vm_compute. repeat split. Qed.

Lemma block_layer_safe_witness : ∃ s, mid = Some s ∧ NoDup (ended s) ∧ requests_of s 0 (picked s) `prefix_of` requests_of s 0 (accepted s).
Proof.
  destruct mid_ok as (s & E & Hr). exists s. split; [exact E|]. destruct (block_layer_safe three 2 ∅ three_chans s Hr) as (_ & H1 & _ & H2 & _). split; [exact H1|]. apply H2.
  assert (match mid with Some s => length (disks s) = 3%nat | None => True end) as Hl by (vm_compute; reflexivity). rewrite E in Hl. rewrite Hl. lia.
Defined.

Lemma block_calls_return_witness : ∃ s, mid = Some s ∧ ends s.
Proof. destruct mid_ok as (s & E & Hr). exists s. split; [exact E|]. exact (block_calls_return three 2 ∅ three_chans s Hr). Defined.


Lemma sector_transfer_witness : ∃ s1 s2, blkdev_read_sect 1 49 buf0 true true start = Done (0, Some (repeat 0 512), s1) ∧ blkdev_write_sect 1 49 buf0 true true start = Done (0, Some buf0, s2) ∧ media s2 = {[(1%nat, 49) := buf0]}.
Proof.
  destruct (sector_transfer three 2 ∅ three_chans start 1 hdb (Chan false None) 49 buf0) as [(s1 & E1 & _) (s2 & E2 & M2)].
  - apply R_start.
  - reflexivity.
  - reflexivity.
  - reflexivity.
  - reflexivity.
  - vm_compute. discriminate.
  - right. reflexivity.
  - reflexivity.
  - reflexivity.
  - exists s1, s2. split; [exact E1|]. split; [exact E2|exact M2].
Defined.

(** The end of a transfer is compared with the capacity in 32 bits: the last
    sector number passes, whatever the size of the disk.  Only the driver's own
    test refuses it, and only if the disk reported its size. *)
Lemma last_sector_passes : check_bio (read_bio 1 (2 ^ 32 - 1) buf0) start = inr 1%nat.
Proof. reflexivity. Qed.
