(* ===== verification/Ext2.v ===== *)
(** [Ext2]: the read-only ext2 file system of kernel/fs/ext2/inode.c: the mount of a
    disk, the cache of inodes, the map from blocks of a file to blocks of the
    disk, reading, and walking a directory.

    [rd] is [blkdev_read_sect] of the block layer: the bytes of a sector, or
    nothing when it fails.  Blocks that are read into a heap buffer are values;
    an access behind the end of such a buffer is [Wild].  Whether [kmalloc]
    finds memory is an oracle in the state ([ask_memory]). *)
From Stdlib Require Import ZArith Lia.
From stdpp Require Import numbers strings gmap list.
From S2P Require Import Prelude Vfs.
Open Scope Z_scope.

Definition EXT2_NICACHE : nat := 64.
Definition EXT2_NDIR_BLOCKS : Z := 12.
Definition EXT2_IND_BLOCK : Z := 12.
Definition EXT2_N_BLOCKS : nat := 15.
Definition EXT2_SUPER_MAGIC : Z := 0xEF53.
Definition EXT2_ROOT_INO : Z := 2.
Definition EXT2_FEATURE_INCOMPAT_FILETYPE : Z := 2.
Definition SECTOR : Z := 512.
Definition sizeof_disk_inode : Z := 116.

(** [struct ext2_sb_info]; [sb_disk] is the disk. *)
Record ext2_sb_info := Sbi {
  sb_disk : nat;
  block_size : Z;
  inodes_per_group : Z;
  inode_size : Z;
  first_data_block : Z;
  feature_incompat : Z;
  inode_table : Z
}.

(** [struct ext2_mnode]: the fields of the inode that ext2 uses, and its own. *)
Record ext2_mnode := Mnode {
  m_type : Z;
  m_inum : Z;
  m_size : Z;
  m_ref : Z;
  m_parent : option nat;
  m_name : str;
  m_i_sb : option nat;
  m_sbi : option nat;
  m_i_block : list Z
}.

Definition free_mnode : ext2_mnode := Mnode 0 0 0 0 None [] None None (repeat 0 EXT2_N_BLOCKS).

(** The cache, the mounted instances by number, and the coming answers of
    [kmalloc] (yes when there are no more). *)
Record ext2 := Ext2 { eicache : list ext2_mnode; sbs : list (option ext2_sb_info); answers : list bool }.

Definition with_cache (c : list ext2_mnode) (s : ext2) : ext2 := Ext2 c (sbs s) (answers s).
Definition with_sbs (l : list (option ext2_sb_info)) (s : ext2) : ext2 := Ext2 (eicache s) l (answers s).

Definition ask_memory (s : ext2) : bool * ext2 :=
  match answers s with [] => (true, s) | b :: l => (b, Ext2 (eicache s) (sbs s) l) end.

Definition get_mnode (i : nat) (s : ext2) : outcome ext2_mnode := deref (eicache s !! i).
Definition set_mnode (i : nat) (m : ext2_mnode) (s : ext2) : ext2 := with_cache (<[i := m]> (eicache s)) s.
Definition get_sbi (i : nat) (s : ext2) : outcome ext2_sb_info := o ← deref (sbs s !! i); deref o.

(** ** Fields of structures on the disk *)

Definition u8_at (l : list Z) (p : Z) : outcome Z := deref (l !! Z.to_nat p).
Definition u16_at (l : list Z) (p : Z) : outcome Z := a ← u8_at l p; b ← u8_at l (p + 1); mret (a + 2 ^ 8 * b).
Definition u32_at (l : list Z) (p : Z) : outcome Z := a ← u16_at l p; b ← u16_at l (p + 2); mret (a + 2 ^ 16 * b).

(** [memcpy] of [n] bytes from [p] on. *)
Definition bytes_at (l : list Z) (p n : Z) : outcome (list Z) :=
  if (Z.to_nat (p + n) <=? length l)%nat then mret (take (Z.to_nat n) (drop (Z.to_nat p) l)) else Wild.

(** ** Names *)

(** [namecmp_n]: [a] is the name in the directory, [b] a C string. *)
Fixpoint namecmp_loop (i : nat) (n : nat) (a b : list Z) : outcome Z :=
  match n with
  | O => c ← deref ((b ++ [0]) !! i); mret (if c =? 0 then 0 else 1)
  | S n => x ← deref (a !! i); y ← deref ((b ++ [0]) !! i); if x =? y then namecmp_loop (S i) n a b else mret (x - y)
  end.
Definition namecmp_n (a b : list Z) (n : Z) : outcome Z := namecmp_loop 0 (Z.to_nat n) a b.

Definition namecpy_dir (src : str) : str := take (DIRSIZ - 1) src.

Definition mode_to_type (mode : Z) : Z :=
  let f := Z.land mode 0xF000 in if f =? 0x4000 then T_DIR else if f =? 0x8000 then T_FILE else 0.

Definition ft_to_dtype (ft : Z) : Z := if ft =? 1 then 8 else if ft =? 2 then 4 else if ft =? 3 then 2 else if ft =? 4 then 6 else 0.

Section Ext2.
Context (rd : nat → Z → option (list Z)).

(** ** Blocks *)

Fixpoint read_sects (disk : nat) (sec : Z) (n : nat) : option (list Z) :=
  match n with
  | O => Some []
  | S n => a ← rd disk (u32 sec); b ← read_sects disk (sec + 1) n; Some (a ++ b)
  end.

(** [uint64] has 32 bits in this build. *)
Definition ext2_read_block (sb : ext2_sb_info) (block : Z) : option (list Z) :=
  if block_size sb =? 0 then None
  else read_sects (sb_disk sb) (u32 (block * block_size sb) / SECTOR) (Z.to_nat (block_size sb / SECTOR)).

(** ** Inodes *)

Definition cached (sbi : nat) (inum : Z) (m : ext2_mnode) : Prop := m_type m ≠ 0 ∧ m_sbi m = Some sbi ∧ m_inum m = inum.
#[global] Instance cached_dec sbi inum m : Decision (cached sbi inum m).
Proof using. unfold cached. apply _. Defined.

(** [struct ext2_disk_inode] from the bytes of the inode table. *)
Record disk_inode := Din { i_mode : Z; i_size : Z; di_block : list Z }.
Definition decode_inode (l : list Z) : outcome disk_inode :=
  mode ← u16_at l 0;
  sz ← u32_at l 4;
  bl ← (fix go (k : nat) : outcome (list Z) := match k with O => mret [] | S k => r ← go k; w ← u32_at l (40 + 4 * Z.of_nat k); mret (r ++ [w]) end) EXT2_N_BLOCKS;
  mret (Din mode sz bl).

Definition ext2_iget (sbi : nat) (inum : Z) (s : ext2) : outcome (option nat * ext2) :=
  if inum =? 0 then mret (None, s)
  else
    match list_find (cached sbi inum) (eicache s) with
    | Some (i, m) => mret (Some i, set_mnode i (Mnode (m_type m) (m_inum m) (m_size m) (m_ref m + 1) (m_parent m) (m_name m) (m_i_sb m) (m_sbi m) (m_i_block m)) s)
    | None =>
        match list_find (λ m, m_type m = 0) (eicache s) with
        | None => mret (None, s)
        | Some (free, _) =>
            sb ← get_sbi sbi s;
            if inodes_per_group sb =? 0 then Panic "divide error"
            else
              let group := (inum - 1) / inodes_per_group sb in
              let index := (inum - 1) mod inodes_per_group sb in
              if negb (group =? 0) then mret (None, s)
              else if block_size sb =? 0 then Panic "divide error"
              else
                let at_ := u32 (index * inode_size sb) in
                let b := u32 (inode_table sb + at_ / block_size sb) in
                let off := at_ mod block_size sb in
                let '(ok, s) := ask_memory s in
                if negb ok then mret (None, s)
                else
                  match ext2_read_block sb b with
                  | None => mret (None, s)
                  | Some blk =>
                      raw ← bytes_at blk off (Z.min sizeof_disk_inode (inode_size sb));
                      din ← decode_inode (raw ++ repeat 0 (Z.to_nat sizeof_disk_inode));
                      let type := mode_to_type (i_mode din) in
                      if type =? 0 then mret (None, set_mnode free (Mnode 0 inum 0 0 None [] None (Some sbi) (repeat 0 EXT2_N_BLOCKS)) s)
                      else mret (Some free, set_mnode free (Mnode type inum (i_size din) 1 None [] (Some sbi) (Some sbi) (di_block din)) s)
                  end
        end
    end.

(** [EXT2_SB(ip)] with the check that [mn] belongs to it. *)
Definition EXT2_SB (m : ext2_mnode) (s : ext2) : outcome (option ext2_sb_info) :=
  match m_i_sb m with None => mret None | Some i => sb ← get_sbi i s; mret (Some sb) end.

(** The block of the disk for block [lbn] of a file; 0 for a hole. *)
Definition ext2_bmap (m : ext2_mnode) (sb : ext2_sb_info) (lbn : Z) (s : ext2) : outcome (Z * ext2) :=
  if negb (bool_decide (m_sbi m = m_i_sb m)) then mret (0, s)
  else if lbn <? EXT2_NDIR_BLOCKS then b ← deref (m_i_block m !! Z.to_nat lbn); mret (b, s)
  else
    let lbn := lbn - EXT2_NDIR_BLOCKS in
    if lbn <? block_size sb / 4 then
      ind ← deref (m_i_block m !! Z.to_nat EXT2_IND_BLOCK);
      if ind =? 0 then mret (0, s)
      else
        let '(ok, s) := ask_memory s in
        if negb ok then mret (0, s)
        else
          match ext2_read_block sb ind with
          | None => mret (0, s)
          | Some buf => p ← u32_at buf (4 * lbn); mret (p, s)
          end
    else mret (0, s).

(** ** Reading a file *)

(** From [total] bytes on; the bytes that were stored and what is returned. *)
Fixpoint read_data_loop (fuel : nat) (m : ext2_mnode) (sb : ext2_sb_info) (off n : Z) (dst : list Z) (s : ext2) : outcome (Z * list Z * ext2) :=
  match fuel with
  | O => NoFuel
  | S fuel =>
      let total := Z.of_nat (length dst) in
      if total <? n then
        let lbn := u32 (off + total) / block_size sb in
        let boff := u32 (off + total) mod block_size sb in
        let chunk := Z.min (block_size sb - boff) (n - total) in
        '(phys, s) ← ext2_bmap m sb lbn s;
        if phys =? 0 then read_data_loop fuel m sb off n (dst ++ repeat 0 (Z.to_nat chunk)) s
        else
          match ext2_read_block sb phys with
          | None => mret (if total =? 0 then -1 else s32 total, dst, s)
          | Some blk => piece ← bytes_at blk boff chunk; read_data_loop fuel m sb off n (dst ++ piece) s
          end
      else mret (s32 total, dst, s)
  end.

Definition ext2_read_data (m : ext2_mnode) (off n : Z) (s : ext2) : outcome (Z * list Z * ext2) :=
  o ← EXT2_SB m s;
  match o with
  | None => mret (-1, [], s)
  | Some sb =>
      if m_size m <=? off then mret (0, [], s)
      else
        let n := if m_size m <? u32 (off + n) then m_size m - off else n in
        let '(ok, s) := ask_memory s in
        if negb ok then mret (-1, [], s)
        else read_data_loop (Z.to_nat (n / block_size sb) + 3) m sb off n [] s
  end.

(** ** Directories *)

(** [struct ext2_dir_entry] at a position of a block; [de_rest] are the bytes from
    its name to the end of the block. *)
Record ext2_dir_entry := De { de_inode : Z; de_rec_len : Z; de_name_len : Z; de_file_type : Z; de_rest : list Z }.

Section Iterate.
Context {A : Type} (cb : ext2_dir_entry → A → outcome (Z * A)).

(** The loop of [ext2_dir_iterate] from [off], with the block read last. *)
Fixpoint dir_loop (fuel : nat) (m : ext2_mnode) (sb : ext2_sb_info) (off : Z) (blk : list Z) (arg : A) (s : ext2) : outcome (Z * A * ext2) :=
  match fuel with
  | O => NoFuel
  | S fuel =>
      if off <? m_size m then
        let lbn := off / block_size sb in
        let pos := off mod block_size sb in
        let entry (blk : list Z) (s : ext2) :=
          rec_len ← u16_at blk (pos + 4);
          if (rec_len <? 8) || (block_size sb <? pos + rec_len) then mret (-1, arg, s)
          else
            ino ← u32_at blk pos;
            nlen ← u8_at blk (pos + 6);
            ft ← u8_at blk (pos + 7);
            if negb (ino =? 0) && negb (nlen =? 0) then
              '(r, arg) ← cb (De ino rec_len nlen ft (drop (Z.to_nat (pos + 8)) blk)) arg;
              if negb (r =? 0) then mret (r, arg, s) else dir_loop fuel m sb (u32 (off + rec_len)) blk arg s
            else dir_loop fuel m sb (u32 (off + rec_len)) blk arg s in
        if pos =? 0 then
          '(phys, s) ← ext2_bmap m sb lbn s;
          if phys =? 0 then mret (-1, arg, s)
          else match ext2_read_block sb phys with None => mret (-1, arg, s) | Some blk => entry blk s end
        else entry blk s
      else mret (0, arg, s)
  end.

Definition ext2_dir_iterate (m : ext2_mnode) (arg : A) (s : ext2) : outcome (Z * A * ext2) :=
  o ← EXT2_SB m s;
  match o with
  | None => mret (-1, arg, s)
  | Some sb =>
      if negb (m_type m =? T_DIR) then mret (-1, arg, s)
      else
        let '(ok, s) := ask_memory s in
        if negb ok then mret (-1, arg, s) else dir_loop (Z.to_nat (m_size m / 8) + 2) m sb 0 [] arg s
  end.
End Iterate.

(** [lookup_cb]; the argument is the number found. *)
Definition lookup_cb (name : str) (de : ext2_dir_entry) (inum : Z) : outcome (Z * Z) :=
  c ← namecmp_n (de_rest de) name (de_name_len de);
  if c =? 0 then mret (1, de_inode de) else mret (0, inum).

Definition ext2_lookup (dir : nat) (name : str) (s : ext2) : outcome (option nat * ext2) :=
  m ← get_mnode dir s;
  match m_i_sb m with
  | None => mret (None, s)
  | Some sbi =>
      if negb (m_type m =? T_DIR) then mret (None, s)
      else
        '(r, inum, s) ← ext2_dir_iterate (lookup_cb name) m 0 s;
        if negb (r =? 1) || (inum =? 0) then mret (None, s)
        else
          '(o, s) ← ext2_iget sbi inum s;
          match o with
          | None => mret (None, s)
          | Some i =>
              c ← get_mnode i s;
              let p := match m_parent c with None => Some dir | p => p end in
              mret (Some i, set_mnode i (Mnode (m_type c) (m_inum c) (m_size c) (m_ref c) p (namecpy_dir name) (m_i_sb c) (m_sbi c) (m_i_block c)) s)
          end
  end.

(** [struct readdir_arg], with the bytes stored so far. *)
Record readdir_arg := Rda { ra_skip : Z; ra_seen : Z; ra_dst : list Z; ra_nleft : Z; ra_base : Z; ra_feature : Z }.

Definition readdir_cb (de : ext2_dir_entry) (a : readdir_arg) : outcome (Z * readdir_arg) :=
  if ra_seen a <? ra_skip a then mret (0, Rda (ra_skip a) (ra_seen a + 1) (ra_dst a) (ra_nleft a) (ra_base a) (ra_feature a))
  else if ra_nleft a <? sizeof_dirent then mret (1, a)
  else
    let off := u32 (ra_base a + Z.of_nat (length (ra_dst a)) + sizeof_dirent) in
    let type := if negb (Z.land (ra_feature a) EXT2_FEATURE_INCOMPAT_FILETYPE =? 0) then ft_to_dtype (de_file_type de) else 0 in
    name ← bytes_at (de_rest de) 0 (Z.min (de_name_len de) (Z.of_nat NAME_MAX));
    mret (0, Rda (ra_skip a) (ra_seen a + 1) (ra_dst a ++ dirent_bytes (de_inode de) off type name) (ra_nleft a - sizeof_dirent) (ra_base a) (ra_feature a)).

Definition ext2_readdir (m : ext2_mnode) (off n : Z) (s : ext2) : outcome (Z * list Z * ext2) :=
  o ← EXT2_SB m s;
  match o with
  | None => mret (-1, [], s)
  | Some sb =>
      if negb (off mod sizeof_dirent =? 0) then mret (-1, [], s)
      else
        '(_, a, s) ← ext2_dir_iterate readdir_cb m (Rda (off / sizeof_dirent) 0 [] n off (feature_incompat sb)) s;
        mret (s32 (Z.of_nat (length (ra_dst a))), ra_dst a, s)
  end.

Definition ext2_read (i : nat) (off n : Z) (s : ext2) : outcome (Z * list Z * ext2) :=
  m ← get_mnode i s;
  if m_type m =? T_DIR then ext2_readdir m off n s
  else if m_type m =? T_FILE then ext2_read_data m off n s
  else mret (-1, [], s).

(** Nothing can be changed. *)
Definition ext2_write (s : ext2) : Z * ext2 := (-1, s).
Definition ext2_create (s : ext2) : Z * ext2 := (-1, s).
Definition ext2_mkdir (s : ext2) : Z * ext2 := (-1, s).
Definition ext2_rmdir (s : ext2) : Z * ext2 := (-1, s).
Definition ext2_mknod (s : ext2) : Z * ext2 := (-1, s).

Definition ext2_evict (i : nat) (s : ext2) : outcome ext2 :=
  _ ← get_mnode i s; mret (set_mnode i free_mnode s).

(** ** Mounting *)

Definition ext2_read_sb_raw (gd : nat) : option (list Z) := rd gd (1024 / SECTOR).

(** [ext2_read_super] on a fresh [ext2_sb_info] for disk [gd]. *)
Definition ext2_read_super (gd : nat) (s : ext2) : outcome (option ext2_sb_info * ext2) :=
  match ext2_read_sb_raw gd with
  | None => mret (None, s)
  | Some sb =>
      magic ← u16_at sb 56;
      if negb (magic =? EXT2_SUPER_MAGIC) then mret (None, s)
      else
        log ← u32_at sb 24;
        if 32 <=? log then Wild
        else
          let bs := u32 (Z.shiftl 1024 log) in
          if (bs <? 1024) || (4096 <? bs) then mret (None, s)
          else
            ipg ← u32_at sb 40;
            fdb ← u32_at sb 20;
            feat ← u32_at sb 96;
            rev ← u32_at sb 76;
            isz ← u16_at sb 88;
            let isz := Z.max 128 (if 1 <=? rev then isz else 128) in
            let '(ok, s) := ask_memory s in
            if negb ok then mret (None, s)
            else
              match ext2_read_block (Sbi gd bs ipg isz fdb feat 0) (u32 (fdb + 1)) with
              | None => mret (None, s)
              | Some blk => table ← u32_at blk 8; mret (Some (Sbi gd bs ipg isz fdb feat table), s)
              end
  end.

Definition ext2_fill_super (gd : nat) (s : ext2) : outcome (option nat * ext2) :=
  let '(ok, s) := ask_memory s in
  if negb ok then mret (None, s)
  else
    '(o, s) ← ext2_read_super gd s;
    match o with
    | None => mret (None, s)
    | Some sb =>
        let sbi := length (sbs s) in
        '(root, s) ← ext2_iget sbi EXT2_ROOT_INO (with_sbs (sbs s ++ [Some sb]) s);
        match root with
        | None => mret (None, with_sbs (<[sbi := None]> (sbs s)) s)
        | Some r => mret (Some r, s)
        end
    end.

Definition ext2_put_super (sbi : nat) (s : ext2) : ext2 :=
  with_sbs (<[sbi := None]> (sbs s))
    (with_cache ((λ m, if bool_decide (m_sbi m = Some sbi) then Mnode 0 (m_inum m) (m_size m) 0 (m_parent m) (m_name m) None None (m_i_block m) else m) <$> eicache s) s).
End Ext2.
