(* ===== verification/Ext2Spec.v ===== *)
(** [Ext2Spec]: what ext2 reads.  The contents of a file are one sequence of bytes,
    byte [k] of which is byte [k mod block_size] of its block [k / block_size];
    reading returns the part that is asked for.  A directory is a sequence of
    entries laid out in such a file, and walking it visits them in order. *)
From Stdlib Require Import ZArith Lia.
From stdpp Require Import numbers strings gmap list.
From S2P Require Import Prelude MemLayout Vfs Ext2.
Open Scope Z_scope.

Section Spec.
Context (rd : nat → Z → option (list Z)).
Context (rd_len : ∀ d s l, rd d s = Some l → length l = Z.to_nat SECTOR).

(** The block sizes [ext2_read_super] accepts. *)
Definition sb_ok (sb : ext2_sb_info) : Prop := block_size sb = 1024 ∨ block_size sb = 2048 ∨ block_size sb = 4096.

Lemma read_sects_len d n : ∀ sec l, read_sects rd d sec n = Some l → length l = (n * Z.to_nat SECTOR)%nat.
Proof using rd_len.
  induction n as [|n IH]; intros sec l; cbn [read_sects]; [by intros [= <-]|]. destruct (rd d (u32 sec)) as [a|] eqn:Ea; cbn [mbind option_bind]; [|done].
  destruct (read_sects rd d (sec + 1) n) as [b|] eqn:Eb; cbn [mbind option_bind]; [|done]. intros [= <-]. rewrite length_app, (rd_len _ _ _ Ea), (IH _ _ Eb). lia.
Qed.

Lemma read_block_len sb b l : sb_ok sb → ext2_read_block rd sb b = Some l → Z.of_nat (length l) = block_size sb.
Proof using rd_len.
  unfold ext2_read_block. intros Hsb. destruct (block_size sb =? 0); [done|]. intros ->%read_sects_len. destruct Hsb as [->|[->| ->]]; reflexivity.
Qed.

Lemma bs_pos sb : sb_ok sb → 0 < block_size sb.
Proof using. intros [->|[->| ->]]; done. Qed.

(** ** Blocks of a file *)

(** The blocks of the disk that hold the file; 0 for a hole. *)
Definition p_bmap (m : ext2_mnode) (sb : ext2_sb_info) (lbn : Z) : Z :=
  if lbn <? EXT2_NDIR_BLOCKS then default 0 (m_i_block m !! Z.to_nat lbn)
  else
    let ind := default 0 (m_i_block m !! Z.to_nat EXT2_IND_BLOCK) in
    if lbn - EXT2_NDIR_BLOCKS <? block_size sb / 4 then
      if ind =? 0 then 0
      else match ext2_read_block rd sb ind with Some blk => match u32_at blk (4 * (lbn - EXT2_NDIR_BLOCKS)) with Done w => w | _ => 0 end | None => 0 end
    else 0.

Definition file_byte (m : ext2_mnode) (sb : ext2_sb_info) (k : Z) : Z :=
  let b := p_bmap m sb (k / block_size sb) in
  if b =? 0 then 0 else match ext2_read_block rd sb b with Some blk => default 0 (blk !! Z.to_nat (k mod block_size sb)) | None => 0 end.

(** The contents of a file. *)
Definition content (m : ext2_mnode) (sb : ext2_sb_info) : list Z := file_byte m sb <$> seqZ 0 (m_size m).

(** An inode of a mounted disk whose blocks can be read. *)
Record readable (m : ext2_mnode) (sb : ext2_sb_info) (s : ext2) : Prop := {
  rb_sb : sb_ok sb;
  rb_at : ∃ i, m_i_sb m = Some i ∧ m_sbi m = Some i ∧ sbs s !! i = Some (Some sb);
  rb_blocks : length (m_i_block m) = EXT2_N_BLOCKS;
  rb_size : 0 ≤ m_size m < 2 ^ 32;
  rb_ind : default 0 (m_i_block m !! Z.to_nat EXT2_IND_BLOCK) ≠ 0 → is_Some (ext2_read_block rd sb (default 0 (m_i_block m !! Z.to_nat EXT2_IND_BLOCK)));
  rb_data lbn : 0 ≤ lbn < m_size m → p_bmap m sb lbn ≠ 0 → is_Some (ext2_read_block rd sb (p_bmap m sb lbn));
  rb_mem : answers s = []
}.

Lemma memory_yes s : answers s = [] → ask_memory s = (true, s).
Proof using. unfold ask_memory. by intros ->. Qed.

Lemma u32_at_done l p : 0 ≤ p → p + 4 ≤ Z.of_nat (length l) → ∃ w, u32_at l p = Done w.
Proof using.
  intros Hp Hl. assert (∀ k, 0 ≤ k < 4 → ∃ x, u8_at l (p + k) = Done x) as Hb. { intros k Hk. unfold u8_at. destruct (lookup_lt_is_Some_2 l (Z.to_nat (p + k))) as [x ->]; [lia|]. by exists x. }
  destruct (Hb 0 ltac:(lia)) as [a Ha], (Hb 1 ltac:(lia)) as [b Eb], (Hb 2 ltac:(lia)) as [c Hc], (Hb 3 ltac:(lia)) as [d Hd]. unfold u32_at, u16_at. rewrite Z.add_0_r in Ha. rewrite Ha. run. rewrite Eb. run. rewrite Hc. run. replace (p + 2 + 1) with (p + 3) by lia. rewrite Hd. run. by eexists.
Qed.

Lemma repeat_get (x : Z) n j : (j < n)%nat → repeat x n !! j = Some x.
Proof using. revert j. induction n as [|n IH]; intros [|j] Hj; [lia|lia|done|]. apply IH. lia. Qed.

(** A part of the contents, byte by byte. *)
Lemma content_slice m sb off n : 0 ≤ off ≤ m_size m → 0 ≤ n →
  take (Z.to_nat n) (drop (Z.to_nat off) (content m sb)) = file_byte m sb <$> seqZ off (Z.min n (m_size m - off)).
Proof using.
  intros Ho Hn. unfold content. apply list_eq. intros j. rewrite list_lookup_fmap. destruct (decide (j < Z.to_nat (Z.min n (m_size m - off)))%nat).
  - rewrite lookup_take_lt, lookup_drop, list_lookup_fmap, !lookup_seqZ_lt by lia. cbn. do 2 f_equal. lia.
  - rewrite (lookup_seqZ_ge off) by lia. apply lookup_ge_None_2. rewrite length_take, length_drop, length_fmap, length_seqZ. lia.
Qed.

Section Inode.
Context (m : ext2_mnode) (sb : ext2_sb_info) (s : ext2) (Hr : readable m sb s).

Lemma sb_of : EXT2_SB m s = Done (Some sb).
Proof using Hr. destruct (rb_at _ _ _ Hr) as (i & E1 & _ & E2). unfold EXT2_SB, get_sbi. rewrite E1, E2. done. Qed.

Lemma bmap_ok lbn : 0 ≤ lbn → ext2_bmap rd m sb lbn s = Done (p_bmap m sb lbn, s).
Proof using Hr rd_len.
  intros Hl. destruct (rb_at _ _ _ Hr) as (i & E1 & E2 & _). unfold ext2_bmap, p_bmap. rewrite E1, E2, bool_decide_eq_true_2 by done. cbn [negb]. pose proof (rb_blocks _ _ _ Hr) as Hb.
  destruct (Z.ltb_spec lbn EXT2_NDIR_BLOCKS) as [Hd|Hd].
  - destruct (lookup_lt_is_Some_2 (m_i_block m) (Z.to_nat lbn)) as [b ->]; [rewrite Hb; unfold EXT2_N_BLOCKS, EXT2_NDIR_BLOCKS in *; lia|]. done.
  - destruct (Z.ltb_spec (lbn - EXT2_NDIR_BLOCKS) (block_size sb / 4)) as [Hi|Hi]; [|done]. pose proof (rb_ind _ _ _ Hr) as Hind. destruct (lookup_lt_is_Some_2 (m_i_block m) (Z.to_nat EXT2_IND_BLOCK)) as [b Eb]; [rewrite Hb; unfold EXT2_N_BLOCKS, EXT2_IND_BLOCK; lia|]. rewrite Eb in Hind |- *. cbn [deref default from_option id] in *. run.
    destruct (Z.eqb_spec b 0) as [->|Hne]; [done|]. rewrite (memory_yes s (rb_mem _ _ _ Hr)). cbn [negb]. destruct (Hind Hne) as [blk Eblk]. rewrite Eblk. pose proof (read_block_len sb b blk (rb_sb _ _ _ Hr) Eblk) as Hlen.
    destruct (u32_at_done blk (4 * (lbn - EXT2_NDIR_BLOCKS))) as [w ->]; [lia| |by run]. rewrite Hlen. destruct (rb_sb _ _ _ Hr) as [E|[E|E]]; rewrite E in *; change (1024 / 4) with 256 in *; change (2048 / 4) with 512 in *; change (4096 / 4) with 1024 in *; lia.
Qed.

(** The bytes of one block. *)
Lemma piece_ok k n : 0 ≤ k → 0 ≤ n → k mod block_size sb + n ≤ block_size sb →
  (p_bmap m sb (k / block_size sb) = 0 → file_byte m sb <$> seqZ k n = repeat 0 (Z.to_nat n)) ∧
  (∀ blk, p_bmap m sb (k / block_size sb) ≠ 0 → ext2_read_block rd sb (p_bmap m sb (k / block_size sb)) = Some blk → bytes_at blk (k mod block_size sb) n = Done (file_byte m sb <$> seqZ k n)).
Proof using Hr rd_len.
  intros Hk Hn Hin. pose proof (bs_pos sb (rb_sb _ _ _ Hr)) as Hbs. pose proof (Z.mod_pos_bound k (block_size sb) Hbs) as Hm. pose proof (Z.div_mod k (block_size sb) ltac:(lia)) as Hdm.
  assert (∀ j, 0 ≤ j < n → (k + j) / block_size sb = k / block_size sb ∧ (k + j) mod block_size sb = k mod block_size sb + j) as Hj.
  { intros j Hjn. assert (k + j = block_size sb * (k / block_size sb) + (k mod block_size sb + j)) as E by lia. split; [symmetry; by apply (Z.div_unique_pos _ _ _ (k mod block_size sb + j)); [lia|]|symmetry; by apply (Z.mod_unique_pos _ _ (k / block_size sb)); [lia|]]. }
  split.
  - intros Hz. apply list_eq. intros j. rewrite list_lookup_fmap. destruct (decide (j < Z.to_nat n)%nat) as [Hlt|Hge].
    + rewrite lookup_seqZ_lt by lia. cbn. unfold file_byte. destruct (Hj (Z.of_nat j)) as [-> _]; [lia|]. rewrite Hz. symmetry. by apply repeat_get.
    + rewrite lookup_seqZ_ge by lia. cbn. symmetry. apply lookup_ge_None_2. rewrite repeat_length. lia.
  - intros blk Hz Hblk. pose proof (read_block_len sb _ blk (rb_sb _ _ _ Hr) Hblk) as Hlen. unfold bytes_at. rewrite (proj2 (Nat.leb_le _ _)) by lia. run. f_equal. apply list_eq. intros j. rewrite list_lookup_fmap. destruct (decide (j < Z.to_nat n)%nat) as [Hlt|Hge].
    + rewrite lookup_take_lt, lookup_drop, lookup_seqZ_lt by lia. cbn. unfold file_byte. destruct (Hj (Z.of_nat j)) as [-> ->]; [lia|]. rewrite (proj2 (Z.eqb_neq _ _) Hz), Hblk. replace (Z.to_nat (k mod block_size sb + Z.of_nat j)) with (Z.to_nat (k mod block_size sb) + j)%nat by lia.
      destruct (lookup_lt_is_Some_2 blk (Z.to_nat (k mod block_size sb) + j)) as [x ->]; [lia|done].
    + rewrite lookup_seqZ_ge, lookup_take_ge by lia. done.
Qed.
Lemma seqZ_grow (f : Z → Z) a x y : 0 ≤ x → 0 ≤ y → (f <$> seqZ a x) ++ (f <$> seqZ (a + x) y) = f <$> seqZ a (x + y).
Proof using. intros Hx Hy. by rewrite <- fmap_app, <- seqZ_app. Qed.

Lemma data_loop_ok off n fuel : 0 ≤ off → off + n ≤ m_size m → n < 2 ^ 31 → ∀ total, 0 ≤ total ≤ n →
  (off + n) / block_size sb - (off + total) / block_size sb + (if total <? n then 1 else 0) < Z.of_nat fuel →
  read_data_loop rd fuel m sb off n (file_byte m sb <$> seqZ off total) s = Done (n, file_byte m sb <$> seqZ off n, s).
Proof using Hr rd_len.
  intros Hoff Hn Hint. pose proof (rb_size _ _ _ Hr) as Hsz. pose proof (bs_pos sb (rb_sb _ _ _ Hr)) as Hbs. induction fuel as [|fuel IH]; intros total Ht Hf.
  { pose proof (Z.div_le_mono (off + total) (off + n) (block_size sb) Hbs ltac:(lia)). destruct (total <? n); lia. }
  cbn [read_data_loop]. rewrite length_fmap, length_seqZ, Z2Nat.id by lia. destruct (Z.ltb_spec total n) as [Hlt|Hge].
  2:{ replace total with n by lia. rewrite s32_small by lia. done. }
  rewrite u32_small by lia. set (k := off + total) in *. set (c := Z.min (block_size sb - k mod block_size sb) (n - total)).
  pose proof (Z.mod_pos_bound k _ Hbs) as Hm. pose proof (Z.div_mod k (block_size sb) ltac:(lia)) as Hdm. assert (0 ≤ k / block_size sb) as Hq by (apply Z.div_pos; lia).
  assert (k / block_size sb ≤ k) as Hqk by (apply Z.div_le_upper_bound; nia). rewrite bmap_ok by done. run.
  destruct (piece_ok k c) as [Hz Hnz]; [lia|lia|lia|].
  assert (read_data_loop rd fuel m sb off n (file_byte m sb <$> seqZ off (total + c)) s = Done (n, file_byte m sb <$> seqZ off n, s)) as Hgo.
  { apply IH; [lia|]. destruct (Z.min_spec (block_size sb - k mod block_size sb) (n - total)) as [[_ Ec]|[_ Ec]]; fold c in Ec.
    - replace (off + (total + c)) with (k / block_size sb * block_size sb + 1 * block_size sb) by lia. rewrite <- Z.mul_add_distr_r, Z.div_mul by lia. destruct (total + c <? n); lia.
    - replace (total + c) with n by lia. rewrite Z.ltb_irrefl, Z.sub_diag. pose proof (Z.div_le_mono k (off + n) (block_size sb) Hbs ltac:(lia)). lia. }
  destruct (Z.eqb_spec (p_bmap m sb (k / block_size sb)) 0) as [E|E].
  - rewrite <- (Hz E), seqZ_grow by lia. exact Hgo.
  - destruct (rb_data _ _ _ Hr (k / block_size sb)) as [blk Hblk]; [lia|done|]. rewrite Hblk, (Hnz blk E Hblk). run. rewrite seqZ_grow by lia. exact Hgo.
Qed.

(** The part of a file that is asked for, when the end does not wrap. *)
Lemma read_data_ok off n : 0 ≤ off → 0 ≤ n < 2 ^ 31 → off + n < 2 ^ 32 →
  ext2_read_data rd m off n s = Done (Z.of_nat (length (take (Z.to_nat n) (drop (Z.to_nat off) (content m sb)))), take (Z.to_nat n) (drop (Z.to_nat off) (content m sb)), s).
Proof using Hr rd_len.
  intros Hoff Hn Hend. pose proof (rb_size _ _ _ Hr) as Hsz. pose proof (bs_pos sb (rb_sb _ _ _ Hr)) as Hbs. unfold ext2_read_data. rewrite sb_of. run. destruct (Z.leb_spec (m_size m) off) as [Hpast|Hin].
  { rewrite drop_ge; [by rewrite take_nil|]. unfold content. rewrite length_fmap, length_seqZ. lia. }
  rewrite (memory_yes s (rb_mem _ _ _ Hr)). cbn [negb]. rewrite u32_small by lia. set (n' := if m_size m <? off + n then m_size m - off else n).
  assert (n' = Z.min n (m_size m - off)) as En by (unfold n'; destruct (Z.ltb_spec (m_size m) (off + n)); lia).
  rewrite content_slice, <- En by lia.
  rewrite length_fmap, length_seqZ, Z2Nat.id by lia. apply (data_loop_ok off n' _ ltac:(lia) ltac:(lia) ltac:(lia) 0 ltac:(lia)).
  assert ((off + n') / block_size sb < off / block_size sb + n' / block_size sb + 2) as Hle.
  { apply Z.div_lt_upper_bound; [lia|]. pose proof (Z.div_mod off (block_size sb) ltac:(lia)). pose proof (Z.mod_pos_bound off _ Hbs). pose proof (Z.div_mod n' (block_size sb) ltac:(lia)). pose proof (Z.mod_pos_bound n' _ Hbs). nia. }
  assert (0 ≤ n' / block_size sb) by (apply Z.div_pos; lia). rewrite Z.add_0_r. destruct (0 <? n'); lia.
Qed.
End Inode.
End Spec.

(** * Directories of ext2.  A directory is the bytes of its entries one
    after the other, none of which crosses the end of a block; walking it calls
    the callback on the entries in use, in order, until it answers something
    else than zero.  With it, what looking up a name and listing a directory
    return. *)

(** An entry: inode, name, file type and what fills it up. *)
Record dent := Dent { e_ino : Z; e_name : str; e_ft : Z; e_pad : list Z }.

Definition name_len (e : dent) : Z := Z.of_nat (length (e_name e)).
Definition rec_len (e : dent) : Z := 8 + name_len e + Z.of_nat (length (e_pad e)).
Definition enc (e : dent) : list Z := le32 (e_ino e) ++ [rec_len e mod 256; rec_len e / 256; name_len e; e_ft e] ++ e_name e ++ e_pad e.

Definition live (e : dent) : bool := negb (e_ino e =? 0) && negb (name_len e =? 0).

(** Its fields fit, and no entry crosses the end of a block. *)
Definition dent_ok (e : dent) : Prop := 0 ≤ e_ino e < 2 ^ 32 ∧ name_len e < 256 ∧ rec_len e < 2 ^ 16.
Fixpoint fits (bs off : Z) (es : list dent) : Prop :=
  match es with [] => True | e :: es => off mod bs + rec_len e ≤ bs ∧ fits bs (off + rec_len e) es end.

Lemma rec_len_min e : 8 ≤ rec_len e.
Proof. unfold rec_len, name_len. lia. Qed.

Lemma enc_len e : Z.of_nat (length (enc e)) = rec_len e.
Proof. unfold enc, rec_len, name_len, le32. rewrite !length_app. cbn [length]. lia. Qed.

(** The callback, as a function of the entry. *)
Fixpoint visit {A} (sees : dent → A → outcome (Z * A)) (es : list dent) (a : A) : outcome (Z * A) :=
  match es with
  | [] => mret (0, a)
  | e :: es => if live e then '(r, a) ← sees e a; if negb (r =? 0) then mret (r, a) else visit sees es a else visit sees es a
  end.

(** ** Fields of an entry in a block *)

Lemma u8_skip pre l k : 0 ≤ k → u8_at (pre ++ l) (Z.of_nat (length pre) + k) = u8_at l k.
Proof. intros Hk. unfold u8_at. rewrite lookup_app_r by lia. do 2 f_equal. lia. Qed.

Lemma u16_skip pre l k : 0 ≤ k → u16_at (pre ++ l) (Z.of_nat (length pre) + k) = u16_at l k.
Proof. intros Hk. unfold u16_at. rewrite u8_skip by done. destruct (u8_at l k); run; try done. by rewrite <- Z.add_assoc, u8_skip by lia. Qed.

Lemma u32_skip pre l k : 0 ≤ k → u32_at (pre ++ l) (Z.of_nat (length pre) + k) = u32_at l k.
Proof. intros Hk. unfold u32_at. rewrite u16_skip by done. destruct (u16_at l k); run; try done. by rewrite <- Z.add_assoc, u16_skip by lia. Qed.

Lemma le32_back v : 0 ≤ v < 2 ^ 32 → v mod 256 + 2 ^ 8 * (v / 2 ^ 8 mod 256) + 2 ^ 16 * (v / 2 ^ 16 mod 256 + 2 ^ 8 * (v / 2 ^ 24 mod 256)) = v.
Proof. intros Hv. change (2 ^ 8) with 256 in *. change (2 ^ 16) with 65536 in *. change (2 ^ 24) with 16777216 in *. change (2 ^ 32) with 4294967296 in *. Z.div_mod_to_equations. lia. Qed.

Section Fields.
Context (e : dent) (He : dent_ok e) (pre tl : list Z).
Notation blk := (pre ++ enc e ++ tl).
Notation pos := (Z.of_nat (length pre)).

Lemma field_rec_len : u16_at blk (pos + 4) = Done (rec_len e).
Proof using.
  rewrite u16_skip by lia. trans (Done (rec_len e mod 256 + 2 ^ 8 * (rec_len e / 256))); [reflexivity|]. f_equal. pose proof (Z.div_mod (rec_len e) 256). lia.
Qed.
Lemma field_ino : u32_at blk pos = Done (e_ino e).
Proof using He. rewrite <- (Z.add_0_r pos), u32_skip by lia. trans (Done (e_ino e mod 256 + 2 ^ 8 * (e_ino e / 2 ^ 8 mod 256) + 2 ^ 16 * (e_ino e / 2 ^ 16 mod 256 + 2 ^ 8 * (e_ino e / 2 ^ 24 mod 256)))); [reflexivity|]. by rewrite (le32_back (e_ino e)) by apply He. Qed.
Lemma field_name_len : u8_at blk (pos + 6) = Done (name_len e).
Proof using. rewrite u8_skip by lia. done. Qed.
Lemma field_ft : u8_at blk (pos + 7) = Done (e_ft e).
Proof using. rewrite u8_skip by lia. done. Qed.
Lemma field_rest : drop (Z.to_nat (pos + 8)) blk = e_name e ++ e_pad e ++ tl.
Proof using. replace (Z.to_nat (pos + 8)) with (length pre + 8)%nat by lia. rewrite <- drop_drop, drop_app_length. cbn. by rewrite <- app_assoc. Qed.
End Fields.

(** ** Walking a directory *)

Section Walk.
Context (rd : nat → Z → option (list Z)).
Context (rd_len : ∀ d s l, rd d s = Some l → length l = Z.to_nat SECTOR).

(** A directory with the entries [es]. *)
Record directory (m : ext2_mnode) (sb : ext2_sb_info) (s : ext2) (es : list dent) : Prop := {
  di_read : readable rd m sb s;
  di_type : m_type m = T_DIR;
  di_content : content rd m sb = mjoin (enc <$> es);
  di_fits : fits (block_size sb) 0 es;
  di_ok : Forall dent_ok es;
  di_holes lbn : 0 ≤ lbn → lbn * block_size sb < m_size m → p_bmap rd m sb lbn ≠ 0
}.

Section Iterate.
Context (m : ext2_mnode) (sb : ext2_sb_info) (s : ext2) (es : list dent) (Hd : directory m sb s es).
Context {A : Type} (cb : ext2_dir_entry → A → outcome (Z * A)) (sees : dent → A → outcome (Z * A)).
Context (Hcb : ∀ e rest a, e ∈ es → live e = true → cb (De (e_ino e) (rec_len e) (name_len e) (e_ft e) (e_name e ++ rest)) a = sees e a).

Notation bs := (block_size sb).
Notation fb := (file_byte rd m sb).
Definition block_of (off : Z) : list Z := fb <$> seqZ (off / bs * bs) bs.

Let Hr : readable rd m sb s := di_read _ _ _ _ Hd.
Let Hbs : 0 < bs := bs_pos sb (rb_sb _ _ _ _ Hr).

Lemma block_read off : 0 ≤ off < m_size m → p_bmap rd m sb (off / bs) ≠ 0 ∧ ext2_read_block rd sb (p_bmap rd m sb (off / bs)) = Some (block_of off).
Proof using Hd rd_len.
  intros Ho. assert (0 ≤ off / bs) as Hq by (apply Z.div_pos; lia). pose proof (Z.mul_div_le off bs Hbs) as Hle. assert (p_bmap rd m sb (off / bs) ≠ 0) as Hne by (apply (di_holes _ _ _ _ Hd); lia). split; [done|].
  destruct (rb_data _ _ _ _ Hr (off / bs)) as [blk Hblk]; [nia|done|]. rewrite Hblk. f_equal.
  destruct (piece_ok rd rd_len m sb s Hr (off / bs * bs) bs) as [_ Hp]; [lia|lia|rewrite Z.mod_mul; lia|]. rewrite Z.div_mul, Z.mod_mul in Hp by lia. specialize (Hp blk Hne Hblk).
  unfold bytes_at in Hp. destruct (Z.to_nat (0 + bs) <=? length blk)%nat; [|done]. injection Hp as Hp. unfold block_of. rewrite <- Hp. symmetry. apply take_ge. pose proof (read_block_len rd rd_len sb _ blk (rb_sb _ _ _ _ Hr) Hblk). cbn. lia.
Qed.

(** The entry at [off] in its block. *)
Lemma block_entry off e rest : 0 ≤ off → drop (Z.to_nat off) (content rd m sb) = enc e ++ rest → off mod bs + rec_len e ≤ bs →
  ∃ pre tl, block_of off = pre ++ enc e ++ tl ∧ Z.of_nat (length pre) = off mod bs.
Proof using Hd.
  intros Ho Hc Hfit. pose proof (Z.mod_pos_bound off bs Hbs). pose proof (Z.div_mod off bs ltac:(lia)) as Hdm. pose proof (rec_len_min e).
  assert (enc e = fb <$> seqZ off (rec_len e)) as ->.
  { assert (enc e = take (Z.to_nat (rec_len e)) (drop (Z.to_nat off) (content rd m sb))) as E by (rewrite Hc, take_app_length'; [done|pose proof (enc_len e); lia]).
    assert (Z.to_nat off + Z.to_nat (rec_len e) ≤ length (content rd m sb))%nat as Hl. { pose proof (f_equal length Hc) as Hl. rewrite length_drop, length_app in Hl. pose proof (enc_len e). lia. }
    unfold content in Hl. rewrite length_fmap, length_seqZ in Hl. rewrite E, content_slice by lia. do 2 f_equal. lia. }
  exists (fb <$> seqZ (off / bs * bs) (off mod bs)), (fb <$> seqZ (off + rec_len e) (bs - off mod bs - rec_len e)). split; [|rewrite length_fmap, length_seqZ; lia].
  unfold block_of. rewrite (seqZ_grow fb off) by lia. replace off with (off / bs * bs + off mod bs) at 4 by lia. rewrite seqZ_grow by lia. do 2 f_equal. lia.
Qed.

Lemma loop_visit fuel : ∀ off todo blk a, 0 ≤ off → (∃ l, es = l ++ todo) → drop (Z.to_nat off) (content rd m sb) = mjoin (enc <$> todo) → fits bs off todo →
  (off mod bs ≠ 0 → blk = block_of off) → off ≤ m_size m → (length todo < fuel)%nat →
  dir_loop rd cb fuel m sb off blk a s = ('(r, a) ← visit sees todo a; mret (r, a, s)).
Proof using Hd rd_len Hcb.
  induction fuel as [|fuel IH]; intros off todo blk a Ho Hin Hc Hf Hblk Hsz Hfu; [lia|]. pose proof (f_equal length Hc) as Hl. unfold content in Hl. rewrite length_drop, length_fmap, length_seqZ in Hl. cbn [dir_loop]. pose proof (rb_size _ _ _ _ Hr) as Hsize.
  destruct todo as [|e todo]; [rewrite (proj2 (Z.ltb_ge _ _)); [done|cbn in Hl; lia]|]. rewrite fmap_cons in Hc, Hl. cbn [mjoin list_join] in Hc, Hl. rewrite length_app in Hl. pose proof (enc_len e) as Hel. pose proof (rec_len_min e) as Hmin. destruct Hf as [Hfit Hf]. rewrite (proj2 (Z.ltb_lt _ _)) by lia.
  destruct (block_entry off e _ Ho Hc Hfit) as (pre & tl & Eblk & Epos). destruct (block_read off) as [Hne Hrd]; [lia|].
  assert (e ∈ es) as Hine by (destruct Hin as [l ->]; apply elem_of_app; right; left). assert (dent_ok e) as Hok by (by eapply Forall_forall; [apply (di_ok _ _ _ _ Hd)|]).
  assert (∀ a, dir_loop rd cb fuel m sb (u32 (off + rec_len e)) (block_of off) a s = ('(r, a) ← visit sees todo a; mret (r, a, s))) as Hnext.
  { intros a'. rewrite u32_small by lia. apply IH; [lia| | |done| |lia|cbn in Hfu; lia].
    - destruct Hin as [l ->]. exists (l ++ [e]). by rewrite <- app_assoc.
    - replace (Z.to_nat (off + rec_len e)) with (Z.to_nat off + length (enc e))%nat by lia. by rewrite <- drop_drop, Hc, drop_app_length.
    - intros Hm. unfold block_of. replace ((off + rec_len e) / bs) with (off / bs); [done|]. pose proof (Z.div_mod off bs ltac:(lia)). pose proof (Z.mod_pos_bound off bs Hbs).
      destruct (decide (off mod bs + rec_len e = bs)) as [E|E]; [exfalso; apply Hm; replace (off + rec_len e) with ((off / bs + 1) * bs) by lia; apply Z.mod_mul; lia|].
      apply (Z.div_unique_pos _ _ _ (off mod bs + rec_len e)); lia. }
  assert (∀ blk, blk = block_of off → (rl ← u16_at blk (off mod bs + 4);
      if (rl <? 8) || (bs <? off mod bs + rl) then mret (-1, a, s)
      else ino ← u32_at blk (off mod bs); nlen ← u8_at blk (off mod bs + 6); ft ← u8_at blk (off mod bs + 7);
        if negb (ino =? 0) && negb (nlen =? 0) then
          '(r, a) ← cb (De ino rl nlen ft (drop (Z.to_nat (off mod bs + 8)) blk)) a;
          if negb (r =? 0) then mret (r, a, s) else dir_loop rd cb fuel m sb (u32 (off + rl)) blk a s
        else dir_loop rd cb fuel m sb (u32 (off + rl)) blk a s) = ('(r, a) ← visit sees (e :: todo) a; mret (r, a, s))) as Hentry.
  { intros ? ->. rewrite Eblk in Hnext |- *. rewrite <- Epos, field_rec_len. run. rewrite (proj2 (Z.ltb_ge _ _)), (proj2 (Z.ltb_ge _ _)) by lia. cbn [orb]. rewrite field_ino by done. run. rewrite field_name_len. run. rewrite field_ft. run. cbn [visit]. unfold live. rewrite field_rest.
    destruct (negb (e_ino e =? 0) && negb (name_len e =? 0)) eqn:El; [|by rewrite Hnext]. rewrite Hcb by done. destruct (sees e a) as [[r a']| | |]; run; [|done..]. destruct (negb (r =? 0)); [done|]. by rewrite Hnext. }
  destruct (Z.eqb_spec (off mod bs) 0) as [E|E]; [|by apply Hentry, Hblk]. rewrite (bmap_ok rd rd_len m sb s Hr) by (apply Z.div_pos; lia). run. rewrite (proj2 (Z.eqb_neq _ _) Hne), Hrd. by apply Hentry.
Qed.

Lemma entries_bytes (l : list dent) : (8 * length l ≤ length (mjoin (enc <$> l)))%nat.
Proof using. induction l as [|e l IH]; [done|]. rewrite fmap_cons. cbn [mjoin list_join length]. rewrite length_app. pose proof (enc_len e). pose proof (rec_len_min e).
  etrans; [|apply Nat.add_le_mono_l, IH]. lia. Qed.

Lemma iterate_visit a : ext2_dir_iterate rd cb m a s = ('(r, a) ← visit sees es a; mret (r, a, s)).
Proof using Hd rd_len Hcb.
  unfold ext2_dir_iterate. rewrite (sb_of rd m sb s Hr). run. rewrite (di_type _ _ _ _ Hd), Z.eqb_refl. cbn [negb]. rewrite (memory_yes s (rb_mem _ _ _ _ Hr)). cbn [negb].
  pose proof (rb_size _ _ _ _ Hr) as Hsz. apply loop_visit; [lia|by exists []|by rewrite drop_0; apply Hd|apply Hd|by rewrite Z.mod_0_l by lia|lia|].
  pose proof (entries_bytes es) as Hl. rewrite <- (di_content _ _ _ _ Hd) in Hl. unfold content in Hl. rewrite length_fmap, length_seqZ in Hl. pose proof (Z.div_le_lower_bound (m_size m) 8 (Z.of_nat (length es))). lia.
Qed.
End Iterate.

(** ** Names *)

Definition find_name (name : str) (es : list dent) : option dent := snd <$> list_find (λ e, live e = true ∧ e_name e = name) es.

Lemma namecmp_ok (x : list Z) : ∀ pre y rest : list Z, 0 ∉ x → 0 ∉ y → ∃ c, namecmp_loop (length pre) (length x) (pre ++ x ++ rest) (pre ++ y) = Done c ∧ (c = 0 ↔ x = y).
Proof using.
  induction x as [|c x IH]; intros pre y rest Hx Hy; cbn [namecmp_loop length].
  - rewrite <- app_assoc, lookup_app_r, Nat.sub_diag by lia. destruct y as [|d y]; cbn; [by exists 0|]. rewrite (proj2 (Z.eqb_neq d 0)) by (intros ->; apply Hy; left). by exists 1.
  - change ((c :: x) ++ rest) with (c :: (x ++ rest)). rewrite (list_lookup_middle pre (x ++ rest) c (length pre)) by done. cbn [deref]. run. rewrite <- (app_assoc pre y). apply not_elem_of_cons in Hx as [Hc Hx].
    destruct y as [|d y]; cbn [app]; rewrite list_lookup_middle by done; cbn [deref]; run.
    + rewrite (proj2 (Z.eqb_neq c 0)) by done. exists (c - 0). split; [done|]. split; [lia|done].
    + apply not_elem_of_cons in Hy as [Hdn Hy]. destruct (Z.eqb_spec c d) as [->|Hne]; [|exists (c - d); split; [done|]; split; [lia|by intros [= ?]]].
      destruct (IH (pre ++ [d]) y rest Hx Hy) as (r & Hr & Hiff). rewrite length_app, Nat.add_comm in Hr. rewrite <- !app_assoc in Hr. exists r. split; [exact Hr|]. rewrite Hiff. split; [by intros ->|by intros [= ->]].
Qed.

Lemma visit_lookup name es a : visit (λ e a, if decide (e_name e = name) then Done (1, e_ino e) else Done (0, a)) es a =
  Done (match find_name name es with Some e => (1, e_ino e) | None => (0, a) end).
Proof using.
  induction es as [|e es IH]; [done|]. cbn [visit]. unfold find_name in *. cbn [list_find]. destruct (live e) eqn:El.
  - destruct (decide (e_name e = name)) as [En|En]; run.
    + rewrite decide_True by done. done.
    + rewrite decide_False by tauto. cbn [negb Z.eqb]. rewrite IH. by destruct (list_find _ es) as [[??]|].
  - rewrite decide_False by (by intros [? _]). rewrite IH. by destruct (list_find _ es) as [[??]|].
Qed.

Lemma iterate_lookup m sb s es name : directory m sb s es → Forall (λ e, 0 ∉ e_name e) es → 0 ∉ name →
  ext2_dir_iterate rd (lookup_cb name) m 0 s = Done (match find_name name es with Some e => (1, e_ino e, s) | None => (0, 0, s) end).
Proof using rd_len.
  intros Hd Hes Hn. rewrite (iterate_visit m sb s es Hd _ (λ e a, if decide (e_name e = name) then Done (1, e_ino e) else Done (0, a))).
  - rewrite visit_lookup. by destruct (find_name name es).
  - intros e rest a He _. unfold lookup_cb, namecmp_n. cbn [de_rest de_name_len de_inode]. unfold name_len. rewrite Nat2Z.id. rewrite Forall_forall in Hes.
    destruct (namecmp_ok (e_name e) [] name rest (Hes e He) Hn) as (c & Ec & Hc). cbn [length app] in Ec. rewrite Ec. run. destruct (Z.eqb_spec c 0); destruct (decide (e_name e = name)); tauto.
Qed.

(** ** Listing *)

(** The records of the entries [l] for position [pos] of the listing. *)
Fixpoint dirents (feature pos : Z) (l : list dent) : list Z :=
  match l with
  | [] => []
  | e :: l =>
      dirent_bytes (e_ino e) (u32 (pos + sizeof_dirent)) (if negb (Z.land feature EXT2_FEATURE_INCOMPAT_FILETYPE =? 0) then ft_to_dtype (e_ft e) else 0) (take NAME_MAX (e_name e)) ++
      dirents feature (pos + sizeof_dirent) l
  end.

Lemma dirent_len ino off type name : (length name ≤ DIRSIZ)%nat → Z.of_nat (length (dirent_bytes ino off type name)) = sizeof_dirent.
Proof using. intros Hn. unfold dirent_bytes, bytes_le, sizeof_dirent. rewrite !length_app, !length_fmap, !length_seq, length_replicate. unfold DIRSIZ, NAME_MAX in *. lia. Qed.

Lemma dirents_len feature l : ∀ pos, Z.of_nat (length (dirents feature pos l)) = sizeof_dirent * Z.of_nat (length l).
Proof using. induction l as [|e l IH]; intros pos; [done|]. cbn [dirents length]. rewrite length_app, Nat2Z.inj_add, IH, dirent_len; [lia|]. rewrite length_take. unfold DIRSIZ. lia. Qed.

Definition lists (e : dent) : readdir_arg → outcome (Z * readdir_arg) := readdir_cb (De (e_ino e) (rec_len e) (name_len e) (e_ft e) (e_name e)).

Lemma name_bytes (name rest : list Z) : bytes_at (name ++ rest) 0 (Z.min (Z.of_nat (length name)) (Z.of_nat NAME_MAX)) = Done (take NAME_MAX name).
Proof using.
  unfold bytes_at. rewrite (proj2 (Nat.leb_le _ _)) by (rewrite length_app; lia). run. f_equal. cbn [drop]. rewrite drop_0. destruct (decide (length name ≤ NAME_MAX)%nat).
  - rewrite (take_ge name) by lia. replace (Z.to_nat _) with (length name) by lia. apply take_app_length.
  - replace (Z.to_nat _) with NAME_MAX by lia. rewrite take_app_le by lia. done.
Qed.

Lemma lists_eq e a : lists e a =
  if ra_seen a <? ra_skip a then Done (0, Rda (ra_skip a) (ra_seen a + 1) (ra_dst a) (ra_nleft a) (ra_base a) (ra_feature a))
  else if ra_nleft a <? sizeof_dirent then Done (1, a)
  else Done (0, Rda (ra_skip a) (ra_seen a + 1) (ra_dst a ++ dirents (ra_feature a) (ra_base a + Z.of_nat (length (ra_dst a))) [e]) (ra_nleft a - sizeof_dirent) (ra_base a) (ra_feature a)).
Proof using.
  unfold lists, readdir_cb. destruct (ra_seen a <? ra_skip a); [done|]. destruct (ra_nleft a <? sizeof_dirent); [done|]. cbn [de_rest de_name_len de_inode de_file_type]. unfold name_len. rewrite <- (app_nil_r (e_name e)) at 1. rewrite name_bytes. run. cbn [dirents]. by rewrite app_nil_r.
Qed.

Lemma visit_lists es : ∀ a, 0 ≤ ra_seen a → 0 ≤ ra_nleft a → ∃ r a', visit lists es a = Done (r, a') ∧
  ra_dst a' = ra_dst a ++ dirents (ra_feature a) (ra_base a + Z.of_nat (length (ra_dst a))) (take (Z.to_nat (ra_nleft a / sizeof_dirent)) (drop (Z.to_nat (ra_skip a - ra_seen a)) (filter (λ e, live e = true) es))).
Proof using.
  induction es as [|e es IH]; intros a Hs Hn; cbn [visit].
  { exists 0, a. rewrite filter_nil, drop_nil, take_nil. split; [done|]. by rewrite app_nil_r. }
  rewrite filter_cons. destruct (live e) eqn:El; [rewrite decide_True by done|by rewrite decide_False; [apply IH|]]. rewrite lists_eq. destruct (Z.ltb_spec (ra_seen a) (ra_skip a)) as [Hk|Hk]; run; cbn [Z.eqb negb].
  { edestruct IH as (r & a' & E & Ed); [| |exists r, a'; split; [exact E|]]; [cbn; lia|cbn; lia|]. rewrite Ed. cbn [ra_dst ra_feature ra_base ra_nleft ra_skip ra_seen].
    replace (Z.to_nat (ra_skip a - ra_seen a)) with (S (Z.to_nat (ra_skip a - (ra_seen a + 1)))) by lia. done. }
  replace (Z.to_nat (ra_skip a - ra_seen a)) with 0%nat by lia. destruct (Z.ltb_spec (ra_nleft a) sizeof_dirent) as [Hf|Hf]; run.
  { exists 1, a. split; [done|]. rewrite Z.div_small by lia. cbn. by rewrite app_nil_r. }
  run. cbn [Z.eqb negb].
  edestruct IH as (r & a' & E & Ed); [| |exists r, a'; split; [exact E|]]; [cbn; lia|cbn; lia|]. rewrite Ed. cbn [ra_dst ra_feature ra_base ra_nleft ra_skip ra_seen].
  replace (Z.to_nat (ra_skip a - (ra_seen a + 1))) with 0%nat by lia. replace (Z.to_nat (ra_nleft a / sizeof_dirent)) with (S (Z.to_nat ((ra_nleft a - sizeof_dirent) / sizeof_dirent))).
  2:{ replace (ra_nleft a) with (ra_nleft a - sizeof_dirent + 1 * sizeof_dirent) at 2 by lia. rewrite Z.div_add by done. pose proof (Z.div_pos (ra_nleft a - sizeof_dirent) sizeof_dirent). unfold sizeof_dirent in *. lia. }
  rewrite !drop_0. cbn [take dirents]. rewrite app_nil_r, <- app_assoc. do 2 f_equal. rewrite length_app, Nat2Z.inj_add, dirent_len by (rewrite length_take; unfold DIRSIZ; lia). f_equal. lia.
Qed.

Lemma readdir_ok m sb s es off n : directory m sb s es → 0 ≤ off → off mod sizeof_dirent = 0 → 0 ≤ n < 2 ^ 31 →
  let l := dirents (feature_incompat sb) off (take (Z.to_nat (n / sizeof_dirent)) (drop (Z.to_nat (off / sizeof_dirent)) (filter (λ e, live e = true) es))) in
  ext2_readdir rd m off n s = Done (Z.of_nat (length l), l, s).
Proof using rd_len.
  intros Hd Ho Hm Hn l. unfold ext2_readdir. rewrite (sb_of rd m sb s (di_read _ _ _ _ Hd)). run. rewrite Hm, Z.eqb_refl. cbn [negb].
  rewrite (iterate_visit m sb s es Hd _ lists) by (intros e rest a He Hl; unfold lists, readdir_cb; cbn [de_rest de_name_len]; unfold name_len; pose proof (name_bytes (e_name e) []) as Hb; rewrite app_nil_r in Hb; by rewrite name_bytes, Hb).
  destruct (visit_lists es (Rda (off / sizeof_dirent) 0 [] n off (feature_incompat sb))) as (r & a & E & Ed); [done|cbn; lia|]. rewrite E. run. rewrite Ed. cbn [ra_dst ra_feature ra_base ra_nleft ra_skip ra_seen app length]. rewrite Z.add_0_r, Z.sub_0_r. fold l. rewrite s32_small; [done|].
  split; [lia|]. unfold l. rewrite dirents_len, length_take. pose proof (Z.mul_div_le n sizeof_dirent). pose proof (Z.div_pos n sizeof_dirent). unfold sizeof_dirent in *. lia.
Qed.
End Walk.
