(* ===== verification/Ext2Ops.v ===== *)
(** [Ext2Ops]: the cache of ext2 inodes over every sequence of operations.  An
    inode in the cache agrees with the inode on the disk of its mount, there is
    one for each number of a mount, and its mount is not gone.  With it, what
    looking up a name and reading return, from the disk alone. *)
From Stdlib Require Import ZArith Lia.
From stdpp Require Import numbers strings gmap list.
From S2P Require Import Prelude MemLayout Vfs Ext2 Ext2Spec.
Open Scope Z_scope.

Section Cache.
Context (rd : nat → Z → option (list Z)).

(** The inode with a number, as the disk has it. *)
Definition p_inode (sb : ext2_sb_info) (inum : Z) : option disk_inode :=
  if (inum =? 0) || (inodes_per_group sb =? 0) || negb ((inum - 1) / inodes_per_group sb =? 0) || (block_size sb =? 0) then None
  else
    let at_ := u32 ((inum - 1) mod inodes_per_group sb * inode_size sb) in
    blk ← ext2_read_block rd sb (u32 (inode_table sb + at_ / block_size sb));
    match (raw ← bytes_at blk (at_ mod block_size sb) (Z.min sizeof_disk_inode (inode_size sb)); decode_inode (raw ++ repeat 0 (Z.to_nat sizeof_disk_inode))) with
    | Done din => Some din
    | _ => None
    end.

Definition agrees (sb : ext2_sb_info) (m : ext2_mnode) : Prop :=
  ∃ din, p_inode sb (m_inum m) = Some din ∧ m_type m = mode_to_type (i_mode din) ∧ m_size m = i_size din ∧ m_i_block m = di_block din.

Definition node_ok (l : list (option ext2_sb_info)) (m : ext2_mnode) : Prop :=
  m_type m ≠ 0 → 0 ≤ m_ref m ∧ ∃ i sb, m_i_sb m = Some i ∧ m_sbi m = Some i ∧ l !! i = Some (Some sb) ∧ agrees sb m.

Definition same_key (a b : ext2_mnode) : Prop := m_type a ≠ 0 ∧ m_type b ≠ 0 ∧ m_sbi a = m_sbi b ∧ m_inum a = m_inum b.

Record coherent (s : ext2) : Prop := {
  co_nodes : Forall (node_ok (sbs s)) (eicache s);
  co_once i j a b : eicache s !! i = Some a → eicache s !! j = Some b → same_key a b → i = j
}.

(** ** Steps that touch one node *)

Lemma coherent_same s s' : eicache s' = eicache s → sbs s' = sbs s → coherent s → coherent s'.
Proof using. intros E1 E2 [H1 H2]. split; [by rewrite E1, E2|by rewrite E1]. Qed.

(** A node that is free afterwards, or has the key it had. *)
Lemma coherent_set s i m m' : coherent s → eicache s !! i = Some m → node_ok (sbs s) m' →
  (m_type m' ≠ 0 → ∀ j b, j ≠ i → eicache s !! j = Some b → m_type b ≠ 0 → m_sbi b = m_sbi m' → m_inum b ≠ m_inum m') →
  coherent (set_mnode i m' s).
Proof using.
  intros [H1 H2] Hi Hok Hkey. split; cbn; [by apply Forall_insert|]. assert (i < length (eicache s))%nat as Hlt by (by eapply lookup_lt_Some).
  intros j k a b Ha Hb (Ta & Tb & Es & En). destruct (decide (j = i)) as [->|Hj], (decide (k = i)) as [->|Hk]; [done| | |].
  - rewrite list_lookup_insert_eq in Ha by done. rewrite list_lookup_insert_ne in Hb by done. injection Ha as <-. by destruct (Hkey Ta k b Hk Hb Tb).
  - rewrite list_lookup_insert_eq in Hb by done. rewrite list_lookup_insert_ne in Ha by done. injection Hb as <-. by destruct (Hkey Tb j a Hj Ha Ta).
  - rewrite list_lookup_insert_ne in Ha, Hb by done. by apply (H2 j k a b).
Qed.

Lemma coherent_keep s i m m' : coherent s → eicache s !! i = Some m → m_type m' = m_type m → m_inum m' = m_inum m → m_size m' = m_size m →
  m_i_sb m' = m_i_sb m → m_sbi m' = m_sbi m → m_i_block m' = m_i_block m → (0 ≤ m_ref m → 0 ≤ m_ref m') → coherent (set_mnode i m' s).
Proof using.
  intros Hc Hi Et En Ez Ei Es Eb Er. apply (coherent_set s i m); [done|done| |].
  - pose proof (co_nodes _ Hc) as Hn. rewrite Forall_lookup in Hn. specialize (Hn i m Hi). unfold node_ok, agrees in *. rewrite Et, En, Ez, Ei, Es, Eb. naive_solver.
  - rewrite Et, En, Es. intros Ht j b Hj Hb Tb Esb Enb. apply Hj. by apply (co_once _ Hc j i b m).
Qed.

Lemma coherent_free s i m m' : coherent s → eicache s !! i = Some m → m_type m' = 0 → coherent (set_mnode i m' s).
Proof using. intros Hc Hi Ht. apply (coherent_set s i m); [done|done|by intros ?|done]. Qed.

(** ** Getting an inode *)

Lemma ask_same s ok s1 : ask_memory s = (ok, s1) → eicache s1 = eicache s ∧ sbs s1 = sbs s.
Proof using. unfold ask_memory. destruct (answers s); by intros [= <- <-]. Qed.

Lemma iget_coherent sbi inum s o s' : coherent s → ext2_iget rd sbi inum s = Done (o, s') → coherent s' ∧ sbs s' = sbs s ∧
  match o with
  | None => ∀ i m, eicache s' !! i = Some m → m_type m ≠ 0 → eicache s !! i = Some m
  | Some i => ∃ m, eicache s' !! i = Some m ∧ m_type m ≠ 0 ∧ m_sbi m = Some sbi ∧ m_inum m = inum
  end.
Proof using.
  intros Hc. unfold ext2_iget. destruct (inum =? 0) eqn:Ei0; [by intros [= <- <-]|]. destruct (list_find (cached sbi inum) (eicache s)) as [[i m]|] eqn:Ef.
  { apply list_find_Some in Ef as (Hi & (Ht & Hs & Hn) & _). intros [= <- <-]. split; [|split; [done|]].
    - apply (coherent_keep s i m); try done. cbn. lia.
    - cbn. rewrite list_lookup_insert_eq by (by eapply lookup_lt_Some). by eexists. }
  destruct (list_find (λ m, m_type m = 0) (eicache s)) as [[i m]|] eqn:Eg; [|by intros [= <- <-]]. apply list_find_Some in Eg as (Hi & Ht & _).
  destruct (get_sbi sbi s) as [sb| | |] eqn:Esb; run; [|done..]. destruct (inodes_per_group sb =? 0) eqn:Eipg; [done|]. destruct ((inum - 1) / inodes_per_group sb =? 0) eqn:Eg0; cbn [negb]; [|by intros [= <- <-]]. destruct (block_size sb =? 0) eqn:Ebs; [done|].
  destruct (ask_memory s) as [ok s1] eqn:Em. destruct (ask_same s ok s1 Em) as [E1 E2]. assert (coherent s1) as Hc1 by (by apply (coherent_same s)).
  assert (∀ i m, eicache s1 !! i = Some m → m_type m ≠ 0 → eicache s !! i = Some m) as Hsame by (by rewrite E1).
  destruct ok; cbn [negb]; [|by intros [= <- <-]]. destruct (ext2_read_block rd sb _) as [blk|] eqn:Eblk; [|by intros [= <- <-]].
  destruct (bytes_at blk _ _) as [raw| | |] eqn:Eraw; run; [|done..]. destruct (decode_inode _) as [din| | |] eqn:Edin; run; [|done..]. rewrite <- E1 in Hi. destruct (Z.eqb_spec (mode_to_type (i_mode din)) 0) as [Hz|Hnz].
  { intros [= <- <-]. split; [by apply (coherent_free s1 i m)|split; [done|]]. intros j b. cbn. destruct (decide (j = i)) as [->|Hj]; [|by rewrite list_lookup_insert_ne by done; apply Hsame].
    rewrite list_lookup_insert_eq by (by eapply lookup_lt_Some). by intros [= <-]. }
  intros [= <- <-]. split; [|split; [done|]].
  - apply (coherent_set s1 i m); [done|done| |].
    + intros _. split; [done|]. exists sbi, sb. split; [done|split; [done|split]]. { rewrite E2. unfold get_sbi in Esb. destruct (sbs s !! sbi) as [[x|]|]; cbn in Esb; by simplify_eq. }
      exists din. split; [|done]. unfold p_inode. cbn [m_inum]. rewrite Ei0, Eipg, Eg0, Ebs. cbn [negb orb]. rewrite Eblk. cbn [mbind option_bind]. rewrite Eraw. run. by rewrite Edin.
    + intros _ j b _ Hb Tb Es En. rewrite E1 in Hb. apply list_find_None in Ef. rewrite Forall_lookup in Ef. by apply (Ef j b Hb).
  - cbn. rewrite list_lookup_insert_eq by (by eapply lookup_lt_Some). by eexists.
Qed.

(** An inode of a supported kind is found as soon as a slot is free. *)
Lemma iget_found sbi sb inum s din : coherent s → sbs s !! sbi = Some (Some sb) → p_inode sb inum = Some din → mode_to_type (i_mode din) ≠ 0 →
  Exists (λ m, m_type m = 0) (eicache s) → answers s = [] → ∃ i s', ext2_iget rd sbi inum s = Done (Some i, s').
Proof using.
  intros Hc Hsb Hp Ht Hfree Hmem. unfold ext2_iget. unfold p_inode in Hp. destruct (inum =? 0); [done|]. destruct (list_find (cached sbi inum) (eicache s)) as [[i m]|]; [by eexists _, _|].
  destruct (list_find (λ m, m_type m = 0) (eicache s)) as [[i m]|] eqn:Eg. 2:{ apply list_find_None in Eg. apply Exists_exists in Hfree as (x & Hx & Hx0). rewrite Forall_forall in Eg. by destruct (Eg x Hx). }
  assert (get_sbi sbi s = Done sb) as -> by (unfold get_sbi; by rewrite Hsb). run. destruct (inodes_per_group sb =? 0); [done|]. cbn [orb] in Hp. destruct ((inum - 1) / inodes_per_group sb =? 0); [|done]. cbn [negb orb] in *. destruct (block_size sb =? 0); [done|]. rewrite memory_yes by done. cbn [negb].
  destruct (ext2_read_block rd sb _) as [blk|]; [|done]. cbn [mbind option_bind] in Hp. destruct (bytes_at blk _ _) as [raw| | |]; run; [|done..]. cbn [mbind outcome_mbind outcome_bind] in Hp. destruct (decode_inode _) as [d| | |]; [|done..]. run. injection Hp as ->. 
  rewrite (proj2 (Z.eqb_neq _ _) Ht). by eexists _, _.
Qed.
(** ** Reading changes nothing *)

Definition quiet (s s' : ext2) : Prop := eicache s' = eicache s ∧ sbs s' = sbs s.

Lemma quiet_trans s1 s2 s3 : quiet s1 s2 → quiet s2 s3 → quiet s1 s3.
Proof using. intros [A1 A2] [B1 B2]. split; congruence. Qed.

Lemma bmap_quiet m sb lbn s p s' : ext2_bmap rd m sb lbn s = Done (p, s') → quiet s s'.
Proof using.
  unfold ext2_bmap. destruct (negb _); [by intros [= <- <-]|]. destruct (lbn <? _); [destruct (_ !! _); cbn; [by intros [= <- <-]|done]|]. destruct (lbn - _ <? _); [|by intros [= <- <-]].
  destruct (m_i_block m !! _) as [b|]; cbn [deref]; run; [|done]. destruct (b =? 0); [by intros [= <- <-]|]. destruct (ask_memory s) as [ok s1] eqn:Em. apply ask_same in Em. destruct ok; cbn [negb]; [|by intros [= <- <-]].
  destruct (ext2_read_block rd sb b); [|by intros [= <- <-]]. destruct (u32_at _ _); run; [by intros [= <- <-]|done..].
Qed.

Lemma read_loop_quiet m sb off n fuel : ∀ dst s r s', read_data_loop rd fuel m sb off n dst s = Done (r, s') → quiet s s'.
Proof using.
  induction fuel as [|fuel IH]; intros dst s r s'; cbn [read_data_loop]; [done|]. destruct (_ <? n); [|by intros [= <- <-]]. destruct (ext2_bmap rd m sb _ s) as [[p s1]| | |] eqn:Eb; run; [|done..]. apply bmap_quiet in Eb.
  destruct (p =? 0); [intros H%IH; by apply (quiet_trans _ s1)|]. destruct (ext2_read_block rd sb p); [|by intros [= <- <-]]. destruct (bytes_at _ _ _); run; [|done..]. intros H%IH. by apply (quiet_trans _ s1).
Qed.

Lemma dir_loop_quiet {A} (cb : ext2_dir_entry → A → outcome (Z * A)) m sb fuel : ∀ off blk a s r s', dir_loop rd cb fuel m sb off blk a s = Done (r, s') → quiet s s'.
Proof using.
  induction fuel as [|fuel IH]; intros off blk a s r s'; cbn [dir_loop]; [done|]. destruct (off <? m_size m); [|by intros [= <- <-]].
  assert (∀ blk s0, quiet s s0 → (rl ← u16_at blk (off mod block_size sb + 4);
      if (rl <? 8) || (block_size sb <? off mod block_size sb + rl) then mret (-1, a, s0)
      else ino ← u32_at blk (off mod block_size sb); nlen ← u8_at blk (off mod block_size sb + 6); ft ← u8_at blk (off mod block_size sb + 7);
        if negb (ino =? 0) && negb (nlen =? 0) then
          '(r, a) ← cb (De ino rl nlen ft (drop (Z.to_nat (off mod block_size sb + 8)) blk)) a;
          if negb (r =? 0) then mret (r, a, s0) else dir_loop rd cb fuel m sb (u32 (off + rl)) blk a s0
        else dir_loop rd cb fuel m sb (u32 (off + rl)) blk a s0) = Done (r, s') → quiet s s') as Hentry.
  { intros b s0 Hq. destruct (u16_at _ _) as [rl| | |]; run; [|done..]. destruct (_ || _); [by intros [= <- <-]|]. destruct (u32_at _ _); run; [|done..]. destruct (u8_at _ (_ + 6)); run; [|done..]. destruct (u8_at _ (_ + 7)); run; [|done..].
    destruct (_ && _); [|intros H%IH; by apply (quiet_trans _ s0)]. destruct (cb _ a) as [[r' a']| | |]; run; [|done..]. destruct (negb _); [by intros [= <- <-]|]. intros H%IH. by apply (quiet_trans _ s0). }
  destruct (_ =? 0); [|by apply Hentry]. destruct (ext2_bmap rd m sb _ s) as [[p s1]| | |] eqn:Eb; run; [|done..]. apply bmap_quiet in Eb. destruct (p =? 0); [by intros [= <- <-]|]. destruct (ext2_read_block rd sb p); [|by intros [= <- <-]]. by apply Hentry.
Qed.

Lemma iterate_quiet {A} (cb : ext2_dir_entry → A → outcome (Z * A)) m a s r s' : ext2_dir_iterate rd cb m a s = Done (r, s') → quiet s s'.
Proof using.
  unfold ext2_dir_iterate. destruct (EXT2_SB m s) as [[sb|]| | |]; run; [|by intros [= <- <-]|done..]. destruct (negb _); [by intros [= <- <-]|]. destruct (ask_memory s) as [ok s1] eqn:Em. apply ask_same in Em.
  destruct ok; cbn [negb]; [|by intros [= <- <-]]. intros H%dir_loop_quiet. by apply (quiet_trans _ s1).
Qed.

Lemma read_quiet i off n s r s' : ext2_read rd i off n s = Done (r, s') → quiet s s'.
Proof using.
  unfold ext2_read. destruct (get_mnode i s) as [m| | |]; run; [|done..]. destruct (_ =? T_DIR).
  - unfold ext2_readdir. destruct (EXT2_SB m s) as [[sb|]| | |]; run; [|by intros [= <- <-]|done..]. destruct (negb _); [by intros [= <- <-]|]. destruct (ext2_dir_iterate _ _ _ _ _) as [[[? ?] s1]| | |] eqn:Ei; run; [|done..]. apply iterate_quiet in Ei. by intros [= <- <-].
  - destruct (_ =? T_FILE); [|by intros [= <- <-]]. unfold ext2_read_data. destruct (EXT2_SB m s) as [[sb|]| | |]; run; [|by intros [= <- <-]|done..]. destruct (_ <=? off); [by intros [= <- <-]|]. destruct (ask_memory s) as [ok s1] eqn:Em. apply ask_same in Em.
    destruct ok; cbn [negb]; [|by intros [= <- <-]]. intros H%read_loop_quiet. by apply (quiet_trans _ s1).
Qed.

(** ** Sequences of operations *)

(** [fs_iput] of an ext2 inode; [root] tells whether it is the root of the VFS. *)
Definition put (i : nat) (root : bool) (s : ext2) : outcome ext2 :=
  m ← get_mnode i s;
  if m_ref m <=? 0 then Panic "fs_iput"
  else
    let s := set_mnode i (Mnode (m_type m) (m_inum m) (m_size m) (m_ref m - 1) (m_parent m) (m_name m) (m_i_sb m) (m_sbi m) (m_i_block m)) s in
    if (m_ref m - 1 =? 0) && negb root then ext2_evict i s else mret s.

Inductive eop :=
| OMount (gd : nat)
| OUmount (sbi : nat)
| OLookup (dir : nat) (name : str)
| ORead (i : nat) (off n : Z)
| OPut (i : nat) (root : bool).

Definition edo (o : eop) (s : ext2) : outcome ext2 :=
  match o with
  | OMount gd => '(_, s) ← ext2_fill_super rd gd s; mret s
  | OUmount sbi => mret (ext2_put_super sbi s)
  | OLookup dir name => '(_, s) ← ext2_lookup rd dir name s; mret s
  | ORead i off n => '(_, s) ← ext2_read rd i off n s; mret s
  | OPut i root => put i root s
  end.

Fixpoint erun (os : list eop) (s : ext2) : outcome ext2 :=
  match os with [] => mret s | o :: os => s ← edo o s; erun os s end.

Definition ext2_boot : ext2 := Ext2 (repeat free_mnode EXT2_NICACHE) [] [].
Lemma coherent_boot : coherent ext2_boot.
Proof using.
  split; cbn [eicache ext2_boot].
  - apply Forall_forall. intros m ->%list_elem_of_In%repeat_spec. by intros [].
  - intros i j a b Ha _ [Ta _]. apply list_elem_of_lookup_2, list_elem_of_In, repeat_spec in Ha. by subst.
Qed.

(** The table of mounts may change where no inode in use belongs. *)
Lemma coherent_sbs s l : coherent s → (∀ i sb k m, sbs s !! i = Some (Some sb) → eicache s !! k = Some m → m_type m ≠ 0 → m_sbi m = Some i → l !! i = Some (Some sb)) → coherent (with_sbs l s).
Proof using.
  intros [H1 H2] Hl. split; cbn; [|done]. rewrite Forall_lookup in H1 |- *. intros k m Hm Ht. destruct (H1 k m Hm Ht) as (Hr & i & sb & E1 & E2 & E3 & Ha). split; [done|]. exists i, sb. by rewrite (Hl i sb k m).
Qed.

Lemma read_super_quiet gd s o s' : ext2_read_super rd gd s = Done (o, s') → quiet s s'.
Proof using.
  unfold ext2_read_super. destruct (ext2_read_sb_raw rd gd) as [b|]; [|by intros [= <- <-]]. destruct (u16_at b 56); run; [|done..]. destruct (negb _); [by intros [= <- <-]|]. destruct (u32_at b 24); run; [|done..]. destruct (32 <=? _); [done|]. destruct (_ || _); [by intros [= <- <-]|].
  destruct (u32_at b 40); run; [|done..]. destruct (u32_at b 20); run; [|done..]. destruct (u32_at b 96); run; [|done..]. destruct (u32_at b 76); run; [|done..]. destruct (u16_at b 88); run; [|done..]. destruct (ask_memory s) as [ok s1] eqn:Em. apply ask_same in Em. destruct ok; cbn [negb]; [|by intros [= <- <-]].
  destruct (ext2_read_block _ _ _); [|by intros [= <- <-]]. destruct (u32_at _ 8); run; [by intros [= <- <-]|done..].
Qed.

Lemma mount_coherent gd s o s' : coherent s → ext2_fill_super rd gd s = Done (o, s') → coherent s'.
Proof using.
  intros Hc. unfold ext2_fill_super. destruct (ask_memory s) as [ok s1] eqn:Em. destruct (ask_same _ _ _ Em) as [E1 E2]. apply (coherent_same s s1) in Hc as Hc1; [|done..]. destruct ok; cbn [negb]; [|by intros [= <- <-]].
  destruct (ext2_read_super rd gd s1) as [[x s2]| | |] eqn:Er; run; [|done..]. apply read_super_quiet in Er as [E3 E4]. apply (coherent_same s1 s2) in Hc1 as Hc2; [|done..]. destruct x as [sb|]; [|by intros [= <- <-]].
  set (s3 := with_sbs (sbs s2 ++ [Some sb]) s2). assert (coherent s3) as Hc3 by (apply coherent_sbs; [done|]; intros i ? ? ? Hi _ _ _; by apply lookup_app_l_Some).
  destruct (ext2_iget rd _ _ s3) as [[root s4]| | |] eqn:Eg; run; [|done..]. destruct (iget_coherent _ _ _ _ _ Hc3 Eg) as (Hc4 & Es4 & Hroot). destruct root as [r|]; intros [= <- <-]; [done|].
  apply coherent_sbs; [done|]. intros i sb' k m Hi Hk Ht Hs. rewrite list_lookup_insert_ne; [done|]. intros <-. apply Hroot in Hk; [|done]. pose proof (co_nodes _ Hc2) as Hn. rewrite Forall_lookup in Hn. destruct (Hn k m Hk Ht) as (_ & j & ? & _ & Ej & Hj & _). apply lookup_lt_Some in Hj. rewrite Hs in Ej. injection Ej as <-. lia.
Qed.

Lemma umount_coherent sbi s : coherent s → coherent (ext2_put_super sbi s).
Proof using.
  intros [H1 H2]. split; cbn.
  - rewrite Forall_fmap. eapply Forall_impl; [exact H1|]. intros m Hm. unfold compose. case_bool_decide as E; [by intros []|]. intros Ht. destruct (Hm Ht) as (Hr & i & sb & E1 & E2 & E3 & Ha). split; [done|]. exists i, sb. rewrite list_lookup_insert_ne; [done|]. by intros <-.
  - intros i j a b. rewrite !list_lookup_fmap. destruct (eicache s !! i) as [a'|] eqn:Ea; [|done]. destruct (eicache s !! j) as [b'|] eqn:Eb; [|done]. cbn. intros [= <-] [= <-] (Ta & Tb & Es & En).
    case_bool_decide; [done|]. case_bool_decide; [done|]. by apply (H2 i j a' b').
Qed.

Lemma lookup_coherent dir name s o s' : coherent s → ext2_lookup rd dir name s = Done (o, s') → coherent s'.
Proof using.
  intros Hc. unfold ext2_lookup. destruct (get_mnode dir s) as [m| | |]; run; [|done..]. destruct (m_i_sb m) as [sbi|]; [|by intros [= <- <-]]. destruct (negb _); [by intros [= <- <-]|]. destruct (ext2_dir_iterate _ _ _ _ _) as [[[r inum] s1]| | |] eqn:Ei; run; [|done..].
  apply iterate_quiet in Ei as [E1 E2]. apply (coherent_same s s1) in Hc as Hc1; [|done..]. destruct (_ || _); [by intros [= <- <-]|]. destruct (ext2_iget rd sbi inum s1) as [[x s2]| | |] eqn:Eg; run; [|done..]. destruct (iget_coherent _ _ _ _ _ Hc1 Eg) as (Hc2 & _ & Hx). destruct x as [i|]; [|by intros [= <- <-]].
  destruct Hx as (c & Hi & _). unfold get_mnode. rewrite Hi. cbn [deref]. run. intros [= <- <-]. by apply (coherent_keep s2 i c).
Qed.

Lemma put_coherent i root s s' : coherent s → put i root s = Done s' → coherent s'.
Proof using.
  intros Hc. unfold put, get_mnode. destruct (eicache s !! i) as [m|] eqn:Ei; cbn [deref]; run; [|done]. destruct (Z.leb_spec (m_ref m) 0) as [|Hpos]; [done|]. set (s1 := set_mnode i _ s). assert (coherent s1) as Hc1 by (apply (coherent_keep s i m); try done; cbn; lia).
  destruct (_ && _); [|by intros [= <-]]. unfold ext2_evict, get_mnode. cbn [s1 set_mnode with_cache eicache]. rewrite list_lookup_insert_eq by (by eapply lookup_lt_Some). cbn [deref]. run. intros [= <-]. eapply (coherent_free s1 i); [done| |done]. cbn. by rewrite list_lookup_insert_eq by (by eapply lookup_lt_Some).
Qed.

Lemma edo_coherent o s s' : coherent s → edo o s = Done s' → coherent s'.
Proof using.
  intros Hc. destruct o as [gd|sbi|dir name|i off n|i root]; cbn [edo].
  - destruct (ext2_fill_super rd gd s) as [[x s1]| | |] eqn:E; run; [|done..]. intros [= <-]. by eapply mount_coherent.
  - intros [= <-]. by apply umount_coherent.
  - destruct (ext2_lookup rd dir name s) as [[x s1]| | |] eqn:E; run; [|done..]. intros [= <-]. by eapply lookup_coherent.
  - destruct (ext2_read rd i off n s) as [[x s1]| | |] eqn:E; run; [|done..]. intros [= <-]. apply read_quiet in E as [E1 E2]. by apply (coherent_same s).
  - by apply put_coherent.
Qed.

(** C24: over any sequence of mounts, unmounts, lookups, reads and puts from boot,
    whatever the disks hold, whatever [kmalloc] answers and whichever reads
    fail, every inode in the cache belongs to a mount that still exists and has
    the type, the size and the blocks of the inode on its disk, and no inode of
    a mount is in the cache twice. *)
Theorem ext2_cache_coherent (os : list eop) (mem : list bool) (s : ext2) :
  erun os (Ext2 (eicache ext2_boot) (sbs ext2_boot) mem) = Done s → coherent s.
Proof using.
  assert (coherent (Ext2 (eicache ext2_boot) (sbs ext2_boot) mem)) as Hc by (by apply (coherent_same ext2_boot); [..|apply coherent_boot]). revert Hc. generalize (Ext2 (eicache ext2_boot) (sbs ext2_boot) mem).
  induction os as [|o os IH]; intros s0 Hc; cbn [erun]; [by intros [= <-]|]. destruct (edo o s0) as [s1| | |] eqn:E; run; [|done..]. by apply IH, (edo_coherent o s0).
Qed.
End Cache.

(** * What the operations of ext2 return, from what is on the disk: a read
    of a file is a part of its contents, a listing is the entries of the
    directory, and a lookup finds the inode of the first entry with the name. *)

Section Ops.
Context (rd : nat → Z → option (list Z)).
Context (rd_len : ∀ d s l, rd d s = Some l → length l = Z.to_nat SECTOR).

(** C22: reading [n] bytes at [off] of a file whose blocks can be read, block by block
    through the direct and the indirect pointers and with holes as zeros,
    returns exactly that part of its contents, cut at the end of the file. *)
Theorem ext2_read_spec (i : nat) (m : ext2_mnode) (sb : ext2_sb_info) (s : ext2) (off n : Z) :
  eicache s !! i = Some m → m_type m = T_FILE → readable rd m sb s → 0 ≤ off → 0 ≤ n < 2 ^ 31 → off + n < 2 ^ 32 →
  let l := take (Z.to_nat n) (drop (Z.to_nat off) (content rd m sb)) in
  ext2_read rd i off n s = Done (Z.of_nat (length l), l, s).
Proof using rd_len.
  intros Hi Ht Hr Ho Hn He l. unfold ext2_read, get_mnode. rewrite Hi. cbn [deref]. run. rewrite Ht. change (T_FILE =? T_DIR) with false. rewrite Z.eqb_refl. cbn match. by apply (read_data_ok rd rd_len).
Qed.

(** reading a directory at a whole number of records returns the records of as
    many of its entries in use as fit, from that record on. *)
Theorem ext2_list_spec (i : nat) (m : ext2_mnode) (sb : ext2_sb_info) (s : ext2) (es : list dent) (off n : Z) :
  eicache s !! i = Some m → directory rd m sb s es → 0 ≤ off → off mod sizeof_dirent = 0 → 0 ≤ n < 2 ^ 31 →
  let l := dirents (feature_incompat sb) off (take (Z.to_nat (n / sizeof_dirent)) (drop (Z.to_nat (off / sizeof_dirent)) (filter (λ e, live e = true) es))) in
  ext2_read rd i off n s = Done (Z.of_nat (length l), l, s).
Proof using rd_len.
  intros Hi Hd Ho Hm Hn l. unfold ext2_read, get_mnode. rewrite Hi. cbn [deref]. run. rewrite (di_type _ _ _ _ _ Hd), Z.eqb_refl. cbn match. by apply (readdir_ok rd rd_len).
Qed.

(** C23: looking up a name in a directory finds nothing when no entry in use has it.
    When one has, and its inode is a file or a directory and a slot of the
    cache is free, the first such entry's inode is returned, in the cache under
    its number with the type, size and blocks of the disk and the name asked for. *)
Theorem ext2_lookup_spec (dir sbi : nat) (name : str) (m : ext2_mnode) (sb : ext2_sb_info) (s : ext2) (es : list dent) :
  coherent rd s → eicache s !! dir = Some m → m_i_sb m = Some sbi → directory rd m sb s es → Forall (λ e, 0 ∉ e_name e) es → 0 ∉ name →
  match find_name name es with
  | None => ext2_lookup rd dir name s = Done (None, s)
  | Some e =>
      (∃ din, p_inode rd sb (e_ino e) = Some din ∧ mode_to_type (i_mode din) ≠ 0) → Exists (λ m, m_type m = 0) (eicache s) →
      ∃ i c s', ext2_lookup rd dir name s = Done (Some i, s') ∧ coherent rd s' ∧ eicache s' !! i = Some c ∧
        m_inum c = e_ino e ∧ m_sbi c = Some sbi ∧ agrees rd sb c ∧ m_name c = take (DIRSIZ - 1) name
  end.
Proof using rd_len.
  intros Hc Hi Hs Hd Hes Hn. pose proof (iterate_lookup rd rd_len m sb s es name Hd Hes Hn) as Hit. destruct (rb_at _ _ _ _ (di_read _ _ _ _ _ Hd)) as (k & Ek & _ & Hsb). rewrite Hs in Ek. injection Ek as <-.
  assert (get_mnode dir s = Done m) as Hg by (unfold get_mnode; by rewrite Hi). destruct (find_name name es) as [e|] eqn:Ef.
  2:{ unfold ext2_lookup. rewrite Hg. run. rewrite Hs, (di_type _ _ _ _ _ Hd), Z.eqb_refl. cbn [negb]. rewrite Hit. done. }
  intros (din & Hp & Ht) Hfree. assert (e_ino e ≠ 0) as Hne. { unfold find_name in Ef. destruct (list_find _ es) as [[? x]|] eqn:El; [|done]. injection Ef as ->. apply list_find_Some in El as (_ & [Hl _] & _). unfold live in Hl. intros Hz. by rewrite Hz in Hl. }
  destruct (iget_found rd sbi sb (e_ino e) s din Hc Hsb Hp Ht Hfree (rb_mem _ _ _ _ (di_read _ _ _ _ _ Hd))) as (i & s1 & Eg). destruct (iget_coherent rd _ _ _ _ _ Hc Eg) as (Hc1 & Es1 & c & Hci & Tc & Sc & Nc).
  pose proof (co_nodes _ _ Hc1) as Hok. rewrite Forall_lookup in Hok. destruct (Hok i c Hci Tc) as (_ & j & sb' & _ & Ej & Hj & Ha). rewrite Sc in Ej. injection Ej as <-. rewrite Es1, Hsb in Hj. injection Hj as <-.
  eexists i, _, _. split; [|split; [|split; [|split; [|split; [|split]]]]].
  - unfold ext2_lookup. rewrite Hg. run. rewrite Hs, (di_type _ _ _ _ _ Hd), Z.eqb_refl. cbn [negb]. rewrite Hit. run. rewrite (proj2 (Z.eqb_neq _ _) Hne). cbn [negb Z.eqb Pos.eqb orb]. rewrite Eg. run. unfold get_mnode. rewrite Hci. cbn [deref]. run. reflexivity.
  - by apply (coherent_keep rd s1 i c).
  - cbn. apply list_lookup_insert_eq. by eapply lookup_lt_Some.
  - exact Nc.
  - exact Sc.
  - exact Ha.
  - reflexivity.
Qed.
End Ops.
