(* ===== verification/Ext2Demo.v ===== *)
(** [Ext2Demo]: a disk with an ext2 file system of blocks of 1024 bytes - a directory
    with a file in it - on which the theorems on ext2 are applied, and disks on
    which the code goes wrong. *)
From Stdlib Require Import ZArith Lia.
From stdpp Require Import numbers strings gmap list.
From S2P Require Import Prelude MemLayout Vfs Ext2 Ext2Spec Ext2Ops.
Open Scope Z_scope.

(** ** A disk *)

Definition patch (l : list Z) (off : nat) (b : list Z) : list Z := take off l ++ b ++ drop (off + length b) l.
Definition blank : list Z := repeat 0 1024.
Definition patches (p : list (nat * list Z)) : list Z := foldl (λ l x, patch l x.1 x.2) blank p.

Definition entries : list dent := [Dent 2 [46] 2 (repeat 0 3); Dent 0 [120] 1 (repeat 0 7); Dent 12 [104; 105] 1 (repeat 0 986)].

(** Superblock, group, inodes 2 and 12, the directory, blocks of the file. *)
Definition superblock (ipg : Z) : list Z := patches [(20%nat, le32 1); (24%nat, le32 0); (40%nat, le32 ipg); (56%nat, [83; 239]); (96%nat, le32 2)].
Definition blocks (ipg : Z) (dir : list Z) (b : Z) : list Z :=
  if b =? 1 then superblock ipg
  else if b =? 2 then patches [(8%nat, le32 5)]
  else if b =? 5 then patches [(128%nat, le32 0x41ed); (132%nat, le32 1024); (168%nat, le32 10)]
  else if b =? 6 then patches [(384%nat, le32 0x81a4); (388%nat, le32 13316); (424%nat, le32 11); (472%nat, le32 12)]
  else if b =? 10 then dir
  else if b =? 11 then repeat 65 1024
  else if b =? 12 then patches [(0%nat, le32 13)]
  else if b =? 13 then repeat 66 1024
  else blank.
Definition sect (bl : Z → list Z) (d : nat) (s : Z) : option (list Z) := Some (take 512 (drop (Z.to_nat (s mod 2 * 512)) (bl (s / 2)) ++ repeat 0 512)).

Definition disk0 : nat → Z → option (list Z) := sect (blocks 32 (mjoin (enc <$> entries))).

Lemma sect_len bl d s l : sect bl d s = Some l → length l = Z.to_nat SECTOR.
Proof. unfold sect. generalize (repeat_length 0 512). generalize (repeat 0 512). intros z Hz H. apply Some_inj in H. subst l. rewrite length_take, length_app, Hz. change (Z.to_nat SECTOR) with 512%nat. lia. Qed.

Lemma sect_block bl sb b : sb_ok sb → is_Some (ext2_read_block (sect bl) sb b).
Proof.
  intros Hsb. unfold ext2_read_block. rewrite (proj2 (Z.eqb_neq _ _)) by (pose proof (bs_pos sb Hsb); lia). generalize (u32 (b * block_size sb) / SECTOR) (Z.to_nat (block_size sb / SECTOR)). intros sec n. revert sec.
  induction n as [|n IH]; intros sec; [by eexists|]. cbn [read_sects]. destruct (IH (sec + 1)) as [l ->]. by eexists.
Qed.

Lemma sect_readable bl m sb s i : sb_ok sb → m_i_sb m = Some i → m_sbi m = Some i → sbs s !! i = Some (Some sb) → length (m_i_block m) = EXT2_N_BLOCKS → 0 ≤ m_size m < 2 ^ 32 → answers s = [] → readable (sect bl) m sb s.
Proof. intros. split; [done|by exists i|done|done| | |done]; intros; by apply sect_block. Qed.

(** ** Mounted, with the file looked up *)

Definition sb0 : ext2_sb_info := Sbi 0 1024 32 128 1 2 5.
Definition root0 : ext2_mnode := Mnode T_DIR 2 1024 1 None [] (Some 0%nat) (Some 0%nat) (10 :: repeat 0 14).
Definition file0 : ext2_mnode := Mnode T_FILE 12 13316 1 (Some 0%nat) [104; 105] (Some 0%nat) (Some 0%nat) (11 :: repeat 0 11 ++ [12; 0; 0]).
Definition mounted : ext2 := Ext2 (root0 :: repeat free_mnode 63) [Some sb0] [].
Definition looked_up : ext2 := Ext2 (root0 :: file0 :: repeat free_mnode 62) [Some sb0] [].

Lemma mount_runs : erun disk0 [OMount 0] ext2_boot = Done mounted.
Proof. vm_compute. reflexivity. Qed.
Lemma lookup_runs : erun disk0 [OMount 0; OLookup 0 [104; 105]] ext2_boot = Done looked_up.
Proof. vm_compute. reflexivity. Qed.

Lemma root0_directory : directory disk0 root0 sb0 mounted entries.
Proof.
  split; [apply (sect_readable _ _ _ _ 0); try done; by left|done|vm_compute; reflexivity|vm_compute; intuition discriminate| |].
  - repeat constructor; vm_compute; congruence.
  - intros lbn Hl Hlt. cbn in Hlt. replace lbn with 0 by lia. by vm_compute.
Qed.

Lemma mounted_coherent : coherent disk0 mounted.
Proof. pose proof mount_runs as H. cbn [erun] in H. destruct (edo disk0 (OMount 0) ext2_boot) as [s| | |] eqn:E; [|done..]. injection H as <-. by apply (edo_coherent disk0 (OMount 0) ext2_boot); [apply coherent_boot|]. Qed.

Lemma ext2_cache_coherent_witness : ∃ s, erun disk0 [OMount 0; OLookup 0 [104; 105]; OLookup 0 [104; 105]; OPut 1 false; OPut 1 false; OUmount 0] ext2_boot = Done s ∧ coherent disk0 s.
Proof. eexists. split; [vm_compute; reflexivity|]. apply (ext2_cache_coherent disk0 [OMount 0; OLookup 0 [104; 105]; OLookup 0 [104; 105]; OPut 1 false; OPut 1 false; OUmount 0] []). vm_compute. reflexivity. Defined.

Lemma ext2_lookup_spec_witness : ∃ i c s', ext2_lookup disk0 0 [104; 105] mounted = Done (Some i, s') ∧ coherent disk0 s' ∧ eicache s' !! i = Some c ∧ m_inum c = 12 ∧ m_sbi c = Some 0%nat ∧ agrees disk0 sb0 c ∧ m_name c = [104; 105].
Proof.
  refine (ext2_lookup_spec disk0 (sect_len _) 0 0 [104; 105] root0 sb0 mounted entries mounted_coherent eq_refl eq_refl root0_directory _ _ _ _).
  - apply (bool_decide_unpack _). vm_compute. exact I.
  - apply (bool_decide_unpack _). vm_compute. exact I.
  - eexists. split; [vm_compute; reflexivity|by vm_compute].
  - apply Exists_cons_tl, Exists_cons_hd. reflexivity.
Defined.

Lemma ext2_list_spec_witness : ext2_read disk0 0 39 100 mounted = Done (39, dirent_bytes 12 78 8 [104; 105], mounted).
Proof. etrans; [apply (ext2_list_spec disk0 (sect_len _) 0 root0 sb0 mounted entries 39 100 eq_refl root0_directory); vm_compute; intuition congruence|]. vm_compute. reflexivity. Defined.

(** The last byte of a direct block, a hole and the block behind the indirect one. *)
Lemma ext2_read_spec_witness :
  ext2_read disk0 1 1023 3 looked_up = Done (3, [65; 0; 0], looked_up) ∧ ext2_read disk0 1 12286 4 looked_up = Done (4, [0; 0; 66; 66], looked_up) ∧ ext2_read disk0 1 13314 100 looked_up = Done (2, [0; 0], looked_up).
Proof.
  assert (readable disk0 file0 sb0 looked_up) as Hr by (apply (sect_readable _ _ _ _ 0); try done; by left).
  split; [|split]; (etrans; [apply (ext2_read_spec disk0 (sect_len _) 1 file0 sb0 looked_up _ _ eq_refl eq_refl Hr); lia|]; cbv zeta; rewrite content_slice by (cbn [file0 m_size]; lia); vm_compute; reflexivity).
Defined.

(** ** What goes wrong *)

(** When there is no memory for the indirect block, [ext2_bmap] answers as for a hole:
    the read succeeds and returns zeros for the data. *)
Lemma no_memory_reads_zeros : ext2_read disk0 1 12288 2 (Ext2 (eicache looked_up) (sbs looked_up) [true; false]) = Done (2, [0; 0], looked_up) ∧
  ext2_read disk0 1 12288 2 looked_up = Done (2, [66; 66], looked_up).
Proof. vm_compute. done. Qed.

(** An entry in the last 8 bytes of a block with a name: its name is read behind the
    buffer. *)
Definition bad_dir : nat → Z → option (list Z) := sect (blocks 32 (mjoin (enc <$> [Dent 0 [120] 1 (repeat 0 1007)]) ++ le32 12 ++ [8; 0; 2; 1])).
Lemma name_behind_block : erun bad_dir [OMount 0; OLookup 0 [104; 105]] ext2_boot = Wild.
Proof. vm_compute. reflexivity. Qed.

(** A disk that claims 0 inodes per group stops the kernel when it is mounted. *)
Lemma no_inodes_per_group : erun (sect (blocks 0 blank)) [OMount 0] ext2_boot = Panic "divide error".
Proof. vm_compute. reflexivity. Qed.
